(* ===== verification/_CoqProject ===== *)
-Q . S2P
Prelude.v
CMonad.v
FuseTypes.v
FuseState.v
FuseNode.v
FuseTree.v
FuseRefs.v
FuseHandlers.v
FuseInv.v
FuseDerive.v
FuseGraph.v
FuseMutate.v
FuseMove.v
FuseSafe.v
FuseRename.v
FuseServe.v
FuseSpec.v
FusePolicy.v
Sdcard.v
SdcardSpec.v
FuseWitness.v
ShaderText.v
ShaderKey.v
ShaderGen.v
ShaderSpec.v
ProgramCache.v
ProgramSpec.v
ShaderWitness.v
BtTypes.v
HciBuf.v
HciCmds.v
HciCmdsSpec.v
HciParser.v
HciParserSpec.v
Controller.v
ControllerSpec.v
HciLayer.v
HciLayerInv.v
HciLayerEvents.v
HciLayerSpec.v
HciLayerLive.v
HciLayerFrame.v
H4.v
H4Spec.v
BtmDev.v
BtmDevSpec.v
BtuDefs.v
BtuHcif.v
BtuCmd.v
BtuHcifSpec.v
BtuEventSpec.v
BtuEncSpec.v
BtuTaskSpec.v
BtuFlow.v
BtuFlowSpec.v
BtuSendSpec.v
BtuCmdSpec.v
DispcTypes.v
SprdPanel.v
Dispc.v
DispcFrame.v
SprdFb.v
DispcInv.v
DispcPower.v
SprdFbSpec.v
DispcSpec.v
ShimPixels.v
Shim.v
ShimSafe.v
ShimSpec.v
ShimBoard.v
Ion.v
IonInv.v
IonSafe.v
IonCalls.v
IonDevice.v
IonSpec.v
BtWitness.v
BtuWitness.v
DispcWitness.v
