(* ===== verification/Prelude.v ===== *)
(** * LineageOS 17.1 for the Lenovo A1000: a verification library

    The repository holds the files of Android that this port changes.  Five of its
    parts carry logic of their own that is complete in the sources, and they are
    what this library models:

    - the [sdcard] daemon ([src/system/core/sdcard]): a FUSE file system over the
      internal storage that invents owners, groups and modes for every file;
    - the shader cache of [renderengine] ([src/frameworks/native/libs/renderengine/gl]),
      which turns the description of a layer into a key, a key into GLSL, and keeps
      the compiled programs, with the channel swizzle this device needs;
    - the lower half of the Bluetooth stack ([src/system/bt]): the HCI layer that
      exchanges commands and events with the chip, the LE commands, the parsers of
      the answers, the controller module that asks the chip what it can do, the serial
      transport, the device manager, and the code that takes events apart for all of
      the stack;
    - the way of a frame to the panel: the frame buffer driver of the kernel
      ([src/kernel/sc8830/drivers/video/sprdfb]) and the library between it and the
      display blobs of the vendor ([src/external/libui_shim]);
    - the kernel's allocator of graphics buffers
      ([src/kernel/sc8830/drivers/gpu/ion/ion.c]), which gives buffers to processes,
      passes them on as dma-bufs and maps them, with the choice of heaps of this device.

    ** How to read it

    Every file but this one belongs to one program, and its definitions have the
    names of the C++ functions.  Imperative code lives in the monad [M] of [CMonad]:
    a run returns, ends the process, is undefined (a dangling or null pointer, an
    access out of bounds, a future made ready twice) or is stuck (a lock taken twice, a loop that
    outlives its fuel).  [wp m Q s] says that [m] returns from [s] and satisfies [Q],
    so it excludes all three others; [wpu U] lets it be undefined where [U] holds, and
    [safe] of [HciLayerInv] lets the process end on purpose.  Fixed width integers are [Z] with the wrapping written out
    ([u8], [u16], [u32], [u64], [swrap] below).  What is not in the repository (the
    operating system, the kernel ABI, EGL, packet headers, the packet fragmenter) is
    a type class, with a second class, its name ending in [Ok], for the laws the code relies on;
    the [Witness] files and the end of [IonSpec] give instances and apply every theorem
    that has hypotheses to a concrete input.

    ** sdcard

    - [FuseTypes], [FuseState]: [struct node], [struct fuse_global] and the requests
      of [fuse.h]; pointers are addresses of a heap, [log] are the system calls that
      change the storage and [out] the messages to the kernel.
    - [FuseNode], [FuseHandlers]: [fuse.cpp], one definition per function: reference
      counts, sibling lists, paths, permissions; every [handle_*]; [handle_fuse_request]
      and a round of [handle_fuse_requests].
    - [Sdcard]: [sdcard.cpp]: options, mounting, dropping privileges, the sdcardfs path,
      and the thread that reloads the package list on inotify events.
    - [FuseTree], [FuseRefs], [FuseInv]: the invariant.  The nodes are a tree
      ([tree_ok]), every count is the number of outside references plus the children
      ([refs_ok]), and the permission fields are those [derive_pinfo] computes from
      the parent ([coherent]).
    - [FuseDerive], [FuseGraph], [FuseMutate], [FuseMove]: each operation
      on the graph against the invariant; [FuseSafe], [FuseRename],
      [FuseServe]: each handler, up to [answer_request].
    - [FuseSpec], [FusePolicy], [SdcardSpec]: the theorems.  A request is answered
      exactly once, without undefined behaviour or deadlock, and the kernel's
      references are accounted for exactly; nodes are freed exactly when nobody needs
      them; paths and the case-insensitive search are exact up to the size of the
      buffer; an application's directories belong to it; nobody else gets into
      [Android]; the names reserved at the root are refused before anything happens;
      the daemon never runs as root, and serves four views with their masks.
    - Fuel.  Walks over pointers (release, paths, derivation, sibling lists) get one more than the
      number of live nodes, which the tree invariant shows is enough, so that running
      out is excluded by the theorems and not assumed away.  [handle_fuse_requests]
      and the watcher are loops that do not end; they are modelled as any number of
      rounds.
    - Threads.  Each view has a thread, and all of them share one mutex, modelled as a flag
      that makes a second lock stuck.  Requests are served one after the other: the steps of
      other threads between the critical sections of one handler are not modelled, but
      the critical sections themselves (resolving, the commit of a rename) are
      specified from any state that satisfies the invariant.

    ** renderengine

    - [ShaderText] holds the GLSL texts, [ShaderKey] the bit fields of [Key] and
      [computeKey], [ShaderGen] the [Formatter] and the generators, [ProgramCache] the
      caches, [primeCache], [generateProgram] and [useProgram].
    - [ShaderSpec], [ProgramSpec]: two descriptions share a key exactly when everything
      the program depends on is the same; the fragment shader does what the description
      says, declares what it uses and agrees with the vertex shader; the debug property
      can only permute channels; a program once made is used again; and exactly which
      programs start-up makes.

    ** Bluetooth

    - [BtTypes], [HciBuf]: bytes, the stream macros, and a command buffer with
      uninitialised cells.
    - [HciCmds], [HciCmdsSpec]: [hciblecmds.cc].  The functions send exactly the command
      the Bluetooth specification defines, and the command can be read back; three do not,
      and what they send instead is exact as well.
    - [HciParser], [HciParserSpec]: [hci_packet_parser.cc].  The parsers recover what an
      answer carries, stay inside it and free it once; what a refused answer does.
    - [Controller], [ControllerSpec]: [controller.cc].  [configured] is the state start-up
      must reach for a chip, in one expression; [start_up] is shown to implement it.
      The loop over the feature pages has fuel; three rounds suffice for a chip that
      counts its pages, and a chip that repeats a page is shown to be asked for ever.
    - [HciLayer]: [hci_layer.cc].  Buffers, waiting commands and futures are heaps,
      tasks posted to the HCI thread a list, calls to the outside a trace.  A function
      is one step, on whatever thread it runs; [event_command_ready], which lets go of its lock
      half way, is also given as its two halves.
    - [HciLayerInv]: who owns which buffer, and that a command goes from the caller to
      the queue, the thread and the list of those awaiting a response in the order of
      acceptance.  [HciLayerEvents]: what an event does, exactly.
    - [HciLayerSpec]: the layer as a state machine over its inputs ([handle], [enabled],
      [reachable]); no input is undefined or stuck in a reachable state.
      [HciLayerLive]: with a controller that answers, the rounds are bounded by [work]
      and end with every command answered and every future fulfilled.
    - [H4], [H4Spec]: [h4_protocol.cc], the framing of packets on the serial channel: a
      packet is one write, and a stream of packets and stray bytes is taken apart
      again however it arrives.  The packetizer is a class.
    - [BtmDev], [BtmDevSpec]: [btm_devctl.cc], the device manager above the controller:
      resets, the local name, feature pages, vendor specific callbacks, link keys.
      Callbacks and calls of other modules are effects, in order.
    - [BtuDefs], [BtuHcif], [BtuCmd]: [btu_hcif.cc], every event and every command as it
      passes between the stack and the HCI layer.  Its state is that of the device
      manager and of the layer, the wrappers of commands in flight and the tasks posted
      to the main thread; a call of a module that is not in the repository is an entry
      of [calls], and its answer a function of the calls so far.  A C [switch] is a
      table from labels to handlers.
    - [BtuHcifSpec] holds a decoder by offsets ([event_table]) and shows that the handlers
      of the basic rate make exactly its calls and stay inside the event, by the table of
      minimum lengths; [BtuEventSpec] does the same for the events inside LE events, where
      the table is no help and three handlers read too far, for hardware errors down to the
      reset of the device and for vendor specific events, and compares the dispatch of
      every event with the decoder ([decoded]); [BtuEncSpec]: no link counts as encrypted
      before its key is known to be long enough.
    - [HciLayerFrame] bounds what each input of the layer may touch, and shows that the
      commands on the transport are those that were given ([fed], [wire]).  On it rests the
      composition of the stack, the layer and the main thread: [BtuFlow] has the machine
      ([flow_step], [flow_enabled]) and its invariant, [BtuTaskSpec] how long commands and
      answers must be for those who read them, [BtuFlowSpec] and [BtuSendSpec]
      one step each of the layer, the main thread and a sender, and [BtuCmdSpec] the theorems: the path of a command is safe;
      a callback is run once, or kept for a task, for an answer, or for nothing more when a
      Command Status without error came, which is shown to lose the callback for good; and
      what answers a command brings it to its callback.
    - The theorem on [response_before_send_dangles] is a negative one: between the two
      halves of [event_command_ready] a matching event leaves a dangling pointer.

    ** Display

    - [DispcTypes], [SprdPanel], [Dispc], [DispcFrame], [SprdFb]: [sprdfb_panel.c],
      [sprdfb_dispc.c] and [sprdfb_main.c], one definition per function, in the
      configuration of this device ([a1000_baton4iks_defconfig]).  The state is that of
      the two structures of the driver, the registers as written and as shown, the
      clocks and the locks; [FbMacros] are the constants of headers that are not in the
      repository.  The outside is a script: [wakes] says which interrupts come in a
      sleep and how it ends, [answers] and [clk_results] what the kernel answers.
      Interrupts come in sleeps and between calls.
    - [DispcInv], [DispcPower], [SprdFbSpec]: an invariant on locks, power and clocks
      (a [core]), that every call keeps it, and so that every sequence of calls returns
      and leaves the clocks as the power state says, or else holds a request for a pixel clock
      that divides by zero ([overclocks]).  [DispcSpec]: exactly what a flip and an
      overlay leave in the registers and when it is on the panel; what is refused while the device is off;
      the clock of a frame rate.
    - [ShimPixels]: the pass over the pixels of a buffer, the vector unit lane by lane,
      is the rotation of each pixel and a hash of the result.
    - [Shim]: [libsprdshim_ioctl.c], [libsprdshim_fbpost.cpp] and the two functions of
      [libsprdshim.c] that deal with buffers.  Calls that leave the library are the
      type [sys], the system is a class that answers them, and every call is kept in a
      trace; the function pointers it patches are values of two types, so that a hook
      that reached itself would be stuck.  The blobs may call [ioctl] on their way.
    - [ShimSafe]: every function returns, in bounded time where the code computes with
      time; the functions that call [ioctl] are treated against the classes
      [IoWaits] and [IoOk], and [ioctl] with a fuel of two is an instance.  The same
      lemmas say what a function does not do, by way of the preorders of [Watch].
      [ShimSpec]: no client can make the library stuck, nor undefined as long as rectangles
      fit their buffers; which frame is shown, once; the frame rate told is the one measured; descriptors are not lost; a
      buffer is permuted once.
    - [ShimBoard]: the library over the driver, from the post of a frame to the
      registers of the controller.

    ** Buffers

    - [Ion]: [ion.c], one definition per function.  Buffers, handles, clients, heaps,
      dma-bufs and areas of user space are maps from addresses, the trees of the kernel
      are maps or sets, and the locks that are held a list, so that a lock taken twice is
      stuck.  A request to a heap, to the dma-buf core, to the memory manager or to user
      space is a value of the type [ksys], answered by the class [Kernel] and kept in a trace; [IonAbi]
      are the constants of headers that are not in the repository.  [BUG()] is undefined.
      The loops over handles and mappings have as much fuel as there are of them.
    - [IonInv]: the invariant [inv].  Handles and the two tables of their client agree
      ([tables]); references, handles and mappings of a buffer are counted ([counts]); a
      buffer is in the tree of the device or on a list to be freed ([lists]); its pages
      are all there ([forms]); areas and buffers know each other ([areas]); the memory
      taken from heaps is accounted for.  A [ghost] says what a function that is under
      way holds besides, and [KernelOk] are the laws of the kernel.
    - [IonSafe], [IonCalls], [IonDevice]: every function returns and keeps the invariant,
      from the counts up to [ion_ioctl].
    - [IonSpec]: the calls from outside ([icall], [ienabled]) and the states they lead to
      ([reached]).  Every call returns with no lock held, but those of two kinds ([exposed]); no buffer is lost, and heaps get
      their memory back; an allocation comes from a heap that may serve it; what is
      imported is what was shared; a number that is not a handle is refused.  Counts have
      32 bits, so that the theorems are about fewer than [2 ^ 30 - 1] calls.  Functions that
      give up a lock half way are whole steps of [icall]; what happens when two threads
      meet there is shown apart: two imports of one buffer end in a loop that does not
      end, two frees of one handle in a use after free.  A mask that no heap answers, and
      a fault past the end of a buffer, are undefined.

    ** Not modelled

    Log messages, the counters of the HCI layer, wake locks and the btsnoop capture.  Time: an alarm is
    scheduled or not, and may run when it is; waiting for a lock for a bounded time is taken to
    succeed.  Restarting the HCI layer after a shut-down, where its command queue
    survives.  SurfaceFlinger, the radio interface, the HIDL services, the vendor
    library and the other shims depend on classes that are not in the repository, or only
    forward calls to vendor binaries; the other files of the kernel use structures and
    macros of headers that are not there.  Of ION: the heaps themselves, debugfs files, the
    times of allocations and the interface for 32-bit processes on a 64-bit kernel.  Of the display driver: sysfs, the debugging
    code, and the options this device is built without.

    ** This file

    Machine integers, C strings and the lemmas and tactics the components share. *)

From Stdlib Require Export ZArith Lia Ascii.
From stdpp Require Export base option strings gmap functions list fin_maps.

#[global] Open Scope Z_scope.

(** ** Machine integers

    An unsigned [w]-bit C integer is a [Z] in [[0, 2^w)]; every arithmetic
    operation of the source on such a type wraps explicitly. *)

Definition wrap (w : Z) (x : Z) : Z := x mod 2 ^ w.

Abbreviation u8 := (wrap 8).
Abbreviation u16 := (wrap 16).
Abbreviation u32 := (wrap 32).
Abbreviation u64 := (wrap 64).

(** The signed reading of a [w]-bit pattern (two's complement). *)
Definition swrap (w : Z) (x : Z) : Z := (x + 2 ^ (w - 1)) mod 2 ^ w - 2 ^ (w - 1).

Definition in_width (w x : Z) : Prop := 0 <= x < 2 ^ w.

Declare Scope a1000_scope.
Delimit Scope a1000_scope with a1000.
#[global] Open Scope a1000_scope.

(** C's truth value of an integer, and of a bit test [x & m]. *)
Definition truthy (x : Z) : bool := negb (x =? 0).
Definition has_flag (x m : Z) : bool := truthy (Z.land x m).

(** ** C strings

    A NUL-terminated [char *] is a [string] without its terminator. *)

Definition slen (s : string) : Z := Z.of_nat (String.length s).

Definition tolower_ascii (c : Ascii.ascii) : Ascii.ascii :=
  let n := Ascii.nat_of_ascii c in
  if ((65 <=? n) && (n <=? 90))%nat then Ascii.ascii_of_nat (n + 32) else c.

Fixpoint tolower (s : string) : string :=
  match s with
  | EmptyString => EmptyString
  | String c s' => String (tolower_ascii c) (tolower s')
  end.

(** [strcmp(a, b) == 0] and [strcasecmp(a, b) == 0] (the "C" locale). *)
Definition streq (a b : string) : bool := String.eqb a b.
Definition strcaseeq (a b : string) : bool := String.eqb (tolower a) (tolower b).

(** [strtoul(s, NULL, 10)] for a [w]-bit [unsigned long]: leading white space,
    an optional sign, digits; saturates at [ULONG_MAX]. *)
Definition is_space (c : Ascii.ascii) : bool :=
  let n := Ascii.nat_of_ascii c in ((n =? 32) || ((9 <=? n) && (n <=? 13)))%nat.

Definition digit_of (c : Ascii.ascii) : option Z :=
  let n := Z.of_nat (Ascii.nat_of_ascii c) in
  if (48 <=? n) && (n <=? 57) then Some (n - 48) else None.

Fixpoint strtoul_digits (acc : Z) (s : string) : Z :=
  match s with
  | EmptyString => acc
  | String c s' =>
      match digit_of c with
      | Some d => strtoul_digits (acc * 10 + d) s'
      | None => acc
      end
  end.

Fixpoint skip_space (s : string) : string :=
  match s with
  | EmptyString => EmptyString
  | String c s' => if is_space c then skip_space s' else s
  end.

Definition strtoul (w : Z) (s : string) : Z :=
  let max := 2 ^ w - 1 in
  match skip_space s with
  | String c s' =>
      if Ascii.eqb c "-"%char then
        let v := strtoul_digits 0 s' in
        if max <? v then max else wrap w (- v)
      else
        let v := strtoul_digits 0 (if Ascii.eqb c "+"%char then s' else String c s') in
        Z.min v max
  | EmptyString => 0
  end.

(** ** Automation *)

Create HintDb a1000 discriminated.
#[export] Hint Constants Transparent : a1000.
Create Rewrite HintDb a1000_len.

(** Break the conjunctions and existentials of the context. *)
Ltac destr :=
  repeat match goal with
  | H : _ ∧ _ |- _ => let a := fresh H in destruct H as [a H]
  | H : ∃ _, _ |- _ => let x := fresh "x" in destruct H as [x H]
  end.

(** ** Lemmas on integers *)

Lemma wrap_small w x : in_width w x → wrap w x = x.
Proof. unfold in_width, wrap. intros. by apply Z.mod_small. Qed.

Lemma wrap_in_width w x : 0 <= w → in_width w (wrap w x).
Proof. intros. apply Z.mod_pos_bound. lia. Qed.

Lemma land_bound_r x m : 0 <= m → 0 <= Z.land x m <= m.
Proof.
  intros Hm. split; [apply Z.land_nonneg; lia|].
  assert (Z.land x m = m - Z.ldiff m x) as ->.
  { rewrite Z.sub_nocarry_ldiff.
    - apply Z.bits_inj'. intros n Hn.
      rewrite Z.land_spec, !Z.ldiff_spec. by destruct (Z.testbit x n), (Z.testbit m n).
    - apply Z.bits_inj'. intros n Hn.
      rewrite !Z.ldiff_spec, Z.bits_0. by destruct (Z.testbit x n), (Z.testbit m n). }
  assert (0 <= Z.ldiff m x) by (apply Z.ldiff_nonneg; lia). lia.
Qed.

(** ** Lemmas on strings *)

Lemma tolower_length s : String.length (tolower s) = String.length s.
Proof. induction s; simpl; congruence. Qed.

Lemma slen_nonneg s : 0 <= slen s.
Proof. unfold slen. lia. Qed.

Lemma slen_app a b : slen (a +:+ b) = slen a + slen b.
Proof.
  unfold slen. induction a as [|c a IH]; [done|].
  change (String.length (String c a +:+ b)) with (S (String.length (a +:+ b))).
  change (String.length (String c a)) with (S (String.length a)). lia.
Qed.

Lemma string_app_assoc a b c : (a +:+ b) +:+ c = a +:+ (b +:+ c).
Proof. induction a as [|x a IH]; [done|].
  change (String x ((a +:+ b) +:+ c) = String x (a +:+ (b +:+ c))). by rewrite IH. Qed.

Lemma streq_true a b : streq a b = true ↔ a = b.
Proof. apply String.eqb_eq. Qed.

Lemma streq_refl a : streq a a = true.
Proof. by apply streq_true. Qed.

Lemma strcaseeq_refl a : strcaseeq a a = true.
Proof. apply String.eqb_refl. Qed.

Lemma strcaseeq_length a b : strcaseeq a b = true → slen a = slen b.
Proof.
  unfold strcaseeq, slen. rewrite String.eqb_eq. intros H.
  rewrite <- (tolower_length a), <- (tolower_length b). by rewrite H.
Qed.

Lemma strcaseeq_sym a b : strcaseeq a b = strcaseeq b a.
Proof. apply String.eqb_sym. Qed.

#[export] Hint Resolve slen_nonneg streq_refl strcaseeq_refl : a1000.
#[export] Hint Rewrite slen_app : a1000_len.
