(* ===== verification/CMonad.v ===== *)
(** * A state monad for C code

    The imperative parts of the program are translated into [M S], functions
    from a state to an [outcome]: a normal return, a process exit, undefined
    behaviour (a dangling or null dereference, an out-of-bounds copy) or a
    computation that never answers (a self-deadlock, a loop that exceeds its
    fuel).  [wp] is total correctness with respect to the first only. *)

From S2P Require Import Prelude.

Inductive outcome (S A : Type) : Type :=
  | Ret (a : A) (s : S)
  | Exit (code : Z) (s : S)
  | Undefined
  | Stuck.
Arguments Ret {S A} _ _.
Arguments Exit {S A} _ _.
Arguments Undefined {S A}.
Arguments Stuck {S A}.

Definition M (S A : Type) : Type := S → outcome S A.

#[export] Instance M_ret S : MRet (M S) := λ A a s, Ret a s.
#[export] Instance M_bind S : MBind (M S) := λ A B k m s,
  match m s with
  | Ret a s' => k a s'
  | Exit c s' => Exit c s'
  | Undefined => Undefined
  | Stuck => Stuck
  end.

Definition get {S} : M S S := λ s, Ret s s.
Definition modify {S} (f : S → S) : M S unit := λ s, Ret tt (f s).
Definition undefined {S A} : M S A := λ _, Undefined.
Definition stuck {S A} : M S A := λ _, Stuck.
Definition exit {S A} (code : Z) : M S A := λ s, Exit code s.

(** A C [assert]: undefined behaviour unless the condition holds. *)
Definition require {S} (b : bool) : M S unit := if b then mret tt else undefined.

(** [m] returns normally from [s], with a result and a state satisfying [Q]. *)
Definition wp {S A} (m : M S A) (Q : A → S → Prop) (s : S) : Prop :=
  match m s with Ret a s' => Q a s' | _ => False end.

(** [m] does so, or its behaviour is undefined, and then [U]. *)
Definition wpu {S A} (U : Prop) (m : M S A) (Q : A → S → Prop) (s : S) : Prop :=
  match m s with Ret a s' => Q a s' | Undefined => U | _ => False end.

Section rules.
Context {S : Type}.
Implicit Types s : S.

Lemma wp_ret {A} (a : A) (Q : A → S → Prop) s : Q a s → wp (mret a) Q s.
Proof. done. Qed.

Lemma wp_bind {A B} (m : M S A) (k : A → M S B) Q s :
  wp m (λ a s', wp (k a) Q s') s → wp (m ≫= k) Q s.
Proof. unfold wp, mbind, M_bind. by destruct (m s). Qed.

Lemma wp_bind_inv {A B} (m : M S A) (k : A → M S B) Q s :
  wp (m ≫= k) Q s → wp m (λ a s', wp (k a) Q s') s.
Proof. unfold wp, mbind, M_bind. by destruct (m s). Qed.

Lemma wp_mono {A} (m : M S A) (P Q : A → S → Prop) s :
  wp m P s → (∀ a s', P a s' → Q a s') → wp m Q s.
Proof. unfold wp. destruct (m s); auto. Qed.

Lemma wp_get (Q : S → S → Prop) s : Q s s → wp get Q s.
Proof. done. Qed.

Lemma wp_modify (f : S → S) (Q : unit → S → Prop) s : Q tt (f s) → wp (modify f) Q s.
Proof. done. Qed.

Lemma wp_require (b : bool) (Q : unit → S → Prop) s :
  b = true → Q tt s → wp (require b) Q s.
Proof. by intros ->. Qed.

Lemma wp_run {A} (m : M S A) (Q : A → S → Prop) s :
  wp m Q s → ∃ a s', m s = Ret a s' ∧ Q a s'.
Proof. unfold wp. destruct (m s) as [a s'| | |]; naive_solver. Qed.

Lemma run_wp {A} (m : M S A) (Q : A → S → Prop) s a s' :
  m s = Ret a s' → Q a s' → wp m Q s.
Proof. unfold wp. by intros ->. Qed.

Lemma wp_and {A} (m : M S A) (P Q : A → S → Prop) s :
  wp m P s → wp m Q s → wp m (λ a s', P a s' ∧ Q a s') s.
Proof. unfold wp. by destruct (m s). Qed.

Lemma wp_wpu {A} U (m : M S A) (Q : A → S → Prop) s : wp m Q s → wpu U m Q s.
Proof. unfold wp, wpu. by destruct (m s). Qed.
Lemma wpu_wp {A} (m : M S A) (Q : A → S → Prop) s : wpu False m Q s → wp m Q s.
Proof. unfold wp, wpu. by destruct (m s). Qed.
Lemma wpu_bind {A B} U (m : M S A) (k : A → M S B) Q s :
  wpu U m (λ a s', wpu U (k a) Q s') s → wpu U (m ≫= k) Q s.
Proof. unfold wpu, mbind, M_bind. by destruct (m s). Qed.
(** The first operation returns. *)
Lemma wpu_after {A B} U (m : M S A) (k : A → M S B) Q s :
  wp m (λ a s', wpu U (k a) Q s') s → wpu U (m ≫= k) Q s.
Proof. intros Hm. by apply wpu_bind, wp_wpu. Qed.
Lemma wpu_mono {A} (U V : Prop) (m : M S A) (P Q : A → S → Prop) s :
  wpu U m P s → (U → V) → (∀ a s', P a s' → Q a s') → wpu V m Q s.
Proof. unfold wpu. destruct (m s); auto. Qed.
End rules.

Lemma bind_assoc_M {S A B C} (m : M S A) (k : A → M S B) (j : B → M S C) s :
  ((m ≫= k) ≫= j) s = (m ≫= λ a, k a ≫= j) s.
Proof. unfold mbind, M_bind. by destruct (m s). Qed.

Lemma wp_assoc {S A B C} (m : M S A) (k : A → M S B) (j : B → M S C) Q s :
  wp ((m ≫= k) ≫= j) Q s → wp (m ≫= λ a, k a ≫= j) Q s.
Proof. unfold wp. by rewrite bind_assoc_M. Qed.

Lemma bind_ret_inv {S A B} (m : M S A) (k : A → M S B) s b s' :
  (m ≫= k) s = Ret b s' → ∃ a s1, m s = Ret a s1 ∧ k a s1 = Ret b s'.
Proof. unfold mbind, M_bind. destruct (m s) as [a s1| | |]; [|done..]. eauto. Qed.

(** One step of symbolic execution: push [wp] through a bind and the basic
    operations. *)
Ltac wp_step :=
  lazymatch goal with
  | |- wp (_ ≫= _) _ _ => apply wp_bind
  | |- wp (mret _) _ _ => apply wp_ret
  | |- wp get _ _ => apply wp_get
  | |- wp (modify _) _ _ => apply wp_modify
  end.
Ltac wp_steps := repeat (wp_step; cbn beta).

(** Use a lemma about the first operation, then continue with what it gives. *)
Tactic Notation "wp_use" uconstr(lem) := eapply wp_mono; [eapply lem|].
