(* ===== verification/FuseTypes.v ===== *)
(** * sdcard: data of the FUSE daemon (fuse.h) and its environment

    The node graph, the request and reply structures, and the interfaces of
    the code that is outside the repository: the kernel's FUSE ABI
    ([linux/fuse.h]), the Android id allocation ([cutils/multiuser.h],
    [android_filesystem_config.h]) and the operating system (system calls and
    the allocator). *)

From S2P Require Import Prelude.

(** ** Constants of the C library and the kernel ABI of the target (32-bit ARM) *)

Definition ENOENT : Z := 2.
Definition EACCES : Z := 13.
Definition ENOMEM : Z := 12.
Definition EEXIST : Z := 17.
Definition ENODEV : Z := 19.
Definition EINVAL : Z := 22.
Definition ENOSYS : Z := 38.

Definition PATH_MAX : Z := 4096.
Definition UINTPTR_BITS : Z := 32.
Definition ULONG_BITS : Z := 32.

Definition R_OK : Z := 4.
Definition W_OK : Z := 2.
Definition O_ACCMODE : Z := 3.
Definition O_RDONLY : Z := 0.
Definition O_WRONLY : Z := 1.
Definition O_RDWR : Z := 2.
Definition O_CREAT : Z := 0x40.
Definition O_EXCL : Z := 0x80.
Definition O_NOFOLLOW : Z := 0x8000.
Definition O_DIRECT : Z := 0x10000.
Definition O_CLOEXEC : Z := 0x80000.
Definition UTIME_NOW : Z := 0x3fffffff.
Definition UTIME_OMIT : Z := 0x3ffffffe.
Definition S_IFMT : Z := 0xf000.

(** ** fuse.h *)

Definition FUSE_CANONICAL_PATH : Z := 2016.
Definition FUSE_UNKNOWN_INO : Z := 0xffffffff.
Definition NO_STATUS : Z := 1.
Definition MAX_WRITE : Z := 256 * 1024.
Definition MAX_READ : Z := 128 * 1024.

(** Permission mode of a node. *)
Inductive perm_t : Type :=
  | PERM_INHERIT
  | PERM_PRE_ROOT
  | PERM_ROOT
  | PERM_ANDROID
  | PERM_ANDROID_DATA
  | PERM_ANDROID_OBB
  | PERM_ANDROID_MEDIA.

#[export] Instance perm_t_eq_dec : EqDecision perm_t.
Proof. solve_decision. Defined.

(** A [struct node *]: the root node is a member of [struct fuse_global]; every
    other node is a heap block at some address.  [NULL] is [None] of
    [option ptr]. *)
Inductive ptr : Type :=
  | Root
  | Heap (addr : Z).

#[export] Instance ptr_eq_dec : EqDecision ptr.
Proof. solve_decision. Defined.

#[export] Instance ptr_countable : Countable ptr.
Proof.
  refine (inj_countable'
    (λ p, match p with Root => None | Heap a => Some a end)
    (λ o, match o with None => Root | Some a => Heap a end) _).
  by intros [].
Defined.

(** A malloc'd character buffer: the size of its block and the C string in it. *)
Record cbuf : Type := mk_cbuf { blk : Z; str : string }.

Record node : Type := mk_node {
  refcount : Z;                 (* __u32 *)
  nid : Z;                      (* __u64 *)
  gen : Z;                      (* __u64 *)
  ino : Z;                      (* __u32 *)
  perm : perm_t;
  userid : Z;
  uid : Z;
  under_android : bool;
  next : option ptr;
  child : option ptr;
  parent : option ptr;
  namelen : Z;
  name : cbuf;
  actual_name : option cbuf;
  graft_path : option string;
  graft_pathlen : Z;
  deleted : bool
}.

Definition set_refcount (v : Z) (n : node) : node :=
  let '(mk_node _ b c d e f g h i j k l m o p q r) := n in mk_node v b c d e f g h i j k l m o p q r.
Definition set_next (v : option ptr) (n : node) : node :=
  let '(mk_node a b c d e f g h _ j k l m o p q r) := n in mk_node a b c d e f g h v j k l m o p q r.
Definition set_child (v : option ptr) (n : node) : node :=
  let '(mk_node a b c d e f g h i _ k l m o p q r) := n in mk_node a b c d e f g h i v k l m o p q r.
Definition set_parent (v : option ptr) (n : node) : node :=
  let '(mk_node a b c d e f g h i j _ l m o p q r) := n in mk_node a b c d e f g h i j v l m o p q r.
Definition set_derived (pm : perm_t) (us u : Z) (ua : bool) (n : node) : node :=
  let '(mk_node a b c d _ _ _ _ i j k l m o p q r) := n in mk_node a b c d pm us u ua i j k l m o p q r.
Definition set_name (nl : Z) (nm : cbuf) (an : option cbuf) (n : node) : node :=
  let '(mk_node a b c d e f g h i j k _ _ _ p q r) := n in mk_node a b c d e f g h i j k nl nm an p q r.
Definition set_graft (gp : option string) (gl : Z) (n : node) : node :=
  let '(mk_node a b c d e f g h i j k l m o _ _ r) := n in mk_node a b c d e f g h i j k l m o gp gl r.
Definition set_deleted (v : bool) (n : node) : node :=
  let '(mk_node a b c d e f g h i j k l m o p q _) := n in mk_node a b c d e f g h i j k l m o p q v.

(** The four mounts (views) of one card; [struct fuse *] values are compared
    by which of the four they are. *)
Inductive view : Type := V_DEFAULT | V_READ | V_WRITE | V_FULL.

#[export] Instance view_eq_dec : EqDecision view.
Proof. solve_decision. Defined.

Record fuse : Type := mk_fuse {
  fview : view;
  fuse_gid : Z;
  fuse_mask : Z
}.

(** [AppIdMap]: the keys are compared with [strcasecmp], so the map is keyed by
    the lower-cased package name. *)
Definition appid_find (m : gmap string Z) (k : string) : option Z := m !! tolower k.
Definition appid_emplace (m : gmap string Z) (k : string) (v : Z) : gmap string Z * bool :=
  match m !! tolower k with
  | Some _ => (m, false)
  | None => (<[tolower k := v]> m, true)
  end.

(** ** File system structures *)

Record stat : Type := mk_stat {
  st_size : Z; st_blocks : Z;
  st_atime : Z; st_mtime : Z; st_ctime : Z;
  st_atimensec : Z; st_mtimensec : Z; st_ctimensec : Z;
  st_mode : Z; st_nlink : Z
}.

Record statfs_t : Type := mk_statfs {
  f_blocks : Z; f_bfree : Z; f_bavail : Z; f_files : Z; f_ffree : Z;
  f_bsize : Z; f_namelen : Z; f_frsize : Z
}.

Record dirent : Type := mk_dirent { d_type : Z; d_name : string }.

Record timespec : Type := mk_timespec { tv_sec : option Z; tv_nsec : Z }.

(** Open files and directory streams handed to the kernel as [fh]. *)
Inductive hobj : Type :=
  | HFile (fd : Z)
  | HDir (d : Z).

(** ** FUSE requests ([linux/fuse.h]) *)

Record fuse_in_header : Type := mk_in_header {
  in_len : Z; in_opcode : Z; in_unique : Z; in_nodeid : Z; in_uid : Z
}.
Record fuse_forget_in : Type := mk_forget_in { nlookup : Z }.
Record fuse_setattr_in : Type := mk_setattr_in {
  sa_valid : Z; sa_size : Z; sa_atime : Z; sa_atimensec : Z; sa_mtime : Z; sa_mtimensec : Z
}.
Record fuse_mknod_in : Type := mk_mknod_in { mknod_mode : Z; mknod_rdev : Z }.
Record fuse_mkdir_in : Type := mk_mkdir_in { mkdir_mode : Z }.
Record fuse_rename_in : Type := mk_rename_in { newdir : Z }.
Record fuse_open_in : Type := mk_open_in { open_flags : Z }.
Record fuse_read_in : Type := mk_read_in { read_fh : Z; read_offset : Z; read_size : Z }.
Record fuse_write_in : Type := mk_write_in {
  write_fh : Z; write_offset : Z; write_size : Z; write_flags : Z
}.
Record fuse_release_in : Type := mk_release_in { release_fh : Z }.
Record fuse_fsync_in : Type := mk_fsync_in { fsync_fh : Z; fsync_flags : Z }.
Record fuse_init_in : Type := mk_init_in { init_major : Z; init_minor : Z; init_max_readahead : Z }.

(** ** FUSE replies *)

Record fuse_attr : Type := mk_attr {
  a_ino : Z; a_size : Z; a_blocks : Z;
  a_atime : Z; a_mtime : Z; a_ctime : Z;
  a_atimensec : Z; a_mtimensec : Z; a_ctimensec : Z;
  a_mode : Z; a_nlink : Z; a_uid : Z; a_gid : Z
}.

Inductive fuse_payload : Type :=
  | POut_entry (nodeid generation : Z) (entry_valid attr_valid : Z) (attr : fuse_attr)
  | POut_attr (attr_valid : Z) (attr : fuse_attr)
  | POut_open (fh oflags : Z)
  | POut_data (bytes : list Ascii.ascii)
  | POut_write (size : Z)
  | POut_statfs (st : statfs_t)
  | POut_dirent (d_ino d_off d_type d_namelen : Z) (d_name : string)
  | POut_init (major minor max_readahead flags max_background congestion_threshold max_write : Z)
  | POut_path (path : string).

(** What is written to a mount's descriptor. *)
Inductive fuse_out : Type :=
  | OStatus (len err unique : Z)
  | OReply (len unique : Z) (data : fuse_payload)
  | ONotifyDelete (len parent child namelen : Z) (nm : string).

(** ** Interfaces to code outside the repository *)

(** The FUSE kernel ABI: constants, structure sizes and the reinterpretation
    of a request's bytes as a structure. *)
Class FuseAbi : Type := {
  FUSE_ROOT_ID : Z;
  FUSE_LOOKUP : Z; FUSE_FORGET : Z; FUSE_GETATTR : Z; FUSE_SETATTR : Z;
  FUSE_MKNOD : Z; FUSE_MKDIR : Z; FUSE_UNLINK : Z; FUSE_RMDIR : Z; FUSE_RENAME : Z;
  FUSE_OPEN : Z; FUSE_READ : Z; FUSE_WRITE : Z; FUSE_STATFS : Z; FUSE_RELEASE : Z;
  FUSE_FSYNC : Z; FUSE_FSYNCDIR : Z; FUSE_FLUSH : Z; FUSE_OPENDIR : Z;
  FUSE_READDIR : Z; FUSE_RELEASEDIR : Z; FUSE_INIT : Z;
  FUSE_KERNEL_VERSION : Z;
  FUSE_COMPAT_22_INIT_OUT_SIZE : option Z;
  FUSE_ATOMIC_O_TRUNC : Z; FUSE_BIG_WRITES : Z;
  FATTR_SIZE : Z; FATTR_ATIME : Z; FATTR_MTIME : Z; FATTR_FH : Z;
  FATTR_ATIME_NOW : Z; FATTR_MTIME_NOW : Z;
  FUSE_DIRENT_ALIGN : Z → Z;
  sizeof_in_header : Z; sizeof_out_header : Z;
  sizeof_mknod_in : Z; sizeof_mkdir_in : Z; sizeof_rename_in : Z; sizeof_write_in : Z;
  sizeof_entry_out : Z; sizeof_attr_out : Z; sizeof_open_out : Z; sizeof_write_out : Z;
  sizeof_statfs_out : Z; sizeof_init_out : Z; sizeof_dirent : Z;
  sizeof_notify_delete_out : Z;
  as_in_header : list Ascii.ascii → fuse_in_header;
  as_forget_in : list Ascii.ascii → fuse_forget_in;
  as_setattr_in : list Ascii.ascii → fuse_setattr_in;
  as_mknod_in : list Ascii.ascii → fuse_mknod_in;
  as_mkdir_in : list Ascii.ascii → fuse_mkdir_in;
  as_rename_in : list Ascii.ascii → fuse_rename_in;
  as_open_in : list Ascii.ascii → fuse_open_in;
  as_read_in : list Ascii.ascii → fuse_read_in;
  as_write_in : list Ascii.ascii → fuse_write_in;
  as_release_in : list Ascii.ascii → fuse_release_in;
  as_fsync_in : list Ascii.ascii → fuse_fsync_in;
  as_init_in : list Ascii.ascii → fuse_init_in
}.

(** The request codes are distinct. *)
Class FuseAbiOk `{!FuseAbi} : Prop := {
  opcodes_distinct : NoDup [FUSE_LOOKUP; FUSE_FORGET; FUSE_GETATTR; FUSE_SETATTR; FUSE_MKNOD;
    FUSE_MKDIR; FUSE_UNLINK; FUSE_RMDIR; FUSE_RENAME; FUSE_OPEN; FUSE_READ; FUSE_WRITE;
    FUSE_STATFS; FUSE_RELEASE; FUSE_FSYNC; FUSE_FSYNCDIR; FUSE_FLUSH; FUSE_OPENDIR;
    FUSE_READDIR; FUSE_RELEASEDIR; FUSE_INIT; FUSE_CANONICAL_PATH]
}.

(** Android ids. *)
Class AndroidIds : Type := {
  AID_ROOT : Z;
  AID_SDCARD_RW : Z;
  AID_EVERYBODY : Z;
  AID_PACKAGE_INFO : Z;
  multiuser_get_uid : Z → Z → Z
}.

(** The operating system, over an abstract world [W].  A system call that can
    fail answers [inr errno] ([errno] is positive); calls under [TEMP_FAILURE_RETRY] are the retried
    call.  [os_malloc w live size] is the allocator: [live] is the set of
    addresses the program holds. *)
Class Os (W : Type) : Type := {
  os_malloc : W → gset Z → Z → option Z * W;
  os_lstat : W → string → (stat + positive) * W;
  os_access : W → string → bool * W;
  os_opendir : W → string → (Z + positive) * W;
  os_readdir : W → Z → option dirent * W;
  os_dir_left : W → Z → nat;
  os_rewinddir : W → Z → W;
  os_closedir : W → Z → W;
  os_dirfd : W → Z → Z;
  os_open : W → string → Z → Z → (Z + positive) * W;
  os_close : W → Z → W;
  os_mknod : W → string → Z → Z → (unit + positive) * W;
  os_mkdir : W → string → Z → (unit + positive) * W;
  os_unlink : W → string → (unit + positive) * W;
  os_rmdir : W → string → (unit + positive) * W;
  os_rename : W → string → string → (unit + positive) * W;
  os_truncate : W → string → Z → (unit + positive) * W;
  os_utimensat : W → string → timespec → timespec → (unit + positive) * W;
  os_statfs : W → string → (statfs_t + positive) * W;
  os_pread : W → Z → Z → Z → (list Ascii.ascii + positive) * W;
  os_pwrite : W → Z → list Ascii.ascii → Z → (Z + positive) * W;
  os_fsync : W → Z → (unit + positive) * W;
  os_fdatasync : W → Z → (unit + positive) * W;
  os_read_request : W → view → (list Ascii.ascii + positive) * W
}.

(** What the program relies on: the allocator returns fresh, nonzero,
    pointer-sized addresses that are not [FUSE_ROOT_ID]; a directory stream is
    finite. *)
Class OsOk (W : Type) `{!FuseAbi} `{!Os W} : Prop := {
  malloc_fresh w live size a w' :
    os_malloc w live size = (Some a, w') →
    (a ∉ live) ∧ 0 < a < 2 ^ UINTPTR_BITS ∧ a ≠ FUSE_ROOT_ID;
  readdir_left w d e w' :
    os_readdir w d = (Some e, w') → (os_dir_left w' d < os_dir_left w d)%nat
}.
