(* ===== verification/FuseState.v ===== *)
(** * sdcard: the daemon's state and its primitive operations

    [fs] is [struct fuse_global] with the node heap, the objects behind the
    file handles, the abstract operating system and two traces: the system
    calls that change the underlying storage ([log]) and the messages written
    to the FUSE descriptors ([out]), both latest first. *)

From S2P Require Import Prelude CMonad FuseTypes.

(** System calls that can change the underlying storage. *)
Inductive sysev : Type :=
  | EvMknod (path : string) (mode rdev : Z)
  | EvMkdir (path : string) (mode : Z)
  | EvUnlink (path : string)
  | EvRmdir (path : string)
  | EvRename (old_path new_path : string)
  | EvTruncate (path : string) (size : Z)
  | EvUtimensat (path : string) (atime mtime : timespec)
  | EvOpen (path : string) (flags mode : Z)
  | EvPwrite (fd : Z) (data : list Ascii.ascii) (offset : Z).

Section fs.
Context {W : Type}.

Record fs : Type := mk_fs {
  heap : gmap ptr node;
  locked : bool;
  handles : gmap Z hobj;
  obb_path : string;
  package_to_appid : gmap string Z;
  next_generation : Z;       (* __u64 *)
  inode_ctr : Z;             (* __u32 *)
  world : W;
  log : list sysev;
  out : list (view * fuse_out)
}.

Definition set_heap (v : gmap ptr node) (s : fs) : fs :=
  let '(mk_fs _ b c d e f g h i j) := s in mk_fs v b c d e f g h i j.
Definition set_locked (v : bool) (s : fs) : fs :=
  let '(mk_fs a _ c d e f g h i j) := s in mk_fs a v c d e f g h i j.
Definition set_handles (v : gmap Z hobj) (s : fs) : fs :=
  let '(mk_fs a b _ d e f g h i j) := s in mk_fs a b v d e f g h i j.
Definition set_packages (v : gmap string Z) (s : fs) : fs :=
  let '(mk_fs a b c d _ f g h i j) := s in mk_fs a b c d v f g h i j.
Definition set_counters (ng ic : Z) (s : fs) : fs :=
  let '(mk_fs a b c d e _ _ h i j) := s in mk_fs a b c d e ng ic h i j.
Definition set_world (v : W) (s : fs) : fs :=
  let '(mk_fs a b c d e f g _ i j) := s in mk_fs a b c d e f g v i j.
Definition add_log (e : sysev) (s : fs) : fs :=
  let '(mk_fs a b c d g h i j l o) := s in mk_fs a b c d g h i j (e :: l) o.
Definition add_out (m : view * fuse_out) (s : fs) : fs :=
  let '(mk_fs a b c d e f g h i j) := s in mk_fs a b c d e f g h i (m :: j).

(** ** Memory *)

Definition load (p : ptr) : M fs node := λ s,
  match heap s !! p with Some n => Ret n s | None => Undefined end.

Definition update (p : ptr) (f : node → node) : M fs unit := λ s,
  match heap s !! p with
  | Some n => Ret tt (set_heap (<[p := f n]> (heap s)) s)
  | None => Undefined
  end.

(** [free(node)]: only a heap block may be freed. *)
Definition free_node (p : ptr) : M fs unit := λ s,
  match p, heap s !! p with
  | Heap _, Some _ => Ret tt (set_heap (delete p (heap s)) s)
  | _, _ => Undefined
  end.

(** The addresses in use, for the allocator. *)
Definition ptr_addr (p : ptr) : list Z := match p with Root => [] | Heap a => [a] end.
Definition live_addrs (s : fs) : gset Z :=
  list_to_set (elements (dom (heap s)) ≫= ptr_addr) ∪ dom (handles s).

(** ** The global lock: not recursive, so locking it twice never answers. *)
Definition lock : M fs unit := λ s, if locked s then Stuck else Ret tt (set_locked true s).
Definition unlock : M fs unit := λ s,
  if locked s then Ret tt (set_locked false s) else Undefined.

(** ** System calls *)
Context `{!Os W}.

Definition sys {A} (call : W → A * W) : M fs A := λ s,
  let '(a, w) := call (world s) in Ret a (set_world w s).
Definition sys_ (call : W → W) : M fs unit := λ s, Ret tt (set_world (call (world s)) s).
Definition logged {A} (e : sysev) (m : M fs A) : M fs A := modify (add_log e) ;; m.

Definition malloc (size : Z) : M fs (option Z) := λ s,
  let '(a, w) := os_malloc (world s) (live_addrs s) size in Ret a (set_world w s).

(** A malloc'd copy of [n + 1] bytes of the C string [src]: the source relies
    on [n = strlen(src)], otherwise the copy over-reads or loses its
    terminator. *)
Definition malloc_str (n : Z) (src : string) : M fs (option cbuf) :=
  a ← malloc (n + 1);
  match a with
  | None => mret None
  | Some _ => require (n =? slen src) ;; mret (Some (mk_cbuf (n + 1) src))
  end.

(** [memcpy(dst, src, n + 1)] into a malloc'd block. *)
Definition memcpy_str (dst : cbuf) (src : string) (n : Z) : M fs cbuf :=
  require ((n =? slen src) && (n + 1 <=? blk dst)) ;; mret (mk_cbuf (blk dst) src).

(** [realloc(buf, size)], of a block whose string fits [size]. *)
Definition realloc_str (b : cbuf) (size : Z) : M fs (option cbuf) :=
  a ← malloc size;
  match a with
  | None => mret None
  | Some _ => require (slen (str b) <? size) ;; mret (Some (mk_cbuf size (str b)))
  end.

Definition mknod (path : string) (mode rdev : Z) : M fs (unit + positive) :=
  logged (EvMknod path mode rdev) (sys (λ w, os_mknod w path mode rdev)).
Definition mkdir (path : string) (mode : Z) : M fs (unit + positive) :=
  logged (EvMkdir path mode) (sys (λ w, os_mkdir w path mode)).
Definition unlink (path : string) : M fs (unit + positive) :=
  logged (EvUnlink path) (sys (λ w, os_unlink w path)).
Definition rmdir (path : string) : M fs (unit + positive) :=
  logged (EvRmdir path) (sys (λ w, os_rmdir w path)).
Definition rename (o n : string) : M fs (unit + positive) :=
  logged (EvRename o n) (sys (λ w, os_rename w o n)).
Definition truncate64 (path : string) (size : Z) : M fs (unit + positive) :=
  logged (EvTruncate path size) (sys (λ w, os_truncate w path size)).
Definition utimensat (path : string) (a m : timespec) : M fs (unit + positive) :=
  logged (EvUtimensat path a m) (sys (λ w, os_utimensat w path a m)).
Definition open (path : string) (flags mode : Z) : M fs (Z + positive) :=
  logged (EvOpen path flags mode) (sys (λ w, os_open w path flags mode)).
Definition pwrite64 (fd : Z) (data : list Ascii.ascii) (off : Z) : M fs (Z + positive) :=
  logged (EvPwrite fd data off) (sys (λ w, os_pwrite w fd data off)).

(** Write one message to a mount's descriptor. *)
Definition send (v : view) (m : fuse_out) : M fs unit := modify (add_out (v, m)).

(** ** Handles *)
Definition load_handle (fh : Z) : M fs hobj := λ s,
  match handles s !! wrap UINTPTR_BITS fh with Some h => Ret h s | None => Undefined end.
Definition new_handle (a : Z) (h : hobj) : M fs unit := λ s,
  Ret tt (set_handles (<[a := h]> (handles s)) s).
Definition free_handle (fh : Z) : M fs unit := λ s,
  Ret tt (set_handles (delete (wrap UINTPTR_BITS fh) (handles s)) s).
End fs.
Arguments fs : clear implicits.
