(* ===== verification/FuseNode.v ===== *)
(** * sdcard: the node graph (fuse.cpp)

    Reference counting, the sibling lists, node creation and renaming, lookups
    and paths.  Loops over pointers carry fuel; the callers supply one more
    than the number of live nodes, which [FuseInv] shows is always enough. *)

From S2P Require Import Prelude CMonad FuseTypes FuseState.

Section node_ops.
Context {W : Type} `{!FuseAbi, !AndroidIds, !Os W}.
Abbreviation Mf := (M (fs W)).

Definition id_to_ptr (id : Z) : option ptr :=
  let a := wrap UINTPTR_BITS id in if a =? 0 then None else Some (Heap a).

(** Enough fuel for any loop over the live nodes. *)
Definition node_fuel : Mf nat := λ s, Ret (S (size (heap s))) s.

Definition acquire_node_locked (p : ptr) : Mf unit :=
  update p (λ n, set_refcount (u32 (refcount n + 1)) n).

Definition add_node_to_parent_locked (p par : ptr) : Mf unit :=
  update p (set_parent (Some par)) ;;
  pn ← load par;
  update p (set_next (child pn)) ;;
  update par (set_child (Some p)) ;;
  acquire_node_locked par.

(** [while (node2->next != node) node2 = node2->next;] *)
Fixpoint find_previous (fuel : nat) (cur : option ptr) (p : ptr) : Mf ptr :=
  match fuel, cur with
  | O, _ => stuck
  | _, None => undefined
  | S fuel', Some q =>
      n ← load q;
      if decide (next n = Some p) then mret q else find_previous fuel' (next n) p
  end.

(** Unlink [p] from the sibling list of [par]. *)
Definition unlink_sibling (fuel : nat) (p par : ptr) : Mf unit :=
  pn ← load par;
  if decide (child pn = Some p) then
    n ← load p;
    update par (set_child (next n))
  else
    q ← find_previous fuel (child pn) p;
    n ← load p;
    update q (set_next (next n)).

(** [release_node_locked] and [remove_node_from_parent_locked] call each
    other; [release fuel] is the first, with the second inlined in it. *)
Fixpoint release (fuel : nat) (p : ptr) : Mf unit :=
  match fuel with
  | O => stuck
  | S fuel' =>
      n ← load p;
      if 0 <? refcount n then
        update p (set_refcount (refcount n - 1)) ;;
        if refcount n - 1 =? 0 then
          (match parent n with
           | None => mret tt
           | Some par =>
               f ← node_fuel;
               unlink_sibling f p par ;;
               release fuel' par ;;
               update p (λ n, set_next None (set_parent None n))
           end) ;;
          free_node p
        else mret tt
      else mret tt
  end.

Definition release_node_locked (p : ptr) : Mf unit := f ← node_fuel; release f p.

Definition remove_node_from_parent_locked (p : ptr) : Mf unit :=
  n ← load p;
  match parent n with
  | None => mret tt
  | Some par =>
      f ← node_fuel;
      unlink_sibling f p par ;;
      release_node_locked par ;;
      update p (λ n, set_next None (set_parent None n))
  end.

(** The last component of a node's path, and the length the source takes it to have. *)
Definition path_component (n : node) : string * Z :=
  match graft_path n, actual_name n with
  | Some g, _ => (g, graft_pathlen n)
  | None, Some a => (str a, namelen n)
  | None, None => (str (name n), namelen n)
  end.

(** [get_node_path_locked]: [None] is the result -1; otherwise the path
    length and the contents of the buffer. *)
Fixpoint get_node_path (fuel : nat) (p : ptr) (bufsize : Z) : Mf (option (Z * string)) :=
  match fuel with
  | O => stuck
  | S fuel' =>
      n ← load p;
      let '(nm, nl) := path_component n in
      if bufsize <? nl + 1 then mret None else
      pre ← (match parent n, graft_path n with
             | Some q, None =>
                 r ← get_node_path fuel' q (bufsize - nl - 1);
                 mret (match r with
                       | None => None
                       | Some (l, b) => Some (l + 1, b +:+ "/")
                       end)
             | _, _ => mret (Some (0, EmptyString))
             end);
      match pre with
      | None => mret None
      | Some (l, b) =>
          require (nl =? slen nm) ;; mret (Some (l + nl, b +:+ nm))
      end
  end.

Definition get_node_path_locked (p : ptr) (bufsize : Z) : Mf (option (Z * string)) :=
  f ← node_fuel; get_node_path f p bufsize.

Definition lookup_node_by_id_locked (nodeid : Z) : option ptr :=
  if nodeid =? FUSE_ROOT_ID then Some Root else id_to_ptr nodeid.

Definition lookup_node_and_path_by_id_locked (nodeid bufsize : Z) : Mf (option (ptr * string)) :=
  match lookup_node_by_id_locked nodeid with
  | None => mret None
  | Some p =>
      r ← get_node_path_locked p bufsize;
      mret (match r with None => None | Some (_, b) => Some (p, b) end)
  end.

Fixpoint lookup_sibling (fuel : nat) (cur : option ptr) (nm : string) : Mf (option ptr) :=
  match fuel, cur with
  | O, _ => stuck
  | _, None => mret None
  | S fuel', Some q =>
      n ← load q;
      if streq nm (str (name n)) && negb (deleted n) then mret (Some q)
      else lookup_sibling fuel' (next n) nm
  end.

Definition lookup_child_by_name_locked (p : ptr) (nm : string) : Mf (option ptr) :=
  n ← load p; f ← node_fuel; lookup_sibling f (child n) nm.

(** ** Permission derivation *)

(** The fields [derive_permissions_locked] computes for a node from its
    parent's fields and its own name. *)
Record pinfo : Type := mk_pinfo {
  pi_perm : perm_t; pi_userid : Z; pi_uid : Z; pi_under_android : bool
}.
Definition pinfo_of (n : node) : pinfo :=
  mk_pinfo (perm n) (userid n) (uid n) (under_android n).

Definition derive_pinfo (pkgs : gmap string Z) (pp : pinfo) (nm : string) : pinfo :=
  let '(mk_pinfo pm us u ua) := pp in
  match pm with
  | PERM_INHERIT => mk_pinfo PERM_INHERIT us u ua
  | PERM_PRE_ROOT => mk_pinfo PERM_ROOT (u32 (strtoul ULONG_BITS nm)) u ua
  | PERM_ROOT =>
      if strcaseeq nm "Android" then mk_pinfo PERM_ANDROID us u true
      else mk_pinfo PERM_INHERIT us u ua
  | PERM_ANDROID =>
      if strcaseeq nm "data" then mk_pinfo PERM_ANDROID_DATA us u ua
      else if strcaseeq nm "obb" then mk_pinfo PERM_ANDROID_OBB us u ua
      else if strcaseeq nm "media" then mk_pinfo PERM_ANDROID_MEDIA us u ua
      else mk_pinfo PERM_INHERIT us u ua
  | PERM_ANDROID_DATA | PERM_ANDROID_OBB | PERM_ANDROID_MEDIA =>
      match appid_find pkgs nm with
      | Some appid => mk_pinfo PERM_INHERIT us (multiuser_get_uid us appid) ua
      | None => mk_pinfo PERM_INHERIT us u ua
      end
  end.

(** The graft: only the "obb" child of an "Android" directory sets it. *)
Definition derive_graft (obb : string) (pm : perm_t) (n : node) : node :=
  match pm with
  | PERM_ANDROID =>
      if negb (strcaseeq (str (name n)) "data") && strcaseeq (str (name n)) "obb"
      then set_graft (Some obb) (slen obb) n else n
  | _ => n
  end.

Definition derive_node (pkgs : gmap string Z) (obb : string) (pn n : node) : node :=
  let '(mk_pinfo pm us u ua) := derive_pinfo pkgs (pinfo_of pn) (str (name n)) in
  set_derived pm us u ua (derive_graft obb (perm pn) n).

Definition derive_permissions_locked (par p : ptr) : Mf unit :=
  s ← get;
  pn ← load par;
  update p (derive_node (package_to_appid s) (obb_path s) pn).

(** [for (node = parent->child; node; node = node->next)] *)
Fixpoint for_siblings (fuel : nat) (cur : option ptr) (body : ptr → Mf unit) : Mf unit :=
  match fuel, cur with
  | O, _ => stuck
  | _, None => mret tt
  | S fuel', Some p =>
      body p ;;
      n ← load p;
      for_siblings fuel' (next n) body
  end.

Fixpoint derive_permissions_recursive (fuel : nat) (par : ptr) : Mf unit :=
  match fuel with
  | O => stuck
  | S fuel' =>
      pn ← load par;
      f ← node_fuel;
      for_siblings f (child pn) (λ p,
        derive_permissions_locked par p ;;
        n ← load p;
        if decide (child n = None) then mret tt
        else derive_permissions_recursive fuel' p)
  end.

Definition derive_permissions_recursive_locked (par : ptr) : Mf unit :=
  f ← node_fuel; derive_permissions_recursive f par.

(** ** Creation and renaming *)

(** [calloc(1, sizeof(struct node))], filled in by [create_node_locked] up to
    the permission derivation. *)
Definition fresh_node (a inode gener : Z) (nl : Z) (nm : cbuf) (an : option cbuf) : node :=
  mk_node 0 a gener inode PERM_INHERIT 0 0 false None None None nl nm an None 0 false.

Definition create_node_locked (par : ptr) (nm actual : string) : Mf (option ptr) :=
  let nl := slen nm in
  s ← get;
  if inode_ctr s =? 0 then mret None else
  a ← malloc 0;
  match a with
  | None => mret None
  | Some a =>
      b ← malloc_str nl nm;
      match b with
      | None => mret None
      | Some b =>
          an ← (if streq nm actual then mret (Some None)
                else r ← malloc_str nl actual; mret (option_map Some r));
          match an with
          | None => mret None
          | Some an =>
              s ← get;
              modify (set_heap (<[Heap a := fresh_node a (inode_ctr s) (next_generation s) nl b an]>
                                  (heap s))) ;;
              modify (set_counters (u64 (next_generation s + 1)) (u32 (inode_ctr s + 1))) ;;
              derive_permissions_locked par (Heap a) ;;
              acquire_node_locked (Heap a) ;;
              add_node_to_parent_locked (Heap a) par ;;
              mret (Some (Heap a))
          end
      end
  end.

(** The storage part of [rename_node_locked]: make both buffers large enough.
    [None] is an allocation failure; the buffers reached so far are kept. *)
Definition grow_name (p : ptr) (nl : Z) (need_actual : bool) : Mf bool :=
  n ← load p;
  if namelen n <? nl then
    nb ← realloc_str (name n) (nl + 1);
    match nb with
    | None => mret false
    | Some nb =>
        update p (set_name (namelen n) nb (actual_name n)) ;;
        match need_actual, actual_name n with
        | true, Some ab =>
            ab' ← realloc_str ab (nl + 1);
            match ab' with
            | None => mret false
            | Some ab' => update p (set_name (namelen n) nb (Some ab')) ;; mret true
            end
        | _, _ => mret true
        end
    end
  else mret true.

Definition rename_node_locked (p : ptr) (nm actual : string) : Mf Z :=
  let nl := slen nm in
  let need_actual := negb (streq nm actual) in
  ok ← grow_name p nl need_actual;
  if negb ok then mret (- ENOMEM) else
  n ← load p;
  an ← (if need_actual then
          ab ← (match actual_name n with
                | Some ab => mret (Some ab)
                | None =>
                    a ← malloc (nl + 1);
                    mret (option_map (λ _, mk_cbuf (nl + 1) EmptyString) a)
                end);
          match ab with
          | None => mret None
          | Some ab => c ← memcpy_str ab actual nl; mret (Some (Some c))
          end
        else mret (Some None));
  match an with
  | None => mret (- ENOMEM)
  | Some an =>
      nb ← memcpy_str (name n) nm nl;
      update p (set_name nl nb an) ;;
      mret 0
  end.

Definition acquire_or_create_child_locked (par : ptr) (nm actual : string) : Mf (option ptr) :=
  c ← lookup_child_by_name_locked par nm;
  match c with
  | Some c => acquire_node_locked c ;; mret (Some c)
  | None => create_node_locked par nm actual
  end.
End node_ops.
