(* ===== verification/FuseTree.v ===== *)
(** * sdcard: the shape of the node graph

    [tree_ok h K D]: the live nodes form a tree below [Root], plus the subtrees
    of the detached nodes [D]; [K p] lists the children of [p] in sibling-list
    order.  The lemmas give the effect of each pointer surgery on it. *)

From S2P Require Import Prelude CMonad FuseTypes FuseState FuseNode.

Abbreviation nodes := (gmap ptr node).

(** The sibling list starting at [c]. *)
Inductive chain (h : nodes) : option ptr → list ptr → Prop :=
  | chain_nil : chain h None []
  | chain_cons p n l : h !! p = Some n → chain h (next n) l → chain h (Some p) (p :: l).

(** [p], its parent, its parent's parent, ... up to a node without parent. *)
Inductive lineage (h : nodes) : ptr → list ptr → Prop :=
  | lineage_top p n : h !! p = Some n → parent n = None → lineage h p [p]
  | lineage_step p n q l :
      h !! p = Some n → parent n = Some q → lineage h q l → lineage h p (p :: l).

Record tree_ok (h : nodes) (K : ptr → list ptr) (D : gset ptr) : Prop := mk_tree_ok {
  t_root : ∃ r, h !! Root = Some r ∧ parent r = None;
  t_top p n : h !! p = Some n → parent n = None → p = Root ∨ p ∈ D;
  t_det p : p ∈ D → p ≠ Root ∧ ∃ n, h !! p = Some n ∧ parent n = None;
  t_chain p n : h !! p = Some n → chain h (child n) (K p);
  t_nodup p n : h !! p = Some n → NoDup (K p);
  t_kid p n c : h !! p = Some n → c ∈ K p → ∃ m, h !! c = Some m ∧ parent m = Some p;
  t_par c m p : h !! c = Some m → parent m = Some p → is_Some (h !! p) ∧ c ∈ K p;
  t_lin p n : h !! p = Some n → ∃ l, lineage h p l
}.

Definition links (n : node) : option ptr * option ptr * option ptr := (next n, child n, parent n).

(** Everything but the reference count and the list links. *)
Definition payload (n : node) : node := set_refcount 0 (set_next None (set_child None n)).

#[global] Arguments links : simpl never.
#[global] Arguments payload : simpl never.

(** ** Field algebra of the setters *)

Ltac node_simpl :=
  repeat match goal with n : node |- _ => destruct n end; simpl in *.

Section field_lemmas.
Implicit Types n : node.

Lemma links_set_refcount v n : links (set_refcount v n) = links n.
Proof. by destruct n. Qed.
Lemma links_set_derived a b c d n : links (set_derived a b c d n) = links n.
Proof. by destruct n. Qed.
Lemma links_set_name a b c n : links (set_name a b c n) = links n.
Proof. by destruct n. Qed.
Lemma links_set_graft a b n : links (set_graft a b n) = links n.
Proof. by destruct n. Qed.
Lemma links_set_deleted b n : links (set_deleted b n) = links n.
Proof. by destruct n. Qed.

Lemma payload_set_refcount v n : payload (set_refcount v n) = payload n.
Proof. by destruct n. Qed.
Lemma payload_set_next v n : payload (set_next v n) = payload n.
Proof. by destruct n. Qed.
Lemma payload_set_child v n : payload (set_child v n) = payload n.
Proof. by destruct n. Qed.

Lemma refcount_set_refcount v n : refcount (set_refcount v n) = v.
Proof. by destruct n. Qed.
Lemma refcount_set_next v n : refcount (set_next v n) = refcount n.
Proof. by destruct n. Qed.
Lemma refcount_set_child v n : refcount (set_child v n) = refcount n.
Proof. by destruct n. Qed.
Lemma refcount_set_parent v n : refcount (set_parent v n) = refcount n.
Proof. by destruct n. Qed.
Lemma refcount_set_derived a b c d n : refcount (set_derived a b c d n) = refcount n.
Proof. by destruct n. Qed.
Lemma refcount_set_graft a b n : refcount (set_graft a b n) = refcount n.
Proof. by destruct n. Qed.
Lemma refcount_set_name a b c n : refcount (set_name a b c n) = refcount n.
Proof. by destruct n. Qed.
Lemma refcount_set_deleted b n : refcount (set_deleted b n) = refcount n.
Proof. by destruct n. Qed.

Lemma next_set_next v n : next (set_next v n) = v.
Proof. by destruct n. Qed.
Lemma next_set_child v n : next (set_child v n) = next n.
Proof. by destruct n. Qed.
Lemma next_set_parent v n : next (set_parent v n) = next n.
Proof. by destruct n. Qed.
Lemma next_set_refcount v n : next (set_refcount v n) = next n.
Proof. by destruct n. Qed.
Lemma child_set_next v n : child (set_next v n) = child n.
Proof. by destruct n. Qed.
Lemma child_set_child v n : child (set_child v n) = v.
Proof. by destruct n. Qed.
Lemma child_set_parent v n : child (set_parent v n) = child n.
Proof. by destruct n. Qed.
Lemma child_set_refcount v n : child (set_refcount v n) = child n.
Proof. by destruct n. Qed.
Lemma parent_set_next v n : parent (set_next v n) = parent n.
Proof. by destruct n. Qed.
Lemma parent_set_child v n : parent (set_child v n) = parent n.
Proof. by destruct n. Qed.
Lemma parent_set_parent v n : parent (set_parent v n) = v.
Proof. by destruct n. Qed.
Lemma parent_set_refcount v n : parent (set_refcount v n) = parent n.
Proof. by destruct n. Qed.
End field_lemmas.

Create Rewrite HintDb node_fields.
#[export] Hint Rewrite links_set_refcount links_set_derived links_set_name links_set_graft
  links_set_deleted payload_set_refcount payload_set_next payload_set_child
  refcount_set_refcount refcount_set_next refcount_set_child refcount_set_parent
  refcount_set_derived refcount_set_graft refcount_set_name refcount_set_deleted
  next_set_next next_set_child next_set_parent next_set_refcount
  child_set_next child_set_child child_set_parent child_set_refcount
  parent_set_next parent_set_child parent_set_parent parent_set_refcount : node_fields.
Ltac nf := autorewrite with node_fields in *.

(** ** Chains and lineages *)

Lemma chain_elem h c l p : chain h c l → p ∈ l → is_Some (h !! p).
Proof.
  induction 1 as [|q n l Hq Hc IH]; [by intros ?%not_elem_of_nil|].
  rewrite elem_of_cons. intros [->|?]; eauto.
Qed.

Lemma chain_ext h h' c l :
  (∀ x, x ∈ l → next <$> h' !! x = next <$> h !! x) → chain h c l → chain h' c l.
Proof.
  intros Hx Hc. induction Hc as [|p n l Hp Hc IH]; [constructor|].
  pose proof (Hx p ltac:(left)) as Hp'. rewrite Hp in Hp'. simpl in Hp'.
  destruct (h' !! p) as [n'|] eqn:E; [|done]. simplify_eq/=.
  econstructor; [done|]. rewrite Hp'. apply IH. intros y Hy. apply Hx. by right.
Qed.

Lemma chain_fun h c l1 l2 : chain h c l1 → chain h c l2 → l1 = l2.
Proof.
  intros H. revert l2. induction H as [|p n l Hp Hc IH]; intros l2 H2; inversion H2; [done|].
  simplify_eq. f_equal. eauto.
Qed.

Lemma chain_app h c l1 a l2 :
  chain h c (l1 ++ a :: l2) ↔
  chain h (Some a) (a :: l2) ∧ (∃ x, x = match l1 with [] => Some a | b :: _ => Some b end ∧ c = x) ∧
  ∀ h', (∀ x, x ∈ l1 → next <$> h' !! x = next <$> h !! x) →
        ∀ l3, chain h' (Some a) (a :: l3) → chain h' c (l1 ++ a :: l3).
Proof.
  split.
  - revert c. induction l1 as [|b l1 IH]; intros c Hc; simpl in *.
    + inversion Hc; subst. split; [done|]. split; [by eauto|]. by intros.
    + inversion Hc as [|? n ? Hb Hn]; subst.
      destruct (IH _ Hn) as (Ha & _ & Hext). split; [done|]. split; [by eauto|].
      intros h' Hh l3 Hl3. pose proof (Hh b ltac:(left)) as Hb'. rewrite Hb in Hb'.
      destruct (h' !! b) as [nb|] eqn:Eb; simplify_eq/=. econstructor; [done|].
      rewrite Hb'. apply Hext; [|done]. intros. apply Hh. by right.
  - intros (Ha & _ & Hext). by apply Hext.
Qed.

Lemma lineage_fun h p l1 l2 : lineage h p l1 → lineage h p l2 → l1 = l2.
Proof.
  intros H. revert l2. induction H as [p n Hp Hn|p n q l Hp Hn Hl IH]; intros l2 H2;
    inversion H2; simplify_eq; [done|]. f_equal; eauto.
Qed.

Lemma lineage_elem h p l r :
  lineage h p l → r ∈ l → ∃ l1 l2, l = l1 ++ l2 ∧ lineage h r l2.
Proof.
  induction 1 as [p n Hp Hn|p n q l Hp Hn Hl IH].
  - rewrite list_elem_of_singleton. intros ->. exists [], [p]. split; [done|]. by econstructor.
  - rewrite elem_of_cons. intros [->|Hr].
    + exists [], (p :: l). split; [done|]. by econstructor.
    + destruct (IH Hr) as (l1 & l2 & -> & ?). by exists (p :: l1), l2.
Qed.

(** A node on the lineage of [q] other than [q] itself is someone's parent. *)
Lemma lineage_below h q l p :
  lineage h q l → p ∈ l → p = q ∨ ∃ c m, h !! c = Some m ∧ parent m = Some p.
Proof.
  induction 1 as [q n Hq Hn|q n r l Hq Hn Hl IH].
  - rewrite list_elem_of_singleton. auto.
  - intros [->|Hp]%elem_of_cons; [by left|]. destruct (IH Hp) as [->|?]; eauto.
Qed.

Lemma lineage_live h p l r : lineage h p l → r ∈ l → is_Some (h !! r).
Proof.
  intros H Hr. destruct (lineage_elem _ _ _ _ H Hr) as (l1 & l2 & -> & Hl).
  inversion Hl; eauto.
Qed.

Lemma lineage_head h p l : lineage h p l → ∃ l', l = p :: l'.
Proof. inversion 1; eauto. Qed.

Lemma lineage_nodup h p l : lineage h p l → NoDup l.
Proof.
  induction 1 as [p n Hp Hn|p n q l Hp Hn Hl IH].
  - apply NoDup_singleton.
  - apply NoDup_cons. split; [|done]. intros Hin.
    destruct (lineage_elem _ _ _ _ Hl Hin) as (l1 & l2 & -> & Hl2).
    assert (lineage h p (p :: l1 ++ l2)) as Hl3 by (by econstructor).
    pose proof (lineage_fun _ _ _ _ Hl2 Hl3) as Heq.
    apply (f_equal length) in Heq. simpl in Heq. rewrite length_app in Heq. lia.
Qed.

Lemma nodup_dom_length (h : nodes) (l : list ptr) :
  NoDup l → (∀ x, x ∈ l → is_Some (h !! x)) → (length l ≤ size h)%nat.
Proof.
  intros Hnd Hin. rewrite <- size_dom. rewrite <- (size_list_to_set (C := gset ptr)) by done.
  apply subseteq_size. intros x. rewrite elem_of_list_to_set, elem_of_dom. auto.
Qed.

Lemma lineage_length h p l : lineage h p l → (length l ≤ size h)%nat.
Proof.
  intros H. apply nodup_dom_length; [by eapply lineage_nodup|].
  intros x. by eapply lineage_live.
Qed.

Lemma lineage_ext h h' p l :
  (∀ x, x ∈ l → parent <$> h' !! x = parent <$> h !! x) → lineage h p l → lineage h' p l.
Proof.
  intros Hx. induction 1 as [p n Hp Hn|p n q l Hp Hn Hl IH].
  - pose proof (Hx p ltac:(left)) as H. rewrite Hp in H.
    destruct (h' !! p) eqn:E; simplify_eq/=. econstructor; [done|congruence].
  - pose proof (Hx p ltac:(left)) as H. rewrite Hp in H.
    destruct (h' !! p) eqn:E; simplify_eq/=. econstructor; [done|by rewrite H|].
    apply IH. intros. apply Hx. by right.
Qed.

Section tree.
Context {h : nodes} {K : ptr → list ptr} {D : gset ptr}.
Context (T : tree_ok h K D).

Lemma parent_neq p n q : h !! p = Some n → parent n = Some q → q ≠ p.
Proof.
  intros Hp Hn ->. destruct (t_lin _ _ _ T _ _ Hp) as [l Hl].
  assert (lineage h p (p :: l)) as Hl' by (by econstructor).
  pose proof (lineage_fun _ _ _ _ Hl Hl') as Heq.
  apply (f_equal length) in Heq. simpl in Heq. lia.
Qed.

Lemma kid_unique p q n m c : h !! p = Some n → h !! q = Some m → c ∈ K p → c ∈ K q → p = q.
Proof.
  intros Hp Hq Hcp Hcq.
  destruct (t_kid _ _ _ T _ _ _ Hp Hcp) as (mc & Hc & Hc1).
  destruct (t_kid _ _ _ T _ _ _ Hq Hcq) as (mc' & Hc' & Hc2). congruence.
Qed.

Lemma kid_live p n c : h !! p = Some n → c ∈ K p → is_Some (h !! c).
Proof. intros Hp Hc. destruct (t_kid _ _ _ T _ _ _ Hp Hc) as (m & ? & ?). eauto. Qed.

Lemma kids_length p n : h !! p = Some n → (length (K p) ≤ size h)%nat.
Proof.
  intros Hp. apply nodup_dom_length; [by eapply t_nodup|].
  intros x. by eapply kid_live.
Qed.

Lemma child_none p n : h !! p = Some n → child n = None ↔ K p = [].
Proof.
  intros Hp. pose proof (t_chain _ _ _ T _ _ Hp) as Hc. split; intros E.
  - rewrite E in Hc. by inversion Hc.
  - rewrite E in Hc. inversion Hc; congruence.
Qed.
End tree.

(** ** Surgery *)

(** Nodes may change anything but their links. *)
Lemma tree_ok_ext h h' K D :
  (∀ p, links <$> h' !! p = links <$> h !! p) → tree_ok h K D → tree_ok h' K D.
Proof.
  intros Hl T.
  assert (∀ p n', h' !! p = Some n' → ∃ n, h !! p = Some n ∧ links n' = links n) as Hb.
  { intros p n' Hp. specialize (Hl p). rewrite Hp in Hl.
    destruct (h !! p) as [n|] eqn:E; simplify_eq/=. exists n. unfold links. split; congruence. }
  assert (∀ p n, h !! p = Some n → ∃ n', h' !! p = Some n' ∧ links n' = links n) as Hf.
  { intros p n Hp. specialize (Hl p). rewrite Hp in Hl.
    destruct (h' !! p) as [n'|] eqn:E; simplify_eq/=. exists n'. unfold links. split; congruence. }
  assert (∀ x, next <$> h' !! x = next <$> h !! x) as Hnx.
  { intros x. specialize (Hl x). destruct (h' !! x), (h !! x); simplify_eq/=; congruence. }
  assert (∀ x, parent <$> h' !! x = parent <$> h !! x) as Hpx.
  { intros x. specialize (Hl x). destruct (h' !! x), (h !! x); simplify_eq/=; congruence. }
  assert (∀ n n', links n' = links n → next n' = next n ∧ child n' = child n ∧ parent n' = parent n)
    as Hs by (unfold links; naive_solver).
  split.
  - destruct (t_root _ _ _ T) as (r & Hr & Hp). destruct (Hf _ _ Hr) as (r' & ? & (?&?&?)%Hs).
    exists r'. split; [done|congruence].
  - intros p n' (n & Hp & (?&?&?)%Hs)%Hb Hn. eapply t_top; [done..|congruence].
  - intros p Hp. destruct (t_det _ _ _ T _ Hp) as (? & n & Hn & ?). split; [done|].
    destruct (Hf _ _ Hn) as (n' & ? & (?&?&?)%Hs). exists n'. split; [done|congruence].
  - intros p n' (n & Hp & (?&E&?)%Hs)%Hb. rewrite E.
    eapply chain_ext; [by auto|]. by eapply t_chain.
  - intros p n' (n & Hp & _)%Hb. by eapply t_nodup.
  - intros p n' c (n & Hp & _)%Hb Hc. destruct (t_kid _ _ _ T _ _ _ Hp Hc) as (m & Hm & ?).
    destruct (Hf _ _ Hm) as (m' & ? & (?&?&?)%Hs). exists m'. split; [done|congruence].
  - intros c m' p (m & Hc & (?&?&?)%Hs)%Hb Hm.
    destruct (t_par _ _ _ T c m p Hc) as [[n Hn] ?]; [congruence|].
    destruct (Hf _ _ Hn) as (n' & ? & _). eauto.
  - intros p n' (n & Hp & _)%Hb. destruct (t_lin _ _ _ T _ _ Hp) as [l Hlin].
    exists l. eapply lineage_ext; [|done]. auto.
Qed.

(** The heap after unlinking [p], whose siblings before it are [l1], from [par]. *)
Definition unlinked (h : nodes) (l1 : list ptr) (n : node) (par : ptr) : nodes :=
  match last l1 with
  | None => alter (set_child (next n)) par h
  | Some a => alter (set_next (next n)) a h
  end.

Definition detached (h : nodes) (l1 : list ptr) (p : ptr) (n : node) (par : ptr) : nodes :=
  <[p := set_next None (set_parent None n)]> (unlinked h l1 n par).

Section detach.
Context {h : nodes} {K : ptr → list ptr} {D : gset ptr}.
Context (T : tree_ok h K D).
Context {p par : ptr} {n pn : node} {l1 l2 : list ptr}.
Context (Hp : h !! p = Some n) (Hpar : parent n = Some par).
Context (Hpn : h !! par = Some pn) (HK : K par = l1 ++ p :: l2).

Lemma detach_nodup : NoDup l1 ∧ NoDup l2 ∧ p ∉ l1 ∧ p ∉ l2 ∧ (∀ x, x ∈ l1 → x ∉ l2).
Proof.
  pose proof (t_nodup _ _ _ T _ _ Hpn) as Hnd. rewrite HK in Hnd.
  apply NoDup_app in Hnd as (? & Hd & [? ?]%NoDup_cons).
  repeat split; [done..| |done|]; intros; intros ?; eapply Hd; eauto.
  - left.
  - by right.
Qed.

Lemma detach_pred a : last l1 = Some a → a ≠ p ∧ a ≠ par ∧ ∃ na, h !! a = Some na ∧ parent na = Some par.
Proof.
  intros [l' El]%last_Some.
  destruct detach_nodup as (_ & _ & Hpl & _).
  assert (a ∈ l1) as Ha by (rewrite El; set_solver).
  destruct (t_kid _ _ _ T par pn a Hpn) as (na & Hna & Hpa).
  { rewrite HK. set_solver. }
  split; [|split; [|eauto]].
  - by intros ->.
  - intros ->. by eapply (parent_neq T); [exact Hna|exact Hpa|].
Qed.

Lemma par_neq : par ≠ p.
Proof. by eapply parent_neq. Qed.

Lemma unlinked_lookup x :
  unlinked h l1 n par !! x =
    (if decide (last l1 = Some x) then set_next (next n)
     else if decide (l1 = [] ∧ x = par) then set_child (next n) else id) <$> h !! x.
Proof.
  unfold unlinked. destruct (last l1) as [a|] eqn:E.
  - rewrite lookup_alter. repeat case_decide; simplify_eq; try done.
    + destruct H1 as [-> _]. done.
    + by rewrite option_fmap_id.
  - apply last_None in E. subst. rewrite lookup_alter. repeat case_decide; simplify_eq; try done.
    + destruct_and?. naive_solver.
    + naive_solver.
    + by rewrite option_fmap_id.
Qed.

Lemma detached_field {A} (f : node → A) x :
  (∀ v m, f (set_next v m) = f m) → (∀ v m, f (set_child v m) = f m) →
  x ≠ p → f <$> detached h l1 p n par !! x = f <$> h !! x.
Proof.
  intros Hn Hc Hx. unfold detached. rewrite lookup_insert_ne by done.
  rewrite unlinked_lookup. repeat case_decide; destruct (h !! x); simpl; congruence.
Qed.

Lemma detached_self : detached h l1 p n par !! p = Some (set_next None (set_parent None n)).
Proof. apply lookup_insert_eq. Qed.

Lemma detached_next x :
  x ≠ p → last l1 ≠ Some x → next <$> detached h l1 p n par !! x = next <$> h !! x.
Proof.
  intros Hx Hl. unfold detached. rewrite lookup_insert_ne by done. rewrite unlinked_lookup.
  repeat case_decide; destruct (h !! x); simpl; nf; congruence.
Qed.

Lemma detached_child x : x ≠ par → child <$> detached h l1 p n par !! x = child <$> h !! x.
Proof.
  intros Hx. destruct (decide (x = p)) as [->|Hxp].
  { rewrite detached_self, Hp. simpl. by nf. }
  unfold detached. rewrite lookup_insert_ne by done. rewrite unlinked_lookup.
  repeat case_decide; destruct_and?; destruct (h !! x); simpl; nf; congruence.
Qed.

Lemma detached_chain :
  ∃ pn', detached h l1 p n par !! par = Some pn' ∧ chain (detached h l1 p n par) (child pn') (l1 ++ l2).
Proof.
  pose proof (t_chain _ _ _ T _ _ Hpn) as Hc. rewrite HK in Hc.
  destruct detach_nodup as (Hn1 & Hn2 & Hp1 & Hp2 & Hd).
  pose proof par_neq as Hne.
  unfold detached at 1. rewrite lookup_insert_ne by done. rewrite unlinked_lookup, Hpn.
  destruct (decide (l1 = [])) as [El|El].
  - eexists. split; [done|]. rewrite decide_False by (by rewrite El). rewrite decide_True by done. nf.
    replace (l1 ++ l2) with l2 by (by rewrite El). rewrite El in Hc. simpl in Hc.
    inversion Hc as [|? n' ? Hn' Hc']. assert (n' = n) as -> by congruence.
    eapply chain_ext; [|done]. intros x Hx. apply detached_next; [set_solver|by rewrite El].
  - destruct (last l1) as [a|] eqn:Ea.
    2:{ by apply last_None in Ea. }
    destruct (detach_pred _ Ea) as (Hap & Hapar & na & Hna & Hpa).
    eexists. split; [done|]. rewrite decide_False by congruence.
    rewrite decide_False by (intros [-> _]; done). simpl.
    pose proof Ea as [l' El']%last_Some.
    rewrite El', <- app_assoc in Hc. rewrite El' at 2. rewrite <- app_assoc. simpl in *.
    assert (a ∉ l') as Hal.
    { rewrite El' in Hn1. apply NoDup_app in Hn1 as (_ & Hn1 & _). set_solver. }
    apply chain_app in Hc as (Ha & _ & Hext). apply Hext.
    + intros x Hx. apply detached_next; [set_solver|]. rewrite Ea. by intros [= ->].
    + inversion Ha as [|? na' ? Hna' Hc']. assert (na' = na) as -> by congruence.
      inversion Hc' as [|? n' ? Hn' Hc2]. assert (n' = n) as -> by congruence.
      econstructor.
      * unfold detached. rewrite lookup_insert_ne by done. rewrite unlinked_lookup, Hna.
        by rewrite decide_True by done.
      * nf. eapply chain_ext; [|done]. intros x Hx. apply detached_next; [set_solver|].
        rewrite Ea. intros [= ->]. eapply Hd; [|done]. rewrite El'. set_solver.
Qed.

Lemma detach_ok :
  tree_ok (detached h l1 p n par) (<[par := l1 ++ l2]> K) ({[p]} ∪ D).
Proof.
  pose proof par_neq as Hne.
  destruct detach_nodup as (Hn1 & Hn2 & Hp1 & Hp2 & Hd).
  destruct detached_chain as (pn' & Hpn' & Hch).
  assert (∀ x, x ≠ p → parent <$> detached h l1 p n par !! x = parent <$> h !! x) as Hpx.
  { intros. apply detached_field; [intros; by nf..|done]. }
  assert (∀ x m, x ≠ p → detached h l1 p n par !! x = Some m →
            ∃ m0, h !! x = Some m0 ∧ parent m = parent m0) as Hb.
  { intros x m Hx Hm. specialize (Hpx x Hx). rewrite Hm in Hpx.
    destruct (h !! x) as [m0|]; simplify_eq/=. eauto. }
  assert (∀ x m0, x ≠ p → h !! x = Some m0 →
            ∃ m, detached h l1 p n par !! x = Some m ∧ parent m = parent m0) as Hf.
  { intros x m0 Hx Hm. specialize (Hpx x Hx). rewrite Hm in Hpx.
    destruct (detached h l1 p n par !! x) as [m|]; simplify_eq/=. eauto. }
  assert (p ≠ Root) as HpR.
  { intros ->. destruct (t_root _ _ _ T) as (r & ? & ?). congruence. }
  assert (∀ q m, h !! q = Some m → q ≠ par → ∀ x, x ∈ K q → x ≠ p ∧ x ∉ l1) as Hother.
  { intros q m Hq Hqp x Hx. split; intros Hx'; [subst x|]; apply Hqp;
      eapply (kid_unique T); eauto; rewrite HK; set_solver. }
  assert (∀ q m, detached h l1 p n par !! q = Some m → is_Some (h !! q)) as Hsome.
  { intros q m Hq. destruct (decide (q = p)) as [->|]; [eauto|].
    destruct (Hb q m) as (? & ? & _); eauto. }
  split.
  - destruct (t_root _ _ _ T) as (r & Hr & Hrp).
    destruct (Hf Root r) as (r' & ? & ?); [done..|]. exists r'. split; congruence.
  - intros x m Hx Hm. destruct (decide (x = p)) as [->|Hxp]; [set_solver|].
    destruct (Hb _ _ Hxp Hx) as (m0 & Hm0 & ?).
    destruct (t_top _ _ _ T x m0); [done|congruence|by left|set_solver].
  - intros x [->%elem_of_singleton|Hx]%elem_of_union.
    + split; [done|]. rewrite detached_self. eexists. split; [done|]. by nf.
    + destruct (t_det _ _ _ T x Hx) as (? & m & Hm & ?). split; [done|].
      destruct (Hf x m) as (m' & ? & ?); [congruence|done|]. exists m'. split; congruence.
  - intros q m Hq. destruct (decide (q = par)) as [->|Hqp].
    + rewrite fn_lookup_insert. simplify_eq. done.
    + rewrite fn_lookup_insert_ne by done.
      pose proof (detached_child q Hqp) as Hcq. rewrite Hq in Hcq.
      destruct (h !! q) as [m0|] eqn:Em0; simplify_eq/=. rewrite Hcq.
      eapply chain_ext; [|by eapply t_chain].
      intros x Hx. destruct (Hother _ _ Em0 Hqp _ Hx) as [? Hx1].
      apply detached_next; [done|]. intros [l' ->]%last_Some. set_solver.
  - intros q m Hq. destruct (decide (q = par)) as [->|Hqp].
    + rewrite fn_lookup_insert. apply NoDup_app. auto.
    + rewrite fn_lookup_insert_ne by done. destruct (Hsome _ _ Hq). by eapply t_nodup.
  - intros q m c Hq Hc. destruct (Hsome _ _ Hq) as [m0 Hm0].
    assert (c ∈ K q ∧ c ≠ p) as [Hc1 Hc2].
    { destruct (decide (q = par)) as [->|Hqp].
      - rewrite fn_lookup_insert in Hc. rewrite HK. set_solver.
      - rewrite fn_lookup_insert_ne in Hc by done. split; [done|]. by eapply Hother. }
    destruct (t_kid _ _ _ T _ _ _ Hm0 Hc1) as (mc & Hmc & ?).
    destruct (Hf c mc) as (mc' & ? & ?); [done..|]. exists mc'. split; congruence.
  - intros c m q Hc Hm. destruct (decide (c = p)) as [->|Hcp].
    { rewrite detached_self in Hc. simplify_eq. by nf. }
    destruct (Hb _ _ Hcp Hc) as (m0 & Hm0 & ?).
    destruct (t_par _ _ _ T c m0 q) as [[mq Hmq] Hin]; [done|congruence|].
    split.
    + destruct (decide (q = p)) as [->|Hqp]; [rewrite detached_self; eauto|].
      destruct (Hf _ _ Hqp Hmq) as (? & ? & _). eauto.
    + destruct (decide (q = par)) as [->|Hqp].
      * rewrite fn_lookup_insert. rewrite HK in Hin. set_solver.
      * by rewrite fn_lookup_insert_ne by done.
  - intros q m Hq. destruct (Hsome _ _ Hq) as [m0 Hm0].
    destruct (t_lin _ _ _ T _ _ Hm0) as [l Hl]. clear m Hq m0 Hm0 Hch.
    induction Hl as [q m Hq Hm|q m r l Hq Hm Hl [l' IH]].
    + destruct (Hf q m) as (m' & ? & ?); [congruence|done|].
      exists [q]. econstructor; [done|congruence].
    + destruct (decide (q = p)) as [->|Hqp].
      * exists [p]. econstructor; [apply detached_self|by nf].
      * destruct (Hf q m) as (m' & ? & E); [done..|]. exists (q :: l').
        econstructor; [done|by rewrite E|done].
Qed.
End detach.

(** A childless detached node can be freed. *)
Lemma delete_ok h K D p :
  tree_ok h K D → p ∈ D → K p = [] → tree_ok (delete p h) K (D ∖ {[p]}).
Proof.
  intros T Hp HK. destruct (t_det _ _ _ T p Hp) as (HpR & n & Hn & Hpn).
  assert (∀ q m, h !! q = Some m → p ∉ K q) as Hnk.
  { intros q m Hq Hin. destruct (t_kid _ _ _ T _ _ _ Hq Hin) as (m' & ? & ?). congruence. }
  assert (∀ q m, h !! q = Some m → parent m ≠ Some p) as Hnp.
  { intros q m Hq Hm. destruct (t_par _ _ _ T _ _ _ Hq Hm) as [_ Hin]. rewrite HK in Hin. set_solver. }
  assert (∀ q m, delete p h !! q = Some m ↔ q ≠ p ∧ h !! q = Some m) as Hl.
  { intros q m. rewrite lookup_delete_Some. naive_solver. }
  split.
  - destruct (t_root _ _ _ T) as (r & ? & ?). exists r. by rewrite Hl.
  - intros q m [Hq Hm]%Hl Hpm. destruct (t_top _ _ _ T q m Hm Hpm); [by left|set_solver].
  - intros q [Hq Hqp]%elem_of_difference. destruct (t_det _ _ _ T q Hq) as (? & m & ? & ?).
    split; [done|]. exists m. rewrite Hl. set_solver.
  - intros q m [Hq Hm]%Hl. eapply chain_ext; [|by eapply t_chain].
    intros x Hx. rewrite lookup_delete_ne; [done|]. intros ->. exact (Hnk _ _ Hm Hx).
  - intros q m [Hq Hm]%Hl. by eapply t_nodup.
  - intros q m c [Hq Hm]%Hl Hc. destruct (t_kid _ _ _ T _ _ _ Hm Hc) as (mc & ? & ?).
    exists mc. rewrite Hl. split; [|done]. split; [|done]. intros ->. exact (Hnk _ _ Hm Hc).
  - intros c m q [Hc Hm]%Hl Hpm. destruct (t_par _ _ _ T _ _ _ Hm Hpm) as [[mq Hq] ?].
    split; [|done]. exists mq. apply Hl. split; [|done]. intros ->. exact (Hnp _ _ Hm Hpm).
  - intros q m [Hq Hm]%Hl. destruct (t_lin _ _ _ T _ _ Hm) as [l Hlin]. exists l.
    eapply lineage_ext; [|done]. intros x Hx. rewrite lookup_delete_ne; [done|]. intros <-.
    destruct (lineage_below _ _ _ _ Hlin Hx) as [->|(c & mc & Hc & Hpc)]; [done|].
    by eapply Hnp.
Qed.

(** A fresh, unlinked node is a detached one-node tree. *)
Lemma insert_ok h K D p n :
  tree_ok h K D → h !! p = None → p ≠ Root → links n = (None, None, None) →
  tree_ok (<[p := n]> h) (<[p := []]> K) ({[p]} ∪ D).
Proof.
  intros T Hp HpR Hn. unfold links in Hn. simplify_eq.
  assert (∀ q m, <[p := n]> h !! q = Some m ↔ (q = p ∧ m = n) ∨ (q ≠ p ∧ h !! q = Some m)) as Hl.
  { intros q m. rewrite lookup_insert_Some. naive_solver. }
  assert (∀ q m, h !! q = Some m → q ≠ p) as Hlive by congruence.
  assert (∀ q m, h !! q = Some m → p ∉ K q) as Hnk.
  { intros q m Hq Hin. destruct (t_kid _ _ _ T _ _ _ Hq Hin) as (m' & ? & ?). congruence. }
  split.
  - destruct (t_root _ _ _ T) as (r & ? & ?). exists r. rewrite Hl. auto.
  - intros q m [[-> ->]|[Hq Hm]]%Hl Hpm; [set_solver|].
    destruct (t_top _ _ _ T q m Hm Hpm); [by left|set_solver].
  - intros q [->%elem_of_singleton|Hq]%elem_of_union.
    + split; [done|]. exists n. rewrite Hl. auto.
    + destruct (t_det _ _ _ T q Hq) as (? & m & Hm & ?). split; [done|].
      exists m. rewrite Hl. eauto.
  - intros q m [[-> ->]|[Hq Hm]]%Hl.
    + rewrite fn_lookup_insert. replace (child n) with (None : option ptr) by done. constructor.
    + rewrite fn_lookup_insert_ne by done. eapply chain_ext; [|by eapply t_chain].
      intros x Hx. rewrite lookup_insert_ne; [done|]. intros <-. exact (Hnk _ _ Hm Hx).
  - intros q m [[-> ->]|[Hq Hm]]%Hl.
    + rewrite fn_lookup_insert. constructor.
    + rewrite fn_lookup_insert_ne by done. by eapply t_nodup.
  - intros q m c [[-> ->]|[Hq Hm]]%Hl.
    + rewrite fn_lookup_insert. set_solver.
    + rewrite fn_lookup_insert_ne by done. intros Hc.
      destruct (t_kid _ _ _ T _ _ _ Hm Hc) as (mc & Hmc & ?). exists mc. rewrite Hl. eauto.
  - intros c m q [[-> ->]|[Hc Hm]]%Hl; [congruence|]. intros Hpm.
    destruct (t_par _ _ _ T _ _ _ Hm Hpm) as [[mq Hq] ?].
    rewrite fn_lookup_insert_ne by (by eapply not_eq_sym, Hlive). split; [|done].
    exists mq. rewrite Hl. eauto.
  - intros q m [[-> ->]|[Hq Hm]]%Hl.
    + exists [p]. econstructor; [apply lookup_insert_eq|done].
    + destruct (t_lin _ _ _ T _ _ Hm) as [l Hlin]. exists l. eapply lineage_ext; [|done].
      intros x Hx. rewrite lookup_insert_ne; [done|]. intros <-.
      destruct (lineage_live _ _ _ _ Hlin Hx). congruence.
Qed.

(** The heap after [add_node_to_parent_locked(p, par)], reference counts apart. *)
Definition attached (h : nodes) (p : ptr) (n : node) (par : ptr) (pn : node) : nodes :=
  <[par := set_child (Some p) pn]> (<[p := set_next (child pn) (set_parent (Some par) n)]> h).

Lemma attach_ok h K D p n par pn l :
  tree_ok h K D → p ∈ D → h !! p = Some n → h !! par = Some pn →
  lineage h par l → p ∉ l →
  tree_ok (attached h p n par pn) (<[par := p :: K par]> K) (D ∖ {[p]}).
Proof.
  intros T HpD Hp Hpn Hlin Hpl.
  destruct (t_det _ _ _ T p HpD) as (HpR & n' & Hn & Hpar). simplify_eq.
  assert (par ≠ p) as Hne.
  { intros ->. apply Hpl. apply lineage_head in Hlin as [l' ->]. left. }
  assert (∀ q m, h !! q = Some m → p ∉ K q) as Hnk.
  { intros q m Hq Hin. destruct (t_kid _ _ _ T _ _ _ Hq Hin) as (m' & ? & ?). congruence. }
  set (h' := attached h p n par pn).
  assert (h' !! p = Some (set_next (child pn) (set_parent (Some par) n))) as Hp'.
  { unfold h', attached. rewrite lookup_insert_ne by done. apply lookup_insert_eq. }
  assert (h' !! par = Some (set_child (Some p) pn)) as Hpar' by apply lookup_insert_eq.
  assert (∀ x, x ≠ p → x ≠ par → h' !! x = h !! x) as Ho.
  { intros. unfold h', attached. by rewrite !lookup_insert_ne by done. }
  assert (∀ x, x ≠ p → parent <$> h' !! x = parent <$> h !! x) as Hpx.
  { intros x Hx. destruct (decide (x = par)) as [->|]; [rewrite Hpar', Hpn; simpl; by nf|by rewrite Ho]. }
  assert (∀ x, x ≠ p → next <$> h' !! x = next <$> h !! x) as Hnx.
  { intros x Hx. destruct (decide (x = par)) as [->|]; [rewrite Hpar', Hpn; simpl; by nf|by rewrite Ho]. }
  assert (∀ x, x ≠ par → child <$> h' !! x = child <$> h !! x) as Hcx.
  { intros x Hx. destruct (decide (x = p)) as [->|]; [rewrite Hp', Hp; simpl; by nf|by rewrite Ho]. }
  assert (∀ x m, x ≠ p → h' !! x = Some m → ∃ m0, h !! x = Some m0 ∧ parent m = parent m0) as Hb.
  { intros x m Hx Hm. specialize (Hpx x Hx). rewrite Hm in Hpx.
    destruct (h !! x) as [m0|]; simplify_eq/=. eauto. }
  assert (∀ x m0, x ≠ p → h !! x = Some m0 → ∃ m, h' !! x = Some m ∧ parent m = parent m0) as Hf.
  { intros x m0 Hx Hm. specialize (Hpx x Hx). rewrite Hm in Hpx.
    destruct (h' !! x) as [m|]; simplify_eq/=. eauto. }
  assert (∀ x m, h' !! x = Some m → is_Some (h !! x)) as Hsome.
  { intros x m Hx. destruct (decide (x = p)) as [->|]; [eauto|].
    destruct (Hb x m) as (? & ? & _); eauto. }
  assert (chain h' (child pn) (K par)) as Hchp.
  { eapply chain_ext; [|by eapply t_chain]. intros x Hx. apply Hnx. intros ->. exact (Hnk _ _ Hpn Hx). }
  assert (lineage h' par l) as Hlin'.
  { eapply lineage_ext; [|done]. intros x Hx. apply Hpx. by intros ->. }
  clearbody h'. split.
  - destruct (t_root _ _ _ T) as (r & Hr & ?). destruct (Hf Root r) as (r' & ? & ?); [done..|].
    exists r'. split; congruence.
  - intros x m Hx Hm. destruct (decide (x = p)) as [->|Hxp].
    { simplify_eq. by nf. }
    destruct (Hb _ _ Hxp Hx) as (m0 & Hm0 & ?).
    destruct (t_top _ _ _ T x m0); [done|congruence|by left|set_solver].
  - intros x [Hx Hxp]%elem_of_difference. destruct (t_det _ _ _ T x Hx) as (? & m & Hm & ?).
    split; [done|]. destruct (Hf x m) as (m' & ? & ?); [set_solver|done|]. exists m'. split; congruence.
  - intros x m Hx. destruct (decide (x = par)) as [->|Hxp].
    + rewrite fn_lookup_insert. simplify_eq. nf. econstructor; [done|]. by nf.
    + rewrite fn_lookup_insert_ne by done. pose proof (Hcx x Hxp) as Hc. rewrite Hx in Hc.
      destruct (h !! x) as [m0|] eqn:Em; simplify_eq/=. rewrite Hc.
      eapply chain_ext; [|by eapply t_chain]. intros y Hy. apply Hnx. intros ->. exact (Hnk _ _ Em Hy).
  - intros x m Hx. destruct (Hsome _ _ Hx) as [m0 Hm0]. destruct (decide (x = par)) as [->|Hxp].
    + rewrite fn_lookup_insert. apply NoDup_cons. split; [exact (Hnk _ _ Hm0)|by eapply t_nodup].
    + rewrite fn_lookup_insert_ne by done. by eapply t_nodup.
  - intros x m c Hx Hc. destruct (Hsome _ _ Hx) as [m0 Hm0].
    destruct (decide (x = par)) as [->|Hxp].
    + rewrite fn_lookup_insert in Hc. apply elem_of_cons in Hc as [->|Hc].
      { eexists. split; [done|]. by nf. }
      destruct (t_kid _ _ _ T _ _ _ Hm0 Hc) as (mc & Hmc & ?).
      destruct (Hf c mc) as (mc' & ? & ?); [intros ->; exact (Hnk _ _ Hm0 Hc)|done|].
      exists mc'. split; congruence.
    + rewrite fn_lookup_insert_ne in Hc by done.
      destruct (t_kid _ _ _ T _ _ _ Hm0 Hc) as (mc & Hmc & ?).
      destruct (Hf c mc) as (mc' & ? & ?); [intros ->; exact (Hnk _ _ Hm0 Hc)|done|].
      exists mc'. split; congruence.
  - intros c m q Hc Hm. destruct (decide (c = p)) as [->|Hcp].
    { simplify_eq. nf. simplify_eq. rewrite fn_lookup_insert. split; [eauto|left]. }
    destruct (Hb _ _ Hcp Hc) as (m0 & Hm0 & ?).
    destruct (t_par _ _ _ T c m0 q) as [[mq Hmq] Hin]; [done|congruence|].
    split.
    + destruct (decide (q = p)) as [->|Hqp]; [eauto|].
      destruct (Hf _ _ Hqp Hmq) as (? & ? & _). eauto.
    + destruct (decide (q = par)) as [->|Hqp].
      * rewrite fn_lookup_insert. by right.
      * by rewrite fn_lookup_insert_ne by done.
  - intros q m Hq. destruct (Hsome _ _ Hq) as [m0 Hm0].
    destruct (t_lin _ _ _ T _ _ Hm0) as [lq Hl]. clear m Hq m0 Hm0.
    induction Hl as [q m Hq Hm|q m r l' Hq Hm Hl [l'' IH]].
    + destruct (decide (q = p)) as [->|Hqp].
      * exists (p :: l). econstructor; [done| |done]. by nf.
      * destruct (Hf q m) as (m' & ? & ?); [done..|]. exists [q]. econstructor; [done|congruence].
    + destruct (decide (q = p)) as [->|Hqp]; [congruence|].
      destruct (Hf q m) as (m' & ? & E); [done..|]. exists (q :: l'').
      econstructor; [done|by rewrite E|done].
Qed.
