(* ===== verification/FuseRefs.v ===== *)
(** * sdcard: reference counting

    [refs_ok h K ext]: every live node's count is the number [ext] of references
    held from outside the graph (the kernel's lookups and operations in
    progress) plus the number of its children, and is positive.  The lemmas give
    the reference operations in these terms; in particular [release] frees
    exactly the nodes nobody needs any more, never touches a freed node and
    always terminates. *)

From S2P Require Import Prelude CMonad FuseTypes FuseState FuseNode FuseTree.

Abbreviation refmap := (ptr → Z).
Definition inc (p : ptr) (ext : refmap) : refmap := <[p := ext p + 1]> ext.
Definition dec (p : ptr) (ext : refmap) : refmap := <[p := ext p - 1]> ext.

Record refs_ok (h : nodes) (K : ptr → list ptr) (ext : refmap) : Prop := mk_refs_ok {
  r_count p n : h !! p = Some n →
    refcount n = ext p + Z.of_nat (length (K p)) ∧ 0 <= ext p ∧ 0 < refcount n;
  r_dead p : h !! p = None → ext p = 0
}.

(** The heap [h] is [v] except at the addresses [Z]. *)
Definition agree (Z : gset ptr) (h v : nodes) : Prop := ∀ k, k ∉ Z → h !! k = v !! k.

(** What releasing references does to the graph: some nodes disappear, the
    others keep their payload, and lose exactly the children that disappeared. *)
Record released (Z : gset ptr) (v v' : nodes) (K K' : ptr → list ptr) : Prop := mk_released {
  rel_kids r m c : v' !! r = Some m → c ∈ K' r ↔ c ∈ K r ∧ is_Some (v' !! c);
  rel_pay r m' : v' !! r = Some m' → ∃ m, v !! r = Some m ∧ payload m' = payload m;
  rel_frame z : z ∈ Z → v' !! z = v !! z
}.

Lemma inc_eq p ext : inc p ext p = ext p + 1.
Proof. apply fn_lookup_insert. Qed.
Lemma inc_ne p q ext : p ≠ q → inc p ext q = ext q.
Proof. apply fn_lookup_insert_ne. Qed.
Lemma dec_eq p ext : dec p ext p = ext p - 1.
Proof. apply fn_lookup_insert. Qed.
Lemma dec_ne p q ext : p ≠ q → dec p ext q = ext q.
Proof. apply fn_lookup_insert_ne. Qed.
Lemma dec_inc p ext q : dec p (inc p ext) q = ext q.
Proof.
  destruct (decide (p = q)) as [->|].
  - rewrite dec_eq, inc_eq. lia.
  - by rewrite dec_ne, inc_ne by done.
Qed.

Lemma refs_ok_ext h K K' ext ext' :
  (∀ p, ext p = ext' p) → (∀ p, is_Some (h !! p) → length (K p) = length (K' p)) →
  refs_ok h K ext → refs_ok h K' ext'.
Proof.
  intros He HK [Hc Hd]. split.
  - intros p n Hp. rewrite <- He, <- HK by eauto. by apply Hc.
  - intros p Hp. rewrite <- He. auto.
Qed.

Lemma agree_size Z h v l :
  agree Z h v → NoDup l → (∀ x, x ∈ l → is_Some (v !! x) ∧ x ∉ Z) → (length l ≤ size h)%nat.
Proof.
  intros Ha Hl Hx. apply nodup_dom_length; [done|].
  intros x [? ?]%Hx. by rewrite Ha.
Qed.

Section ops.
Context {W : Type} `{!FuseAbi, !AndroidIds, !Os W}.
Implicit Types s : fs W.

Lemma heap_set_heap h s : heap (set_heap h s) = h.
Proof. by destruct s. Qed.
Lemma set_heap_set_heap h h' s : set_heap h (set_heap h' s) = set_heap h s.
Proof. by destruct s. Qed.
Lemma set_heap_id s : set_heap (heap s) s = s.
Proof. by destruct s. Qed.

Lemma wp_load s p n (Q : node → fs W → Prop) :
  heap s !! p = Some n → Q n s → wp (load p) Q s.
Proof. unfold wp, load. intros Hh HQ. by rewrite Hh. Qed.

Lemma wp_update s p f n (Q : unit → fs W → Prop) :
  heap s !! p = Some n → Q tt (set_heap (<[p := f n]> (heap s)) s) → wp (update p f) Q s.
Proof. unfold wp, update. intros Hh HQ. by rewrite Hh. Qed.

Lemma wp_node_fuel s (Q : nat → fs W → Prop) :
  Q (S (size (heap s))) s → wp node_fuel Q s.
Proof. done. Qed.

Lemma wp_free s p n (Q : unit → fs W → Prop) :
  p ≠ Root → heap s !! p = Some n → Q tt (set_heap (delete p (heap s)) s) → wp (free_node p) Q s.
Proof. unfold wp, free_node. intros Hp Hh HQ. destruct p; [done|]. by rewrite Hh. Qed.

Lemma find_previous_ok Z v s p l2 a l1 : ∀ c fuel,
  agree Z (heap s) v → chain v c (l1 ++ a :: p :: l2) → NoDup (l1 ++ a :: p :: l2) →
  (∀ x, x ∈ l1 ++ [a] → x ∉ Z) → (length l1 < fuel)%nat →
  wp (find_previous fuel c p) (λ q s', q = a ∧ s' = s) s.
Proof.
  induction l1 as [|b l1 IH]; intros c [|fuel] Ha Hc Hnd HZ Hf; simpl in Hf; try lia; simpl in *.
  - inversion Hc as [|? na ? Hna Hc']; subst. inversion Hc' as [|? np ? Hnp _ E1]; subst.
    wp_step. eapply wp_load; [by rewrite Ha by set_solver|].
    rewrite decide_True by congruence. by wp_step.
  - inversion Hc as [|? nb ? Hnb Hc']; subst.
    wp_step. eapply wp_load; [by rewrite Ha by set_solver|].
    apply NoDup_cons in Hnd as [Hb Hnd].
    rewrite decide_False.
    { apply IH; [done|done|done|set_solver|lia]. }
    intros E. rewrite E in Hc'. destruct l1; inversion Hc'; subst.
    + apply NoDup_cons in Hnd as [Hap _]. apply Hap. left.
    + apply NoDup_cons in Hnd as [Hap _]. apply Hap. set_solver.
Qed.

(** [h] after writing the node at [x], against [v] after the same write. *)
Lemma agree_insert Z h v x n :
  agree Z h v → agree Z (<[x := n]> h) (<[x := n]> v).
Proof.
  intros Ha k Hk. destruct (decide (k = x)) as [->|].
  - by rewrite !lookup_insert_eq.
  - rewrite !lookup_insert_ne by done. auto.
Qed.

Lemma unlink_sibling_ok Z v K D s p par n pn l1 l2 fuel :
  agree Z (heap s) v → tree_ok v K D →
  v !! p = Some n → v !! par = Some pn → K par = l1 ++ p :: l2 →
  par ∉ Z → (∀ c, c ∈ K par → c ∉ Z) → (length l1 < fuel)%nat →
  wp (unlink_sibling fuel p par) (λ _ s', ∃ h',
    s' = set_heap h' s ∧ (∀ k, k ∈ Z → h' !! k = heap s !! k) ∧
    agree Z h' (unlinked v l1 n par)) s.
Proof.
  intros Ha T Hp Hpn HK HparZ HcZ Hf.
  pose proof (t_chain _ _ _ T _ _ Hpn) as Hc. pose proof (t_nodup _ _ _ T _ _ Hpn) as Hnd.
  rewrite HK in Hc, Hnd.
  assert (heap s !! par = Some pn) as Hpn' by (by rewrite Ha).
  assert (heap s !! p = Some n) as Hp' by (rewrite Ha; [done|apply HcZ; rewrite HK; set_solver]).
  unfold unlink_sibling. wp_step. eapply wp_load; [done|].
  destruct (decide (child pn = Some p)) as [Hcp|Hcp].
  - assert (l1 = []) as ->.
    { rewrite Hcp in Hc. destruct l1 as [|b l1]; [done|]. inversion Hc; subst.
      apply NoDup_cons in Hnd as [Hnd _]. set_solver. }
    wp_step. eapply wp_load; [done|]. eapply wp_update; [done|].
    eexists. split; [done|]. split.
    + intros k Hk. rewrite lookup_insert_ne; [done|]. by intros ->.
    + intros k Hk. unfold unlinked. simpl. rewrite lookup_alter, lookup_insert.
      case_decide; subst; [by rewrite Hpn|auto].
  - destruct (last l1) as [a|] eqn:Ea.
    2:{ apply last_None in Ea. subst. inversion Hc; subst. done. }
    pose proof Ea as [l' ->]%last_Some. rewrite <- app_assoc in Hc, Hnd. simpl in Hc, Hnd.
    wp_step. eapply wp_mono.
    { eapply find_previous_ok; [done|exact Hc|done| |rewrite length_app in Hf; simpl in Hf; lia].
      intros x Hx. apply HcZ. rewrite HK. set_solver. }
    intros q s' [-> ->]. wp_step. eapply wp_load; [done|].
    assert (a ∈ K par) as HaK by (rewrite HK; set_solver).
    destruct (t_kid _ _ _ T _ _ _ Hpn HaK) as (na & Hna & _).
    eapply wp_update; [by rewrite Ha by auto|].
    eexists. split; [done|]. split.
    + intros k Hk. rewrite lookup_insert_ne; [done|]. intros ->. by eapply HcZ.
    + intros k Hk. unfold unlinked. rewrite Ea, lookup_alter, lookup_insert.
      case_decide; subst; [by rewrite Hna|auto].
Qed.

(** *** Releasing *)

Lemma refs_release_keep v K ext q n :
  refs_ok v K ext → v !! q = Some n → 1 <= ext q → refcount n - 1 ≠ 0 →
  refs_ok (<[q := set_refcount (refcount n - 1) n]> v) K (dec q ext).
Proof.
  intros R Hq He Hn. destruct (r_count _ _ _ R _ _ Hq) as (Hc & ? & ?). split.
  - intros p m [[<- <-]|[Hp Hm]]%lookup_insert_Some.
    + nf. rewrite dec_eq. lia.
    + rewrite dec_ne by done. by apply (r_count _ _ _ R).
  - intros p [Hp Hne]%lookup_insert_None. rewrite dec_ne by done. by apply (r_dead _ _ _ R).
Qed.

Lemma released_refl Z v K D q n :
  tree_ok v K D → v !! q = Some n → q ∉ Z →
  released Z v (<[q := set_refcount (refcount n - 1) n]> v) K K.
Proof.
  intros T Hq HqZ. split.
  - intros r m c Hr. split; [|naive_solver]. intros Hc. split; [done|].
    assert (is_Some (v !! r)) as [mr Hmr].
    { destruct (decide (r = q)) as [->|]; [eauto|]. rewrite lookup_insert_ne in Hr by done. eauto. }
    destruct (kid_live T _ _ _ Hmr Hc) as [mc Hmc].
    destruct (decide (c = q)) as [->|]; [rewrite lookup_insert_eq; eauto|].
    rewrite lookup_insert_ne by done. eauto.
  - intros r m' [[<- <-]|[? ?]]%lookup_insert_Some; [|eauto]. exists n. split; [done|]. by nf.
  - intros z Hz. rewrite lookup_insert_ne; [done|]. by intros ->.
Qed.

(** The graph once the last reference to the leaf [q] is gone. *)
Definition dropped (v : nodes) (l1 : list ptr) (q : ptr) (n : node) (par : ptr) : nodes :=
  delete q (detached v l1 q n par).

Section drop.
Context {v : nodes} {K : ptr → list ptr} {D : gset ptr}.
Context {q par : ptr} {n pn : node} {l1 l2 : list ptr}.
Context (T : tree_ok v K D).
Context (Hq : v !! q = Some n) (Hpar : parent n = Some par) (Hpn : v !! par = Some pn).
Context (HK : K par = l1 ++ q :: l2).

Lemma dropped_field {A} (f : node → A) x :
  (∀ w m, f (set_next w m) = f m) → (∀ w m, f (set_child w m) = f m) →
  x ≠ q → f <$> dropped v l1 q n par !! x = f <$> v !! x.
Proof.
  intros H1 H2 Hx. unfold dropped. rewrite lookup_delete_ne by done.
  by eapply detached_field.
Qed.

Lemma dropped_live x : is_Some (dropped v l1 q n par !! x) ↔ x ≠ q ∧ is_Some (v !! x).
Proof.
  destruct (decide (x = q)) as [->|Hx].
  { unfold dropped. rewrite lookup_delete_eq. split; [by intros [? ?]|naive_solver]. }
  pose proof (dropped_field (λ _, tt) x ltac:(done) ltac:(done) Hx) as Hfd.
  destruct (dropped v l1 q n par !! x), (v !! x); simplify_eq/=; naive_solver eauto.
Qed.

Lemma dropped_tree :
  K q = [] → tree_ok (dropped v l1 q n par) (<[par := l1 ++ l2]> K) D.
Proof.
  intros HKq. pose proof (detach_ok T Hq Hpar Hpn HK) as T'.
  apply delete_ok with (p := q) in T'; [|set_solver|].
  - replace (({[q]} ∪ D) ∖ {[q]}) with D in T'; [done|].
    assert (q ∉ D); [|set_solver]. intros Hin.
    destruct (t_det _ _ _ T _ Hin) as (_ & m & ? & ?). congruence.
  - rewrite fn_lookup_insert_ne; [done|]. by eapply (parent_neq T).
Qed.

(** [v] is the graph [v0] with the count of [q] already decremented. *)
Lemma dropped_refs v0 ext :
  refs_ok v0 K ext → (∀ x, x ≠ q → v !! x = v0 !! x) → ext q = 1 →
  refs_ok (dropped v l1 q n par) (<[par := l1 ++ l2]> K) (inc par (dec q ext)).
Proof.
  intros R Hv0 Heq. pose proof (parent_neq T _ _ _ Hq Hpar) as Hne. split.
  - intros r m Hr. assert (r ≠ q ∧ is_Some (v !! r)) as [Hrq [m0 Hm0]].
    { apply dropped_live. eauto. }
    pose proof (dropped_field refcount r) as Hf. rewrite Hr, Hm0 in Hf.
    specialize (Hf ltac:(intros; by nf) ltac:(intros; by nf) Hrq). simplify_eq/=.
    rewrite Hv0 in Hm0 by done. destruct (r_count _ _ _ R _ _ Hm0) as (? & ? & ?).
    destruct (decide (r = par)) as [->|Hrp].
    + rewrite inc_eq, dec_ne, fn_lookup_insert by done.
      rewrite HK in *. rewrite length_app in *. simpl in *. lia.
    + rewrite inc_ne, dec_ne, fn_lookup_insert_ne by done. lia.
  - intros r Hr. destruct (decide (r = q)) as [->|Hrq].
    { rewrite inc_ne, dec_eq by done. lia. }
    assert (v !! r = None) as Hv.
    { destruct (v !! r) eqn:E; [|done].
      assert (is_Some (dropped v l1 q n par !! r)) as [? ?]; [|congruence].
      apply dropped_live. eauto. }
    rewrite inc_ne, dec_ne by congruence. apply (r_dead _ _ _ R). by rewrite <- Hv0.
Qed.

Lemma dropped_lineage x l : q ∉ l → lineage v x l → lineage (dropped v l1 q n par) x l.
Proof.
  intros Hql. apply lineage_ext. intros y Hy.
  apply dropped_field; [intros; by nf..|]. by intros ->.
Qed.

Lemma dropped_frame z : z ∉ K par → z ≠ par → dropped v l1 q n par !! z = v !! z.
Proof.
  clear -Hpar Hpn HK. intros HzK Hz. unfold dropped, detached.
  assert (z ≠ q) by (intros ->; apply HzK; rewrite HK; set_solver).
  rewrite lookup_delete_ne, lookup_insert_ne by done. rewrite (unlinked_lookup Hpar Hpn HK).
  rewrite decide_False.
  2:{ intros [l' ->]%last_Some. apply HzK. rewrite HK. set_solver. }
  rewrite decide_False by naive_solver. by rewrite option_fmap_id.
Qed.
End drop.

(** The lineage of [q] and its sibling lists are outside [Z]. *)
Definition clear_of (Z : gset ptr) (K : ptr → list ptr) (l : list ptr) : Prop :=
  ∀ r, r ∈ l → r ∉ Z ∧ ∀ c, c ∈ K r → c ∉ Z.

Definition release_post (Z : gset ptr) (v : nodes) (K : ptr → list ptr) (D : gset ptr)
    (ext : refmap) (s s' : fs W) : Prop :=
  ∃ h' v' K', s' = set_heap h' s ∧ agree Z h' v' ∧
    (∀ z, z ∈ Z → h' !! z = heap s !! z) ∧
    tree_ok v' K' D ∧ refs_ok v' K' ext ∧ released Z v v' K K'.

Lemma released_drop Z v v5 K K5 q par n pn l1 l2 :
  parent n = Some par → v !! par = Some pn → K par = l1 ++ q :: l2 → par ≠ q →
  par ∉ Z → (∀ c, c ∈ K par → c ∉ Z) →
  released ({[q]} ∪ Z) (dropped v l1 q n par) v5 (<[par := l1 ++ l2]> K) K5 →
  released Z v v5 K K5.
Proof.
  intros Hpar Hpn HK Hne HparZ HcZ [Hk Hp Hf].
  assert (v5 !! q = None) as Hq5.
  { destruct (v5 !! q) eqn:E; [|done]. apply Hp in E as (m & Hm & _).
    unfold dropped in Hm. by rewrite lookup_delete_eq in Hm. }
  split.
  - intros r m c Hr. rewrite (Hk _ _ _ Hr). destruct (decide (r = par)) as [->|Hrp].
    + rewrite fn_lookup_insert, HK. split; [set_solver|]. intros [Hc Hlive].
      split; [|done]. assert (c ≠ q) by (intros ->; rewrite Hq5 in Hlive; by destruct Hlive).
      set_solver.
    + by rewrite fn_lookup_insert_ne by done.
  - intros r m' Hr. destruct (Hp _ _ Hr) as (m & Hm & Hpay).
    assert (r ≠ q) as Hrq by congruence.
    pose proof (dropped_field Hpar Hpn HK payload r) as Hfd.
    specialize (Hfd ltac:(intros; by nf) ltac:(intros; by nf) Hrq). rewrite Hm in Hfd.
    destruct (v !! r) as [m0|]; [|done]. injection Hfd as Hfd. exists m0. split; congruence.
  - intros z Hz. rewrite Hf by set_solver. apply (dropped_frame Hpar Hpn HK); [|by intros ->].
    intros Hin. by eapply HcZ.
Qed.

Lemma clear_of_parent Z v K D q par pn n l' l1 l2 :
  tree_ok v K D → v !! q = Some n → v !! par = Some pn → lineage v q (q :: l') →
  K par = l1 ++ q :: l2 → clear_of Z K (q :: l') →
  clear_of ({[q]} ∪ Z) (<[par := l1 ++ l2]> K) l'.
Proof.
  intros T Hq Hpn Hl HK Hcl r Hr.
  destruct (Hcl r ltac:(by right)) as [HrZ HrcZ].
  assert (r ≠ q).
  { intros ->. apply lineage_nodup in Hl. by apply NoDup_cons in Hl as [? _]. }
  split; [set_solver|]. intros c Hc. destruct (decide (r = par)) as [->|Hrp].
  - rewrite fn_lookup_insert in Hc.
    pose proof (t_nodup _ _ _ T _ _ Hpn) as Hnd. rewrite HK in Hnd.
    apply NoDup_app in Hnd as (_ & Hd & [? _]%NoDup_cons).
    assert (c ≠ q) by set_solver. assert (c ∉ Z) by (apply HrcZ; rewrite HK; set_solver).
    set_solver.
  - rewrite fn_lookup_insert_ne in Hc by done.
    assert (c ≠ q); [|set_solver]. intros ->. apply Hrp.
    destruct (lineage_live _ _ _ _ Hl ltac:(by right; exact Hr)) as [mr Hmr].
    eapply (kid_unique T); [exact Hmr|exact Hpn|exact Hc|rewrite HK; set_solver].
Qed.

(** Unlinking [q] from its parent, in the state the release loop is in. *)
Lemma unlink_parent_ok Z v K D s q par n pn l1 l2 :
  agree Z (heap s) v → tree_ok v K D → v !! q = Some n → v !! par = Some pn →
  K par = l1 ++ q :: l2 → par ∉ Z → (∀ c, c ∈ K par → c ∉ Z) →
  wp (f ← node_fuel; unlink_sibling f q par) (λ _ s', ∃ h',
    s' = set_heap h' s ∧ (∀ k, k ∈ Z → h' !! k = heap s !! k) ∧
    agree Z h' (unlinked v l1 n par)) s.
Proof.
  intros Ha T Hq Hpn HK HparZ HcZ. wp_step. apply wp_node_fuel.
  eapply unlink_sibling_ok; [done..|]. apply Nat.lt_succ_r. eapply agree_size; [done| |].
  - pose proof (t_nodup _ _ _ T _ _ Hpn) as Hnd. rewrite HK in Hnd. by apply NoDup_app in Hnd as [? _].
  - intros x Hx. split; [|apply HcZ; rewrite HK; set_solver].
    eapply (kid_live T); [done|]. rewrite HK. set_solver.
Qed.

Lemma release_ok fuel : ∀ q l v K D ext Z s,
  agree Z (heap s) v → tree_ok v K D → refs_ok v K ext →
  lineage v q l → Root ∈ l → clear_of Z K l → (length l ≤ fuel)%nat →
  1 <= ext q → 1 <= dec q ext Root →
  wp (release fuel q) (λ _ s', release_post Z v K D (dec q ext) s s') s.
Proof.
  induction fuel as [|fuel IH]; intros q l v K D ext Z s Ha T R Hl HR Hcl Hf He HeR.
  { apply lineage_head in Hl as [l' ->]. simpl in Hf. lia. }
  destruct (lineage_head _ _ _ Hl) as [l' ->].
  assert (∃ n, v !! q = Some n) as [n Hq] by (inversion Hl; eauto).
  destruct (Hcl q ltac:(left)) as [HqZ HcZ].
  destruct (r_count _ _ _ R _ _ Hq) as (Hcnt & _ & Hpos).
  simpl. wp_step. eapply wp_load; [by rewrite Ha|].
  rewrite (proj2 (Z.ltb_lt _ _) Hpos). wp_step. eapply wp_update; [by rewrite Ha|].
  set (n1 := set_refcount (refcount n - 1) n). set (v1 := <[q := n1]> v).
  set (s1 := set_heap (<[q := n1]> (heap s)) s).
  assert (agree Z (heap s1) v1) as Ha1.
  { unfold s1. rewrite heap_set_heap. by apply agree_insert. }
  assert (tree_ok v1 K D) as T1.
  { eapply tree_ok_ext; [|done]. intros p. unfold v1. rewrite lookup_insert.
    case_decide; subst; [|done]. rewrite Hq. unfold n1. simpl. by rewrite links_set_refcount. }
  destruct (Z.eqb_spec (refcount n - 1) 0) as [Hz|Hz].
  2:{ wp_step. exists (<[q := n1]> (heap s)), v1, K.
    split_and!; [done|by apply agree_insert| |done|by apply refs_release_keep|by eapply released_refl].
    intros z Hzz. rewrite lookup_insert_ne; [done|]. by intros ->. }
  assert (ext q = 1 ∧ K q = []) as [Heq HKq].
  { split; [lia|]. destruct (K q); [done|]. simpl in Hcnt. lia. }
  assert (q ≠ Root) as HqR by (intros ->; rewrite dec_eq in HeR; lia).
  inversion Hl as [? n' Hn' Hpn'|? n' par ? Hn' Hpar Hlpar]; subst.
  { apply list_elem_of_singleton in HR. congruence. }
  assert (n' = n) as -> by congruence. rewrite Hpar.
  destruct (t_par _ _ _ T _ _ _ Hq Hpar) as [[pn Hpn] Hin].
  apply list_elem_of_split in Hin as (l1 & l2 & HK).
  assert (par ≠ q) as Hne by (by eapply (parent_neq T)).
  assert (v1 !! q = Some n1) as Hq1 by apply lookup_insert_eq.
  assert (v1 !! par = Some pn) as Hpn1 by (unfold v1; by rewrite lookup_insert_ne).
  assert (parent n1 = Some par) as Hpar1 by (unfold n1; by nf).
  destruct (Hcl par) as [HparZ HparcZ].
  { right. destruct (lineage_head _ _ _ Hlpar) as [? ->]. left. }
  wp_step. apply wp_assoc. wp_step. eapply wp_mono.
  { by eapply unlink_parent_ok. }
  intros _ s2 (h2 & -> & HZ2 & Ha2). unfold s1 in HZ2. rewrite heap_set_heap in HZ2.
  set (v4 := dropped v1 l1 q n1 par).
  assert (q ∉ l') as Hql.
  { apply lineage_nodup in Hl. by apply NoDup_cons in Hl as [? _]. }
  assert (∀ x, x ≠ q → v1 !! x = v !! x) as Hv1 by (intros; by apply lookup_insert_ne).
  wp_step. eapply wp_mono.
  { eapply (IH par l' v4 _ D _ ({[q]} ∪ Z)).
    - rewrite heap_set_heap. intros k Hk. unfold v4, dropped, detached.
      rewrite lookup_delete_ne, lookup_insert_ne by set_solver. apply Ha2. set_solver.
    - exact (dropped_tree T1 Hq1 Hpar1 Hpn1 HK HKq).
    - exact (dropped_refs T1 Hq1 Hpar1 Hpn1 HK v ext R Hv1 Heq).
    - apply (dropped_lineage Hpar1 Hpn1 HK); [done|]. eapply lineage_ext; [|exact Hlpar].
      intros x Hx. rewrite Hv1; [done|]. by intros ->.
    - set_solver.
    - eapply clear_of_parent; [exact T|exact Hq|exact Hpn|exact Hl|exact HK|exact Hcl].
    - simpl in Hf. lia.
    - rewrite inc_eq, dec_ne by done. destruct (r_count _ _ _ R _ _ Hpn) as (_ & ? & _). lia.
    - by rewrite dec_inc. }
  intros _ s3 (h5 & v5 & K5 & -> & Ha5 & HZ5 & T5 & R5 & Rel).
  rewrite !heap_set_heap in HZ5.
  assert (is_Some (h5 !! q)) as [nq Hnq].
  { rewrite HZ5 by set_solver. rewrite Ha2 by done.
    rewrite (unlinked_lookup Hpar1 Hpn1 HK), Hq1. eauto. }
  eapply wp_update; [by rewrite heap_set_heap|].
  eapply wp_free; [done|by rewrite heap_set_heap, lookup_insert_eq|].
  rewrite !heap_set_heap, !set_heap_set_heap. unfold s1. rewrite set_heap_set_heap.
  assert (v5 !! q = None) as Hq5.
  { destruct (v5 !! q) eqn:E; [|done]. apply (rel_pay _ _ _ _ _ Rel) in E as (m & Hm & _).
    unfold v4, dropped in Hm. by rewrite lookup_delete_eq in Hm. }
  eexists _, v5, K5. split; [done|]. split; [|split; [|split; [done|split]]].
  - intros k Hk. destruct (decide (k = q)) as [->|Hkq].
    + by rewrite lookup_delete_eq.
    + rewrite lookup_delete_ne, lookup_insert_ne by done. apply Ha5. set_solver.
  - intros z Hzz. assert (z ≠ q) by (by intros ->).
    rewrite lookup_delete_ne, lookup_insert_ne by done.
    rewrite HZ5, HZ2 by set_solver. by rewrite lookup_insert_ne.
  - eapply refs_ok_ext; [| |exact R5]; [|done]. intros p. by rewrite dec_inc.
  - assert (released Z v1 v5 K K5) as Rel1 by (by eapply released_drop).
    destruct Rel1 as [Hk Hp Hfr]. split; [done| |].
    + intros r m' Hr. destruct (Hp _ _ Hr) as (m & Hm & Hpay). assert (r ≠ q) by congruence.
      unfold v1 in Hm. rewrite lookup_insert_ne in Hm by done. eauto.
    + intros z Hzz. rewrite Hfr by done. unfold v1. rewrite lookup_insert_ne; [done|]. by intros ->.
Qed.

(** *** The operations on a whole graph *)

Lemma release_node_locked_ok s K D ext q l :
  tree_ok (heap s) K D → refs_ok (heap s) K ext → lineage (heap s) q l → Root ∈ l →
  1 <= ext q → 1 <= dec q ext Root →
  wp (release_node_locked q) (λ _ s', ∃ h' K', s' = set_heap h' s ∧
    tree_ok h' K' D ∧ refs_ok h' K' (dec q ext) ∧ released ∅ (heap s) h' K K') s.
Proof.
  intros T R Hl HR He HeR. unfold release_node_locked. wp_step. apply wp_node_fuel.
  eapply wp_mono.
  { eapply (release_ok _ q l (heap s) K D ext ∅); try done.
    pose proof (lineage_length _ _ _ Hl). lia. }
  intros _ s' (h' & v' & K' & -> & Ha & _ & T' & R' & Rel).
  assert (h' = v') as -> by (apply map_eq; intros k; by apply Ha). by exists v', K'.
Qed.

Lemma acquire_node_locked_ok s K D ext p n :
  tree_ok (heap s) K D → refs_ok (heap s) K ext → heap s !! p = Some n →
  refcount n + 1 < 2 ^ 32 →
  wp (acquire_node_locked p) (λ _ s', ∃ h', s' = set_heap h' s ∧
    h' = <[p := set_refcount (refcount n + 1) n]> (heap s) ∧
    tree_ok h' K D ∧ refs_ok h' K (inc p ext)) s.
Proof.
  intros T R Hp Hb. eapply wp_update; [done|].
  destruct (r_count _ _ _ R _ _ Hp) as (Hc & ? & ?).
  rewrite wrap_small by (unfold in_width; lia). eexists. split; [done|]. split; [done|]. split.
  - eapply tree_ok_ext; [|done]. intros q. rewrite lookup_insert.
    case_decide; subst; [|done]. rewrite Hp. simpl. by rewrite links_set_refcount.
  - split.
    + intros q m [[<- <-]|[? Hq]]%lookup_insert_Some.
      * rewrite inc_eq, refcount_set_refcount. lia.
      * rewrite inc_ne by done. by apply (r_count _ _ _ R).
    + intros q [Hq ?]%lookup_insert_None. rewrite inc_ne by done. by apply (r_dead _ _ _ R).
Qed.

Lemma refs_detached v K D ext p par n pn l1 l2 :
  tree_ok v K D → refs_ok v K ext → v !! p = Some n → parent n = Some par →
  v !! par = Some pn → K par = l1 ++ p :: l2 →
  refs_ok (detached v l1 p n par) (<[par := l1 ++ l2]> K) (inc par ext).
Proof.
  intros T R Hp Hpar Hpn HK. pose proof (parent_neq T _ _ _ Hp Hpar) as Hne.
  assert (∀ r, refcount <$> detached v l1 p n par !! r = refcount <$> v !! r) as Hrc.
  { intros r. destruct (decide (r = p)) as [->|Hr].
    - rewrite detached_self, Hp. simpl. by rewrite refcount_set_next, refcount_set_parent.
    - apply (detached_field Hpar Hpn HK); [intros; by nf..|done]. }
  split.
  - intros r m Hr. specialize (Hrc r). rewrite Hr in Hrc.
    destruct (v !! r) as [m0|] eqn:Hm0; simplify_eq/=.
    destruct (r_count _ _ _ R _ _ Hm0) as (? & ? & ?).
    destruct (decide (r = par)) as [->|Hrp].
    + rewrite inc_eq, fn_lookup_insert. rewrite HK in *.
      rewrite length_app in *. simpl in *. lia.
    + rewrite inc_ne, fn_lookup_insert_ne by done. lia.
  - intros r Hr. specialize (Hrc r). rewrite Hr in Hrc.
    destruct (v !! r) eqn:Hv; simplify_eq/=.
    rewrite inc_ne by congruence. by apply (r_dead _ _ _ R).
Qed.

(** Removing an inner node: it becomes a detached subtree; its old parent
    loses a reference and is freed with its ancestors if it was the last. *)
Lemma remove_node_from_parent_locked_ok s K ext p par n l1 l2 l' :
  tree_ok (heap s) K ∅ → refs_ok (heap s) K ext → heap s !! p = Some n →
  parent n = Some par → K par = l1 ++ p :: l2 → lineage (heap s) p (p :: l') → Root ∈ l' →
  1 <= ext Root →
  wp (remove_node_from_parent_locked p) (λ _ s', ∃ h' K', s' = set_heap h' s ∧
    tree_ok h' K' {[p]} ∧ refs_ok h' K' ext ∧
    h' !! p = Some (set_next None (set_parent None n)) ∧
    released {[p]} (detached (heap s) l1 p n par) h' (<[par := l1 ++ l2]> K) K') s.
Proof.
  intros T R Hp Hpar HK Hl HR HeR.
  destruct (t_par _ _ _ T _ _ _ Hp Hpar) as [[pn Hpn] _].
  pose proof (parent_neq T _ _ _ Hp Hpar) as Hne.
  assert (p ∉ l') as Hpl by (apply lineage_nodup in Hl; by apply NoDup_cons in Hl as [? _]).
  unfold remove_node_from_parent_locked. wp_step. eapply wp_load; [done|]. rewrite Hpar.
  apply wp_assoc. wp_step. eapply wp_mono.
  { eapply (unlink_parent_ok ∅ (heap s)); [done|exact T|done..| |].
    - apply not_elem_of_empty.
    - intros c _. apply not_elem_of_empty. }
  intros _ s2 (h2 & -> & _ & Ha2). set (v := detached (heap s) l1 p n par).
  assert (h2 = unlinked (heap s) l1 n par) as -> by (apply map_eq; intros; by apply Ha2).
  pose proof (detach_ok T Hp Hpar Hpn HK) as T2. fold v in T2.
  replace ({[p]} ∪ ∅ : gset ptr) with ({[p]} : gset ptr) in T2 by set_solver.
  pose proof (refs_detached _ _ _ _ _ _ _ _ _ _ T R Hp Hpar Hpn HK) as R2. fold v in R2.
  assert (lineage v par l') as Hl2.
  { inversion Hl as [|? n' par' ? Hn' Hp' Hlp]; subst.
    - by apply not_elem_of_nil in HR.
    - assert (n' = n) as -> by congruence. assert (par' = par) as -> by congruence.
      eapply lineage_ext; [|done]. intros x Hx.
      apply (detached_field Hpar Hpn HK); [intros; by nf..|]. by intros ->. }
  assert (v !! p = Some (set_next None (set_parent None n))) as Hvp by apply detached_self.
  unfold release_node_locked. wp_step. wp_step. apply wp_node_fuel. rewrite heap_set_heap.
  assert (agree {[p]} (unlinked (heap s) l1 n par) v) as Ha.
  { intros k Hk. unfold v, detached. rewrite lookup_insert_ne; [done|set_solver]. }
  eapply wp_mono.
  { eapply (release_ok _ par l' v _ {[p]} _ {[p]}); [by rewrite heap_set_heap|done..| | | |].
    - intros r Hr. split; [intros ->%elem_of_singleton; done|].
      intros c Hc ->%elem_of_singleton. destruct (lineage_live _ _ _ _ Hl2 Hr) as [m Hm].
      destruct (t_kid _ _ _ T2 _ _ _ Hm Hc) as (m' & Hm' & Hpm). rewrite Hvp in Hm'.
      simplify_eq. by rewrite parent_set_next, parent_set_parent in Hpm.
    - apply Nat.le_le_succ_r. eapply agree_size; [exact Ha|by eapply lineage_nodup|].
      intros x Hx. split; [by eapply lineage_live|]. intros ->%elem_of_singleton. done.
    - rewrite inc_eq. destruct (r_count _ _ _ R _ _ Hpn) as (_ & ? & _). lia.
    - by rewrite dec_inc. }
  intros _ s3 (h3 & v3 & K3 & -> & Ha3 & HZ3 & T3 & R3 & Rel).
  rewrite heap_set_heap in HZ3.
  assert (h3 !! p = Some n) as Hp3.
  { rewrite HZ3 by set_solver. rewrite (unlinked_lookup Hpar Hpn HK), Hp.
    rewrite decide_False; [rewrite decide_False; [done|]|].
    - intros [_ ?]. congruence.
    - intros Ha'. by destruct (detach_pred T Hp Hpar Hpn HK _ Ha'). }
  eapply wp_update; [by rewrite heap_set_heap|]. rewrite !set_heap_set_heap, !heap_set_heap.
  assert (v3 !! p = Some (set_next None (set_parent None n))) as Hv3.
  { rewrite (rel_frame _ _ _ _ _ Rel) by set_solver. done. }
  assert (<[p := set_next None (set_parent None n)]> h3 = v3) as Heq.
  { apply map_eq. intros k. destruct (decide (k = p)) as [->|].
    - by rewrite lookup_insert_eq.
    - rewrite lookup_insert_ne by done. apply Ha3. set_solver. }
  exists v3, K3. rewrite Heq. split_and!; [done|done| |done|done].
  eapply refs_ok_ext; [| |exact R3]; [|done]. intros. by rewrite dec_inc.
Qed.

Lemma add_node_to_parent_locked_ok s K D ext p n par pn l :
  tree_ok (heap s) K D → refs_ok (heap s) K ext → p ∈ D →
  heap s !! p = Some n → heap s !! par = Some pn → lineage (heap s) par l → p ∉ l →
  refcount pn + 1 < 2 ^ 32 →
  wp (add_node_to_parent_locked p par) (λ _ s', ∃ h', s' = set_heap h' s ∧
    h' = <[par := set_refcount (refcount pn + 1) (set_child (Some p) pn)]>
           (<[p := set_next (child pn) (set_parent (Some par) n)]> (heap s)) ∧
    tree_ok h' (<[par := p :: K par]> K) (D ∖ {[p]}) ∧
    refs_ok h' (<[par := p :: K par]> K) ext) s.
Proof.
  intros T R HpD Hp Hpn Hl Hpl Hb.
  assert (par ≠ p) as Hne.
  { intros ->. apply Hpl. apply lineage_head in Hl as [l' ->]. left. }
  destruct (r_count _ _ _ R _ _ Hpn) as (Hc & ? & ?).
  pose proof (attach_ok _ _ _ _ _ _ _ _ T HpD Hp Hpn Hl Hpl) as T'.
  unfold add_node_to_parent_locked, acquire_node_locked.
  wp_step. eapply wp_update; [done|]. wp_step.
  eapply wp_load; [by rewrite heap_set_heap, lookup_insert_ne|].
  wp_step. eapply wp_update; [by rewrite heap_set_heap, lookup_insert_eq|].
  wp_step. eapply wp_update; [by rewrite !heap_set_heap, !lookup_insert_ne|].
  eapply wp_update; [by rewrite !heap_set_heap, lookup_insert_eq|].
  rewrite !set_heap_set_heap, !heap_set_heap, !insert_insert_eq, refcount_set_child.
  rewrite wrap_small by (unfold in_width; lia).
  eexists. split; [done|]. split; [done|]. split.
  - eapply tree_ok_ext; [|exact T']. intros q. unfold attached. rewrite !lookup_insert.
    repeat case_decide; subst; try done. simpl. by rewrite links_set_refcount.
  - split.
    + intros q m. rewrite !lookup_insert_Some. intros [[<- <-]|[Hq [[<- <-]|[Hq2 Hm]]]].
      * rewrite fn_lookup_insert, refcount_set_refcount. simpl. lia.
      * rewrite fn_lookup_insert_ne by done. rewrite refcount_set_next, refcount_set_parent.
        by apply (r_count _ _ _ R).
      * rewrite fn_lookup_insert_ne by done. by apply (r_count _ _ _ R).
    + intros q. rewrite !lookup_insert_None. intros ((Hq & ?) & ?). by apply (r_dead _ _ _ R).
Qed.
End ops.
