(* ===== verification/FuseHandlers.v ===== *)
(** * sdcard: the request handlers (fuse.cpp)

    Attributes, access checks, replies and one definition per FUSE operation,
    up to the dispatcher [handle_fuse_request] and the request loop.  A handler
    returns the status of the source: [NO_STATUS], 0 or a negated [errno]. *)

From S2P Require Import Prelude CMonad FuseTypes FuseState FuseNode.

Section handlers.
Context {W : Type} `{!FuseAbi, !AndroidIds, !Os W}.
Abbreviation Mf := (M (fs W)).

(** ** Files and attributes *)

Fixpoint scan_dir (fuel : nat) (d : Z) (nm actual : string) : Mf string :=
  match fuel with
  | O => stuck
  | S fuel' =>
      e ← sys (λ w, os_readdir w d);
      match e with
      | None => mret actual
      | Some e =>
          if strcaseeq (d_name e) nm
          then mret (String.substring 0 (String.length nm) (d_name e))
          else scan_dir fuel' d nm actual
      end
  end.

(** [find_file_within]: the actual name and the path of the child, or [None]
    when it does not fit the buffer. *)
Definition find_file_within (path nm : string) (bufsize : Z) (search : bool)
    : Mf (option (string * string)) :=
  let childlen := slen path + slen nm + 1 in
  if bufsize <=? childlen then mret None else
  let result actual := Some (actual, path +:+ "/" +:+ actual) in
  if search then
    found ← sys (λ w, os_access w (path +:+ "/" +:+ nm));
    if (found : bool) then mret (result nm) else
    d ← sys (λ w, os_opendir w path);
    match d with
    | inr _ => mret (result nm)
    | inl d =>
        s ← get;
        actual ← scan_dir (S (os_dir_left (world s) d)) d nm nm;
        sys_ (λ w, os_closedir w d) ;;
        mret (result actual)
    end
  else mret (result nm).

Definition attr_from_stat (f : fuse) (s : stat) (n : node) : fuse_attr :=
  let gid :=
    if fuse_gid f =? AID_SDCARD_RW then AID_SDCARD_RW
    else multiuser_get_uid (userid n) (fuse_gid f) in
  let visible_mode := Z.land 0x1fd (Z.lnot (fuse_mask f)) in
  let visible_mode :=
    if decide (perm n = PERM_PRE_ROOT) then 0x1c9
    else if under_android n then
      if fuse_gid f =? AID_SDCARD_RW then Z.land visible_mode (Z.lnot 0x6)
      else Z.land visible_mode (Z.lnot 0x7)
    else visible_mode in
  let owner_mode := Z.land (st_mode s) 0x1c0 in
  let filtered_mode :=
    Z.land visible_mode
      (Z.lor owner_mode (Z.lor (Z.shiftr owner_mode 3) (Z.shiftr owner_mode 6))) in
  mk_attr (ino n) (u64 (st_size s)) (u64 (st_blocks s))
    (u64 (st_atime s)) (u64 (st_mtime s)) (u64 (st_ctime s))
    (u32 (st_atimensec s)) (u32 (st_mtimensec s)) (u32 (st_ctimensec s))
    (Z.lor (Z.land (u32 (st_mode s)) S_IFMT) filtered_mode)
    (u32 (st_nlink s)) (uid n) gid.

Definition touch (path : string) (mode : Z) : Mf Z :=
  fd ← open path (Z.lor O_RDWR (Z.lor O_CREAT (Z.lor O_EXCL (Z.lor O_NOFOLLOW O_CLOEXEC)))) mode;
  match fd with
  | inr e => if Zpos e =? EEXIST then mret 0 else mret (-1)
  | inl fd => sys_ (λ w, os_close w fd) ;; mret 0
  end.

(** ** Access checks *)

(** The names that are never visible at the root of a card. *)
Definition blocked_at_root (nm : string) : bool :=
  strcaseeq nm "autorun.inf" || strcaseeq nm ".android_secure" || strcaseeq nm "android_secure".

Definition check_caller_access_to_name (hdr : fuse_in_header) (par : option ptr) (nm : string)
    (mode : Z) : Mf bool :=
  blocked ← (match par with
             | None => mret false
             | Some p =>
                 n ← load p;
                 mret (bool_decide (perm n = PERM_ROOT) && blocked_at_root nm)
             end);
  if (blocked : bool) then mret false
  else if in_uid hdr =? 0 then mret true
  else mret true.

Definition check_caller_access_to_node (hdr : fuse_in_header) (p : ptr) (mode : Z) : Mf bool :=
  n ← load p;
  check_caller_access_to_name hdr (parent n) (str (name n)) mode.

(** ** Replies *)

Definition fuse_status (f : fuse) (unique err : Z) : Mf unit :=
  send (fview f) (OStatus sizeof_out_header err unique).

Definition fuse_reply (f : fuse) (unique : Z) (data : fuse_payload) (len : Z) : Mf unit :=
  send (fview f) (OReply (u32 (len + sizeof_out_header)) unique data).

Definition fuse_reply_entry (f : fuse) (unique : Z) (par : ptr) (nm actual path : string) : Mf Z :=
  st ← sys (λ w, os_lstat w path);
  match st with
  | inr e => mret (- Zpos e)
  | inl st =>
      lock ;;
      c ← acquire_or_create_child_locked par nm actual;
      match c with
      | None => unlock ;; mret (- ENOMEM)
      | Some c =>
          n ← load c;
          unlock ;;
          fuse_reply f unique (POut_entry (nid n) (gen n) 10 10 (attr_from_stat f st n)) sizeof_entry_out ;;
          mret NO_STATUS
      end
  end.

Definition fuse_reply_attr (f : fuse) (unique : Z) (p : ptr) (path : string) : Mf Z :=
  st ← sys (λ w, os_lstat w path);
  match st with
  | inr e => mret (- Zpos e)
  | inl st =>
      n ← load p;
      fuse_reply f unique (POut_attr 10 (attr_from_stat f st n)) sizeof_attr_out ;;
      mret NO_STATUS
  end.

Definition fuse_notify_delete (v : view) (par child : Z) (nm : string) : Mf unit :=
  send v (ONotifyDelete (u32 (sizeof_out_header + sizeof_notify_delete_out + slen nm + 1))
            par child (slen nm) nm).

(** Tell every mount but the one the request came from. *)
Definition notify_other_views (f : fuse) (par child : ptr) (nm : string) : Mf unit :=
  pn ← load par;
  cn ← load child;
  let notify v : Mf unit :=
    if decide (fview f = v) then mret tt else fuse_notify_delete v (nid pn) (nid cn) nm in
  notify V_DEFAULT ;; notify V_READ ;; notify V_WRITE ;; notify V_FULL.

(** ** Node operations *)

(** The preamble shared by the handlers: node and path, under the lock. *)
Definition locked_lookup (nodeid : Z) : Mf (option (ptr * string)) :=
  lock ;;
  r ← lookup_node_and_path_by_id_locked nodeid PATH_MAX;
  unlock ;;
  mret r.

Definition handle_lookup (f : fuse) (hdr : fuse_in_header) (nm : string) : Mf Z :=
  pn ← locked_lookup (in_nodeid hdr);
  match pn with
  | None => mret (- ENOENT)
  | Some (parent_node, parent_path) =>
      fr ← find_file_within parent_path nm PATH_MAX true;
      match fr with
      | None => mret (- ENOENT)
      | Some (actual, child_path) =>
          ok ← check_caller_access_to_name hdr (Some parent_node) nm R_OK;
          if negb ok then mret (- EACCES) else
          fuse_reply_entry f (in_unique hdr) parent_node nm actual child_path
      end
  end.

Fixpoint release_times (n : nat) (p : ptr) : Mf unit :=
  match n with
  | O => mret tt
  | S n' => release_node_locked p ;; release_times n' p
  end.

Definition handle_forget (hdr : fuse_in_header) (req : fuse_forget_in) : Mf Z :=
  lock ;;
  (match lookup_node_by_id_locked (in_nodeid hdr) with
   | None => mret tt
   | Some p => release_times (Z.to_nat (nlookup req)) p
   end) ;;
  unlock ;;
  mret NO_STATUS.

Definition handle_getattr (f : fuse) (hdr : fuse_in_header) : Mf Z :=
  r ← locked_lookup (in_nodeid hdr);
  match r with
  | None => mret (- ENOENT)
  | Some (p, path) =>
      ok ← check_caller_access_to_node hdr p R_OK;
      if negb ok then mret (- EACCES) else
      fuse_reply_attr f (in_unique hdr) p path
  end.

Definition setattr_time (valid flag flag_now sec nsec : Z) : timespec :=
  if has_flag valid flag then
    if has_flag valid flag_now then mk_timespec None UTIME_NOW
    else mk_timespec (Some (swrap 32 sec)) (swrap 32 nsec)
  else mk_timespec None UTIME_OMIT.

Definition handle_setattr (f : fuse) (hdr : fuse_in_header) (req : fuse_setattr_in) : Mf Z :=
  r ← locked_lookup (in_nodeid hdr);
  match r with
  | None => mret (- ENOENT)
  | Some (p, path) =>
      let valid := sa_valid req in
      ok ← (if has_flag valid FATTR_FH then mret true
            else check_caller_access_to_node hdr p W_OK);
      if negb ok then mret (- EACCES) else
      tr ← (if has_flag valid FATTR_SIZE then truncate64 path (swrap 64 (sa_size req))
            else mret (inl tt));
      match tr with
      | inr e => mret (- Zpos e)
      | inl _ =>
          ut ← (if has_flag valid (Z.lor FATTR_ATIME FATTR_MTIME) then
                  utimensat path
                    (setattr_time valid FATTR_ATIME FATTR_ATIME_NOW (sa_atime req) (sa_atimensec req))
                    (setattr_time valid FATTR_MTIME FATTR_MTIME_NOW (sa_mtime req) (sa_mtimensec req))
                else mret (inl tt));
          match ut with
          | inr e => mret (- Zpos e)
          | inl _ => fuse_reply_attr f (in_unique hdr) p path
          end
      end
  end.

(** The preamble of the operations that name a child of a directory. *)
Definition resolve_child (hdr : fuse_in_header) (nm : string) (mode : Z)
    : Mf (Z + (ptr * string * string)) :=
  pn ← locked_lookup (in_nodeid hdr);
  match pn with
  | None => mret (inl (- ENOENT))
  | Some (parent_node, parent_path) =>
      fr ← find_file_within parent_path nm PATH_MAX true;
      match fr with
      | None => mret (inl (- ENOENT))
      | Some (actual, child_path) =>
          ok ← check_caller_access_to_name hdr (Some parent_node) nm mode;
          if negb ok then mret (inl (- EACCES))
          else mret (inr (parent_node, actual, child_path))
      end
  end.

Definition handle_mknod (f : fuse) (hdr : fuse_in_header) (req : fuse_mknod_in) (nm : string) : Mf Z :=
  r ← resolve_child hdr nm W_OK;
  match r with
  | inl err => mret err
  | inr (parent_node, actual, child_path) =>
      let mode := Z.lor (Z.land (mknod_mode req) (Z.lnot 0x1ff)) 0x1b4 in
      m ← mknod child_path mode (mknod_rdev req);
      match m with
      | inr e => mret (- Zpos e)
      | inl _ => fuse_reply_entry f (in_unique hdr) parent_node nm actual child_path
      end
  end.

(** [snprintf(nomedia, PATH_MAX, "%s/.nomedia", dir)] *)
Definition nomedia_path (dir : string) : string :=
  String.substring 0 (Z.to_nat (PATH_MAX - 1)) (dir +:+ "/.nomedia").

(** Mark a new Android/data or Android/obb; [true] when the touch worked. *)
Definition touch_nomedia (dir : string) : Mf bool :=
  r ← touch (nomedia_path dir) 0x1b4; mret (r =? 0).

Definition handle_mkdir (f : fuse) (hdr : fuse_in_header) (req : fuse_mkdir_in) (nm : string) : Mf Z :=
  r ← resolve_child hdr nm W_OK;
  match r with
  | inl err => mret err
  | inr (parent_node, actual, child_path) =>
      let mode := Z.lor (Z.land (mkdir_mode req) (Z.lnot 0x1ff)) 0x1fd in
      m ← mkdir child_path mode;
      match m with
      | inr e => mret (- Zpos e)
      | inl _ =>
          pn ← load parent_node;
          s ← get;
          let android := bool_decide (perm pn = PERM_ANDROID) in
          ok ← (if android && strcaseeq nm "data" then touch_nomedia child_path else mret true);
          if negb ok then mret (- ENOENT) else
          ok ← (if android && strcaseeq nm "obb" then touch_nomedia (obb_path s) else mret true);
          if negb ok then mret (- ENOENT) else
          fuse_reply_entry f (in_unique hdr) parent_node nm actual child_path
      end
  end.

(** After [unlink] or [rmdir]: mark the node deleted and tell the other views. *)
Definition delete_child (f : fuse) (parent_node : ptr) (nm : string) : Mf Z :=
  lock ;;
  c ← lookup_child_by_name_locked parent_node nm;
  (match c with None => mret tt | Some c => update c (set_deleted true) end) ;;
  unlock ;;
  (match c with None => mret tt | Some c => notify_other_views f parent_node c nm end) ;;
  mret 0.

Definition handle_unlink (f : fuse) (hdr : fuse_in_header) (nm : string) : Mf Z :=
  r ← resolve_child hdr nm W_OK;
  match r with
  | inl err => mret err
  | inr (parent_node, _, child_path) =>
      u ← unlink child_path;
      match u with
      | inr e => mret (- Zpos e)
      | inl _ => delete_child f parent_node nm
      end
  end.

Definition handle_rmdir (f : fuse) (hdr : fuse_in_header) (nm : string) : Mf Z :=
  r ← resolve_child hdr nm W_OK;
  match r with
  | inl err => mret err
  | inr (parent_node, _, child_path) =>
      u ← rmdir child_path;
      match u with
      | inr e => mret (- Zpos e)
      | inl _ => delete_child f parent_node nm
      end
  end.

(** *** Rename: the three phases of the source, separated by its unlocks *)

(** Up to the first unlock: resolve both directories and the child, and take
    a reference to the child. *)
Definition rename_resolve (hdr : fuse_in_header) (req : fuse_rename_in) (old_name new_name : string)
    : Mf (Z + (ptr * string * ptr * string * ptr)) :=
  o ← lookup_node_and_path_by_id_locked (in_nodeid hdr) PATH_MAX;
  n ← lookup_node_and_path_by_id_locked (newdir req) PATH_MAX;
  match o, n with
  | Some (old_parent, _), Some (new_parent, new_parent_path) =>
      ok ← check_caller_access_to_name hdr (Some old_parent) old_name W_OK;
      if negb ok then mret (inl (- EACCES)) else
      ok ← check_caller_access_to_name hdr (Some new_parent) new_name W_OK;
      if negb ok then mret (inl (- EACCES)) else
      c ← lookup_child_by_name_locked old_parent old_name;
      match c with
      | None => mret (inl (- ENOENT))
      | Some child_node =>
          r ← get_node_path_locked child_node PATH_MAX;
          match r with
          | None => mret (inl (- ENOENT))
          | Some (_, old_child_path) =>
              acquire_node_locked child_node ;;
              mret (inr (old_parent, old_child_path, new_parent, new_parent_path, child_node))
          end
      end
  | _, _ => mret (inl (- ENOENT))
  end.

(** The last phase, under the lock: move the node in the graph. *)
Definition rename_commit (new_parent child_node : ptr) (new_name new_actual : string) : Mf Z :=
  res ← rename_node_locked child_node new_name new_actual;
  if res =? 0 then
    remove_node_from_parent_locked child_node ;;
    derive_permissions_locked new_parent child_node ;;
    derive_permissions_recursive_locked child_node ;;
    add_node_to_parent_locked child_node new_parent ;;
    mret res
  else mret res.

(** [done:] release the child, unlock, return. *)
Definition rename_done (child_node : ptr) (res : Z) : Mf Z :=
  release_node_locked child_node ;; unlock ;; mret res.

Definition handle_rename (f : fuse) (hdr : fuse_in_header) (req : fuse_rename_in)
    (old_name new_name : string) : Mf Z :=
  lock ;;
  r ← rename_resolve hdr req old_name new_name;
  unlock ;;
  match r with
  | inl err => mret err
  | inr (old_parent, old_child_path, new_parent, new_parent_path, child_node) =>
      let search := negb (bool_decide (old_parent = new_parent)) || negb (strcaseeq old_name new_name) in
      fr ← find_file_within new_parent_path new_name PATH_MAX search;
      match fr with
      | None => lock ;; rename_done child_node (- ENOENT)
      | Some (new_actual, new_child_path) =>
          m ← rename old_child_path new_child_path;
          match m with
          | inr e => lock ;; rename_done child_node (- Zpos e)
          | inl _ =>
              lock ;;
              res ← rename_commit new_parent child_node new_name new_actual;
              rename_done child_node res
          end
      end
  end.

(** ** File and directory handles *)

Definition open_flags_to_access_mode (flags : Z) : Z :=
  if Z.land flags O_ACCMODE =? O_RDONLY then R_OK
  else if Z.land flags O_ACCMODE =? O_WRONLY then W_OK
  else Z.lor R_OK W_OK.

Definition handle_open (f : fuse) (hdr : fuse_in_header) (req : fuse_open_in) : Mf Z :=
  r ← locked_lookup (in_nodeid hdr);
  match r with
  | None => mret (- ENOENT)
  | Some (p, path) =>
      ok ← check_caller_access_to_node hdr p (open_flags_to_access_mode (open_flags req));
      if negb ok then mret (- EACCES) else
      h ← malloc 4;
      match h with
      | None => mret (- ENOMEM)
      | Some h =>
          fd ← open path (open_flags req) 0;
          match fd with
          | inr e => mret (- Zpos e)
          | inl fd =>
              new_handle h (HFile fd) ;;
              fuse_reply f (in_unique hdr) (POut_open h 0) sizeof_open_out ;;
              mret NO_STATUS
          end
      end
  end.

(** The descriptor behind a [struct handle *]; any other object is a type
    confusion. *)
Definition file_handle (fh : Z) : Mf Z :=
  h ← load_handle fh;
  match h with HFile fd => mret fd | HDir _ => undefined end.

Definition dir_handle (fh : Z) : Mf Z :=
  h ← load_handle fh;
  match h with HDir d => mret d | HFile _ => undefined end.

Definition handle_read (f : fuse) (hdr : fuse_in_header) (req : fuse_read_in) : Mf Z :=
  let unique := in_unique hdr in
  let size := read_size req in
  let offset := read_offset req in
  if MAX_READ <? size then mret (- EINVAL) else
  fd ← file_handle (read_fh req);
  r ← sys (λ w, os_pread w fd size (swrap 64 offset));
  match r with
  | inr e => mret (- Zpos e)
  | inl bytes =>
      fuse_reply f unique (POut_data bytes) (Z.of_nat (length bytes)) ;;
      mret NO_STATUS
  end.

Definition handle_write (f : fuse) (hdr : fuse_in_header) (req : fuse_write_in)
    (buffer : list Ascii.ascii) : Mf Z :=
  fd ← file_handle (write_fh req);
  require (write_size req <=? Z.of_nat (length buffer)) ;;
  r ← pwrite64 fd (take (Z.to_nat (write_size req)) buffer) (swrap 64 (write_offset req));
  match r with
  | inr e => mret (- Zpos e)
  | inl n =>
      fuse_reply f (in_unique hdr) (POut_write (u32 n)) sizeof_write_out ;;
      mret NO_STATUS
  end.

Definition handle_statfs (f : fuse) (hdr : fuse_in_header) : Mf Z :=
  lock ;;
  r ← get_node_path_locked Root PATH_MAX;
  unlock ;;
  match r with
  | None => mret (- ENOENT)
  | Some _ =>
      root ← load Root;
      st ← sys (λ w, os_statfs w (str (name root)));
      match st with
      | inr e => mret (- Zpos e)
      | inl st =>
          fuse_reply f (in_unique hdr) (POut_statfs st) sizeof_statfs_out ;;
          mret NO_STATUS
      end
  end.

Definition handle_release (req : fuse_release_in) : Mf Z :=
  fd ← file_handle (release_fh req);
  sys_ (λ w, os_close w fd) ;;
  free_handle (release_fh req) ;;
  mret 0.

Definition handle_fsync (hdr : fuse_in_header) (req : fuse_fsync_in) : Mf Z :=
  let is_data_sync := truthy (Z.land (fsync_flags req) 1) in
  fd ← (if in_opcode hdr =? FUSE_FSYNCDIR then
          d ← dir_handle (fsync_fh req); s ← get; mret (os_dirfd (world s) d)
        else file_handle (fsync_fh req));
  r ← (if is_data_sync then sys (λ w, os_fdatasync w fd) else sys (λ w, os_fsync w fd));
  match r with
  | inr e => mret (- Zpos e)
  | inl _ => mret 0
  end.

Definition handle_flush : Mf Z := mret 0.

Definition handle_opendir (f : fuse) (hdr : fuse_in_header) : Mf Z :=
  r ← locked_lookup (in_nodeid hdr);
  match r with
  | None => mret (- ENOENT)
  | Some (p, path) =>
      ok ← check_caller_access_to_node hdr p R_OK;
      if negb ok then mret (- EACCES) else
      h ← malloc 4;
      match h with
      | None => mret (- ENOMEM)
      | Some h =>
          d ← sys (λ w, os_opendir w path);
          match d with
          | inr e => mret (- Zpos e)
          | inl d =>
              new_handle h (HDir d) ;;
              fuse_reply f (in_unique hdr) (POut_open h 0) sizeof_open_out ;;
              mret NO_STATUS
          end
      end
  end.

Definition handle_readdir (f : fuse) (hdr : fuse_in_header) (req : fuse_read_in) : Mf Z :=
  d ← dir_handle (read_fh req);
  (if read_offset req =? 0 then sys_ (λ w, os_rewinddir w d) else mret tt) ;;
  de ← sys (λ w, os_readdir w d);
  match de with
  | None => mret 0
  | Some de =>
      fuse_reply f (in_unique hdr)
        (POut_dirent FUSE_UNKNOWN_INO (u64 (read_offset req + 1)) (d_type de)
           (slen (d_name de)) (d_name de))
        (FUSE_DIRENT_ALIGN (sizeof_dirent + slen (d_name de))) ;;
      mret NO_STATUS
  end.

Definition handle_releasedir (req : fuse_release_in) : Mf Z :=
  d ← dir_handle (release_fh req);
  sys_ (λ w, os_closedir w d) ;;
  free_handle (release_fh req) ;;
  mret 0.

Definition handle_init (f : fuse) (hdr : fuse_in_header) (req : fuse_init_in) : Mf Z :=
  if negb (init_major req =? FUSE_KERNEL_VERSION) || (init_minor req <? 6) then mret (-1) else
  let fuse_struct_size :=
    match FUSE_COMPAT_22_INIT_OUT_SIZE with Some n => n | None => sizeof_init_out end in
  fuse_reply f (in_unique hdr)
    (POut_init FUSE_KERNEL_VERSION (Z.min (init_minor req) 15) (init_max_readahead req)
       (Z.lor FUSE_ATOMIC_O_TRUNC FUSE_BIG_WRITES) 32 32 MAX_WRITE)
    fuse_struct_size ;;
  mret NO_STATUS.

Definition handle_canonical_path (f : fuse) (hdr : fuse_in_header) : Mf Z :=
  r ← locked_lookup (in_nodeid hdr);
  match r with
  | None => mret (- ENOENT)
  | Some (p, path) =>
      ok ← check_caller_access_to_node hdr p R_OK;
      if negb ok then mret (- EACCES) else
      let len := slen path in
      let len := if PATH_MAX <? len + 1 then PATH_MAX - 1 else len in
      let path := String.substring 0 (Z.to_nat (PATH_MAX - 1)) path in
      fuse_reply f (in_unique hdr) (POut_path path) (len + 1) ;;
      mret NO_STATUS
  end.

(** ** Dispatch *)

(** The C string at [data + off]; reading past the request is undefined. *)
Fixpoint cstring (data : list Ascii.ascii) : option string :=
  match data with
  | [] => None
  | c :: data' =>
      if Ascii.eqb c Ascii.zero then Some EmptyString
      else option_map (String c) (cstring data')
  end.

Definition cstring_at (data : list Ascii.ascii) (off : Z) : Mf string :=
  match cstring (drop (Z.to_nat off) data) with
  | Some s => mret s
  | None => undefined
  end.

Definition handle_fuse_request (f : fuse) (hdr : fuse_in_header) (data : list Ascii.ascii) : Mf Z :=
  let op := in_opcode hdr in
  if op =? FUSE_LOOKUP then
    nm ← cstring_at data 0; handle_lookup f hdr nm
  else if op =? FUSE_FORGET then handle_forget hdr (as_forget_in data)
  else if op =? FUSE_GETATTR then handle_getattr f hdr
  else if op =? FUSE_SETATTR then handle_setattr f hdr (as_setattr_in data)
  else if op =? FUSE_MKNOD then
    nm ← cstring_at data sizeof_mknod_in; handle_mknod f hdr (as_mknod_in data) nm
  else if op =? FUSE_MKDIR then
    nm ← cstring_at data sizeof_mkdir_in; handle_mkdir f hdr (as_mkdir_in data) nm
  else if op =? FUSE_UNLINK then
    nm ← cstring_at data 0; handle_unlink f hdr nm
  else if op =? FUSE_RMDIR then
    nm ← cstring_at data 0; handle_rmdir f hdr nm
  else if op =? FUSE_RENAME then
    old_name ← cstring_at data sizeof_rename_in;
    new_name ← cstring_at data (sizeof_rename_in + slen old_name + 1);
    handle_rename f hdr (as_rename_in data) old_name new_name
  else if op =? FUSE_OPEN then handle_open f hdr (as_open_in data)
  else if op =? FUSE_READ then handle_read f hdr (as_read_in data)
  else if op =? FUSE_WRITE then
    handle_write f hdr (as_write_in data) (drop (Z.to_nat sizeof_write_in) data)
  else if op =? FUSE_STATFS then handle_statfs f hdr
  else if op =? FUSE_RELEASE then handle_release (as_release_in data)
  else if (op =? FUSE_FSYNC) || (op =? FUSE_FSYNCDIR) then handle_fsync hdr (as_fsync_in data)
  else if op =? FUSE_FLUSH then handle_flush
  else if op =? FUSE_OPENDIR then handle_opendir f hdr
  else if op =? FUSE_READDIR then handle_readdir f hdr (as_read_in data)
  else if op =? FUSE_RELEASEDIR then handle_releasedir (as_release_in data)
  else if op =? FUSE_INIT then handle_init f hdr (as_init_in data)
  else if op =? FUSE_CANONICAL_PATH then handle_canonical_path f hdr
  else mret (- ENOSYS).

(** Run a handler on a complete request and send the status it asks for. *)
Definition answer_request (f : fuse) (request : list Ascii.ascii) : Mf unit :=
  let hdr := as_in_header request in
  let data := drop (Z.to_nat sizeof_in_header) request in
  let unique := in_unique hdr in
  res ← handle_fuse_request f hdr data;
  if res =? NO_STATUS then mret tt else fuse_status f unique res.

(** One iteration of the loop of [handle_fuse_requests]. *)
Definition handle_one_request (f : fuse) : Mf unit :=
  r ← sys (λ w, os_read_request w (fview f));
  match r with
  | inr e => if Zpos e =? ENODEV then exit 2 else mret tt
  | inl request =>
      let len := Z.of_nat (length request) in
      if len <? sizeof_in_header then mret tt
      else if negb (in_len (as_in_header request) =? len) then mret tt
      else answer_request f request
  end.

Fixpoint handle_fuse_requests (n : nat) (f : fuse) : Mf unit :=
  match n with
  | O => mret tt
  | S n' => handle_one_request f ;; handle_fuse_requests n' f
  end.
End handlers.
