(* ===== verification/FuseInv.v ===== *)
(** * sdcard: the daemon's invariant, paths and lookups

    [Inv s K ext] is what holds between two requests: the node graph is a tree
    with exact reference counts, every node is well formed ([node_wf]), inode
    numbers are unique, the permission fields are those [derive_pinfo] gives
    ([coherent]) and the lock is free.  Then the read-only operations: paths,
    child lookups and the case-insensitive search, against their specifications. *)

From S2P Require Import Prelude CMonad FuseTypes FuseState FuseNode FuseTree FuseRefs FuseHandlers.

Section inv.
Context {W : Type} `{!FuseAbi, !AndroidIds, !Os W}.
Implicit Types s : fs W.

(** The name under which a node is stored in the underlying file system. *)
Definition display_name (n : node) : string :=
  match graft_path n, actual_name n with
  | Some g, _ => g
  | None, Some a => str a
  | None, None => str (name n)
  end.

(** The identifier the kernel knows a node by. *)
Definition id_of_ptr (p : ptr) : Z := match p with Root => FUSE_ROOT_ID | Heap a => a end.

Record node_wf (p : ptr) (n : node) : Prop := mk_node_wf {
  w_namelen : namelen n = slen (str (name n));
  w_name : namelen n < blk (name n);
  w_actual a : actual_name n = Some a → slen (str a) = namelen n ∧ namelen n < blk a;
  w_graft g : graft_path n = Some g → graft_pathlen n = slen g;
  w_nid : nid n = id_of_ptr p;
  w_addr a : p = Heap a → 0 < a < 2 ^ UINTPTR_BITS ∧ a ≠ FUSE_ROOT_ID;
  w_ino : p = Root → ino n = 0
}.

(** Inode numbers: unique, and below the counter unless it has run out. *)
Record inodes_ok (h : nodes) (ctr : Z) : Prop := mk_inodes_ok {
  i_range : 0 <= ctr < 2 ^ 32;
  i_used p n : h !! p = Some n → p ≠ Root → 0 < ino n < 2 ^ 32 ∧ (ctr ≠ 0 → ino n < ctr);
  i_inj p q n m : h !! p = Some n → h !! q = Some m → ino n = ino m → p = q
}.

(** Every node's permissions are derived from its parent's and its name,
    except for the nodes [X] of an operation in progress. *)
Definition coherent (pkgs : gmap string Z) (X : gset ptr) (h : nodes) : Prop :=
  ∀ p n q m, p ∉ X → h !! p = Some n → parent n = Some q → h !! q = Some m →
    pinfo_of n = derive_pinfo pkgs (pinfo_of m) (str (name n)).

(** The node graph: [K] is its shape, [D] its detached nodes, [ext] the
    references held from outside, [X] the nodes whose permissions are stale. *)
Record Graph s (K : ptr → list ptr) (D X : gset ptr) (ext : refmap) : Prop := mk_Graph {
  g_tree : tree_ok (heap s) K D;
  g_refs : refs_ok (heap s) K ext;
  g_node p n : heap s !! p = Some n → node_wf p n;
  g_inodes : inodes_ok (heap s) (inode_ctr s);
  g_coh : coherent (package_to_appid s) X (heap s)
}.

Record Inv s (K : ptr → list ptr) (ext : refmap) : Prop := mk_Inv {
  inv_graph : Graph s K ∅ ∅ ext;
  inv_root : 1 <= ext Root;
  inv_unlocked : locked s = false
}.

(** The part of the state the graph lives in is unchanged. *)
Record same_graph s s' : Prop := mk_same_graph {
  sg_heap : heap s' = heap s;
  sg_packages : package_to_appid s' = package_to_appid s;
  sg_ctr : inode_ctr s' = inode_ctr s;
  sg_gen : next_generation s' = next_generation s;
  sg_obb : obb_path s' = obb_path s
}.

#[export] Instance same_graph_preorder : PreOrder same_graph.
Proof.
  split.
  - intros s. by split.
  - intros s1 s2 s3 [] []. split; congruence.
Qed.

Lemma Graph_same s s' K D X ext : same_graph s s' → Graph s K D X ext → Graph s' K D X ext.
Proof. intros [Hh Hp Hc _ _] []. split; rewrite ?Hh, ?Hp, ?Hc in *; eauto. Qed.

Lemma Graph_ext s K D X ext ext' : (∀ p, ext p = ext' p) → Graph s K D X ext → Graph s K D X ext'.
Proof. intros He []. split; try done. by eapply refs_ok_ext; [exact He|done|]. Qed.

Lemma same_graph_set_locked b s : same_graph s (set_locked b s).
Proof. by destruct s. Qed.

(** Everything but the operating system (and the log of its calls) is unchanged. *)
Record only_world s s' : Prop := mk_only_world {
  ow_graph : same_graph s s';
  ow_locked : locked s' = locked s;
  ow_handles : handles s' = handles s;
  ow_out : out s' = out s
}.

#[export] Instance only_world_preorder : PreOrder only_world.
Proof.
  split.
  - intros s. by split.
  - intros s1 s2 s3 [] []. split; [by etrans|congruence..].
Qed.

Lemma only_world_set_world w s : only_world s (set_world w s).
Proof. by destruct s. Qed.
Lemma only_world_add_log e s : only_world s (add_log e s).
Proof. by destruct s. Qed.
Lemma same_graph_add_out m s : same_graph s (add_out m s).
Proof. by destruct s. Qed.
Lemma same_graph_set_handles h s : same_graph s (set_handles h s).
Proof. by destruct s. Qed.

(** ** System calls *)

Lemma wp_sys {A} (call : W → A * W) s (Q : A → fs W → Prop) :
  (∀ a w, call (world s) = (a, w) → Q a (set_world w s)) → wp (sys call) Q s.
Proof. unfold wp, sys. destruct (call (world s)) as [a w] eqn:E. auto. Qed.

Lemma wp_sys_only {A} (call : W → A * W) s (Q : A → fs W → Prop) :
  (∀ a s', only_world s s' → Q a s') → wp (sys call) Q s.
Proof. intros HQ. apply wp_sys. intros. apply HQ, only_world_set_world. Qed.

Lemma wp_sys_ (call : W → W) s (Q : unit → fs W → Prop) :
  Q tt (set_world (call (world s)) s) → wp (sys_ call) Q s.
Proof. done. Qed.

Lemma wp_sys__only (call : W → W) s (Q : unit → fs W → Prop) :
  (∀ s', only_world s s' → Q tt s') → wp (sys_ call) Q s.
Proof. intros HQ. apply HQ, only_world_set_world. Qed.

Lemma wp_logged {A} e (m : M (fs W) A) s Q : wp m Q (add_log e s) → wp (logged e m) Q s.
Proof. done. Qed.

Lemma wp_logged_only {A} e (call : W → A * W) s (Q : A → fs W → Prop) :
  (∀ a s', only_world s s' → Q a s') → wp (logged e (sys call)) Q s.
Proof.
  intros HQ. apply wp_logged, wp_sys_only. intros a s' Ho. apply HQ.
  by etrans; [apply only_world_add_log|].
Qed.

Lemma wp_malloc size s (Q : option Z → fs W → Prop) :
  (∀ a w, os_malloc (world s) (live_addrs s) size = (a, w) → Q a (set_world w s)) →
  wp (malloc size) Q s.
Proof. unfold wp, malloc. destruct (os_malloc _ _ _) as [a w]. auto. Qed.

Lemma wp_malloc_only size s (Q : option Z → fs W → Prop) :
  (∀ a s', only_world s s' → Q a s') → wp (malloc size) Q s.
Proof. intros HQ. apply wp_malloc. intros. apply HQ, only_world_set_world. Qed.

Lemma wp_lock s (Q : unit → fs W → Prop) :
  locked s = false → Q tt (set_locked true s) → wp lock Q s.
Proof. unfold wp, lock. intros Hl HQ. by rewrite Hl. Qed.

Lemma wp_unlock s (Q : unit → fs W → Prop) :
  locked s = true → Q tt (set_locked false s) → wp unlock Q s.
Proof. unfold wp, unlock. intros Hl HQ. by rewrite Hl. Qed.

(** ** Paths *)

(** The path of a node from its lineage: the nearest graft, or the root's
    name, followed by the names below it. *)
Fixpoint node_path (ns : list node) : string :=
  match ns with
  | [] => EmptyString
  | n :: ns' =>
      match graft_path n, ns' with
      | None, _ :: _ => node_path ns' +:+ "/" +:+ display_name n
      | _, _ => display_name n
      end
  end.

Inductive lineage_nodes (h : nodes) : list ptr → list node → Prop :=
  | ln_nil : lineage_nodes h [] []
  | ln_cons p n l ns :
      h !! p = Some n → lineage_nodes h l ns → lineage_nodes h (p :: l) (n :: ns).

Lemma lineage_nodes_exist h p l : lineage h p l → ∃ ns, lineage_nodes h l ns.
Proof.
  induction 1 as [p n Hp _|p n q l Hp _ _ [ns IH]].
  - exists [n]. by repeat constructor.
  - exists (n :: ns). by constructor.
Qed.

Lemma path_component_wf p n :
  node_wf p n → path_component n = (display_name n, slen (display_name n)).
Proof.
  intros Hw. unfold path_component, display_name. destruct (graft_path n) as [g|] eqn:E.
  - by rewrite (w_graft _ _ Hw _ E).
  - destruct (actual_name n) as [a|] eqn:Ea.
    + by rewrite (proj1 (w_actual _ _ Hw _ Ea)).
    + by rewrite (w_namelen _ _ Hw).
Qed.

Lemma node_path_cons n n' ns :
  graft_path n = None →
  node_path (n :: n' :: ns) = node_path (n' :: ns) +:+ "/" +:+ display_name n.
Proof. intros Hg. simpl. by rewrite Hg. Qed.

Lemma get_node_path_ok s l ns : ∀ p fuel bufsize,
  (∀ p n, heap s !! p = Some n → node_wf p n) →
  lineage (heap s) p l → lineage_nodes (heap s) l ns → (length l ≤ fuel)%nat →
  wp (get_node_path fuel p bufsize) (λ r s', s' = s ∧
    r = if slen (node_path ns) <? bufsize then Some (slen (node_path ns), node_path ns) else None) s.
Proof.
  revert l. induction ns as [|n ns IH]; intros l p [|fuel] bufsize Hw Hl Hns Hf.
  1-2: inversion Hns; subst; by inversion Hl.
  { destruct (lineage_head _ _ _ Hl) as [l' ->]. simpl in Hf. lia. }
  inversion Hns as [|p' ? l' ? Hp Hns']; subst.
  assert (p' = p) as -> by (destruct (lineage_head _ _ _ Hl); congruence).
  pose proof (Hw _ _ Hp) as Hwn.
  simpl get_node_path. wp_step. eapply wp_load; [done|].
  rewrite (path_component_wf _ _ Hwn).
  pose proof (slen_nonneg (display_name n)).
  destruct (graft_path n) as [g|] eqn:Eg.
  - replace (node_path (n :: ns)) with (display_name n) by (simpl; by rewrite Eg).
    destruct (Z.ltb_spec bufsize (slen (display_name n) + 1)).
    { wp_step. rewrite (proj2 (Z.ltb_ge _ _)) by lia. done. }
    rewrite (proj2 (Z.ltb_lt _ _)) by lia.
    wp_step. destruct (parent n); wp_step; cbn;
      (wp_step; apply wp_require; [apply Z.eqb_refl|]; wp_step; done).
  - inversion Hl as [? n0 Hp0 Hpar|? n0 q ? Hp0 Hpar Hlq]; subst; simplify_eq.
    + inversion Hns'; subst. replace (node_path [n]) with (display_name n) by (simpl; by rewrite Eg).
      rewrite Hpar. destruct (Z.ltb_spec bufsize (slen (display_name n) + 1)).
      { wp_step. rewrite (proj2 (Z.ltb_ge _ _)) by lia. done. }
      rewrite (proj2 (Z.ltb_lt _ _)) by lia. wp_step. wp_step. cbn.
      wp_step; apply wp_require; [apply Z.eqb_refl|]; wp_step; done.
    + rewrite Hpar. destruct ns as [|n' ns].
      { inversion Hns'; subst. by inversion Hlq. }
      rewrite node_path_cons by done.
      assert (slen (node_path (n' :: ns) +:+ "/" +:+ display_name n) =
              slen (node_path (n' :: ns)) + 1 + slen (display_name n)) as Hlen.
      { rewrite !slen_app. unfold slen at 2. simpl String.length. lia. }
      pose proof (slen_nonneg (node_path (n' :: ns))).
      rewrite Hlen.
      destruct (Z.ltb_spec bufsize (slen (display_name n) + 1)).
      { wp_step. rewrite (proj2 (Z.ltb_ge _ _)) by lia. done. }
      wp_step. wp_step. eapply wp_mono.
      { eapply IH; [done|done|done|simpl in Hf; lia]. }
      cbn beta. intros r s' [-> ->]. wp_step.
      destruct (Z.ltb_spec (slen (node_path (n' :: ns))) (bufsize - slen (display_name n) - 1)).
      * rewrite (proj2 (Z.ltb_lt _ _)) by lia.
        wp_step; apply wp_require; [apply Z.eqb_refl|]; wp_step. split; [done|].
        f_equal. f_equal. by rewrite string_app_assoc.
      * rewrite (proj2 (Z.ltb_ge _ _)) by lia. by wp_step.
Qed.
End inv.
