(* ===== verification/FuseDerive.v ===== *)
(** * sdcard: permission derivation over the graph

    [derive_permissions_recursive_locked] visits every node below its argument
    and leaves the subtree coherent: each node has the fields [derive_pinfo]
    computes from its parent.  It changes nothing else and terminates. *)

From S2P Require Import Prelude CMonad FuseTypes FuseState FuseNode FuseTree FuseRefs FuseHandlers FuseInv.

(** Everything but what [derive_permissions_locked] computes. *)
Definition core (n : node) : node := set_derived PERM_INHERIT 0 0 false (set_graft None 0 n).

Section core.
Implicit Types n : node.

Lemma core_links n m : core n = core m → links n = links m.
Proof. intros E%(f_equal links). by destruct n, m. Qed.
Lemma core_parent n m : core n = core m → parent n = parent m.
Proof. intros E%(f_equal parent). by destruct n, m. Qed.
Lemma core_child n m : core n = core m → child n = child m.
Proof. intros E%(f_equal child). by destruct n, m. Qed.
Lemma core_next n m : core n = core m → next n = next m.
Proof. intros E%(f_equal next). by destruct n, m. Qed.
Lemma core_name n m : core n = core m → name n = name m.
Proof. intros E%(f_equal name). by destruct n, m. Qed.
Lemma core_refcount n m : core n = core m → refcount n = refcount m.
Proof. intros E%(f_equal refcount). by destruct n, m. Qed.
Lemma core_actual n m : core n = core m → actual_name n = actual_name m.
Proof. intros E%(f_equal actual_name). by destruct n, m. Qed.
Lemma core_ino n m : core n = core m → ino n = ino m.
Proof. intros E%(f_equal ino). by destruct n, m. Qed.
End core.

(** [x] is [p] or one of its descendants. *)
Definition under (h : nodes) (p x : ptr) : Prop := ∃ l, lineage h x l ∧ p ∈ l.
Definition below (h : nodes) (p x : ptr) : Prop := under h p x ∧ x ≠ p.

Section under.
Context {h : nodes} {K : ptr → list ptr} {D : gset ptr} (T : tree_ok h K D).

Lemma under_ext h' p x :
  (∀ y, parent <$> h' !! y = parent <$> h !! y) → under h p x ↔ under h' p x.
Proof.
  intros He. split; intros (l & Hl & Hp); exists l; (split; [|done]);
    (eapply lineage_ext; [|exact Hl]; auto).
Qed.

Lemma under_refl p n : h !! p = Some n → under h p p.
Proof.
  intros Hp. destruct (t_lin _ _ _ T _ _ Hp) as [l Hl]. exists l. split; [done|].
  destruct (lineage_head _ _ _ Hl) as [l' ->]. left.
Qed.

Lemma under_parent p x n q :
  h !! x = Some n → parent n = Some q → x ≠ p → under h p x → under h p q.
Proof.
  intros Hx Hn Hne (l & Hl & Hp). inversion Hl; simplify_eq.
  apply elem_of_cons in Hp as [->|Hp]; [done|]. eexists. eauto.
Qed.

Lemma under_step p x n q : h !! x = Some n → parent n = Some q → under h p q → under h p x.
Proof.
  intros Hx Hn (l & Hl & Hp). exists (x :: l). split; [by econstructor|by right].
Qed.

(** A descendant is reached through exactly one child. *)
Lemma below_kid p x n : h !! p = Some n → below h p x ↔ ∃ d, d ∈ K p ∧ under h d x.
Proof.
  intros Hp. split.
  - intros [(l & Hl & Hin) Hne]. induction Hl as [y m Hy Hm|y m q l Hy Hm Hl IH].
    { apply list_elem_of_singleton in Hin. congruence. }
    apply elem_of_cons in Hin as [->|Hin]; [done|]. destruct (decide (q = p)) as [->|Hq].
    + exists y. split; [by eapply (t_par _ _ _ T)|by eapply under_refl].
    + destruct IH as (d & ? & Hd); [done..|]. exists d. split; [done|]. by eapply under_step.
  - intros (d & Hd & (l & Hl & Hdl)). destruct (t_kid _ _ _ T _ _ _ Hp Hd) as (m & Hm & Hpm).
    destruct (lineage_elem _ _ _ _ Hl Hdl) as (l1 & l2 & -> & Hl2).
    inversion Hl2 as [|? ? q l3 ? ? Hl3]; simplify_eq.
    destruct (lineage_head _ _ _ Hl3) as [l4 ->]. split.
    + exists (l1 ++ d :: p :: l4). split; [done|]. set_solver.
    + intros ->. pose proof (lineage_nodup _ _ _ Hl) as Hnd.
      apply NoDup_app in Hnd as (_ & Hd1 & Hnd). apply NoDup_cons in Hnd as [? _].
      destruct l1 as [|y l1]; [apply lineage_head in Hl as [? ?]; simplify_eq; set_solver|].
      apply lineage_head in Hl as [? ?]; simplify_eq. eapply (Hd1 p); set_solver.
Qed.

Lemma under_disjoint p n d e x :
  h !! p = Some n → d ∈ K p → e ∈ K p → under h d x → under h e x → d = e.
Proof.
  intros Hp Hd He (l & Hl & Hdl) (l' & Hl' & Hel).
  assert (l' = l) as -> by (by eapply lineage_fun).
  destruct (t_kid _ _ _ T _ _ _ Hp Hd) as (md & Hmd & Hpd).
  destruct (t_kid _ _ _ T _ _ _ Hp He) as (me & Hme & Hpe).
  destruct (lineage_elem _ _ _ _ Hl Hdl) as (l1 & l2 & -> & Hl2).
  apply elem_of_app in Hel as [Hel|Hel].
  - destruct (lineage_elem _ _ _ _ Hl (proj2 (elem_of_app l1 l2 e) (or_introl Hel)))
      as (l3 & l4 & Heq & Hl4).
    inversion Hl2 as [|? ? ? l5 ? ? Hl5]; simplify_eq.
    inversion Hl4 as [|? ? ? l6 ? ? Hl6]; simplify_eq.
    assert (l6 = l5) as -> by (by eapply lineage_fun).
    apply (f_equal reverse) in Heq. rewrite !reverse_app, !reverse_cons in Heq.
    rewrite <- !(assoc_L (++)) in Heq. apply app_inv_head in Heq. by simplify_eq/=.
  - destruct (decide (d = e)) as [|Hne]; [done|].
    inversion Hl2 as [|? ? ? l5 ? ? Hl5]; simplify_eq.
    apply elem_of_cons in Hel as [->|Hel]; [done|]. exfalso.
    (* [e], a child of [p], is above [p] *)
    destruct (lineage_elem _ _ _ _ Hl5 Hel) as (l3 & l4 & -> & Hl4).
    inversion Hl4 as [|? ? ? l6 ? ? Hl6]; simplify_eq.
    pose proof (lineage_fun _ _ _ _ Hl5 Hl6) as Heq. apply (f_equal length) in Heq.
    rewrite length_app in Heq. simpl in Heq. lia.
Qed.

Lemma kid_not_above p n d : h !! p = Some n → d ∈ K p → ¬ under h d p.
Proof.
  intros Hp Hd Hu. assert (below h p p) as [_ ?]; [|done].
  eapply below_kid; eauto.
Qed.
End under.

Section derive.
Context {W : Type} `{!FuseAbi, !AndroidIds, !Os W}.
Implicit Types s : fs W.

Lemma core_derive_node pkgs obb pn n : core (derive_node pkgs obb pn n) = core n.
Proof.
  unfold derive_node. destruct (derive_pinfo _ _ _). unfold derive_graft.
  destruct (perm pn); try (by destruct n). case_match; by destruct n.
Qed.

Lemma pinfo_derive_node pkgs obb pn n :
  pinfo_of (derive_node pkgs obb pn n) = derive_pinfo pkgs (pinfo_of pn) (str (name n)).
Proof. unfold derive_node. destruct (derive_pinfo _ _ _). by destruct (derive_graft _ _ _). Qed.

Lemma wf_derive_node pkgs obb pn p n : node_wf p n → node_wf p (derive_node pkgs obb pn n).
Proof.
  intros [].
  assert (∀ g gl, (∀ g', g = Some g' → gl = slen g') → node_wf p (set_graft g gl n)) as Hg
    by (intros; destruct n; split; simpl in *; eauto).
  assert (node_wf p (derive_graft obb (perm pn) n)) as [].
  { unfold derive_graft. destruct (perm pn); try done. case_match; [|done].
    apply Hg. intros. congruence. }
  unfold derive_node. destruct (derive_pinfo _ _ _), (derive_graft _ _ _); by split.
Qed.

(** The fields below [par] are derived, everything else is unchanged. *)
Record rederived (pkgs : gmap string Z) (vis : ptr → Prop) (h h' : nodes) : Prop := mk_rederived {
  rd_core x : core <$> h' !! x = core <$> h !! x;
  rd_same x : ¬ vis x → h' !! x = h !! x;
  rd_coh x n q m : vis x → h' !! x = Some n → parent n = Some q → h' !! q = Some m →
    pinfo_of n = derive_pinfo pkgs (pinfo_of m) (str (name n));
  rd_wf x n' : h' !! x = Some n' → ∃ n, h !! x = Some n ∧ (node_wf x n → node_wf x n')
}.

Lemma core_some (h h' : nodes) x n :
  core <$> h' !! x = core <$> h !! x → h !! x = Some n →
  ∃ n', h' !! x = Some n' ∧ core n' = core n.
Proof. intros Hc Hx. rewrite Hx in Hc. destruct (h' !! x); simplify_eq/=. eauto. Qed.

Lemma core_field {A} (f : node → A) (h h' : nodes) x :
  (∀ n m, core n = core m → f n = f m) →
  core <$> h' !! x = core <$> h !! x → f <$> h' !! x = f <$> h !! x.
Proof. intros Hf Hc. destruct (h' !! x), (h !! x); simplify_eq/=; f_equal; auto. Qed.

Lemma rederived_tree pkgs vis h h' K D : rederived pkgs vis h h' → tree_ok h K D → tree_ok h' K D.
Proof.
  intros R. apply tree_ok_ext. intros p. apply core_field; [apply core_links|apply R].
Qed.

Lemma rederived_refs pkgs vis h h' K ext : rederived pkgs vis h h' → refs_ok h K ext → refs_ok h' K ext.
Proof.
  intros R [Hc Hd]. split.
  - intros p n Hp. pose proof (core_field refcount h h' p core_refcount (rd_core _ _ _ _ R p)) as Hr.
    rewrite Hp in Hr. destruct (h !! p) as [m|] eqn:E; simplify_eq/=. rewrite Hr. eauto.
  - intros p Hp. apply Hd. pose proof (rd_core _ _ _ _ R p) as Hr. rewrite Hp in Hr.
    by destruct (h !! p).
Qed.

Lemma rederived_under pkgs vis h h' p x : rederived pkgs vis h h' → under h p x ↔ under h' p x.
Proof.
  intros R. apply under_ext. intros y. apply core_field; [apply core_parent|apply R].
Qed.

Lemma rederived_iff pkgs (v1 v2 : ptr → Prop) h h' :
  (∀ x, is_Some (h !! x) → v1 x ↔ v2 x) → rederived pkgs v1 h h' → rederived pkgs v2 h h'.
Proof.
  intros Hv [Hc Hs Hco Hw].
  assert (∀ x n, h' !! x = Some n → is_Some (h !! x)) as Hl.
  { intros x n (m & ? & _)%Hw. eauto. }
  split; try done.
  - intros x Hx. destruct (h !! x) eqn:E.
    + rewrite <- E. apply Hs. by rewrite Hv by eauto.
    + pose proof (Hc x) as Hx'. rewrite E in Hx'. by destruct (h' !! x).
  - intros x n q m Hx Hn. apply (Hco x); [|done]. apply (Hv x); [exact (Hl x n Hn)|done].
Qed.

Lemma derive_permissions_locked_ok s par p pn n :
  heap s !! par = Some pn → heap s !! p = Some n →
  wp (derive_permissions_locked par p) (λ _ s',
    s' = set_heap (<[p := derive_node (package_to_appid s) (obb_path s) pn n]> (heap s)) s) s.
Proof.
  intros Hpar Hp. unfold derive_permissions_locked. wp_step. wp_step. wp_step.
  eapply wp_load; [done|]. by eapply wp_update.
Qed.

Lemma rederived_refl pkgs h : rederived pkgs (λ _, False) h h.
Proof. split; [done|done|done|eauto]. Qed.

(** One child [d] of [p] and everything below it, after its older siblings. *)
Lemma rederived_child pkgs obb h0 h1 h2 K D (vis : ptr → Prop) p pn d nd :
  tree_ok h0 K D → h0 !! p = Some pn → d ∈ K p → rederived pkgs vis h0 h1 →
  (∀ x, vis x → ¬ under h0 d x ∧ x ≠ p) →
  (∀ x, under h0 d x → x ≠ p) → ¬ vis p → h1 !! d = Some nd →
  rederived pkgs (below (<[d := derive_node pkgs obb pn nd]> h1) d)
    (<[d := derive_node pkgs obb pn nd]> h1) h2 →
  (∀ x n q, vis x → h1 !! x = Some n → parent n = Some q → ¬ under h0 d q) →
  rederived pkgs (λ x, vis x ∨ under h0 d x) h0 h2.
Proof.
  intros T Hp Hd R1 Hdis Hup Hvp Hnd R2 Hq. set (n1 := derive_node pkgs obb pn nd) in *.
  assert (∀ x, core <$> <[d := n1]> h1 !! x = core <$> h1 !! x) as Hc1.
  { intros x. rewrite lookup_insert. case_decide; subst; [|done].
    rewrite Hnd. unfold n1. simpl. by rewrite core_derive_node. }
  assert (∀ x, core <$> <[d := n1]> h1 !! x = core <$> h0 !! x) as Hc0.
  { intros x. by rewrite Hc1, (rd_core _ _ _ _ R1). }
  assert (∀ y x, under h0 y x ↔ under (<[d := n1]> h1) y x) as Hu.
  { intros y x. apply under_ext. intros z. apply core_field; [apply core_parent|done]. }
  assert (∀ x, ¬ under h0 d x → h2 !! x = h1 !! x) as Hsame.
  { intros x Hx. rewrite (rd_same _ _ _ _ R2) by (intros [? _]; by apply Hx, Hu).
    rewrite lookup_insert_ne; [done|]. intros <-. apply Hx.
    destruct (kid_live T _ _ _ Hp Hd) as [? ?]. by eapply under_refl. }
  assert (h2 !! p = Some pn) as Hp2.
  { rewrite Hsame by (intros Hx; exact (Hup _ Hx eq_refl)).
    by rewrite (rd_same _ _ _ _ R1 p Hvp). }
  split.
  - intros x. by rewrite (rd_core _ _ _ _ R2), Hc0.
  - intros x Hx. rewrite Hsame by tauto. apply R1. tauto.
  - intros x n q m [Hx|Hx] Hn Hpar Hm.
    + destruct (Hdis x Hx) as [Hnd' _]. rewrite Hsame in Hn by done.
      rewrite Hsame in Hm by eauto. by eapply (rd_coh _ _ _ _ R1).
    + destruct (decide (x = d)) as [->|Hxd].
      * rewrite (rd_same _ _ _ _ R2), lookup_insert_eq in Hn by (by intros [_ ?]).
        injection Hn as <-.
        destruct (t_kid _ _ _ T _ _ _ Hp Hd) as (md & Hmd & Hpd).
        assert (parent n1 = Some p) as Hpn1.
        { destruct (core_some h0 (<[d := n1]> h1) d md (Hc0 d) Hmd) as (? & Hl & Hce).
          rewrite lookup_insert_eq in Hl. simplify_eq. by rewrite (core_parent _ _ Hce). }
        simplify_eq. unfold n1. rewrite pinfo_derive_node.
        by rewrite (core_name _ _ (core_derive_node pkgs obb pn nd)).
      * eapply (rd_coh _ _ _ _ R2); [|done..]. split; [by apply Hu|done].
  - intros x n2 Hn2. destruct (rd_wf _ _ _ _ R2 _ _ Hn2) as (m & Hm & Hw).
    apply lookup_insert_Some in Hm as [[<- <-]|[Hne Hm]].
    + destruct (rd_wf _ _ _ _ R1 _ _ Hnd) as (m0 & Hm0 & Hw0). exists m0. split; [done|].
      intros. by apply Hw, wf_derive_node, Hw0.
    + destruct (rd_wf _ _ _ _ R1 _ _ Hm) as (m0 & Hm0 & Hw0). eauto.
Qed.

Lemma heap_size_core (h h' : nodes) : (∀ x, core <$> h' !! x = core <$> h !! x) → size h' = size h.
Proof.
  intros Hc. rewrite <- !size_dom. f_equal. apply set_eq. intros x.
  rewrite !elem_of_dom. pose proof (Hc x) as Hx.
  destruct (h' !! x), (h !! x); simplify_eq/=; split; intros [? ?]; by eauto.
Qed.

(** What the recursive call promises for the children of a node at depth [length l]. *)
Definition derives_below (fuel : nat) (K : ptr → list ptr) (D : gset ptr) : Prop :=
  ∀ s p n l, tree_ok (heap s) K D → heap s !! p = Some n → lineage (heap s) p l →
    (size (heap s) < fuel + length l)%nat →
    wp (derive_permissions_recursive fuel p) (λ _ s', ∃ h', s' = set_heap h' s ∧
      rederived (package_to_appid s) (below (heap s) p) (heap s) h') s.

Lemma derive_siblings_ok fuel K D h0 p pn l : derives_below fuel K D →
  tree_ok h0 K D → h0 !! p = Some pn → lineage h0 p l → (size h0 < fuel + S (length l))%nat →
  ∀ todo visited cur f s,
  K p = visited ++ todo → chain h0 cur todo → (length todo < f)%nat →
  rederived (package_to_appid s) (λ x, ∃ d, d ∈ visited ∧ under h0 d x) h0 (heap s) →
  wp (for_siblings f cur (λ d,
        derive_permissions_locked p d ;;
        n ← load d;
        if decide (child n = None) then mret tt else derive_permissions_recursive fuel d))
    (λ _ s', ∃ h', s' = set_heap h' s ∧
      rederived (package_to_appid s) (λ x, ∃ d, d ∈ K p ∧ under h0 d x) h0 h') s.
Proof.
  intros Hrec T Hp Hl Hsz. induction todo as [|d todo IH]; intros visited cur [|f] s HK Hc Hf R;
    simpl in Hf; try lia.
  { inversion Hc; subst. simpl. wp_step. exists (heap s). rewrite set_heap_id. split; [done|].
    by rewrite HK, app_nil_r. }
  inversion Hc as [|? nd0 ? Hd0 Hc']; subst. simpl.
  assert (d ∈ K p) as HdK by (rewrite HK; set_solver).
  pose proof (t_nodup _ _ _ T _ _ Hp) as Hnd. rewrite HK in Hnd.
  apply NoDup_app in Hnd as (_ & Hvd & _).
  assert (∀ e, e ∈ visited → e ∈ K p ∧ e ≠ d) as Hve.
  { intros e He. rewrite HK. split; [set_solver|]. intros ->. eapply Hvd; [done|left]. }
  assert (¬ ∃ e, e ∈ visited ∧ under h0 e p) as Hvp.
  { intros (e & He & Hu). exact (kid_not_above T _ _ _ Hp (proj1 (Hve e He)) Hu). }
  assert (∀ x, (∃ e, e ∈ visited ∧ under h0 e x) → ¬ under h0 d x ∧ x ≠ p) as Hdis.
  { intros x (e & He & Hu). split; [|intros ->; by eauto]. intros Hu'.
    apply (proj2 (Hve e He)).
    exact (under_disjoint T _ _ _ _ _ Hp (proj1 (Hve e He)) HdK Hu Hu'). }
  assert (∀ x, under h0 d x → x ≠ p) as Hup.
  { intros x Hu ->. exact (kid_not_above T _ _ _ Hp HdK Hu). }
  destruct (core_some h0 (heap s) d nd0 (rd_core _ _ _ _ R d) Hd0) as (nd & Hnd & Hcd).
  assert (heap s !! p = Some pn) as Hps by (by rewrite (rd_same _ _ _ _ R p Hvp)).
  wp_step. apply wp_bind. eapply wp_mono; [by eapply derive_permissions_locked_ok|].
  intros _ s1 ->. cbn beta. set (n1 := derive_node _ _ pn nd).
  set (h1 := <[d := n1]> (heap s)).
  assert (∀ x, core <$> h1 !! x = core <$> h0 !! x) as Hc1.
  { intros x. unfold h1. rewrite lookup_insert. case_decide; subst; [|apply R].
    rewrite Hd0. simpl. unfold n1. by rewrite core_derive_node, Hcd. }
  assert (h1 !! d = Some n1) as Hd1 by apply lookup_insert_eq.
  assert (lineage h1 d (d :: l)) as Hl1.
  { eapply lineage_ext; [|econstructor; [exact Hd0| |exact Hl]].
    - intros x _. apply core_field; [apply core_parent|done].
    - destruct (t_kid _ _ _ T _ _ _ Hp HdK) as (? & ? & ?). congruence. }
  assert (tree_ok h1 K D) as T1.
  { eapply tree_ok_ext; [|exact T]. intros x. apply core_field; [apply core_links|done]. }
  eapply wp_mono with (P := λ _ s', ∃ h2, s' = set_heap h2 s ∧
    rederived (package_to_appid s) (below h1 d) h1 h2).
  { wp_step. eapply wp_load; [by rewrite heap_set_heap|].
    case_decide as Hch.
    - wp_step. exists h1. split; [done|].
      apply (rederived_iff _ (λ _, False)); [|apply rederived_refl].
      intros x _. rewrite (below_kid T1 _ _ _ Hd1), (proj1 (child_none T1 _ _ Hd1)) by done.
      set_solver.
    - eapply wp_mono; [eapply (Hrec _ d n1 (d :: l)); rewrite ?heap_set_heap; try done|].
      + rewrite (heap_size_core h0 h1) by done. simpl. lia.
      + rewrite heap_set_heap. intros _ s' (h2 & -> & R2). exists h2.
        rewrite set_heap_set_heap. split; [done|]. by destruct s. }
  intros _ s2 (h2 & -> & R2). cbn beta.
  assert (rederived (package_to_appid s) (λ x, (∃ e, e ∈ visited ∧ under h0 e x) ∨ under h0 d x) h0 h2) as R'.
  { eapply (rederived_child _ _ h0 (heap s) h2 K D _ p pn d nd T Hp HdK R Hdis Hup Hvp Hnd R2).
    intros x n q Hx Hn Hpar Hu.
    destruct (Hdis x Hx) as [Hx' _]. apply Hx'.
    pose proof (core_field parent h0 (heap s) x core_parent (rd_core _ _ _ _ R x)) as Hpx.
    rewrite Hn in Hpx. destruct (h0 !! x) as [m|] eqn:Em; [|done]. injection Hpx as Hpx.
    apply (under_step _ _ _ q Em); [congruence|done]. }
  assert (∀ x, core <$> h2 !! x = core <$> h0 !! x) as Hc2 by apply R'.
  destruct (core_some h0 h2 d nd0 (Hc2 d) Hd0) as (n2 & Hn2 & Hcn2).
  wp_step. eapply wp_load; [by rewrite heap_set_heap|].
  rewrite (core_next _ _ Hcn2).
  eapply wp_mono; [eapply (IH (visited ++ [d])); [by rewrite HK, <- app_assoc|done|lia|]|].
  { rewrite heap_set_heap. replace (package_to_appid (set_heap h2 s)) with (package_to_appid s) by (by destruct s).
    eapply rederived_iff; [|exact R']. intros x _. set_solver. }
  intros _ s3 (h3 & -> & R3). exists h3. rewrite set_heap_set_heap. split; [done|].
  by destruct s.
Qed.

Lemma derives_below_all fuel K D : derives_below fuel K D.
Proof.
  induction fuel as [|fuel IH]; intros s p pn l T Hp Hl Hsz.
  { pose proof (lineage_length _ _ _ Hl). simpl in Hsz. lia. }
  simpl. wp_step. eapply wp_load; [done|]. wp_step. apply wp_node_fuel.
  pose proof (kids_length T _ _ Hp).
  eapply wp_mono.
  { eapply (derive_siblings_ok _ _ _ (heap s) p pn l IH T Hp Hl ltac:(lia) (K p) []); [done| |lia|].
    - by eapply t_chain.
    - apply (rederived_iff _ (λ _, False)); [|apply rederived_refl]. set_solver. }
  intros _ s' (h' & -> & R). exists h'. split; [done|].
  eapply rederived_iff; [|exact R]. intros x _. by rewrite (below_kid T _ _ _ Hp).
Qed.

Lemma derive_permissions_recursive_locked_ok s K D p n :
  tree_ok (heap s) K D → heap s !! p = Some n →
  wp (derive_permissions_recursive_locked p) (λ _ s', ∃ h', s' = set_heap h' s ∧
    rederived (package_to_appid s) (below (heap s) p) (heap s) h') s.
Proof.
  intros T Hp. destruct (t_lin _ _ _ T _ _ Hp) as [l Hl].
  unfold derive_permissions_recursive_locked. wp_step. apply wp_node_fuel.
  eapply derives_below_all; [done..|].
  destruct (lineage_head _ _ _ Hl) as [? ->]. simpl. lia.
Qed.
End derive.
