(* ===== verification/FuseGraph.v ===== *)
(** * sdcard: the graph operations against the invariant

    Lookups, creation and renaming of nodes, and the case-insensitive search of
    the storage, each with its functional specification and the preservation of
    [Graph]. *)

From S2P Require Import Prelude CMonad FuseTypes FuseState FuseNode FuseTree FuseRefs FuseHandlers FuseInv FuseDerive.

Section graph.
Context {W : Type} `{!FuseAbi, !AndroidIds, !Os W, !OsOk W}.
Implicit Types s : fs W.

(** What the graph operations leave alone. *)
Record quiet s s' : Prop := mk_quiet {
  q_locked : locked s' = locked s;
  q_packages : package_to_appid s' = package_to_appid s;
  q_obb : obb_path s' = obb_path s;
  q_handles : handles s' = handles s;
  q_out : out s' = out s;
  q_log : log s' = log s
}.

#[export] Instance quiet_preorder : PreOrder quiet.
Proof.
  split.
  - intros s. by split.
  - intros s1 s2 s3 [] []. split; congruence.
Qed.

Lemma quiet_set_heap h s : quiet s (set_heap h s).
Proof. by destruct s. Qed.
Lemma quiet_set_world w s : quiet s (set_world w s).
Proof. by destruct s. Qed.
Lemma quiet_set_counters a b s : quiet s (set_counters a b s).
Proof. by destruct s. Qed.

(** ** Paths and lookups *)

Definition has_path (h : nodes) (p : ptr) (path : string) : Prop :=
  ∃ l ns, lineage h p l ∧ lineage_nodes h l ns ∧ path = node_path ns.

Lemma lineage_nodes_fun h l ns1 ns2 : lineage_nodes h l ns1 → lineage_nodes h l ns2 → ns1 = ns2.
Proof.
  intros L1. revert ns2. induction L1; intros ns2 L2; inversion L2; simplify_eq; f_equal; eauto.
Qed.

Lemma has_path_fun h p a b : has_path h p a → has_path h p b → a = b.
Proof.
  intros (l1 & n1 & L1 & N1 & ->) (l2 & n2 & L2 & N2 & ->).
  rewrite (lineage_fun _ _ _ _ L1 L2) in N1. by rewrite (lineage_nodes_fun _ _ _ _ N1 N2).
Qed.

Lemma has_path_exists h K D p n : tree_ok h K D → h !! p = Some n → ∃ path, has_path h p path.
Proof.
  intros T Hp. destruct (t_lin _ _ _ T _ _ Hp) as [l Hl].
  destruct (lineage_nodes_exist _ _ _ Hl) as [ns Hns]. by eexists _, l, ns.
Qed.

Lemma get_node_path_locked_ok s p path bufsize :
  (∀ p n, heap s !! p = Some n → node_wf p n) → has_path (heap s) p path →
  wp (get_node_path_locked p bufsize) (λ r s', s' = s ∧
    r = if slen path <? bufsize then Some (slen path, path) else None) s.
Proof.
  intros Hw (l & ns & Hl & Hns & ->). unfold get_node_path_locked. wp_step. apply wp_node_fuel.
  eapply get_node_path_ok; [done..|]. pose proof (lineage_length _ _ _ Hl). lia.
Qed.

Lemma lookup_node_and_path_ok s nodeid p path bufsize :
  (∀ p n, heap s !! p = Some n → node_wf p n) →
  lookup_node_by_id_locked nodeid = Some p → has_path (heap s) p path →
  wp (lookup_node_and_path_by_id_locked nodeid bufsize) (λ r s', s' = s ∧
    r = if slen path <? bufsize then Some (p, path) else None) s.
Proof.
  intros Hw Hid Hp. unfold lookup_node_and_path_by_id_locked. rewrite Hid.
  wp_step. eapply wp_mono; [by eapply get_node_path_locked_ok|].
  intros r s' [-> ->]. wp_step. split; [done|]. by destruct (slen path <? bufsize).
Qed.

(** The identifier of a live node resolves to it. *)
Lemma lookup_node_by_id_self p n :
  node_wf p n → lookup_node_by_id_locked (nid n) = Some p.
Proof.
  intros Hw. rewrite (w_nid _ _ Hw). unfold lookup_node_by_id_locked, id_of_ptr.
  destruct p as [|a]; [by rewrite Z.eqb_refl|].
  destruct (w_addr _ _ Hw a eq_refl) as [Ha Hne].
  rewrite (proj2 (Z.eqb_neq _ _)) by done. unfold id_to_ptr.
  rewrite wrap_small by (unfold in_width; lia). by rewrite (proj2 (Z.eqb_neq _ _)) by lia.
Qed.

(** The child of that name that is not deleted, in list order. *)
Fixpoint find_child (h : nodes) (nm : string) (l : list ptr) : option ptr :=
  match l with
  | [] => None
  | p :: l' =>
      match h !! p with
      | Some n => if streq nm (str (name n)) && negb (deleted n) then Some p else find_child h nm l'
      | None => None
      end
  end.

Lemma find_child_some h nm l c :
  find_child h nm l = Some c →
  c ∈ l ∧ ∃ m, h !! c = Some m ∧ str (name m) = nm ∧ deleted m = false.
Proof.
  induction l as [|p l IH]; simpl; [done|]. destruct (h !! p) as [m|] eqn:Hp; [|done].
  destruct (streq _ _) eqn:Hs, (deleted m) eqn:Hd; simpl.
  2:{ intros [= <-]. apply streq_true in Hs. split; [left|]. by exists m. }
  all: intros [? ?]%IH; split; [by right|done].
Qed.

Lemma find_child_none h nm l :
  (∀ p, p ∈ l → is_Some (h !! p)) → find_child h nm l = None →
  ∀ c m, c ∈ l → h !! c = Some m → str (name m) = nm → deleted m = true.
Proof.
  induction l as [|p l IH]; simpl; [set_solver|]. intros Hl Hf c m Hc Hm Hn.
  destruct (Hl p ltac:(left)) as [mp Hp]. rewrite Hp in Hf.
  destruct (streq nm (str (name mp)) && negb (deleted mp)) eqn:E; [done|].
  apply elem_of_cons in Hc as [->|Hc].
  - simplify_eq. rewrite streq_refl in E. by destruct (deleted m).
  - eapply IH; [|done..]. intros q Hq. apply Hl. by right.
Qed.

Lemma lookup_sibling_ok s nm l : ∀ cur fuel,
  chain (heap s) cur l → (length l < fuel)%nat →
  wp (lookup_sibling fuel cur nm) (λ r s', s' = s ∧ r = find_child (heap s) nm l) s.
Proof.
  induction l as [|p l IH]; intros cur [|fuel] Hc Hf; simpl in Hf; try lia.
  - inversion Hc; subst. simpl. by wp_step.
  - inversion Hc as [|? n ? Hp Hc']; subst. simpl. wp_step. eapply wp_load; [done|].
    rewrite Hp. destruct (streq _ _ && _); [by wp_step|]. apply IH; [done|lia].
Qed.

Lemma lookup_child_by_name_locked_ok s K D p n nm :
  tree_ok (heap s) K D → heap s !! p = Some n →
  wp (lookup_child_by_name_locked p nm) (λ r s', s' = s ∧ r = find_child (heap s) nm (K p)) s.
Proof.
  intros T Hp. unfold lookup_child_by_name_locked. wp_step. eapply wp_load; [done|].
  wp_step. apply wp_node_fuel. apply lookup_sibling_ok; [by eapply t_chain|].
  pose proof (kids_length T _ _ Hp). lia.
Qed.

(** ** The case-insensitive search *)

Lemma substring_full a n : n = String.length a → String.substring 0 n a = a.
Proof. intros ->. induction a as [|c a IH]; [done|]. simpl. by rewrite IH. Qed.

Lemma scan_dir_ok nm d : ∀ fuel s actual,
  (os_dir_left (world s) d < fuel)%nat → strcaseeq actual nm = true →
  wp (scan_dir fuel d nm actual) (λ r s', only_world s s' ∧ log s' = log s ∧
    strcaseeq r nm = true) s.
Proof.
  induction fuel as [|fuel IH]; intros s actual Hf Ha; [lia|]. simpl.
  wp_step. apply wp_sys. intros [e|] w Hr; [|by wp_step; destruct s].
  pose proof (readdir_left _ _ _ _ Hr).
  destruct (strcaseeq (d_name e) nm) eqn:Hc.
  - wp_step. rewrite substring_full.
    + by destruct s.
    + apply strcaseeq_length in Hc. unfold slen in Hc. lia.
  - eapply wp_mono; [apply (IH (set_world w s) actual); [destruct s; simpl in *; lia|done]|].
    intros r s' (? & Hl & ?). split; [|split; [|done]].
    + etrans; [apply only_world_set_world|done].
    + rewrite Hl. by destruct s.
Qed.

(** The result fits the buffer, and is the parent's path and a name equal to
    the requested one up to case. *)
Definition found_within (path nm : string) (bufsize : Z) (r : option (string * string)) : Prop :=
  match r with
  | None => bufsize <= slen path + slen nm + 1
  | Some (actual, child_path) =>
      strcaseeq actual nm = true ∧ child_path = path +:+ "/" +:+ actual ∧
      slen child_path < bufsize
  end.

Lemma find_file_within_ok s path nm bufsize search :
  wp (find_file_within path nm bufsize search) (λ r s', only_world s s' ∧ log s' = log s ∧
    found_within path nm bufsize r ∧
    (search = false → ∀ a c, r = Some (a, c) → a = nm)) s.
Proof.
  unfold find_file_within. destruct (Z.leb_spec bufsize (slen path + slen nm + 1)).
  { wp_step. by split_and!. }
  assert (∀ a, strcaseeq a nm = true →
    found_within path nm bufsize (Some (a, path +:+ "/" +:+ a))) as Hok.
  { intros a Ha. split; [done|]. split; [done|]. rewrite !slen_app.
    rewrite (strcaseeq_length _ _ Ha). change (slen "/") with 1. lia. }
  destruct search.
  2:{ wp_step. split_and!; [done..|by apply Hok, strcaseeq_refl|]. by intros _ ? ? [= ->]. }
  wp_step. apply wp_sys. intros found w1 _. destruct found.
  { wp_step. split_and!; [by destruct s..|by apply Hok, strcaseeq_refl|done]. }
  wp_step. apply wp_sys. intros [d|e] w2 _.
  2:{ wp_step. split_and!; [by destruct s..|by apply Hok, strcaseeq_refl|done]. }
  wp_step. apply wp_get. wp_step. eapply wp_mono; [apply scan_dir_ok; [lia|apply strcaseeq_refl]|].
  intros actual s' (Hw & Hl & Ha). wp_step. apply wp_sys_. wp_step.
  split_and!; [| |by apply Hok|done].
  - transitivity (set_world w2 (set_world w1 s)); [by destruct s|].
    etrans; [exact Hw|apply only_world_set_world].
  - transitivity (log s'); [by destruct s'|]. rewrite Hl. by destruct s.
Qed.
End graph.
