(* ===== verification/FuseMutate.v ===== *)
(** * sdcard: creating, moving and releasing nodes

    The operations that change the node graph, lifted from its shape
    ([FuseTree], [FuseRefs]) to the whole of [Graph]. *)

From S2P Require Import Prelude CMonad FuseTypes FuseState FuseNode FuseTree FuseRefs FuseHandlers FuseInv FuseDerive FuseGraph.

(** Everything but the reference count and the links. *)
Definition body (n : node) : node := set_parent None (payload n).

Section body.
Implicit Types n m : node.

Lemma body_set_refcount v n : body (set_refcount v n) = body n.
Proof. by destruct n. Qed.
Lemma body_set_next v n : body (set_next v n) = body n.
Proof. by destruct n. Qed.
Lemma body_set_child v n : body (set_child v n) = body n.
Proof. by destruct n. Qed.
Lemma body_set_parent v n : body (set_parent v n) = body n.
Proof. by destruct n. Qed.
Lemma body_payload n m : payload n = payload m → body n = body m ∧ parent n = parent m.
Proof.
  intros E. split; [unfold body; by rewrite E|].
  apply (f_equal parent) in E. by destruct n, m.
Qed.
Lemma body_pinfo n m : body n = body m → pinfo_of n = pinfo_of m.
Proof. intros E%(f_equal pinfo_of). by destruct n, m. Qed.
Lemma body_name n m : body n = body m → name n = name m.
Proof. intros E%(f_equal name). by destruct n, m. Qed.
Lemma body_ino n m : body n = body m → ino n = ino m.
Proof. intros E%(f_equal ino). by destruct n, m. Qed.
Lemma body_gen n m : body n = body m → gen n = gen m.
Proof. intros E%(f_equal gen). by destruct n, m. Qed.
Lemma body_deleted n m : body n = body m → deleted n = deleted m.
Proof. intros E%(f_equal deleted). by destruct n, m. Qed.
Lemma body_actual n m : body n = body m → actual_name n = actual_name m.
Proof. intros E%(f_equal actual_name). by destruct n, m. Qed.
Lemma body_nid n m : body n = body m → nid n = nid m.
Proof. intros E%(f_equal nid). by destruct n, m. Qed.
End body.

#[export] Hint Rewrite body_set_refcount body_set_next body_set_child body_set_parent : node_fields.
#[global] Arguments body : simpl never.

Section mutate.
Context {W : Type} `{!FuseAbi, !AndroidIds, !Os W, !OsOk W}.
Implicit Types s : fs W.

Lemma node_wf_body p n m : body n = body m → node_wf p n → node_wf p m.
Proof.
  intros E. assert (node_wf p (body n) ↔ node_wf p n) as Hn.
  { clear. destruct n. by split; intros []. }
  assert (node_wf p (body m) ↔ node_wf p m) as Hm.
  { clear. destruct m. by split; intros []. }
  by rewrite <- Hn, <- Hm, E.
Qed.

(** [h'] has some of the nodes of [h], with the same bodies; they may have
    lost their parents. *)
Definition thinner (h h' : nodes) : Prop := ∀ x m', h' !! x = Some m' →
  ∃ m, h !! x = Some m ∧ body m' = body m ∧ (parent m' = None ∨ parent m' = parent m).

#[export] Instance thinner_preorder : PreOrder thinner.
Proof.
  split.
  - intros h x m. eauto.
  - intros h1 h2 h3 H12 H23 x m3 (m2 & Hm2 & Hb2 & Hp2)%H23.
    destruct (H12 _ _ Hm2) as (m1 & Hm1 & Hb1 & Hp1). exists m1. split; [done|].
    split; [congruence|]. destruct Hp2 as [|Hp2]; [auto|]. rewrite Hp2. auto.
Qed.

Lemma released_thinner Z v v' K K' : released Z v v' K K' → thinner v v'.
Proof.
  intros R x m' (m & Hm & [? ?]%body_payload)%(rel_pay _ _ _ _ _ R). eauto.
Qed.

Lemma unlinked_thinner h l1 n par : thinner h (unlinked h l1 n par).
Proof.
  intros x m'. unfold unlinked. destruct (last l1) as [a|]; rewrite lookup_alter_Some;
    intros [(-> & m & ? & ->)|[? ?]]; eauto; exists m; nf; eauto.
Qed.

Lemma detached_thinner h l1 p n par : h !! p = Some n → thinner h (detached h l1 p n par).
Proof.
  unfold detached. intros Hp x m' [[<- <-]|[? Hm]]%lookup_insert_Some.
  - exists n. nf. auto.
  - by eapply unlinked_thinner.
Qed.

Lemma Graph_thinner s h' K D X ext K' D' X' ext' :
  Graph s K D X ext → thinner (heap s) h' → tree_ok h' K' D' → refs_ok h' K' ext' →
  (∀ x n, x ∈ X → x ∉ X' → h' !! x = Some n → parent n = None) →
  Graph (set_heap h' s) K' D' X' ext'.
Proof.
  intros [T R Hw [Hr Hu Hi] Hc] Ht T' R' HX.
  split; rewrite ?heap_set_heap; try done.
  - intros p n (m & Hm & Hb & _)%Ht. eapply node_wf_body; [done|by apply Hw].
  - replace (inode_ctr (set_heap h' s)) with (inode_ctr s) by (by destruct s). split; [done| |].
    + intros p n (m & Hm & Hb & _)%Ht. rewrite (body_ino _ _ Hb). eauto.
    + intros p q n n' (m & Hm & Hb & _)%Ht (m' & Hm' & Hb' & _)%Ht.
      rewrite (body_ino _ _ Hb), (body_ino _ _ Hb'). eauto.
  - replace (package_to_appid (set_heap h' s)) with (package_to_appid s) by (by destruct s).
    intros p n q m HpX Hp Hn Hq.
    destruct (decide (p ∈ X)) as [HX'|HX'].
    { pose proof (HX _ _ HX' HpX Hp). congruence. }
    destruct (Ht _ _ Hp) as (n0 & Hn0 & Hb & [Hpar|Hpar]); [congruence|].
    destruct (Ht _ _ Hq) as (m0 & Hm0 & Hb' & _).
    rewrite (body_pinfo _ _ Hb), (body_pinfo _ _ Hb'), (body_name _ _ Hb).
    apply (Hc p n0 q m0); [done|done|congruence|done].
Qed.

(** *** Taking and dropping references *)

Lemma Graph_acquire s K D X ext p n :
  Graph s K D X ext → heap s !! p = Some n → refcount n + 1 < 2 ^ 32 →
  wp (acquire_node_locked p) (λ _ s', ∃ h', s' = set_heap h' s ∧
    h' = <[p := set_refcount (refcount n + 1) n]> (heap s) ∧ Graph s' K D X (inc p ext)) s.
Proof.
  intros G Hp Hb. eapply wp_mono; [eapply acquire_node_locked_ok; [apply G|apply G|done|done]|].
  intros _ s' (h' & -> & Hh & T' & R'). exists h'. split; [done|]. split; [done|].
  eapply Graph_thinner; [done| |done|done|by intros].
  subst h'. intros x m [[<- <-]|[? ?]]%lookup_insert_Some; [|eauto].
  exists n. nf. destruct n; simpl in *; auto.
Qed.

Lemma Graph_release s K D X ext p l :
  Graph s K D X ext → lineage (heap s) p l → Root ∈ l → 1 <= ext p → 1 <= dec p ext Root →
  wp (release_node_locked p) (λ _ s', ∃ h' K', s' = set_heap h' s ∧
    Graph s' K' D X (dec p ext) ∧ released ∅ (heap s) h' K K') s.
Proof.
  intros G Hl HR He HeR.
  eapply wp_mono; [eapply release_node_locked_ok; [apply G|apply G|done..]|].
  intros _ s' (h' & K' & -> & T' & R' & Rel). exists h', K'. split; [done|]. split; [|done].
  eapply Graph_thinner; [done|by eapply released_thinner|done|done|by intros].
Qed.

Lemma Graph_remove s K X ext p par n l1 l2 l' :
  Graph s K ∅ X ext → heap s !! p = Some n → parent n = Some par → K par = l1 ++ p :: l2 →
  lineage (heap s) p (p :: l') → Root ∈ l' → 1 <= ext Root →
  wp (remove_node_from_parent_locked p) (λ _ s', ∃ h' K', s' = set_heap h' s ∧
    Graph s' K' {[p]} (X ∖ {[p]}) ext ∧
    h' !! p = Some (set_next None (set_parent None n)) ∧
    released {[p]} (detached (heap s) l1 p n par) h' (<[par := l1 ++ l2]> K) K') s.
Proof.
  intros G Hp Hpar HK Hl HR He.
  eapply wp_mono; [eapply remove_node_from_parent_locked_ok; [apply G|apply G|done..]|].
  intros _ s' (h' & K' & -> & T' & R' & Hp' & Rel). exists h', K'. split; [done|].
  split; [|done]. eapply Graph_thinner; [done| |done|done|].
  - etrans; [by apply detached_thinner|by eapply released_thinner].
  - intros x m HX HX' Hx. destruct (decide (x = p)) as [->|]; [|set_solver].
    rewrite Hp' in Hx. simplify_eq. by nf.
Qed.

(** *** Attaching *)

Lemma Graph_add s K D X ext p n par pn l :
  Graph s K D X ext → p ∈ D → heap s !! p = Some n → heap s !! par = Some pn →
  lineage (heap s) par l → p ∉ l → refcount pn + 1 < 2 ^ 32 →
  pinfo_of n = derive_pinfo (package_to_appid s) (pinfo_of pn) (str (name n)) →
  wp (add_node_to_parent_locked p par) (λ _ s', ∃ h', s' = set_heap h' s ∧
    h' = <[par := set_refcount (refcount pn + 1) (set_child (Some p) pn)]>
           (<[p := set_next (child pn) (set_parent (Some par) n)]> (heap s)) ∧
    Graph s' (<[par := p :: K par]> K) (D ∖ {[p]}) X ext) s.
Proof.
  intros [T R Hw [Hr Hu Hi] Hc] HD Hp Hpn Hl Hpl Hb Hpi.
  eapply wp_mono; [by eapply add_node_to_parent_locked_ok|].
  intros _ s' (h' & -> & Hh & T' & R'). exists h'. split; [done|]. split; [done|].
  assert (par ≠ p) as Hne.
  { intros ->. apply Hpl. apply lineage_head in Hl as [? ->]. left. }
  assert (∀ x m', h' !! x = Some m' → ∃ m, heap s !! x = Some m ∧ body m' = body m ∧
    (x = p ∨ parent m' = parent m)) as Hb'.
  { intros x m'. rewrite Hh, !lookup_insert_Some.
    intros [[<- <-]|[? [[<- <-]|[? ?]]]]; [exists pn|exists n|exists m']; nf; eauto. }
  split; rewrite ?heap_set_heap; try done.
  - intros x m' (m & Hm & Hbm & _)%Hb'. eapply node_wf_body; [done|]. by apply Hw.
  - replace (inode_ctr (set_heap h' s)) with (inode_ctr s) by (by destruct s). split; [done| |].
    + intros x m' (m & Hm & Hbm & _)%Hb'. rewrite (body_ino _ _ Hbm). eauto.
    + intros x y n1 n2 (m1 & Hm1 & Hbm1 & _)%Hb' (m2 & Hm2 & Hbm2 & _)%Hb'.
      rewrite (body_ino _ _ Hbm1), (body_ino _ _ Hbm2). eauto.
  - replace (package_to_appid (set_heap h' s)) with (package_to_appid s) by (by destruct s).
    intros x m' q mq' HX Hx Hpar Hq.
    destruct (Hb' _ _ Hx) as (m & Hm & Hbm & Hpm), (Hb' _ _ Hq) as (mq & Hmq & Hbq & _).
    rewrite (body_pinfo _ _ Hbm), (body_pinfo _ _ Hbq), (body_name _ _ Hbm).
    destruct (decide (x = p)) as [->|Hxp].
    + rewrite Hh, lookup_insert_ne, lookup_insert_eq in Hx by done. simplify_eq. nf. by simplify_eq.
    + destruct Hpm as [|Hpm]; [done|]. apply (Hc x m q mq); [done|done|congruence|done].
Qed.

(** *** Creating a node *)

(** The new node as [create_node_locked] links it in. *)
Definition created (s : fs W) (a : Z) (pn : node) (nm : string) (an : option cbuf) : node :=
  set_refcount 1 (derive_node (package_to_appid s) (obb_path s) pn
    (fresh_node a (inode_ctr s) (next_generation s) (slen nm) (mk_cbuf (slen nm + 1) nm) an)).

Lemma body_created s a pn nm an :
  let n := created s a pn nm an in
  name n = mk_cbuf (slen nm + 1) nm ∧ ino n = inode_ctr s ∧ gen n = next_generation s ∧
  deleted n = false ∧ links n = (None, None, None) ∧ refcount n = 1 ∧
  pinfo_of n = derive_pinfo (package_to_appid s) (pinfo_of pn) nm.
Proof.
  unfold created, derive_node. cbn -[derive_graft derive_pinfo].
  destruct (derive_pinfo _ _ _). unfold derive_graft. destruct (perm pn); try done. by case_match.
Qed.

Lemma wf_created s a pn nm an :
  0 < a < 2 ^ UINTPTR_BITS → a ≠ FUSE_ROOT_ID →
  (∀ b, an = Some b → slen (str b) = slen nm ∧ slen nm < blk b) →
  node_wf (Heap a) (created s a pn nm an).
Proof.
  intros Ha Hr Han. unfold created. eapply node_wf_body; [symmetry; apply body_set_refcount|].
  apply wf_derive_node. split; simpl; try done; [lia|by intros ? [= <-]].
Qed.

Lemma inodes_ok_insert h ctr p n :
  inodes_ok h ctr → h !! p = None → p ≠ Root → ctr ≠ 0 → ino n = ctr →
  (∀ r, h !! Root = Some r → ino r = 0) → is_Some (h !! Root) →
  inodes_ok (<[p := n]> h) (u32 (ctr + 1)).
Proof.
  intros [Hr Hu Hi] Hp HpR Hc Hn Hroot [r0 Hr0].
  assert (∀ q m, h !! q = Some m → ino m ≠ ctr) as Hlt.
  { intros q m Hq. destruct (decide (q = Root)) as [->|HqR].
    - rewrite (Hroot _ Hq). done.
    - destruct (Hu _ _ Hq HqR) as [_ ?]. lia. }
  split.
  - by apply wrap_in_width.
  - assert (u32 (ctr + 1) ≠ 0 → u32 (ctr + 1) = ctr + 1) as Hw.
    { intros Hne. unfold wrap in *. destruct (decide (ctr + 1 < 2 ^ 32)); [by apply Z.mod_small; lia|].
      replace (ctr + 1) with (2 ^ 32) in * by lia. by rewrite Z_mod_same_full in Hne. }
    intros q m [[<- <-]|[? Hq]]%lookup_insert_Some HqR; [lia|].
    destruct (Hu _ _ Hq HqR). lia.
  - intros q1 q2 m1 m2 [[<- <-]|[? Hq1]]%lookup_insert_Some [[<- <-]|[? Hq2]]%lookup_insert_Some He;
      [done| | |by eapply Hi].
    + exfalso. eapply Hlt; [exact Hq2|congruence].
    + exfalso. eapply Hlt; [exact Hq1|congruence].
Qed.

Lemma Graph_insert s K D X ext a pn nm an :
  Graph s K D X ext → inode_ctr s ≠ 0 → heap s !! Heap a = None →
  0 < a < 2 ^ UINTPTR_BITS → a ≠ FUSE_ROOT_ID →
  (∀ b, an = Some b → slen (str b) = slen nm ∧ slen nm < blk b) →
  Graph (set_counters (u64 (next_generation s + 1)) (u32 (inode_ctr s + 1))
           (set_heap (<[Heap a := created s a pn nm an]> (heap s)) s))
    (<[Heap a := []]> K) ({[Heap a]} ∪ D) X (inc (Heap a) ext).
Proof.
  intros [T R Hw Hi Hc] Hctr Ha Hrng Hroot Han.
  destruct (body_created s a pn nm an) as (Hname & Hino & _ & _ & Hlinks & Hrc & _).
  pose proof (wf_created s a pn nm an Hrng Hroot Han) as Hwf.
  set (n := created s a pn nm an) in *.
  assert (∀ s' : fs W, heap (set_counters (u64 (next_generation s + 1)) (u32 (inode_ctr s + 1)) s') = heap s'
    ∧ inode_ctr (set_counters (u64 (next_generation s + 1)) (u32 (inode_ctr s + 1)) s') = u32 (inode_ctr s + 1)
    ∧ package_to_appid (set_counters (u64 (next_generation s + 1)) (u32 (inode_ctr s + 1)) s') = package_to_appid s')
    as Hs by (by intros []).
  split; rewrite ?(proj1 (Hs _)), ?(proj1 (proj2 (Hs _))), ?(proj2 (proj2 (Hs _))), ?heap_set_heap.
  - by apply insert_ok.
  - split.
    + intros q m [[<- <-]|[? Hq]]%lookup_insert_Some.
      * rewrite fn_lookup_insert, inc_eq, (r_dead _ _ _ R _ Ha). simpl. lia.
      * rewrite fn_lookup_insert_ne, inc_ne by done. by apply (r_count _ _ _ R).
    + intros q [Hq ?]%lookup_insert_None. rewrite inc_ne by done. by apply (r_dead _ _ _ R).
  - intros q m [[<- <-]|[? Hq]]%lookup_insert_Some; [done|by apply Hw].
  - apply inodes_ok_insert; try done.
    + intros r Hr. by apply (w_ino _ _ (Hw _ _ Hr)).
    + destruct (t_root _ _ _ T) as (r & ? & _). eauto.
  - replace (package_to_appid (set_heap _ s)) with (package_to_appid s) by (by destruct s).
    intros q m q' m' HX Hq Hm Hq'. unfold links in Hlinks.
    apply lookup_insert_Some in Hq as [[<- <-]|[? Hq]]; [congruence|].
    apply lookup_insert_Some in Hq' as [[<- <-]|[? Hq']]; [|by eapply Hc].
    destruct (t_par _ _ _ T _ _ _ Hq Hm) as [[? ?] _]. congruence.
Qed.
End mutate.
