(* ===== verification/FuseMove.v ===== *)
(** * sdcard: node creation, lookup-or-create, and moving a node

    The last is [rename_commit], the locked end of a rename. *)

From S2P Require Import Prelude CMonad FuseTypes FuseState FuseNode FuseTree FuseRefs FuseHandlers FuseInv.
From S2P Require Import FuseDerive FuseGraph FuseMutate.

Section create.
Context {W : Type} `{!FuseAbi, !AndroidIds, !Os W, !OsOk W}.
Implicit Types s : fs W.

Lemma malloc_str_ok s nm src (Q : option cbuf → fs W → Prop) :
  slen src = slen nm →
  (∀ w, Q None (set_world w s)) →
  (∀ w, Q (Some (mk_cbuf (slen nm + 1) src)) (set_world w s)) →
  wp (malloc_str (slen nm) src) Q s.
Proof.
  intros Hl H1 H2. unfold malloc_str. wp_step. apply wp_malloc. intros [a|] w _.
  - rewrite Hl. wp_step. apply wp_require; [apply Z.eqb_refl|]. by wp_step.
  - by wp_step.
Qed.

Lemma single_difference (p : ptr) : ({[p]} ∪ ∅) ∖ {[p]} =@{gset ptr} ∅.
Proof. set_solver. Qed.

Lemma refcount_derive_node pkgs obb pn n : refcount (derive_node pkgs obb pn n) = refcount n.
Proof. apply core_refcount, core_derive_node. Qed.

Lemma root_in_lineage h K p l : tree_ok h K ∅ → lineage h p l → Root ∈ l.
Proof.
  intros T Hl. induction Hl as [p n Hp Hn|p n q l Hp Hn Hl IH]; [|by right].
  destruct (t_top _ _ _ T _ _ Hp Hn) as [->|]; [left|set_solver].
Qed.

(** What [create_node_locked] and [acquire_or_create_child_locked] promise:
    on failure nothing but the operating system changed; on success the child
    of that name, with one more external reference. *)
Definition child_result s (par : ptr) (nm : string) (ext : refmap)
    (r : option ptr) (s' : fs W) : Prop :=
  quiet s s' ∧ next_generation s' = (if decide (inode_ctr s' = inode_ctr s) then next_generation s
                                   else u64 (next_generation s + 1)) ∧
  match r with
  | None => same_graph s s'
  | Some p => p ≠ Root ∧ ∃ K' n, Graph s' K' ∅ ∅ (inc p ext) ∧ heap s' !! p = Some n ∧
      str (name n) = nm ∧ parent n = Some par ∧ deleted n = false ∧
      (∀ q m, heap s !! q = Some m → ∃ m', heap s' !! q = Some m' ∧ body m' = body m ∧
         parent m' = parent m)
  end.

Lemma create_node_locked_ok s K ext par pn nm actual :
  Graph s K ∅ ∅ ext → heap s !! par = Some pn → slen actual = slen nm →
  refcount pn + 1 < 2 ^ 32 →
  wp (create_node_locked par nm actual) (λ r s', child_result s par nm ext r s' ∧
    ∀ p, r = Some p → heap s !! p = None ∧ ∀ n, heap s' !! p = Some n →
      ino n = inode_ctr s ∧ gen n = next_generation s) s.
Proof.
  intros G Hpar Hlen Hrc. unfold create_node_locked. wp_step. wp_step.
  assert (∀ w, child_result s par nm ext None (set_world w s)) as Hnone.
  { intros w. destruct s; split_and!; try done. simpl. by rewrite decide_True. }
  destruct (Z.eqb_spec (inode_ctr s) 0) as [|Hctr].
  { wp_step. split; [|done]. rewrite <- (λ s : fs W, ltac:(by destruct s) : set_world (world s) s = s). auto. }
  wp_step. apply wp_malloc. intros [a|] w Hm; [|wp_step; split; [auto|done]].
  destruct (malloc_fresh _ _ _ _ _ Hm) as (Hfresh & Hrng & Hroot).
  assert (heap s !! Heap a = None) as Ha.
  { apply eq_None_not_Some. intros Hs. apply Hfresh. unfold live_addrs.
    apply elem_of_union_l, elem_of_list_to_set, list_elem_of_bind. exists (Heap a).
    split; [left|]. by apply elem_of_elements, elem_of_dom. }
  wp_step. apply malloc_str_ok; [done|by intros w2; wp_step; split; [destruct s; apply (Hnone w2)|]|].
  intros w2. wp_step.
  eapply wp_mono with (P := λ r s', (∃ w3, s' = set_world w3 s) ∧
    match r with None => True | Some an => ∀ b, an = Some b → slen (str b) = slen nm ∧ slen nm < blk b end).
  { destruct (streq nm actual); [wp_step; split; [eexists; by destruct s|done]|].
    wp_step. apply malloc_str_ok; [done|..]; intros w3; wp_step; (split; [eexists; by destruct s|]);
      simpl; [done|]. intros b [= <-]. simpl. lia. }
  intros [an|] s3 [[w3 ->] Han]; [|wp_step; split; [auto|done]].
  assert (Graph (set_world w3 s) K ∅ ∅ ext) as G3.
  { eapply Graph_same; [|exact G]. by destruct s. }
  replace (heap s) with (heap (set_world w3 s)) in Hpar, Ha by (by destruct s).
  replace (inode_ctr s) with (inode_ctr (set_world w3 s)) in Hctr by (by destruct s).
  pose proof (Graph_insert _ _ _ _ _ a pn nm an G3 Hctr Ha Hrng Hroot Han) as G4.
  set (s3 := set_world w3 s) in *.
  set (s4 := set_counters _ _ _) in G4.
  assert (heap s4 = <[Heap a := created s3 a pn nm an]> (heap s3)) as Hh4 by (by destruct s).
  assert (par ≠ Heap a) as Hne by congruence.
  destruct (body_created s3 a pn nm an) as (Hname & Hino & Hgen & Hdel & Hlinks & _ & Hpi).
  destruct (t_lin _ _ _ (g_tree _ _ _ _ _ G3) _ _ Hpar) as [l Hl].
  wp_step. apply wp_get. wp_step. apply wp_modify. wp_step. apply wp_modify.
  wp_step. match goal with |- wp _ _ ?st => set (st3 := st) end.
  assert (heap st3 = <[Heap a := fresh_node a (inode_ctr s3) (next_generation s3) (slen nm)
    (mk_cbuf (slen nm + 1) nm) an]> (heap s3)) as Hst by (by destruct s).
  eapply wp_mono.
  { eapply (derive_permissions_locked_ok st3 par (Heap a) pn).
    - rewrite Hst. by rewrite lookup_insert_ne.
    - rewrite Hst. apply lookup_insert_eq. }
  intros _ s5 ->. wp_step. eapply wp_update; [rewrite heap_set_heap; apply lookup_insert_eq|].
  match goal with |- wp _ _ ?st => assert (st = s4) as -> end.
  { unfold st3, s4, s3, created. destruct s; simpl. rewrite !insert_insert_eq. f_equal. f_equal.
    by rewrite refcount_derive_node. }
  wp_step. eapply wp_mono.
  { eapply (Graph_add s4 _ _ _ _ (Heap a) _ par pn l G4); rewrite ?Hh4.
    - set_solver.
    - apply lookup_insert_eq.
    - by rewrite lookup_insert_ne.
    - eapply lineage_ext; [|exact Hl]. intros x Hx. rewrite lookup_insert_ne; [done|].
      intros <-. destruct (lineage_live _ _ _ _ Hl Hx). congruence.
    - intros Hx. destruct (lineage_live _ _ _ _ Hl Hx). congruence.
    - done.
    - rewrite Hpi, Hname. by destruct s. }
  intros _ s6 (h6 & -> & Hh6 & G6). wp_step.
  assert (heap s3 = heap s ∧ inode_ctr s3 = inode_ctr s ∧ next_generation s3 = next_generation s)
    as (Hs1 & Hs2 & Hs3) by (by destruct s).
  rewrite Hh4, Hs1 in Hh6.
  split; [split; [|split; [|split; [done|]]]|].
  - by destruct s.
  - rewrite decide_False; [by destruct s|].
    intros E. assert (u32 (inode_ctr s + 1) = inode_ctr s) as E' by (by destruct s).
    pose proof (i_range _ _ (g_inodes _ _ _ _ _ G)).
    unfold wrap in E'. destruct (decide (inode_ctr s + 1 < 2 ^ 32)).
    + rewrite Z.mod_small in E' by lia. lia.
    + replace (inode_ctr s + 1) with (2 ^ 32) in E' by lia. rewrite Z_mod_same_full in E'. lia.
  - eexists _, _. rewrite heap_set_heap. split; [|split; [by rewrite Hh6, lookup_insert_ne, lookup_insert_eq|]].
    + rewrite single_difference in G6. exact G6.
    + set (n := created s3 a pn nm an) in *. clearbody n.
      assert (body (set_next (child pn) (set_parent (Some par) n)) = body n) as Hb by (by nf).
      split_and!; [by rewrite (body_name _ _ Hb), Hname|by nf|by rewrite (body_deleted _ _ Hb)|].
      intros q m Hq. rewrite Hh6. rewrite Hs1 in Ha, Hpar.
      assert (q ≠ Heap a) by congruence.
      destruct (decide (q = par)) as [->|].
      * simplify_eq. rewrite lookup_insert_eq. eexists. split; [done|]. by nf.
      * rewrite !lookup_insert_ne by done. eauto.
  - intros p [= <-]. rewrite <- Hs1. split; [done|]. intros n.
    rewrite heap_set_heap, Hh6, lookup_insert_ne, lookup_insert_eq by done. intros [= <-].
    assert (body (set_next (child pn) (set_parent (Some par) (created s3 a pn nm an))) =
      body (created s3 a pn nm an)) as Hb by (by nf).
    by rewrite (body_ino _ _ Hb), (body_gen _ _ Hb), Hino, Hgen, Hs2, Hs3.
Qed.

(** Counts that can still grow by a few references. *)
Definition headroom (h : nodes) : Prop := ∀ p n, h !! p = Some n → refcount n + 3 < 2 ^ 32.

Lemma acquire_or_create_child_locked_ok s K ext par pn nm actual :
  Graph s K ∅ ∅ ext → heap s !! par = Some pn → slen actual = slen nm → headroom (heap s) →
  wp (acquire_or_create_child_locked par nm actual) (λ r s', child_result s par nm ext r s') s.
Proof.
  intros G Hpar Hlen Hhd. pose proof (g_tree _ _ _ _ _ G) as T.
  unfold acquire_or_create_child_locked. wp_step. eapply wp_mono.
  { by eapply lookup_child_by_name_locked_ok. }
  intros c s' [-> Hc]. destruct c as [c|].
  - symmetry in Hc. apply find_child_some in Hc as (HcK & m & Hm & Hn & Hd).
    destruct (t_kid _ _ _ T _ _ _ Hpar HcK) as (m' & Hm' & Hp). simplify_eq.
    wp_step. eapply wp_mono.
    { eapply Graph_acquire; [done|done|]. pose proof (Hhd _ _ Hm). lia. }
    intros _ s' (h' & -> & Hh & G'). wp_step. split; [apply quiet_set_heap|].
    split; [destruct s; simpl; by rewrite decide_True|]. split.
    + intros ->. destruct (t_root _ _ _ T) as (? & ? & ?). congruence.
    + exists K, (set_refcount (refcount m + 1) m). rewrite heap_set_heap. subst h'.
      assert (body (set_refcount (refcount m + 1) m) = body m) as Hb by (by nf).
      split_and!; [done|apply lookup_insert_eq|by rewrite (body_name _ _ Hb)|by nf|
                   by rewrite (body_deleted _ _ Hb)|].
      intros q mq Hq. destruct (decide (q = c)) as [->|].
      * simplify_eq. rewrite lookup_insert_eq. eexists. split; [done|]. by nf.
      * rewrite lookup_insert_ne by done. eauto.
  - eapply wp_mono; [eapply create_node_locked_ok; [done..|]|].
    + pose proof (Hhd _ _ Hpar). lia.
    + by intros r s' [? _].
Qed.

(** *** Renaming a node *)

Lemma Graph_set_name s K D X X' ext p n nl nb an :
  Graph s K D X ext → heap s !! p = Some n → node_wf p (set_name nl nb an n) →
  X ⊆ X' → (p ∈ X' ∨ str nb = str (name n)) →
  Graph (set_heap (<[p := set_name nl nb an n]> (heap s)) s) K D X' ext.
Proof.
  intros [T R Hw [Hr Hu Hi] Hc] Hp Hwf HX Hor.
  assert (∀ x m', <[p := set_name nl nb an n]> (heap s) !! x = Some m' → ∃ m, heap s !! x = Some m ∧
    pinfo_of m' = pinfo_of m ∧ parent m' = parent m ∧ ino m' = ino m ∧ refcount m' = refcount m ∧
    (x ∈ X' ∨ str (name m') = str (name m))) as Hb.
  { intros x m' [[<- <-]|[? ?]]%lookup_insert_Some; [|eauto 10].
    exists n. split; [done|]. destruct n; simpl in *. auto. }
  split; rewrite ?heap_set_heap.
  - eapply tree_ok_ext; [|done]. intros x. rewrite lookup_insert. case_decide; subst; [|done].
    rewrite Hp. simpl. by nf.
  - split.
    + intros x m' (m & Hm & _ & _ & _ & Hrc & _)%Hb. rewrite Hrc. by apply (r_count _ _ _ R).
    + intros x [? ?]%lookup_insert_None. by apply (r_dead _ _ _ R).
  - intros x m [[<- <-]|[? ?]]%lookup_insert_Some; [done|by apply Hw].
  - replace (inode_ctr (set_heap _ s)) with (inode_ctr s) by (by destruct s). split; [done| |].
    + intros x m' (m & Hm & _ & _ & Hino & _)%Hb. rewrite Hino. eauto.
    + intros x y m1 m2 (m1' & Hm1 & _ & _ & Hi1 & _)%Hb (m2' & Hm2 & _ & _ & Hi2 & _)%Hb.
      rewrite Hi1, Hi2. eauto.
  - replace (package_to_appid (set_heap _ s)) with (package_to_appid s) by (by destruct s).
    intros x m' q mq' Hx (m & Hm & Hpi & Hpar & _ & _ & Hn)%Hb Hq (mq & Hmq & Hpq & _)%Hb.
    destruct Hn as [|Hn]; [done|]. rewrite Hpi, Hpq, Hn.
    apply (Hc x m q mq); [set_solver|done|congruence|done].
Qed.

(** The storage of [p] has grown; the name is the same. *)
Definition grown (p : ptr) (nl : Z) (need : bool) (n : node) (ok : bool) (nb : cbuf) (an : option cbuf) : Prop :=
  node_wf p (set_name (namelen n) nb an n) ∧ str nb = str (name n) ∧
  (ok = true → nl < blk nb ∧ (need = true → ∀ ab, an = Some ab → nl < blk ab)).

Lemma realloc_str_ok s b size (Q : option cbuf → fs W → Prop) :
  slen (str b) < size → (∀ w, Q None (set_world w s)) →
  (∀ w, Q (Some (mk_cbuf size (str b))) (set_world w s)) → wp (realloc_str b size) Q s.
Proof.
  intros Hl H1 H2. unfold realloc_str. wp_step. apply wp_malloc. intros [a|] w _; [|by wp_step].
  wp_step. apply wp_require; [by apply Z.ltb_lt|]. by wp_step.
Qed.

Lemma set_heap_set_world h w s : set_heap h (set_world w s) = set_world w (set_heap h s).
Proof. by destruct s. Qed.
Lemma heap_set_world w s : heap (set_world w s) = heap s.
Proof. by destruct s. Qed.
Lemma set_world_set_world w w' s : set_world w (set_world w' s) = set_world w s.
Proof. by destruct s. Qed.
Lemma set_name_set_name a b c a' b' c' n :
  set_name a b c (set_name a' b' c' n) = set_name a b c n.
Proof. by destruct n. Qed.
Lemma set_name_id n : set_name (namelen n) (name n) (actual_name n) n = n.
Proof. by destruct n. Qed.

Lemma node_wf_set_name p n nl nb an :
  node_wf p n → nl = slen (str nb) → nl < blk nb →
  (∀ a, an = Some a → slen (str a) = nl ∧ nl < blk a) → node_wf p (set_name nl nb an n).
Proof. intros [] ? ? ?. destruct n. by split. Qed.

Lemma grow_name_ok s p n nl need :
  heap s !! p = Some n → node_wf p n →
  wp (grow_name p nl need) (λ ok s', ∃ nb an w,
    s' = set_world w (set_heap (<[p := set_name (namelen n) nb an n]> (heap s)) s) ∧
    grown p nl need n ok nb an) s.
Proof.
  intros Hp Hw. unfold grow_name. wp_step. eapply wp_load; [done|].
  assert (∀ w, set_world w s = set_world w (set_heap (<[p:=set_name (namelen n) (name n) (actual_name n) n]> (heap s)) s))
    as Hid. { intros w. rewrite set_name_id, insert_id by done. by rewrite set_heap_id. }
  destruct (Z.ltb_spec (namelen n) nl) as [Hlt|Hge].
  2:{ wp_step. exists (name n), (actual_name n), (world s). rewrite <- Hid.
      split; [by destruct s|]. unfold grown. rewrite set_name_id. split; [done|]. split; [done|]. intros _.
      split; [pose proof (w_name _ _ Hw); lia|]. intros _ ab Hab.
      destruct (w_actual _ _ Hw _ Hab). lia. }
  pose proof (w_namelen _ _ Hw) as Hnl.
  wp_step. apply realloc_str_ok; [lia|..]; intros w.
  { wp_step. exists (name n), (actual_name n), w. split; [done|]. unfold grown. rewrite set_name_id. done. }
  wp_step. eapply wp_update; [by rewrite heap_set_world|].
  rewrite heap_set_world, set_heap_set_world.
  assert (∀ an, (∀ a, an = Some a → slen (str a) = namelen n ∧ namelen n < blk a) →
    node_wf p (set_name (namelen n) (mk_cbuf (nl + 1) (str (name n))) an n)) as Hwf.
  { intros an Han. apply node_wf_set_name; simpl; [done|done|lia|done]. }
  pose proof (Hwf _ (w_actual _ _ Hw)) as Hwf'.
  destruct need, (actual_name n) as [ab|] eqn:Hab.
  1:{ destruct (w_actual _ _ Hw _ Hab). wp_step. apply realloc_str_ok; [lia|..]; intros w'.
      - wp_step. eexists _, _, _. split; [by rewrite set_world_set_world|].
        split; [done|]. split; [done|]. done.
      - wp_step. eapply wp_update; [by rewrite !heap_set_world, heap_set_heap, lookup_insert_eq|].
        wp_step. eexists _, (Some _), w'. split.
        { rewrite !heap_set_world, heap_set_heap, insert_insert_eq, set_name_set_name.
          rewrite !set_heap_set_world, set_heap_set_heap, set_world_set_world. done. }
        split; [apply Hwf; intros ? [= <-]; simpl; lia|]. split; [done|]. intros _. simpl.
        split; [lia|]. intros _ ? [= <-]. simpl. lia. }
  all: wp_step; eexists _, _, _; (split; [done|]); (split; [done|]); (split; [done|]);
    intros _; simpl; (split; [lia|done]).
Qed.

(** [rename_node_locked]: every copy fits its buffer; the node has its new
    names on success and its old name on failure. *)
Definition renamed (p : ptr) (n : node) (nm actual : string) (r : Z) s s' : Prop :=
  ∃ nl nb an w,
    s' = set_world w (set_heap (<[p := set_name nl nb an n]> (heap s)) s) ∧
    node_wf p (set_name nl nb an n) ∧
    ((r = 0 ∧ str nb = nm ∧ str <$> an = (if streq nm actual then None else Some actual)) ∨
     (r = - ENOMEM ∧ str nb = str (name n))).

Lemma rename_node_locked_ok s p n nm actual :
  heap s !! p = Some n → node_wf p n → slen actual = slen nm →
  wp (rename_node_locked p nm actual) (λ r s', renamed p n nm actual r s s') s.
Proof.
  intros Hp Hw Hlen. unfold rename_node_locked. wp_step. eapply wp_mono; [by eapply grow_name_ok|].
  intros ok s1 (nb & an & w & -> & Hwf & Hnb & Hok). destruct ok; simpl.
  2:{ wp_step. eexists _, _, _, _. split; [done|]. split; [done|]. by right. }
  destruct (Hok eq_refl) as [Hblk Hablk]. set (n1 := set_name (namelen n) nb an n) in *.
  set (s1 := set_world w (set_heap (<[p:=n1]> (heap s)) s)).
  assert (heap s1 !! p = Some n1) as Hp1.
  { unfold s1. rewrite heap_set_world, heap_set_heap. apply lookup_insert_eq. }
  assert (name n1 = nb ∧ actual_name n1 = an) as [Hn1 Han1] by (by destruct n).
  wp_step. eapply wp_load; [done|].
  assert (∀ ab : option cbuf, str <$> ab = (if streq nm actual then None else Some actual) →
    (∀ b, ab = Some b → slen nm < blk b) → ∀ w',
    wp (nb ← memcpy_str (name n1) nm (slen nm); update p (set_name (slen nm) nb ab) ;; mret 0)
      (λ r s', renamed p n nm actual r s s') (set_world w' s1)) as Hfin.
  { intros ab Hab Hbb w'. wp_step. unfold memcpy_str. rewrite Hn1. wp_step. apply wp_require.
    { rewrite Z.eqb_refl. simpl. apply Z.leb_le. lia. }
    wp_step. wp_step. eapply wp_update; [by rewrite heap_set_world|]. wp_step.
    exists (slen nm), (mk_cbuf (blk nb) nm), ab, w'. split; [|split; [|by left; split_and!]].
    - rewrite heap_set_world, set_heap_set_world. unfold s1.
      rewrite heap_set_world, heap_set_heap, insert_insert_eq, set_heap_set_world.
      unfold n1. by rewrite set_name_set_name, set_world_set_world, set_heap_set_heap.
    - apply node_wf_set_name; simpl; [done|done|lia|].
      intros b ->. destruct (streq nm actual); simpl in Hab; [done|]. injection Hab as Hab.
      rewrite Hab. split; [lia|by apply Hbb]. }
  assert (s1 = set_world w s1) as Hs1 by (by destruct s).
  rewrite Hn1, Han1 in *. destruct (streq nm actual) eqn:Hst; simpl.
  { wp_step. wp_step. rewrite Hs1. apply Hfin; [done|by intros]. }
  assert (∀ ab w', slen nm < blk ab →
    wp (an ← (c ← memcpy_str ab actual (slen nm); mret (Some (Some c)));
        match an with
        | None => mret (- ENOMEM)
        | Some an => nb ← memcpy_str nb nm (slen nm); update p (set_name (slen nm) nb an) ;; mret 0
        end) (λ r s', renamed p n nm actual r s s') (set_world w' s1)) as Hcp.
  { intros ab w' Hb. wp_step. wp_step. unfold memcpy_str at 1. wp_step. apply wp_require.
    { rewrite Hlen, Z.eqb_refl. simpl. apply Z.leb_le. lia. }
    wp_step. wp_step. apply Hfin; [done|]. intros ? [= <-]. done. }
  destruct an as [ab|].
  - wp_step. wp_step. wp_step. apply wp_bind_inv. rewrite Hs1. by apply Hcp, Hablk.
  - wp_step. wp_step. wp_step. apply wp_malloc. intros [a|] w' _.
    + wp_step. apply wp_bind_inv. by apply Hcp; simpl; lia.
    + wp_step. simpl. wp_step. eexists _, _, _, w'.
      split; [unfold s1; by rewrite set_world_set_world|]. split; [done|]. by right.
Qed.
End create.

(** * Moving a node *)

Section move.
Context {W : Type} `{!FuseAbi, !AndroidIds, !Os W, !OsOk W}.
Implicit Types s : fs W.

Lemma packages_set_heap h s : package_to_appid (set_heap h s) = package_to_appid s.
Proof. by destruct s. Qed.
Lemma obb_set_heap h s : obb_path (set_heap h s) = obb_path s.
Proof. by destruct s. Qed.
Lemma ctr_set_heap h s : inode_ctr (set_heap h s) = inode_ctr s.
Proof. by destruct s. Qed.

(** Deriving a detached node from its future parent and then everything below
    it restores the coherence of the graph. *)
Lemma Graph_rederive s K D X ext p n par pn h2 :
  let h1 := <[p := derive_node (package_to_appid s) (obb_path s) pn n]> (heap s) in
  Graph s K D X ext → heap s !! p = Some n → parent n = None → heap s !! par = Some pn →
  rederived (package_to_appid s) (below h1 p) h1 h2 →
  Graph (set_heap h2 s) K D X ext ∧
  h2 !! p = Some (derive_node (package_to_appid s) (obb_path s) pn n) ∧
  (∀ x, ¬ under (heap s) p x → h2 !! x = heap s !! x).
Proof.
  intros h1 [T R Hw [Hr Hu Hi] Hc] Hp Hpar Hpn Rd. set (n1 := derive_node _ _ pn n) in *.
  assert (core n1 = core n) as Hcn by apply core_derive_node.
  assert (∀ x, core <$> h1 !! x = core <$> heap s !! x) as Hc1.
  { intros x. unfold h1. rewrite lookup_insert. case_decide; subst; [|done].
    rewrite Hp. simpl. by rewrite Hcn. }
  assert (∀ x, core <$> h2 !! x = core <$> heap s !! x) as Hc2.
  { intros x. by rewrite (rd_core _ _ _ _ Rd). }
  assert (∀ x y, under (heap s) x y ↔ under h1 x y) as Hun.
  { intros x y. apply under_ext. intros z. apply core_field; [apply core_parent|done]. }
  assert (∀ x, ¬ under (heap s) p x → h2 !! x = heap s !! x) as Hsame.
  { intros x Hx. rewrite (rd_same _ _ _ _ Rd) by (intros [? _]; by apply Hx, Hun).
    unfold h1. rewrite lookup_insert_ne; [done|]. intros <-. by apply Hx, (under_refl T _ n). }
  assert (h2 !! p = Some n1) as Hp2.
  { rewrite (rd_same _ _ _ _ Rd) by (by intros [_ ?]). apply lookup_insert_eq. }
  assert (∀ x m2, h2 !! x = Some m2 → ∃ m, heap s !! x = Some m ∧ core m2 = core m) as Hb.
  { intros x m2 Hx. pose proof (Hc2 x) as E. rewrite Hx in E.
    destruct (heap s !! x); simplify_eq/=. eauto. }
  split; [|done]. split; rewrite ?heap_set_heap, ?ctr_set_heap, ?packages_set_heap.
  - eapply tree_ok_ext; [|exact T]. intros x. apply core_field; [apply core_links|done].
  - eapply rederived_refs; [exact Rd|]. split.
    + intros x m Hx. pose proof (Hc1 x) as E. rewrite Hx in E.
      destruct (heap s !! x) as [m0|] eqn:Hm0; [|done]. injection E as E.
      rewrite (core_refcount _ _ E). by apply (r_count _ _ _ R).
    + intros x Hx. apply (r_dead _ _ _ R). pose proof (Hc1 x) as E. rewrite Hx in E.
      by destruct (heap s !! x).
  - intros x m2 Hx. destruct (rd_wf _ _ _ _ Rd _ _ Hx) as (m1 & Hm1 & Hwf). apply Hwf.
    unfold h1 in Hm1. apply lookup_insert_Some in Hm1 as [[<- <-]|[_ ?]]; [|by apply Hw].
    by apply wf_derive_node, Hw.
  - split; [done| |].
    + intros x m2 (m & Hm & E)%Hb. rewrite (core_ino _ _ E). eauto.
    + intros x y m2 m2' (m & Hm & E)%Hb (m' & Hm' & E')%Hb.
      rewrite (core_ino _ _ E), (core_ino _ _ E'). eauto.
  - intros x m2 q mq2 HX Hx Hxp Hq.
    destruct (Hb _ _ Hx) as (m & Hm & E). pose proof (core_parent _ _ E) as Epar.
    destruct (decide (x = p)) as [->|Hxne].
    { simplify_eq. congruence. }
    destruct (decide (q = x)) as [->|Hqx].
    { exfalso. apply (parent_neq T x m x); [done|congruence|done]. }
    destruct (t_lin _ _ _ T _ _ Hm) as [l Hl].
    destruct (decide (p ∈ l)) as [Hpl|Hpl].
    + eapply (rd_coh _ _ _ _ Rd); [|done..]. split; [|done]. apply Hun. by exists l.
    + assert (¬ under (heap s) p x) as Hnu.
      { intros (l' & Hl' & ?). by rewrite (lineage_fun _ _ _ _ Hl' Hl) in *. }
      assert (¬ under (heap s) p q) as Hnq.
      { intros Hq'. apply Hnu. apply (under_step _ x m q Hm); [congruence|done]. }
      rewrite Hsame in Hx, Hq by done. by eapply Hc.
Qed.

(** The lineage of a node that keeps its ancestors. *)
Lemma lineage_shrink (h h' : nodes) x l l' :
  (∀ y m', h' !! y = Some m' → ∃ m, h !! y = Some m ∧ (parent m' = None ∨ parent m' = parent m)) →
  lineage h' x l' → lineage h x l → ∀ y, y ∈ l' → y ∈ l.
Proof.
  intros Ht Hl'. revert l. induction Hl' as [p n Hp Hn|p n q l' Hp Hn Hl' IH]; intros l Hl y Hy.
  - apply list_elem_of_singleton in Hy as ->. destruct (lineage_head _ _ _ Hl) as [? ->]. left.
  - destruct (Ht _ _ Hp) as (m & Hm & [Hnone|Hpar]); [congruence|].
    inversion Hl as [? m' ? Hm' |? m' q' l2 Hm' Hq' Hl2]; simplify_eq; [congruence|].
    apply elem_of_cons in Hy as [->|Hy]; [left|]. right.
    assert (q' = q) as -> by congruence. eauto.
Qed.


(** The target directory survives the removal, below the same ancestors. *)
Lemma remove_keeps_target (h h' : nodes) K K0 K' ext c cn old l1 np npn l :
  tree_ok h K ∅ → refs_ok h K ext → tree_ok h' K' {[c]} → refs_ok h' K' ext →
  h !! c = Some cn → released {[c]} (detached h l1 c cn old) h' K0 K' →
  (∀ r d, d ∈ K0 r → d ∈ K r) →
  h !! np = Some npn → lineage h np l → c ∉ l → 1 <= ext np →
  ∃ npn' l', h' !! np = Some npn' ∧ body npn' = body npn ∧ refcount npn' <= refcount npn ∧
    lineage h' np l' ∧ c ∉ l'.
Proof.
  intros T R T' R' Hc Rel HK Hnp Hl Hcl He.
  pose proof (released_thinner _ _ _ _ _ Rel) as Th1.
  pose proof (transitivity (detached_thinner h l1 c cn old Hc) Th1) as Th.
  destruct (h' !! np) as [npn'|] eqn:Hnp'.
  2:{ pose proof (r_dead _ _ _ R' _ Hnp'). lia. }
  destruct (Th _ _ Hnp') as (m & Hm & Hb & _). simplify_eq.
  destruct (t_lin _ _ _ T' _ _ Hnp') as [l' Hl'].
  exists npn', l'. split_and!; [done|done| |done|].
  - destruct (r_count _ _ _ R _ _ Hnp) as (-> & _ & _), (r_count _ _ _ R' _ _ Hnp') as (-> & _ & _).
    assert (length (K' np) ≤ length (K np))%nat; [|lia].
    apply submseteq_length, NoDup_submseteq; [by eapply t_nodup|].
    intros d Hd. apply HK. by eapply (rel_kids _ _ _ _ _ Rel) in Hd as [? _].
  - intros Hin. apply Hcl. eapply lineage_shrink; [|exact Hl'|exact Hl|exact Hin].
    intros y m' (m0 & ? & _ & ?)%Th. eauto.
Qed.

Definition committed (np c : ptr) (nm actual : string) (r : Z) (ext : refmap) s s' : Prop :=
  quiet s s' ∧ ∃ K' n, Graph s' K' ∅ ∅ ext ∧ heap s' !! c = Some n ∧
    ((r = 0 ∧ str (name n) = nm ∧ parent n = Some np ∧
      str <$> actual_name n = (if streq nm actual then None else Some actual)) ∨
     (r = - ENOMEM ∧ ∃ n0, heap s !! c = Some n0 ∧ str (name n) = str (name n0) ∧ parent n = parent n0)).

Lemma rename_commit_ok s K ext c cn old np npn l nm actual :
  Graph s K ∅ ∅ ext → heap s !! c = Some cn → parent cn = Some old →
  heap s !! np = Some npn → lineage (heap s) np l → c ∉ l →
  1 <= ext Root → 1 <= ext np → refcount npn + 1 < 2 ^ 32 → slen actual = slen nm →
  wp (rename_commit np c nm actual) (λ r s', committed np c nm actual r ext s s') s.
Proof.
  intros G Hc Hold Hnp Hl Hcl HeR Henp Hhd Hlen. unfold rename_commit.
  wp_step. eapply wp_mono; [by eapply rename_node_locked_ok, Hlen; [|by apply (g_node _ _ _ _ _ G)]|].
  intros r s1 (nl & nb & an & w & -> & Hwf & Hr). cbn beta.
  set (cn1 := set_name nl nb an cn) in *.
  assert (str nb = nm ∨ str nb = str (name cn)) as Hnames by naive_solver.
  set (X := if decide (r = 0) then {[c]} else ∅ : gset ptr).
  assert (Graph (set_world w (set_heap (<[c:=cn1]> (heap s)) s)) K ∅ X ext) as G1.
  { eapply (Graph_same (set_heap (<[c:=cn1]> (heap s)) s)); [by destruct s|].
    eapply Graph_set_name; [done|done|done|apply empty_subseteq|].
    unfold X. case_decide; [left; set_solver|right]. destruct Hr as [(? & _)|[_ ?]]; [lia|done]. }
  set (s1 := set_world w (set_heap (<[c:=cn1]> (heap s)) s)) in *.
  assert (heap s1 = <[c:=cn1]> (heap s)) as Hh1.
  { unfold s1. by rewrite heap_set_world, heap_set_heap. }
  assert (quiet s s1) as Hq1 by (by destruct s).
  assert (heap s1 !! c = Some cn1) as Hc1 by (rewrite Hh1; apply lookup_insert_eq).
  assert (links cn1 = links cn) as Hlk by apply links_set_name.
  assert (parent cn1 = parent cn ∧ str (name cn1) = str nb ∧ actual_name cn1 = an) as (Hpar1 & Hn1 & Han1)
    by (by destruct cn).
  destruct Hr as [(-> & Hnm & Han)|(-> & Hnm)]; simpl.
  2:{ wp_step. split; [done|]. exists K, cn1. split_and!; [exact G1|done|]. right.
      split; [done|]. exists cn. split_and!; [done|congruence|done]. }
  change X with ({[c]} : gset ptr) in G1. clear X.
  assert (∀ x, parent <$> heap s1 !! x = parent <$> heap s !! x) as Hpx.
  { intros x. rewrite Hh1, lookup_insert. case_decide as Hcx; [|done].
    rewrite <- Hcx, Hc. simpl. by rewrite Hpar1. }
  assert (c ≠ np) as Hcnp.
  { intros ->. apply Hcl. destruct (lineage_head _ _ _ Hl) as [? ->]. left. }
  assert (heap s1 !! np = Some npn) as Hnp1 by (by rewrite Hh1, lookup_insert_ne).
  pose proof (g_tree _ _ _ _ _ G1) as T1.
  destruct (t_lin _ _ _ T1 _ _ Hc1) as [lc Hlc].
  destruct (lineage_head _ _ _ Hlc) as [lc' ->].
  rewrite Hold in Hpar1.
  assert (Root ∈ lc') as HRc.
  { pose proof (root_in_lineage _ _ _ _ T1 Hlc) as HR. apply elem_of_cons in HR as [<-|]; [|done].
    destruct (t_root _ _ _ T1) as (? & ? & ?). congruence. }
  destruct (t_par _ _ _ T1 _ _ _ Hc1 Hpar1) as [_ HcK].
  apply list_elem_of_split in HcK as (l1 & l2 & HK).
  wp_step. eapply wp_mono; [by eapply Graph_remove|].
  intros _ s2 (h2 & K2 & -> & G2 & Hc2 & Rel). cbn beta.
  assert (∃ npn2 l', h2 !! np = Some npn2 ∧ body npn2 = body npn ∧ refcount npn2 <= refcount npn ∧
    lineage h2 np l' ∧ c ∉ l') as (npn2 & l' & Hnp2 & Hb2 & Hrc2 & Hl2 & Hcl2).
  { eapply (remove_keeps_target (heap s1)); [done|apply G1|..|exact Hc1|exact Rel| |exact Hnp1| |exact Hcl|done].
    - pose proof (g_tree _ _ _ _ _ G2) as T2. by rewrite heap_set_heap in T2.
    - pose proof (g_refs _ _ _ _ _ G2) as R2. by rewrite heap_set_heap in R2.
    - intros r d. destruct (decide (r = old)) as [->|].
      + rewrite fn_lookup_insert, HK. set_solver.
      + by rewrite fn_lookup_insert_ne.
    - eapply lineage_ext; [|exact Hl]. auto. }
  set (s2 := set_heap h2 s1) in *. set (cn2 := set_next None (set_parent None cn1)) in *.
  assert (heap s2 = h2) as Hh2 by apply heap_set_heap.
  replace ({[c]} ∖ {[c]} : gset ptr) with (∅ : gset ptr) in G2 by set_solver.
  wp_step. eapply wp_mono; [eapply (derive_permissions_locked_ok s2 np c npn2 cn2); by rewrite Hh2|].
  intros _ s3 ->. cbn beta. set (cn3 := derive_node _ _ npn2 cn2).
  wp_step. eapply wp_mono.
  { eapply (derive_permissions_recursive_locked_ok _ K2 {[c]} c cn3); rewrite heap_set_heap.
    - eapply tree_ok_ext; [|apply G2]. intros x. rewrite lookup_insert. case_decide as Hcx; [|done].
      rewrite <- Hcx, Hh2, Hc2. simpl. f_equal. apply core_links, core_derive_node.
    - apply lookup_insert_eq. }
  intros _ s4 (h4 & -> & Rd). cbn beta. rewrite heap_set_heap, packages_set_heap in Rd.
  rewrite set_heap_set_heap.
  assert (parent cn2 = None) as Hcp2 by (unfold cn2; by nf).
  destruct (Graph_rederive s2 K2 {[c]} ∅ ext c cn2 np npn2 h4) as (G4 & Hc4 & Hs4);
    [exact G2|by rewrite Hh2|done|by rewrite Hh2|exact Rd|].
  fold cn3 in Hc4.
  assert (¬ under (heap s2) c np) as Hnu.
  { rewrite Hh2. intros (l3 & Hl3 & Hin). by rewrite (lineage_fun _ _ _ _ Hl3 Hl2) in Hin. }
  assert (h4 !! np = Some npn2) as Hnp4 by (by rewrite Hs4, Hh2).
  wp_step. eapply wp_mono.
  { eapply (Graph_add _ _ _ _ _ c cn3 np npn2 l' G4); rewrite ?heap_set_heap; try done.
    - set_solver.
    - eapply lineage_ext; [|exact Hl2]. intros x Hx. rewrite Hs4, Hh2; [done|].
      rewrite Hh2. intros (l3 & Hl3 & Hin). apply Hcl2.
      destruct (lineage_elem _ _ _ _ Hl2 Hx) as (l5 & l6 & -> & Hl6).
      rewrite (lineage_fun _ _ _ _ Hl3 Hl6) in Hin. set_solver.
    - lia.
    - unfold cn3. rewrite pinfo_derive_node.
      by rewrite (core_name _ _ (core_derive_node _ _ npn2 cn2)), packages_set_heap. }
  intros _ s6 (h6 & -> & Hh6 & G6). cbn beta. wp_step. split.
  { rewrite set_heap_set_heap. unfold s2. rewrite set_heap_set_heap.
    etrans; [exact Hq1|]. apply quiet_set_heap. }
  replace ({[c]} ∖ {[c]} : gset ptr) with (∅ : gset ptr) in G6 by set_solver.
  set (cn4 := set_next (child npn2) (set_parent (Some np) cn3)) in *.
  exists (<[np := c :: K2 np]> K2), cn4. split; [exact G6|]. split.
  { by rewrite heap_set_heap, Hh6, lookup_insert_ne, lookup_insert_eq. }
  left. assert (body cn4 = body cn3) as Hb4 by (unfold cn4; by nf).
  assert (name cn3 = nb ∧ actual_name cn3 = an) as [Hn3 Ha3].
  { pose proof (core_derive_node (package_to_appid s2) (obb_path s2) npn2 cn2) as Hcd.
    unfold cn3. rewrite (core_name _ _ Hcd), (core_actual _ _ Hcd). by destruct cn. }
  split_and!; [done|by rewrite (body_name _ _ Hb4), Hn3|unfold cn4; by nf|].
  by rewrite (body_actual _ _ Hb4), Ha3.
Qed.
End move.
