(* ===== verification/FuseSafe.v ===== *)
(** * sdcard: the handlers against the invariant

    [handled]: what every handler but FORGET guarantees.  It returns (no
    undefined behaviour, no deadlock), restores [Inv] with the references it
    told the kernel about, and has sent exactly the reply its status implies. *)

From S2P Require Import Prelude CMonad FuseTypes FuseState FuseNode FuseTree FuseRefs FuseHandlers FuseInv.
From S2P Require Import FuseDerive FuseGraph FuseMutate FuseMove.

Section safe.
Context {W : Type} `{!FuseAbi, !AndroidIds, !Os W, !OsOk W}.
Implicit Types s : fs W.

(** ** Messages *)

(** The lookups an entry reply adds to the kernel's count of [p]. *)
Definition entry_for (p : ptr) (m : view * fuse_out) : Z :=
  match m with
  | (_, OReply _ _ (POut_entry id _ _ _ _)) => if id =? id_of_ptr p then 1 else 0
  | _ => 0
  end.
Definition credit (msgs : list (view * fuse_out)) (ext : refmap) : refmap :=
  λ p, ext p + foldr (λ m acc, entry_for p m + acc) 0 msgs.

(** A deletion notice for a mount other than the one asking. *)
Definition is_notice (f : fuse) (m : view * fuse_out) : Prop :=
  match m with (v, ONotifyDelete _ _ _ _ _) => v ≠ fview f | _ => False end.

(** The messages of a handler that returned [r]: a reply if it says it has
    replied, and otherwise only notices. *)
Definition messages_ok (f : fuse) (u r : Z) (msgs : list (view * fuse_out)) : Prop :=
  if r =? NO_STATUS then ∃ len data, msgs = [(fview f, OReply len u data)]
  else r <= 0 ∧ Forall (is_notice f) msgs.

Definition handled (f : fuse) (u : Z) (ext : refmap) s (r : Z) s' : Prop :=
  ∃ K' msgs, Inv s' K' (credit msgs ext) ∧ out s' = msgs ++ out s ∧
    package_to_appid s' = package_to_appid s ∧ messages_ok f u r msgs.

Lemma credit_nil ext p : credit [] ext p = ext p.
Proof. unfold credit. simpl. lia. Qed.

Lemma credit_notices f msgs ext p : Forall (is_notice f) msgs → credit msgs ext p = ext p.
Proof.
  unfold credit. induction 1 as [|[v m] msgs Hm _ IH]; simpl; [lia|].
  destruct m; simpl in *; done || lia.
Qed.

(** Only the operating system, the log and the handles changed. *)
Record calm s s' : Prop := mk_calm {
  c_graph : same_graph s s';
  c_locked : locked s' = locked s;
  c_out : out s' = out s
}.

#[export] Instance calm_preorder : PreOrder calm.
Proof.
  split.
  - intros s. by split.
  - intros s1 s2 s3 [] []. split; [by etrans|congruence..].
Qed.

Lemma only_world_calm s s' : only_world s s' → calm s s'.
Proof. by intros []. Qed.
Lemma calm_set_handles h s : calm s (set_handles h s).
Proof. by destruct s. Qed.

Lemma Inv_same s s' K ext : same_graph s s' → locked s' = locked s → Inv s K ext → Inv s' K ext.
Proof. intros Hg Hl [G ? Hu]. split; [by eapply Graph_same|done|congruence]. Qed.

Lemma Inv_ext s K ext ext' : (∀ p, ext p = ext' p) → Inv s K ext → Inv s K ext'.
Proof. intros He []. split; [by eapply Graph_ext|by rewrite <- He|done]. Qed.

Lemma Inv_calm s s' K ext : calm s s' → Inv s K ext → Inv s' K ext.
Proof. intros []. by apply Inv_same. Qed.

Lemma handled_calm f u ext s s1 r s2 : calm s s1 → handled f u ext s1 r s2 → handled f u ext s r s2.
Proof.
  intros [[] _ Ho] (K' & msgs & HI & Hout & Hp & Hm).
  exists K', msgs. split_and!; [done|congruence|congruence|done].
Qed.

(** A handler that ends with a status and changed nothing visible. *)
Lemma handled_status f u ext K s r s' : Inv s K ext → calm s s' → r <= 0 → handled f u ext s r s'.
Proof.
  intros HI Hc Hr. exists K, []. split_and!.
  - eapply Inv_ext; [|by eapply Inv_calm]. intros. by rewrite credit_nil.
  - by destruct Hc.
  - by destruct Hc as [[]].
  - unfold messages_ok. rewrite (proj2 (Z.eqb_neq _ _)) by (unfold NO_STATUS; lia). done.
Qed.

(** ... and one that ends with a reply that grants no reference. *)
Lemma handled_reply f u ext K s s' len data :
  Inv s K ext → calm s s' → (∀ a b c d e, data ≠ POut_entry a b c d e) →
  wp (fuse_reply f u data len ;; mret NO_STATUS) (handled f u ext s) s'.
Proof.
  intros HI Hc Hd. wp_step. unfold fuse_reply, send. wp_step. wp_step.
  exists K, [(fview f, OReply (u32 (len + sizeof_out_header)) u data)]. split_and!.
  - eapply Inv_ext; [|eapply (Inv_same s'); [apply same_graph_add_out|by destruct s'|by eapply Inv_calm]].
    intros p. unfold credit. simpl. destruct data; try lia. by edestruct Hd.
  - destruct Hc as [_ _ <-]. by destruct s'.
  - destruct Hc as [[]]. by destruct s'.
  - unfold messages_ok. simpl. by eexists _, _.
Qed.

(** ** Shared steps *)

(** The kernel holds [nodeid], and it denotes [p]. *)
Definition holds (ext : refmap) (nodeid : Z) (p : ptr) : Prop :=
  lookup_node_by_id_locked nodeid = Some p ∧ 1 <= ext p.

Lemma holds_live s K D X ext nodeid p :
  Graph s K D X ext → holds ext nodeid p → ∃ n, heap s !! p = Some n.
Proof.
  intros G [_ He]. destruct (heap s !! p) eqn:E; [eauto|].
  pose proof (r_dead _ _ _ (g_refs _ _ _ _ _ G) _ E). lia.
Qed.

Lemma set_locked_id s : locked s = false → set_locked false (set_locked true s) = s.
Proof. destruct s. simpl. by intros ->. Qed.

Lemma locked_lookup_ok s K ext nodeid p :
  Inv s K ext → holds ext nodeid p →
  wp (locked_lookup nodeid) (λ r s', s' = s ∧ ∃ path, has_path (heap s) p path ∧
    r = if slen path <? PATH_MAX then Some (p, path) else None) s.
Proof.
  intros [G HR Hl] Hh. destruct (holds_live _ _ _ _ _ _ _ G Hh) as [n Hn]. destruct Hh as [Hid _].
  destruct (has_path_exists _ _ _ _ _ (g_tree _ _ _ _ _ G) Hn) as [path Hp].
  unfold locked_lookup. wp_step. apply wp_lock; [done|].
  wp_step. eapply wp_mono.
  { eapply (lookup_node_and_path_ok _ _ p path); [|done|]; [|by destruct s].
    intros q m Hq. apply (g_node _ _ _ _ _ G). by destruct s. }
  intros r s' [-> ->]. cbn beta. wp_step. apply wp_unlock; [by destruct s|]. wp_step.
  split; [by apply set_locked_id|]. eauto.
Qed.

(** A name that may not be used in a directory. *)
Definition blocked_in (n : node) (nm : string) : bool :=
  bool_decide (perm n = PERM_ROOT) && blocked_at_root nm.

Lemma check_name_ok s hdr p n nm mode (Q : bool → fs W → Prop) :
  heap s !! p = Some n → Q (negb (blocked_in n nm)) s →
  wp (check_caller_access_to_name hdr (Some p) nm mode) Q s.
Proof.
  intros Hp HQ. unfold check_caller_access_to_name. wp_step. wp_step. eapply wp_load; [done|].
  wp_step. unfold blocked_in in HQ. destruct (bool_decide _ && _); [by wp_step|].
  by destruct (in_uid hdr =? 0); wp_step.
Qed.

Lemma check_node_ok s K D hdr p n mode (Q : bool → fs W → Prop) :
  tree_ok (heap s) K D → heap s !! p = Some n → (∀ b, Q b s) →
  wp (check_caller_access_to_node hdr p mode) Q s.
Proof.
  intros T Hp HQ. unfold check_caller_access_to_node. wp_step. eapply wp_load; [done|].
  destruct (parent n) as [q|] eqn:E.
  - destruct (t_par _ _ _ T _ _ _ Hp E) as [[m Hm] _]. by eapply check_name_ok.
  - unfold check_caller_access_to_name. wp_step. wp_step. by destruct (in_uid hdr =? 0); wp_step.
Qed.

(** The preamble of the operations that name a child. *)
Definition resolved s (p : ptr) (n : node) (nm : string) (r : Z + (ptr * string * string)) : Prop :=
  match r with
  | inl err => err = - ENOENT ∨ err = - EACCES
  | inr (pn, actual, path) =>
      pn = p ∧ strcaseeq actual nm = true ∧ blocked_in n nm = false ∧
      ∃ dir, has_path (heap s) p dir ∧ path = dir +:+ "/" +:+ actual ∧ slen path < PATH_MAX
  end.

Lemma resolve_child_ok s K ext hdr nm mode p n :
  Inv s K ext → holds ext (in_nodeid hdr) p → heap s !! p = Some n →
  wp (resolve_child hdr nm mode) (λ r s', calm s s' ∧ log s' = log s ∧ resolved s p n nm r) s.
Proof.
  intros HI Hh Hn. unfold resolve_child. wp_step. eapply wp_mono; [by eapply locked_lookup_ok|].
  intros r s' (-> & path & Hp & ->). destruct (slen path <? PATH_MAX); simpl.
  2:{ wp_step. split_and!; [done..|]. simpl. auto. }
  wp_step. eapply wp_mono; [apply find_file_within_ok|].
  intros r s' (Hw & Hlog & Hf & _). destruct r as [[actual child_path]|]; simpl.
  2:{ wp_step. split_and!; [by apply only_world_calm|done|]. simpl. auto. }
  destruct Hf as (Ha & Hcp & Hlen). pose proof (only_world_calm _ _ Hw) as Hc.
  wp_step. eapply check_name_ok; [by rewrite (sg_heap _ _ (c_graph _ _ Hc))|].
  destruct (blocked_in n nm) eqn:Hb; simpl; wp_step; (split_and!; [done|done|]); simpl; auto 10.
  split_and!; eauto.
Qed.

Lemma fuse_reply_entry_ok f u s K ext p n nm actual path :
  Inv s K ext → heap s !! p = Some n → headroom (heap s) → slen actual = slen nm →
  wp (fuse_reply_entry f u p nm actual path) (handled f u ext s) s.
Proof.
  intros HI Hp Hhd Hlen. unfold fuse_reply_entry. wp_step. apply wp_sys_only. intros [st|e] s1 Hs1.
  2:{ wp_step. eapply handled_status; [done|by apply only_world_calm|lia]. }
  pose proof (only_world_calm _ _ Hs1) as Hc.
  pose proof (Inv_calm _ _ _ _ Hc HI) as [G1 HR1 Hl1].
  pose proof (sg_heap _ _ (c_graph _ _ Hc)) as Hheap. rewrite <- Hheap in Hp, Hhd. clear Hheap.
  wp_step. apply wp_lock; [done|]. wp_step.
  assert (Graph (set_locked true s1) K ∅ ∅ ext) as G2.
  { eapply Graph_same; [apply same_graph_set_locked|done]. }
  eapply wp_mono; [eapply (acquire_or_create_child_locked_ok _ _ _ _ n); [exact G2|by destruct s1|done|by destruct s1]|].
  intros r s3 (Hq & _ & Hr). cbn beta. destruct Hq as [Hql Hqp _ _ Hqo _].
  assert (locked s3 = true) as Hl3 by (rewrite Hql; by destruct s1).
  assert (out s3 = out s) as Ho3 by (rewrite Hqo; destruct Hc as [_ _ <-]; by destruct s1).
  assert (package_to_appid s3 = package_to_appid s) as Hp3.
  { rewrite Hqp. destruct Hc as [[_ Hpk _ _ _] _ _]. rewrite <- Hpk. by destruct s1. }
  destruct r as [c|].
  - destruct Hr as (HcR & K' & m & G3 & Hm & _). wp_step. eapply wp_load; [done|].
    wp_step. apply wp_unlock; [done|]. wp_step. unfold fuse_reply, send. wp_step. wp_step.
    exists K', [(fview f, OReply (u32 (sizeof_entry_out + sizeof_out_header)) u
      (POut_entry (nid m) (gen m) 10 10 (attr_from_stat f st m)))]. split_and!; [split| | |].
    + eapply Graph_ext; [|eapply Graph_same; [|exact G3]]; [|by destruct s3].
      intros q. unfold credit. simpl. rewrite (w_nid _ _ (g_node _ _ _ _ _ G3 _ _ Hm)).
      destruct c as [|a]; [done|]. destruct (w_addr _ _ (g_node _ _ _ _ _ G3 _ _ Hm) a eq_refl) as [_ Hne].
      destruct (decide (q = Heap a)) as [->|Hq].
      * rewrite inc_eq. simpl. rewrite Z.eqb_refl. lia.
      * rewrite inc_ne by done. rewrite (proj2 (Z.eqb_neq _ _)); [lia|].
        destruct q as [|b]; simpl; [done|]. congruence.
    + unfold credit. simpl. case_match; lia.
    + by destruct s3.
    + destruct s3; simpl in *. by rewrite Ho3.
    + by destruct s3.
    + unfold messages_ok. simpl. by eexists _, _.
  - wp_step. apply wp_unlock; [done|]. wp_step.
    eapply handled_status; [done| |unfold ENOMEM; lia].
    etrans; [exact Hc|]. split.
    + etrans; [apply (same_graph_set_locked true)|]. etrans; [exact Hr|apply same_graph_set_locked].
    + rewrite Hl1. by destruct s3.
    + transitivity (out s3); [by destruct s3|]. rewrite Ho3. symmetry. by destruct Hc.
Qed.
End safe.
