(* ===== verification/FuseRename.v ===== *)
(** * sdcard: every handler keeps the contract, the rename handler last

    Rename has three critical sections: resolving (which takes a reference to the child),
    the storage's own rename outside the lock, and the commit. *)

From S2P Require Import Prelude CMonad FuseTypes FuseState FuseNode FuseTree FuseRefs FuseHandlers FuseInv.
From S2P Require Import FuseDerive FuseGraph FuseMutate FuseMove FuseSafe.

Section service.
Context {W : Type} `{!FuseAbi, !AndroidIds, !Os W, !OsOk W}.
Implicit Types s : fs W.

(** The kernel's side of the protocol for the operations on one node. *)
Record request_ok s (K : ptr → list ptr) (ext : refmap) (nodeid : Z) (p : ptr) (n : node) : Prop :=
  mk_request_ok {
    rq_inv : Inv s K ext;
    rq_holds : holds ext nodeid p;
    rq_node : heap s !! p = Some n;
    rq_room : headroom (heap s)
  }.

Lemma calm_heap s s' : calm s s' → heap s' = heap s.
Proof. by intros [[]]. Qed.

Lemma fuse_reply_attr_ok f u s0 s K ext p n path :
  Inv s0 K ext → heap s0 !! p = Some n → calm s0 s →
  wp (fuse_reply_attr f u p path) (handled f u ext s0) s.
Proof.
  intros HI Hp Hc. unfold fuse_reply_attr. wp_step. apply wp_sys_only. intros [st|e] s1 Hs1.
  2:{ wp_step. eapply handled_status; [done| |lia]. etrans; [done|by apply only_world_calm]. }
  assert (calm s0 s1) as Hc1 by (etrans; [done|by apply only_world_calm]).
  wp_step. eapply wp_load; [by rewrite (calm_heap _ _ Hc1)|].
  by eapply handled_reply.
Qed.

Lemma reply_entry_later f u s0 s K ext p n nm actual path :
  Inv s0 K ext → heap s0 !! p = Some n → headroom (heap s0) → calm s0 s → slen actual = slen nm →
  wp (fuse_reply_entry f u p nm actual path) (handled f u ext s0) s.
Proof.
  intros HI Hp Hh Hc Hl.
  eapply wp_mono; [eapply fuse_reply_entry_ok|].
  - by eapply Inv_calm.
  - by rewrite (calm_heap _ _ Hc).
  - by rewrite (calm_heap _ _ Hc).
  - done.
  - intros r s'. by apply handled_calm.
Qed.

Lemma handle_lookup_ok f hdr s K ext p n nm :
  request_ok s K ext (in_nodeid hdr) p n →
  wp (handle_lookup f hdr nm) (handled f (in_unique hdr) ext s) s.
Proof.
  intros [HI Hh Hn Hhd]. unfold handle_lookup. wp_step. eapply wp_mono; [by eapply locked_lookup_ok|].
  intros r s' (-> & path & Hp & ->). destruct (slen path <? PATH_MAX).
  2:{ wp_step. by eapply handled_status. }
  wp_step. eapply wp_mono; [apply find_file_within_ok|].
  intros r s' (Hw & _ & Hf & _). pose proof (only_world_calm _ _ Hw) as Hc.
  destruct r as [[actual cp]|]; [|wp_step; by eapply handled_status].
  wp_step. eapply check_name_ok; [by rewrite (calm_heap _ _ Hc)|].
  destruct (blocked_in n nm); simpl; [wp_step; by eapply handled_status|].
  eapply reply_entry_later; [done..|]. apply strcaseeq_length. by destruct Hf.
Qed.

Lemma handle_getattr_ok f hdr s K ext p n :
  request_ok s K ext (in_nodeid hdr) p n →
  wp (handle_getattr f hdr) (handled f (in_unique hdr) ext s) s.
Proof.
  intros [HI Hh Hn Hhd]. unfold handle_getattr. wp_step. eapply wp_mono; [by eapply locked_lookup_ok|].
  intros r s' (-> & path & Hp & ->). destruct (slen path <? PATH_MAX).
  2:{ wp_step. by eapply handled_status. }
  wp_step. eapply check_node_ok; [apply HI|done|]. intros [].
  - simpl. by eapply fuse_reply_attr_ok.
  - simpl. wp_step. by eapply handled_status.
Qed.

Lemma handle_setattr_ok f hdr req s K ext p n :
  request_ok s K ext (in_nodeid hdr) p n →
  wp (handle_setattr f hdr req) (handled f (in_unique hdr) ext s) s.
Proof.
  intros [HI Hh Hn Hhd]. unfold handle_setattr. wp_step. eapply wp_mono; [by eapply locked_lookup_ok|].
  intros r s' (-> & path & Hp & ->). destruct (slen path <? PATH_MAX).
  2:{ wp_step. by eapply handled_status. }
  wp_step. eapply wp_mono with (P := λ _ s', s' = s).
  { destruct (has_flag _ _); [by wp_step|]. eapply check_node_ok; [apply HI|done|done]. }
  intros [] s' ->; simpl; [|wp_step; by eapply handled_status].
  wp_step. eapply wp_mono with (P := λ _ s', calm s s').
  { destruct (has_flag _ _); [|by wp_step]. apply wp_logged_only. intros. by apply only_world_calm. }
  intros [[]|e] s1 Hc1; [|wp_step; eapply handled_status; [done|done|lia]].
  wp_step. eapply wp_mono with (P := λ _ s', calm s s').
  { destruct (has_flag _ _); [|by wp_step]. apply wp_logged_only. intros.
    etrans; [done|by apply only_world_calm]. }
  intros [[]|e] s2 Hc2; [|wp_step; eapply handled_status; [done|done|lia]].
  by eapply fuse_reply_attr_ok.
Qed.

Lemma handle_mknod_ok f hdr req s K ext p n nm :
  request_ok s K ext (in_nodeid hdr) p n →
  wp (handle_mknod f hdr req nm) (handled f (in_unique hdr) ext s) s.
Proof.
  intros [HI Hh Hn Hhd]. unfold handle_mknod. wp_step. eapply wp_mono; [by eapply resolve_child_ok|].
  intros r s1 (Hc & _ & Hr). destruct r as [err|[[pn actual] path]].
  { wp_step. eapply handled_status; [done..|]. destruct Hr as [-> | ->]; done. }
  destruct Hr as (-> & Ha & _). wp_step. apply wp_logged_only. intros [[]|e] s2 Hs2.
  2:{ wp_step. eapply handled_status; [done| |lia]. etrans; [done|by apply only_world_calm]. }
  eapply reply_entry_later; [done| done | done| |by apply strcaseeq_length].
  etrans; [done|by apply only_world_calm].
Qed.

Lemma touch_ok s path mode (Q : Z → fs W → Prop) :
  (∀ r s', calm s s' → Q r s') → wp (touch path mode) Q s.
Proof.
  intros HQ. unfold touch. wp_step. apply wp_logged_only. intros [fd|e] s1 Hs1.
  - wp_step. apply wp_sys__only. intros s2 Hs2. wp_step. apply HQ.
    etrans; by apply only_world_calm.
  - destruct (_ =? _); wp_step; by apply HQ, only_world_calm.
Qed.

Lemma touch_nomedia_ok s (b : bool) dir :
  wp (if b then touch_nomedia dir else mret true) (λ _ s', calm s s') s.
Proof.
  destruct b; [|by wp_step]. unfold touch_nomedia. wp_step. apply touch_ok. intros. by wp_step.
Qed.

Lemma handle_mkdir_ok f hdr req s K ext p n nm :
  request_ok s K ext (in_nodeid hdr) p n →
  wp (handle_mkdir f hdr req nm) (handled f (in_unique hdr) ext s) s.
Proof.
  intros [HI Hh Hn Hhd]. unfold handle_mkdir. wp_step. eapply wp_mono; [by eapply resolve_child_ok|].
  intros r s1 (Hc & _ & Hr). destruct r as [err|[[pn actual] path]].
  { wp_step. eapply handled_status; [done..|]. destruct Hr as [-> | ->]; done. }
  destruct Hr as (-> & Ha & _). wp_step. apply wp_logged_only. intros [[]|e] s2 Hs2.
  2:{ wp_step. eapply handled_status; [done| |lia]. etrans; [done|by apply only_world_calm]. }
  assert (calm s s2) as Hc2 by (etrans; [done|by apply only_world_calm]).
  wp_step. eapply wp_load; [by rewrite (calm_heap _ _ Hc2)|]. wp_step. apply wp_get.
  wp_step. eapply wp_mono; [apply touch_nomedia_ok|]. intros ok s3 Hc3. cbn beta.
  assert (calm s s3) as Hc4 by (by etrans).
  destruct ok; simpl; [|wp_step; by eapply handled_status].
  wp_step. eapply wp_mono; [apply touch_nomedia_ok|]. intros ok s5 Hc5. cbn beta.
  assert (calm s s5) as Hc6 by (by etrans).
  destruct ok; simpl; [|wp_step; by eapply handled_status].
  eapply reply_entry_later; [done..|by apply strcaseeq_length].
Qed.

(** *** Deletion *)

Lemma Graph_set_deleted s K D X ext p n :
  Graph s K D X ext → heap s !! p = Some n →
  Graph (set_heap (<[p := set_deleted true n]> (heap s)) s) K D X ext.
Proof.
  intros [T R Hw [Hr Hu Hi] Hc] Hp.
  assert (∀ x m', <[p := set_deleted true n]> (heap s) !! x = Some m' → ∃ m, heap s !! x = Some m ∧
    pinfo_of m' = pinfo_of m ∧ parent m' = parent m ∧ ino m' = ino m ∧ refcount m' = refcount m ∧
    name m' = name m) as Hb.
  { intros x m' [[<- <-]|[? ?]]%lookup_insert_Some; [|eauto 10].
    exists n. split; [done|]. by destruct n. }
  split; rewrite ?heap_set_heap, ?ctr_set_heap, ?packages_set_heap.
  - eapply tree_ok_ext; [|done]. intros x. rewrite lookup_insert. case_decide as Hx; [|done].
    rewrite <- Hx, Hp. simpl. by nf.
  - split.
    + intros x m' (m & Hm & _ & _ & _ & Hrc & _)%Hb. rewrite Hrc. by apply (r_count _ _ _ R).
    + intros x [? ?]%lookup_insert_None. by apply (r_dead _ _ _ R).
  - intros x m [[<- <-]|[? ?]]%lookup_insert_Some; [|by apply Hw].
    destruct (Hw _ _ Hp). destruct n. by split.
  - split; [done| |].
    + intros x m' (m & Hm & _ & _ & Hino & _)%Hb. rewrite Hino. eauto.
    + intros x y m1 m2 (m1' & Hm1 & _ & _ & Hi1 & _)%Hb (m2' & Hm2 & _ & _ & Hi2 & _)%Hb.
      rewrite Hi1, Hi2. eauto.
  - intros x m' q mq' Hx (m & Hm & Hpi & Hpar & _ & _ & Hn)%Hb Hq (mq & Hmq & Hpq & _)%Hb.
    rewrite Hpi, Hpq, Hn. apply (Hc x m q mq); [done|done|congruence|done].
Qed.

(** The notices sent for a deleted child: one to each other view. *)
Definition notice (par child : node) (nm : string) (v : view) : view * fuse_out :=
  (v, ONotifyDelete (u32 (sizeof_out_header + sizeof_notify_delete_out + slen nm + 1))
        (nid par) (nid child) (slen nm) nm).
Definition other_views (f : fuse) : list view :=
  filter (λ v, fview f ≠ v) [V_FULL; V_WRITE; V_READ; V_DEFAULT].

Definition add_outs (l : list (view * fuse_out)) (s : fs W) : fs W := foldr add_out s l.

Lemma out_add_outs l s : out (add_outs l s) = l ++ out s.
Proof. induction l as [|m l IH]; [done|]. simpl. rewrite <- IH. by destruct (add_outs l s). Qed.
Lemma same_add_outs l s : same_graph s (add_outs l s).
Proof. induction l; [done|]. etrans; [done|]. apply same_graph_add_out. Qed.
Lemma locked_add_outs l s : locked (add_outs l s) = locked s.
Proof. induction l as [|m l IH]; [done|]. simpl. rewrite <- IH. by destruct (add_outs l s). Qed.

Lemma notify_other_views_ok f s p c pn cn nm :
  heap s !! p = Some pn → heap s !! c = Some cn →
  wp (notify_other_views f p c nm) (λ _ s',
    s' = add_outs (notice pn cn nm <$> other_views f) s) s.
Proof.
  intros Hp Hc. unfold notify_other_views. wp_step. eapply wp_load; [done|].
  wp_step. eapply wp_load; [done|].
  unfold fuse_notify_delete, send, other_views. destruct (fview f); simpl; by wp_steps.
Qed.

Lemma notices_are f pn cn nm : Forall (is_notice f) (notice pn cn nm <$> other_views f).
Proof.
  apply Forall_fmap, Forall_forall. intros v Hv. unfold other_views in Hv.
  apply list_elem_of_filter in Hv as [Hv _]. simpl. congruence.
Qed.

Lemma delete_child_ok f u s0 s K ext p n nm :
  Inv s0 K ext → heap s0 !! p = Some n → calm s0 s →
  wp (delete_child f p nm) (handled f u ext s0) s.
Proof.
  intros HI Hp Hc. pose proof (Inv_calm _ _ _ _ Hc HI) as [G HR Hl].
  rewrite <- (calm_heap _ _ Hc) in Hp.
  unfold delete_child. wp_step. apply wp_lock; [done|]. wp_step.
  set (s1 := set_locked true s).
  assert (heap s1 = heap s) as Hh1 by (by destruct s).
  assert (Graph s1 K ∅ ∅ ext) as G1 by (eapply Graph_same; [apply same_graph_set_locked|done]).
  eapply wp_mono; [eapply lookup_child_by_name_locked_ok; [apply G1|by rewrite Hh1]|].
  intros c s' [-> Hfc]. cbn beta. destruct c as [c|].
  - symmetry in Hfc. apply find_child_some in Hfc as (_ & cn & Hcn & _ & _).
    wp_step. eapply wp_update; [done|]. set (h2 := <[c := set_deleted true cn]> (heap s1)).
    pose proof (Graph_set_deleted _ _ _ _ _ _ _ G1 Hcn) as G2. fold h2 in G2.
    wp_step. apply wp_unlock; [by destruct s|]. wp_step.
    set (s3 := set_locked false (set_heap h2 s1)).
    assert (heap s3 = h2) as Hh3 by (unfold s3, s1; by destruct s).
    assert (∃ pn', h2 !! p = Some pn') as [pn' Hpn'].
    { unfold h2. destruct (decide (c = p)) as [->|]; [rewrite lookup_insert_eq; eauto|].
      rewrite lookup_insert_ne, Hh1 by done. eauto. }
    eapply wp_mono; [eapply notify_other_views_ok; rewrite Hh3; [done|apply lookup_insert_eq]|].
    intros [] s4 ->. cbn beta. wp_step. set (msgs := _ <$> _).
    assert (Forall (is_notice f) msgs) as Hmsgs by apply notices_are.
    exists K, msgs. split_and!.
    + apply (Inv_ext _ _ ext); [|eapply Inv_same; [apply same_add_outs|apply locked_add_outs|]].
      { intros q. by rewrite (credit_notices f). }
      split; [|done|unfold s3, s1; by destruct s].
      eapply Graph_same; [|exact G2]. apply same_graph_set_locked.
    + rewrite out_add_outs. f_equal. transitivity (out s); [unfold s3, s1; by destruct s|]. by destruct Hc.
    + rewrite (sg_packages _ _ (same_add_outs _ _)).
      transitivity (package_to_appid s); [unfold s3, s1; by destruct s|]. by destruct Hc as [[]].
    + by split.
  - wp_step. wp_step. wp_step. apply wp_unlock; [by destruct s|]. wp_step. wp_step. wp_step.
    eapply handled_status; [done| |done]. unfold s1. by rewrite set_locked_id.
Qed.

Lemma handle_unlink_ok f hdr s K ext p n nm :
  request_ok s K ext (in_nodeid hdr) p n →
  wp (handle_unlink f hdr nm) (handled f (in_unique hdr) ext s) s.
Proof.
  intros [HI Hh Hn Hhd]. unfold handle_unlink. wp_step. eapply wp_mono; [by eapply resolve_child_ok|].
  intros r s1 (Hc & _ & Hr). destruct r as [err|[[pn actual] path]].
  { wp_step. eapply handled_status; [done..|]. destruct Hr as [-> | ->]; done. }
  destruct Hr as (-> & Ha & _). wp_step. apply wp_logged_only. intros [[]|e] s2 Hs2.
  2:{ wp_step. eapply handled_status; [done| |lia]. etrans; [done|by apply only_world_calm]. }
  eapply delete_child_ok; [done..|]. etrans; [done|by apply only_world_calm].
Qed.

Lemma handle_rmdir_ok f hdr s K ext p n nm :
  request_ok s K ext (in_nodeid hdr) p n →
  wp (handle_rmdir f hdr nm) (handled f (in_unique hdr) ext s) s.
Proof.
  intros [HI Hh Hn Hhd]. unfold handle_rmdir. wp_step. eapply wp_mono; [by eapply resolve_child_ok|].
  intros r s1 (Hc & _ & Hr). destruct r as [err|[[pn actual] path]].
  { wp_step. eapply handled_status; [done..|]. destruct Hr as [-> | ->]; done. }
  destruct Hr as (-> & Ha & _). wp_step. apply wp_logged_only. intros [[]|e] s2 Hs2.
  2:{ wp_step. eapply handled_status; [done| |lia]. etrans; [done|by apply only_world_calm]. }
  eapply delete_child_ok; [done..|]. etrans; [done|by apply only_world_calm].
Qed.
End service.

(** * The rename handler *)

Section rename.
Context {W : Type} `{!FuseAbi, !AndroidIds, !Os W, !OsOk W}.
Implicit Types s : fs W.

(** The kernel never moves a directory into itself. *)
Definition no_cycle (h : nodes) (p np : ptr) (nm : string) : Prop :=
  ∀ c m l, h !! c = Some m → parent m = Some p → str (name m) = nm → deleted m = false →
    lineage h np l → c ∉ l.

(** The outcome of the first critical section. *)
Definition rename_resolved s K (ext : refmap) (p np : ptr) (old_name new_name : string)
    (r : Z + (ptr * string * ptr * string * ptr)) s' : Prop :=
  match r with
  | inl err => s' = s ∧ (err = - EACCES ∨ err = - ENOENT)
  | inr (o, opath, n', npath, c) =>
      o = p ∧ n' = np ∧ has_path (heap s) c opath ∧ has_path (heap s) np npath ∧
      ∃ cn, heap s !! c = Some cn ∧ parent cn = Some p ∧ str (name cn) = old_name ∧
        deleted cn = false ∧
        s' = set_heap (<[c := set_refcount (refcount cn + 1) cn]> (heap s)) s ∧
        Graph s' K ∅ ∅ (inc c ext) ∧
        ∀ pn npn, heap s !! p = Some pn → heap s !! np = Some npn →
          blocked_in pn old_name = false ∧ blocked_in npn new_name = false
  end.

Lemma rename_resolve_ok s K ext hdr req p np old_name new_name :
  Graph s K ∅ ∅ ext → holds ext (in_nodeid hdr) p → holds ext (newdir req) np → headroom (heap s) →
  wp (rename_resolve hdr req old_name new_name)
    (rename_resolved s K ext p np old_name new_name) s.
Proof.
  intros G Hp Hnp Hhd. pose proof (g_tree _ _ _ _ _ G) as T.
  destruct (holds_live _ _ _ _ _ _ _ G Hp) as [pn Hpn].
  destruct (holds_live _ _ _ _ _ _ _ G Hnp) as [npn Hnpn].
  destruct (has_path_exists _ _ _ _ _ T Hpn) as [ppath Hppath].
  destruct (has_path_exists _ _ _ _ _ T Hnpn) as [npath Hnpath].
  unfold rename_resolve. wp_step. eapply wp_mono.
  { eapply (lookup_node_and_path_ok _ _ p ppath); [apply G|apply Hp|done]. }
  intros o s' [-> ->]. cbn beta. wp_step. eapply wp_mono.
  { eapply (lookup_node_and_path_ok _ _ np npath); [apply G|apply Hnp|done]. }
  intros n' s' [-> ->]. cbn beta.
  destruct (slen ppath <? PATH_MAX), (slen npath <? PATH_MAX); try (wp_step; by split; [|right]).
  wp_step. eapply check_name_ok; [done|].
  destruct (blocked_in pn old_name) eqn:Hb1; simpl; [wp_step; by split; [|left]|].
  wp_step. eapply check_name_ok; [done|].
  destruct (blocked_in npn new_name) eqn:Hb2; simpl; [wp_step; by split; [|left]|].
  wp_step. eapply wp_mono; [by eapply lookup_child_by_name_locked_ok|].
  intros c s' [-> Hfc]. cbn beta. destruct c as [c|]; [|wp_step; by split; [|right]].
  symmetry in Hfc. apply find_child_some in Hfc as (HcK & cn & Hcn & Hname & Hdel).
  destruct (t_kid _ _ _ T _ _ _ Hpn HcK) as (cn' & Hcn' & Hpar). simplify_eq.
  destruct (has_path_exists _ _ _ _ _ T Hcn) as [cpath Hcpath].
  wp_step. eapply wp_mono; [eapply get_node_path_locked_ok; [apply G|done]|].
  intros r s' [-> ->]. cbn beta. destruct (slen cpath <? PATH_MAX); [|wp_step; by split; [|right]].
  wp_step. eapply wp_mono; [eapply Graph_acquire; [done|done|pose proof (Hhd _ _ Hcn); lia]|].
  intros [] s' (h' & -> & -> & G'). cbn beta. wp_step. split_and!; [done..|].
  exists cn. split_and!; try done. intros. by simplify_eq.
Qed.

Lemma rename_done_ok s K ext c cn res :
  Graph s K ∅ ∅ (inc c ext) → locked s = true → heap s !! c = Some cn → c ≠ Root →
  0 <= ext c → 1 <= ext Root →
  wp (rename_done c res) (λ r s', r = res ∧ ∃ K', Inv s' K' ext ∧ out s' = out s ∧
    package_to_appid s' = package_to_appid s ∧ released ∅ (heap s) (heap s') K K') s.
Proof.
  intros G Hl Hc HcR He HeR. pose proof (g_tree _ _ _ _ _ G) as T.
  destruct (t_lin _ _ _ T _ _ Hc) as [l Hlin].
  unfold rename_done. wp_step. eapply wp_mono.
  { eapply Graph_release; [done|done|by eapply root_in_lineage|rewrite inc_eq; lia|].
    rewrite dec_inc. done. }
  intros [] s1 (h' & K' & -> & G' & Rel). cbn beta. wp_step. apply wp_unlock; [by destruct s|].
  wp_step. split; [done|]. exists K'. split_and!.
  - split; [|done|by destruct s]. eapply Graph_ext; [intros; apply dec_inc|].
    eapply Graph_same; [apply same_graph_set_locked|done].
  - by destruct s.
  - by destruct s.
  - replace (heap (set_locked false (set_heap h' s))) with h' by (by destruct s). done.
Qed.

Lemma handled_plain f u ext s r s' K' :
  Inv s' K' ext → out s' = out s → package_to_appid s' = package_to_appid s → r <= 0 →
  handled f u ext s r s'.
Proof.
  intros HI Ho Hp Hr. exists K', []. split_and!; [|done|done|].
  - eapply Inv_ext; [|done]. intros. by rewrite credit_nil.
  - unfold messages_ok. rewrite (proj2 (Z.eqb_neq _ _)) by (unfold NO_STATUS; lia). done.
Qed.

Lemma handle_rename_ok f hdr req s K ext p n np old_name new_name :
  request_ok s K ext (in_nodeid hdr) p n → holds ext (newdir req) np →
  no_cycle (heap s) p np old_name →
  wp (handle_rename f hdr req old_name new_name) (handled f (in_unique hdr) ext s) s.
Proof.
  intros [HI Hh Hn Hhd] Hnp Hcyc. pose proof HI as [G HeR Hl].
  unfold handle_rename. wp_step. apply wp_lock; [done|]. wp_step.
  set (s1 := set_locked true s).
  assert (heap s1 = heap s) as Hh1 by (by destruct s).
  assert (out s1 = out s ∧ package_to_appid s1 = package_to_appid s) as [Ho1 Hp1] by (by destruct s).
  assert (Graph s1 K ∅ ∅ ext) as G1 by (eapply Graph_same; [apply same_graph_set_locked|done]).
  eapply wp_mono; [eapply rename_resolve_ok; [done|done|done|by rewrite Hh1]|].
  intros r s2 Hr. cbn beta. destruct r as [err|[[[[o opath] n'] npath] c]].
  { destruct Hr as [-> Herr]. wp_step. apply wp_unlock; [by destruct s|]. wp_step.
    eapply handled_plain; [by unfold s1; rewrite set_locked_id|by destruct s..|].
    by destruct Herr as [-> | ->]. }
  destruct Hr as (-> & -> & _ & Hnpath & cn & Hcn & Hpar & Hname & Hdel & Hs2 & G2 & _).
  rewrite Hh1 in *.
  assert (heap s2 = <[c := set_refcount (refcount cn + 1) cn]> (heap s)) as Hh2.
  { rewrite Hs2. apply heap_set_heap. }
  assert (locked s2 = true ∧ out s2 = out s ∧ package_to_appid s2 = package_to_appid s) as (Hl2 & Ho2 & Hp2).
  { rewrite Hs2. by destruct s. }
  clear Hs2. assert (0 <= ext c).
  { pose proof (g_refs _ _ _ _ _ G) as R. by destruct (r_count _ _ _ R _ _ Hcn) as (_ & ? & _). }
  assert (c ≠ Root) as HcR.
  { intros ->. destruct (t_root _ _ _ (g_tree _ _ _ _ _ G)) as (? & ? & ?). congruence. }
  wp_step. apply wp_unlock; [done|]. set (s3 := set_locked false s2).
  assert (calm s3 s3 ∧ heap s3 = heap s2) as [Hc3 Hh3] by (by destruct s2).
  assert (∀ s4, calm s3 s4 → let s5 := set_locked true s4 in
    Graph s5 K ∅ ∅ (inc c ext) ∧ locked s4 = false ∧ locked s5 = true ∧ heap s5 = heap s2 ∧
    out s5 = out s ∧ package_to_appid s5 = package_to_appid s) as Hcalm.
  { intros s4 [Hg4 Hl4 Ho4] s5. split_and!.
    - eapply Graph_same; [|exact G2]. etrans; [apply (same_graph_set_locked false)|].
      etrans; [exact Hg4|apply same_graph_set_locked].
    - rewrite Hl4. by destruct s2.
    - by destruct s4.
    - transitivity (heap s4); [by destruct s4|]. by rewrite (sg_heap _ _ Hg4), Hh3.
    - transitivity (out s4); [by destruct s4|]. rewrite Ho4. by destruct s2.
    - transitivity (package_to_appid s4); [by destruct s4|]. rewrite (sg_packages _ _ Hg4). by destruct s2. }
  assert (heap s2 !! c = Some (set_refcount (refcount cn + 1) cn)) as Hc2.
  { rewrite Hh2. apply lookup_insert_eq. }
  assert (∀ s4 err, calm s3 s4 → err <= 0 →
    wp (lock ;; rename_done c err) (handled f (in_unique hdr) ext s) s4) as Hfail.
  { intros s4 err Hc4 Herr. destruct (Hcalm _ Hc4) as (G5 & Hl4 & Hl5 & Hh5 & Ho5 & Hp5).
    wp_step. apply wp_lock; [done|]. eapply wp_mono.
    { eapply rename_done_ok; [exact G5|done|rewrite Hh5; exact Hc2|done..]. }
    intros r s6 (-> & K' & HI6 & Ho6 & Hp6 & _). eapply handled_plain; [done|congruence..|done]. }
  wp_step. eapply wp_mono; [apply find_file_within_ok|].
  intros r s4 (Hw & _ & Hf & _). cbn beta. pose proof (only_world_calm _ _ Hw) as Hc4.
  destruct r as [[nactual ncpath]|]; [|by apply Hfail].
  destruct Hf as (Ha & _). wp_step. apply wp_logged_only. intros [[]|e] s5 Hs5.
  2:{ apply Hfail; [|lia]. etrans; [done|by apply only_world_calm]. }
  assert (calm s3 s5) as Hc5 by (etrans; [done|by apply only_world_calm]).
  destruct (Hcalm _ Hc5) as (G6 & Hl5 & Hl6 & Hh6 & Ho6 & Hp6).
  wp_step. apply wp_lock; [done|]. wp_step.
  destruct (holds_live _ _ _ _ _ _ _ G Hnp) as [npn Hnpn].
  destruct (t_lin _ _ _ (g_tree _ _ _ _ _ G) _ _ Hnpn) as [l Hlin].
  pose proof (Hcyc _ _ _ Hcn Hpar Hname Hdel Hlin) as Hcl.
  assert (np ≠ c) as Hnpc.
  { intros ->. apply Hcl. destruct (lineage_head _ _ _ Hlin) as [? ->]. left. }
  set (s7 := set_locked true s5) in *.
  eapply wp_mono.
  { eapply (rename_commit_ok s7 K (inc c ext) c (set_refcount (refcount cn + 1) cn) p np npn l);
      rewrite ?Hh6; [exact G6|done|by nf| | |done| | | |].
    - by rewrite Hh2, lookup_insert_ne.
    - rewrite Hh2. eapply lineage_ext; [|exact Hlin]. intros x _. rewrite lookup_insert.
      case_decide as Hx; [|done]. rewrite <- Hx, Hcn. simpl. by nf.
    - by rewrite inc_ne.
    - rewrite inc_ne by done. apply Hnp.
    - pose proof (Hhd _ _ Hnpn). lia.
    - by apply strcaseeq_length. }
  intros r s8 ([Hql Hqp _ _ Hqo _] & K8 & n8 & G8 & Hc8 & Hr). cbn beta.
  eapply wp_mono; [eapply rename_done_ok; [exact G8|congruence|exact Hc8|done..]|].
  intros r' s9 (-> & K9 & HI9 & Ho9 & Hp9 & _).
  eapply handled_plain; [done|congruence..|]. by destruct Hr as [(-> & _)|(-> & _)].
Qed.
End rename.
