(* ===== verification/FuseServe.v ===== *)
(** * sdcard: serving requests

    The remaining handlers, FORGET, and the dispatcher: a request the kernel may
    send is always answered, exactly once, and leaves the daemon consistent. *)

From S2P Require Import Prelude CMonad FuseTypes FuseState FuseNode FuseTree FuseRefs FuseHandlers FuseInv.
From S2P Require Import FuseDerive FuseGraph FuseMutate FuseMove FuseSafe FuseRename.

Section serve.
Context {W : Type} `{!FuseAbi, !FuseAbiOk, !AndroidIds, !Os W, !OsOk W}.
Implicit Types s : fs W.

Local Ltac status := eapply handled_status; [done|done|by (done || lia)].

(** ** Open files *)

Lemma handle_open_ok f hdr req s K ext p n :
  request_ok s K ext (in_nodeid hdr) p n →
  wp (handle_open f hdr req) (handled f (in_unique hdr) ext s) s.
Proof.
  intros [HI Hh Hn Hhd]. unfold handle_open. wp_step. eapply wp_mono; [by eapply locked_lookup_ok|].
  intros r s' (-> & path & Hp & ->). destruct (slen path <? PATH_MAX); [|wp_step; status].
  wp_step. eapply check_node_ok; [apply HI|done|]. intros []; simpl; [|wp_step; status].
  wp_step. apply wp_malloc_only. intros [h|] s1 Hs1%only_world_calm; [|wp_step; status].
  wp_step. apply wp_logged_only. intros [fd|e] s2 Hs2%only_world_calm.
  2:{ wp_step. eapply handled_status; [done|by etrans|lia]. }
  wp_step. eapply handled_reply; [done| |done]. etrans; [done|]. etrans; [done|].
  apply calm_set_handles.
Qed.

Lemma handle_opendir_ok f hdr s K ext p n :
  request_ok s K ext (in_nodeid hdr) p n →
  wp (handle_opendir f hdr) (handled f (in_unique hdr) ext s) s.
Proof.
  intros [HI Hh Hn Hhd]. unfold handle_opendir. wp_step. eapply wp_mono; [by eapply locked_lookup_ok|].
  intros r s' (-> & path & Hp & ->). destruct (slen path <? PATH_MAX); [|wp_step; status].
  wp_step. eapply check_node_ok; [apply HI|done|]. intros []; simpl; [|wp_step; status].
  wp_step. apply wp_malloc_only. intros [h|] s1 Hs1%only_world_calm; [|wp_step; status].
  wp_step. apply wp_sys_only. intros [fd|e] s2 Hs2%only_world_calm.
  2:{ wp_step. eapply handled_status; [done|by etrans|lia]. }
  wp_step. eapply handled_reply; [done| |done]. etrans; [done|]. etrans; [done|].
  apply calm_set_handles.
Qed.

(** [fh] is an open file, or an open directory. *)
Definition is_file s (fh : Z) : Prop := ∃ fd, handles s !! wrap UINTPTR_BITS fh = Some (HFile fd).
Definition is_dir s (fh : Z) : Prop := ∃ d, handles s !! wrap UINTPTR_BITS fh = Some (HDir d).

Lemma file_handle_ok s fh (Q : Z → fs W → Prop) :
  is_file s fh → (∀ fd, Q fd s) → wp (file_handle fh) Q s.
Proof.
  intros [fd Hfd] HQ. unfold file_handle. wp_step. unfold wp, load_handle. rewrite Hfd. apply HQ.
Qed.
Lemma dir_handle_ok s fh (Q : Z → fs W → Prop) :
  is_dir s fh → (∀ d, Q d s) → wp (dir_handle fh) Q s.
Proof.
  intros [d Hd] HQ. unfold dir_handle. wp_step. unfold wp, load_handle. rewrite Hd. apply HQ.
Qed.

Lemma wp_free_handle s fh (Q : unit → fs W → Prop) :
  Q tt (set_handles (delete (wrap UINTPTR_BITS fh) (handles s)) s) → wp (free_handle fh) Q s.
Proof. done. Qed.

Lemma handle_read_ok f hdr req s K ext :
  Inv s K ext → is_file s (read_fh req) →
  wp (handle_read f hdr req) (handled f (in_unique hdr) ext s) s.
Proof.
  intros HI Hf. unfold handle_read. destruct (_ <? _); [wp_step; status|].
  wp_step. apply file_handle_ok; [done|]. intros fd.
  wp_step. apply wp_sys_only. intros [bytes|e] s1 Hs1%only_world_calm.
  - by eapply handled_reply.
  - wp_step. status.
Qed.

Lemma handle_write_ok f hdr req buffer s K ext :
  Inv s K ext → is_file s (write_fh req) → write_size req <= Z.of_nat (length buffer) →
  wp (handle_write f hdr req buffer) (handled f (in_unique hdr) ext s) s.
Proof.
  intros HI Hf Hlen. unfold handle_write. wp_step. apply file_handle_ok; [done|]. intros fd.
  wp_step. apply wp_require; [by apply Z.leb_le|].
  wp_step. apply wp_logged_only. intros [m|e] s1 Hs1%only_world_calm.
  - by eapply handled_reply.
  - wp_step. status.
Qed.

Lemma handle_release_ok f u req s K ext :
  Inv s K ext → is_file s (release_fh req) → wp (handle_release req) (handled f u ext s) s.
Proof.
  intros HI Hf. unfold handle_release. wp_step. apply file_handle_ok; [done|]. intros fd.
  wp_step. apply wp_sys__only. intros s1 Hs1%only_world_calm. wp_step. apply wp_free_handle. wp_step.
  eapply handled_status; [done| |done]. etrans; [done|]. apply calm_set_handles.
Qed.

Lemma handle_releasedir_ok f u req s K ext :
  Inv s K ext → is_dir s (release_fh req) → wp (handle_releasedir req) (handled f u ext s) s.
Proof.
  intros HI Hf. unfold handle_releasedir. wp_step. apply dir_handle_ok; [done|]. intros d.
  wp_step. apply wp_sys__only. intros s1 Hs1%only_world_calm. wp_step. apply wp_free_handle. wp_step.
  eapply handled_status; [done| |done]. etrans; [done|]. apply calm_set_handles.
Qed.

Lemma handle_fsync_ok f u hdr req s K ext :
  Inv s K ext → (if in_opcode hdr =? FUSE_FSYNCDIR then is_dir s (fsync_fh req) else is_file s (fsync_fh req)) →
  wp (handle_fsync hdr req) (handled f u ext s) s.
Proof.
  intros HI Hf. unfold handle_fsync. wp_step. eapply wp_mono with (P := λ _ s', s' = s).
  { destruct (_ =? _).
    - wp_step. apply dir_handle_ok; [done|]. intros d. by wp_steps.
    - apply file_handle_ok; done. }
  intros fd s' ->. wp_step. eapply wp_mono with (P := λ _ s', calm s s').
  { destruct (truthy _); apply wp_sys_only; intros; by apply only_world_calm. }
  intros [[]|e] s1 Hc; wp_step; status.
Qed.

Lemma handle_readdir_ok f hdr req s K ext :
  Inv s K ext → is_dir s (read_fh req) →
  wp (handle_readdir f hdr req) (handled f (in_unique hdr) ext s) s.
Proof.
  intros HI Hf. unfold handle_readdir. wp_step. apply dir_handle_ok; [done|]. intros d.
  wp_step. eapply wp_mono with (P := λ _ s', calm s s').
  { destruct (_ =? _); [|by wp_step]. apply wp_sys__only. intros. by apply only_world_calm. }
  intros [] s1 Hs1. wp_step. apply wp_sys_only. intros [de|] s2 Hs2%only_world_calm.
  - eapply handled_reply; [done|by etrans|done].
  - wp_step. eapply handled_status; [done|by etrans|done].
Qed.

Lemma handle_statfs_ok f hdr s K ext :
  Inv s K ext → wp (handle_statfs f hdr) (handled f (in_unique hdr) ext s) s.
Proof.
  intros HI. pose proof HI as [G HR Hl]. pose proof (g_tree _ _ _ _ _ G) as T.
  destruct (t_root _ _ _ T) as (r & Hr & _).
  destruct (has_path_exists _ _ _ _ _ T Hr) as [path Hpath].
  unfold handle_statfs. wp_step. apply wp_lock; [done|]. wp_step. eapply wp_mono.
  { eapply (get_node_path_locked_ok _ Root path); [|by destruct s].
    intros p m Hm. apply (g_node _ _ _ _ _ G). by destruct s. }
  intros o s' [-> ->]. cbn beta. wp_step. apply wp_unlock; [by destruct s|].
  rewrite set_locked_id by done. destruct (slen path <? PATH_MAX); [|wp_step; status].
  wp_step. eapply wp_load; [done|].
  wp_step. apply wp_sys_only. intros [st|e] s1 Hs1%only_world_calm; [|wp_step; status].
  by eapply handled_reply.
Qed.

Lemma handle_init_ok f hdr req s K ext :
  Inv s K ext → wp (handle_init f hdr req) (handled f (in_unique hdr) ext s) s.
Proof.
  intros HI. unfold handle_init. destruct (_ || _); [wp_step; status|].
  by eapply handled_reply.
Qed.

Lemma handle_canonical_path_ok f hdr s K ext p n :
  request_ok s K ext (in_nodeid hdr) p n →
  wp (handle_canonical_path f hdr) (handled f (in_unique hdr) ext s) s.
Proof.
  intros [HI Hh Hn Hhd]. unfold handle_canonical_path. wp_step.
  eapply wp_mono; [by eapply locked_lookup_ok|].
  intros r s' (-> & path & Hp & ->). destruct (slen path <? PATH_MAX); [|wp_step; status].
  wp_step. eapply check_node_ok; [apply HI|done|]. intros []; simpl; [|wp_step; status].
  by eapply handled_reply.
Qed.

(** ** Forgetting *)

Definition forget (p : ptr) (n : Z) (ext : refmap) : refmap := <[p := ext p - n]> ext.

Lemma release_times_ok K p : ∀ n s ext, Graph s K ∅ ∅ ext →
  Z.of_nat n <= ext p → 1 <= forget p (Z.of_nat n) ext Root →
  wp (release_times n p) (λ _ s', ∃ h' K', s' = set_heap h' s ∧
    Graph s' K' ∅ ∅ (forget p (Z.of_nat n) ext)) s.
Proof.
  intros n. revert K. induction n as [|n IH]; intros K s ext G Hn HR.
  { simpl. wp_step. exists (heap s), K. rewrite set_heap_id. split; [done|].
    eapply Graph_ext; [|exact G]. intros q. unfold forget. destruct (decide (p = q)) as [->|].
    - rewrite fn_lookup_insert. lia.
    - by rewrite fn_lookup_insert_ne. }
  pose proof (g_tree _ _ _ _ _ G) as T.
  destruct (heap s !! p) as [m|] eqn:Hp.
  2:{ pose proof (r_dead _ _ _ (g_refs _ _ _ _ _ G) _ Hp). lia. }
  destruct (t_lin _ _ _ T _ _ Hp) as [l Hl].
  assert (∀ q, forget p (Z.of_nat n) (dec p ext) q = forget p (Z.of_nat (S n)) ext q) as Hfg.
  { intros q. unfold forget, dec. destruct (decide (p = q)) as [->|].
    - rewrite !fn_lookup_insert. lia.
    - by rewrite !fn_lookup_insert_ne. }
  simpl. wp_step. eapply wp_mono.
  { eapply Graph_release; [exact G|done|by eapply root_in_lineage|lia|].
    rewrite <- Hfg in HR. unfold forget in HR. destruct (decide (p = Root)) as [->|].
    - rewrite fn_lookup_insert in HR. lia.
    - by rewrite fn_lookup_insert_ne in HR. }
  intros [] s1 (h1 & K1 & -> & G1 & _). cbn beta. eapply wp_mono; [eapply IH; [exact G1| |]|].
  - rewrite dec_eq. lia.
  - by rewrite Hfg.
  - intros [] s2 (h2 & K2 & -> & G2). exists h2, K2. split; [by destruct s|].
    eapply Graph_ext; [|exact G2]. done.
Qed.

Lemma handle_forget_ok hdr req s K ext p :
  Inv s K ext → lookup_node_by_id_locked (in_nodeid hdr) = Some p →
  0 <= nlookup req <= ext p → 1 <= forget p (nlookup req) ext Root →
  wp (handle_forget hdr req) (λ r s', r = NO_STATUS ∧ ∃ K',
    Inv s' K' (forget p (nlookup req) ext) ∧ out s' = out s ∧
    package_to_appid s' = package_to_appid s) s.
Proof.
  intros [G HR Hl] Hid Hn HfR. unfold handle_forget. wp_step. apply wp_lock; [done|]. rewrite Hid.
  wp_step. eapply wp_mono.
  { eapply (release_times_ok K p _ _ ext); [eapply Graph_same; [apply same_graph_set_locked|done]|lia|].
    by rewrite Z2Nat.id by lia. }
  intros [] s1 (h1 & K1 & -> & G1). cbn beta. wp_step. apply wp_unlock; [by destruct s|]. wp_step.
  split; [done|]. exists K1. rewrite Z2Nat.id in G1 by lia. split_and!; [split| |].
  - eapply Graph_same; [apply same_graph_set_locked|done].
  - done.
  - by destruct s.
  - by destruct s.
  - by destruct s.
Qed.

(** ** Requests *)

(** A request the kernel may send in state [s], holding the references [ext]:
    it names nodes it has looked up, files it has opened, and NUL-terminates
    its strings. *)
Record valid_request s (ext : refmap) (hdr : fuse_in_header) (data : list Ascii.ascii) : Prop :=
  mk_valid_request {
    v_room : headroom (heap s);
    v_node : in_opcode hdr ∈ [FUSE_LOOKUP; FUSE_GETATTR; FUSE_SETATTR; FUSE_MKNOD; FUSE_MKDIR;
        FUSE_UNLINK; FUSE_RMDIR; FUSE_RENAME; FUSE_OPEN; FUSE_OPENDIR; FUSE_CANONICAL_PATH] →
      ∃ p, holds ext (in_nodeid hdr) p;
    v_name : in_opcode hdr ∈ [FUSE_LOOKUP; FUSE_UNLINK; FUSE_RMDIR] → is_Some (cstring data);
    v_mknod : in_opcode hdr = FUSE_MKNOD → is_Some (cstring (drop (Z.to_nat sizeof_mknod_in) data));
    v_mkdir : in_opcode hdr = FUSE_MKDIR → is_Some (cstring (drop (Z.to_nat sizeof_mkdir_in) data));
    v_rename : in_opcode hdr = FUSE_RENAME → ∃ old_name new_name np,
      cstring (drop (Z.to_nat sizeof_rename_in) data) = Some old_name ∧
      cstring (drop (Z.to_nat (sizeof_rename_in + slen old_name + 1)) data) = Some new_name ∧
      holds ext (newdir (as_rename_in data)) np ∧
      ∀ p, holds ext (in_nodeid hdr) p → no_cycle (heap s) p np old_name;
    v_forget : in_opcode hdr = FUSE_FORGET → ∃ p,
      lookup_node_by_id_locked (in_nodeid hdr) = Some p ∧
      0 <= nlookup (as_forget_in data) <= ext p ∧
      1 <= forget p (nlookup (as_forget_in data)) ext Root;
    v_read : in_opcode hdr = FUSE_READ → is_file s (read_fh (as_read_in data));
    v_write : in_opcode hdr = FUSE_WRITE → is_file s (write_fh (as_write_in data)) ∧
      write_size (as_write_in data) <= Z.of_nat (length (drop (Z.to_nat sizeof_write_in) data));
    v_release : in_opcode hdr = FUSE_RELEASE → is_file s (release_fh (as_release_in data));
    v_fsync : in_opcode hdr = FUSE_FSYNC → is_file s (fsync_fh (as_fsync_in data));
    v_fsyncdir : in_opcode hdr = FUSE_FSYNCDIR → is_dir s (fsync_fh (as_fsync_in data));
    v_readdir : in_opcode hdr = FUSE_READDIR → is_dir s (read_fh (as_read_in data));
    v_releasedir : in_opcode hdr = FUSE_RELEASEDIR → is_dir s (release_fh (as_release_in data))
  }.

Lemma request_node s K ext hdr p :
  Inv s K ext → headroom (heap s) → holds ext (in_nodeid hdr) p →
  ∃ n, request_ok s K ext (in_nodeid hdr) p n.
Proof.
  intros HI Hr Hh. destruct (holds_live _ _ _ _ _ _ _ (inv_graph _ _ _ HI) Hh) as [n Hn].
  by exists n.
Qed.

Lemma cstring_at_ok data off nm s (Q : string → fs W → Prop) :
  cstring (drop (Z.to_nat off) data) = Some nm → Q nm s → wp (cstring_at data off) Q s.
Proof. unfold cstring_at. by intros ->. Qed.

Lemma cstring_0_ok data s (Q : string → fs W → Prop) :
  is_Some (cstring data) → (∀ nm, Q nm s) → wp (cstring_at data 0) Q s.
Proof. intros [nm Hnm] HQ. by eapply cstring_at_ok. Qed.

(** What each request does to the references the kernel holds. *)
Definition settle (hdr : fuse_in_header) (data : list Ascii.ascii)
    (msgs : list (view * fuse_out)) (ext : refmap) : refmap :=
  if in_opcode hdr =? FUSE_FORGET then
    match lookup_node_by_id_locked (in_nodeid hdr) with
    | Some p => forget p (nlookup (as_forget_in data)) ext
    | None => ext
    end
  else credit msgs ext.

Definition dispatched (f : fuse) (hdr : fuse_in_header) (data : list Ascii.ascii) (ext : refmap)
    s (r : Z) s' : Prop :=
  ∃ K' msgs, Inv s' K' (settle hdr data msgs ext) ∧ out s' = msgs ++ out s ∧
    package_to_appid s' = package_to_appid s ∧
    if in_opcode hdr =? FUSE_FORGET then r = NO_STATUS ∧ msgs = []
    else messages_ok f (in_unique hdr) r msgs.

Lemma handled_dispatched f hdr data ext s r s' :
  in_opcode hdr ≠ FUSE_FORGET → handled f (in_unique hdr) ext s r s' →
  dispatched f hdr data ext s r s'.
Proof.
  intros Hop (K' & msgs & ?). exists K', msgs. unfold settle.
  by rewrite (proj2 (Z.eqb_neq _ _)).
Qed.

Lemma handle_fuse_request_ok f hdr data s K ext :
  Inv s K ext → valid_request s ext hdr data →
  wp (handle_fuse_request f hdr data) (dispatched f hdr data ext s) s.
Proof.
  intros HI V. unfold handle_fuse_request.
  assert (FUSE_LOOKUP ≠ FUSE_FORGET) as Hlf.
  { pose proof opcodes_distinct as Hnd. apply NoDup_cons in Hnd as [Hnd _]. set_solver. }
  assert (∀ op, op = in_opcode hdr → op ∈ [FUSE_LOOKUP; FUSE_GETATTR; FUSE_SETATTR; FUSE_MKNOD; FUSE_MKDIR;
        FUSE_UNLINK; FUSE_RMDIR; FUSE_RENAME; FUSE_OPEN; FUSE_OPENDIR; FUSE_CANONICAL_PATH] →
    ∃ p n, request_ok s K ext (in_nodeid hdr) p n) as Hnode.
  { intros op -> Hop. destruct (v_node _ _ _ _ V Hop) as [p Hp].
    destruct (request_node s K ext hdr p) as [n ?]; [done|apply V|done|]. eauto. }
  assert (∀ (m : M (fs W) Z), in_opcode hdr ≠ FUSE_FORGET →
    wp m (handled f (in_unique hdr) ext s) s → wp m (dispatched f hdr data ext s) s) as Hd.
  { intros m Hop Hm. eapply wp_mono; [done|]. intros. by apply handled_dispatched. }
  destruct (Z.eqb_spec (in_opcode hdr) FUSE_LOOKUP) as [E|_].
  { apply Hd; [congruence|]. destruct (Hnode _ (eq_sym E)) as (p & n & ?); [set_solver|].
    wp_step. apply cstring_0_ok; [apply (v_name _ _ _ _ V); set_solver|].
    intros nm. by eapply handle_lookup_ok. }
  destruct (Z.eqb_spec (in_opcode hdr) FUSE_FORGET) as [E|Hop].
  { destruct (v_forget _ _ _ _ V E) as (p & Hid & Hn & HR).
    eapply wp_mono; [by eapply handle_forget_ok|]. intros r s' (-> & K' & HI' & Ho & Hpk).
    exists K', []. unfold settle. rewrite E, Z.eqb_refl, Hid. done. }
  apply Hd; [done|]. clear Hd.
  destruct (Z.eqb_spec (in_opcode hdr) FUSE_GETATTR) as [E|_].
  { destruct (Hnode _ (eq_sym E)) as (p & n & ?); [set_solver|]. by eapply handle_getattr_ok. }
  destruct (Z.eqb_spec (in_opcode hdr) FUSE_SETATTR) as [E|_].
  { destruct (Hnode _ (eq_sym E)) as (p & n & ?); [set_solver|]. by eapply handle_setattr_ok. }
  destruct (Z.eqb_spec (in_opcode hdr) FUSE_MKNOD) as [E|_].
  { destruct (Hnode _ (eq_sym E)) as (p & n & ?); [set_solver|].
    destruct (v_mknod _ _ _ _ V E) as [nm Hnm].
    wp_step. eapply cstring_at_ok; [done|]. by eapply handle_mknod_ok. }
  destruct (Z.eqb_spec (in_opcode hdr) FUSE_MKDIR) as [E|_].
  { destruct (Hnode _ (eq_sym E)) as (p & n & ?); [set_solver|].
    destruct (v_mkdir _ _ _ _ V E) as [nm Hnm].
    wp_step. eapply cstring_at_ok; [done|]. by eapply handle_mkdir_ok. }
  destruct (Z.eqb_spec (in_opcode hdr) FUSE_UNLINK) as [E|_].
  { destruct (Hnode _ (eq_sym E)) as (p & n & ?); [set_solver|].
    wp_step. apply cstring_0_ok; [apply (v_name _ _ _ _ V); set_solver|].
    intros nm. by eapply handle_unlink_ok. }
  destruct (Z.eqb_spec (in_opcode hdr) FUSE_RMDIR) as [E|_].
  { destruct (Hnode _ (eq_sym E)) as (p & n & ?); [set_solver|].
    wp_step. apply cstring_0_ok; [apply (v_name _ _ _ _ V); set_solver|].
    intros nm. by eapply handle_rmdir_ok. }
  destruct (Z.eqb_spec (in_opcode hdr) FUSE_RENAME) as [E|_].
  { destruct (Hnode _ (eq_sym E)) as (p & n & Hq); [set_solver|].
    destruct (v_rename _ _ _ _ V E) as (o & nm & np & Ho & Hnm & Hnp & Hcyc).
    wp_step. eapply cstring_at_ok; [done|]. wp_step. eapply cstring_at_ok; [done|].
    eapply handle_rename_ok; [done|done|]. apply Hcyc, Hq. }
  destruct (Z.eqb_spec (in_opcode hdr) FUSE_OPEN) as [E|_].
  { destruct (Hnode _ (eq_sym E)) as (p & n & ?); [set_solver|]. by eapply handle_open_ok. }
  destruct (Z.eqb_spec (in_opcode hdr) FUSE_READ) as [E|_].
  { eapply handle_read_ok; [done|by apply V]. }
  destruct (Z.eqb_spec (in_opcode hdr) FUSE_WRITE) as [E|_].
  { destruct (v_write _ _ _ _ V E). by eapply handle_write_ok. }
  destruct (Z.eqb_spec (in_opcode hdr) FUSE_STATFS) as [E|_].
  { by eapply handle_statfs_ok. }
  destruct (Z.eqb_spec (in_opcode hdr) FUSE_RELEASE) as [E|_].
  { eapply handle_release_ok; [done|by apply V]. }
  destruct (Z.eqb_spec (in_opcode hdr) FUSE_FSYNC) as [E|_]; simpl.
  { eapply handle_fsync_ok; [done|]. destruct (Z.eqb_spec (in_opcode hdr) FUSE_FSYNCDIR); by apply V. }
  destruct (Z.eqb_spec (in_opcode hdr) FUSE_FSYNCDIR) as [E|_].
  { eapply handle_fsync_ok; [done|]. rewrite E, Z.eqb_refl. by apply V. }
  destruct (Z.eqb_spec (in_opcode hdr) FUSE_FLUSH) as [E|_].
  { unfold handle_flush. wp_step. status. }
  destruct (Z.eqb_spec (in_opcode hdr) FUSE_OPENDIR) as [E|_].
  { destruct (Hnode _ (eq_sym E)) as (p & n & ?); [set_solver|]. by eapply handle_opendir_ok. }
  destruct (Z.eqb_spec (in_opcode hdr) FUSE_READDIR) as [E|_].
  { eapply handle_readdir_ok; [done|by apply V]. }
  destruct (Z.eqb_spec (in_opcode hdr) FUSE_RELEASEDIR) as [E|_].
  { eapply handle_releasedir_ok; [done|by apply V]. }
  destruct (Z.eqb_spec (in_opcode hdr) FUSE_INIT) as [E|_].
  { by eapply handle_init_ok. }
  destruct (Z.eqb_spec (in_opcode hdr) FUSE_CANONICAL_PATH) as [E|_].
  { destruct (Hnode _ (eq_sym E)) as (p & n & ?); [set_solver|]. by eapply handle_canonical_path_ok. }
  wp_step. status.
Qed.
End serve.
