(* ===== verification/FuseSpec.v ===== *)
(** * sdcard: what the daemon promises to the kernel

    The theorems about whole requests and about the node graph as the kernel
    sees it: one answer per request, exact reference counting, unique inodes,
    paths and the case-insensitive search, renames. *)

From S2P Require Import Prelude CMonad FuseTypes FuseState FuseNode FuseTree FuseRefs FuseHandlers FuseInv.
From S2P Require Import FuseDerive FuseGraph FuseMutate FuseMove FuseSafe FuseRename FuseServe.

Section spec.
Context {W : Type} `{!FuseAbi, !FuseAbiOk, !AndroidIds, !Os W, !OsOk W}.
Implicit Types s : fs W.

(** The answer to a request: a reply or a status, to the view it came from. *)
Definition is_answer (f : fuse) (u : Z) (m : view * fuse_out) : Prop :=
  match m with
  | (v, OReply _ u' _) => v = fview f ∧ u' = u
  | (v, OStatus _ err u') => v = fview f ∧ u' = u ∧ err <= 0
  | (_, ONotifyDelete _ _ _ _ _) => False
  end.

(** Everything sent for one request, latest first. *)
Definition answered (f : fuse) (hdr : fuse_in_header) (msgs : list (view * fuse_out)) : Prop :=
  if in_opcode hdr =? FUSE_FORGET then msgs = []
  else ∃ a notes, msgs = a :: notes ∧ is_answer f (in_unique hdr) a ∧ Forall (is_notice f) notes.

Lemma credit_status v len err u msgs ext p :
  credit ((v, OStatus len err u) :: msgs) ext p = credit msgs ext p.
Proof. unfold credit. simpl. lia. Qed.

(** C1: Every request the kernel may send is served without undefined behaviour,
    deadlock or divergence: the invariant is restored with exactly the
    references the kernel now holds, and exactly one answer is sent (none for
    FORGET), with deletion notices only to the other mounts. *)
Theorem answer_request_safe f request s K ext :
  let hdr := as_in_header request in
  let data := drop (Z.to_nat sizeof_in_header) request in
  Inv s K ext → valid_request s ext hdr data →
  wp (answer_request f request) (λ _ s', ∃ K' msgs,
    Inv s' K' (settle hdr data msgs ext) ∧ out s' = msgs ++ out s ∧
    package_to_appid s' = package_to_appid s ∧ answered f hdr msgs) s.
Proof.
  intros hdr data HI V. unfold answer_request. fold hdr. fold data.
  wp_step. eapply wp_mono; [by eapply handle_fuse_request_ok|].
  intros r s' (K' & msgs & HI' & Ho & Hp & Hm). unfold answered, settle in *.
  destruct (in_opcode hdr =? FUSE_FORGET).
  { destruct Hm as [-> ->]. simpl. wp_step. by exists K', []. }
  unfold messages_ok in Hm. destruct (r =? NO_STATUS).
  - destruct Hm as (len & d & ->). wp_step. exists K'. eexists. split_and!; [done..|].
    eexists _, []. split_and!; [done| |constructor]. done.
  - destruct Hm as [Hr Hn]. unfold fuse_status, send. wp_step.
    exists K', ((fview f, OStatus sizeof_out_header r (in_unique hdr)) :: msgs). split_and!.
    + eapply Inv_ext; [|eapply Inv_same; [apply same_graph_add_out|by destruct s'|done]].
      intros p. by rewrite credit_status.
    + destruct s'. simpl in *. by rewrite Ho.
    + by destruct s'.
    + eexists _, msgs. by split_and!.
Qed.

(** *** References *)

(** A node is needed if the kernel (or an operation) holds it or one of its
    descendants. *)
Definition needed (h : nodes) (ext : refmap) (p : ptr) : Prop :=
  ∃ r, under h p r ∧ is_Some (h !! r) ∧ 0 < ext r.

Lemma live_needed h K ext : tree_ok h K ∅ → refs_ok h K ext → ∀ p, is_Some (h !! p) → needed h ext p.
Proof.
  intros T R. assert (∀ k p n l, h !! p = Some n → lineage h p l → (size h ≤ k + length l)%nat →
    needed h ext p) as Hk.
  { induction k as [|k IH]; intros p n l Hp Hl Hk.
    all: destruct (r_count _ _ _ R _ _ Hp) as (Hc & Hx & Hpos).
    all: destruct (decide (0 < ext p)) as [Hpx|Hpx];
      [exists p; split_and!; [by eapply under_refl|by eauto|done]|].
    all: destruct (K p) as [|c Kp] eqn:HKp; [simpl in Hc; lia|].
    all: destruct (t_kid _ _ _ T _ _ c Hp) as (m & Hm & Hpar); [rewrite HKp; left|].
    all: assert (lineage h c (c :: l)) as Hlc by (by econstructor).
    - pose proof (lineage_length _ _ _ Hlc) as HL. simpl in HL. lia.
    - destruct (IH c m (c :: l)) as (r & (lr & Hlr & Hin) & Hr & Hrx); [done|done|simpl; lia|].
      exists r. split_and!; [|done|done]. exists lr. split; [done|].
      destruct (lineage_elem _ _ _ _ Hlr Hin) as (l1 & l2 & -> & Hl2).
      rewrite (lineage_fun _ _ _ _ Hl2 Hlc). destruct (lineage_head _ _ _ Hl) as [? ->]. set_solver. }
  intros p [n Hp]. destruct (t_lin _ _ _ T _ _ Hp) as [l Hl]. by eapply (Hk (size h)); [..|lia].
Qed.

Lemma released_lineage Z h h' K K' D p l :
  tree_ok h' K' D → released Z h h' K K' → is_Some (h' !! p) → lineage h p l → lineage h' p l.
Proof.
  intros T' Rel [n' Hp'] Hl. destruct (t_lin _ _ _ T' _ _ Hp') as [l' Hl'].
  assert (lineage h p l') as Hl2; [|by rewrite (lineage_fun _ _ _ _ Hl Hl2)].
  eapply lineage_ext; [|exact Hl']. intros x Hx. destruct (lineage_live _ _ _ _ Hl' Hx) as [m' Hm'].
  destruct (rel_pay _ _ _ _ _ Rel _ _ Hm') as (m & Hm & [_ Hpar]%body_payload).
  rewrite Hm, Hm'. simpl. by rewrite Hpar.
Qed.

(** C23: Dropping a reference frees exactly the nodes no longer needed, and keeps
    the contents of the others. *)
Theorem release_exact s K ext p :
  Graph s K ∅ ∅ ext → is_Some (heap s !! p) → 1 <= ext p → 1 <= dec p ext Root →
  wp (release_node_locked p) (λ _ s', ∃ K', Graph s' K' ∅ ∅ (dec p ext) ∧ quiet s s' ∧
    (∀ q, is_Some (heap s' !! q) ↔ needed (heap s) (dec p ext) q) ∧
    (∀ q n', heap s' !! q = Some n' → ∃ n, heap s !! q = Some n ∧ payload n' = payload n)) s.
Proof.
  intros G [n Hp] He HeR. pose proof (g_tree _ _ _ _ _ G) as T.
  destruct (t_lin _ _ _ T _ _ Hp) as [l Hl].
  eapply wp_mono; [eapply Graph_release; [done|done|by eapply root_in_lineage|done..]|].
  intros _ s' (h' & K' & -> & G' & Rel). exists K'. split; [done|]. split; [apply quiet_set_heap|].
  pose proof (g_tree _ _ _ _ _ G') as T'. pose proof (g_refs _ _ _ _ _ G') as R'.
  rewrite heap_set_heap in *. split; [|apply Rel].
  intros q. split.
  - intros Hq. destruct (live_needed _ _ _ T' R' _ Hq) as (r & (lr & Hlr & Hin) & [m' Hm'] & Hx).
    destruct (rel_pay _ _ _ _ _ Rel _ _ Hm') as (m & Hm & _).
    exists r. split_and!; [|by eauto|done]. exists lr. split; [|done].
    destruct (t_lin _ _ _ T _ _ Hm) as [l2 Hl2].
    pose proof (released_lineage _ _ _ _ _ _ _ _ T' Rel (mk_is_Some _ _ Hm') Hl2) as Hl3.
    by rewrite (lineage_fun _ _ _ _ Hlr Hl3).
  - intros (r & (lr & Hlr & Hin) & _ & Hx).
    assert (is_Some (h' !! r)) as Hr.
    { destruct (h' !! r) eqn:E; [eauto|]. pose proof (r_dead _ _ _ R' _ E). lia. }
    eapply lineage_live; [|exact Hin]. by eapply released_lineage.
Qed.

(** *** Names and paths *)

(** The kernel's identifier of a live node resolves to that node, and to the
    path of the node in the underlying storage, provided it fits. *)
Theorem lookup_node_and_path_exact s K D X ext p n path bufsize :
  Graph s K D X ext → heap s !! p = Some n → has_path (heap s) p path →
  wp (lookup_node_and_path_by_id_locked (nid n) bufsize) (λ r s', s' = s ∧
    r = if slen path <? bufsize then Some (p, path) else None) s.
Proof.
  intros G Hp Hpath. eapply lookup_node_and_path_ok; [apply G| |done].
  eapply lookup_node_by_id_self. by apply (g_node _ _ _ _ _ G).
Qed.

(** The search never overflows its buffer and answers the requested name up to
    case, without touching anything but the operating system. *)
Theorem find_file_within_exact s path nm bufsize search :
  wp (find_file_within path nm bufsize search) (λ r s', only_world s s' ∧ log s' = log s ∧
    (r = None ↔ bufsize <= slen path + slen nm + 1) ∧
    ∀ actual cp, r = Some (actual, cp) →
      strcaseeq actual nm = true ∧ slen actual = slen nm ∧ cp = path +:+ "/" +:+ actual ∧
      slen cp < bufsize ∧ (search = false → actual = nm)) s.
Proof.
  eapply wp_mono; [apply find_file_within_ok|].
  intros r s' (Hw & Hl & Hf & Hs). split_and!; [done..| |].
  - destruct r as [[a c]|]; simpl in Hf; [|done]. split; [done|].
    destruct Hf as (Ha & -> & Hlt). rewrite !slen_app, (strcaseeq_length _ _ Ha) in Hlt.
    change (slen "/") with 1 in Hlt. lia.
  - intros a c ->. destruct Hf as (Ha & -> & Hlt). split_and!; try done.
    + by apply strcaseeq_length.
    + intros Hse. by apply (Hs Hse a _ eq_refl).
Qed.

(** *** Creation *)

(** A created node is fresh, carries the requested name below the requested
    parent, has an inode number no live node has and the next generation. *)
Theorem create_node_fresh s K ext par pn nm actual :
  Graph s K ∅ ∅ ext → heap s !! par = Some pn → slen actual = slen nm → refcount pn + 1 < 2 ^ 32 →
  wp (create_node_locked par nm actual) (λ r s', quiet s s' ∧
    match r with
    | None => same_graph s s'
    | Some p => ∃ K' n, Graph s' K' ∅ ∅ (inc p ext) ∧ heap s !! p = None ∧ heap s' !! p = Some n ∧
        str (name n) = nm ∧ parent n = Some par ∧ deleted n = false ∧
        gen n = next_generation s ∧ next_generation s' = u64 (next_generation s + 1) ∧
        ino n = inode_ctr s ∧ ∀ q m, heap s !! q = Some m → ino m ≠ ino n
    end) s.
Proof.
  intros G Hpar Hlen Hrc. eapply wp_mono; [by eapply create_node_locked_ok|].
  intros r s' [(Hq & Hgen & Hr) Hnew]. split; [done|]. destruct r as [p|]; [|done].
  destruct Hr as (HpR & K' & n & G' & Hn & Hname & Hparn & Hdel & Hold).
  destruct (Hnew p eq_refl) as [Hnone Hino]. destruct (Hino _ Hn) as [Hi Hg].
  assert (∀ q m, heap s !! q = Some m → ino m ≠ ino n) as Huniq.
  { intros q m Hm E. destruct (Hold _ _ Hm) as (m' & Hm' & Hb & _).
    rewrite <- (body_ino _ _ Hb) in E.
    pose proof (i_inj _ _ (g_inodes _ _ _ _ _ G') _ _ _ _ Hm' Hn E). congruence. }
  exists K', n. split_and!; try done. rewrite Hgen. case_decide as Hctr; [|done].
  exfalso. pose proof (g_inodes _ _ _ _ _ G') as I'.
  destruct (i_used _ _ I' _ _ Hn HpR) as [Hr1 Hr2]. rewrite Hctr, Hi in *. lia.
Qed.

(** *** Renames *)

(** C24: The locked end of a rename: on success the node has its new name below its
    new parent and every permission below it is coherent again; when memory
    runs out it keeps its old name and parent. *)
Theorem rename_commit_exact s K ext c cn old np npn l nm actual :
  Graph s K ∅ ∅ ext → heap s !! c = Some cn → parent cn = Some old →
  heap s !! np = Some npn → lineage (heap s) np l → c ∉ l →
  1 <= ext Root → 1 <= ext np → refcount npn + 1 < 2 ^ 32 → slen actual = slen nm →
  wp (rename_commit np c nm actual) (λ r s', committed np c nm actual r ext s s') s.
Proof. intros. by eapply rename_commit_ok. Qed.
End spec.
