(* ===== verification/FusePolicy.v ===== *)
(** * sdcard: the permission policy

    What the derived permissions mean: which mode bits and owners a node shows,
    which names are refused at the top of a card, who owns an application's
    directories, and what a handler does to the storage. *)

From S2P Require Import Prelude CMonad FuseTypes FuseState FuseNode FuseTree FuseRefs FuseHandlers FuseInv.
From S2P Require Import FuseDerive FuseGraph FuseMutate FuseMove FuseSafe FuseRename FuseServe.

(** ** Mode bits *)

Section attributes.
Context `{!AndroidIds}.

Definition mode_bit (m i : Z) : bool := Z.testbit m i.

(** The mask a view puts on a node. *)
Definition visible_mask (f : fuse) (n : node) : Z :=
  if decide (perm n = PERM_PRE_ROOT) then 0x1c9
  else
    let m := Z.land 0x1fd (Z.lnot (fuse_mask f)) in
    if under_android n then
      Z.land m (Z.lnot (if fuse_gid f =? AID_SDCARD_RW then 0x6 else 0x7))
    else m.

Lemma attr_mode f st n :
  a_mode (attr_from_stat f st n) =
  Z.lor (Z.land (u32 (st_mode st)) S_IFMT)
    (Z.land (visible_mask f n)
      (Z.lor (Z.land (st_mode st) 0x1c0)
        (Z.lor (Z.shiftr (Z.land (st_mode st) 0x1c0) 3) (Z.shiftr (Z.land (st_mode st) 0x1c0) 6)))).
Proof.
  unfold attr_from_stat, visible_mask. simpl. do 2 f_equal.
  destruct (decide _); [done|]. destruct (under_android n); [|done].
  by destruct (fuse_gid f =? AID_SDCARD_RW).
Qed.

Lemma bits_table (P : Z → Prop) :
  (∀ i, i ∈ [0; 1; 2; 3; 4; 5; 6; 7; 8] → P i) → ∀ i, 0 <= i < 9 → P i.
Proof.
  intros Hl i Hi. apply Hl.
  assert (i = 0 ∨ i = 1 ∨ i = 2 ∨ i = 3 ∨ i = 4 ∨ i = 5 ∨ i = 6 ∨ i = 7 ∨ i = 8) as Hc by lia.
  set_solver.
Qed.

(** The owner's bits are copied to group and other, and the view's mask
    applied; the file type is kept. *)
Theorem attr_mode_exact f st n :
  (∀ i, 0 <= i < 9 → mode_bit (a_mode (attr_from_stat f st n)) i =
     mode_bit (visible_mask f n) i && mode_bit (st_mode st) (6 + i mod 3)) ∧
  Z.land (a_mode (attr_from_stat f st n)) S_IFMT = Z.land (u32 (st_mode st)) S_IFMT ∧
  a_uid (attr_from_stat f st n) = uid n ∧
  a_gid (attr_from_stat f st n) =
    (if fuse_gid f =? AID_SDCARD_RW then AID_SDCARD_RW else multiuser_get_uid (userid n) (fuse_gid f)).
Proof.
  rewrite attr_mode. split_and!; [| |done|done].
  - apply bits_table. unfold mode_bit. intros i Hi.
    rewrite Z.lor_spec, !Z.land_spec, !Z.lor_spec.
    assert (Z.testbit S_IFMT i = false) as ->.
    { set_unfold in Hi. destruct_or! Hi; subst; done. }
    rewrite andb_false_r, orb_false_l. f_equal.
    set_unfold in Hi. destruct_or! Hi; subst; rewrite ?Z.shiftr_spec, !Z.land_spec by lia; simpl;
      rewrite ?andb_false_r, ?andb_true_r, ?orb_false_r, ?orb_false_l; done.
  - apply Z.bits_inj'. intros i Hi.
    rewrite !Z.land_spec, Z.lor_spec, !Z.land_spec, !Z.lor_spec, !Z.shiftr_spec, !Z.land_spec by lia.
    destruct (Z.testbit S_IFMT i) eqn:Es; [|by rewrite !andb_false_r].
    rewrite !andb_true_r. assert (12 <= i < 16) as Hr.
    { destruct (decide (12 <= i < 16)) as [|Hn]; [done|]. exfalso.
      change S_IFMT with (Z.shiftl (Z.ones 4) 12) in Es.
      rewrite Z.shiftl_spec, Z.testbit_ones in Es by lia. lia. }
    assert (∀ j, 9 <= j → Z.testbit 0x1c0 j = false) as Hz.
    { intros j Hj. apply Z.bits_above_log2; [done|]. change (Z.log2 0x1c0) with 8. lia. }
    rewrite !Hz by lia. by rewrite !andb_false_r, !orb_false_r.
Qed.

(** Under Android, no view lets "other" users read or write, and only the
    trusted view lets them traverse. *)
Theorem android_no_other_access f st n :
  under_android n = true → perm n ≠ PERM_PRE_ROOT →
  let m := a_mode (attr_from_stat f st n) in
  mode_bit m 2 = false ∧ mode_bit m 1 = false ∧
  (fuse_gid f ≠ AID_SDCARD_RW → mode_bit m 0 = false).
Proof.
  intros Hu Hp m. unfold m. rewrite attr_mode. unfold visible_mask, mode_bit.
  rewrite decide_False by done. rewrite Hu.
  rewrite !Z.lor_spec, !Z.land_spec. simpl (Z.testbit S_IFMT _).
  rewrite !andb_false_r, !orb_false_l. split_and!.
  - by destruct (fuse_gid f =? AID_SDCARD_RW); rewrite Z.lnot_spec, andb_false_r by done.
  - by destruct (fuse_gid f =? AID_SDCARD_RW); rewrite Z.lnot_spec, andb_false_r by done.
  - intros Hg. rewrite (proj2 (Z.eqb_neq _ _)) by done.
    by rewrite Z.lnot_spec, andb_false_r by done.
Qed.

End attributes.

Section policy.
Context {W : Type} `{!FuseAbi, !FuseAbiOk, !AndroidIds, !Os W, !OsOk W}.
Implicit Types s : fs W.

(** ** Who owns an application's directory *)

Definition app_dir_name (nm : string) : bool :=
  strcaseeq nm "data" || strcaseeq nm "obb" || strcaseeq nm "media".

Lemma coherent_inherit pkgs h K D root :
  tree_ok h K D → coherent pkgs ∅ h → ∀ x n,
  under h root x → h !! x = Some n → ∀ r, h !! root = Some r → perm r = PERM_INHERIT →
  pinfo_of n = pinfo_of r.
Proof.
  intros T Hc x n (l & Hl & Hin) Hx r Hr Hp. revert n Hx.
  induction Hl as [y m Hy Hm|y m q l Hy Hm Hl IH]; intros n Hx; simplify_eq.
  { apply list_elem_of_singleton in Hin. by simplify_eq. }
  apply elem_of_cons in Hin as [->|Hin]; [by simplify_eq|].
  destruct (lineage_live _ _ _ q Hl) as [mq Hq]; [destruct (lineage_head _ _ _ Hl) as [? ->]; left|].
  rewrite (Hc y m q mq) by (done || set_solver). rewrite (IH Hin mq Hq).
  unfold pinfo_of. by rewrite Hp.
Qed.

(** C26: [<root>/Android/{data,obb,media}/<package>] and everything below it belong
    to that package's uid for the card's user, and are marked as Android. *)
Theorem package_dir_owner s K ext r rn a an d dn pk pn appid x n :
  Inv s K ext →
  heap s !! r = Some rn → perm rn = PERM_ROOT →
  heap s !! a = Some an → parent an = Some r → strcaseeq (str (name an)) "Android" = true →
  heap s !! d = Some dn → parent dn = Some a → app_dir_name (str (name dn)) = true →
  heap s !! pk = Some pn → parent pn = Some d →
  appid_find (package_to_appid s) (str (name pn)) = Some appid →
  under (heap s) pk x → heap s !! x = Some n →
  uid n = multiuser_get_uid (userid rn) appid ∧ userid n = userid rn ∧
  under_android n = true ∧ perm n = PERM_INHERIT.
Proof.
  intros [G _ _] Hr Hrp Ha Har Han Hd Hda Hdn Hpk Hpd Hid Hu Hx.
  pose proof (g_coh _ _ _ _ _ G) as Hc.
  pose proof (Hc a an r rn ltac:(set_solver) Ha Har Hr) as E1.
  unfold derive_pinfo, pinfo_of in E1. rewrite Hrp, Han in E1. injection E1 as Ea1 Ea2 Ea3 Ea4.
  pose proof (Hc d dn a an ltac:(set_solver) Hd Hda Ha) as E2.
  unfold derive_pinfo, pinfo_of in E2. rewrite Ea1 in E2.
  assert (perm dn ∈ [PERM_ANDROID_DATA; PERM_ANDROID_OBB; PERM_ANDROID_MEDIA] ∧
    userid dn = userid rn ∧ under_android dn = true) as (Hdp & Hdu & Hdua).
  { unfold app_dir_name in Hdn. destruct (strcaseeq (str (name dn)) "data");
      [injection E2 as -> -> _ ->; set_solver|].
    destruct (strcaseeq (str (name dn)) "obb"); [injection E2 as -> -> _ ->; set_solver|].
    simpl in Hdn. rewrite Hdn in E2. injection E2 as -> -> _ ->. set_solver. }
  pose proof (Hc pk pn d dn ltac:(set_solver) Hpk Hpd Hd) as E3.
  unfold derive_pinfo in E3. unfold pinfo_of at 2 in E3. rewrite Hid in E3.
  assert (pinfo_of pn = mk_pinfo PERM_INHERIT (userid dn) (multiuser_get_uid (userid dn) appid)
    (under_android dn)) as E4.
  { set_unfold in Hdp. destruct Hdp as [Hdp|[Hdp|[Hdp|[]]]]; rewrite Hdp in E3; done. }
  assert (perm pn = PERM_INHERIT) as Hpp by (apply (f_equal pi_perm) in E4; done).
  pose proof (coherent_inherit _ _ _ _ _ (g_tree _ _ _ _ _ G) Hc _ _ Hu Hx _ Hpk Hpp) as E5.
  rewrite E4, Hdu, Hdua in E5. by injection E5.
Qed.

(** ** Names refused at the root of a card *)

(** At the root of a card the names of [blocked_at_root] are answered with an
    error before the storage or the graph is touched. *)
Theorem blocked_at_root_untouched f hdr nm s K ext p n m :
  request_ok s K ext (in_nodeid hdr) p n → perm n = PERM_ROOT → blocked_at_root nm = true →
  (m = handle_lookup f hdr nm ∨ (∃ req, m = handle_mknod f hdr req nm) ∨
    (∃ req, m = handle_mkdir f hdr req nm) ∨ m = handle_unlink f hdr nm ∨ m = handle_rmdir f hdr nm) →
  wp m (λ r s', (r = - ENOENT ∨ r = - EACCES) ∧ log s' = log s ∧ calm s s') s.
Proof.
  intros [HI Hh Hn _] Hp Hb Hm.
  assert (blocked_in n nm = true) as Hbl by (unfold blocked_in; by rewrite bool_decide_true).
  destruct Hm as [->|[[req ->]|[[req ->]|[->| ->]]]].
  2-5: unfold handle_mknod, handle_mkdir, handle_unlink, handle_rmdir; wp_step;
    (eapply wp_mono; [by eapply resolve_child_ok|]);
    intros [err|[[pp aa] cc]] s1 (Hc & Hl & Hr); [|by destruct Hr as (_ & _ & Hr & _); congruence];
    wp_step; by destruct Hr as [-> | ->]; auto.
  unfold handle_lookup. wp_step. eapply wp_mono; [by eapply locked_lookup_ok|].
  intros r s' (-> & path & Hpath & ->). destruct (slen path <? PATH_MAX); [|wp_step; split_and!; [auto|done|done]].
  wp_step. eapply wp_mono; [apply find_file_within_ok|].
  intros [[a c]|] s1 (Hw & Hl & _); [|wp_step; by auto using only_world_calm].
  wp_step. eapply check_name_ok; [by rewrite (calm_heap _ _ (only_world_calm _ _ Hw))|].
  rewrite Hbl. simpl. wp_step. auto using only_world_calm.
Qed.

(** ** Negotiation and attribute changes *)

(** INIT is refused for another major version or a minor below 6; otherwise the
    daemon answers its own major, at most minor 15, and its transfer limits. *)
Theorem handle_init_exact f hdr req s :
  wp (handle_init f hdr req) (λ r s',
    if bool_decide (init_major req = FUSE_KERNEL_VERSION ∧ 6 <= init_minor req)
    then r = NO_STATUS ∧ ∃ len minor,
      s' = add_out (fview f, OReply len (in_unique hdr)
        (POut_init FUSE_KERNEL_VERSION minor (init_max_readahead req)
           (Z.lor FUSE_ATOMIC_O_TRUNC FUSE_BIG_WRITES) 32 32 MAX_WRITE)) s ∧
      6 <= minor <= 15 ∧ minor <= init_minor req
    else r = -1 ∧ s' = s) s.
Proof.
  unfold handle_init. destruct (Z.eqb_spec (init_major req) FUSE_KERNEL_VERSION) as [->|Hm]; simpl.
  - destruct (Z.ltb_spec (init_minor req) 6).
    + wp_step. rewrite bool_decide_false by lia. done.
    + unfold fuse_reply, send. wp_steps. rewrite bool_decide_true by done. split; [done|].
      eexists _, _. split; [done|]. lia.
  - wp_step. rewrite bool_decide_false by naive_solver. done.
Qed.

(** SETATTR changes the storage by at most a truncation and one change of times,
    in that order, and a clock that is not to change is passed as [UTIME_OMIT]. *)
Theorem setattr_effects f hdr req s K ext p n :
  request_ok s K ext (in_nodeid hdr) p n →
  wp (handle_setattr f hdr req) (λ _ s', ∃ path tr ut, log s' = ut ++ tr ++ log s ∧
    (tr = [] ∨ (has_flag (sa_valid req) FATTR_SIZE = true ∧
       tr = [EvTruncate path (swrap 64 (sa_size req))])) ∧
    (ut = [] ∨ ∃ at_ mt, ut = [EvUtimensat path at_ mt] ∧
       has_flag (sa_valid req) (Z.lor FATTR_ATIME FATTR_MTIME) = true ∧
       (has_flag (sa_valid req) FATTR_ATIME = false → at_ = mk_timespec None UTIME_OMIT) ∧
       (has_flag (sa_valid req) FATTR_MTIME = false → mt = mk_timespec None UTIME_OMIT))) s.
Proof.
  intros [HI Hh Hn _]. unfold handle_setattr. wp_step. eapply wp_mono; [by eapply locked_lookup_ok|].
  intros r s' (-> & path & Hpath & ->). destruct (slen path <? PATH_MAX).
  2:{ wp_step. exists EmptyString, [], []. auto. }
  wp_step. eapply wp_mono with (P := λ _ s', s' = s).
  { destruct (has_flag _ _); [by wp_step|]. eapply check_node_ok; [apply HI|done|done]. }
  intros [] s' ->; simpl; [|wp_step; exists path, [], []; auto].
  wp_step. eapply wp_mono with (P := λ _ s', ∃ tr, log s' = tr ++ log s ∧ heap s' = heap s ∧
    (tr = [] ∨ (has_flag (sa_valid req) FATTR_SIZE = true ∧
       tr = [EvTruncate path (swrap 64 (sa_size req))]))).
  { destruct (has_flag _ _); [|wp_step; exists []; auto].
    apply wp_logged, wp_sys. intros a w _. eexists [_]. destruct s; simpl. auto. }
  intros [[]|e] s1 (tr & Hl1 & Hh1 & Htr); [|wp_step; exists path, tr, []; auto].
  wp_step. eapply wp_mono with (P := λ _ s', ∃ ut, log s' = ut ++ log s1 ∧ heap s' = heap s1 ∧
    (ut = [] ∨ ∃ at_ mt, ut = [EvUtimensat path at_ mt] ∧
       has_flag (sa_valid req) (Z.lor FATTR_ATIME FATTR_MTIME) = true ∧
       (has_flag (sa_valid req) FATTR_ATIME = false → at_ = mk_timespec None UTIME_OMIT) ∧
       (has_flag (sa_valid req) FATTR_MTIME = false → mt = mk_timespec None UTIME_OMIT))).
  { destruct (has_flag (sa_valid req) (Z.lor _ _)) eqn:Hf; [|wp_step; exists []; auto].
    apply wp_logged, wp_sys. intros a w _. eexists [_]. split; [by destruct s1|].
    split; [by destruct s1|]. right. eexists _, _. split_and!; [done|done|..];
      unfold setattr_time; by intros ->. }
  intros [[]|e] s2 (ut & Hl2 & Hh2 & Hut); [|wp_step; exists path, tr, ut; rewrite Hl2, Hl1; auto].
  eapply wp_mono with (P := λ _ s', log s' = log s2).
  { unfold fuse_reply_attr. wp_step. apply wp_sys. intros [st|e] w _; [|wp_step; by destruct s2].
    wp_step. eapply wp_load; [replace (heap (set_world w s2)) with (heap s2) by (by destruct s2); by rewrite Hh2, Hh1|].
    unfold fuse_reply, send. wp_steps. by destruct s2. }
  intros _ s3 Hl3. exists path, tr, ut. rewrite Hl3, Hl2, Hl1. auto.
Qed.
End policy.
