(* ===== verification/Sdcard.v ===== *)
(** * sdcard: the daemon's start-up and package watching (sdcard.cpp) *)

From Stdlib Require Import Ascii String.
From stdpp Require Import pretty.
From S2P Require Import Prelude CMonad FuseTypes FuseState FuseNode FuseHandlers.

Local Open Scope string_scope.
Local Open Scope Z_scope.

(** Constants of the C library, the kernel and Android's properties. *)
Definition MNT_DETACH : Z := 2.
Definition MS_NOSUID : Z := 2.
Definition MS_NODEV : Z := 4.
Definition MS_NOEXEC : Z := 8.
Definition MS_REMOUNT : Z := 32.
Definition MS_NOATIME : Z := 1024.
Definition MS_BIND : Z := 4096.
Definition IN_DELETE_SELF : Z := 0x400.
Definition IN_IGNORED : Z := 0x8000.
Definition SIGABRT_STATUS : Z := 134.

Definition PROP_SDCARDFS_DEVICE : string := "ro.sys.sdcardfs".
Definition PROP_SDCARDFS_USER : string := "persist.sys.sdcardfs".

(** What start-up does to the system, in order (latest first in the trace). *)
Inductive bootev : Type :=
  | BUmount (path : string) (flags : Z)
  | BMount (src dst : string) (fstype : option string) (flags : Z) (opts : option string)
  | BUmask (mask : Z)
  | BDropPrivs (groups : list Z) (gid uid : Z)
  | BPrepareDir (path : string) (mode uid gid : Z)
  | BFork
  | BStartHandler (v : view)
  | BSetRlimit (cur max : Z).

(** The operating system during start-up. *)
Class BootOs (W : Type) : Type := {
  bo_open_fuse : W → (Z + positive) * W;
  bo_mount : W → string → string → option string → Z → option string → bool * W;
  bo_drop_privs : W → Z → Z → bool * W;
  bo_fork : W → Z * W;
  bo_pthread_create : W → view → bool * W;
  bo_layout_version : W → option Z * W;
  bo_read_filesystems : W → option string * W;
  bo_property_get : W → string → string → string;
  bo_property_get_bool : W → string → bool → bool;
  bo_inotify_init : W → (Z + positive) * W;
  bo_inotify_add_watch : W → Z → (Z + positive) * W;
  bo_inotify_read : W → Z → (list Ascii.ascii + positive) * W;
  (** the lines of packages.list (package, uid) and the parser's verdict *)
  bo_packages : W → (list (string * Z) * bool) * W;
  sizeof_inotify_event : Z;
  (** the mask and len of a [struct inotify_event] *)
  as_inotify_event : list Ascii.ascii → Z * Z
}.

(** [%d] of an unsigned 32-bit value. *)
Definition fmt_d (x : Z) : string := pretty (swrap 32 x).

(** [snprintf(buf, n, ...)] of an already formatted string. *)
Definition snprintf (n : Z) (s : string) : string := String.substring 0 (Z.to_nat (n - 1)) s.

(** ** The package list *)

Section packages.
Context {W : Type} `{!FuseAbi, !AndroidIds, !Os W, !BootOs W}.
Abbreviation Mf := (M (fs W)).

Definition package_parse_callback (info : string * Z) (m : gmap string Z) : gmap string Z * bool :=
  appid_emplace m info.1 info.2.

(** [packagelist_parse]: the lines in order, until the callback refuses one. *)
Fixpoint packagelist_parse (infos : list (string * Z)) (m : gmap string Z) : gmap string Z :=
  match infos with
  | [] => m
  | info :: infos' =>
      let '(m', more) := package_parse_callback info m in
      if more then packagelist_parse infos' m' else m'
  end.

Definition read_package_list : Mf bool :=
  lock ;;
  r ← sys bo_packages;
  modify (set_packages (packagelist_parse r.1 ∅)) ;;
  derive_permissions_recursive_locked Root ;;
  unlock ;;
  mret r.2.

(** The inner loop over the events of one read. *)
Fixpoint scan_events (fuel : nat) (buf : list Ascii.ascii) (active : bool) : bool :=
  match fuel with
  | O => active
  | S fuel' =>
      if sizeof_inotify_event <=? Z.of_nat (length buf) then
        let '(mask, len) := as_inotify_event buf in
        let active := if Z.land mask IN_IGNORED =? IN_IGNORED then false else active in
        scan_events fuel' (drop (Z.to_nat (sizeof_inotify_event + len)) buf) active
      else active
  end.

(** One turn of [while (1)]: the new value of [active], or [None] when the
    function returns. *)
Definition watch_once (nfd : Z) (active : bool) : Mf (option bool) :=
  armed ← (if active then mret (Some true)
           else
             w ← sys (λ w, bo_inotify_add_watch w nfd);
             match w with
             | inr e => mret (if (Zpos e =? ENOENT) || (Zpos e =? EACCES) then Some false else None)
             | inl _ =>
                 ok ← read_package_list;
                 mret (if (ok : bool) then Some true else None)
             end);
  match armed with
  | None => mret None
  | Some false => mret (Some false)
  | Some true =>
      r ← sys (λ w, bo_inotify_read w nfd);
      match r with
      | inr _ => mret None
      | inl buf =>
          if Z.of_nat (length buf) <? sizeof_inotify_event then mret None
          else mret (Some (scan_events (S (length buf)) buf true))
      end
  end.

Fixpoint watch_loop (n : nat) (nfd : Z) (active : bool) : Mf unit :=
  match n with
  | O => mret tt
  | S n' =>
      r ← watch_once nfd active;
      match r with None => mret tt | Some active => watch_loop n' nfd active end
  end.

Definition watch_package_list (n : nat) : Mf unit :=
  nfd ← sys bo_inotify_init;
  match nfd with
  | inr _ => mret tt
  | inl nfd => watch_loop n nfd false
  end.
End packages.

(** ** Mounting and starting *)

Section boot.
Context {W : Type} `{!FuseAbi, !AndroidIds, !Os W, !BootOs W}.

Record boot : Type := mk_boot { bworld : W; trace : list bootev }.
Abbreviation Mb := (M boot).

Definition bsys {A} (call : W → A * W) : Mb A := λ b,
  let '(a, w) := call (bworld b) in Ret a (mk_boot w (trace b)).
Definition emit (e : bootev) : Mb unit := modify (λ b, mk_boot (bworld b) (e :: trace b)).
(** [LOG(FATAL)] *)
Definition fatal {A} : Mb A := exit SIGABRT_STATUS.

Definition umount2 (path : string) (flags : Z) : Mb unit := emit (BUmount path flags).
Definition mount (src dst : string) (fstype : option string) (flags : Z) (opts : option string)
    : Mb bool :=
  emit (BMount src dst fstype flags opts) ;;
  bsys (λ w, bo_mount w src dst fstype flags opts).
Definition fs_prepare_dir (path : string) (mode uid gid : Z) : Mb unit :=
  emit (BPrepareDir path mode uid gid).

(** Supplementary groups to execute with. *)
Definition kGroups : list Z := [AID_PACKAGE_INFO].

Definition drop_privs (uid gid : Z) : Mb unit :=
  emit (BDropPrivs kGroups gid uid) ;;
  ok ← bsys (λ w, bo_drop_privs w uid gid);
  if (ok : bool) then mret tt else fatal.

Definition fuse_setup (v : view) (dest_path : string) (guid ggid : Z) (gid mask : Z)
    : Mb (option fuse) :=
  fd ← bsys bo_open_fuse;
  match fd with
  | inr _ => mret None
  | inl fd =>
      umount2 dest_path MNT_DETACH ;;
      let opts := snprintf 256
        ("fd=" +:+ fmt_d fd +:+ ",rootmode=40000,default_permissions,allow_other,user_id=" +:+
         fmt_d guid +:+ ",group_id=" +:+ fmt_d ggid) in
      ok ← mount "/dev/fuse" dest_path (Some "fuse")
             (Z.lor MS_NOSUID (Z.lor MS_NODEV (Z.lor MS_NOEXEC MS_NOATIME))) (Some opts);
      mret (if (ok : bool) then Some (mk_fuse v gid mask) else None)
  end.

(** The root node and the global state that [run] fills in. *)
Definition root_node (source_path : string) (userid : Z) (multi_user : bool) : node :=
  mk_node 2 FUSE_ROOT_ID 0 0 (if multi_user then PERM_PRE_ROOT else PERM_ROOT) userid AID_ROOT
    false None None None (slen source_path) (mk_cbuf (slen source_path + 1) source_path)
    None None 0 false.

Definition initial_obb_path (source_path : string) (multi_user : bool) : string :=
  snprintf PATH_MAX (source_path +:+ (if multi_user then "/obb" else "/Android/obb")).

Definition initial_fs (w : W) (source_path : string) (userid : Z) (multi_user : bool) : fs W :=
  mk_fs {[Root := root_node source_path userid multi_user]} false ∅
    (initial_obb_path source_path multi_user) ∅ 0 1 w [] [].

(** The gid and the mask of each view. *)
Definition view_gid (v : view) : Z :=
  match v with V_DEFAULT => AID_SDCARD_RW | _ => AID_EVERYBODY end.
Definition view_mask (multi_user full_write : bool) (v : view) : Z :=
  match v, multi_user with
  | V_DEFAULT, _ => 0x6
  | V_READ, true => 0x17
  | V_READ, false => if full_write then 0x17 else 0x12
  | V_WRITE, true => if full_write then 0x7 else 0x17
  | V_WRITE, false => if full_write then 0x7 else 0x12
  | V_FULL, _ => 0x7
  end.
Definition view_dest (v : view) (label : string) : string :=
  snprintf PATH_MAX ((match v with
                      | V_DEFAULT => "/mnt/runtime/default/"
                      | V_READ => "/mnt/runtime/read/"
                      | V_WRITE => "/mnt/runtime/write/"
                      | V_FULL => "/mnt/runtime/full/"
                      end) +:+ label).

(** The [||] chain of [fuse_setup] calls: stops at the first failure. *)
Fixpoint setup_views (vs : list view) (label : string) (uid gid : Z) (multi_user full_write : bool)
    : Mb (option (list fuse)) :=
  match vs with
  | [] => mret (Some [])
  | v :: vs' =>
      f ← fuse_setup v (view_dest v label) uid gid (view_gid v) (view_mask multi_user full_write v);
      match f with
      | None => mret None
      | Some f =>
          r ← setup_views vs' label uid gid multi_user full_write;
          mret (option_map (cons f) r)
      end
  end.

Fixpoint start_handlers (fs_ : list fuse) : Mb bool :=
  match fs_ with
  | [] => mret true
  | f :: fs' =>
      emit (BStartHandler (fview f)) ;;
      ok ← bsys (λ w, bo_pthread_create w (fview f));
      if (ok : bool) then start_handlers fs' else mret false
  end.

(** [run] up to [watch_package_list]: the mounts the handlers serve and the
    state they share.  The parent of the fork leaves with [_exit(0)]. *)
Definition run (source_path label : string) (uid gid userid : Z) (multi_user full_write : bool)
    : Mb (list fuse * fs W) :=
  require (slen source_path <? PATH_MAX) ;;
  emit (BUmask 0) ;;
  fuses ← setup_views [V_DEFAULT; V_READ; V_WRITE; V_FULL] label uid gid multi_user full_write;
  match fuses with
  | None => fatal
  | Some fuses =>
      drop_privs uid gid ;;
      (if multi_user then fs_prepare_dir (initial_obb_path source_path multi_user) 0x1fd uid gid
       else mret tt) ;;
      emit BFork ;;
      daemon_pid ← bsys bo_fork;
      if daemon_pid <? 0 then fatal
      else if 0 <? daemon_pid then exit 0
      else
        ok ← start_handlers fuses;
        if (ok : bool) then
          b ← get;
          mret (fuses, initial_fs (bworld b) source_path userid multi_user)
        else fatal
  end.

(** ** The in-kernel alternative *)

Definition sdcardfs_opts (fsuid fsgid : Z) (multi_user derive_gid : bool) (mask userid gid : Z)
    : string :=
  "fsuid=" +:+ fmt_d fsuid +:+ ",fsgid=" +:+ fmt_d fsgid +:+ "," +:+
  (if multi_user then "multiuser," else "") +:+ (if derive_gid then "derive_gid," else "") +:+
  "mask=" +:+ fmt_d mask +:+ ",userid=" +:+ fmt_d userid +:+ ",gid=" +:+ fmt_d gid.

Definition SDCARDFS_FLAGS : Z := Z.lor MS_NOSUID (Z.lor MS_NODEV (Z.lor MS_NOEXEC MS_NOATIME)).

Definition sdcardfs_setup (source_path dest_path : string) (fsuid fsgid : Z) (multi_user : bool)
    (userid gid mask : Z) (derive_gid : bool) : Mb bool :=
  ok ← mount source_path dest_path (Some "sdcardfs") SDCARDFS_FLAGS
         (Some (sdcardfs_opts fsuid fsgid multi_user derive_gid mask userid gid));
  if (ok : bool) then mret true
  else if derive_gid then
    mount source_path dest_path (Some "sdcardfs") SDCARDFS_FLAGS
      (Some (sdcardfs_opts fsuid fsgid multi_user false mask userid gid))
  else mret false.

Definition sdcardfs_setup_bind_remount (source_path dest_path : string) (gid mask : Z) : Mb bool :=
  let opts := "mask=" +:+ fmt_d mask +:+ ",gid=" +:+ fmt_d gid in
  ok ← mount source_path dest_path None MS_BIND None;
  if negb ok then mret false else
  ok ← mount source_path dest_path (Some "none") (Z.lor MS_REMOUNT SDCARDFS_FLAGS) (Some opts);
  if (ok : bool) then mret true
  else umount2 dest_path MNT_DETACH ;; mret false.

(** [a || b] on operations that return false on failure. *)
Definition and_then (a b : Mb bool) : Mb bool := ok ← a; if (ok : bool) then b else mret false.

Definition run_sdcardfs (source_path label : string) (uid gid userid : Z)
    (multi_user full_write derive_gid : bool) : Mb unit :=
  let dest_path_default := "/mnt/runtime/default/" +:+ label in
  let dest_path_read := "/mnt/runtime/read/" +:+ label in
  let dest_path_write := "/mnt/runtime/write/" +:+ label in
  emit (BUmask 0) ;;
  ok ← and_then (sdcardfs_setup source_path dest_path_default uid gid multi_user userid
                   AID_SDCARD_RW 0x6 derive_gid)
        (and_then (sdcardfs_setup_bind_remount dest_path_default dest_path_read AID_EVERYBODY
                     (view_mask multi_user full_write V_READ))
           (sdcardfs_setup_bind_remount dest_path_default dest_path_write AID_EVERYBODY
              (view_mask multi_user full_write V_WRITE)));
  if negb ok then fatal else
  drop_privs uid gid ;;
  (if multi_user then fs_prepare_dir (source_path +:+ "/obb") 0x1fd uid gid else mret tt) ;;
  exit 0.

(** [std::string::find] of a nonempty needle, and [android::base::Split]. *)
Fixpoint is_prefix (n h : string) : bool :=
  match n, h with
  | EmptyString, _ => true
  | String a n', String b h' => Ascii.eqb a b && is_prefix n' h'
  | String _ _, EmptyString => false
  end.
Fixpoint contains (n h : string) : bool :=
  is_prefix n h || match h with EmptyString => false | String _ h' => contains n h' end.

Fixpoint split_on (sep : Ascii.ascii) (h : string) : list string :=
  match h with
  | EmptyString => [EmptyString]
  | String c h' =>
      if Ascii.eqb c sep then EmptyString :: split_on sep h'
      else match split_on sep h' with
           | l :: ls => String c l :: ls
           | [] => [String c EmptyString]
           end
  end.

Definition supports_sdcardfs : Mb bool :=
  r ← bsys bo_read_filesystems;
  match r with
  | None => mret false
  | Some filesystems =>
      mret (existsb (contains "sdcardfs") (split_on "010"%char filesystems))
  end.

Definition should_use_sdcardfs : Mb bool :=
  b ← get;
  let property := bo_property_get (bworld b) PROP_SDCARDFS_USER "" in
  if streq property "force_on" then supports_sdcardfs
  else if streq property "force_off" then mret false
  else if bo_property_get_bool (bworld b) PROP_SDCARDFS_DEVICE true then supports_sdcardfs
  else mret false.
End boot.
Arguments boot : clear implicits.

(** ** The command line *)

Record options : Type := mk_options {
  o_uid : Z; o_gid : Z; o_userid : Z;
  o_multi_user : bool; o_full_write : bool; o_derive_gid : bool
}.

(** [getopt] with the option string "u:g:U:mwGio", without permutation: the
    options of one word, and the words left. *)
Inductive optkind := OptFlag | OptArg | OptUnknown.
Definition opt_kind (c : Ascii.ascii) : optkind :=
  if existsb (Ascii.eqb c) ["u"; "g"; "U"]%char then OptArg
  else if existsb (Ascii.eqb c) ["m"; "w"; "G"; "i"; "o"]%char then OptFlag
  else OptUnknown.

Fixpoint getopt_word (cs : string) (rest : list string)
    : list (Ascii.ascii * string) * list string :=
  match cs with
  | EmptyString => ([], rest)
  | String c cs' =>
      match opt_kind c with
      | OptFlag => let '(os, r) := getopt_word cs' rest in ((c, EmptyString) :: os, r)
      | OptUnknown => ([("?"%char, EmptyString)], rest)
      | OptArg =>
          match cs', rest with
          | String _ _, _ => ([(c, cs')], rest)
          | EmptyString, a :: rest' => ([(c, a)], rest')
          | EmptyString, [] => ([("?"%char, EmptyString)], [])
          end
      end
  end.

Fixpoint getopt_all (fuel : nat) (args : list string)
    : list (Ascii.ascii * string) * list string :=
  match fuel, args with
  | O, _ => ([], args)
  | _, [] => ([], [])
  | S fuel', a :: args' =>
      if streq a "--" then ([], args')
      else match a with
           | String "-" (String c cs) =>
               let '(os, r) := getopt_word (String c cs) args' in
               let '(os', r') := getopt_all fuel' r in ((os ++ os')%list, r')
           | _ => ([], args)
           end
  end.

(** The [switch] of [sdcard_main]; [None] is [return usage()]. *)
Definition apply_option (o : Ascii.ascii * string) (st : options) : option options :=
  let '(mk_options u g us m w d) := st in
  let '(c, optarg) := o in
  let arg := u32 (strtoul ULONG_BITS optarg) in
  if Ascii.eqb c "u" then Some (mk_options arg g us m w d)
  else if Ascii.eqb c "g" then Some (mk_options u arg us m w d)
  else if Ascii.eqb c "U" then Some (mk_options u g arg m w d)
  else if Ascii.eqb c "m" then Some (mk_options u g us true w d)
  else if Ascii.eqb c "w" then Some (mk_options u g us m true d)
  else if Ascii.eqb c "G" then Some (mk_options u g us m w true)
  else if Ascii.eqb c "i" || Ascii.eqb c "o" then Some st
  else None.

Fixpoint apply_options (os : list (Ascii.ascii * string)) (st : options) : option options :=
  match os with
  | [] => Some st
  | o :: os' => st' ← apply_option o st; apply_options os' st'
  end.

(** The command line of [sdcard_main] (without the program's name): [None] is
    an exit through [usage()]. *)
Definition parse_args (args : list string) : option (options * string * string) :=
  let '(os, rest) := getopt_all (length args) args in
  st ← apply_options os (mk_options 0 0 0 false false false);
  match rest with
  | [source_path; label] =>
      if negb (truthy (o_uid st)) || negb (truthy (o_gid st)) then None
      else Some (st, source_path, label)
  | _ => None
  end.

Section main.
Context {W : Type} `{!FuseAbi, !AndroidIds, !Os W, !BootOs W}.
Abbreviation Mb := (M (boot W)).

(** Wait for installd; [n] bounds the waiting. *)
Fixpoint wait_layout (n : nat) : Mb unit :=
  match n with
  | O => stuck
  | S n' =>
      v ← bsys bo_layout_version;
      match v with
      | None => wait_layout n'
      | Some v => if v <? 3 then wait_layout n' else mret tt
      end
  end.

(** [sdcard_main]: [inl] is a return value, [inr] the running daemon. *)
Definition sdcard_main (n : nat) (args : list string) : Mb (Z + (list fuse * fs W)) :=
  match parse_args args with
  | None => mret (inl 1)
  | Some (st, source_path, label) =>
      emit (BSetRlimit 8192 8192) ;;
      wait_layout n ;;
      use ← should_use_sdcardfs;
      if (use : bool) then
        run_sdcardfs source_path label (o_uid st) (o_gid st) (o_userid st)
          (o_multi_user st) (o_full_write st) (o_derive_gid st) ;;
        mret (inl 1)
      else
        r ← run source_path label (o_uid st) (o_gid st) (o_userid st)
              (o_multi_user st) (o_full_write st);
        mret (inr r)
  end.
End main.
