(* ===== verification/SdcardSpec.v ===== *)
(** * sdcard: what start-up and the package watcher guarantee *)

From Stdlib Require Import Ascii String.
From S2P Require Import Prelude CMonad FuseTypes FuseState FuseNode FuseTree FuseRefs FuseHandlers FuseInv.
From S2P Require Import FuseDerive FuseGraph FuseMutate FuseMove FuseSafe FuseRename FuseServe Sdcard.

Local Open Scope Z_scope.

Section packages.
Context {W : Type} `{!FuseAbi, !AndroidIds, !Os W, !OsOk W, !BootOs W}.
Implicit Types s : fs W.

(** After the package map changes, deriving below the root makes the whole
    graph coherent with the new map. *)
Lemma Graph_reload s K ext pkgs h' :
  Graph s K ∅ ∅ ext → rederived pkgs (below (heap s) Root) (heap s) h' →
  Graph (set_heap h' (set_packages pkgs s)) K ∅ ∅ ext.
Proof.
  intros [T R Hw [Hr Hu Hi] _] Rd.
  assert (∀ x m2, h' !! x = Some m2 → ∃ m, heap s !! x = Some m ∧ core m2 = core m) as Hb.
  { intros x m2 Hx. pose proof (rd_core _ _ _ _ Rd x) as E. rewrite Hx in E.
    destruct (heap s !! x); simplify_eq/=. eauto. }
  assert (heap (set_heap h' (set_packages pkgs s)) = h' ∧
    inode_ctr (set_heap h' (set_packages pkgs s)) = inode_ctr s ∧
    package_to_appid (set_heap h' (set_packages pkgs s)) = pkgs) as (E1 & E2 & E3) by (by destruct s).
  split; rewrite ?E1, ?E2, ?E3.
  - by eapply rederived_tree.
  - by eapply rederived_refs.
  - intros p n Hp. destruct (rd_wf _ _ _ _ Rd _ _ Hp) as (m & Hm & Hwf). by apply Hwf, Hw.
  - split; [done| |].
    + intros p n (m & Hm & E)%Hb. rewrite (core_ino _ _ E). eauto.
    + intros p q n n' (m & Hm & E)%Hb (m' & Hm' & E')%Hb.
      rewrite (core_ino _ _ E), (core_ino _ _ E'). eauto.
  - intros p n q m _ Hp Hpar Hq. eapply (rd_coh _ _ _ _ Rd); [|done..].
    destruct (Hb _ _ Hp) as (n0 & Hn0 & E). pose proof (core_parent _ _ E) as Ep.
    destruct (t_lin _ _ _ T _ _ Hn0) as [l Hl]. split.
    + exists l. split; [done|]. by eapply root_in_lineage.
    + intros ->. destruct (t_root _ _ _ T) as (? & ? & ?). congruence.
Qed.

(** The map a list of lines leaves: the first line of a package (up to case)
    counts, and nothing after the first repetition. *)
Fixpoint distinct_prefix (seen : list string) (infos : list (string * Z)) : list (string * Z) :=
  match infos with
  | [] => []
  | info :: infos' =>
      if decide (tolower info.1 ∈ seen) then []
      else info :: distinct_prefix (tolower info.1 :: seen) infos'
  end.

Lemma packagelist_parse_from infos : ∀ m seen,
  (∀ k, k ∈ seen ↔ is_Some (m !! k)) →
  packagelist_parse infos m =
  list_to_map ((λ i, (tolower i.1, i.2)) <$> reverse (distinct_prefix seen infos)) ∪ m.
Proof.
  induction infos as [|[nm u] infos IH]; intros m seen Hseen; simpl.
  { by rewrite (left_id_L ∅ (∪)). }
  unfold package_parse_callback, appid_emplace. simpl. case_decide as Hin.
  - apply Hseen in Hin as [v ->]. simpl. by rewrite (left_id_L ∅ (∪)).
  - destruct (m !! tolower nm) eqn:Em; [exfalso; apply Hin, Hseen; eauto|].
    rewrite (IH _ (tolower nm :: seen)).
    + rewrite reverse_cons, fmap_app, list_to_map_app. simpl.
      rewrite <- (assoc_L (∪)). f_equal. by rewrite insert_empty, insert_union_singleton_l.
    + intros k. rewrite elem_of_cons, lookup_insert, Hseen. case_decide; naive_solver.
Qed.

(** Reloading the package list installs exactly that map and makes every
    node's permissions coherent with it, with the lock free again. *)
Theorem read_package_list_coherent s K ext :
  Inv s K ext →
  wp read_package_list (λ ok s', ∃ infos, Inv s' K ext ∧ ok = (bo_packages (world s)).1.2 ∧
    infos = (bo_packages (world s)).1.1 ∧
    package_to_appid s' = list_to_map ((λ i, (tolower i.1, i.2)) <$> reverse (distinct_prefix [] infos)) ∧
    out s' = out s ∧ (∀ p, core <$> heap s' !! p = core <$> heap s !! p)) s.
Proof.
  intros [G HR Hl]. pose proof (g_tree _ _ _ _ _ G) as T. destruct (t_root _ _ _ T) as (r & Hr & _).
  unfold read_package_list. wp_step. apply wp_lock; [done|].
  wp_step. apply wp_sys. intros [infos ok] w Hp. wp_step. apply wp_modify. wp_step. simpl.
  set (pkgs := packagelist_parse infos ∅).
  set (s1 := set_packages pkgs (set_world w (set_locked true s))).
  assert (heap s1 = heap s) as Hh1 by (by destruct s).
  eapply wp_mono.
  { eapply (derive_permissions_recursive_locked_ok s1 K ∅ Root r); by rewrite Hh1. }
  intros [] s2 (h2 & -> & Rd). cbn beta. rewrite Hh1 in Rd.
  assert (package_to_appid s1 = pkgs) as Hp1 by (by destruct s). rewrite Hp1 in Rd.
  pose proof (Graph_reload _ _ _ _ _ G Rd) as G2.
  wp_step. apply wp_unlock; [by destruct s|]. wp_step.
  assert ((bo_packages (world s)) = ((infos, ok), w)) as -> by (rewrite <- Hp; by destruct s).
  exists infos. split_and!; try done.
  - split; [|done|by destruct s]. eapply Graph_same; [|exact G2]. by destruct s.
  - transitivity pkgs; [by destruct s|]. unfold pkgs.
    rewrite (packagelist_parse_from _ _ []); [by rewrite (right_id_L ∅ (∪))|].
    intros k. rewrite lookup_empty. split; [set_solver|by intros [? ?]].
  - by destruct s.
  - intros p. replace (heap (set_locked false (set_heap h2 s1))) with h2 by (by destruct s).
    by apply Rd.
Qed.

(** The inner loop consumes the whole buffer, and disarms the watch exactly
    when one of the events reports that the watched file is gone. *)
Theorem scan_events_exact (evs : list (list Ascii.ascii)) tail active :
  0 < sizeof_inotify_event →
  (∀ ev rest, ev ∈ evs → 0 <= (as_inotify_event (ev ++ rest)).2 ∧
    as_inotify_event (ev ++ rest) = as_inotify_event ev ∧
    Z.of_nat (length ev) = sizeof_inotify_event + (as_inotify_event ev).2) →
  Z.of_nat (length tail) < sizeof_inotify_event →
  let buf := concat evs ++ tail in
  scan_events (S (length buf)) buf active =
  active && forallb (λ ev, negb (Z.land (as_inotify_event ev).1 IN_IGNORED =? IN_IGNORED)) evs.
Proof.
  intros Hpos Hev Htail buf. unfold buf. clear buf.
  assert (∀ fuel, (length (concat evs ++ tail) < fuel)%nat →
    scan_events fuel (concat evs ++ tail) active =
    active && forallb (λ ev, negb (Z.land (as_inotify_event ev).1 IN_IGNORED =? IN_IGNORED)) evs) as Hf;
    [|apply Hf; lia].
  revert active. induction evs as [|ev evs IH]; intros active fuel Hfuel.
  - destruct fuel; [simpl in Hfuel; lia|]. simpl. rewrite andb_true_r.
    rewrite (proj2 (Z.leb_gt _ _)); [done|]. simpl. lia.
  - simpl in *. rewrite <- (assoc_L (++)) in *. destruct fuel as [|fuel]; [lia|].
    destruct (Hev ev (concat evs ++ tail)) as (Hlen & Has & Hl); [left|]. rewrite Has in Hlen.
    cbn [scan_events]. rewrite (proj2 (Z.leb_le _ _)) by (rewrite length_app; lia).
    rewrite Has. destruct (as_inotify_event ev) as [mask len] eqn:Em. simpl in *.
    replace (Z.to_nat (sizeof_inotify_event + len)) with (length ev) by lia.
    rewrite drop_app_length. rewrite length_app in Hfuel. rewrite IH.
    + destruct (Z.land mask IN_IGNORED =? IN_IGNORED); simpl; by rewrite ?andb_false_r.
    + intros e rest He. apply Hev. by right.
    + lia.
Qed.
End packages.

Section boot.
Context {W : Type} `{!FuseAbi, !AndroidIds, !Os W, !BootOs W}.
Implicit Types b : boot W.

(** The state [run] shares with its handlers satisfies the daemon's invariant:
    only the root, held twice. *)
Definition root_refs : refmap := λ p, if decide (p = Root) then 2 else 0.

Lemma initial_fs_Inv (w : W) source_path userid multi_user :
  Inv (initial_fs w source_path userid multi_user) (λ _, []) root_refs.
Proof.
  set (r := root_node source_path userid multi_user).
  assert (∀ p n, ({[Root := r]} : nodes) !! p = Some n ↔ p = Root ∧ n = r) as Hl.
  { intros p n. rewrite lookup_singleton_Some. naive_solver. }
  split; [|done|done]. split; simpl; fold r.
  - split.
    + exists r. by rewrite Hl.
    + intros p n [-> ->]%Hl. by left.
    + set_solver.
    + intros p n [-> ->]%Hl. constructor.
    + intros. constructor.
    + set_solver.
    + by intros c m p [-> ->]%Hl.
    + intros p n [-> ->]%Hl. exists [Root]. econstructor; [by apply Hl|done].
  - split.
    + intros p n [-> ->]%Hl. unfold root_refs. rewrite decide_True by done. done.
    + intros p Hp. unfold root_refs. rewrite decide_False; [done|]. intros ->.
      by rewrite lookup_singleton_eq in Hp.
  - intros p n [-> ->]%Hl. split; simpl; try done. lia.
  - split; [done| |].
    + by intros p n [-> ->]%Hl.
    + by intros p q n m [-> ->]%Hl [-> ->]%Hl.
  - intros p n q m _ [-> ->]%Hl. done.
Qed.

(** What a start-up step may do, whatever its outcome. *)
Definition emits (P : bootev → Prop) {A} (m : M (boot W) A) : Prop := ∀ b,
  match m b with
  | Ret _ b' | Exit _ b' => ∃ es, trace b' = es ++ trace b ∧ Forall P es
  | Undefined | Stuck => True
  end.

Section emits.
Context (P : bootev → Prop).

Lemma emits_ret {A} (a : A) : emits P (mret a).
Proof. intros b. by exists []. Qed.
Lemma emits_exit {A} c : emits P (exit c : M (boot W) A).
Proof. intros b. by exists []. Qed.
Lemma emits_stuck {A} : emits P (stuck : M (boot W) A).
Proof. done. Qed.
Lemma emits_require c : emits P (require c : M (boot W) unit).
Proof. destruct c; [apply emits_ret|done]. Qed.
Lemma emits_get : emits P (get : M (boot W) (boot W)).
Proof. intros b. by exists []. Qed.
Lemma emits_bsys {A} (c : W → A * W) : emits P (bsys c).
Proof. intros b. unfold bsys. destruct (c _). by exists []. Qed.
Lemma emits_emit e : P e → emits P (emit e : M (boot W) unit).
Proof. intros He b. exists [e]. split; [done|]. by constructor. Qed.
Lemma emits_bind {A B} (m : M (boot W) A) (k : A → M (boot W) B) :
  emits P m → (∀ a, emits P (k a)) → emits P (m ≫= k).
Proof.
  intros Hm Hk b. specialize (Hm b). unfold mbind, M_bind.
  destruct (m b) as [a b1|c b1| |]; [|done..].
  destruct Hm as (es1 & E1 & H1). specialize (Hk a b1).
  destruct (k a b1) as [a' b2|c b2| |]; [| |done..];
    destruct Hk as (es2 & -> & H2); exists (es2 ++ es1); rewrite E1, (assoc_L (++));
    (split; [done|by apply Forall_app]).
Qed.
End emits.

(** One lemma per construct: the tactic follows the program. *)
Ltac emits_tac :=
  repeat lazymatch goal with
  | |- emits _ (_ ≫= _) => apply emits_bind; [|intros]
  | |- emits _ (mret _) => apply emits_ret
  | |- emits _ (exit _) => apply emits_exit
  | |- emits _ fatal => apply emits_exit
  | |- emits _ (require _) => apply emits_require
  | |- emits _ get => apply emits_get
  | |- emits _ (bsys _) => apply emits_bsys
  | |- emits _ (emit _) => apply emits_emit; try done
  | |- emits _ (if ?c then _ else _) => destruct c
  | |- emits _ (match ?c with _ => _ end) => destruct c
  | |- emits _ (let _ := _ in _) => cbv zeta
  end.

Lemma mount_emits P src dst ty fl o : P (BMount src dst ty fl o) → emits P (mount src dst ty fl o).
Proof. intros. unfold mount. emits_tac. Qed.
Lemma umount2_emits P path fl : P (BUmount path fl) → emits P (umount2 path fl : M (boot W) unit).
Proof. intros. unfold umount2. by apply emits_emit. Qed.

Lemma setup_views_emits P vs label uid gid multi_user full_write :
  (∀ src dst ty fl o, P (BMount src dst ty fl o)) → (∀ path fl, P (BUmount path fl)) →
  emits P (setup_views vs label uid gid multi_user full_write).
Proof.
  intros. induction vs as [|v vs IH]; simpl; emits_tac; [|done].
  unfold fuse_setup. emits_tac; [by apply umount2_emits|by apply mount_emits].
Qed.

Lemma start_handlers_emits P fs_ : (∀ v, P (BStartHandler v)) → emits P (start_handlers fs_).
Proof. intros. induction fs_ as [|f fs_ IH]; simpl; emits_tac; done. Qed.

Lemma sdcardfs_setup_emits P src dst u g mu us gid mask dg :
  (∀ src dst ty fl o, P (BMount src dst ty fl o)) → emits P (sdcardfs_setup src dst u g mu us gid mask dg).
Proof. intros HP. unfold sdcardfs_setup. emits_tac; apply mount_emits, HP. Qed.

Lemma bind_remount_emits P src dst gid mask :
  (∀ src dst ty fl o, P (BMount src dst ty fl o)) → (∀ path fl, P (BUmount path fl)) →
  emits P (sdcardfs_setup_bind_remount src dst gid mask).
Proof.
  intros HP HU. unfold sdcardfs_setup_bind_remount. emits_tac.
  all: try apply mount_emits, HP. apply umount2_emits, HU.
Qed.

Lemma parse_args_nonzero args st source_path label :
  parse_args args = Some (st, source_path, label) → o_uid st ≠ 0 ∧ o_gid st ≠ 0.
Proof.
  unfold parse_args. destruct (getopt_all _ _) as [os rest].
  destruct (apply_options _ _) as [st'|]; simpl; [|done].
  destruct rest as [|a [|c [|? ?]]]; try done.
  unfold truthy. destruct (Z.eqb_spec (o_uid st') 0), (Z.eqb_spec (o_gid st') 0); simpl; try done.
  by intros [= -> _ _].
Qed.

(** However it is invoked and whatever the system answers, the program never
    settles on user or group 0: it leaves through [usage] or drops to the
    nonzero ids of its command line. *)
Theorem sdcard_main_never_root n args :
  emits (λ e, match e with BDropPrivs groups g u => u ≠ 0 ∧ g ≠ 0 ∧ groups = kGroups | _ => True end)
    (sdcard_main n args).
Proof.
  unfold sdcard_main. destruct (parse_args args) as [[[st sp] lb]|] eqn:Hp; [|apply emits_ret].
  destruct (parse_args_nonzero _ _ _ _ Hp) as [Hu Hg].
  set (P := λ e, _).
  assert (emits P (drop_privs (o_uid st) (o_gid st))) as Hdrop.
  { unfold drop_privs. emits_tac. }
  assert (∀ m, emits P (wait_layout m)) as Hwait.
  { induction m as [|m IH]; simpl; [apply emits_stuck|]. emits_tac; done. }
  emits_tac; try done.
  - unfold should_use_sdcardfs, supports_sdcardfs. emits_tac.
  - unfold run_sdcardfs, fs_prepare_dir, and_then. emits_tac; try done.
    + by apply sdcardfs_setup_emits.
    + by apply bind_remount_emits.
    + by apply bind_remount_emits.
  - unfold run, fs_prepare_dir. emits_tac; try done.
    + by apply setup_views_emits.
    + by apply start_handlers_emits.
Qed.

Definition is_mount (e : bootev) : Prop :=
  match e with BMount _ _ _ _ _ | BUmount _ _ => True | _ => False end.

Definition view_fuse (multi_user full_write : bool) (v : view) : fuse :=
  mk_fuse v (view_gid v) (view_mask multi_user full_write v).

Lemma setup_views_result vs label uid gid mu fw : ∀ b l b',
  setup_views vs label uid gid mu fw b = Ret (Some l) b' → l = view_fuse mu fw <$> vs.
Proof.
  induction vs as [|v vs IH]; intros b l b'; simpl.
  { by intros [= <- _]. }
  intros (f & b1 & Hf & Hk)%bind_ret_inv. destruct f as [f|]; [|by injection Hk].
  apply bind_ret_inv in Hk as (r & b2 & Hr & Hl).
  destruct r as [r|]; [|by injection Hl]. injection Hl as <- _. f_equal; [|by eapply IH].
  unfold fuse_setup in Hf. apply bind_ret_inv in Hf as (fd & b3 & _ & Hf).
  destruct fd as [fd|]; [|by injection Hf]. apply bind_ret_inv in Hf as (? & b4 & _ & Hf).
  apply bind_ret_inv in Hf as (ok & b5 & _ & Hf). destruct ok; by injection Hf.
Qed.

Lemma start_handlers_result fs_ : ∀ b b',
  start_handlers fs_ b = Ret true b' →
  trace b' = reverse (BStartHandler ∘ fview <$> fs_) ++ trace b.
Proof.
  induction fs_ as [|f fs_ IH]; intros b b'; simpl; [by intros [= <-]|].
  intros (? & b1 & E1 & Hk)%bind_ret_inv. injection E1 as _ <-.
  apply bind_ret_inv in Hk as (ok & b2 & E2 & Hk). unfold bsys in E2. simpl in E2.
  destruct (bo_pthread_create _ _) as [ok' w]. injection E2 as <- <-.
  destruct ok'; [|by injection Hk]. rewrite (IH _ _ Hk). simpl.
  rewrite reverse_cons, <- (assoc_L (++)). done.
Qed.

(** C27: When [run] reaches the watcher it serves the four views with their masks,
    from a consistent initial state; it has done nothing but mount before it
    dropped its privileges, and started the handlers last. *)
Theorem run_serves_views source_path label uid gid userid mu fw b fuses s b' :
  run source_path label uid gid userid mu fw b = Ret (fuses, s) b' →
  fuses = view_fuse mu fw <$> [V_DEFAULT; V_READ; V_WRITE; V_FULL] ∧
  Inv s (λ _, []) root_refs ∧
  ∃ mounts, Forall is_mount mounts ∧
    trace b' = reverse (BStartHandler <$> [V_DEFAULT; V_READ; V_WRITE; V_FULL]) ++ [BFork] ++
      (if mu then [BPrepareDir (initial_obb_path source_path mu) 0x1fd uid gid] else []) ++
      [BDropPrivs kGroups gid uid] ++ mounts ++ [BUmask 0] ++ trace b.
Proof.
  unfold run. intros (? & b0 & E0 & H1)%bind_ret_inv.
  assert (b0 = b) as -> by (destruct (slen source_path <? PATH_MAX); [by injection E0|done]). clear E0.
  apply bind_ret_inv in H1 as (? & b1 & E1 & H1). injection E1 as _ <-.
  apply bind_ret_inv in H1 as (fuses' & b2 & E2 & H1).
  pose proof (setup_views_emits is_mount [V_DEFAULT; V_READ; V_WRITE; V_FULL] label uid gid mu fw
    ltac:(done) ltac:(done) (mk_boot (bworld b) (BUmask 0 :: trace b))) as Hms.
  rewrite E2 in Hms. destruct Hms as (mounts & Hms & Hall).
  destruct fuses' as [fuses'|]; [|done]. pose proof (setup_views_result _ _ _ _ _ _ _ _ _ E2) as ->.
  apply bind_ret_inv in H1 as (? & b3 & E3 & H1).
  assert (trace b3 = BDropPrivs kGroups gid uid :: trace b2) as Ht3.
  { unfold drop_privs in E3. apply bind_ret_inv in E3 as (? & b4 & E4 & E3). injection E4 as _ <-.
    apply bind_ret_inv in E3 as (ok & b5 & E5 & E3). unfold bsys in E5. simpl in E5.
    destruct (bo_drop_privs _ _ _) as [ok' w]. injection E5 as <- <-.
    destruct ok'; [|done]. by injection E3 as _ <-. }
  apply bind_ret_inv in H1 as (? & b4 & E4 & H1).
  assert (trace b4 = (if mu then [BPrepareDir (initial_obb_path source_path mu) 0x1fd uid gid] else []) ++
    trace b3) as Ht4 by (destruct mu; by injection E4 as _ <-).
  apply bind_ret_inv in H1 as (? & b5 & E5 & H1). injection E5 as _ <-.
  apply bind_ret_inv in H1 as (pid & b6 & E6 & H1). unfold bsys in E6. simpl in E6.
  destruct (bo_fork _) as [pid' w]. injection E6 as <- <-.
  destruct (pid' <? 0); [done|]. destruct (0 <? pid'); [done|].
  apply bind_ret_inv in H1 as (ok & b7 & E7 & H1). destruct ok; [|done].
  apply start_handlers_result in E7. injection H1 as <- <- <-.
  split; [done|]. split; [apply initial_fs_Inv|]. exists mounts. split; [done|].
  rewrite E7. simpl trace at 1. rewrite Ht4, Ht3, Hms. simpl. by destruct mu.
Qed.

(** The sdcardfs mount is retried without [derive_gid] exactly when it was asked
    for and the first attempt failed. *)
Theorem sdcardfs_setup_attempts src dst fsuid fsgid mu userid gid mask dg b ok b' :
  sdcardfs_setup src dst fsuid fsgid mu userid gid mask dg b = Ret ok b' →
  let attempt d := BMount src dst (Some "sdcardfs"%string) SDCARDFS_FLAGS
    (Some (sdcardfs_opts fsuid fsgid mu d mask userid gid)) in
  let first := (bo_mount (bworld b) src dst (Some "sdcardfs"%string) SDCARDFS_FLAGS
    (Some (sdcardfs_opts fsuid fsgid mu dg mask userid gid))).1 in
  trace b' = (if negb first && dg then [attempt false] else []) ++ [attempt dg] ++ trace b ∧
  (first = true → ok = true) ∧ (first = false → dg = false → ok = false).
Proof.
  unfold sdcardfs_setup, mount. intros (ok1 & b1 & E1 & Hk)%bind_ret_inv.
  apply bind_ret_inv in E1 as (? & b2 & E2 & E1). injection E2 as _ <-. unfold bsys in E1. simpl in E1.
  simpl. destruct (bo_mount _ _ _ _ _ _) as [ok' w]. injection E1 as <- <-. simpl.
  destruct ok'; simpl.
  { injection Hk as <- <-. done. }
  destruct dg; simpl.
  - apply bind_ret_inv in Hk as (? & b3 & E3 & E1). injection E3 as _ <-. unfold bsys in E1. simpl in E1.
    destruct (bo_mount _ _ _ _ _ _) as [ok2 w2]. injection E1 as <- <-. done.
  - injection Hk as <- <-. done.
Qed.

(** *** The search of /proc/filesystems *)

Fixpoint no_char (c : Ascii.ascii) (n : string) : bool :=
  match n with EmptyString => true | String a n' => negb (Ascii.eqb a c) && no_char c n' end.

Lemma split_head_prefix sep h : ∀ n, no_char sep n = true →
  ∃ l ls, split_on sep h = l :: ls ∧ is_prefix n l = is_prefix n h.
Proof.
  induction h as [|c h IH]; intros n Hn; simpl; [by eexists _, _|].
  destruct (Ascii.eqb c sep) eqn:Hc.
  - eexists _, _. split; [done|]. apply Ascii.eqb_eq in Hc as ->.
    destruct n as [|a n]; [done|]. simpl in Hn. apply andb_true_iff in Hn as [Ha _].
    simpl. by destruct (Ascii.eqb a sep).
  - destruct n as [|a n].
    + destruct (IH EmptyString) as (l & ls & -> & _); [done|]. by eexists _, _.
    + simpl in Hn. apply andb_true_iff in Hn as [_ Hn].
      destruct (IH n Hn) as (l & ls & -> & Hl). eexists _, _. split; [done|]. simpl. by rewrite Hl.
Qed.

Lemma split_contains sep n h :
  no_char sep n = true → n ≠ EmptyString → existsb (contains n) (split_on sep h) = contains n h.
Proof.
  intros Hn Hne. induction h as [|c h IH]; [by destruct n|].
  destruct (split_head_prefix sep (String c h) n Hn) as (l' & ls' & Hs & Hp).
  simpl in Hs |- *. destruct (Ascii.eqb c sep) eqn:Hc.
  - injection Hs as <- <-. simpl. rewrite IH. simpl in Hp. rewrite <- Hp. by destruct n.
  - destruct (split_on sep h) as [|l ls] eqn:E.
    + destruct (split_head_prefix sep h n Hn) as (? & ? & ? & _). congruence.
    + injection Hs as <- <-. simpl in *. rewrite <- IH, <- Hp. by rewrite orb_assoc.
Qed.

(** Looking at the file line by line finds sdcardfs exactly when the text
    mentions it anywhere; an unreadable file counts as no support. *)
Theorem supports_sdcardfs_exact b :
  ∃ b', trace b' = trace b ∧
    supports_sdcardfs b = Ret (match (bo_read_filesystems (bworld b)).1 with
      | Some text => contains "sdcardfs"%string text | None => false end) b'.
Proof.
  unfold supports_sdcardfs, bsys, mbind, M_bind.
  destruct (bo_read_filesystems (bworld b)) as [[text|] w]; simpl; exists (mk_boot w (trace b)); [|done].
  split; [done|]. by rewrite split_contains.
Qed.
End boot.
