(* ===== verification/FuseWitness.v ===== *)
(** * sdcard: a concrete environment, and the theorems in it

    The Linux FUSE ABI, Android's ids and a small operating system, as instances
    of the interfaces of [FuseTypes] and [Sdcard]; the theorems are applied to
    them on concrete requests, which shows that their hypotheses can be met. *)

From Stdlib Require Import Ascii String.
From S2P Require Import Prelude CMonad FuseTypes FuseState FuseNode FuseTree FuseRefs FuseHandlers FuseInv.
From S2P Require Import FuseDerive FuseGraph FuseMutate FuseMove FuseSafe FuseRename FuseServe FuseSpec.
From S2P Require Import FusePolicy Sdcard SdcardSpec.

Local Open Scope Z_scope.

(** ** The ABI *)

Fixpoint le (n : nat) (l : list Ascii.ascii) : Z :=
  match n, l with
  | S n', c :: l' => Z.of_nat (Ascii.nat_of_ascii c) + 256 * le n' l'
  | _, _ => 0
  end.
Definition u32_at (off : nat) (l : list Ascii.ascii) : Z := le 4 (drop off l).
Definition u64_at (off : nat) (l : list Ascii.ascii) : Z := le 8 (drop off l).

#[export] Instance linux_fuse : FuseAbi := {|
  FUSE_ROOT_ID := 1;
  FUSE_LOOKUP := 1; FUSE_FORGET := 2; FUSE_GETATTR := 3; FUSE_SETATTR := 4;
  FUSE_MKNOD := 8; FUSE_MKDIR := 9; FUSE_UNLINK := 10; FUSE_RMDIR := 11; FUSE_RENAME := 12;
  FUSE_OPEN := 14; FUSE_READ := 15; FUSE_WRITE := 16; FUSE_STATFS := 17; FUSE_RELEASE := 18;
  FUSE_FSYNC := 20; FUSE_FSYNCDIR := 30; FUSE_FLUSH := 25; FUSE_OPENDIR := 27;
  FUSE_READDIR := 28; FUSE_RELEASEDIR := 29; FUSE_INIT := 26;
  FUSE_KERNEL_VERSION := 7; FUSE_COMPAT_22_INIT_OUT_SIZE := Some 24;
  FUSE_ATOMIC_O_TRUNC := 8; FUSE_BIG_WRITES := 32;
  FATTR_SIZE := 8; FATTR_ATIME := 16; FATTR_MTIME := 32; FATTR_FH := 64;
  FATTR_ATIME_NOW := 128; FATTR_MTIME_NOW := 256;
  FUSE_DIRENT_ALIGN x := Z.land (x + 7) (Z.lnot 7);
  sizeof_in_header := 40; sizeof_out_header := 16;
  sizeof_mknod_in := 16; sizeof_mkdir_in := 8; sizeof_rename_in := 8; sizeof_write_in := 40;
  sizeof_entry_out := 128; sizeof_attr_out := 104; sizeof_open_out := 16; sizeof_write_out := 8;
  sizeof_statfs_out := 80; sizeof_init_out := 64; sizeof_dirent := 24;
  sizeof_notify_delete_out := 24;
  as_in_header l := mk_in_header (u32_at 0 l) (u32_at 4 l) (u64_at 8 l) (u64_at 16 l) (u32_at 24 l);
  as_forget_in l := mk_forget_in (u64_at 0 l);
  as_setattr_in l := mk_setattr_in (u32_at 0 l) (u64_at 16 l) (u64_at 32 l) (u32_at 56 l)
    (u64_at 40 l) (u32_at 60 l);
  as_mknod_in l := mk_mknod_in (u32_at 0 l) (u32_at 4 l);
  as_mkdir_in l := mk_mkdir_in (u32_at 0 l);
  as_rename_in l := mk_rename_in (u64_at 0 l);
  as_open_in l := mk_open_in (u32_at 0 l);
  as_read_in l := mk_read_in (u64_at 0 l) (u64_at 8 l) (u32_at 16 l);
  as_write_in l := mk_write_in (u64_at 0 l) (u64_at 8 l) (u32_at 16 l) (u32_at 20 l);
  as_release_in l := mk_release_in (u64_at 0 l);
  as_fsync_in l := mk_fsync_in (u64_at 0 l) (u32_at 8 l);
  as_init_in l := mk_init_in (u32_at 0 l) (u32_at 4 l) (u32_at 8 l)
|}.

#[export] Instance linux_fuse_ok : FuseAbiOk.
Proof. split. by apply (bool_decide_unpack (NoDup _)). Qed.

#[export] Instance android_ids : AndroidIds := {|
  AID_ROOT := 0; AID_SDCARD_RW := 1015; AID_EVERYBODY := 9997; AID_PACKAGE_INFO := 1032;
  multiuser_get_uid us app := us * 100000 + app mod 100000
|}.

(** ** A small system

    Every path exists, every call succeeds; [dir_entries] is what the open
    directory stream still has to say. *)
Record demo : Type := mk_demo { dir_entries : list dirent; exists_exact : bool }.

Definition demo_stat : stat := mk_stat 5 1 0 0 0 0 0 0 0x81ff 1.

Definition top_addr (live : gset Z) : Z := set_fold Z.max 4096 live + 8.

#[export] Instance demo_os : Os demo := {|
  os_malloc w live size :=
    (if top_addr live <? 2 ^ UINTPTR_BITS then Some (top_addr live) else None, w);
  os_lstat w _ := (inl demo_stat, w);
  os_access w _ := (exists_exact w, w);
  os_opendir w _ := (inl 1, w);
  os_readdir w _ :=
    match dir_entries w with
    | [] => (None, w)
    | e :: es => (Some e, mk_demo es (exists_exact w))
    end;
  os_dir_left w _ := length (dir_entries w);
  os_rewinddir w _ := w;
  os_closedir w _ := w;
  os_dirfd w _ := 5;
  os_open w _ _ _ := (inl 6, w);
  os_close w _ := w;
  os_mknod w _ _ _ := (inl tt, w);
  os_mkdir w _ _ := (inl tt, w);
  os_unlink w _ := (inl tt, w);
  os_rmdir w _ := (inl tt, w);
  os_rename w _ _ := (inl tt, w);
  os_truncate w _ _ := (inl tt, w);
  os_utimensat w _ _ _ := (inl tt, w);
  os_statfs w _ := (inl (mk_statfs 0 0 0 0 0 4096 255 4096), w);
  os_pread w _ n _ := (inl [], w);
  os_pwrite w _ d _ := (inl (Z.of_nat (length d)), w);
  os_fsync w _ := (inl tt, w);
  os_fdatasync w _ := (inl tt, w);
  os_read_request w _ := (inl [], w)
|}.

Lemma top_addr_above live a : a ∈ live → a < top_addr live.
Proof.
  unfold top_addr. apply (set_fold_ind_L (λ r (X : gset Z), ∀ a, a ∈ X → a < r + 8)); [set_solver|].
  intros x X r _ IH b [->%elem_of_singleton|Hb]%elem_of_union; [lia|]. specialize (IH _ Hb). lia.
Qed.

Lemma top_addr_low live : 4096 < top_addr live.
Proof.
  unfold top_addr. apply (set_fold_ind_L (λ r (X : gset Z), 4096 < r + 8)); lia.
Qed.

#[export] Instance demo_os_ok : OsOk demo.
Proof.
  split.
  - intros w live size a w' H. simpl in H. destruct (Z.ltb_spec (top_addr live) (2 ^ UINTPTR_BITS)); [|done].
    simplify_eq. pose proof (top_addr_low live). split_and!; [|lia|done|simpl; lia].
    intros Hin%top_addr_above. lia.
  - intros w d e w' H. simpl in *. destruct (dir_entries w) as [|e' es]; simplify_eq/=. lia.
Qed.

#[export] Instance demo_boot : BootOs demo := {|
  bo_open_fuse w := (inl 3, w);
  bo_mount w _ _ _ _ _ := (true, w);
  bo_drop_privs w _ _ := (true, w);
  bo_fork w := (0, w);
  bo_pthread_create w _ := (true, w);
  bo_layout_version w := (Some 3, w);
  bo_read_filesystems w := (Some "nodev sysfs"%string, w);
  bo_property_get w _ d := d;
  bo_property_get_bool w _ d := d;
  bo_inotify_init w := (inl 4, w);
  bo_inotify_add_watch w _ := (inl 1, w);
  bo_inotify_read w _ := (inl [], w);
  bo_packages w := (([("com.example"%string, 10007)], true), w);
  sizeof_inotify_event := 16;
  as_inotify_event l := (u32_at 4 l, u32_at 12 l)
|}.

(** ** States and requests *)

Definition world0 : demo := mk_demo [] true.
Definition fs0 : fs demo := initial_fs world0 "/data/media" 0 false.
Definition view0 : fuse := mk_fuse V_DEFAULT 1015 6.

Definition byte (z : Z) : Ascii.ascii := Ascii.ascii_of_nat (Z.to_nat z).
Fixpoint to_le (n : nat) (z : Z) : list Ascii.ascii :=
  match n with O => [] | S n' => byte (z mod 256) :: to_le n' (z / 256) end.

(** A request with its header, its fixed part and its strings. *)
Definition request (op nodeid : Z) (body : list Ascii.ascii) : list Ascii.ascii :=
  to_le 4 (40 + Z.of_nat (length body)) ++ to_le 4 op ++ to_le 8 77 ++ to_le 8 nodeid ++
  to_le 4 1000 ++ to_le 12 0 ++ body.
Definition cstr (s : string) : list Ascii.ascii := String.list_ascii_of_string s ++ [Ascii.zero].

(** Run an operation and look at the resulting state. *)
Definition state_after {A} (m : M (fs demo) A) (s : fs demo) : fs demo :=
  match m s with Ret _ s' => s' | _ => s end.
Definition result_of {A} (m : M (fs demo) A) (s : fs demo) : option A :=
  match m s with Ret a _ => Some a | _ => None end.

Example lookup_answers :
  result_of (answer_request view0 (request 1 1 (cstr "Music"))) fs0 = Some tt ∧
  length (out (state_after (answer_request view0 (request 1 1 (cstr "Music"))) fs0)) = 1%nat.
Proof. by vm_compute. Qed.

(** * The theorems at concrete inputs *)

Local Open Scope Z_scope.

(** ** States with some nodes *)

Lemma grow (s : fs demo) K ext par nm p :
  Graph s K ∅ ∅ ext →
  match heap s !! par with Some n => refcount n + 1 <? 2 ^ 32 | None => false end = true →
  result_of (create_node_locked par nm nm) s = Some (Some p) →
  ∃ K', Graph (state_after (create_node_locked par nm nm) s) K' ∅ ∅ (inc p ext).
Proof.
  intros G Hp Hr. destruct (heap s !! par) as [n|] eqn:Hn; [|done].
  pose proof (create_node_locked_ok s K ext par n nm nm G Hn eq_refl (proj1 (Z.ltb_lt _ _) Hp)) as Hwp.
  apply wp_run in Hwp as (r & s' & Hrun & (Hc & _)). unfold result_of in Hr. unfold state_after.
  rewrite Hrun in *. injection Hr as ->. destruct Hc as (_ & _ & _ & K' & m & G' & _). eauto.
Qed.

Definition pkgs0 : gmap string Z := {["com.example"%string := 10007]}.
Definition fsp : fs demo := set_packages pkgs0 fs0.
Definition fs1 : fs demo := state_after (create_node_locked Root "Android" "Android") fsp.
Definition fs2 : fs demo := state_after (create_node_locked (Heap 4104) "data" "data") fs1.
Definition fs3 : fs demo := state_after (create_node_locked (Heap 4112) "com.example" "com.example") fs2.

Definition ext1 : refmap := inc (Heap 4104) root_refs.
Definition ext2 : refmap := inc (Heap 4112) ext1.
Definition ext3 : refmap := inc (Heap 4120) ext2.

Lemma fsp_graph : Graph fsp (λ _, []) ∅ ∅ root_refs.
Proof.
  destruct (initial_fs_Inv world0 "/data/media" 0 false) as [[T R Hw Hi _] _ _].
  split; try done. intros p n q m _ Hp Hq. simpl in Hp.
  apply lookup_singleton_Some in Hp as [<- <-]. done.
Qed.

Lemma fs1_graph : ∃ K, Graph fs1 K ∅ ∅ ext1.
Proof. eapply grow; [apply fsp_graph|by vm_compute..]. Qed.
Lemma fs2_graph : ∃ K, Graph fs2 K ∅ ∅ ext2.
Proof. destruct fs1_graph as [K G]. eapply grow; [exact G|by vm_compute..]. Qed.
Lemma fs3_graph : ∃ K, Graph fs3 K ∅ ∅ ext3.
Proof. destruct fs2_graph as [K G]. eapply grow; [exact G|by vm_compute..]. Qed.

Lemma fs3_Inv : ∃ K, Inv fs3 K ext3.
Proof. destruct fs3_graph as [K G]. exists K. split; [exact G|by vm_compute..]. Qed.

Lemma headroom_check (h : nodes) :
  bool_decide (map_Forall (λ _ n, refcount n + 3 < 2 ^ 32) h) = true → headroom h.
Proof. intros Hb%bool_decide_eq_true p n Hp. exact (Hb _ _ Hp). Qed.

(** The lineage of a node, computed. *)
Fixpoint ancestors (fuel : nat) (h : nodes) (p : ptr) : option (list ptr) :=
  match fuel with
  | O => None
  | S fuel' =>
      n ← h !! p;
      match parent n with
      | None => Some [p]
      | Some q => l ← ancestors fuel' h q; Some (p :: l)
      end
  end.

Lemma ancestors_lineage fuel h p l : ancestors fuel h p = Some l → lineage h p l.
Proof.
  revert p l. induction fuel as [|fuel IH]; intros p l; simpl; [done|].
  destruct (h !! p) as [n|] eqn:Hp; simpl; [|done]. destruct (parent n) as [q|] eqn:Hq.
  - destruct (ancestors fuel h q) as [l'|] eqn:Ha; simpl; [|done]. intros [= <-].
    econstructor; [done..|by apply IH].
  - intros [= <-]. by econstructor.
Qed.

Definition node_at (h : nodes) (p : ptr) : node :=
  default (root_node "" 0 false) (h !! p).
Lemma node_at_live (h : nodes) p : bool_decide (is_Some (h !! p)) = true → h !! p = Some (node_at h p).
Proof. intros [n Hn]%bool_decide_eq_true. unfold node_at. by rewrite Hn. Qed.

(** ** The witnesses *)

Definition req_lookup : list Ascii.ascii := request 1 4104 (cstr "obb").

Lemma answer_request_safe_witness :
  let hdr := as_in_header req_lookup in
  let data := drop (Z.to_nat sizeof_in_header) req_lookup in
  wp (answer_request view0 req_lookup) (λ _ s', ∃ K' msgs,
      Inv s' K' (settle hdr data msgs ext3) ∧ out s' = msgs ++ out fs3 ∧
      package_to_appid s' = package_to_appid fs3 ∧ answered view0 hdr msgs) fs3.
Proof.
  destruct fs3_Inv as [K HI]. eapply (answer_request_safe view0 req_lookup fs3 K ext3 HI).
  split; try (intros E; exfalso; vm_compute in E; discriminate E).
  - apply headroom_check. by vm_compute.
  - intros _. exists (Heap 4104). split; by vm_compute.
  - intros _. eexists. by vm_compute.
Defined.

Lemma release_exact_witness :
  wp (release_node_locked (Heap 4120)) (λ _ s', ∃ K', Graph s' K' ∅ ∅ (dec (Heap 4120) ext3) ∧
    quiet fs3 s' ∧
    (∀ q, is_Some (heap s' !! q) ↔ needed (heap fs3) (dec (Heap 4120) ext3) q) ∧
    (∀ q n', heap s' !! q = Some n' → ∃ n, heap fs3 !! q = Some n ∧ payload n' = payload n)) fs3.
Proof.
  destruct fs3_graph as [K G]. apply (release_exact fs3 K ext3 (Heap 4120) G).
  - exists (node_at (heap fs3) (Heap 4120)). apply node_at_live. by vm_compute.
  - by vm_compute.
  - by vm_compute.
Defined.

Lemma lookup_node_and_path_exact_witness :
  let p := Heap 4120 in
  ∃ path, path = "/data/media/Android/data/com.example"%string ∧
  wp (lookup_node_and_path_by_id_locked (nid (node_at (heap fs3) p)) PATH_MAX) (λ r s', s' = fs3 ∧
      r = if slen path <? PATH_MAX then Some (p, path) else None) fs3.
Proof.
  intros p. destruct fs3_graph as [K G]. eexists. split; [reflexivity|].
  apply (lookup_node_and_path_exact fs3 K ∅ ∅ ext3 p (node_at (heap fs3) p) _ PATH_MAX G).
  - apply node_at_live. by vm_compute.
  - exists [Heap 4120; Heap 4112; Heap 4104; Root], (node_at (heap fs3) <$> [Heap 4120; Heap 4112; Heap 4104; Root]).
    split; [apply (ancestors_lineage 5); by vm_compute|]. split; [|by vm_compute].
    repeat (constructor; [apply node_at_live; by vm_compute|]). constructor.
Defined.

Lemma find_file_within_exact_witness :
  wp (find_file_within "/data/media" "android" PATH_MAX true) (λ r s', only_world fs3 s' ∧ log s' = log fs3 ∧
      (r = None ↔ PATH_MAX <= slen "/data/media" + slen "android" + 1) ∧
      ∀ actual cp, r = Some (actual, cp) →
        strcaseeq actual "android" = true ∧ slen actual = slen "android" ∧
        cp = "/data/media" +:+ "/" +:+ actual ∧
        slen cp < PATH_MAX ∧ (true = false → actual = "android"%string)) fs3.
Proof. exact (find_file_within_exact fs3 "/data/media" "android" PATH_MAX true). Defined.

Lemma create_node_fresh_witness :
  wp (create_node_locked (Heap 4104) "obb" "OBB") (λ r s', quiet fs3 s' ∧
      match r with
      | None => same_graph fs3 s'
      | Some p => ∃ K' n, Graph s' K' ∅ ∅ (inc p ext3) ∧ heap fs3 !! p = None ∧ heap s' !! p = Some n ∧
          str (name n) = "obb"%string ∧ parent n = Some (Heap 4104) ∧ deleted n = false ∧
          gen n = next_generation fs3 ∧ next_generation s' = u64 (next_generation fs3 + 1) ∧
          ino n = inode_ctr fs3 ∧ ∀ q m, heap fs3 !! q = Some m → ino m ≠ ino n
      end) fs3.
Proof.
  destruct fs3_graph as [K G].
  apply (create_node_fresh fs3 K ext3 (Heap 4104) (node_at (heap fs3) (Heap 4104)) "obb" "OBB" G).
  - apply node_at_live. by vm_compute.
  - by vm_compute.
  - by vm_compute.
Defined.

(** Android/data/com.example becomes Android/media. *)
Lemma rename_commit_exact_witness :
  wp (rename_commit (Heap 4104) (Heap 4120) "media" "Media")
    (λ r s', committed (Heap 4104) (Heap 4120) "media" "Media" r ext3 fs3 s') fs3.
Proof.
  destruct fs3_graph as [K G].
  apply (rename_commit_exact fs3 K ext3 (Heap 4120) (node_at (heap fs3) (Heap 4120)) (Heap 4112)
    (Heap 4104) (node_at (heap fs3) (Heap 4104)) [Heap 4104; Root]).
  - exact G.
  - apply node_at_live. by vm_compute.
  - by vm_compute.
  - apply node_at_live. by vm_compute.
  - apply (ancestors_lineage 5). by vm_compute.
  - by apply (bool_decide_unpack (¬ (Heap 4120 ∈ [Heap 4104; Root]))).
  - by vm_compute.
  - by vm_compute.
  - by vm_compute.
  - by vm_compute.
Defined.

Lemma android_no_other_access_witness :
  let m := a_mode (attr_from_stat (mk_fuse V_READ 9997 0x17) demo_stat (node_at (heap fs3) (Heap 4120))) in
  mode_bit m 2 = false ∧ mode_bit m 1 = false ∧ (9997 ≠ AID_SDCARD_RW → mode_bit m 0 = false).
Proof.
  apply (android_no_other_access (mk_fuse V_READ 9997 0x17) demo_stat (node_at (heap fs3) (Heap 4120)));
    by vm_compute.
Defined.

Lemma package_dir_owner_witness :
  let n := node_at (heap fs3) (Heap 4120) in
  uid n = multiuser_get_uid 0 10007 ∧ userid n = 0 ∧ under_android n = true ∧ perm n = PERM_INHERIT.
Proof.
  destruct fs3_Inv as [K HI].
  apply (package_dir_owner fs3 K ext3 Root (node_at (heap fs3) Root) (Heap 4104)
    (node_at (heap fs3) (Heap 4104)) (Heap 4112) (node_at (heap fs3) (Heap 4112)) (Heap 4120)
    (node_at (heap fs3) (Heap 4120)) 10007 (Heap 4120) (node_at (heap fs3) (Heap 4120)));
    try (exact HI); try (apply node_at_live; by vm_compute); try (by vm_compute).
  exists [Heap 4120; Heap 4112; Heap 4104; Root]. split; [|left].
  apply (ancestors_lineage 5). by vm_compute.
Defined.

Definition hdr_on (nodeid op : Z) : fuse_in_header := mk_in_header 50 op 77 nodeid 1000.

Lemma root_request : ∃ K, request_ok fs3 K ext3 1 Root (node_at (heap fs3) Root).
Proof.
  destruct fs3_Inv as [K HI]. exists K. split; [exact HI|split; by vm_compute| |].
  - apply node_at_live. by vm_compute.
  - apply headroom_check. by vm_compute.
Qed.

Lemma blocked_at_root_untouched_witness :
  wp (handle_mkdir view0 (hdr_on 1 9) (mk_mkdir_in 0x1ff) "Autorun.INF")
    (λ r s', (r = - ENOENT ∨ r = - EACCES) ∧ log s' = log fs3 ∧ calm fs3 s') fs3.
Proof.
  destruct root_request as [K R].
  apply (blocked_at_root_untouched view0 (hdr_on 1 9) "Autorun.INF" fs3 K ext3 Root
    (node_at (heap fs3) Root) _ R); [by vm_compute|by vm_compute|].
  right. right. left. by eexists.
Defined.

Lemma setattr_effects_witness :
  wp (handle_setattr view0 (hdr_on 1 4) (mk_setattr_in 24 7 0 0 0 0)) (λ _ s', ∃ path tr ut,
      log s' = ut ++ tr ++ log fs3 ∧
      (tr = [] ∨ (has_flag 24 FATTR_SIZE = true ∧ tr = [EvTruncate path (swrap 64 7)])) ∧
      (ut = [] ∨ ∃ at_ mt, ut = [EvUtimensat path at_ mt] ∧
         has_flag 24 (Z.lor FATTR_ATIME FATTR_MTIME) = true ∧
         (has_flag 24 FATTR_ATIME = false → at_ = mk_timespec None UTIME_OMIT) ∧
         (has_flag 24 FATTR_MTIME = false → mt = mk_timespec None UTIME_OMIT))) fs3.
Proof.
  destruct root_request as [K R].
  exact (setattr_effects view0 (hdr_on 1 4) (mk_setattr_in 24 7 0 0 0 0) fs3 K ext3 Root _ R).
Defined.

Lemma read_package_list_coherent_witness :
  ∃ K, wp read_package_list (λ ok s', ∃ infos, Inv s' K ext3 ∧ ok = (bo_packages (world fs3)).1.2 ∧
      infos = (bo_packages (world fs3)).1.1 ∧
      package_to_appid s' = list_to_map ((λ i, (tolower i.1, i.2)) <$> reverse (distinct_prefix [] infos)) ∧
      out s' = out fs3 ∧ (∀ p, core <$> heap s' !! p = core <$> heap fs3 !! p)) fs3.
Proof.
  destruct fs3_Inv as [K HI]. exists K. exact (read_package_list_coherent fs3 K ext3 HI).
Defined.

(** Two inotify events: one with a name, one reporting the file gone. *)
Definition event1 : list Ascii.ascii := to_le 4 1 ++ to_le 4 0x400 ++ to_le 4 0 ++ to_le 4 2 ++ to_le 2 0.
Definition event2 : list Ascii.ascii := to_le 4 1 ++ to_le 4 0x8000 ++ to_le 4 0 ++ to_le 4 0.

Lemma scan_events_exact_witness :
  let buf := concat [event1; event2] ++ to_le 3 0 in
  scan_events (W := demo) (S (length buf)) buf true = true &&
    forallb (λ ev, negb (Z.land (as_inotify_event (W := demo) ev).1 IN_IGNORED =? IN_IGNORED)) [event1; event2].
Proof.
  apply (scan_events_exact (W := demo) [event1; event2] (to_le 3 0) true).
  - by vm_compute.
  - intros ev rest [->|[->|[]%not_elem_of_nil]%elem_of_cons]%elem_of_cons; by vm_compute.
  - by vm_compute.
Defined.

Definition boot0 : boot demo := mk_boot world0 [].

Lemma run_serves_views_witness :
  ∃ fuses (s : fs demo) (b' : boot demo), fuses = view_fuse true false <$> [V_DEFAULT; V_READ; V_WRITE; V_FULL] ∧
    Inv s (λ _, []) root_refs ∧
    ∃ mounts, Forall is_mount mounts ∧
      trace b' = reverse (BStartHandler <$> [V_DEFAULT; V_READ; V_WRITE; V_FULL]) ++ [BFork] ++
        [BPrepareDir (initial_obb_path "/data/media" true) 0x1fd 1023 1023] ++
        [BDropPrivs kGroups 1023 1023] ++ mounts ++ [BUmask 0] ++ trace boot0.
Proof.
  destruct (run (W := demo) "/data/media" "emulated" 1023 1023 0 true false boot0) as [[fuses s] b'| | |] eqn:E;
    [|by vm_compute in E..].
  exists fuses, s, b'.
  exact (run_serves_views "/data/media" "emulated" 1023 1023 0 true false boot0 fuses s b' E).
Defined.

Lemma sdcardfs_setup_attempts_witness :
  ∃ ok (b' : boot demo), let attempt d := BMount "/data/media" "/mnt/x" (Some "sdcardfs"%string) SDCARDFS_FLAGS
      (Some (sdcardfs_opts 1023 1023 true d 6 0 1015)) in
    trace b' = [] ++ [attempt true] ++ [] ∧ (true = true → ok = true) ∧ (true = false → true = false → ok = false).
Proof.
  destruct (sdcardfs_setup (W := demo) "/data/media" "/mnt/x" 1023 1023 true 0 1015 6 true boot0) as [ok b'| | |] eqn:E;
    [|by vm_compute in E..].
  exists ok, b'.
  exact (sdcardfs_setup_attempts "/data/media" "/mnt/x" 1023 1023 true 0 1015 6 true boot0 ok b' E).
Defined.
