(* ===== verification/ShaderKey.v ===== *)
(** * renderengine: program keys (ProgramCache.h, computeKey)

    A [Key] is a 32-bit word of bit fields; the model keeps the masks, the
    read-modify-write [set] and the getters as the source has them. *)

From Stdlib Require Import SpecFloat.
From S2P Require Import Prelude.

(** ** The fields *)

Definition BLEND_SHIFT : Z := 0.
Definition BLEND_MASK : Z := Z.shiftl 1 BLEND_SHIFT.
Definition BLEND_PREMULT : Z := Z.shiftl 1 BLEND_SHIFT.
Definition BLEND_NORMAL : Z := Z.shiftl 0 BLEND_SHIFT.

Definition OPACITY_SHIFT : Z := 1.
Definition OPACITY_MASK : Z := Z.shiftl 1 OPACITY_SHIFT.
Definition OPACITY_OPAQUE : Z := Z.shiftl 1 OPACITY_SHIFT.
Definition OPACITY_TRANSLUCENT : Z := Z.shiftl 0 OPACITY_SHIFT.

Definition ALPHA_SHIFT : Z := 2.
Definition ALPHA_MASK : Z := Z.shiftl 1 ALPHA_SHIFT.
Definition ALPHA_LT_ONE : Z := Z.shiftl 1 ALPHA_SHIFT.
Definition ALPHA_EQ_ONE : Z := Z.shiftl 0 ALPHA_SHIFT.

Definition TEXTURE_SHIFT : Z := 3.
Definition TEXTURE_MASK : Z := Z.shiftl 3 TEXTURE_SHIFT.
Definition TEXTURE_OFF : Z := Z.shiftl 0 TEXTURE_SHIFT.
Definition TEXTURE_EXT : Z := Z.shiftl 1 TEXTURE_SHIFT.
Definition TEXTURE_2D : Z := Z.shiftl 2 TEXTURE_SHIFT.

Definition ROUNDED_CORNERS_SHIFT : Z := 5.
Definition ROUNDED_CORNERS_MASK : Z := Z.shiftl 1 ROUNDED_CORNERS_SHIFT.
Definition ROUNDED_CORNERS_OFF : Z := Z.shiftl 0 ROUNDED_CORNERS_SHIFT.
Definition ROUNDED_CORNERS_ON : Z := Z.shiftl 1 ROUNDED_CORNERS_SHIFT.

Definition INPUT_TRANSFORM_MATRIX_SHIFT : Z := 6.
Definition INPUT_TRANSFORM_MATRIX_MASK : Z := Z.shiftl 1 INPUT_TRANSFORM_MATRIX_SHIFT.
Definition INPUT_TRANSFORM_MATRIX_OFF : Z := Z.shiftl 0 INPUT_TRANSFORM_MATRIX_SHIFT.
Definition INPUT_TRANSFORM_MATRIX_ON : Z := Z.shiftl 1 INPUT_TRANSFORM_MATRIX_SHIFT.

Definition OUTPUT_TRANSFORM_MATRIX_SHIFT : Z := 7.
Definition OUTPUT_TRANSFORM_MATRIX_MASK : Z := Z.shiftl 1 OUTPUT_TRANSFORM_MATRIX_SHIFT.
Definition OUTPUT_TRANSFORM_MATRIX_OFF : Z := Z.shiftl 0 OUTPUT_TRANSFORM_MATRIX_SHIFT.
Definition OUTPUT_TRANSFORM_MATRIX_ON : Z := Z.shiftl 1 OUTPUT_TRANSFORM_MATRIX_SHIFT.

Definition INPUT_TF_SHIFT : Z := 8.
Definition INPUT_TF_MASK : Z := Z.shiftl 3 INPUT_TF_SHIFT.
Definition INPUT_TF_LINEAR : Z := Z.shiftl 0 INPUT_TF_SHIFT.
Definition INPUT_TF_SRGB : Z := Z.shiftl 1 INPUT_TF_SHIFT.
Definition INPUT_TF_ST2084 : Z := Z.shiftl 2 INPUT_TF_SHIFT.
Definition INPUT_TF_HLG : Z := Z.shiftl 3 INPUT_TF_SHIFT.

Definition OUTPUT_TF_SHIFT : Z := 10.
Definition OUTPUT_TF_MASK : Z := Z.shiftl 3 OUTPUT_TF_SHIFT.
Definition OUTPUT_TF_LINEAR : Z := Z.shiftl 0 OUTPUT_TF_SHIFT.
Definition OUTPUT_TF_SRGB : Z := Z.shiftl 1 OUTPUT_TF_SHIFT.
Definition OUTPUT_TF_ST2084 : Z := Z.shiftl 2 OUTPUT_TF_SHIFT.
Definition OUTPUT_TF_HLG : Z := Z.shiftl 3 OUTPUT_TF_SHIFT.

Definition Y410_BT2020_SHIFT : Z := 12.
Definition Y410_BT2020_MASK : Z := Z.shiftl 1 Y410_BT2020_SHIFT.
Definition Y410_BT2020_OFF : Z := Z.shiftl 0 Y410_BT2020_SHIFT.
Definition Y410_BT2020_ON : Z := Z.shiftl 1 Y410_BT2020_SHIFT.

Definition SWIZZLE_SHIFT : Z := 13.
Definition SWIZZLE_MASK : Z := Z.shiftl 1 SWIZZLE_SHIFT.
Definition SWIZZLE_OFF : Z := Z.shiftl 0 SWIZZLE_SHIFT.
Definition SWIZZLE_ON : Z := Z.shiftl 1 SWIZZLE_SHIFT.

(** [class Key]: a [uint32_t]; [operator==] and [Hash] are those of the word, so
    keys are compared and stored as [Z]. *)
Abbreviation Key := Z (only parsing).

Definition Key_init : Key := 0.
Definition set (mask value : Z) (k : Key) : Key := Z.lor (Z.land k (u32 (Z.lnot mask))) value.

Definition isTexturing (k : Key) : bool := negb (Z.land k TEXTURE_MASK =? TEXTURE_OFF).
Definition getTextureTarget (k : Key) : Z := Z.land k TEXTURE_MASK.
Definition isPremultiplied (k : Key) : bool := Z.land k BLEND_MASK =? BLEND_PREMULT.
Definition isOpaque (k : Key) : bool := Z.land k OPACITY_MASK =? OPACITY_OPAQUE.
Definition hasAlpha (k : Key) : bool := Z.land k ALPHA_MASK =? ALPHA_LT_ONE.
Definition hasRoundedCorners (k : Key) : bool := Z.land k ROUNDED_CORNERS_MASK =? ROUNDED_CORNERS_ON.
Definition hasInputTransformMatrix (k : Key) : bool :=
  Z.land k INPUT_TRANSFORM_MATRIX_MASK =? INPUT_TRANSFORM_MATRIX_ON.
Definition hasOutputTransformMatrix (k : Key) : bool :=
  Z.land k OUTPUT_TRANSFORM_MATRIX_MASK =? OUTPUT_TRANSFORM_MATRIX_ON.
Definition hasTransformMatrix (k : Key) : bool := hasInputTransformMatrix k || hasOutputTransformMatrix k.
Definition getInputTF (k : Key) : Z := Z.land k INPUT_TF_MASK.
Definition getOutputTF (k : Key) : Z := Z.land k OUTPUT_TF_MASK.

Definition needsToneMapping (k : Key) : bool :=
  let inputTF := getInputTF k in
  let outputTF := getOutputTF k in
  if (inputTF =? INPUT_TF_SRGB) && (outputTF =? OUTPUT_TF_LINEAR) then false
  else if (inputTF =? INPUT_TF_LINEAR) && (outputTF =? OUTPUT_TF_SRGB) then false
  else negb (Z.shiftr inputTF INPUT_TF_SHIFT =? Z.shiftr outputTF OUTPUT_TF_SHIFT).

Definition hasSwizzle (k : Key) : bool := Z.land k SWIZZLE_MASK =? SWIZZLE_ON.
Definition isY410BT2020 (k : Key) : bool := Z.land k Y410_BT2020_MASK =? Y410_BT2020_ON.

(** ** computeKey *)

(** The OpenGL ES texture targets. *)
Definition GL_TEXTURE_2D : Z := 0x0DE1.
Definition GL_TEXTURE_EXTERNAL_OES : Z := 0x8D65.

(** [renderengine::Description], whose class is not in the repository: what the
    key generator reads of it. *)
Inductive TransferFunction : Type := LINEAR | SRGB | ST2084 | HLG.

#[export] Instance TransferFunction_eq_dec : EqDecision TransferFunction.
Proof. solve_decision. Defined.

Record Description : Type := mk_Description {
  textureEnabled : bool;
  textureTarget : Z;
  color_a : spec_float;
  isPremultipliedAlpha : bool;
  d_isOpaque : bool;
  d_hasInputTransformMatrix : bool;
  d_hasOutputTransformMatrix : bool;
  d_hasColorMatrix : bool;
  cornerRadius : spec_float;
  d_isY410BT2020 : bool;
  inputTransferFunction : TransferFunction;
  outputTransferFunction : TransferFunction
}.

(** 1.0f and 0.0f. *)
Definition one_f : spec_float := S754_finite false 8388608 (-23).
Definition zero_f : spec_float := S754_zero false.

Definition input_tf_field (tf : TransferFunction) : Z :=
  match tf with
  | LINEAR => INPUT_TF_LINEAR
  | SRGB => INPUT_TF_SRGB
  | ST2084 => INPUT_TF_ST2084
  | HLG => INPUT_TF_HLG
  end.
Definition output_tf_field (tf : TransferFunction) : Z :=
  match tf with
  | LINEAR => OUTPUT_TF_LINEAR
  | SRGB => OUTPUT_TF_SRGB
  | ST2084 => OUTPUT_TF_ST2084
  | HLG => OUTPUT_TF_HLG
  end.

Definition texture_field (d : Description) : Z :=
  if negb (textureEnabled d) then TEXTURE_OFF
  else if textureTarget d =? GL_TEXTURE_EXTERNAL_OES then TEXTURE_EXT
  else if textureTarget d =? GL_TEXTURE_2D then TEXTURE_2D
  else TEXTURE_OFF.

(** [swizzleEnabled] is the value of [a1000_swizzleEnabled()]. *)
Definition computeKey (swizzleEnabled : bool) (d : Description) : Key :=
  let needs := Key_init in
  let needs := set TEXTURE_MASK (texture_field d) needs in
  let needs := set ALPHA_MASK (if SFltb (color_a d) one_f then ALPHA_LT_ONE else ALPHA_EQ_ONE) needs in
  let needs := set BLEND_MASK (if isPremultipliedAlpha d then BLEND_PREMULT else BLEND_NORMAL) needs in
  let needs := set OPACITY_MASK (if d_isOpaque d then OPACITY_OPAQUE else OPACITY_TRANSLUCENT) needs in
  let needs := set INPUT_TRANSFORM_MATRIX_MASK
                 (if d_hasInputTransformMatrix d then INPUT_TRANSFORM_MATRIX_ON
                  else INPUT_TRANSFORM_MATRIX_OFF) needs in
  let needs := set OUTPUT_TRANSFORM_MATRIX_MASK
                 (if d_hasOutputTransformMatrix d || d_hasColorMatrix d
                  then OUTPUT_TRANSFORM_MATRIX_ON else OUTPUT_TRANSFORM_MATRIX_OFF) needs in
  let needs := set ROUNDED_CORNERS_MASK
                 (if SFltb zero_f (cornerRadius d) then ROUNDED_CORNERS_ON
                  else ROUNDED_CORNERS_OFF) needs in
  let needs := set Y410_BT2020_MASK
                 (if d_isY410BT2020 d then Y410_BT2020_ON else Y410_BT2020_OFF) needs in
  let needs := set SWIZZLE_MASK (if swizzleEnabled then SWIZZLE_ON else SWIZZLE_OFF) needs in
  if hasTransformMatrix needs ||
     negb (bool_decide (inputTransferFunction d = outputTransferFunction d)) then
    let needs := set INPUT_TF_MASK (input_tf_field (inputTransferFunction d)) needs in
    set OUTPUT_TF_MASK (output_tf_field (outputTransferFunction d)) needs
  else needs.

(** ** Fields, read and written *)

(** [v] is a value of the field [mask]. *)
Definition field_value (mask v : Z) : Prop := Z.land v mask = v.
Definition field_mask (mask : Z) : Prop := in_width 32 mask.

Lemma set_testbit mask v k i : field_mask mask → 0 <= i < 32 →
  Z.testbit (set mask v k) i = (Z.testbit k i && negb (Z.testbit mask i)) || Z.testbit v i.
Proof.
  intros Hm Hi. unfold set. rewrite Z.lor_spec, Z.land_spec.
  unfold wrap. rewrite Z.mod_pow2_bits_low by lia. by rewrite Z.lnot_spec by lia.
Qed.

Lemma field_mask_high mask i : field_mask mask → 32 <= i → Z.testbit mask i = false.
Proof.
  intros [H0 H1] Hi. destruct (decide (mask = 0)) as [->|]; [apply Z.bits_0|].
  apply Z.bits_above_log2; [done|]. apply Z.log2_lt_pow2; [lia|].
  eapply Z.lt_le_trans; [exact H1|]. apply Z.pow_le_mono_r; lia.
Qed.

Lemma set_get mask v k : field_mask mask → field_value mask v → Z.land (set mask v k) mask = v.
Proof.
  intros Hm Hv. apply Z.bits_inj'. intros i Hi. rewrite Z.land_spec.
  rewrite <- Hv. rewrite Z.land_spec. destruct (decide (i < 32)) as [Hlt|Hge].
  - rewrite set_testbit, Z.land_spec by (done || lia).
    by destruct (Z.testbit k i), (Z.testbit mask i), (Z.testbit v i).
  - by rewrite (field_mask_high mask i), !andb_false_r by (done || lia).
Qed.

Lemma set_get_other mask mask' v k :
  field_mask mask → field_mask mask' → field_value mask v → Z.land mask mask' = 0 →
  Z.land (set mask v k) mask' = Z.land k mask'.
Proof.
  intros Hm Hm' Hv Hd. apply Z.bits_inj'. intros i Hi. rewrite !Z.land_spec.
  destruct (decide (i < 32)) as [Hlt|Hge].
  - rewrite set_testbit by (done || lia).
    assert (Z.testbit v i && negb (Z.testbit mask i) = false) as Hvm.
    { rewrite <- Hv, Z.land_spec. by destruct (Z.testbit v i), (Z.testbit mask i). }
    assert (Z.testbit mask i && Z.testbit mask' i = false) as Hdi.
    { by rewrite <- Z.land_spec, Hd, Z.bits_0. }
    destruct (Z.testbit k i), (Z.testbit mask i), (Z.testbit v i), (Z.testbit mask' i); done.
  - by rewrite (field_mask_high mask' i), !andb_false_r by (done || lia).
Qed.

Lemma input_tf_value tf : field_value INPUT_TF_MASK (input_tf_field tf).
Proof. by destruct tf. Qed.
Lemma output_tf_value tf : field_value OUTPUT_TF_MASK (output_tf_field tf).
Proof. by destruct tf. Qed.
Lemma texture_value d : field_value TEXTURE_MASK (texture_field d).
Proof. unfold texture_field. by repeat case_match. Qed.

(** Side conditions on concrete masks and values. *)
Ltac field :=
  first [ exact (texture_value _) | exact (input_tf_value _) | exact (output_tf_value _)
        | unfold field_value; case_match; by vm_compute
        | by vm_compute | split; by vm_compute ].
(** Read a field of a key built by [set]s. *)
Ltac read_field :=
  repeat first [rewrite set_get by field | rewrite set_get_other by field].

(** The colour pipeline is needed for this description. *)
Definition converts (d : Description) : bool :=
  d_hasInputTransformMatrix d || (d_hasOutputTransformMatrix d || d_hasColorMatrix d) ||
  negb (bool_decide (inputTransferFunction d = outputTransferFunction d)).

(** The key before the transfer functions. *)
Definition base_key (sw : bool) (d : Description) : Key :=
  set SWIZZLE_MASK (if sw then SWIZZLE_ON else SWIZZLE_OFF)
  (set Y410_BT2020_MASK (if d_isY410BT2020 d then Y410_BT2020_ON else Y410_BT2020_OFF)
  (set ROUNDED_CORNERS_MASK (if SFltb zero_f (cornerRadius d) then ROUNDED_CORNERS_ON else ROUNDED_CORNERS_OFF)
  (set OUTPUT_TRANSFORM_MATRIX_MASK (if d_hasOutputTransformMatrix d || d_hasColorMatrix d
     then OUTPUT_TRANSFORM_MATRIX_ON else OUTPUT_TRANSFORM_MATRIX_OFF)
  (set INPUT_TRANSFORM_MATRIX_MASK (if d_hasInputTransformMatrix d
     then INPUT_TRANSFORM_MATRIX_ON else INPUT_TRANSFORM_MATRIX_OFF)
  (set OPACITY_MASK (if d_isOpaque d then OPACITY_OPAQUE else OPACITY_TRANSLUCENT)
  (set BLEND_MASK (if isPremultipliedAlpha d then BLEND_PREMULT else BLEND_NORMAL)
  (set ALPHA_MASK (if SFltb (color_a d) one_f then ALPHA_LT_ONE else ALPHA_EQ_ONE)
  (set TEXTURE_MASK (texture_field d) Key_init)))))))).


Lemma computeKey_base sw d :
  computeKey sw d =
  (if converts d
   then set OUTPUT_TF_MASK (output_tf_field (outputTransferFunction d))
          (set INPUT_TF_MASK (input_tf_field (inputTransferFunction d)) (base_key sw d))
   else base_key sw d).
Proof.
  unfold computeKey. fold (base_key sw d). cbv zeta.
  assert (hasTransformMatrix (base_key sw d) =
    d_hasInputTransformMatrix d || (d_hasOutputTransformMatrix d || d_hasColorMatrix d)) as Ht.
  { unfold hasTransformMatrix, hasInputTransformMatrix, hasOutputTransformMatrix, base_key.
    read_field. by destruct (d_hasInputTransformMatrix d), (d_hasOutputTransformMatrix d || d_hasColorMatrix d). }
  change (set SWIZZLE_MASK _ _) with (base_key sw d). by rewrite Ht.
Qed.

(** Every field of a computed key says what the description says; the transfer
    functions are recorded only when colours are converted. *)
Lemma computeKey_reads sw d :
  let k := computeKey sw d in
  getTextureTarget k = texture_field d ∧
  hasAlpha k = SFltb (color_a d) one_f ∧
  isPremultiplied k = isPremultipliedAlpha d ∧
  isOpaque k = d_isOpaque d ∧
  hasRoundedCorners k = SFltb zero_f (cornerRadius d) ∧
  hasInputTransformMatrix k = d_hasInputTransformMatrix d ∧
  hasOutputTransformMatrix k = d_hasOutputTransformMatrix d || d_hasColorMatrix d ∧
  isY410BT2020 k = d_isY410BT2020 d ∧
  hasSwizzle k = sw ∧
  getInputTF k = (if converts d then input_tf_field (inputTransferFunction d) else INPUT_TF_LINEAR) ∧
  getOutputTF k = (if converts d then output_tf_field (outputTransferFunction d) else OUTPUT_TF_LINEAR).
Proof.
  intros k. unfold k. rewrite computeKey_base.
  unfold getTextureTarget, hasAlpha, isPremultiplied, isOpaque, hasRoundedCorners,
    hasInputTransformMatrix, hasOutputTransformMatrix, isY410BT2020, hasSwizzle, getInputTF, getOutputTF.
  destruct (converts d); unfold base_key; read_field; split_and!; try done; by case_match.
Qed.

(** The source compares the two transfer functions without aligning the fields;
    on the keys it computes the test is exactly "colours are converted". *)
Lemma pipeline_test sw d :
  let k := computeKey sw d in
  hasTransformMatrix k || negb (getInputTF k =? getOutputTF k) = converts d.
Proof.
  intros k. unfold k. rewrite computeKey_base.
  unfold hasTransformMatrix, hasInputTransformMatrix, hasOutputTransformMatrix, getInputTF, getOutputTF.
  destruct (converts d) eqn:Hc; unfold base_key; read_field; unfold converts in Hc.
  - destruct (d_hasInputTransformMatrix d); [done|].
    destruct (d_hasOutputTransformMatrix d || d_hasColorMatrix d); [done|]. simpl in *.
    apply negb_true_iff, bool_decide_eq_false in Hc.
    destruct (inputTransferFunction d), (outputTransferFunction d); try done.
  - apply orb_false_iff in Hc as [Hc _]. apply orb_false_iff in Hc as [-> ->]. done.
Qed.
