(* ===== verification/ShaderGen.v ===== *)
(** * renderengine: shader generation (ProgramCache.cpp)

    The [Formatter] and the generators of the vertex and the fragment shader.  A
    generator is the sequence of things the source streams into its [Formatter];
    [stream] interprets such a sequence. *)

From Stdlib Require Import Ascii String.
From S2P Require Import Prelude ShaderText ShaderKey.

Local Open Scope string_scope.
Local Open Scope list_scope.
Local Open Scope Z_scope.

(** ** Formatter *)

Record Formatter : Type := mk_Formatter { mString : string; mIndent : Z }.

Definition Formatter_init : Formatter := mk_Formatter "" 0.

Fixpoint spaces (n : nat) : string :=
  match n with O => "" | S n' => "    " +:+ spaces n' end.

(** [operator<<(Formatter&, const char* )] *)
Definition put (out : Formatter) (line : string) : Formatter :=
  mk_Formatter (mString out +:+ spaces (Z.to_nat (mIndent out)) +:+ line +:+ String "010"%char "")
    (mIndent out).
Definition indent (f : Formatter) : Formatter := mk_Formatter (mString f) (mIndent f + 1).
Definition dedent (f : Formatter) : Formatter := mk_Formatter (mString f) (mIndent f - 1).

(** What is streamed: a line, or one of the manipulators. *)
Inductive item : Type :=
  | Line (s : string)
  | Indent
  | Dedent.

Definition stream1 (f : Formatter) (i : item) : Formatter :=
  match i with Line s => put f s | Indent => indent f | Dedent => dedent f end.
Definition stream (items : list item) (f : Formatter) : Formatter := fold_left stream1 items f.

(** [if (b) { fs << ...; }] *)
Definition when (b : bool) (items : list item) : list item := if b then items else [].

(** ** The transfer functions *)

Definition generateEOTF (k : Key) : list item :=
  if getInputTF k =? INPUT_TF_SRGB then [Line EOTF_sRGB_glsl]
  else if getInputTF k =? INPUT_TF_ST2084 then [Line EOTF_ST2084_glsl]
  else if getInputTF k =? INPUT_TF_HLG then [Line EOTF_HLG_glsl]
  else [Line EOTF_linear_glsl].

Definition generateToneMappingProcess (k : Key) : list item :=
  (if getInputTF k =? INPUT_TF_ST2084 then [Line ScaleLuminance_ST2084_glsl]
   else if getInputTF k =? INPUT_TF_HLG then [Line ScaleLuminance_HLG_glsl]
   else [Line ScaleLuminance_default_glsl]) ++
  (if (getInputTF k =? INPUT_TF_ST2084) || (getInputTF k =? INPUT_TF_HLG) then
     if getOutputTF k =? OUTPUT_TF_HLG then [Line ToneMap_HLG_glsl]
     else if getOutputTF k =? OUTPUT_TF_ST2084 then [Line ToneMap_ST2084_glsl]
     else [Line ToneMap_to_SDR_glsl]
   else [Line ToneMap_inverse_glsl]) ++
  (if getOutputTF k =? OUTPUT_TF_ST2084 then [Line NormalizeLuminance_ST2084_glsl]
   else if getOutputTF k =? OUTPUT_TF_HLG then [Line NormalizeLuminance_HLG_glsl]
   else [Line NormalizeLuminance_default_glsl]).

Definition generateOOTF (k : Key) : list item :=
  if negb (needsToneMapping k) then [Line OOTF_identity_glsl]
  else generateToneMappingProcess k ++ [Line OOTF_toneMapped_glsl].

Definition generateOETF (k : Key) : list item :=
  if getOutputTF k =? OUTPUT_TF_SRGB then [Line OETF_sRGB_glsl]
  else if getOutputTF k =? OUTPUT_TF_ST2084 then [Line OETF_ST2084_glsl]
  else if getOutputTF k =? OUTPUT_TF_HLG then [Line OETF_HLG_glsl]
  else [Line OETF_linear_glsl].

(** ** The vertex shader *)

Definition vertex_items (k : Key) : list item :=
  when (isTexturing k) [Line "attribute vec4 texCoords;"; Line "varying vec2 outTexCoords;"] ++
  when (hasRoundedCorners k)
    [Line "attribute lowp vec4 cropCoords;"; Line "varying lowp vec2 outCropCoords;"] ++
  [Line "attribute vec4 position;"; Line "uniform mat4 projection;"; Line "uniform mat4 texture;";
   Line "void main(void) {"; Indent; Line "gl_Position = projection * position;"] ++
  when (isTexturing k) [Line "outTexCoords = (texture * texCoords).st;"] ++
  when (hasRoundedCorners k) [Line "outCropCoords = cropCoords.st;"] ++
  [Dedent; Line "}"].

Definition generateVertexShader (k : Key) : string :=
  mString (stream (vertex_items k) Formatter_init).

(** ** The fragment shader *)

(** The test the source repeats: is there a colour pipeline? *)
Definition has_pipeline (k : Key) : bool :=
  hasTransformMatrix k || negb (getInputTF k =? getOutputTF k).

(** Extension, precision and the sampler. *)
Definition fragment_sampler (k : Key) : list item :=
  when (getTextureTarget k =? TEXTURE_EXT) [Line "#extension GL_OES_EGL_image_external : require"] ++
  [Line "precision mediump float;"] ++
  (if getTextureTarget k =? TEXTURE_EXT then
     [Line "uniform samplerExternalOES sampler;"; Line "varying vec2 outTexCoords;"]
   else if getTextureTarget k =? TEXTURE_2D then
     [Line "uniform sampler2D sampler;"; Line "varying vec2 outTexCoords;"]
   else []).

(** The functions and uniforms before [main]. *)
Definition fragment_decls (k : Key) : list item :=
  when (hasRoundedCorners k) [Line applyCornerRadius_glsl] ++
  when ((getTextureTarget k =? TEXTURE_OFF) || hasAlpha k) [Line "uniform vec4 color;"] ++
  when (isY410BT2020 k) [Line convertY410BT2020_glsl] ++
  when (has_pipeline k)
    (when (needsToneMapping k) [Line "uniform float displayMaxLuminance;"] ++
     (if hasInputTransformMatrix k then
        [Line "uniform mat4 inputTransformMatrix;"; Line InputTransform_matrix_glsl]
      else [Line InputTransform_identity_glsl]) ++
     (if hasOutputTransformMatrix k then
        [Line "uniform mat4 outputTransformMatrix;"; Line OutputTransform_matrix_glsl]
      else [Line OutputTransform_clamp_glsl]) ++
     generateEOTF k ++ generateOOTF k ++ generateOETF k).

(** The body of [main] up to the channel swizzle. *)
Definition fragment_body (k : Key) : list item :=
  (if isTexturing k then
     [Line "gl_FragColor = texture2D(sampler, outTexCoords);"] ++
     when (isY410BT2020 k) [Line "gl_FragColor.rgb = convertY410BT2020(gl_FragColor.rgb);"]
   else [Line "gl_FragColor.rgb = color.rgb;"; Line "gl_FragColor.a = 1.0;"]) ++
  when (isOpaque k) [Line "gl_FragColor.a = 1.0;"] ++
  when (hasAlpha k)
    (if isPremultiplied k then [Line "gl_FragColor *= color.a;"]
     else [Line "gl_FragColor.a *= color.a;"]) ++
  when (has_pipeline k)
    (when (negb (isOpaque k) && isPremultiplied k)
       [Line "gl_FragColor.rgb = gl_FragColor.rgb / (gl_FragColor.a + 0.0019);"] ++
     [Line ("gl_FragColor.rgb = " +:+
            "OETF(OutputTransform(OOTF(InputTransform(EOTF(gl_FragColor.rgb)))));")] ++
     when (negb (isOpaque k) && isPremultiplied k)
       [Line "gl_FragColor.rgb = gl_FragColor.rgb * (gl_FragColor.a + 0.0019);"]) ++
  when (hasRoundedCorners k)
    (if isPremultiplied k then [Line "gl_FragColor *= vec4(applyCornerRadius(outCropCoords));"]
     else [Line "gl_FragColor.a *= applyCornerRadius(outCropCoords);"]).

(** The panel's channel order: the property if it is three of the letters r, g
    and b, and otherwise "brg". *)
Definition is_channel (c : Ascii.ascii) : bool :=
  Ascii.eqb c "r" || Ascii.eqb c "g" || Ascii.eqb c "b".
Fixpoint all_channels (s : string) : bool :=
  match s with EmptyString => true | String c s' => is_channel c && all_channels s' end.
Definition normalize_swz (swz : string) : string :=
  if (slen swz =? 3) && all_channels swz then swz else "brg".

Definition fragment_swizzle (prop : string) (k : Key) : list item :=
  when (hasSwizzle k)
    (let swz := normalize_swz prop in
     when (negb (streq swz "rgb")) [Line ("gl_FragColor.rgb = gl_FragColor." +:+ swz +:+ ";")]).

(** [prop] is what [property_get("debug.sf.swz", ., "brg")] returns. *)
Definition fragment_items (prop : string) (k : Key) : list item :=
  fragment_sampler k ++ fragment_decls k ++
  [Line "void main(void) {"; Indent] ++ fragment_body k ++ fragment_swizzle prop k ++
  [Dedent; Line "}"].

Definition generateFragmentShader (prop : string) (k : Key) : string :=
  mString (stream (fragment_items prop k) Formatter_init).

(** ** The text of a sequence *)

(** The lines of a sequence with the indentation each gets. *)
Fixpoint layout (ind : Z) (items : list item) : string :=
  match items with
  | [] => ""
  | Line s :: rest => spaces (Z.to_nat ind) +:+ s +:+ String "010"%char "" +:+ layout ind rest
  | Indent :: rest => layout (ind + 1) rest
  | Dedent :: rest => layout (ind - 1) rest
  end.

Definition indent_change (items : list item) : Z :=
  foldr (λ i n, match i with Indent => n + 1 | Dedent => n - 1 | Line _ => n end) 0 items.

Lemma stream_layout items : ∀ f,
  stream items f = mk_Formatter (mString f +:+ layout (mIndent f) items) (mIndent f + indent_change items).
Proof.
  induction items as [|i items IH]; intros [s n]; simpl.
  - f_equal; [|lia]. induction s as [|c s IHs]; [done|].
    change (String c s = String c (s +:+ "")). congruence.
  - rewrite IH. destruct i; simpl; f_equal; try lia.
    rewrite !string_app_assoc. done.
Qed.

Lemma layout_app a b ind : layout ind (a ++ b) = layout ind a +:+ layout (ind + indent_change a) b.
Proof.
  revert ind. induction a as [|i a IH]; intros ind; simpl.
  - by rewrite Z.add_0_r.
  - destruct i; simpl; rewrite IH.
    + by rewrite !string_app_assoc.
    + do 2 f_equal. lia.
    + do 2 f_equal. lia.
Qed.

(** The lines of a sequence, without their layout. *)
Fixpoint lines (items : list item) : list string :=
  match items with
  | [] => []
  | Line s :: rest => s :: lines rest
  | _ :: rest => lines rest
  end.
Lemma lines_app a b : lines (a ++ b) = lines a ++ lines b.
Proof. induction a as [|[] a IH]; simpl; by rewrite ?IH. Qed.
Lemma lines_when b l : lines (when b l) = if b then lines l else [].
Proof. by destruct b. Qed.
