(* ===== verification/ShaderSpec.v ===== *)
(** * renderengine: the generated shaders are well formed

    Braces balance, names are declared before they are used, the two shaders of
    a program agree on their varyings, and the debug property cannot inject
    anything but a channel order. *)

From Stdlib Require Import Ascii String.
From S2P Require Import Prelude ShaderText ShaderKey ShaderGen.

Local Open Scope string_scope.
Local Open Scope list_scope.
Local Open Scope Z_scope.

(** ** Braces *)

(** The nesting depth after the text; [None] if it closes too much. *)
Fixpoint braces (s : string) (depth : Z) : option Z :=
  match s with
  | EmptyString => Some depth
  | String c s' =>
      if Ascii.eqb c "{" then braces s' (depth + 1)
      else if Ascii.eqb c "}" then (if depth <=? 0 then None else braces s' (depth - 1))
      else braces s' depth
  end.

Lemma braces_app a b d : braces (a +:+ b) d = (d' ← braces a d; braces b d').
Proof.
  revert d. induction a as [|c a IH]; intros d; [done|].
  change (String c a +:+ b) with (String c (a +:+ b)). simpl.
  destruct (Ascii.eqb c "{"); [apply IH|]. destruct (Ascii.eqb c "}"); [|apply IH].
  destruct (d <=? 0); [done|apply IH].
Qed.

Lemma braces_then a b d e : braces a d = Some e → braces (a +:+ b) d = braces b e.
Proof. intros Ha. by rewrite braces_app, Ha. Qed.

Lemma braces_shift a : ∀ d e n, braces a d = Some e → 0 <= n → braces a (d + n) = Some (e + n).
Proof.
  induction a as [|c a IH]; intros d e n; simpl; [by intros [= ->]|].
  destruct (Ascii.eqb c "{").
  { intros Hb Hn. replace (d + n + 1) with (d + 1 + n) by lia. by apply IH. }
  destruct (Ascii.eqb c "}"); [|intros; by apply IH].
  destruct (Z.leb_spec d 0); [done|]. intros Hb Hn. rewrite (proj2 (Z.leb_gt _ _)) by lia.
  replace (d + n - 1) with (d - 1 + n) by lia. by apply IH.
Qed.

Lemma braces_spaces n d : braces (spaces n) d = Some d.
Proof. induction n as [|n IH]; [done|]. simpl. rewrite braces_app. simpl. apply IH. Qed.

(** A line that leaves the depth alone. *)
Definition closed_line (s : string) : Prop := braces s 0 = Some 0.

Lemma layout_closed items : ∀ ind d, Forall (λ i, match i with Line s => closed_line s | _ => True end) items →
  0 <= d → braces (layout ind items) d = Some d.
Proof.
  induction items as [|i items IH]; intros ind d Hall Hd; [done|].
  apply Forall_cons in Hall as [Hi Hall]. destruct i as [s| |]; simpl; [|by apply IH..].
  rewrite !braces_app, braces_spaces. cbn [mbind option_bind].
  pose proof (braces_shift s 0 0 d Hi Hd) as Hs. change (0 + d) with d in Hs.
  rewrite braces_app, Hs. cbn [mbind option_bind]. by apply IH.
Qed.

(** *** The property *)

Definition channels : list string := ["r"; "g"; "b"].
Definition swizzles : list string :=
  a ← channels; b ← channels; c ← channels; [a +:+ b +:+ c].

Lemma normalize_swz_cases prop : normalize_swz prop ∈ swizzles.
Proof.
  unfold normalize_swz. destruct ((slen prop =? 3) && all_channels prop) eqn:E; [|by vm_compute; repeat constructor].
  apply andb_true_iff in E as [Hlen Hall]. apply Z.eqb_eq in Hlen. unfold slen in Hlen.
  destruct prop as [|a [|b [|c [|? ?]]]]; simpl in Hlen; try lia.
  simpl in Hall. rewrite andb_true_r in Hall.
  apply andb_true_iff in Hall as [Ha [Hb Hc]%andb_true_iff].
  assert (∀ x, is_channel x = true → x = "r"%char ∨ x = "g"%char ∨ x = "b"%char) as Hch.
  { intros x. unfold is_channel. rewrite !orb_true_iff, !Ascii.eqb_eq. tauto. }
  destruct (Hch _ Ha) as [->|[->| ->]], (Hch _ Hb) as [->|[->| ->]], (Hch _ Hc) as [->|[->| ->]];
    apply (bool_decide_unpack (_ ∈ swizzles)); by vm_compute.
Qed.

(** A property of the swizzle line that holds for the 27 orders holds. *)
Lemma swizzle_line_ind (P : string → bool) prop :
  forallb (λ swz, P ("gl_FragColor.rgb = gl_FragColor." +:+ swz +:+ ";")) swizzles = true →
  P ("gl_FragColor.rgb = gl_FragColor." +:+ normalize_swz prop +:+ ";") = true.
Proof. intros Hall. rewrite forallb_forall in Hall. apply Hall, list_elem_of_In, normalize_swz_cases. Qed.

(** ** The fragment shader *)

Definition closed_item (i : item) : Prop := match i with Line s => closed_line s | _ => True end.

Lemma closed_when b l : Forall closed_item l → Forall closed_item (when b l).
Proof. by destruct b. Qed.

Ltac closed_items :=
  repeat first [apply Forall_app; split | apply closed_when | apply Forall_nil; done
    | apply Forall_cons; split; [by vm_compute|] | case_match; simplify_eq ].

Lemma decls_closed k : Forall closed_item (fragment_decls k).
Proof.
  unfold fragment_decls, generateEOTF, generateOOTF, generateToneMappingProcess, generateOETF.
  closed_items.
Qed.

Lemma body_closed k : Forall closed_item (fragment_body k).
Proof. unfold fragment_body. closed_items. Qed.

Lemma sampler_closed k : Forall closed_item (fragment_sampler k).
Proof. unfold fragment_sampler. closed_items. Qed.

Lemma swizzle_closed prop k : Forall closed_item (fragment_swizzle prop k).
Proof.
  unfold fragment_swizzle. do 2 apply closed_when. apply Forall_singleton. simpl. unfold closed_line.
  pose proof (swizzle_line_ind (λ s, bool_decide (braces s 0 = Some 0)) prop) as Hl.
  apply (bool_decide_eq_true (_ = _)). apply Hl. by vm_compute.
Qed.

Lemma layout_main a b :
  Forall closed_item a → Forall closed_item b →
  braces (layout 0 (a ++ [Line "void main(void) {"; Indent] ++ b ++ [Dedent; Line "}"])) 0 = Some 0.
Proof.
  intros Ha Hb. rewrite layout_app, (braces_then _ _ _ 0) by by apply layout_closed.
  generalize (0 + indent_change a). intros ind. cbn [layout app].
  rewrite (braces_then _ _ _ 0) by apply braces_spaces.
  rewrite (braces_then _ _ _ 1), (braces_then _ _ _ 1) by done.
  rewrite layout_app, (braces_then _ _ _ 1) by by apply layout_closed.
  cbn [layout]. by rewrite (braces_then _ _ _ 1) by apply braces_spaces.
Qed.

(** For every key and every value of the debug property, the braces of the
    generated fragment shader match. *)
Theorem fragment_braces_balanced prop k : braces (generateFragmentShader prop k) 0 = Some 0.
Proof.
  unfold generateFragmentShader, fragment_items. rewrite stream_layout. cbn [mString Formatter_init mIndent].
  replace (fragment_sampler k ++ fragment_decls k ++ [Line "void main(void) {"; Indent] ++
    fragment_body k ++ fragment_swizzle prop k ++ [Dedent; Line "}"]) with
    ((fragment_sampler k ++ fragment_decls k) ++ [Line "void main(void) {"; Indent] ++
    (fragment_body k ++ fragment_swizzle prop k) ++ [Dedent; Line "}"])
    by (by rewrite <- !(assoc_L (++))).
  apply layout_main; apply Forall_app; split.
  - apply sampler_closed.
  - apply decls_closed.
  - apply body_closed.
  - apply swizzle_closed.
Qed.

(** ** Names *)

(** Tokens: identifiers, and the other characters one by one. *)
Definition is_ident (c : Ascii.ascii) : bool :=
  let n := Ascii.nat_of_ascii c in
  ((48 <=? n) && (n <=? 57) || (65 <=? n) && (n <=? 90) || (97 <=? n) && (n <=? 122) || (n =? 95))%nat.

Fixpoint tokens (s : string) (cur : string) : list string :=
  match s with
  | EmptyString => if streq cur "" then [] else [cur]
  | String c s' =>
      if is_ident c then tokens s' (cur +:+ String c "")
      else
        let rest := if Ascii.eqb c " " || Ascii.eqb c "010" then tokens s' ""
                    else String c "" :: tokens s' "" in
        if streq cur "" then rest else cur :: rest
  end.

(** The names the generator introduces. *)
Definition tracked : list string :=
  ["sampler"; "outTexCoords"; "color"; "convertY410BT2020"; "EOTF"; "OETF"; "OOTF";
   "InputTransform"; "OutputTransform"; "displayMaxLuminance"; "ScaleLuminance"; "ToneMap";
   "NormalizeLuminance"; "inputTransformMatrix"; "outputTransformMatrix"; "applyCornerRadius";
   "outCropCoords"; "cornerRadius"; "cropCenter"; "EOTF_sRGB"; "OETF_sRGB"; "EOTF_channel";
   "OETF_channel"; "texCoords"; "cropCoords"; "position"; "projection"; "texture"].
Definition types : list string :=
  ["float"; "vec2"; "vec3"; "vec4"; "mat4"; "sampler2D"; "samplerExternalOES"; "void"].

Definition mem (x : string) (l : list string) : bool := existsb (streq x) l.

(** The globals a piece of text declares (uniforms, varyings, attributes and
    functions), and its parameters and local variables. *)
Fixpoint globals (ts : list string) (storage : bool) : list string :=
  match ts with
  | [] => []
  | t :: ts' =>
      if mem t ["uniform"; "varying"; "attribute"] then globals ts' true
      else if mem t types then
        match ts' with
        | x :: y :: _ => (if storage || streq y "(" then [x] else []) ++ globals ts' false
        | _ => []
        end
      else globals ts' (storage && mem t ["lowp"; "mediump"; "highp"])
  end.
Fixpoint locals (ts : list string) : list string :=
  match ts with
  | [] => []
  | t :: ts' => (match ts' with x :: _ => if mem t types then [x] else [] | [] => [] end) ++ locals ts'
  end.

(** The tracked names a text uses without introducing them, and the globals it adds. *)
Definition used_names (s : string) : list string :=
  let ts := tokens s "" in
  List.filter (λ x, mem x ts && negb (mem x (locals ts))) tracked.
Definition declared_names (s : string) : list string :=
  List.filter (λ x, mem x tracked) (globals (tokens s "") false).

(** *** Scoping

    Over any way to tell which names a line uses and which it declares. *)

Definition all_in (a b : list string) : bool := forallb (λ x, mem x b) a.

Lemma mem_spec x l : mem x l = true ↔ x ∈ l.
Proof.
  unfold mem. rewrite existsb_exists. split.
  - intros (y & Hy & E). apply streq_true in E as ->. by apply list_elem_of_In.
  - intros Hx. exists x. split; [by apply list_elem_of_In|by apply streq_true].
Qed.
Lemma all_in_spec a b : all_in a b = true → a ⊆ b.
Proof.
  unfold all_in. rewrite forallb_forall. intros Hall x Hx. apply mem_spec, Hall. by apply list_elem_of_In.
Qed.
Lemma all_in_subseteq a b : a ⊆ b → all_in a b = true.
Proof. intros Hab. apply forallb_forall. intros x Hx. apply mem_spec, Hab. by apply list_elem_of_In. Qed.

Section scoping.
Context (uses declares : string → list string).

(** Each line uses only what an earlier line, or itself, declares. *)
Fixpoint scoped (decls : list string) (ls : list string) : bool :=
  match ls with
  | [] => true
  | s :: ls' => forallb (λ x, mem x decls) (uses s) && scoped (declares s ++ decls) ls'
  end.

(** *** Composition

    [brings need ls give]: whatever is declared before, as long as it includes
    [need], the lines [ls] are in scope and leave [give] declared as well. *)
Fixpoint declared (decls : list string) (ls : list string) : list string :=
  match ls with [] => decls | s :: ls' => declared (declares s ++ decls) ls' end.

Definition brings (need : list string) (ls : list string) (give : list string) : Prop :=
  ∀ D, need ⊆ D → scoped D ls = true ∧ D ⊆ declared D ls ∧ give ⊆ declared D ls.

Lemma scoped_app D a b : scoped D (a ++ b) = scoped D a && scoped (declared D a) b.
Proof.
  revert D. induction a as [|s a IH]; intros D; simpl; [done|]. by rewrite IH, andb_assoc.
Qed.
Lemma declared_app D a b : declared D (a ++ b) = declared (declared D a) b.
Proof. revert D. induction a as [|s a IH]; intros D; simpl; [done|]. apply IH. Qed.

Lemma declared_mono ls : ∀ D D', D ⊆ D' → D' ⊆ declared D' ls ∧ declared D ls ⊆ declared D' ls.
Proof.
  induction ls as [|s ls IH]; intros D D' HD; cbn [declared]; [done|].
  generalize (declares s). intros d. destruct (IH (d ++ D) (d ++ D')) as [Hk Hd]; set_solver.
Qed.
Lemma scoped_mono ls : ∀ D D', D ⊆ D' → scoped D ls = true → scoped D' ls = true.
Proof.
  induction ls as [|s ls IH]; intros D D' HD; cbn [scoped]; [done|].
  generalize (uses s), (declares s). intros u d. change (forallb (λ x, mem x D) u) with (all_in u D).
  change (forallb (λ x, mem x D') u) with (all_in u D').
  rewrite !andb_true_iff. intros [Hu%all_in_spec Hs]. split.
  - apply all_in_subseteq. set_solver.
  - apply (IH (d ++ D)); [set_solver|done].
Qed.

(** Concrete lines: the check is a computation. *)
Lemma brings_lines need ls give :
  scoped need ls && all_in give (declared need ls) = true → brings need ls give.
Proof.
  rewrite andb_true_iff. intros [Hs Hg%all_in_spec] D HD.
  destruct (declared_mono ls need D HD) as [Hk Hd]. split; [by apply (scoped_mono ls need)|set_solver].
Qed.
Lemma brings_nil need give : give ⊆ need → brings need [] give.
Proof. intros Hg D HD. cbn [scoped declared]. set_solver. Qed.
Lemma brings_app need a ga need' b gb give :
  brings need a ga → brings need' b gb →
  need' ⊆ ga ++ need → give ⊆ ga ++ gb ++ need → brings need (a ++ b) give.
Proof.
  intros Ha Hb Hn Hg D HD. destruct (Ha D HD) as (Sa & Ka & Ga).
  destruct (Hb (declared D a)) as (Sb & Kb & Gb); [set_solver|].
  rewrite scoped_app, declared_app, Sa, Sb. set_solver.
Qed.
(** Sections one after the other, and conditional sections. *)
Lemma brings_seq need a ga b gb :
  brings need a ga → brings need b gb → brings need (a ++ b) (ga ++ gb).
Proof. intros Ha Hb. apply (brings_app _ _ ga need _ gb); [done..| |]; set_solver. Qed.
Lemma brings_weaken need need' ls give : brings need ls give → need ⊆ need' → brings need' ls give.
Proof. intros Hl Hn D HD. apply Hl. set_solver. Qed.
Lemma brings_when (c : bool) need l give :
  (c = true → brings need (lines l) give) → brings need (lines (when c l)) (if c then give else []).
Proof. rewrite lines_when. destruct c; intros Hc; [by apply Hc|apply brings_nil; set_solver]. Qed.
End scoping.

(** Over the names of the generated text. *)
Abbreviation text_scoped := (scoped used_names declared_names).
Abbreviation text_brings := (brings used_names declared_names).

(** *** The sections of the fragment shader *)

Ltac scope_line := apply brings_lines; vm_compute; reflexivity.
Ltac scope_names := first [apply all_in_spec; reflexivity | set_solver].

Lemma EOTF_brings k : text_brings [] (lines (generateEOTF k)) ["EOTF"].
Proof. unfold generateEOTF. repeat case_match; scope_line. Qed.

Lemma OETF_brings k : text_brings [] (lines (generateOETF k)) ["OETF"].
Proof. unfold generateOETF. repeat case_match; scope_line. Qed.

Lemma ToneMapping_brings k :
  text_brings ["displayMaxLuminance"] (lines (generateToneMappingProcess k))
    ["ScaleLuminance"; "ToneMap"; "NormalizeLuminance"].
Proof.
  unfold generateToneMappingProcess. rewrite !lines_app.
  eapply (brings_app _ _ _ _ ["ScaleLuminance"] ["displayMaxLuminance"] _ ["ToneMap"; "NormalizeLuminance"]);
    [..|scope_names|scope_names].
  { repeat case_match; scope_line. }
  eapply (brings_app _ _ _ _ ["ToneMap"] ["displayMaxLuminance"] _ ["NormalizeLuminance"]);
    [..|scope_names|scope_names]; repeat case_match; scope_line.
Qed.

Lemma OOTF_brings k :
  text_brings (if needsToneMapping k then ["displayMaxLuminance"] else []) (lines (generateOOTF k)) ["OOTF"].
Proof.
  unfold generateOOTF. destruct (needsToneMapping k); cbn [negb].
  - rewrite lines_app. eapply (brings_app _ _ _ _ _ ["ScaleLuminance"; "ToneMap"; "NormalizeLuminance"] _ ["OOTF"]);
      [apply ToneMapping_brings|scope_line|scope_names..].
  - scope_line.
Qed.

(** What the declarations of a key put in scope. *)
Definition pipeline_names : list string := ["InputTransform"; "OutputTransform"; "EOTF"; "OOTF"; "OETF"].
Definition decls_names (k : Key) : list string :=
  (if hasRoundedCorners k then ["applyCornerRadius"; "outCropCoords"] else []) ++
  (if (getTextureTarget k =? TEXTURE_OFF) || hasAlpha k then ["color"] else []) ++
  (if isY410BT2020 k then ["convertY410BT2020"] else []) ++
  (if has_pipeline k then pipeline_names else []).
Definition sampler_names (k : Key) : list string :=
  if isTexturing k then ["sampler"; "outTexCoords"] else [].

Lemma transforms_brings k :
  text_brings []
    (lines ((if hasInputTransformMatrix k then
               [Line "uniform mat4 inputTransformMatrix;"; Line InputTransform_matrix_glsl]
             else [Line InputTransform_identity_glsl]) ++
            (if hasOutputTransformMatrix k then
               [Line "uniform mat4 outputTransformMatrix;"; Line OutputTransform_matrix_glsl]
             else [Line OutputTransform_clamp_glsl]))) ["InputTransform"; "OutputTransform"].
Proof.
  rewrite lines_app.
  eapply (brings_app _ _ _ _ ["InputTransform"] [] _ ["OutputTransform"]); [| |scope_names..];
    case_match; scope_line.
Qed.

Lemma pipeline_brings k :
  text_brings []
    (lines (when (needsToneMapping k) [Line "uniform float displayMaxLuminance;"] ++
     (if hasInputTransformMatrix k then
        [Line "uniform mat4 inputTransformMatrix;"; Line InputTransform_matrix_glsl]
      else [Line InputTransform_identity_glsl]) ++
     (if hasOutputTransformMatrix k then
        [Line "uniform mat4 outputTransformMatrix;"; Line OutputTransform_matrix_glsl]
      else [Line OutputTransform_clamp_glsl]) ++
     generateEOTF k ++ generateOOTF k ++ generateOETF k)) pipeline_names.
Proof.
  rewrite (app_assoc (if hasInputTransformMatrix k then _ else _)), !lines_app.
  eapply (brings_app _ _ _ _ (if needsToneMapping k then ["displayMaxLuminance"] else [])
            (if needsToneMapping k then ["displayMaxLuminance"] else []) _ pipeline_names);
    [rewrite lines_when; destruct (needsToneMapping k); scope_line| |destruct (needsToneMapping k)..];
    [|scope_names..].
  eapply (brings_app _ _ _ _ ["InputTransform"; "OutputTransform"]
            (if needsToneMapping k then ["displayMaxLuminance"] else []) _ ["EOTF"; "OOTF"; "OETF"]);
    [| |destruct (needsToneMapping k)..]; [|  |scope_names..].
  { rewrite <- lines_app. intros D _. apply transforms_brings. set_solver. }
  eapply (brings_app _ _ _ _ ["EOTF"] (if needsToneMapping k then ["displayMaxLuminance"] else [])
            _ ["OOTF"; "OETF"]);
    [| |destruct (needsToneMapping k)..]; [|  |scope_names..].
  { intros D _. apply EOTF_brings. set_solver. }
  eapply (brings_app _ _ _ _ ["OOTF"] [] _ ["OETF"]);
    [apply OOTF_brings|apply OETF_brings|destruct (needsToneMapping k); scope_names..].
Qed.

Lemma decls_brings k : text_brings [] (lines (fragment_decls k)) (decls_names k).
Proof.
  unfold fragment_decls, decls_names. rewrite !(lines_app (when _ _)).
  repeat (apply brings_seq; [apply brings_when; intros _; scope_line|]).
  apply brings_when. intros _. apply pipeline_brings.
Qed.

(** What the body of [main] needs. *)
Definition body_names (k : Key) : list string :=
  (if isTexturing k then sampler_names k ++ (if isY410BT2020 k then ["convertY410BT2020"] else [])
   else ["color"]) ++
  (if hasAlpha k then ["color"] else []) ++
  (if has_pipeline k then pipeline_names else []) ++
  (if hasRoundedCorners k then ["applyCornerRadius"; "outCropCoords"] else []).

Lemma body_brings k : text_brings (body_names k) (lines (fragment_body k)) [].
Proof.
  unfold fragment_body. rewrite lines_app, !(lines_app (when _ _)).
  assert (∀ a b, text_brings (body_names k) a [] → text_brings (body_names k) b [] →
    text_brings (body_names k) (a ++ b) []) as Hseq by (intros a b; apply (brings_seq _ _ _ a [] b [])).
  assert (∀ c l, (c = true → text_brings (body_names k) (lines l) []) →
    text_brings (body_names k) (lines (when c l)) []) as Hwhen.
  { intros c l. rewrite lines_when. destruct c; [by auto|]. intros _. apply brings_nil. set_solver. }
  repeat apply Hseq; try (apply Hwhen; intros E).
  - unfold body_names, sampler_names. destruct (isTexturing k).
    + rewrite lines_app, lines_when. destruct (isY410BT2020 k).
      * apply (brings_weaken _ _ ["sampler"; "outTexCoords"; "convertY410BT2020"]); [scope_line|simpl; set_solver].
      * apply (brings_weaken _ _ ["sampler"; "outTexCoords"]); [scope_line|simpl; set_solver].
    + apply (brings_weaken _ _ ["color"]); [scope_line|simpl; set_solver].
  - apply (brings_weaken _ _ []); [scope_line|set_solver].
  - apply (brings_weaken _ _ ["color"]); [destruct (isPremultiplied k); scope_line|].
    unfold body_names. rewrite E. set_solver.
  - apply (brings_weaken _ _ pipeline_names); [destruct (_ && _); scope_line|].
    unfold body_names. rewrite E. set_solver.
  - apply (brings_weaken _ _ ["applyCornerRadius"; "outCropCoords"]);
      [destruct (isPremultiplied k); scope_line|].
    unfold body_names. rewrite E. set_solver.
Qed.

Lemma isTexturing_target k : isTexturing k = negb (getTextureTarget k =? TEXTURE_OFF).
Proof. done. Qed.

(** The two-bit texture target, without its unused pattern. *)
Lemma target_cases k : getTextureTarget k ≠ TEXTURE_MASK →
  getTextureTarget k = TEXTURE_OFF ∨ getTextureTarget k = TEXTURE_EXT ∨ getTextureTarget k = TEXTURE_2D.
Proof.
  assert (Z.land k TEXTURE_MASK = Z.shiftl (Z.land (Z.shiftr k 3) (Z.ones 2)) 3) as Hk.
  { apply Z.bits_inj'. intros n Hn. unfold TEXTURE_MASK, TEXTURE_SHIFT. change 3 with (Z.ones 2) at 1.
    rewrite Z.land_spec, !Z.shiftl_spec, Z.land_spec by done.
    destruct (Z.lt_ge_cases n 3); [by rewrite !(Z.testbit_neg_r _ (n - 3)), andb_false_r by lia|].
    rewrite Z.shiftr_spec by lia. f_equal. f_equal. lia. }
  unfold getTextureTarget. rewrite Hk, Z.land_ones by done.
  pose proof (Z.mod_pos_bound (Z.shiftr k 3) (2 ^ 2) ltac:(done)) as Hm.
  generalize dependent (Z.shiftr k 3 mod 2 ^ 2). change (2 ^ 2) with 4. intros m Hm Hne.
  assert (m = 0 ∨ m = 1 ∨ m = 2 ∨ m = 3) as [->|[->|[->| ->]]] by lia; [by auto..|by destruct Hne].
Qed.

Lemma sampler_brings k : getTextureTarget k ≠ TEXTURE_MASK →
  text_brings [] (lines (fragment_sampler k)) (sampler_names k).
Proof.
  intros [E|[E|E]]%target_cases; unfold fragment_sampler, sampler_names; rewrite isTexturing_target, E; scope_line.
Qed.

Lemma swizzle_brings prop k : text_brings [] (lines (fragment_swizzle prop k)) [].
Proof.
  unfold fragment_swizzle. rewrite !lines_when. repeat case_match; try (apply brings_nil; set_solver).
  apply brings_lines.
  apply (swizzle_line_ind (λ s, scoped used_names declared_names [] [s] && true)). by vm_compute.
Qed.

(** Everything the body uses is declared. *)
Lemma body_names_declared k : body_names k ⊆ decls_names k ++ sampler_names k.
Proof.
  unfold body_names, decls_names, sampler_names. rewrite isTexturing_target.
  destruct (getTextureTarget k =? TEXTURE_OFF), (hasAlpha k), (isY410BT2020 k), (has_pipeline k),
    (hasRoundedCorners k); apply all_in_spec; reflexivity.
Qed.

(** C31: The generated fragment shader declares every name before it uses it, for any
    key but those with the unused texture target. *)
Theorem fragment_well_scoped prop k :
  getTextureTarget k ≠ TEXTURE_MASK → text_scoped [] (lines (fragment_items prop k)) = true.
Proof.
  intros Ht. enough (text_brings [] (lines (fragment_items prop k)) []) as Hb by (apply Hb; set_solver).
  unfold fragment_items. rewrite !lines_app. cbn [lines].
  eapply (brings_app _ _ _ _ (sampler_names k) (sampler_names k) _ []);
    [by apply sampler_brings| |set_solver..].
  eapply (brings_app _ _ _ _ (decls_names k) (body_names k) _ []);
    [by eapply brings_weaken; [apply decls_brings|set_solver]| |apply body_names_declared|set_solver].
  apply (brings_app _ _ _ _ [] (body_names k) _ []);
    [by eapply (brings_weaken _ _ []); [scope_line|set_solver]| |set_solver..].
  apply (brings_app _ _ _ _ [] [] _ []); [apply body_brings| |set_solver..].
  apply (brings_app _ _ _ _ [] [] _ []); [apply swizzle_brings|scope_line|set_solver..].
Qed.

(** The vertex shader is in scope as well. *)
Lemma vertex_well_scoped k : text_scoped [] (lines (vertex_items k)) = true.
Proof.
  unfold vertex_items. destruct (isTexturing k), (hasRoundedCorners k); vm_compute; reflexivity.
Qed.

(** ** Varyings

    The (type, name) pairs a line declares [varying], whatever the precision. *)
Fixpoint varying_decls (ts : list string) : list (string * string) :=
  match ts with
  | [] => []
  | t :: ts' =>
      (if streq t "varying" then
         match ts' with
         | a :: b :: c :: _ =>
             if mem a ["lowp"; "mediump"; "highp"] then [(b, c)] else [(a, b)]
         | _ => []
         end
       else []) ++ varying_decls ts'
  end.
Definition varyings (ls : list string) : list (string * string) :=
  ls ≫= λ s, varying_decls (tokens s "").

Lemma varyings_app a b : varyings (a ++ b) = varyings a ++ varyings b.
Proof. apply bind_app. Qed.
Lemma varyings_none items :
  Forall (λ s, varying_decls (tokens s "") = []) (lines items) → varyings (lines items) = [].
Proof. induction 1 as [|s l Hs _ IH]; [done|]. unfold varyings. simpl. by rewrite Hs. Qed.

Ltac no_varying := repeat first
  [ rewrite !lines_app | rewrite !lines_when | apply Forall_app; split | case_match
  | progress cbn [lines] | apply Forall_nil; exact I | apply Forall_cons; split; [by vm_compute|] ].
Lemma body_no_varying k : varyings (lines (fragment_body k)) = [].
Proof. apply varyings_none. unfold fragment_body. no_varying. Qed.
Lemma swizzle_no_varying prop k : varyings (lines (fragment_swizzle prop k)) = [].
Proof.
  apply varyings_none. unfold fragment_swizzle. rewrite !lines_when. repeat case_match; try apply Forall_nil; try done.
  apply Forall_singleton.
  pose proof (swizzle_line_ind (λ s, bool_decide (varying_decls (tokens s "") = [])) prop) as Hl.
  apply (bool_decide_eq_true (_ = _)). apply Hl. by vm_compute.
Qed.
Lemma decls_varyings k :
  varyings (lines (fragment_decls k)) = if hasRoundedCorners k then [("vec2", "outCropCoords")] else [].
Proof.
  unfold fragment_decls. rewrite (lines_app (when (hasRoundedCorners k) _)), varyings_app.
  rewrite (varyings_none (when _ _ ++ _)), app_nil_r, lines_when by
    (unfold generateEOTF, generateOOTF, generateToneMappingProcess, generateOETF; no_varying).
  by destruct (hasRoundedCorners k); vm_compute.
Qed.
Lemma sampler_varyings k :
  getTextureTarget k ≠ TEXTURE_MASK →
  varyings (lines (fragment_sampler k)) = if isTexturing k then [("vec2", "outTexCoords")] else [].
Proof.
  intros [E|[E|E]]%target_cases; unfold fragment_sampler; rewrite isTexturing_target, E; by vm_compute.
Qed.

(** The two shaders of a key declare the same varyings, of the same types. *)
Theorem varyings_agree prop k :
  getTextureTarget k ≠ TEXTURE_MASK →
  varyings (lines (fragment_items prop k)) = varyings (lines (vertex_items k)).
Proof.
  intros Ht. transitivity ((if isTexturing k then [("vec2", "outTexCoords")] else []) ++
    (if hasRoundedCorners k then [("vec2", "outCropCoords")] else [])).
  - unfold fragment_items. rewrite !lines_app, !varyings_app, body_no_varying, swizzle_no_varying.
    rewrite decls_varyings, sampler_varyings by done.
    change (varyings (lines [_; _])) with (@nil (string * string)).
    by rewrite !app_nil_r.
  - unfold vertex_items. by destruct (isTexturing k), (hasRoundedCorners k); vm_compute.
Qed.

Lemma normalize_swz_id prop : prop ∈ swizzles → normalize_swz prop = prop.
Proof.
  intros Hin. apply (bool_decide_eq_true (_ = _)). revert prop Hin. apply (proj1 (Forall_forall _ swizzles)).
  repeat constructor.
Qed.

(** Whatever the debug property holds, the only line it adds permutes the
    channels: by the property itself when it is a channel order other than
    "rgb", by "brg" when it is anything else. *)
Theorem swizzle_sanitised prop k line :
  line ∈ lines (fragment_swizzle prop k) →
  hasSwizzle k = true ∧ prop ≠ "rgb" ∧
  ∃ swz, swz ∈ swizzles ∧ line = "gl_FragColor.rgb = gl_FragColor." +:+ swz +:+ ";" ∧
    swz = if bool_decide (prop ∈ swizzles) then prop else "brg".
Proof.
  unfold fragment_swizzle. rewrite !lines_when. destruct (hasSwizzle k); [|by intros ?%not_elem_of_nil].
  destruct (streq _ "rgb") eqn:E; [by intros ?%not_elem_of_nil|].
  intros ->%list_elem_of_singleton. split; [done|].
  assert (normalize_swz prop ≠ "rgb") as Hne by (intros Heq%streq_true; congruence).
  split; [by intros ->|]. exists (normalize_swz prop). split; [apply normalize_swz_cases|]. split; [done|].
  case_bool_decide as Hin; [by apply normalize_swz_id|].
  unfold normalize_swz in *. destruct (_ && _) eqn:Hv; [|done]. destruct Hin.
  pose proof (normalize_swz_cases prop) as Hc. unfold normalize_swz in Hc. by rewrite Hv in Hc.
Qed.
