(* ===== verification/ProgramCache.v ===== *)
(** * renderengine: the program cache (ProgramCache.cpp)

    [primeCache], [generateProgram] and [useProgram] over the cache of every EGL
    context.  The [Program] class and the property service are not in the
    repository: they are the class [Gl]. *)

From Stdlib Require Import Ascii String.
From S2P Require Import Prelude ShaderText ShaderKey ShaderGen.

Local Open Scope string_scope.
Local Open Scope list_scope.
Local Open Scope Z_scope.

(** What the cache asks of GL and of the system; [W] is the rest of the world. *)
Class Gl (W Program : Type) : Type := {
  gl_new_program : W → Key → string → string → Program * W;
  gl_isValid : W → Program → bool;
  gl_use : W → Program → W;
  gl_setUniforms : W → Program → Description → W;
  property_get : W → string → string → string
}.

(** ** The keys [primeCache] visits *)

Definition keyMask : Z :=
  Z.lor BLEND_MASK (Z.lor OPACITY_MASK (Z.lor ALPHA_MASK (Z.lor TEXTURE_MASK ROUNDED_CORNERS_MASK))).

Definition target_known (k : Key) : bool :=
  let tex := getTextureTarget k in
  (tex =? TEXTURE_OFF) || (tex =? TEXTURE_EXT) || (tex =? TEXTURE_2D).

(** The first loop, over [0 <= keyVal <= keyMask]. *)
Definition base_keys : list Key :=
  List.filter target_known ((λ keyVal, set keyMask keyVal Key_init) <$> seqZ 0 (keyMask + 1)).

(** The second loop; [shaderKey] is carried from one round to the next. *)
Definition p3_start : Key :=
  set (Z.lor BLEND_MASK (Z.lor OUTPUT_TRANSFORM_MATRIX_MASK (Z.lor INPUT_TF_MASK OUTPUT_TF_MASK)))
      (Z.lor BLEND_PREMULT (Z.lor OUTPUT_TRANSFORM_MATRIX_ON (Z.lor INPUT_TF_SRGB OUTPUT_TF_SRGB)))
      Key_init.
Definition p3_step (i : Z) (shaderKey : Key) : Key :=
  let shaderKey := set OPACITY_MASK (if truthy (Z.land i 1) then OPACITY_OPAQUE else OPACITY_TRANSLUCENT) shaderKey in
  let shaderKey := set ALPHA_MASK (if truthy (Z.land i 2) then ALPHA_LT_ONE else ALPHA_EQ_ONE) shaderKey in
  let shaderKey := set ROUNDED_CORNERS_MASK
                     (if truthy (Z.land i 4) then ROUNDED_CORNERS_ON else ROUNDED_CORNERS_OFF) shaderKey in
  set TEXTURE_MASK (if truthy (Z.land i 8) then TEXTURE_EXT else TEXTURE_OFF) shaderKey.
Fixpoint p3_loop (is_ : list Z) (shaderKey : Key) : list Key :=
  match is_ with
  | [] => []
  | i :: is_ => let k := p3_step i shaderKey in k :: p3_loop is_ k
  end.
Definition p3_keys : list Key := p3_loop (seqZ 0 16) p3_start.

Definition primed_keys (useColorManagement : bool) : list Key :=
  base_keys ++ (if useColorManagement then p3_keys else []).

Section cache.
Context {W Program : Type} `{!Gl W Program}.

Record engine : Type := mk_engine {
  mCaches : gmap Z (gmap Z Program);     (* EGLContext, Key *)
  gA1000Swizzle : bool;
  gl : W
}.
Definition set_gl (w : W) (s : engine) : engine := mk_engine (mCaches s) (gA1000Swizzle s) w.

(** [mCaches[context]]: [operator[]] makes an empty cache when there is none. *)
Definition cache_of (context : Z) (s : engine) : gmap Z Program := default ∅ (mCaches s !! context).
Definition open_cache (context : Z) (s : engine) : engine :=
  mk_engine (<[context := cache_of context s]> (mCaches s)) (gA1000Swizzle s) (gl s).

Definition a1000_setSwizzleEnabled (enabled : bool) (s : engine) : engine :=
  mk_engine (mCaches s) enabled (gl s).
Definition a1000_swizzleEnabled (s : engine) : bool := gA1000Swizzle s.

Definition generateProgram (needs : Key) (s : engine) : Program * engine :=
  let vs := generateVertexShader needs in
  let fs := generateFragmentShader (property_get (gl s) "debug.sf.swz" "brg") needs in
  let '(p, w) := gl_new_program (gl s) needs vs fs in
  (p, set_gl w s).

(** [cache.emplace(key, generateProgram(key))] of an absent key. *)
Definition emplace (context : Z) (k : Key) (s : engine) : Program * engine :=
  let '(p, s) := generateProgram k s in
  (p, mk_engine (<[context := <[k := p]> (cache_of context s)]> (mCaches s)) (gA1000Swizzle s) (gl s)).

(** One round of either priming loop, with [shaderCount]. *)
Definition prime_one (context : Z) (st : Z * engine) (k : Key) : Z * engine :=
  let '(shaderCount, s) := st in
  match cache_of context s !! k with
  | Some _ => (shaderCount, s)
  | None => (u32 (shaderCount + 1), (emplace context k s).2)
  end.

Definition primeCache (context : Z) (useColorManagement : bool) (s : engine) : Z * engine :=
  fold_left (prime_one context) (primed_keys useColorManagement) (0, open_cache context s).

Definition useProgram (context : Z) (description : Description) (s : engine) : engine :=
  let needs := computeKey (a1000_swizzleEnabled s) description in
  let s := open_cache context s in
  let '(program, s) :=
    match cache_of context s !! needs with
    | Some p => (p, s)
    | None => emplace context needs s
    end in
  if gl_isValid (gl s) program
  then set_gl (gl_setUniforms (gl_use (gl s) program) program description) s
  else s.

(** What a client of the cache can do. *)
Inductive call : Type :=
  | Prime (context : Z) (useColorManagement : bool)
  | Use (context : Z) (description : Description)
  | SetSwizzle (enabled : bool).
Definition perform (s : engine) (c : call) : engine :=
  match c with
  | Prime context ucm => (primeCache context ucm s).2
  | Use context d => useProgram context d s
  | SetSwizzle b => a1000_setSwizzleEnabled b s
  end.
Definition session (cs : list call) (s : engine) : engine := fold_left perform cs s.

(** The program of a key in a context, if it has been made. *)
Definition program_of (context : Z) (k : Key) (s : engine) : option Program := cache_of context s !! k.
End cache.
Arguments engine : clear implicits.
Arguments call : clear implicits.
