(* ===== verification/ProgramSpec.v ===== *)
(** * renderengine: what the program cache guarantees *)

From Stdlib Require Import Ascii String SpecFloat.
From S2P Require Import Prelude ShaderText ShaderKey ShaderGen ProgramCache.

Local Open Scope string_scope.
Local Open Scope list_scope.
Local Open Scope Z_scope.

Section cache.
Context {W Program : Type} `{!Gl W Program}.
Implicit Types s : engine W Program.

Lemma cache_of_open context c s : cache_of c (open_cache context s) = cache_of c s.
Proof.
  unfold cache_of, open_cache. simpl. destruct (decide (c = context)) as [->|].
  - by rewrite lookup_insert_eq.
  - by rewrite lookup_insert_ne.
Qed.
Lemma cache_of_emplace context c k s :
  cache_of c (emplace context k s).2 =
  if decide (c = context) then <[k := (generateProgram k s).1]> (cache_of c s) else cache_of c s.
Proof.
  unfold emplace, generateProgram. destruct (gl_new_program _ _ _ _) as [p w]. unfold cache_of. simpl.
  case_decide as Hc; [subst; by rewrite lookup_insert_eq|by rewrite lookup_insert_ne].
Qed.
Lemma emplace_program context k s : (emplace context k s).1 = (generateProgram k s).1.
Proof. unfold emplace. by destruct (generateProgram k s). Qed.
Lemma emplace_flag context k s : gA1000Swizzle (emplace context k s).2 = gA1000Swizzle s.
Proof. unfold emplace, generateProgram. by destruct (gl_new_program _ _ _ _). Qed.

(** ** Growth

    [grown s s']: [s'] has every program of [s], and each of its programs is
    one of [s] or was generated for its key. *)
Definition made (k : Key) (p : Program) : Prop :=
  ∃ w prop, p = (gl_new_program w k (generateVertexShader k) (generateFragmentShader prop k)).1.
Record grown (s s' : engine W Program) : Prop := {
  g_keep : ∀ c k p, program_of c k s = Some p → program_of c k s' = Some p;
  g_new : ∀ c k p, program_of c k s' = Some p → program_of c k s = Some p ∨ made k p
}.

#[global] Instance grown_preorder : PreOrder grown.
Proof.
  split.
  - intros s. split; auto.
  - intros a b c [K1 N1] [K2 N2]. split; [by auto|].
    intros x k p [H|H]%N2; [by apply N1|by right].
Qed.

Lemma grown_same s s' : (∀ c, cache_of c s' = cache_of c s) → grown s s'.
Proof. intros E. unfold program_of. split; intros c k p; unfold program_of; rewrite E; auto. Qed.

Lemma grown_emplace context k s : program_of context k s = None → grown s (emplace context k s).2.
Proof.
  intros Hn. split; intros c k' p; unfold program_of; rewrite cache_of_emplace; case_decide as Hc; auto; subst c.
  - intros Hp. destruct (decide (k' = k)) as [->|]; [unfold program_of in Hn; congruence|].
    by rewrite lookup_insert_ne.
  - destruct (decide (k' = k)) as [->|]; [|rewrite lookup_insert_ne by done; auto].
    rewrite lookup_insert_eq. intros [= <-]. right. unfold generateProgram.
    exists (gl s), (property_get (gl s) "debug.sf.swz" "brg"). by destruct (gl_new_program _ _ _ _).
Qed.

(** *** Priming *)

Lemma prime_one_step context n s k n' s' :
  prime_one context (n, s) k = (n', s') →
  grown s s' ∧ gA1000Swizzle s' = gA1000Swizzle s ∧
  (∀ c k', is_Some (program_of c k' s') ↔ is_Some (program_of c k' s) ∨ (c = context ∧ k' = k)).
Proof.
  unfold prime_one, program_of. destruct (cache_of context s !! k) as [p|] eqn:Hk; intros [= <- <-].
  - split_and!; [done..|]. intros c k'. split; [auto|]. intros [?|[-> ->]]; [done|]. rewrite Hk. eauto.
  - split_and!; [by apply grown_emplace|apply emplace_flag|].
    intros c k'. rewrite cache_of_emplace. case_decide as Hc; [subst|].
    + destruct (decide (k' = k)) as [->|]; [rewrite lookup_insert_eq; naive_solver|].
      rewrite lookup_insert_ne by done. naive_solver.
    + naive_solver.
Qed.

Lemma prime_all context ks : ∀ n s n' s',
  fold_left (prime_one context) ks (n, s) = (n', s') →
  grown s s' ∧ gA1000Swizzle s' = gA1000Swizzle s ∧
  (∀ c k, is_Some (program_of c k s') ↔ is_Some (program_of c k s) ∨ (c = context ∧ k ∈ ks)).
Proof.
  induction ks as [|k ks IH]; intros n s n' s'; cbn [fold_left].
  - intros [= <- <-]. split_and!; [done..|]. intros c k. set_solver.
  - destruct (prime_one context (n, s) k) as [n1 s1] eqn:E1. intros E.
    apply prime_one_step in E1 as (G1 & F1 & D1). apply IH in E as (G2 & F2 & D2).
    split_and!; [by etrans|congruence|]. intros c k'. rewrite D2, D1. set_solver.
Qed.

Lemma primeCache_grown context ucm s :
  grown s (primeCache context ucm s).2 ∧
  (∀ c k, is_Some (program_of c k (primeCache context ucm s).2) ↔
    is_Some (program_of c k s) ∨ (c = context ∧ k ∈ primed_keys ucm)).
Proof.
  unfold primeCache. destruct (fold_left _ _ _) as [n s'] eqn:E. apply prime_all in E as (G & _ & D). simpl.
  split.
  - etrans; [|exact G]. apply grown_same. intros c. apply cache_of_open.
  - intros c k. rewrite D. unfold program_of. by rewrite cache_of_open.
Qed.

(** *** Use *)

Lemma useProgram_grown context d s :
  grown s (useProgram context d s) ∧
  is_Some (program_of context (computeKey (gA1000Swizzle s) d) (useProgram context d s)).
Proof.
  unfold useProgram, a1000_swizzleEnabled. set (k := computeKey _ d).
  assert (∀ s1 (w : W), grown s1 (set_gl w s1)) as Hgl by (intros; by apply grown_same).
  pose proof (grown_same s (open_cache context s) (λ c, cache_of_open context c s)) as Ho.
  destruct (cache_of context (open_cache context s) !! k) as [p|] eqn:Hk.
  - split; [case_match; [etrans; [exact Ho|apply Hgl]|exact Ho]|].
    unfold program_of. case_match; [|by rewrite Hk].
    change (cache_of context (set_gl _ ?s)) with (cache_of context s). by rewrite Hk.
  - destruct (emplace context k (open_cache context s)) as [p s1] eqn:Es.
    assert (s1 = (emplace context k (open_cache context s)).2) as -> by (by rewrite Es).
    pose proof (grown_emplace context k (open_cache context s) Hk) as He.
    assert (is_Some (program_of context k (emplace context k (open_cache context s)).2)) as Hs.
    { unfold program_of. rewrite cache_of_emplace, decide_True, lookup_insert_eq by done. eauto. }
    split; [etrans; [exact Ho|]|]; case_match; try done. by etrans; [exact He|].
Qed.

Lemma perform_grown s c : grown s (perform s c).
Proof.
  destruct c; simpl; [apply primeCache_grown|apply useProgram_grown|by apply grown_same].
Qed.
Lemma session_grown cs : ∀ s, grown s (session cs s).
Proof.
  induction cs as [|c cs IH]; intros s; simpl; [done|]. etrans; [apply perform_grown|apply IH].
Qed.
End cache.

(** ** Keys and descriptions *)

(** What a program depends on. *)
Definition shape (sw : bool) (d : Description)
    : bool * Z * bool * bool * bool * bool * bool * bool * bool * option (TransferFunction * TransferFunction) :=
  (sw, texture_field d, SFltb (color_a d) one_f, isPremultipliedAlpha d, d_isOpaque d,
   SFltb zero_f (cornerRadius d), d_hasInputTransformMatrix d,
   d_hasOutputTransformMatrix d || d_hasColorMatrix d, d_isY410BT2020 d,
   if converts d then Some (inputTransferFunction d, outputTransferFunction d) else None).

Lemma input_tf_inj a b : input_tf_field a = input_tf_field b → a = b.
Proof. by destruct a, b. Qed.
Lemma output_tf_inj a b : output_tf_field a = output_tf_field b → a = b.
Proof. by destruct a, b. Qed.

(** C29: Two descriptions share a key exactly when the generated programs have the
    same inputs: nothing is lost by the packing, and nothing distinguishes
    descriptions needlessly. *)
Theorem computeKey_separates sw sw' d d' :
  computeKey sw d = computeKey sw' d' ↔ shape sw d = shape sw' d'.
Proof.
  split.
  - intros E.
    destruct (computeKey_reads sw d) as (A1 & A2 & A3 & A4 & A5 & A6 & A7 & A8 & A9 & A10 & A11).
    destruct (computeKey_reads sw' d') as (B1 & B2 & B3 & B4 & B5 & B6 & B7 & B8 & B9 & B10 & B11).
    pose proof (pipeline_test sw d) as A12. pose proof (pipeline_test sw' d') as B12. cbv zeta in A12, B12.
    rewrite E in A1, A2, A3, A4, A5, A6, A7, A8, A9, A10, A11, A12.
    assert (converts d = converts d') as Ec by congruence.
    unfold shape. rewrite Ec in A10, A11 |- *. rewrite !pair_equal_spec. split_and!; try congruence.
    destruct (converts d'); [|done]. f_equal.
    apply pair_equal_spec. split; [apply input_tf_inj|apply output_tf_inj]; congruence.
  - unfold shape. intros [= -> E1 E2 E3 E4 E5 E6 E7 E8 E9]. rewrite !computeKey_base.
    assert (base_key sw' d = base_key sw' d') as -> by (unfold base_key; by rewrite E1, E2, E3, E4, E5, E6, E7, E8).
    destruct (converts d), (converts d'); simplify_eq; [congruence|done].
Qed.

(** The keys primed for a description that needs no colour conversion. *)
Definition base_target (t : Z) : Prop := t = TEXTURE_OFF ∨ t = TEXTURE_EXT ∨ t = TEXTURE_2D.

Lemma texture_field_target d : base_target (texture_field d).
Proof. unfold texture_field, base_target. repeat case_match; auto. Qed.

Lemma base_keys_plain k : k ∈ base_keys → hasSwizzle k = false ∧ isY410BT2020 k = false ∧
  hasTransformMatrix k || negb (getInputTF k =? getOutputTF k) = false.
Proof.
  revert k. apply Forall_forall.
  apply (Forall_impl (λ k, negb (hasSwizzle k) && negb (isY410BT2020 k) &&
    negb (hasTransformMatrix k || negb (getInputTF k =? getOutputTF k)) = true)).
  - apply Forall_forall. intros k Hk%list_elem_of_In. revert k Hk. apply forallb_forall. by vm_compute.
  - intros k. rewrite !andb_true_iff, !negb_true_iff. tauto.
Qed.
Lemma p3_keys_plain k : k ∈ p3_keys → hasSwizzle k = false ∧ isY410BT2020 k = false ∧
  isPremultiplied k = true ∧ hasInputTransformMatrix k = false ∧ hasOutputTransformMatrix k = true ∧
  getInputTF k = INPUT_TF_SRGB ∧ getOutputTF k = OUTPUT_TF_SRGB ∧ getTextureTarget k ≠ TEXTURE_2D.
Proof.
  revert k. apply Forall_forall.
  apply (Forall_impl (λ k, negb (hasSwizzle k) && negb (isY410BT2020 k) && isPremultiplied k &&
    negb (hasInputTransformMatrix k) && hasOutputTransformMatrix k && (getInputTF k =? INPUT_TF_SRGB) &&
    (getOutputTF k =? OUTPUT_TF_SRGB) && negb (getTextureTarget k =? TEXTURE_2D) = true)).
  - apply Forall_forall. intros k Hk%list_elem_of_In. revert k Hk. apply forallb_forall. by vm_compute.
  - intros k. rewrite !andb_true_iff, !negb_true_iff, !Z.eqb_eq, Z.eqb_neq. tauto.
Qed.

Definition member (k : Key) (ks : list Key) : bool := existsb (Z.eqb k) ks.
Lemma member_spec k ks : member k ks = true → k ∈ ks.
Proof.
  unfold member. rewrite existsb_exists. intros (x & Hx & ->%Z.eqb_eq). by apply list_elem_of_In.
Qed.

Lemma base_key_primed d : converts d = false → d_isY410BT2020 d = false → base_key false d ∈ base_keys.
Proof.
  unfold converts. intros [[Hi [Ho Hc]%orb_false_iff]%orb_false_iff _]%orb_false_iff Hy.
  unfold base_key. rewrite Hi, Ho, Hc, Hy. apply member_spec.
  destruct (texture_field_target d) as [->|[->| ->]];
    destruct (SFltb zero_f (cornerRadius d)), (d_isOpaque d), (isPremultipliedAlpha d),
      (SFltb (color_a d) one_f); vm_compute; reflexivity.
Qed.

Definition p3_description (d : Description) : Prop :=
  isPremultipliedAlpha d = true ∧ d_hasInputTransformMatrix d = false ∧
  (d_hasOutputTransformMatrix d || d_hasColorMatrix d) = true ∧
  inputTransferFunction d = SRGB ∧ outputTransferFunction d = SRGB ∧ texture_field d ≠ TEXTURE_2D.

Lemma p3_key_primed d : p3_description d → d_isY410BT2020 d = false → computeKey false d ∈ p3_keys.
Proof.
  intros (Hp & Hi & Ho & Hit & Hot & Ht) Hy.
  assert (converts d = true) as Hc by (unfold converts; by rewrite Ho, orb_true_r).
  rewrite computeKey_base, Hc. unfold base_key. rewrite Hp, Hi, Ho, Hit, Hot, Hy. apply member_spec.
  destruct (texture_field_target d) as [E|[E|E]]; [| |done]; rewrite E;
    destruct (SFltb zero_f (cornerRadius d)), (d_isOpaque d), (SFltb (color_a d) one_f);
    vm_compute; reflexivity.
Qed.

(** Exactly the descriptions whose program start-up has compiled: never one
    drawn with the channel swizzle, which is how the screen is composed. *)
Theorem primed_exact sw d ucm :
  computeKey sw d ∈ primed_keys ucm ↔
  sw = false ∧ d_isY410BT2020 d = false ∧
  (converts d = false ∨
   ucm = true ∧ p3_description d).
Proof.
  destruct (computeKey_reads sw d) as (A1 & _ & A3 & _ & _ & A6 & A7 & A8 & A9 & A10 & A11).
  pose proof (pipeline_test sw d) as Ac. cbv zeta in *. unfold primed_keys. rewrite elem_of_app. split.
  - intros [(Hs & Hy & Hp)%base_keys_plain|Hk].
    + rewrite A9 in Hs. rewrite A8 in Hy. split_and!; [done..|]. left. congruence.
    + destruct ucm; [|by apply not_elem_of_nil in Hk].
      apply p3_keys_plain in Hk as (Hs & Hy & Hp & Hi & Ho & Hit & Hot & Ht).
      rewrite A9 in Hs. rewrite A8 in Hy. split_and!; [done..|]. right. split; [done|].
      rewrite A3 in Hp. rewrite A6 in Hi. rewrite A7 in Ho. rewrite A1 in Ht.
      assert (converts d = true) as Hc by (unfold converts; by rewrite Ho, orb_true_r).
      rewrite Hc in A10, A11. unfold p3_description. split_and!; [done..| | |done].
      * apply input_tf_inj. by rewrite <- A10.
      * apply output_tf_inj. by rewrite <- A11.
  - intros (-> & Hy & [Hc|[-> Hp]]); [left|right; by apply p3_key_primed].
    rewrite computeKey_base, Hc. by apply base_key_primed.
Qed.

(** ** The properties of the cache *)

Section history.
Context {W Program : Type} `{!Gl W Program}.
Implicit Types s : engine W Program.

(** Priming a context makes the programs of the primed keys and no others,
    keeps every program there was, and generates each new one for its key. *)
Theorem primeCache_exact context ucm s :
  let s' := (primeCache context ucm s).2 in
  (∀ c k, is_Some (program_of c k s') ↔
     is_Some (program_of c k s) ∨ (c = context ∧ k ∈ primed_keys ucm)) ∧
  (∀ c k p, program_of c k s = Some p → program_of c k s' = Some p) ∧
  (∀ c k p, program_of c k s' = Some p → program_of c k s = Some p ∨ made k p).
Proof. intros s'. destruct (primeCache_grown context ucm s) as [[K N] D]. auto. Qed.

Lemma useProgram_cached context d s p :
  program_of context (computeKey (gA1000Swizzle s) d) s = Some p →
  mCaches (useProgram context d s) = mCaches s ∧
  gl (useProgram context d s) =
    (if gl_isValid (gl s) p then gl_setUniforms (gl_use (gl s) p) p d else gl s).
Proof.
  unfold useProgram, a1000_swizzleEnabled. rewrite cache_of_open. unfold program_of.
  generalize (computeKey (gA1000Swizzle s) d). intros k Hp. rewrite Hp.
  assert (mCaches (open_cache context s) = mCaches s) as E.
  { unfold open_cache. cbn [mCaches]. apply insert_id. unfold cache_of in *.
    destruct (mCaches s !! context); [done|]. cbn [default] in Hp. by rewrite lookup_empty in Hp. }
  change (gl (open_cache context s)) with (gl s).
  destruct (gl_isValid (gl s) p); split; done.
Qed.

(** C28: Once a description has been drawn in a context, drawing one of the same
    shape later, whatever happened in between, generates nothing: the caches
    do not change and it is the very same program that is used. In particular
    a later change of the debug property does not reach it. *)
Theorem useProgram_reuses context d d' s cs p :
  let s1 := useProgram context d s in
  let s2 := session cs s1 in
  program_of context (computeKey (gA1000Swizzle s) d) s1 = Some p →
  shape (gA1000Swizzle s2) d' = shape (gA1000Swizzle s) d →
  mCaches (useProgram context d' s2) = mCaches s2 ∧
  gl (useProgram context d' s2) =
    (if gl_isValid (gl s2) p then gl_setUniforms (gl_use (gl s2) p) p d' else gl s2).
Proof.
  intros s1 s2 Hp Hshape. apply useProgram_cached.
  assert (computeKey (gA1000Swizzle s2) d' = computeKey (gA1000Swizzle s) d) as ->.
  { revert Hshape. unfold shape. intros [= E0 E1 E2 E3 E4 E5 E6 E7 E8 E9]. rewrite !computeKey_base, E0.
    assert (base_key (gA1000Swizzle s) d' = base_key (gA1000Swizzle s) d) as ->
      by (unfold base_key; by rewrite E1, E2, E3, E4, E5, E6, E7, E8).
    destruct (converts d), (converts d'); simplify_eq; [congruence|done]. }
  by apply (g_keep _ _ (session_grown cs s1)).
Qed.

(** From empty caches, every program any sequence of calls leaves in the cache
    was generated for the key it is stored under. *)
Theorem session_programs cs s context k p :
  mCaches s = ∅ → program_of context k (session cs s) = Some p → made k p.
Proof.
  intros He Hp. destruct (g_new _ _ (session_grown cs s) _ _ _ Hp) as [Hs|]; [|done].
  unfold program_of, cache_of in Hs. by rewrite He, lookup_empty in Hs.
Qed.
End history.

(** ** From the description to the drawn shader *)

Definition sample_line : string := "gl_FragColor = texture2D(sampler, outTexCoords);".
Definition convert_line : string :=
  "gl_FragColor.rgb = OETF(OutputTransform(OOTF(InputTransform(EOTF(gl_FragColor.rgb)))));".
Definition opaque_line : string := "gl_FragColor.a = 1.0;".
Definition fade_line (premultiplied : bool) : string :=
  if premultiplied then "gl_FragColor *= color.a;" else "gl_FragColor.a *= color.a;".
Definition corner_line (premultiplied : bool) : string :=
  if premultiplied then "gl_FragColor *= vec4(applyCornerRadius(outCropCoords));"
  else "gl_FragColor.a *= applyCornerRadius(outCropCoords);".

Definition has_line (l : string) (items : list item) : bool := existsb (streq l) (lines items).

(** The lines of the body, each with the condition it is there under. *)
Definition guarded (t y o a p c r : bool) : list (bool * string) :=
  [(t, sample_line); (t && y, "gl_FragColor.rgb = convertY410BT2020(gl_FragColor.rgb);");
   (negb t, "gl_FragColor.rgb = color.rgb;"); (negb t, opaque_line); (o, opaque_line);
   (a && p, fade_line true); (a && negb p, fade_line false);
   (c && (negb o && p), "gl_FragColor.rgb = gl_FragColor.rgb / (gl_FragColor.a + 0.0019);");
   (c, convert_line);
   (c && (negb o && p), "gl_FragColor.rgb = gl_FragColor.rgb * (gl_FragColor.a + 0.0019);");
   (r && p, corner_line true); (r && negb p, corner_line false)].

Lemma body_guarded k :
  lines (fragment_body k) =
  snd <$> List.filter fst (guarded (isTexturing k) (isY410BT2020 k) (isOpaque k) (hasAlpha k)
                             (isPremultiplied k) (has_pipeline k) (hasRoundedCorners k)).
Proof.
  unfold fragment_body.
  destruct (isTexturing k), (isY410BT2020 k), (isOpaque k), (hasAlpha k), (isPremultiplied k),
    (has_pipeline k), (hasRoundedCorners k); reflexivity.
Qed.
Lemma existsb_guarded (l : string) gs :
  existsb (streq l) (snd <$> List.filter fst gs) = existsb (λ g, streq l g.2 && g.1) gs.
Proof.
  induction gs as [|[[] s] gs IH]; [done| |]; cbn [List.filter fst]; rewrite ?fmap_cons;
    cbn [existsb snd fst]; rewrite IH; [by rewrite andb_true_r|by rewrite andb_false_r].
Qed.

Lemma body_lines k :
  has_line sample_line (fragment_body k) = isTexturing k ∧
  has_line convert_line (fragment_body k) = has_pipeline k ∧
  has_line opaque_line (fragment_body k) = negb (isTexturing k) || isOpaque k ∧
  has_line (fade_line (isPremultiplied k)) (fragment_body k) = hasAlpha k ∧
  has_line (corner_line (isPremultiplied k)) (fragment_body k) = hasRoundedCorners k ∧
  has_line (fade_line (negb (isPremultiplied k))) (fragment_body k) = false ∧
  has_line (corner_line (negb (isPremultiplied k))) (fragment_body k) = false.
Proof.
  unfold has_line. rewrite body_guarded, !existsb_guarded.
  generalize (isTexturing k) (isY410BT2020 k) (isOpaque k) (hasAlpha k) (isPremultiplied k)
    (has_pipeline k) (hasRoundedCorners k). intros t y o a p c r.
  destruct p; split_and!; vm_compute; by destruct t, y, o, a, c, r.
Qed.

(** C30: The body of the shader drawn for a description does what the description
    asks: it samples the texture, converts colours, forces opacity, fades and
    rounds corners exactly when, and premultiplied as, the description says. *)
Theorem shader_follows_description sw d :
  let body := fragment_body (computeKey sw d) in
  let pm := isPremultipliedAlpha d in
  let textured := negb (texture_field d =? TEXTURE_OFF) in
  has_line sample_line body = textured ∧
  has_line convert_line body = converts d ∧
  has_line opaque_line body = negb textured || d_isOpaque d ∧
  has_line (fade_line pm) body = SFltb (color_a d) one_f ∧
  has_line (corner_line pm) body = SFltb zero_f (cornerRadius d) ∧
  has_line (fade_line (negb pm)) body = false ∧
  has_line (corner_line (negb pm)) body = false.
Proof.
  destruct (body_lines (computeKey sw d)) as (B1 & B2 & B3 & B4 & B5 & B6 & B7).
  destruct (computeKey_reads sw d) as (A1 & A2 & A3 & A4 & A5 & _).
  pose proof (pipeline_test sw d) as Ac. cbv zeta in Ac. unfold isTexturing, has_pipeline in *.
  unfold getTextureTarget in A1. rewrite A1 in B1, B3. rewrite Ac in B2. rewrite A4 in B3. rewrite A2 in B4.
  rewrite A5 in B5. rewrite A3 in B4, B5, B6, B7. cbv zeta. split_and!; assumption.
Qed.
