(* ===== verification/ShaderWitness.v ===== *)
(** * renderengine: the hypotheses of the shader theorems can hold

    A concrete GL engine, a few descriptions and sessions, and the theorems
    applied to them. *)

From Stdlib Require Import Ascii String SpecFloat.
From S2P Require Import Prelude ShaderText ShaderKey ShaderGen ShaderSpec ProgramCache ProgramSpec.

Local Open Scope string_scope.
Local Open Scope list_scope.
Local Open Scope Z_scope.

(** A layer from a hardware buffer, half transparent, with round corners. *)
Definition layer : Description :=
  mk_Description true GL_TEXTURE_EXTERNAL_OES (S754_finite false 8388608 (-24)) true false false false false
    one_f false LINEAR LINEAR.
(** The same layer wrapped in HDR colours. *)
Definition hdr_layer : Description :=
  mk_Description true GL_TEXTURE_EXTERNAL_OES one_f false true false false false zero_f false ST2084 SRGB.

(** The engine: a program is its key and its two shaders; the world counts the
    programs made and used, and holds the debug property. *)
Record demo_gl : Type := mk_demo { made_programs : nat; used : list Key; swz : string }.
#[export] Instance demo_Gl : Gl demo_gl (Key * string * string) := {
  gl_new_program w k vs fs := ((k, vs, fs), mk_demo (S (made_programs w)) (used w) (swz w));
  gl_isValid _ _ := true;
  gl_use w p := mk_demo (made_programs w) (p.1.1 :: used w) (swz w);
  gl_setUniforms w _ _ := w;
  property_get w _ _ := swz w
}.
Definition demo_engine : engine demo_gl (Key * string * string) := mk_engine ∅ true (mk_demo 0 [] "bgr").

Lemma fragment_well_scoped_witness :
  getTextureTarget (computeKey true hdr_layer) ≠ TEXTURE_MASK ∧
  text_scoped [] (lines (fragment_items "bgr" (computeKey true hdr_layer))) = true.
Proof.
  assert (getTextureTarget (computeKey true hdr_layer) ≠ TEXTURE_MASK) as Ht by (by vm_compute).
  split; [exact Ht|exact (fragment_well_scoped "bgr" (computeKey true hdr_layer) Ht)].
Defined.

Lemma varyings_agree_witness :
  varyings (lines (fragment_items "bgr" (computeKey true layer))) =
  varyings (lines (vertex_items (computeKey true layer))).
Proof.
  assert (getTextureTarget (computeKey true layer) ≠ TEXTURE_MASK) as Ht by (by vm_compute).
  exact (varyings_agree "bgr" (computeKey true layer) Ht).
Defined.

Lemma swizzle_sanitised_witness :
  hasSwizzle (computeKey true layer) = true ∧ "rgb); discard;//" ≠ "rgb" ∧
  ∃ swz, swz ∈ swizzles ∧
    "gl_FragColor.rgb = gl_FragColor.brg;" = "gl_FragColor.rgb = gl_FragColor." +:+ swz +:+ ";" ∧
    swz = if bool_decide ("rgb); discard;//" ∈ swizzles) then "rgb); discard;//" else "brg".
Proof.
  apply (swizzle_sanitised "rgb); discard;//" (computeKey true layer) "gl_FragColor.rgb = gl_FragColor.brg;").
  vm_compute. constructor.
Defined.

(** Drawing the layer, then switching the panel and priming another context,
    then drawing it again. *)
Definition demo_calls : list (call) := [SetSwizzle false; Prime 7 true; SetSwizzle true; Use 1 hdr_layer].

Lemma useProgram_reuses_witness :
  mCaches (useProgram 1 layer (session demo_calls (useProgram 1 layer demo_engine))) =
  mCaches (session demo_calls (useProgram 1 layer demo_engine)).
Proof.
  apply (useProgram_reuses 1 layer layer demo_engine demo_calls (generateProgram (computeKey true layer) demo_engine).1).
  - reflexivity.
  - reflexivity.
Defined.

Lemma session_programs_witness :
  ∃ p, made (computeKey true layer) p.
Proof.
  exists (generateProgram (computeKey true layer) demo_engine).1.
  apply (session_programs [Use 1 layer] demo_engine 1).
  - reflexivity.
  - reflexivity.
Defined.
