(* ===== verification/BtTypes.v ===== *)
(** * Bluetooth: bytes and the definitions outside the repository

    The packet headers [bt_types.h], [hcidefs.h] and [hcimsgs.h] are not part of
    the repository: the macros that move integers and addresses to and from a
    byte stream, the operation codes and the parameter sizes are classes, with
    what the code relies on as laws. *)

From Stdlib Require Import Ascii String.
From S2P Require Import Prelude CMonad.

(** Bytes are integers; a [RawAddress] is its six bytes. *)
Abbreviation bytes := (list Z).

Definition BD_ADDR_LEN : nat := 6.

(** ** The stream macros *)

(** [wr8 x], ... are the bytes [UINT8_TO_STREAM(p, x)], ... append; [rd8 s], ...
    the value [STREAM_TO_UINT8(v, p)], ... reads where [p] points to [s]. *)
Class BtMacros : Type := {
  wr8 : Z → bytes;
  wr16 : Z → bytes;
  wr_bda : bytes → bytes;
  wr_array : bytes → bytes;
  rd8 : bytes → Z;
  rd16 : bytes → Z;
  rd_bda : bytes → bytes
}.

Class BtMacrosOk `{!BtMacros} : Prop := {
  wr8_length x : length (wr8 x) = 1%nat;
  wr16_length x : length (wr16 x) = 2%nat;
  wr_bda_length a : length a = BD_ADDR_LEN → length (wr_bda a) = BD_ADDR_LEN;
  wr_array_id a : wr_array a = a;
  rd_wr8 x s : rd8 (wr8 x ++ s) = u8 x;
  rd_wr16 x s : rd16 (wr16 x ++ s) = u16 x;
  rd_wr_bda a s : length a = BD_ADDR_LEN → rd_bda (wr_bda a ++ s) = a;
  rd8_bound s : 0 <= rd8 s < 2 ^ 8;
  rd16_bound s : 0 <= rd16 s < 2 ^ 16;
  rd_bda_length s : length (rd_bda s) = BD_ADDR_LEN
}.

(** ** Operation codes of the LE commands *)

Class LeOpcodes : Type := {
  HCI_READ_LE_HOST_SUPPORT : Z; HCI_LE_SET_EXTENDED_SCAN_PARAMETERS : Z;
  HCI_LE_SET_EXTENDED_SCAN_ENABLE : Z; HCI_LE_EXTENDED_CREATE_CONNECTION : Z;
  HCI_BLE_WRITE_SCAN_RSP_DATA : Z; HCI_BLE_WRITE_SCAN_PARAMS : Z; HCI_BLE_WRITE_SCAN_ENABLE : Z;
  HCI_BLE_WRITE_RANDOM_ADDR : Z; HCI_BLE_WRITE_LOCAL_SPT_FEAT : Z; HCI_BLE_WRITE_ADV_PARAMS : Z;
  HCI_BLE_WRITE_ADV_ENABLE : Z; HCI_BLE_WRITE_ADV_DATA : Z; HCI_BLE_UPD_LL_CONN_PARAMS : Z;
  HCI_BLE_TRANSMITTER_TEST : Z; HCI_BLE_TEST_END : Z; HCI_BLE_START_ENC : Z;
  HCI_BLE_SET_RAND_PRIV_ADDR_TIMOUT : Z; HCI_BLE_SET_PRIVACY_MODE : Z;
  HCI_BLE_SET_HOST_CHNL_CLASS : Z; HCI_BLE_SET_DATA_LENGTH : Z;
  HCI_BLE_SET_ADDR_RESOLUTION_ENABLE : Z; HCI_BLE_RM_DEV_RESOLVING_LIST : Z;
  HCI_BLE_REMOVE_WHITE_LIST : Z; HCI_BLE_RECEIVER_TEST : Z;
  HCI_BLE_READ_RESOLVABLE_ADDR_PEER : Z; HCI_BLE_READ_RESOLVABLE_ADDR_LOCAL : Z;
  HCI_BLE_READ_REMOTE_FEAT : Z; HCI_BLE_READ_CHNL_MAP : Z; HCI_BLE_READ_ADV_CHNL_TX_POWER : Z;
  HCI_BLE_RC_PARAM_REQ_REPLY : Z; HCI_BLE_RC_PARAM_REQ_NEG_REPLY : Z; HCI_BLE_RAND : Z;
  HCI_BLE_LTK_REQ_REPLY : Z; HCI_BLE_LTK_REQ_NEG_REPLY : Z; HCI_BLE_ENH_TRANSMITTER_TEST : Z;
  HCI_BLE_ENH_RECEIVER_TEST : Z; HCI_BLE_ENCRYPT : Z; HCI_BLE_CREATE_LL_CONN : Z;
  HCI_BLE_CREATE_CONN_CANCEL : Z; HCI_BLE_CLEAR_WHITE_LIST : Z; HCI_BLE_CLEAR_RESOLVING_LIST : Z;
  HCI_BLE_ADD_WHITE_LIST : Z; HCI_BLE_ADD_DEV_RESOLVING_LIST : Z
}.

(** ** Sizes of the command packets *)

(** [cmd_room] is what [osi_malloc(HCI_CMD_BUF_SIZE)] leaves behind the packet
    header, and [sizeof_voidp] the size of a pointer. *)
Class HcicSizes : Type := {
  cmd_room : nat;
  sizeof_voidp : nat;
  BT_OCTET8_LEN : nat;
  HCIC_PREAMBLE_SIZE : Z; HCIC_PARAM_SIZE_READ_CMD : Z; HCIC_PARAM_SIZE_WRITE_PARAM1 : Z;
  HCIC_PARAM_SIZE_WRITE_PARAM3 : Z; HCIC_PARAM_SIZE_SET_USED_FEAT_CMD : Z;
  HCIC_PARAM_SIZE_WRITE_RANDOM_ADDR_CMD : Z; HCIC_PARAM_SIZE_BLE_WRITE_ADV_PARAMS : Z;
  HCIC_PARAM_SIZE_BLE_WRITE_ADV_DATA : Z; HCIC_PARAM_SIZE_BLE_WRITE_SCAN_RSP : Z;
  HCIC_PARAM_SIZE_WRITE_ADV_ENABLE : Z; HCIC_PARAM_SIZE_BLE_WRITE_SCAN_PARAM : Z;
  HCIC_PARAM_SIZE_BLE_WRITE_SCAN_ENABLE : Z; HCIC_PARAM_SIZE_BLE_CREATE_LL_CONN : Z;
  HCIC_PARAM_SIZE_BLE_CREATE_CONN_CANCEL : Z; HCIC_PARAM_SIZE_ADD_WHITE_LIST : Z;
  HCIC_PARAM_SIZE_REMOVE_WHITE_LIST : Z; HCIC_PARAM_SIZE_BLE_UPD_LL_CONN_PARAMS : Z;
  HCIC_PARAM_SIZE_SET_HOST_CHNL_CLASS : Z; HCIC_PARAM_SIZE_READ_CHNL_MAP : Z;
  HCIC_PARAM_SIZE_BLE_READ_REMOTE_FEAT : Z; HCIC_PARAM_SIZE_BLE_ENCRYPT : Z;
  HCIC_PARAM_SIZE_BLE_START_ENC : Z; HCIC_PARAM_SIZE_LTK_REQ_REPLY : Z;
  HCIC_PARAM_SIZE_LTK_REQ_NEG_REPLY : Z; HCIC_PARAM_SIZE_BLE_RC_PARAM_REQ_REPLY : Z;
  HCIC_PARAM_SIZE_BLE_RC_PARAM_REQ_NEG_REPLY : Z; HCIC_PARAM_SIZE_BLE_ADD_DEV_RESOLVING_LIST : Z;
  HCIC_PARAM_SIZE_BLE_RM_DEV_RESOLVING_LIST : Z; HCIC_PARAM_SIZE_BLE_SET_PRIVACY_MODE : Z;
  HCIC_PARAM_SIZE_BLE_CLEAR_RESOLVING_LIST : Z;
  HCIC_PARAM_SIZE_BLE_READ_RESOLVABLE_ADDR_PEER : Z;
  HCIC_PARAM_SIZE_BLE_READ_RESOLVABLE_ADDR_LOCAL : Z;
  HCIC_PARAM_SIZE_BLE_SET_ADDR_RESOLUTION_ENABLE : Z;
  HCIC_PARAM_SIZE_BLE_SET_RAND_PRIV_ADDR_TIMOUT : Z; HCIC_PARAM_SIZE_BLE_SET_DATA_LENGTH : Z;
  HCIC_PARAM_SIZE_BLE_ENH_RX_TEST : Z; HCIC_PARAM_SIZE_BLE_ENH_TX_TEST : Z;
  HCIC_BLE_CHNL_MAP_SIZE : Z; HCIC_BLE_ENCRYT_KEY_SIZE : Z; HCIC_BLE_RAND_DI_SIZE : Z
}.

(** The sizes of the parameters, as the Bluetooth core specification has them,
    and a buffer with room for any command of this file. *)
Class HcicSizesOk `{!HcicSizes} : Prop := {
  room_enough : (3 + 255 <= cmd_room)%nat;
  room_voidp : (sizeof_voidp <= 8)%nat;
  bt_octet8_len_is : BT_OCTET8_LEN = 8%nat;
  hcic_preamble_size_is : HCIC_PREAMBLE_SIZE = 3;
  hcic_param_size_read_cmd_is : HCIC_PARAM_SIZE_READ_CMD = 0;
  hcic_param_size_write_param1_is : HCIC_PARAM_SIZE_WRITE_PARAM1 = 1;
  hcic_param_size_write_param3_is : HCIC_PARAM_SIZE_WRITE_PARAM3 = 3;
  hcic_param_size_set_used_feat_cmd_is : HCIC_PARAM_SIZE_SET_USED_FEAT_CMD = 8;
  hcic_param_size_write_random_addr_cmd_is : HCIC_PARAM_SIZE_WRITE_RANDOM_ADDR_CMD = 6;
  hcic_param_size_ble_write_adv_params_is : HCIC_PARAM_SIZE_BLE_WRITE_ADV_PARAMS = 15;
  hcic_param_size_ble_write_adv_data_is : HCIC_PARAM_SIZE_BLE_WRITE_ADV_DATA = 31;
  hcic_param_size_ble_write_scan_rsp_is : HCIC_PARAM_SIZE_BLE_WRITE_SCAN_RSP = 31;
  hcic_param_size_write_adv_enable_is : HCIC_PARAM_SIZE_WRITE_ADV_ENABLE = 1;
  hcic_param_size_ble_write_scan_param_is : HCIC_PARAM_SIZE_BLE_WRITE_SCAN_PARAM = 7;
  hcic_param_size_ble_write_scan_enable_is : HCIC_PARAM_SIZE_BLE_WRITE_SCAN_ENABLE = 2;
  hcic_param_size_ble_create_ll_conn_is : HCIC_PARAM_SIZE_BLE_CREATE_LL_CONN = 25;
  hcic_param_size_ble_create_conn_cancel_is : HCIC_PARAM_SIZE_BLE_CREATE_CONN_CANCEL = 0;
  hcic_param_size_add_white_list_is : HCIC_PARAM_SIZE_ADD_WHITE_LIST = 7;
  hcic_param_size_remove_white_list_is : HCIC_PARAM_SIZE_REMOVE_WHITE_LIST = 7;
  hcic_param_size_ble_upd_ll_conn_params_is : HCIC_PARAM_SIZE_BLE_UPD_LL_CONN_PARAMS = 14;
  hcic_param_size_set_host_chnl_class_is : HCIC_PARAM_SIZE_SET_HOST_CHNL_CLASS = 5;
  hcic_param_size_read_chnl_map_is : HCIC_PARAM_SIZE_READ_CHNL_MAP = 2;
  hcic_param_size_ble_read_remote_feat_is : HCIC_PARAM_SIZE_BLE_READ_REMOTE_FEAT = 2;
  hcic_param_size_ble_encrypt_is : HCIC_PARAM_SIZE_BLE_ENCRYPT = 32;
  hcic_param_size_ble_start_enc_is : HCIC_PARAM_SIZE_BLE_START_ENC = 28;
  hcic_param_size_ltk_req_reply_is : HCIC_PARAM_SIZE_LTK_REQ_REPLY = 18;
  hcic_param_size_ltk_req_neg_reply_is : HCIC_PARAM_SIZE_LTK_REQ_NEG_REPLY = 2;
  hcic_param_size_ble_rc_param_req_reply_is : HCIC_PARAM_SIZE_BLE_RC_PARAM_REQ_REPLY = 14;
  hcic_param_size_ble_rc_param_req_neg_reply_is : HCIC_PARAM_SIZE_BLE_RC_PARAM_REQ_NEG_REPLY = 3;
  hcic_param_size_ble_add_dev_resolving_list_is : HCIC_PARAM_SIZE_BLE_ADD_DEV_RESOLVING_LIST = 39;
  hcic_param_size_ble_rm_dev_resolving_list_is : HCIC_PARAM_SIZE_BLE_RM_DEV_RESOLVING_LIST = 7;
  hcic_param_size_ble_set_privacy_mode_is : HCIC_PARAM_SIZE_BLE_SET_PRIVACY_MODE = 8;
  hcic_param_size_ble_clear_resolving_list_is : HCIC_PARAM_SIZE_BLE_CLEAR_RESOLVING_LIST = 0;
  hcic_param_size_ble_read_resolvable_addr_peer_is : HCIC_PARAM_SIZE_BLE_READ_RESOLVABLE_ADDR_PEER = 7;
  hcic_param_size_ble_read_resolvable_addr_local_is : HCIC_PARAM_SIZE_BLE_READ_RESOLVABLE_ADDR_LOCAL = 7;
  hcic_param_size_ble_set_addr_resolution_enable_is : HCIC_PARAM_SIZE_BLE_SET_ADDR_RESOLUTION_ENABLE = 1;
  hcic_param_size_ble_set_rand_priv_addr_timout_is : HCIC_PARAM_SIZE_BLE_SET_RAND_PRIV_ADDR_TIMOUT = 2;
  hcic_param_size_ble_set_data_length_is : HCIC_PARAM_SIZE_BLE_SET_DATA_LENGTH = 6;
  hcic_param_size_ble_enh_rx_test_is : HCIC_PARAM_SIZE_BLE_ENH_RX_TEST = 3;
  hcic_param_size_ble_enh_tx_test_is : HCIC_PARAM_SIZE_BLE_ENH_TX_TEST = 4;
  hcic_ble_chnl_map_size_is : HCIC_BLE_CHNL_MAP_SIZE = 5;
  hcic_ble_encryt_key_size_is : HCIC_BLE_ENCRYT_KEY_SIZE = 16;
  hcic_ble_rand_di_size_is : HCIC_BLE_RAND_DI_SIZE = 8
}.
