(* ===== verification/HciBuf.v ===== *)
(** * Bluetooth: formatting a command into its buffer

    A command buffer is a block of cells, uninitialised when it comes from the
    allocator, with the position [pp] of the writer.  A write outside the block
    and a copy from beyond the source array are undefined behaviour. *)

From S2P Require Import Prelude CMonad BtTypes.

Record cmdbuf : Type := mk_cmdbuf { cells : list (option Z); pp : nat }.

Definition fresh_buf (size : nat) : cmdbuf := mk_cmdbuf (replicate size None) 0.

(** Overwrite the cells from position [at_]. *)
Definition overwrite (at_ : nat) (bs : bytes) (l : list (option Z)) : list (option Z) :=
  take at_ l ++ (Some <$> bs) ++ drop (at_ + length bs) l.

(** Write bytes and advance. *)
Definition store (bs : bytes) : M cmdbuf unit := λ b,
  if bool_decide (pp b + length bs ≤ length (cells b))%nat
  then Ret tt (mk_cmdbuf (overwrite (pp b) bs (cells b)) (pp b + length bs))
  else Undefined.

(** [memset(pp, v, n)]: write and stay. *)
Definition memset (v : Z) (n : nat) : M cmdbuf unit := λ b,
  if bool_decide (pp b + n ≤ length (cells b))%nat
  then Ret tt (mk_cmdbuf (overwrite (pp b) (replicate n v) (cells b)) (pp b))
  else Undefined.

(** [pp += n] *)
Definition skip (n : nat) : M cmdbuf unit := λ b,
  if bool_decide (pp b + n ≤ length (cells b))%nat
  then Ret tt (mk_cmdbuf (cells b) (pp b + n)) else Undefined.

Section macros.
Context `{!BtMacros}.

Definition put8 (x : Z) : M cmdbuf unit := store (wr8 x).
Definition put16 (x : Z) : M cmdbuf unit := store (wr16 x).
Definition put_bda (a : bytes) : M cmdbuf unit := store (wr_bda a).
(** [ARRAY_TO_STREAM(pp, src, n)] *)
Definition put_array (src : bytes) (n : Z) : M cmdbuf unit :=
  require (bool_decide (Z.to_nat n ≤ length src)%nat) ;; store (wr_array (take (Z.to_nat n) src)).
End macros.

(** A command handed to [btu_hcif_send_cmd], and parameters handed to
    [btu_hcif_send_cmd_with_cb]. *)
Record bt_cmd : Type := mk_bt_cmd { c_len : Z; c_offset : nat; c_cells : list (option Z) }.
Inductive sent : Type :=
  | SendCmd (c : bt_cmd)
  | SendWithCb (opcode : Z) (params : list (option Z)).

(** Allocate, set [p->len] (a [uint16_t]) and [p->offset], format and send;
    [None] is undefined behaviour. *)
Definition command `{!HcicSizes} (len : Z) (offset : nat) (body : M cmdbuf unit) : option sent :=
  match body (fresh_buf cmd_room) with
  | Ret _ b => Some (SendCmd (mk_bt_cmd (u16 len) offset (cells b)))
  | _ => None
  end.
(** Format [size] bytes of parameters on the stack and send them. *)
Definition command_with_cb (opcode size : Z) (body : M cmdbuf unit) : option sent :=
  match body (fresh_buf (Z.to_nat size)) with
  | Ret _ b => Some (SendWithCb opcode (cells b))
  | _ => None
  end.

(** The bytes of the packet that goes out. *)
Definition packet (c : bt_cmd) : list (option Z) := take (Z.to_nat (c_len c)) (drop (c_offset c) (c_cells c)).

(** ** Formatting, symbolically *)

(** [m] writes [bs] wherever there is room for it. *)
Definition writes (m : M cmdbuf unit) (bs : bytes) : Prop :=
  ∀ b, (pp b + length bs ≤ length (cells b))%nat →
    m b = Ret tt (mk_cmdbuf (overwrite (pp b) bs (cells b)) (pp b + length bs)).

Lemma overwrite_length at_ bs l : (at_ + length bs ≤ length l)%nat → length (overwrite at_ bs l) = length l.
Proof. intros. unfold overwrite. rewrite !length_app, length_take, length_fmap, length_drop. lia. Qed.

Lemma overwrite_app at_ a b l : (at_ + length a + length b ≤ length l)%nat →
  overwrite (at_ + length a) b (overwrite at_ a l) = overwrite at_ (a ++ b) l.
Proof.
  intros Hl. unfold overwrite.
  assert (length (take at_ l ++ (Some <$> a)) = at_ + length a)%nat as E.
  { rewrite length_app, length_take, length_fmap. lia. }
  rewrite (app_assoc (take at_ l)). rewrite (take_app_length' (_ ++ _)) by done.
  replace (at_ + length a + length b)%nat with (length (take at_ l ++ (Some <$> a)) + length b)%nat by lia.
  rewrite drop_app_add, drop_drop, fmap_app, length_app, <- !app_assoc. do 4 f_equal. lia.
Qed.

Lemma writes_store bs : writes (store bs) bs.
Proof. intros b Hb. unfold store. by rewrite bool_decide_eq_true_2. Qed.

Lemma writes_seq m1 m2 b1 b2 : writes m1 b1 → writes m2 b2 → writes (m1 ;; m2) (b1 ++ b2).
Proof.
  intros H1 H2 b Hb. rewrite length_app in Hb. unfold mbind, M_bind. rewrite H1 by lia.
  rewrite H2; cbn [pp cells].
  - rewrite overwrite_app, length_app by lia. do 2 f_equal. lia.
  - rewrite overwrite_length by lia. lia.
Qed.

Lemma writes_ret : writes (mret tt) [].
Proof.
  intros [c p] Hb. unfold overwrite. cbn in *. rewrite Nat.add_0_r, take_drop. done.
Qed.

(** A fresh block after [bs] was written into it. *)
Lemma writes_fresh m bs n : writes m bs → (length bs ≤ n)%nat →
  m (fresh_buf n) = Ret tt (mk_cmdbuf ((Some <$> bs) ++ replicate (n - length bs) None) (length bs)).
Proof.
  intros Hm Hn. rewrite Hm; unfold fresh_buf; cbn [pp cells]; [|rewrite length_replicate; lia].
  unfold overwrite. rewrite take_0, drop_replicate. done.
Qed.

(** ** Well-formed commands

    [is_command c op params]: the packet is the operation code, the length of
    the parameters and the parameters, all of it initialised. *)
Definition is_command `{!BtMacros} (r : option sent) (op : Z) (params : bytes) : Prop :=
  (length params < 256)%nat ∧
  match r with
  | Some (SendCmd c) => packet c = Some <$> (wr16 op ++ wr8 (Z.of_nat (length params)) ++ params)
  | Some (SendWithCb op' ps) => op' = op ∧ ps = Some <$> params
  | None => False
  end.

Section commands.
Context `{!BtMacros, !BtMacrosOk, !HcicSizes, !HcicSizesOk}.

Lemma command_ok len op params size body :
  writes body (wr16 op ++ wr8 size ++ params) →
  len = HCIC_PREAMBLE_SIZE + size → size = Z.of_nat (length params) → (length params < 256)%nat →
  is_command (command len 0 body) op params.
Proof.
  intros Hb -> -> Hs. pose proof room_enough as Hroom. split; [done|].
  assert (length (wr16 op ++ wr8 (Z.of_nat (length params)) ++ params) = 3 + length params)%nat as Hl
    by (rewrite !length_app, wr16_length, wr8_length; done).
  unfold command. rewrite (writes_fresh _ _ _ Hb) by lia. unfold packet. cbn [c_len c_offset c_cells cells].
  rewrite hcic_preamble_size_is, drop_0, wrap_small by (unfold in_width; lia).
  rewrite take_app_length' by (rewrite length_fmap, Hl; lia). done.
Qed.

Lemma command_with_cb_ok op params size body :
  writes body params → size = Z.of_nat (length params) → (length params < 256)%nat →
  is_command (command_with_cb op size body) op params.
Proof.
  intros Hb -> Hs. split; [done|]. unfold command_with_cb. rewrite Nat2Z.id.
  rewrite (writes_fresh _ _ _ Hb) by lia. cbn [cells]. by rewrite Nat.sub_diag, app_nil_r.
Qed.

Lemma writes_put8 x : writes (put8 x) (wr8 x).
Proof. apply writes_store. Qed.
Lemma writes_put16 x : writes (put16 x) (wr16 x).
Proof. apply writes_store. Qed.
Lemma writes_put_bda a : writes (put_bda a) (wr_bda a).
Proof. apply writes_store. Qed.
Lemma writes_put_array src n : Z.of_nat (length src) = n → writes (put_array src n) src.
Proof.
  intros <-. unfold put_array. rewrite Nat2Z.id, bool_decide_eq_true_2 by done.
  rewrite firstn_all, wr_array_id. intros b Hb. apply writes_store, Hb.
Qed.
Lemma writes_put_prefix src n : 0 <= n <= Z.of_nat (length src) →
  writes (put_array src n) (take (Z.to_nat n) src).
Proof.
  intros Hn. unfold put_array. rewrite bool_decide_eq_true_2 by lia. rewrite wr_array_id.
  intros b Hb. apply writes_store, Hb.
Qed.
End commands.

#[export] Hint Resolve writes_put8 writes_put16 writes_put_bda writes_ret : a1000.
