(* ===== verification/HciCmds.v ===== *)
(** * Bluetooth: the LE commands ([stack/hcic/hciblecmds.cc])

    One definition per [btsnd_hcic_ble_*] function: the command it formats and
    sends, [None] when formatting it is undefined behaviour.  A [uint8_t *]
    argument is the bytes it points to, a [RawAddress] or an [Octet16] its
    bytes, a callback that travels with the command is left out. *)

From S2P Require Import Prelude CMonad BtTypes HciBuf.

(** Entries of the arrays the extended commands take. *)
Record scanning_phy_cfg : Type := mk_scanning_phy_cfg { sp_scan_type : Z; sp_scan_int : Z; sp_scan_win : Z }.
Record EXT_CONN_PHY_CFG : Type := mk_EXT_CONN_PHY_CFG {
  ec_scan_int : Z; ec_scan_win : Z; ec_conn_int_min : Z; ec_conn_int_max : Z;
  ec_conn_latency : Z; ec_sup_timeout : Z; ec_min_ce_len : Z; ec_max_ce_len : Z }.

(** [std::bitset<8>(x).count()] *)
Definition bit_count8 (x : Z) : Z := Z.of_nat (length (filter (λ i, Z.testbit x i = true) (seqZ 0 8))).

(** [for (int i = 0; i < n; i++) put(a[i]);] past the end of [a] is undefined. *)
Fixpoint put_entries {A} (put : A → M cmdbuf unit) (n : nat) (a : list A) : M cmdbuf unit :=
  match n, a with
  | O, _ => mret tt
  | S n', x :: a' => put x ;; put_entries put n' a'
  | S _, [] => undefined
  end.

Section commands.
Context `{!BtMacros, !LeOpcodes, !HcicSizes}.

Definition btsnd_hcic_ble_set_local_used_feat (feat_set : bytes) : option sent :=
  command (HCIC_PREAMBLE_SIZE + HCIC_PARAM_SIZE_SET_USED_FEAT_CMD) 0
    (put16 HCI_BLE_WRITE_LOCAL_SPT_FEAT ;;
     put_array feat_set HCIC_PARAM_SIZE_SET_USED_FEAT_CMD).

Definition btsnd_hcic_ble_set_random_addr (random_bda : bytes) : option sent :=
  command (HCIC_PREAMBLE_SIZE + HCIC_PARAM_SIZE_WRITE_RANDOM_ADDR_CMD) 0
    (put16 HCI_BLE_WRITE_RANDOM_ADDR ;;
     put8 HCIC_PARAM_SIZE_WRITE_RANDOM_ADDR_CMD ;;
     put_bda random_bda).

Definition btsnd_hcic_ble_write_adv_params (adv_int_min adv_int_max adv_type addr_type_own
    addr_type_dir : Z) (direct_bda : bytes) (channel_map adv_filter_policy : Z) : option sent :=
  command (HCIC_PREAMBLE_SIZE + HCIC_PARAM_SIZE_BLE_WRITE_ADV_PARAMS) 0
    (put16 HCI_BLE_WRITE_ADV_PARAMS ;;
     put8 HCIC_PARAM_SIZE_BLE_WRITE_ADV_PARAMS ;;
     put16 adv_int_min ;;
     put16 adv_int_max ;;
     put8 adv_type ;;
     put8 addr_type_own ;;
     put8 addr_type_dir ;;
     put_bda direct_bda ;;
     put8 channel_map ;;
     put8 adv_filter_policy).

Definition btsnd_hcic_ble_read_adv_chnl_tx_power : option sent :=
  command (HCIC_PREAMBLE_SIZE + HCIC_PARAM_SIZE_READ_CMD) 0
    (put16 HCI_BLE_READ_ADV_CHNL_TX_POWER ;;
     put8 HCIC_PARAM_SIZE_READ_CMD).

Definition btsnd_hcic_ble_set_adv_enable (adv_enable : Z) : option sent :=
  command (HCIC_PREAMBLE_SIZE + HCIC_PARAM_SIZE_WRITE_ADV_ENABLE) 0
    (put16 HCI_BLE_WRITE_ADV_ENABLE ;;
     put8 HCIC_PARAM_SIZE_WRITE_ADV_ENABLE ;;
     put8 adv_enable).

Definition btsnd_hcic_ble_set_scan_params (scan_type scan_int scan_win addr_type_own
    scan_filter_policy : Z) : option sent :=
  command (HCIC_PREAMBLE_SIZE + HCIC_PARAM_SIZE_BLE_WRITE_SCAN_PARAM) 0
    (put16 HCI_BLE_WRITE_SCAN_PARAMS ;;
     put8 HCIC_PARAM_SIZE_BLE_WRITE_SCAN_PARAM ;;
     put8 scan_type ;;
     put16 scan_int ;;
     put16 scan_win ;;
     put8 addr_type_own ;;
     put8 scan_filter_policy).

Definition btsnd_hcic_ble_set_scan_enable (scan_enable duplicate : Z) : option sent :=
  command (HCIC_PREAMBLE_SIZE + HCIC_PARAM_SIZE_BLE_WRITE_SCAN_ENABLE) 0
    (put16 HCI_BLE_WRITE_SCAN_ENABLE ;;
     put8 HCIC_PARAM_SIZE_BLE_WRITE_SCAN_ENABLE ;;
     put8 scan_enable ;;
     put8 duplicate).

Definition btsnd_hcic_ble_create_ll_conn (scan_int scan_win init_filter_policy addr_type_peer :
    Z) (bda_peer : bytes) (addr_type_own conn_int_min conn_int_max conn_latency conn_timeout
    min_ce_len max_ce_len : Z) : option sent :=
  command (HCIC_PREAMBLE_SIZE + HCIC_PARAM_SIZE_BLE_CREATE_LL_CONN) 0
    (put16 HCI_BLE_CREATE_LL_CONN ;;
     put8 HCIC_PARAM_SIZE_BLE_CREATE_LL_CONN ;;
     put16 scan_int ;;
     put16 scan_win ;;
     put8 init_filter_policy ;;
     put8 addr_type_peer ;;
     put_bda bda_peer ;;
     put8 addr_type_own ;;
     put16 conn_int_min ;;
     put16 conn_int_max ;;
     put16 conn_latency ;;
     put16 conn_timeout ;;
     put16 min_ce_len ;;
     put16 max_ce_len).

Definition btsnd_hcic_ble_create_conn_cancel : option sent :=
  command (HCIC_PREAMBLE_SIZE + HCIC_PARAM_SIZE_BLE_CREATE_CONN_CANCEL) 0
    (put16 HCI_BLE_CREATE_CONN_CANCEL ;;
     put8 HCIC_PARAM_SIZE_BLE_CREATE_CONN_CANCEL).

Definition btsnd_hcic_ble_clear_white_list : option sent :=
  command_with_cb HCI_BLE_CLEAR_WHITE_LIST 0 (mret tt).

Definition btsnd_hcic_ble_add_white_list (addr_type : Z) (bda : bytes) : option sent :=
  command_with_cb HCI_BLE_ADD_WHITE_LIST HCIC_PARAM_SIZE_ADD_WHITE_LIST
    (put8 addr_type ;;
     put_bda bda).

Definition btsnd_hcic_ble_remove_from_white_list (addr_type : Z) (bda : bytes) : option sent :=
  command_with_cb HCI_BLE_REMOVE_WHITE_LIST HCIC_PARAM_SIZE_REMOVE_WHITE_LIST
    (put8 addr_type ;;
     put_bda bda).

Definition btsnd_hcic_ble_upd_ll_conn_params (handle conn_int_min conn_int_max conn_latency
    conn_timeout min_ce_len max_ce_len : Z) : option sent :=
  command (HCIC_PREAMBLE_SIZE + HCIC_PARAM_SIZE_BLE_UPD_LL_CONN_PARAMS) 0
    (put16 HCI_BLE_UPD_LL_CONN_PARAMS ;;
     put8 HCIC_PARAM_SIZE_BLE_UPD_LL_CONN_PARAMS ;;
     put16 handle ;;
     put16 conn_int_min ;;
     put16 conn_int_max ;;
     put16 conn_latency ;;
     put16 conn_timeout ;;
     put16 min_ce_len ;;
     put16 max_ce_len).

Definition btsnd_hcic_ble_set_host_chnl_class (chnl_map : bytes) : option sent :=
  command (HCIC_PREAMBLE_SIZE + HCIC_PARAM_SIZE_SET_HOST_CHNL_CLASS) 0
    (put16 HCI_BLE_SET_HOST_CHNL_CLASS ;;
     put8 HCIC_PARAM_SIZE_SET_HOST_CHNL_CLASS ;;
     put_array chnl_map HCIC_BLE_CHNL_MAP_SIZE).

Definition btsnd_hcic_ble_read_chnl_map (handle : Z) : option sent :=
  command (HCIC_PREAMBLE_SIZE + HCIC_PARAM_SIZE_READ_CHNL_MAP) 0
    (put16 HCI_BLE_READ_CHNL_MAP ;;
     put8 HCIC_PARAM_SIZE_READ_CHNL_MAP ;;
     put16 handle).

Definition btsnd_hcic_ble_read_remote_feat (handle : Z) : option sent :=
  command (HCIC_PREAMBLE_SIZE + HCIC_PARAM_SIZE_BLE_READ_REMOTE_FEAT) 0
    (put16 HCI_BLE_READ_REMOTE_FEAT ;;
     put8 HCIC_PARAM_SIZE_BLE_READ_REMOTE_FEAT ;;
     put16 handle).

Definition btsnd_hcic_ble_start_enc (handle : Z) (rand : bytes) (ediv : Z) (ltk : bytes) :
    option sent :=
  command (HCIC_PREAMBLE_SIZE + HCIC_PARAM_SIZE_BLE_START_ENC) 0
    (put16 HCI_BLE_START_ENC ;;
     put8 HCIC_PARAM_SIZE_BLE_START_ENC ;;
     put16 handle ;;
     put_array rand HCIC_BLE_RAND_DI_SIZE ;;
     put16 ediv ;;
     put_array ltk HCIC_BLE_ENCRYT_KEY_SIZE).

Definition btsnd_hcic_ble_ltk_req_reply (handle : Z) (ltk : bytes) : option sent :=
  command (HCIC_PREAMBLE_SIZE + HCIC_PARAM_SIZE_LTK_REQ_REPLY) 0
    (put16 HCI_BLE_LTK_REQ_REPLY ;;
     put8 HCIC_PARAM_SIZE_LTK_REQ_REPLY ;;
     put16 handle ;;
     put_array ltk HCIC_BLE_ENCRYT_KEY_SIZE).

Definition btsnd_hcic_ble_ltk_req_neg_reply (handle : Z) : option sent :=
  command (HCIC_PREAMBLE_SIZE + HCIC_PARAM_SIZE_LTK_REQ_NEG_REPLY) 0
    (put16 HCI_BLE_LTK_REQ_NEG_REPLY ;;
     put8 HCIC_PARAM_SIZE_LTK_REQ_NEG_REPLY ;;
     put16 handle).

Definition btsnd_hcic_ble_receiver_test (rx_freq : Z) : option sent :=
  command (HCIC_PREAMBLE_SIZE + HCIC_PARAM_SIZE_WRITE_PARAM1) 0
    (put16 HCI_BLE_RECEIVER_TEST ;;
     put8 HCIC_PARAM_SIZE_WRITE_PARAM1 ;;
     put8 rx_freq).

Definition btsnd_hcic_ble_transmitter_test (tx_freq test_data_len payload : Z) : option sent :=
  command (HCIC_PREAMBLE_SIZE + HCIC_PARAM_SIZE_WRITE_PARAM3) 0
    (put16 HCI_BLE_TRANSMITTER_TEST ;;
     put8 HCIC_PARAM_SIZE_WRITE_PARAM3 ;;
     put8 tx_freq ;;
     put8 test_data_len ;;
     put8 payload).

Definition btsnd_hcic_ble_test_end : option sent :=
  command (HCIC_PREAMBLE_SIZE + HCIC_PARAM_SIZE_READ_CMD) 0
    (put16 HCI_BLE_TEST_END ;;
     put8 HCIC_PARAM_SIZE_READ_CMD).

Definition btsnd_hcic_ble_read_host_supported : option sent :=
  command (HCIC_PREAMBLE_SIZE + HCIC_PARAM_SIZE_READ_CMD) 0
    (put16 HCI_READ_LE_HOST_SUPPORT ;;
     put8 HCIC_PARAM_SIZE_READ_CMD).

Definition btsnd_hcic_ble_rc_param_req_reply (handle conn_int_min conn_int_max conn_latency
    conn_timeout min_ce_len max_ce_len : Z) : option sent :=
  command (HCIC_PREAMBLE_SIZE + HCIC_PARAM_SIZE_BLE_RC_PARAM_REQ_REPLY) 0
    (put16 HCI_BLE_RC_PARAM_REQ_REPLY ;;
     put8 HCIC_PARAM_SIZE_BLE_RC_PARAM_REQ_REPLY ;;
     put16 handle ;;
     put16 conn_int_min ;;
     put16 conn_int_max ;;
     put16 conn_latency ;;
     put16 conn_timeout ;;
     put16 min_ce_len ;;
     put16 max_ce_len).

Definition btsnd_hcic_ble_rc_param_req_neg_reply (handle reason : Z) : option sent :=
  command (HCIC_PREAMBLE_SIZE + HCIC_PARAM_SIZE_BLE_RC_PARAM_REQ_NEG_REPLY) 0
    (put16 HCI_BLE_RC_PARAM_REQ_NEG_REPLY ;;
     put8 HCIC_PARAM_SIZE_BLE_RC_PARAM_REQ_NEG_REPLY ;;
     put16 handle ;;
     put8 reason).

Definition btsnd_hcic_ble_add_device_resolving_list (addr_type_peer : Z) (bda_peer irk_peer
    irk_local : bytes) : option sent :=
  command (HCIC_PREAMBLE_SIZE + HCIC_PARAM_SIZE_BLE_ADD_DEV_RESOLVING_LIST) 0
    (put16 HCI_BLE_ADD_DEV_RESOLVING_LIST ;;
     put8 HCIC_PARAM_SIZE_BLE_ADD_DEV_RESOLVING_LIST ;;
     put8 addr_type_peer ;;
     put_bda bda_peer ;;
     put_array irk_peer HCIC_BLE_ENCRYT_KEY_SIZE ;;
     put_array irk_local HCIC_BLE_ENCRYT_KEY_SIZE).

Definition btsnd_hcic_ble_rm_device_resolving_list (addr_type_peer : Z) (bda_peer : bytes) :
    option sent :=
  command (HCIC_PREAMBLE_SIZE + HCIC_PARAM_SIZE_BLE_RM_DEV_RESOLVING_LIST) 0
    (put16 HCI_BLE_RM_DEV_RESOLVING_LIST ;;
     put8 HCIC_PARAM_SIZE_BLE_RM_DEV_RESOLVING_LIST ;;
     put8 addr_type_peer ;;
     put_bda bda_peer).

Definition btsnd_hcic_ble_set_privacy_mode (addr_type_peer : Z) (bda_peer : bytes) (privacy_type
    : Z) : option sent :=
  command (HCIC_PREAMBLE_SIZE + HCIC_PARAM_SIZE_BLE_SET_PRIVACY_MODE) 0
    (put16 HCI_BLE_SET_PRIVACY_MODE ;;
     put8 HCIC_PARAM_SIZE_BLE_SET_PRIVACY_MODE ;;
     put8 addr_type_peer ;;
     put_bda bda_peer ;;
     put8 privacy_type).

Definition btsnd_hcic_ble_clear_resolving_list : option sent :=
  command (HCIC_PREAMBLE_SIZE + HCIC_PARAM_SIZE_BLE_CLEAR_RESOLVING_LIST) 0
    (put16 HCI_BLE_CLEAR_RESOLVING_LIST ;;
     put8 HCIC_PARAM_SIZE_BLE_CLEAR_RESOLVING_LIST).

Definition btsnd_hcic_ble_read_resolvable_addr_peer (addr_type_peer : Z) (bda_peer : bytes) :
    option sent :=
  command (HCIC_PREAMBLE_SIZE + HCIC_PARAM_SIZE_BLE_READ_RESOLVABLE_ADDR_PEER) 0
    (put16 HCI_BLE_READ_RESOLVABLE_ADDR_PEER ;;
     put8 HCIC_PARAM_SIZE_BLE_READ_RESOLVABLE_ADDR_PEER ;;
     put8 addr_type_peer ;;
     put_bda bda_peer).

Definition btsnd_hcic_ble_read_resolvable_addr_local (addr_type_peer : Z) (bda_peer : bytes) :
    option sent :=
  command (HCIC_PREAMBLE_SIZE + HCIC_PARAM_SIZE_BLE_READ_RESOLVABLE_ADDR_LOCAL) 0
    (put16 HCI_BLE_READ_RESOLVABLE_ADDR_LOCAL ;;
     put8 HCIC_PARAM_SIZE_BLE_READ_RESOLVABLE_ADDR_LOCAL ;;
     put8 addr_type_peer ;;
     put_bda bda_peer).

Definition btsnd_hcic_ble_set_addr_resolution_enable (addr_resolution_enable : Z) : option sent
    :=
  command (HCIC_PREAMBLE_SIZE + HCIC_PARAM_SIZE_BLE_SET_ADDR_RESOLUTION_ENABLE) 0
    (put16 HCI_BLE_SET_ADDR_RESOLUTION_ENABLE ;;
     put8 HCIC_PARAM_SIZE_BLE_SET_ADDR_RESOLUTION_ENABLE ;;
     put8 addr_resolution_enable).

Definition btsnd_hcic_ble_set_rand_priv_addr_timeout (rpa_timout : Z) : option sent :=
  command (HCIC_PREAMBLE_SIZE + HCIC_PARAM_SIZE_BLE_SET_RAND_PRIV_ADDR_TIMOUT) 0
    (put16 HCI_BLE_SET_RAND_PRIV_ADDR_TIMOUT ;;
     put8 HCIC_PARAM_SIZE_BLE_SET_RAND_PRIV_ADDR_TIMOUT ;;
     put16 rpa_timout).

Definition btsnd_hcic_ble_set_data_length (conn_handle tx_octets tx_time : Z) : option sent :=
  command (HCIC_PREAMBLE_SIZE + HCIC_PARAM_SIZE_BLE_SET_DATA_LENGTH) 0
    (put16 HCI_BLE_SET_DATA_LENGTH ;;
     put8 HCIC_PARAM_SIZE_BLE_SET_DATA_LENGTH ;;
     put16 conn_handle ;;
     put16 tx_octets ;;
     put16 tx_time).

Definition btsnd_hcic_ble_enh_rx_test (rx_chan phy mod_index : Z) : option sent :=
  command (HCIC_PREAMBLE_SIZE + HCIC_PARAM_SIZE_BLE_ENH_RX_TEST) 0
    (put16 HCI_BLE_ENH_RECEIVER_TEST ;;
     put8 HCIC_PARAM_SIZE_BLE_ENH_RX_TEST ;;
     put8 rx_chan ;;
     put8 phy ;;
     put8 mod_index).

Definition btsnd_hcic_ble_enh_tx_test (tx_chan data_len payload phy : Z) : option sent :=
  command (HCIC_PREAMBLE_SIZE + HCIC_PARAM_SIZE_BLE_ENH_TX_TEST) 0
    (put16 HCI_BLE_ENH_TRANSMITTER_TEST ;;
     put8 HCIC_PARAM_SIZE_BLE_ENH_TX_TEST ;;
     put8 tx_chan ;;
     put8 data_len ;;
     put8 payload ;;
     put8 phy).

Definition btsnd_hcic_ble_set_extended_scan_enable (enable filter_duplicates duration period :
    Z) : option sent :=
  let param_len := 6 in
  command (HCIC_PREAMBLE_SIZE + param_len) 0
    (put16 HCI_LE_SET_EXTENDED_SCAN_ENABLE ;;
     put8 param_len ;;
     put8 enable ;;
     put8 filter_duplicates ;;
     put16 duration ;;
     put16 period).

(** ** Advertising data

    A null data pointer is [None]. *)

(** [memset], then the data when there is any: the clamp to [size] included. *)
Definition put_adv (size data_len : Z) (p_data : option bytes) : M cmdbuf unit :=
  memset 0 (Z.to_nat size) ;;
  match p_data with
  | Some d =>
      if 0 <? data_len then
        let data_len := if size <? data_len then size else data_len in
        put8 data_len ;; put_array d data_len
      else mret tt
  | None => mret tt
  end.

Definition btsnd_hcic_ble_set_adv_data (data_len : Z) (p_data : option bytes) : option sent :=
  command (HCIC_PREAMBLE_SIZE + HCIC_PARAM_SIZE_BLE_WRITE_ADV_DATA + 1) 0
    (put16 HCI_BLE_WRITE_ADV_DATA ;;
     put8 (HCIC_PARAM_SIZE_BLE_WRITE_ADV_DATA + 1) ;;
     put_adv HCIC_PARAM_SIZE_BLE_WRITE_ADV_DATA data_len p_data).

Definition btsnd_hcic_ble_set_scan_rsp_data (data_len : Z) (p_scan_rsp : option bytes) : option sent :=
  command (HCIC_PREAMBLE_SIZE + HCIC_PARAM_SIZE_BLE_WRITE_SCAN_RSP + 1) 0
    (put16 HCI_BLE_WRITE_SCAN_RSP_DATA ;;
     put8 (HCIC_PARAM_SIZE_BLE_WRITE_SCAN_RSP + 1) ;;
     put_adv HCIC_PARAM_SIZE_BLE_WRITE_SCAN_RSP data_len p_scan_rsp).

(** ** Encryption

    [p_cmd_cplt_cback] is the representation of the callback's pointer. *)
Definition btsnd_hcic_ble_encrypt (key : bytes) (key_len : Z) (plain_text : bytes) (pt_len : Z)
    (p_cmd_cplt_cback : bytes) : option sent :=
  let klen := if HCIC_BLE_ENCRYT_KEY_SIZE <? key_len then HCIC_BLE_ENCRYT_KEY_SIZE else key_len in
  let plen := if HCIC_BLE_ENCRYT_KEY_SIZE <? pt_len then HCIC_BLE_ENCRYT_KEY_SIZE else pt_len in
  command (HCIC_PREAMBLE_SIZE + HCIC_PARAM_SIZE_BLE_ENCRYPT) sizeof_voidp
    (store p_cmd_cplt_cback ;;
     put16 HCI_BLE_ENCRYPT ;;
     put8 HCIC_PARAM_SIZE_BLE_ENCRYPT ;;
     memset 0 (Z.to_nat HCIC_PARAM_SIZE_BLE_ENCRYPT) ;;
     put_array key klen ;;
     skip (Z.to_nat (HCIC_BLE_ENCRYT_KEY_SIZE - klen)) ;;
     put_array plain_text plen).

(** ** Random numbers

    [urandom] is what opening and reading [/dev/urandom] gives: [None] when the
    open fails, else the bytes read (none on an error). *)
Inductive rand_result : Type :=
  | RandDelivered (rand : bytes)
  | RandDropped
  | RandAsked (s : option sent).

Definition btsnd_hcic_ble_rand_from_host (urandom : option bytes) : rand_result :=
  match urandom with
  | Some got => if bool_decide (length got = BT_OCTET8_LEN) then RandDelivered got else RandDropped
  | None => RandDropped
  end.

Definition btsnd_hcic_ble_rand (supports_ble : bool) (urandom : option bytes) : rand_result :=
  if negb supports_ble then btsnd_hcic_ble_rand_from_host urandom
  else RandAsked (command_with_cb HCI_BLE_RAND 0 (mret tt)).

(** The callback of the command, run with the return parameters. *)
Definition rand_complete (param : bytes) (urandom : option bytes) : rand_result :=
  if (bool_decide (length param < 1 + BT_OCTET8_LEN)%nat || negb (default 0 (param !! 0%nat) =? 0))
  then btsnd_hcic_ble_rand_from_host urandom
  else RandDelivered (take BT_OCTET8_LEN (drop 1 param)).

(** ** Extended scanning and connecting *)

Definition btsnd_hcic_ble_set_extended_scan_params
    (own_address_type scanning_filter_policy scanning_phys : Z) (phy_cfg : list scanning_phy_cfg)
    : option sent :=
  let phy_cnt := bit_count8 scanning_phys in
  let param_len := u16 (3 + 5 * phy_cnt) in
  command (HCIC_PREAMBLE_SIZE + param_len) 0
    (put16 HCI_LE_SET_EXTENDED_SCAN_PARAMETERS ;;
     put8 param_len ;;
     put8 own_address_type ;;
     put8 scanning_filter_policy ;;
     put8 scanning_phys ;;
     put_entries (λ c, put8 (sp_scan_type c) ;; put16 (sp_scan_int c) ;; put16 (sp_scan_win c))
       (Z.to_nat phy_cnt) phy_cfg).

Definition btsnd_hcic_ble_ext_create_conn
    (init_filter_policy addr_type_own addr_type_peer : Z) (bda_peer : bytes) (initiating_phys : Z)
    (phy_cfg : list EXT_CONN_PHY_CFG) : option sent :=
  let phy_cnt := bit_count8 initiating_phys in
  let param_len := u8 (10 + 16 * phy_cnt) in
  command (HCIC_PREAMBLE_SIZE + param_len) 0
    (put16 HCI_LE_EXTENDED_CREATE_CONNECTION ;;
     put8 param_len ;;
     put8 init_filter_policy ;;
     put8 addr_type_own ;;
     put8 addr_type_peer ;;
     put_bda bda_peer ;;
     put8 initiating_phys ;;
     put_entries (λ c,
       put16 (ec_scan_int c) ;; put16 (ec_scan_win c) ;;
       put16 (ec_conn_int_min c) ;; put16 (ec_conn_int_max c) ;;
       put16 (ec_conn_latency c) ;; put16 (ec_sup_timeout c) ;;
       put16 (ec_min_ce_len c) ;; put16 (ec_max_ce_len c)) (Z.to_nat phy_cnt) phy_cfg).
End commands.
