(* ===== verification/HciCmdsSpec.v ===== *)
(** * Bluetooth: what the LE commands promise

    The fields the Bluetooth core specification gives each command, the encoding
    of a list of fields, and the theorems that the definitions of [HciCmds] send
    exactly those commands, or what they send instead. *)

From S2P Require Import Prelude CMonad BtTypes HciBuf HciCmds.

(** ** Fields *)

Inductive field : Type :=
  | F8 (x : Z) | F16 (x : Z) | FAddr (a : bytes) | FOctets (n : nat) (bs : bytes).

Inductive field_kind : Type := K8 | K16 | KAddr | KOctets (n : nat).

Definition kind_of (f : field) : field_kind :=
  match f with F8 _ => K8 | F16 _ => K16 | FAddr _ => KAddr | FOctets n _ => KOctets n end.

Definition kind_size (k : field_kind) : nat :=
  match k with K8 => 1 | K16 => 2 | KAddr => BD_ADDR_LEN | KOctets n => n end.

(** A value of the C type of the field. *)
Definition field_ok (f : field) : Prop :=
  match f with
  | F8 x => in_width 8 x
  | F16 x => in_width 16 x
  | FAddr a => length a = BD_ADDR_LEN
  | FOctets n bs => length bs = n
  end.

Section codec.
Context `{!BtMacros}.

Definition encode1 (f : field) : bytes :=
  match f with F8 x => wr8 x | F16 x => wr16 x | FAddr a => wr_bda a | FOctets _ bs => bs end.
Definition encode (fs : list field) : bytes := fs ≫= encode1.

Definition decode1 (k : field_kind) (s : bytes) : field :=
  match k with
  | K8 => F8 (rd8 s) | K16 => F16 (rd16 s) | KAddr => FAddr (rd_bda s)
  | KOctets n => FOctets n (take n s)
  end.
(** Read fields of the given kinds; [None] when bytes are missing or left over. *)
Fixpoint decode (ks : list field_kind) (s : bytes) : option (list field) :=
  match ks with
  | [] => match s with [] => Some [] | _ => None end
  | k :: ks' =>
      if bool_decide (kind_size k ≤ length s)%nat
      then (decode1 k s ::.) <$> decode ks' (drop (kind_size k) s) else None
  end.

Definition size_of (fs : list field) : nat := foldr (λ f n, kind_size (kind_of f) + n)%nat 0%nat fs.
End codec.

(** ** The commands *)

(** At most sixteen bytes, padded with zeros. *)
Definition pad16 (bs : bytes) : bytes := take 16 (bs ++ replicate 16 0).

Definition scan_phy_fields (c : scanning_phy_cfg) : list field :=
  [F8 (sp_scan_type c); F16 (sp_scan_int c); F16 (sp_scan_win c)].
Definition conn_phy_fields (c : EXT_CONN_PHY_CFG) : list field :=
  [F16 (ec_scan_int c); F16 (ec_scan_win c); F16 (ec_conn_int_min c); F16 (ec_conn_int_max c);
   F16 (ec_conn_latency c); F16 (ec_sup_timeout c); F16 (ec_min_ce_len c); F16 (ec_max_ce_len c)].

Inductive le_command : Type :=
  | Le_set_random_addr (random_bda : bytes)
  | Le_write_adv_params (adv_int_min adv_int_max adv_type addr_type_own addr_type_dir : Z)
      (direct_bda : bytes) (channel_map adv_filter_policy : Z)
  | Le_read_adv_chnl_tx_power
  | Le_set_adv_enable (adv_enable : Z)
  | Le_set_scan_params (scan_type scan_int scan_win addr_type_own scan_filter_policy : Z)
  | Le_set_scan_enable (scan_enable duplicate : Z)
  | Le_create_ll_conn (scan_int scan_win init_filter_policy addr_type_peer : Z) (bda_peer : bytes)
      (addr_type_own conn_int_min conn_int_max conn_latency conn_timeout min_ce_len max_ce_len :
      Z)
  | Le_create_conn_cancel
  | Le_clear_white_list
  | Le_add_white_list (addr_type : Z) (bda : bytes)
  | Le_remove_from_white_list (addr_type : Z) (bda : bytes)
  | Le_upd_ll_conn_params (handle conn_int_min conn_int_max conn_latency conn_timeout min_ce_len
      max_ce_len : Z)
  | Le_set_host_chnl_class (chnl_map : bytes)
  | Le_read_chnl_map (handle : Z)
  | Le_read_remote_feat (handle : Z)
  | Le_start_enc (handle : Z) (rand : bytes) (ediv : Z) (ltk : bytes)
  | Le_ltk_req_reply (handle : Z) (ltk : bytes)
  | Le_ltk_req_neg_reply (handle : Z)
  | Le_receiver_test (rx_freq : Z)
  | Le_transmitter_test (tx_freq test_data_len payload : Z)
  | Le_test_end
  | Le_read_host_supported
  | Le_rc_param_req_reply (handle conn_int_min conn_int_max conn_latency conn_timeout min_ce_len
      max_ce_len : Z)
  | Le_rc_param_req_neg_reply (handle reason : Z)
  | Le_add_device_resolving_list (addr_type_peer : Z) (bda_peer irk_peer irk_local : bytes)
  | Le_rm_device_resolving_list (addr_type_peer : Z) (bda_peer : bytes)
  | Le_set_privacy_mode (addr_type_peer : Z) (bda_peer : bytes) (privacy_type : Z)
  | Le_clear_resolving_list
  | Le_read_resolvable_addr_peer (addr_type_peer : Z) (bda_peer : bytes)
  | Le_read_resolvable_addr_local (addr_type_peer : Z) (bda_peer : bytes)
  | Le_set_addr_resolution_enable (addr_resolution_enable : Z)
  | Le_set_rand_priv_addr_timeout (rpa_timout : Z)
  | Le_set_data_length (conn_handle tx_octets tx_time : Z)
  | Le_enh_rx_test (rx_chan phy mod_index : Z)
  | Le_enh_tx_test (tx_chan data_len payload phy : Z)
  | Le_set_extended_scan_enable (enable filter_duplicates duration period : Z)
  | Le_encrypt (key : bytes) (key_len : Z) (plain_text : bytes) (pt_len : Z) (cback : bytes)
  | Le_set_extended_scan_params (own_address_type filter_policy scanning_phys : Z)
      (phy_cfg : list scanning_phy_cfg)
  | Le_ext_create_conn (init_filter_policy addr_type_own addr_type_peer : Z) (bda_peer : bytes)
      (initiating_phys : Z) (phy_cfg : list EXT_CONN_PHY_CFG).

Section commands.
Context `{!BtMacros, !LeOpcodes, !HcicSizes}.

(** The function of the stack that sends it. *)
Definition le_send (c : le_command) : option sent :=
  match c with
  | Le_set_random_addr random_bda => btsnd_hcic_ble_set_random_addr random_bda
  | Le_write_adv_params adv_int_min adv_int_max adv_type addr_type_own addr_type_dir direct_bda
    channel_map adv_filter_policy => btsnd_hcic_ble_write_adv_params adv_int_min adv_int_max
    adv_type addr_type_own addr_type_dir direct_bda channel_map adv_filter_policy
  | Le_read_adv_chnl_tx_power => btsnd_hcic_ble_read_adv_chnl_tx_power
  | Le_set_adv_enable adv_enable => btsnd_hcic_ble_set_adv_enable adv_enable
  | Le_set_scan_params scan_type scan_int scan_win addr_type_own scan_filter_policy =>
    btsnd_hcic_ble_set_scan_params scan_type scan_int scan_win addr_type_own scan_filter_policy
  | Le_set_scan_enable scan_enable duplicate => btsnd_hcic_ble_set_scan_enable scan_enable
    duplicate
  | Le_create_ll_conn scan_int scan_win init_filter_policy addr_type_peer bda_peer addr_type_own
    conn_int_min conn_int_max conn_latency conn_timeout min_ce_len max_ce_len =>
    btsnd_hcic_ble_create_ll_conn scan_int scan_win init_filter_policy addr_type_peer bda_peer
    addr_type_own conn_int_min conn_int_max conn_latency conn_timeout min_ce_len max_ce_len
  | Le_create_conn_cancel => btsnd_hcic_ble_create_conn_cancel
  | Le_clear_white_list => btsnd_hcic_ble_clear_white_list
  | Le_add_white_list addr_type bda => btsnd_hcic_ble_add_white_list addr_type bda
  | Le_remove_from_white_list addr_type bda => btsnd_hcic_ble_remove_from_white_list addr_type bda
  | Le_upd_ll_conn_params handle conn_int_min conn_int_max conn_latency conn_timeout min_ce_len
    max_ce_len => btsnd_hcic_ble_upd_ll_conn_params handle conn_int_min conn_int_max conn_latency
    conn_timeout min_ce_len max_ce_len
  | Le_set_host_chnl_class chnl_map => btsnd_hcic_ble_set_host_chnl_class chnl_map
  | Le_read_chnl_map handle => btsnd_hcic_ble_read_chnl_map handle
  | Le_read_remote_feat handle => btsnd_hcic_ble_read_remote_feat handle
  | Le_start_enc handle rand ediv ltk => btsnd_hcic_ble_start_enc handle rand ediv ltk
  | Le_ltk_req_reply handle ltk => btsnd_hcic_ble_ltk_req_reply handle ltk
  | Le_ltk_req_neg_reply handle => btsnd_hcic_ble_ltk_req_neg_reply handle
  | Le_receiver_test rx_freq => btsnd_hcic_ble_receiver_test rx_freq
  | Le_transmitter_test tx_freq test_data_len payload => btsnd_hcic_ble_transmitter_test tx_freq
    test_data_len payload
  | Le_test_end => btsnd_hcic_ble_test_end
  | Le_read_host_supported => btsnd_hcic_ble_read_host_supported
  | Le_rc_param_req_reply handle conn_int_min conn_int_max conn_latency conn_timeout min_ce_len
    max_ce_len => btsnd_hcic_ble_rc_param_req_reply handle conn_int_min conn_int_max conn_latency
    conn_timeout min_ce_len max_ce_len
  | Le_rc_param_req_neg_reply handle reason => btsnd_hcic_ble_rc_param_req_neg_reply handle reason
  | Le_add_device_resolving_list addr_type_peer bda_peer irk_peer irk_local =>
    btsnd_hcic_ble_add_device_resolving_list addr_type_peer bda_peer irk_peer irk_local
  | Le_rm_device_resolving_list addr_type_peer bda_peer => btsnd_hcic_ble_rm_device_resolving_list
    addr_type_peer bda_peer
  | Le_set_privacy_mode addr_type_peer bda_peer privacy_type => btsnd_hcic_ble_set_privacy_mode
    addr_type_peer bda_peer privacy_type
  | Le_clear_resolving_list => btsnd_hcic_ble_clear_resolving_list
  | Le_read_resolvable_addr_peer addr_type_peer bda_peer =>
    btsnd_hcic_ble_read_resolvable_addr_peer addr_type_peer bda_peer
  | Le_read_resolvable_addr_local addr_type_peer bda_peer =>
    btsnd_hcic_ble_read_resolvable_addr_local addr_type_peer bda_peer
  | Le_set_addr_resolution_enable addr_resolution_enable =>
    btsnd_hcic_ble_set_addr_resolution_enable addr_resolution_enable
  | Le_set_rand_priv_addr_timeout rpa_timout => btsnd_hcic_ble_set_rand_priv_addr_timeout
    rpa_timout
  | Le_set_data_length conn_handle tx_octets tx_time => btsnd_hcic_ble_set_data_length conn_handle
    tx_octets tx_time
  | Le_enh_rx_test rx_chan phy mod_index => btsnd_hcic_ble_enh_rx_test rx_chan phy mod_index
  | Le_enh_tx_test tx_chan data_len payload phy => btsnd_hcic_ble_enh_tx_test tx_chan data_len
    payload phy
  | Le_set_extended_scan_enable enable filter_duplicates duration period =>
    btsnd_hcic_ble_set_extended_scan_enable enable filter_duplicates duration period
  | Le_encrypt key klen text plen cback => btsnd_hcic_ble_encrypt key klen text plen cback
  | Le_set_extended_scan_params own policy phys cfg =>
    btsnd_hcic_ble_set_extended_scan_params own policy phys cfg
  | Le_ext_create_conn policy own peer bda phys cfg =>
    btsnd_hcic_ble_ext_create_conn policy own peer bda phys cfg
  end.

Definition le_opcode (c : le_command) : Z :=
  match c with
  | Le_set_random_addr _ => HCI_BLE_WRITE_RANDOM_ADDR
  | Le_write_adv_params _ _ _ _ _ _ _ _ => HCI_BLE_WRITE_ADV_PARAMS
  | Le_read_adv_chnl_tx_power => HCI_BLE_READ_ADV_CHNL_TX_POWER
  | Le_set_adv_enable _ => HCI_BLE_WRITE_ADV_ENABLE
  | Le_set_scan_params _ _ _ _ _ => HCI_BLE_WRITE_SCAN_PARAMS
  | Le_set_scan_enable _ _ => HCI_BLE_WRITE_SCAN_ENABLE
  | Le_create_ll_conn _ _ _ _ _ _ _ _ _ _ _ _ => HCI_BLE_CREATE_LL_CONN
  | Le_create_conn_cancel => HCI_BLE_CREATE_CONN_CANCEL
  | Le_clear_white_list => HCI_BLE_CLEAR_WHITE_LIST
  | Le_add_white_list _ _ => HCI_BLE_ADD_WHITE_LIST
  | Le_remove_from_white_list _ _ => HCI_BLE_REMOVE_WHITE_LIST
  | Le_upd_ll_conn_params _ _ _ _ _ _ _ => HCI_BLE_UPD_LL_CONN_PARAMS
  | Le_set_host_chnl_class _ => HCI_BLE_SET_HOST_CHNL_CLASS
  | Le_read_chnl_map _ => HCI_BLE_READ_CHNL_MAP
  | Le_read_remote_feat _ => HCI_BLE_READ_REMOTE_FEAT
  | Le_start_enc _ _ _ _ => HCI_BLE_START_ENC
  | Le_ltk_req_reply _ _ => HCI_BLE_LTK_REQ_REPLY
  | Le_ltk_req_neg_reply _ => HCI_BLE_LTK_REQ_NEG_REPLY
  | Le_receiver_test _ => HCI_BLE_RECEIVER_TEST
  | Le_transmitter_test _ _ _ => HCI_BLE_TRANSMITTER_TEST
  | Le_test_end => HCI_BLE_TEST_END
  | Le_read_host_supported => HCI_READ_LE_HOST_SUPPORT
  | Le_rc_param_req_reply _ _ _ _ _ _ _ => HCI_BLE_RC_PARAM_REQ_REPLY
  | Le_rc_param_req_neg_reply _ _ => HCI_BLE_RC_PARAM_REQ_NEG_REPLY
  | Le_add_device_resolving_list _ _ _ _ => HCI_BLE_ADD_DEV_RESOLVING_LIST
  | Le_rm_device_resolving_list _ _ => HCI_BLE_RM_DEV_RESOLVING_LIST
  | Le_set_privacy_mode _ _ _ => HCI_BLE_SET_PRIVACY_MODE
  | Le_clear_resolving_list => HCI_BLE_CLEAR_RESOLVING_LIST
  | Le_read_resolvable_addr_peer _ _ => HCI_BLE_READ_RESOLVABLE_ADDR_PEER
  | Le_read_resolvable_addr_local _ _ => HCI_BLE_READ_RESOLVABLE_ADDR_LOCAL
  | Le_set_addr_resolution_enable _ => HCI_BLE_SET_ADDR_RESOLUTION_ENABLE
  | Le_set_rand_priv_addr_timeout _ => HCI_BLE_SET_RAND_PRIV_ADDR_TIMOUT
  | Le_set_data_length _ _ _ => HCI_BLE_SET_DATA_LENGTH
  | Le_enh_rx_test _ _ _ => HCI_BLE_ENH_RECEIVER_TEST
  | Le_enh_tx_test _ _ _ _ => HCI_BLE_ENH_TRANSMITTER_TEST
  | Le_set_extended_scan_enable _ _ _ _ => HCI_LE_SET_EXTENDED_SCAN_ENABLE
  | Le_encrypt _ _ _ _ _ => HCI_BLE_ENCRYPT
  | Le_set_extended_scan_params _ _ _ _ => HCI_LE_SET_EXTENDED_SCAN_PARAMETERS
  | Le_ext_create_conn _ _ _ _ _ _ => HCI_LE_EXTENDED_CREATE_CONNECTION
  end.

Definition le_fields (c : le_command) : list field :=
  match c with
  | Le_set_random_addr random_bda => [FAddr random_bda]
  | Le_write_adv_params adv_int_min adv_int_max adv_type addr_type_own addr_type_dir direct_bda
      channel_map adv_filter_policy => [F16 adv_int_min; F16 adv_int_max; F8 adv_type; F8
      addr_type_own; F8 addr_type_dir; FAddr direct_bda; F8 channel_map; F8 adv_filter_policy]
  | Le_read_adv_chnl_tx_power => []
  | Le_set_adv_enable adv_enable => [F8 adv_enable]
  | Le_set_scan_params scan_type scan_int scan_win addr_type_own scan_filter_policy => [F8
      scan_type; F16 scan_int; F16 scan_win; F8 addr_type_own; F8 scan_filter_policy]
  | Le_set_scan_enable scan_enable duplicate => [F8 scan_enable; F8 duplicate]
  | Le_create_ll_conn scan_int scan_win init_filter_policy addr_type_peer bda_peer addr_type_own
      conn_int_min conn_int_max conn_latency conn_timeout min_ce_len max_ce_len => [F16 scan_int;
      F16 scan_win; F8 init_filter_policy; F8 addr_type_peer; FAddr bda_peer; F8 addr_type_own;
      F16 conn_int_min; F16 conn_int_max; F16 conn_latency; F16 conn_timeout; F16 min_ce_len; F16
      max_ce_len]
  | Le_create_conn_cancel => []
  | Le_clear_white_list => []
  | Le_add_white_list addr_type bda => [F8 addr_type; FAddr bda]
  | Le_remove_from_white_list addr_type bda => [F8 addr_type; FAddr bda]
  | Le_upd_ll_conn_params handle conn_int_min conn_int_max conn_latency conn_timeout min_ce_len
      max_ce_len => [F16 handle; F16 conn_int_min; F16 conn_int_max; F16 conn_latency; F16
      conn_timeout; F16 min_ce_len; F16 max_ce_len]
  | Le_set_host_chnl_class chnl_map => [FOctets 5 chnl_map]
  | Le_read_chnl_map handle => [F16 handle]
  | Le_read_remote_feat handle => [F16 handle]
  | Le_start_enc handle rand ediv ltk => [F16 handle; FOctets 8 rand; F16 ediv; FOctets 16 ltk]
  | Le_ltk_req_reply handle ltk => [F16 handle; FOctets 16 ltk]
  | Le_ltk_req_neg_reply handle => [F16 handle]
  | Le_receiver_test rx_freq => [F8 rx_freq]
  | Le_transmitter_test tx_freq test_data_len payload => [F8 tx_freq; F8 test_data_len; F8
      payload]
  | Le_test_end => []
  | Le_read_host_supported => []
  | Le_rc_param_req_reply handle conn_int_min conn_int_max conn_latency conn_timeout min_ce_len
      max_ce_len => [F16 handle; F16 conn_int_min; F16 conn_int_max; F16 conn_latency; F16
      conn_timeout; F16 min_ce_len; F16 max_ce_len]
  | Le_rc_param_req_neg_reply handle reason => [F16 handle; F8 reason]
  | Le_add_device_resolving_list addr_type_peer bda_peer irk_peer irk_local => [F8 addr_type_peer;
      FAddr bda_peer; FOctets 16 irk_peer; FOctets 16 irk_local]
  | Le_rm_device_resolving_list addr_type_peer bda_peer => [F8 addr_type_peer; FAddr bda_peer]
  | Le_set_privacy_mode addr_type_peer bda_peer privacy_type => [F8 addr_type_peer; FAddr
      bda_peer; F8 privacy_type]
  | Le_clear_resolving_list => []
  | Le_read_resolvable_addr_peer addr_type_peer bda_peer => [F8 addr_type_peer; FAddr bda_peer]
  | Le_read_resolvable_addr_local addr_type_peer bda_peer => [F8 addr_type_peer; FAddr bda_peer]
  | Le_set_addr_resolution_enable addr_resolution_enable => [F8 addr_resolution_enable]
  | Le_set_rand_priv_addr_timeout rpa_timout => [F16 rpa_timout]
  | Le_set_data_length conn_handle tx_octets tx_time => [F16 conn_handle; F16 tx_octets; F16
      tx_time]
  | Le_enh_rx_test rx_chan phy mod_index => [F8 rx_chan; F8 phy; F8 mod_index]
  | Le_enh_tx_test tx_chan data_len payload phy => [F8 tx_chan; F8 data_len; F8 payload; F8 phy]
  | Le_set_extended_scan_enable enable filter_duplicates duration period => [F8 enable; F8
      filter_duplicates; F16 duration; F16 period]
  | Le_encrypt key klen text plen _ =>
      [FOctets 16 (pad16 (take (Z.to_nat klen) key)); FOctets 16 (pad16 (take (Z.to_nat plen) text))]
  | Le_set_extended_scan_params own policy phys cfg =>
      [F8 own; F8 policy; F8 phys] ++ (take (Z.to_nat (bit_count8 phys)) cfg ≫= scan_phy_fields)
  | Le_ext_create_conn policy own peer bda phys cfg =>
      [F8 policy; F8 own; F8 peer; FAddr bda; F8 phys] ++
      (take (Z.to_nat (bit_count8 phys)) cfg ≫= conn_phy_fields)
  end.

(** The arguments have their C types, and the arrays the entries the code reads. *)
Definition le_valid (c : le_command) : Prop :=
  Forall field_ok (le_fields c) ∧
  match c with
  | Le_encrypt key klen text plen cback =>
      in_width 8 klen ∧ in_width 8 plen ∧ length cback = sizeof_voidp ∧
      Z.min klen 16 <= Z.of_nat (length key) ∧ Z.min plen 16 <= Z.of_nat (length text)
  | Le_set_extended_scan_params _ _ phys cfg => bit_count8 phys <= Z.of_nat (length cfg)
  | Le_ext_create_conn _ _ _ _ phys cfg => bit_count8 phys <= Z.of_nat (length cfg)
  | _ => True
  end.
End commands.

(** ** The codec *)

Section codec_facts.
Context `{!BtMacros, !BtMacrosOk}.

Lemma encode_cons f fs : encode (f :: fs) = encode1 f ++ encode fs.
Proof. done. Qed.

Lemma encode1_length f : field_ok f → length (encode1 f) = kind_size (kind_of f).
Proof.
  destruct f; cbn; intros Hf; [apply wr8_length|apply wr16_length|by apply wr_bda_length|done].
Qed.

Lemma encode_length fs : Forall field_ok fs → length (encode fs) = size_of fs.
Proof.
  induction 1 as [|f fs Hf _ IH]; [done|].
  rewrite encode_cons, length_app, IH, encode1_length by done. done.
Qed.

Lemma decode1_encode1 f s : field_ok f → decode1 (kind_of f) (encode1 f ++ s) = f.
Proof.
  destruct f; cbn; intros Hf.
  - by rewrite rd_wr8, wrap_small.
  - by rewrite rd_wr16, wrap_small.
  - by rewrite rd_wr_bda.
  - by rewrite take_app_length'.
Qed.

Lemma decode_encode fs : Forall field_ok fs → decode (kind_of <$> fs) (encode fs) = Some fs.
Proof.
  induction 1 as [|f fs Hf _ IH]; [done|].
  rewrite fmap_cons, encode_cons. cbn [decode].
  pose proof (encode1_length f Hf) as Hl.
  rewrite bool_decide_eq_true_2 by (rewrite length_app; lia).
  rewrite drop_app_length', decode1_encode1, IH by done. done.
Qed.

Lemma encode_app a b : encode (a ++ b) = encode a ++ encode b.
Proof. unfold encode. apply bind_app. Qed.
End codec_facts.

(** ** The commands are sent as specified *)

Lemma writes_eq m a b : writes m a → a = b → writes m b.
Proof. by intros ? <-. Qed.

(** Find what a straight-line formatter writes. *)
Ltac writes_leaf :=
  first [ apply writes_put8 | apply writes_put16 | apply writes_put_bda | apply writes_ret
        | apply writes_put_array; lia ].
Ltac writes_auto := repeat (eapply writes_seq; [writes_leaf|]); writes_leaf.
Ltac encode_eq := cbn [le_fields scan_phy_fields conn_phy_fields encode mbind list_bind encode1]; rewrite ?app_nil_r; reflexivity.

Lemma bit_count8_bound x : 0 <= bit_count8 x <= 8.
Proof.
  unfold bit_count8. pose proof (length_filter (λ i, Z.testbit x i = true) (seqZ 0 8)) as Hl.
  rewrite length_seqZ in Hl. lia.
Qed.

Lemma size_of_app a b : size_of (a ++ b) = (size_of a + size_of b)%nat.
Proof.
  induction a as [|f a IH]; [done|].
  change (kind_size (kind_of f) + size_of (a ++ b) = kind_size (kind_of f) + size_of a + size_of b)%nat.
  lia.
Qed.

Lemma size_of_bind {A} (f : A → list field) k l :
  (∀ x, size_of (f x) = k) → size_of (l ≫= f) = (k * length l)%nat.
Proof.
  intros Hf. induction l as [|x l IH]; [cbn; lia|].
  cbn [mbind list_bind]. rewrite size_of_app, Hf, IH. cbn [length]. lia.
Qed.

(** The size of the parameters, the arrays included. *)
Lemma scan_params_size own policy phys cfg :
  bit_count8 phys <= Z.of_nat (length cfg) →
  Z.of_nat (size_of (le_fields (Le_set_extended_scan_params own policy phys cfg))) = 3 + 5 * bit_count8 phys.
Proof.
  intros Hl. pose proof (bit_count8_bound phys). cbn [le_fields].
  rewrite size_of_app, (size_of_bind _ 5) by done. rewrite length_take. cbn. lia.
Qed.

Lemma create_conn_size policy own peer bda phys cfg :
  bit_count8 phys <= Z.of_nat (length cfg) →
  Z.of_nat (size_of (le_fields (Le_ext_create_conn policy own peer bda phys cfg))) = 10 + 16 * bit_count8 phys.
Proof.
  intros Hl. pose proof (bit_count8_bound phys). cbn [le_fields].
  rewrite size_of_app, (size_of_bind _ 16) by done. rewrite length_take. cbn. lia.
Qed.

Section sends.
Context `{!BtMacros, !BtMacrosOk, !LeOpcodes, !HcicSizes, !HcicSizesOk}.

Lemma put_entries_writes {A} put (f : A → list field) n l :
  (∀ x, writes (put x) (encode (f x))) → (n ≤ length l)%nat →
  writes (put_entries put n l) (encode (take n l ≫= f)).
Proof.
  intros Hput. revert l. induction n as [|n IH]; intros l Hn; [apply writes_ret|].
  destruct l as [|x l]; cbn in Hn; [lia|]. cbn [put_entries take mbind list_bind].
  rewrite encode_app. apply writes_seq; [apply Hput|]. apply IH. lia.
Qed.

(** A command formatted in place, from what its formatter writes. *)
Lemma command_fields len op size body fs :
  writes body (wr16 op ++ wr8 size ++ encode fs) → Forall field_ok fs →
  len = HCIC_PREAMBLE_SIZE + size → size = Z.of_nat (size_of fs) → size < 256 →
  is_command (command len 0 body) op (encode fs).
Proof.
  intros Hb Hfs -> Hs Hlt. pose proof (encode_length fs Hfs) as Hl.
  eapply command_ok; [exact Hb|reflexivity|lia|lia].
Qed.

Lemma command_with_cb_fields op size body fs :
  writes body (encode fs) → Forall field_ok fs →
  size = Z.of_nat (size_of fs) → size < 256 →
  is_command (command_with_cb op size body) op (encode fs).
Proof.
  intros Hb Hfs Hs Hlt. pose proof (encode_length fs Hfs) as Hl.
  eapply command_with_cb_ok; [exact Hb|lia|lia].
Qed.

(** ** The functions one by one *)

Ltac sizes :=
  rewrite ?hcic_param_size_read_cmd_is, ?hcic_param_size_write_param1_is,
    ?hcic_param_size_write_param3_is, ?hcic_param_size_write_random_addr_cmd_is,
    ?hcic_param_size_ble_write_adv_params_is, ?hcic_param_size_write_adv_enable_is,
    ?hcic_param_size_ble_write_scan_param_is, ?hcic_param_size_ble_write_scan_enable_is,
    ?hcic_param_size_ble_create_ll_conn_is, ?hcic_param_size_ble_create_conn_cancel_is,
    ?hcic_param_size_add_white_list_is, ?hcic_param_size_remove_white_list_is,
    ?hcic_param_size_ble_upd_ll_conn_params_is, ?hcic_param_size_set_host_chnl_class_is,
    ?hcic_param_size_read_chnl_map_is, ?hcic_param_size_ble_read_remote_feat_is,
    ?hcic_param_size_ble_start_enc_is, ?hcic_param_size_ltk_req_reply_is,
    ?hcic_param_size_ltk_req_neg_reply_is, ?hcic_param_size_ble_rc_param_req_reply_is,
    ?hcic_param_size_ble_rc_param_req_neg_reply_is, ?hcic_param_size_ble_add_dev_resolving_list_is,
    ?hcic_param_size_ble_rm_dev_resolving_list_is, ?hcic_param_size_ble_set_privacy_mode_is,
    ?hcic_param_size_ble_clear_resolving_list_is, ?hcic_param_size_ble_read_resolvable_addr_peer_is,
    ?hcic_param_size_ble_read_resolvable_addr_local_is,
    ?hcic_param_size_ble_set_addr_resolution_enable_is,
    ?hcic_param_size_ble_set_rand_priv_addr_timout_is, ?hcic_param_size_ble_set_data_length_is,
    ?hcic_param_size_ble_enh_rx_test_is, ?hcic_param_size_ble_enh_tx_test_is.

(** The arrays of a valid command have the sizes the code copies. *)
Ltac field_lengths :=
  repeat match goal with
  | H : Forall field_ok (_ :: _) |- _ => inversion_clear H
  | H : field_ok (FOctets _ _) |- _ => cbn in H
  end;
  rewrite ?hcic_ble_chnl_map_size_is, ?hcic_ble_encryt_key_size_is, ?hcic_ble_rand_di_size_is.

Ltac head t := lazymatch t with ?f _ => head f | ?f => f end.
Ltac plain_command :=
  lazymatch goal with |- is_command ?t _ _ => let f := head t in unfold f end;
  first [ eapply command_with_cb_fields | eapply command_fields ];
  [ eapply writes_eq; [|symmetry; encode_eq]; field_lengths; writes_auto
  | done | try (sizes; reflexivity) ..].

Definition straight (c : le_command) : Prop :=
  match c with
  | Le_encrypt _ _ _ _ _ | Le_set_extended_scan_params _ _ _ _ | Le_ext_create_conn _ _ _ _ _ _ => False
  | _ => True
  end.

#[export] Instance straight_dec c : Decision (straight c).
Proof. destruct c; cbn; apply _. Defined.

Lemma straight_exact c : straight c → Forall field_ok (le_fields c) →
  is_command (le_send c) (le_opcode c) (encode (le_fields c)).
Proof.
  intros Hs Hf; destruct c; try done; cbn [le_fields] in Hf; cbn [le_send le_opcode].
  all: plain_command.
Qed.

Lemma set_extended_scan_params_exact own policy phys cfg :
  let c := Le_set_extended_scan_params own policy phys cfg in
  le_valid c → is_command (le_send c) (le_opcode c) (encode (le_fields c)).
Proof.
  intros c [Hf Hl]. subst c. change (bit_count8 phys <= Z.of_nat (length cfg)) in Hl.
  pose proof (scan_params_size own policy phys cfg Hl) as Hs.
  pose proof (bit_count8_bound phys).
  assert (u16 (3 + 5 * bit_count8 phys) = 3 + 5 * bit_count8 phys) as E
    by (apply wrap_small; unfold in_width; lia).
  cbn [le_send le_opcode]. unfold btsnd_hcic_ble_set_extended_scan_params. rewrite E.
  eapply command_fields; [|done|reflexivity|lia|lia].
  eapply writes_eq.
  { do 5 (eapply writes_seq; [writes_leaf|]).
    apply (put_entries_writes _ scan_phy_fields); [|lia].
    intros x. eapply writes_eq; [writes_auto|encode_eq]. }
  cbn [le_fields app]. by rewrite !encode_cons.
Qed.

Lemma ext_create_conn_exact policy own peer bda phys cfg :
  let c := Le_ext_create_conn policy own peer bda phys cfg in
  le_valid c → is_command (le_send c) (le_opcode c) (encode (le_fields c)).
Proof.
  intros c [Hf Hl]. subst c. change (bit_count8 phys <= Z.of_nat (length cfg)) in Hl.
  pose proof (create_conn_size policy own peer bda phys cfg Hl) as Hs.
  pose proof (bit_count8_bound phys).
  assert (u8 (10 + 16 * bit_count8 phys) = 10 + 16 * bit_count8 phys) as E
    by (apply wrap_small; unfold in_width; lia).
  cbn [le_send le_opcode]. unfold btsnd_hcic_ble_ext_create_conn. rewrite E.
  eapply command_fields; [|done|reflexivity|lia|lia].
  eapply writes_eq.
  { do 7 (eapply writes_seq; [writes_leaf|]).
    apply (put_entries_writes _ conn_phy_fields); [|lia].
    intros x. eapply writes_eq; [writes_auto|encode_eq]. }
  cbn [le_fields app]. by rewrite !encode_cons.
Qed.

(** ** LE Encrypt

    The key and the text are copied into a zeroed block, the writer skipping the
    rest of the key. *)

Lemma overwrite_mid at_ x a b r l : length a = length b →
  (at_ + length (x ++ b ++ r) ≤ length l)%nat →
  overwrite (at_ + length x) a (overwrite at_ (x ++ b ++ r) l) = overwrite at_ (x ++ a ++ r) l.
Proof.
  intros Hab Hl. unfold overwrite. rewrite !length_app, <- Hab in *. rewrite !fmap_app, <- !app_assoc.
  assert (length (take at_ l ++ (Some <$> x)) = at_ + length x)%nat as E.
  { rewrite length_app, length_take, length_fmap. lia. }
  rewrite !(app_assoc (take at_ l) (Some <$> x)).
  rewrite take_app_length' by done. f_equal. f_equal. rewrite <- E, drop_app_add.
  by rewrite drop_app_length' by (rewrite length_fmap; lia).
Qed.

Lemma pad16_length bs : length (pad16 bs) = 16%nat.
Proof. unfold pad16. rewrite length_take, length_app, length_replicate. lia. Qed.

Lemma pad16_app bs : (length bs ≤ 16)%nat → pad16 bs = bs ++ replicate (16 - length bs) 0.
Proof.
  intros Hl. unfold pad16. rewrite take_app, take_ge by done.
  by rewrite take_replicate, Nat.min_l by lia.
Qed.

(** The block that holds the key and the text, from the writer's position on. *)
Lemma encrypt_block key text b : (length key ≤ 16)%nat → (length text ≤ 16)%nat →
  (pp b + 32 ≤ length (cells b))%nat →
  (memset 0 32 ;; store key ;; skip (16 - length key) ;; store text) b =
  Ret tt (mk_cmdbuf (overwrite (pp b) (pad16 key ++ pad16 text) (cells b)) (pp b + 16 + length text)).
Proof.
  intros Hk Ht Hb. unfold memset, store, skip, mbind, M_bind.
  repeat (rewrite bool_decide_eq_true_2; cbn [pp cells];
    [|rewrite ?overwrite_length by (rewrite ?overwrite_length, ?length_replicate; rewrite ?length_replicate; lia);
      lia]).
  f_equal. f_equal; [|lia].
  replace 32%nat with (length key + (16 - length key) + (length text + (16 - length text)))%nat by lia.
  rewrite !replicate_add, <- !app_assoc.
  pose proof (overwrite_mid (pp b) [] key (replicate (length key) 0)
    (replicate (16 - length key) 0 ++ replicate (length text) 0 ++ replicate (16 - length text) 0) (cells b)) as E.
  cbn [app length] in E. rewrite Nat.add_0_r in E. rewrite E; clear E.
  2: by rewrite length_replicate.
  2: rewrite !length_app, !length_replicate; lia.
  rewrite app_assoc, <- pad16_app by done.
  replace (pp b + length key + (16 - length key))%nat with (pp b + length (pad16 key))%nat
    by (rewrite pad16_length; lia).
  rewrite overwrite_mid, (pad16_app text); [done|done|by rewrite length_replicate|].
  rewrite !length_app, pad16_length, !length_replicate. lia.
Qed.

(** The first three steps of a formatter run as a block. *)
Lemma bind_prefix {S A B C D} (m1 : M S A) (m2 : M S B) (m3 : M S C) (k : M S D) s c s' :
  (m1 ;; m2 ;; m3) s = Ret c s' → (m1 ;; m2 ;; m3 ;; k) s = k s'.
Proof.
  unfold mbind, M_bind. destruct (m1 s) as [? s1| | |]; try done.
  destruct (m2 s1) as [? s2| | |]; try done. by intros ->.
Qed.

Lemma bind_prefix2 {S A B D} (m1 : M S A) (m2 : M S B) (k : M S D) s c s' :
  (m1 ;; m2) s = Ret c s' → (m1 ;; m2 ;; k) s = k s'.
Proof. unfold mbind, M_bind. destruct (m1 s) as [? s1| | |]; try done. by intros ->. Qed.

Lemma clamp16 n : (if 16 <? n then 16 else n) = Z.min n 16.
Proof. destruct (Z.ltb_spec 16 n); lia. Qed.

Lemma pad16_long bs : (16 ≤ length bs)%nat → pad16 bs = take 16 bs.
Proof. intros Hl. unfold pad16. by rewrite take_app_le. Qed.

Lemma pad16_clamp n bs : 0 <= n → pad16 (take (Z.to_nat n) bs) = pad16 (take (Z.to_nat (Z.min n 16)) bs).
Proof.
  intros Hn. destruct (Z.leb_spec n 16) as [Hle|Hgt]; [by rewrite Z.min_l|].
  rewrite Z.min_r by lia. destruct (decide (length bs ≤ 16)%nat).
  - by rewrite !take_ge by lia.
  - rewrite !pad16_long, !take_take by (rewrite length_take; lia). f_equal. lia.
Qed.

Lemma put_array_store src n : 0 <= n <= Z.of_nat (length src) →
  put_array src n = store (take (Z.to_nat n) src).
Proof. intros Hn. unfold put_array. rewrite bool_decide_eq_true_2, wr_array_id by lia. done. Qed.

Lemma encrypt_exact key klen text plen cback :
  let c := Le_encrypt key klen text plen cback in
  le_valid c → is_command (le_send c) (le_opcode c) (encode (le_fields c)).
Proof.
  intros c (Hf & Hkl & Hpl & Hcb & Hk & Ht). subst c. unfold in_width in *.
  cbn [le_send le_opcode le_fields encode mbind list_bind encode1]. rewrite app_nil_r.
  rewrite (pad16_clamp klen), (pad16_clamp plen) by lia.
  unfold btsnd_hcic_ble_encrypt.
  rewrite hcic_ble_encryt_key_size_is, hcic_param_size_ble_encrypt_is, hcic_preamble_size_is, !clamp16.
  set (k := Z.min klen 16) in *. set (p := Z.min plen 16) in *.
  rewrite !put_array_store by lia.
  set (kb := take (Z.to_nat k) key). set (tb := take (Z.to_nat p) text).
  assert (length kb = Z.to_nat k) as Hkb by (unfold kb; rewrite length_take; lia).
  assert (length tb = Z.to_nat p) as Htb by (unfold tb; rewrite length_take; lia).
  replace (Z.to_nat (16 - k)) with (16 - length kb)%nat by lia.
  pose proof room_enough. pose proof room_voidp.
  split; [rewrite length_app, !pad16_length; lia|].
  (* the formatter, up to the block *)
  unfold command.
  set (pre := cback ++ wr16 HCI_BLE_ENCRYPT ++ wr8 32).
  assert (length pre = sizeof_voidp + 3)%nat as Hpre
    by (unfold pre; rewrite !length_app, wr16_length, wr8_length, Hcb; done).
  assert (writes (store cback ;; put16 HCI_BLE_ENCRYPT ;; put8 32) pre) as Hwp
    by (eapply writes_seq; [apply writes_store|writes_auto]).
  rewrite (bind_prefix _ _ _ _ _ _ _ (Hwp (fresh_buf cmd_room) ltac:(cbn; rewrite length_replicate; lia))).
  change (Z.to_nat 32) with 32%nat. rewrite encrypt_block; cbn [pp cells fresh_buf].
  2-3: lia.
  2: rewrite overwrite_length; rewrite length_replicate; lia.
  rewrite overwrite_app by (rewrite length_app, !pad16_length, length_replicate; lia).
  unfold packet; cbn [c_len c_offset c_cells]. unfold overwrite at 1. rewrite take_0; cbn [app Nat.add].
  unfold pre. rewrite !fmap_app, <- !app_assoc.
  rewrite drop_app_length' by (rewrite length_fmap; lia).
  rewrite !app_assoc, take_app_length'; [by rewrite <- !app_assoc, !length_app, !pad16_length|].
  rewrite !length_app, !length_fmap, !pad16_length, wr16_length, wr8_length.
  rewrite wrap_small by (unfold in_width; lia). lia.
Qed.

(** ** The contract *)

Lemma le_sends c : le_valid c → is_command (le_send c) (le_opcode c) (encode (le_fields c)).
Proof.
  intros Hv. destruct (decide (straight c)) as [Hs|Hs]; [apply straight_exact; [done|apply Hv]|].
  destruct c; try (contradict Hs; exact I); auto using encrypt_exact,
    set_extended_scan_params_exact, ext_create_conn_exact.
Qed.

(** A controller that reads the parameters of a command field by field gets back
    the arguments of the call. *)
Theorem le_command_read_back c : le_valid c → ∃ params,
  is_command (le_send c) (le_opcode c) params ∧
  decode (kind_of <$> le_fields c) params = Some (le_fields c).
Proof.
  intros Hv. exists (encode (le_fields c)). split; [by apply le_sends|]. apply decode_encode, Hv.
Qed.

(** ** Advertising data

    The block of the data is one byte longer than what is zeroed. *)

Definition adv_payload (data_len : Z) (p_data : option bytes) : bytes :=
  match p_data with
  | Some d => if 0 <? data_len
      then let n := Z.min data_len 31 in wr8 n ++ take (Z.to_nat n) d else []
  | None => []
  end.

(** The 32 cells of the parameters, for a payload of at most 32 bytes. *)
Definition adv_cells (payload : bytes) : list (option Z) :=
  (Some <$> payload ++ replicate (31 - length payload) 0) ++ replicate (32 - (length payload `max` 31)) None.

Lemma overwrite_over at_ a b l : (length b ≤ length a)%nat → (at_ + length b ≤ length l)%nat →
  overwrite at_ a (overwrite at_ b l) = overwrite at_ a l.
Proof.
  intros Hab Hl. unfold overwrite. rewrite take_app_length' by (rewrite length_take; lia).
  do 2 f_equal. rewrite app_assoc.
  assert (length (take at_ l ++ (Some <$> b)) = at_ + length b)%nat as E
    by (rewrite length_app, length_take, length_fmap; lia).
  rewrite drop_app_ge, E, drop_drop by (rewrite E; lia). f_equal. lia.
Qed.

Lemma put_adv_run data_len p_data b :
  in_width 8 data_len →
  (∀ d, p_data = Some d → Z.min data_len 31 <= Z.of_nat (length d)) →
  (pp b + 32 ≤ length (cells b))%nat →
  put_adv 31 data_len p_data b =
  let p := adv_payload data_len p_data in
  Ret tt (mk_cmdbuf (overwrite (pp b) (p ++ replicate (31 - length p) 0) (cells b)) (pp b + length p)).
Proof.
  intros Hw Hd Hb. unfold in_width in Hw. unfold put_adv, adv_payload.
  assert (memset 0 31 b = Ret tt (mk_cmdbuf (overwrite (pp b) (replicate 31 0) (cells b)) (pp b))) as Hm.
  { unfold memset. by rewrite bool_decide_eq_true_2 by lia. }
  unfold mbind at 1, M_bind at 1. change (Z.to_nat 31) with 31%nat. rewrite Hm.
  destruct p_data as [d|]; [|cbn [length app]; rewrite Nat.add_0_r; done].
  destruct (Z.ltb_spec 0 data_len) as [Hpos|]; [|cbn [length app]; rewrite Nat.add_0_r; done].
  specialize (Hd d eq_refl).
  replace (if 31 <? data_len then 31 else data_len) with (Z.min data_len 31)
    by (destruct (Z.ltb_spec 31 data_len); lia).
  set (n := Z.min data_len 31) in *. set (pl := wr8 n ++ take (Z.to_nat n) d).
  assert (length pl = S (Z.to_nat n)) as Hpl
    by (unfold pl; rewrite length_app, wr8_length, length_take; lia).
  assert (writes (put8 n ;; put_array d n) pl) as Hwr
    by (apply writes_seq; [apply writes_put8|apply writes_put_prefix; lia]).
  rewrite Hwr by (cbn [pp cells]; rewrite overwrite_length by (rewrite length_replicate; lia); lia).
  cbn [pp cells]. f_equal. f_equal. clear Hwr Hm.
  destruct (decide (Z.to_nat n = 31%nat)) as [E|E].
  - rewrite overwrite_over by (rewrite ?length_replicate; lia).
    rewrite Hpl, E. cbn [Nat.sub replicate]. by rewrite app_nil_r.
  - pose proof (overwrite_mid (pp b) [] pl (replicate (length pl) 0) (replicate (31 - length pl) 0) (cells b)) as Eo.
    cbn [app length] in Eo. rewrite Nat.add_0_r in Eo. rewrite <- Eo.
    + rewrite <- replicate_add. do 3 f_equal. lia.
    + by rewrite length_replicate.
    + rewrite length_app, !length_replicate. lia.
Qed.

Definition adv_command (r : option sent) (op : Z) (data_len : Z) (data : option bytes) : Prop :=
  ∃ c, r = Some (SendCmd c) ∧
  packet c = (Some <$> wr16 op ++ wr8 32) ++ adv_cells (adv_payload data_len data).

Lemma adv_command_ok op data_len data :
  in_width 8 data_len →
  (∀ d, data = Some d → Z.min data_len 31 <= Z.of_nat (length d)) →
  adv_command (command (3 + 31 + 1) 0 (put16 op ;; put8 (31 + 1) ;; put_adv 31 data_len data))
    op data_len data.
Proof.
  intros Hw Hd. pose proof room_enough. unfold command.
  assert (writes (put16 op ;; put8 (31 + 1)) (wr16 op ++ wr8 32)) as Hwp by writes_auto.
  rewrite (bind_prefix2 _ _ _ _ _ _ (Hwp (fresh_buf cmd_room)
    ltac:(cbn; rewrite length_replicate, length_app, wr16_length, wr8_length; lia))).
  assert (length (wr16 op ++ wr8 32) = 3%nat) as Hl by (by rewrite length_app, wr16_length, wr8_length).
  rewrite put_adv_run; cbn [pp cells fresh_buf].
  2-3: done.
  2: rewrite overwrite_length; rewrite length_replicate; lia.
  cbv zeta. eexists. split; [reflexivity|].
  set (p := adv_payload data_len data).
  assert (length p ≤ 32)%nat as Hp.
  { unfold p, adv_payload. destruct data as [d|]; [|cbn; lia].
    destruct (0 <? data_len); [|cbn; lia]. rewrite length_app, wr8_length, length_take. lia. }
  rewrite overwrite_app.
  2: rewrite !length_app, !length_replicate, wr16_length, wr8_length; lia.
  unfold packet; cbn [c_len c_offset c_cells]. rewrite drop_0. unfold overwrite.
  rewrite take_0; cbn [app Nat.add]. rewrite drop_replicate. unfold adv_cells.
  rewrite (fmap_app _ (wr16 op ++ wr8 32)), <- !app_assoc.
  rewrite wrap_small by (unfold in_width; lia). change (Z.to_nat (3 + 31 + 1)) with 35%nat.
  rewrite (take_app_ge (Some <$> wr16 op ++ wr8 32)), length_fmap, Hl by (rewrite length_fmap, Hl; lia).
  f_equal. rewrite take_app_ge, length_fmap, length_app, length_replicate
    by (rewrite length_fmap, length_app, length_replicate; lia).
  f_equal. rewrite take_replicate. f_equal.
  rewrite !length_app, length_replicate, wr16_length, wr8_length. lia.
Qed.

(** Setting the advertising data, or the scan response, sends the operation
    code, a parameter length of 32, the length of the data clamped to 31, the
    data and zeros; the last of the 32 bytes is sent uninitialised unless the
    data fills the block, because [memset] clears one byte less than is sent. *)
Theorem adv_data_exact data_len data :
  in_width 8 data_len →
  (∀ d, data = Some d → Z.min data_len 31 <= Z.of_nat (length d)) →
  adv_command (btsnd_hcic_ble_set_adv_data data_len data) HCI_BLE_WRITE_ADV_DATA data_len data ∧
  adv_command (btsnd_hcic_ble_set_scan_rsp_data data_len data) HCI_BLE_WRITE_SCAN_RSP_DATA data_len data ∧
  (None ∈ adv_cells (adv_payload data_len data) ↔ (data = None ∨ data_len < 31)).
Proof.
  intros Hw Hd. split_and!.
  - unfold btsnd_hcic_ble_set_adv_data.
    rewrite hcic_preamble_size_is, hcic_param_size_ble_write_adv_data_is. by apply adv_command_ok.
  - unfold btsnd_hcic_ble_set_scan_rsp_data.
    rewrite hcic_preamble_size_is, hcic_param_size_ble_write_scan_rsp_is. by apply adv_command_ok.
  - unfold adv_cells. rewrite elem_of_app, elem_of_replicate, list_elem_of_fmap.
    assert (length (adv_payload data_len data) = 32%nat ↔ ¬ (data = None ∨ data_len < 31)) as Hlen.
    { unfold adv_payload, in_width in *. destruct data as [d|]; [|cbn; intuition congruence].
      specialize (Hd d eq_refl). destruct (Z.ltb_spec 0 data_len); [|cbn; intuition (lia || congruence)].
      rewrite length_app, wr8_length, length_take. intuition (lia || congruence). }
    assert (length (adv_payload data_len data) ≤ 32)%nat.
    { unfold adv_payload. destruct data as [d|]; [|cbn; lia].
      destruct (0 <? data_len); [|cbn; lia]. rewrite length_app, wr8_length, length_take. lia. }
    split.
    + intros [(x & ? & _)|[_ Hne]]; [done|]. destruct data as [d|]; [|by left].
      destruct (decide (data_len < 31)); [by right|].
      exfalso. apply Hne. rewrite (proj2 Hlen); [done|]. intros [?|?]; [done|lia].
    + intros Hc. right. split; [done|].
      assert (length (adv_payload data_len data) ≠ 32%nat) by tauto. lia.
Qed.

(** ** The other two functions *)

(** [btsnd_hcic_ble_set_local_used_feat] leaves out the length of the
    parameters: for every set of eight features the packet holds the first
    feature where the length belongs, and its last byte is not initialised. *)
Theorem local_used_feat_malformed feat_set : length feat_set = 8%nat →
  ∃ c, btsnd_hcic_ble_set_local_used_feat feat_set = Some (SendCmd c) ∧
    packet c = (Some <$> wr16 HCI_BLE_WRITE_LOCAL_SPT_FEAT ++ feat_set) ++ [None].
Proof.
  intros Hl. pose proof room_enough. unfold btsnd_hcic_ble_set_local_used_feat, command.
  rewrite hcic_preamble_size_is, hcic_param_size_set_used_feat_cmd_is.
  assert (writes (put16 HCI_BLE_WRITE_LOCAL_SPT_FEAT ;; put_array feat_set 8)
    (wr16 HCI_BLE_WRITE_LOCAL_SPT_FEAT ++ feat_set)) as Hw by writes_auto.
  assert (length (wr16 HCI_BLE_WRITE_LOCAL_SPT_FEAT ++ feat_set) = 10%nat) as H10
    by (rewrite length_app, wr16_length; lia).
  rewrite (writes_fresh _ _ _ Hw) by lia. eexists. split; [reflexivity|].
  unfold packet; cbn [c_len c_offset c_cells cells]. rewrite drop_0, H10.
  change (Z.to_nat (u16 (3 + 8))) with 11%nat.
  rewrite take_app_ge, length_fmap, H10, take_replicate by (rewrite length_fmap; lia).
  by rewrite Nat.min_l by lia.
Qed.

Lemma rand_sends urandom : ∃ s, btsnd_hcic_ble_rand true urandom = RandAsked s ∧ is_command s HCI_BLE_RAND [].
Proof. eexists. split; [reflexivity|]. apply command_with_cb_ok; [apply writes_ret|done|cbn; lia]. Qed.

End sends.

Section rand.
Context `{!BtMacros, !LeOpcodes, !HcicSizes}.

(** A random number is eight bytes the controller returned with status 0, when
    it supports LE, or eight bytes read from [/dev/urandom]; when neither is to
    be had the callback is not run.  Nothing else is delivered, whatever the
    controller answers: a short answer or an error status falls back to the
    host's generator. *)
Theorem rand_exact urandom param :
  (∀ r, btsnd_hcic_ble_rand false urandom = RandDelivered r ↔ urandom = Some r ∧ length r = BT_OCTET8_LEN) ∧
  (∀ s, btsnd_hcic_ble_rand false urandom ≠ RandAsked s) ∧
  btsnd_hcic_ble_rand true urandom = RandAsked (Some (SendWithCb HCI_BLE_RAND [])) ∧
  (∀ r, rand_complete param urandom = RandDelivered r ↔
     (∃ rest, param = 0 :: r ++ rest ∧ length r = BT_OCTET8_LEN) ∨
     (¬ (∃ r' rest, param = 0 :: r' ++ rest ∧ length r' = BT_OCTET8_LEN) ∧
      urandom = Some r ∧ length r = BT_OCTET8_LEN)) ∧
  (∀ s, rand_complete param urandom ≠ RandAsked s).
Proof.
  assert (∀ r, btsnd_hcic_ble_rand_from_host urandom = RandDelivered r ↔
    urandom = Some r ∧ length r = BT_OCTET8_LEN) as Hhost.
  { intros r. unfold btsnd_hcic_ble_rand_from_host. destruct urandom as [got|]; [|naive_solver].
    case_bool_decide; naive_solver. }
  assert (∀ s, btsnd_hcic_ble_rand_from_host urandom ≠ RandAsked s) as Hask.
  { intros s. unfold btsnd_hcic_ble_rand_from_host. destruct urandom; [case_bool_decide|]; done. }
  split_and!; [exact Hhost|exact Hask|done| |].
  - intros r. unfold rand_complete. destruct param as [|st param]; [|change (default 0 ((st :: param) !! 0%nat)) with st].
    { rewrite bool_decide_eq_true_2 by (cbn; lia). cbn [orb]. rewrite Hhost. naive_solver. }
    destruct (Z.eqb_spec st 0) as [->|Hst]; cbn [negb].
    + case_bool_decide as Hlen; cbn [orb]; cbn in Hlen.
      * rewrite Hhost. split; [|intros [(rest & E & Hr)|(_ & ?)]; [|done]].
        { intros ?. right. split; [|done]. intros (r' & rest & E & Hr). injection E as ->.
          rewrite length_app in Hlen. lia. }
        injection E as ->. rewrite length_app in Hlen. lia.
      * change (drop 1 (0 :: param)) with (drop 0 param). rewrite drop_0. split.
        { intros E. injection E as <-. left. exists (drop BT_OCTET8_LEN param).
          rewrite take_drop. split; [done|]. rewrite length_take. lia. }
        intros [(rest & E & Hr)|(Hn & _)].
        { injection E as ->. by rewrite take_app_length'. }
        exfalso. apply Hn. exists (take BT_OCTET8_LEN param), (drop BT_OCTET8_LEN param).
        rewrite take_drop, length_take. split; [done|lia].
    + rewrite orb_true_r, Hhost. naive_solver.
  - intros s. unfold rand_complete. destruct (_ || _); [apply Hask|done].
Qed.
End rand.
