(* ===== verification/HciParser.v ===== *)
(** * Bluetooth: parsing the answers to commands ([hci/src/hci_packet_parser.cc])

    One definition per [parse_*] function.  A parser reads a stream of bytes:
    reading past its end, or through the null pointer that
    [read_command_complete_header] returns for an answer that is not a
    successful Command Complete, is undefined behaviour; a failing [CHECK]
    aborts the process.  The state counts the calls that free the response. *)

From S2P Require Import Prelude CMonad BtTypes.

(** Event codes, status and operation codes of [hcidefs.h]. *)
Class HciDefs : Type := {
  HCI_COMMAND_COMPLETE_EVT : Z; HCI_SUCCESS : Z;
  HCI_READ_BUFFER_SIZE : Z; HCI_READ_LOCAL_VERSION_INFO : Z; HCI_READ_LOCAL_SUPPORTED_CODECS : Z;
  HCI_READ_BD_ADDR : Z; HCI_READ_LOCAL_SUPPORTED_CMDS : Z; HCI_READ_LOCAL_EXT_FEATURES : Z;
  HCI_BLE_READ_WHITE_LIST_SIZE : Z; HCI_BLE_READ_BUFFER_SIZE : Z; HCI_BLE_READ_SUPPORTED_STATES : Z;
  HCI_BLE_READ_LOCAL_SPT_FEAT : Z; HCI_BLE_READ_RESOLVING_LIST_SIZE : Z;
  HCI_BLE_READ_DEFAULT_DATA_LENGTH : Z; HCI_BLE_READ_MAXIMUM_DATA_LENGTH : Z;
  HCI_LE_READ_MAXIMUM_ADVERTISING_DATA_LENGTH : Z;
  HCI_LE_READ_NUMBER_OF_SUPPORTED_ADVERTISING_SETS : Z
}.

(** ** The stream *)

(** [stream] is [None] when the pointer is null. *)
Record pst : Type := mk_pst { stream : option bytes; frees : nat }.

(** [CHECK(b)] and the abort it ends in. *)
Definition ABORTED : Z := 134.
Definition check {S} (b : bool) : M S unit := if b then mret tt else exit ABORTED.

Definition NO_OPCODE_CHECKING : Z := 0.
Definition FEATURES_SIZE : nat := 8.

Record bt_version_t : Type := mk_bt_version {
  hci_version : Z; hci_revision : Z; lmp_version : Z; manufacturer : Z; lmp_subversion : Z }.

Section parser.
Context `{!BtMacros, !HciDefs}.

(** Read [n] bytes with [f] and advance. *)
Definition read_with {A} (n : nat) (f : bytes → A) : M pst A := λ s,
  match stream s with
  | Some bs =>
      if bool_decide (n ≤ length bs)%nat then Ret (f bs) (mk_pst (Some (drop n bs)) (frees s))
      else Undefined
  | None => Undefined
  end.

Definition read8 : M pst Z := read_with 1 rd8.
Definition read16 : M pst Z := read_with 2 rd16.
Definition read_bdaddr : M pst bytes := read_with BD_ADDR_LEN rd_bda.
Definition read_array (n : nat) : M pst bytes := read_with n (take n).
(** [STREAM_SKIP_UINT8] only moves the pointer. *)
Definition skip8 : M pst unit := read_with 1 (λ _, tt).

Definition free_response : M pst unit := modify (λ s, mk_pst (stream s) (S (frees s))).
(** Return a null stream. *)
Definition return_null : M pst bool := modify (λ s, mk_pst None (frees s)) ;; mret false.

(** [true] is a stream at the byte after the status, [false] the null pointer. *)
Definition read_command_complete_header (expected_opcode : Z) (minimum_bytes_after : Z) : M pst bool :=
  event_code ← read8;
  parameter_length ← read8;
  if negb (event_code =? HCI_COMMAND_COMPLETE_EVT) then return_null else
  check (4 + minimum_bytes_after <=? parameter_length) ;;
  skip8 ;;
  opcode ← read16;
  (if negb (expected_opcode =? NO_OPCODE_CHECKING) then check (opcode =? expected_opcode) else mret tt) ;;
  status ← read8;
  if negb (status =? HCI_SUCCESS) then return_null else mret true.

(** A parser that cannot do without the answer: [CHECK(stream != NULL)]. *)
Definition mandatory_header (op n : Z) : M pst unit :=
  ok ← read_command_complete_header op n; check ok.

(** A parser of [A] is run on the bytes of the response. *)
Definition run_parser {A} (m : M pst A) (response : bytes) : outcome pst A := m (mk_pst (Some response) 0).

(** ** The parsers *)

Definition parse_generic_command_complete : M pst unit :=
  read_command_complete_header NO_OPCODE_CHECKING 0 ;; free_response.

Definition parse_read_buffer_size_response : M pst (Z * Z) :=
  mandatory_header HCI_READ_BUFFER_SIZE 5 ;;
  data_size ← read16;
  skip8 ;;
  acl_buffer_count ← read16;
  free_response ;;
  mret (data_size, acl_buffer_count).

Definition parse_read_local_version_info_response : M pst bt_version_t :=
  mandatory_header HCI_READ_LOCAL_VERSION_INFO 8 ;;
  hv ← read8;
  hr ← read16;
  lv ← read8;
  mf ← read16;
  ls ← read16;
  free_response ;;
  mret (mk_bt_version hv hr lv mf ls).

(** The codecs are stored one by one in the caller's array, whose size the
    function does not know: a store past its end is undefined. *)
Fixpoint store_codecs (i n : nat) (codecs : bytes) : M pst bytes :=
  match n with
  | O => mret codecs
  | S n' =>
      c ← read8;
      require (bool_decide (i < length codecs)%nat) ;;
      store_codecs (S i) n' (<[i := c]> codecs)
  end.

(** The new number and array, [None] when the answer was refused. *)
Definition parse_read_local_supported_codecs_response (codecs : bytes) : M pst (option (Z * bytes)) :=
  ok ← read_command_complete_header HCI_READ_LOCAL_SUPPORTED_CODECS 0;
  r ← (if (ok : bool) then
         n ← read8;
         cs ← store_codecs 0 (Z.to_nat n) codecs;
         mret (Some (n, cs))
       else mret None);
  free_response ;;
  mret r.

Definition parse_ble_read_offload_features_response : M pst bool :=
  ok ← read_command_complete_header NO_OPCODE_CHECKING 0;
  free_response ;;
  mret ok.

Definition parse_read_bd_addr_response : M pst bytes :=
  mandatory_header HCI_READ_BD_ADDR (Z.of_nat BD_ADDR_LEN) ;;
  address ← read_bdaddr;
  free_response ;;
  mret address.

Definition parse_read_local_supported_commands_response (supported_commands_length : nat) : M pst bytes :=
  mandatory_header HCI_READ_LOCAL_SUPPORTED_CMDS (Z.of_nat supported_commands_length) ;;
  cmds ← read_array supported_commands_length;
  free_response ;;
  mret cmds.

(** The page number, the last page number and the pages. *)
Definition parse_read_local_extended_features_response (feature_pages : list bytes)
    : M pst (Z * Z * list bytes) :=
  mandatory_header HCI_READ_LOCAL_EXT_FEATURES (2 + Z.of_nat FEATURES_SIZE) ;;
  page_number ← read8;
  max_page_number ← read8;
  check (page_number <? Z.of_nat (length feature_pages)) ;;
  page ← read_array FEATURES_SIZE;
  free_response ;;
  mret (page_number, max_page_number, <[Z.to_nat page_number := page]> feature_pages).

Definition parse_ble_read_white_list_size_response : M pst Z :=
  mandatory_header HCI_BLE_READ_WHITE_LIST_SIZE 1 ;;
  n ← read8;
  free_response ;;
  mret n.

Definition parse_ble_read_buffer_size_response : M pst (Z * Z) :=
  mandatory_header HCI_BLE_READ_BUFFER_SIZE 3 ;;
  data_size ← read16;
  acl_buffer_count ← read8;
  free_response ;;
  mret (data_size, acl_buffer_count).

Definition parse_ble_read_supported_states_response (supported_states_size : nat) : M pst bytes :=
  mandatory_header HCI_BLE_READ_SUPPORTED_STATES (Z.of_nat supported_states_size) ;;
  states ← read_array supported_states_size;
  free_response ;;
  mret states.

Definition parse_ble_read_local_supported_features_response : M pst bytes :=
  mandatory_header HCI_BLE_READ_LOCAL_SPT_FEAT (Z.of_nat FEATURES_SIZE) ;;
  features ← read_array FEATURES_SIZE;
  free_response ;;
  mret features.

(** The next five read through the result without checking it. *)
Definition parse_ble_read_resolving_list_size_response : M pst Z :=
  read_command_complete_header HCI_BLE_READ_RESOLVING_LIST_SIZE 1 ;;
  n ← read8;
  free_response ;;
  mret n.

Definition parse_ble_read_suggested_default_data_length_response : M pst Z :=
  read_command_complete_header HCI_BLE_READ_DEFAULT_DATA_LENGTH 2 ;;
  n ← read16;
  free_response ;;
  mret n.

Definition parse_ble_read_maximum_data_length_response : M pst (Z * Z * Z * Z) :=
  read_command_complete_header HCI_BLE_READ_MAXIMUM_DATA_LENGTH 8 ;;
  tx_octets ← read16;
  tx_time ← read16;
  rx_octets ← read16;
  rx_time ← read16;
  free_response ;;
  mret (tx_octets, tx_time, rx_octets, rx_time).

Definition parse_ble_read_maximum_advertising_data_length : M pst Z :=
  read_command_complete_header HCI_LE_READ_MAXIMUM_ADVERTISING_DATA_LENGTH 2 ;;
  n ← read16;
  free_response ;;
  mret n.

Definition parse_ble_read_number_of_supported_advertising_sets : M pst Z :=
  read_command_complete_header HCI_LE_READ_NUMBER_OF_SUPPORTED_ADVERTISING_SETS 1 ;;
  n ← read8;
  free_response ;;
  mret n.
End parser.
