(* ===== verification/HciParserSpec.v ===== *)
(** * Bluetooth: what the parsers promise

    The answers a controller gives, as values and as bytes; the parsers recover
    the values, free the response once, and stay inside it when the event is as
    long as it says.  What each does with an answer that is refused. *)

From S2P Require Import Prelude CMonad BtTypes HciBuf HciCmds HciCmdsSpec HciParser.

(** ** Answers *)

(** A parser with the arguments it is called with. *)
Inductive answer_kind : Type :=
  | KGeneric | KBufferSize | KVersion | KAddress | KCommands (n : nat) | KPages (pages : list bytes)
  | KWhiteList | KLeBufferSize | KStates (n : nat) | KLeFeatures | KCodecs (codecs : bytes) | KOffload
  | KResolvingList | KDefaultLength | KMaximumLength | KAdvLength | KAdvSets.

Inductive answer : Type :=
  | AGeneric
  | ABufferSize (data_size count : Z)
  | AVersion (v : bt_version_t)
  | AAddress (a : bytes)
  | AArray (bs : bytes)
  | APages (page last : Z) (pages : list bytes)
  | ANumber (n : Z)
  | AMaximumLength (tx_octets tx_time rx_octets rx_time : Z)
  | ACodecs (r : option (Z * bytes))
  | AOffload (b : bool).

Section answers.
Context `{!BtMacros, !HciDefs}.

Definition parse_answer (k : answer_kind) : M pst answer :=
  match k with
  | KGeneric => parse_generic_command_complete ;; mret AGeneric
  | KBufferSize => r ← parse_read_buffer_size_response; mret (ABufferSize r.1 r.2)
  | KVersion => r ← parse_read_local_version_info_response; mret (AVersion r)
  | KAddress => r ← parse_read_bd_addr_response; mret (AAddress r)
  | KCommands n => r ← parse_read_local_supported_commands_response n; mret (AArray r)
  | KPages pages => r ← parse_read_local_extended_features_response pages; mret (APages r.1.1 r.1.2 r.2)
  | KWhiteList => r ← parse_ble_read_white_list_size_response; mret (ANumber r)
  | KLeBufferSize => r ← parse_ble_read_buffer_size_response; mret (ABufferSize r.1 r.2)
  | KStates n => r ← parse_ble_read_supported_states_response n; mret (AArray r)
  | KLeFeatures => r ← parse_ble_read_local_supported_features_response; mret (AArray r)
  | KCodecs codecs => r ← parse_read_local_supported_codecs_response codecs; mret (ACodecs r)
  | KOffload => r ← parse_ble_read_offload_features_response; mret (AOffload r)
  | KResolvingList => r ← parse_ble_read_resolving_list_size_response; mret (ANumber r)
  | KDefaultLength => r ← parse_ble_read_suggested_default_data_length_response; mret (ANumber r)
  | KMaximumLength =>
      r ← parse_ble_read_maximum_data_length_response; mret (AMaximumLength r.1.1.1 r.1.1.2 r.1.2 r.2)
  | KAdvLength => r ← parse_ble_read_maximum_advertising_data_length; mret (ANumber r)
  | KAdvSets => r ← parse_ble_read_number_of_supported_advertising_sets; mret (ANumber r)
  end.

(** The operation code an answer of the kind has; the generic ones may have any. *)
Definition answers_to (k : answer_kind) (op : Z) : Prop :=
  match k with
  | KGeneric | KOffload => True
  | KBufferSize => op = HCI_READ_BUFFER_SIZE
  | KVersion => op = HCI_READ_LOCAL_VERSION_INFO
  | KAddress => op = HCI_READ_BD_ADDR
  | KCommands _ => op = HCI_READ_LOCAL_SUPPORTED_CMDS
  | KPages _ => op = HCI_READ_LOCAL_EXT_FEATURES
  | KWhiteList => op = HCI_BLE_READ_WHITE_LIST_SIZE
  | KLeBufferSize => op = HCI_BLE_READ_BUFFER_SIZE
  | KStates _ => op = HCI_BLE_READ_SUPPORTED_STATES
  | KLeFeatures => op = HCI_BLE_READ_LOCAL_SPT_FEAT
  | KCodecs _ => op = HCI_READ_LOCAL_SUPPORTED_CODECS
  | KResolvingList => op = HCI_BLE_READ_RESOLVING_LIST_SIZE
  | KDefaultLength => op = HCI_BLE_READ_DEFAULT_DATA_LENGTH
  | KMaximumLength => op = HCI_BLE_READ_MAXIMUM_DATA_LENGTH
  | KAdvLength => op = HCI_LE_READ_MAXIMUM_ADVERTISING_DATA_LENGTH
  | KAdvSets => op = HCI_LE_READ_NUMBER_OF_SUPPORTED_ADVERTISING_SETS
  end.

(** The fields of the return parameters that carry an answer. *)
Inductive carries : answer_kind → answer → list field → Prop :=
  | carries_generic : carries KGeneric AGeneric []
  | carries_offload : carries KOffload (AOffload true) []
  | carries_buffer d sco n : carries KBufferSize (ABufferSize d n) [F16 d; F8 sco; F16 n]
  | carries_version hv hr lv mf ls :
      carries KVersion (AVersion (mk_bt_version hv hr lv mf ls)) [F8 hv; F16 hr; F8 lv; F16 mf; F16 ls]
  | carries_address a : carries KAddress (AAddress a) [FAddr a]
  | carries_commands n bs : carries (KCommands n) (AArray bs) [FOctets n bs]
  | carries_pages pages p l page : p < Z.of_nat (length pages) →
      carries (KPages pages) (APages p l (<[Z.to_nat p := page]> pages)) [F8 p; F8 l; FOctets 8 page]
  | carries_white n : carries KWhiteList (ANumber n) [F8 n]
  | carries_le_buffer d n : carries KLeBufferSize (ABufferSize d n) [F16 d; F8 n]
  | carries_states n bs : carries (KStates n) (AArray bs) [FOctets n bs]
  | carries_features bs : carries KLeFeatures (AArray bs) [FOctets 8 bs]
  | carries_codecs old new : (length new ≤ length old)%nat →
      carries (KCodecs old) (ACodecs (Some (Z.of_nat (length new), new ++ drop (length new) old)))
        (F8 (Z.of_nat (length new)) :: (F8 <$> new))
  | carries_resolving n : carries KResolvingList (ANumber n) [F8 n]
  | carries_default n : carries KDefaultLength (ANumber n) [F16 n]
  | carries_maximum a b c d : carries KMaximumLength (AMaximumLength a b c d) [F16 a; F16 b; F16 c; F16 d]
  | carries_adv n : carries KAdvLength (ANumber n) [F16 n]
  | carries_sets n : carries KAdvSets (ANumber n) [F8 n].

(** A Command Complete event. *)
Definition complete_event (ncmd op status : Z) (params : bytes) : bytes :=
  wr8 HCI_COMMAND_COMPLETE_EVT ++ wr8 (4 + Z.of_nat (length params)) ++
  wr8 ncmd ++ wr16 op ++ wr8 status ++ params.

(** The event holds as many parameters as its second byte says. *)
Definition honest (e : bytes) : Prop :=
  (2 ≤ length e)%nat ∧ 2 + rd8 (drop 1 e) <= Z.of_nat (length e).

(** Bytes the parser requires after the status. *)
Definition minimum (k : answer_kind) : Z :=
  match k with
  | KGeneric | KCodecs _ | KOffload => 0
  | KBufferSize => 5
  | KVersion | KMaximumLength => 8
  | KAddress => Z.of_nat BD_ADDR_LEN
  | KCommands n | KStates n => Z.of_nat n
  | KPages _ => 2 + Z.of_nat FEATURES_SIZE
  | KWhiteList | KResolvingList | KAdvSets => 1
  | KLeBufferSize => 3
  | KLeFeatures => Z.of_nat FEATURES_SIZE
  | KDefaultLength | KAdvLength => 2
  end.

(** Another event, such as Command Status, or a Command Complete that reports an
    error and is as long as a successful one. *)
Definition refused (k : answer_kind) (e : bytes) : Prop :=
  ((2 ≤ length e)%nat ∧ rd8 e ≠ HCI_COMMAND_COMPLETE_EVT) ∨
  (∃ ncmd op status params, e = complete_event ncmd op status params ∧
     answers_to k op ∧ in_width 16 op ∧ in_width 8 status ∧ status ≠ HCI_SUCCESS ∧
     minimum k <= Z.of_nat (length params) <= 251).

(** The parsers that read a null pointer when the answer is refused. *)
Definition unchecked (k : answer_kind) : Prop :=
  match k with KResolvingList | KDefaultLength | KMaximumLength | KAdvLength | KAdvSets => True | _ => False end.
(** The parsers that take a refusal for an answer. *)
Definition lenient (k : answer_kind) : Prop :=
  match k with KGeneric | KCodecs _ | KOffload => True | _ => False end.
Definition refusal (k : answer_kind) : answer :=
  match k with KCodecs _ => ACodecs None | KOffload => AOffload false | _ => AGeneric end.
End answers.

(** ** The stream *)

Class HciDefsOk `{!HciDefs} : Prop := {
  complete_evt_width : in_width 8 HCI_COMMAND_COMPLETE_EVT;
  success_width : in_width 8 HCI_SUCCESS
}.

Section stream.
Context `{!BtMacros, !BtMacrosOk}.

Lemma read_with_app {A} n (f : bytes → A) a s fr : length a = n →
  read_with n f (mk_pst (Some (a ++ s)) fr) = Ret (f (a ++ s)) (mk_pst (Some s) fr).
Proof.
  intros <-. unfold read_with. cbn [stream frees].
  by rewrite bool_decide_eq_true_2, drop_app_length by (rewrite length_app; lia).
Qed.

Lemma read8_ok x s fr : read8 (mk_pst (Some (wr8 x ++ s)) fr) = Ret (u8 x) (mk_pst (Some s) fr).
Proof. unfold read8. by rewrite read_with_app, rd_wr8 by apply wr8_length. Qed.
Lemma read16_ok x s fr : read16 (mk_pst (Some (wr16 x ++ s)) fr) = Ret (u16 x) (mk_pst (Some s) fr).
Proof. unfold read16. by rewrite read_with_app, rd_wr16 by apply wr16_length. Qed.
Lemma skip8_ok x s fr : skip8 (mk_pst (Some (wr8 x ++ s)) fr) = Ret tt (mk_pst (Some s) fr).
Proof. unfold skip8. by rewrite read_with_app by apply wr8_length. Qed.
Lemma read_bdaddr_ok a s fr : length a = BD_ADDR_LEN →
  read_bdaddr (mk_pst (Some (wr_bda a ++ s)) fr) = Ret a (mk_pst (Some s) fr).
Proof. intros Ha. unfold read_bdaddr. by rewrite read_with_app, rd_wr_bda by auto using wr_bda_length. Qed.
Lemma read_array_ok a n s fr : length a = n →
  read_array n (mk_pst (Some (a ++ s)) fr) = Ret a (mk_pst (Some s) fr).
Proof. intros Ha. unfold read_array. by rewrite read_with_app, take_app_length' by done. Qed.

Lemma bind_run {S A B} (m : M S A) (k : A → M S B) s a s' : m s = Ret a s' → (m ≫= k) s = k a s'.
Proof. unfold mbind, M_bind. by intros ->. Qed.
Lemma bind_exit {S A B} (m : M S A) (k : A → M S B) s c s' : m s = Exit c s' → (m ≫= k) s = Exit c s'.
Proof. unfold mbind, M_bind. by intros ->. Qed.
End stream.

Section header.
Context `{!BtMacros, !BtMacrosOk, !HciDefs, !HciDefsOk}.

Lemma header_complete exp n ncmd op status params :
  in_width 8 status → in_width 16 op → (exp = NO_OPCODE_CHECKING ∨ exp = op) →
  n <= Z.of_nat (length params) <= 251 →
  read_command_complete_header exp n (mk_pst (Some (complete_event ncmd op status params)) 0) =
  (if status =? HCI_SUCCESS then Ret true (mk_pst (Some params) 0) else Ret false (mk_pst None 0)).
Proof.
  intros Hs Ho He Hn. unfold read_command_complete_header, complete_event.
  rewrite (bind_run _ _ _ _ _ (read8_ok _ _ _)), (bind_run _ _ _ _ _ (read8_ok _ _ _)).
  rewrite (wrap_small 8 HCI_COMMAND_COMPLETE_EVT) by apply complete_evt_width.
  rewrite Z.eqb_refl. cbn [negb]. rewrite (wrap_small 8 (4 + _)) by (unfold in_width; lia).
  rewrite (proj2 (Z.leb_le _ _)) by lia.
  rewrite (bind_run (check true) _ _ tt _ eq_refl), (bind_run _ _ _ _ _ (skip8_ok _ _ _)),
    (bind_run _ _ _ _ _ (read16_ok _ _ _)).
  rewrite (wrap_small 16 op) by done.
  rewrite (bind_run _ _ _ tt (mk_pst (Some (wr8 status ++ params)) 0)).
  2: { destruct He as [-> | ->]; [done|]. destruct (negb _); [|done]. by rewrite Z.eqb_refl. }
  rewrite (bind_run _ _ _ _ _ (read8_ok _ _ _)), (wrap_small 8 status) by done.
  by destruct (status =? HCI_SUCCESS).
Qed.

Lemma read_with_run {A} n (f : bytes → A) s fr : (n ≤ length s)%nat →
  read_with n f (mk_pst (Some s) fr) = Ret (f s) (mk_pst (Some (drop n s)) fr).
Proof. intros Hs. unfold read_with. cbn [stream]. by rewrite bool_decide_eq_true_2. Qed.

Lemma skip8_run s fr : (1 ≤ length s)%nat →
  skip8 (mk_pst (Some s) fr) = Ret tt (mk_pst (Some (drop 1 s)) fr).
Proof. intros Hs. unfold skip8. by rewrite read_with_run. Qed.

Lemma header_other exp n e : (2 ≤ length e)%nat → rd8 e ≠ HCI_COMMAND_COMPLETE_EVT →
  read_command_complete_header exp n (mk_pst (Some e) 0) = Ret false (mk_pst None 0).
Proof.
  intros Hl He. unfold read_command_complete_header.
  rewrite (bind_run _ _ _ _ _ (read_with_run 1 rd8 e 0 ltac:(lia))).
  rewrite (bind_run _ _ _ _ _ (read_with_run 1 rd8 (drop 1 e) 0 ltac:(rewrite length_drop; lia))).
  by rewrite (proj2 (Z.eqb_neq _ _)) by done.
Qed.

(** Whatever the event, the header of an honest one is read inside it, and a
    stream is returned with the bytes that were asked for. *)
Lemma header_safe exp n e : honest e → 0 <= n →
  (∃ s, read_command_complete_header exp n (mk_pst (Some e) 0) = Ret true (mk_pst (Some s) 0) ∧
        n <= Z.of_nat (length s)) ∨
  read_command_complete_header exp n (mk_pst (Some e) 0) = Ret false (mk_pst None 0) ∨
  ∃ s, read_command_complete_header exp n (mk_pst (Some e) 0) = Exit ABORTED s ∧ frees s = 0%nat.
Proof.
  intros [Hl Hh] Hn. unfold read_command_complete_header.
  rewrite (bind_run _ _ _ _ _ (read_with_run 1 rd8 e 0 ltac:(lia))).
  rewrite (bind_run _ _ _ _ _ (read_with_run 1 rd8 (drop 1 e) 0 ltac:(rewrite length_drop; lia))).
  destruct (rd8 e =? _); cbn [negb]; [|by right; left].
  destruct (Z.leb_spec (4 + n) (rd8 (drop 1 e))) as [Hp|]; [|right; right; eexists; split; [reflexivity|done]].
  rewrite (bind_run (check true) _ _ tt _ eq_refl).
  set (s1 := drop 1 (drop 1 e)).
  assert (4 + n <= Z.of_nat (length s1)) as Hs1 by (unfold s1; rewrite !length_drop; lia).
  rewrite (bind_run _ _ _ _ _ (skip8_run s1 0 ltac:(lia))).
  rewrite (bind_run _ _ _ _ _ (read_with_run 2 rd16 (drop 1 s1) 0 ltac:(rewrite length_drop; lia))).
  rewrite !drop_drop. set (op := rd16 _). set (ck := if negb (exp =? _) then _ else _).
  assert (ck = check true ∨ ck = check false) as [-> | ->].
  { unfold ck. destruct (negb _), (op =? exp); auto. }
  2: { right; right. eexists. split; [reflexivity|done]. }
  rewrite (bind_run (check true) _ _ tt _ eq_refl).
  rewrite (bind_run _ _ _ _ _ (read_with_run 1 rd8 (drop (1 + 2) s1) 0 ltac:(rewrite length_drop; lia))).
  destruct (negb _); [by right; left|].
  left. eexists. split; [reflexivity|]. rewrite !length_drop. lia.
Qed.
End header.

(** ** The theorems *)

Ltac read_field :=
  first [ rewrite (bind_run _ _ _ _ _ (read8_ok _ _ _))
        | rewrite (bind_run _ _ _ _ _ (read16_ok _ _ _))
        | rewrite (bind_run _ _ _ _ _ (skip8_ok _ _ _))
        | match goal with E : length ?a = BD_ADDR_LEN |- _ => rewrite (bind_run _ _ _ _ _ (read_bdaddr_ok a _ _ E)) end
        | match goal with E : length ?a = ?n |- _ => rewrite (bind_run _ _ _ _ _ (read_array_ok a n _ _ E)) end ].

Section parsers.
Context `{!BtMacros, !BtMacrosOk, !HciDefs, !HciDefsOk}.

Lemma minimum_carried k a fs : carries k a fs → minimum k <= Z.of_nat (size_of fs).
Proof. destruct 1; cbn [minimum size_of foldr kind_of kind_size]; unfold BD_ADDR_LEN, FEATURES_SIZE; lia. Qed.

Lemma minimum_nonneg k : 0 <= minimum k.
Proof. destruct k; cbn; lia. Qed.

(** A successful answer of the kind, seen by the header. *)
Lemma header_success op n ncmd exp params :
  in_width 16 op → (exp = NO_OPCODE_CHECKING ∨ exp = op) → n <= Z.of_nat (length params) <= 251 →
  read_command_complete_header exp n (mk_pst (Some (complete_event ncmd op HCI_SUCCESS params)) 0) =
  Ret true (mk_pst (Some params) 0).
Proof. intros. rewrite header_complete; [by rewrite Z.eqb_refl|apply success_width|done..]. Qed.

Lemma mandatory_success op n ncmd params :
  in_width 16 op → n <= Z.of_nat (length params) <= 251 →
  mandatory_header op n (mk_pst (Some (complete_event ncmd op HCI_SUCCESS params)) 0) =
  Ret tt (mk_pst (Some params) 0).
Proof.
  intros Ho Hl. unfold mandatory_header.
  by rewrite (bind_run _ _ _ _ _ (header_success op n ncmd op params Ho (or_intror eq_refl) Hl)).
Qed.

Lemma store_codecs_ok new i codecs s fr : Forall (in_width 8) new → (i + length new ≤ length codecs)%nat →
  store_codecs i (length new) codecs (mk_pst (Some (encode (F8 <$> new) ++ s)) fr) =
  Ret (take i codecs ++ new ++ drop (i + length new) codecs) (mk_pst (Some s) fr).
Proof.
  intros Hw. revert i codecs. induction Hw as [|c new Hc Hw IH]; intros i codecs Hl; cbn [length] in Hl.
  - cbn. by rewrite Nat.add_0_r, take_drop.
  - cbn [length store_codecs]. rewrite fmap_cons, encode_cons, <- app_assoc. cbn [encode1]. read_field.
    rewrite bool_decide_eq_true_2 by lia.
    rewrite (bind_run (require true) _ _ tt _ eq_refl), IH by (rewrite length_insert; lia).
    rewrite wrap_small by done. f_equal.
    rewrite (take_S_r _ i c), take_insert_ge, <- app_assoc by (rewrite ?list_lookup_insert_eq; try lia; done).
    rewrite drop_insert_lt by lia. cbn [app]. do 4 f_equal. lia.
Qed.

Ltac read_fields := repeat (rewrite ?bind_assoc_M; read_field); rewrite ?wrap_small by done; reflexivity.
Tactic Notation "answer_mandatory" reference(f) :=
  eexists (mk_pst _ 1); split; [|reflexivity]; unfold f;
  rewrite bind_assoc_M;
  match goal with Hmh : mandatory_header _ _ _ = _ |- _ => rewrite (bind_run _ _ _ _ _ Hmh) end;
  read_fields.
Tactic Notation "answer_unchecked" reference(f) :=
  eexists (mk_pst _ 1); split; [|reflexivity]; unfold f;
  rewrite bind_assoc_M;
  match goal with Hh : ∀ _, _ → read_command_complete_header _ _ _ = _ |- _ =>
    rewrite (bind_run _ _ _ _ _ (Hh _ (or_intror eq_refl))) end;
  read_fields.

Lemma store_codecs_over new i codecs s fr : Forall (in_width 8) new →
  (i ≤ length codecs)%nat → (length codecs < i + length new)%nat →
  store_codecs i (length new) codecs (mk_pst (Some (encode (F8 <$> new) ++ s)) fr) = Undefined.
Proof.
  intros Hw. revert i codecs. induction Hw as [|c new Hc Hw IH]; intros i codecs Hi Hl; cbn [length] in Hl; [lia|].
  cbn [length store_codecs]. rewrite fmap_cons, encode_cons, <- app_assoc. cbn [encode1]. read_field.
  destruct (decide (i < length codecs)%nat) as [Hlt|Hge].
  - rewrite bool_decide_eq_true_2 by done.
    rewrite (bind_run (require true) _ _ tt _ eq_refl). apply IH; rewrite length_insert; lia.
  - by rewrite bool_decide_eq_false_2.
Qed.

Lemma size_of_octets (bs : bytes) : size_of (F8 <$> bs) = length bs.
Proof. induction bs as [|b bs IH]; [done|]. rewrite fmap_cons. cbn. by rewrite <- IH. Qed.

Lemma answer_parses k a fs rest ncmd op :
  carries k a fs → Forall field_ok fs → answers_to k op → in_width 16 op →
  Z.of_nat (length (encode fs ++ rest)) <= 251 →
  ∃ s, run_parser (parse_answer k) (complete_event ncmd op HCI_SUCCESS (encode fs ++ rest)) = Ret a s ∧
       frees s = 1%nat.
Proof.
  intros Hc Hf Ha Ho Hl. pose proof (minimum_carried _ _ _ Hc) as Hm.
  pose proof (encode_length fs Hf) as He.
  assert (minimum k <= Z.of_nat (length (encode fs ++ rest)) <= 251) as Hb by (rewrite length_app in *; lia).
  unfold run_parser. revert Hb. set (all := encode fs ++ rest). intros Hb.
  assert (∀ exp, exp = NO_OPCODE_CHECKING ∨ exp = op → read_command_complete_header exp (minimum k)
    (mk_pst (Some (complete_event ncmd op HCI_SUCCESS all)) 0) = Ret true (mk_pst (Some all) 0)) as Hh
    by (intros; by apply header_success).
  assert (mandatory_header op (minimum k)
    (mk_pst (Some (complete_event ncmd op HCI_SUCCESS all)) 0) = Ret tt (mk_pst (Some all) 0)) as Hmh
    by (by apply mandatory_success).
  set (ev := complete_event ncmd op HCI_SUCCESS all) in *. clearbody ev. subst all.
  destruct Hc; cbn [answers_to minimum] in *; subst; cbn [parse_answer];
    repeat match goal with H : Forall field_ok (_ :: _) |- _ => apply Forall_cons in H as [? H] end;
    cbn [field_ok] in *; rewrite ?encode_cons, <- ?app_assoc in *; cbn [encode1 app] in *.
  - eexists (mk_pst _ 1); split; [|reflexivity]. unfold parse_generic_command_complete.
    rewrite bind_assoc_M, (bind_run _ _ _ _ _ (Hh _ (or_introl eq_refl))). reflexivity.
  - eexists (mk_pst _ 1); split; [|reflexivity]. unfold parse_ble_read_offload_features_response.
    rewrite bind_assoc_M, (bind_run _ _ _ _ _ (Hh _ (or_introl eq_refl))). reflexivity.
  - answer_mandatory parse_read_buffer_size_response.
  - answer_mandatory parse_read_local_version_info_response.
  - answer_mandatory parse_read_bd_addr_response.
  - answer_mandatory parse_read_local_supported_commands_response.
  - eexists (mk_pst _ 1); split; [|reflexivity]. unfold parse_read_local_extended_features_response.
    rewrite bind_assoc_M, (bind_run _ _ _ _ _ Hmh). repeat (rewrite bind_assoc_M; read_field).
    rewrite !wrap_small, (proj2 (Z.ltb_lt _ _)) by done.
    rewrite bind_assoc_M, (bind_run (check true) _ _ tt _ eq_refl). repeat (rewrite bind_assoc_M; read_field).
    reflexivity.
  - answer_mandatory parse_ble_read_white_list_size_response.
  - answer_mandatory parse_ble_read_buffer_size_response.
  - answer_mandatory parse_ble_read_supported_states_response.
  - answer_mandatory parse_ble_read_local_supported_features_response.
  - eexists (mk_pst _ 1); split; [|reflexivity]. unfold parse_read_local_supported_codecs_response.
    rewrite bind_assoc_M, (bind_run _ _ _ _ _ (Hh _ (or_intror eq_refl))).
    rewrite !bind_assoc_M. read_field. rewrite wrap_small, Nat2Z.id by done.
    assert (Forall (in_width 8) new) as Hnew by (by rewrite Forall_fmap in Hf).
    rewrite !bind_assoc_M, (bind_run _ _ _ _ _ (store_codecs_ok new 0 old rest 0 Hnew ltac:(lia))).
    reflexivity.
  - answer_unchecked parse_ble_read_resolving_list_size_response.
  - answer_unchecked parse_ble_read_suggested_default_data_length_response.
  - answer_unchecked parse_ble_read_maximum_data_length_response.
  - answer_unchecked parse_ble_read_maximum_advertising_data_length.
  - answer_unchecked parse_ble_read_number_of_supported_advertising_sets.
Qed.

(** C33: Every parser recovers the values of a well-formed answer, whatever follows
    them, and frees the response exactly once. *)
Theorem answer_round_trip k a fs rest ncmd op :
  carries k a fs → Forall field_ok fs → answers_to k op → in_width 16 op →
  Z.of_nat (length (encode fs ++ rest)) <= 251 →
  ∃ s, run_parser (parse_answer k) (complete_event ncmd op HCI_SUCCESS (encode fs ++ rest)) = Ret a s ∧
       frees s = 1%nat.
Proof. apply answer_parses. Qed.

(** ** Refused answers *)

Lemma header_refused k e exp : refused k e →
  (∀ op, answers_to k op → exp = NO_OPCODE_CHECKING ∨ exp = op) →
  read_command_complete_header exp (minimum k) (mk_pst (Some e) 0) = Ret false (mk_pst None 0).
Proof.
  intros [[Hl He]|(ncmd & op & st & ps & -> & Ha & Ho & Hs & Hne & Hm)] Hx; [by apply header_other|].
  rewrite header_complete; [by rewrite (proj2 (Z.eqb_neq _ _)) by done|done|done|auto|done].
Qed.

Lemma mandatory_refused k e op : refused k e → (∀ op', answers_to k op' → op = op') →
  mandatory_header op (minimum k) (mk_pst (Some e) 0) = Exit ABORTED (mk_pst None 0).
Proof.
  intros Hr Ha. unfold mandatory_header.
  rewrite (bind_run _ _ _ _ _ (header_refused k e op Hr ltac:(eauto))). reflexivity.
Qed.

Lemma lenient_refused k e : refused k e → lenient k →
  run_parser (parse_answer k) e = Ret (refusal k) (mk_pst None 1).
Proof.
  intros Hr Hk. unfold run_parser. destruct k; try done; cbn [parse_answer refusal].
  - unfold parse_generic_command_complete.
    rewrite bind_assoc_M, (bind_run _ _ _ _ _ (header_refused KGeneric e _ Hr ltac:(auto))). reflexivity.
  - unfold parse_read_local_supported_codecs_response.
    rewrite bind_assoc_M, (bind_run _ _ _ _ _ (header_refused (KCodecs codecs) e HCI_READ_LOCAL_SUPPORTED_CODECS Hr ltac:(cbn; auto))).
    reflexivity.
  - unfold parse_ble_read_offload_features_response.
    rewrite bind_assoc_M, (bind_run _ _ _ _ _ (header_refused KOffload e _ Hr ltac:(auto))). reflexivity.
Qed.

Ltac refuse_unchecked k :=
  rewrite !bind_assoc_M;
  match goal with Hr : refused _ ?e |- context [read_command_complete_header ?x _] =>
    rewrite (bind_run _ _ _ _ _ (header_refused k e x Hr ltac:(cbn; auto))) end;
  reflexivity.
Tactic Notation "refuse_mandatory" reference(f) constr(k) :=
  unfold run_parser; cbn [parse_answer]; unfold f; rewrite !bind_assoc_M;
  match goal with Hr : refused _ ?e |- context [mandatory_header ?x _] =>
    rewrite (bind_exit _ _ _ _ _ (mandatory_refused k e x Hr ltac:(cbn; congruence))) end;
  reflexivity.

(** What a refusal does depends on the parser: the ones that can live without
    the answer return and free the response; those with a [CHECK] abort; the
    last five, which have none, read through a null pointer. *)
Theorem answer_refused k e : refused k e →
  (lenient k → run_parser (parse_answer k) e = Ret (refusal k) (mk_pst None 1)) ∧
  (unchecked k → run_parser (parse_answer k) e = Undefined) ∧
  (¬ lenient k → ¬ unchecked k → ∃ s, run_parser (parse_answer k) e = Exit ABORTED s ∧ frees s = 0%nat).
Proof.
  intros Hr. split_and!.
  - by apply lenient_refused.
  - intros Hk. unfold run_parser. destruct k; try done; cbn [parse_answer].
    + unfold parse_ble_read_resolving_list_size_response. refuse_unchecked KResolvingList.
    + unfold parse_ble_read_suggested_default_data_length_response. refuse_unchecked KDefaultLength.
    + unfold parse_ble_read_maximum_data_length_response. refuse_unchecked KMaximumLength.
    + unfold parse_ble_read_maximum_advertising_data_length. refuse_unchecked KAdvLength.
    + unfold parse_ble_read_number_of_supported_advertising_sets. refuse_unchecked KAdvSets.
  - intros Hl Hu. exists (mk_pst None 0). split; [|done].
    destruct k; try (by contradict Hl); try (by contradict Hu).
    + refuse_mandatory parse_read_buffer_size_response KBufferSize.
    + refuse_mandatory parse_read_local_version_info_response KVersion.
    + refuse_mandatory parse_read_bd_addr_response KAddress.
    + refuse_mandatory parse_read_local_supported_commands_response (KCommands n).
    + refuse_mandatory parse_read_local_extended_features_response (KPages pages).
    + refuse_mandatory parse_ble_read_white_list_size_response KWhiteList.
    + refuse_mandatory parse_ble_read_buffer_size_response KLeBufferSize.
    + refuse_mandatory parse_ble_read_supported_states_response (KStates n).
    + refuse_mandatory parse_ble_read_local_supported_features_response KLeFeatures.
Qed.

(** ** Staying inside the event *)

(** The run ends with the response freed once, or in an abort. *)
Definition tidy {A} (o : outcome pst A) : Prop :=
  match o with
  | Ret _ s => frees s = 1%nat
  | Exit c s => c = ABORTED ∧ frees s = 0%nat
  | _ => False
  end.

Lemma tidy_read {A B} n (f : bytes → A) (k : A → M pst B) s fr : (n ≤ length s)%nat →
  tidy (k (f s) (mk_pst (Some (drop n s)) fr)) → tidy ((read_with n f ≫= k) (mk_pst (Some s) fr)).
Proof. intros Hn Hk. by rewrite (bind_run _ _ _ _ _ (read_with_run n f s fr Hn)). Qed.

Lemma tidy_check {B} b (k : unit → M pst B) st : frees st = 0%nat →
  tidy (k tt st) → tidy ((check b ≫= k) st).
Proof. intros Hf Hk. destruct b; [exact Hk|]. by split. Qed.

Lemma tidy_assoc {A B C} (m : M pst A) (k : A → M pst B) (j : B → M pst C) s :
  tidy ((m ≫= λ a, k a ≫= j) s) → tidy (((m ≫= k) ≫= j) s).
Proof. by rewrite bind_assoc_M. Qed.

Lemma tidy_mandatory {B} op n (k : unit → M pst B) e : honest e → 0 <= n →
  (∀ s, n <= Z.of_nat (length s) → tidy (k tt (mk_pst (Some s) 0))) →
  tidy ((mandatory_header op n ≫= k) (mk_pst (Some e) 0)).
Proof.
  intros He Hn Hk. unfold mandatory_header. rewrite bind_assoc_M.
  destruct (header_safe op n e He Hn) as [(s & E & Hs)|[E|(s & E & Hf)]].
  - rewrite (bind_run _ _ _ _ _ E). by apply Hk.
  - by rewrite (bind_run _ _ _ _ _ E).
  - by rewrite (bind_exit _ _ _ _ _ E).
Qed.

Ltac tidy_steps :=
  repeat first
    [ apply tidy_assoc
    | apply tidy_read; [rewrite ?length_drop; unfold FEATURES_SIZE, BD_ADDR_LEN in *; lia|]
    | apply tidy_check; [reflexivity|] ];
  reflexivity.

(** However an honest event is wrong otherwise, a parser that checks its stream
    either frees the response exactly once or aborts the process: it never reads
    outside the event.  (The codecs parser is left out: it trusts the number of
    codecs it is told.) *)
Theorem answer_safe k e : honest e → ¬ unchecked k → (∀ codecs, k ≠ KCodecs codecs) →
  tidy (run_parser (parse_answer k) e).
Proof.
  intros He Hu Hc. unfold run_parser.
  destruct k; try (by contradict Hu); try (by destruct (Hc codecs)); cbn [parse_answer];
    apply tidy_assoc; unfold read8, read16, read_bdaddr, read_array, skip8.
  1, 11: destruct (header_safe NO_OPCODE_CHECKING 0 e He ltac:(lia)) as [(s & E & Hs)|[E|(s & E & Hf)]];
    first [ rewrite (bind_run _ _ _ _ _ E); reflexivity | by rewrite (bind_exit _ _ _ _ _ E) ].
  all: apply tidy_mandatory; [done|unfold FEATURES_SIZE, BD_ADDR_LEN; lia|intros s Hs]; tidy_steps.
Qed.

(** The codecs parser stores as many codecs as the controller announces: one
    more than the array holds and it writes past its end. *)
Theorem codecs_overflow codecs new rest ncmd :
  (length codecs < length new)%nat → Forall (in_width 8) new → in_width 16 HCI_READ_LOCAL_SUPPORTED_CODECS →
  Z.of_nat (1 + length new + length rest) <= 251 →
  run_parser (parse_read_local_supported_codecs_response codecs)
    (complete_event ncmd HCI_READ_LOCAL_SUPPORTED_CODECS HCI_SUCCESS
       (wr8 (Z.of_nat (length new)) ++ encode (F8 <$> new) ++ rest)) = Undefined.
Proof.
  intros Hl Hn Ho Hlen. unfold run_parser, parse_read_local_supported_codecs_response.
  assert (Forall field_ok (F8 <$> new)) as Hf by (by rewrite Forall_fmap).
  set (ps := wr8 _ ++ _).
  assert (0 <= Z.of_nat (length ps) <= 251) as Hps.
  { unfold ps. rewrite !length_app, wr8_length, encode_length, size_of_octets by done. lia. }
  rewrite (bind_run _ _ _ _ _ (header_success HCI_READ_LOCAL_SUPPORTED_CODECS 0 ncmd _ ps Ho (or_intror eq_refl) Hps)).
  unfold ps.
  rewrite bind_assoc_M. read_field. rewrite wrap_small, Nat2Z.id by (unfold in_width; lia).
  unfold mbind at 1, M_bind at 1. unfold mbind at 1, M_bind at 1.
  by rewrite store_codecs_over by (done || lia).
Qed.
End parsers.
