(* ===== verification/Controller.v ===== *)
(** * Bluetooth: the controller module ([device/src/controller.cc])

    The static variables are the record [ctl]; start-up is a sequence of
    [AWAIT_COMMAND]s, each answered by the controller or never.  The packet
    factory, the feature macros and the constants of the configuration are
    outside the repository. *)

From S2P Require Import Prelude CMonad BtTypes HciParser.

(** One constructor per function of the packet factory. *)
Inductive hcmd : Type :=
  | make_reset
  | make_read_buffer_size
  | make_host_buffer_size (acl_size sco_size acl_count sco_count : Z)
  | make_read_local_version_info
  | make_read_bd_addr
  | make_read_local_supported_commands
  | make_read_local_extended_features (page_number : Z)
  | make_write_simple_pairing_mode (mode : Z)
  | make_ble_write_host_support (supported_host simultaneous : Z)
  | make_ble_read_offload_features_support
  | make_write_secure_connections_host_support (mode : Z)
  | make_ble_read_white_list_size
  | make_ble_read_buffer_size
  | make_ble_read_supported_states
  | make_ble_read_local_supported_features
  | make_ble_read_resolving_list_size
  | make_ble_read_maximum_data_length
  | make_ble_read_suggested_default_data_length
  | make_ble_read_maximum_advertising_data_length
  | make_ble_read_number_of_supported_advertising_sets
  | make_ble_set_event_mask (mask : bytes)
  | make_set_event_mask (mask : bytes)
  | make_read_local_supported_codecs.

(** The bits of the feature pages and of the supported commands. *)
Class FeatureBits : Type := {
  HCI_SIMPLE_PAIRING_SUPPORTED : bytes → bool;
  HCI_LE_SPT_SUPPORTED : bytes → bool;
  HCI_SIMUL_LE_BREDR_SUPPORTED : bytes → bool;
  HCI_SC_CTRLR_SUPPORTED : bytes → bool;
  HCI_LE_HOST_SUPPORTED : bytes → bool;
  HCI_LMP_INTERLACED_INQ_SCAN_SUPPORTED : bytes → bool;
  HCI_LMP_INQ_RSSI_SUPPORTED : bytes → bool;
  HCI_EXT_INQ_RSP_SUPPORTED : bytes → bool;
  HCI_SWITCH_SUPPORTED : bytes → bool;
  HCI_LE_ENHANCED_PRIVACY_SUPPORTED : bytes → bool;
  HCI_LE_DATA_LEN_EXT_SUPPORTED : bytes → bool;
  HCI_LE_EXTENDED_ADVERTISING_SUPPORTED : bytes → bool;
  HCI_LE_PERIODIC_ADVERTISING_SUPPORTED : bytes → bool;
  HCI_LE_CONN_PARAM_REQ_SUPPORTED : bytes → bool;
  HCI_LE_2M_PHY_SUPPORTED : bytes → bool;
  HCI_LE_CODED_PHY_SUPPORTED : bytes → bool;
  HCI_READ_LOCAL_CODECS_SUPPORTED : bytes → bool;
  HCI_READ_ENCR_KEY_SIZE_SUPPORTED : bytes → bool;
  HCI_READ_REMOTE_EXT_FEATURES_SUPPORTED : bytes → bool;
  HCI_ENH_SETUP_SYNCH_CONN_SUPPORTED : bytes → bool;
  HCI_ENH_ACCEPT_SYNCH_CONN_SUPPORTED : bytes → bool;
  HCI_LE_SET_PRIVACY_MODE_SUPPORTED : bytes → bool
}.

(** Constants, and the switches [BTM_SCO_ENHANCED_SYNC_ENABLED],
    [SC_MODE_INCLUDED] and [BLE_PRIVACY_SPT] of the build. *)
Class BtConfig : Type := {
  L2CAP_MTU_SIZE : Z; L2CAP_HOST_FC_ACL_BUFS : Z; HCI_SP_MODE_ENABLED : Z;
  BTM_BLE_SIMULTANEOUS_HOST : Z; BTM_BLE_HOST_SUPPORT : Z; HCI_SC_MODE_ENABLED : Z;
  HCI_DATA_PREAMBLE_SIZE : Z; PHY_LE_1M : Z; HCI_DUMO_EVENT_MASK_EXT : bytes;
  BTM_SCO_ENHANCED_SYNC_ENABLED : bool; SC_MODE_INCLUDED : bool; BLE_PRIVACY_SPT : bool
}.

(** The chip, seen through [future_await(hci->transmit_command_futured(c))]: what
    the command is answered after the commands before it, [None] when it is not
    answered at all. *)
Class Chip : Type := { answer_of : list hcmd → hcmd → option bytes }.

Definition SCO_HOST_BUFFER_SIZE : Z := 0xff.
Definition HCI_SUPPORTED_COMMANDS_ARRAY_SIZE : nat := 64.
Definition MAX_FEATURES_CLASSIC_PAGE_COUNT : Z := 3.
Definition BLE_SUPPORTED_STATES_SIZE : nat := 8.
Definition MAX_LOCAL_SUPPORTED_CODECS_SIZE : nat := 8.

(** The static variables; [ble_supported_max] is the four of them
    ([tx_octets], [tx_time], [rx_octets], [rx_time]), [sent_commands] the
    commands sent so far. *)
Record ctl : Type := mk_ctl {
  address : bytes;
  bt_version : bt_version_t;
  supported_commands : bytes;
  features_classic : list bytes;
  last_features_classic_page_index : Z;
  acl_data_size_classic : Z;
  acl_data_size_ble : Z;
  acl_buffer_count_classic : Z;
  acl_buffer_count_ble : Z;
  ble_white_list_size : Z;
  ble_resolving_list_max_size : Z;
  ble_supported_states : bytes;
  features_ble : bytes;
  ble_suggested_default_data_length : Z;
  ble_supported_max : Z * Z * Z * Z;
  ble_maxium_advertising_data_length : Z;
  ble_number_of_supported_advertising_sets : Z;
  local_supported_codecs : bytes;
  number_of_local_supported_codecs : Z;
  readable : bool;
  ble_supported : bool;
  ble_offload_features_supported : bool;
  simple_pairing_supported : bool;
  secure_connections_supported : bool;
  read_encryption_key_size_supported : bool;
  sent_commands : list hcmd }.

Definition set_address (x : bytes) (s : ctl) : ctl := mk_ctl x (bt_version s) (supported_commands
  s) (features_classic s) (last_features_classic_page_index s) (acl_data_size_classic s)
  (acl_data_size_ble s) (acl_buffer_count_classic s) (acl_buffer_count_ble s) (ble_white_list_size
  s) (ble_resolving_list_max_size s) (ble_supported_states s) (features_ble s)
  (ble_suggested_default_data_length s) (ble_supported_max s) (ble_maxium_advertising_data_length
  s) (ble_number_of_supported_advertising_sets s) (local_supported_codecs s)
  (number_of_local_supported_codecs s) (readable s) (ble_supported s)
  (ble_offload_features_supported s) (simple_pairing_supported s) (secure_connections_supported s)
  (read_encryption_key_size_supported s) (sent_commands s).
Definition set_bt_version (x : bt_version_t) (s : ctl) : ctl := mk_ctl (address s) x
  (supported_commands s) (features_classic s) (last_features_classic_page_index s)
  (acl_data_size_classic s) (acl_data_size_ble s) (acl_buffer_count_classic s)
  (acl_buffer_count_ble s) (ble_white_list_size s) (ble_resolving_list_max_size s)
  (ble_supported_states s) (features_ble s) (ble_suggested_default_data_length s)
  (ble_supported_max s) (ble_maxium_advertising_data_length s)
  (ble_number_of_supported_advertising_sets s) (local_supported_codecs s)
  (number_of_local_supported_codecs s) (readable s) (ble_supported s)
  (ble_offload_features_supported s) (simple_pairing_supported s) (secure_connections_supported s)
  (read_encryption_key_size_supported s) (sent_commands s).
Definition set_supported_commands (x : bytes) (s : ctl) : ctl := mk_ctl (address s) (bt_version s)
  x (features_classic s) (last_features_classic_page_index s) (acl_data_size_classic s)
  (acl_data_size_ble s) (acl_buffer_count_classic s) (acl_buffer_count_ble s) (ble_white_list_size
  s) (ble_resolving_list_max_size s) (ble_supported_states s) (features_ble s)
  (ble_suggested_default_data_length s) (ble_supported_max s) (ble_maxium_advertising_data_length
  s) (ble_number_of_supported_advertising_sets s) (local_supported_codecs s)
  (number_of_local_supported_codecs s) (readable s) (ble_supported s)
  (ble_offload_features_supported s) (simple_pairing_supported s) (secure_connections_supported s)
  (read_encryption_key_size_supported s) (sent_commands s).
Definition set_features_classic (x : list bytes) (s : ctl) : ctl := mk_ctl (address s) (bt_version
  s) (supported_commands s) x (last_features_classic_page_index s) (acl_data_size_classic s)
  (acl_data_size_ble s) (acl_buffer_count_classic s) (acl_buffer_count_ble s) (ble_white_list_size
  s) (ble_resolving_list_max_size s) (ble_supported_states s) (features_ble s)
  (ble_suggested_default_data_length s) (ble_supported_max s) (ble_maxium_advertising_data_length
  s) (ble_number_of_supported_advertising_sets s) (local_supported_codecs s)
  (number_of_local_supported_codecs s) (readable s) (ble_supported s)
  (ble_offload_features_supported s) (simple_pairing_supported s) (secure_connections_supported s)
  (read_encryption_key_size_supported s) (sent_commands s).
Definition set_last_features_classic_page_index (x : Z) (s : ctl) : ctl := mk_ctl (address s)
  (bt_version s) (supported_commands s) (features_classic s) x (acl_data_size_classic s)
  (acl_data_size_ble s) (acl_buffer_count_classic s) (acl_buffer_count_ble s) (ble_white_list_size
  s) (ble_resolving_list_max_size s) (ble_supported_states s) (features_ble s)
  (ble_suggested_default_data_length s) (ble_supported_max s) (ble_maxium_advertising_data_length
  s) (ble_number_of_supported_advertising_sets s) (local_supported_codecs s)
  (number_of_local_supported_codecs s) (readable s) (ble_supported s)
  (ble_offload_features_supported s) (simple_pairing_supported s) (secure_connections_supported s)
  (read_encryption_key_size_supported s) (sent_commands s).
Definition set_acl_data_size_classic (x : Z) (s : ctl) : ctl := mk_ctl (address s) (bt_version s)
  (supported_commands s) (features_classic s) (last_features_classic_page_index s) x
  (acl_data_size_ble s) (acl_buffer_count_classic s) (acl_buffer_count_ble s) (ble_white_list_size
  s) (ble_resolving_list_max_size s) (ble_supported_states s) (features_ble s)
  (ble_suggested_default_data_length s) (ble_supported_max s) (ble_maxium_advertising_data_length
  s) (ble_number_of_supported_advertising_sets s) (local_supported_codecs s)
  (number_of_local_supported_codecs s) (readable s) (ble_supported s)
  (ble_offload_features_supported s) (simple_pairing_supported s) (secure_connections_supported s)
  (read_encryption_key_size_supported s) (sent_commands s).
Definition set_acl_data_size_ble (x : Z) (s : ctl) : ctl := mk_ctl (address s) (bt_version s)
  (supported_commands s) (features_classic s) (last_features_classic_page_index s)
  (acl_data_size_classic s) x (acl_buffer_count_classic s) (acl_buffer_count_ble s)
  (ble_white_list_size s) (ble_resolving_list_max_size s) (ble_supported_states s) (features_ble
  s) (ble_suggested_default_data_length s) (ble_supported_max s)
  (ble_maxium_advertising_data_length s) (ble_number_of_supported_advertising_sets s)
  (local_supported_codecs s) (number_of_local_supported_codecs s) (readable s) (ble_supported s)
  (ble_offload_features_supported s) (simple_pairing_supported s) (secure_connections_supported s)
  (read_encryption_key_size_supported s) (sent_commands s).
Definition set_acl_buffer_count_classic (x : Z) (s : ctl) : ctl := mk_ctl (address s) (bt_version
  s) (supported_commands s) (features_classic s) (last_features_classic_page_index s)
  (acl_data_size_classic s) (acl_data_size_ble s) x (acl_buffer_count_ble s) (ble_white_list_size
  s) (ble_resolving_list_max_size s) (ble_supported_states s) (features_ble s)
  (ble_suggested_default_data_length s) (ble_supported_max s) (ble_maxium_advertising_data_length
  s) (ble_number_of_supported_advertising_sets s) (local_supported_codecs s)
  (number_of_local_supported_codecs s) (readable s) (ble_supported s)
  (ble_offload_features_supported s) (simple_pairing_supported s) (secure_connections_supported s)
  (read_encryption_key_size_supported s) (sent_commands s).
Definition set_acl_buffer_count_ble (x : Z) (s : ctl) : ctl := mk_ctl (address s) (bt_version s)
  (supported_commands s) (features_classic s) (last_features_classic_page_index s)
  (acl_data_size_classic s) (acl_data_size_ble s) (acl_buffer_count_classic s) x
  (ble_white_list_size s) (ble_resolving_list_max_size s) (ble_supported_states s) (features_ble
  s) (ble_suggested_default_data_length s) (ble_supported_max s)
  (ble_maxium_advertising_data_length s) (ble_number_of_supported_advertising_sets s)
  (local_supported_codecs s) (number_of_local_supported_codecs s) (readable s) (ble_supported s)
  (ble_offload_features_supported s) (simple_pairing_supported s) (secure_connections_supported s)
  (read_encryption_key_size_supported s) (sent_commands s).
Definition set_ble_white_list_size (x : Z) (s : ctl) : ctl := mk_ctl (address s) (bt_version s)
  (supported_commands s) (features_classic s) (last_features_classic_page_index s)
  (acl_data_size_classic s) (acl_data_size_ble s) (acl_buffer_count_classic s)
  (acl_buffer_count_ble s) x (ble_resolving_list_max_size s) (ble_supported_states s)
  (features_ble s) (ble_suggested_default_data_length s) (ble_supported_max s)
  (ble_maxium_advertising_data_length s) (ble_number_of_supported_advertising_sets s)
  (local_supported_codecs s) (number_of_local_supported_codecs s) (readable s) (ble_supported s)
  (ble_offload_features_supported s) (simple_pairing_supported s) (secure_connections_supported s)
  (read_encryption_key_size_supported s) (sent_commands s).
Definition set_ble_resolving_list_max_size (x : Z) (s : ctl) : ctl := mk_ctl (address s)
  (bt_version s) (supported_commands s) (features_classic s) (last_features_classic_page_index s)
  (acl_data_size_classic s) (acl_data_size_ble s) (acl_buffer_count_classic s)
  (acl_buffer_count_ble s) (ble_white_list_size s) x (ble_supported_states s) (features_ble s)
  (ble_suggested_default_data_length s) (ble_supported_max s) (ble_maxium_advertising_data_length
  s) (ble_number_of_supported_advertising_sets s) (local_supported_codecs s)
  (number_of_local_supported_codecs s) (readable s) (ble_supported s)
  (ble_offload_features_supported s) (simple_pairing_supported s) (secure_connections_supported s)
  (read_encryption_key_size_supported s) (sent_commands s).
Definition set_ble_supported_states (x : bytes) (s : ctl) : ctl := mk_ctl (address s) (bt_version
  s) (supported_commands s) (features_classic s) (last_features_classic_page_index s)
  (acl_data_size_classic s) (acl_data_size_ble s) (acl_buffer_count_classic s)
  (acl_buffer_count_ble s) (ble_white_list_size s) (ble_resolving_list_max_size s) x (features_ble
  s) (ble_suggested_default_data_length s) (ble_supported_max s)
  (ble_maxium_advertising_data_length s) (ble_number_of_supported_advertising_sets s)
  (local_supported_codecs s) (number_of_local_supported_codecs s) (readable s) (ble_supported s)
  (ble_offload_features_supported s) (simple_pairing_supported s) (secure_connections_supported s)
  (read_encryption_key_size_supported s) (sent_commands s).
Definition set_features_ble (x : bytes) (s : ctl) : ctl := mk_ctl (address s) (bt_version s)
  (supported_commands s) (features_classic s) (last_features_classic_page_index s)
  (acl_data_size_classic s) (acl_data_size_ble s) (acl_buffer_count_classic s)
  (acl_buffer_count_ble s) (ble_white_list_size s) (ble_resolving_list_max_size s)
  (ble_supported_states s) x (ble_suggested_default_data_length s) (ble_supported_max s)
  (ble_maxium_advertising_data_length s) (ble_number_of_supported_advertising_sets s)
  (local_supported_codecs s) (number_of_local_supported_codecs s) (readable s) (ble_supported s)
  (ble_offload_features_supported s) (simple_pairing_supported s) (secure_connections_supported s)
  (read_encryption_key_size_supported s) (sent_commands s).
Definition set_ble_suggested_default_data_length (x : Z) (s : ctl) : ctl := mk_ctl (address s)
  (bt_version s) (supported_commands s) (features_classic s) (last_features_classic_page_index s)
  (acl_data_size_classic s) (acl_data_size_ble s) (acl_buffer_count_classic s)
  (acl_buffer_count_ble s) (ble_white_list_size s) (ble_resolving_list_max_size s)
  (ble_supported_states s) (features_ble s) x (ble_supported_max s)
  (ble_maxium_advertising_data_length s) (ble_number_of_supported_advertising_sets s)
  (local_supported_codecs s) (number_of_local_supported_codecs s) (readable s) (ble_supported s)
  (ble_offload_features_supported s) (simple_pairing_supported s) (secure_connections_supported s)
  (read_encryption_key_size_supported s) (sent_commands s).
Definition set_ble_supported_max (x : Z * Z * Z * Z) (s : ctl) : ctl := mk_ctl (address s)
  (bt_version s) (supported_commands s) (features_classic s) (last_features_classic_page_index s)
  (acl_data_size_classic s) (acl_data_size_ble s) (acl_buffer_count_classic s)
  (acl_buffer_count_ble s) (ble_white_list_size s) (ble_resolving_list_max_size s)
  (ble_supported_states s) (features_ble s) (ble_suggested_default_data_length s) x
  (ble_maxium_advertising_data_length s) (ble_number_of_supported_advertising_sets s)
  (local_supported_codecs s) (number_of_local_supported_codecs s) (readable s) (ble_supported s)
  (ble_offload_features_supported s) (simple_pairing_supported s) (secure_connections_supported s)
  (read_encryption_key_size_supported s) (sent_commands s).
Definition set_ble_maxium_advertising_data_length (x : Z) (s : ctl) : ctl := mk_ctl (address s)
  (bt_version s) (supported_commands s) (features_classic s) (last_features_classic_page_index s)
  (acl_data_size_classic s) (acl_data_size_ble s) (acl_buffer_count_classic s)
  (acl_buffer_count_ble s) (ble_white_list_size s) (ble_resolving_list_max_size s)
  (ble_supported_states s) (features_ble s) (ble_suggested_default_data_length s)
  (ble_supported_max s) x (ble_number_of_supported_advertising_sets s) (local_supported_codecs s)
  (number_of_local_supported_codecs s) (readable s) (ble_supported s)
  (ble_offload_features_supported s) (simple_pairing_supported s) (secure_connections_supported s)
  (read_encryption_key_size_supported s) (sent_commands s).
Definition set_ble_number_of_supported_advertising_sets (x : Z) (s : ctl) : ctl := mk_ctl (address
  s) (bt_version s) (supported_commands s) (features_classic s) (last_features_classic_page_index
  s) (acl_data_size_classic s) (acl_data_size_ble s) (acl_buffer_count_classic s)
  (acl_buffer_count_ble s) (ble_white_list_size s) (ble_resolving_list_max_size s)
  (ble_supported_states s) (features_ble s) (ble_suggested_default_data_length s)
  (ble_supported_max s) (ble_maxium_advertising_data_length s) x (local_supported_codecs s)
  (number_of_local_supported_codecs s) (readable s) (ble_supported s)
  (ble_offload_features_supported s) (simple_pairing_supported s) (secure_connections_supported s)
  (read_encryption_key_size_supported s) (sent_commands s).
Definition set_local_supported_codecs (x : bytes) (s : ctl) : ctl := mk_ctl (address s)
  (bt_version s) (supported_commands s) (features_classic s) (last_features_classic_page_index s)
  (acl_data_size_classic s) (acl_data_size_ble s) (acl_buffer_count_classic s)
  (acl_buffer_count_ble s) (ble_white_list_size s) (ble_resolving_list_max_size s)
  (ble_supported_states s) (features_ble s) (ble_suggested_default_data_length s)
  (ble_supported_max s) (ble_maxium_advertising_data_length s)
  (ble_number_of_supported_advertising_sets s) x (number_of_local_supported_codecs s) (readable s)
  (ble_supported s) (ble_offload_features_supported s) (simple_pairing_supported s)
  (secure_connections_supported s) (read_encryption_key_size_supported s) (sent_commands s).
Definition set_number_of_local_supported_codecs (x : Z) (s : ctl) : ctl := mk_ctl (address s)
  (bt_version s) (supported_commands s) (features_classic s) (last_features_classic_page_index s)
  (acl_data_size_classic s) (acl_data_size_ble s) (acl_buffer_count_classic s)
  (acl_buffer_count_ble s) (ble_white_list_size s) (ble_resolving_list_max_size s)
  (ble_supported_states s) (features_ble s) (ble_suggested_default_data_length s)
  (ble_supported_max s) (ble_maxium_advertising_data_length s)
  (ble_number_of_supported_advertising_sets s) (local_supported_codecs s) x (readable s)
  (ble_supported s) (ble_offload_features_supported s) (simple_pairing_supported s)
  (secure_connections_supported s) (read_encryption_key_size_supported s) (sent_commands s).
Definition set_readable (x : bool) (s : ctl) : ctl := mk_ctl (address s) (bt_version s)
  (supported_commands s) (features_classic s) (last_features_classic_page_index s)
  (acl_data_size_classic s) (acl_data_size_ble s) (acl_buffer_count_classic s)
  (acl_buffer_count_ble s) (ble_white_list_size s) (ble_resolving_list_max_size s)
  (ble_supported_states s) (features_ble s) (ble_suggested_default_data_length s)
  (ble_supported_max s) (ble_maxium_advertising_data_length s)
  (ble_number_of_supported_advertising_sets s) (local_supported_codecs s)
  (number_of_local_supported_codecs s) x (ble_supported s) (ble_offload_features_supported s)
  (simple_pairing_supported s) (secure_connections_supported s)
  (read_encryption_key_size_supported s) (sent_commands s).
Definition set_ble_supported (x : bool) (s : ctl) : ctl := mk_ctl (address s) (bt_version s)
  (supported_commands s) (features_classic s) (last_features_classic_page_index s)
  (acl_data_size_classic s) (acl_data_size_ble s) (acl_buffer_count_classic s)
  (acl_buffer_count_ble s) (ble_white_list_size s) (ble_resolving_list_max_size s)
  (ble_supported_states s) (features_ble s) (ble_suggested_default_data_length s)
  (ble_supported_max s) (ble_maxium_advertising_data_length s)
  (ble_number_of_supported_advertising_sets s) (local_supported_codecs s)
  (number_of_local_supported_codecs s) (readable s) x (ble_offload_features_supported s)
  (simple_pairing_supported s) (secure_connections_supported s)
  (read_encryption_key_size_supported s) (sent_commands s).
Definition set_ble_offload_features_supported (x : bool) (s : ctl) : ctl := mk_ctl (address s)
  (bt_version s) (supported_commands s) (features_classic s) (last_features_classic_page_index s)
  (acl_data_size_classic s) (acl_data_size_ble s) (acl_buffer_count_classic s)
  (acl_buffer_count_ble s) (ble_white_list_size s) (ble_resolving_list_max_size s)
  (ble_supported_states s) (features_ble s) (ble_suggested_default_data_length s)
  (ble_supported_max s) (ble_maxium_advertising_data_length s)
  (ble_number_of_supported_advertising_sets s) (local_supported_codecs s)
  (number_of_local_supported_codecs s) (readable s) (ble_supported s) x (simple_pairing_supported
  s) (secure_connections_supported s) (read_encryption_key_size_supported s) (sent_commands s).
Definition set_simple_pairing_supported (x : bool) (s : ctl) : ctl := mk_ctl (address s)
  (bt_version s) (supported_commands s) (features_classic s) (last_features_classic_page_index s)
  (acl_data_size_classic s) (acl_data_size_ble s) (acl_buffer_count_classic s)
  (acl_buffer_count_ble s) (ble_white_list_size s) (ble_resolving_list_max_size s)
  (ble_supported_states s) (features_ble s) (ble_suggested_default_data_length s)
  (ble_supported_max s) (ble_maxium_advertising_data_length s)
  (ble_number_of_supported_advertising_sets s) (local_supported_codecs s)
  (number_of_local_supported_codecs s) (readable s) (ble_supported s)
  (ble_offload_features_supported s) x (secure_connections_supported s)
  (read_encryption_key_size_supported s) (sent_commands s).
Definition set_secure_connections_supported (x : bool) (s : ctl) : ctl := mk_ctl (address s)
  (bt_version s) (supported_commands s) (features_classic s) (last_features_classic_page_index s)
  (acl_data_size_classic s) (acl_data_size_ble s) (acl_buffer_count_classic s)
  (acl_buffer_count_ble s) (ble_white_list_size s) (ble_resolving_list_max_size s)
  (ble_supported_states s) (features_ble s) (ble_suggested_default_data_length s)
  (ble_supported_max s) (ble_maxium_advertising_data_length s)
  (ble_number_of_supported_advertising_sets s) (local_supported_codecs s)
  (number_of_local_supported_codecs s) (readable s) (ble_supported s)
  (ble_offload_features_supported s) (simple_pairing_supported s) x
  (read_encryption_key_size_supported s) (sent_commands s).
Definition set_read_encryption_key_size_supported (x : bool) (s : ctl) : ctl := mk_ctl (address s)
  (bt_version s) (supported_commands s) (features_classic s) (last_features_classic_page_index s)
  (acl_data_size_classic s) (acl_data_size_ble s) (acl_buffer_count_classic s)
  (acl_buffer_count_ble s) (ble_white_list_size s) (ble_resolving_list_max_size s)
  (ble_supported_states s) (features_ble s) (ble_suggested_default_data_length s)
  (ble_supported_max s) (ble_maxium_advertising_data_length s)
  (ble_number_of_supported_advertising_sets s) (local_supported_codecs s)
  (number_of_local_supported_codecs s) (readable s) (ble_supported s)
  (ble_offload_features_supported s) (simple_pairing_supported s) (secure_connections_supported s)
  x (sent_commands s).
Definition set_sent_commands (x : list hcmd) (s : ctl) : ctl := mk_ctl (address s) (bt_version s)
  (supported_commands s) (features_classic s) (last_features_classic_page_index s)
  (acl_data_size_classic s) (acl_data_size_ble s) (acl_buffer_count_classic s)
  (acl_buffer_count_ble s) (ble_white_list_size s) (ble_resolving_list_max_size s)
  (ble_supported_states s) (features_ble s) (ble_suggested_default_data_length s)
  (ble_supported_max s) (ble_maxium_advertising_data_length s)
  (ble_number_of_supported_advertising_sets s) (local_supported_codecs s)
  (number_of_local_supported_codecs s) (readable s) (ble_supported s)
  (ble_offload_features_supported s) (simple_pairing_supported s) (secure_connections_supported s)
  (read_encryption_key_size_supported s) x.

Definition zeros (n : nat) : bytes := replicate n 0.
(** Static storage is zero. *)
Definition ctl0 : ctl := mk_ctl (zeros 6) (mk_bt_version 0 0 0 0 0) (zeros 64) (replicate 3 (zeros 8))
  0 0 0 0 0 0 0 (zeros 8) (zeros 8) 0 (0, 0, 0, 0) 0 0 (zeros 8) 0
  false false false false false false [].

(** Every array has its declared size. *)
Definition ctl_ok (s : ctl) : Prop :=
  length (supported_commands s) = 64%nat ∧ length (features_classic s) = 3%nat ∧
  length (local_supported_codecs s) = 8%nat ∧ length (ble_supported_states s) = 8%nat ∧
  length (features_ble s) = 8%nat ∧ Forall (λ p, length p = 8%nat) (features_classic s).

Section start_up.
Context `{!BtMacros, !HciDefs, !FeatureBits, !BtConfig, !Chip}.

Definition BLE_EVENT_MASK : bytes :=
  [0; 0; 0; 0; 0; 0x02; if BLE_PRIVACY_SPT then 0x1E else 0x1C; 0x7f].
Definition CLASSIC_EVENT_MASK : bytes := HCI_DUMO_EVENT_MASK_EXT.

Definition AWAIT_COMMAND (c : hcmd) : M ctl bytes := λ s,
  match answer_of (sent_commands s) c with
  | Some r => Ret r (set_sent_commands (sent_commands s ++ [c]) s)
  | None => Stuck
  end.

(** Call a function of the packet parser. *)
Definition parse {A} (p : M pst A) (response : bytes) : M ctl A := λ s,
  match run_parser p response with
  | Ret a _ => Ret a s
  | Exit c _ => Exit c s
  | Undefined => Undefined
  | Stuck => Stuck
  end.

Definition generic (c : hcmd) : M ctl unit :=
  response ← AWAIT_COMMAND c; parse parse_generic_command_complete response.

(** Page [page_number] of the features; returns the page number the controller answered. *)
Definition read_page (page_number : Z) : M ctl Z :=
  s ← get;
  response ← AWAIT_COMMAND (make_read_local_extended_features page_number);
  r ← parse (parse_read_local_extended_features_response (features_classic s)) response;
  modify (set_last_features_classic_page_index r.1.2) ;;
  modify (set_features_classic r.2) ;;
  mret r.1.1.

Definition page (i : nat) (s : ctl) : bytes := default [] (features_classic s !! i).

(** Up to the supported commands. *)
Definition start_basic : M ctl unit :=
  generic make_reset ;;
  response ← AWAIT_COMMAND make_read_buffer_size;
  r ← parse parse_read_buffer_size_response response;
  modify (set_acl_data_size_classic r.1) ;; modify (set_acl_buffer_count_classic r.2) ;;
  generic (make_host_buffer_size L2CAP_MTU_SIZE SCO_HOST_BUFFER_SIZE L2CAP_HOST_FC_ACL_BUFS 10) ;;
  response ← AWAIT_COMMAND make_read_local_version_info;
  v ← parse parse_read_local_version_info_response response;
  modify (set_bt_version v) ;;
  response ← AWAIT_COMMAND make_read_bd_addr;
  a ← parse parse_read_bd_addr_response response;
  modify (set_address a) ;;
  response ← AWAIT_COMMAND make_read_local_supported_commands;
  cmds ← parse (parse_read_local_supported_commands_response HCI_SUPPORTED_COMMANDS_ARRAY_SIZE) response;
  modify (set_supported_commands
    (if BTM_SCO_ENHANCED_SYNC_ENABLED then cmds else alter (λ b, Z.land b (Z.lnot 0x08)) 29%nat cmds)).

(** Page 0 of the features, and what the controller is told about it. *)
Definition start_page0 : M ctl unit :=
  page_number ← read_page 0;
  check (page_number =? 0) ;;
  s ← get;
  modify (set_simple_pairing_supported (HCI_SIMPLE_PAIRING_SUPPORTED (page 0 s))) ;;
  (if HCI_SIMPLE_PAIRING_SUPPORTED (page 0 s)
   then generic (make_write_simple_pairing_mode HCI_SP_MODE_ENABLED) else mret tt) ;;
  s ← get;
  if HCI_LE_SPT_SUPPORTED (page 0 s) then
    let simultaneous_le_host :=
      if HCI_SIMUL_LE_BREDR_SUPPORTED (page 0 s) then BTM_BLE_SIMULTANEOUS_HOST else 0 in
    generic (make_ble_write_host_support BTM_BLE_HOST_SUPPORT simultaneous_le_host) ;;
    s ← get;
    if last_features_classic_page_index s <? 1 then modify (set_last_features_classic_page_index 1)
    else mret tt
  else mret tt.

(** The loop over the remaining pages. *)
Fixpoint read_pages (fuel : nat) (page_number : Z) : M ctl unit :=
  match fuel with
  | O => stuck
  | S fuel' =>
      s ← get;
      if (page_number <=? last_features_classic_page_index s) &&
         (page_number <? MAX_FEATURES_CLASSIC_PAGE_COUNT) then
        page_number ← read_page page_number;
        read_pages fuel' (u8 (page_number + 1))
      else mret tt
  end.

Definition start_offload : M ctl unit :=
  response ← AWAIT_COMMAND make_ble_read_offload_features_support;
  b ← parse parse_ble_read_offload_features_response response;
  modify (set_ble_offload_features_supported b) ;;
  if SC_MODE_INCLUDED && b then
    s ← get;
    modify (set_secure_connections_supported (HCI_SC_CTRLR_SUPPORTED (page 2 s))) ;;
    if HCI_SC_CTRLR_SUPPORTED (page 2 s)
    then generic (make_write_secure_connections_host_support HCI_SC_MODE_ENABLED) else mret tt
  else mret tt.

(** The LE part. *)
Definition start_ble : M ctl unit :=
  response ← AWAIT_COMMAND make_ble_read_white_list_size;
  n ← parse parse_ble_read_white_list_size_response response;
  modify (set_ble_white_list_size n) ;;
  response ← AWAIT_COMMAND make_ble_read_buffer_size;
  r ← parse parse_ble_read_buffer_size_response response;
  modify (set_acl_data_size_ble r.1) ;; modify (set_acl_buffer_count_ble r.2) ;;
  s ← get;
  (if acl_data_size_ble s =? 0 then modify (set_acl_data_size_ble (acl_data_size_classic s)) else mret tt) ;;
  response ← AWAIT_COMMAND make_ble_read_supported_states;
  st ← parse (parse_ble_read_supported_states_response BLE_SUPPORTED_STATES_SIZE) response;
  modify (set_ble_supported_states st) ;;
  response ← AWAIT_COMMAND make_ble_read_local_supported_features;
  f ← parse parse_ble_read_local_supported_features_response response;
  modify (set_features_ble f) ;;
  (if HCI_LE_ENHANCED_PRIVACY_SUPPORTED f then
     response ← AWAIT_COMMAND make_ble_read_resolving_list_size;
     n ← parse parse_ble_read_resolving_list_size_response response;
     modify (set_ble_resolving_list_max_size n)
   else mret tt) ;;
  (if HCI_LE_DATA_LEN_EXT_SUPPORTED f then
     response ← AWAIT_COMMAND make_ble_read_maximum_data_length;
     m ← parse parse_ble_read_maximum_data_length_response response;
     modify (set_ble_supported_max m) ;;
     response ← AWAIT_COMMAND make_ble_read_suggested_default_data_length;
     n ← parse parse_ble_read_suggested_default_data_length_response response;
     modify (set_ble_suggested_default_data_length n)
   else mret tt) ;;
  (if HCI_LE_EXTENDED_ADVERTISING_SUPPORTED f then
     response ← AWAIT_COMMAND make_ble_read_maximum_advertising_data_length;
     n ← parse parse_ble_read_maximum_advertising_data_length response;
     modify (set_ble_maxium_advertising_data_length n) ;;
     response ← AWAIT_COMMAND make_ble_read_number_of_supported_advertising_sets;
     k ← parse parse_ble_read_number_of_supported_advertising_sets response;
     modify (set_ble_number_of_supported_advertising_sets k)
   else modify (set_ble_maxium_advertising_data_length 31)) ;;
  generic (make_ble_set_event_mask BLE_EVENT_MASK).

(** The event mask, the codecs and the encryption key size. *)
Definition start_rest : M ctl unit :=
  s ← get;
  (if simple_pairing_supported s then generic (make_set_event_mask CLASSIC_EVENT_MASK) else mret tt) ;;
  s ← get;
  (if HCI_READ_LOCAL_CODECS_SUPPORTED (supported_commands s) then
     response ← AWAIT_COMMAND make_read_local_supported_codecs;
     r ← parse (parse_read_local_supported_codecs_response (local_supported_codecs s)) response;
     match r with
     | Some (n, cs) => modify (set_number_of_local_supported_codecs n) ;; modify (set_local_supported_codecs cs)
     | None => mret tt
     end
   else mret tt) ;;
  s ← get;
  modify (set_read_encryption_key_size_supported (HCI_READ_ENCR_KEY_SIZE_SUPPORTED (supported_commands s))) ;;
  modify (set_readable true).

(** [fuel] bounds the loop over the feature pages. *)
Definition start_up (fuel : nat) : M ctl unit :=
  start_basic ;;
  start_page0 ;;
  read_pages fuel 1 ;;
  start_offload ;;
  s ← get;
  let ble := (1 <=? last_features_classic_page_index s) && HCI_LE_HOST_SUPPORTED (page 1 s) in
  modify (set_ble_supported ble) ;;
  (if ble then start_ble else mret tt) ;;
  start_rest.

Definition shut_down : M ctl unit := modify (set_readable false).

(** ** The interface *)

(** [CHECK(readable); return f;] *)
Definition when_readable {A} (f : ctl → A) : M ctl A := s ← get; check (readable s) ;; mret (f s).
(** [CHECK(readable); if (!ble_supported) return dflt; return f;] *)
Definition when_ble {A} (dflt : A) (f : ctl → A) : M ctl A :=
  when_readable (λ s, if negb (ble_supported s) then dflt else f s).
(** [assert(readable); ...]: without [NDEBUG] a failure aborts, with it nothing is tested. *)
Definition assert_readable {A} (f : ctl → A) : M ctl A := s ← get; require (readable s) ;; mret (f s).

Definition get_is_ready : M ctl bool := s ← get; mret (readable s).
Definition get_address : M ctl bytes := when_readable address.
Definition get_bt_version : M ctl bt_version_t := when_readable bt_version.
Definition get_features_classic (index : Z) : M ctl bytes :=
  s ← get; check (readable s) ;; check (index <? MAX_FEATURES_CLASSIC_PAGE_COUNT) ;;
  require (0 <=? index) ;; mret (page (Z.to_nat index) s).
Definition get_last_features_classic_index : M ctl Z := when_readable last_features_classic_page_index.
(** The number of codecs and the codecs; [None] is [NULL]. *)
Definition get_local_supported_codecs : M ctl (option (Z * bytes)) :=
  when_readable (λ s, if truthy (number_of_local_supported_codecs s)
    then Some (number_of_local_supported_codecs s, local_supported_codecs s) else None).
Definition get_features_ble : M ctl bytes := when_readable (λ s, if negb (ble_supported s) then features_ble s else features_ble s).
Definition get_ble_supported_states : M ctl bytes := 
  when_readable (λ s, if negb (ble_supported s) then ble_supported_states s else ble_supported_states s).
Definition supports_simple_pairing : M ctl bool := when_readable simple_pairing_supported.
Definition supports_secure_connections : M ctl bool := when_readable secure_connections_supported.
(** Without [CHECK], on purpose: it is called while the stack goes down. *)
Definition supports_read_encryption_key_size : M ctl bool :=
  s ← get; mret (read_encryption_key_size_supported s).
Definition supports_simultaneous_le_bredr : M ctl bool := when_readable (λ s, HCI_SIMUL_LE_BREDR_SUPPORTED (page 0 s)).
Definition supports_reading_remote_extended_features : M ctl bool := when_readable 
  (λ s, HCI_READ_REMOTE_EXT_FEATURES_SUPPORTED (supported_commands s)).
Definition supports_interlaced_inquiry_scan : M ctl bool := when_readable (λ s, HCI_LMP_INTERLACED_INQ_SCAN_SUPPORTED (page 0 s)).
Definition supports_rssi_with_inquiry_results : M ctl bool := when_readable (λ s, HCI_LMP_INQ_RSSI_SUPPORTED (page 0 s)).
Definition supports_extended_inquiry_response : M ctl bool := when_readable (λ s, HCI_EXT_INQ_RSP_SUPPORTED (page 0 s)).
Definition supports_master_slave_role_switch : M ctl bool := when_readable (λ s, HCI_SWITCH_SUPPORTED (page 0 s)).
Definition supports_enhanced_setup_synchronous_connection : M ctl bool := assert_readable 
  (λ s, HCI_ENH_SETUP_SYNCH_CONN_SUPPORTED (supported_commands s)).
Definition supports_enhanced_accept_synchronous_connection : M ctl bool := assert_readable 
  (λ s, HCI_ENH_ACCEPT_SYNCH_CONN_SUPPORTED (supported_commands s)).
Definition supports_ble : M ctl bool := when_readable ble_supported.
Definition supports_ble_privacy : M ctl bool := when_ble false (λ s, HCI_LE_ENHANCED_PRIVACY_SUPPORTED (features_ble s)).
Definition supports_ble_set_privacy_mode : M ctl bool := when_ble false (λ s,
  HCI_LE_ENHANCED_PRIVACY_SUPPORTED (features_ble s) && HCI_LE_SET_PRIVACY_MODE_SUPPORTED (supported_commands s)).
Definition supports_ble_packet_extension : M ctl bool := when_ble false (λ s, HCI_LE_DATA_LEN_EXT_SUPPORTED (features_ble s)).
Definition supports_ble_connection_parameters_request : M ctl bool := when_ble false 
  (λ s, HCI_LE_CONN_PARAM_REQ_SUPPORTED (features_ble s)).
Definition supports_ble_2m_phy : M ctl bool := when_ble false (λ s, HCI_LE_2M_PHY_SUPPORTED (features_ble s)).
Definition supports_ble_coded_phy : M ctl bool := when_ble false (λ s, HCI_LE_CODED_PHY_SUPPORTED (features_ble s)).
Definition supports_ble_extended_advertising : M ctl bool := when_ble false (λ s, HCI_LE_EXTENDED_ADVERTISING_SUPPORTED (features_ble s)).
Definition supports_ble_periodic_advertising : M ctl bool := when_ble false (λ s, HCI_LE_PERIODIC_ADVERTISING_SUPPORTED (features_ble s)).
Definition supports_ble_offload_features : M ctl bool := assert_readable (λ s,
  if negb (ble_supported s) then false else ble_offload_features_supported s).
Definition get_acl_data_size_classic : M ctl Z := when_readable acl_data_size_classic.
Definition get_acl_data_size_ble : M ctl Z := when_ble 0 acl_data_size_ble.
Definition get_acl_packet_size_classic : M ctl Z := when_readable (λ s, u16 (acl_data_size_classic s + HCI_DATA_PREAMBLE_SIZE)).
Definition get_acl_packet_size_ble : M ctl Z := when_readable (λ s, u16 (acl_data_size_ble s + HCI_DATA_PREAMBLE_SIZE)).
Definition get_ble_suggested_default_data_length : M ctl Z := when_ble 0 ble_suggested_default_data_length.
Definition get_ble_maximum_tx_data_length : M ctl Z := when_ble 0 (λ s, (ble_supported_max s).1.1.1).
Definition get_ble_maxium_advertising_data_length : M ctl Z := when_ble 0 ble_maxium_advertising_data_length.
Definition get_ble_number_of_supported_advertising_sets : M ctl Z := when_ble 0 
  ble_number_of_supported_advertising_sets.
Definition get_acl_buffer_count_classic : M ctl Z := when_readable acl_buffer_count_classic.
Definition get_acl_buffer_count_ble : M ctl Z := when_ble 0 acl_buffer_count_ble.
Definition get_ble_white_list_size : M ctl Z := when_ble 0 ble_white_list_size.
Definition get_ble_resolving_list_max_size : M ctl Z := when_ble 0 ble_resolving_list_max_size.
(** The argument is an [int]; 0 is accepted after the shut-down. *)
Definition set_ble_resolving_list_max_size_ (resolving_list_max_size : Z) : M ctl unit :=
  s ← get;
  (if negb (resolving_list_max_size =? 0) then check (readable s) else mret tt) ;;
  if negb (ble_supported s) then mret tt
  else modify (set_ble_resolving_list_max_size (u8 resolving_list_max_size)).
Definition get_le_all_initiating_phys : Z := PHY_LE_1M.
End start_up.
