(* ===== verification/ControllerSpec.v ===== *)
(** * Bluetooth: what starting the controller promises

    A chip that answers every command leaves the module configured with what it
    said: [configured] is that state, in one expression.  On a chip without LE,
    as the one of this device, every LE getter answers no. *)

From S2P Require Import Prelude CMonad BtTypes HciBuf HciCmds HciCmdsSpec HciParser HciParserSpec Controller.

(** ** Chips *)

Record chip : Type := mk_chip {
  ch_acl_size : Z; ch_sco_size : Z; ch_acl_count : Z;
  ch_version : bt_version_t;
  ch_address : bytes;
  ch_commands : bytes;
  ch_last_page : Z; ch_page : nat → bytes;
  ch_offload : bool;
  ch_white_list : Z;
  ch_le_acl_size : Z; ch_le_acl_count : Z;
  ch_states : bytes;
  ch_le_features : bytes;
  ch_resolving : Z;
  ch_max : Z * Z * Z * Z;
  ch_default_length : Z;
  ch_adv_length : Z; ch_adv_sets : Z;
  ch_codecs : option bytes }.

Section chips.
Context `{!BtMacros, !HciDefs, !FeatureBits, !BtConfig, !Chip}.

(** The return parameters of a command. *)
Definition fields_of (ch : chip) (c : hcmd) : list field :=
  match c with
  | make_read_buffer_size => [F16 (ch_acl_size ch); F8 (ch_sco_size ch); F16 (ch_acl_count ch)]
  | make_read_local_version_info =>
      let v := ch_version ch in
      [F8 (hci_version v); F16 (hci_revision v); F8 (lmp_version v); F16 (manufacturer v);
       F16 (lmp_subversion v)]
  | make_read_bd_addr => [FAddr (ch_address ch)]
  | make_read_local_supported_commands => [FOctets 64 (ch_commands ch)]
  | make_read_local_extended_features p => [F8 p; F8 (ch_last_page ch); FOctets 8 (ch_page ch (Z.to_nat p))]
  | make_ble_read_white_list_size => [F8 (ch_white_list ch)]
  | make_ble_read_buffer_size => [F16 (ch_le_acl_size ch); F8 (ch_le_acl_count ch)]
  | make_ble_read_supported_states => [FOctets 8 (ch_states ch)]
  | make_ble_read_local_supported_features => [FOctets 8 (ch_le_features ch)]
  | make_ble_read_resolving_list_size => [F8 (ch_resolving ch)]
  | make_ble_read_maximum_data_length =>
      let '(a, b, c, d) := ch_max ch in [F16 a; F16 b; F16 c; F16 d]
  | make_ble_read_suggested_default_data_length => [F16 (ch_default_length ch)]
  | make_ble_read_maximum_advertising_data_length => [F16 (ch_adv_length ch)]
  | make_ble_read_number_of_supported_advertising_sets => [F8 (ch_adv_sets ch)]
  | make_read_local_supported_codecs =>
      let cs := default [] (ch_codecs ch) in F8 (Z.of_nat (length cs)) :: (F8 <$> cs)
  | _ => []
  end.

(** The parser the answer of a command is given to, the arrays it fills aside. *)
Definition kind_of_cmd (c : hcmd) : answer_kind :=
  match c with
  | make_read_buffer_size => KBufferSize
  | make_read_local_version_info => KVersion
  | make_read_bd_addr => KAddress
  | make_read_local_supported_commands => KCommands 64
  | make_read_local_extended_features _ => KPages []
  | make_ble_read_offload_features_support => KOffload
  | make_ble_read_white_list_size => KWhiteList
  | make_ble_read_buffer_size => KLeBufferSize
  | make_ble_read_supported_states => KStates 8
  | make_ble_read_local_supported_features => KLeFeatures
  | make_ble_read_resolving_list_size => KResolvingList
  | make_ble_read_maximum_data_length => KMaximumLength
  | make_ble_read_suggested_default_data_length => KDefaultLength
  | make_ble_read_maximum_advertising_data_length => KAdvLength
  | make_ble_read_number_of_supported_advertising_sets => KAdvSets
  | make_read_local_supported_codecs => KCodecs []
  | _ => KGeneric
  end.

(** What the chip may refuse: the offload and codecs commands when it has none,
    and those whose answer is not used. *)
Definition may_refuse (ch : chip) (c : hcmd) : Prop :=
  match kind_of_cmd c with
  | KOffload => ch_offload ch = false
  | KCodecs _ => ch_codecs ch = None
  | KGeneric => True
  | _ => False
  end.
Definition may_accept (ch : chip) (c : hcmd) : Prop :=
  match kind_of_cmd c with
  | KOffload => ch_offload ch = true
  | KCodecs _ => ch_codecs ch ≠ None
  | _ => True
  end.

Definition accepted (ch : chip) (c : hcmd) (r : bytes) : Prop :=
  ∃ ncmd op rest, r = complete_event ncmd op HCI_SUCCESS (encode (fields_of ch c) ++ rest) ∧
    in_width 16 op ∧ answers_to (kind_of_cmd c) op ∧
    Z.of_nat (length (encode (fields_of ch c) ++ rest)) <= 251.

(** The chip answers every command, whatever came before. *)
Definition obeys (ch : chip) : Prop :=
  ∀ hist c, ∃ r, answer_of hist c = Some r ∧
    ((may_accept ch c ∧ accepted ch c r) ∨ (may_refuse ch c ∧ refused (kind_of_cmd c) r)).

(** Its values have the widths of the fields, and the codecs fit. *)
Definition chip_ok (ch : chip) : Prop :=
  (∀ c, (∀ p, c = make_read_local_extended_features p → 0 <= p < 3) → Forall field_ok (fields_of ch c)) ∧
  (length (default [] (ch_codecs ch)) ≤ MAX_LOCAL_SUPPORTED_CODECS_SIZE)%nat.

(** ** The configured module *)

(** Whether page 0 says LE: page 1 is then read even from a chip with one page. *)
Definition reads_page1 (ch : chip) : bool :=
  (1 <=? ch_last_page ch) || HCI_LE_SPT_SUPPORTED (ch_page ch 0).
Definition pages_of (ch : chip) (old : list bytes) : list bytes :=
  let ps := <[0%nat := ch_page ch 0]> old in
  let ps := if reads_page1 ch then <[1%nat := ch_page ch 1]> ps else ps in
  if 2 <=? ch_last_page ch then <[2%nat := ch_page ch 2]> ps else ps.

Definition commands_of (ch : chip) : bytes :=
  if BTM_SCO_ENHANCED_SYNC_ENABLED then ch_commands ch
  else alter (λ b, Z.land b (Z.lnot 0x08)) 29%nat (ch_commands ch).

(** LE is on when page 1 was asked for and has the host bit. *)
Definition ble_of (ch : chip) (old : list bytes) : bool :=
  (1 <=? ch_last_page ch) && HCI_LE_HOST_SUPPORTED (default [] (pages_of ch old !! 1%nat)).

Definition configured (ch : chip) (s : ctl) (cmds : list hcmd) : ctl :=
  let pages := pages_of ch (features_classic s) in
  let page2 := default [] (pages !! 2%nat) in
  let ble := ble_of ch (features_classic s) in
  let f := ch_le_features ch in
  let if_ble {A} (new old : A) := if ble then new else old in
  let codecs := HCI_READ_LOCAL_CODECS_SUPPORTED (commands_of ch) in
  mk_ctl (ch_address ch) (ch_version ch) (commands_of ch) pages (ch_last_page ch)
    (ch_acl_size ch)
    (if_ble (if ch_le_acl_size ch =? 0 then ch_acl_size ch else ch_le_acl_size ch) (acl_data_size_ble s))
    (ch_acl_count ch)
    (if_ble (ch_le_acl_count ch) (acl_buffer_count_ble s))
    (if_ble (ch_white_list ch) (ble_white_list_size s))
    (if_ble (if HCI_LE_ENHANCED_PRIVACY_SUPPORTED f then ch_resolving ch else ble_resolving_list_max_size s)
       (ble_resolving_list_max_size s))
    (if_ble (ch_states ch) (ble_supported_states s))
    (if_ble f (features_ble s))
    (if_ble (if HCI_LE_DATA_LEN_EXT_SUPPORTED f then ch_default_length ch else ble_suggested_default_data_length s)
       (ble_suggested_default_data_length s))
    (if_ble (if HCI_LE_DATA_LEN_EXT_SUPPORTED f then ch_max ch else ble_supported_max s) (ble_supported_max s))
    (if_ble (if HCI_LE_EXTENDED_ADVERTISING_SUPPORTED f then ch_adv_length ch else 31)
       (ble_maxium_advertising_data_length s))
    (if_ble (if HCI_LE_EXTENDED_ADVERTISING_SUPPORTED f then ch_adv_sets ch
             else ble_number_of_supported_advertising_sets s) (ble_number_of_supported_advertising_sets s))
    (match ch_codecs ch with
     | Some cs => if codecs then cs ++ drop (length cs) (local_supported_codecs s) else local_supported_codecs s
     | None => local_supported_codecs s
     end)
    (match ch_codecs ch with
     | Some cs => if codecs then Z.of_nat (length cs) else number_of_local_supported_codecs s
     | None => number_of_local_supported_codecs s
     end)
    true ble (ch_offload ch)
    (HCI_SIMPLE_PAIRING_SUPPORTED (ch_page ch 0))
    (if SC_MODE_INCLUDED && ch_offload ch then HCI_SC_CTRLR_SUPPORTED page2
     else secure_connections_supported s)
    (HCI_READ_ENCR_KEY_SIZE_SUPPORTED (commands_of ch)) cmds.
End chips.

(** ** Asking the chip *)

Section asking.
Context `{!BtMacros, !BtMacrosOk, !HciDefs, !HciDefsOk, !FeatureBits, !BtConfig, !Chip}.
Context (ch : chip) (Hobeys : obeys ch) (Hok : chip_ok ch).

(** [m] changes the state by [f], the commands sent aside. *)
Definition does (m : M ctl unit) (f : ctl → ctl) (s : ctl) : Prop :=
  wp m (λ _ s', ∃ l, s' = set_sent_commands l (f s)) s.

Lemma wp_await {B} c (k : bytes → M ctl B) Q s :
  (∀ r, (may_accept ch c ∧ accepted ch c r) ∨ (may_refuse ch c ∧ refused (kind_of_cmd c) r) →
    wp (k r) Q (set_sent_commands (sent_commands s ++ [c]) s)) →
  wp (AWAIT_COMMAND c ≫= k) Q s.
Proof.
  intros Hk. destruct (Hobeys (sent_commands s) c) as (r & E & Hr).
  unfold wp, mbind, M_bind, AWAIT_COMMAND. rewrite E. by apply Hk.
Qed.

Lemma wp_parse {A B} (p : M pst A) r (k : A → M ctl B) Q s a st :
  run_parser p r = Ret a st → wp (k a) Q s → wp (parse p r ≫= k) Q s.
Proof. intros E Hk. unfold wp, mbind, M_bind, parse. by rewrite E. Qed.

(** The parser under a constructor of [answer]. *)
Lemma parse_under {A} (p : M pst A) (F : A → answer) r a st :
  run_parser (x ← p; mret (F x)) r = Ret a st → ∃ x, run_parser p r = Ret x st ∧ F x = a.
Proof.
  unfold run_parser, mbind, M_bind. destruct (p _) as [x st'| | |]; [|done..].
  intros E. injection E as <- <-. eauto.
Qed.

(** A command that is always accepted, and its answer [a]. *)
Lemma wp_ask {A B} c kd (p : M pst A) (F : A → answer) a (k : A → M ctl B) Q s :
  parse_answer kd = (x ← p; mret (F x)) → carries kd a (fields_of ch c) →
  (∀ op, answers_to (kind_of_cmd c) op → answers_to kd op) → ¬ may_refuse ch c →
  (∀ pg, c = make_read_local_extended_features pg → 0 <= pg < 3) →
  (∀ x, F x = a → wp (k x) Q (set_sent_commands (sent_commands s ++ [c]) s)) →
  wp (response ← AWAIT_COMMAND c; x ← parse p response; k x) Q s.
Proof.
  intros Hp Hc Ho Hn Hpg Hk. apply wp_await.
  intros r [[_ (ncmd & op & rest & -> & Hw & Ha & Hl)]|[? _]]; [|done].
  destruct (answer_parses kd a (fields_of ch c) rest ncmd op Hc (proj1 Hok c Hpg) (Ho _ Ha) Hw Hl)
    as (st & E & _).
  rewrite Hp in E. apply parse_under in E as (x & E & Hx). eapply wp_parse; [exact E|by apply Hk].
Qed.

Lemma generic_ok c s : kind_of_cmd c = KGeneric →
  wp (generic c) (λ _ s', s' = set_sent_commands (sent_commands s ++ [c]) s) s.
Proof.
  intros Hc. unfold generic. apply wp_await. intros r Hr.
  assert (∃ st, run_parser parse_generic_command_complete r = Ret tt st) as (st & E).
  { destruct Hr as [[_ (ncmd & op & rest & -> & Hw & Ha & Hl)]|[_ Hr]].
    - destruct (answer_parses KGeneric AGeneric [] (encode (fields_of ch c) ++ rest) ncmd op
        carries_generic ltac:(constructor) I Hw Hl) as (st & E & _).
      apply (parse_under parse_generic_command_complete (λ _, AGeneric)) in E as ([] & E & _). eauto.
    - rewrite Hc in Hr. pose proof (lenient_refused KGeneric r Hr I) as E.
      apply (parse_under parse_generic_command_complete (λ _, AGeneric)) in E as ([] & E & _). eauto. }
  unfold wp, parse. by rewrite E.
Qed.

Lemma generic_if (b : bool) (c : hcmd) (s : ctl) : kind_of_cmd c = KGeneric →
  wp (if b then generic c else mret tt) (λ _ s', ∃ l, s' = set_sent_commands l s) s.
Proof.
  intros Hc. destruct b; [|wp_step; exists (sent_commands s); by destruct s].
  wp_use generic_ok; [done|]. intros _ ? ->. eauto.
Qed.

(** ** Start-up, phase by phase *)

Definition basic_of (s : ctl) : ctl :=
  set_supported_commands (commands_of ch) (set_address (ch_address ch) (set_bt_version (ch_version ch)
    (set_acl_buffer_count_classic (ch_acl_count ch) (set_acl_data_size_classic (ch_acl_size ch) s)))).

Lemma carries_version_of v :
  carries KVersion (AVersion v) [F8 (hci_version v); F16 (hci_revision v); F8 (lmp_version v);
    F16 (manufacturer v); F16 (lmp_subversion v)].
Proof. destruct v. constructor. Qed.

Lemma carries_max : carries KMaximumLength
  (AMaximumLength (ch_max ch).1.1.1 (ch_max ch).1.1.2 (ch_max ch).1.2 (ch_max ch).2)
  (fields_of ch make_ble_read_maximum_data_length).
Proof. unfold fields_of. destruct (ch_max ch) as [[[a b] c] d]. constructor. Qed.

(** Ask for an answer of the kind, and take its value. *)
Ltac ask_with kd a tac :=
  eapply (wp_ask _ kd _ _ a); [reflexivity|tac|done|intros []; fail|done|];
  let E := fresh "E" in intros ? E; injection E as ->.
Ltac ask kd a := ask_with kd a ltac:(constructor).
Ltac ask_pair kd a :=
  eapply (wp_ask _ kd _ _ a); [reflexivity|constructor|done|intros []; fail|done|];
  let E := fresh "E" in intros [? ?] E; injection E as -> ->; cbn [fst snd].
Ltac say := try wp_step; wp_use generic_ok; [done|]; intros _ ? ->.
Ltac pures := repeat first
  [ lazymatch goal with
    | |- wp (modify _ ≫= _) _ _ => wp_step; wp_step
    | |- wp (get ≫= _) _ _ => wp_step; wp_step
    | |- wp (mret _ ≫= _) _ _ => wp_step; wp_step
    | |- wp (modify _) _ _ => wp_step
    | |- wp (mret _) _ _ => wp_step
    end; cbn beta ].
Ltac sent := eexists; reflexivity.
(** The last page, in a state where it was just read. *)
Ltac last_page :=
  match goal with |- context [last_features_classic_page_index ?x] =>
    change (last_features_classic_page_index x) with (ch_last_page ch) end.

Lemma start_basic_ok s : does start_basic basic_of s.
Proof.
  unfold does, start_basic. say.
  ask_pair KBufferSize (ABufferSize (ch_acl_size ch) (ch_acl_count ch)). pures. say.
  ask_with KVersion (AVersion (ch_version ch)) ltac:(apply carries_version_of). pures.
  ask KAddress (AAddress (ch_address ch)). pures.
  ask (KCommands 64) (AArray (ch_commands ch)). pures. sent.
Qed.

Lemma read_page_ok p s : length (features_classic s) = 3%nat → 0 <= p < 3 →
  wp (read_page p) (λ q s', q = p ∧ ∃ l, s' = set_sent_commands l
    (set_features_classic (<[Z.to_nat p := ch_page ch (Z.to_nat p)]> (features_classic s))
      (set_last_features_classic_page_index (ch_last_page ch) s))) s.
Proof.
  intros Hl Hp. unfold read_page. pures.
  eapply (wp_ask _ (KPages (features_classic s)) _ _ (APages p (ch_last_page ch)
    (<[Z.to_nat p := ch_page ch (Z.to_nat p)]> (features_classic s))));
    [reflexivity|constructor; lia|done|intros []; fail|intros ? E; by injection E as <-|].
  intros [[? ?] ?] E. injection E as -> -> ->. pures. split; [done|]. sent.
Qed.

(** Page 0 and what follows from it; the last page is 1 at least when LE is there. *)
Definition last_of : Z :=
  if HCI_LE_SPT_SUPPORTED (ch_page ch 0) && (ch_last_page ch <? 1) then 1 else ch_last_page ch.
Definition page0_of (s : ctl) : ctl :=
  set_last_features_classic_page_index last_of
    (set_simple_pairing_supported (HCI_SIMPLE_PAIRING_SUPPORTED (ch_page ch 0))
      (set_features_classic (<[0%nat := ch_page ch 0]> (features_classic s)) s)).

Lemma start_page0_ok s : length (features_classic s) = 3%nat → does start_page0 page0_of s.
Proof.
  intros Hl. unfold does, start_page0. wp_step. wp_use (read_page_ok 0); [done|lia|].
  intros q s1 [-> (l & ->)]. cbn [Z.eqb]. change (check true) with (mret tt : M ctl unit). pures.
  assert (∀ s', features_classic s' = <[0%nat := ch_page ch 0]> (features_classic s) → page 0 s' = ch_page ch 0) as Hp.
  { intros s' E. unfold page. by rewrite E, list_lookup_insert_eq by lia. }
  rewrite (Hp (set_sent_commands _ _)) by done.
  wp_step. wp_use generic_if; [done|]. intros _ ? (l1 & ->). pures. rewrite !Hp by done.
  unfold page0_of, last_of. destruct (HCI_LE_SPT_SUPPORTED (ch_page ch 0)); [|pures; sent].
  say. pures. last_page.
  cbn [andb]. destruct (ch_last_page ch <? 1); pures; sent.
Qed.

(** The loop reads page 1 when the last page is 1 at least, and page 2 when the
    chip then says so; it ends after three rounds at most. *)
Lemma read_pages_ok fuel s : (3 ≤ fuel)%nat → length (features_classic s) = 3%nat →
  last_features_classic_page_index s = last_of →
  does (read_pages fuel 1) (λ s, set_last_features_classic_page_index (ch_last_page ch)
    (set_features_classic
      (let ps := if reads_page1 ch then <[1%nat := ch_page ch 1]> (features_classic s) else features_classic s in
       if 2 <=? ch_last_page ch then <[2%nat := ch_page ch 2]> ps else ps) s)) s.
Proof.
  intros Hf Hl Hlast. destruct fuel as [|[|[|fuel]]]; [lia..|]. unfold does.
  assert (reads_page1 ch = (1 <=? last_of)) as Hr.
  { unfold reads_page1, last_of. destruct (HCI_LE_SPT_SUPPORTED _), (Z.leb_spec 1 (ch_last_page ch)),
      (Z.ltb_spec (ch_last_page ch) 1); cbn; lia || (symmetry; apply Z.leb_le; lia) || done. }
  cbn [read_pages]. pures. rewrite Hlast, Hr. cbv zeta.
  destruct (Z.leb_spec 1 last_of) as [Hge|Hge].
  2: { cbn [andb]. pures. unfold last_of in *.
       destruct (HCI_LE_SPT_SUPPORTED _), (Z.ltb_spec (ch_last_page ch) 1); cbn [andb] in *; try lia.
       rewrite (proj2 (Z.leb_gt _ _)) by lia. rewrite <- Hlast. exists (sent_commands s). by destruct s. }
  change (1 <? MAX_FEATURES_CLASSIC_PAGE_COUNT) with true. cbn [andb].
  wp_step. wp_use read_page_ok; [done|lia|]. intros q s1 [-> (l1 & ->)]. change (u8 (1 + 1)) with 2.
  pures. last_page.
  change (2 <? MAX_FEATURES_CLASSIC_PAGE_COUNT) with true. rewrite andb_true_r.
  destruct (2 <=? ch_last_page ch); [|pures; sent].
  wp_step. wp_use read_page_ok; [cbn; by rewrite length_insert|lia|]. intros q s2 [-> (l2 & ->)].
  change (u8 (2 + 1)) with 3. pures. change (3 <? MAX_FEATURES_CLASSIC_PAGE_COUNT) with false.
  rewrite andb_false_r. pures. sent.
Qed.

Definition offload_of (s : ctl) : ctl :=
  set_secure_connections_supported
    (if SC_MODE_INCLUDED && ch_offload ch then HCI_SC_CTRLR_SUPPORTED (page 2 s) else secure_connections_supported s)
    (set_ble_offload_features_supported (ch_offload ch) s).

Lemma start_offload_ok s : does start_offload offload_of s.
Proof.
  unfold does, start_offload. apply wp_await. intros r Hr.
  assert (∃ st, run_parser parse_ble_read_offload_features_response r = Ret (ch_offload ch) st) as (st & E).
  { destruct Hr as [[Ha (ncmd & op & rest & -> & Hw & Ho & Hl)]|[Hm Hr]].
    - destruct (answer_parses KOffload (AOffload true) [] (encode (fields_of ch make_ble_read_offload_features_support) ++ rest)
        ncmd op carries_offload ltac:(constructor) I Hw Hl) as (st & E & _).
      apply (parse_under _ AOffload) in E as (b & E & Hb). injection Hb as ->. rewrite Ha. eauto.
    - pose proof (lenient_refused KOffload r Hr I) as E.
      apply (parse_under _ AOffload) in E as (b & E & Hb). injection Hb as ->. rewrite Hm. eauto. }
  eapply wp_parse; [exact E|]. pures. unfold offload_of.
  destruct (SC_MODE_INCLUDED && ch_offload ch); pures; [|sent].
  wp_use generic_if; [done|]. intros _ ? (l1 & ->). sent.
Qed.

Definition ble_part (s : ctl) : ctl :=
  let f := ch_le_features ch in
  set_ble_number_of_supported_advertising_sets
    (if HCI_LE_EXTENDED_ADVERTISING_SUPPORTED f then ch_adv_sets ch
     else ble_number_of_supported_advertising_sets s)
  (set_ble_maxium_advertising_data_length
    (if HCI_LE_EXTENDED_ADVERTISING_SUPPORTED f then ch_adv_length ch else 31)
  (set_ble_suggested_default_data_length
    (if HCI_LE_DATA_LEN_EXT_SUPPORTED f then ch_default_length ch else ble_suggested_default_data_length s)
  (set_ble_supported_max (if HCI_LE_DATA_LEN_EXT_SUPPORTED f then ch_max ch else ble_supported_max s)
  (set_ble_resolving_list_max_size
    (if HCI_LE_ENHANCED_PRIVACY_SUPPORTED f then ch_resolving ch else ble_resolving_list_max_size s)
  (set_features_ble f (set_ble_supported_states (ch_states ch)
  (set_acl_data_size_ble
    (if ch_le_acl_size ch =? 0 then acl_data_size_classic s else ch_le_acl_size ch)
  (set_acl_buffer_count_ble (ch_le_acl_count ch) (set_ble_white_list_size (ch_white_list ch) s))))))))).

(** The three conditional parts of it. *)
Lemma wp_le_size n s : acl_data_size_ble s = n →
  wp (if acl_data_size_ble s =? 0 then modify (set_acl_data_size_ble (acl_data_size_classic s)) else mret tt)
    (λ _ s', s' = set_acl_data_size_ble (if n =? 0 then acl_data_size_classic s else n) s) s.
Proof. intros <-. destruct (_ =? 0); [done|]. wp_step. by destruct s. Qed.

Lemma privacy_ok s :
  wp (if HCI_LE_ENHANCED_PRIVACY_SUPPORTED (ch_le_features ch) then
        response ← AWAIT_COMMAND make_ble_read_resolving_list_size;
        n ← parse parse_ble_read_resolving_list_size_response response;
        modify (set_ble_resolving_list_max_size n)
      else mret tt)
    (λ _ s', ∃ l, s' = set_sent_commands l (set_ble_resolving_list_max_size
      (if HCI_LE_ENHANCED_PRIVACY_SUPPORTED (ch_le_features ch) then ch_resolving ch
       else ble_resolving_list_max_size s) s)) s.
Proof.
  destruct (HCI_LE_ENHANCED_PRIVACY_SUPPORTED _); [|wp_step; exists (sent_commands s); by destruct s].
  ask KResolvingList (ANumber (ch_resolving ch)). pures. sent.
Qed.

Lemma length_ok s :
  wp (if HCI_LE_DATA_LEN_EXT_SUPPORTED (ch_le_features ch) then
        response ← AWAIT_COMMAND make_ble_read_maximum_data_length;
        m ← parse parse_ble_read_maximum_data_length_response response;
        modify (set_ble_supported_max m) ;;
        response ← AWAIT_COMMAND make_ble_read_suggested_default_data_length;
        n ← parse parse_ble_read_suggested_default_data_length_response response;
        modify (set_ble_suggested_default_data_length n)
      else mret tt)
    (λ _ s', ∃ l, s' = set_sent_commands l (set_ble_suggested_default_data_length
      (if HCI_LE_DATA_LEN_EXT_SUPPORTED (ch_le_features ch) then ch_default_length ch
       else ble_suggested_default_data_length s)
      (set_ble_supported_max (if HCI_LE_DATA_LEN_EXT_SUPPORTED (ch_le_features ch) then ch_max ch
        else ble_supported_max s) s))) s.
Proof.
  destruct (HCI_LE_DATA_LEN_EXT_SUPPORTED _); [|wp_step; exists (sent_commands s); by destruct s].
  eapply (wp_ask _ KMaximumLength _ _ (AMaximumLength (ch_max ch).1.1.1 (ch_max ch).1.1.2 (ch_max ch).1.2 (ch_max ch).2));
    [reflexivity|apply carries_max|done|intros []; fail|done|].
  intros x E. assert (x = ch_max ch) as ->.
  { destruct x as [[[? ?] ?] ?], (ch_max ch) as [[[? ?] ?] ?]. cbn in E. congruence. }
  pures. ask KDefaultLength (ANumber (ch_default_length ch)). pures. sent.
Qed.

Lemma advertising_ok s :
  wp (if HCI_LE_EXTENDED_ADVERTISING_SUPPORTED (ch_le_features ch) then
        response ← AWAIT_COMMAND make_ble_read_maximum_advertising_data_length;
        n ← parse parse_ble_read_maximum_advertising_data_length response;
        modify (set_ble_maxium_advertising_data_length n) ;;
        response ← AWAIT_COMMAND make_ble_read_number_of_supported_advertising_sets;
        k ← parse parse_ble_read_number_of_supported_advertising_sets response;
        modify (set_ble_number_of_supported_advertising_sets k)
      else modify (set_ble_maxium_advertising_data_length 31))
    (λ _ s', ∃ l, s' = set_sent_commands l (set_ble_number_of_supported_advertising_sets
      (if HCI_LE_EXTENDED_ADVERTISING_SUPPORTED (ch_le_features ch) then ch_adv_sets ch
       else ble_number_of_supported_advertising_sets s)
      (set_ble_maxium_advertising_data_length
        (if HCI_LE_EXTENDED_ADVERTISING_SUPPORTED (ch_le_features ch) then ch_adv_length ch else 31) s))) s.
Proof.
  destruct (HCI_LE_EXTENDED_ADVERTISING_SUPPORTED _); [|pures; exists (sent_commands s); by destruct s].
  ask KAdvLength (ANumber (ch_adv_length ch)). pures.
  ask KAdvSets (ANumber (ch_adv_sets ch)). pures. sent.
Qed.

Lemma start_ble_ok s : does start_ble ble_part s.
Proof.
  unfold does, start_ble.
  ask KWhiteList (ANumber (ch_white_list ch)). pures.
  ask_pair KLeBufferSize (ABufferSize (ch_le_acl_size ch) (ch_le_acl_count ch)). pures.
  wp_step. wp_use (wp_le_size (ch_le_acl_size ch)); [reflexivity|]. intros _ ? ->.
  ask (KStates 8) (AArray (ch_states ch)). pures.
  ask KLeFeatures (AArray (ch_le_features ch)). pures.
  wp_step. wp_use privacy_ok. intros _ ? (l1 & ->).
  wp_step. wp_use length_ok. intros _ ? (l2 & ->).
  wp_step. wp_use advertising_ok. intros _ ? (l3 & ->).
  say. sent.
Qed.

Lemma start_ble_if (b : bool) s :
  wp (if b then start_ble else mret tt) (λ _ s', ∃ l, s' = set_sent_commands l (if b then ble_part s else s)) s.
Proof.
  destruct b; [apply start_ble_ok|]. wp_step. exists (sent_commands s). by destruct s.
Qed.

Definition codecs_part (s : ctl) : ctl :=
  match ch_codecs ch with
  | Some cs =>
      if HCI_READ_LOCAL_CODECS_SUPPORTED (supported_commands s) then
        set_local_supported_codecs (cs ++ drop (length cs) (local_supported_codecs s))
          (set_number_of_local_supported_codecs (Z.of_nat (length cs)) s)
      else s
  | None => s
  end.

Lemma codecs_ok s : length (local_supported_codecs s) = 8%nat →
  does (if HCI_READ_LOCAL_CODECS_SUPPORTED (supported_commands s) then
          response ← AWAIT_COMMAND make_read_local_supported_codecs;
          r ← parse (parse_read_local_supported_codecs_response (local_supported_codecs s)) response;
          match r with
          | Some (n, cs) => modify (set_number_of_local_supported_codecs n) ;; modify (set_local_supported_codecs cs)
          | None => mret tt
          end
        else mret tt) codecs_part s.
Proof.
  intros Hl. unfold does, codecs_part.
  destruct (HCI_READ_LOCAL_CODECS_SUPPORTED _).
  2: { wp_step. exists (sent_commands s). destruct (ch_codecs ch); by destruct s. }
  apply wp_await. intros r Hr. destruct (ch_codecs ch) as [cs|] eqn:Ec.
  - destruct Hr as [[_ (ncmd & op & rest & -> & Hw & Ho & Hlen)]|[Hm _]].
    2: { unfold may_refuse in Hm. cbn in Hm. congruence. }
    assert (carries (KCodecs (local_supported_codecs s))
      (ACodecs (Some (Z.of_nat (length cs), cs ++ drop (length cs) (local_supported_codecs s))))
      (fields_of ch make_read_local_supported_codecs)) as Hc.
    { cbn [fields_of]. rewrite Ec. cbn [default]. constructor. rewrite Hl.
      pose proof (proj2 Hok) as H8. by rewrite Ec in H8. }
    destruct (answer_parses _ _ _ rest ncmd op Hc (proj1 Hok make_read_local_supported_codecs ltac:(done)) Ho Hw Hlen) as (st & E & _).
    apply (parse_under _ ACodecs) in E as (x & E & Hx). injection Hx as ->.
    eapply wp_parse; [exact E|]. pures. sent.
  - destruct Hr as [[Ha _]|[_ Hr]].
    { unfold may_accept in Ha. cbn in Ha. congruence. }
    assert (refused (KCodecs (local_supported_codecs s)) r) as Hr' by exact Hr.
    pose proof (lenient_refused _ r Hr' I) as E.
    apply (parse_under _ ACodecs) in E as (x & E & Hx). cbn in Hx. injection Hx as ->.
    eapply wp_parse; [exact E|]. pures. sent.
Qed.

Lemma start_rest_ok s : length (local_supported_codecs s) = 8%nat →
  does start_rest (λ s, set_readable true (set_read_encryption_key_size_supported
    (HCI_READ_ENCR_KEY_SIZE_SUPPORTED (supported_commands s)) (codecs_part s))) s.
Proof.
  intros Hl. unfold does, start_rest. pures.
  wp_step. wp_use generic_if; [done|]. intros _ ? (l1 & ->). pures.
  wp_step. wp_use codecs_ok; [exact Hl|]. intros _ ? (l2 & ->). pures.
  unfold codecs_part. cbn [set_sent_commands supported_commands local_supported_codecs].
  destruct (ch_codecs ch); [destruct (HCI_READ_LOCAL_CODECS_SUPPORTED _)|]; sent.
Qed.

Lemma start_up_ok fuel s : ctl_ok s → (3 ≤ fuel)%nat →
  wp (start_up fuel) (λ _ s', ∃ cmds, s' = configured ch s cmds) s.
Proof.
  intros (_ & Hf & Hc & _) Hfuel. unfold start_up.
  wp_step. wp_use start_basic_ok. intros _ ? (l1 & ->).
  wp_step. wp_use start_page0_ok; [exact Hf|]. intros _ ? (l2 & ->).
  wp_step. wp_use read_pages_ok; [done|cbn; by rewrite length_insert|done|]. intros _ ? (l3 & ->).
  wp_step. wp_use start_offload_ok. intros _ ? (l4 & ->). pures.
  lazymatch goal with |- wp ((if ?b then _ else _) ≫= _) _ _ =>
    change b with (ble_of ch (features_classic s)) end.
  wp_step. wp_use start_ble_if. intros _ ? (l5 & ->).
  wp_use start_rest_ok; [by destruct (ble_of _ _)|]. intros _ ? (l6 & ->).
  exists l6. unfold configured, codecs_part.
  destruct (ble_of ch (features_classic s)); (destruct (ch_codecs ch) as [cs|]; [|reflexivity]);
    match goal with |- context [HCI_READ_LOCAL_CODECS_SUPPORTED (supported_commands ?x)] =>
      change (supported_commands x) with (commands_of ch) end;
    by destruct (HCI_READ_LOCAL_CODECS_SUPPORTED _).
Qed.
End asking.

(** ** The contract of start-up *)

Section contract.
Context `{!BtMacros, !BtMacrosOk, !HciDefs, !HciDefsOk, !FeatureBits, !BtConfig, !Chip}.

(** C34: A chip that answers every command, refusing at most the ones it may refuse,
    leaves the module in the state [configured] describes: what the chip said,
    its feature pages as far as it has them, the LE part only when the host bit
    of page 1 is set, and no more than three rounds of the loop over the pages. *)
Theorem start_up_exact ch fuel s : obeys ch → chip_ok ch → ctl_ok s → (3 ≤ fuel)%nat →
  wp (start_up fuel) (λ _ s', ∃ cmds, s' = configured ch s cmds) s.
Proof. intros. by apply start_up_ok. Qed.

(** The answers about LE. *)
Definition le_flags : list (M ctl bool) :=
  [supports_ble; supports_ble_privacy; supports_ble_set_privacy_mode; supports_ble_packet_extension;
   supports_ble_connection_parameters_request; supports_ble_2m_phy; supports_ble_coded_phy;
   supports_ble_extended_advertising; supports_ble_periodic_advertising; supports_ble_offload_features].
Definition le_numbers : list (M ctl Z) :=
  [get_acl_data_size_ble; get_ble_suggested_default_data_length; get_ble_maximum_tx_data_length;
   get_ble_maxium_advertising_data_length; get_ble_number_of_supported_advertising_sets;
   get_acl_buffer_count_ble; get_ble_white_list_size; get_ble_resolving_list_max_size].

(** On a chip without LE, as a 2.1+EDR one that has no feature page 1, start-up
    succeeds, every LE getter answers no or zero instead of aborting, and the module says whether the length of encryption
    keys can be read. *)
Theorem start_up_without_le ch fuel s : obeys ch → chip_ok ch → ctl_ok s → (3 ≤ fuel)%nat →
  ch_last_page ch < 1 →
  wp (start_up fuel) (λ _ s',
    readable s' = true ∧ ble_supported s' = false ∧
    (∀ m, m ∈ le_flags → m s' = Ret false s') ∧ (∀ m, m ∈ le_numbers → m s' = Ret 0 s') ∧
    get_address s' = Ret (ch_address ch) s' ∧ get_acl_data_size_classic s' = Ret (ch_acl_size ch) s' ∧
    supports_read_encryption_key_size s' = Ret (HCI_READ_ENCR_KEY_SIZE_SUPPORTED (commands_of ch)) s') s.
Proof.
  intros Hob Hok Hs Hf Hl. eapply wp_mono; [by apply (start_up_ok ch Hob Hok)|].
  intros _ ? (cmds & ->).
  assert (ble_of ch (features_classic s) = false) as Hb.
  { unfold ble_of. by rewrite (proj2 (Z.leb_gt _ _)) by lia. }
  assert (ble_supported (configured ch s cmds) = false) as Hbs by exact Hb.
  split_and!; [done|exact Hb| | |done|done|done].
  - intros m Hm. unfold le_flags in Hm.
    repeat (apply elem_of_cons in Hm as [->|Hm]; [by cbv [supports_ble_privacy supports_ble_set_privacy_mode
      supports_ble_packet_extension supports_ble_connection_parameters_request supports_ble_2m_phy
      supports_ble_coded_phy supports_ble_extended_advertising supports_ble_periodic_advertising
      supports_ble_offload_features supports_ble when_ble when_readable assert_readable mbind M_bind get mret
      M_ret check require]; rewrite Hbs|]).
    by apply elem_of_nil in Hm.
  - intros m Hm. unfold le_numbers in Hm.
    repeat (apply elem_of_cons in Hm as [->|Hm]; [by cbv [get_acl_data_size_ble
      get_ble_suggested_default_data_length get_ble_maximum_tx_data_length
      get_ble_maxium_advertising_data_length get_ble_number_of_supported_advertising_sets
      get_acl_buffer_count_ble get_ble_white_list_size get_ble_resolving_list_max_size when_ble when_readable
      mbind M_bind get mret M_ret check]; rewrite Hbs|]).
    by apply elem_of_nil in Hm.
Qed.

(** What may be asked only of a module that is ready: flags and numbers. *)
Definition guarded_flags : list (M ctl bool) :=
  [supports_simple_pairing; supports_secure_connections; supports_simultaneous_le_bredr;
   supports_reading_remote_extended_features; supports_interlaced_inquiry_scan;
   supports_rssi_with_inquiry_results; supports_extended_inquiry_response;
   supports_master_slave_role_switch; supports_ble; supports_ble_privacy; supports_ble_set_privacy_mode;
   supports_ble_packet_extension; supports_ble_connection_parameters_request; supports_ble_2m_phy;
   supports_ble_coded_phy; supports_ble_extended_advertising; supports_ble_periodic_advertising].
Definition guarded_numbers : list (M ctl Z) :=
  [get_last_features_classic_index; get_acl_data_size_classic; get_acl_packet_size_classic;
   get_acl_packet_size_ble; get_acl_buffer_count_classic] ++ le_numbers.

Lemma when_readable_abort {A} (f : ctl → A) s : readable s = false → when_readable f s = Exit ABORTED s.
Proof. intros Hr. unfold when_readable, mbind, M_bind, get, check. by rewrite Hr. Qed.

Lemma when_readable_ret {A} (f : ctl → A) s : readable s = true → when_readable f s = Ret (f s) s.
Proof. intros Hr. unfold when_readable, mbind, M_bind, get, check. by rewrite Hr. Qed.

(** Before start-up and after shut-down every guarded getter aborts the process,
    and while the module is ready each of them answers without changing it.  The
    two that are called from event handlers at any time never abort: whether the
    controller can read encryption key sizes, and setting the size of the
    resolving list to zero. *)
Theorem getters_guarded s :
  (readable s = false →
    (∀ m, m ∈ guarded_flags → m s = Exit ABORTED s) ∧ (∀ m, m ∈ guarded_numbers → m s = Exit ABORTED s) ∧
    get_address s = Exit ABORTED s ∧ get_bt_version s = Exit ABORTED s ∧
    ∀ i, get_features_classic i s = Exit ABORTED s) ∧
  (readable s = true →
    (∀ m, m ∈ guarded_flags → ∃ b, m s = Ret b s) ∧ (∀ m, m ∈ guarded_numbers → ∃ n, m s = Ret n s)) ∧
  wp shut_down (λ _ s', readable s' = false) s ∧
  supports_read_encryption_key_size s = Ret (read_encryption_key_size_supported s) s ∧
  ∃ s', set_ble_resolving_list_max_size_ 0 s = Ret tt s'.
Proof.
  split_and!.
  - intros Hr. split_and!; try by apply when_readable_abort.
    + intros m Hm. unfold guarded_flags in Hm.
      repeat (apply elem_of_cons in Hm as [->|Hm]; [by apply when_readable_abort|]). by apply elem_of_nil in Hm.
    + intros m Hm. unfold guarded_numbers, le_numbers in Hm. cbn [app] in Hm.
      repeat (apply elem_of_cons in Hm as [->|Hm]; [by apply when_readable_abort|]). by apply elem_of_nil in Hm.
    + intros i. unfold get_features_classic, mbind, M_bind, get, check. by rewrite Hr.
  - intros Hr. split.
    + intros m Hm. unfold guarded_flags in Hm.
      repeat (apply elem_of_cons in Hm as [->|Hm]; [eexists; by apply when_readable_ret|]).
      by apply elem_of_nil in Hm.
    + intros m Hm. unfold guarded_numbers, le_numbers in Hm. cbn [app] in Hm.
      repeat (apply elem_of_cons in Hm as [->|Hm]; [eexists; by apply when_readable_ret|]).
      by apply elem_of_nil in Hm.
  - done.
  - done.
  - unfold set_ble_resolving_list_max_size_, mbind, M_bind, get. cbn [Z.eqb negb].
    destruct (ble_supported s); cbn; eauto.
Qed.

(** A chip that answers every request for a feature page with page 0. *)
Definition stuck_on_page0 (last : Z) (pg : bytes) : Prop :=
  ∀ hist p, ∃ ncmd rest, answer_of hist (make_read_local_extended_features p) =
    Some (complete_event ncmd HCI_READ_LOCAL_EXT_FEATURES HCI_SUCCESS
      (encode [F8 0; F8 last; FOctets 8 pg] ++ rest)) ∧
    Z.of_nat (length (encode [F8 0; F8 last; FOctets 8 pg] ++ rest)) <= 251.

(** The loop over the feature pages takes the page number from the answer: a chip
    that keeps answering page 0 is asked for page 1 for ever, and start-up never
    ends, whatever the bound. *)
Theorem read_pages_diverges last pg fuel s :
  in_width 16 HCI_READ_LOCAL_EXT_FEATURES → in_width 8 last → 1 <= last → length pg = 8%nat →
  stuck_on_page0 last pg → length (features_classic s) = 3%nat → last_features_classic_page_index s = last →
  read_pages fuel 1 s = Stuck.
Proof.
  intros Hop Hw Hl Hpg Hst. revert s. induction fuel as [|fuel IH]; intros s Hf Hs; [done|].
  cbn [read_pages]. unfold mbind at 1, M_bind at 1, get at 1.
  rewrite Hs, (proj2 (Z.leb_le _ _)) by done. change (1 <? MAX_FEATURES_CLASSIC_PAGE_COUNT) with true. cbn [andb].
  assert (∃ s', read_page 1 s = Ret 0 s' ∧ length (features_classic s') = 3%nat ∧
    last_features_classic_page_index s' = last) as (s' & E & Hf' & Hs').
  2: { rewrite (bind_run _ _ _ _ _ E). change (u8 (0 + 1)) with 1. by apply IH. }
  destruct (Hst (sent_commands s) 1) as (ncmd & rest & E & Hlen).
  unfold read_page. unfold mbind at 1, M_bind at 1, get at 1.
  unfold mbind at 1, M_bind at 1, AWAIT_COMMAND at 1. rewrite E.
  assert (carries (KPages (features_classic s)) (APages 0 last (<[Z.to_nat 0 := pg]> (features_classic s)))
    [F8 0; F8 last; FOctets 8 pg]) as Hc by (constructor; rewrite Hf; lia).
  assert (Forall field_ok [F8 0; F8 last; FOctets 8 pg]) as Hfo
    by (repeat constructor; unfold in_width in *; done || lia).
  destruct (answer_parses _ _ _ rest ncmd _ Hc Hfo eq_refl Hop Hlen) as (st & Er & _).
  apply (parse_under _ (λ r, APages r.1.1 r.1.2 r.2)) in Er as ([[? ?] ?] & Er & Hx). injection Hx as -> -> ->.
  unfold mbind at 1, M_bind at 1, parse. rewrite Er. eexists. split; [reflexivity|].
  split; [|done]. cbn. by rewrite length_insert.
Qed.
End contract.
