(* ===== verification/HciLayer.v ===== *)
(** * Bluetooth: the HCI layer ([hci/src/hci_layer.cc])

    Buffers, entries of waiting commands and futures live in heaps; what a
    callback, the fragmenter or the transport is given is an effect of the
    trace.  The functions run as they are called: on the caller's thread, on the
    HCI thread (the tasks posted to it) or on the thread events arrive on. *)

From S2P Require Import Prelude CMonad BtTypes HciParser.

(** ** Data *)

(** [BT_HDR]: [b_data] is the memory from [data] on. *)
Record buf : Type := mk_buf { b_event : Z; b_len : Z; b_offset : nat; b_data : bytes }.

(** The callbacks are numbers of the caller; the time stamp, which is only logged, is left out. *)
Record waiting_command_t : Type := mk_waiting_command {
  w_opcode : Z;
  complete_future : option nat;
  complete_callback : option nat;
  status_callback : option nat;
  context : Z;
  command : nat }.

Inductive future_value : Type := FPacket (p : nat) | FSuccess.

(** What is posted to the HCI thread. *)
Inductive task : Type :=
  | TCommand (wait_entry : nat)
  | TPacket (packet : nat)
  | TInitialize
  | TFinishStartup.

Inductive effect : Type :=
  | EReady (wait_entry : nat)                               (* joined the commands awaiting a response *)
  | ETransmit (packet : buf)                                (* hci_transmit *)
  | EUpwards (packet : nat)                                 (* send_data_upwards *)
  | EComplete (callback packet : nat) (context : Z)         (* complete_callback *)
  | EStatus (callback : nat) (status : Z) (command : nat) (context : Z)   (* status_callback *)
  | EFirmwareLog (packet : buf)
  | EInitialize | EClose.

(** What the fragmenter does with a packet it is given: transmit pieces of it,
    or tell the layer that it is done. *)
Inductive fragment : Type :=
  | FTransmit (piece : buf) (send_transmit_finished : bool)
  | FFinished (all_fragments_sent : bool).

(** ** The definitions outside the repository *)

Class HciLayerDefs : Type := {
  HCI_COMMAND_STATUS_EVT : Z; HCI_VENDOR_SPECIFIC_EVT : Z; HCI_COMMAND_NONE : Z;
  HCI_GRP_VENDOR_SPECIFIC : Z; HCI_CONTROLLER_DEBUG_INFO_OCF : Z;
  HCI_VSE_SUBCODE_DEBUG_INFO_SUB_EVT : Z; HCI_VSE_SUBCODE_BQR_SUB_EVT : Z;
  QUALITY_REPORT_ID_ROOT_INFLAMMATION : Z; kRootInflammationPacketMinSize : Z;
  MSG_STACK_TO_HC_HCI_CMD : Z; MSG_HC_TO_STACK_HCI_EVT : Z; MSG_EVT_MASK : Z
}.

(** The fragmenter, what it dispatches when it is given a packet to reassemble
    after others, and whether opening the log and setting the timer succeed. *)
Class HciPlatform : Type := {
  fragments : buf → list fragment;
  reassembled : list buf → buf → list buf;
  firmware_log_opens : bool;
  abort_timer_schedules : bool
}.

(** ** State

    [None] is a null timer, thread or list; a timer holds what it is scheduled
    with.  [hci_firmware_log_fd] says whether the descriptor is valid. *)

Record hci : Type := mk_hci {
  bufs : gmap nat buf;
  waits : gmap nat waiting_command_t;
  next_wait : nat;
  futures : gmap nat (option future_value);
  next_future : nat;
  command_credits : Z;
  command_queue : list nat;
  hci_thread : option (list task);
  commands_pending_response : option (list nat);
  command_response_timer : option (option nat);
  startup_timer : option (option Z);
  startup_future : option nat;
  send_data_upwards : bool;
  hci_firmware_log_fd : bool;
  abort_timer : bool;
  reassembly : list buf;
  trace : list effect }.

Definition set_bufs (x : gmap nat buf) (s : hci) : hci := mk_hci x (waits s) (next_wait s)
  (futures s) (next_future s) (command_credits s) (command_queue s) (hci_thread s)
  (commands_pending_response s) (command_response_timer s) (startup_timer s) (startup_future s)
  (send_data_upwards s) (hci_firmware_log_fd s) (abort_timer s) (reassembly s) (trace s).
Definition set_waits (x : gmap nat waiting_command_t) (s : hci) : hci := mk_hci (bufs s) x
  (next_wait s) (futures s) (next_future s) (command_credits s) (command_queue s) (hci_thread s)
  (commands_pending_response s) (command_response_timer s) (startup_timer s) (startup_future s)
  (send_data_upwards s) (hci_firmware_log_fd s) (abort_timer s) (reassembly s) (trace s).
Definition set_next_wait (x : nat) (s : hci) : hci := mk_hci (bufs s) (waits s) x (futures s)
  (next_future s) (command_credits s) (command_queue s) (hci_thread s) (commands_pending_response
  s) (command_response_timer s) (startup_timer s) (startup_future s) (send_data_upwards s)
  (hci_firmware_log_fd s) (abort_timer s) (reassembly s) (trace s).
Definition set_futures (x : gmap nat (option future_value)) (s : hci) : hci := mk_hci (bufs s)
  (waits s) (next_wait s) x (next_future s) (command_credits s) (command_queue s) (hci_thread s)
  (commands_pending_response s) (command_response_timer s) (startup_timer s) (startup_future s)
  (send_data_upwards s) (hci_firmware_log_fd s) (abort_timer s) (reassembly s) (trace s).
Definition set_next_future (x : nat) (s : hci) : hci := mk_hci (bufs s) (waits s) (next_wait s)
  (futures s) x (command_credits s) (command_queue s) (hci_thread s) (commands_pending_response s)
  (command_response_timer s) (startup_timer s) (startup_future s) (send_data_upwards s)
  (hci_firmware_log_fd s) (abort_timer s) (reassembly s) (trace s).
Definition set_command_credits (x : Z) (s : hci) : hci := mk_hci (bufs s) (waits s) (next_wait s)
  (futures s) (next_future s) x (command_queue s) (hci_thread s) (commands_pending_response s)
  (command_response_timer s) (startup_timer s) (startup_future s) (send_data_upwards s)
  (hci_firmware_log_fd s) (abort_timer s) (reassembly s) (trace s).
Definition set_command_queue (x : list nat) (s : hci) : hci := mk_hci (bufs s) (waits s)
  (next_wait s) (futures s) (next_future s) (command_credits s) x (hci_thread s)
  (commands_pending_response s) (command_response_timer s) (startup_timer s) (startup_future s)
  (send_data_upwards s) (hci_firmware_log_fd s) (abort_timer s) (reassembly s) (trace s).
Definition set_hci_thread (x : option (list task)) (s : hci) : hci := mk_hci (bufs s) (waits s)
  (next_wait s) (futures s) (next_future s) (command_credits s) (command_queue s) x
  (commands_pending_response s) (command_response_timer s) (startup_timer s) (startup_future s)
  (send_data_upwards s) (hci_firmware_log_fd s) (abort_timer s) (reassembly s) (trace s).
Definition set_commands_pending_response (x : option (list nat)) (s : hci) : hci := mk_hci (bufs
  s) (waits s) (next_wait s) (futures s) (next_future s) (command_credits s) (command_queue s)
  (hci_thread s) x (command_response_timer s) (startup_timer s) (startup_future s)
  (send_data_upwards s) (hci_firmware_log_fd s) (abort_timer s) (reassembly s) (trace s).
Definition set_command_response_timer (x : option (option nat)) (s : hci) : hci := mk_hci (bufs s)
  (waits s) (next_wait s) (futures s) (next_future s) (command_credits s) (command_queue s)
  (hci_thread s) (commands_pending_response s) x (startup_timer s) (startup_future s)
  (send_data_upwards s) (hci_firmware_log_fd s) (abort_timer s) (reassembly s) (trace s).
Definition set_startup_timer (x : option (option Z)) (s : hci) : hci := mk_hci (bufs s) (waits s)
  (next_wait s) (futures s) (next_future s) (command_credits s) (command_queue s) (hci_thread s)
  (commands_pending_response s) (command_response_timer s) x (startup_future s) (send_data_upwards
  s) (hci_firmware_log_fd s) (abort_timer s) (reassembly s) (trace s).
Definition set_startup_future (x : option nat) (s : hci) : hci := mk_hci (bufs s) (waits s)
  (next_wait s) (futures s) (next_future s) (command_credits s) (command_queue s) (hci_thread s)
  (commands_pending_response s) (command_response_timer s) (startup_timer s) x (send_data_upwards
  s) (hci_firmware_log_fd s) (abort_timer s) (reassembly s) (trace s).
Definition set_send_data_upwards (x : bool) (s : hci) : hci := mk_hci (bufs s) (waits s)
  (next_wait s) (futures s) (next_future s) (command_credits s) (command_queue s) (hci_thread s)
  (commands_pending_response s) (command_response_timer s) (startup_timer s) (startup_future s) x
  (hci_firmware_log_fd s) (abort_timer s) (reassembly s) (trace s).
Definition set_hci_firmware_log_fd (x : bool) (s : hci) : hci := mk_hci (bufs s) (waits s)
  (next_wait s) (futures s) (next_future s) (command_credits s) (command_queue s) (hci_thread s)
  (commands_pending_response s) (command_response_timer s) (startup_timer s) (startup_future s)
  (send_data_upwards s) x (abort_timer s) (reassembly s) (trace s).
Definition set_abort_timer (x : bool) (s : hci) : hci := mk_hci (bufs s) (waits s) (next_wait s)
  (futures s) (next_future s) (command_credits s) (command_queue s) (hci_thread s)
  (commands_pending_response s) (command_response_timer s) (startup_timer s) (startup_future s)
  (send_data_upwards s) (hci_firmware_log_fd s) x (reassembly s) (trace s).
Definition set_reassembly (x : list buf) (s : hci) : hci := mk_hci (bufs s) (waits s) (next_wait
  s) (futures s) (next_future s) (command_credits s) (command_queue s) (hci_thread s)
  (commands_pending_response s) (command_response_timer s) (startup_timer s) (startup_future s)
  (send_data_upwards s) (hci_firmware_log_fd s) (abort_timer s) x (trace s).
Definition set_trace (x : list effect) (s : hci) : hci := mk_hci (bufs s) (waits s) (next_wait s)
  (futures s) (next_future s) (command_credits s) (command_queue s) (hci_thread s)
  (commands_pending_response s) (command_response_timer s) (startup_timer s) (startup_future s)
  (send_data_upwards s) (hci_firmware_log_fd s) (abort_timer s) (reassembly s) x.

Section hci.
Context `{!BtMacros, !HcicSizes, !HciDefs, !HciLayerDefs, !HciPlatform}.

Definition emit (e : effect) : M hci unit := modify (λ s, set_trace (trace s ++ [e]) s).

(** *** The heaps *)

Definition load_buf (p : nat) : M hci buf := λ s,
  match bufs s !! p with Some b => Ret b s | None => Undefined end.
Definition store_buf (p : nat) (b : buf) : M hci unit := modify (λ s, set_bufs (<[p := b]> (bufs s)) s).
(** [buffer_allocator->free]: freeing what is not allocated is undefined. *)
Definition free_buf (p : nat) : M hci unit :=
  load_buf p ;; modify (λ s, set_bufs (delete p (bufs s)) s).

Definition load_wait (w : nat) : M hci waiting_command_t := λ s,
  match waits s !! w with Some e => Ret e s | None => Undefined end.
Definition new_wait (e : waiting_command_t) : M hci nat := λ s,
  Ret (next_wait s) (set_next_wait (S (next_wait s)) (set_waits (<[next_wait s := e]> (waits s)) s)).
Definition free_wait (w : nat) : M hci unit :=
  load_wait w ;; modify (λ s, set_waits (delete w (waits s)) s).

Definition future_new : M hci nat := λ s,
  Ret (next_future s)
    (set_next_future (S (next_future s)) (set_futures (<[next_future s := None]> (futures s)) s)).
(** A future is made ready once. *)
Definition future_ready (f : nat) (v : future_value) : M hci unit := λ s,
  match futures s !! f with
  | Some None => Ret tt (set_futures (<[f := Some v]> (futures s)) s)
  | _ => Undefined
  end.

(** [hci_thread.DoInThread]: [false] when the thread does not run. *)
Definition DoInThread (t : task) : M hci bool := λ s,
  match hci_thread s with
  | Some ts => Ret true (set_hci_thread (Some (ts ++ [t])) s)
  | None => Ret false s
  end.

(** The list of commands awaiting a response; a null list is undefined. *)
Definition pending : M hci (list nat) := λ s,
  match commands_pending_response s with Some l => Ret l s | None => Undefined end.

Definition get_num_waiting_commands : M hci Z := l ← pending; mret (Z.of_nat (length l)).

(** *** Timers *)

Definition update_command_response_timer : M hci unit :=
  s ← get;
  match command_response_timer s with
  | None => mret tt
  | Some _ =>
      l ← pending;
      modify (set_command_response_timer (Some (head l)))
  end.

(** *** Transmitting *)

(** [send_data_upwards.Run]: a null callback ends the process. *)
Definition run_upwards (packet : nat) : M hci unit :=
  s ← get; check (send_data_upwards s) ;; emit (EUpwards packet).

Definition fragmenter_transmit_finished (packet : nat) (all_fragments_sent : bool) : M hci unit :=
  if all_fragments_sent then free_buf packet else run_upwards packet.

Definition transmit_fragment (packet : nat) (send_transmit_finished : bool) : M hci unit :=
  b ← load_buf packet;
  let free_after_transmit :=
    negb (Z.land (b_event b) MSG_EVT_MASK =? MSG_STACK_TO_HC_HCI_CMD) && send_transmit_finished in
  emit (ETransmit b) ;;
  if free_after_transmit then free_buf packet else mret tt.

Fixpoint dispatch_fragments (packet : nat) (fs : list fragment) : M hci unit :=
  match fs with
  | [] => mret tt
  | FTransmit piece fin :: fs' =>
      load_buf packet ;; store_buf packet piece ;;
      transmit_fragment packet fin ;; dispatch_fragments packet fs'
  | FFinished all :: fs' =>
      fragmenter_transmit_finished packet all ;; dispatch_fragments packet fs'
  end.

(** [packet_fragmenter->fragment_and_dispatch] *)
Definition fragment_and_dispatch (packet : nat) : M hci unit :=
  b ← load_buf packet; dispatch_fragments packet (fragments b).

Definition event_packet_ready (pkt : nat) : M hci unit := fragment_and_dispatch pkt.

(** [list_append] of the entry, then the rest of [event_command_ready]. *)
Definition command_ready_append (wait_entry : nat) : M hci unit :=
  load_wait wait_entry ;;
  l ← pending;
  modify (set_commands_pending_response (Some (l ++ [wait_entry]))) ;;
  emit (EReady wait_entry).
Definition command_ready_send (wait_entry : nat) : M hci unit :=
  e ← load_wait wait_entry;
  fragment_and_dispatch (command e) ;;
  update_command_response_timer.
Definition event_command_ready (wait_entry : nat) : M hci unit :=
  command_ready_append wait_entry ;; command_ready_send wait_entry.

Definition enqueue_command (wait_entry : nat) : M hci unit :=
  s ← get;
  if 0 <? command_credits s then
    ok ← DoInThread (TCommand wait_entry);
    if negb ok then
      e ← load_wait wait_entry; free_buf (command e) ;; free_wait wait_entry
    else modify (λ s, set_command_credits (command_credits s - 1) s)
  else modify (λ s, set_command_queue (command_queue s ++ [wait_entry]) s).

Definition enqueue_packet (packet : nat) : M hci unit :=
  ok ← DoInThread (TPacket packet);
  if negb ok then free_buf packet else mret tt.

(** The operation code of a command, and the event field set. *)
Definition command_opcode (cmd : nat) : M hci Z :=
  b ← load_buf cmd;
  require (bool_decide (b_offset b + 2 ≤ length (b_data b))%nat) ;;
  store_buf cmd (mk_buf MSG_STACK_TO_HC_HCI_CMD (b_len b) (b_offset b) (b_data b)) ;;
  mret (rd16 (drop (b_offset b) (b_data b))).

Definition transmit_command (cmd : nat) (complete status : option nat) (ctx : Z) : M hci unit :=
  opcode ← command_opcode cmd;
  w ← new_wait (mk_waiting_command opcode None complete status ctx cmd);
  enqueue_command w.

Definition transmit_command_futured (cmd : nat) : M hci nat :=
  future ← future_new;
  opcode ← command_opcode cmd;
  w ← new_wait (mk_waiting_command opcode (Some future) None None 0 cmd);
  enqueue_command w ;;
  mret future.

Definition transmit_downward (type : Z) (data : nat) : M hci unit :=
  if type =? MSG_STACK_TO_HC_HCI_CMD then transmit_command data None None 0 else enqueue_packet data.

(** *** Credits *)

(** The loop of [process_command_credits]. *)
Fixpoint drain_queue (queue : list nat) : M hci unit :=
  match queue with
  | [] => mret tt
  | w :: queue' =>
      s ← get;
      if 0 <? command_credits s then
        DoInThread (TCommand w) ;;
        modify (set_command_queue queue') ;;
        modify (λ s, set_command_credits (command_credits s - 1) s) ;;
        drain_queue queue'
      else mret tt
  end.

Definition process_command_credits (credits : Z) : M hci unit :=
  s ← get;
  match hci_thread s with
  | None => mret tt
  | Some _ =>
      n ← get_num_waiting_commands;
      modify (set_command_credits (credits - n)) ;;
      s ← get;
      drain_queue (command_queue s)
  end.

(** *** Matching responses *)

Definition is_vendor_specific (opcode : Z) : bool :=
  Z.land opcode HCI_GRP_VENDOR_SPECIFIC =? HCI_GRP_VENDOR_SPECIFIC.

(** The first entry of the list that satisfies [f]. *)
Fixpoint find_wait (f : waiting_command_t → bool) (l : list nat) : M hci (option nat) :=
  match l with
  | [] => mret None
  | w :: l' => e ← load_wait w; if f e then mret (Some w) else find_wait f l'
  end.

(** [list_remove]: the first occurrence. *)
Fixpoint list_remove (w : nat) (l : list nat) : list nat :=
  match l with
  | [] => []
  | x :: l' => if bool_decide (x = w) then l' else x :: list_remove w l'
  end.

(** Both loops: the same operation code, else any two vendor specific ones. *)
Definition get_waiting_command (opcode : Z) : M hci (option nat) :=
  l ← pending;
  r ← find_wait (λ e, w_opcode e =? opcode) l;
  match r with
  | Some w => modify (set_commands_pending_response (Some (list_remove w l))) ;; mret (Some w)
  | None =>
      r ← find_wait (λ e, negb (w_opcode e =? opcode) && is_vendor_specific (w_opcode e) &&
                          is_vendor_specific opcode) l;
      match r with
      | Some w => modify (set_commands_pending_response (Some (list_remove w l))) ;; mret (Some w)
      | None => mret None
      end
  end.

(** *** Events *)

(** A byte, and two bytes, of an event; beyond its memory is undefined. *)
Definition event8 (bs : bytes) (i : nat) : M hci Z :=
  require (bool_decide (i + 1 ≤ length bs)%nat) ;; mret (rd8 (drop i bs)).
Definition event16 (bs : bytes) (i : nat) : M hci Z :=
  require (bool_decide (i + 2 ≤ length bs)%nat) ;; mret (rd16 (drop i bs)).

(** [intercepted:] what is freed at the end. *)
Definition intercepted (packet : nat) (event_code : Z) (wait_entry : option nat)
    (status_given_to_future : bool) : M hci bool :=
  match wait_entry with
  | Some w =>
      e ← load_wait w;
      (if ((event_code =? HCI_COMMAND_STATUS_EVT) && negb status_given_to_future) ||
          (negb (bool_decide (is_Some (complete_callback e))) &&
           negb (bool_decide (is_Some (complete_future e))))
       then free_buf packet else mret tt) ;;
      (if (event_code =? HCI_COMMAND_COMPLETE_EVT) || negb (bool_decide (is_Some (status_callback e)))
       then free_buf (command e) else mret tt) ;;
      free_wait w ;;
      mret true
  | None => free_buf packet ;; mret true
  end.

Definition command_complete_event (packet : nat) (bs : bytes) (event_code : Z) : M hci bool :=
  credits ← event8 bs 2;
  opcode ← event16 bs 3;
  wait_entry ← get_waiting_command opcode;
  process_command_credits credits ;;
  match wait_entry with
  | None => mret tt
  | Some w =>
      update_command_response_timer ;;
      e ← load_wait w;
      match complete_callback e, complete_future e with
      | Some cb, _ => emit (EComplete cb packet (context e))
      | None, Some f => future_ready f (FPacket packet)
      | None, None => mret tt
      end
  end ;;
  intercepted packet event_code wait_entry false.

Definition command_status_event (packet : nat) (bs : bytes) (event_code : Z) : M hci bool :=
  status ← event8 bs 2;
  credits ← event8 bs 3;
  opcode ← event16 bs 4;
  wait_entry ← get_waiting_command opcode;
  process_command_credits credits ;;
  status_given_to_future ← (match wait_entry with
    | None => mret false
    | Some w =>
        update_command_response_timer ;;
        e ← load_wait w;
        match status_callback e, complete_future e with
        | Some cb, _ => emit (EStatus cb status (command e) (context e)) ;; mret false
        | None, Some f => future_ready f (FPacket packet) ;; mret true
        | None, None => mret false
        end
    end);
  intercepted packet event_code wait_entry status_given_to_future.

Definition alarm_cancel_if_scheduled : M hci unit :=
  modify (λ s, set_startup_timer (option_map (λ _, None) (startup_timer s)) s) ;;
  modify (λ s, set_command_response_timer (option_map (λ _, None) (command_response_timer s)) s).

(** [abort_timer.Schedule(...)] *)
Definition schedule_abort : M hci unit :=
  if abort_timer_schedules then modify (set_abort_timer true) else exit ABORTED.

Definition vendor_specific_event (packet : nat) (b : buf) : M hci bool :=
  let bs := b_data b in
  sub_event_code ← event8 bs 2;
  if sub_event_code =? HCI_VSE_SUBCODE_DEBUG_INFO_SUB_EVT then
    s ← get;
    (if hci_firmware_log_fd s then mret tt else modify (set_hci_firmware_log_fd firmware_log_opens)) ;;
    s ← get;
    (if hci_firmware_log_fd s then emit (EFirmwareLog b) else mret tt) ;;
    free_buf packet ;;
    mret true
  else if sub_event_code =? HCI_VSE_SUBCODE_BQR_SUB_EVT then
    bqr_report_id ← event8 bs 3;
    (if (bqr_report_id =? QUALITY_REPORT_ID_ROOT_INFLAMMATION) &&
        (kRootInflammationPacketMinSize <=? b_len b) then
       event8 bs 4 ;; event8 bs 5 ;;
       alarm_cancel_if_scheduled ;;
       schedule_abort
     else mret tt) ;;
    mret false
  else mret false.

Definition filter_incoming_event (packet : nat) : M hci bool :=
  b ← load_buf packet;
  event_code ← event8 (b_data b) 0;
  require (bool_decide (2 ≤ length (b_data b))%nat) ;;
  if event_code =? HCI_COMMAND_COMPLETE_EVT then command_complete_event packet (b_data b) event_code
  else if event_code =? HCI_COMMAND_STATUS_EVT then command_status_event packet (b_data b) event_code
  else if event_code =? HCI_VENDOR_SPECIFIC_EVT then vendor_specific_event packet b
  else mret false.

Definition hci_event_received (packet : nat) : M hci unit :=
  intercepted ← filter_incoming_event packet;
  if negb intercepted then run_upwards packet else mret tt.

Definition dispatch_reassembled (packet : nat) : M hci unit :=
  b ← load_buf packet;
  check (negb (Z.land (b_event b) MSG_EVT_MASK =? MSG_HC_TO_STACK_HCI_EVT)) ;;
  s ← get;
  check (send_data_upwards s) ;;
  run_upwards packet.

(** The reassembler keeps the packet it is given and dispatches new ones. *)
Fixpoint dispatch_all (next : nat) (l : list buf) : M hci unit :=
  match l with
  | [] => mret tt
  | b :: l' => store_buf next b ;; dispatch_reassembled next ;; dispatch_all (S next) l'
  end.
Definition reassemble_and_dispatch (packet next : nat) : M hci unit :=
  b ← load_buf packet;
  s ← get;
  free_buf packet ;;
  modify (set_reassembly (reassembly s ++ [b])) ;;
  dispatch_all next (reassembled (reassembly s) b).
Definition acl_event_received := reassemble_and_dispatch.
Definition sco_data_received := reassemble_and_dispatch.

(** *** Timeouts *)

(** Reads the first bytes of every command that awaits a response. *)
Fixpoint command_timed_out_log_info (l : list nat) : M hci unit :=
  match l with
  | [] => mret tt
  | w :: l' =>
      e ← load_wait w;
      b ← load_buf (command e);
      require (bool_decide (b_offset b + (if (3 <? b_len b)%Z then 4 else 3) ≤ length (b_data b))%nat) ;;
      command_timed_out_log_info l'
  end.

Definition debug_info_command : buf :=
  mk_buf MSG_STACK_TO_HC_HCI_CMD HCIC_PREAMBLE_SIZE 0
    (wr16 (Z.lor HCI_GRP_VENDOR_SPECIFIC HCI_CONTROLLER_DEBUG_INFO_OCF) ++ wr8 0).

(** The alarm is no longer scheduled when its callback runs. *)
Definition command_timed_out : M hci unit :=
  modify (set_command_response_timer (Some None)) ;;
  l ← pending;
  command_timed_out_log_info l ;;
  s ← get;
  if hci_firmware_log_fd s then mret tt
  else
    modify (set_hci_firmware_log_fd firmware_log_opens) ;;
    emit (ETransmit debug_info_command) ;;
    schedule_abort.

Definition hci_timeout_abort : M hci unit := modify (set_hci_firmware_log_fd false) ;; exit 0.
Definition hci_root_inflamed_abort : M hci unit := exit ABORTED.
Definition startup_timer_expired : M hci unit := exit ABORTED.
Definition hal_service_died : M hci unit := s ← get; if abort_timer s then mret tt else exit ABORTED.

(** *** Start-up and shut-down *)

Definition initialization_complete : M hci unit := DoInThread TFinishStartup ;; mret tt.

Definition event_finish_startup : M hci unit :=
  modify (λ s, set_startup_timer (option_map (λ _, None) (startup_timer s)) s) ;;
  s ← get;
  match startup_future s with
  | None => mret tt
  | Some f => future_ready f FSuccess ;; modify (set_startup_future None)
  end.

(** Run a task on the HCI thread. *)
Definition run_task (t : task) : M hci unit :=
  match t with
  | TCommand w => event_command_ready w
  | TPacket p => event_packet_ready p
  | TInitialize => emit EInitialize
  | TFinishStartup => event_finish_startup
  end.

Definition DEFAULT_STARTUP_TIMEOUT_MS : Z := 2900.
(** The value of [bluetooth.enable_timeout_ms] goes through [atoi] into a
    [uint64_t]; [None] is an empty property. *)
Definition startup_timeout_ms (prop : option Z) : Z :=
  match prop with
  | None => DEFAULT_STARTUP_TIMEOUT_MS
  | Some v => if u64 v <? 100 then DEFAULT_STARTUP_TIMEOUT_MS else u64 v
  end.

Definition hci_module_shut_down : M hci unit :=
  modify (set_command_response_timer None) ;;
  modify (set_startup_timer None) ;;
  modify (set_hci_thread None) ;;
  emit EClose ;;
  modify (set_commands_pending_response None) ;;
  modify (set_hci_firmware_log_fd false).

(** What may fail, in the order of the code. *)
Record start_env : Type := mk_start_env {
  startup_alarm : bool; response_alarm : bool; thread_runs : bool; thread_real_time : bool; list_allocated : bool }.

(** [true] is the future of the start-up, [false] one that has failed already. *)
Definition hci_module_start_up (env : start_env) (prop : option Z) : M hci bool :=
  let error := hci_module_shut_down ;; mret false in
  modify (set_command_credits 1) ;;
  if negb (startup_alarm env) then error else
  modify (set_startup_timer (Some None)) ;;
  if negb (response_alarm env) then error else
  modify (set_command_response_timer (Some None)) ;;
  if negb (thread_runs env) then error else
  modify (set_hci_thread (Some [])) ;;
  if negb (thread_real_time env) then error else
  if negb (list_allocated env) then error else
  modify (set_commands_pending_response (Some [])) ;;
  f ← future_new;
  modify (set_startup_future (Some f)) ;;
  modify (set_startup_timer (Some (Some (startup_timeout_ms prop)))) ;;
  DoInThread TInitialize ;;
  mret true.

Definition set_data_cb : M hci unit := modify (set_send_data_upwards true).
Definition hci_layer_cleanup_interface : M hci unit := modify (set_send_data_upwards false).
End hci.
