(* ===== verification/HciLayerInv.v ===== *)
(** * Bluetooth: the invariant of the HCI layer

    Who owns which buffer, in which order commands move from the caller to the
    queue, the HCI thread and the list of those that await a response, and that
    every operation keeps it that way. *)

From S2P Require Import Prelude CMonad BtTypes HciParser HciLayer.

(** ** The invariant *)

Definition task_command (t : task) : option nat := match t with TCommand w => Some w | _ => None end.
Definition task_packet (t : task) : option nat := match t with TPacket p => Some p | _ => None end.
Definition ready_entry (e : effect) : option nat := match e with EReady w => Some w | _ => None end.

(** The commands handed to the fragmenter so far, in order. *)
Definition ready_order (h : hci) : list nat := omap ready_entry (trace h).

(** A command the layer can read the header of. *)
Definition command_ok `{!HciLayerDefs} (b : buf) : Prop :=
  b_event b = MSG_STACK_TO_HC_HCI_CMD ∧
  (b_offset b + (if (3 <? b_len b)%Z then 4 else 3) ≤ length (b_data b))%nat.

Definition data_packet `{!HciLayerDefs} (b : buf) : Prop :=
  Z.land (b_event b) MSG_EVT_MASK ≠ MSG_STACK_TO_HC_HCI_CMD.

(** [HInv h ts pl hd]: [ts] are the tasks of the thread, [pl] the entries that
    await a response and [hd] those an operation holds in its hands. *)
Record HInv `{!HciLayerDefs} (h : hci) (ts : list task) (pl hd : list nat) : Prop := {
  hi_thread : hci_thread h = Some ts;
  hi_pending : commands_pending_response h = Some pl;
  (* every command ever accepted is handed on once, in the order of acceptance *)
  hi_order : ready_order h ++ omap task_command ts ++ command_queue h = seq 0 (next_wait h);
  hi_sub : ∀ w, w ∈ pl ++ hd → w ∈ ready_order h;
  hi_nodup : NoDup (pl ++ hd);
  hi_waits w : is_Some (waits h !! w) ↔ w ∈ pl ++ hd ++ omap task_command ts ++ command_queue h;
  hi_command w e : waits h !! w = Some e → ∃ b, bufs h !! command e = Some b ∧ command_ok b;
  hi_inj w w' e e' : waits h !! w = Some e → waits h !! w' = Some e' → command e = command e' → w = w';
  hi_packets p : p ∈ omap task_packet ts → ∃ b, bufs h !! p = Some b ∧ data_packet b;
  hi_packets_nodup : NoDup (omap task_packet ts);
  hi_packets_own p w e : p ∈ omap task_packet ts → waits h !! w = Some e → command e ≠ p;
  hi_future w e f : waits h !! w = Some e → complete_future e = Some f → futures h !! f = Some None;
  hi_future_inj w w' e e' f : waits h !! w = Some e → waits h !! w' = Some e' →
    complete_future e = Some f → complete_future e' = Some f → w = w';
  hi_startup f : startup_future h = Some f → futures h !! f = Some None ∧
    ∀ w e, waits h !! w = Some e → complete_future e ≠ Some f;
  hi_futures_bound f : is_Some (futures h !! f) → (f < next_future h)%nat;
  hi_credits : 0 < command_credits h → command_queue h = [];
  hi_timer : ∃ t, command_response_timer h = Some t ∧ (hd = [] → t = None ∨ t = head pl)
}.

(** The buffers the layer owns: commands it still has to answer for, and packets
    posted to the thread. *)
Definition owned (h : hci) (p : nat) : Prop :=
  (∃ w e, waits h !! w = Some e ∧ command e = p) ∨ ∃ ts, hci_thread h = Some ts ∧ p ∈ omap task_packet ts.

(** The fragmenter transmits a command in one piece and leaves it to the layer;
    any other packet it splits into packets of its kind, and lets go of exactly
    once, at the end. *)
Class HciPlatformOk `{!HciLayerDefs, !HciPlatform} : Prop := {
  cmd_masked : Z.land MSG_STACK_TO_HC_HCI_CMD MSG_EVT_MASK = MSG_STACK_TO_HC_HCI_CMD;
  fragments_command b : b_event b = MSG_STACK_TO_HC_HCI_CMD → fragments b = [FTransmit b true];
  fragments_packet b : data_packet b →
    ∃ pieces last, fragments b = ((λ p, FTransmit p false) <$> pieces) ++ [last] ∧
      Forall data_packet pieces ∧
      match last with FTransmit piece fin => fin = true ∧ data_packet piece | FFinished _ => True end
}.

(** The run returns with [Q], or ends the process on purpose. *)
Definition safe {A} (m : M hci A) (Q : A → hci → Prop) (h : hci) : Prop :=
  match m h with Ret a h' => Q a h' | Exit _ _ => True | _ => False end.

Lemma safe_wp {A} (m : M hci A) Q h : wp m Q h → safe m Q h.
Proof. unfold wp, safe. by destruct (m h). Qed.
Lemma safe_bind {A B} (m : M hci A) (k : A → M hci B) Q h :
  safe m (λ a h', safe (k a) Q h') h → safe (m ≫= k) Q h.
Proof. unfold safe, mbind, M_bind. by destruct (m h). Qed.
Lemma safe_mono {A} (m : M hci A) (P Q : A → hci → Prop) h :
  safe m P h → (∀ a h', P a h' → Q a h') → safe m Q h.
Proof. unfold safe. destruct (m h); auto. Qed.

(** As [safe], and it only ends the process for want of a receiver of data. *)
Definition runs {A} (m : M hci A) (Q : A → hci → Prop) (h : hci) : Prop :=
  match m h with Ret a h' => Q a h' | Exit _ _ => send_data_upwards h = false | _ => False end.

Lemma runs_safe {A} (m : M hci A) Q h : runs m Q h → safe m Q h.
Proof. unfold runs, safe. by destruct (m h). Qed.
Lemma runs_wp {A} (m : M hci A) Q h : runs m Q h → send_data_upwards h = true → wp m Q h.
Proof. unfold runs, wp. destruct (m h); congruence. Qed.
Lemma wp_runs {A} (m : M hci A) Q h : wp m Q h → runs m Q h.
Proof. unfold runs, wp. by destruct (m h). Qed.
Lemma runs_bind {A B} (m : M hci A) (k : A → M hci B) Q h :
  wp m (λ a h', send_data_upwards h' = send_data_upwards h ∧ runs (k a) Q h') h → runs (m ≫= k) Q h.
Proof. unfold runs, wp, mbind, M_bind. destruct (m h) as [a h'| | |]; [|done..]. intros [E ?]. by rewrite E in *. Qed.

(** ** Consequences *)

Section inv.
Context `{!HciLayerDefs}.
Implicit Types h : hci.

Lemma inv_entry h ts pl hd w : HInv h ts pl hd →
  is_Some (waits h !! w) → w ∈ ready_order h ++ omap task_command ts ++ command_queue h.
Proof.
  intros I Hw. apply (hi_waits _ _ _ _ I) in Hw. pose proof (hi_sub _ _ _ _ I w) as Hs. set_solver.
Qed.

Lemma inv_entry_lt h ts pl hd w : HInv h ts pl hd → is_Some (waits h !! w) → (w < next_wait h)%nat.
Proof.
  intros I Hw. apply (inv_entry _ _ _ _ _ I) in Hw. rewrite (hi_order _ _ _ _ I) in Hw.
  apply elem_of_seq in Hw. lia.
Qed.

Lemma inv_order_nodup h ts pl hd : HInv h ts pl hd →
  NoDup (ready_order h ++ omap task_command ts ++ command_queue h).
Proof. intros I. rewrite (hi_order _ _ _ _ I). apply NoDup_seq. Qed.

(** Changes that keep what the invariant reads. *)
Lemma inv_frame h h' ts pl hd : HInv h ts pl hd →
  hci_thread h' = hci_thread h → commands_pending_response h' = commands_pending_response h →
  ready_order h' = ready_order h → command_queue h' = command_queue h → next_wait h' = next_wait h →
  waits h' = waits h → bufs h' = bufs h → futures h' = futures h → startup_future h' = startup_future h →
  next_future h' = next_future h → command_credits h' = command_credits h →
  command_response_timer h' = command_response_timer h → HInv h' ts pl hd.
Proof.
  intros [] E1 E2 E3 E4 E5 E6 E7 E8 E9 E10 E11 E12.
  split; rewrite ?E1, ?E2, ?E3, ?E4, ?E5, ?E6, ?E7, ?E8, ?E9, ?E10, ?E11, ?E12; assumption.
Qed.

Lemma ready_order_emit h e : ready_entry e = None → ready_order (set_trace (trace h ++ [e]) h) = ready_order h.
Proof. intros He. unfold ready_order. cbn. rewrite omap_app. cbn. by rewrite He, app_nil_r. Qed.

Lemma inv_emit h ts pl hd e : HInv h ts pl hd → ready_entry e = None → HInv (set_trace (trace h ++ [e]) h) ts pl hd.
Proof. intros I He. eapply inv_frame; [exact I|try done..]. by apply ready_order_emit. Qed.

(** The buffers may change outside what the layer owns. *)
Lemma inv_bufs h ts pl hd B : HInv h ts pl hd →
  (∀ p, owned h p → B !! p = bufs h !! p) → HInv (set_bufs B h) ts pl hd.
Proof.
  intros I HB. destruct I. split; try assumption.
  - intros w e Hw. cbn. rewrite HB; [by eapply hi_command0|]. left. by exists w, e.
  - intros p Hp. cbn. rewrite HB; [by apply hi_packets0|]. right. by exists ts.
Qed.

Lemma inv_timer h ts pl : ∀ hd t, HInv h ts pl hd → (hd = [] → t = None ∨ t = head pl) →
  HInv (set_command_response_timer (Some t) h) ts pl hd.
Proof. intros hd t [] Ht. split; try assumption. cbn. eauto. Qed.

Lemma owned_iff h ts pl hd p : HInv h ts pl hd →
  owned h p ↔ (∃ w e, waits h !! w = Some e ∧ command e = p) ∨ p ∈ omap task_packet ts.
Proof.
  intros I. unfold owned. rewrite (hi_thread _ _ _ _ I). split.
  - intros [?|(ts' & E & ?)]; [by left|]. injection E as <-. by right.
  - intros [?|?]; [by left|]. right. eauto.
Qed.

(** ** Accepting a command *)

Definition accept_state (e : waiting_command_t) (ts : list task) (q : list nat) (c : Z) (h : hci) : hci :=
  set_command_credits c (set_command_queue q (set_hci_thread (Some ts)
    (set_next_wait (S (next_wait h)) (set_waits (<[next_wait h := e]> (waits h)) h)))).

Lemma inv_accept h ts pl e ts' q' c' : HInv h ts pl [] →
  (∃ b, bufs h !! command e = Some b ∧ command_ok b) → ¬ owned h (command e) →
  (∀ f, complete_future e = Some f → futures h !! f = Some None ∧ startup_future h ≠ Some f ∧
    ∀ w' e', waits h !! w' = Some e' → complete_future e' ≠ Some f) →
  omap task_command ts' ++ q' = omap task_command ts ++ command_queue h ++ [next_wait h] →
  omap task_packet ts' = omap task_packet ts → (0 < c' → q' = []) →
  HInv (accept_state e ts' q' c' h) ts' pl [].
Proof.
  intros I Hb Ho Hf Hq Hp Hc.
  assert (waits h !! next_wait h = None) as Hfresh.
  { destruct (waits h !! next_wait h) eqn:E; [|done].
    pose proof (inv_entry_lt _ _ _ _ (next_wait h) I ltac:(by rewrite E)). lia. }
  rewrite (owned_iff _ _ _ _ _ I) in Ho.
  destruct I. split; cbn [accept_state set_command_credits set_command_queue set_hci_thread set_next_wait set_waits
    hci_thread commands_pending_response command_queue next_wait waits bufs futures startup_future next_future
    command_credits command_response_timer]; rewrite ?Hp; try done.
  - change (ready_order (accept_state e ts' q' c' h)) with (ready_order h).
    rewrite Hq, seq_S, <- hi_order0. by rewrite <- !app_assoc.
  - intros w. rewrite Hq. destruct (decide (w = next_wait h)) as [->|Hne].
    + rewrite lookup_insert_eq. split; [set_solver|eauto].
    + rewrite lookup_insert_ne, hi_waits0 by done. set_solver.
  - intros w e' Hw. apply lookup_insert_Some in Hw as [[_ <-]|[_ Hw]]; eauto.
  - intros w w' x x' Hw Hw' E. apply lookup_insert_Some in Hw, Hw'.
    destruct Hw as [[<- <-]|[? Hw]], Hw' as [[<- <-]|[? Hw']]; try done.
    + destruct Ho. left. eauto.
    + destruct Ho. left. eauto.
    + eauto.
  - intros p w x Hpk Hw E. apply lookup_insert_Some in Hw as [[_ <-]|[_ Hw]]; [|by eapply hi_packets_own0].
    apply Ho. right. by rewrite E.
  - intros w x f Hw E. apply lookup_insert_Some in Hw as [[_ <-]|[_ Hw]]; [by apply Hf|by eapply hi_future0].
  - intros w w' x x' f Hw Hw' E E'. apply lookup_insert_Some in Hw, Hw'.
    destruct Hw as [[<- <-]|[? Hw]], Hw' as [[<- <-]|[? Hw']]; try done.
    + by destruct (proj2 (proj2 (Hf _ E)) _ _ Hw').
    + by destruct (proj2 (proj2 (Hf _ E')) _ _ Hw).
    + eauto.
  - intros f E. destruct (hi_startup0 f E) as [? Hn]. split; [done|]. intros w x Hw.
    apply lookup_insert_Some in Hw as [[_ <-]|[_ Hw]]; [|by eapply Hn]. intros E'. by destruct (Hf _ E') as (_ & ? & _).
Qed.
End inv.

Section operations.
Context `{!BtMacros, !HcicSizes, !HciDefs, !HciLayerDefs, !HciPlatform}.
Implicit Types h : hci.

Definition settled (h : hci) : Prop := ∃ ts pl, HInv h ts pl [].

Lemma enqueue_ok h ts pl e : HInv h ts pl [] →
  (∃ b, bufs h !! command e = Some b ∧ command_ok b) → ¬ owned h (command e) →
  (∀ f, complete_future e = Some f → futures h !! f = Some None ∧ startup_future h ≠ Some f ∧
    ∀ w' e', waits h !! w' = Some e' → complete_future e' ≠ Some f) →
  wp (w ← new_wait e; enqueue_command w) (λ _ h', settled h' ∧ futures h' = futures h) h.
Proof.
  intros I Hb Ho Hf. pose proof (hi_thread _ _ _ _ I) as Ht.
  unfold enqueue_command, new_wait, DoInThread, wp, mbind, M_bind, get.
  cbn [command_credits set_next_wait set_waits].
  destruct (Z.ltb_spec 0 (command_credits h)) as [Hc|Hc].
  - cbn [hci_thread set_next_wait set_waits]. rewrite Ht. cbn [negb].
    split; [|done]. eexists _, pl. eapply inv_frame; [eapply (inv_accept h ts pl e (ts ++ [TCommand (next_wait h)])
      (command_queue h) (command_credits h - 1))|..]; try done.
    + rewrite (hi_credits _ _ _ _ I) by done. rewrite omap_app. cbn. by rewrite app_nil_r.
    + rewrite omap_app. cbn. by rewrite app_nil_r.
    + intros _. by apply (hi_credits _ _ _ _ I).
  - split; [|done]. eexists ts, pl. eapply inv_frame; [eapply (inv_accept h ts pl e ts
      (command_queue h ++ [next_wait h]) (command_credits h))|..]; try done. lia.
Qed.

(** The caller hands over a command of its own. *)
Definition command_given (h : hci) (cmd : nat) : Prop :=
  ¬ owned h cmd ∧ ∃ b, bufs h !! cmd = Some b ∧
    (b_offset b + (if (3 <? b_len b)%Z then 4 else 3) ≤ length (b_data b))%nat.

Lemma command_opcode_ok h ts pl cmd : HInv h ts pl [] → command_given h cmd →
  wp (command_opcode cmd) (λ _ h', HInv h' ts pl [] ∧ ¬ owned h' cmd ∧
    (∃ b, bufs h' !! cmd = Some b ∧ command_ok b) ∧ waits h' = waits h ∧ futures h' = futures h ∧
    startup_future h' = startup_future h ∧ next_future h' = next_future h) h.
Proof.
  intros I (Ho & b & Hb & Hl).
  unfold wp, command_opcode, mbind, M_bind, load_buf, store_buf, modify. rewrite Hb.
  rewrite bool_decide_eq_true_2 by (destruct (3 <? b_len b)%Z; lia). cbn.
  split_and!; try done.
  - apply inv_bufs; [done|]. intros p Hp. rewrite lookup_insert_ne; [done|]. by intros <-.
  - eexists. rewrite lookup_insert_eq. split; [done|]. split; [done|]. exact Hl.
Qed.

Lemma transmit_command_ok h cmd complete status ctx : settled h → command_given h cmd →
  wp (transmit_command cmd complete status ctx) (λ _ h', settled h' ∧ futures h' = futures h) h.
Proof.
  intros (ts & pl & I) Hc. unfold transmit_command. wp_step.
  wp_use command_opcode_ok; [done..|]. intros op h1 (I1 & Ho & Hb & _ & Hf & _).
  wp_use enqueue_ok; [exact I1|exact Hb|exact Ho|done|]. intros _ h2 [? E]. split; [done|congruence].
Qed.

Lemma inv_future_new h ts pl hd : HInv h ts pl hd →
  HInv (set_next_future (S (next_future h)) (set_futures (<[next_future h := None]> (futures h)) h)) ts pl hd.
Proof.
  intros I. destruct I. split; try assumption; cbn.
  - intros w e f Hw E. rewrite lookup_insert_ne; [by eapply hi_future0|].
    intros <-. pose proof (hi_future0 _ _ _ Hw E) as Hf.
    pose proof (hi_futures_bound0 (next_future h) ltac:(by rewrite Hf)). lia.
  - intros f E. destruct (hi_startup0 f E) as [Hf ?]. split; [|done]. rewrite lookup_insert_ne; [done|].
    intros <-. pose proof (hi_futures_bound0 (next_future h) ltac:(by rewrite Hf)). lia.
  - intros f. destruct (decide (f = next_future h)) as [->|?]; [lia|].
    rewrite lookup_insert_ne by done. intros Hf. apply hi_futures_bound0 in Hf. lia.
Qed.

(** The future is new and not ready. *)
Lemma transmit_command_futured_ok h cmd : settled h → command_given h cmd →
  wp (transmit_command_futured cmd) (λ f h', settled h' ∧ f = next_future h ∧
    futures h' = <[f := None]> (futures h) ∧ futures h !! f = None) h.
Proof.
  intros (ts & pl & I) Hc. unfold transmit_command_futured.
  pose proof (inv_future_new _ _ _ _ I) as I1. pose proof (hi_futures_bound _ _ _ _ I (next_future h)) as Hnb.
  assert (futures h !! next_future h = None) as Hn.
  { destruct (futures h !! next_future h) as [x|] eqn:E; [|done]. specialize (Hnb (mk_is_Some _ _ eq_refl)). lia. }
  apply wp_bind. unfold wp at 1, future_new. set (h1 := set_next_future _ _) in *.
  wp_step. wp_use command_opcode_ok; [exact I1|exact Hc|].
  intros op h2 (I2 & Ho & Hb & Hw & Hf & Hs & _).
  apply wp_assoc. wp_step. wp_use enqueue_ok; [exact I2|exact Hb|exact Ho| |].
  - cbn [complete_future]. intros f E. injection E as <-. rewrite Hf, Hs, Hw. subst h1. cbn.
    rewrite lookup_insert_eq. split_and!; [done| |].
    + intros E. destruct (hi_startup _ _ _ _ I _ E) as [E' _]. congruence.
    + intros w' e' Hw' E. pose proof (hi_future _ _ _ _ I _ _ _ Hw' E). congruence.
  - intros _ h3 [Hset Hf3]. wp_step. split_and!; [done|done| |done]. rewrite Hf3, Hf. done.
Qed.

(** ** Data packets *)

Lemma enqueue_packet_ok h p b : settled h → bufs h !! p = Some b → data_packet b → ¬ owned h p →
  wp (enqueue_packet p) (λ _ h', settled h') h.
Proof.
  intros (ts & pl & I) Hb Hd Ho. pose proof (hi_thread _ _ _ _ I) as Ht.
  rewrite (owned_iff _ _ _ _ _ I) in Ho.
  unfold enqueue_packet, DoInThread, wp, mbind, M_bind. rewrite Ht. cbn [negb].
  exists (ts ++ [TPacket p]), pl. destruct I. rewrite app_nil_r in hi_sub0, hi_nodup0.
  split; cbn; rewrite ?omap_app; cbn; rewrite ?app_nil_r; try done.
  - intros q. rewrite elem_of_app, list_elem_of_singleton. intros [Hq| ->]; eauto.
  - apply NoDup_app. split_and!; [done| |apply NoDup_singleton].
    intros q Hq ->%list_elem_of_singleton. apply Ho. by right.
  - intros q w e. rewrite elem_of_app, list_elem_of_singleton. intros [Hq| ->] Hw; [eauto|].
    intros <-. apply Ho. left. eauto.
Qed.

Lemma not_owned_bufs h ts pl hd p B : HInv h ts pl hd → ¬ owned h p →
  (∀ q, q ≠ p → B !! q = bufs h !! q) → HInv (set_bufs B h) ts pl hd.
Proof. intros I Ho HB. apply inv_bufs; [done|]. intros q Hq. apply HB. by intros ->. Qed.

Lemma not_owned_set_bufs h p B : owned (set_bufs B h) p ↔ owned h p.
Proof. done. Qed.
Lemma not_owned_emit h p e : owned (set_trace (trace h ++ [e]) h) p ↔ owned h p.
Proof. done. Qed.

(** A packet the layer does not own goes through the fragmenter. *)
Lemma dispatch_fragments_ok pieces last h ts pl p :
  HInv h ts pl [] → ¬ owned h p → is_Some (bufs h !! p) →
  match last with FTransmit piece fin => fin = true ∧ data_packet piece | FFinished _ => True end →
  runs (dispatch_fragments p (((λ x, FTransmit x false) <$> pieces) ++ [last])) (λ _ h', HInv h' ts pl []) h.
Proof.
  intros I Ho Hp Hlast. revert h I Ho Hp. induction pieces as [|x pieces IH]; intros h I Ho [b Hb].
  - cbn [fmap list_fmap app dispatch_fragments]. destruct last as [piece fin|all].
    + destruct Hlast as [-> Hd]. unfold store_buf, transmit_fragment, free_buf, emit, load_buf,
        runs, mbind, M_bind, modify. rewrite Hb. cbn. rewrite lookup_insert_eq. cbn.
      rewrite (proj2 (Z.eqb_neq _ _)) by exact Hd. cbn. rewrite lookup_insert_eq. cbn.
      eapply inv_frame; [eapply (not_owned_bufs h ts pl [] p (delete p (<[p := piece]> (bufs h))) I Ho)|..]; try done.
      * intros q Hq. by rewrite lookup_delete_ne, lookup_insert_ne by done.
      * unfold ready_order. cbn. rewrite omap_app. cbn. by rewrite app_nil_r.
    + unfold fragmenter_transmit_finished. destruct all.
      * unfold free_buf, load_buf, runs, mbind, M_bind, modify. rewrite Hb. cbn.
        apply (not_owned_bufs h ts pl [] p); [done..|]. intros q Hq. by rewrite lookup_delete_ne.
      * unfold run_upwards, check, emit, runs, mbind, M_bind, get, modify. cbn.
        destruct (send_data_upwards h); [by apply inv_emit|done].
  - rewrite fmap_cons. cbn [app dispatch_fragments].
    unfold store_buf, transmit_fragment, load_buf, emit, runs, mbind, M_bind, modify. rewrite Hb. cbn.
    rewrite lookup_insert_eq. cbn. rewrite andb_false_r. cbn.
    apply (IH (set_trace _ (set_bufs (<[p := x]> (bufs h)) h))).
    + apply (inv_emit (set_bufs (<[p := x]> (bufs h)) h)); [|done].
      apply (not_owned_bufs h ts pl [] p); [done..|]. intros q Hq. by rewrite lookup_insert_ne.
    + done.
    + cbn. by rewrite lookup_insert_eq.
Qed.

Context `{!HciPlatformOk}.

Lemma fragment_packet_ok h ts pl p b : HInv h ts pl [] → ¬ owned h p → bufs h !! p = Some b → data_packet b →
  runs (fragment_and_dispatch p) (λ _ h', HInv h' ts pl []) h.
Proof.
  intros I Ho Hb Hd. unfold fragment_and_dispatch.
  destruct (fragments_packet b Hd) as (pieces & last & E & _ & Hl).
  apply runs_bind, (run_wp _ _ _ b h); [by unfold load_buf; rewrite Hb|]. split; [done|]. rewrite E.
  apply dispatch_fragments_ok; eauto.
Qed.

(** A command goes out in one piece, and stays with the layer. *)
Lemma fragment_command_ok h p b : bufs h !! p = Some b → b_event b = MSG_STACK_TO_HC_HCI_CMD →
  fragment_and_dispatch p h = Ret tt (set_trace (trace h ++ [ETransmit b]) (set_bufs (<[p := b]> (bufs h)) h)).
Proof.
  intros Hb He. unfold fragment_and_dispatch, load_buf at 1, mbind at 1, M_bind at 1. rewrite Hb, (fragments_command b He).
  cbn [dispatch_fragments]. unfold transmit_fragment, store_buf, load_buf, emit, mbind, M_bind, modify. rewrite Hb. cbn.
  rewrite lookup_insert_eq, He, cmd_masked, Z.eqb_refl. done.
Qed.

(** ** The HCI thread *)

(** It runs the next task, if there is one. *)
Definition run_next : M hci unit :=
  s ← get;
  match hci_thread s with
  | Some (t :: ts) => modify (set_hci_thread (Some ts)) ;; run_task t
  | _ => mret tt
  end.

Lemma update_timer_run h ts pl hd : HInv h ts pl hd →
  update_command_response_timer h = Ret tt (set_command_response_timer (Some (head pl)) h).
Proof.
  intros I. destruct (hi_timer _ _ _ _ I) as (t & Ht & _).
  unfold update_command_response_timer, mbind, M_bind, get, pending. rewrite Ht, (hi_pending _ _ _ _ I). done.
Qed.

Lemma inv_ready h w ts pl : HInv h (TCommand w :: ts) pl [] →
  HInv (set_trace (trace h ++ [EReady w]) (set_commands_pending_response (Some (pl ++ [w]))
    (set_hci_thread (Some ts) h))) ts (pl ++ [w]) [].
Proof.
  intros I. pose proof (inv_order_nodup _ _ _ _ I) as Hnd. cbn [omap list_omap task_command app] in Hnd.
  destruct I. cbn [omap list_omap task_command task_packet app] in *. rewrite app_nil_r in hi_sub0, hi_nodup0.
  assert (ready_order (set_trace (trace h ++ [EReady w]) (set_commands_pending_response (Some (pl ++ [w]))
    (set_hci_thread (Some ts) h))) = ready_order h ++ [w]) as Hr.
  { unfold ready_order. cbn. by rewrite omap_app. }
  split; rewrite ?Hr, ?app_nil_r; cbn [set_trace set_commands_pending_response set_hci_thread
    hci_thread commands_pending_response command_queue next_wait waits bufs futures startup_future next_future
    command_credits command_response_timer]; try done.
  - by rewrite <- hi_order0, <- app_assoc.
  - set_solver.
  - apply NoDup_app. split_and!; [done| |apply NoDup_singleton].
    intros x Hx ->%list_elem_of_singleton. apply NoDup_app in Hnd as (_ & Hnd & _).
    apply (Hnd w); [by apply hi_sub0|]. set_solver.
  - intros x. rewrite hi_waits0. set_solver.
  - destruct hi_timer0 as (t & Ht & Hh). exists t. split; [done|]. intros _.
    destruct (Hh eq_refl) as [->| ->]; [by left|]. destruct pl; [by left|by right].
Qed.

Lemma event_command_ready_ok h w ts pl : HInv h (TCommand w :: ts) pl [] →
  wp (event_command_ready w) (λ _ h', HInv h' ts (pl ++ [w]) []) (set_hci_thread (Some ts) h).
Proof.
  intros I. pose proof (inv_ready _ _ _ _ I) as I1.
  assert (is_Some (waits h !! w)) as [e He] by (apply (hi_waits _ _ _ _ I); set_solver).
  destruct (hi_command _ _ _ _ I _ _ He) as (b & Hb & Hc).
  unfold event_command_ready. wp_step.
  eapply run_wp.
  { unfold command_ready_append, load_wait, pending, emit, mbind, M_bind, modify. cbn [set_hci_thread waits].
    rewrite He. cbn [set_hci_thread commands_pending_response]. rewrite (hi_pending _ _ _ _ I). reflexivity. }
  set (h1 := set_trace _ _). assert (HInv h1 ts (pl ++ [w]) []) as I1' by exact I1.
  assert (waits h1 !! w = Some e) as He' by exact He. assert (bufs h1 !! command e = Some b) as Hb' by exact Hb.
  clearbody h1. unfold command_ready_send. wp_step. apply (run_wp _ _ _ e h1); [by unfold load_wait; rewrite He'|].
  wp_step. eapply run_wp; [eapply fragment_command_ok; [exact Hb'|apply Hc]|].
  assert (HInv (set_trace (trace h1 ++ [ETransmit b]) (set_bufs (<[command e := b]> (bufs h1)) h1)) ts (pl ++ [w]) [])
    as I2.
  { rewrite insert_id by done. eapply inv_frame; [exact I1'|try done..].
    unfold ready_order. cbn. rewrite omap_app. cbn. by rewrite app_nil_r. }
  eapply run_wp; [by eapply update_timer_run|]. apply inv_timer; [done|]. by right.
Qed.

Lemma inv_startup h ts pl f : HInv h ts pl [] → startup_future h = Some f →
  HInv (set_startup_future None (set_futures (<[f := Some FSuccess]> (futures h)) h)) ts pl [].
Proof.
  intros I Hs. destruct I. destruct (hi_startup0 f Hs) as [Hf Hn]. split; try assumption; cbn; try done.
  - intros w e g Hw E. rewrite lookup_insert_ne; [by eapply hi_future0|]. intros <-. by eapply Hn.
  - intros g Hg. apply hi_futures_bound0. destruct (decide (g = f)) as [->|?]; [by rewrite Hf|].
    by rewrite lookup_insert_ne in Hg.
Qed.

(** Whatever its next task, the thread runs it without a fault. *)
Lemma run_next_inv h ts pl : HInv h ts pl [] →
  runs run_next (λ _ h', HInv h' (tail ts) (pl ++ omap task_command (take 1 ts)) []) h.
Proof.
  intros I. unfold run_next. apply runs_bind. wp_step. split; [done|]. rewrite (hi_thread _ _ _ _ I).
  destruct ts as [|t ts]; [apply wp_runs; wp_step; by rewrite app_nil_r|].
  apply runs_bind. wp_step. split; [done|].
  destruct t as [w|p| |]; cbn [run_task tail take omap list_omap task_command]; rewrite ?app_nil_r.
  - apply wp_runs. by apply event_command_ready_ok.
  - assert (HInv (set_hci_thread (Some ts) h) ts pl [] ∧ ¬ owned (set_hci_thread (Some ts) h) p) as [I1 Ho].
    { destruct I. cbn in hi_packets_nodup0. apply NoDup_cons in hi_packets_nodup0 as [Hp Hnd].
      split; [split; cbn in *; try done|].
      - intros q Hq. apply hi_packets0. by apply list_elem_of_further.
      - intros q w e Hq. apply hi_packets_own0. by apply list_elem_of_further.
      - intros [(w & e & Hw & E)|(ts' & E & Hq)]; [|injection E as <-; done].
        eapply hi_packets_own0; [|exact Hw|exact E]. cbn. by apply list_elem_of_here. }
    destruct (hi_packets _ _ _ _ I p) as (b & Hb & Hd); [cbn; by apply list_elem_of_here|].
    by eapply fragment_packet_ok.
  - apply wp_runs, inv_emit; [|done]. by destruct I.
  - assert (HInv (set_startup_timer (option_map (λ _, None) (startup_timer h)) (set_hci_thread (Some ts) h)) ts pl [])
      as I1 by (by destruct I).
    apply wp_runs. unfold event_finish_startup. wp_step. wp_step. wp_step. wp_step. cbn [startup_future set_startup_timer set_hci_thread].
    destruct (startup_future h) as [f|] eqn:Hf; [|by wp_step].
    wp_step. unfold future_ready. eapply run_wp.
    { cbn [futures set_startup_timer set_hci_thread]. destruct (hi_startup _ _ _ _ I f Hf) as [-> _]. reflexivity. }
    wp_step. by apply (inv_startup _ _ _ f I1).
Qed.

Lemma run_next_ok h : settled h → safe run_next (λ _ h', settled h') h.
Proof.
  intros (ts & pl & I). eapply safe_mono; [by eapply runs_safe, run_next_inv|].
  intros ? h' Hi. eexists _, _. exact Hi.
Qed.
End operations.
