(* ===== verification/HciLayerEvents.v ===== *)
(** * Bluetooth: events of the HCI layer

    What each event does: which waiting command it answers, how many queued
    commands its credits let go, and who ends up with the event and the command. *)

From S2P Require Import Prelude CMonad BtTypes HciParser HciLayer HciLayerInv.

Section events.
Context `{!BtMacros, !HcicSizes, !HciDefs, !HciLayerDefs, !HciPlatform}.
Implicit Types h : hci.

(** ** Matching *)

Definition entry_is (h : hci) (f : waiting_command_t → bool) (w : nat) : bool :=
  match waits h !! w with Some e => f e | None => false end.

(** The entry an event with this operation code answers: the oldest with the same
    code, else, between vendor specific codes, the oldest of those. *)
Definition answered_by (h : hci) (pl : list nat) (opcode : Z) : option nat :=
  match list_find (λ w, entry_is h (λ e, w_opcode e =? opcode) w = true) pl with
  | Some (_, w) => Some w
  | None =>
      if is_vendor_specific opcode
      then snd <$> list_find (λ w, entry_is h (λ e, is_vendor_specific (w_opcode e)) w = true) pl
      else None
  end.

Lemma find_wait_ok h f l : (∀ w, w ∈ l → is_Some (waits h !! w)) →
  find_wait f l h = Ret (snd <$> list_find (λ w, entry_is h f w = true) l) h.
Proof.
  induction l as [|w l IH]; intros Hl; [done|]. cbn [find_wait list_find].
  destruct (Hl w ltac:(by left)) as [e He]. unfold mbind, M_bind, load_wait. rewrite He.
  assert (entry_is h f w = f e) as Ew by (unfold entry_is; by rewrite He). destruct (f e) eqn:Ef.
  - by rewrite decide_True.
  - rewrite decide_False by congruence. rewrite IH by (intros; apply Hl; by right).
    by destruct (list_find _ l) as [[? ?]|].
Qed.

Lemma get_waiting_command_exact h ts pl op : HInv h ts pl [] →
  get_waiting_command op h =
  match answered_by h pl op with
  | Some w => Ret (Some w) (set_commands_pending_response (Some (list_remove w pl)) h)
  | None => Ret None h
  end.
Proof.
  intros I.
  assert (∀ w, w ∈ pl → is_Some (waits h !! w)) as Hl.
  { intros w Hw. apply (hi_waits _ _ _ _ I). set_solver. }
  unfold get_waiting_command, mbind at 1, M_bind at 1, pending. rewrite (hi_pending _ _ _ _ I).
  unfold mbind at 1, M_bind at 1. rewrite find_wait_ok by done. unfold answered_by.
  destruct (list_find _ pl) as [[i w]|] eqn:E1; [done|]. cbn [snd fmap option_fmap option_map].
  unfold mbind at 1, M_bind at 1. rewrite find_wait_ok by done.
  assert (list_find (λ w, entry_is h (λ e, negb (w_opcode e =? op) && is_vendor_specific (w_opcode e) &&
            is_vendor_specific op) w = true) pl =
          (if is_vendor_specific op
           then list_find (λ w, entry_is h (λ e, is_vendor_specific (w_opcode e)) w = true) pl else None)) as ->.
  2: { destruct (is_vendor_specific op); [|done]. by destruct (snd <$> _). }
  apply list_find_None in E1. clear Hl I. induction pl as [|w pl IH]; [by destruct (is_vendor_specific op)|].
  inversion_clear E1 as [|? ? Hw E2]. cbn [list_find]. rewrite (IH E2).
  assert (entry_is h (λ e, negb (w_opcode e =? op) && is_vendor_specific (w_opcode e) && is_vendor_specific op) w =
          entry_is h (λ e, is_vendor_specific (w_opcode e)) w && is_vendor_specific op) as Eb.
  { unfold entry_is in *. destruct (waits h !! w) as [e|]; [|done]. destruct (w_opcode e =? op); [done|]. done. }
  destruct (is_vendor_specific op).
  - rewrite andb_true_r in Eb. case_decide; case_decide; congruence.
  - rewrite andb_false_r in Eb. case_decide; [congruence|]. done.
Qed.

Lemma answered_by_in h pl op w : answered_by h pl op = Some w → w ∈ pl.
Proof.
  unfold answered_by. destruct (list_find _ pl) as [[i x]|] eqn:E.
  - intros F. injection F as <-. apply list_find_Some in E as (E & _). by eapply list_elem_of_lookup_2.
  - destruct (is_vendor_specific op); [|done].
    intros F. apply fmap_Some in F as ([i x] & E2 & ->). cbn.
    apply list_find_Some in E2 as (E2 & _). by eapply list_elem_of_lookup_2.
Qed.

Lemma elem_of_list_remove w x l : NoDup l → x ∈ list_remove w l ↔ x ∈ l ∧ x ≠ w.
Proof.
  induction 1 as [|y l Hy Hnd IH]; cbn [list_remove]; [set_solver|].
  case_bool_decide as E; subst; set_solver.
Qed.

Lemma NoDup_list_remove w l : NoDup l → NoDup (list_remove w l).
Proof.
  intros Hl. induction Hl as [|y l Hy Hnd IH]; cbn [list_remove]; [constructor|].
  case_bool_decide; [done|]. constructor; [|done]. rewrite elem_of_list_remove by done. naive_solver.
Qed.

(** The entry is taken out of the list and held. *)
Lemma inv_take h ts pl w : HInv h ts pl [] → w ∈ pl →
  HInv (set_commands_pending_response (Some (list_remove w pl)) h) ts (list_remove w pl) [w].
Proof.
  intros I Hw. destruct I. rewrite app_nil_r in hi_sub, hi_nodup. cbn [app] in hi_waits.
  assert (∀ x, x ∈ list_remove w pl ++ [w] ↔ x ∈ pl) as Hx.
  { intros x. rewrite elem_of_app, elem_of_list_remove, list_elem_of_singleton by done.
    destruct (decide (x = w)) as [->|]; naive_solver. }
  split; cbn; try done.
  - intros x. rewrite Hx. apply hi_sub.
  - apply NoDup_app. split_and!; [by apply NoDup_list_remove| |apply NoDup_singleton].
    intros x. rewrite elem_of_list_remove, list_elem_of_singleton by done. naive_solver.
  - intros x. rewrite hi_waits, (elem_of_app (list_remove w pl)), elem_of_list_remove by done.
    rewrite (elem_of_cons _ x w), !elem_of_app. destruct (decide (x = w)) as [->|]; naive_solver.
  - destruct hi_timer as (t & Ht & _). by exists t.
Qed.

(** ** Credits *)

Definition posted (c : Z) (pl queue : list nat) : nat := Z.to_nat (c - Z.of_nat (length pl)) `min` length queue.

Lemma inv_no_credits h ts pl hd c : HInv h ts pl hd → c <= 0 → HInv (set_command_credits c h) ts pl hd.
Proof. intros [] Hc. split; try done. cbn. lia. Qed.

Lemma inv_set_credits h ts pl hd c : HInv (set_command_credits 0 h) ts pl hd →
  (0 < c → command_queue h = []) → HInv (set_command_credits c h) ts pl hd.
Proof. intros [] Hc. by split. Qed.

Lemma inv_post h ts pl hd w q : HInv (set_command_credits 0 h) ts pl hd → command_queue h = w :: q →
  HInv (set_command_credits 0 (set_command_queue q (set_hci_thread (Some (ts ++ [TCommand w])) h)))
    (ts ++ [TCommand w]) pl hd.
Proof.
  intros [] Hq. cbn in *. rewrite Hq in *. split; cbn; rewrite ?omap_app; cbn; rewrite ?app_nil_r; try done.
  - by rewrite <- app_assoc.
  - intros x. rewrite hi_waits, <- app_assoc. done.
Qed.

(** Posting commands touches nothing but the thread, the queue and the credits. *)
Definition only_posted (h h' : hci) : Prop :=
  ∃ t q c, h' = set_command_credits c (set_command_queue q (set_hci_thread t h)).

Lemma only_posted_refl h : only_posted h h.
Proof. exists (hci_thread h), (command_queue h), (command_credits h). by destruct h. Qed.
Lemma only_posted_trans h1 h2 h3 : only_posted h1 h2 → only_posted h2 h3 → only_posted h1 h3.
Proof. intros (t & q & c & ->) (t' & q' & c' & ->). by exists t', q', c'. Qed.

Lemma drain_queue_ok q h ts pl hd :
  HInv (set_command_credits 0 h) ts pl hd → command_queue h = q →
  wp (drain_queue q) (λ _ h', let k := (Z.to_nat (command_credits h) `min` length q)%nat in
    HInv h' (ts ++ (TCommand <$> take k q)) pl hd ∧ only_posted h h' ∧
    command_queue h' = drop k q ∧ command_credits h' = command_credits h - Z.of_nat k) h.
Proof.
  revert h ts. induction q as [|w q IH]; intros h ts I Hq; cbn [drain_queue].
  - wp_step. rewrite Nat.min_0_r. cbn. rewrite app_nil_r. split_and!; [|apply only_posted_refl|done|lia].
    pose proof (inv_set_credits h ts pl hd (command_credits h) I (λ _, Hq)) as I'. by destruct h.
  - wp_step. wp_step. destruct (Z.ltb_spec 0 (command_credits h)) as [Hc|Hc].
    + pose proof (hi_thread _ _ _ _ I) as Ht. change (hci_thread h = Some ts) in Ht.
      wp_step. unfold DoInThread. eapply run_wp; [rewrite Ht; reflexivity|].
      do 4 wp_step. eapply wp_mono.
      { apply (IH (set_command_credits (command_credits h - 1) (set_command_queue q (set_hci_thread (Some (ts ++ [TCommand w])) h)))
          (ts ++ [TCommand w])); [|done]. eapply inv_frame; [by eapply inv_post|done..]. }
      intros [] h' Hp. cbn zeta in Hp.
      cbn [command_credits set_command_credits] in Hp.
      replace (Z.to_nat (command_credits h) `min` length (w :: q))%nat
        with (S (Z.to_nat (command_credits h - 1) `min` length q)) by (cbn [length]; lia).
      set (k := (_ `min` length q)%nat) in *. destruct Hp as (I' & Ho & Hq' & Hc').
      cbn [take drop fmap list_fmap]. rewrite <- app_assoc in I'. split_and!; [done| |done|lia].
      eapply only_posted_trans; [|exact Ho]. by eexists _, _, _.
    + replace (Z.to_nat (command_credits h)) with 0%nat by lia. wp_step. cbn. rewrite app_nil_r.
      split_and!; [|apply only_posted_refl|done|lia].
      pose proof (inv_set_credits h ts pl hd (command_credits h) I ltac:(lia)) as I'. by destruct h.
Qed.

(** The commands let go are those the credits leave room for, in the order they
    were queued, and what is left of the credits is kept. *)
Lemma process_command_credits_ok h ts pl hd c : HInv h ts pl hd →
  wp (process_command_credits c) (λ _ h', let k := posted c pl (command_queue h) in
    HInv h' (ts ++ (TCommand <$> take k (command_queue h))) pl hd ∧ only_posted h h' ∧
    command_queue h' = drop k (command_queue h) ∧
    command_credits h' = c - Z.of_nat (length pl) - Z.of_nat k) h.
Proof.
  intros I. unfold process_command_credits, get_num_waiting_commands, pending.
  wp_step. wp_step. rewrite (hi_thread _ _ _ _ I). wp_step. wp_step.
  eapply run_wp; [by rewrite (hi_pending _ _ _ _ I)|]. do 5 wp_step.
  set (h1 := set_command_credits _ h).
  assert (HInv (set_command_credits 0 h1) ts pl hd) as I1 by (by eapply (inv_no_credits h ts pl hd 0)).
  eapply wp_mono; [by apply (drain_queue_ok _ h1 ts pl hd I1)|].
  intros [] h' (I' & Ho & Hq & Hc). split_and!; [exact I'| |exact Hq|exact Hc].
  eapply only_posted_trans; [|exact Ho]. exists (hci_thread h), (command_queue h), (c - Z.of_nat (length pl)).
  by destruct h.
Qed.

(** ** Letting an entry go *)

(** The held entry is freed, its future perhaps ready, and buffers that nobody
    else owns freed. *)
Lemma inv_release h h' ts pl w e : HInv h ts pl [w] → waits h !! w = Some e →
  command_response_timer h = Some (head pl) →
  waits h' = delete w (waits h) →
  (∀ p, owned h p → p ≠ command e → bufs h' !! p = bufs h !! p) →
  (∀ f, complete_future e ≠ Some f → futures h' !! f = futures h !! f) →
  (∀ f, is_Some (futures h' !! f) → (f < next_future h)%nat) →
  hci_thread h' = hci_thread h → commands_pending_response h' = commands_pending_response h →
  ready_order h' = ready_order h → command_queue h' = command_queue h → next_wait h' = next_wait h →
  startup_future h' = startup_future h → next_future h' = next_future h →
  command_credits h' = command_credits h → command_response_timer h' = command_response_timer h →
  HInv h' ts pl [].
Proof.
  intros I He Ht Ew Eb Ef Ebd E1 E2 E3 E4 E5 E6 E7 E8 E9.
  pose proof (inv_order_nodup _ _ _ _ I) as Hnd.
  assert (∀ p, owned h p ↔ _) as Hown by (intros p; apply (owned_iff _ _ _ _ p I)).
  destruct I.
  assert (∀ x, x ∈ pl ++ omap task_command ts ++ command_queue h → x ≠ w) as Hx.
  { intros x Hx ->. apply NoDup_app in hi_nodup as (_ & Hd & _). apply NoDup_app in Hnd as (_ & Hr & _).
    apply elem_of_app in Hx as [Hx|Hx]; [by apply (Hd w Hx); left|].
    apply (Hr w); [apply hi_sub; apply elem_of_app; right; by left|done]. }
  assert (∀ x y, waits h' !! x = Some y ↔ x ≠ w ∧ waits h !! x = Some y) as Hw.
  { intros x y. rewrite Ew, lookup_delete_Some. naive_solver. }
  assert (∀ x y, waits h' !! x = Some y → command y ≠ command e) as Hc.
  { intros x y Hy. apply Hw in Hy as [? Hy]. intros E. by rewrite (hi_inj _ _ _ _ Hy He E) in *. }
  split; rewrite ?E1, ?E2, ?E3, ?E4, ?E5, ?E6, ?E7, ?E8, ?E9, ?app_nil_r; try done.
  - intros x Hxx. apply hi_sub. apply elem_of_app. by left.
  - by apply NoDup_app in hi_nodup as (? & _).
  - intros x. rewrite Ew. cbn [app]. destruct (decide (x = w)) as [->|Hne].
    + rewrite lookup_delete_eq. split; [by intros []|]. intros Hi. by destruct (Hx w Hi).
    + rewrite lookup_delete_ne, hi_waits by done. rewrite !elem_of_app, ?elem_of_cons, ?elem_of_nil, ?elem_of_app. naive_solver.
  - intros x y Hy. destruct (proj1 (Hw x y) Hy) as [? Hy']. destruct (hi_command _ _ Hy') as (b & Hb & Hok).
    exists b. split; [|done]. rewrite Eb; [done|left; eauto|by eapply Hc].
  - intros x x' y y' Hy Hy'. apply Hw in Hy as [? Hy], Hy' as [? Hy']. eauto.
  - intros p Hp. destruct (hi_packets p Hp) as (b & Hb & Hd). exists b. split; [|done].
    rewrite Eb; [done|apply Hown; by right|]. intros ->. by eapply hi_packets_own.
  - intros p x y Hp Hy. apply Hw in Hy as [? Hy]. eauto.
  - intros x y f Hy Hf. apply Hw in Hy as [Hne Hy]. rewrite Ef; [eauto|].
    intros E. by destruct (hi_future_inj _ _ _ _ _ Hy He Hf E).
  - intros x x' y y' f Hy Hy'. apply Hw in Hy as [? Hy], Hy' as [? Hy']. eauto.
  - intros f Hf. destruct (hi_startup f Hf) as [? Hn]. split; [|intros x y Hy; apply Hw in Hy as [_ Hy]; eauto].
    rewrite Ef; [done|]. by eapply Hn.
  - exists (head pl). split; [done|]. intros _. by right.
Qed.

(** ** Responses

    What becomes of a matched response: the effect of a callback, the future it
    completes, and the buffers that are freed.  [st] is the status of a Command
    Status event, [None] stands for Command Complete. *)
Definition response (st : option Z) (e : waiting_command_t) (p : nat)
    : option effect * option nat * list nat :=
  match st with
  | None =>
      match complete_callback e, complete_future e with
      | Some cb, _ => (Some (EComplete cb p (context e)), None, [command e])
      | None, Some f => (None, Some f, [command e])
      | None, None => (None, None, [p; command e])
      end
  | Some status =>
      match status_callback e, complete_future e with
      | Some cb, _ => (Some (EStatus cb status (command e) (context e)), None, [p])
      | None, Some f => (None, Some f, [command e])
      | None, None => (None, None, [p; command e])
      end
  end.

Definition free_all (l : list nat) (B : gmap nat buf) : gmap nat buf := foldl (λ B p, delete p B) B l.

(** [h'] is [h] after the response [st] in buffer [p] to the command [w]. *)
Definition responded (st : option Z) (p w : nat) (h h' : hci) : Prop :=
  ∃ e, waits h !! w = Some e ∧ waits h' = delete w (waits h) ∧
    let '(eff, fut, freed) := response st e p in
    trace h' = trace h ++ option_list eff ∧
    futures h' = from_option (λ f, <[f := Some (FPacket p)]> (futures h)) (futures h) fut ∧
    bufs h' = free_all freed (bufs h).

(** The last part of both handlers, from the matched entry on. *)
Definition respond (st : option Z) (p : nat) (event_code : Z) (w : nat) : M hci bool :=
  match st with
  | None =>
      update_command_response_timer ;;
      e ← load_wait w;
      (match complete_callback e, complete_future e with
       | Some cb, _ => emit (EComplete cb p (context e))
       | None, Some f => future_ready f (FPacket p)
       | None, None => mret tt
       end) ;;
      intercepted p event_code (Some w) false
  | Some status =>
      given ← (update_command_response_timer ;;
        e ← load_wait w;
        match status_callback e, complete_future e with
        | Some cb, _ => emit (EStatus cb status (command e) (context e)) ;; mret false
        | None, Some f => future_ready f (FPacket p) ;; mret true
        | None, None => mret false
        end);
      intercepted p event_code (Some w) given
  end.

(** What responses leave alone. *)
Definition kept (h h' : hci) : Prop :=
  command_queue h' = command_queue h ∧ command_credits h' = command_credits h ∧
  next_wait h' = next_wait h ∧ next_future h' = next_future h.

Lemma respond_ok h ts pl st p w e b :
  HInv h ts pl [w] → waits h !! w = Some e → bufs h !! p = Some b → ¬ owned h p →
  HCI_COMMAND_COMPLETE_EVT ≠ HCI_COMMAND_STATUS_EVT →
  let code := match st with None => HCI_COMMAND_COMPLETE_EVT | Some _ => HCI_COMMAND_STATUS_EVT end in
  wp (respond st p code w) (λ r h', r = true ∧ HInv h' ts pl [] ∧ kept h h' ∧ responded st p w h h') h.
Proof.
  intros I He Hb Ho Hev code.
  destruct (hi_command _ _ _ _ I _ _ He) as (cb & Hcb & _).
  assert (command e ≠ p) as Hpc by (intros E; apply Ho; left; eauto).
  pose proof (λ f, hi_future _ _ _ _ I w e f He) as Hf.
  pose proof (hi_futures_bound _ _ _ _ I) as Hfb.
  pose proof (update_timer_run _ _ _ _ I) as Hup.
  assert (HInv (set_command_response_timer (Some (head pl)) h) ts pl [w]) as I1 by (by apply inv_timer).
  assert (code =? HCI_COMMAND_STATUS_EVT = match st with Some _ => true | None => false end) as Es.
  { subst code. destruct st; [apply Z.eqb_refl|by apply Z.eqb_neq]. }
  assert (code =? HCI_COMMAND_COMPLETE_EVT = match st with Some _ => false | None => true end) as Ec.
  { subst code. destruct st; [apply Z.eqb_neq; congruence|apply Z.eqb_refl]. }
  unfold respond, responded, response, intercepted.
  destruct st as [status|]; rewrite ?Es, ?Ec; clear Es Ec.
  all: unfold load_wait, emit, future_ready, free_buf, load_buf, free_wait, modify, wp, mbind, M_bind;
    rewrite Hup; cbn [set_command_response_timer waits]; rewrite ?He;
    destruct e as [opc [f|] [ccb|] [scb|] ctx cmd]; cbn in Hcb, Hpc, Hf |- *;
    rewrite ?He; cbn; try rewrite (Hf _ eq_refl); cbn; rewrite ?He; cbn; rewrite ?Hb, ?Hcb; cbn;
    rewrite ?lookup_delete_ne, ?Hb, ?Hcb by done; cbn; unfold load_wait; cbn; rewrite ?He; cbn.
  all: (split; [done|split; [|split; [done|eexists; split; [reflexivity|cbn; rewrite ?app_nil_r; done]]]]).
  all: eapply (inv_release _ _ _ _ w _ I1 He); try reflexivity; cbn; try done.
  all: try (unfold ready_order; cbn; rewrite ?omap_app; cbn; by rewrite ?app_nil_r).
  all: try (intros q Hq Hne; assert (q ≠ p) by (intros ->; by apply Ho); rewrite ?lookup_delete_ne; done).
  all: try (intros g Hg; rewrite lookup_insert_ne; [done|congruence]).
  all: intros g; destruct (decide (g = f)) as [->|?]; [intros _; apply Hfb; rewrite Hf; done|by rewrite lookup_insert_ne; [apply Hfb|]].
Qed.

(** ** Command Complete and Command Status *)

(** Both handlers, after the bytes of the event have been read. *)
Definition answer (st : option Z) (p : nat) (credits opcode : Z) : M hci bool :=
  let code := match st with None => HCI_COMMAND_COMPLETE_EVT | Some _ => HCI_COMMAND_STATUS_EVT end in
  w ← get_waiting_command opcode;
  process_command_credits credits ;;
  match w with
  | Some w => respond st p code w
  | None => free_buf p ;; mret true
  end.

Lemma command_complete_answer p bs h : (5 ≤ length bs)%nat →
  command_complete_event p bs HCI_COMMAND_COMPLETE_EVT h =
  answer None p (rd8 (drop 2 bs)) (rd16 (drop 3 bs)) h.
Proof.
  intros Hl. unfold command_complete_event, answer, event8, event16.
  rewrite !bool_decide_eq_true_2 by lia. unfold require. unfold mbind, M_bind. cbn [mret M_ret].
  destruct (get_waiting_command (rd16 (drop 3 bs)) h) as [[w|] h1| | |]; try done;
    destruct (process_command_credits (rd8 (drop 2 bs)) h1) as [[] h2| | |]; try done.
  unfold respond, mbind, M_bind. destruct (update_command_response_timer h2) as [[] h3| | |]; try done.
  by destruct (load_wait w h3).
Qed.

Lemma command_status_answer p bs h : (6 ≤ length bs)%nat →
  command_status_event p bs HCI_COMMAND_STATUS_EVT h =
  answer (Some (rd8 (drop 2 bs))) p (rd8 (drop 3 bs)) (rd16 (drop 4 bs)) h.
Proof.
  intros Hl. unfold command_status_event, answer, event8, event16.
  rewrite !bool_decide_eq_true_2 by lia. unfold require.
  unfold mbind, M_bind. cbn [mret M_ret].
  destruct (get_waiting_command (rd16 (drop 4 bs)) h) as [[w|] h1| | |]; try done;
    destruct (process_command_credits (rd8 (drop 3 bs)) h1) as [[] h2| | |]; done.
Qed.

(** [credits] are granted while the commands [pl] await a response. *)
Definition granted (credits : Z) (ts : list task) (pl : list nat) (h h' : hci) : Prop :=
  let k := posted credits pl (command_queue h) in
  hci_thread h' = Some (ts ++ (TCommand <$> take k (command_queue h))) ∧
  command_queue h' = drop k (command_queue h) ∧
  command_credits h' = credits - Z.of_nat (length pl) - Z.of_nat k ∧
  commands_pending_response h' = Some pl.

(** What an event for [opcode] does: it takes the command it answers out of the
    list and responds to it, or it is dropped when it answers none. *)
Definition answered (st : option Z) (p : nat) (credits opcode : Z) (h h' : hci) : Prop :=
  ∃ ts pl, hci_thread h = Some ts ∧ commands_pending_response h = Some pl ∧
    next_wait h' = next_wait h ∧ next_future h' = next_future h ∧
    match answered_by h pl opcode with
    | Some w => granted credits ts (list_remove w pl) h h' ∧ responded st p w h h'
    | None => granted credits ts pl h h' ∧ waits h' = waits h ∧ trace h' = trace h ∧
        futures h' = futures h ∧ bufs h' = delete p (bufs h)
    end.

Lemma not_owned_posted h ts l q c p :
  hci_thread h = Some ts → ¬ owned h p →
  ¬ owned (set_command_credits c (set_command_queue q (set_hci_thread (Some (ts ++ (TCommand <$> l))) h))) p.
Proof.
  intros Ht Ho [Hw|(ts' & E & Hp)]; [by apply Ho; left|]. cbn in E. injection E as <-.
  apply Ho. right. exists ts. split; [done|]. rewrite omap_app in Hp.
  replace (omap task_packet (TCommand <$> l)) with (@nil nat) in Hp by (clear; induction l; cbn; congruence).
  by rewrite app_nil_r in Hp.
Qed.

Lemma answer_ok h st p b credits opcode : settled h → bufs h !! p = Some b → ¬ owned h p →
  HCI_COMMAND_COMPLETE_EVT ≠ HCI_COMMAND_STATUS_EVT →
  wp (answer st p credits opcode) (λ r h', r = true ∧ settled h' ∧ answered st p credits opcode h h') h.
Proof.
  intros (ts & pl & I) Hb Ho Hev. unfold answer, answered. wp_step.
  pose proof (get_waiting_command_exact _ _ _ opcode I) as Hg.
  destruct (answered_by h pl opcode) as [w|] eqn:Ew; (eapply run_wp; [exact Hg|]); wp_step.
  - apply answered_by_in in Ew as Hw. pose proof (inv_take _ _ _ _ I Hw) as I1.
    destruct (proj2 (hi_waits _ _ _ _ I w) ltac:(set_solver)) as [e He].
    eapply wp_mono; [by eapply process_command_credits_ok|].
    cbn beta zeta. cbn [command_queue set_commands_pending_response].
    intros [] h2 (I2 & (t & q & c & ->) & Hq & Hc). cbn in Hq, Hc. subst q c.
    pose proof (hi_thread _ _ _ _ I2) as Ht. cbn in Ht. subst t.
    eapply wp_mono; [eapply (respond_ok _ _ _ st p w e b I2); [done|done| |done]|].
    { apply (not_owned_posted (set_commands_pending_response _ h)); [exact (hi_thread _ _ _ _ I)|exact Ho]. }
    intros r h3 (-> & I3 & (Eq & Ec & En & Ef) & Hr). split; [done|]. split; [by eexists _, _|].
    exists ts, pl. rewrite (hi_thread _ _ _ _ I), (hi_pending _ _ _ _ I). split_and!; try done.
    rewrite Ew. split; [|exact Hr].
    exact (conj (hi_thread _ _ _ _ I3) (conj Eq (conj Ec (hi_pending _ _ _ _ I3)))).
  - eapply wp_mono; [by eapply process_command_credits_ok|].
    cbn beta zeta. intros [] h2 (I2 & (t & q & c & ->) & Hq & Hc). cbn in Hq, Hc. subst q c.
    pose proof (hi_thread _ _ _ _ I2) as Ht. cbn in Ht. subst t.
    unfold free_buf, load_buf, wp, mbind, M_bind, modify. cbn. rewrite Hb. split; [done|].
    assert (¬ owned (set_command_credits (credits - Z.of_nat (length pl) - Z.of_nat (posted credits pl (command_queue h)))
      (set_command_queue (drop (posted credits pl (command_queue h)) (command_queue h))
        (set_hci_thread (Some (ts ++ (TCommand <$> take (posted credits pl (command_queue h)) (command_queue h)))) h))) p)
      as Ho2 by (apply not_owned_posted; [exact (hi_thread _ _ _ _ I)|exact Ho]).
    split.
    + eexists _, _. eapply not_owned_bufs; [exact I2|exact Ho2|]. intros x Hx. by rewrite lookup_delete_ne.
    + exists ts, pl. rewrite (hi_thread _ _ _ _ I), (hi_pending _ _ _ _ I). split_and!; try done.
      rewrite Ew. split; [|done].
      exact (conj eq_refl (conj eq_refl (conj eq_refl (hi_pending _ _ _ _ I2)))).
Qed.
End events.
