(* ===== verification/HciLayerSpec.v ===== *)
(** * Bluetooth: what the HCI layer promises

    The layer as a state machine: its inputs are the calls of its clients, the
    tasks of its thread, the buffers of the transport and the alarms.  What an event
    answers, and the order in which commands are taken on. *)

From S2P Require Import Prelude CMonad BtTypes HciParser HciLayer HciLayerInv HciLayerEvents.

Inductive input : Type :=
  | IAlloc (p : nat) (b : buf) | IFree (p : nat)
  | ITransmit (cmd : nat) (complete status : option nat) (ctx : Z)
  | ITransmitFutured (cmd : nat)
  | ITransmitDownward (type : Z) (data : nat)
  | IRunNext
  | IInitialized | IEvent (p : nat) | IReassemble (p next : nat)
  | ICommandTimeout | IStartupTimeout | IAbort | IRootInflamed | IServiceDied
  | ISetDataCb | ICleanup.

Class HciCodesOk `{!HciDefs, !HciLayerDefs} : Prop :=
  complete_not_status : HCI_COMMAND_COMPLETE_EVT ≠ HCI_COMMAND_STATUS_EVT.

Section spec.
Context `{!BtMacros, !HcicSizes, !HciDefs, !HciLayerDefs, !HciPlatform}.
Implicit Types h : hci.

Definition handle (i : input) : M hci unit :=
  match i with
  | IAlloc p b => store_buf p b
  | IFree p => free_buf p
  | ITransmit cmd complete status ctx => transmit_command cmd complete status ctx
  | ITransmitFutured cmd => transmit_command_futured cmd ;; mret tt
  | ITransmitDownward type data => transmit_downward type data
  | IRunNext => run_next
  | IInitialized => initialization_complete
  | IEvent p => hci_event_received p
  | IReassemble p next => reassemble_and_dispatch p next
  | ICommandTimeout => command_timed_out
  | IStartupTimeout => startup_timer_expired
  | IAbort => hci_timeout_abort
  | IRootInflamed => hci_root_inflamed_abort
  | IServiceDied => hal_service_died
  | ISetDataCb => set_data_cb
  | ICleanup => hci_layer_cleanup_interface
  end.

(** The bytes of an event its handler reads. *)
Definition event_size (code : Z) : nat :=
  if code =? HCI_COMMAND_COMPLETE_EVT then 5
  else if code =? HCI_COMMAND_STATUS_EVT then 6
  else if code =? HCI_VENDOR_SPECIFIC_EVT then 6 else 2.

(** What each input may rely on: a client gives away buffers of its own, the
    transport whole events, and an alarm runs when it was scheduled. *)
Definition enabled (i : input) (h : hci) : Prop :=
  match i with
  | IAlloc p _ => bufs h !! p = None
  | IFree p => is_Some (bufs h !! p) ∧ ¬ owned h p
  | ITransmit cmd _ _ _ | ITransmitFutured cmd => command_given h cmd
  | ITransmitDownward type data =>
      if type =? MSG_STACK_TO_HC_HCI_CMD then command_given h data
      else ∃ b, bufs h !! data = Some b ∧ data_packet b ∧ ¬ owned h data
  | IEvent p => ¬ owned h p ∧ ∃ b, bufs h !! p = Some b ∧
      (event_size (rd8 (b_data b)) ≤ length (b_data b))%nat
  | IReassemble p next => ¬ owned h p ∧ is_Some (bufs h !! p) ∧ ∀ q, (next ≤ q)%nat → bufs h !! q = None
  | ICommandTimeout => ∃ w, command_response_timer h = Some (Some w)
  | _ => True
  end.

(** ** Each input *)

Lemma owned_some h ts pl hd p : HInv h ts pl hd → owned h p → is_Some (bufs h !! p).
Proof.
  intros I Ho. apply (owned_iff _ _ _ _ _ I) in Ho as [(w & e & Hw & <-)|Hp].
  - destruct (hi_command _ _ _ _ I _ _ Hw) as (b & -> & _). by eexists.
  - destruct (hi_packets _ _ _ _ I _ Hp) as (b & -> & _). by eexists.
Qed.

Lemma inv_store_fresh h ts pl hd p b : HInv h ts pl hd → bufs h !! p = None →
  HInv (set_bufs (<[p := b]> (bufs h)) h) ts pl hd.
Proof.
  intros I Hp. apply inv_bufs; [done|]. intros q Hq. rewrite lookup_insert_ne; [done|].
  intros <-. apply (owned_some _ _ _ _ _ I) in Hq as [? E]. congruence.
Qed.

Lemma free_buf_run h p b : bufs h !! p = Some b → free_buf p h = Ret tt (set_bufs (delete p (bufs h)) h).
Proof. intros Hb. unfold free_buf, load_buf, mbind, M_bind, modify. by rewrite Hb. Qed.

Lemma inv_free h ts pl hd p : HInv h ts pl hd → ¬ owned h p → HInv (set_bufs (delete p (bufs h)) h) ts pl hd.
Proof. intros I Ho. apply (not_owned_bufs _ _ _ _ p); [done..|]. intros q Hq. by rewrite lookup_delete_ne. Qed.

Lemma run_upwards_safe h p : settled h → safe (run_upwards p) (λ _ h', settled h') h.
Proof.
  intros (ts & pl & I). unfold run_upwards, check, safe, mbind, M_bind, get.
  destruct (send_data_upwards h); [|done]. exists ts, pl. by apply inv_emit.
Qed.

Lemma event8_run bs i h : (i + 1 ≤ length bs)%nat → event8 bs i h = Ret (rd8 (drop i bs)) h.
Proof. intros Hl. unfold event8. by rewrite bool_decide_eq_true_2. Qed.

(** Changes of the timers and of the log leave the invariant alone. *)
Lemma settled_no_timer h s : settled h →
  settled (set_command_response_timer (Some None) (set_startup_timer s h)).
Proof.
  intros (ts & pl & I). exists ts, pl. apply (inv_timer (set_startup_timer s h)); [|by left].
  by eapply inv_frame; [exact I|..].
Qed.

Lemma settled_emit h e : settled h → ready_entry e = None → settled (set_trace (trace h ++ [e]) h).
Proof. intros (ts & pl & I) He. exists ts, pl. by apply inv_emit. Qed.

Lemma settled_log h fd : settled h → settled (set_hci_firmware_log_fd fd h).
Proof. intros (ts & pl & I). exists ts, pl. by eapply inv_frame; [exact I|..]. Qed.

Lemma schedule_abort_safe h : settled h → safe schedule_abort (λ _ h', settled h') h.
Proof.
  intros Hs. unfold schedule_abort. destruct abort_timer_schedules; [|done].
  destruct Hs as (ts & pl & I). exists ts, pl. by eapply inv_frame; [exact I|..].
Qed.

Lemma vendor_specific_event_safe h p b : settled h → bufs h !! p = Some b → ¬ owned h p →
  (6 ≤ length (b_data b))%nat →
  safe (vendor_specific_event p b) (λ _ h', settled h') h.
Proof.
  intros Hs Hb Ho Hl. unfold vendor_specific_event.
  apply safe_bind. unfold safe at 1. rewrite event8_run by lia.
  destruct (_ =? HCI_VSE_SUBCODE_DEBUG_INFO_SUB_EVT).
  { assert (settled (set_hci_firmware_log_fd (if hci_firmware_log_fd h then true else firmware_log_opens) h)) as Hs1
      by (by apply settled_log).
    assert (∀ h1, settled h1 → bufs h1 !! p = Some b → ¬ owned h1 p →
      safe (free_buf p ;; mret true) (λ _ h', settled h') h1) as Hfree.
    { intros h1 (ts & pl & I) Hb1 Ho1. apply safe_bind. unfold safe at 1. rewrite (free_buf_run _ _ _ Hb1).
      exists ts, pl. by apply inv_free. }
    apply safe_bind. unfold safe at 1, get. apply safe_bind.
    apply (safe_mono _ (λ _ h', h' = set_hci_firmware_log_fd (if hci_firmware_log_fd h then true else firmware_log_opens) h)).
    { destruct (hci_firmware_log_fd h) eqn:E; [|done]. unfold safe. cbn. rewrite <- E. by destruct h. }
    intros [] h1 ->. apply safe_bind. unfold safe at 1. apply safe_bind.
    destruct (hci_firmware_log_fd (set_hci_firmware_log_fd _ h)).
    - unfold safe at 1, emit, modify. apply Hfree; [|done..]. by apply settled_emit.
    - unfold safe at 1. cbn [mret M_ret]. by apply Hfree. }
  destruct (_ =? HCI_VSE_SUBCODE_BQR_SUB_EVT); [|done].
  apply safe_bind. unfold safe at 1. rewrite event8_run by lia. apply safe_bind.
  apply (safe_mono _ (λ _ h', settled h')); [|done].
  destruct (_ && _); [|done].
  apply safe_bind. unfold safe at 1. rewrite event8_run by lia.
  apply safe_bind. unfold safe at 1. rewrite event8_run by lia.
  apply safe_bind. unfold alarm_cancel_if_scheduled, safe at 1, mbind, M_bind, modify.
  apply schedule_abort_safe.
  assert (option_map (λ _ : option nat, @None nat) (command_response_timer h) = Some None) as E.
  { destruct Hs as (ts & pl & I). destruct (hi_timer _ _ _ _ I) as (t & -> & _). done. }
  cbn [command_response_timer set_startup_timer]. rewrite E.
  by apply settled_no_timer.
Qed.

Context `{!HciPlatformOk, !HciCodesOk}.

(** What is read of a Command Complete or Command Status event: the status,
    the credits and the operation code. *)
Definition parse_response (bs : bytes) : option (option Z * Z * Z) :=
  if rd8 bs =? HCI_COMMAND_COMPLETE_EVT then Some (None, rd8 (drop 2 bs), rd16 (drop 3 bs))
  else if rd8 bs =? HCI_COMMAND_STATUS_EVT then
    Some (Some (rd8 (drop 2 bs)), rd8 (drop 3 bs), rd16 (drop 4 bs))
  else None.

Lemma filter_incoming_event_run h p b : bufs h !! p = Some b → (event_size (rd8 (b_data b)) ≤ length (b_data b))%nat →
  filter_incoming_event p h =
  match parse_response (b_data b) with
  | Some (st, credits, opcode) => answer st p credits opcode h
  | None => if rd8 (b_data b) =? HCI_VENDOR_SPECIFIC_EVT then vendor_specific_event p b h else Ret false h
  end.
Proof.
  intros Hb Hl. unfold filter_incoming_event, mbind at 1, M_bind at 1, load_buf. rewrite Hb.
  unfold parse_response, event_size in *.
  assert (2 ≤ length (b_data b))%nat by (repeat case_match; lia).
  unfold mbind, M_bind. rewrite event8_run, bool_decide_eq_true_2 by lia. cbn [require mret M_ret]. rewrite drop_0.
  destruct (Z.eqb_spec (rd8 (b_data b)) HCI_COMMAND_COMPLETE_EVT) as [E|]; [rewrite E; by apply command_complete_answer|].
  destruct (Z.eqb_spec (rd8 (b_data b)) HCI_COMMAND_STATUS_EVT) as [E|]; [rewrite E; by apply command_status_answer|].
  by destruct (_ =? _).
Qed.

Lemma hci_event_received_ok h p b : settled h → bufs h !! p = Some b → ¬ owned h p →
  (event_size (rd8 (b_data b)) ≤ length (b_data b))%nat →
  safe (hci_event_received p) (λ _ h', settled h') h ∧
  ∀ st credits opcode, parse_response (b_data b) = Some (st, credits, opcode) →
    wp (hci_event_received p) (λ _ h', settled h' ∧ answered st p credits opcode h h') h.
Proof.
  intros Hs Hb Ho Hl. pose proof (filter_incoming_event_run h p b Hb Hl) as Hf.
  assert (∀ st credits opcode, parse_response (b_data b) = Some (st, credits, opcode) →
    wp (hci_event_received p) (λ _ h', settled h' ∧ answered st p credits opcode h h') h) as Hx.
  { intros st credits opcode E. rewrite E in Hf. unfold hci_event_received. wp_step.
    pose proof (answer_ok h st p b credits opcode Hs Hb Ho complete_not_status) as Ha.
    apply wp_run in Ha as (r & h1 & E1 & -> & ? & ?). rewrite E1 in Hf. eapply run_wp; [exact Hf|]. done. }
  split; [|exact Hx]. destruct (parse_response (b_data b)) as [[[st c] op]|] eqn:E.
  - apply safe_wp. eapply wp_mono; [by eapply Hx|]. by intros ? ? [? _].
  - unfold hci_event_received. apply safe_bind. unfold safe at 1. rewrite Hf. clear Hf Hx.
    assert (rd8 (b_data b) ≠ HCI_COMMAND_COMPLETE_EVT ∧ rd8 (b_data b) ≠ HCI_COMMAND_STATUS_EVT) as [N1 N2].
    { unfold parse_response in E. repeat case_match; try done. by split; apply Z.eqb_neq. }
    unfold event_size in Hl. rewrite !(proj2 (Z.eqb_neq _ _)) in Hl by done.
    destruct (_ =? HCI_VENDOR_SPECIFIC_EVT); [|by apply run_upwards_safe].
    pose proof (vendor_specific_event_safe h p b Hs Hb Ho Hl) as Hv. unfold safe in Hv.
    destruct (vendor_specific_event p b h) as [[|] h1| | |]; try done. by apply run_upwards_safe.
Qed.

(** *** Data *)

Lemma dispatch_all_safe l next h : settled h → (∀ q, (next ≤ q)%nat → bufs h !! q = None) →
  safe (dispatch_all next l) (λ _ h', settled h') h.
Proof.
  revert next h. induction l as [|b l IH]; intros next h Hs Hn; [done|]. cbn [dispatch_all].
  apply safe_bind. unfold safe at 1, store_buf, modify.
  assert (settled (set_bufs (<[next := b]> (bufs h)) h)) as Hs1.
  { destruct Hs as (ts & pl & I). exists ts, pl. apply inv_store_fresh; [done|]. by apply Hn. }
  apply safe_bind.
  apply (safe_mono _ (λ _ h', settled h' ∧ bufs h' = <[next := b]> (bufs h))).
  - unfold dispatch_reassembled. apply safe_bind. unfold safe at 1, load_buf. cbn. rewrite lookup_insert_eq.
    apply safe_bind. unfold safe at 1, check. destruct (negb _); [|done]. cbn [mret M_ret].
    pose proof (run_upwards_safe _ next Hs1) as Hu. unfold safe in *.
    unfold run_upwards, check, emit, mbind, M_bind, get, modify in *. cbn in *.
    destruct (send_data_upwards h) eqn:E; cbn; rewrite ?E; done.
  - intros [] h' [Hs' Eb]. apply IH; [done|]. intros q Hq. rewrite Eb, lookup_insert_ne by lia. apply Hn. lia.
Qed.

Lemma reassemble_safe h p next : settled h → ¬ owned h p → is_Some (bufs h !! p) →
  (∀ q, (next ≤ q)%nat → bufs h !! q = None) →
  safe (reassemble_and_dispatch p next) (λ _ h', settled h') h.
Proof.
  intros (ts & pl & I) Ho [b Hb] Hn. unfold reassemble_and_dispatch.
  apply safe_bind. unfold safe at 1, load_buf. rewrite Hb. apply safe_bind. unfold safe at 1, get.
  apply safe_bind. unfold safe at 1. rewrite (free_buf_run _ _ _ Hb). apply safe_bind. unfold safe at 1, modify.
  apply dispatch_all_safe.
  - exists ts, pl. eapply inv_frame; [by apply (inv_free _ _ _ _ p I Ho)|done..].
  - intros q Hq. cbn. apply lookup_delete_None. right. by apply Hn.
Qed.

(** *** Timeouts *)

Lemma log_info_run l h ts pl hd : HInv h ts pl hd → (∀ w, w ∈ l → w ∈ pl) →
  command_timed_out_log_info l h = Ret tt h.
Proof.
  intros I. induction l as [|w l IH]; intros Hl; [done|]. cbn [command_timed_out_log_info].
  destruct (proj2 (hi_waits _ _ _ _ I w)) as [e He].
  { apply elem_of_app. left. apply Hl. by left. }
  destruct (hi_command _ _ _ _ I _ _ He) as (b & Hb & _ & Hok).
  unfold mbind, M_bind, load_wait, load_buf. rewrite He, Hb, bool_decide_eq_true_2 by done.
  cbn. apply IH. intros x Hx. apply Hl. by right.
Qed.

Lemma command_timed_out_safe h : settled h → safe command_timed_out (λ _ h', settled h') h.
Proof.
  intros Hs. pose proof (settled_no_timer h (startup_timer h) Hs) as Hs1.
  unfold command_timed_out. apply safe_bind. unfold safe at 1, modify.
  replace (set_startup_timer (startup_timer h) h) with h in Hs1 by (by destruct h).
  set (h1 := set_command_response_timer (Some None) h) in *. clearbody h1. clear Hs h.
  pose proof Hs1 as (ts & pl & I).
  apply safe_bind. unfold safe at 1, pending. rewrite (hi_pending _ _ _ _ I).
  apply safe_bind. unfold safe at 1. rewrite (log_info_run _ _ _ _ _ I) by done.
  apply safe_bind. unfold safe at 1, get. destruct (hci_firmware_log_fd h1); [done|].
  apply safe_bind. unfold safe at 1, modify. apply safe_bind. unfold safe at 1, emit, modify.
  apply schedule_abort_safe. apply settled_emit; [|done]. by apply settled_log.
Qed.

(** ** The state machine *)

Lemma handle_safe i h : settled h → enabled i h → safe (handle i) (λ _ h', settled h') h.
Proof.
  intros Hs He. destruct i as [p b|p|cmd complete status ctx|cmd|type data| | |p|p next| | | | | | |]; cbn [handle enabled] in *.
  - destruct Hs as (ts & pl & I). exists ts, pl. by apply inv_store_fresh.
  - destruct Hs as (ts & pl & I), He as [[b Hb] Ho]. unfold safe. rewrite (free_buf_run _ _ _ Hb).
    exists ts, pl. by apply inv_free.
  - apply safe_wp. wp_use transmit_command_ok; [done..|]. by intros ? ? [].
  - apply safe_wp. wp_step. wp_use transmit_command_futured_ok; [done..|]. by intros ? ? [].
  - apply safe_wp. unfold transmit_downward. destruct (type =? MSG_STACK_TO_HC_HCI_CMD).
    + wp_use transmit_command_ok; [done..|]. by intros ? ? [].
    + destruct He as (b & Hb & Hd & Ho). by eapply enqueue_packet_ok.
  - by apply run_next_ok.
  - destruct Hs as (ts & pl & I). unfold safe, initialization_complete, DoInThread, mbind, M_bind.
    rewrite (hi_thread _ _ _ _ I). exists (ts ++ [TFinishStartup]), pl.
    destruct I. rewrite app_nil_r in hi_sub, hi_nodup. split; cbn; rewrite ?omap_app; cbn; rewrite ?app_nil_r; try done.
  - destruct He as (Ho & b & Hb & Hl). by eapply hci_event_received_ok.
  - destruct He as (Ho & Hb & Hn). by apply reassemble_safe.
  - by apply command_timed_out_safe.
  - done.
  - done.
  - done.
  - unfold safe, hal_service_died, mbind, M_bind, get. by destruct (abort_timer h).
  - destruct Hs as (ts & pl & I). exists ts, pl. by eapply inv_frame; [exact I|..].
  - destruct Hs as (ts & pl & I). exists ts, pl. by eapply inv_frame; [exact I|..].
Qed.

(** Before the module is started: nothing was ever accepted. *)
Definition unused (h : hci) : Prop :=
  waits h = ∅ ∧ next_wait h = 0%nat ∧ ready_order h = [] ∧ command_queue h = [] ∧
  ∀ f, is_Some (futures h !! f) → (f < next_future h)%nat.

Lemma start_up_settled env prop h h' : unused h →
  hci_module_start_up env prop h = Ret true h' → settled h'.
Proof.
  intros (Ew & En & Er & Eq & Hf). unfold hci_module_start_up, hci_module_shut_down, DoInThread, future_new.
  destruct env as [a b c d e]. unfold mbind, M_bind, modify, emit. cbn.
  destruct a, b, c, d, e; cbn; try done. intros F. injection F as <-. exists [TInitialize], [].
  split; cbn; rewrite ?Ew, ?En, ?Eq; try done.
  - unfold ready_order in *. cbn. by rewrite Er.
  - by intros w ?%elem_of_nil.
  - constructor.
  - intros w. split; [by intros []|]. by intros ?%elem_of_nil.
  - intros p Hp. by apply elem_of_nil in Hp.
  - constructor.
  - intros f F. injection F as <-. split; [by rewrite lookup_insert_eq|done].
  - intros f. destruct (decide (f = next_future h)) as [->|?]; [lia|]. rewrite lookup_insert_ne by done.
    intros Hs. apply Hf in Hs. lia.
  - eexists. split; [done|]. by left.
Qed.

(** The states the layer runs through once it is started. *)
Inductive reachable : hci → Prop :=
  | reach_start env prop h h' : unused h → hci_module_start_up env prop h = Ret true h' → reachable h'
  | reach_input i h h' : reachable h → enabled i h → handle i h = Ret tt h' → reachable h'.

Lemma reachable_settled h : reachable h → settled h.
Proof.
  induction 1 as [env prop h h' Hu E|i h h' _ IH He E]; [by eapply start_up_settled|].
  pose proof (handle_safe i h IH He) as Hs. unfold safe in Hs. by rewrite E in Hs.
Qed.

(** Commands that were accepted and not yet handed to the transport. *)
Definition waiting_turn (h : hci) : list nat :=
  omap task_command (default [] (hci_thread h)) ++ command_queue h.

(** C25: A Command Complete or Command Status event answers exactly the oldest
    command with its operation code (or, between vendor specific codes, the oldest of
    those), gives the event to whoever waits for it, frees what nobody keeps, and posts
    the queued commands its credits leave room for. *)
Theorem command_event_exact h p b st credits opcode : reachable h → enabled (IEvent p) h →
  bufs h !! p = Some b → parse_response (b_data b) = Some (st, credits, opcode) →
  wp (hci_event_received p) (λ _ h', answered st p credits opcode h h') h.
Proof.
  intros Hr (Ho & b' & Hb' & Hl) Hb Hp. assert (b' = b) as -> by congruence.
  apply reachable_settled in Hr. eapply wp_mono; [by eapply hci_event_received_ok|]. by intros ? ? [_ ?].
Qed.

(** [event_command_ready] keeps using the entry after it has put it into the list
    and let go of the lock: when an event that matches it arrives in between (a
    spurious one, or one for another vendor specific command), the entry is freed
    memory when the command is to be sent. *)
Theorem response_before_send_dangles h h1 h2 w ts p st credits opcode :
  reachable h → hci_thread h = Some (TCommand w :: ts) →
  command_ready_append w (set_hci_thread (Some ts) h) = Ret tt h1 →
  enabled (IEvent p) h1 →
  (∃ b, bufs h1 !! p = Some b ∧ parse_response (b_data b) = Some (st, credits, opcode)) →
  (∃ pl, commands_pending_response h1 = Some pl ∧ answered_by h1 pl opcode = Some w) →
  hci_event_received p h1 = Ret tt h2 →
  command_ready_send w h2 = Undefined.
Proof.
  intros Hr Ht E1 (Ho & b' & Hb' & Hl) (b & Hb & Hp) (pl & Hpl & Hw) E2.
  assert (b' = b) as -> by congruence. apply reachable_settled in Hr as (ts' & pl0 & I).
  pose proof (hi_thread _ _ _ _ I) as Ht'. rewrite Ht in Ht'. injection Ht' as <-.
  assert (settled h1) as Hs1.
  { exists ts, (pl0 ++ [w]). pose proof (inv_ready _ _ _ _ I) as I1.
    assert (is_Some (waits h !! w)) as [e He].
    { apply (hi_waits _ _ _ _ I). set_solver. }
    unfold command_ready_append, load_wait, pending, emit, mbind, M_bind, modify in E1.
    cbn [waits commands_pending_response set_hci_thread] in E1. rewrite He in E1.
    cbn [waits commands_pending_response set_hci_thread] in E1. rewrite (hi_pending _ _ _ _ I) in E1.
    injection E1 as <-. exact I1. }
  destruct (hci_event_received_ok h1 p b Hs1 Hb Ho Hl) as [_ Hx]. specialize (Hx _ _ _ Hp).
  unfold wp in Hx. rewrite E2 in Hx. destruct Hx as [_ (ts1 & pl1 & _ & Hpl1 & _ & _ & Ha)].
  rewrite Hpl in Hpl1. injection Hpl1 as <-. rewrite Hw in Ha. destruct Ha as [_ (e & _ & Ew & _)].
  unfold command_ready_send, load_wait, mbind, M_bind. by rewrite Ew, lookup_delete_eq.
Qed.
End spec.
