(* ===== verification/HciLayerLive.v ===== *)
(** * Bluetooth: every command is answered

    Rounds of the HCI thread and of a controller that answers commands: no round
    can be repeated for ever, and when none is left every command has been answered. *)

From S2P Require Import Prelude CMonad BtTypes HciParser HciLayer HciLayerInv HciLayerEvents HciLayerSpec.

(** ** What the thread leaves alone *)

Definition stays (h h' : hci) : Prop :=
  command_queue h' = command_queue h ∧ command_credits h' = command_credits h ∧ waits h' = waits h ∧
  send_data_upwards h' = send_data_upwards h ∧
  ∀ f v, futures h !! f = Some (Some v) → futures h' !! f = Some (Some v).

#[export] Instance stays_preorder : PreOrder stays.
Proof.
  split; [by intros h; split_and!|].
  intros h1 h2 h3 (A1 & B1 & C1 & D1 & E1) (A2 & B2 & C2 & D2 & E2). split_and!; [congruence..|auto].
Qed.

Definition keeps {A} (m : M hci A) : Prop := ∀ h a h', m h = Ret a h' → stays h h'.

Lemma keeps_bind {A B} (m : M hci A) (k : A → M hci B) : keeps m → (∀ a, keeps (k a)) → keeps (m ≫= k).
Proof.
  intros Hm Hk h b h' E. apply bind_ret_inv in E as (a & h1 & E1 & E2).
  transitivity h1; [by eapply Hm|by eapply Hk].
Qed.
Lemma keeps_ret {A} (a : A) : keeps (mret a).
Proof. intros h b h' E. by injection E as <- <-. Qed.
Lemma keeps_get : keeps get.
Proof. intros h b h' E. by injection E as <- <-. Qed.
Lemma keeps_modify f : (∀ h, stays h (f h)) → keeps (modify f).
Proof. intros Hf h b h' E. injection E as <- <-. apply Hf. Qed.
Lemma keeps_exit {A} c : keeps (exit (A := A) c).
Proof. done. Qed.
Create HintDb keeps.
#[export] Hint Resolve keeps_bind keeps_ret keeps_get keeps_modify keeps_exit : keeps.

Section live.
Context `{!BtMacros, !HcicSizes, !HciDefs, !HciLayerDefs, !HciPlatform}.
Implicit Types h : hci.

Lemma keeps_load_buf p : keeps (load_buf p).
Proof. intros h b h' E. unfold load_buf in E. case_match; [|done]. by injection E as <- <-. Qed.
Lemma keeps_load_wait w : keeps (load_wait w).
Proof. intros h b h' E. unfold load_wait in E. case_match; [|done]. by injection E as <- <-. Qed.
Lemma keeps_pending : keeps pending.
Proof. intros h b h' E. unfold pending in E. case_match; [|done]. by injection E as <- <-. Qed.
Lemma keeps_future_ready f v : keeps (future_ready f v).
Proof.
  intros h b h' E. unfold future_ready in E. destruct (futures h !! f) as [[|]|] eqn:Hf; try done.
  injection E as <- <-. split_and!; try done. intros g x Hg. cbn. rewrite lookup_insert_ne; [done|congruence].
Qed.
#[local] Hint Resolve keeps_load_buf keeps_load_wait keeps_pending keeps_future_ready : keeps.

(** A body made of the operations above. *)
Ltac keeps_body :=
  repeat match goal with
  | |- ∀ _, keeps _ => intros ?
  | |- keeps (_ ≫= _) => apply keeps_bind
  | |- keeps (modify _) => apply keeps_modify; intros ?; by split_and!
  | |- keeps (match ?x with _ => _ end) => destruct x
  | |- keeps _ => solve [eauto with keeps]
  end.

Lemma keeps_free_buf p : keeps (free_buf p).
Proof. unfold free_buf. keeps_body. Qed.
Lemma keeps_emit e : keeps (emit e).
Proof. unfold emit. keeps_body. Qed.
#[local] Hint Resolve keeps_free_buf keeps_emit : keeps.
Lemma keeps_dispatch p fs : keeps (dispatch_fragments p fs).
Proof.
  induction fs as [|[piece fin|all] fs IH]; cbn [dispatch_fragments]; eauto with keeps.
  - unfold store_buf, transmit_fragment. keeps_body.
  - unfold fragmenter_transmit_finished, run_upwards, check. keeps_body.
Qed.
#[local] Hint Resolve keeps_dispatch : keeps.

Lemma keeps_run_task t : keeps (run_task t).
Proof.
  destruct t; cbn [run_task].
  - unfold event_command_ready, command_ready_append, command_ready_send, update_command_response_timer,
      fragment_and_dispatch. keeps_body.
  - unfold event_packet_ready, fragment_and_dispatch. keeps_body.
  - eauto with keeps.
  - unfold event_finish_startup. keeps_body.
Qed.

Lemma keeps_run_next : keeps run_next.
Proof. unfold run_next. keeps_body. apply keeps_run_task. Qed.

Context `{!HciPlatformOk, !HciCodesOk}.

(** ** Rounds *)

(** The thread runs a task, or an event with at least one credit arrives that
    answers a command awaiting a response. *)
Inductive round (h : hci) : hci → Prop :=
  | round_task t ts h' : hci_thread h = Some (t :: ts) → run_next h = Ret tt h' → round h h'
  | round_answer pl p b st credits opcode h' :
      commands_pending_response h = Some pl → answered_by h pl opcode ≠ None → 1 ≤ credits →
      bufs h !! p = None → (event_size (rd8 (b_data b)) ≤ length (b_data b))%nat →
      parse_response (b_data b) = Some (st, credits, opcode) →
      (store_buf p b ;; hci_event_received p) h = Ret tt h' → round h h'.

(** Commands and packets on their way to the transport count twice, and those
    that await a response once. *)
Definition work (h : hci) : nat :=
  2 * (length (default [] (hci_thread h)) + length (command_queue h)) +
  length (default [] (commands_pending_response h)).

(** While no command may be posted, one is on its way or awaits a response. *)
Definition paced (h : hci) : Prop :=
  command_credits h ≤ 0 →
  omap task_command (default [] (hci_thread h)) ++ default [] (commands_pending_response h) ≠ [].

(** A command that was accepted with a future, and nothing else to report to. *)
Definition futured (h : hci) (w f : nat) : Prop :=
  ∃ e, waits h !! w = Some e ∧ complete_future e = Some f ∧ complete_callback e = None ∧ status_callback e = None.
Definition fulfilled (h : hci) (f : nat) : Prop := ∃ p, futures h !! f = Some (Some (FPacket p)).

(** [h'] may follow [h]: less is left to do, and futures are only fulfilled. *)
Definition follows (h h' : hci) : Prop :=
  settled h' ∧ paced h' ∧ (work h' < work h)%nat ∧
  (∀ w f, futured h w f → futured h' w f ∨ fulfilled h' f) ∧ ∀ f, fulfilled h f → fulfilled h' f.

Lemma task_follows h t ts h' : settled h → paced h → hci_thread h = Some (t :: ts) →
  run_next h = Ret tt h' → follows h h'.
Proof.
  intros (ts' & pl & I) Hp Ht E. pose proof (hi_thread _ _ _ _ I) as Ht'.
  rewrite Ht in Ht'. injection Ht' as <-.
  pose proof (run_next_inv _ _ _ I) as I'. unfold runs in I'. rewrite E in I'. cbn [tail take] in I'.
  pose proof (keeps_run_next _ _ _ E) as (Eq & Ec & Ew & _ & Ef).
  unfold follows, work, paced, futured, fulfilled in *.
  rewrite (hi_thread _ _ _ _ I'), (hi_pending _ _ _ _ I'), (hi_pending _ _ _ _ I), Ht, Eq, Ec, Ew in *.
  cbn [default from_option id] in *. split_and!.
  - by eexists _, _.
  - intros Hc [E1 E2]%app_eq_nil. apply app_eq_nil in E2 as [E2 E3]. apply (Hp Hc).
    destruct t; cbn in *; [done|by rewrite E1, E2..].
  - rewrite take_0, length_app. destruct t; cbn; lia.
  - eauto.
  - intros f [p Hf]. exists p. by apply Ef.
Qed.

Lemma length_list_remove w l : w ∈ l → S (length (list_remove w l)) = length l.
Proof.
  induction l as [|x l IH]; intros Hw; [by apply elem_of_nil in Hw|]. cbn [list_remove].
  case_bool_decide; [done|]. cbn. rewrite IH; [done|]. apply elem_of_cons in Hw as [->|]; done.
Qed.

(** As long as there are credits and nothing else is on its way, a queued
    command is let go. *)
Lemma posted_progress c pl q : 1 ≤ c → c - Z.of_nat (length pl) - Z.of_nat (posted c pl q) ≤ 0 →
  take (posted c pl q) q ≠ [] ∨ pl ≠ [].
Proof.
  intros Hc Hk. destruct pl as [|x pl]; [|by right]. left. unfold posted in *. cbn [length] in *.
  destruct q; [cbn in *; lia|]. destruct (Z.to_nat (c - Z.of_nat 0)) eqn:E; [lia|]. done.
Qed.

Lemma answer_follows h pl p b st credits opcode h' : settled h →
  commands_pending_response h = Some pl → answered_by h pl opcode ≠ None → 1 ≤ credits →
  bufs h !! p = None → (event_size (rd8 (b_data b)) ≤ length (b_data b))%nat →
  parse_response (b_data b) = Some (st, credits, opcode) →
  (store_buf p b ;; hci_event_received p) h = Ret tt h' → follows h h'.
Proof.
  intros (ts & pl' & I) Hpl Hans Hc Hp Hl Hparse E.
  pose proof (hi_pending _ _ _ _ I) as Hpl'. rewrite Hpl in Hpl'. injection Hpl' as <-.
  pose proof (inv_store_fresh _ _ _ _ p b I Hp) as I1. cbn in E. unfold mbind, M_bind, store_buf, modify in E.
  set (h1 := set_bufs _ h) in *.
  assert (¬ owned h1 p) as Ho.
  { intros Ho. apply (owned_some h ts pl [] p I) in Ho as [? Hx]. congruence. }
  destruct (hci_event_received_ok h1 p b) as [_ He]; [by eexists _, _|by cbn; rewrite lookup_insert_eq|done..|].
  specialize (He _ _ _ Hparse). unfold wp in He. rewrite E in He.
  destruct He as [Hs' (ts' & pl' & Ht & Hpl' & _ & _ & Ha)].
  change (commands_pending_response h = Some pl') in Hpl'. rewrite Hpl in Hpl'. injection Hpl' as <-.
  change (answered_by h1 pl opcode) with (answered_by h pl opcode) in Ha.
  destruct (answered_by h pl opcode) as [w|] eqn:Ew; [|done]. apply answered_by_in in Ew.
  pose proof (length_list_remove w pl Ew) as Hlen.
  destruct Ha as [(Ht' & Hq' & Hc' & Hp') (e & He & Hw' & Hr)].
  change (hci_thread h = Some ts') in Ht. change (command_queue h1) with (command_queue h) in *.
  change (waits h1) with (waits h) in *. change (futures h1) with (futures h) in *.
  pose proof (λ f, hi_future _ _ _ _ I w e f He) as Hnf.
  destruct (response st e p) as [[eff fut] freed] eqn:Er. destruct Hr as (_ & Hf & _).
  assert (∀ f, fut = Some f → complete_future e = Some f) as Hfut.
  { intros f ->. unfold response in Er. repeat case_match; congruence. }
  unfold follows, work, paced. rewrite Ht', Hp', Hq', Hc', Hpl, Ht. cbn [default from_option id].
  split_and!; [done| | | |].
  - intros Hk [E1 E2]%app_eq_nil. rewrite omap_app in E1. apply app_eq_nil in E1 as [_ E1].
    destruct (posted_progress _ _ _ Hc Hk) as [Hn|Hn]; [|done].
    by destruct (take (posted credits (list_remove w pl) (command_queue h)) (command_queue h)).
  - rewrite length_app, length_fmap.
    pose proof (f_equal length (take_drop (posted credits (list_remove w pl) (command_queue h)) (command_queue h))) as Hd.
    rewrite length_app in Hd. lia.
  - intros w' f (e' & He' & Hf' & Hcb & Hsb). destruct (decide (w' = w)) as [->|Hne].
    + right. assert (e' = e) as -> by congruence. exists p. rewrite Hf.
      unfold response in Er. rewrite Hf', Hcb, Hsb in Er. destruct st; injection Er as <- <- <-; cbn; by rewrite lookup_insert_eq.
    + left. exists e'. by rewrite Hw', lookup_delete_ne.
  - intros f [p' Hp0]. destruct fut as [g|]; cbn in Hf; unfold fulfilled; rewrite Hf; [|eauto].
    exists p'. rewrite lookup_insert_ne; [done|]. intros ->. rewrite Hnf in Hp0; [done|]. by apply Hfut.
Qed.

Lemma round_follows h h' : settled h → paced h → round h h' → follows h h'.
Proof. intros Hs Hp Hr. destruct Hr; [by eapply task_follows|by eapply answer_follows]. Qed.

(** C3: Every command is answered: from a settled state at most [work h] rounds are
    possible; when no work is left no command is queued, posted or awaiting a response
    and the futures of all commands hold the event that answered them; as long as work
    is left and somebody receives data, either the thread can run a task or a command awaits
    the controller. *)
Theorem commands_answered n h h' : settled h → paced h → nsteps round n h h' →
  (n + work h' ≤ work h)%nat ∧
  (work h' = 0%nat → waits h' = ∅ ∧ ∀ w f, futured h w f → fulfilled h' f) ∧
  (work h' ≠ 0%nat → send_data_upwards h' = true → (∃ h'', round h' h'') ∨ ∃ w pl, commands_pending_response h' = Some (w :: pl)).
Proof.
  intros Hs Hp Hn.
  assert (settled h' ∧ paced h' ∧ (n + work h' ≤ work h)%nat ∧
    ∀ w f, futured h w f ∨ fulfilled h f → futured h' w f ∨ fulfilled h' f) as (Hs' & Hp' & Hw & Hf).
  { induction Hn as [h|n h h1 h' Hr Hn IH]; [by split_and!|].
    destruct (round_follows _ _ Hs Hp Hr) as (Hs1 & Hp1 & Hw1 & Hf1 & Hf2).
    destruct (IH Hs1 Hp1) as (? & ? & ? & Hf3). split_and!; [done..|lia|].
    intros w f [H'|H']; apply (Hf3 w f); [by eapply Hf1|right; by apply Hf2]. }
  destruct Hs' as (ts & pl & I). unfold work in *.
  rewrite (hi_thread _ _ _ _ I), (hi_pending _ _ _ _ I) in *. cbn [default from_option id] in *.
  split_and!; [done| |].
  - intros H0'. destruct ts; [|cbn in H0'; lia]. destruct pl; [|cbn in H0'; lia].
    destruct (command_queue h') eqn:Eq; [|cbn in H0'; lia].
    assert (waits h' = ∅) as Ew.
    { apply map_empty. intros w. destruct (waits h' !! w) eqn:E; [|done].
      pose proof (proj1 (hi_waits _ _ _ _ I w) (mk_is_Some _ _ E)) as Hin. rewrite Eq in Hin.
      by apply elem_of_nil in Hin. }
    split; [done|]. intros w f Hwf. destruct (Hf w f (or_introl Hwf)) as [(e & He & _)|]; [|done].
    by rewrite Ew in He.
  - intros Hne Hup. destruct pl as [|w pl]; [|right; eauto]. left. destruct ts as [|t ts].
    + exfalso. destruct (decide (0 < command_credits h')) as [Hc|Hc].
      * rewrite (hi_credits _ _ _ _ I Hc) in Hne. done.
      * apply Hp'; [lia|]. by rewrite (hi_thread _ _ _ _ I), (hi_pending _ _ _ _ I).
    + destruct (wp_run _ _ _ (runs_wp _ _ _ (run_next_inv _ _ _ I) Hup)) as ([] & h'' & E & _).
      exists h''. eapply round_task; [apply (hi_thread _ _ _ _ I)|done].
Qed.
End live.
