(* ===== verification/HciLayerFrame.v ===== *)
(** * Bluetooth: what the HCI layer leaves alone

    Clients hold buffers of their own next to those of the layer.  [lframe G N h h']
    bounds what a step may do to them: it touches the buffers of [G] only, takes on
    the entries of [N] only, gives none up and calls nobody back.  At the end, what the
    layer gives to the transport: the commands it was given, each once and in order. *)

From S2P Require Import Prelude CMonad BtTypes HciParser HciLayer HciLayerInv HciLayerEvents HciLayerSpec.

Definition packets_posted (h : hci) : list nat := omap task_packet (default [] (hci_thread h)).

(** An effect that calls no client back. *)
Definition quiet (e : effect) : Prop :=
  match e with EComplete _ _ _ | EStatus _ _ _ _ => False | _ => True end.

Record lframe (G : nat → Prop) (N : nat → waiting_command_t → Prop) (h h' : hci) : Prop := {
  fr_bufs p : ¬ G p → bufs h' !! p = bufs h !! p;
  fr_waits w e : waits h !! w = Some e → waits h' !! w = Some e;
  fr_new w e : waits h' !! w = Some e → waits h !! w = Some e ∨ N w e;
  fr_packets p : p ∈ packets_posted h' → p ∈ packets_posted h ∨ G p;
  fr_trace : ∃ es, trace h' = trace h ++ es ∧ Forall quiet es
}.

Definition no_new (w : nat) (e : waiting_command_t) : Prop := False.

#[export] Instance lframe_preorder G N : PreOrder (lframe G N).
Proof.
  split.
  - intros h. split; eauto. exists []. by rewrite app_nil_r.
  - intros h1 h2 h3 [B1 W1 N1 P1 (es1 & T1 & Q1)] [B2 W2 N2 P2 (es2 & T2 & Q2)]. split; eauto.
    + intros p Hp. by rewrite B2, B1.
    + intros w e [?|?]%N2; eauto.
    + intros p [?|?]%P2; eauto.
    + exists (es1 ++ es2). rewrite T2, T1, app_assoc. split; [done|]. by apply Forall_app.
Qed.

Lemma lframe_mono (G G' : nat → Prop) (N N' : nat → waiting_command_t → Prop) h h' :
  (∀ p, G p → G' p) → (∀ w e, N w e → N' w e) → lframe G N h h' → lframe G' N' h h'.
Proof.
  intros HG HN []. split; eauto.
  - intros w e [?|?]%fr_new0; eauto.
  - intros p [?|?]%fr_packets0; eauto.
Qed.

(** A step that changes neither buffers nor entries nor the trace, and adds no packets. *)
Lemma lframe_same G N h h' : bufs h' = bufs h → waits h' = waits h → trace h' = trace h →
  (∀ p, p ∈ packets_posted h' → p ∈ packets_posted h ∨ G p) → lframe G N h h'.
Proof.
  intros Eb Ew Et Hp. split; rewrite ?Eb, ?Ew, ?Et; eauto. exists []. by rewrite app_nil_r.
Qed.

Definition framed (G : nat → Prop) (N : nat → waiting_command_t → Prop) {A} (m : M hci A) : Prop :=
  ∀ h a h', m h = Ret a h' → lframe G N h h'.

Section framed.
Variables (G : nat → Prop) (N : nat → waiting_command_t → Prop).
Abbreviation framed := (framed G N).

Lemma framed_bind {A B} (m : M hci A) (k : A → M hci B) : framed m → (∀ a, framed (k a)) → framed (m ≫= k).
Proof.
  intros Hm Hk h b h' E. apply bind_ret_inv in E as (a & h1 & E1 & E2).
  transitivity h1; [by eapply Hm|by eapply Hk].
Qed.
Lemma framed_ret {A} (a : A) : framed (mret a).
Proof. intros h b h' E. by injection E as <- <-. Qed.
Lemma framed_get : framed get.
Proof. intros h b h' E. by injection E as <- <-. Qed.
Lemma framed_modify f : (∀ h, lframe G N h (f h)) → framed (modify f).
Proof. intros Hf h b h' E. injection E as <- <-. apply Hf. Qed.
Lemma framed_exit {A} c : framed (exit (A := A) c).
Proof. done. Qed.
Lemma framed_require b : framed (require b).
Proof. destruct b; [apply framed_ret|done]. Qed.
Lemma framed_check b : framed (check b).
Proof. destruct b; [apply framed_ret|done]. Qed.
End framed.
Create HintDb framed.
#[export] Hint Resolve framed_bind framed_ret framed_get framed_modify framed_exit framed_require framed_check : framed.

(** A change of fields the frame does not mention. *)
Ltac frame_same := by apply lframe_same; eauto.
Ltac framed_body :=
  repeat match goal with
  | |- ∀ _, framed _ _ _ => intros ?
  | |- framed _ _ (_ ≫= _) => apply framed_bind
  | |- framed _ _ (modify _) => apply framed_modify; intros ?; frame_same
  | |- framed _ _ (match ?x with _ => _ end) => destruct x
  | |- framed _ _ _ => solve [eauto with framed]
  end.

Section frame.
Context `{!BtMacros, !HcicSizes, !HciDefs, !HciLayerDefs, !HciPlatform}.
Implicit Types h : hci.

Section operations.
Variables (G : nat → Prop) (N : nat → waiting_command_t → Prop).
Abbreviation framed := (framed G N).

Lemma framed_load_buf p : framed (load_buf p).
Proof. intros h b h' E. unfold load_buf in E. case_match; [|done]. by injection E as <- <-. Qed.
Lemma framed_load_wait w : framed (load_wait w).
Proof. intros h b h' E. unfold load_wait in E. case_match; [|done]. by injection E as <- <-. Qed.
Lemma framed_pending : framed pending.
Proof. intros h b h' E. unfold pending in E. case_match; [|done]. by injection E as <- <-. Qed.
Lemma framed_future_ready f v : framed (future_ready f v).
Proof. intros h b h' E. unfold future_ready in E. case_match; [|done]. case_match; [done|]. injection E as <- <-. frame_same. Qed.

Lemma framed_store_buf p b : G p → framed (store_buf p b).
Proof.
  intros Hp. apply framed_modify. intros h. split; cbn; eauto.
  - intros q Hq. rewrite lookup_insert_ne; [done|]. by intros <-.
  - exists []. by rewrite app_nil_r.
Qed.
#[local] Hint Resolve framed_load_buf framed_load_wait framed_pending framed_future_ready framed_store_buf : framed.

Lemma framed_free_buf p : G p → framed (free_buf p).
Proof.
  intros Hp. unfold free_buf. framed_body. apply framed_modify. intros h. split; eauto; cbn.
  - intros q Hq. rewrite lookup_delete_ne; [done|]. by intros <-.
  - exists []. by rewrite app_nil_r.
Qed.
Lemma framed_emit e : quiet e → framed (emit e).
Proof.
  intros Hq. apply framed_modify. intros h. split; cbn; eauto. all: exists [e]; split; [done|by repeat constructor].
Qed.
#[local] Hint Resolve framed_free_buf framed_emit : framed.
#[local] Hint Extern 1 (quiet _) => exact I : framed.

Lemma framed_run_upwards p : framed (run_upwards p).
Proof. unfold run_upwards. framed_body. Qed.
#[local] Hint Resolve framed_run_upwards : framed.

Lemma framed_dispatch p fs : G p → framed (dispatch_fragments p fs).
Proof.
  intros Hp. induction fs as [|[piece fin|all] fs IH]; cbn [dispatch_fragments]; [eauto with framed|..].
  - unfold transmit_fragment. framed_body.
  - unfold fragmenter_transmit_finished. framed_body.
Qed.

Lemma framed_vendor p b : G p → framed (vendor_specific_event p b).
Proof.
  intros Hp. unfold vendor_specific_event, event8, schedule_abort, alarm_cancel_if_scheduled. framed_body.
Qed.

Lemma framed_dispatch_all next l : (∀ q, (next ≤ q)%nat → G q) → framed (dispatch_all next l).
Proof.
  revert next. induction l as [|b l IH]; intros next Hn; cbn [dispatch_all]; [eauto with framed|].
  apply framed_bind; [apply framed_store_buf, Hn; lia|]. intros _.
  apply framed_bind; [unfold dispatch_reassembled; framed_body|]. intros _. apply IH. intros q Hq. apply Hn. lia.
Qed.

Lemma framed_reassemble p next : G p → (∀ q, (next ≤ q)%nat → G q) → framed (reassemble_and_dispatch p next).
Proof.
  intros Hp Hn. unfold reassemble_and_dispatch. framed_body. by apply framed_dispatch_all.
Qed.

Lemma framed_log_info l : framed (command_timed_out_log_info l).
Proof. induction l; cbn [command_timed_out_log_info]; framed_body. Qed.
#[local] Hint Resolve framed_log_info : framed.
Lemma framed_timed_out : framed command_timed_out.
Proof. unfold command_timed_out, schedule_abort. framed_body. Qed.
End operations.
#[local] Hint Resolve framed_load_buf framed_load_wait framed_pending framed_future_ready framed_emit : framed.
#[local] Hint Extern 1 (quiet _) => exact I : framed.

(** ** The inputs *)

Lemma packets_settled h : settled h → ∃ ts, hci_thread h = Some ts ∧ packets_posted h = omap task_packet ts.
Proof. intros (ts & pl & I). exists ts. unfold packets_posted. by rewrite (hi_thread _ _ _ _ I). Qed.

Lemma owned_posted h p : settled h → owned h p ↔ (∃ w e, waits h !! w = Some e ∧ command e = p) ∨ p ∈ packets_posted h.
Proof.
  intros Hs. destruct (packets_settled h Hs) as (ts & Ht & ->).
  unfold owned. split; (intros [Hw|Hp]; [by left|right]); [|by eexists].
  destruct Hp as (ts' & E & Hp). rewrite Ht in E. by injection E as <-.
Qed.

(** The entry and the buffer of a command that was accepted. *)
Definition entry_of (b : buf) (fut complete status : option nat) (ctx : Z) (cmd : nat) : waiting_command_t :=
  mk_waiting_command (rd16 (drop (b_offset b) (b_data b))) fut complete status ctx cmd.
Definition as_command (b : buf) : buf := mk_buf MSG_STACK_TO_HC_HCI_CMD (b_len b) (b_offset b) (b_data b).

Definition accepted_as (e : waiting_command_t) (b : buf) (h h' : hci) : Prop :=
  lframe (λ p, p = command e) (λ w e', w = next_wait h ∧ e' = e) h h' ∧
  waits h' !! next_wait h = Some e ∧ trace h' = trace h ∧ bufs h' = <[command e := as_command b]> (bufs h) ∧
  next_wait h' = S (next_wait h).

Lemma fresh_entry h : settled h → waits h !! next_wait h = None.
Proof.
  intros (ts & pl & I). destruct (waits h !! next_wait h) eqn:E; [|done].
  pose proof (inv_entry_lt _ _ _ _ (next_wait h) I ltac:(by eexists)). lia.
Qed.

Lemma enqueue_frame h h' e b : settled h → 
  (w ← new_wait e; enqueue_command w) (set_bufs (<[command e := as_command b]> (bufs h)) h) = Ret tt h' →
  accepted_as e b h h'.
Proof.
  intros Hs. destruct (packets_settled h Hs) as (ts & Ht & Ep). pose proof (fresh_entry h Hs) as Hn.
  unfold new_wait, enqueue_command, load_buf, store_buf, DoInThread, mbind, M_bind, get, modify, accepted_as. cbn.
  destruct (0 <? command_credits h); cbn; rewrite ?Ht; cbn; intros [= <-]; (split; [split; cbn|split_and!; [cbn; by rewrite lookup_insert_eq|done..]]).
  all: try (intros p Hp; rewrite lookup_insert_ne; [done|congruence]).
  all: try (intros w e' Hw; rewrite lookup_insert_ne; [done|congruence]).
  all: try (intros w e'; destruct (decide (w = next_wait h)) as [->|];
    [rewrite lookup_insert_eq; intros [= <-]; by right|rewrite lookup_insert_ne by done; by left]).
  all: try (exists []; by rewrite app_nil_r).
  - intros p. unfold packets_posted. cbn. rewrite omap_app, elem_of_app. cbn. rewrite Ht.
    intros [?|?%not_elem_of_nil]; [by left|done].
  - intros p Hp. by left.
Qed.

Lemma transmit_frame h h' b cmd complete status ctx : settled h → bufs h !! cmd = Some b →
  transmit_command cmd complete status ctx h = Ret tt h' →
  accepted_as (entry_of b None complete status ctx cmd) b h h'.
Proof.
  intros Hs Hb. unfold transmit_command, command_opcode, load_buf, store_buf, mbind at 1 2 3 4, M_bind at 1 2 3 4, modify.
  rewrite Hb. destruct (bool_decide _); [|done]. apply (enqueue_frame h h' (entry_of b None complete status ctx cmd) b Hs).
Qed.

Lemma futured_frame h h' b cmd : settled h → command_given h cmd → bufs h !! cmd = Some b →
  (transmit_command_futured cmd ;; mret tt) h = Ret tt h' →
  accepted_as (entry_of b (Some (next_future h)) None None 0 cmd) b h h'.
Proof.
  intros Hs (_ & b' & Hb' & _) Hb. assert (b' = b) as -> by congruence. destruct Hs as (ts & pl & I).
  pose proof (inv_future_new _ _ _ _ I) as I1. intros E.
  apply bind_ret_inv in E as (f & h1 & E & [= <-]). unfold transmit_command_futured in E.
  set (h0 := set_next_future _ _) in I1. assert (settled h0) as Hs0 by (by eexists _, _).
  set (e := entry_of b (Some (next_future h)) None None 0 cmd).
  assert ((w ← new_wait e; enqueue_command w) (set_bufs (<[command e := as_command b]> (bufs h0)) h0) = Ret tt h1) as E'.
  { revert E. unfold future_new, command_opcode, load_buf, store_buf, modify, mbind, M_bind at 1 2 3 4 5. subst h0. cbn.
    rewrite Hb. destruct (bool_decide _); [|done]. cbn.
    subst e. unfold entry_of, as_command. destruct (enqueue_command _ _) as [[] h2| | |]; cbn; try done. by intros [= _ <-]. }
  apply enqueue_frame in E' as ([] & Hw & Ht & HB & Hn); [|done]. by split_and!.
Qed.

(** ** The thread *)

Context `{!HciPlatformOk}.

Lemma run_next_frame h h' : settled h → run_next h = Ret tt h' → lframe (λ p, p ∈ packets_posted h) no_new h h'.
Proof.
  intros (ts & pl & I). unfold run_next. intros E. apply bind_ret_inv in E as (h0 & h1 & [= <- <-] & E).
  unfold packets_posted. rewrite (hi_thread _ _ _ _ I) in *. cbn [default from_option].
  destruct ts as [|t ts]; [by injection E as <-|]. apply bind_ret_inv in E as ([] & h1' & [= <-] & E).
  set (h1 := set_hci_thread (Some ts) h) in *.
  assert (∀ G, lframe G no_new h h1) as Hpop.
  { intros G. apply lframe_same; [done..|]. intros p Hp. left. unfold packets_posted in *.
    rewrite (hi_thread _ _ _ _ I). cbn in *. destruct t; [done|by right|done..]. }
  transitivity h1; [apply Hpop|]. destruct t as [w|p| |]; cbn [run_task] in E.
  - assert (is_Some (waits h !! w)) as [e He] by (apply (hi_waits _ _ _ _ I); set_solver).
    destruct (hi_command _ _ _ _ I _ _ He) as (b & Hb & Hc).
    unfold event_command_ready in E. apply bind_ret_inv in E as ([] & h2 & E1 & E2).
    assert (framed (λ p, p ∈ omap task_packet (TCommand w :: ts)) no_new (command_ready_append w)) as Ha.
    { unfold command_ready_append. framed_body. }
    transitivity h2; [by eapply Ha|]. 
    unfold command_ready_append, load_wait, pending, emit, mbind, M_bind, modify in E1. cbn in E1. rewrite He in E1. cbn in E1.
    rewrite (hi_pending _ _ _ _ I) in E1. injection E1 as <-.
    unfold command_ready_send in E2. apply bind_ret_inv in E2 as (e' & h3 & E1 & E2).
    unfold load_wait in E1. cbn in E1. rewrite He in E1. injection E1 as <- <-.
    apply bind_ret_inv in E2 as ([] & h3 & E1 & E2). rewrite (fragment_command_ok _ _ b) in E1; [|exact Hb|apply Hc].
    injection E1 as <-. cbn [bufs set_trace set_commands_pending_response] in E2. 
    assert (framed (λ p, p ∈ omap task_packet (TCommand w :: ts)) no_new update_command_response_timer) as Hu.
    { unfold update_command_response_timer. framed_body. }
    etransitivity; [|by eapply Hu]. split; cbn; eauto.
    + intros p _. subst h1. cbn. by rewrite insert_id.
    + eexists [_]. split; [done|]. by repeat constructor.
  - unfold event_packet_ready, fragment_and_dispatch in E. apply bind_ret_inv in E as (b & h2 & E1 & E2).
    transitivity h2; [by eapply framed_load_buf|]. eapply framed_dispatch; [|exact E2]. cbn. by left.
  - eapply framed_emit; [|exact E]. done.
  - assert (framed (λ p, p ∈ omap task_packet (TFinishStartup :: ts)) no_new event_finish_startup) as Hf; [|by eapply Hf].
    unfold event_finish_startup. framed_body.
Qed.

(** ** Any input but an answer *)

Context `{!HciCodesOk}.

(** The buffers an input gives to the layer. *)
Definition args (i : input) : list nat :=
  match i with
  | IAlloc p _ | IFree p | IEvent p | IReassemble p _ => [p]
  | ITransmit cmd _ _ _ | ITransmitFutured cmd | ITransmitDownward _ cmd => [cmd]
  | _ => []
  end.
Definition touched (i : input) (h : hci) (p : nat) : Prop :=
  p ∈ args i ∨ match i with IRunNext => p ∈ packets_posted h | IReassemble _ next => (next ≤ p)%nat | _ => False end.
(** The callbacks of a new command. *)
Definition callbacks (i : input) : option nat * option nat :=
  match i with ITransmit _ complete status _ => (complete, status) | _ => (None, None) end.
Definition new_entry (i : input) (h : hci) (w : nat) (e : waiting_command_t) : Prop :=
  w = next_wait h ∧ command e ∈ args i ∧ (complete_callback e, status_callback e) = callbacks i.

Lemma accepted_frame i e b h h' : accepted_as e b h h' → command e ∈ args i →
  (complete_callback e, status_callback e) = callbacks i → lframe (touched i h) (new_entry i h) h h'.
Proof.
  intros ([] & _) Hc He. split; eauto.
  - intros p Hp. apply fr_bufs0. intros ->. apply Hp. by left.
  - intros w e' [?|[-> ->]]%fr_new0; [by left|]. by right.
  - intros p [?| ->]%fr_packets0; [by left|right; by left].
Qed.

Lemma handle_frame i h h' : settled h → enabled i h → handle i h = Ret tt h' →
  (∀ p b, i = IEvent p → bufs h !! p = Some b → parse_response (b_data b) = None) →
  lframe (touched i h) (new_entry i h) h h'.
Proof.
  intros Hs He E Hev. assert (∀ p, p ∈ args i → touched i h p) as Ha by (by left).
  assert (∀ A (m : M hci A) a, framed (touched i h) (new_entry i h) m → m h = Ret a h' →
    lframe (touched i h) (new_entry i h) h h') as Hm by (intros A m a Hf Ea; by eapply Hf).
  destruct i as [p b|p|cmd complete status ctx|cmd|type data| | |p|p next| | | | | | |]; cbn [handle enabled] in *.
  - eapply Hm, E. apply framed_store_buf, Ha. by left.
  - eapply Hm, E. apply framed_free_buf, Ha. by left.
  - destruct He as (_ & b & Hb & _). eapply accepted_frame; [by eapply transmit_frame|by left|done].
  - pose proof He as (_ & b & Hb & _). eapply accepted_frame; [by eapply futured_frame|by left|done].
  - unfold transmit_downward in E. destruct (type =? _).
    + destruct He as (_ & b & Hb & _). eapply accepted_frame; [by eapply transmit_frame|by left|done].
    + destruct (packets_settled h Hs) as (ts & Ht & _). 
      unfold enqueue_packet, DoInThread, mbind, M_bind in E. rewrite Ht in E. injection E as <-.
      apply lframe_same; [done..|]. intros p. unfold packets_posted. cbn. rewrite Ht, omap_app, elem_of_app. cbn.
      intros [?| ->%list_elem_of_singleton]; [by left|right]. apply Ha. by left.
  - eapply lframe_mono; [| |by apply run_next_frame]; [by right|done].
  - unfold initialization_complete, DoInThread, mbind, M_bind in E. destruct (packets_settled h Hs) as (ts & Ht & _).
    rewrite Ht in E. injection E as <-. apply lframe_same; [done..|]. intros p. unfold packets_posted. cbn.
    rewrite Ht, omap_app, elem_of_app. cbn. intros [?|?%not_elem_of_nil]; [by left|done].
  - destruct He as (_ & b & Hb & Hl). pose proof (Hev p b eq_refl Hb) as Hp.
    unfold hci_event_received in E. apply bind_ret_inv in E as (r & h1 & E1 & E2).
    rewrite (filter_incoming_event_run h p b Hb Hl), Hp in E1.
    transitivity h1; [|destruct r; cbn [negb] in E2; [by injection E2 as <-|by eapply framed_run_upwards]].
    destruct (_ =? HCI_VENDOR_SPECIFIC_EVT); [|by injection E1 as <- <-].
    eapply framed_vendor; [|exact E1]. apply Ha. by left.
  - eapply Hm, E. apply framed_reassemble; [apply Ha; by left|]. by right.
  - eapply Hm, E. apply framed_timed_out.
  - done.
  - unfold hci_timeout_abort in E. done.
  - done.
  - unfold hal_service_died in E. eapply Hm, E. framed_body.
  - injection E as <-. by apply lframe_same; eauto.
  - injection E as <-. by apply lframe_same; eauto.
Qed.

(** ** What goes out

    [wire] lists the packets given to the transport, each with the entry that was
    made ready just before it, if any. *)

Fixpoint wire (last : option nat) (t : list effect) : list (option nat * buf) :=
  match t with
  | [] => []
  | EReady w :: t' => wire (Some w) t'
  | ETransmit b :: t' => (last, b) :: wire None t'
  | _ :: t' => wire None t'
  end.
Definition label (last : option nat) (t : list effect) : option nat :=
  foldl (λ _ e, ready_entry e) last t.

Lemma wire_app l t t' : wire l (t ++ t') = wire l t ++ wire (label l t) t'.
Proof. revert l. induction t as [|[]]; intros l; cbn; by rewrite ?IHt. Qed.
Lemma label_app l t t' : label l (t ++ t') = label (label l t) t'.
Proof. apply foldl_app. Qed.

(** The commands that went out, and the other packets that did. *)
Definition commands_sent (h : hci) : list (nat * buf) :=
  omap (λ x, w ← x.1; Some (w, x.2)) (wire None (trace h)).
Definition others_sent (h : hci) : list buf :=
  omap (λ x : option nat * buf, if x.1 then None else Some x.2) (wire None (trace h)).

(** The buffer of a command, and the commands that wait for their turn with theirs. *)
Definition buf_of (h : hci) (w : nat) : option buf := e ← waits h !! w; bufs h !! command e.
Definition to_send (h : hci) : list (nat * buf) :=
  omap (λ w, b ← buf_of h w; Some (w, b)) (waiting_turn h).

Definition other_packet (b : buf) : Prop := data_packet b ∨ b = debug_info_command.

(** The commands an input gives to the layer. *)
Definition given (i : input) (h : hci) : list buf :=
  match i with
  | ITransmit cmd _ _ _ | ITransmitFutured cmd => as_command <$> option_list (bufs h !! cmd)
  | ITransmitDownward type data =>
      if type =? MSG_STACK_TO_HC_HCI_CMD then as_command <$> option_list (bufs h !! data) else []
  | _ => []
  end.

(** [fed acc h]: [h] is reached from a fresh start, over inputs that gave the
    layer the commands [acc] in this order. *)
Inductive fed : list buf → hci → Prop :=
  | fed_start env prop h h' : unused h → (∀ b, ETransmit b ∉ trace h) →
      hci_module_start_up env prop h = Ret true h' → fed [] h'
  | fed_input acc i h h' : fed acc h → enabled i h → handle i h = Ret tt h' → fed (acc ++ given i h) h'.

Lemma fed_reachable acc h : fed acc h → reachable h.
Proof. induction 1; [by eapply reach_start|by eapply reach_input]. Qed.

Record Sent (acc : list buf) (h : hci) : Prop := {
  se_next : next_wait h = length acc;
  se_label : label None (trace h) = None;
  se_sent : commands_sent h ++ to_send h = imap pair acc;
  se_others : Forall other_packet (others_sent h)
}.

(** *** Steps that send no command *)

Definition idle (e : effect) : Prop :=
  match e with EReady _ => False | ETransmit b => other_packet b | _ => True end.
Definition idle_step (h h' : hci) : Prop :=
  next_wait h' = next_wait h ∧ ∃ es, trace h' = trace h ++ es ∧ Forall idle es.
Definition idles {A} (m : M hci A) : Prop := ∀ h a h', m h = Ret a h' → idle_step h h'.

#[export] Instance idle_preorder : PreOrder idle_step.
Proof.
  split.
  - intros h. split; [done|]. exists []. by rewrite app_nil_r.
  - intros h1 h2 h3 [N1 (es1 & T1 & Q1)] [N2 (es2 & T2 & Q2)]. split; [congruence|].
    exists (es1 ++ es2). rewrite T2, T1, app_assoc. split; [done|]. by apply Forall_app.
Qed.

Lemma idle_same h h' : next_wait h' = next_wait h → trace h' = trace h → idle_step h h'.
Proof. intros En Et. split; [done|]. exists []. by rewrite app_nil_r. Qed.
Lemma idles_bind {A B} (m : M hci A) (k : A → M hci B) : idles m → (∀ a, idles (k a)) → idles (m ≫= k).
Proof.
  intros Hm Hk h b h' E. apply bind_ret_inv in E as (a & h1 & E1 & E2).
  transitivity h1; [by eapply Hm|by eapply Hk].
Qed.
Lemma idles_emit e : idle e → idles (emit e).
Proof. intros He h a h' [= <- <-]. split; [done|]. exists [e]. by repeat constructor. Qed.
Lemma idles_modify f : (∀ h, next_wait (f h) = next_wait h ∧ trace (f h) = trace h) → idles (modify f).
Proof. intros Hf h a h' [= <- <-]. by apply idle_same; apply Hf. Qed.

(** What neither transmits nor makes a command ready, by its text. *)
Ltac idles_body :=
  repeat match goal with
  | |- ∀ _, idles _ => intros ?
  | |- idles (_ ≫= _) => apply idles_bind
  | |- idles (emit _) => apply idles_emit; by (exact I || right)
  | |- idles (modify _) => by apply idles_modify
  | |- idles (match ?x with _ => _ end) => destruct x
  | H : idles ?m |- idles ?m => exact H
  | |- idles (exit _) => done
  | |- idles _ => by (intros ? ? ? [= <- <-]; apply idle_same)
  | |- idles (λ s, _) => let E := fresh in intros ? ? ? E; repeat case_match; simplify_eq; by apply idle_same
  end.

Lemma idles_load_buf p : idles (load_buf p).
Proof. unfold load_buf. idles_body. Qed.
Lemma idles_load_wait w : idles (load_wait w).
Proof. unfold load_wait. idles_body. Qed.
Lemma idles_pending : idles pending.
Proof. unfold pending. idles_body. Qed.
#[local] Hint Resolve idles_load_buf idles_load_wait idles_pending : idles.
Ltac idles_auto := idles_body; eauto with idles.

Lemma idles_free_buf p : idles (free_buf p).
Proof. unfold free_buf. idles_auto. Qed.
Lemma idles_store_buf p b : idles (store_buf p b).
Proof. unfold store_buf. idles_auto. Qed.
Lemma idles_future_ready f v : idles (future_ready f v).
Proof. unfold future_ready. idles_auto. Qed.
Lemma idles_run_upwards p : idles (run_upwards p).
Proof. unfold run_upwards, check. idles_auto. Qed.
#[local] Hint Resolve idles_free_buf idles_store_buf idles_future_ready idles_run_upwards : idles.

Lemma idles_transmit p piece fin : other_packet piece →
  idles (load_buf p ;; store_buf p piece ;; transmit_fragment p fin).
Proof.
  intros Hb. apply idles_bind; [apply idles_load_buf|]. intros _ h a h' E.
  apply bind_ret_inv in E as ([] & h1 & [= <-] & E). unfold transmit_fragment in E.
  apply bind_ret_inv in E as (b & h2 & E1 & E). unfold load_buf in E1. cbn in E1. rewrite lookup_insert_eq in E1.
  injection E1 as <- <-. apply bind_ret_inv in E as ([] & h2 & E1 & E).
  transitivity h2; [by refine (idles_emit _ _ _ _ _ E1)|].
  assert (idles (if negb (Z.land (b_event piece) MSG_EVT_MASK =? MSG_STACK_TO_HC_HCI_CMD) && fin
    then free_buf p else mret tt)) as Hi by idles_auto. by eapply Hi.
Qed.

Lemma idles_dispatch p fs :
  Forall (λ f, match f with FTransmit piece _ => other_packet piece | FFinished _ => True end) fs →
  idles (dispatch_fragments p fs).
Proof.
  induction 1 as [|[piece fin|all] fs Hf _ IH]; cbn [dispatch_fragments]; [idles_auto|..].
  - intros h a h' E. apply bind_ret_inv in E as (b & h1 & E1 & E). apply bind_ret_inv in E as ([] & h2 & E2 & E).
    apply bind_ret_inv in E as ([] & h3 & E3 & E). transitivity h3; [|by eapply IH].
    eapply (idles_transmit p piece fin Hf). unfold mbind, M_bind. by rewrite E1, E2, E3.
  - unfold fragmenter_transmit_finished. idles_auto.
Qed.

Lemma idles_vendor p b : idles (vendor_specific_event p b).
Proof. unfold vendor_specific_event, event8, require, schedule_abort, alarm_cancel_if_scheduled. idles_auto. Qed.

Lemma idles_dispatch_all next l : idles (dispatch_all next l).
Proof.
  revert next. induction l as [|b l IH]; intros next; cbn [dispatch_all]; [idles_auto|].
  unfold dispatch_reassembled, check. idles_auto.
Qed.
Lemma idles_reassemble p next : idles (reassemble_and_dispatch p next).
Proof. unfold reassemble_and_dispatch. idles_auto. apply idles_dispatch_all. Qed.

Lemma idles_log_info l : idles (command_timed_out_log_info l).
Proof. induction l; cbn [command_timed_out_log_info]; unfold require; idles_auto. Qed.
#[local] Hint Resolve idles_log_info : idles.
Lemma idles_timed_out : idles command_timed_out.
Proof. unfold command_timed_out, schedule_abort. idles_auto. Qed.
Lemma idles_finish_startup : idles event_finish_startup.
Proof. unfold event_finish_startup. idles_auto. Qed.

(** *** Every input *)

Lemma turn_order h : settled h → ready_order h ++ waiting_turn h = seq 0 (next_wait h).
Proof.
  intros (ts & pl & I). unfold waiting_turn. rewrite (hi_thread _ _ _ _ I). apply (hi_order _ _ _ _ I).
Qed.

Lemma turn_entry h w : settled h → w ∈ waiting_turn h → ∃ e b, waits h !! w = Some e ∧ bufs h !! command e = Some b.
Proof.
  intros (ts & pl & I) Hw. unfold waiting_turn in Hw. rewrite (hi_thread _ _ _ _ I) in Hw.
  destruct (proj2 (hi_waits _ _ _ _ I w)) as [e He]; [set_solver|].
  destruct (hi_command _ _ _ _ I _ _ He) as (b & Hb & _). eauto.
Qed.

Lemma idle_wire es : Forall idle es →
  omap (λ x : option nat * buf, w ← x.1; Some (w, x.2)) (wire None es) = [] ∧ label None es = None ∧
  omap ready_entry es = [] ∧
  Forall other_packet (omap (λ x : option nat * buf, if x.1 then None else Some x.2) (wire None es)).
Proof.
  induction 1 as [|[] es He _ (IH1 & IH2 & IH3 & IH4)]; cbn in *; try done.
  all: split_and!; try done. by constructor.
Qed.

Lemma sent_split h es acc : Sent acc h →
  commands_sent (set_trace (trace h ++ es) h) =
    commands_sent h ++ omap (λ x : option nat * buf, w ← x.1; Some (w, x.2)) (wire None es) ∧
  others_sent (set_trace (trace h ++ es) h) =
    others_sent h ++ omap (λ x : option nat * buf, if x.1 then None else Some x.2) (wire None es).
Proof.
  intros S. unfold commands_sent, others_sent. cbn. by rewrite wire_app, (se_label _ _ S), !omap_app.
Qed.

Lemma to_send_ext h h' : waiting_turn h' = waiting_turn h →
  (∀ w, w ∈ waiting_turn h → buf_of h' w = buf_of h w) → to_send h' = to_send h.
Proof.
  intros Et. unfold to_send. rewrite Et. clear Et.
  induction (waiting_turn h) as [|w l IH]; intros Hb; [done|]. cbn. rewrite Hb by (by left).
  rewrite IH; [done|]. intros x Hx. apply Hb. by right.
Qed.

Lemma sent_idle acc h h' : Sent acc h → settled h → settled h' → idle_step h h' →
  (∀ w, w ∈ waiting_turn h → buf_of h' w = buf_of h w) → Sent acc h'.
Proof.
  intros S Hs Hs' (En & es & Et & Hi) Hb. destruct (idle_wire es Hi) as (E1 & E2 & E3 & E4).
  destruct (sent_split h es acc S) as [C O]. rewrite E1, app_nil_r in C.
  assert (waiting_turn h' = waiting_turn h) as Ew.
  { apply turn_order in Hs, Hs'. rewrite En, <- Hs in Hs'. unfold ready_order in Hs'.
    rewrite Et, omap_app, E3, app_nil_r in Hs'. by apply app_inv_head in Hs'. }
  unfold commands_sent, others_sent in C, O. cbn in C, O. rewrite <- Et in C, O. split.
  - rewrite En. apply S.
  - by rewrite Et, label_app, (se_label _ _ S).
  - unfold commands_sent. rewrite C, (to_send_ext h) by done. apply S.
  - unfold others_sent. rewrite O. apply Forall_app. split; [apply S|done].
Qed.

(** A command that is accepted waits behind the others. *)
Lemma sent_accepted acc e b h h' : Sent acc h → settled h → settled h' → accepted_as e b h h' →
  ¬ owned h (command e) → Sent (acc ++ [as_command b]) h'.
Proof.
  intros S Hs Hs' ([Fb Fw _ _ _] & Hw & Et & Eb & En) Ho.
  assert (waiting_turn h' = waiting_turn h ++ [next_wait h]) as Ew.
  { apply turn_order in Hs, Hs'. rewrite En, seq_S, <- Hs in Hs'. unfold ready_order in Hs'.
    rewrite Et, <- app_assoc in Hs'. by apply app_inv_head in Hs'. }
  assert (to_send h' = to_send h ++ [(next_wait h, as_command b)]) as E.
  { unfold to_send. rewrite Ew, omap_app. f_equal.
    - pose proof (turn_entry h) as Hl. specialize (Hl) with (1 := Hs). clear - Hl Fb Fw Ho.
      induction (waiting_turn h) as [|w l IH]; [done|]. cbn.
      destruct (Hl w ltac:(by left)) as (x & b & Hx & Hb).
      assert (buf_of h' w = buf_of h w) as ->.
      { unfold buf_of. rewrite (Fw _ _ Hx), Hx. cbn. apply Fb. intros E. apply Ho. left. eauto. }
      rewrite IH; [done|]. intros y Hy. apply Hl. by right.
    - cbn. unfold buf_of. rewrite Hw. cbn. by rewrite Eb, lookup_insert_eq. }
  split.
  - rewrite En, (se_next _ _ S), length_app. cbn. lia.
  - rewrite Et. apply S.
  - unfold commands_sent. rewrite Et. fold (commands_sent h). rewrite E, app_assoc, (se_sent _ _ S), imap_app.
    cbn. by rewrite (se_next _ _ S), Nat.add_0_r.
  - unfold others_sent. rewrite Et. apply S.
Qed.

(** The command at the head of the thread's tasks goes out, with its buffer. *)
Lemma sent_ready acc h h' w b ts : Sent acc h → settled h → settled h' →
  hci_thread h = Some (TCommand w :: ts) → buf_of h w = Some b →
  trace h' = trace h ++ [EReady w; ETransmit b] → next_wait h' = next_wait h →
  waits h' = waits h → bufs h' = bufs h → Sent acc h'.
Proof.
  intros S Hs Hs' Ht Hb Et En Ew Eb.
  destruct (sent_split h [EReady w; ETransmit b] acc S) as [C O]. cbn in C, O. rewrite app_nil_r in O.
  assert (waiting_turn h = w :: waiting_turn h') as Eq.
  { apply turn_order in Hs, Hs'. rewrite En, <- Hs in Hs'. unfold ready_order in Hs'.
    rewrite Et, omap_app, <- app_assoc in Hs'. apply app_inv_head in Hs'. by rewrite <- Hs'. }
  unfold commands_sent, others_sent in C, O. cbn in C, O. rewrite <- Et in C, O. split.
  - rewrite En. apply S.
  - by rewrite Et, label_app, (se_label _ _ S).
  - rewrite <- (se_sent _ _ S). unfold commands_sent at 1. rewrite C. unfold to_send. rewrite Eq. cbn. rewrite Hb. cbn.
    rewrite <- app_assoc. cbn. do 2 f_equal. unfold buf_of. by rewrite Ew, Eb.
  - unfold others_sent. rewrite O. apply S.
Qed.

(** What the thread does to send a command. *)
Lemma command_ready_run h h' ts pl w e b : waits h !! w = Some e → commands_pending_response h = Some pl →
  bufs h !! command e = Some b → b_event b = MSG_STACK_TO_HC_HCI_CMD →
  event_command_ready w (set_hci_thread (Some ts) h) = Ret tt h' →
  trace h' = trace h ++ [EReady w; ETransmit b] ∧ next_wait h' = next_wait h ∧ waits h' = waits h ∧ bufs h' = bufs h.
Proof.
  intros He Hp Hb Hc E. unfold event_command_ready in E. apply bind_ret_inv in E as ([] & h2 & E1 & E2).
  unfold command_ready_append, load_wait, pending, emit, mbind, M_bind, modify in E1. cbn in E1. rewrite He in E1.
  cbn in E1. rewrite Hp in E1. injection E1 as <-.
  unfold command_ready_send in E2. apply bind_ret_inv in E2 as (e' & h3 & E1 & E2).
  unfold load_wait in E1. cbn in E1. rewrite He in E1. injection E1 as <- <-.
  apply bind_ret_inv in E2 as ([] & h3 & E1 & E2). rewrite (fragment_command_ok _ _ b) in E1 by done.
  injection E1 as <-. unfold update_command_response_timer, mbind, M_bind, get, pending, modify in E2. cbn in E2.
  destruct (command_response_timer h); injection E2 as <-; cbn; rewrite <- app_assoc, insert_id; done.
Qed.

Lemma run_next_sent acc h h' : Sent acc h → settled h → settled h' → run_next h = Ret tt h' → Sent acc h'.
Proof.
  intros S Hs Hs' E. pose proof (run_next_frame h h' Hs E) as [Fb Fw _ _ _].
  destruct Hs as (ts & pl & I). assert (settled h) as Hs by (by eexists _, _).
  unfold run_next in E. apply bind_ret_inv in E as (h0 & h1 & [= <- <-] & E). rewrite (hi_thread _ _ _ _ I) in E.
  assert (idle_step h h' → Sent acc h') as Hidle.
  { intros Hi. eapply sent_idle; [done..|]. intros w Hw. destruct (turn_entry h w Hs Hw) as (e & b & He & Hb).
    unfold buf_of. rewrite He, (Fw _ _ He). cbn. apply Fb. unfold packets_posted. rewrite (hi_thread _ _ _ _ I).
    intros Hp. by eapply (hi_packets_own _ _ _ _ I). }
  destruct ts as [|t ts]; [injection E as <-; by apply Hidle|].
  apply bind_ret_inv in E as ([] & h1 & [= <-] & E).
  assert (idle_step h (set_hci_thread (Some ts) h)) as Hpop by (by apply idle_same).
  destruct t as [w|p| |]; cbn [run_task] in E.
  - assert (is_Some (waits h !! w)) as [e He] by (apply (hi_waits _ _ _ _ I); set_solver).
    destruct (hi_command _ _ _ _ I _ _ He) as (b & Hb & Hc).
    apply (command_ready_run _ _ ts pl w e b) in E as (Et & En & Ew & Eb);
      [|done|exact (hi_pending _ _ _ _ I)|done|apply Hc].
    eapply (sent_ready acc h h' w b ts); try done; [apply (hi_thread _ _ _ _ I)|]. unfold buf_of. by rewrite He.
  - apply Hidle. etransitivity; [exact Hpop|]. unfold event_packet_ready, fragment_and_dispatch in E.
    apply bind_ret_inv in E as (b & h2 & E1 & E2). unfold load_buf in E1. cbn in E1.
    destruct (hi_packets _ _ _ _ I p) as (b' & Hb & Hd); [cbn; by apply list_elem_of_here|].
    rewrite Hb in E1. injection E1 as <- <-. eapply idles_dispatch, E2.
    destruct (fragments_packet b' Hd) as (pieces & last & -> & Hps & Hl). apply Forall_app. split.
    + apply Forall_fmap. eapply Forall_impl; [exact Hps|]. intros x Hx. by left.
    + repeat constructor. destruct last; [|done]. left. apply Hl.
  - apply Hidle. etransitivity; [exact Hpop|]. by refine (idles_emit _ _ _ _ _ E).
  - apply Hidle. etransitivity; [exact Hpop|]. by eapply idles_finish_startup.
Qed.

(** An answer lets go of no command that still waits for its turn. *)
Lemma answered_sent acc h h' p st credits opcode : Sent acc h → settled h → settled h' →
  ¬ owned h p → answered st p credits opcode h h' → Sent acc h'.
Proof.
  intros S Hs Hs' Ho (ts' & pl' & Ht & Hp & En & _ & Ha). pose proof Hs as (ts & pl & I).
  assert (pl' = pl) as -> by (pose proof (hi_pending _ _ _ _ I); congruence).
  assert (∀ w, w ∈ waiting_turn h → ∃ e, waits h !! w = Some e ∧ command e ≠ p ∧ w ∉ pl) as Hw.
  { intros w Hw. destruct (turn_entry h w Hs Hw) as (e & b & He & Hb). exists e. split_and!; [done| |].
    - intros <-. apply Ho. left. eauto.
    - intros Hin. pose proof (turn_order h Hs) as Hn. assert (NoDup (seq 0 (next_wait h))) as Hd by apply NoDup_seq.
      rewrite <- Hn in Hd. apply NoDup_app in Hd as (_ & Hd & _). apply (Hd w); [|done].
      apply (hi_sub _ _ _ _ I). set_solver. }
  destruct (answered_by h pl opcode) as [w|] eqn:Ew.
  - destruct Ha as [_ (e & He & Hd & Hr)]. apply answered_by_in in Ew.
    destruct (response st e p) as [[eff fut] freed] eqn:Er. destruct Hr as (Et & _ & Eb).
    assert (∀ q, q ∈ freed → q = p ∨ q = command e) as Hf.
    { unfold response in Er. repeat case_match; simplify_eq; set_solver. }
    assert (Forall idle (option_list eff)) as Hi.
    { unfold response in Er. repeat case_match; simplify_eq; by repeat constructor. }
    eapply sent_idle; [done..|by split; eauto|]. intros x Hx. destruct (Hw x Hx) as (y & Hy & Hyp & Hypl).
    unfold buf_of. rewrite Hd, lookup_delete_ne by (by intros ->). rewrite Hy. cbn. rewrite Eb.
    assert (command y ∉ freed) as Hn.
    { intros [?|E]%Hf; [done|]. apply Hypl. by rewrite (hi_inj _ _ _ _ I _ _ _ _ Hy He E). }
    clear - Hn. unfold free_all. revert Hn. generalize (bufs h). induction freed as [|q freed IH]; intros B Hn; [done|].
    cbn. rewrite IH by set_solver. rewrite lookup_delete_ne by set_solver. done.
  - destruct Ha as (_ & Ewt & Et & _ & Eb).
    eapply sent_idle; [done..|by apply idle_same|]. intros x Hx. destruct (Hw x Hx) as (y & Hy & Hyp & _).
    unfold buf_of. rewrite Ewt, Hy. cbn. by rewrite Eb, lookup_delete_ne.
Qed.

(** No input touches the buffer of a command of the layer. *)
Lemma untouched i h w e : settled h → enabled i h → waits h !! w = Some e → ¬ touched i h (command e).
Proof.
  intros (ts & pl & I) He Hw. assert (owned h (command e)) as Ho by (left; eauto).
  destruct (hi_command _ _ _ _ I _ _ Hw) as (b & Hb & _).
  intros [Ha|Ht].
  - destruct i; cbn in *; rewrite ?list_elem_of_singleton in Ha; try (by apply elem_of_nil in Ha); subst; try congruence;
      try (by destruct He as [? ?]).
    destruct (type =? _); [by destruct He|]. by destruct He as (? & _ & _ & ?).
  - destruct i; cbn in *; try done.
    + unfold packets_posted in Ht. rewrite (hi_thread _ _ _ _ I) in Ht. by eapply (hi_packets_own _ _ _ _ I).
    + destruct He as (_ & _ & Hn). rewrite (Hn _ Ht) in Hb. done.
Qed.

Lemma handle_sent acc i h h' : Sent acc h → settled h → enabled i h → handle i h = Ret tt h' → Sent (acc ++ given i h) h'.
Proof.
  intros S Hs He E.
  assert (settled h') as Hs' by (pose proof (handle_safe i h Hs He) as Hx; unfold safe in Hx; by rewrite E in Hx).
  assert ((∀ p b, i = IEvent p → bufs h !! p = Some b → parse_response (b_data b) = None) →
    idle_step h h' → Sent acc h') as Hidle.
  { intros Hev Hi. pose proof (handle_frame i h h' Hs He E Hev) as [Fb Fw _ _ _].
    eapply sent_idle; [done..|]. intros w Hw. destruct (turn_entry h w Hs Hw) as (e & b & Hwe & Hb).
    unfold buf_of. rewrite Hwe, (Fw _ _ Hwe). cbn. apply Fb. by eapply untouched. }
  assert (∀ A (m : M hci A) a, i = i → idles m → m h = Ret a h' → idle_step h h') as Hm by (intros A m a _ Hf; apply Hf).
  destruct i as [p b|p|cmd complete status ctx|cmd|type data| | |p|p next| | | | | | |]; cbn [handle enabled given] in *.
  8: { rewrite app_nil_r. destruct He as (Ho & b & Hb & Hl).
    destruct (parse_response (b_data b)) as [[[st credits] opcode]|] eqn:Hp.
    - destruct (hci_event_received_ok h p b Hs Hb Ho Hl) as [_ Hx]. specialize (Hx _ _ _ Hp). unfold wp in Hx.
      rewrite E in Hx. destruct Hx as [_ Ha]. by eapply answered_sent.
    - apply Hidle; [intros q b' [= <-]; congruence|].
      unfold hci_event_received in E. apply bind_ret_inv in E as (r & h1 & E1 & E2).
      rewrite (filter_incoming_event_run h p b Hb Hl), Hp in E1.
      transitivity h1; [|destruct r; cbn [negb] in E2; [by injection E2 as <-|by eapply idles_run_upwards]].
      destruct (_ =? HCI_VENDOR_SPECIFIC_EVT); [|by injection E1 as <- <-]. by eapply idles_vendor. }
  5: { unfold transmit_downward in E. destruct (type =? _).
    - destruct He as (Ho & b & Hb & _). rewrite Hb. 
      eapply (sent_accepted acc (entry_of b None None None 0 data)); [done..| |done]. by eapply transmit_frame.
    - rewrite app_nil_r. apply Hidle; [done|]. destruct (packets_settled h Hs) as (ts & Ht & _).
      unfold enqueue_packet, DoInThread, mbind, M_bind in E. rewrite Ht in E. injection E as <-. by apply idle_same. }
  3: { destruct He as (Ho & b & Hb & _). rewrite Hb.
    eapply (sent_accepted acc (entry_of b None complete status ctx cmd)); [done..| |done]. by eapply transmit_frame. }
  3: { pose proof He as (Ho & b & Hb & _). rewrite Hb.
    eapply (sent_accepted acc (entry_of b (Some (next_future h)) None None 0 cmd)); [done..| |done]. by eapply futured_frame. }
  all: rewrite app_nil_r; try done.
  3: by eapply run_next_sent.
  all: apply Hidle; [done|].
  - eapply idles_store_buf, E.
  - eapply idles_free_buf, E.
  - unfold initialization_complete, DoInThread, mbind, M_bind in E. destruct (packets_settled h Hs) as (ts & Ht & _).
    rewrite Ht in E. injection E as <-. by apply idle_same.
  - eapply idles_reassemble, E.
  - eapply idles_timed_out, E.
  - unfold hal_service_died, mbind, M_bind, get in E. destruct (abort_timer h); [by injection E as <-|done].
  - injection E as <-. by apply idle_same.
  - injection E as <-. by apply idle_same.
Qed.

Lemma start_up_keeps env prop h h' : hci_module_start_up env prop h = Ret true h' →
  next_wait h' = next_wait h ∧ trace h' = trace h ∧ waiting_turn h' = command_queue h.
Proof.
  unfold hci_module_start_up, hci_module_shut_down, DoInThread, future_new.
  destruct env as [a b c d e]. unfold mbind, M_bind, modify, emit. cbn.
  destruct a, b, c, d, e; cbn; try done. intros F. by injection F as <-.
Qed.

Lemma fed_sent acc h : fed acc h → Sent acc h.
Proof.
  induction 1 as [env prop h h' Hu Ht E|acc i h h' Hr IH He E].
  - destruct (start_up_keeps env prop h h' E) as (En & Et & Ew).
    destruct Hu as (_ & Hn & Hr & Eq & _). unfold ready_order in Hr. rewrite Eq in Ew. cbn in Ew.
    assert (wire None (trace h) = [] ∧ label None (trace h) = None) as [W L].
    { clear - Hr Ht. induction (trace h) as [|[] t IH]; cbn in *; try done.
      all: try (apply IH; [done|]; intros b Hb; apply (Ht b); by right).
      by destruct (Ht packet); left. }
    split.
    + by rewrite En.
    + by rewrite Et.
    + unfold commands_sent, to_send. by rewrite Et, W, Ew.
    + unfold others_sent. by rewrite Et, W.
  - apply fed_reachable, reachable_settled in Hr. by eapply handle_sent.
Qed.

(** C2: Whatever the clients, the transport and the alarms do within their
    obligations, the commands that went to the transport and those that wait for their
    turn are together exactly the commands the clients gave, with their contents, once
    each and in the order they were given; nothing else that goes out is a command but
    the one that asks for debug information; every command that awaits a response still
    has its buffer; and no operation is undefined or gets stuck. *)
Theorem hci_layer_safe acc h : fed acc h →
  commands_sent h ++ to_send h = imap pair acc ∧
  Forall other_packet (others_sent h) ∧
  (∀ w e, waits h !! w = Some e → is_Some (bufs h !! command e)) ∧
  ∀ i, enabled i h → handle i h ≠ Undefined ∧ handle i h ≠ Stuck.
Proof.
  intros Hr. destruct (fed_sent _ _ Hr). apply fed_reachable, reachable_settled in Hr as Hs. split_and!; [done..| |].
  - intros w e Hw. destruct Hs as (ts & pl & I). destruct (hi_command _ _ _ _ I _ _ Hw) as (b & -> & _). by eexists.
  - intros i He. pose proof (handle_safe i h Hs He) as Hsafe. unfold safe in Hsafe. by destruct (handle i h).
Qed.
End frame.
