(* ===== verification/H4.v ===== *)
(** * Bluetooth: the H4 transport ([hardware/interfaces/bluetooth/1.0/default/h4_protocol.cc])

    Packets are framed on the serial channel by a type byte.  The packetizer that
    collects the bytes of one packet, and the packet types, are outside the
    repository. *)

From S2P Require Import Prelude CMonad BtTypes HciParser.

Class H4Types : Type := {
  HCI_PACKET_TYPE_UNKNOWN : Z; HCI_PACKET_TYPE_ACL_DATA : Z; HCI_PACKET_TYPE_SCO_DATA : Z;
  HCI_PACKET_TYPE_EVENT : Z
}.

(** What a [read] of the channel gives: bytes that have arrived (none at the end
    of the file) or an error; a [write] writes so many bytes, is interrupted, finds
    no room, or fails. *)
Inductive read_result : Type := RBytes (avail : bytes) | RError.
Inductive write_result : Type := Written (n : nat) | WInterrupted | WAgain | WError.

(** [pz_OnDataReady type r] reads some of the bytes that have arrived: how many, and
    whether the packet is whole now; [None] when it ends the process. *)
Class Packetizer : Type := {
  hci_packetizer : Type;
  pz_OnDataReady : Z → read_result → hci_packetizer → option (hci_packetizer * nat * bool);
  GetPacket : hci_packetizer → bytes
}.

(** What the callbacks are given, by the type of the packet. *)
Inductive delivery : Type := Event (p : bytes) | Acl (p : bytes) | Sco (p : bytes).

Section h4.
Context `{!H4Types, !Packetizer}.

Record h4 : Type := mk_h4 {
  hci_packet_type_ : Z;
  hci_packetizer_ : hci_packetizer;
  uart : list bytes;
  delivered : list delivery }.

Definition set_type (t : Z) (s : h4) : h4 := mk_h4 t (hci_packetizer_ s) (uart s) (delivered s).
Definition set_packetizer (z : hci_packetizer) (s : h4) : h4 := mk_h4 (hci_packet_type_ s) z (uart s) (delivered s).

(** [write(uart_fd_, packet)]: the channel makes one message of every write. *)
Definition write_packet (packet : bytes) (r : write_result) : M h4 (option Z) :=
  match r with
  | Written n =>
      modify (λ s, mk_h4 (hci_packet_type_ s) (hci_packetizer_ s) (uart s ++ [take n packet]) (delivered s)) ;;
      mret (Some (Z.of_nat (n `min` length packet)))
  | WInterrupted | WAgain => mret None
  | WError => mret (Some (-1))
  end.

(** Both loops, over the results of the attempts; stuck while there is no other. *)
Fixpoint write_retry (packet : bytes) (rs : list write_result) : M h4 Z :=
  match rs with
  | [] => stuck
  | r :: rs' => o ← write_packet packet r; match o with Some n => mret n | None => write_retry packet rs' end
  end.

(** The result is converted to a [size_t] of [w] bits. *)
Definition Send (w : Z) (type : Z) (data : bytes) (rs : list write_result) : M h4 Z :=
  ret ← write_retry (type :: data) rs; mret (wrap w ret).

Definition deliver (d : delivery) : M h4 unit :=
  modify (λ s, mk_h4 (hci_packet_type_ s) (hci_packetizer_ s) (uart s) (delivered s ++ [d])).

Definition OnPacketReady : M h4 unit :=
  s ← get;
  let p := GetPacket (hci_packetizer_ s) in
  (if hci_packet_type_ s =? HCI_PACKET_TYPE_EVENT then deliver (Event p)
   else if hci_packet_type_ s =? HCI_PACKET_TYPE_ACL_DATA then deliver (Acl p)
   else if hci_packet_type_ s =? HCI_PACKET_TYPE_SCO_DATA then deliver (Sco p)
   else exit ABORTED) ;;
  modify (set_type HCI_PACKET_TYPE_UNKNOWN).

Definition is_data_type (b : Z) : bool :=
  (b =? HCI_PACKET_TYPE_ACL_DATA) || (b =? HCI_PACKET_TYPE_SCO_DATA) || (b =? HCI_PACKET_TYPE_EVENT).

(** The number of bytes that were read. *)
Definition OnDataReady (r : read_result) : M h4 nat :=
  s ← get;
  if hci_packet_type_ s =? HCI_PACKET_TYPE_UNKNOWN then
    match r with
    | RError => exit ABORTED
    | RBytes [] => mret 0%nat
    | RBytes (b :: _) =>
        modify (set_type b) ;;
        (if negb (is_data_type b) then modify (set_type HCI_PACKET_TYPE_UNKNOWN) else mret tt) ;;
        mret 1%nat
    end
  else
    match pz_OnDataReady (hci_packet_type_ s) r (hci_packetizer_ s) with
    | None => exit ABORTED
    | Some (z, n, ready) =>
        modify (set_packetizer z) ;;
        (if (ready : bool) then OnPacketReady else mret tt) ;;
        mret n
    end.
End h4.
