(* ===== verification/H4Spec.v ===== *)
(** * Bluetooth: what the H4 transport promises

    The packets of a stream are delivered whole, in order and to the callback of
    their type, however the bytes arrive and whatever stray bytes lie between them;
    and a packet is sent in one write. *)

From S2P Require Import Prelude CMonad BtTypes H4.

(** ** Laws

    [is_packet t p]: [p] is a whole packet of type [t]; [held]: the bytes of the
    packet the packetizer has collected.  It takes at least a byte of what has
    arrived, nothing beyond the packet, and says so when it is whole. *)
Class PacketizerOk `{!H4Types, !Packetizer} : Type := {
  is_packet : Z → bytes → Prop;
  held : hci_packetizer → bytes;
  packet_nonempty t p : is_packet t p → p ≠ [];
  pz_reads t p z rest avail more :
    is_packet t p → p = held z ++ rest → rest ≠ [] → avail ≠ [] → avail `prefix_of` rest ++ more →
    ∃ z' n, pz_OnDataReady t (RBytes avail) z = Some (z', n, bool_decide (n = length rest)) ∧
      (1 ≤ n ≤ length rest)%nat ∧ (n ≤ length avail)%nat ∧
      if bool_decide (n = length rest) then GetPacket z' = p ∧ held z' = []
      else held z' = held z ++ take n rest
}.

Class H4TypesOk `{!H4Types} : Prop := {
  unknown_type : is_data_type HCI_PACKET_TYPE_UNKNOWN = false;
  types_differ : HCI_PACKET_TYPE_ACL_DATA ≠ HCI_PACKET_TYPE_EVENT ∧ HCI_PACKET_TYPE_SCO_DATA ≠ HCI_PACKET_TYPE_EVENT ∧
    HCI_PACKET_TYPE_ACL_DATA ≠ HCI_PACKET_TYPE_SCO_DATA
}.

(** ** Framing *)

(** What is on the channel: stray bytes between packets, and packets. *)
Inductive item : Type := Junk (b : Z) | Packet (t : Z) (p : bytes).

Section framing.
Context `{!H4Types, !Packetizer, !PacketizerOk, !H4TypesOk}.

Definition item_ok (i : item) : Prop :=
  match i with Junk b => is_data_type b = false | Packet t p => is_data_type t = true ∧ is_packet t p end.
Definition encode_item (i : item) : bytes := match i with Junk b => [b] | Packet t p => t :: p end.
Definition encode (l : list item) : bytes := l ≫= encode_item.
Definition delivery_of (t : Z) (p : bytes) : delivery :=
  if t =? HCI_PACKET_TYPE_EVENT then Event p else if t =? HCI_PACKET_TYPE_ACL_DATA then Acl p else Sco p.
Definition deliveries (l : list item) : list delivery :=
  omap (λ i, match i with Packet t p => Some (delivery_of t p) | Junk _ => None end) l.

(** Between packets, or within one. *)
Definition receiving (s : h4) (left : bytes) (todo : list delivery) : Prop :=
  ∃ items, Forall item_ok items ∧
  ((hci_packet_type_ s = HCI_PACKET_TYPE_UNKNOWN ∧ held (hci_packetizer_ s) = [] ∧
    left = encode items ∧ todo = deliveries items) ∨
   ∃ t p rest, hci_packet_type_ s = t ∧ is_data_type t = true ∧ is_packet t p ∧
     p = held (hci_packetizer_ s) ++ rest ∧ rest ≠ [] ∧
     left = rest ++ encode items ∧ todo = delivery_of t p :: deliveries items).

Lemma OnPacketReady_run s p : is_data_type (hci_packet_type_ s) = true → GetPacket (hci_packetizer_ s) = p →
  OnPacketReady s = Ret tt (mk_h4 HCI_PACKET_TYPE_UNKNOWN (hci_packetizer_ s) (uart s)
    (delivered s ++ [delivery_of (hci_packet_type_ s) p])).
Proof.
  intros Ht Hp. unfold OnPacketReady, deliver, delivery_of, is_data_type, mbind, M_bind, get, modify in *.
  rewrite Hp. destruct (hci_packet_type_ s =? HCI_PACKET_TYPE_EVENT); [done|].
  destruct (hci_packet_type_ s =? HCI_PACKET_TYPE_ACL_DATA); [done|].
  destruct (hci_packet_type_ s =? HCI_PACKET_TYPE_SCO_DATA); done.
Qed.

(** Whatever part of the stream has arrived, a call takes some of it. *)
Lemma receive_step s left todo avail : receiving s left todo → avail ≠ [] → avail `prefix_of` left →
  wp (OnDataReady (RBytes avail)) (λ n s', (1 ≤ n ≤ length avail)%nat ∧ uart s' = uart s ∧
    ∃ done todo', todo = done ++ todo' ∧ delivered s' = delivered s ++ done ∧
      receiving s' (drop n left) todo') s.
Proof.
  intros (items & Hok & Hr) Ha Hpre. unfold OnDataReady. wp_step. wp_step.
  destruct Hr as [(Ht & Hh & Hl & Hd)|(t & p & rest & Ht & Hdt & Hpk & Hh & Hrest & Hl & Hd)].
  - rewrite Ht, Z.eqb_refl. destruct avail as [|b avail]; [done|].
    subst left. destruct items as [|i items]; [by destruct Hpre as [? ?]|].
    apply Forall_cons in Hok as [Hi Hok]. destruct Hpre as [more Hpre].
    do 2 wp_step. destruct i as [x|t p]; cbn in Hpre, Hi.
    + injection Hpre as -> Hpre. rewrite Hi. cbn [negb]. do 3 wp_step.
      split_and!; [lia|cbn; lia|done|]. exists [], todo. rewrite app_nil_r. split_and!; [done..|].
      exists items. split; [done|]. left. by split_and!.
    + injection Hpre as -> Hpre. destruct Hi as [Hi Hpk]. rewrite Hi. cbn [negb]. do 3 wp_step.
      split_and!; [lia|cbn; lia|done|]. exists [], todo. rewrite app_nil_r. split_and!; [done..|].
      exists items. split; [done|]. right. exists b, p, p. split_and!; try done; [cbn; by rewrite Hh|].
      by eapply packet_nonempty.
  - rewrite Ht, (proj2 (Z.eqb_neq _ _)).
    2: { intros E. rewrite E, unknown_type in Hdt. done. }
    subst left. destruct (pz_reads t p (hci_packetizer_ s) rest avail (encode items) Hpk Hh Hrest Ha Hpre)
      as (z' & n & E & Hn & Hna & Hz). rewrite E. wp_step. wp_step. wp_step.
    destruct (bool_decide (n = length rest)) eqn:Eb.
    + apply bool_decide_eq_true in Eb. destruct Hz as [Hg Hz].
      eapply run_wp; [apply (OnPacketReady_run _ p); cbn; [by rewrite Ht|done]|]. wp_step.
      split_and!; [lia|lia|done|]. exists [delivery_of t p], (deliveries items). cbn. rewrite Ht.
      split_and!; [done..|]. exists items. split; [done|]. left. split_and!; try done.
      by rewrite drop_app_length' by done.
    + apply bool_decide_eq_false in Eb. wp_step. wp_step. split_and!; [lia|lia|done|].
      exists [], todo. rewrite app_nil_r. split_and!; [done..|]. exists items. split; [done|]. right.
      exists t, p, (drop n rest). cbn. rewrite Hz, <- app_assoc, take_drop. split_and!; try done.
      * intros En. apply (f_equal length) in En. rewrite length_drop in En. cbn in En. lia.
      * by rewrite drop_app_le by lia.
Qed.

(** ** The channel *)

(** A call, when part of what is [left] of the stream has arrived. *)
Definition call (x y : h4 * bytes) : Prop :=
  ∃ avail n, avail ≠ [] ∧ avail `prefix_of` x.2 ∧
    OnDataReady (RBytes avail) x.1 = Ret n y.1 ∧ y.2 = drop n x.2.

Lemma receive_steps n x y : nsteps call n x y → ∀ todo, receiving x.1 x.2 todo →
  ∃ todo', receiving y.1 y.2 todo' ∧ delivered y.1 ++ todo' = delivered x.1 ++ todo ∧
    (n + length y.2 ≤ length x.2)%nat.
Proof.
  induction 1 as [x|n x z y (avail & k & Ha & Hpre & Ek & Ez) Hn IH]; intros todo Hr.
  { exists todo. by split_and!. }
  pose proof (receive_step _ _ _ _ Hr Ha Hpre) as Hw. unfold wp in Hw. rewrite Ek in Hw.
  destruct Hw as (Hk & _ & done & todo' & -> & Hd & Hr'). rewrite <- Ez in Hr'.
  destruct (IH todo' Hr') as (todo & ? & E & Hl). exists todo. split; [done|].
  rewrite E, Hd, <- app_assoc. split; [done|]. rewrite Ez, length_drop in Hl.
  apply prefix_length in Hpre. lia.
Qed.

Definition idle (s : h4) : Prop := hci_packet_type_ s = HCI_PACKET_TYPE_UNKNOWN ∧ held (hci_packetizer_ s) = [].

Lemma receiving_end s todo : receiving s [] todo → todo = [] ∧ idle s.
Proof.
  intros (items & _ & [(Ht & Hh & He & ->)|(t & p & rest & ? & ? & ? & ? & Hrest & He & ->)]).
  - by destruct items as [|[b|t p] items].
  - symmetry in He. by apply app_eq_nil in He as [-> _].
Qed.

(** C37: However the bytes arrive, every packet of the stream is delivered once, to
    the callback of its type and in order, and stray bytes between packets are skipped;
    every call makes progress. *)
Theorem h4_delivers n items s0 s left :
  idle s0 → Forall item_ok items → nsteps call n (s0, encode items) (s, left) →
  (n + length left ≤ length (encode items))%nat ∧
  delivered s `prefix_of` delivered s0 ++ deliveries items ∧
  (left = [] → delivered s = delivered s0 ++ deliveries items ∧ idle s) ∧
  (left ≠ [] → ∃ y, call (s, left) y).
Proof.
  intros [Ht Hh] Hok Hn.
  assert (∃ todo, receiving s left todo ∧ delivered s ++ todo = delivered s0 ++ deliveries items ∧
    (n + length left ≤ length (encode items))%nat) as (todo & Hr & Hd & Hl).
  { apply (receive_steps _ _ _ Hn). exists items. split; [done|by left]. }
  split_and!; [done|by exists todo| |].
  - intros ->. destruct (receiving_end _ _ Hr) as [-> ?]. by rewrite app_nil_r in Hd.
  - intros Hne. pose proof (receive_step _ _ _ left Hr Hne ltac:(reflexivity)) as Hw.
    apply wp_run in Hw as (k & s' & E & _). exists (s', drop k left). by exists left, k.
Qed.

(** ** Sending *)

Definition retry (r : write_result) : Prop := r = WInterrupted ∨ r = WAgain.

Lemma write_retry_run packet waits r rs s : Forall retry waits →
  write_retry packet (waits ++ r :: rs) s = write_retry packet (r :: rs) s.
Proof. induction 1 as [|x l Hx _ IH]; [done|]. cbn. unfold mbind, M_bind. by destruct Hx as [-> | ->]. Qed.

(** A packet leaves in one write, however often the channel has to be asked; the
    result is what that write took, and all ones when it fails. *)
Lemma send_exact w t p waits r rs s : Forall retry waits → ¬ retry r →
  Send w t p (waits ++ r :: rs) s =
  match r with
  | Written n => Ret (wrap w (Z.of_nat (n `min` S (length p))))
      (mk_h4 (hci_packet_type_ s) (hci_packetizer_ s) (uart s ++ [take n (t :: p)]) (delivered s))
  | _ => Ret (wrap w (-1)) s
  end.
Proof.
  intros Hw Hr. unfold Send, mbind, M_bind. rewrite write_retry_run by done.
  destruct r; try done; destruct Hr; unfold retry; tauto.
Qed.

(** Packets to send, with the results of the writes. *)
Record outgoing : Type := mk_outgoing { o_type : Z; o_packet : bytes; o_writes : list write_result }.

Fixpoint sends (w : Z) (l : list outgoing) : M h4 unit :=
  match l with [] => mret tt | o :: l' => Send w (o_type o) (o_packet o) (o_writes o) ;; sends w l' end.

(** After some attempts the channel takes the whole packet. *)
Definition taken_whole (o : outgoing) : Prop :=
  ∃ waits n rs, o_writes o = waits ++ Written n :: rs ∧ Forall retry waits ∧ (S (length (o_packet o)) ≤ n)%nat.

Lemma sends_run w l s : Forall taken_whole l →
  sends w l s = Ret tt (mk_h4 (hci_packet_type_ s) (hci_packetizer_ s)
    (uart s ++ ((λ o, o_type o :: o_packet o) <$> l)) (delivered s)).
Proof.
  intros Hl. revert s. induction Hl as [|o l (waits & n & rs & E & Hw & Hn) Hl IH]; intros s; cbn [sends fmap list_fmap].
  - rewrite app_nil_r. by destruct s.
  - unfold mbind, M_bind. rewrite E, send_exact; [|done|by intros [|]].
    rewrite IH. cbn [hci_packet_type_ hci_packetizer_ uart delivered]. rewrite <- app_assoc.
    by rewrite (take_ge (o_type o :: o_packet o)) by (cbn; lia).
Qed.

(** C38: What one side sends the other delivers: each packet is one message on the
    channel, and the messages, however they are cut up on the way, come out as the
    packets that went in. *)
Theorem send_receive w l s1 s1' s0 n s :
  Forall taken_whole l → Forall (λ o, is_data_type (o_type o) = true ∧ is_packet (o_type o) (o_packet o)) l →
  uart s1 = [] → sends w l s1 = Ret tt s1' →
  idle s0 → nsteps call n (s0, concat (uart s1')) (s, []) →
  uart s1' = ((λ o, o_type o :: o_packet o) <$> l) ∧
  delivered s = delivered s0 ++ ((λ o, delivery_of (o_type o) (o_packet o)) <$> l).
Proof.
  intros Hw Hl Hu Hs Hi Hn. rewrite sends_run in Hs by done. injection Hs as <-. cbn [uart] in *.
  rewrite Hu in *. split; [done|].
  assert (concat ([] ++ ((λ o, o_type o :: o_packet o) <$> l)) = encode ((λ o, Packet (o_type o) (o_packet o)) <$> l)) as E.
  { clear. induction l as [|o l IH]; [done|]. cbn in *. by rewrite IH. }
  rewrite E in Hn.
  destruct (receive_steps _ _ _ Hn (deliveries ((λ o, Packet (o_type o) (o_packet o)) <$> l))) as (todo & Hr & Hd & _).
  { exists ((λ o, Packet (o_type o) (o_packet o)) <$> l). split; [by apply Forall_fmap|left]. by destruct Hi. }
  destruct (receiving_end _ _ Hr) as [-> _]. cbn in Hd. rewrite app_nil_r in Hd. rewrite Hd. f_equal.
  clear. induction l as [|o l IH]; [done|]. unfold deliveries in *. cbn. by f_equal.
Qed.
End framing.
