(* ===== verification/BtmDev.v ===== *)
(** * Bluetooth: the device manager ([stack/btm/btm_devctl.cc])

    Callbacks are numbers of the client; calling one, sending a command and telling
    another module something are effects, in order.  The classic commands and the
    other modules are outside the repository; the controller is that of [Controller]. *)

From S2P Require Import Prelude CMonad BtTypes HciParser Controller.

(** ** Definitions outside the repository *)

(** The bits of feature page 0 that only this file reads. *)
Class BtmFeatureBits : Type := {
  HCI_3_SLOT_PACKETS_SUPPORTED : bytes → bool; HCI_5_SLOT_PACKETS_SUPPORTED : bytes → bool;
  HCI_EDR_ACL_2MPS_SUPPORTED : bytes → bool; HCI_EDR_ACL_3MPS_SUPPORTED : bytes → bool;
  HCI_3_SLOT_EDR_ACL_SUPPORTED : bytes → bool; HCI_5_SLOT_EDR_ACL_SUPPORTED : bytes → bool;
  HCI_SCO_LINK_SUPPORTED : bytes → bool; HCI_HV2_PACKETS_SUPPORTED : bytes → bool;
  HCI_HV3_PACKETS_SUPPORTED : bytes → bool; HCI_ESCO_EV3_SUPPORTED : bytes → bool;
  HCI_ESCO_EV4_SUPPORTED : bytes → bool; HCI_ESCO_EV5_SUPPORTED : bytes → bool;
  HCI_EDR_ESCO_2MPS_SUPPORTED : bytes → bool; HCI_EDR_ESCO_3MPS_SUPPORTED : bytes → bool;
  HCI_3_SLOT_EDR_ESCO_SUPPORTED : bytes → bool; HCI_HOLD_MODE_SUPPORTED : bytes → bool;
  HCI_SNIFF_MODE_SUPPORTED : bytes → bool; HCI_PARK_MODE_SUPPORTED : bytes → bool;
  HCI_NON_FLUSHABLE_PB_SUPPORTED : bytes → bool
}.

Class BtmMasks : Type := {
  BTM_ACL_PKT_TYPES_MASK_DM1 : Z; BTM_ACL_PKT_TYPES_MASK_DH1 : Z; BTM_ACL_PKT_TYPES_MASK_DM3 : Z;
  BTM_ACL_PKT_TYPES_MASK_DH3 : Z; BTM_ACL_PKT_TYPES_MASK_DM5 : Z; BTM_ACL_PKT_TYPES_MASK_DH5 : Z;
  BTM_ACL_PKT_TYPES_MASK_NO_2_DH1 : Z; BTM_ACL_PKT_TYPES_MASK_NO_3_DH1 : Z;
  BTM_ACL_PKT_TYPES_MASK_NO_2_DH3 : Z; BTM_ACL_PKT_TYPES_MASK_NO_3_DH3 : Z;
  BTM_ACL_PKT_TYPES_MASK_NO_2_DH5 : Z; BTM_ACL_PKT_TYPES_MASK_NO_3_DH5 : Z;
  ESCO_PKT_TYPES_MASK_HV1 : Z; ESCO_PKT_TYPES_MASK_HV2 : Z; ESCO_PKT_TYPES_MASK_HV3 : Z;
  ESCO_PKT_TYPES_MASK_EV3 : Z; ESCO_PKT_TYPES_MASK_EV4 : Z; ESCO_PKT_TYPES_MASK_EV5 : Z;
  ESCO_PKT_TYPES_MASK_NO_2_EV3 : Z; ESCO_PKT_TYPES_MASK_NO_3_EV3 : Z;
  ESCO_PKT_TYPES_MASK_NO_2_EV5 : Z; ESCO_PKT_TYPES_MASK_NO_3_EV5 : Z; BTM_ESCO_LINK_ONLY_MASK : Z;
  HCI_ENABLE_MASTER_SLAVE_SWITCH : Z; HCI_ENABLE_HOLD_MODE : Z; HCI_ENABLE_SNIFF_MODE : Z;
  HCI_ENABLE_PARK_MODE : Z
}.

Class BtmConfig : Type := {
  BTM_SUCCESS : Z; BTM_CMD_STARTED : Z; BTM_BUSY : Z; BTM_NO_RESOURCES : Z; BTM_ILLEGAL_VALUE : Z;
  BTM_DEV_RESET : Z; BTM_DEV_STATUS_UP : Z; BTM_SEC_STATE_IDLE : Z; BTM_CB_EVT_DELETE_STORED_LINK_KEYS : Z;
  BD_NAME_LEN : nat; BTM_MAX_LOC_BD_NAME_LEN : nat; BTM_MAX_VSE_CALLBACKS : nat;
  HCI_DEF_INQUIRYSCAN_WINDOW : Z; HCI_DEF_INQUIRYSCAN_INTERVAL : Z; HCI_DEF_SCAN_TYPE : Z;
  HCI_DEF_PAGESCAN_WINDOW : Z; HCI_DEF_PAGESCAN_INTERVAL : Z; BTM_BLE_PRIVATE_ADDR_INT_MS : Z;
  BTM_INQ_RESULT_EXTENDED : Z; BTM_INQ_RESULT_WITH_RSSI : Z; BTM_DEFAULT_SCAN_TYPE : Z;
  BTM_CONNECTABLE : Z; BTM_DEFAULT_CONN_WINDOW : Z; BTM_DEFAULT_CONN_INTERVAL : Z;
  BTM_GENERAL_DISCOVERABLE : Z; BTM_DEFAULT_DISC_WINDOW : Z; BTM_DEFAULT_DISC_INTERVAL : Z;
  HCI_DO_AUTO_ACCEPT_CONNECT : Z; HCI_FILTER_CONNECTION_SETUP : Z; HCI_FILTER_COND_NEW_DEVICE : Z;
  VSE_SUBCODE_BQR_SUB_EVT : Z; L2CAP_NON_FLUSHABLE_PB_INCLUDED : bool
}.

(** Whether the calls that make the device connectable and discoverable succeed. *)
Class BtmModules : Type := { connectability : bool; discoverability : bool }.

(** ** Data *)

Inductive vs_cback : Type := Client (cb : nat) | BTM_BT_Quality_Report_VSE_CBack.
#[export] Instance vs_cback_eq_dec : EqDecision vs_cback.
Proof. solve_decision. Defined.

Record inq : Type := mk_inq {
  inq_counter : Z; inq_scan_window : Z; inq_scan_period : Z; inq_scan_type : Z;
  page_scan_window : Z; page_scan_period : Z; page_scan_type : Z }.

Inductive beffect : Type :=
  (* callbacks *)
  | CallName (cb : nat) (name : option bytes)
  | CallRssi (cb : nat) (status : Z) | CallFailedContact (cb : nat) (status : Z)
  | CallFlushTimeout (cb : nat) (status : Z)
  | CallDeleteKeys (cb : nat) (event status num_keys : Z)
  | CallStatus (cb : nat) (status : Z)
  | CallVs (cb : nat) (len : Z) (p : bytes) | CallVsc (cb : nat) (opcode len : Z) (p : bytes)
  | CallBqr (cb : nat) (len : Z) (p : bytes)
  (* commands *)
  | ChangeName (name : bytes) | ReadName | WriteDevClass (c : bytes) | WritePageTimeout (t : Z)
  | WriteVoiceSettings (v : Z) | SetEventFilter (t cond v : Z) | EnableTestMode
  | SetEventMask (mask : bytes) | DeleteStoredKey (addr : bytes) (all : bool)
  | VendorCommand (opcode : Z) (param : bytes) (cb : nat) | BleSetRandPrivAddrTimeout (t : Z)
  (* other modules *)
  | L2cuDeviceReset | ConnectionManagerReset | PmReset | InqDbReset | AclDeviceDown | StartController
  | L2cNumBufs (n : Z) | L2cBleNumBufs (n : Z) | BleResolvingListInit (n : Z) | BleWhiteListInit (n : Z)
  | SetPinType | SecDevReset | SetInquiryMode (m : Z) | SetNonFlushablePbf (b : bool)
  | SetPageScanType (t : Z) | SetInquiryScanType (t : Z) | SetConnectability (m w i : Z)
  | SetDiscoverability (m w i : Z).

(** ** State

    The part of [btm_cb] this file owns or resets; [read_local_name_timer] says
    whether that alarm is set. *)

Record btm : Type := mk_btm {
  bd_name : bytes;
  inq_vars : inq;
  ble_conn_idle : bool;
  read_local_name_timer : bool;
  p_rln_cmpl_cb : option nat;
  p_rssi_cmpl_cb : option nat;
  p_failed_contact_counter_cmpl_cb : option nat;
  p_automatic_flush_timeout_cmpl_cb : option nat;
  p_stored_link_key_cmpl_cb : option nat;
  p_dev_status_cb : option nat;
  dev_class : bytes;
  p_vend_spec_cb : list (option vs_cback);
  p_bqr_report_receiver : option nat;
  btm_acl_pkt_types_supported : Z;
  btm_sco_pkt_types_supported : Z;
  esco_supported : bool;
  btm_def_link_policy : Z;
  controller : ctl;
  sec_states : list Z;
  effects : list beffect }.

Definition set_bd_name (x : bytes) (s : btm) : btm := mk_btm x (inq_vars s) (ble_conn_idle s)
  (read_local_name_timer s) (p_rln_cmpl_cb s) (p_rssi_cmpl_cb s) (p_failed_contact_counter_cmpl_cb
  s) (p_automatic_flush_timeout_cmpl_cb s) (p_stored_link_key_cmpl_cb s) (p_dev_status_cb s)
  (dev_class s) (p_vend_spec_cb s) (p_bqr_report_receiver s) (btm_acl_pkt_types_supported s)
  (btm_sco_pkt_types_supported s) (esco_supported s) (btm_def_link_policy s) (controller s)
  (sec_states s) (effects s).
Definition set_inq_vars (x : inq) (s : btm) : btm := mk_btm (bd_name s) x (ble_conn_idle s)
  (read_local_name_timer s) (p_rln_cmpl_cb s) (p_rssi_cmpl_cb s) (p_failed_contact_counter_cmpl_cb
  s) (p_automatic_flush_timeout_cmpl_cb s) (p_stored_link_key_cmpl_cb s) (p_dev_status_cb s)
  (dev_class s) (p_vend_spec_cb s) (p_bqr_report_receiver s) (btm_acl_pkt_types_supported s)
  (btm_sco_pkt_types_supported s) (esco_supported s) (btm_def_link_policy s) (controller s)
  (sec_states s) (effects s).
Definition set_ble_conn_idle (x : bool) (s : btm) : btm := mk_btm (bd_name s) (inq_vars s) x
  (read_local_name_timer s) (p_rln_cmpl_cb s) (p_rssi_cmpl_cb s) (p_failed_contact_counter_cmpl_cb
  s) (p_automatic_flush_timeout_cmpl_cb s) (p_stored_link_key_cmpl_cb s) (p_dev_status_cb s)
  (dev_class s) (p_vend_spec_cb s) (p_bqr_report_receiver s) (btm_acl_pkt_types_supported s)
  (btm_sco_pkt_types_supported s) (esco_supported s) (btm_def_link_policy s) (controller s)
  (sec_states s) (effects s).
Definition set_read_local_name_timer (x : bool) (s : btm) : btm := mk_btm (bd_name s) (inq_vars
  s) (ble_conn_idle s) x (p_rln_cmpl_cb s) (p_rssi_cmpl_cb s) (p_failed_contact_counter_cmpl_cb s)
  (p_automatic_flush_timeout_cmpl_cb s) (p_stored_link_key_cmpl_cb s) (p_dev_status_cb s)
  (dev_class s) (p_vend_spec_cb s) (p_bqr_report_receiver s) (btm_acl_pkt_types_supported s)
  (btm_sco_pkt_types_supported s) (esco_supported s) (btm_def_link_policy s) (controller s)
  (sec_states s) (effects s).
Definition set_p_rln_cmpl_cb (x : option nat) (s : btm) : btm := mk_btm (bd_name s) (inq_vars s)
  (ble_conn_idle s) (read_local_name_timer s) x (p_rssi_cmpl_cb s)
  (p_failed_contact_counter_cmpl_cb s) (p_automatic_flush_timeout_cmpl_cb s)
  (p_stored_link_key_cmpl_cb s) (p_dev_status_cb s) (dev_class s) (p_vend_spec_cb s)
  (p_bqr_report_receiver s) (btm_acl_pkt_types_supported s) (btm_sco_pkt_types_supported s)
  (esco_supported s) (btm_def_link_policy s) (controller s) (sec_states s) (effects s).
Definition set_p_rssi_cmpl_cb (x : option nat) (s : btm) : btm := mk_btm (bd_name s) (inq_vars
  s) (ble_conn_idle s) (read_local_name_timer s) (p_rln_cmpl_cb s) x
  (p_failed_contact_counter_cmpl_cb s) (p_automatic_flush_timeout_cmpl_cb s)
  (p_stored_link_key_cmpl_cb s) (p_dev_status_cb s) (dev_class s) (p_vend_spec_cb s)
  (p_bqr_report_receiver s) (btm_acl_pkt_types_supported s) (btm_sco_pkt_types_supported s)
  (esco_supported s) (btm_def_link_policy s) (controller s) (sec_states s) (effects s).
Definition set_p_failed_contact_counter_cmpl_cb (x : option nat) (s : btm) : btm := mk_btm
  (bd_name s) (inq_vars s) (ble_conn_idle s) (read_local_name_timer s) (p_rln_cmpl_cb s)
  (p_rssi_cmpl_cb s) x (p_automatic_flush_timeout_cmpl_cb s) (p_stored_link_key_cmpl_cb s)
  (p_dev_status_cb s) (dev_class s) (p_vend_spec_cb s) (p_bqr_report_receiver s)
  (btm_acl_pkt_types_supported s) (btm_sco_pkt_types_supported s) (esco_supported s)
  (btm_def_link_policy s) (controller s) (sec_states s) (effects s).
Definition set_p_automatic_flush_timeout_cmpl_cb (x : option nat) (s : btm) : btm := mk_btm
  (bd_name s) (inq_vars s) (ble_conn_idle s) (read_local_name_timer s) (p_rln_cmpl_cb s)
  (p_rssi_cmpl_cb s) (p_failed_contact_counter_cmpl_cb s) x (p_stored_link_key_cmpl_cb s)
  (p_dev_status_cb s) (dev_class s) (p_vend_spec_cb s) (p_bqr_report_receiver s)
  (btm_acl_pkt_types_supported s) (btm_sco_pkt_types_supported s) (esco_supported s)
  (btm_def_link_policy s) (controller s) (sec_states s) (effects s).
Definition set_p_stored_link_key_cmpl_cb (x : option nat) (s : btm) : btm := mk_btm (bd_name s)
  (inq_vars s) (ble_conn_idle s) (read_local_name_timer s) (p_rln_cmpl_cb s) (p_rssi_cmpl_cb s)
  (p_failed_contact_counter_cmpl_cb s) (p_automatic_flush_timeout_cmpl_cb s) x (p_dev_status_cb s)
  (dev_class s) (p_vend_spec_cb s) (p_bqr_report_receiver s) (btm_acl_pkt_types_supported s)
  (btm_sco_pkt_types_supported s) (esco_supported s) (btm_def_link_policy s) (controller s)
  (sec_states s) (effects s).
Definition set_p_dev_status_cb (x : option nat) (s : btm) : btm := mk_btm (bd_name s) (inq_vars
  s) (ble_conn_idle s) (read_local_name_timer s) (p_rln_cmpl_cb s) (p_rssi_cmpl_cb s)
  (p_failed_contact_counter_cmpl_cb s) (p_automatic_flush_timeout_cmpl_cb s)
  (p_stored_link_key_cmpl_cb s) x (dev_class s) (p_vend_spec_cb s) (p_bqr_report_receiver s)
  (btm_acl_pkt_types_supported s) (btm_sco_pkt_types_supported s) (esco_supported s)
  (btm_def_link_policy s) (controller s) (sec_states s) (effects s).
Definition set_dev_class (x : bytes) (s : btm) : btm := mk_btm (bd_name s) (inq_vars s)
  (ble_conn_idle s) (read_local_name_timer s) (p_rln_cmpl_cb s) (p_rssi_cmpl_cb s)
  (p_failed_contact_counter_cmpl_cb s) (p_automatic_flush_timeout_cmpl_cb s)
  (p_stored_link_key_cmpl_cb s) (p_dev_status_cb s) x (p_vend_spec_cb s) (p_bqr_report_receiver s)
  (btm_acl_pkt_types_supported s) (btm_sco_pkt_types_supported s) (esco_supported s)
  (btm_def_link_policy s) (controller s) (sec_states s) (effects s).
Definition set_p_vend_spec_cb (x : list (option vs_cback)) (s : btm) : btm := mk_btm (bd_name s)
  (inq_vars s) (ble_conn_idle s) (read_local_name_timer s) (p_rln_cmpl_cb s) (p_rssi_cmpl_cb s)
  (p_failed_contact_counter_cmpl_cb s) (p_automatic_flush_timeout_cmpl_cb s)
  (p_stored_link_key_cmpl_cb s) (p_dev_status_cb s) (dev_class s) x (p_bqr_report_receiver s)
  (btm_acl_pkt_types_supported s) (btm_sco_pkt_types_supported s) (esco_supported s)
  (btm_def_link_policy s) (controller s) (sec_states s) (effects s).
Definition set_p_bqr_report_receiver (x : option nat) (s : btm) : btm := mk_btm (bd_name s)
  (inq_vars s) (ble_conn_idle s) (read_local_name_timer s) (p_rln_cmpl_cb s) (p_rssi_cmpl_cb s)
  (p_failed_contact_counter_cmpl_cb s) (p_automatic_flush_timeout_cmpl_cb s)
  (p_stored_link_key_cmpl_cb s) (p_dev_status_cb s) (dev_class s) (p_vend_spec_cb s) x
  (btm_acl_pkt_types_supported s) (btm_sco_pkt_types_supported s) (esco_supported s)
  (btm_def_link_policy s) (controller s) (sec_states s) (effects s).
Definition set_btm_acl_pkt_types_supported (x : Z) (s : btm) : btm := mk_btm (bd_name s)
  (inq_vars s) (ble_conn_idle s) (read_local_name_timer s) (p_rln_cmpl_cb s) (p_rssi_cmpl_cb s)
  (p_failed_contact_counter_cmpl_cb s) (p_automatic_flush_timeout_cmpl_cb s)
  (p_stored_link_key_cmpl_cb s) (p_dev_status_cb s) (dev_class s) (p_vend_spec_cb s)
  (p_bqr_report_receiver s) x (btm_sco_pkt_types_supported s) (esco_supported s)
  (btm_def_link_policy s) (controller s) (sec_states s) (effects s).
Definition set_btm_sco_pkt_types_supported (x : Z) (s : btm) : btm := mk_btm (bd_name s)
  (inq_vars s) (ble_conn_idle s) (read_local_name_timer s) (p_rln_cmpl_cb s) (p_rssi_cmpl_cb s)
  (p_failed_contact_counter_cmpl_cb s) (p_automatic_flush_timeout_cmpl_cb s)
  (p_stored_link_key_cmpl_cb s) (p_dev_status_cb s) (dev_class s) (p_vend_spec_cb s)
  (p_bqr_report_receiver s) (btm_acl_pkt_types_supported s) x (esco_supported s)
  (btm_def_link_policy s) (controller s) (sec_states s) (effects s).
Definition set_esco_supported (x : bool) (s : btm) : btm := mk_btm (bd_name s) (inq_vars s)
  (ble_conn_idle s) (read_local_name_timer s) (p_rln_cmpl_cb s) (p_rssi_cmpl_cb s)
  (p_failed_contact_counter_cmpl_cb s) (p_automatic_flush_timeout_cmpl_cb s)
  (p_stored_link_key_cmpl_cb s) (p_dev_status_cb s) (dev_class s) (p_vend_spec_cb s)
  (p_bqr_report_receiver s) (btm_acl_pkt_types_supported s) (btm_sco_pkt_types_supported s) x
  (btm_def_link_policy s) (controller s) (sec_states s) (effects s).
Definition set_btm_def_link_policy (x : Z) (s : btm) : btm := mk_btm (bd_name s) (inq_vars s)
  (ble_conn_idle s) (read_local_name_timer s) (p_rln_cmpl_cb s) (p_rssi_cmpl_cb s)
  (p_failed_contact_counter_cmpl_cb s) (p_automatic_flush_timeout_cmpl_cb s)
  (p_stored_link_key_cmpl_cb s) (p_dev_status_cb s) (dev_class s) (p_vend_spec_cb s)
  (p_bqr_report_receiver s) (btm_acl_pkt_types_supported s) (btm_sco_pkt_types_supported s)
  (esco_supported s) x (controller s) (sec_states s) (effects s).
Definition set_controller (x : ctl) (s : btm) : btm := mk_btm (bd_name s) (inq_vars s)
  (ble_conn_idle s) (read_local_name_timer s) (p_rln_cmpl_cb s) (p_rssi_cmpl_cb s)
  (p_failed_contact_counter_cmpl_cb s) (p_automatic_flush_timeout_cmpl_cb s)
  (p_stored_link_key_cmpl_cb s) (p_dev_status_cb s) (dev_class s) (p_vend_spec_cb s)
  (p_bqr_report_receiver s) (btm_acl_pkt_types_supported s) (btm_sco_pkt_types_supported s)
  (esco_supported s) (btm_def_link_policy s) x (sec_states s) (effects s).
Definition set_sec_states (x : list Z) (s : btm) : btm := mk_btm (bd_name s) (inq_vars s)
  (ble_conn_idle s) (read_local_name_timer s) (p_rln_cmpl_cb s) (p_rssi_cmpl_cb s)
  (p_failed_contact_counter_cmpl_cb s) (p_automatic_flush_timeout_cmpl_cb s)
  (p_stored_link_key_cmpl_cb s) (p_dev_status_cb s) (dev_class s) (p_vend_spec_cb s)
  (p_bqr_report_receiver s) (btm_acl_pkt_types_supported s) (btm_sco_pkt_types_supported s)
  (esco_supported s) (btm_def_link_policy s) (controller s) x (effects s).
Definition set_effects (x : list beffect) (s : btm) : btm := mk_btm (bd_name s) (inq_vars s)
  (ble_conn_idle s) (read_local_name_timer s) (p_rln_cmpl_cb s) (p_rssi_cmpl_cb s)
  (p_failed_contact_counter_cmpl_cb s) (p_automatic_flush_timeout_cmpl_cb s)
  (p_stored_link_key_cmpl_cb s) (p_dev_status_cb s) (dev_class s) (p_vend_spec_cb s)
  (p_bqr_report_receiver s) (btm_acl_pkt_types_supported s) (btm_sco_pkt_types_supported s)
  (esco_supported s) (btm_def_link_policy s) (controller s) (sec_states s) x.


Section btm.
Context `{!BtMacros, !HciDefs, !FeatureBits, !BtConfig, !BtmFeatureBits, !BtmMasks, !BtmConfig, !BtmModules}.

Definition tell (e : beffect) : M btm unit := modify (λ s, set_effects (effects s ++ [e]) s).

(** A question to the controller. *)
Definition ask {A} (m : M ctl A) : M btm A := λ s,
  match m (controller s) with
  | Ret a c => Ret a (set_controller c s)
  | Exit code c => Exit code (set_controller c s)
  | Undefined => Undefined
  | Stuck => Stuck
  end.

(** ** Reset *)

(** The timers are created; the packet types are those every device has. *)
Definition btm_dev_init : M btm unit :=
  modify (set_bd_name []) ;;
  modify (set_btm_acl_pkt_types_supported (u16
    (BTM_ACL_PKT_TYPES_MASK_DH1 + BTM_ACL_PKT_TYPES_MASK_DM1 + BTM_ACL_PKT_TYPES_MASK_DH3 +
     BTM_ACL_PKT_TYPES_MASK_DM3 + BTM_ACL_PKT_TYPES_MASK_DH5 + BTM_ACL_PKT_TYPES_MASK_DM5))) ;;
  modify (set_btm_sco_pkt_types_supported (u16
    (ESCO_PKT_TYPES_MASK_HV1 + ESCO_PKT_TYPES_MASK_HV2 + ESCO_PKT_TYPES_MASK_HV3 +
     ESCO_PKT_TYPES_MASK_EV3 + ESCO_PKT_TYPES_MASK_EV4 + ESCO_PKT_TYPES_MASK_EV5))).

(** Take a callback out of its slot and call it. *)
Definition flush (slot : btm → option nat) (clear : btm → btm) (call : nat → beffect) : M btm unit :=
  s ← get;
  match slot s with
  | Some cb => modify clear ;; tell (call cb)
  | None => mret tt
  end.

Definition btm_db_reset : M btm unit :=
  tell InqDbReset ;;
  flush p_rln_cmpl_cb (set_p_rln_cmpl_cb None) (λ cb, CallName cb None) ;;
  flush p_rssi_cmpl_cb (set_p_rssi_cmpl_cb None) (λ cb, CallRssi cb BTM_DEV_RESET) ;;
  flush p_failed_contact_counter_cmpl_cb (set_p_failed_contact_counter_cmpl_cb None)
    (λ cb, CallFailedContact cb BTM_DEV_RESET) ;;
  flush p_automatic_flush_timeout_cmpl_cb (set_p_automatic_flush_timeout_cmpl_cb None)
    (λ cb, CallFlushTimeout cb BTM_DEV_RESET).

Definition set_sec_state_idle (_ : Z) : Z := BTM_SEC_STATE_IDLE.

Definition btm_report_device_status (status : Z) : M btm unit :=
  s ← get;
  match p_dev_status_cb s with Some cb => tell (CallStatus cb status) | None => mret tt end.

(** ** Feature pages *)

(** [m |= x], [m &= ~x] on a 16-bit field. *)
Definition or_types (x m : Z) : Z := u16 (Z.lor m x).
Definition when (c : bool) (f : Z → Z) (m : Z) : Z := if c then f m else m.

Definition acl_pkt_types (p : bytes) : Z :=
  let m := u16 (BTM_ACL_PKT_TYPES_MASK_DH1 + BTM_ACL_PKT_TYPES_MASK_DM1) in
  let m := when (HCI_3_SLOT_PACKETS_SUPPORTED p)
    (or_types (BTM_ACL_PKT_TYPES_MASK_DH3 + BTM_ACL_PKT_TYPES_MASK_DM3)) m in
  let m := when (HCI_5_SLOT_PACKETS_SUPPORTED p)
    (or_types (BTM_ACL_PKT_TYPES_MASK_DH5 + BTM_ACL_PKT_TYPES_MASK_DM5)) m in
  let m := when (negb (HCI_EDR_ACL_2MPS_SUPPORTED p))
    (or_types (BTM_ACL_PKT_TYPES_MASK_NO_2_DH1 + BTM_ACL_PKT_TYPES_MASK_NO_2_DH3 +
               BTM_ACL_PKT_TYPES_MASK_NO_2_DH5)) m in
  let m := when (negb (HCI_EDR_ACL_3MPS_SUPPORTED p))
    (or_types (BTM_ACL_PKT_TYPES_MASK_NO_3_DH1 + BTM_ACL_PKT_TYPES_MASK_NO_3_DH3 +
               BTM_ACL_PKT_TYPES_MASK_NO_3_DH5)) m in
  when (HCI_EDR_ACL_2MPS_SUPPORTED p || HCI_EDR_ACL_3MPS_SUPPORTED p) (λ m,
    let m := when (negb (HCI_3_SLOT_EDR_ACL_SUPPORTED p))
      (or_types (BTM_ACL_PKT_TYPES_MASK_NO_2_DH3 + BTM_ACL_PKT_TYPES_MASK_NO_3_DH3)) m in
    when (negb (HCI_5_SLOT_EDR_ACL_SUPPORTED p))
      (or_types (BTM_ACL_PKT_TYPES_MASK_NO_2_DH5 + BTM_ACL_PKT_TYPES_MASK_NO_3_DH5)) m) m.

(** The (e)SCO packet types, and whether eSCO is supported. *)
Definition sco_pkt_types (p : bytes) : Z * bool :=
  let m := when (HCI_SCO_LINK_SUPPORTED p) (λ _,
    let m := u16 ESCO_PKT_TYPES_MASK_HV1 in
    let m := when (HCI_HV2_PACKETS_SUPPORTED p) (or_types ESCO_PKT_TYPES_MASK_HV2) m in
    when (HCI_HV3_PACKETS_SUPPORTED p) (or_types ESCO_PKT_TYPES_MASK_HV3) m) 0 in
  let m := when (HCI_ESCO_EV3_SUPPORTED p) (or_types ESCO_PKT_TYPES_MASK_EV3) m in
  let m := when (HCI_ESCO_EV4_SUPPORTED p) (or_types ESCO_PKT_TYPES_MASK_EV4) m in
  let m := when (HCI_ESCO_EV5_SUPPORTED p) (or_types ESCO_PKT_TYPES_MASK_EV5) m in
  if has_flag m BTM_ESCO_LINK_ONLY_MASK then
    let m := if HCI_EDR_ESCO_2MPS_SUPPORTED p
      then when (negb (HCI_3_SLOT_EDR_ESCO_SUPPORTED p)) (or_types ESCO_PKT_TYPES_MASK_NO_2_EV5) m
      else or_types (ESCO_PKT_TYPES_MASK_NO_2_EV3 + ESCO_PKT_TYPES_MASK_NO_2_EV5) m in
    let m := if HCI_EDR_ESCO_3MPS_SUPPORTED p
      then when (negb (HCI_3_SLOT_EDR_ESCO_SUPPORTED p)) (or_types ESCO_PKT_TYPES_MASK_NO_3_EV5) m
      else or_types (ESCO_PKT_TYPES_MASK_NO_3_EV3 + ESCO_PKT_TYPES_MASK_NO_3_EV5) m in
    (m, true)
  else (m, false).

Definition set_or_clear (c : bool) (bit m : Z) : Z := u16 (if c then Z.lor m bit else Z.land m (Z.lnot bit)).
Definition link_policy (p : bytes) (m : Z) : Z :=
  let m := set_or_clear (HCI_SWITCH_SUPPORTED p) HCI_ENABLE_MASTER_SLAVE_SWITCH m in
  let m := set_or_clear (HCI_HOLD_MODE_SUPPORTED p) HCI_ENABLE_HOLD_MODE m in
  let m := set_or_clear (HCI_SNIFF_MODE_SUPPORTED p) HCI_ENABLE_SNIFF_MODE m in
  set_or_clear (HCI_PARK_MODE_SUPPORTED p) HCI_ENABLE_PARK_MODE m.

Definition btm_decode_ext_features_page (page_number : Z) (p : bytes) : M btm unit :=
  if page_number =? 0 then
    modify (set_btm_acl_pkt_types_supported (acl_pkt_types p)) ;;
    modify (set_btm_sco_pkt_types_supported (sco_pkt_types p).1) ;;
    modify (set_esco_supported (sco_pkt_types p).2) ;;
    modify (λ s, set_btm_def_link_policy (link_policy p (btm_def_link_policy s)) s) ;;
    tell SecDevReset ;;
    (if HCI_LMP_INQ_RSSI_SUPPORTED p then
       if HCI_EXT_INQ_RSP_SUPPORTED p then tell (SetInquiryMode BTM_INQ_RESULT_EXTENDED)
       else tell (SetInquiryMode BTM_INQ_RESULT_WITH_RSSI)
     else mret tt) ;;
    (if L2CAP_NON_FLUSHABLE_PB_INCLUDED then tell (SetNonFlushablePbf (HCI_NON_FLUSHABLE_PB_SUPPORTED p))
     else mret tt) ;;
    tell (SetPageScanType BTM_DEFAULT_SCAN_TYPE) ;;
    tell (SetInquiryScanType BTM_DEFAULT_SCAN_TYPE)
  else mret tt.

(** The pages [i], [i + 1], ... of the controller, [n] of them. *)
Fixpoint decode_pages (i : Z) (n : nat) : M btm unit :=
  match n with
  | O => mret tt
  | S n' =>
      p ← ask (get_features_classic i);
      btm_decode_ext_features_page i p ;;
      decode_pages (i + 1) n'
  end.

(** The result of the start-up of the controller must be success. *)
Definition reset_complete (success : bool) : M btm unit :=
  check success ;;
  tell L2cuDeviceReset ;;
  modify (λ s, set_sec_states (set_sec_state_idle <$> sec_states s) s) ;;
  modify (set_inq_vars (mk_inq 1 HCI_DEF_INQUIRYSCAN_WINDOW HCI_DEF_INQUIRYSCAN_INTERVAL HCI_DEF_SCAN_TYPE
    HCI_DEF_PAGESCAN_WINDOW HCI_DEF_PAGESCAN_INTERVAL HCI_DEF_SCAN_TYPE)) ;;
  modify (set_ble_conn_idle true) ;;
  tell ConnectionManagerReset ;;
  tell PmReset ;;
  n ← ask get_acl_buffer_count_classic; tell (L2cNumBufs n) ;;
  (if BLE_PRIVACY_SPT then
     ble ← ask supports_ble;
     if (ble : bool) then
       privacy ← ask supports_ble_privacy;
       if (privacy : bool) then
         n ← ask get_ble_resolving_list_max_size;
         if 0 <? n then
           n ← ask get_ble_resolving_list_max_size; tell (BleResolvingListInit n) ;;
           tell (BleSetRandPrivAddrTimeout (BTM_BLE_PRIVATE_ADDR_INT_MS / 1000))
         else mret tt
       else mret tt
     else mret tt
   else mret tt) ;;
  ble ← ask supports_ble;
  (if (ble : bool) then
     n ← ask get_ble_white_list_size; tell (BleWhiteListInit n) ;;
     n ← ask get_acl_buffer_count_ble; tell (L2cBleNumBufs n)
   else mret tt) ;;
  tell SetPinType ;;
  last ← ask get_last_features_classic_index;
  decode_pages 0 (Z.to_nat (last + 1)) ;;
  btm_report_device_status BTM_DEV_STATUS_UP.

Definition BTM_DeviceReset : M btm unit :=
  tell AclDeviceDown ;; btm_db_reset ;; tell StartController.

Definition BTM_IsDeviceUp : M btm bool := ask get_is_ready.

(** ** The local name *)

Definition btm_read_local_name_timeout : M btm unit :=
  s ← get;
  modify (set_p_rln_cmpl_cb None) ;;
  match p_rln_cmpl_cb s with Some cb => tell (CallName cb None) | None => mret tt end.

(** A null pointer is [None]; a name is its bytes up to the terminator.  Copying
    the cached name onto itself, which the code avoids, would change nothing. *)
Definition BTM_SetLocalDeviceName (p_name : option bytes) : M btm Z :=
  match p_name with
  | None => mret BTM_ILLEGAL_VALUE
  | Some name =>
      if bool_decide (name = []) || bool_decide (BD_NAME_LEN < length name)%nat then mret BTM_ILLEGAL_VALUE else
      ready ← ask get_is_ready;
      if negb ready then mret BTM_DEV_RESET else
      modify (set_bd_name (take (BTM_MAX_LOC_BD_NAME_LEN - 1) name)) ;;
      s ← get; tell (ChangeName (bd_name s)) ;;
      mret BTM_CMD_STARTED
  end.

Definition BTM_ReadLocalDeviceName : M btm (Z * bytes) := s ← get; mret (BTM_SUCCESS, bd_name s).

Definition BTM_ReadLocalDeviceNameFromController (cb : option nat) : M btm Z :=
  s ← get;
  match p_rln_cmpl_cb s with
  | Some _ => mret BTM_NO_RESOURCES
  | None =>
      modify (set_p_rln_cmpl_cb cb) ;;
      tell ReadName ;;
      modify (set_read_local_name_timer true) ;;
      mret BTM_CMD_STARTED
  end.

(** [p]: the parameters of the event. *)
Definition btm_read_local_name_complete (p : bytes) : M btm unit :=
  s ← get;
  modify (set_read_local_name_timer false) ;;
  modify (set_p_rln_cmpl_cb None) ;;
  match p_rln_cmpl_cb s with
  | Some cb =>
      require (bool_decide (1 ≤ length p)%nat) ;;
      if rd8 p =? HCI_SUCCESS then tell (CallName cb (Some (drop 1 p))) else tell (CallName cb None)
  | None => mret tt
  end.

(** ** The device class *)

Definition BTM_SetDeviceClass (c : bytes) : M btm Z :=
  s ← get;
  if bool_decide (dev_class s = c) then mret BTM_SUCCESS else
  modify (set_dev_class c) ;;
  ready ← ask get_is_ready;
  if negb ready then mret BTM_DEV_RESET else
  tell (WriteDevClass c) ;;
  mret BTM_SUCCESS.

Definition BTM_ReadDeviceClass : M btm bytes := s ← get; mret (dev_class s).
Definition BTM_ReadLocalFeatures : M btm bytes := ask (get_features_classic 0).

Definition BTM_RegisterForDeviceStatusNotif (cb : option nat) : M btm (option nat) :=
  s ← get; modify (set_p_dev_status_cb cb) ;; mret (p_dev_status_cb s).

(** ** Vendor specific commands and events *)

Definition BTM_VendorSpecificCommand (opcode : Z) (param : bytes) (cb : nat) : M btm unit :=
  tell (VendorCommand opcode param cb).

Definition btm_vsc_complete (p : bytes) (opcode evt_len : Z) (cb : option nat) : M btm unit :=
  match cb with Some cb => tell (CallVsc cb opcode evt_len p) | None => mret tt end.

(** The search over the slots from [i] on: where the callback is, or the last free slot. *)
Fixpoint find_slot (cb : vs_cback) (l : list (option vs_cback)) (i free_idx : nat) : nat + nat :=
  match l with
  | [] => inr free_idx
  | None :: l' => find_slot cb l' (S i) i
  | Some c :: l' => if bool_decide (c = cb) then inl i else find_slot cb l' (S i) free_idx
  end.

Definition BTM_RegisterForVSEvents (cb : vs_cback) (is_register : bool) : M btm Z :=
  s ← get;
  match find_slot cb (p_vend_spec_cb s) 0 BTM_MAX_VSE_CALLBACKS with
  | inl i =>
      (if negb is_register then modify (λ s, set_p_vend_spec_cb (<[i := None]> (p_vend_spec_cb s)) s) else mret tt) ;;
      mret BTM_SUCCESS
  | inr free_idx =>
      if is_register then
        if bool_decide (free_idx < BTM_MAX_VSE_CALLBACKS)%nat then
          modify (λ s, set_p_vend_spec_cb (<[free_idx := Some cb]> (p_vend_spec_cb s)) s) ;; mret BTM_SUCCESS
        else mret BTM_NO_RESOURCES
      else mret BTM_SUCCESS
  end.

(** [BTM_BT_Quality_Report_VSE_CBack] *)
Definition quality_report_cback (length_ : Z) (p_stream : bytes) : M btm unit :=
  if length_ =? 0 then mret tt else
  require (bool_decide (1 ≤ length p_stream)%nat) ;;
  if rd8 p_stream =? VSE_SUBCODE_BQR_SUB_EVT then
    s ← get;
    match p_bqr_report_receiver s with
    | None => mret tt
    | Some cb => tell (CallBqr cb (u8 (length_ - 1)) (drop 1 p_stream))
    end
  else mret tt.

Definition call_vs (c : vs_cback) (evt_len : Z) (p : bytes) : M btm unit :=
  match c with
  | Client cb => tell (CallVs cb evt_len p)
  | BTM_BT_Quality_Report_VSE_CBack => quality_report_cback evt_len p
  end.

Fixpoint call_slots (l : list (option vs_cback)) (evt_len : Z) (p : bytes) : M btm unit :=
  match l with
  | [] => mret tt
  | c :: l' => (match c with Some c => call_vs c evt_len p | None => mret tt end) ;; call_slots l' evt_len p
  end.
Definition btm_vendor_specific_evt (p : bytes) (evt_len : Z) : M btm unit :=
  s ← get; call_slots (p_vend_spec_cb s) evt_len p.

Definition BTM_BT_Quality_Report_VSE_Register (is_register : bool) (receiver : option nat) : M btm Z :=
  retval ← BTM_RegisterForVSEvents BTM_BT_Quality_Report_VSE_CBack is_register;
  if negb (retval =? BTM_SUCCESS) then mret retval else
  modify (set_p_bqr_report_receiver (if is_register then receiver else None)) ;;
  mret retval.

(** ** Further commands *)

Definition BTM_WritePageTimeout (timeout : Z) : M btm unit := tell (WritePageTimeout timeout).
Definition BTM_WriteVoiceSettings (settings : Z) : M btm unit := tell (WriteVoiceSettings (Z.land settings 0x03ff)).

Definition BTM_EnableTestMode : M btm Z :=
  tell (SetEventFilter HCI_FILTER_CONNECTION_SETUP HCI_FILTER_COND_NEW_DEVICE HCI_DO_AUTO_ACCEPT_CONNECT) ;;
  tell (SetConnectability BTM_CONNECTABLE BTM_DEFAULT_CONN_WINDOW BTM_DEFAULT_CONN_INTERVAL) ;;
  if negb connectability then mret BTM_NO_RESOURCES else
  tell (SetDiscoverability BTM_GENERAL_DISCOVERABLE BTM_DEFAULT_DISC_WINDOW BTM_DEFAULT_DISC_INTERVAL) ;;
  if negb discoverability then mret BTM_NO_RESOURCES else
  tell (SetEventMask (replicate 8 0)) ;;
  tell EnableTestMode ;;
  mret BTM_SUCCESS.

(** ** Stored link keys *)

(** [None] for all devices. *)
Definition BTM_DeleteStoredLinkKey (bd_addr : option bytes) (cb : option nat) : M btm Z :=
  s ← get;
  match p_stored_link_key_cmpl_cb s with
  | Some _ => mret BTM_BUSY
  | None =>
      modify (set_p_stored_link_key_cmpl_cb cb) ;;
      tell (match bd_addr with Some a => DeleteStoredKey a false | None => DeleteStoredKey (replicate 6 0) true end) ;;
      mret BTM_SUCCESS
  end.

Definition btm_delete_stored_link_key_complete (p : bytes) : M btm unit :=
  s ← get;
  modify (set_p_stored_link_key_cmpl_cb None) ;;
  match p_stored_link_key_cmpl_cb s with
  | Some cb =>
      require (bool_decide (3 ≤ length p)%nat) ;;
      tell (CallDeleteKeys cb BTM_CB_EVT_DELETE_STORED_LINK_KEYS (rd8 p) (rd16 (drop 1 p)))
  | None => mret tt
  end.
End btm.
