(* ===== verification/BtmDevSpec.v ===== *)
(** * Bluetooth: what the device manager promises

    The packet types and the link policy follow from the feature page, bit by bit;
    every request for the local name or for the deletion of link keys is answered
    once; the vendor specific callbacks are a set. *)

From S2P Require Import Prelude CMonad BtTypes HciParser Controller BtmDev.

(** The values of the Bluetooth core specification. *)
Class BtmMasksOk `{!BtmMasks} : Prop := {
  acl_masks :
    (BTM_ACL_PKT_TYPES_MASK_DM1 = 0x0008 ∧ BTM_ACL_PKT_TYPES_MASK_DH1 = 0x0010 ∧
     BTM_ACL_PKT_TYPES_MASK_DM3 = 0x0400 ∧ BTM_ACL_PKT_TYPES_MASK_DH3 = 0x0800 ∧
     BTM_ACL_PKT_TYPES_MASK_DM5 = 0x4000 ∧ BTM_ACL_PKT_TYPES_MASK_DH5 = 0x8000) ∧
    BTM_ACL_PKT_TYPES_MASK_NO_2_DH1 = 0x0002 ∧ BTM_ACL_PKT_TYPES_MASK_NO_3_DH1 = 0x0004 ∧
    BTM_ACL_PKT_TYPES_MASK_NO_2_DH3 = 0x0100 ∧ BTM_ACL_PKT_TYPES_MASK_NO_3_DH3 = 0x0200 ∧
    BTM_ACL_PKT_TYPES_MASK_NO_2_DH5 = 0x1000 ∧ BTM_ACL_PKT_TYPES_MASK_NO_3_DH5 = 0x2000;
  sco_masks :
    (ESCO_PKT_TYPES_MASK_HV1 = 0x0001 ∧ ESCO_PKT_TYPES_MASK_HV2 = 0x0002 ∧ ESCO_PKT_TYPES_MASK_HV3 = 0x0004 ∧
     ESCO_PKT_TYPES_MASK_EV3 = 0x0008 ∧ ESCO_PKT_TYPES_MASK_EV4 = 0x0010 ∧ ESCO_PKT_TYPES_MASK_EV5 = 0x0020) ∧
    (ESCO_PKT_TYPES_MASK_NO_2_EV3 = 0x0040 ∧ ESCO_PKT_TYPES_MASK_NO_3_EV3 = 0x0080 ∧
     ESCO_PKT_TYPES_MASK_NO_2_EV5 = 0x0100 ∧ ESCO_PKT_TYPES_MASK_NO_3_EV5 = 0x0200) ∧
    BTM_ESCO_LINK_ONLY_MASK = 0x0038;
  policy_masks :
    HCI_ENABLE_MASTER_SLAVE_SWITCH = 2 ^ 0 ∧ HCI_ENABLE_HOLD_MODE = 2 ^ 1 ∧
    HCI_ENABLE_SNIFF_MODE = 2 ^ 2 ∧ HCI_ENABLE_PARK_MODE = 2 ^ 3
}.

(** ** Packet types *)

(** A statement on [n] flags is checked for all their values at once. *)
Fixpoint flags (n : nat) : Type := match n with O => bool | S n => bool → flags n end.
Fixpoint all_flags (n : nat) : flags n → bool :=
  match n with O => λ b, b | S n => λ f, all_flags n (f true) && all_flags n (f false) end.
Fixpoint for_flags (n : nat) : flags n → Prop :=
  match n with O => λ b, b = true | S n => λ f, ∀ b, for_flags n (f b) end.
Lemma all_flags_spec n f : all_flags n f = true → for_flags n f.
Proof. induction n as [|n IH]; [done|]. intros [? ?]%andb_true_iff [|]; by apply IH. Qed.

Ltac revert_flags := repeat match goal with b : bool |- _ => revert b end.

Inductive acl_packet : Type := DM1 | DH1 | DM3 | DH3 | DM5 | DH5 | DH1_2 | DH3_2 | DH5_2 | DH1_3 | DH3_3 | DH5_3.
Inductive sco_packet : Type := HV1 | HV2 | HV3 | EV3 | EV4 | EV5 | EV3_2 | EV5_2 | EV3_3 | EV5_3.

Section spec.
Context `{!BtMacros, !HciDefs, !FeatureBits, !BtConfig, !BtmFeatureBits, !BtmMasks, !BtmConfig, !BtmModules}.
Implicit Types s : btm.

(** A packet type may be used: its bit is set, for the enhanced data rate its
    "may not be used" bit is clear. *)
Definition acl_usable (m : Z) (k : acl_packet) : bool :=
  match k with
  | DM1 => has_flag m BTM_ACL_PKT_TYPES_MASK_DM1 | DH1 => has_flag m BTM_ACL_PKT_TYPES_MASK_DH1
  | DM3 => has_flag m BTM_ACL_PKT_TYPES_MASK_DM3 | DH3 => has_flag m BTM_ACL_PKT_TYPES_MASK_DH3
  | DM5 => has_flag m BTM_ACL_PKT_TYPES_MASK_DM5 | DH5 => has_flag m BTM_ACL_PKT_TYPES_MASK_DH5
  | DH1_2 => negb (has_flag m BTM_ACL_PKT_TYPES_MASK_NO_2_DH1)
  | DH3_2 => negb (has_flag m BTM_ACL_PKT_TYPES_MASK_NO_2_DH3)
  | DH5_2 => negb (has_flag m BTM_ACL_PKT_TYPES_MASK_NO_2_DH5)
  | DH1_3 => negb (has_flag m BTM_ACL_PKT_TYPES_MASK_NO_3_DH1)
  | DH3_3 => negb (has_flag m BTM_ACL_PKT_TYPES_MASK_NO_3_DH3)
  | DH5_3 => negb (has_flag m BTM_ACL_PKT_TYPES_MASK_NO_3_DH5)
  end.
Definition acl_supported (p : bytes) (k : acl_packet) : bool :=
  match k with
  | DM1 | DH1 => true
  | DM3 | DH3 => HCI_3_SLOT_PACKETS_SUPPORTED p
  | DM5 | DH5 => HCI_5_SLOT_PACKETS_SUPPORTED p
  | DH1_2 => HCI_EDR_ACL_2MPS_SUPPORTED p
  | DH3_2 => HCI_EDR_ACL_2MPS_SUPPORTED p && HCI_3_SLOT_EDR_ACL_SUPPORTED p
  | DH5_2 => HCI_EDR_ACL_2MPS_SUPPORTED p && HCI_5_SLOT_EDR_ACL_SUPPORTED p
  | DH1_3 => HCI_EDR_ACL_3MPS_SUPPORTED p
  | DH3_3 => HCI_EDR_ACL_3MPS_SUPPORTED p && HCI_3_SLOT_EDR_ACL_SUPPORTED p
  | DH5_3 => HCI_EDR_ACL_3MPS_SUPPORTED p && HCI_5_SLOT_EDR_ACL_SUPPORTED p
  end.

(** The enhanced data rate needs eSCO. *)
Definition sco_usable (m : Z) (esco : bool) (k : sco_packet) : bool :=
  match k with
  | HV1 => has_flag m ESCO_PKT_TYPES_MASK_HV1 | HV2 => has_flag m ESCO_PKT_TYPES_MASK_HV2
  | HV3 => has_flag m ESCO_PKT_TYPES_MASK_HV3 | EV3 => has_flag m ESCO_PKT_TYPES_MASK_EV3
  | EV4 => has_flag m ESCO_PKT_TYPES_MASK_EV4 | EV5 => has_flag m ESCO_PKT_TYPES_MASK_EV5
  | EV3_2 => esco && negb (has_flag m ESCO_PKT_TYPES_MASK_NO_2_EV3)
  | EV5_2 => esco && negb (has_flag m ESCO_PKT_TYPES_MASK_NO_2_EV5)
  | EV3_3 => esco && negb (has_flag m ESCO_PKT_TYPES_MASK_NO_3_EV3)
  | EV5_3 => esco && negb (has_flag m ESCO_PKT_TYPES_MASK_NO_3_EV5)
  end.
Definition esco_of (p : bytes) : bool :=
  HCI_ESCO_EV3_SUPPORTED p || HCI_ESCO_EV4_SUPPORTED p || HCI_ESCO_EV5_SUPPORTED p.
Definition sco_supported (p : bytes) (k : sco_packet) : bool :=
  match k with
  | HV1 => HCI_SCO_LINK_SUPPORTED p
  | HV2 => HCI_SCO_LINK_SUPPORTED p && HCI_HV2_PACKETS_SUPPORTED p
  | HV3 => HCI_SCO_LINK_SUPPORTED p && HCI_HV3_PACKETS_SUPPORTED p
  | EV3 => HCI_ESCO_EV3_SUPPORTED p | EV4 => HCI_ESCO_EV4_SUPPORTED p | EV5 => HCI_ESCO_EV5_SUPPORTED p
  | EV3_2 => esco_of p && HCI_EDR_ESCO_2MPS_SUPPORTED p
  | EV5_2 => esco_of p && HCI_EDR_ESCO_2MPS_SUPPORTED p && HCI_3_SLOT_EDR_ESCO_SUPPORTED p
  | EV3_3 => esco_of p && HCI_EDR_ESCO_3MPS_SUPPORTED p
  | EV5_3 => esco_of p && HCI_EDR_ESCO_3MPS_SUPPORTED p && HCI_3_SLOT_EDR_ESCO_SUPPORTED p
  end.

(** The link policy: four bits follow the features, the others are kept. *)
Definition policy_bit (p : bytes) (m : Z) (i : Z) : bool :=
  if i =? 0 then HCI_SWITCH_SUPPORTED p else if i =? 1 then HCI_HOLD_MODE_SUPPORTED p
  else if i =? 2 then HCI_SNIFF_MODE_SUPPORTED p else if i =? 3 then HCI_PARK_MODE_SUPPORTED p
  else Z.testbit m i.

Context `{!BtmMasksOk}.

Lemma acl_pkt_types_exact p k : acl_usable (acl_pkt_types p) k = acl_supported p k.
Proof.
  destruct acl_masks as ((E1 & E2 & E3 & E4 & E5 & E6) & E7 & E8 & E9 & E10 & E11 & E12).
  unfold acl_usable, acl_supported, acl_pkt_types, when, or_types, has_flag.
  rewrite E1, E2, E3, E4, E5, E6, E7, E8, E9, E10, E11, E12.
  generalize (HCI_3_SLOT_PACKETS_SUPPORTED p) (HCI_5_SLOT_PACKETS_SUPPORTED p) (HCI_EDR_ACL_2MPS_SUPPORTED p)
    (HCI_EDR_ACL_3MPS_SUPPORTED p) (HCI_3_SLOT_EDR_ACL_SUPPORTED p) (HCI_5_SLOT_EDR_ACL_SUPPORTED p).
  intros; apply eqb_prop.
  revert_flags. destruct k; refine (all_flags_spec 6 _ _); vm_compute; reflexivity.
Qed.

Lemma sco_pkt_types_exact p k :
  (sco_pkt_types p).2 = esco_of p ∧ sco_usable (sco_pkt_types p).1 (sco_pkt_types p).2 k = sco_supported p k.
Proof.
  destruct sco_masks as ((E1 & E2 & E3 & E4 & E5 & E6) & (E7 & E8 & E9 & E10) & E11).
  unfold sco_usable, sco_supported, esco_of, sco_pkt_types, when, or_types, has_flag.
  rewrite E1, E2, E3, E4, E5, E6, E7, E8, E9, E10, E11.
  generalize (HCI_SCO_LINK_SUPPORTED p) (HCI_HV2_PACKETS_SUPPORTED p) (HCI_HV3_PACKETS_SUPPORTED p)
    (HCI_ESCO_EV3_SUPPORTED p) (HCI_ESCO_EV4_SUPPORTED p) (HCI_ESCO_EV5_SUPPORTED p)
    (HCI_EDR_ESCO_2MPS_SUPPORTED p) (HCI_EDR_ESCO_3MPS_SUPPORTED p) (HCI_3_SLOT_EDR_ESCO_SUPPORTED p).
  intros; split; apply eqb_prop; revert_flags.
  - refine (all_flags_spec 9 _ _); vm_compute; reflexivity.
  - destruct k; refine (all_flags_spec 9 _ _); vm_compute; reflexivity.
Qed.

Lemma testbit_set_or_clear c k m i : 0 <= k → 0 <= i < 16 →
  Z.testbit (set_or_clear c (2 ^ k) m) i = if i =? k then c else Z.testbit m i.
Proof.
  intros Hk Hi. unfold set_or_clear, wrap. rewrite Z.mod_pow2_bits_low by lia.
  destruct c; rewrite ?Z.lor_spec, ?Z.land_spec, ?Z.lnot_spec, Z.pow2_bits_eqb by lia; rewrite (Z.eqb_sym k i);
    destruct (i =? k); cbn; rewrite ?orb_true_r, ?orb_false_r, ?andb_false_r, ?andb_true_r; done.
Qed.

Lemma link_policy_exact p m i : 0 <= i < 16 → Z.testbit (link_policy p m) i = policy_bit p m i.
Proof.
  intros Hi. destruct policy_masks as (E1 & E2 & E3 & E4). unfold link_policy, policy_bit.
  rewrite E1, E2, E3, E4, !testbit_set_or_clear by lia.
  destruct (Z.eqb_spec i 0), (Z.eqb_spec i 1), (Z.eqb_spec i 2), (Z.eqb_spec i 3); try lia; done.
Qed.

(** Decoding feature page 0 allows exactly the packet types and the link modes
    the page announces (2 and 3 Mb/s packets of several slots only with the multi-slot
    feature, their eSCO variants only with eSCO) and keeps the other bits of the policy. *)
Theorem features_decoded_exact p s :
  wp (btm_decode_ext_features_page 0 p) (λ _ s',
    (∀ k, acl_usable (btm_acl_pkt_types_supported s') k = acl_supported p k) ∧
    (∀ k, sco_usable (btm_sco_pkt_types_supported s') (esco_supported s') k = sco_supported p k) ∧
    esco_supported s' = esco_of p ∧
    ∀ i, 0 <= i < 16 → Z.testbit (btm_def_link_policy s') i = policy_bit p (btm_def_link_policy s) i) s.
Proof.
  assert (wp (btm_decode_ext_features_page 0 p) (λ _ s', btm_acl_pkt_types_supported s' = acl_pkt_types p ∧
    btm_sco_pkt_types_supported s' = (sco_pkt_types p).1 ∧ esco_supported s' = (sco_pkt_types p).2 ∧
    btm_def_link_policy s' = link_policy p (btm_def_link_policy s)) s) as Hw.
  { unfold btm_decode_ext_features_page, tell. cbn [Z.eqb]. do 7 wp_step. wp_step. wp_step. wp_step.
    destruct (HCI_LMP_INQ_RSSI_SUPPORTED p), (HCI_EXT_INQ_RSP_SUPPORTED p), L2CAP_NON_FLUSHABLE_PB_INCLUDED;
      unfold wp, mbind, M_bind, modify; cbn; done. }
  eapply wp_mono; [exact Hw|]. intros _ s' (-> & -> & -> & ->). split_and!.
  - apply acl_pkt_types_exact.
  - intros k. apply sco_pkt_types_exact.
  - apply (sco_pkt_types_exact p HV1).
  - intros i Hi. by apply link_policy_exact.
Qed.

(** ** Requests

    The calls of the clients, the events and the alarm, in any order. *)

Inductive dev_input : Type :=
  | DInit | DReset | DResetComplete (success : bool)
  | DSetName (name : option bytes) | DReadName (cb : option nat) | DNameComplete (p : bytes) | DNameTimeout
  | DSetClass (c : bytes) | DStatusNotif (cb : option nat)
  | DVsCommand (opcode : Z) (param : bytes) (cb : nat) | DVscComplete (p : bytes) (opcode len : Z) (cb : option nat)
  | DRegisterVs (cb : vs_cback) (is_register : bool) | DVsEvent (p : bytes) (len : Z)
  | DRegisterBqr (is_register : bool) (receiver : option nat)
  | DPageTimeout (t : Z) | DVoice (v : Z) | DTestMode
  | DDeleteKey (a : option bytes) (cb : option nat) | DDeleteComplete (p : bytes)
  | DController (m : ctl → ctl).

Definition dev_step (i : dev_input) : M btm unit :=
  match i with
  | DInit => btm_dev_init
  | DReset => BTM_DeviceReset
  | DResetComplete ok => reset_complete ok
  | DSetName n => BTM_SetLocalDeviceName n ;; mret tt
  | DReadName cb => BTM_ReadLocalDeviceNameFromController cb ;; mret tt
  | DNameComplete p => btm_read_local_name_complete p
  | DNameTimeout => btm_read_local_name_timeout
  | DSetClass c => BTM_SetDeviceClass c ;; mret tt
  | DStatusNotif cb => BTM_RegisterForDeviceStatusNotif cb ;; mret tt
  | DVsCommand op ps cb => BTM_VendorSpecificCommand op ps cb
  | DVscComplete p op len cb => btm_vsc_complete p op len cb
  | DRegisterVs cb r => BTM_RegisterForVSEvents cb r ;; mret tt
  | DVsEvent p len => btm_vendor_specific_evt p len
  | DRegisterBqr r cb => BTM_BT_Quality_Report_VSE_Register r cb ;; mret tt
  | DPageTimeout t => BTM_WritePageTimeout t
  | DVoice v => BTM_WriteVoiceSettings v
  | DTestMode => BTM_EnableTestMode ;; mret tt
  | DDeleteKey a cb => BTM_DeleteStoredLinkKey a cb ;; mret tt
  | DDeleteComplete p => btm_delete_stored_link_key_complete p
  | DController f => modify (λ s, set_controller (f (controller s)) s)
  end.

(** The callbacks that were told a name, or that their keys were deleted. *)
Definition names_told (s : btm) : list nat :=
  omap (λ e, match e with CallName cb _ => Some cb | _ => None end) (effects s).
Definition keys_told (s : btm) : list nat :=
  omap (λ e, match e with CallDeleteKeys cb _ _ _ => Some cb | _ => None end) (effects s).

(** The callback of a request that is taken on. *)
Definition name_request (i : dev_input) (s : btm) : list nat :=
  match i, p_rln_cmpl_cb s with DReadName (Some cb), None => [cb] | _, _ => [] end.
Definition key_request (i : dev_input) (s : btm) : list nat :=
  match i, p_stored_link_key_cmpl_cb s with DDeleteKey _ (Some cb), None => [cb] | _, _ => [] end.

(** What was asked for and told, and what is still open. *)
Definition names_asked (s : btm) : list nat := names_told s ++ option_list (p_rln_cmpl_cb s).
Definition keys_asked (s : btm) : list nat := keys_told s ++ option_list (p_stored_link_key_cmpl_cb s).

(** [quiet m]: no such callback is called or stored. *)
Definition same_requests (s s' : btm) : Prop :=
  p_rln_cmpl_cb s' = p_rln_cmpl_cb s ∧ p_stored_link_key_cmpl_cb s' = p_stored_link_key_cmpl_cb s ∧
  names_told s' = names_told s ∧ keys_told s' = keys_told s.
Definition quiet {A} (m : M btm A) : Prop := ∀ s a s', m s = Ret a s' → same_requests s s'.

Lemma quiet_ret {A} (a : A) : quiet (mret a).
Proof. intros s b s' E. by injection E as <- <-. Qed.
Lemma quiet_get : quiet get.
Proof. intros s b s' E. by injection E as <- <-. Qed.
Lemma quiet_bind {A B} (m : M btm A) (k : A → M btm B) : quiet m → (∀ a, quiet (k a)) → quiet (m ≫= k).
Proof.
  intros Hm Hk s b s' E. apply bind_ret_inv in E as (a & s1 & E1 & E2).
  destruct (Hm _ _ _ E1) as (A1 & A2 & A3 & A4), (Hk a _ _ _ E2) as (B1 & B2 & B3 & B4).
  split_and!; congruence.
Qed.
Lemma quiet_modify f : (∀ s, same_requests s (f s)) → quiet (modify f).
Proof. intros Hf s b s' E. injection E as <- <-. apply Hf. Qed.
Lemma quiet_tell e : (∀ cb n, e ≠ CallName cb n) → (∀ cb x y z, e ≠ CallDeleteKeys cb x y z) → quiet (tell e).
Proof.
  intros N1 N2. apply quiet_modify. intros s. unfold same_requests, names_told, keys_told. cbn.
  rewrite !omap_app. destruct e; cbn; rewrite ?app_nil_r; try done;
    [by destruct (N1 cb name)|by destruct (N2 cb event status num_keys)].
Qed.
Lemma quiet_ask {A} (m : M ctl A) : quiet (ask m).
Proof. intros s a s' E. unfold ask in E. destruct (m (controller s)); try done. by injection E as <- <-. Qed.
Lemma quiet_check (b : bool) : quiet (check b).
Proof. unfold check. destruct b; [apply quiet_ret|done]. Qed.
Lemma quiet_require (b : bool) : quiet (require b).
Proof. unfold require. destruct b; [apply quiet_ret|done]. Qed.
Create HintDb quiet.
#[local] Hint Resolve quiet_ret quiet_get quiet_ask quiet_check quiet_require : quiet.

Ltac quiet_body :=
  repeat match goal with
  | |- ∀ _, quiet _ => intros ?
  | |- quiet (_ ≫= _) => apply quiet_bind
  | |- quiet (modify _) => apply quiet_modify; intros ?; by split_and!
  | |- quiet (tell _) => apply quiet_tell; by intros
  | |- quiet (match ?x with _ => _ end) => destruct x
  | |- quiet (let '(_, _) := ?x in _) => destruct x
  | |- quiet _ => solve [eauto with quiet]
  end.

Lemma quiet_call_slots l len p : quiet (call_slots l len p).
Proof.
  induction l as [|[c|] l IH]; cbn [call_slots]; eauto with quiet; quiet_body; try exact IH.
  destruct c; cbn [call_vs]; unfold quality_report_cback; quiet_body.
Qed.
Lemma quiet_register cb r : quiet (BTM_RegisterForVSEvents cb r).
Proof. unfold BTM_RegisterForVSEvents. quiet_body. Qed.
Lemma quiet_decode i p : quiet (btm_decode_ext_features_page i p).
Proof. unfold btm_decode_ext_features_page. quiet_body. Qed.
Lemma quiet_decode_pages i n : quiet (decode_pages i n).
Proof.
  revert i. induction n as [|n IH]; intros i; cbn [decode_pages]; quiet_body; first [apply IH|apply quiet_decode].
Qed.
Lemma quiet_status x : quiet (btm_report_device_status x).
Proof. unfold btm_report_device_status. quiet_body. Qed.
#[local] Hint Resolve quiet_call_slots quiet_register quiet_decode_pages quiet_status : quiet.
Lemma quiet_reset_complete ok : quiet (reset_complete ok).
Proof. unfold reset_complete. quiet_body. Qed.
#[local] Hint Resolve quiet_reset_complete : quiet.

(** A step that leaves the requests alone, or asks or answers as it should. *)
Definition tells (i : dev_input) (s s' : btm) : Prop :=
  names_asked s' = names_asked s ++ name_request i s ∧ keys_asked s' = keys_asked s ++ key_request i s.

Lemma quiet_tells i s s' : same_requests s s' → name_request i s = [] → key_request i s = [] → tells i s s'.
Proof.
  intros (E1 & E2 & E3 & E4) N1 N2. unfold tells, names_asked, keys_asked.
  by rewrite E1, E2, E3, E4, N1, N2, !app_nil_r.
Qed.

(** The states after [tell] and [flush]. *)
Definition told (e : beffect) (s : btm) : btm := set_effects (effects s ++ [e]) s.
Definition flushed (slot : btm → option nat) (clear : btm → btm) (call : nat → beffect) (s : btm) : btm :=
  match slot s with Some cb => told (call cb) (clear s) | None => s end.

Lemma flush_run slot clear call s : flush slot clear call s = Ret tt (flushed slot clear call s).
Proof. unfold flush, flushed, mbind, M_bind, get. by destruct (slot s). Qed.

Definition reset_state (s : btm) : btm :=
  told StartController
    (flushed p_automatic_flush_timeout_cmpl_cb (set_p_automatic_flush_timeout_cmpl_cb None)
       (λ cb, CallFlushTimeout cb BTM_DEV_RESET)
    (flushed p_failed_contact_counter_cmpl_cb (set_p_failed_contact_counter_cmpl_cb None)
       (λ cb, CallFailedContact cb BTM_DEV_RESET)
    (flushed p_rssi_cmpl_cb (set_p_rssi_cmpl_cb None) (λ cb, CallRssi cb BTM_DEV_RESET)
    (flushed p_rln_cmpl_cb (set_p_rln_cmpl_cb None) (λ cb, CallName cb None)
    (told InqDbReset (told AclDeviceDown s)))))).

Lemma device_reset_run s : BTM_DeviceReset s = Ret tt (reset_state s).
Proof.
  unfold BTM_DeviceReset, btm_db_reset, tell, mbind, M_bind, modify. by rewrite !flush_run.
Qed.

Lemma told_names e s : names_told (told e s) =
  names_told s ++ match e with CallName cb _ => [cb] | _ => [] end.
Proof. unfold names_told, told. cbn. rewrite omap_app. by destruct e. Qed.
Lemma told_keys e s : keys_told (told e s) =
  keys_told s ++ match e with CallDeleteKeys cb _ _ _ => [cb] | _ => [] end.
Proof. unfold keys_told, told. cbn. rewrite omap_app. by destruct e. Qed.

(** What a flush of another slot leaves alone. *)
Lemma flushed_keeps {A} (g : btm → A) slot clear call s :
  (∀ s, g (clear s) = g s) → (∀ cb s, g (told (call cb) s) = g s) → g (flushed slot clear call s) = g s.
Proof. intros G1 G2. unfold flushed. destruct (slot s); [|done]. by rewrite G2, G1. Qed.
Lemma flushed_clears slot clear call s :
  (∀ s, slot (clear s) = None) → (∀ cb s, slot (told (call cb) s) = slot s) → slot (flushed slot clear call s) = None.
Proof. intros G1 G2. unfold flushed. destruct (slot s) eqn:E; [|done]. by rewrite G2, G1. Qed.
Lemma flushed_names s :
  names_told (flushed p_rln_cmpl_cb (set_p_rln_cmpl_cb None) (λ cb, CallName cb None) s) =
  names_told s ++ option_list (p_rln_cmpl_cb s).
Proof. unfold flushed. destruct (p_rln_cmpl_cb s); [by rewrite told_names|by rewrite app_nil_r]. Qed.

Lemma reset_names s : names_told (reset_state s) = names_told s ++ option_list (p_rln_cmpl_cb s).
Proof.
  unfold reset_state. rewrite told_names, app_nil_r. do 3 (rewrite (flushed_keeps names_told); [|done|by intros; rewrite told_names, app_nil_r]).
  rewrite flushed_names, !told_names, !app_nil_r. done.
Qed.
Lemma reset_keys s : keys_told (reset_state s) = keys_told s.
Proof.
  unfold reset_state. rewrite told_keys, app_nil_r. do 4 (rewrite (flushed_keeps keys_told); [|done|by intros; rewrite told_keys, app_nil_r]).
  by rewrite !told_keys, !app_nil_r.
Qed.
Lemma reset_key_slot s : p_stored_link_key_cmpl_cb (reset_state s) = p_stored_link_key_cmpl_cb s.
Proof. unfold reset_state, told. cbn. by do 4 (rewrite (flushed_keeps p_stored_link_key_cmpl_cb); [|done|done]). Qed.
Lemma reset_name_slot s : p_rln_cmpl_cb (reset_state s) = None.
Proof.
  unfold reset_state, told at 1. cbn. do 3 (rewrite (flushed_keeps p_rln_cmpl_cb); [|done|done]).
  by apply flushed_clears.
Qed.

Ltac told_case x E := let H := fresh "E" in destruct x eqn:H; cbn in E; try rewrite H in E; cbn in E.
Ltac told E :=
  try discriminate E; injection E as <-; unfold tells, names_asked, keys_asked, names_told, keys_told, name_request, key_request;
  cbn; repeat match goal with H : _ = Some _ |- _ => rewrite H | H : _ = None |- _ => rewrite H end;
  rewrite ?omap_app; cbn; rewrite <- ?app_assoc, ?app_nil_r; cbn; try done.

Lemma dev_step_tells i s s' : dev_step i s = Ret tt s' → tells i s s'.
Proof.
  intros E.
  assert (quiet (dev_step i) → name_request i s = [] → key_request i s = [] → tells i s s') as Hq.
  { intros Hq N1 N2. apply quiet_tells; [by eapply Hq|done..]. }
  destruct i; cbn [dev_step] in *;
    try (apply Hq; [solve [unfold btm_dev_init, BTM_SetLocalDeviceName, BTM_SetDeviceClass,
        BTM_RegisterForDeviceStatusNotif, BTM_VendorSpecificCommand, btm_vsc_complete, btm_vendor_specific_evt,
        BTM_BT_Quality_Report_VSE_Register, BTM_WritePageTimeout, BTM_WriteVoiceSettings, BTM_EnableTestMode; quiet_body]
      |by destruct (p_rln_cmpl_cb s)|by destruct (p_stored_link_key_cmpl_cb s)]); clear Hq.
  - rewrite device_reset_run in E. injection E as <-. unfold tells, names_asked, keys_asked, name_request, key_request.
    rewrite reset_names, reset_keys, reset_key_slot, reset_name_slot. cbn. by rewrite !app_nil_r.
  - unfold BTM_ReadLocalDeviceNameFromController, tell, mbind, M_bind, get, modify in E. cbn in E.
    told_case (p_rln_cmpl_cb s) E; told E. by destruct cb.
  - unfold btm_read_local_name_complete, tell, require, mbind, M_bind, get, modify in E. cbn in E.
    told_case (p_rln_cmpl_cb s) E; [|told E]. case_bool_decide; [|done]. cbn in E. destruct (rd8 p =? HCI_SUCCESS); told E.
  - unfold btm_read_local_name_timeout, tell, mbind, M_bind, get, modify in E. cbn in E.
    told_case (p_rln_cmpl_cb s) E; told E.
  - unfold BTM_DeleteStoredLinkKey, tell, mbind, M_bind, get, modify in E. cbn in E.
    told_case (p_stored_link_key_cmpl_cb s) E; told E; destruct cb, a; cbn; by rewrite ?app_nil_r.
  - unfold btm_delete_stored_link_key_complete, tell, require, mbind, M_bind, get, modify in E. cbn in E.
    told_case (p_stored_link_key_cmpl_cb s) E; [|told E]. case_bool_decide; [|done]. cbn in E. told E.
Qed.

Fixpoint dev_run (l : list dev_input) : M btm unit :=
  match l with [] => mret tt | i :: l' => dev_step i ;; dev_run l' end.

(** The requests taken on during a run, in order. *)
Fixpoint requests_of (req : dev_input → btm → list nat) (l : list dev_input) (s : btm) : list nat :=
  match l with
  | [] => []
  | i :: l' => req i s ++ match dev_step i s with Ret _ s' => requests_of req l' s' | _ => [] end
  end.

(** C39: Whatever is called, arrives or expires in whatever order: the callbacks that
    were told the local name are those whose request was taken on, once each and in that
    order, up to the one request that is still open; and likewise for link keys. *)
Theorem requests_told_once l s s' : dev_run l s = Ret tt s' →
  names_told s' ++ option_list (p_rln_cmpl_cb s') =
    names_told s ++ option_list (p_rln_cmpl_cb s) ++ requests_of name_request l s ∧
  keys_told s' ++ option_list (p_stored_link_key_cmpl_cb s') =
    keys_told s ++ option_list (p_stored_link_key_cmpl_cb s) ++ requests_of key_request l s.
Proof.
  revert s. induction l as [|i l IH]; intros s E; cbn [dev_run requests_of] in *.
  { injection E as <-. by rewrite !app_nil_r. }
  apply bind_ret_inv in E as ([] & s1 & E1 & E2). rewrite E1. destruct (IH s1 E2) as [A1 A2].
  destruct (dev_step_tells _ _ _ E1) as [B1 B2]. unfold names_asked, keys_asked in *.
  rewrite A1, A2. rewrite (app_assoc (names_told s1)), B1, (app_assoc (keys_told s1)), B2. by rewrite <- !app_assoc.
Qed.

(** A reset tells every open request but one that it is over: the callback for
    deleted link keys stays, and until a late answer arrives no key can be deleted. *)
Theorem reset_keeps_key_request s cb a cb' : p_stored_link_key_cmpl_cb s = Some cb →
  wp (BTM_DeviceReset ;; BTM_DeleteStoredLinkKey a cb') (λ r s', r = BTM_BUSY ∧
    p_rln_cmpl_cb s' = None ∧ names_told s' = names_told s ++ option_list (p_rln_cmpl_cb s) ∧
    p_stored_link_key_cmpl_cb s' = Some cb ∧ keys_told s' = keys_told s) s.
Proof.
  intros Hcb. wp_step. eapply run_wp; [apply device_reset_run|].
  unfold BTM_DeleteStoredLinkKey. wp_step. wp_step. rewrite reset_key_slot, Hcb. wp_step.
  by rewrite reset_name_slot, reset_names, reset_key_slot, reset_keys.
Qed.

(** ** Vendor specific events *)

Definition registered (s : btm) : list vs_cback := omap id (p_vend_spec_cb s).
Definition registry_ok (s : btm) : Prop :=
  length (p_vend_spec_cb s) = BTM_MAX_VSE_CALLBACKS ∧ NoDup (registered s).

Lemma find_slot_spec cb l i free :
  match find_slot cb l i free with
  | inl j => ∃ k, j = (i + k)%nat ∧ l !! k = Some (Some cb)
  | inr f => Some cb ∉ l ∧ ((f = free ∧ None ∉ l) ∨ ∃ k, f = (i + k)%nat ∧ l !! k = Some None)
  end.
Proof.
  revert i free. induction l as [|[c|] l IH]; intros i free; cbn [find_slot].
  - split; [set_solver|left; set_solver].
  - case_bool_decide as E; [subst; exists 0%nat; by rewrite Nat.add_0_r|].
    specialize (IH (S i) free). destruct (find_slot cb l (S i) free) as [j|f].
    + destruct IH as (k & -> & Hk). exists (S k). split; [lia|done].
    + destruct IH as [Hn [[-> Hf]|(k & -> & Hk)]]; (split; [set_solver|]).
      * left. set_solver.
      * right. exists (S k). split; [lia|done].
  - specialize (IH (S i) i). destruct (find_slot cb l (S i) i) as [j|f].
    + destruct IH as (k & -> & Hk). exists (S k). split; [lia|done].
    + destruct IH as [Hn [[-> Hf]|(k & -> & Hk)]]; (split; [set_solver|]); right.
      * exists 0%nat. split; [lia|done].
      * exists (S k). split; [lia|done].
Qed.

Lemma omap_insert_slot (l : list (option vs_cback)) i x y : l !! i = Some x →
  omap id (<[i := y]> l) = omap id (take i l) ++ option_list y ++ omap id (drop (S i) l) ∧
  omap id l = omap id (take i l) ++ option_list x ++ omap id (drop (S i) l).
Proof.
  intros Hi. split.
  - rewrite insert_take_drop by (by eapply lookup_lt_Some). rewrite omap_app. by destruct y.
  - rewrite <- (take_drop_middle l i x) at 1 by done. rewrite omap_app. by destruct x.
Qed.

Lemma length_omap_slots (l : list (option vs_cback)) : (length (omap id l) ≤ length l)%nat.
Proof. induction l as [|[c|] l IH]; cbn in *; lia. Qed.

Lemma registered_in l c : c ∈ (omap id l : list vs_cback) ↔ Some c ∈ l.
Proof. rewrite list_elem_of_omap. split; [intros (x & Hx & E); unfold id in E; by subst|]. intros Hc. by exists (Some c). Qed.

Lemma omap_full (l : list (option vs_cback)) : None ∉ l → length (omap id l) = length l.
Proof.
  induction l as [|[c|] l IH]; intros Hn; [done|cbn; rewrite IH; [done|set_solver]|set_solver].
Qed.
Lemma omap_room (l : list (option vs_cback)) k : l !! k = Some None → (length (omap id l) < length l)%nat.
Proof.
  intros Hk. rewrite <- (take_drop_middle l k None) at 1 2 by done.
  rewrite omap_app, !length_app. cbn. pose proof (length_omap_slots (take k l)). pose proof (length_omap_slots (drop (S k) l)). lia.
Qed.

(** The registered callbacks are a set of bounded size: registering adds a
    callback, or fails and changes nothing when there is no room; deregistering takes it
    out; both may be repeated. *)
Theorem vs_registry_exact s cb r : registry_ok s →
  wp (BTM_RegisterForVSEvents cb r) (λ ret s', registry_ok s' ∧
    if r then
      if decide (cb ∈ registered s ∨ (length (registered s) < BTM_MAX_VSE_CALLBACKS)%nat)
      then ret = BTM_SUCCESS ∧ ∀ c, c ∈ registered s' ↔ c = cb ∨ c ∈ registered s
      else ret = BTM_NO_RESOURCES ∧ s' = s
    else ret = BTM_SUCCESS ∧ ∀ c, c ∈ registered s' ↔ c ≠ cb ∧ c ∈ registered s) s.
Proof.
  intros [Hl Hnd]. unfold BTM_RegisterForVSEvents. wp_step. wp_step. unfold registered in *.
  pose proof (find_slot_spec cb (p_vend_spec_cb s) 0 BTM_MAX_VSE_CALLBACKS) as Hs.
  destruct (find_slot cb (p_vend_spec_cb s) 0 BTM_MAX_VSE_CALLBACKS) as [j|f].
  - destruct Hs as (k & -> & Hk). cbn [Nat.add].
    assert (cb ∈ omap id (p_vend_spec_cb s)) as Hin.
    { apply registered_in. by eapply list_elem_of_lookup_2. }
    destruct r; cbn [negb].
    + wp_step. wp_step. wp_step. rewrite decide_True by tauto. split; [done|]. split; [done|]. naive_solver.
    + wp_step. wp_step. wp_step. unfold registry_ok, registered. cbn [p_vend_spec_cb set_p_vend_spec_cb].
      destruct (omap_insert_slot _ _ _ None Hk) as [E1 E2]. rewrite length_insert, E1, E2. rewrite E2 in Hnd. unfold option_list in *. cbn [option_rect app] in *.
      apply NoDup_app in Hnd as (N1 & N2 & N3). apply NoDup_cons in N3 as [N3 N4].
      split; [split; [done|]|].
      * apply NoDup_app. split_and!; try done. intros x Hx Hx'. apply (N2 x Hx). by right.
      * split; [done|]. intros c. rewrite !elem_of_app, elem_of_cons. split.
        -- intros [Hc|Hc]; (split; [|tauto]); intros ->; [by apply (N2 cb Hc); left|done].
        -- naive_solver.
  - destruct Hs as [Hn Hf]. assert (cb ∉ omap id (p_vend_spec_cb s)) as Hnin by (by rewrite registered_in).
    destruct r; [|wp_step; split; [done|]; split; [done|]; naive_solver].
    destruct Hf as [[-> Hfull]|(k & -> & Hk)]; cbn [Nat.add].
    + rewrite bool_decide_eq_false_2 by lia. wp_step. split; [done|].
      rewrite decide_False; [done|]. rewrite omap_full, Hl by done. intros [?|?]; [done|lia].
    + rewrite bool_decide_eq_true_2 by (rewrite <- Hl; by eapply lookup_lt_Some). wp_step. wp_step. wp_step.
      unfold registry_ok, registered. cbn [p_vend_spec_cb set_p_vend_spec_cb].
      destruct (omap_insert_slot _ _ _ (Some cb) Hk) as [E1 E2]. pose proof (omap_room _ _ Hk) as Hroom.
      rewrite Hl in Hroom. rewrite length_insert, E1. rewrite E2 in Hnd, Hnin, Hroom |- *. unfold option_list in *. cbn [option_rect app] in *.
      rewrite decide_True by (right; exact Hroom). apply NoDup_app in Hnd as (N1 & N2 & N3).
      rewrite elem_of_app in Hnin. split; [split; [done|]|].
      * apply NoDup_app. split_and!; try done; [|apply NoDup_cons; split; [tauto|done]].
        intros x Hx [->|Hx']%elem_of_cons; [tauto|by apply (N2 x)].
      * split; [done|]. intros c. rewrite !elem_of_app, elem_of_cons. tauto.
Qed.

Lemma call_bqr s p len : 0 ≤ len ≤ Z.of_nat (length p) →
  call_vs BTM_BT_Quality_Report_VSE_CBack len p s = Ret tt
    (if negb (len =? 0) && (rd8 p =? VSE_SUBCODE_BQR_SUB_EVT) then
       match p_bqr_report_receiver s with Some cb => told (CallBqr cb (u8 (len - 1)) (drop 1 p)) s | None => s end
     else s).
Proof.
  intros Hl. unfold call_vs, quality_report_cback. destruct (Z.eqb_spec len 0) as [->|Hn]; [done|].
  unfold mbind, M_bind, tell, get, modify, told.
  rewrite bool_decide_eq_true_2 by lia. cbn. destruct (_ =? _); [|done]. by destruct (p_bqr_report_receiver s).
Qed.

(** A vendor specific event reaches every registered callback, in the order of
    the slots; the quality report is passed on to its receiver. *)
Lemma vs_event_exact s p len : 0 ≤ len ≤ Z.of_nat (length p) →
  wp (btm_vendor_specific_evt p len) (λ _ s', s' = set_effects (effects s ++
    omap (λ c, match c with
      | Client cb => Some (CallVs cb len p)
      | BTM_BT_Quality_Report_VSE_CBack =>
          if negb (len =? 0) && (rd8 p =? VSE_SUBCODE_BQR_SUB_EVT)
          then (λ cb, CallBqr cb (u8 (len - 1)) (drop 1 p)) <$> p_bqr_report_receiver s else None
      end) (registered s)) s) s.
Proof.
  intros Hl. unfold btm_vendor_specific_evt, registered. wp_step. wp_step.
  generalize (p_vend_spec_cb s) as l. intros l.
  assert (∀ s', p_bqr_report_receiver s' = p_bqr_report_receiver s →
    wp (call_slots l len p) (λ _ s'', s'' = set_effects (effects s' ++
    omap (λ c, match c with
      | Client cb => Some (CallVs cb len p)
      | BTM_BT_Quality_Report_VSE_CBack =>
          if negb (len =? 0) && (rd8 p =? VSE_SUBCODE_BQR_SUB_EVT)
          then (λ cb, CallBqr cb (u8 (len - 1)) (drop 1 p)) <$> p_bqr_report_receiver s else None
      end) (omap id l)) s') s') as Hall; [|by apply Hall].
  induction l as [|[[cb|]|] l IH]; intros s' Hs'; cbn [call_slots].
  - wp_step. cbn. rewrite app_nil_r. by destruct s'.
  - wp_step. unfold call_vs, tell. wp_step. wp_use IH; [done|]. intros _ s'' ->. cbn. by rewrite <- app_assoc.
  - wp_step. eapply run_wp; [apply (call_bqr s' p len Hl)|]. rewrite Hs'.
    wp_use IH; [by destruct (_ && _), (p_bqr_report_receiver s)|]. intros _ s'' ->. cbn.
    destruct (_ && _); [|done]. destruct (p_bqr_report_receiver s); [|done]. cbn. by rewrite <- app_assoc.
  - wp_step. wp_step. by apply IH.
Qed.
End spec.
