(* ===== verification/BtuDefs.v ===== *)
(** * Bluetooth: event dispatch, data and definitions outside the repository

    What [stack/btu/btu_hcif.cc] is written in terms of: the constants of
    [hcidefs.h] and of the metrics, the other modules it tells about events, and
    the state of its process that its functions touch. *)

From S2P Require Import Prelude CMonad BtTypes HciParser Controller HciLayer BtmDev.

(** ** Calls

    A call of another module is an effect with the name of the function; a
    pointer into a packet is the memory from there on. *)

(** The two functions bound to Read Encryption Key Size. *)
Inductive key_size_cb : Type := AfterEncryptionChange | AfterKeyRefresh.

Record flow_spec : Type := mk_flow {
  qos_flags : Z; service_type : Z; token_rate : Z; peak_bandwidth : Z; latency : Z; delay_variation : Z }.
Record esco_data : Type := mk_esco {
  esco_addr : bytes; esco_link_type : Z; tx_interval : Z; retrans_window : Z; rx_pkt_len : Z;
  tx_pkt_len : Z; air_mode : Z }.

Inductive call : Type :=
  (* the device manager of [BtmDev], the client of a command, the metrics *)
  | Dev (e : beffect)
  | run_cb (cb : nat) (p : bytes) (len : Z)
  | LogLinkLayerConnectionEvent (bda : option bytes) (handle direction link_type cmd evt ble_evt status reason : Z)
  | LogClassicPairingEvent (bda : bytes) (handle cmd evt status reason value : Z)
  | android_errorWriteLog (tag : Z)
  (* commands *)
  | btsnd_hcic_disconnect (handle reason : Z)
  | btsnd_hcic_read_encryption_key_size (handle : Z) (cb : key_size_cb)
  (* inquiry and names *)
  | btm_process_inq_complete (status mode : Z)
  | btm_process_inq_results (p : bytes) (len mode : Z)
  | btm_process_cancel_complete (status mode : Z)
  | btm_process_remote_name (bda : option bytes) (name : option bytes) (len status : Z)
  | btm_sec_rmt_name_request_complete (bda : option bytes) (name : option bytes) (status : Z)
  (* links *)
  | btm_sec_connected (bda : bytes) (handle status enc_mode : Z)
  | l2c_link_hci_conn_comp (status handle : Z) (bda : bytes)
  | btm_sec_conn_req (bda dc : bytes)
  | btm_sco_conn_req (bda dc : bytes) (link_type : Z)
  | btm_sco_connected (status : Z) (bda : option bytes) (handle : Z) (data : option esco_data)
  | btm_esco_proc_conn_chg (status handle tx_interval retrans_window rx_pkt_len tx_pkt_len : Z)
  | l2c_link_hci_disc_comp (handle reason : Z)
  | btm_sco_removed (handle reason : Z)
  | btm_sec_disconnected (handle reason : Z)
  | btm_qos_setup_complete (status handle : Z) (flow : option flow_spec)
  | l2c_link_hci_qos_violation (handle : Z)
  | l2c_link_process_num_completed_pkts (p : bytes) (len : Z)
  | btm_blacklist_role_change_device (bda : bytes) (status : Z)
  | l2c_link_role_changed (bda : option bytes) (role status : Z)
  | btm_acl_role_changed (status : Z) (bda : bytes) (role : Z)
  | btm_sco_chk_pend_unpark (status handle : Z)
  | btm_pm_proc_mode_change (status handle mode interval : Z)
  | hidd_pm_proc_mode_change (status mode interval : Z)
  | btm_pm_proc_ssr_evt (p : bytes) (len : Z)
  | btm_pm_proc_cmd_status (status : Z)
  | btm_process_clk_off_comp_evt (handle offset : Z)
  | btm_sec_update_clock_offset (handle offset : Z)
  (* security *)
  | btm_sec_auth_complete (handle status : Z)
  | btm_acl_encrypt_change (handle status enable : Z)
  | btm_sec_encrypt_change (handle status enable : Z)
  | btm_sec_update_session_key_size (handle key_size : Z)
  | smp_cancel_start_encryption_attempt
  | l2c_pin_code_request (bda : bytes) | btm_sec_pin_code_request (bda : bytes)
  | btm_sec_link_key_request (bda : bytes)
  | btm_sec_link_key_notification (bda key : bytes) (key_type : Z)
  | btm_sec_rmt_host_support_feat_evt (p : bytes)
  | btm_io_capabilities_req (bda : bytes) | btm_io_capabilities_rsp (p : bytes)
  | btm_proc_sp_req_evt (event : Z) (p : bytes)
  | btm_keypress_notif_evt (p : bytes) | btm_rem_oob_req (p : bytes) | btm_simple_pair_complete (p : bytes)
  (* answers handed on as they are *)
  | btm_read_remote_features_complete (p : bytes)
  | btm_read_remote_ext_features_complete (p : bytes) (len : Z)
  | btm_read_remote_ext_features_failed (status handle : Z)
  | btm_read_remote_version_complete (p : bytes)
  | btm_event_filter_complete (p : bytes)
  | btm_read_link_quality_complete (p : bytes) | btm_read_rssi_complete (p : bytes)
  | btm_read_failed_contact_counter_complete (p : bytes)
  | btm_read_automatic_flush_timeout_complete (p : bytes)
  | btm_read_tx_power_complete (p : bytes) (is_ble : bool)
  | btm_create_conn_cancel_complete (p : bytes) | btm_read_local_oob_complete (p : bytes)
  | btm_read_inq_tx_power_complete (p : bytes)
  | btm_ble_rand_enc_complete (p : bytes) (opcode context : Z)
  | btm_ble_write_adv_enable_complete (p : bytes) | btm_ble_create_conn_cancel_complete (p : bytes)
  | btm_ble_test_command_complete (p : bytes)
  | btm_ble_add_resolving_list_entry_complete (p : bytes) (len : Z)
  | btm_ble_remove_resolving_list_entry_complete (p : bytes) (len : Z)
  | btm_ble_clear_resolving_list_complete (p : bytes) (len : Z)
  | btm_ble_read_resolving_list_entry_complete (p : bytes) (len : Z)
  | btm_ble_create_ll_conn_complete (status : Z)
  (* LE events *)
  | btm_ble_process_adv_pkt (len : Z) (p : bytes) | btm_ble_process_phy_update_pkt (len : Z) (p : bytes)
  | btm_ble_process_ext_adv_pkt (len : Z) (p : bytes) | btm_le_on_advertising_set_terminated (p : bytes) (len : Z)
  | btm_ble_conn_complete (p : bytes) (len : Z) (enhanced : bool)
  | l2cble_process_conn_update_evt (handle status interval latency timeout : Z)
  | gatt_notify_conn_update (handle interval latency timeout status : Z)
  | btm_ble_read_remote_features_complete (p : bytes)
  | btm_ble_ltk_request (handle : Z) (rand : bytes) (ediv : Z)
  | l2cble_process_data_length_change_event (handle tx_data_len rx_data_len : Z)
  | l2cble_process_rc_param_request_evt (handle int_min int_max latency timeout : Z).

(** What the other modules answer, given the calls made so far. *)
Class BtuModules : Type := {
  BTM_IsBleConnection : list call → Z → bool;
  l2cap_knows_link : list call → Z → bool;                       (* result of [l2c_link_hci_disc_comp] *)
  btm_sec_is_session_key_size_downgrade : list call → Z → Z → bool;
  btm_is_sco_active : list call → Z → bool;
  (* whether the identity matches, and the address put in its place *)
  btm_identity_addr_to_random_pseudo : list call → bytes → Z → bool * bytes
}.

(** ** Constants and macros *)

Class BtuMacros : Type := {
  rd32 : bytes → Z;
  rd_devclass : bytes → bytes;
  rd_array16 : bytes → bytes;
  HCID_GET_HANDLE : Z → Z;
  BTM_BLE_IS_RESOLVE_BDA : bytes → bool;
  (* the contents of fresh memory of [HCI_CMD_BUF_SIZE] bytes, behind the header *)
  uninit_event : Z;
  uninit_bytes : bytes
}.

Class BtuEvents : Type := {
  HCI_INQUIRY_COMP_EVT : Z; HCI_INQUIRY_RESULT_EVT : Z; HCI_INQUIRY_RSSI_RESULT_EVT : Z;
  HCI_EXTENDED_INQUIRY_RESULT_EVT : Z; HCI_CONNECTION_COMP_EVT : Z; HCI_CONNECTION_REQUEST_EVT : Z;
  HCI_DISCONNECTION_COMP_EVT : Z; HCI_AUTHENTICATION_COMP_EVT : Z; HCI_RMT_NAME_REQUEST_COMP_EVT : Z;
  HCI_ENCRYPTION_CHANGE_EVT : Z; HCI_ENCRYPTION_KEY_REFRESH_COMP_EVT : Z; HCI_READ_RMT_FEATURES_COMP_EVT : Z;
  HCI_READ_RMT_EXT_FEATURES_COMP_EVT : Z; HCI_READ_RMT_VERSION_COMP_EVT : Z; HCI_QOS_SETUP_COMP_EVT : Z;
  HCI_HARDWARE_ERROR_EVT : Z; HCI_FLUSH_OCCURED_EVT : Z; HCI_ROLE_CHANGE_EVT : Z;
  HCI_NUM_COMPL_DATA_PKTS_EVT : Z; HCI_MODE_CHANGE_EVT : Z; HCI_PIN_CODE_REQUEST_EVT : Z;
  HCI_LINK_KEY_REQUEST_EVT : Z; HCI_LINK_KEY_NOTIFICATION_EVT : Z; HCI_LOOPBACK_COMMAND_EVT : Z;
  HCI_DATA_BUF_OVERFLOW_EVT : Z; HCI_MAX_SLOTS_CHANGED_EVT : Z; HCI_READ_CLOCK_OFF_COMP_EVT : Z;
  HCI_CONN_PKT_TYPE_CHANGE_EVT : Z; HCI_QOS_VIOLATION_EVT : Z; HCI_PAGE_SCAN_MODE_CHANGE_EVT : Z;
  HCI_PAGE_SCAN_REP_MODE_CHNG_EVT : Z; HCI_ESCO_CONNECTION_COMP_EVT : Z; HCI_ESCO_CONNECTION_CHANGED_EVT : Z;
  HCI_SNIFF_SUB_RATE_EVT : Z; HCI_RMT_HOST_SUP_FEAT_NOTIFY_EVT : Z; HCI_IO_CAPABILITY_REQUEST_EVT : Z;
  HCI_IO_CAPABILITY_RESPONSE_EVT : Z; HCI_USER_CONFIRMATION_REQUEST_EVT : Z; HCI_USER_PASSKEY_REQUEST_EVT : Z;
  HCI_REMOTE_OOB_DATA_REQUEST_EVT : Z; HCI_SIMPLE_PAIRING_COMPLETE_EVT : Z; HCI_USER_PASSKEY_NOTIFY_EVT : Z;
  HCI_KEYPRESS_NOTIFY_EVT : Z; HCI_ENHANCED_FLUSH_COMPLETE_EVT : Z; HCI_BLE_EVENT : Z;
  (* LE subevents *)
  HCI_BLE_ADV_PKT_RPT_EVT : Z; HCI_BLE_CONN_COMPLETE_EVT : Z; HCI_BLE_LL_CONN_PARAM_UPD_EVT : Z;
  HCI_BLE_READ_REMOTE_FEAT_CMPL_EVT : Z; HCI_BLE_LTK_REQ_EVT : Z; HCI_BLE_ENHANCED_CONN_COMPLETE_EVT : Z;
  HCI_BLE_RC_PARAM_REQ_EVT : Z; HCI_BLE_DATA_LENGTH_CHANGE_EVT : Z; HCI_BLE_PHY_UPDATE_COMPLETE_EVT : Z;
  HCI_LE_EXTENDED_ADVERTISING_REPORT_EVT : Z; HCI_LE_ADVERTISING_SET_TERMINATED_EVT : Z;
  (* [hci_evt_length.h]: the shortest parameters of each event *)
  hci_event_parameters_minimum_length : list Z
}.

Class BtuOpcodes : Type := {
  HCI_INQUIRY : Z; HCI_INQUIRY_CANCEL : Z; HCI_CREATE_CONNECTION : Z; HCI_CREATE_CONNECTION_CANCEL : Z;
  HCI_DISCONNECT : Z; HCI_SETUP_ESCO_CONNECTION : Z; HCI_ENH_SETUP_ESCO_CONNECTION : Z;
  HCI_ACCEPT_CONNECTION_REQUEST : Z; HCI_ACCEPT_ESCO_CONNECTION : Z; HCI_ENH_ACCEPT_ESCO_CONNECTION : Z;
  HCI_REJECT_CONNECTION_REQUEST : Z; HCI_REJECT_ESCO_CONNECTION : Z; HCI_READ_LOCAL_OOB_DATA : Z;
  HCI_WRITE_SIMPLE_PAIRING_MODE : Z; HCI_WRITE_SECURE_CONNS_SUPPORT : Z; HCI_AUTHENTICATION_REQUESTED : Z;
  HCI_SET_CONN_ENCRYPTION : Z; HCI_DELETE_STORED_LINK_KEY : Z; HCI_RMT_NAME_REQUEST : Z;
  HCI_RMT_NAME_REQUEST_CANCEL : Z; HCI_LINK_KEY_REQUEST_REPLY : Z; HCI_LINK_KEY_REQUEST_NEG_REPLY : Z;
  HCI_IO_CAPABILITY_REQUEST_REPLY : Z; HCI_USER_CONF_REQUEST_REPLY : Z; HCI_USER_CONF_VALUE_NEG_REPLY : Z;
  HCI_USER_PASSKEY_REQ_REPLY : Z; HCI_USER_PASSKEY_REQ_NEG_REPLY : Z; HCI_REM_OOB_DATA_REQ_REPLY : Z;
  HCI_REM_OOB_DATA_REQ_NEG_REPLY : Z; HCI_IO_CAP_REQ_NEG_REPLY : Z; HCI_READ_ENCR_KEY_SIZE : Z;
  HCI_SET_EVENT_FILTER : Z; HCI_READ_LOCAL_NAME : Z; HCI_GET_LINK_QUALITY : Z; HCI_READ_RSSI : Z;
  HCI_READ_FAILED_CONTACT_COUNTER : Z; HCI_READ_AUTOMATIC_FLUSH_TIMEOUT : Z; HCI_READ_TRANSMIT_POWER_LEVEL : Z;
  HCI_READ_INQ_TX_POWER_LEVEL : Z; HCI_QOS_SETUP : Z; HCI_SWITCH_ROLE : Z; HCI_READ_RMT_EXT_FEATURES : Z;
  HCI_EXIT_SNIFF_MODE : Z; HCI_EXIT_PARK_MODE : Z; HCI_HOLD_MODE : Z; HCI_SNIFF_MODE : Z; HCI_PARK_MODE : Z
}.

Class BtuConfig : Type := {
  BTM_BR_INQUIRY_MASK : Z; BTM_INQ_RESULT_STANDARD : Z; BTM_DEV_STATUS_DOWN : Z; BTM_ROLE_UNDEFINED : Z;
  BTM_INVALID_HCI_HANDLE : Z; HCI_INVALID_HANDLE : Z; BTM_SP_CFM_REQ_EVT : Z; BTM_SP_KEY_REQ_EVT : Z;
  BTM_SP_KEY_NOTIF_EVT : Z; HCI_LINK_TYPE_ACL : Z; HCI_LINK_TYPE_SCO : Z; BLE_ADDR_ANONYMOUS : Z;
  BLE_ADDR_PUBLIC_ID : Z; BLE_ADDR_RANDOM : Z; BLE_ADDR_RANDOM_ID : Z;
  HCI_ERR_NO_CONNECTION : Z; HCI_ERR_CONNECTION_TOUT : Z; HCI_ERR_COMMAND_DISALLOWED : Z;
  HCI_ERR_HOST_REJECT_SECURITY : Z; HCI_ERR_PEER_USER : Z; HCI_ERR_INSUFFCIENT_SECURITY : Z;
  (* the build *)
  BTM_SSR_INCLUDED : bool; BLE_LLT_INCLUDED : bool; HID_DEV_INCLUDED : bool; HID_DEV_PM_INCLUDED : bool;
  (* [enums.pb.h], [metrics.h], [RawAddress::kEmpty] *)
  DIRECTION_UNKNOWN : Z; DIRECTION_OUTGOING : Z; DIRECTION_INCOMING : Z; LINK_TYPE_ACL : Z; LINK_TYPE_UNKNOWN : Z;
  BLE_EVT_UNKNOWN : Z; CMD_UNKNOWN : Z; EVT_COMMAND_COMPLETE : Z; EVT_COMMAND_STATUS : Z; EVT_UNKNOWN : Z;
  STATUS_UNKNOWN : Z; kUnknownConnectionHandle : Z; kEmpty : bytes
}.

(** ** State

    [layer] holds the buffers and the HCI layer, [dev] the device manager and the
    controller; [wrappers] are the [cmd_with_cb_data] on the heap, [None] once the
    callback was moved out; [main_tasks] is posted to the main thread. *)

Inductive main_task : Type :=
  | complete_on_task (event : nat) (context : Z)
  | complete_with_cb_on_task (event : nat) (context : Z)
  | status_on_task (status : Z) (command : nat) (context : Z)
  | status_with_cb_on_task (status : Z) (command : nat) (context : Z).

Record btu : Type := mk_btu {
  dev : btm;
  layer : hci;
  wrappers : gmap nat (option nat);
  main_tasks : list main_task;
  calls : list call }.

Definition set_dev (x : btm) (s : btu) : btu := mk_btu x (layer s) (wrappers s) (main_tasks s) (calls s).
Definition set_layer (x : hci) (s : btu) : btu := mk_btu (dev s) x (wrappers s) (main_tasks s) (calls s).
Definition set_wrappers (x : gmap nat (option nat)) (s : btu) : btu :=
  mk_btu (dev s) (layer s) x (main_tasks s) (calls s).
Definition set_main_tasks (x : list main_task) (s : btu) : btu := mk_btu (dev s) (layer s) (wrappers s) x (calls s).
Definition set_calls (x : list call) (s : btu) : btu := mk_btu (dev s) (layer s) (wrappers s) (main_tasks s) x.

(** ** The language *)

(** [switch (c) { case l: ... }] without fall-through: the labels and the body of each case. *)
Fixpoint switch {A} (c : Z) (cases : list (list Z * A)) (default : A) : A :=
  match cases with
  | [] => default
  | (labels, body) :: cases' => if existsb (Z.eqb c) labels then body else switch c cases' default
  end.
Definition labels {A} (cases : list (list Z * A)) : list Z := concat (fst <$> cases).

(** Cases under a switch of the build. *)
Definition when_included {A} (b : bool) (cases : list (list Z * A)) : list (list Z * A) := if b then cases else [].

(** The pointer stored in the first bytes of some memory, least byte first. *)
Fixpoint le_value (bs : bytes) : Z := match bs with [] => 0 | b :: bs' => b + 256 * le_value bs' end.

Section state.
Context `{!BtMacros, !BtuMacros}.

Definition tell_call (c : call) : M btu unit := modify (λ s, set_calls (calls s ++ [c]) s).
Definition ask_module {A} (f : list call → A) : M btu A := s ← get; mret (f (calls s)).

(** Run the device manager; what it does joins the calls. *)
Definition on_dev {A} (m : M btm A) : M btu A := λ s,
  let out d := set_calls (calls s ++ (Dev <$> effects d)) (set_dev (set_effects [] d) s) in
  match m (set_effects [] (dev s)) with
  | Ret a d => Ret a (out d)
  | Exit code d => Exit code (out d)
  | Undefined => Undefined
  | Stuck => Stuck
  end.

(** Buffers of the heap. *)
Definition on_layer {A} (m : M hci A) : M btu A := λ s,
  match m (layer s) with
  | Ret a h => Ret a (set_layer h s)
  | Exit code h => Exit code (set_layer h s)
  | Undefined => Undefined
  | Stuck => Stuck
  end.

(** [STREAM_TO_...(x, p)]: the value at [p] and the advanced pointer. *)
Definition stream_to {A} (n : nat) (f : bytes → A) (p : bytes) : M btu (A * bytes) :=
  if bool_decide (n ≤ length p)%nat then mret (f p, drop n p) else undefined.
Definition STREAM_TO_UINT8 : bytes → M btu (Z * bytes) := stream_to 1 rd8.
Definition STREAM_TO_UINT16 : bytes → M btu (Z * bytes) := stream_to 2 rd16.
Definition STREAM_TO_UINT32 : bytes → M btu (Z * bytes) := stream_to 4 rd32.
Definition STREAM_TO_BDADDR : bytes → M btu (bytes * bytes) := stream_to BD_ADDR_LEN rd_bda.
Definition STREAM_TO_DEVCLASS : bytes → M btu (bytes * bytes) := stream_to 3 rd_devclass.
Definition STREAM_TO_ARRAY16 : bytes → M btu (bytes * bytes) := stream_to 16 rd_array16.
End state.
