(* ===== verification/BtuHcif.v ===== *)
(** * Bluetooth: event dispatch ([stack/btu/btu_hcif.cc])

    Events are unpacked with a moving pointer, as the code does: a read beyond the
    packet is undefined.  A callback that runs inside a call of the HCI layer only
    posts a task or frees a buffer the layer has let go of, so it is run when the
    layer is done.  Lines written to the log are left out. *)

From S2P Require Import Prelude CMonad BtTypes HciParser Controller HciLayer BtmDev BtuDefs.

(** The callbacks this file gives to [transmit_command], as the layer knows them. *)
Definition COMPLETE_EVT : nat := 0.
Definition COMPLETE_EVT_WITH_CB : nat := 1.
Definition STATUS_EVT : nat := 0.
Definition STATUS_EVT_WITH_CB : nat := 1.

Definition MIN_KEY_SIZE : Z := 7.

Section btu.
Context `{!BtMacros, !HcicSizes, !HciDefs, !FeatureBits, !BtConfig, !HciLayerDefs, !HciPlatform, !LeOpcodes,
  !BtmFeatureBits, !BtmMasks, !BtmConfig, !BtmModules,
  !BtuModules, !BtuMacros, !BtuEvents, !BtuOpcodes, !BtuConfig}.

(** ** Metrics of events *)

Definition log_pairing (bda : bytes) (handle evt_code status reason value : Z) : M btu unit :=
  tell_call (LogClassicPairingEvent bda handle CMD_UNKNOWN evt_code status reason value).
Definition log_link (bda : option bytes) (handle direction link_type evt_code status reason : Z) : M btu unit :=
  tell_call (LogLinkLayerConnectionEvent bda handle direction link_type CMD_UNKNOWN evt_code BLE_EVT_UNKNOWN
    status reason).

Definition event_metrics_cases (evt_code : Z) (p_event : bytes) : list (list Z * M btu unit) := [
  ([HCI_IO_CAPABILITY_REQUEST_EVT; HCI_IO_CAPABILITY_RESPONSE_EVT; HCI_LINK_KEY_REQUEST_EVT;
    HCI_LINK_KEY_NOTIFICATION_EVT; HCI_USER_PASSKEY_REQUEST_EVT; HCI_USER_PASSKEY_NOTIFY_EVT;
    HCI_USER_CONFIRMATION_REQUEST_EVT; HCI_KEYPRESS_NOTIFY_EVT; HCI_REMOTE_OOB_DATA_REQUEST_EVT],
    '(bda, _) ← STREAM_TO_BDADDR p_event;
    log_pairing bda kUnknownConnectionHandle evt_code STATUS_UNKNOWN STATUS_UNKNOWN 0);
  ([HCI_SIMPLE_PAIRING_COMPLETE_EVT; HCI_RMT_NAME_REQUEST_COMP_EVT],
    '(status, p_event) ← STREAM_TO_UINT8 p_event;
    '(bda, _) ← STREAM_TO_BDADDR p_event;
    log_pairing bda kUnknownConnectionHandle evt_code status STATUS_UNKNOWN 0);
  ([HCI_AUTHENTICATION_COMP_EVT],
    '(status, p_event) ← STREAM_TO_UINT8 p_event;
    '(handle, _) ← STREAM_TO_UINT16 p_event;
    log_pairing kEmpty (HCID_GET_HANDLE handle) evt_code status STATUS_UNKNOWN 0);
  ([HCI_ENCRYPTION_CHANGE_EVT],
    '(status, p_event) ← STREAM_TO_UINT8 p_event;
    '(handle, p_event) ← STREAM_TO_UINT16 p_event;
    '(encryption_enabled, _) ← STREAM_TO_UINT8 p_event;
    log_pairing kEmpty handle evt_code status STATUS_UNKNOWN encryption_enabled);
  ([HCI_CONNECTION_COMP_EVT],
    '(status, p_event) ← STREAM_TO_UINT8 p_event;
    '(handle, p_event) ← STREAM_TO_UINT16 p_event;
    '(bda, p_event) ← STREAM_TO_BDADDR p_event;
    '(link_type, _) ← STREAM_TO_UINT8 p_event;
    log_link (Some bda) (HCID_GET_HANDLE handle) DIRECTION_UNKNOWN link_type evt_code status STATUS_UNKNOWN);
  ([HCI_CONNECTION_REQUEST_EVT],
    '(bda, p_event) ← STREAM_TO_BDADDR p_event;
    '(_, p_event) ← STREAM_TO_DEVCLASS p_event;
    '(link_type, _) ← STREAM_TO_UINT8 p_event;
    log_link (Some bda) kUnknownConnectionHandle DIRECTION_INCOMING link_type evt_code STATUS_UNKNOWN STATUS_UNKNOWN);
  ([HCI_DISCONNECTION_COMP_EVT],
    '(status, p_event) ← STREAM_TO_UINT8 p_event;
    '(handle, p_event) ← STREAM_TO_UINT16 p_event;
    '(reason, _) ← STREAM_TO_UINT8 p_event;
    log_link None (HCID_GET_HANDLE handle) DIRECTION_UNKNOWN LINK_TYPE_UNKNOWN evt_code status reason);
  ([HCI_ESCO_CONNECTION_COMP_EVT],
    '(status, p_event) ← STREAM_TO_UINT8 p_event;
    '(handle, p_event) ← STREAM_TO_UINT16 p_event;
    '(bda, p_event) ← STREAM_TO_BDADDR p_event;
    '(link_type, _) ← STREAM_TO_UINT8 p_event;
    log_link (Some bda) (HCID_GET_HANDLE handle) DIRECTION_UNKNOWN link_type evt_code status STATUS_UNKNOWN);
  ([HCI_ESCO_CONNECTION_CHANGED_EVT],
    '(status, p_event) ← STREAM_TO_UINT8 p_event;
    '(handle, _) ← STREAM_TO_UINT16 p_event;
    log_link None (HCID_GET_HANDLE handle) DIRECTION_UNKNOWN LINK_TYPE_UNKNOWN evt_code status STATUS_UNKNOWN)
].
Definition btu_hcif_log_event_metrics (evt_code : Z) (p_event : bytes) : M btu unit :=
  switch evt_code (event_metrics_cases evt_code p_event) (mret tt).

(** ** Inquiry and links *)

Definition btu_hcif_inquiry_comp_evt (p : bytes) : M btu unit :=
  '(status, _) ← STREAM_TO_UINT8 p;
  tell_call (btm_process_inq_complete status BTM_BR_INQUIRY_MASK).
Definition btu_hcif_inquiry_result_evt (p : bytes) (hci_evt_len : Z) : M btu unit :=
  tell_call (btm_process_inq_results p hci_evt_len BTM_INQ_RESULT_STANDARD).
Definition btu_hcif_inquiry_rssi_result_evt (p : bytes) (hci_evt_len : Z) : M btu unit :=
  tell_call (btm_process_inq_results p hci_evt_len BTM_INQ_RESULT_WITH_RSSI).
Definition btu_hcif_extended_inquiry_result_evt (p : bytes) (hci_evt_len : Z) : M btu unit :=
  tell_call (btm_process_inq_results p hci_evt_len BTM_INQ_RESULT_EXTENDED).

Definition btu_hcif_connection_comp_evt (p : bytes) (evt_len : Z) : M btu unit :=
  if evt_len <? 11 then tell_call (android_errorWriteLog 141619686) else
  '(status, p) ← STREAM_TO_UINT8 p;
  '(handle, p) ← STREAM_TO_UINT16 p;
  '(bda, p) ← STREAM_TO_BDADDR p;
  '(link_type, p) ← STREAM_TO_UINT8 p;
  '(enc_mode, _) ← STREAM_TO_UINT8 p;
  let handle := HCID_GET_HANDLE handle in
  if link_type =? HCI_LINK_TYPE_ACL then
    tell_call (btm_sec_connected bda handle status enc_mode) ;;
    tell_call (l2c_link_hci_conn_comp status handle bda)
  else tell_call (btm_sco_connected status (Some bda) handle (Some (mk_esco bda 0 0 0 0 0 0))).

Definition btu_hcif_connection_request_evt (p : bytes) : M btu unit :=
  '(bda, p) ← STREAM_TO_BDADDR p;
  '(dc, p) ← STREAM_TO_DEVCLASS p;
  '(link_type, _) ← STREAM_TO_UINT8 p;
  if link_type =? HCI_LINK_TYPE_ACL then tell_call (btm_sec_conn_req bda dc)
  else tell_call (btm_sco_conn_req bda dc link_type).

Definition btu_hcif_disconnection_comp_evt (p : bytes) : M btu unit :=
  '(_, p) ← STREAM_TO_UINT8 p;
  '(handle, p) ← STREAM_TO_UINT16 p;
  '(reason, _) ← STREAM_TO_UINT8 p;
  let handle := HCID_GET_HANDLE handle in
  known ← ask_module (λ cs, l2cap_knows_link cs handle);
  tell_call (l2c_link_hci_disc_comp handle reason) ;;
  (if (known : bool) then mret tt else tell_call (btm_sco_removed handle reason)) ;;
  tell_call (btm_sec_disconnected handle reason).

Definition btu_hcif_authentication_comp_evt (p : bytes) : M btu unit :=
  '(status, p) ← STREAM_TO_UINT8 p;
  '(handle, _) ← STREAM_TO_UINT16 p;
  tell_call (btm_sec_auth_complete handle status).

Definition btu_hcif_rmt_name_request_comp_evt (p : bytes) (evt_len : Z) : M btu unit :=
  '(status, p) ← STREAM_TO_UINT8 p;
  '(bd_addr, p) ← STREAM_TO_BDADDR p;
  tell_call (btm_process_remote_name (Some bd_addr) (Some p) (u16 (evt_len - (1 + Z.of_nat BD_ADDR_LEN))) status) ;;
  tell_call (btm_sec_rmt_name_request_complete (Some bd_addr) (Some p) status).

(** ** Encryption *)

(** The answer to Read Encryption Key Size. *)
Definition read_encryption_key_size_complete_after_encryption_change (status handle key_size : Z) : M btu unit :=
  if status =? HCI_ERR_INSUFFCIENT_SECURITY then mret tt else
  if negb (status =? HCI_SUCCESS) then tell_call (btsnd_hcic_disconnect handle HCI_ERR_PEER_USER) else
  if key_size <? MIN_KEY_SIZE then
    tell_call (android_errorWriteLog 124301137) ;;
    tell_call (btsnd_hcic_disconnect handle HCI_ERR_HOST_REJECT_SECURITY)
  else
  downgrade ← ask_module (λ cs, btm_sec_is_session_key_size_downgrade cs handle key_size);
  if (downgrade : bool) then tell_call (btsnd_hcic_disconnect handle HCI_ERR_HOST_REJECT_SECURITY) else
  tell_call (btm_sec_update_session_key_size handle key_size) ;;
  tell_call (btm_acl_encrypt_change handle status 1) ;;
  tell_call (btm_sec_encrypt_change handle status 1).

Definition btu_hcif_encryption_change_evt (p : bytes) : M btu unit :=
  '(status, p) ← STREAM_TO_UINT8 p;
  '(handle, p) ← STREAM_TO_UINT16 p;
  '(encr_enable, _) ← STREAM_TO_UINT8 p;
  is_ble ← ask_module (λ cs, BTM_IsBleConnection cs handle);
  if negb (status =? HCI_SUCCESS) || (encr_enable =? 0) || is_ble then
    if status =? HCI_ERR_CONNECTION_TOUT then tell_call smp_cancel_start_encryption_attempt else
    tell_call (btm_acl_encrypt_change handle status encr_enable) ;;
    tell_call (btm_sec_encrypt_change handle status encr_enable)
  else
  supported ← on_dev (ask supports_read_encryption_key_size);
  if negb supported then
    tell_call (btm_acl_encrypt_change handle status encr_enable) ;;
    tell_call (btm_sec_encrypt_change handle status encr_enable)
  else tell_call (btsnd_hcic_read_encryption_key_size handle AfterEncryptionChange).

Definition read_encryption_key_size_complete_after_key_refresh (status handle key_size : Z) : M btu unit :=
  if status =? HCI_ERR_INSUFFCIENT_SECURITY then mret tt else
  if negb (status =? HCI_SUCCESS) then tell_call (btsnd_hcic_disconnect handle HCI_ERR_PEER_USER) else
  if key_size <? MIN_KEY_SIZE then
    tell_call (android_errorWriteLog 124301137) ;;
    tell_call (btsnd_hcic_disconnect handle HCI_ERR_HOST_REJECT_SECURITY)
  else tell_call (btm_sec_encrypt_change handle status 1).

Definition btu_hcif_encryption_key_refresh_cmpl_evt (p : bytes) : M btu unit :=
  '(status, p) ← STREAM_TO_UINT8 p;
  '(handle, _) ← STREAM_TO_UINT16 p;
  is_ble ← ask_module (λ cs, BTM_IsBleConnection cs handle);
  if negb (status =? HCI_SUCCESS) || is_ble then
    tell_call (btm_sec_encrypt_change handle status (if status =? HCI_SUCCESS then 1 else 0))
  else
  supported ← on_dev (ask supports_read_encryption_key_size);
  if negb supported then tell_call (btm_sec_encrypt_change handle status 1)
  else tell_call (btsnd_hcic_read_encryption_key_size handle AfterKeyRefresh).

(** The function bound to the request. *)
Definition key_size_answer (cb : key_size_cb) (status handle key_size : Z) : M btu unit :=
  match cb with
  | AfterEncryptionChange => read_encryption_key_size_complete_after_encryption_change status handle key_size
  | AfterKeyRefresh => read_encryption_key_size_complete_after_key_refresh status handle key_size
  end.

(** ** Remote devices, links *)

Definition btu_hcif_read_rmt_features_comp_evt (p : bytes) : M btu unit :=
  tell_call (btm_read_remote_features_complete p).
Definition btu_hcif_read_rmt_ext_features_comp_evt (p : bytes) (evt_len : Z) : M btu unit :=
  '(status, p_cur) ← STREAM_TO_UINT8 p;
  if status =? HCI_SUCCESS then tell_call (btm_read_remote_ext_features_complete p evt_len) else
  '(handle, _) ← STREAM_TO_UINT16 p_cur;
  tell_call (btm_read_remote_ext_features_failed status handle).
Definition btu_hcif_read_rmt_version_comp_evt (p : bytes) : M btu unit :=
  tell_call (btm_read_remote_version_complete p).

Definition btu_hcif_qos_setup_comp_evt (p : bytes) : M btu unit :=
  '(status, p) ← STREAM_TO_UINT8 p;
  '(handle, p) ← STREAM_TO_UINT16 p;
  '(flags, p) ← STREAM_TO_UINT8 p;
  '(service, p) ← STREAM_TO_UINT8 p;
  '(rate, p) ← STREAM_TO_UINT32 p;
  '(peak, p) ← STREAM_TO_UINT32 p;
  '(lat, p) ← STREAM_TO_UINT32 p;
  '(delay, _) ← STREAM_TO_UINT32 p;
  tell_call (btm_qos_setup_complete status handle (Some (mk_flow flags service rate peak lat delay))).

Definition btu_hcif_esco_connection_comp_evt (p : bytes) : M btu unit :=
  '(status, p) ← STREAM_TO_UINT8 p;
  '(handle, p) ← STREAM_TO_UINT16 p;
  '(bda, p) ← STREAM_TO_BDADDR p;
  '(link_type, p) ← STREAM_TO_UINT8 p;
  '(interval, p) ← STREAM_TO_UINT8 p;
  '(retrans, p) ← STREAM_TO_UINT8 p;
  '(rx, p) ← STREAM_TO_UINT16 p;
  '(tx, p) ← STREAM_TO_UINT16 p;
  '(air, _) ← STREAM_TO_UINT8 p;
  tell_call (btm_sco_connected status (Some bda) (HCID_GET_HANDLE handle)
    (Some (mk_esco bda link_type interval retrans rx tx air))).

Definition btu_hcif_esco_connection_chg_evt (p : bytes) : M btu unit :=
  '(status, p) ← STREAM_TO_UINT8 p;
  '(handle, p) ← STREAM_TO_UINT16 p;
  '(interval, p) ← STREAM_TO_UINT8 p;
  '(retrans, p) ← STREAM_TO_UINT8 p;
  '(rx, p) ← STREAM_TO_UINT16 p;
  '(tx, _) ← STREAM_TO_UINT16 p;
  tell_call (btm_esco_proc_conn_chg status (HCID_GET_HANDLE handle) interval retrans rx tx).

(** [p] is read for the log. *)
Definition btu_hcif_hardware_error_evt (p : bytes) : M btu unit :=
  require (bool_decide (1 ≤ length p)%nat) ;;
  on_dev (btm_report_device_status BTM_DEV_STATUS_DOWN) ;;
  up ← on_dev BTM_IsDeviceUp;
  if (up : bool) then on_dev BTM_DeviceReset else mret tt.

Definition btu_hcif_flush_occured_evt : M btu unit := mret tt.
Definition btu_hcif_role_change_evt (p : bytes) : M btu unit :=
  '(status, p) ← STREAM_TO_UINT8 p;
  '(bda, p) ← STREAM_TO_BDADDR p;
  '(role, _) ← STREAM_TO_UINT8 p;
  tell_call (btm_blacklist_role_change_device bda status) ;;
  tell_call (l2c_link_role_changed (Some bda) role status) ;;
  tell_call (btm_acl_role_changed status bda role).
Definition btu_hcif_num_compl_data_pkts_evt (p : bytes) (evt_len : Z) : M btu unit :=
  tell_call (l2c_link_process_num_completed_pkts p evt_len).

Definition btu_hcif_mode_change_evt (p : bytes) : M btu unit :=
  '(status, p) ← STREAM_TO_UINT8 p;
  '(handle, p) ← STREAM_TO_UINT16 p;
  '(current_mode, p) ← STREAM_TO_UINT8 p;
  '(interval, _) ← STREAM_TO_UINT16 p;
  tell_call (btm_sco_chk_pend_unpark status handle) ;;
  tell_call (btm_pm_proc_mode_change status handle current_mode interval) ;;
  if HID_DEV_INCLUDED && HID_DEV_PM_INCLUDED then tell_call (hidd_pm_proc_mode_change status current_mode interval)
  else mret tt.
Definition btu_hcif_ssr_evt (p : bytes) (evt_len : Z) : M btu unit := tell_call (btm_pm_proc_ssr_evt p evt_len).

(** ** Pairing *)

Definition btu_hcif_pin_code_request_evt (p : bytes) : M btu unit :=
  '(bda, _) ← STREAM_TO_BDADDR p;
  tell_call (l2c_pin_code_request bda) ;;
  tell_call (btm_sec_pin_code_request bda).
Definition btu_hcif_link_key_request_evt (p : bytes) : M btu unit :=
  '(bda, _) ← STREAM_TO_BDADDR p;
  tell_call (btm_sec_link_key_request bda).
Definition btu_hcif_link_key_notification_evt (p : bytes) : M btu unit :=
  '(bda, p) ← STREAM_TO_BDADDR p;
  '(key, p) ← STREAM_TO_ARRAY16 p;
  '(key_type, _) ← STREAM_TO_UINT8 p;
  tell_call (btm_sec_link_key_notification bda key key_type).

Definition btu_hcif_loopback_command_evt : M btu unit := mret tt.
Definition btu_hcif_data_buf_overflow_evt : M btu unit := mret tt.
Definition btu_hcif_max_slots_changed_evt : M btu unit := mret tt.
Definition btu_hcif_read_clock_off_comp_evt (p : bytes) : M btu unit :=
  '(status, p) ← STREAM_TO_UINT8 p;
  if negb (status =? HCI_SUCCESS) then mret tt else
  '(handle, p) ← STREAM_TO_UINT16 p;
  '(clock_offset, _) ← STREAM_TO_UINT16 p;
  let handle := HCID_GET_HANDLE handle in
  tell_call (btm_process_clk_off_comp_evt handle clock_offset) ;;
  tell_call (btm_sec_update_clock_offset handle clock_offset).
Definition btu_hcif_conn_pkt_type_change_evt : M btu unit := mret tt.
Definition btu_hcif_qos_violation_evt (p : bytes) : M btu unit :=
  '(handle, _) ← STREAM_TO_UINT16 p;
  tell_call (l2c_link_hci_qos_violation (HCID_GET_HANDLE handle)).
Definition btu_hcif_page_scan_mode_change_evt : M btu unit := mret tt.
Definition btu_hcif_page_scan_rep_mode_chng_evt : M btu unit := mret tt.

Definition btu_hcif_host_support_evt (p : bytes) : M btu unit := tell_call (btm_sec_rmt_host_support_feat_evt p).
Definition btu_hcif_io_cap_request_evt (p : bytes) : M btu unit :=
  '(bda, _) ← STREAM_TO_BDADDR p;
  tell_call (btm_io_capabilities_req bda).
Definition btu_hcif_io_cap_response_evt (p : bytes) : M btu unit := tell_call (btm_io_capabilities_rsp p).
Definition btu_hcif_user_conf_request_evt (p : bytes) : M btu unit :=
  tell_call (btm_proc_sp_req_evt BTM_SP_CFM_REQ_EVT p).
Definition btu_hcif_user_passkey_request_evt (p : bytes) : M btu unit :=
  tell_call (btm_proc_sp_req_evt BTM_SP_KEY_REQ_EVT p).
Definition btu_hcif_user_passkey_notif_evt (p : bytes) : M btu unit :=
  tell_call (btm_proc_sp_req_evt BTM_SP_KEY_NOTIF_EVT p).
Definition btu_hcif_keypress_notif_evt (p : bytes) : M btu unit := tell_call (btm_keypress_notif_evt p).
Definition btu_hcif_rem_oob_request_evt (p : bytes) : M btu unit := tell_call (btm_rem_oob_req p).
Definition btu_hcif_simple_pair_complete_evt (p : bytes) : M btu unit := tell_call (btm_simple_pair_complete p).
Definition btu_hcif_enhanced_flush_complete_evt : M btu unit := mret tt.

(** ** LE *)

Definition btu_ble_ll_conn_complete_evt (p : bytes) (evt_len : Z) : M btu unit :=
  tell_call (btm_ble_conn_complete p evt_len false).
Definition btu_ble_proc_enhanced_conn_cmpl (p : bytes) (evt_len : Z) : M btu unit :=
  tell_call (btm_ble_conn_complete p evt_len true).
Definition btu_ble_ll_conn_param_upd_evt (p : bytes) (evt_len : Z) : M btu unit :=
  '(status, p) ← STREAM_TO_UINT8 p;
  '(handle, p) ← STREAM_TO_UINT16 p;
  '(interval, p) ← STREAM_TO_UINT16 p;
  '(lat, p) ← STREAM_TO_UINT16 p;
  '(timeout, _) ← STREAM_TO_UINT16 p;
  tell_call (l2cble_process_conn_update_evt handle status interval lat timeout) ;;
  tell_call (gatt_notify_conn_update (Z.land handle 0x0FFF) interval lat timeout status).
Definition btu_ble_read_remote_feat_evt (p : bytes) : M btu unit :=
  tell_call (btm_ble_read_remote_features_complete p).
Definition btu_ble_proc_ltk_req (p : bytes) : M btu unit :=
  '(handle, p) ← STREAM_TO_UINT16 p;
  '(ediv, _) ← STREAM_TO_UINT16 (drop 8 p);
  tell_call (btm_ble_ltk_request handle p ediv).
Definition btu_ble_data_length_change_evt (p : bytes) (evt_len : Z) : M btu unit :=
  supported ← on_dev (ask supports_ble_packet_extension);
  if negb supported then mret tt else
  if evt_len <? 8 then mret tt else
  '(handle, p) ← STREAM_TO_UINT16 p;
  '(tx_data_len, p) ← STREAM_TO_UINT16 p;
  '(rx_data_len, _) ← STREAM_TO_UINT16 (drop 2 p);
  tell_call (l2cble_process_data_length_change_event handle tx_data_len rx_data_len).
Definition btu_ble_rc_param_req_evt (p : bytes) : M btu unit :=
  '(handle, p) ← STREAM_TO_UINT16 p;
  '(int_min, p) ← STREAM_TO_UINT16 p;
  '(int_max, p) ← STREAM_TO_UINT16 p;
  '(lat, p) ← STREAM_TO_UINT16 p;
  '(timeout, _) ← STREAM_TO_UINT16 p;
  tell_call (l2cble_process_rc_param_request_evt handle int_min int_max lat timeout).

(** ** The switch over the events *)

(** [p]: behind the subevent code; [ble_evt_len] is [uint8_t]. *)
Definition ble_cases (p : bytes) (hci_evt_len : Z) : list (list Z * M btu unit) :=
  let ble_evt_len := u8 (hci_evt_len - 1) in
  [([HCI_BLE_ADV_PKT_RPT_EVT], tell_call (btm_ble_process_adv_pkt ble_evt_len p));
   ([HCI_BLE_CONN_COMPLETE_EVT], btu_ble_ll_conn_complete_evt p hci_evt_len);
   ([HCI_BLE_LL_CONN_PARAM_UPD_EVT], btu_ble_ll_conn_param_upd_evt p hci_evt_len);
   ([HCI_BLE_READ_REMOTE_FEAT_CMPL_EVT], btu_ble_read_remote_feat_evt p);
   ([HCI_BLE_LTK_REQ_EVT], btu_ble_proc_ltk_req p)] ++
  when_included BLE_PRIVACY_SPT
    [([HCI_BLE_ENHANCED_CONN_COMPLETE_EVT], btu_ble_proc_enhanced_conn_cmpl p hci_evt_len)] ++
  when_included BLE_LLT_INCLUDED [([HCI_BLE_RC_PARAM_REQ_EVT], btu_ble_rc_param_req_evt p)] ++
  [([HCI_BLE_DATA_LENGTH_CHANGE_EVT], btu_ble_data_length_change_evt p hci_evt_len);
   ([HCI_BLE_PHY_UPDATE_COMPLETE_EVT], tell_call (btm_ble_process_phy_update_pkt ble_evt_len p));
   ([HCI_LE_EXTENDED_ADVERTISING_REPORT_EVT], tell_call (btm_ble_process_ext_adv_pkt hci_evt_len p));
   ([HCI_LE_ADVERTISING_SET_TERMINATED_EVT], tell_call (btm_le_on_advertising_set_terminated p hci_evt_len))].
Definition ble_event (p : bytes) (hci_evt_len : Z) : M btu unit :=
  '(ble_sub_code, p) ← STREAM_TO_UINT8 p;
  switch ble_sub_code (ble_cases p hci_evt_len) (mret tt).

(** Command Complete and Command Status are only logged here: the HCI layer keeps them. *)
Definition event_cases (p : bytes) (hci_evt_len : Z) : list (list Z * M btu unit) :=
  [([HCI_INQUIRY_COMP_EVT], btu_hcif_inquiry_comp_evt p);
   ([HCI_INQUIRY_RESULT_EVT], btu_hcif_inquiry_result_evt p hci_evt_len);
   ([HCI_INQUIRY_RSSI_RESULT_EVT], btu_hcif_inquiry_rssi_result_evt p hci_evt_len);
   ([HCI_EXTENDED_INQUIRY_RESULT_EVT], btu_hcif_extended_inquiry_result_evt p hci_evt_len);
   ([HCI_CONNECTION_COMP_EVT], btu_hcif_connection_comp_evt p hci_evt_len);
   ([HCI_CONNECTION_REQUEST_EVT], btu_hcif_connection_request_evt p);
   ([HCI_DISCONNECTION_COMP_EVT], btu_hcif_disconnection_comp_evt p);
   ([HCI_AUTHENTICATION_COMP_EVT], btu_hcif_authentication_comp_evt p);
   ([HCI_RMT_NAME_REQUEST_COMP_EVT], btu_hcif_rmt_name_request_comp_evt p hci_evt_len);
   ([HCI_ENCRYPTION_CHANGE_EVT], btu_hcif_encryption_change_evt p);
   ([HCI_ENCRYPTION_KEY_REFRESH_COMP_EVT], btu_hcif_encryption_key_refresh_cmpl_evt p);
   ([HCI_READ_RMT_FEATURES_COMP_EVT], btu_hcif_read_rmt_features_comp_evt p);
   ([HCI_READ_RMT_EXT_FEATURES_COMP_EVT], btu_hcif_read_rmt_ext_features_comp_evt p hci_evt_len);
   ([HCI_READ_RMT_VERSION_COMP_EVT], btu_hcif_read_rmt_version_comp_evt p);
   ([HCI_QOS_SETUP_COMP_EVT], btu_hcif_qos_setup_comp_evt p);
   ([HCI_COMMAND_COMPLETE_EVT], mret tt);
   ([HCI_COMMAND_STATUS_EVT], mret tt);
   ([HCI_HARDWARE_ERROR_EVT], btu_hcif_hardware_error_evt p);
   ([HCI_FLUSH_OCCURED_EVT], btu_hcif_flush_occured_evt);
   ([HCI_ROLE_CHANGE_EVT], btu_hcif_role_change_evt p);
   ([HCI_NUM_COMPL_DATA_PKTS_EVT], btu_hcif_num_compl_data_pkts_evt p hci_evt_len);
   ([HCI_MODE_CHANGE_EVT], btu_hcif_mode_change_evt p);
   ([HCI_PIN_CODE_REQUEST_EVT], btu_hcif_pin_code_request_evt p);
   ([HCI_LINK_KEY_REQUEST_EVT], btu_hcif_link_key_request_evt p);
   ([HCI_LINK_KEY_NOTIFICATION_EVT], btu_hcif_link_key_notification_evt p);
   ([HCI_LOOPBACK_COMMAND_EVT], btu_hcif_loopback_command_evt);
   ([HCI_DATA_BUF_OVERFLOW_EVT], btu_hcif_data_buf_overflow_evt);
   ([HCI_MAX_SLOTS_CHANGED_EVT], btu_hcif_max_slots_changed_evt);
   ([HCI_READ_CLOCK_OFF_COMP_EVT], btu_hcif_read_clock_off_comp_evt p);
   ([HCI_CONN_PKT_TYPE_CHANGE_EVT], btu_hcif_conn_pkt_type_change_evt);
   ([HCI_QOS_VIOLATION_EVT], btu_hcif_qos_violation_evt p);
   ([HCI_PAGE_SCAN_MODE_CHANGE_EVT], btu_hcif_page_scan_mode_change_evt);
   ([HCI_PAGE_SCAN_REP_MODE_CHNG_EVT], btu_hcif_page_scan_rep_mode_chng_evt);
   ([HCI_ESCO_CONNECTION_COMP_EVT], btu_hcif_esco_connection_comp_evt p);
   ([HCI_ESCO_CONNECTION_CHANGED_EVT], btu_hcif_esco_connection_chg_evt p)] ++
  when_included BTM_SSR_INCLUDED [([HCI_SNIFF_SUB_RATE_EVT], btu_hcif_ssr_evt p hci_evt_len)] ++
  [([HCI_RMT_HOST_SUP_FEAT_NOTIFY_EVT], btu_hcif_host_support_evt p);
   ([HCI_IO_CAPABILITY_REQUEST_EVT], btu_hcif_io_cap_request_evt p);
   ([HCI_IO_CAPABILITY_RESPONSE_EVT], btu_hcif_io_cap_response_evt p);
   ([HCI_USER_CONFIRMATION_REQUEST_EVT], btu_hcif_user_conf_request_evt p);
   ([HCI_USER_PASSKEY_REQUEST_EVT], btu_hcif_user_passkey_request_evt p);
   ([HCI_REMOTE_OOB_DATA_REQUEST_EVT], btu_hcif_rem_oob_request_evt p);
   ([HCI_SIMPLE_PAIRING_COMPLETE_EVT], btu_hcif_simple_pair_complete_evt p);
   ([HCI_USER_PASSKEY_NOTIFY_EVT], btu_hcif_user_passkey_notif_evt p);
   ([HCI_KEYPRESS_NOTIFY_EVT], btu_hcif_keypress_notif_evt p)] ++
  when_included L2CAP_NON_FLUSHABLE_PB_INCLUDED
    [([HCI_ENHANCED_FLUSH_COMPLETE_EVT], btu_hcif_enhanced_flush_complete_evt)] ++
  [([HCI_BLE_EVENT], ble_event p hci_evt_len);
   ([HCI_VENDOR_SPECIFIC_EVT], on_dev (btm_vendor_specific_evt p hci_evt_len))].

(** [None]: indexing the table beyond its end is undefined. *)
Definition btu_hcif_process_event (p_msg : buf) : M btu unit :=
  let p := drop (b_offset p_msg) (b_data p_msg) in
  '(hci_evt_code, p) ← STREAM_TO_UINT8 p;
  '(hci_evt_len, p) ← STREAM_TO_UINT8 p;
  match hci_event_parameters_minimum_length !! Z.to_nat hci_evt_code with
  | None => undefined
  | Some minimum =>
      if hci_evt_len <? minimum then mret tt else
      btu_hcif_log_event_metrics hci_evt_code p ;;
      switch hci_evt_code (event_cases p hci_evt_len) (mret tt)
  end.

(** ** Metrics of commands *)

Definition log_command_link (bda : option bytes) (handle direction link_type opcode hci_event cmd_status reason : Z)
    : M btu unit :=
  tell_call (LogLinkLayerConnectionEvent bda handle direction link_type opcode hci_event BLE_EVT_UNKNOWN cmd_status reason).
Definition log_command_pairing (bda : bytes) (handle opcode hci_event cmd_status reason value : Z) : M btu unit :=
  tell_call (LogClassicPairingEvent bda handle opcode hci_event cmd_status reason value).

(** The cases for given [hci_event] and [cmd_status], as they are set at the start. *)
Definition command_metrics_cases (opcode : Z) (p_cmd : bytes) (hci_event cmd_status : Z) (is_cmd_status : bool)
    : list (list Z * M btu unit) :=
  let link bda handle direction link_type reason :=
    log_command_link bda handle direction link_type opcode hci_event cmd_status reason in
  let pairing bda handle reason value := log_command_pairing bda handle opcode hci_event cmd_status reason value in
  [([HCI_CREATE_CONNECTION; HCI_CREATE_CONNECTION_CANCEL],
    '(bd_addr, _) ← STREAM_TO_BDADDR p_cmd;
    link (Some bd_addr) kUnknownConnectionHandle DIRECTION_OUTGOING LINK_TYPE_ACL STATUS_UNKNOWN);
   ([HCI_DISCONNECT],
    '(handle, p_cmd) ← STREAM_TO_UINT16 p_cmd;
    '(reason, _) ← STREAM_TO_UINT8 p_cmd;
    link None handle DIRECTION_UNKNOWN LINK_TYPE_UNKNOWN reason);
   ([HCI_SETUP_ESCO_CONNECTION; HCI_ENH_SETUP_ESCO_CONNECTION],
    '(handle, _) ← STREAM_TO_UINT16 p_cmd;
    link None handle DIRECTION_OUTGOING LINK_TYPE_UNKNOWN STATUS_UNKNOWN);
   ([HCI_ACCEPT_CONNECTION_REQUEST; HCI_ACCEPT_ESCO_CONNECTION; HCI_ENH_ACCEPT_ESCO_CONNECTION],
    '(bd_addr, _) ← STREAM_TO_BDADDR p_cmd;
    link (Some bd_addr) kUnknownConnectionHandle DIRECTION_INCOMING LINK_TYPE_UNKNOWN STATUS_UNKNOWN);
   ([HCI_REJECT_CONNECTION_REQUEST; HCI_REJECT_ESCO_CONNECTION],
    '(bd_addr, p_cmd) ← STREAM_TO_BDADDR p_cmd;
    '(reason, _) ← STREAM_TO_UINT8 p_cmd;
    link (Some bd_addr) kUnknownConnectionHandle DIRECTION_INCOMING LINK_TYPE_UNKNOWN reason);
   ([HCI_BLE_CREATE_LL_CONN],
    '(initiator_filter_policy, p_cmd) ← STREAM_TO_UINT8 (drop 4 p_cmd);
    '(peer_address_type, p_cmd) ← STREAM_TO_UINT8 p_cmd;
    '(bd_addr, _) ← STREAM_TO_BDADDR p_cmd;
    bd_addr_p ← (if initiator_filter_policy =? 0 then
        if BLE_PRIVACY_SPT && ((peer_address_type =? BLE_ADDR_PUBLIC_ID) || (peer_address_type =? BLE_ADDR_RANDOM_ID)) then
          '(found, bd_addr) ← ask_module (λ cs, btm_identity_addr_to_random_pseudo cs bd_addr peer_address_type);
          mret (if found : bool then Some bd_addr else None)
        else mret (Some bd_addr)
      else mret None);
    if (initiator_filter_policy =? 0) || (negb (cmd_status =? HCI_SUCCESS) && negb is_cmd_status) then
      link bd_addr_p kUnknownConnectionHandle DIRECTION_OUTGOING LINK_TYPE_ACL STATUS_UNKNOWN
    else mret tt);
   ([HCI_LE_EXTENDED_CREATE_CONNECTION],
    '(initiator_filter_policy, p_cmd) ← STREAM_TO_UINT8 p_cmd;
    '(peer_addr_type, p_cmd) ← STREAM_TO_UINT8 (drop 1 p_cmd);
    '(bd_addr, _) ← STREAM_TO_BDADDR p_cmd;
    bd_addr_p ← (if initiator_filter_policy =? 0 then
        if BLE_PRIVACY_SPT then
          '(_, bd_addr) ← ask_module (λ cs, btm_identity_addr_to_random_pseudo cs bd_addr peer_addr_type);
          mret (Some bd_addr)
        else mret (Some bd_addr)
      else mret None);
    if (initiator_filter_policy =? 0) || (negb (cmd_status =? HCI_SUCCESS) && negb is_cmd_status) then
      link bd_addr_p kUnknownConnectionHandle DIRECTION_OUTGOING LINK_TYPE_ACL STATUS_UNKNOWN
    else mret tt);
   ([HCI_BLE_CREATE_CONN_CANCEL],
    if negb (cmd_status =? HCI_SUCCESS) && negb is_cmd_status then
      link None kUnknownConnectionHandle DIRECTION_OUTGOING LINK_TYPE_ACL STATUS_UNKNOWN
    else mret tt);
   ([HCI_BLE_CLEAR_WHITE_LIST],
    link None kUnknownConnectionHandle DIRECTION_INCOMING LINK_TYPE_ACL STATUS_UNKNOWN);
   ([HCI_BLE_ADD_WHITE_LIST; HCI_BLE_REMOVE_WHITE_LIST],
    '(peer_addr_type, p_cmd) ← STREAM_TO_UINT8 p_cmd;
    '(bd_addr, _) ← STREAM_TO_BDADDR p_cmd;
    bd_addr_p ← (if negb (peer_addr_type =? BLE_ADDR_ANONYMOUS) then
        if BLE_PRIVACY_SPT && negb ((peer_addr_type =? BLE_ADDR_RANDOM) && BTM_BLE_IS_RESOLVE_BDA bd_addr) then
          '(_, bd_addr) ← ask_module (λ cs, btm_identity_addr_to_random_pseudo cs bd_addr peer_addr_type);
          mret (Some bd_addr)
        else mret (Some bd_addr)
      else mret None);
    link bd_addr_p kUnknownConnectionHandle DIRECTION_INCOMING LINK_TYPE_ACL STATUS_UNKNOWN);
   ([HCI_READ_LOCAL_OOB_DATA], pairing kEmpty kUnknownConnectionHandle STATUS_UNKNOWN 0);
   ([HCI_WRITE_SIMPLE_PAIRING_MODE],
    '(simple_pairing_mode, _) ← STREAM_TO_UINT8 p_cmd;
    pairing kEmpty kUnknownConnectionHandle STATUS_UNKNOWN simple_pairing_mode);
   ([HCI_WRITE_SECURE_CONNS_SUPPORT],
    '(secure_conn_host_support, _) ← STREAM_TO_UINT8 p_cmd;
    pairing kEmpty kUnknownConnectionHandle STATUS_UNKNOWN secure_conn_host_support);
   ([HCI_AUTHENTICATION_REQUESTED],
    '(handle, _) ← STREAM_TO_UINT16 p_cmd;
    pairing kEmpty handle STATUS_UNKNOWN 0);
   ([HCI_SET_CONN_ENCRYPTION],
    '(handle, p_cmd) ← STREAM_TO_UINT16 p_cmd;
    '(encryption_enable, _) ← STREAM_TO_UINT8 p_cmd;
    pairing kEmpty handle STATUS_UNKNOWN encryption_enable);
   ([HCI_DELETE_STORED_LINK_KEY],
    '(bd_addr, p_cmd) ← STREAM_TO_BDADDR p_cmd;
    '(delete_all_flag, _) ← STREAM_TO_UINT8 p_cmd;
    pairing bd_addr kUnknownConnectionHandle STATUS_UNKNOWN delete_all_flag);
   ([HCI_RMT_NAME_REQUEST; HCI_RMT_NAME_REQUEST_CANCEL; HCI_LINK_KEY_REQUEST_REPLY; HCI_LINK_KEY_REQUEST_NEG_REPLY;
     HCI_IO_CAPABILITY_REQUEST_REPLY; HCI_USER_CONF_REQUEST_REPLY; HCI_USER_CONF_VALUE_NEG_REPLY;
     HCI_USER_PASSKEY_REQ_REPLY; HCI_USER_PASSKEY_REQ_NEG_REPLY; HCI_REM_OOB_DATA_REQ_REPLY;
     HCI_REM_OOB_DATA_REQ_NEG_REPLY],
    '(bd_addr, _) ← STREAM_TO_BDADDR p_cmd;
    pairing bd_addr kUnknownConnectionHandle STATUS_UNKNOWN 0);
   ([HCI_IO_CAP_REQ_NEG_REPLY],
    '(bd_addr, p_cmd) ← STREAM_TO_BDADDR p_cmd;
    '(reason, _) ← STREAM_TO_UINT8 p_cmd;
    pairing bd_addr kUnknownConnectionHandle reason 0)].
Definition btu_hcif_log_command_metrics (opcode : Z) (p_cmd : bytes) (cmd_status : Z) (is_cmd_status : bool) : M btu unit :=
  let hci_event := if is_cmd_status then EVT_COMMAND_STATUS else EVT_UNKNOWN in
  let cmd_status := if is_cmd_status then cmd_status else STATUS_UNKNOWN in
  switch opcode (command_metrics_cases opcode p_cmd hci_event cmd_status is_cmd_status) (mret tt).

Definition complete_metrics_cases (opcode : Z) (p : bytes) : list (list Z * M btu unit) :=
  let pairing bda handle status value :=
    log_command_pairing bda handle opcode EVT_COMMAND_COMPLETE status STATUS_UNKNOWN value in
  [([HCI_BLE_CLEAR_WHITE_LIST; HCI_BLE_ADD_WHITE_LIST; HCI_BLE_REMOVE_WHITE_LIST],
    '(status, _) ← STREAM_TO_UINT8 p;
    log_command_link None kUnknownConnectionHandle DIRECTION_INCOMING LINK_TYPE_ACL opcode EVT_COMMAND_COMPLETE
      status STATUS_UNKNOWN);
   ([HCI_DELETE_STORED_LINK_KEY; HCI_READ_LOCAL_OOB_DATA; HCI_WRITE_SIMPLE_PAIRING_MODE; HCI_WRITE_SECURE_CONNS_SUPPORT],
    '(status, _) ← STREAM_TO_UINT8 p;
    pairing kEmpty kUnknownConnectionHandle status 0);
   ([HCI_READ_ENCR_KEY_SIZE],
    '(status, p) ← STREAM_TO_UINT8 p;
    '(handle, p) ← STREAM_TO_UINT16 p;
    '(key_size, _) ← STREAM_TO_UINT8 p;
    pairing kEmpty handle status key_size);
   ([HCI_LINK_KEY_REQUEST_REPLY; HCI_LINK_KEY_REQUEST_NEG_REPLY; HCI_IO_CAPABILITY_REQUEST_REPLY;
     HCI_IO_CAP_REQ_NEG_REPLY; HCI_USER_CONF_REQUEST_REPLY; HCI_USER_CONF_VALUE_NEG_REPLY; HCI_USER_PASSKEY_REQ_REPLY;
     HCI_USER_PASSKEY_REQ_NEG_REPLY; HCI_REM_OOB_DATA_REQ_REPLY; HCI_REM_OOB_DATA_REQ_NEG_REPLY],
    '(status, p) ← STREAM_TO_UINT8 p;
    '(bd_addr, _) ← STREAM_TO_BDADDR p;
    pairing bd_addr kUnknownConnectionHandle status 0)].
Definition btu_hcif_log_command_complete_metrics (opcode : Z) (p_return_params : bytes) : M btu unit :=
  switch opcode (complete_metrics_cases opcode p_return_params) (mret tt).
End btu.
