(* ===== verification/BtuCmd.v ===== *)
(** * Bluetooth: commands and their answers ([stack/btu/btu_hcif.cc])

    A command goes to the HCI layer with two callbacks.  They run on the HCI
    thread, post to the main thread, and the tasks there hand the answer on.  The
    buffers are those of the layer; the [cmd_with_cb_data] are [wrappers]. *)

From S2P Require Import Prelude CMonad BtTypes HciParser Controller HciLayer BtmDev BtuDefs BtuHcif.

Section btu.
Context `{!BtMacros, !HcicSizes, !HciDefs, !FeatureBits, !BtConfig, !HciLayerDefs, !HciPlatform, !LeOpcodes,
  !BtmFeatureBits, !BtmMasks, !BtmConfig, !BtmModules,
  !BtuModules, !BtuMacros, !BtuEvents, !BtuOpcodes, !BtuConfig}.

(** ** Memory *)

(** [osi_free] of a buffer, and its memory from [data + offset] on. *)
Definition osi_free (p : nat) : M btu unit := on_layer (free_buf p).
Definition stream_of (p : nat) : M btu bytes :=
  b ← on_layer (load_buf p); mret (drop (b_offset b) (b_data b)).

(** [osi_malloc(HCI_CMD_BUF_SIZE)]: its contents are not initialised. *)
Definition osi_malloc_cmd (b : buf) : M btu nat :=
  s ← get;
  let p := fresh (dom (bufs (layer s))) in
  on_layer (store_buf p b) ;; mret p.

(** The wrapper is allocated and initialised with an empty callback. *)
Definition new_wrapper : M btu nat := λ s,
  let w := fresh (dom (wrappers s)) in Ret w (set_wrappers (<[w := None]> (wrappers s)) s).
Definition load_wrapper (w : nat) : M btu (option nat) := λ s,
  match wrappers s !! w with Some cb => Ret cb s | None => Undefined end.
Definition store_wrapper (w : nat) (cb : option nat) : M btu unit :=
  load_wrapper w ;; modify (λ s, set_wrappers (<[w := cb]> (wrappers s)) s).
Definition free_wrapper (w : nat) : M btu unit :=
  load_wrapper w ;; modify (λ s, set_wrappers (delete w (wrappers s)) s).

(** [std::move(cb_wrapper->cb).Run(p, len)]; running an empty callback crashes. *)
Definition run_wrapper (w : nat) (p : bytes) (len : Z) : M btu unit :=
  cb ← load_wrapper w;
  match cb with
  | Some cb => store_wrapper w None ;; tell_call (run_cb cb p len)
  | None => undefined
  end.

(** The wrapper and the callback of a vendor specific command in a context. *)
Definition wrapper_of (context : Z) : nat := Z.to_nat context.
Definition vsc_cb (context : Z) : option nat := if context =? 0 then None else Some (Z.to_nat context).

Definition post (t : main_task) : M btu unit := modify (λ s, set_main_tasks (main_tasks s ++ [t]) s).

(** ** The callbacks of the HCI layer *)

Definition btu_hcif_command_complete_evt (response : nat) (context : Z) : M btu unit :=
  post (complete_on_task response context).
Definition btu_hcif_command_complete_evt_with_cb (response : nat) (context : Z) : M btu unit :=
  post (complete_with_cb_on_task response context).
Definition btu_hcif_command_status_evt (status : Z) (cmd : nat) (context : Z) : M btu unit :=
  post (status_on_task status cmd context).
Definition btu_hcif_command_status_evt_with_cb (status : Z) (cmd : nat) (context : Z) : M btu unit :=
  if status =? 0 then osi_free cmd else post (status_with_cb_on_task status cmd context).

(** Callbacks of other modules are not this file's. *)
Definition run_callback (e : effect) : M btu unit :=
  match e with
  | EComplete cb packet ctx =>
      if bool_decide (cb = COMPLETE_EVT) then btu_hcif_command_complete_evt packet ctx
      else if bool_decide (cb = COMPLETE_EVT_WITH_CB) then btu_hcif_command_complete_evt_with_cb packet ctx
      else mret tt
  | EStatus cb status cmd ctx =>
      if bool_decide (cb = STATUS_EVT) then btu_hcif_command_status_evt status cmd ctx
      else if bool_decide (cb = STATUS_EVT_WITH_CB) then btu_hcif_command_status_evt_with_cb status cmd ctx
      else mret tt
  | _ => mret tt
  end.
Fixpoint run_callbacks (es : list effect) : M btu unit :=
  match es with [] => mret tt | e :: es' => run_callback e ;; run_callbacks es' end.

(** Run the HCI layer, and then the callbacks it called. *)
Definition in_layer {A} (m : M hci A) : M btu A :=
  s ← get;
  a ← on_layer m;
  s' ← get;
  run_callbacks (drop (length (trace (layer s))) (trace (layer s'))) ;;
  mret a.

(** ** Sending *)

Definition btu_hcif_send_cmd (p_buf : option nat) : M btu unit :=
  match p_buf with
  | None => mret tt
  | Some p_buf =>
      stream ← stream_of p_buf;
      '(opcode, stream) ← STREAM_TO_UINT16 stream;
      vsc_callback ← (if is_vendor_specific opcode || (opcode =? HCI_BLE_RAND) || (opcode =? HCI_BLE_ENCRYPT) then
          b ← on_layer (load_buf p_buf);
          require (bool_decide (sizeof_voidp ≤ length (b_data b))%nat) ;;
          mret (le_value (take sizeof_voidp (b_data b)))
        else mret 0);
      btu_hcif_log_command_metrics opcode (drop 1 stream) STATUS_UNKNOWN false ;;
      in_layer (transmit_command p_buf (Some COMPLETE_EVT) (Some STATUS_EVT) vsc_callback)
  end.

(** [params]: [None] is the null pointer; copying beyond the memory of either side is undefined. *)
Definition btu_hcif_send_cmd_with_cb (opcode : Z) (params : option bytes) (params_len : Z) (cb : nat) : M btu unit :=
  let n := Z.to_nat params_len in
  require (match params with
    | Some ps => bool_decide (n ≤ length ps)%nat && bool_decide (3 + n ≤ length uninit_bytes)%nat
    | None => bool_decide (3 ≤ length uninit_bytes)%nat
    end) ;;
  let data := match params with
    | Some ps => wr16 opcode ++ wr8 params_len ++ take n ps ++ drop (3 + n) uninit_bytes
    | None => wr16 opcode ++ wr8 params_len ++ drop 3 uninit_bytes
    end in
  p ← osi_malloc_cmd (mk_buf uninit_event (u16 (HCIC_PREAMBLE_SIZE + params_len)) 0 data);
  btu_hcif_log_command_metrics opcode (drop 3 data) STATUS_UNKNOWN false ;;
  cb_wrapper ← new_wrapper;
  store_wrapper cb_wrapper (Some cb) ;;
  in_layer (transmit_command p (Some COMPLETE_EVT_WITH_CB) (Some STATUS_EVT_WITH_CB) (Z.of_nat cb_wrapper)).

(** ** Command Complete *)

(** [p], the return parameters, goes to the module that sent the command. *)
Definition complete_cases (opcode : Z) (p : bytes) (evt_len context : Z) : list (list Z * M btu unit) :=
  [([HCI_INQUIRY_CANCEL], tell_call (btm_process_cancel_complete HCI_SUCCESS BTM_BR_INQUIRY_MASK));
   ([HCI_SET_EVENT_FILTER], tell_call (btm_event_filter_complete p));
   ([HCI_DELETE_STORED_LINK_KEY], on_dev (btm_delete_stored_link_key_complete p));
   ([HCI_READ_LOCAL_NAME], on_dev (btm_read_local_name_complete p));
   ([HCI_GET_LINK_QUALITY], tell_call (btm_read_link_quality_complete p));
   ([HCI_READ_RSSI], tell_call (btm_read_rssi_complete p));
   ([HCI_READ_FAILED_CONTACT_COUNTER], tell_call (btm_read_failed_contact_counter_complete p));
   ([HCI_READ_AUTOMATIC_FLUSH_TIMEOUT], tell_call (btm_read_automatic_flush_timeout_complete p));
   ([HCI_READ_TRANSMIT_POWER_LEVEL], tell_call (btm_read_tx_power_complete p false));
   ([HCI_CREATE_CONNECTION_CANCEL], tell_call (btm_create_conn_cancel_complete p));
   ([HCI_READ_LOCAL_OOB_DATA], tell_call (btm_read_local_oob_complete p));
   ([HCI_READ_INQ_TX_POWER_LEVEL], tell_call (btm_read_inq_tx_power_complete p));
   ([HCI_BLE_RAND; HCI_BLE_ENCRYPT], tell_call (btm_ble_rand_enc_complete p opcode context));
   ([HCI_BLE_READ_ADV_CHNL_TX_POWER], tell_call (btm_read_tx_power_complete p true));
   ([HCI_BLE_WRITE_ADV_ENABLE], tell_call (btm_ble_write_adv_enable_complete p));
   ([HCI_BLE_CREATE_LL_CONN; HCI_LE_EXTENDED_CREATE_CONNECTION], mret tt);
   ([HCI_BLE_CREATE_CONN_CANCEL], tell_call (btm_ble_create_conn_cancel_complete p));
   ([HCI_BLE_TRANSMITTER_TEST; HCI_BLE_RECEIVER_TEST; HCI_BLE_TEST_END], tell_call (btm_ble_test_command_complete p))] ++
  when_included BLE_PRIVACY_SPT
  [([HCI_BLE_ADD_DEV_RESOLVING_LIST], tell_call (btm_ble_add_resolving_list_entry_complete p evt_len));
   ([HCI_BLE_RM_DEV_RESOLVING_LIST], tell_call (btm_ble_remove_resolving_list_entry_complete p evt_len));
   ([HCI_BLE_CLEAR_RESOLVING_LIST], tell_call (btm_ble_clear_resolving_list_complete p evt_len));
   ([HCI_BLE_READ_RESOLVABLE_ADDR_PEER], tell_call (btm_ble_read_resolving_list_entry_complete p evt_len));
   ([HCI_BLE_READ_RESOLVABLE_ADDR_LOCAL; HCI_BLE_SET_ADDR_RESOLUTION_ENABLE; HCI_BLE_SET_RAND_PRIV_ADDR_TIMOUT],
     mret tt)].
Definition btu_hcif_hdl_command_complete (opcode : Z) (p : bytes) (evt_len context : Z) : M btu unit :=
  switch opcode (complete_cases opcode p evt_len context)
    (if is_vendor_specific opcode then on_dev (btm_vsc_complete p opcode evt_len (vsc_cb context)) else mret tt).

(** The event header and the credit are skipped; [param_len] is [uint16_t]. *)
Definition btu_hcif_command_complete_evt_on_task (event : nat) (context : Z) : M btu unit :=
  b ← on_layer (load_buf event);
  stream ← stream_of event;
  '(opcode, stream) ← STREAM_TO_UINT16 (drop 3 stream);
  btu_hcif_log_command_complete_metrics opcode stream ;;
  btu_hcif_hdl_command_complete opcode stream (u16 (b_len b - 5)) context ;;
  osi_free event.

Definition btu_hcif_command_complete_evt_with_cb_on_task (event : nat) (context : Z) : M btu unit :=
  b ← on_layer (load_buf event);
  stream ← stream_of event;
  '(opcode, stream) ← STREAM_TO_UINT16 (drop 3 stream);
  btu_hcif_log_command_complete_metrics opcode stream ;;
  run_wrapper (wrapper_of context) stream (u16 (b_len b - 5)) ;;
  free_wrapper (wrapper_of context) ;;
  osi_free event.

(** ** Command Status *)

(** [p_cmd]: the parameters of the command. *)
Definition status_cases (opcode status : Z) (p_cmd : bytes) : list (list Z * M btu unit) :=
  let on_error (m : M btu unit) : M btu unit := if negb (status =? HCI_SUCCESS) then m else mret tt in
  let pm_status := tell_call (btm_pm_proc_cmd_status status) in
  [([HCI_INQUIRY], on_error (tell_call (btm_process_inq_complete status BTM_BR_INQUIRY_MASK)));
   ([HCI_QOS_SETUP], on_error (tell_call (btm_qos_setup_complete status 0 None)));
   ([HCI_SWITCH_ROLE], on_error (
     '(bd_addr, _) ← STREAM_TO_BDADDR p_cmd;
     tell_call (btm_acl_role_changed status bd_addr BTM_ROLE_UNDEFINED) ;;
     tell_call (l2c_link_role_changed None BTM_ROLE_UNDEFINED HCI_ERR_COMMAND_DISALLOWED)));
   ([HCI_CREATE_CONNECTION], on_error (
     '(bd_addr, _) ← STREAM_TO_BDADDR p_cmd;
     tell_call (btm_sec_connected bd_addr HCI_INVALID_HANDLE status 0) ;;
     tell_call (l2c_link_hci_conn_comp status HCI_INVALID_HANDLE bd_addr)));
   ([HCI_AUTHENTICATION_REQUESTED], on_error (tell_call (btm_sec_auth_complete BTM_INVALID_HCI_HANDLE status)));
   ([HCI_SET_CONN_ENCRYPTION], on_error (tell_call (btm_sec_encrypt_change BTM_INVALID_HCI_HANDLE status 0)));
   ([HCI_RMT_NAME_REQUEST], on_error (
     tell_call (btm_process_remote_name None None 0 status) ;;
     tell_call (btm_sec_rmt_name_request_complete None None status)));
   ([HCI_READ_RMT_EXT_FEATURES], on_error (
     '(handle, _) ← STREAM_TO_UINT16 p_cmd;
     tell_call (btm_read_remote_ext_features_failed status handle)));
   ([HCI_SETUP_ESCO_CONNECTION; HCI_ENH_SETUP_ESCO_CONNECTION], on_error (
     '(handle, _) ← STREAM_TO_UINT16 p_cmd;
     active ← ask_module (λ cs, btm_is_sco_active cs handle);
     if (active : bool) then tell_call (btm_esco_proc_conn_chg status handle 0 0 0 0)
     else tell_call (btm_sco_connected status None handle None)));
   ([HCI_BLE_CREATE_LL_CONN; HCI_LE_EXTENDED_CREATE_CONNECTION],
     on_error (tell_call (btm_ble_create_ll_conn_complete status)));
   ([HCI_BLE_START_ENC],
     if status =? HCI_ERR_NO_CONNECTION then tell_call smp_cancel_start_encryption_attempt else mret tt);
   ([HCI_EXIT_SNIFF_MODE; HCI_EXIT_PARK_MODE],
     on_error (
       '(handle, _) ← STREAM_TO_UINT16 p_cmd;
       tell_call (btm_sco_chk_pend_unpark status handle)) ;;
     pm_status);
   ([HCI_HOLD_MODE; HCI_SNIFF_MODE; HCI_PARK_MODE], pm_status)].

(** [p_cmd] points to the parameter length, and is not null. *)
Definition btu_hcif_hdl_command_status (opcode status : Z) (p_cmd : bytes) (context : Z) : M btu unit :=
  switch opcode (status_cases opcode status (drop 1 p_cmd))
    (if is_vendor_specific opcode then on_dev (btm_vsc_complete [status] opcode 1 (vsc_cb context)) else mret tt).

Definition btu_hcif_command_status_evt_on_task (status : Z) (event : nat) (context : Z) : M btu unit :=
  stream ← stream_of event;
  '(opcode, stream) ← STREAM_TO_UINT16 stream;
  btu_hcif_log_command_metrics opcode (drop 1 stream) status true ;;
  btu_hcif_hdl_command_status opcode status stream context ;;
  osi_free event.

(** The callback is given the one byte of the status, and [sizeof(uint16_t)] as its length. *)
Definition btu_hcif_command_status_evt_with_cb_on_task (status : Z) (event : nat) (context : Z) : M btu unit :=
  stream ← stream_of event;
  '(opcode, stream) ← STREAM_TO_UINT16 stream;
  check (negb (status =? 0)) ;;
  btu_hcif_log_command_metrics opcode (drop 1 stream) status true ;;
  run_wrapper (wrapper_of context) [status] 2 ;;
  free_wrapper (wrapper_of context) ;;
  osi_free event.

(** ** The main thread *)

Definition run_main_task (t : main_task) : M btu unit :=
  match t with
  | complete_on_task event ctx => btu_hcif_command_complete_evt_on_task event ctx
  | complete_with_cb_on_task event ctx => btu_hcif_command_complete_evt_with_cb_on_task event ctx
  | status_on_task status cmd ctx => btu_hcif_command_status_evt_on_task status cmd ctx
  | status_with_cb_on_task status cmd ctx => btu_hcif_command_status_evt_with_cb_on_task status cmd ctx
  end.

(** The next task that was posted. *)
Definition run_next_main_task : M btu unit :=
  s ← get;
  match main_tasks s with
  | [] => mret tt
  | t :: ts => modify (set_main_tasks ts) ;; run_main_task t
  end.
End btu.
