(* ===== verification/BtuHcifSpec.v ===== *)
(** * Bluetooth: how events are taken apart

    Every event of the basic rate is unpacked as the table [event_table] says, with fields named by
    their offset; what the shortest accepted events guarantee is enough for the
    events of the basic rate, and not for those of LE. *)

From S2P Require Import Prelude CMonad BtTypes HciParser Controller HciLayer BtmDev BtuDefs BtuHcif.

(** ** Switches *)

Lemma switch_ind {A} (P : A → Prop) c cases d :
  (∀ ls a, (ls, a) ∈ cases → c ∈ ls → P a) → (c ∉ labels cases → P d) → P (switch c cases d).
Proof.
  induction cases as [|[ls a] cases IH]; intros Hc Hd; cbn [switch]; [by apply Hd, not_elem_of_nil|].
  destruct (existsb (Z.eqb c) ls) eqn:E.
  - apply (Hc ls a); [by left|]. apply existsb_exists in E as (x & Hx & ->%Z.eqb_eq). by apply list_elem_of_In.
  - apply IH; [intros; eapply Hc; [by right|done]|].
    intros Hn. apply Hd. unfold labels in *. cbn. rewrite elem_of_app. intros [Hx|]; [|done].
    assert (existsb (Z.eqb c) ls = true); [|congruence].
    apply existsb_exists. exists c. by rewrite Z.eqb_refl, <- list_elem_of_In.
Qed.

Lemma elem_of_labels {A} c (cases : list (list Z * A)) : c ∈ labels cases ↔ ∃ ls a, (ls, a) ∈ cases ∧ c ∈ ls.
Proof.
  unfold labels. induction cases as [|[l b] cases IH]; cbn; [set_solver|]. rewrite elem_of_app, IH. set_solver.
Qed.
Lemma switch_case {A} c cases (d : A) ls a : NoDup (labels cases) → (ls, a) ∈ cases → c ∈ ls → switch c cases d = a.
Proof.
  intros Hn Hin Hc. unfold labels in Hn. induction cases as [|[l b] cases IH]; [by apply not_elem_of_nil in Hin|].
  cbn in Hn |- *. apply NoDup_app in Hn as (_ & Hd & Hn).
  assert (existsb (Z.eqb c) l = bool_decide (c ∈ l)) as ->.
  { apply eq_bool_prop_intro. rewrite bool_decide_spec. split.
    - intros (x & Hx & ->%Z.eqb_eq)%Is_true_true%existsb_exists. by apply list_elem_of_In.
    - intros ?. apply Is_true_true, existsb_exists. exists c. by rewrite Z.eqb_refl, <- list_elem_of_In. }
  apply elem_of_cons in Hin as [[= <- <-]|Hin]; [by rewrite bool_decide_eq_true_2|].
  rewrite bool_decide_eq_false_2; [by apply IH|]. intros Hl. apply (Hd _ Hl).
  apply elem_of_labels. eauto.
Qed.
Lemma switch_default {A} c cases (d : A) : c ∉ labels cases → switch c cases d = d.
Proof.
  intros Hn. apply (switch_ind (λ x, x = d)); [|done]. intros ls a Hin Hc. destruct Hn.
  apply elem_of_labels. eauto.
Qed.

(** Two switches over the same labels. *)
Lemma switch_rel {A B} (R : A → B → Prop) c cs1 cs2 d1 d2 :
  Forall2 (λ x y, x.1 = y.1 ∧ R x.2 y.2) cs1 cs2 → R d1 d2 → R (switch c cs1 d1) (switch c cs2 d2).
Proof.
  intros H Hd. induction H as [|[l1 a] [l2 b] cs1 cs2 [E Hab] H IH]; [done|].
  cbn in *. subst l2. by destruct (existsb _ l1).
Qed.

Lemma when_included_rel {A B} (R : A → B → Prop) b cs1 cs2 :
  Forall2 R cs1 cs2 → Forall2 R (if b : bool then cs1 else []) (if b then cs2 else []).
Proof. by destruct b. Qed.

Section run.
Context `{!BtMacros, !HcicSizes, !HciDefs, !FeatureBits, !BtConfig, !HciLayerDefs, !HciPlatform, !LeOpcodes,
  !BtmFeatureBits, !BtmMasks, !BtmConfig, !BtmModules,
  !BtuModules, !BtuMacros, !BtuEvents, !BtuOpcodes, !BtuConfig}.
Implicit Types s : btu.

(** ** Running handlers *)

Definition add_calls (cs : list call) (s : btu) : btu := set_calls (calls s ++ cs) s.

Lemma add_calls_nil s : add_calls [] s = s.
Proof. unfold add_calls. rewrite app_nil_r. by destruct s. Qed.
Lemma add_calls_add cs1 cs2 s : add_calls cs2 (add_calls cs1 s) = add_calls (cs1 ++ cs2) s.
Proof. unfold add_calls. cbn. by rewrite app_assoc. Qed.

Lemma stream_to_run {A} n (f : bytes → A) p s : (n ≤ length p)%nat → stream_to n f p s = Ret (f p, drop n p) s.
Proof. intros. unfold stream_to. by rewrite bool_decide_eq_true_2. Qed.
Lemma stream_to_short {A} n (f : bytes → A) p s : (length p < n)%nat → stream_to n f p s = Undefined.
Proof. intros. unfold stream_to. rewrite bool_decide_eq_false_2; [done|lia]. Qed.
Lemma bind_stream {A B} n (f : bytes → A) p (k : A * bytes → M btu B) s :
  (n ≤ length p)%nat → (stream_to n f p ≫= k) s = k (f p, drop n p) s.
Proof. intros. unfold mbind, M_bind. by rewrite stream_to_run. Qed.
Lemma bind_short {A B} n (f : bytes → A) p (k : A * bytes → M btu B) s :
  (length p < n)%nat → (stream_to n f p ≫= k) s = Undefined.
Proof. intros. unfold mbind, M_bind. by rewrite stream_to_short. Qed.
Lemma bind_tell {B} c (k : unit → M btu B) s : (tell_call c ≫= k) s = k tt (add_calls [c] s).
Proof. done. Qed.
Lemma bind_ask {A B} (f : list call → A) (k : A → M btu B) s : (ask_module f ≫= k) s = k (f (calls s)) s.
Proof. done. Qed.
Lemma bind_mret {A B} (a : A) (k : A → M btu B) s : (mret a ≫= k) s = k a s.
Proof. done. Qed.
Lemma tell_run c s : tell_call c s = Ret tt (add_calls [c] s).
Proof. done. Qed.

(** The controller is only asked. *)
Definition with_state {A B S T} (f : S → T) (g : A → B) (o : outcome S A) : outcome T B :=
  match o with
  | Ret a x => Ret (g a) (f x) | Exit code x => Exit code (f x) | Undefined => Undefined | Stuck => Stuck
  end.
Definition keeps_controller {A} (m : M ctl A) : Prop := ∀ c, match m c with Ret _ c' | Exit _ c' => c' = c | _ => True end.
Lemma ask_keeps_run {A} (m : M ctl A) s : effects (dev s) = [] → keeps_controller m →
  on_dev (ask m) s = with_state (λ _, s) id (m (controller (dev s))).
Proof.
  intros E Hm. unfold on_dev, ask. specialize (Hm (controller (dev s))). destruct s as [[] ? ? ? cs]. cbn in *. subst.
  destruct (m controller); try done; cbn; subst; unfold set_calls, set_dev; cbn; by rewrite app_nil_r.
Qed.

(** ** Fields by offset *)

Definition u8_at (p : bytes) (i : nat) : Z := rd8 (drop i p).
Definition u16_at (p : bytes) (i : nat) : Z := rd16 (drop i p).
Definition u32_at (p : bytes) (i : nat) : Z := rd32 (drop i p).
Definition bda_at (p : bytes) (i : nat) : bytes := rd_bda (drop i p).
Definition handle_at (p : bytes) (i : nat) : Z := HCID_GET_HANDLE (u16_at p i).

End run.

(** Run a handler: its reads, its calls and its questions. *)
Ltac run_event :=
  unfold STREAM_TO_UINT8, STREAM_TO_UINT16, STREAM_TO_UINT32, STREAM_TO_BDADDR, STREAM_TO_DEVCLASS, STREAM_TO_ARRAY16;
  repeat first
    [ rewrite bind_stream by (rewrite ?length_drop; unfold BD_ADDR_LEN; lia); cbv beta iota
    | rewrite bind_tell | rewrite bind_ask | rewrite bind_mret ];
  rewrite ?tell_run, ?add_calls_add, ?drop_drop.

(** Run a handler to the read that finds too little. *)
Ltac run_or_stop :=
  unfold STREAM_TO_UINT8, STREAM_TO_UINT16;
  repeat match goal with
  | |- (stream_to ?n ?f ?p ≫= ?k) ?s = Undefined =>
      destruct (decide (n ≤ length p)%nat); [rewrite bind_stream by done; cbv beta iota|by rewrite bind_short by lia]
  end; exfalso; rewrite ?length_drop in *; lia.
(** Compare fields by their offset, and split a branch. *)
Ltac offsets := unfold handle_at, u8_at, u16_at, u32_at, bda_at, BD_ADDR_LEN; cbn [Nat.add]; rewrite ?drop_0.
Ltac split_branch := offsets; match goal with
  | |- context [if negb ?b then _ else _] => destruct b
  | |- context [if ?b then _ else _] => destruct b
  end.

Section spec.
Context `{!BtMacros, !HcicSizes, !HciDefs, !FeatureBits, !BtConfig, !HciLayerDefs, !HciPlatform, !LeOpcodes,
  !BtmFeatureBits, !BtmMasks, !BtmConfig, !BtmModules,
  !BtuModules, !BtuMacros, !BtuEvents, !BtuOpcodes, !BtuConfig}.
Implicit Types s : btu.

(** What an event needs of its parameters, and the calls it makes in a state;
    [None] for those that are up to the device manager. *)
Definition event_spec : Type := option (nat * (btu → list call)).
Definition reports (n : nat) (cs : list call) : event_spec := Some (n, λ _, cs).

Definition can_read_key_size (s : btu) : bool := read_encryption_key_size_supported (controller (dev s)).
Lemma key_size_ask s : effects (dev s) = [] →
  on_dev (ask supports_read_encryption_key_size) s = Ret (can_read_key_size s) s.
Proof. intros He. by rewrite ask_keeps_run. Qed.
Definition is_ble_link (s : btu) (handle : Z) : bool := BTM_IsBleConnection (calls s) handle.

(** What is told when the encryption of a link of the basic rate turns on. *)
Definition encryption_change_spec (p : bytes) : event_spec :=
  let status := u8_at p 0 in let handle := u16_at p 1 in let enable := u8_at p 3 in
  let told := [btm_acl_encrypt_change handle status enable; btm_sec_encrypt_change handle status enable] in
  Some (4%nat, λ s,
    if negb (status =? HCI_SUCCESS) || (enable =? 0) || is_ble_link s handle then
      if status =? HCI_ERR_CONNECTION_TOUT then [smp_cancel_start_encryption_attempt] else told
    else if can_read_key_size s then [btsnd_hcic_read_encryption_key_size handle AfterEncryptionChange] else told).
Definition key_refresh_spec (p : bytes) : event_spec :=
  let status := u8_at p 0 in let handle := u16_at p 1 in
  Some (3%nat, λ s,
    if negb (status =? HCI_SUCCESS) then [btm_sec_encrypt_change handle status 0]
    else if is_ble_link s handle || negb (can_read_key_size s) then [btm_sec_encrypt_change handle HCI_SUCCESS 1]
    else [btsnd_hcic_read_encryption_key_size handle AfterKeyRefresh]).

(** The layout of the events in the Bluetooth core specification. *)
Definition event_table (p : bytes) (len : Z) : list (list Z * event_spec) :=
  [([HCI_INQUIRY_COMP_EVT], reports 1 [btm_process_inq_complete (u8_at p 0) BTM_BR_INQUIRY_MASK]);
   ([HCI_INQUIRY_RESULT_EVT], reports 0 [btm_process_inq_results p len BTM_INQ_RESULT_STANDARD]);
   ([HCI_INQUIRY_RSSI_RESULT_EVT], reports 0 [btm_process_inq_results p len BTM_INQ_RESULT_WITH_RSSI]);
   ([HCI_EXTENDED_INQUIRY_RESULT_EVT], reports 0 [btm_process_inq_results p len BTM_INQ_RESULT_EXTENDED]);
   ([HCI_CONNECTION_COMP_EVT], reports 11 (
      let status := u8_at p 0 in let handle := handle_at p 1 in let bda := bda_at p 3 in
      if len <? 11 then [android_errorWriteLog 141619686]
      else if u8_at p 9 =? HCI_LINK_TYPE_ACL then
        [btm_sec_connected bda handle status (u8_at p 10); l2c_link_hci_conn_comp status handle bda]
      else [btm_sco_connected status (Some bda) handle (Some (mk_esco bda 0 0 0 0 0 0))]));
   ([HCI_CONNECTION_REQUEST_EVT], reports 10 [
      if u8_at p 9 =? HCI_LINK_TYPE_ACL then btm_sec_conn_req (bda_at p 0) (rd_devclass (drop 6 p))
      else btm_sco_conn_req (bda_at p 0) (rd_devclass (drop 6 p)) (u8_at p 9)]);
   ([HCI_DISCONNECTION_COMP_EVT], Some (4%nat, λ s,
      l2c_link_hci_disc_comp (handle_at p 1) (u8_at p 3) ::
      (if l2cap_knows_link (calls s) (handle_at p 1) then [] else [btm_sco_removed (handle_at p 1) (u8_at p 3)]) ++
      [btm_sec_disconnected (handle_at p 1) (u8_at p 3)]));
   ([HCI_AUTHENTICATION_COMP_EVT], reports 3 [btm_sec_auth_complete (u16_at p 1) (u8_at p 0)]);
   ([HCI_RMT_NAME_REQUEST_COMP_EVT], reports 7 [
      btm_process_remote_name (Some (bda_at p 1)) (Some (drop 7 p)) (u16 (len - 7)) (u8_at p 0);
      btm_sec_rmt_name_request_complete (Some (bda_at p 1)) (Some (drop 7 p)) (u8_at p 0)]);
   ([HCI_ENCRYPTION_CHANGE_EVT], encryption_change_spec p);
   ([HCI_ENCRYPTION_KEY_REFRESH_COMP_EVT], key_refresh_spec p);
   ([HCI_READ_RMT_FEATURES_COMP_EVT], reports 0 [btm_read_remote_features_complete p]);
   ([HCI_READ_RMT_EXT_FEATURES_COMP_EVT], reports 3 [
      if u8_at p 0 =? HCI_SUCCESS then btm_read_remote_ext_features_complete p len
      else btm_read_remote_ext_features_failed (u8_at p 0) (u16_at p 1)]);
   ([HCI_READ_RMT_VERSION_COMP_EVT], reports 0 [btm_read_remote_version_complete p]);
   ([HCI_QOS_SETUP_COMP_EVT], reports 21 [btm_qos_setup_complete (u8_at p 0) (u16_at p 1)
      (Some (mk_flow (u8_at p 3) (u8_at p 4) (u32_at p 5) (u32_at p 9) (u32_at p 13) (u32_at p 17)))]);
   ([HCI_COMMAND_COMPLETE_EVT], reports 0 []);
   ([HCI_COMMAND_STATUS_EVT], reports 0 []);
   ([HCI_HARDWARE_ERROR_EVT], None);
   ([HCI_FLUSH_OCCURED_EVT], reports 0 []);
   ([HCI_ROLE_CHANGE_EVT], reports 8 [
      btm_blacklist_role_change_device (bda_at p 1) (u8_at p 0);
      l2c_link_role_changed (Some (bda_at p 1)) (u8_at p 7) (u8_at p 0);
      btm_acl_role_changed (u8_at p 0) (bda_at p 1) (u8_at p 7)]);
   ([HCI_NUM_COMPL_DATA_PKTS_EVT], reports 0 [l2c_link_process_num_completed_pkts p len]);
   ([HCI_MODE_CHANGE_EVT], reports 6 ([
      btm_sco_chk_pend_unpark (u8_at p 0) (u16_at p 1);
      btm_pm_proc_mode_change (u8_at p 0) (u16_at p 1) (u8_at p 3) (u16_at p 4)] ++
      if HID_DEV_INCLUDED && HID_DEV_PM_INCLUDED then [hidd_pm_proc_mode_change (u8_at p 0) (u8_at p 3) (u16_at p 4)]
      else []));
   ([HCI_PIN_CODE_REQUEST_EVT], reports 6 [l2c_pin_code_request (bda_at p 0); btm_sec_pin_code_request (bda_at p 0)]);
   ([HCI_LINK_KEY_REQUEST_EVT], reports 6 [btm_sec_link_key_request (bda_at p 0)]);
   ([HCI_LINK_KEY_NOTIFICATION_EVT], reports 23 [
      btm_sec_link_key_notification (bda_at p 0) (rd_array16 (drop 6 p)) (u8_at p 22)]);
   ([HCI_LOOPBACK_COMMAND_EVT], reports 0 []);
   ([HCI_DATA_BUF_OVERFLOW_EVT], reports 0 []);
   ([HCI_MAX_SLOTS_CHANGED_EVT], reports 0 []);
   ([HCI_READ_CLOCK_OFF_COMP_EVT], reports 5 (
      if u8_at p 0 =? HCI_SUCCESS then
        [btm_process_clk_off_comp_evt (handle_at p 1) (u16_at p 3); btm_sec_update_clock_offset (handle_at p 1) (u16_at p 3)]
      else []));
   ([HCI_CONN_PKT_TYPE_CHANGE_EVT], reports 0 []);
   ([HCI_QOS_VIOLATION_EVT], reports 2 [l2c_link_hci_qos_violation (handle_at p 0)]);
   ([HCI_PAGE_SCAN_MODE_CHANGE_EVT], reports 0 []);
   ([HCI_PAGE_SCAN_REP_MODE_CHNG_EVT], reports 0 []);
   ([HCI_ESCO_CONNECTION_COMP_EVT], reports 17 [
      btm_sco_connected (u8_at p 0) (Some (bda_at p 3)) (handle_at p 1)
        (Some (mk_esco (bda_at p 3) (u8_at p 9) (u8_at p 10) (u8_at p 11) (u16_at p 12) (u16_at p 14) (u8_at p 16)))]);
   ([HCI_ESCO_CONNECTION_CHANGED_EVT], reports 9 [
      btm_esco_proc_conn_chg (u8_at p 0) (handle_at p 1) (u8_at p 3) (u8_at p 4) (u16_at p 5) (u16_at p 7)])] ++
  when_included BTM_SSR_INCLUDED [([HCI_SNIFF_SUB_RATE_EVT], reports 0 [btm_pm_proc_ssr_evt p len])] ++
  [([HCI_RMT_HOST_SUP_FEAT_NOTIFY_EVT], reports 0 [btm_sec_rmt_host_support_feat_evt p]);
   ([HCI_IO_CAPABILITY_REQUEST_EVT], reports 6 [btm_io_capabilities_req (bda_at p 0)]);
   ([HCI_IO_CAPABILITY_RESPONSE_EVT], reports 0 [btm_io_capabilities_rsp p]);
   ([HCI_USER_CONFIRMATION_REQUEST_EVT], reports 0 [btm_proc_sp_req_evt BTM_SP_CFM_REQ_EVT p]);
   ([HCI_USER_PASSKEY_REQUEST_EVT], reports 0 [btm_proc_sp_req_evt BTM_SP_KEY_REQ_EVT p]);
   ([HCI_REMOTE_OOB_DATA_REQUEST_EVT], reports 0 [btm_rem_oob_req p]);
   ([HCI_SIMPLE_PAIRING_COMPLETE_EVT], reports 0 [btm_simple_pair_complete p]);
   ([HCI_USER_PASSKEY_NOTIFY_EVT], reports 0 [btm_proc_sp_req_evt BTM_SP_KEY_NOTIF_EVT p]);
   ([HCI_KEYPRESS_NOTIFY_EVT], reports 0 [btm_keypress_notif_evt p])] ++
  when_included L2CAP_NON_FLUSHABLE_PB_INCLUDED [([HCI_ENHANCED_FLUSH_COMPLETE_EVT], reports 0 [])] ++
  [([HCI_BLE_EVENT], None); ([HCI_VENDOR_SPECIFIC_EVT], None)].

(** [m] does what the entry says wherever the parameters are long enough. *)
Definition refines (p : bytes) (m : M btu unit) (e : event_spec) : Prop :=
  match e with
  | Some (n, cs) => ∀ s, effects (dev s) = [] → (n ≤ length p)%nat → m s = Ret tt (add_calls (cs s) s)
  | None => True
  end.

Lemma encryption_change_refines p : refines p (btu_hcif_encryption_change_evt p) (encryption_change_spec p).
Proof.
  intros s He Hn. cbn beta iota in Hn |- *. unfold btu_hcif_encryption_change_evt, encryption_change_spec. run_event.
  fold (u16_at p 1) (u8_at p (1 + 2)). change (1 + 2)%nat with 3%nat. change (rd8 p) with (u8_at p 0).
  fold (is_ble_link s (u16_at p 1)).
  destruct (_ || is_ble_link s _).
  - destruct (_ =? HCI_ERR_CONNECTION_TOUT); [done|]. by run_event.
  - unfold mbind at 1, M_bind at 1. rewrite key_size_ask by done.
    destruct (can_read_key_size s); [done|]. cbn [negb]. by run_event.
Qed.

Lemma key_refresh_refines p : refines p (btu_hcif_encryption_key_refresh_cmpl_evt p) (key_refresh_spec p).
Proof.
  intros s He Hn. unfold btu_hcif_encryption_key_refresh_cmpl_evt, key_refresh_spec. run_event.
  fold (u16_at p 1). change (rd8 p) with (u8_at p 0). fold (is_ble_link s (u16_at p 1)).
  destruct (Z.eqb_spec (u8_at p 0) HCI_SUCCESS) as [->|?]; cbn [negb orb]; [|by run_event].
  destruct (is_ble_link s _); cbn [negb orb]; [by run_event|].
  unfold mbind at 1, M_bind at 1. rewrite key_size_ask by done. by destruct (can_read_key_size s).
Qed.

(** One handler against its entry: run it, splitting where it branches. *)
Ltac refine_entry :=
  split; [reflexivity|]; cbn [snd]; unfold reports, refines;
  first
    [ exact I
    | apply encryption_change_refines
    | apply key_refresh_refines
    | intros s He Hn; cbn beta iota in Hn |- *;
      cbv beta delta [btu_hcif_inquiry_comp_evt btu_hcif_connection_comp_evt btu_hcif_connection_request_evt
        btu_hcif_disconnection_comp_evt btu_hcif_authentication_comp_evt btu_hcif_rmt_name_request_comp_evt
        btu_hcif_read_rmt_ext_features_comp_evt btu_hcif_qos_setup_comp_evt btu_hcif_role_change_evt
        btu_hcif_mode_change_evt btu_hcif_pin_code_request_evt btu_hcif_link_key_request_evt
        btu_hcif_link_key_notification_evt btu_hcif_read_clock_off_comp_evt btu_hcif_qos_violation_evt
        btu_hcif_esco_connection_comp_evt btu_hcif_esco_connection_chg_evt btu_hcif_io_cap_request_evt];
      rewrite ?add_calls_nil; first [reflexivity | run_event; first [reflexivity |
        repeat (split_branch; cbn [negb]; run_event); rewrite ?add_calls_nil; reflexivity]] ].

Lemma events_refine p len :
  Forall2 (λ x y, x.1 = y.1 ∧ refines p x.2 y.2) (event_cases p len) (event_table p len).
Proof.
  unfold event_cases, event_table.
  apply Forall2_app; [repeat (apply Forall2_cons; split; [refine_entry|]); apply Forall2_nil_2|].
  apply Forall2_app; [apply when_included_rel; apply Forall2_cons; split; [refine_entry|apply Forall2_nil_2]|].
  apply Forall2_app; [repeat (apply Forall2_cons; split; [refine_entry|]); apply Forall2_nil_2|].
  apply Forall2_app; [apply when_included_rel; apply Forall2_cons; split; [refine_entry|apply Forall2_nil_2]|].
  repeat (apply Forall2_cons; split; [refine_entry|]); apply Forall2_nil_2.
Qed.

(** ** Metrics *)

(** One record for each event that is logged. *)
Definition metrics_table (code : Z) (p : bytes) : list (list Z * event_spec) :=
  let pairing bda handle status value :=
    LogClassicPairingEvent bda handle CMD_UNKNOWN code status STATUS_UNKNOWN value in
  let link bda handle direction link_type status reason :=
    LogLinkLayerConnectionEvent bda handle direction link_type CMD_UNKNOWN code BLE_EVT_UNKNOWN status reason in
  [([HCI_IO_CAPABILITY_REQUEST_EVT; HCI_IO_CAPABILITY_RESPONSE_EVT; HCI_LINK_KEY_REQUEST_EVT;
    HCI_LINK_KEY_NOTIFICATION_EVT; HCI_USER_PASSKEY_REQUEST_EVT; HCI_USER_PASSKEY_NOTIFY_EVT;
    HCI_USER_CONFIRMATION_REQUEST_EVT; HCI_KEYPRESS_NOTIFY_EVT; HCI_REMOTE_OOB_DATA_REQUEST_EVT],
    reports 6 [pairing (bda_at p 0) kUnknownConnectionHandle STATUS_UNKNOWN 0]);
   ([HCI_SIMPLE_PAIRING_COMPLETE_EVT; HCI_RMT_NAME_REQUEST_COMP_EVT],
    reports 7 [pairing (bda_at p 1) kUnknownConnectionHandle (u8_at p 0) 0]);
   ([HCI_AUTHENTICATION_COMP_EVT], reports 3 [pairing kEmpty (handle_at p 1) (u8_at p 0) 0]);
   ([HCI_ENCRYPTION_CHANGE_EVT], reports 4 [pairing kEmpty (u16_at p 1) (u8_at p 0) (u8_at p 3)]);
   ([HCI_CONNECTION_COMP_EVT],
    reports 10 [link (Some (bda_at p 3)) (handle_at p 1) DIRECTION_UNKNOWN (u8_at p 9) (u8_at p 0) STATUS_UNKNOWN]);
   ([HCI_CONNECTION_REQUEST_EVT],
    reports 10 [link (Some (bda_at p 0)) kUnknownConnectionHandle DIRECTION_INCOMING (u8_at p 9)
      STATUS_UNKNOWN STATUS_UNKNOWN]);
   ([HCI_DISCONNECTION_COMP_EVT],
    reports 4 [link None (handle_at p 1) DIRECTION_UNKNOWN LINK_TYPE_UNKNOWN (u8_at p 0) (u8_at p 3)]);
   ([HCI_ESCO_CONNECTION_COMP_EVT],
    reports 10 [link (Some (bda_at p 3)) (handle_at p 1) DIRECTION_UNKNOWN (u8_at p 9) (u8_at p 0) STATUS_UNKNOWN]);
   ([HCI_ESCO_CONNECTION_CHANGED_EVT],
    reports 3 [link None (handle_at p 1) DIRECTION_UNKNOWN LINK_TYPE_UNKNOWN (u8_at p 0) STATUS_UNKNOWN])].

Lemma metrics_refine code p :
  Forall2 (λ x y, x.1 = y.1 ∧ refines p x.2 y.2) (event_metrics_cases code p) (metrics_table code p).
Proof.
  unfold event_metrics_cases, metrics_table, log_pairing, log_link.
  repeat (apply Forall2_cons; split; [refine_entry|]); apply Forall2_nil_2.
Qed.

Definition event_entry (code : Z) (p : bytes) (len : Z) : event_spec :=
  switch code (event_table p len) (reports 0 []).
Definition metrics_entry (code : Z) (p : bytes) : event_spec := switch code (metrics_table code p) (reports 0 []).

Lemma nothing_refines p : refines p (mret tt) (reports 0 []).
Proof. intros s _ _. cbn. by rewrite add_calls_nil. Qed.
Lemma event_entry_refines code p len :
  refines p (switch code (event_cases p len) (mret tt)) (event_entry code p len).
Proof. apply (switch_rel (refines p)); [apply events_refine|apply nothing_refines]. Qed.
Lemma metrics_entry_refines code p : refines p (btu_hcif_log_event_metrics code p) (metrics_entry code p).
Proof. apply (switch_rel (refines p)); [apply metrics_refine|apply nothing_refines]. Qed.

(** ** Sizes *)

(** The fixed part of the events in the Bluetooth core specification. *)
Definition core_sizes : list (Z * Z) := [
  (HCI_INQUIRY_COMP_EVT, 1); (HCI_CONNECTION_COMP_EVT, 11); (HCI_CONNECTION_REQUEST_EVT, 10);
  (HCI_DISCONNECTION_COMP_EVT, 4); (HCI_AUTHENTICATION_COMP_EVT, 3); (HCI_RMT_NAME_REQUEST_COMP_EVT, 255);
  (HCI_ENCRYPTION_CHANGE_EVT, 4); (HCI_ENCRYPTION_KEY_REFRESH_COMP_EVT, 3);
  (HCI_READ_RMT_EXT_FEATURES_COMP_EVT, 13); (HCI_QOS_SETUP_COMP_EVT, 21); (HCI_HARDWARE_ERROR_EVT, 1);
  (HCI_ROLE_CHANGE_EVT, 8); (HCI_MODE_CHANGE_EVT, 6); (HCI_PIN_CODE_REQUEST_EVT, 6); (HCI_LINK_KEY_REQUEST_EVT, 6);
  (HCI_LINK_KEY_NOTIFICATION_EVT, 23); (HCI_READ_CLOCK_OFF_COMP_EVT, 5); (HCI_QOS_VIOLATION_EVT, 2);
  (HCI_ESCO_CONNECTION_COMP_EVT, 17); (HCI_ESCO_CONNECTION_CHANGED_EVT, 9); (HCI_IO_CAPABILITY_REQUEST_EVT, 6);
  (HCI_IO_CAPABILITY_RESPONSE_EVT, 9); (HCI_USER_CONFIRMATION_REQUEST_EVT, 10); (HCI_USER_PASSKEY_REQUEST_EVT, 6);
  (HCI_REMOTE_OOB_DATA_REQUEST_EVT, 6); (HCI_SIMPLE_PAIRING_COMPLETE_EVT, 7); (HCI_USER_PASSKEY_NOTIFY_EVT, 10);
  (HCI_KEYPRESS_NOTIFY_EVT, 7); (HCI_BLE_EVENT, 1)].

(** The table has an entry for every code, none below the fixed part of its event. *)
Class BtuEventsOk : Prop := {
  minimum_total : length hci_event_parameters_minimum_length = 256%nat;
  minimum_enough : Forall (λ '(code, n), ∀ m,
    hci_event_parameters_minimum_length !! Z.to_nat code = Some m → n ≤ m) core_sizes;
  (* the labels of a [switch] are distinct, the compiler sees to it *)
  event_labels : NoDup (labels (event_cases [] 0));
  ble_labels : NoDup (labels (ble_cases [] 0))
}.

(** The shortest length an event is accepted with. *)
Definition minimum_of (code : Z) : option Z := hci_event_parameters_minimum_length !! Z.to_nat code.
Definition needs (e : event_spec) : nat := match e with Some (n, _) => n | None => 0 end.

Context `{!BtuEventsOk}.

Lemma core_minimum code n m : (code, n) ∈ core_sizes → minimum_of code = Some m → n ≤ m.
Proof. intros Hin. exact (proj1 (Forall_forall _ _) minimum_enough _ Hin m). Qed.

(** A case asks for no more than its events are sure to have. *)
Definition fits (m : Z) (e : event_spec) : Prop := needs e = 0%nat ∨ Z.of_nat (needs e) ≤ m.
Definition case_fits (c : list Z * event_spec) : Prop :=
  Forall (λ code, ∀ m, minimum_of code = Some m → fits m c.2) c.1.

Lemma switch_fits code cases m : Forall case_fits cases → minimum_of code = Some m →
  fits m (switch code cases (reports 0 [])).
Proof.
  intros Hc Hm. apply (switch_ind (fits m)); [|by left]. intros ls e Hin Hl.
  rewrite Forall_forall in Hc. pose proof (Hc _ Hin) as He. unfold case_fits in He.
  rewrite Forall_forall in He. by apply (He code).
Qed.

Ltac listed := first [apply list_elem_of_here | apply list_elem_of_further; listed].
Ltac case_fits :=
  unfold case_fits; cbn [fst snd]; repeat (apply Forall_cons; split); try (apply Forall_nil; exact I);
  intros m Hm; first
    [ left; reflexivity
    | right; eapply Z.le_trans; [|eapply core_minimum; [|exact Hm]; unfold core_sizes; listed]; cbn; lia ].

Lemma events_fit p len : Forall case_fits (event_table p len).
Proof.
  unfold event_table. rewrite !Forall_app. split_and!;
    try (unfold when_included; match goal with |- Forall _ (if ?b then _ else _) => destruct b end);
    repeat (apply Forall_cons; split; [case_fits|]); by apply Forall_nil.
Qed.
Lemma metrics_fit code p : Forall case_fits (metrics_table code p).
Proof. unfold metrics_table. repeat (apply Forall_cons; split; [case_fits|]); by apply Forall_nil. Qed.

(** ** Packets *)

(** The memory of an event, its code, its length and its parameters. *)
Definition packet (m : buf) : bytes := drop (b_offset m) (b_data m).
Definition code_of (m : buf) : Z := u8_at (packet m) 0.
Definition len_of (m : buf) : Z := u8_at (packet m) 1.
Definition params_of (m : buf) : bytes := drop 2 (packet m).

(** The buffer holds all the event says it has. *)
Definition whole (m : buf) : Prop := (2 ≤ length (packet m))%nat ∧ len_of m ≤ Z.of_nat (length (params_of m)).
Definition accepted (m : buf) : Prop := ∃ minimum, minimum_of (code_of m) = Some minimum ∧ minimum ≤ len_of m.

Definition entry_calls (e : event_spec) (s : btu) : list call := match e with Some (_, cs) => cs s | None => [] end.
Definition metrics_calls (m : buf) (s : btu) : list call := entry_calls (metrics_entry (code_of m) (params_of m)) s.

Lemma refines_run p h e s : refines p h e → is_Some e → effects (dev s) = [] → (needs e ≤ length p)%nat →
  h s = Ret tt (add_calls (entry_calls e s) s).
Proof. destruct e as [[n cs]|]; [|by intros _ []]. intros Hr _. apply Hr. Qed.

Lemma fits_whole m e minimum : whole m → minimum ≤ len_of m → fits minimum e → (needs e ≤ length (params_of m))%nat.
Proof. intros [_ Hw] Hm [->|?]; lia. Qed.

Lemma metrics_entry_some code p : is_Some (metrics_entry code p).
Proof.
  unfold metrics_entry. apply (switch_ind is_Some); [|by eexists].
  intros ls e Hin _. unfold metrics_table in Hin. set_unfold. destruct_or!; simplify_eq; by eexists.
Qed.

Context `{!BtMacrosOk}.

Lemma minimum_some m : is_Some (minimum_of (code_of m)).
Proof.
  apply lookup_lt_is_Some_2. rewrite minimum_total. pose proof (rd8_bound (drop 0 (packet m))) as Hb.
  unfold code_of, u8_at. lia.
Qed.

(** What is left after the header and the metrics. *)
Lemma process_event_run m s : whole m → effects (dev s) = [] →
  btu_hcif_process_event m s =
  match minimum_of (code_of m) with
  | None => Undefined
  | Some minimum =>
      if len_of m <? minimum then Ret tt s else
      switch (code_of m) (event_cases (params_of m) (len_of m)) (mret tt) (add_calls (metrics_calls m s) s)
  end.
Proof.
  intros Hw He. pose proof Hw as [Hlen _]. unfold btu_hcif_process_event. fold (packet m). run_event.
  change (rd8 (packet m)) with (code_of m). change (rd8 (drop 1 (packet m))) with (len_of m).
  change (drop (1 + 1) (packet m)) with (params_of m). fold (minimum_of (code_of m)).
  destruct (minimum_of (code_of m)) as [minimum|] eqn:Em; [|done].
  destruct (Z.ltb_spec (len_of m) minimum); [done|]. unfold mbind, M_bind.
  rewrite (refines_run _ _ _ s (metrics_entry_refines _ _)); [done|apply metrics_entry_some|done|].
  eapply fits_whole; [done..|]. apply switch_fits; [apply metrics_fit|done].
Qed.
End spec.
