(* ===== verification/BtuEventSpec.v ===== *)
(** * Bluetooth: LE events, and events as a whole

    The table of accepted lengths says nothing of the events inside an LE event, so
    a handler of those reads past a short one.  What every event does, by a reference
    decoder; which are handled without reading beyond them; and what a hardware error
    does. *)

From S2P Require Import Prelude CMonad BtTypes HciParser Controller HciLayer BtmDev BtmDevSpec BtuDefs.
From S2P Require Import BtuHcif BtuHcifSpec.

Section spec.
Context `{!BtMacros, !HcicSizes, !HciDefs, !FeatureBits, !BtConfig, !HciLayerDefs, !HciPlatform, !LeOpcodes,
  !BtmFeatureBits, !BtmMasks, !BtmConfig, !BtmModules,
  !BtuModules, !BtuMacros, !BtuEvents, !BtuOpcodes, !BtuConfig}.
Implicit Types s : btu.

(** [p]: behind the subevent code; the length change is up to the controller. *)
Definition ble_table (p : bytes) (len : Z) : list (list Z * event_spec) :=
  [([HCI_BLE_ADV_PKT_RPT_EVT], reports 0 [btm_ble_process_adv_pkt (u8 (len - 1)) p]);
   ([HCI_BLE_CONN_COMPLETE_EVT], reports 0 [btm_ble_conn_complete p len false]);
   ([HCI_BLE_LL_CONN_PARAM_UPD_EVT], reports 9 [
      l2cble_process_conn_update_evt (u16_at p 1) (u8_at p 0) (u16_at p 3) (u16_at p 5) (u16_at p 7);
      gatt_notify_conn_update (Z.land (u16_at p 1) 0x0FFF) (u16_at p 3) (u16_at p 5) (u16_at p 7) (u8_at p 0)]);
   ([HCI_BLE_READ_REMOTE_FEAT_CMPL_EVT], reports 0 [btm_ble_read_remote_features_complete p]);
   ([HCI_BLE_LTK_REQ_EVT], reports 12 [btm_ble_ltk_request (u16_at p 0) (drop 2 p) (u16_at p 10)])] ++
  when_included BLE_PRIVACY_SPT
    [([HCI_BLE_ENHANCED_CONN_COMPLETE_EVT], reports 0 [btm_ble_conn_complete p len true])] ++
  when_included BLE_LLT_INCLUDED [([HCI_BLE_RC_PARAM_REQ_EVT], reports 10 [
    l2cble_process_rc_param_request_evt (u16_at p 0) (u16_at p 2) (u16_at p 4) (u16_at p 6) (u16_at p 8)])] ++
  [([HCI_BLE_DATA_LENGTH_CHANGE_EVT], None);
   ([HCI_BLE_PHY_UPDATE_COMPLETE_EVT], reports 0 [btm_ble_process_phy_update_pkt (u8 (len - 1)) p]);
   ([HCI_LE_EXTENDED_ADVERTISING_REPORT_EVT], reports 0 [btm_ble_process_ext_adv_pkt len p]);
   ([HCI_LE_ADVERTISING_SET_TERMINATED_EVT], reports 0 [btm_le_on_advertising_set_terminated p len])].

(** As [refines], and undefined where the parameters end too early. *)
Definition decides (p : bytes) (m : M btu unit) (e : event_spec) : Prop :=
  match e with
  | Some (n, cs) => ∀ s,
      m s = if bool_decide (n ≤ length p)%nat then Ret tt (add_calls (cs s) s) else Undefined
  | None => True
  end.

Ltac decide_entry :=
  split; [reflexivity|]; cbn [snd]; unfold reports, decides;
  first
    [ exact I
    | intros s; case_bool_decide;
      cbv beta delta [btu_ble_ll_conn_complete_evt btu_ble_ll_conn_param_upd_evt btu_ble_proc_ltk_req btu_ble_rc_param_req_evt];
      [run_event; offsets; rewrite ?drop_drop; reflexivity|run_or_stop] ].

Lemma ble_decided p len :
  Forall2 (λ x y, x.1 = y.1 ∧ decides p x.2 y.2) (ble_cases p len) (ble_table p len).
Proof.
  unfold ble_cases, ble_table.
  apply Forall2_app; [repeat (apply Forall2_cons; split; [decide_entry|]); apply Forall2_nil_2|].
  apply Forall2_app; [apply when_included_rel; apply Forall2_cons; split; [decide_entry|apply Forall2_nil_2]|].
  apply Forall2_app; [apply when_included_rel; apply Forall2_cons; split; [decide_entry|apply Forall2_nil_2]|].
  repeat (apply Forall2_cons; split; [decide_entry|]); apply Forall2_nil_2.
Qed.

Definition ble_entry (sub : Z) (p : bytes) (len : Z) : event_spec := switch sub (ble_table p len) (reports 0 []).
Lemma ble_entry_decides sub p len : decides p (switch sub (ble_cases p len) (mret tt)) (ble_entry sub p len).
Proof. apply (switch_rel (decides p)); [apply ble_decided|]. intros s. cbn. by rewrite add_calls_nil. Qed.

(** What becomes of a change of the data length. *)
Definition data_length_outcome (p : bytes) (len : Z) (s : btu) : outcome btu unit :=
  let c := controller (dev s) in
  if negb (readable c) then Exit ABORTED s
  else if negb (ble_supported c && HCI_LE_DATA_LEN_EXT_SUPPORTED (features_ble c)) || (len <? 8) then Ret tt s
  else if bool_decide (8 ≤ length p)%nat then
    Ret tt (add_calls [l2cble_process_data_length_change_event (u16_at p 0) (u16_at p 2) (u16_at p 6)] s)
  else Undefined.

Lemma data_length_run p len s : effects (dev s) = [] →
  btu_ble_data_length_change_evt p len s = data_length_outcome p len s.
Proof.
  intros He. unfold btu_ble_data_length_change_evt, data_length_outcome, mbind at 1, M_bind at 1.
  assert (∀ c, supports_ble_packet_extension c =
    if readable c then Ret (ble_supported c && HCI_LE_DATA_LEN_EXT_SUPPORTED (features_ble c)) c else Exit ABORTED c) as Ec.
  { intros c. unfold supports_ble_packet_extension, when_ble, when_readable, check, get, mbind, M_bind.
    destruct (readable c); [|done]. cbn. by destruct (ble_supported c). }
  rewrite ask_keeps_run; [|done|intros c; rewrite Ec; by destruct (readable c)]. rewrite Ec.
  destruct (readable _); [|done]. cbn. destruct (_ && _); cbn; [|done]. destruct (len <? 8); [done|].
  case_bool_decide; [|run_or_stop].
  run_event. offsets. by rewrite ?drop_drop.
Qed.

Context `{!BtMacrosOk, !BtuEventsOk}.

Definition sub_code (m : buf) : Z := u8_at (params_of m) 0.
Definition sub_params (m : buf) : bytes := drop 1 (params_of m).

Lemma event_labels_of p len : labels (event_cases p len) = labels (event_cases [] 0).
Proof. unfold event_cases, when_included. by destruct BTM_SSR_INCLUDED, L2CAP_NON_FLUSHABLE_PB_INCLUDED. Qed.
Lemma ble_labels_of p len : labels (ble_cases p len) = labels (ble_cases [] 0).
Proof. unfold ble_cases, when_included. by destruct BLE_PRIVACY_SPT, BLE_LLT_INCLUDED. Qed.

Lemma ble_table_labels p len : labels (ble_table p len) = labels (ble_cases [] 0).
Proof. unfold ble_table, ble_cases, when_included. by destruct BLE_PRIVACY_SPT, BLE_LLT_INCLUDED. Qed.

(** The label of an LE event is none of those that are logged. *)
Ltac listed_somewhere :=
  lazymatch goal with
  | |- _ ∨ _ => first [left; listed_somewhere|right; listed_somewhere]
  | |- ?x ∈ ?x :: _ => apply list_elem_of_here
  | |- _ ∈ _ :: _ => apply list_elem_of_further; listed_somewhere
  end.
Lemma ble_not_logged p : HCI_BLE_EVENT ∉ labels (event_metrics_cases HCI_BLE_EVENT p).
Proof.
  pose proof event_labels as Hn. unfold event_cases, labels in Hn.
  rewrite !app_assoc, fmap_app, concat_app in Hn. apply NoDup_app in Hn as (_ & Hd & _).
  intros Hin. apply (Hd HCI_BLE_EVENT); [|by left].
  rewrite !fmap_app, !concat_app, !elem_of_app. unfold labels in Hin. cbn in Hin |- *.
  repeat (apply elem_of_cons in Hin as [->|Hin]; [listed_somewhere|]). by apply not_elem_of_nil in Hin.
Qed.

Lemma metrics_of_le m s : code_of m = HCI_BLE_EVENT → metrics_calls m s = [].
Proof.
  intros Hc. unfold metrics_calls, metrics_entry. rewrite Hc, switch_default; [done|].
  intros Hin. apply (ble_not_logged (params_of m)). exact Hin.
Qed.

Lemma process_ble_run m s : whole m → accepted m → code_of m = HCI_BLE_EVENT → effects (dev s) = [] →
  btu_hcif_process_event m s = switch (sub_code m) (ble_cases (sub_params m) (len_of m)) (mret tt) s.
Proof.
  intros Hw (minimum & Em & Hl) Hc He. rewrite process_event_run by done. rewrite Em.
  destruct (Z.ltb_spec (len_of m) minimum); [lia|].
  rewrite metrics_of_le, add_calls_nil by done. rewrite (switch_case _ _ _ [HCI_BLE_EVENT] (ble_event (params_of m) (len_of m))).
  - unfold ble_event. assert (1 ≤ minimum).
    { eapply core_minimum; [|exact Em]. rewrite Hc. unfold core_sizes. set_solver. }
    unfold STREAM_TO_UINT8. rewrite bind_stream by (destruct Hw; lia). done.
  - rewrite event_labels_of. apply event_labels.
  - unfold event_cases. rewrite !elem_of_app. do 4 right. by left.
  - rewrite Hc. by left.
Qed.

Lemma le_events_run m s : whole m → accepted m → code_of m = HCI_BLE_EVENT → effects (dev s) = [] →
  (∀ n cs, ble_entry (sub_code m) (sub_params m) (len_of m) = Some (n, cs) →
    btu_hcif_process_event m s =
    if bool_decide (n ≤ length (sub_params m))%nat then Ret tt (add_calls (cs s) s) else Undefined) ∧
  (sub_code m = HCI_BLE_DATA_LENGTH_CHANGE_EVT →
    btu_hcif_process_event m s = data_length_outcome (sub_params m) (len_of m) s).
Proof.
  intros Hw Ha Hc He. rewrite process_ble_run by done. split.
  - intros n cs E. pose proof (ble_entry_decides (sub_code m) (sub_params m) (len_of m)) as Hd.
    rewrite E in Hd. apply Hd.
  - intros Es. rewrite (switch_case _ _ _ [HCI_BLE_DATA_LENGTH_CHANGE_EVT]
      (btu_ble_data_length_change_evt (sub_params m) (len_of m))).
    + by apply data_length_run.
    + rewrite ble_labels_of. apply ble_labels.
    + unfold ble_cases. rewrite !elem_of_app. do 3 right. by left.
    + rewrite Es. by left.
Qed.

(** An LE event makes the calls of its layout if its parameters are long enough, and
    reads behind them if not; a change of the data length ends the process while the
    controller is not ready, and needs one byte more than the handler asks for. *)
Theorem le_events_exact m s : whole m → accepted m → code_of m = HCI_BLE_EVENT → effects (dev s) = [] →
  (∀ n cs, ble_entry (sub_code m) (sub_params m) (len_of m) = Some (n, cs) →
    btu_hcif_process_event m s =
    if bool_decide (n ≤ length (sub_params m))%nat then Ret tt (add_calls (cs s) s) else Undefined) ∧
  (sub_code m = HCI_BLE_DATA_LENGTH_CHANGE_EVT →
    btu_hcif_process_event m s = data_length_outcome (sub_params m) (len_of m) s).
Proof. apply le_events_run. Qed.

(** A connection update or a request for a long term key that the table lets
    through although it is short, and a change of the data length of 8 bytes, which the
    handler itself lets through, are read beyond the event. *)
Theorem short_le_events_overread m s : whole m → accepted m → code_of m = HCI_BLE_EVENT → effects (dev s) = [] →
  Z.of_nat (length (params_of m)) = len_of m →
  (sub_code m = HCI_BLE_LL_CONN_PARAM_UPD_EVT ∧ len_of m < 10) ∨
  (sub_code m = HCI_BLE_LTK_REQ_EVT ∧ len_of m < 13) ∨
  (sub_code m = HCI_BLE_DATA_LENGTH_CHANGE_EVT ∧ len_of m = 8 ∧ readable (controller (dev s)) = true ∧
    ble_supported (controller (dev s)) = true ∧ HCI_LE_DATA_LEN_EXT_SUPPORTED (features_ble (controller (dev s))) = true) →
  btu_hcif_process_event m s = Undefined.
Proof.
  intros Hw Ha Hc He Hl Hs. destruct (le_events_run m s Hw Ha Hc He) as [Hx Hd].
  assert (length (sub_params m) = length (params_of m) - 1)%nat as El by apply length_drop.
  assert (∀ ls n cs, (ls, reports n cs) ∈ ble_table (sub_params m) (len_of m) → sub_code m ∈ ls →
    (length (sub_params m) < n)%nat → btu_hcif_process_event m s = Undefined) as Hcase.
  { intros ls n cs Hin Hsub Hn. rewrite (Hx n (λ _, cs)); [by rewrite bool_decide_eq_false_2 by lia|].
    apply (switch_case _ _ _ ls); [|done..]. rewrite ble_table_labels. apply ble_labels. }
  destruct Hs as [[E Hn]|[[E Hn]|(E & Hn & E1 & E2 & E3)]].
  - eapply Hcase; [|rewrite E; by left|]; [do 2 apply list_elem_of_further; apply list_elem_of_here|lia].
  - eapply Hcase; [|rewrite E; by left|]; [do 4 apply list_elem_of_further; apply list_elem_of_here|lia].
  - rewrite Hd by done. unfold data_length_outcome. rewrite E1, E2, E3, Hn. cbn.
    by rewrite bool_decide_eq_false_2 by lia.
Qed.
End spec.

(** * Events as a whole *)

Section spec.
Context `{!BtMacros, !HcicSizes, !HciDefs, !FeatureBits, !BtConfig, !HciLayerDefs, !HciPlatform, !LeOpcodes,
  !BtmFeatureBits, !BtmMasks, !BtmConfig, !BtmModules,
  !BtuModules, !BtuMacros, !BtuEvents, !BtuOpcodes, !BtuConfig, !BtMacrosOk, !BtuEventsOk}.
Implicit Types s : btu.

(** ** The device manager under events *)

(** What an event may change: the device manager, except the controller, and the calls. *)
Definition event_step (s s' : btu) : Prop :=
  layer s' = layer s ∧ wrappers s' = wrappers s ∧ main_tasks s' = main_tasks s ∧
  effects (dev s') = [] ∧ controller (dev s') = controller (dev s) ∧
  calls s `prefix_of` calls s'.

Lemma event_step_add cs s : effects (dev s) = [] → event_step s (add_calls cs s).
Proof. intros He. split_and!; try done. by exists cs. Qed.

Lemma event_step_trans s1 s2 s3 : event_step s1 s2 → event_step s2 s3 → event_step s1 s3.
Proof.
  intros (A1 & A2 & A3 & A4 & A5 & A6) (B1 & B2 & B3 & B4 & B5 & B6).
  split_and!; try congruence. by trans (calls s2).
Qed.

(** The device manager only calls, as seen from here. *)
Definition dev_calls (cs : list call) : Prop := Forall (λ c, ∃ e, c = Dev e) cs.

Lemma on_dev_run (m : M btm unit) d s : m (set_effects [] (dev s)) = Ret tt d →
  on_dev m s = Ret tt (add_calls (Dev <$> effects d) (set_dev (set_effects [] d) s)).
Proof. intros E. unfold on_dev. by rewrite E. Qed.
Lemma on_dev_step d s : controller d = controller (dev s) → 
  event_step s (add_calls (Dev <$> effects d) (set_dev (set_effects [] d) s)).
Proof. intros Hc. split_and!; try done. by exists (Dev <$> effects d). Qed.
Lemma dev_calls_fmap es : dev_calls (Dev <$> es).
Proof. apply Forall_fmap, Forall_forall. intros e _. by exists e. Qed.

(** *** A hardware error *)

(** The reset, from the point of view of the clients. *)
Definition reset_effects (d : btm) : list beffect :=
  [AclDeviceDown; InqDbReset] ++
  ((λ cb, CallName cb None) <$> option_list (p_rln_cmpl_cb d)) ++
  ((λ cb, CallRssi cb BTM_DEV_RESET) <$> option_list (p_rssi_cmpl_cb d)) ++
  ((λ cb, CallFailedContact cb BTM_DEV_RESET) <$> option_list (p_failed_contact_counter_cmpl_cb d)) ++
  ((λ cb, CallFlushTimeout cb BTM_DEV_RESET) <$> option_list (p_automatic_flush_timeout_cmpl_cb d)) ++
  [StartController].

Lemma reset_state_effects d : effects (reset_state d) = effects d ++ reset_effects d ∧
  controller (reset_state d) = controller d.
Proof.
  unfold reset_state, reset_effects, flushed, told, option_list. destruct d. cbn.
  destruct p_rln_cmpl_cb, p_rssi_cmpl_cb, p_failed_contact_counter_cmpl_cb, p_automatic_flush_timeout_cmpl_cb;
    cbn; rewrite <- ?app_assoc; done.
Qed.

Definition hardware_error_calls (d : btm) : list beffect :=
  ((λ cb, CallStatus cb BTM_DEV_STATUS_DOWN) <$> option_list (p_dev_status_cb d)) ++
  (if readable (controller d) then reset_effects d else []).

Lemma report_status_run x d : btm_report_device_status x d =
  Ret tt (set_effects (effects d ++ ((λ cb, CallStatus cb x) <$> option_list (p_dev_status_cb d))) d).
Proof.
  unfold btm_report_device_status, mbind, M_bind, get, tell, modify, option_list.
  destruct d. cbn. by destruct p_dev_status_cb; cbn; rewrite ?app_nil_r.
Qed.

Lemma is_up_run s : effects (dev s) = [] → on_dev BTM_IsDeviceUp s = Ret (readable (controller (dev s))) s.
Proof. intros He. unfold BTM_IsDeviceUp. by rewrite ask_keeps_run. Qed.

Lemma hardware_error_run p s : effects (dev s) = [] → (1 ≤ length p)%nat →
  ∃ d, btu_hcif_hardware_error_evt p s =
    Ret tt (add_calls (Dev <$> hardware_error_calls (dev s)) (set_dev d s)) ∧
    effects d = [] ∧ controller d = controller (dev s) ∧
    d = (if readable (controller (dev s)) then set_effects [] (reset_state (dev s)) else dev s).
Proof.
  intros He Hp. eexists. split; [|split; [|split; [|reflexivity]]].
  - unfold btu_hcif_hardware_error_evt, hardware_error_calls. rewrite bool_decide_eq_true_2 by done.
    cbn [require]. rewrite bind_mret. unfold mbind at 1, M_bind at 1.
    erewrite on_dev_run by apply report_status_run. cbn [effects set_effects app].
    set (es := _ <$> option_list _). unfold mbind, M_bind.
    rewrite is_up_run by done.
    replace (controller (dev (add_calls _ _))) with (controller (dev s)) by done.
    assert (∀ cs, add_calls cs (set_dev (dev s) s) = add_calls cs s) as Es by (intros; by destruct s).
    destruct (readable (controller (dev s))).
    + erewrite on_dev_run by apply device_reset_run. cbn [dev add_calls set_calls set_dev].
      destruct s as [[] ? ? ? ?]. cbn in *. subst effects.
      unfold add_calls, set_calls, set_dev. cbn. rewrite <- app_assoc, <- fmap_app.
      destruct p_rln_cmpl_cb, p_rssi_cmpl_cb, p_failed_contact_counter_cmpl_cb, p_automatic_flush_timeout_cmpl_cb; done.
    + rewrite app_nil_r. destruct s as [[] ? ? ? ?]. cbn in *. by subst effects.
  - destruct (readable _); [done|by rewrite He].
  - destruct (readable _); [|done]. apply (proj2 (reset_state_effects (dev s))).
Qed.

(** *** Which events are up to it *)

Lemma event_entry_none code p len : event_entry code p len = None →
  code = HCI_HARDWARE_ERROR_EVT ∨ code = HCI_BLE_EVENT ∨ code = HCI_VENDOR_SPECIFIC_EVT.
Proof.
  unfold event_entry. apply (switch_ind (λ e, e = None → _)); [|done].
  intros ls e Hin Hc ->. unfold event_table in Hin. rewrite !elem_of_app in Hin.
  assert (∀ b (cs : list (list Z * event_spec)), (ls, None) ∈ when_included b cs → (ls, None) ∈ cs) as Hi.
  { intros [] cs; [done|]. by intros ?%not_elem_of_nil. }
  destruct Hin as [Hin|[Hin|[Hin|[Hin|Hin]]]]; try apply Hi in Hin;
    repeat (apply elem_of_cons in Hin as [[=]|Hin]); try (by apply not_elem_of_nil in Hin); subst;
    apply list_elem_of_singleton in Hc; tauto.
Qed.

Lemma ble_entry_none sub p len : ble_entry sub p len = None → sub = HCI_BLE_DATA_LENGTH_CHANGE_EVT.
Proof.
  unfold ble_entry. apply (switch_ind (λ e, e = None → _)); [|done].
  intros ls e Hin Hc ->. unfold ble_table in Hin. rewrite !elem_of_app in Hin.
  assert (∀ b (cs : list (list Z * event_spec)), (ls, None) ∈ when_included b cs → (ls, None) ∈ cs) as Hi.
  { intros [] cs; [done|]. by intros ?%not_elem_of_nil. }
  destruct Hin as [Hin|[Hin|[Hin|Hin]]]; try apply Hi in Hin;
    repeat (apply elem_of_cons in Hin as [[=]|Hin]); try (by apply not_elem_of_nil in Hin); subst;
    by apply list_elem_of_singleton in Hc.
Qed.

Lemma event_case_run ls h m s : whole m → effects (dev s) = [] → accepted m →
  (ls, h) ∈ event_cases (params_of m) (len_of m) → code_of m ∈ ls →
  btu_hcif_process_event m s = h (add_calls (metrics_calls m s) s).
Proof.
  intros Hw He (minimum & Em & Hl) Hin Hc. rewrite process_event_run by done. rewrite Em.
  destruct (Z.ltb_spec (len_of m) minimum); [lia|].
  rewrite (switch_case _ _ _ ls h); try done. rewrite event_labels_of. apply event_labels.
Qed.

(** An LE event that is as long as its handler needs. *)
Definition le_enough (m : buf) : Prop :=
  (needs (ble_entry (sub_code m) (sub_params m) (len_of m)) ≤ length (sub_params m))%nat ∧
  (sub_code m = HCI_BLE_DATA_LENGTH_CHANGE_EVT → 8 ≤ len_of m → (8 ≤ length (sub_params m))%nat).

(** The run of an event returns, or ends the process where the controller is asked too late. *)
Definition event_outcome (m : buf) (s : btu) (o : outcome btu unit) : Prop :=
  match o with
  | Ret _ s' => event_step s s'
  | Exit _ _ => code_of m = HCI_BLE_EVENT ∧ sub_code m = HCI_BLE_DATA_LENGTH_CHANGE_EVT ∧
      readable (controller (dev s)) = false
  | _ => False
  end.

Lemma len_bound m : 0 ≤ len_of m.
Proof. unfold len_of, u8_at. apply rd8_bound. Qed.

Lemma process_event_outcome m s : whole m → effects (dev s) = [] → (code_of m = HCI_BLE_EVENT → le_enough m) →
  event_outcome m s (btu_hcif_process_event m s).
Proof.
  intros Hw He Hle. destruct (minimum_some m) as [minimum Em].
  destruct (Z.ltb_spec (len_of m) minimum) as [Hlt|Hge].
  { rewrite process_event_run, Em by done. rewrite (proj2 (Z.ltb_lt _ _)) by done. cbn.
    rewrite <- (add_calls_nil s) at 2. by apply event_step_add. }
  assert (accepted m) as Ha by (by exists minimum).
  destruct (event_entry (code_of m) (params_of m) (len_of m)) as [[n cs]|] eqn:E.
  { rewrite process_event_run, Em by done. rewrite (proj2 (Z.ltb_ge _ _)) by done.
    rewrite (refines_run _ _ _ _ (event_entry_refines _ _ _)); rewrite ?E; try done.
    - rewrite add_calls_add. by apply event_step_add.
    - rewrite <- E. eapply fits_whole; [done..|]. apply switch_fits; [apply events_fit|done]. }
  apply event_entry_none in E as [E|[E|E]].
  - erewrite event_case_run; [| |done|done| |rewrite E; by left]; [|done|].
    2: { unfold event_cases. rewrite !elem_of_app. left. do 17 apply list_elem_of_further. apply list_elem_of_here. }
    assert (1 ≤ minimum).
    { eapply core_minimum; [|exact Em]. rewrite E. unfold core_sizes. set_solver. }
    destruct (hardware_error_run (params_of m) (add_calls (metrics_calls m s) s)) as (d & -> & Hd & Hc & _); [done| |].
    { destruct Hw. lia. }
    eapply event_step_trans; [by apply event_step_add|]. split_and!; try done. eexists. done.
  - destruct (le_events_run m s Hw Ha E He) as [Hx Hd]. destruct (Hle E) as [Hn Hdl].
    destruct (ble_entry _ _ _) as [[n cs]|] eqn:Eb.
    + rewrite (Hx _ _ eq_refl). rewrite bool_decide_eq_true_2 by done. by apply event_step_add.
    + apply ble_entry_none in Eb. rewrite Hd by done. unfold data_length_outcome.
      assert (event_step s s) as Hr by (rewrite <- (add_calls_nil s) at 2; by apply event_step_add).
      destruct (readable _) eqn:Er; [|done]. cbn. destruct (negb _); [done|]. cbn.
      destruct (Z.ltb_spec (len_of m) 8); [done|]. rewrite bool_decide_eq_true_2 by auto. by apply event_step_add.
  - erewrite event_case_run; [| |done|done| |rewrite E; by left]; [|done|].
    2: { unfold event_cases. rewrite !elem_of_app. do 4 right. right. by left. }
    pose proof (vs_event_exact (set_effects [] (dev (add_calls (metrics_calls m s) s))) (params_of m) (len_of m)) as Hv.
    destruct (wp_run _ _ _ (Hv (conj (len_bound m) (proj2 Hw)))) as ([] & d & Er & ->).
    erewrite on_dev_run by exact Er. eapply event_step_trans; [by apply event_step_add|]. by apply on_dev_step.
Qed.

(** C40: An event that is all there is handled without reading beyond it and without
    touching the HCI layer, the waiting commands or the controller, whatever its code
    and length, provided an LE event is as long as its handler needs; only a change of
    the data length can end the process, while the controller is not ready. *)
Theorem events_safe m s : whole m → effects (dev s) = [] → (code_of m = HCI_BLE_EVENT → le_enough m) →
  event_outcome m s (btu_hcif_process_event m s).
Proof. apply process_event_outcome. Qed.

(** ** The decoder the code is compared with *)

(** Whom a vendor specific event reaches. *)
Definition vendor_calls (d : btm) (p : bytes) (len : Z) : list beffect :=
  omap (λ c, match c with
    | Client cb => Some (CallVs cb len p)
    | BTM_BT_Quality_Report_VSE_CBack =>
        if negb (len =? 0) && (rd8 p =? VSE_SUBCODE_BQR_SUB_EVT)
        then (λ cb, CallBqr cb (u8 (len - 1)) (drop 1 p)) <$> p_bqr_report_receiver d else None
    end) (registered d).

Definition le_decoded (sub : Z) (p : bytes) (len : Z) (s : btu) : outcome btu unit :=
  if sub =? HCI_BLE_DATA_LENGTH_CHANGE_EVT then data_length_outcome p len s else
  match ble_entry sub p len with
  | Some (n, cs) => if bool_decide (n ≤ length p)%nat then Ret tt (add_calls (cs s) s) else Undefined
  | None => Ret tt s
  end.

Definition decoded (m : buf) (s : btu) : outcome btu unit :=
  let p := params_of m in let len := len_of m in
  if code_of m =? HCI_BLE_EVENT then le_decoded (sub_code m) (sub_params m) len s
  else if code_of m =? HCI_HARDWARE_ERROR_EVT then
    Ret tt (add_calls (Dev <$> hardware_error_calls (dev s))
      (set_dev (if readable (controller (dev s)) then set_effects [] (reset_state (dev s)) else dev s) s))
  else if code_of m =? HCI_VENDOR_SPECIFIC_EVT then Ret tt (add_calls (Dev <$> vendor_calls (dev s) p len) s)
  else Ret tt (add_calls (entry_calls (event_entry (code_of m) p len) s) s).

Lemma le_decoded_run m s : whole m → accepted m → code_of m = HCI_BLE_EVENT → effects (dev s) = [] →
  btu_hcif_process_event m s = le_decoded (sub_code m) (sub_params m) (len_of m) s.
Proof.
  intros Hw Ha Hc He. destruct (le_events_run m s Hw Ha Hc He) as [Hx Hd]. unfold le_decoded.
  destruct (Z.eqb_spec (sub_code m) HCI_BLE_DATA_LENGTH_CHANGE_EVT) as [|Hn]; [by apply Hd|].
  destruct (ble_entry _ _ _) as [[n cs]|] eqn:E; [by apply Hx|]. by apply ble_entry_none in E.
Qed.

Lemma hardware_decoded_run m s : whole m → accepted m → code_of m = HCI_HARDWARE_ERROR_EVT → effects (dev s) = [] →
  let s1 := add_calls (metrics_calls m s) s in
  btu_hcif_process_event m s = Ret tt (add_calls (Dev <$> hardware_error_calls (dev s1))
    (set_dev (if readable (controller (dev s1)) then set_effects [] (reset_state (dev s1)) else dev s1) s1)).
Proof.
  intros Hw Ha Hc He s1. pose proof Ha as (minimum & Em & Hl).
  assert (1 ≤ minimum). { eapply core_minimum; [|exact Em]. rewrite Hc. unfold core_sizes. set_solver. }
  destruct (hardware_error_run (params_of m) s1) as (d & Er & _ & _ & <-); [done|destruct Hw; lia|].
  erewrite event_case_run; [exact Er|done|done|done| |rewrite Hc; by left].
  unfold event_cases. rewrite !elem_of_app. left. do 17 apply list_elem_of_further. apply list_elem_of_here.
Qed.

(** A hardware error is reported to whoever watches the device; if the device is up
    it is reset, which tells every open request but the deletion of link keys that it
    is over, and otherwise nothing happens. *)
Theorem hardware_error_exact m s : whole m → effects (dev s) = [] → accepted m → code_of m = HCI_HARDWARE_ERROR_EVT →
  wp (btu_hcif_process_event m) (λ _ s',
    calls s' = calls s ++ metrics_calls m s ++ (Dev <$> hardware_error_calls (dev s)) ∧
    dev s' = (if readable (controller (dev s)) then set_effects [] (reset_state (dev s)) else dev s) ∧
    layer s' = layer s ∧ main_tasks s' = main_tasks s ∧ wrappers s' = wrappers s) s.
Proof.
  intros Hw He Ha Hc. eapply run_wp; [by apply hardware_decoded_run|]. cbn. by rewrite <- app_assoc.
Qed.

Lemma vendor_decoded_run m s : whole m → accepted m → code_of m = HCI_VENDOR_SPECIFIC_EVT → effects (dev s) = [] →
  let s1 := add_calls (metrics_calls m s) s in
  btu_hcif_process_event m s = Ret tt (add_calls (Dev <$> vendor_calls (dev s1) (params_of m) (len_of m)) s1).
Proof.
  intros Hw Ha Hc He s1. erewrite event_case_run; [|done|done|done| |rewrite Hc; by left].
  2: { unfold event_cases. rewrite !elem_of_app. do 4 right. right. by left. }
  pose proof (vs_event_exact (set_effects [] (dev s1)) (params_of m) (len_of m)) as Hv.
  destruct (wp_run _ _ _ (Hv (conj (len_bound m) (proj2 Hw)))) as ([] & d & Er & ->).
  erewrite on_dev_run by exact Er. fold s1. subst s1. destruct s as [[] ? ? ? ?]. cbn in *. by subst effects.
Qed.

(** C36: An event that is shorter than the table of lengths allows is dropped. Any other
    one, of whatever code, does what the reference decoder says and nothing else: an event
    of the basic rate makes the calls of its layout in the core specification, in order,
    each field taken from its offset and none from behind the event; an LE event does so
    when its parameters reach as far as its layout, and is read beyond them otherwise; a
    hardware error is reported and resets the device that is up; a vendor specific event
    reaches every registered callback. *)
Theorem events_decoded_exact m s : whole m → effects (dev s) = [] →
  (¬ accepted m → btu_hcif_process_event m s = Ret tt s) ∧
  (accepted m → btu_hcif_process_event m s = decoded m (add_calls (metrics_calls m s) s) ∧
     Z.of_nat (needs (event_entry (code_of m) (params_of m) (len_of m))) ≤ len_of m).
Proof.
  intros Hw He. split.
  { intros Ha. rewrite process_event_run by done. destruct (minimum_some m) as [minimum Em]. rewrite Em.
    destruct (Z.ltb_spec (len_of m) minimum); [done|]. destruct Ha. by exists minimum. }
  intros Ha. pose proof Ha as (minimum & Em & Hl).
  assert (fits minimum (event_entry (code_of m) (params_of m) (len_of m))) as Hf
    by (apply switch_fits; [apply events_fit|done]).
  split; [|pose proof (len_bound m); destruct Hf as [->|?]; lia]. unfold decoded.
  destruct (Z.eqb_spec (code_of m) HCI_BLE_EVENT) as [Hc|Hb].
  { rewrite metrics_of_le, add_calls_nil by done. by apply le_decoded_run. }
  destruct (Z.eqb_spec (code_of m) HCI_HARDWARE_ERROR_EVT); [by apply hardware_decoded_run|].
  destruct (Z.eqb_spec (code_of m) HCI_VENDOR_SPECIFIC_EVT); [by apply vendor_decoded_run|].
  rewrite process_event_run, Em, (proj2 (Z.ltb_ge _ _)) by done.
  apply (refines_run _ _ _ _ (event_entry_refines _ _ _)); [|done|by eapply fits_whole].
  destruct (event_entry _ _ _) eqn:E; [done|]. apply event_entry_none in E. tauto.
Qed.
End spec.
