(* ===== verification/BtuEncSpec.v ===== *)
(** * Bluetooth: what must happen before a link counts as encrypted

    Events and the answers to Read Encryption Key Size, in any order. *)

From S2P Require Import Prelude CMonad BtTypes HciParser Controller HciLayer BtmDev BtmDevSpec BtuDefs.
From S2P Require Import BtuHcif BtuHcifSpec BtuEventSpec.

Section spec.
Context `{!BtMacros, !HcicSizes, !HciDefs, !FeatureBits, !BtConfig, !HciLayerDefs, !HciPlatform, !LeOpcodes,
  !BtmFeatureBits, !BtmMasks, !BtmConfig, !BtmModules,
  !BtuModules, !BtuMacros, !BtuEvents, !BtuOpcodes, !BtuConfig, !BtMacrosOk, !BtuEventsOk}.
Implicit Types s : btu.

Inductive enc_input : Type :=
  | Event (m : buf)
  | KeySize (cb : key_size_cb) (status handle key_size : Z).
Definition enc_step (i : enc_input) : M btu unit :=
  match i with
  | Event m => btu_hcif_process_event m
  | KeySize cb status handle key_size => key_size_answer cb status handle key_size
  end.
Fixpoint enc_run (l : list enc_input) : M btu unit :=
  match l with [] => mret tt | i :: l' => enc_step i ;; enc_run l' end.
Definition event_ok (i : enc_input) : Prop :=
  match i with Event m => whole m ∧ (code_of m = HCI_BLE_EVENT → le_enough m) | KeySize _ _ _ _ => True end.

(** The call that tells the security manager that a link is encrypted. *)
Definition enables (handle : Z) (c : call) : Prop :=
  ∃ e, c = btm_sec_encrypt_change handle HCI_SUCCESS e ∧ e ≠ 0.

(** ** Handlers that never make it *)

Section handle.
Variable h : Z.

Definition silent (cs : list call) : Prop := ∀ c, c ∈ cs → ¬ enables h c.
Definition no_enc {A} (m : M btu A) : Prop := ∀ s a s', m s = Ret a s' → ∃ cs, calls s' = calls s ++ cs ∧ silent cs.

Lemma silent_nil : silent [].
Proof. by intros c ?%not_elem_of_nil. Qed.
Lemma silent_app cs cs' : silent cs → silent cs' → silent (cs ++ cs').
Proof. intros A B c [?|?]%elem_of_app; eauto. Qed.

Lemma no_enc_ret {A} (a : A) : no_enc (mret a).
Proof. intros s b s' [= <- <-]. exists []. split; [by rewrite app_nil_r|apply silent_nil]. Qed.
Lemma no_enc_bind {A B} (m : M btu A) (k : A → M btu B) : no_enc m → (∀ a, no_enc (k a)) → no_enc (m ≫= k).
Proof.
  intros Hm Hk s b s' (a & s1 & E1 & E2)%bind_ret_inv.
  destruct (Hm _ _ _ E1) as (c1 & H1' & S1), (Hk a _ _ _ E2) as (c2 & H2' & S2).
  exists (c1 ++ c2). split; [by rewrite H2', H1', app_assoc|by apply silent_app].
Qed.
Lemma no_enc_tell c : ¬ enables h c → no_enc (tell_call c).
Proof. intros Hc s a s' [= <- <-]. exists [c]. split; [done|]. by intros c' ->%list_elem_of_singleton. Qed.
Lemma no_enc_ask {A} (f : list call → A) : no_enc (ask_module f).
Proof. intros s a s' [= <- <-]. exists []. split; [by rewrite app_nil_r|apply silent_nil]. Qed.
Lemma no_enc_stream {A} n (f : bytes → A) p : no_enc (stream_to n f p).
Proof. unfold stream_to. case_bool_decide; [apply no_enc_ret|done]. Qed.
Lemma no_enc_require (b : bool) : no_enc (require b).
Proof. destruct b; [apply no_enc_ret|done]. Qed.
Lemma no_enc_dev {A} (m : M btm A) : no_enc (on_dev m).
Proof.
  intros s a s'. unfold on_dev. destruct (m _) as [b d| | |]; try done. intros [= <- <-].
  exists (Dev <$> effects d). split; [done|]. intros c (e & -> & _)%list_elem_of_fmap. by intros (? & ? & _).
Qed.

Ltac not_enabling := first [assumption|intros (? & ? & ?); discriminate].
Ltac head_of t := lazymatch t with ?f _ => head_of f | _ => t end.
Ltac no_enc :=
  repeat match goal with
  | |- ∀ _, no_enc _ => intros ?
  | |- no_enc (_ ≫= _) => apply no_enc_bind
  | |- no_enc (mret _) => apply no_enc_ret
  | |- no_enc (tell_call _) => apply no_enc_tell; not_enabling
  | |- no_enc (ask_module _) => apply no_enc_ask
  | |- no_enc (stream_to _ _ _) => apply no_enc_stream
  | |- no_enc (require _) => apply no_enc_require
  | |- no_enc (on_dev _) => apply no_enc_dev
  | |- no_enc (if ?b then _ else _) => destruct b
  | |- no_enc (let '(_, _) := ?x in _) => destruct x
  | |- no_enc (match ?x with _ => _ end) => destruct x
  | |- no_enc ?m => let f := head_of m in unfold f
  end.

Lemma no_enc_switch c (cases : list (list Z * M btu unit)) d : Forall (λ x, no_enc x.2) cases → no_enc d → no_enc (switch c cases d).
Proof.
  intros Hc Hd. apply (switch_ind no_enc); [|done]. intros ls a Hin _.
  by apply (proj1 (Forall_forall _ _) Hc (ls, a)).
Qed.
Lemma Forall_when {A} (P : A → Prop) (b : bool) (l : list A) : Forall P l → Forall P (if b then l else []).
Proof. by destruct b. Qed.

Lemma no_enc_ble p len : no_enc (ble_event p len).
Proof.
  unfold ble_event. apply no_enc_bind; [apply no_enc_stream|]. intros [sub q].
  apply no_enc_switch; [|apply no_enc_ret]. unfold ble_cases, when_included. rewrite !Forall_app.
  split_and!; try apply Forall_when; repeat (apply Forall_cons; split; [cbn [snd]|]); try (apply Forall_nil; exact I); no_enc.
Qed.

Lemma no_enc_metrics code p : no_enc (btu_hcif_log_event_metrics code p).
Proof.
  apply no_enc_switch; [|apply no_enc_ret]. unfold event_metrics_cases, log_pairing, log_link.
  repeat (apply Forall_cons; split; [cbn [snd]; no_enc|]). by apply Forall_nil.
Qed.

(** Every event but the two on encryption. *)
Definition enc_case (h : M btu unit) : Prop :=
  no_enc h ∨ (∃ p, h = btu_hcif_encryption_change_evt p) ∨ ∃ p, h = btu_hcif_encryption_key_refresh_cmpl_evt p.
Lemma event_cases_enc p len : Forall (λ x, enc_case x.2) (event_cases p len).
Proof.
  unfold event_cases, when_included. rewrite !Forall_app.
  split_and!; try apply Forall_when; repeat (apply Forall_cons; split; [cbn [snd]|]); try (apply Forall_nil; exact I);
    first [right; left; eexists; reflexivity|right; right; eexists; reflexivity|left; first [apply no_enc_ble|no_enc]].
Qed.

(** ** The two that may *)

(** On a link of the basic rate, with a controller that can tell the size of a key. *)
Definition checked (s : btu) : Prop := can_read_key_size s = true ∧ ∀ cs, BTM_IsBleConnection cs h = false.
Definition calm (s s' : btu) : Prop := ∃ cs, calls s' = calls s ++ cs ∧ silent cs.

Lemma calm_trans s1 s2 s3 : calm s1 s2 → calm s2 s3 → calm s1 s3.
Proof.
  intros (c1 & E1 & S1) (c2 & E2 & S2). exists (c1 ++ c2). split; [by rewrite E2, E1, app_assoc|by apply silent_app].
Qed.
Lemma no_enc_calm {A} (m : M btu A) s a s' : no_enc m → m s = Ret a s' → calm s s'.
Proof. intros Hm. apply Hm. Qed.
Lemma calm_add cs s : silent cs → calm s (add_calls cs s).
Proof. by exists cs. Qed.
Lemma calm_refl s : calm s s.
Proof. rewrite <- (add_calls_nil s) at 2. apply calm_add, silent_nil. Qed.

Lemma encryption_change_calm p s : checked s → silent (entry_calls (encryption_change_spec p) s).
Proof.
  intros [Hk Hb] c Hin (e & -> & He). unfold encryption_change_spec, entry_calls in Hin. rewrite Hk in Hin.
  assert (u16_at p 1 = h → is_ble_link s (u16_at p 1) = false) as Hl by (intros ->; apply Hb).
  destruct (Z.eqb_spec (u8_at p 0) HCI_SUCCESS), (Z.eqb_spec (u8_at p 3) 0), (is_ble_link s _); cbn in Hin;
    try destruct (_ =? HCI_ERR_CONNECTION_TOUT); set_unfold; naive_solver.
Qed.
Lemma key_refresh_calm p s : checked s → silent (entry_calls (key_refresh_spec p) s).
Proof.
  intros [Hk Hb] c Hin (e & -> & He). unfold key_refresh_spec, entry_calls in Hin. rewrite Hk in Hin.
  assert (u16_at p 1 = h → is_ble_link s (u16_at p 1) = false) as Hl by (intros ->; apply Hb).
  destruct (Z.eqb_spec (u8_at p 0) HCI_SUCCESS), (is_ble_link s _); cbn in Hin; set_unfold; naive_solver.
Qed.

Lemma encryption_change_short p s : (length p < 4)%nat → btu_hcif_encryption_change_evt p s = Undefined.
Proof. intros. unfold btu_hcif_encryption_change_evt. run_or_stop. Qed.
Lemma key_refresh_short p s : (length p < 3)%nat → btu_hcif_encryption_key_refresh_cmpl_evt p s = Undefined.
Proof. intros. unfold btu_hcif_encryption_key_refresh_cmpl_evt. run_or_stop. Qed.

Lemma metrics_calm m s : whole m → effects (dev s) = [] → accepted m → calm s (add_calls (metrics_calls m s) s).
Proof.
  intros Hw He (minimum & Em & Hl). eapply no_enc_calm; [apply (no_enc_metrics (code_of m) (params_of m))|].
  apply (refines_run _ _ _ _ (metrics_entry_refines _ _)); [apply metrics_entry_some|done|].
  eapply fits_whole; [done..|]. apply switch_fits; [apply metrics_fit|done].
Qed.

Lemma event_calm m s s' : whole m → effects (dev s) = [] → checked s →
  btu_hcif_process_event m s = Ret tt s' → calm s s'.
Proof.
  intros Hw He Hk E. rewrite process_event_run in E by done. destruct (minimum_of (code_of m)) as [minimum|] eqn:Em; [|done].
  destruct (Z.ltb_spec (len_of m) minimum) as [|Hge].
  { injection E as <-. apply calm_refl. }
  eapply calm_trans; [apply (metrics_calm m s); try done; by exists minimum|].
  revert E. set (s1 := add_calls _ s). assert (effects (dev s1) = [] ∧ checked s1) as [He1 Hk1] by done.
  clearbody s1. apply (switch_ind (λ hdl, hdl s1 = Ret tt s' → calm s1 s')).
  - intros ls hdl Hin _ E. pose proof (proj1 (Forall_forall _ _) (event_cases_enc _ _) _ Hin) as Hc. cbn [snd] in Hc.
    destruct Hc as [Hn|[[p ->]|[p ->]]].
    + by eapply no_enc_calm.
    + destruct (decide (4 ≤ length p)%nat) as [Hl|Hl]; [|by rewrite encryption_change_short in E by lia].
      rewrite (encryption_change_refines p s1) in E by done. injection E as <-.
      apply calm_add. by apply encryption_change_calm.
    + destruct (decide (3 ≤ length p)%nat) as [Hl|Hl]; [|by rewrite key_refresh_short in E by lia].
      rewrite (key_refresh_refines p s1) in E by done. injection E as <-.
      apply calm_add. by apply key_refresh_calm.
  - intros _ [= <-]. apply calm_refl.
Qed.

(** ** Answers *)

(** An answer that lets the link pass. *)
Definition good_answer (i : enc_input) : Prop :=
  match i with
  | KeySize _ status handle key_size => handle = h ∧ status = HCI_SUCCESS ∧ 7 ≤ key_size
  | Event _ => False
  end.
#[local] Instance good_answer_dec i : Decision (good_answer i).
Proof. destruct i; cbn [good_answer]; apply _. Defined.

Lemma answer_calm cb status handle ks s s' : ¬ good_answer (KeySize cb status handle ks) →
  key_size_answer cb status handle ks s = Ret tt s' → calm s s'.
Proof.
  intros Hg. cbn in Hg. apply no_enc_calm.
  assert (ks < MIN_KEY_SIZE ∨ ¬ enables h (btm_sec_encrypt_change handle status 1)) as [Hs|Hn].
  { destruct (Z.ltb_spec ks MIN_KEY_SIZE) as [|Hge]; [by left|right]. unfold MIN_KEY_SIZE in Hge.
    intros (e & [= -> -> <-] & _). by apply Hg. }
  - destruct cb; cbn [key_size_answer];
      unfold read_encryption_key_size_complete_after_encryption_change, read_encryption_key_size_complete_after_key_refresh;
      rewrite (proj2 (Z.ltb_lt _ _) Hs); no_enc.
  - destruct cb; cbn [key_size_answer]; no_enc.
Qed.

Lemma answer_step cb status handle ks s s' : effects (dev s) = [] →
  key_size_answer cb status handle ks s = Ret tt s' → ∃ cs, s' = add_calls cs s.
Proof.
  intros He. destruct cb; cbn [key_size_answer];
    unfold read_encryption_key_size_complete_after_encryption_change, read_encryption_key_size_complete_after_key_refresh;
    rewrite ?bind_ask; repeat (split_branch; cbn [negb]); rewrite ?bind_ask;
    try (destruct (btm_sec_is_session_key_size_downgrade _ _ _)); run_event; intros [= <-];
    first [by eexists|exists []; by rewrite add_calls_nil].
Qed.

Lemma enc_step_ok i s s' : event_ok i → effects (dev s) = [] → checked s → enc_step i s = Ret tt s' →
  effects (dev s') = [] ∧ checked s' ∧ (¬ good_answer i → calm s s').
Proof.
  intros Hi He Hk E. destruct i as [m|cb status handle ks]; cbn [enc_step event_ok] in *.
  - destruct Hi as [Hw Hle]. pose proof (process_event_outcome m s Hw He Hle) as Ho. rewrite E in Ho.
    destruct Ho as (_ & _ & _ & He' & Hc & _). split; [done|]. split; [|by intros _; eapply event_calm].
    destruct Hk as [Hk Hb]. split; [|done]. unfold can_read_key_size in *. by rewrite Hc.
  - destruct (answer_step _ _ _ _ _ _ He E) as [cs ->]. split; [done|]. split; [done|]. intros Hg.
    by eapply answer_calm.
Qed.

Lemma enc_run_calm l s s' : Forall event_ok l → effects (dev s) = [] → checked s → enc_run l s = Ret tt s' →
  (∀ i, i ∈ l → ¬ good_answer i) → calm s s'.
Proof.
  revert s. induction l as [|i l IH]; intros s Hl He Hk E Hg; cbn in E; [injection E as <-; apply calm_refl|].
  inversion_clear Hl as [|? ? Hi Hl']. apply bind_ret_inv in E as ([] & s1 & E1 & E2).
  destruct (enc_step_ok i s s1 Hi He Hk E1) as (He1 & Hk1 & Hc). eapply calm_trans; [apply Hc, Hg; by left|].
  apply IH; try done. intros j Hj. apply Hg. by right.
Qed.
End handle.
#[local] Existing Instance good_answer_dec.

(** C35: Whatever events and answers come in, with a controller that can tell the size of
    an encryption key a link of the basic rate is reported as encrypted only after a
    successful answer for that link with a key of at least seven bytes. *)
Theorem encryption_needs_key l h s s' cs c : Forall event_ok l → effects (dev s) = [] → checked h s →
  enc_run l s = Ret tt s' → calls s' = calls s ++ cs → c ∈ cs → enables h c →
  ∃ cb ks, KeySize cb HCI_SUCCESS h ks ∈ l ∧ 7 ≤ ks.
Proof.
  intros Hl He Hk E Ecs Hin Hc.
  destruct (decide (Exists (good_answer h) l)) as [(i & Hi & Hg)%Exists_exists|Hn].
  - destruct i as [|cb st handle ks]; [done|]. destruct Hg as (-> & -> & ?). eauto.
  - destruct (enc_run_calm h l s s' Hl He Hk E) as (cs' & E' & Hs).
    + intros i Hi Hg. apply Hn, Exists_exists. eauto.
    + rewrite Ecs in E'. apply app_inv_head in E' as <-. by destruct (Hs c Hin).
Qed.
End spec.
