(* ===== verification/BtuTaskSpec.v ===== *)
(** * Bluetooth: the handlers of answers to commands

    How long a command and the return parameters of an answer have to be for what
    reads them, and that they are all it takes: with that much the handlers return, having
    made calls and changed nothing but the device manager. *)

From S2P Require Import Prelude CMonad BtTypes HciParser Controller HciLayer BtmDev BtuDefs BtuHcif BtuCmd.
From S2P Require Import BtuHcifSpec.

Section spec.
Context `{!BtMacros, !HcicSizes, !HciDefs, !FeatureBits, !BtConfig, !HciLayerDefs, !HciPlatform, !LeOpcodes,
  !BtmFeatureBits, !BtmMasks, !BtmConfig, !BtmModules,
  !BtuModules, !BtuMacros, !BtuEvents, !BtuOpcodes, !BtuConfig}.
Implicit Types s : btu.

(** The callbacks of [btu_hcif_send_cmd_with_cb] that were run, in order. *)
Definition ran (cs : list call) : list nat :=
  omap (λ c, match c with run_cb cb _ _ => Some cb | _ => None end) cs.

Definition leaves (s s' : btu) : Prop :=
  layer s' = layer s ∧ wrappers s' = wrappers s ∧ main_tasks s' = main_tasks s ∧
  effects (dev s') = [] ∧ ran (calls s') = ran (calls s).

Lemma leaves_refl s : effects (dev s) = [] → leaves s s.
Proof. done. Qed.
Lemma leaves_trans s1 s2 s3 : leaves s1 s2 → leaves s2 s3 → leaves s1 s3.
Proof. intros (A1 & A2 & A3 & A4 & A5) (B1 & B2 & B3 & B4 & B5). split_and!; congruence. Qed.
Lemma leaves_add cs s : effects (dev s) = [] → ran cs = [] → leaves s (add_calls cs s).
Proof. intros He Hc. split_and!; try done. unfold ran in *. cbn. by rewrite omap_app, Hc, app_nil_r. Qed.

Definition handled (m : M btu unit) (s : btu) : Prop := ∃ s', m s = Ret tt s' ∧ leaves s s'.
(** [m] is handled where [p] has [n] bytes. *)
Definition takes (p : bytes) (m : M btu unit) (n : nat) : Prop :=
  ∀ s, effects (dev s) = [] → (n ≤ length p)%nat → handled m s.

Lemma handled_ret s : effects (dev s) = [] → handled (mret tt) s.
Proof. intros He. by exists s. Qed.
Lemma handled_bind (m : M btu unit) (k : unit → M btu unit) s :
  handled m s → (∀ s', effects (dev s') = [] → handled (k tt) s') → handled (m ≫= k) s.
Proof.
  intros (s1 & E1 & L1) Hk. destruct (Hk s1) as (s2 & E2 & L2); [apply L1|].
  exists s2. unfold mbind, M_bind. rewrite E1. split; [done|by eapply leaves_trans].
Qed.
Lemma handled_tell c s : effects (dev s) = [] → ran [c] = [] → handled (tell_call c) s.
Proof. intros He Hc. exists (add_calls [c] s). split; [done|by apply leaves_add]. Qed.
Lemma handled_dev (m : M btm unit) s d : m (set_effects [] (dev s)) = Ret tt d → handled (on_dev m) s.
Proof.
  intros E. unfold handled, on_dev. rewrite E. eexists. split; [done|]. split_and!; try done. unfold ran. cbn.
  rewrite omap_app. rewrite <- app_nil_r. f_equal. by induction (effects d).
Qed.

(** *** The tables *)

(** The bytes of the parameters that are read of a command, when it is sent and when its status is reported. *)
Definition command_metrics_sizes : list (list Z * nat) :=
  [([HCI_CREATE_CONNECTION; HCI_CREATE_CONNECTION_CANCEL], 6%nat);
   ([HCI_DISCONNECT], 3%nat);
   ([HCI_SETUP_ESCO_CONNECTION; HCI_ENH_SETUP_ESCO_CONNECTION], 2%nat);
   ([HCI_ACCEPT_CONNECTION_REQUEST; HCI_ACCEPT_ESCO_CONNECTION; HCI_ENH_ACCEPT_ESCO_CONNECTION], 6%nat);
   ([HCI_REJECT_CONNECTION_REQUEST; HCI_REJECT_ESCO_CONNECTION], 7%nat);
   ([HCI_BLE_CREATE_LL_CONN], 12%nat);
   ([HCI_LE_EXTENDED_CREATE_CONNECTION], 9%nat);
   ([HCI_BLE_CREATE_CONN_CANCEL], 0%nat);
   ([HCI_BLE_CLEAR_WHITE_LIST], 0%nat);
   ([HCI_BLE_ADD_WHITE_LIST; HCI_BLE_REMOVE_WHITE_LIST], 7%nat);
   ([HCI_READ_LOCAL_OOB_DATA], 0%nat);
   ([HCI_WRITE_SIMPLE_PAIRING_MODE], 1%nat);
   ([HCI_WRITE_SECURE_CONNS_SUPPORT], 1%nat);
   ([HCI_AUTHENTICATION_REQUESTED], 2%nat);
   ([HCI_SET_CONN_ENCRYPTION], 3%nat);
   ([HCI_DELETE_STORED_LINK_KEY], 7%nat);
   ([HCI_RMT_NAME_REQUEST; HCI_RMT_NAME_REQUEST_CANCEL; HCI_LINK_KEY_REQUEST_REPLY; HCI_LINK_KEY_REQUEST_NEG_REPLY;
     HCI_IO_CAPABILITY_REQUEST_REPLY; HCI_USER_CONF_REQUEST_REPLY; HCI_USER_CONF_VALUE_NEG_REPLY;
     HCI_USER_PASSKEY_REQ_REPLY; HCI_USER_PASSKEY_REQ_NEG_REPLY; HCI_REM_OOB_DATA_REQ_REPLY;
     HCI_REM_OOB_DATA_REQ_NEG_REPLY], 6%nat);
   ([HCI_IO_CAP_REQ_NEG_REPLY], 7%nat)].
Definition status_sizes : list (list Z * nat) :=
  [([HCI_INQUIRY], 0%nat); ([HCI_QOS_SETUP], 0%nat); ([HCI_SWITCH_ROLE], 6%nat); ([HCI_CREATE_CONNECTION], 6%nat);
   ([HCI_AUTHENTICATION_REQUESTED], 0%nat); ([HCI_SET_CONN_ENCRYPTION], 0%nat); ([HCI_RMT_NAME_REQUEST], 0%nat);
   ([HCI_READ_RMT_EXT_FEATURES], 2%nat); ([HCI_SETUP_ESCO_CONNECTION; HCI_ENH_SETUP_ESCO_CONNECTION], 2%nat);
   ([HCI_BLE_CREATE_LL_CONN; HCI_LE_EXTENDED_CREATE_CONNECTION], 0%nat); ([HCI_BLE_START_ENC], 0%nat);
   ([HCI_EXIT_SNIFF_MODE; HCI_EXIT_PARK_MODE], 2%nat); ([HCI_HOLD_MODE; HCI_SNIFF_MODE; HCI_PARK_MODE], 0%nat)].
Definition complete_metrics_sizes : list (list Z * nat) :=
  [([HCI_BLE_CLEAR_WHITE_LIST; HCI_BLE_ADD_WHITE_LIST; HCI_BLE_REMOVE_WHITE_LIST], 1%nat);
   ([HCI_DELETE_STORED_LINK_KEY; HCI_READ_LOCAL_OOB_DATA; HCI_WRITE_SIMPLE_PAIRING_MODE; HCI_WRITE_SECURE_CONNS_SUPPORT], 1%nat);
   ([HCI_READ_ENCR_KEY_SIZE], 4%nat);
   ([HCI_LINK_KEY_REQUEST_REPLY; HCI_LINK_KEY_REQUEST_NEG_REPLY; HCI_IO_CAPABILITY_REQUEST_REPLY;
     HCI_IO_CAP_REQ_NEG_REPLY; HCI_USER_CONF_REQUEST_REPLY; HCI_USER_CONF_VALUE_NEG_REPLY; HCI_USER_PASSKEY_REQ_REPLY;
     HCI_USER_PASSKEY_REQ_NEG_REPLY; HCI_REM_OOB_DATA_REQ_REPLY; HCI_REM_OOB_DATA_REQ_NEG_REPLY], 7%nat)].

Lemma handled_stream {A} n (f : bytes → A) p (k : A * bytes → M btu unit) s :
  (n ≤ length p)%nat → handled (k (f p, drop n p)) s → handled (stream_to n f p ≫= k) s.
Proof. intros Hn. unfold handled. by rewrite bind_stream. Qed.
Lemma handled_ask {A} (f : list call → A) (k : A → M btu unit) s : handled (k (f (calls s))) s → handled (ask_module f ≫= k) s.
Proof. done. Qed.
Lemma handled_mret {A} (a : A) (k : A → M btu unit) s : handled (k a) s → handled (mret a ≫= k) s.
Proof. done. Qed.

Lemma handled_assoc {A B} (m : M btu A) (g : A → M btu B) (k : B → M btu unit) s :
  handled (m ≫= λ a, g a ≫= k) s → handled ((m ≫= g) ≫= k) s.
Proof. unfold handled, mbind, M_bind. by destruct (m s). Qed.

Ltac handle_body :=
  unfold log_command_link, log_command_pairing, STREAM_TO_UINT8, STREAM_TO_UINT16, STREAM_TO_BDADDR;
  repeat (match goal with
  | |- handled (stream_to _ _ _ ≫= _) _ =>
      apply handled_stream; [rewrite ?length_drop; unfold BD_ADDR_LEN; lia|]; cbv beta iota
  | |- handled (ask_module _ ≫= _) _ => apply handled_ask; cbv beta
  | |- handled (mret _ ≫= _) _ => apply handled_mret; cbv beta
  | |- handled (tell_call _) _ => apply handled_tell; [assumption|reflexivity]
  | |- handled (mret tt) _ => apply handled_ret; assumption
  | |- handled (if ?b then _ else _) _ => destruct b; cbn [negb andb orb]
  | |- handled ((if ?b then _ else _) ≫= _) _ => destruct b; cbn [negb andb orb]
  | |- handled (match ?x with (_, _) => _ end) _ => destruct x
  | |- handled ((match ?x with (_, _) => _ end) ≫= _) _ => destruct x
  | |- handled ((_ ≫= _) ≫= _) _ => apply handled_assoc
  | |- handled ((tell_call _) ≫= _) _ => apply handled_bind; [|intros ? ?]
  | |- handled ((if _ then _ else _) ≫= _) _ => apply handled_bind; [|intros ? ?]
  end).
Ltac takes_entry :=
  split; [reflexivity|]; cbn [snd]; intros s He Hn; cbn beta iota in Hn; handle_body.

Lemma command_metrics_take opcode p hci_event cmd_status is_cmd_status :
  Forall2 (λ x y, x.1 = y.1 ∧ takes p x.2 y.2) (command_metrics_cases opcode p hci_event cmd_status is_cmd_status)
    command_metrics_sizes.
Proof.
  unfold command_metrics_cases, command_metrics_sizes.
  repeat (apply Forall2_cons; split; [takes_entry|]); apply Forall2_nil_2.
Qed.
Lemma status_take opcode status p :
  Forall2 (λ x y, x.1 = y.1 ∧ takes p x.2 y.2) (status_cases opcode status p) status_sizes.
Proof.
  unfold status_cases, status_sizes. repeat (apply Forall2_cons; split; [takes_entry|]); apply Forall2_nil_2.
Qed.

Lemma complete_metrics_take opcode p :
  Forall2 (λ x y, x.1 = y.1 ∧ takes p x.2 y.2) (complete_metrics_cases opcode p) complete_metrics_sizes.
Proof.
  unfold complete_metrics_cases, complete_metrics_sizes.
  repeat (apply Forall2_cons; split; [takes_entry|]); apply Forall2_nil_2.
Qed.

(** *** The device manager *)

Lemma delete_complete_handled p s : (3 ≤ length p)%nat → handled (on_dev (btm_delete_stored_link_key_complete p)) s.
Proof.
  intros Hn. unfold btm_delete_stored_link_key_complete.
  destruct (p_stored_link_key_cmpl_cb (dev s)) as [cb|] eqn:E; eapply handled_dev;
    unfold mbind, M_bind, get, modify, require; cbn; rewrite E; [|reflexivity].
  rewrite bool_decide_eq_true_2 by done. reflexivity.
Qed.
Lemma name_complete_handled p s : (1 ≤ length p)%nat → handled (on_dev (btm_read_local_name_complete p)) s.
Proof.
  intros Hn. unfold btm_read_local_name_complete.
  destruct (p_rln_cmpl_cb (dev s)) as [cb|] eqn:E; [destruct (rd8 p =? HCI_SUCCESS)|]; eapply handled_dev;
    unfold mbind, M_bind, get, modify, require; cbn; rewrite E; [..|reflexivity].
  all: rewrite bool_decide_eq_true_2 by done; reflexivity.
Qed.
Lemma vsc_complete_handled p opcode len cb s : handled (on_dev (btm_vsc_complete p opcode len cb)) s.
Proof. destruct cb; by eapply handled_dev. Qed.

(** The return parameters a Command Complete is read for, besides the metrics. *)
Definition complete_size (opcode : Z) : nat :=
  if opcode =? HCI_DELETE_STORED_LINK_KEY then 3%nat else if opcode =? HCI_READ_LOCAL_NAME then 1%nat else 0%nat.

Lemma complete_handled opcode p len ctx s : effects (dev s) = [] → (complete_size opcode ≤ length p)%nat →
  handled (btu_hcif_hdl_command_complete opcode p len ctx) s.
Proof.
  intros He Hn. unfold btu_hcif_hdl_command_complete.
  refine (switch_ind (λ m, (complete_size opcode ≤ length p)%nat → handled m s) _ _ _ _ _ Hn); clear Hn.
  - intros ls m Hin Hc. unfold complete_cases in Hin. rewrite elem_of_app in Hin. unfold complete_size.
    destruct Hin as [Hin|Hin]; [|destruct BLE_PRIVACY_SPT; [|by apply not_elem_of_nil in Hin]].
    all: cbn [when_included] in Hin; repeat (apply elem_of_cons in Hin as [[= -> ->]|Hin]);
      try (by apply not_elem_of_nil in Hin).
    all: try (intros _; first [by apply handled_ret|apply handled_tell; [done|reflexivity]]).
    + apply list_elem_of_singleton in Hc as ->. rewrite Z.eqb_refl. intros ?. by apply delete_complete_handled.
    + apply list_elem_of_singleton in Hc as ->. intros Hn. apply name_complete_handled.
      rewrite Z.eqb_refl in Hn. destruct (_ =? _); lia.
  - intros _ _. destruct (is_vendor_specific opcode); [apply vsc_complete_handled|by apply handled_ret].
Qed.

(** ** What a command and an answer must hold *)

(** The parameters of a command. *)
Definition command_size (opcode : Z) : nat :=
  (switch opcode command_metrics_sizes 0 `max` switch opcode status_sizes 0)%nat.
(** The return parameters of a Command Complete, for either way it is delivered. *)
Definition return_size (opcode : Z) : nat :=
  (switch opcode complete_metrics_sizes 0 `max` complete_size opcode)%nat.

Lemma command_metrics_handled opcode p status is_status s : effects (dev s) = [] → (command_size opcode ≤ length p)%nat →
  handled (btu_hcif_log_command_metrics opcode p status is_status) s.
Proof.
  intros He Hn. eapply (switch_rel (takes p) _ _ _ _ 0%nat (command_metrics_take _ _ _ _ _)); [|done|].
  - intros s' ? _. by apply handled_ret.
  - unfold command_size in Hn. lia.
Qed.
Lemma complete_metrics_handled opcode p s : effects (dev s) = [] → (return_size opcode ≤ length p)%nat →
  handled (btu_hcif_log_command_complete_metrics opcode p) s.
Proof.
  intros He Hn. eapply (switch_rel (takes p) _ _ _ _ 0%nat (complete_metrics_take _ _)); [|done|].
  - intros s' ? _. by apply handled_ret.
  - unfold return_size in Hn. lia.
Qed.
Lemma status_handled opcode status p ctx s : effects (dev s) = [] → (command_size opcode ≤ length (drop 1 p))%nat →
  handled (btu_hcif_hdl_command_status opcode status p ctx) s.
Proof.
  intros He Hn. unfold btu_hcif_hdl_command_status.
  eapply (switch_rel (takes (drop 1 p)) _ _ _ _ 0%nat (status_take _ _ _)); [|done|].
  - intros s' ? _. destruct (is_vendor_specific opcode); [apply vsc_complete_handled|by apply handled_ret].
  - unfold command_size in Hn. lia.
Qed.

Lemma command_size_bound opcode : (command_size opcode ≤ 12)%nat.
Proof.
  unfold command_size. apply Nat.max_lub; apply (switch_ind (λ n, n ≤ 12)%nat); try lia;
    intros ls n Hin _; unfold command_metrics_sizes, status_sizes in Hin; set_unfold; destruct_or!; simplify_eq; lia.
Qed.
End spec.
