(* ===== verification/BtuFlow.v ===== *)
(** * Bluetooth: commands between the stack, the HCI layer and the main thread

    The three put together: modules send commands, the layer and its clients go on as
    they may, and the main thread runs what was posted to it.  The invariant says who
    holds which buffer and which wrapper. *)

From S2P Require Import Prelude CMonad BtTypes HciParser Controller HciLayer HciLayerInv HciLayerEvents HciLayerSpec.
From S2P Require Import HciLayerFrame BtmDev BtuDefs BtuHcif BtuCmd BtuHcifSpec BtuTaskSpec.

(** ** The machine *)

Inductive flow : Type :=
  | Send (opcode : Z) (params : option bytes) (params_len : Z) (cb : nat)
  | SendBuf (p_buf : nat)
  | Layer (i : input)
  | Main.

Definition task_buf (t : main_task) : nat :=
  match t with
  | complete_on_task p _ | complete_with_cb_on_task p _ => p
  | status_on_task _ p _ | status_with_cb_on_task _ p _ => p
  end.
Definition task_wrapper (t : main_task) : option nat :=
  match t with
  | complete_with_cb_on_task _ ctx | status_with_cb_on_task _ _ ctx => Some (wrapper_of ctx)
  | _ => None
  end.
Definition held (s : btu) : list nat := task_buf <$> main_tasks s.
Definition due (s : btu) : list nat := omap task_wrapper (main_tasks s).

(** The commands of [btu_hcif_send_cmd_with_cb], those of [btu_hcif_send_cmd], and all others. *)
Definition with_cb (e : waiting_command_t) : Prop :=
  complete_callback e = Some COMPLETE_EVT_WITH_CB ∧ status_callback e = Some STATUS_EVT_WITH_CB.
Definition plain (e : waiting_command_t) : Prop :=
  complete_callback e = Some COMPLETE_EVT ∧ status_callback e = Some STATUS_EVT.
Definition not_ours (complete status : option nat) : Prop :=
  complete ≠ Some COMPLETE_EVT ∧ complete ≠ Some COMPLETE_EVT_WITH_CB ∧
  status ≠ Some STATUS_EVT ∧ status ≠ Some STATUS_EVT_WITH_CB.
Definition foreign (e : waiting_command_t) : Prop := not_ours (complete_callback e) (status_callback e).
#[export] Instance with_cb_dec e : Decision (with_cb e).
Proof. unfold with_cb. apply _. Defined.

(** [osi_malloc(HCI_CMD_BUF_SIZE)] has room for the header and 255 bytes of parameters. *)
Class BtuCmdOk `{!BtuMacros} : Prop := cmd_buf_size : (258 ≤ length uninit_bytes)%nat.

Section flow.
Context `{!BtMacros, !HcicSizes, !HciDefs, !FeatureBits, !BtConfig, !HciLayerDefs, !HciPlatform, !LeOpcodes,
  !BtmFeatureBits, !BtmMasks, !BtmConfig, !BtmModules,
  !BtuModules, !BtuMacros, !BtuEvents, !BtuOpcodes, !BtuConfig}.
Implicit Types s : btu.

Definition flow_step (x : flow) : M btu unit :=
  match x with
  | Send opcode params params_len cb => btu_hcif_send_cmd_with_cb opcode params params_len cb
  | SendBuf p => btu_hcif_send_cmd (Some p)
  | Layer i => in_layer (handle i)
  | Main => run_next_main_task
  end.

(** A command, or the return parameters of a Command Complete, as long as their readers need. *)
Definition long_enough (size : Z → nat) (skip : nat) (st : bytes) : Prop :=
  (2 ≤ length st)%nat ∧ (skip + size (rd16 st) ≤ length (drop 2 st))%nat.
Definition command_long (b : buf) : Prop := long_enough command_size 1 (drop (b_offset b) (b_data b)).
Definition response_long (b : buf) : Prop := long_enough return_size 0 (drop 3 (drop (b_offset b) (b_data b))).

(** What each step may rely on: clients give away buffers of their own, callbacks of
    this file are given by this file only, and events are as long as their readers need. *)
Definition flow_enabled (x : flow) (s : btu) : Prop :=
  match x with
  | Send _ params n _ => 0 ≤ n < 256 ∧ match params with Some ps => n ≤ Z.of_nat (length ps) | None => True end
  | SendBuf p => command_given (layer s) p ∧ p ∉ held s ∧ ∃ b, bufs (layer s) !! p = Some b ∧ command_long b ∧
      (sizeof_voidp ≤ length (b_data b))%nat
  | Layer i => enabled i (layer s) ∧ (∀ p, p ∈ args i → p ∉ held s) ∧ not_ours (callbacks i).1 (callbacks i).2 ∧
      match i with
      | IEvent p => ∀ b, bufs (layer s) !! p = Some b → b_offset b = 0%nat ∧
          ∀ credits opcode, parse_response (b_data b) = Some (None, credits, opcode) → response_long b
      | _ => True
      end
  | Main => True
  end.

(** ** The invariant *)

(** A buffer that holds what the task reads. *)
Definition task_fits (t : main_task) (b : buf) : Prop :=
  match t with
  | complete_on_task _ _ | complete_with_cb_on_task _ _ => response_long b
  | status_on_task _ _ _ => command_long b
  | status_with_cb_on_task status _ _ => command_long b ∧ status ≠ 0
  end.

(** An entry of this file has its buffer, and its wrapper a callback. *)
Definition entry_ok (s : btu) (e : waiting_command_t) : Prop :=
  foreign e ∨
  (plain e ∨ with_cb e ∧ ∃ cb, wrappers s !! wrapper_of (context e) = Some (Some cb)) ∧
  ∃ b, bufs (layer s) !! command e = Some b ∧ command_long b.

Record FlowInv (s : btu) : Prop := {
  fi_layer : settled (layer s);
  fi_effects : effects (dev s) = [];
  fi_tasks t : t ∈ main_tasks s →
    ∃ b, bufs (layer s) !! task_buf t = Some b ∧ task_fits t b ∧ ¬ owned (layer s) (task_buf t);
  fi_held : NoDup (held s);
  fi_entries w e : waits (layer s) !! w = Some e → entry_ok s e;
  fi_inj w w' e e' : waits (layer s) !! w = Some e → waits (layer s) !! w' = Some e' → with_cb e → with_cb e' →
    wrapper_of (context e) = wrapper_of (context e') → w = w';
  fi_due w : w ∈ due s → ∃ cb, wrappers s !! w = Some (Some cb);
  fi_due_once : NoDup (due s);
  fi_apart w e : waits (layer s) !! w = Some e → with_cb e → wrapper_of (context e) ∉ due s
}.

Lemma foreign_not_with_cb e : foreign e → ¬ with_cb e.
Proof. intros (_ & ? & _) [? _]. done. Qed.
Lemma plain_not_with_cb e : plain e → ¬ with_cb e.
Proof. intros [E _] [E' _]. rewrite E in E'. done. Qed.

(** ** The layer moves on *)

Lemma finv_layer s h' (G : nat → Prop) (N : nat → waiting_command_t → Prop) :
  FlowInv s → settled h' →
  (∀ p, ¬ G p → bufs h' !! p = bufs (layer s) !! p) →
  (∀ w e, waits h' !! w = Some e → waits (layer s) !! w = Some e ∨ N w e) →
  (∀ p, p ∈ packets_posted h' → p ∈ packets_posted (layer s) ∨ G p) →
  (∀ p, p ∈ held s → ¬ G p) →
  (∀ w e, waits h' !! w = Some e → waits (layer s) !! w = Some e → foreign e ∨ ¬ G (command e)) →
  (∀ w e, N w e → G (command e) ∧ entry_ok (set_layer h' s) e ∧
    (with_cb e → wrapper_of (context e) ∉ due s ∧
      ∀ w' e', waits (layer s) !! w' = Some e' → with_cb e' → wrapper_of (context e') ≠ wrapper_of (context e))) →
  (∀ w w' e e', N w e → N w' e' → w = w') →
  FlowInv (set_layer h' s).
Proof.
  intros I Hs HB HW HP Hheld Hown HN HN1. destruct I. split; cbn; try done.
  - intros t Ht. destruct (fi_tasks0 t Ht) as (b & Hb & Hf & Ho).
    assert (¬ G (task_buf t)) as Hg by (apply Hheld; by apply list_elem_of_fmap_2).
    exists b. rewrite HB by done. split_and!; try done. rewrite owned_posted in * by done.
    intros [(w & e & Hw & He)|Hp].
    + apply HW in Hw as [Hw|Hw]; [apply Ho; left; eauto|]. apply HN in Hw as [Hw _]. by rewrite He in Hw.
    + apply HP in Hp as [Hp|Hp]; [|done]. apply Ho. by right.
  - intros w e Hw. destruct (HW w e Hw) as [Hw'|Hw']; [|by eapply HN].
    destruct (fi_entries0 w e Hw') as [?|(Hk & b & Hb & Hl)]; [by left|].
    destruct (Hown w e Hw Hw') as [?|Hg]; [by left|]. right. split; [done|]. exists b. by rewrite HB.
  - intros w w' e e' Hw Hw' Hc Hc' E. destruct (HW w e Hw) as [Ha|Ha], (HW w' e' Hw') as [Hb'|Hb'].
    + by eapply fi_inj0.
    + apply HN in Hb' as (_ & _ & Hx). destruct (Hx Hc') as [_ Hx']. by destruct (Hx' w e Ha Hc).
    + apply HN in Ha as (_ & _ & Hx). destruct (Hx Hc) as [_ Hx']. by destruct (Hx' w' e' Hb' Hc').
    + by eapply HN1.
  - intros w e Hw Hc. destruct (HW w e Hw) as [Ha|Ha]; [by eapply fi_apart0|]. apply HN in Ha as (_ & _ & Hx). by apply Hx.
Qed.

(** A task joins those of the main thread. *)
Lemma finv_post s t b : FlowInv s → bufs (layer s) !! task_buf t = Some b → task_fits t b →
  ¬ owned (layer s) (task_buf t) → task_buf t ∉ held s →
  (∀ w, task_wrapper t = Some w → (∃ cb, wrappers s !! w = Some (Some cb)) ∧ w ∉ due s ∧
    ∀ w' e, waits (layer s) !! w' = Some e → with_cb e → wrapper_of (context e) ≠ w) →
  FlowInv (set_main_tasks (main_tasks s ++ [t]) s).
Proof.
  intros I Hb Hf Ho Hh Hw. destruct I.
  assert (∀ w, w ∈ due (set_main_tasks (main_tasks s ++ [t]) s) → w ∈ due s ∨ task_wrapper t = Some w) as Hdue.
  { intros w. unfold due. cbn. rewrite omap_app, elem_of_app. cbn. intros [?|Hx]; [by left|right].
    destruct (task_wrapper t); [|by apply not_elem_of_nil in Hx]. by apply list_elem_of_singleton in Hx as ->. }
  split; cbn; try done.
  - intros t' [?| ->%list_elem_of_singleton]%elem_of_app; eauto.
  - unfold held in *. cbn. rewrite fmap_app. apply NoDup_app. split_and!; [done| |apply NoDup_singleton].
    by intros x Hx ->%list_elem_of_singleton.
  - intros w [?|E]%Hdue; [by apply fi_due0|]. by apply Hw.
  - unfold due in *. cbn. rewrite omap_app. apply NoDup_app. split_and!; [done| |].
    + intros w Hx. cbn. destruct (task_wrapper t) as [w'|]; [|apply not_elem_of_nil].
      intros ->%list_elem_of_singleton. by destruct (Hw w' eq_refl) as (_ & ? & _).
    + cbn. destruct (task_wrapper t); [apply NoDup_singleton|constructor].
  - intros w e Hx Hc [?|E]%Hdue; [by eapply fi_apart0|]. destruct (Hw _ E) as (_ & _ & Hn). by eapply Hn.
Qed.

(** ** What a step does to wrappers and callbacks *)

Definition sent (x : flow) : list nat := match x with Send _ _ _ cb => [cb] | _ => [] end.

(** The callbacks that were handed over with a command and not run yet. *)
Definition callbacks_in (m : gmap nat (option nat)) : list nat := omap (λ x, x.2) (map_to_list m).

Lemma callbacks_in_insert m w cb : m !! w = None → callbacks_in (<[w := Some cb]> m) ≡ₚ callbacks_in m ++ [cb].
Proof. intros Hw. unfold callbacks_in. rewrite map_to_list_insert by done. cbn. by rewrite Permutation_app_comm. Qed.
Lemma callbacks_in_delete m w cb : m !! w = Some (Some cb) → callbacks_in m ≡ₚ [cb] ++ callbacks_in (delete w m).
Proof. intros Hw. unfold callbacks_in. by rewrite <- (map_to_list_delete m w (Some cb)). Qed.

(** The command an event for [opcode] answers. *)
Definition answers (s : btu) (opcode : Z) : option nat :=
  answered_by (layer s) (default [] (commands_pending_response (layer s))) opcode.

(** The wrapper of a command the layer still has to answer for. *)
Definition awaited (s : btu) (k : nat) : Prop :=
  ∃ w e, waits (layer s) !! w = Some e ∧ with_cb e ∧ wrapper_of (context e) = k.

(** The wrapper of the command a step answers by a Command Status without error. *)
Definition accepted (x : flow) (s : btu) : list nat :=
  match x with
  | Layer (IEvent p) =>
      match b ← bufs (layer s) !! p; parse_response (b_data b) with
      | Some (Some 0, _, opcode) =>
          match w ← answers s opcode; waits (layer s) !! w with
          | Some e => if decide (with_cb e) then [wrapper_of (context e)] else []
          | None => []
          end
      | _ => []
      end
  | _ => []
  end.

(** A wrapper is referred to by the entry it was made for, and later by a task. *)
Record evolves (x : flow) (s s' : btu) : Prop := {
  ev_entries w e : waits (layer s') !! w = Some e → with_cb e →
    waits (layer s) !! w = Some e ∨ wrappers s !! wrapper_of (context e) = None;
  ev_due k : k ∈ due s' → k ∈ due s ∨ awaited s k;
  ev_wrappers k c : wrappers s !! k = Some c → k ∉ due s → wrappers s' !! k = Some c;
  ev_callbacks : ran (calls s') ++ callbacks_in (wrappers s') ≡ₚ (ran (calls s) ++ callbacks_in (wrappers s)) ++ sent x;
  ev_made k : is_Some (wrappers s' !! k) → is_Some (wrappers s !! k) ∨ awaited s' k;
  ev_track k : k ∈ due s ∨ awaited s k → is_Some (wrappers s' !! k) → k ∈ due s' ∨ awaited s' k ∨ k ∈ accepted x s
}.

(** What a step of the layer leaves as it is, but for a task. *)
Definition posts (s s' : btu) (t : option main_task) : Prop :=
  main_tasks s' = main_tasks s ++ option_list t ∧ wrappers s' = wrappers s ∧ ran (calls s') = ran (calls s).

Lemma posts_evolves x s s' t : posts s s' t → sent x = [] →
  (∀ w e, waits (layer s') !! w = Some e → with_cb e → waits (layer s) !! w = Some e) →
  (∀ k, t ≫= task_wrapper = Some k → awaited s k) →
  (∀ w e, waits (layer s) !! w = Some e → with_cb e → waits (layer s') !! w = Some e ∨
    t ≫= task_wrapper = Some (wrapper_of (context e)) ∨ wrapper_of (context e) ∈ accepted x s) →
  evolves x s s'.
Proof.
  intros (Em & Ew & Ec) Ex Hw Ht Hkeep. split.
  - intros w e Hwe Hc. left. eauto.
  - intros k. unfold due. rewrite Em, omap_app, elem_of_app. intros [?|Hk]; [by left|right]. apply Ht.
    destruct t as [t|]; [|by apply not_elem_of_nil in Hk]. cbn in *. destruct (task_wrapper t); [|by apply not_elem_of_nil in Hk].
    by apply list_elem_of_singleton in Hk as ->.
  - intros k c Hk _. by rewrite Ew.
  - by rewrite Ew, Ec, Ex, app_nil_r.
  - intros k. rewrite Ew. by left.
  - intros k Hr _. unfold due in *. rewrite Em, omap_app, elem_of_app. destruct Hr as [Hd|(w & e & He & Hc & Ek)]; [by left; left|].
    destruct (Hkeep w e He Hc) as [He'|[Htk|Ha]].
    + right. left. by exists w, e.
    + left. right. rewrite Ek in Htk. destruct t as [t|]; [|done]. cbn in *. rewrite Htk. by left.
    + right. right. by rewrite <- Ek.
Qed.
End flow.
