(* ===== verification/BtuFlowSpec.v ===== *)
(** * Bluetooth: the invariant of the command path

    Every step of the machine keeps it, and none is undefined or stuck. *)

From S2P Require Import Prelude CMonad BtTypes HciParser Controller HciLayer HciLayerInv HciLayerEvents HciLayerSpec.
From S2P Require Import HciLayerFrame BtmDev BtuDefs BtuHcif BtuCmd BtuHcifSpec BtuTaskSpec BtuFlow.

Section spec.
Context `{!BtMacros, !HcicSizes, !HciDefs, !FeatureBits, !BtConfig, !HciLayerDefs, !HciPlatform, !LeOpcodes,
  !BtmFeatureBits, !BtmMasks, !BtmConfig, !BtmModules,
  !BtuModules, !BtuMacros, !BtuEvents, !BtuOpcodes, !BtuConfig, !HciPlatformOk, !HciCodesOk}.
Implicit Types s : btu.

(** The run returns with [Q], or ends the process on purpose. *)
Definition fine (m : M btu unit) (Q : btu → Prop) (s : btu) : Prop :=
  match m s with Ret _ s' => Q s' | Exit _ _ => True | _ => False end.

(** ** The layer *)

Lemma run_callbacks_quiet es s : Forall quiet es → run_callbacks es s = Ret tt s.
Proof.
  induction 1 as [|e es He _ IH]; [done|]. cbn [run_callbacks].
  destruct e; try done; by rewrite bind_mret.
Qed.

Lemma in_layer_run (m : M hci unit) s h' es : m (layer s) = Ret tt h' → trace h' = trace (layer s) ++ es →
  in_layer m s = run_callbacks es (set_layer h' s).
Proof.
  intros E Et. unfold in_layer, on_layer, mbind, M_bind, get. rewrite E. cbn. rewrite Et, drop_app_length.
  by destruct (run_callbacks es (set_layer h' s)) as [[]| | |].
Qed.

Lemma in_layer_fine (m : M hci unit) s Q : safe m (λ _ _, True) (layer s) →
  (∀ h', m (layer s) = Ret tt h' → fine (in_layer m) Q s) → fine (in_layer m) Q s.
Proof.
  unfold safe. destruct (m (layer s)) as [[] h'|c h'| |] eqn:E; try done; [eauto|]. intros _ _.
  unfold fine, in_layer, on_layer, mbind, M_bind, get. by rewrite E.
Qed.

Lemma given_not_owned i h p : enabled i h → p ∈ args i → ¬ owned h p ∨ bufs h !! p = None.
Proof.
  intros He Hp. destruct i as [q b|q|cmd c st x|cmd|type data| | |q|q next| | | | | | |]; cbn in *;
    try (by apply not_elem_of_nil in Hp); apply list_elem_of_singleton in Hp as ->.
  - by right.
  - left. apply He.
  - left. apply He.
  - left. apply He.
  - left. destruct (_ =? _); [apply He|]. destruct He as (? & _ & _ & ?). done.
  - left. apply He.
  - left. apply He.
Qed.

Lemma packet_owned h p : settled h → p ∈ packets_posted h → owned h p.
Proof. intros Hs Hp. apply owned_posted; [done|by right]. Qed.

(** Neither the commands of the layer nor what others hold are touched. *)
Lemma entry_untouched i h w e : settled h → enabled i h → waits h !! w = Some e → ¬ touched i h (command e).
Proof.
  intros Hs He Hw [Ha|Ha].
  - pose proof Hs as (ts & pl & I). destruct (hi_command _ _ _ _ I _ _ Hw) as (b & Hb & _).
    destruct (given_not_owned _ _ _ He Ha) as [Ho|E]; [|congruence]. apply Ho. left. eauto.
  - pose proof Hs as (ts & pl & I). destruct (hi_command _ _ _ _ I _ _ Hw) as (b & Hb & _). destruct i; try done.
    + unfold packets_posted in Ha. rewrite (hi_thread _ _ _ _ I) in Ha. by eapply (hi_packets_own _ _ _ _ I).
    + destruct He as (_ & _ & Hn). specialize (Hn _ Ha). congruence.
Qed.
Lemma held_untouched i s p : FlowInv s → flow_enabled (Layer i) s → p ∈ held s → ¬ touched i (layer s) p.
Proof.
  intros I (He & Hh & _) Hp [Ha|Ha]; [by eapply Hh|].
  unfold held in Hp. apply list_elem_of_fmap in Hp as (t & -> & Ht). destruct (fi_tasks _ I _ Ht) as (b & Hb & _ & Ho).
  destruct i; try done.
  - apply Ho. apply packet_owned; [apply I|done].
  - destruct He as (_ & _ & Hn). specialize (Hn _ Ha). congruence.
Qed.

(** Whatever an input does that is not the answer to a command. *)
Lemma layer_input_ok i s : FlowInv s → flow_enabled (Layer i) s →
  (∀ p b, i = IEvent p → bufs (layer s) !! p = Some b → parse_response (b_data b) = None) →
  fine (in_layer (handle i)) (λ s', FlowInv s' ∧ evolves (Layer i) s s') s.
Proof.
  intros I Hx Hev. pose proof Hx as (He & Hh & Hc & _). pose proof (fi_layer _ I) as Hs.
  apply in_layer_fine; [eapply safe_mono; [by apply handle_safe|done]|].
  intros h' E. pose proof (handle_frame i _ h' Hs He E Hev) as [HB HW HN HP (es & Ht & Hq)].
  assert (∀ w e, new_entry i (layer s) w e → foreign e) as Hf.
  { intros w e (_ & _ & Ecb). unfold foreign. by rewrite <- Ecb in Hc. }
  unfold fine. rewrite (in_layer_run _ _ h' es E Ht), run_callbacks_quiet by done.
  split; [|apply (posts_evolves _ _ _ None); try done;
    [split_and!; [cbn; by rewrite app_nil_r|done..]|
     intros w e [?|Hw]%HN Hcb; [done|by apply Hf, foreign_not_with_cb in Hw]|intros w e Hw _; left; by apply HW]].
  apply (finv_layer _ _ (touched i (layer s)) (new_entry i (layer s))); try done.
  - pose proof (handle_safe i _ Hs He) as Hsafe. unfold safe in Hsafe. by rewrite E in Hsafe.
  - intros p Hp. by apply held_untouched.
  - intros w e _ Hw. right. by eapply entry_untouched.
  - intros w e Hw. apply Hf in Hw as Hw'. destruct Hw as (_ & Ha & _).
    split_and!; [by left|by left|]. intros Hcb. by apply foreign_not_with_cb in Hw'.
  - by intros w w' e e' (-> & _) (-> & _).
Qed.
(** ** Answers *)

(** An answer to the command [w], in the event [p]. *)
Record answering (s : btu) (st : option Z) (p w : nat) (e : waiting_command_t) (h' : hci) : Prop := {
  an_settled : settled h';
  an_entry : waits (layer s) !! w = Some e;
  an_waits : waits h' = delete w (waits (layer s));
  an_bufs : bufs h' = free_all (response st e p).2 (bufs (layer s));
  an_trace : trace h' = trace (layer s) ++ option_list (response st e p).1.1;
  an_packets q : q ∈ packets_posted h' → q ∈ packets_posted (layer s);
  an_event : ¬ owned (layer s) p
}.

Lemma answering_command s st p w e h' : FlowInv s → answering s st p w e h' →
  command e ≠ p ∧ command e ∉ held s ∧ ¬ owned h' p ∧ ¬ owned h' (command e).
Proof.
  intros I []. assert (owned (layer s) (command e)) as Ho by (left; eauto). pose proof (fi_layer _ I) as Hs.
  split_and!.
  - by intros <-.
  - unfold held. intros (t & E & Ht)%list_elem_of_fmap. destruct (fi_tasks _ I _ Ht) as (b & _ & _ & Hn). by rewrite <- E in Hn.
  - rewrite owned_posted by done. intros [(w' & e' & Hw & E)|Hp%an_packets0].
    + rewrite an_waits0 in Hw. apply lookup_delete_Some in Hw as [_ Hw]. apply an_event0. left. eauto.
    + by apply an_event0, packet_owned.
  - rewrite owned_posted by done. pose proof Hs as (ts & pl & HI). intros [(w' & e' & Hw & E)|Hp%an_packets0].
    + rewrite an_waits0 in Hw. apply lookup_delete_Some in Hw as [Hne Hw]. apply Hne.
      by eapply (hi_inj _ _ _ _ HI).
    + unfold packets_posted in Hp. rewrite (hi_thread _ _ _ _ HI) in Hp. by eapply (hi_packets_own _ _ _ _ HI).
Qed.

Lemma finv_answered s st p w e h' : FlowInv s → p ∉ held s → answering s st p w e h' → FlowInv (set_layer h' s).
Proof.
  intros I Hp A. pose proof (answering_command _ _ _ _ _ _ I A) as (Hne & Hh & _). destruct A.
  pose proof (fi_layer _ I) as (ts & pl & HI).
  apply (finv_layer _ _ (λ q, q = p ∨ q = command e) no_new); try done.
  - intros q Hq. rewrite an_bufs0. assert (q ≠ p ∧ q ≠ command e) as [Hq1 Hq2] by tauto.
    unfold response. destruct st as [status|]; repeat case_match; cbn; by rewrite ?lookup_delete_ne by done.
  - intros w' e' Hw. rewrite an_waits0 in Hw. apply lookup_delete_Some in Hw as [_ Hw]. by left.
  - intros q Hq. left. by apply an_packets0.
  - intros q Hq [->| ->]; done.
  - intros w' e' Hw' Hw. right. rewrite an_waits0 in Hw'. apply lookup_delete_Some in Hw' as [Hn _]. intros [E|E].
    + apply an_event0. left. eauto.
    + apply Hn. by eapply (hi_inj _ _ _ _ HI).
Qed.

(** The task an answer posts; a Command Status of zero posts none for a command with a callback. *)
Definition answer_task (st : option Z) (p : nat) (e : waiting_command_t) : option main_task :=
  match st, complete_callback e with
  | None, Some 0%nat => Some (complete_on_task p (context e))
  | None, Some 1%nat => Some (complete_with_cb_on_task p (context e))
  | Some status, Some 0%nat => Some (status_on_task status (command e) (context e))
  | Some status, Some 1%nat => if status =? 0 then None else Some (status_with_cb_on_task status (command e) (context e))
  | _, _ => None
  end.

(** [osi_free] of a buffer nobody else knows of. *)
Lemma osi_free_ok s p b : FlowInv s → bufs (layer s) !! p = Some b → ¬ owned (layer s) p → p ∉ held s →
  let s' := set_layer (set_bufs (delete p (bufs (layer s))) (layer s)) s in
  osi_free p s = Ret tt s' ∧ FlowInv s'.
Proof.
  intros I Hb Ho Hh s'. split.
  { unfold osi_free, on_layer. by rewrite (free_buf_run _ _ _ Hb). }
  apply (finv_layer _ _ (λ q, q = p) no_new); try done.
  - destruct (fi_layer _ I) as (ts & pl & HI). exists ts, pl. by apply inv_free.
  - intros q Hq. cbn. by rewrite lookup_delete_ne.
  - intros w e Hw. by left.
  - intros q Hq. by left.
  - by intros q Hq ->.
  - intros w e _ Hw. right. intros <-. apply Ho. left. eauto.
Qed.

(** The callbacks of this file, and of others. *)
Lemma callback_status_with_cb status cmd ctx : run_callback (EStatus STATUS_EVT_WITH_CB status cmd ctx) =
  if status =? 0 then osi_free cmd else post (status_with_cb_on_task status cmd ctx).
Proof. reflexivity. Qed.
Lemma others_callbacks st e p s : foreign e → run_callbacks (option_list (response st e p).1.1) s = Ret tt s.
Proof.
  destruct e as [opc fut ccb scb ctx cmd]. intros (F1 & F2 & F3 & F4). cbn in *.
  destruct st as [status|]; [destruct scb as [cb|]|destruct ccb as [cb|]]; try (by destruct fut); cbn;
    rewrite !bool_decide_eq_false_2 by congruence; done.
Qed.

Lemma post_ok s h' t b : FlowInv (set_layer h' s) → bufs h' !! task_buf t = Some b → task_fits t b →
  ¬ owned h' (task_buf t) → task_buf t ∉ held s →
  (∀ w, task_wrapper t = Some w → (∃ cb, wrappers s !! w = Some (Some cb)) ∧ w ∉ due s ∧
    ∀ w' e, waits h' !! w' = Some e → with_cb e → wrapper_of (context e) ≠ w) →
  ∃ s', post t (set_layer h' s) = Ret tt s' ∧ FlowInv s' ∧ posts s s' (Some t) ∧ layer s' = h'.
Proof.
  intros I Hb Hf Ho Hh Hw. eexists. split; [done|]. split; [|done].
  by apply (finv_post (set_layer h' s) t b).
Qed.

Lemma answer_callbacks s st p w e h' b : FlowInv s → p ∉ held s → bufs (layer s) !! p = Some b →
  (st = None → response_long b) → answering s st p w e h' →
  ∃ s', run_callbacks (option_list (response st e p).1.1) (set_layer h' s) = Ret tt s' ∧ FlowInv s' ∧
    posts s s' (answer_task st p e) ∧ waits (layer s') = delete w (waits (layer s)) ∧
    ∀ t, answer_task st p e = Some t → bufs (layer s') !! task_buf t = bufs (layer s) !! task_buf t.
Proof.
  intros I Hp Hb Hr A. pose proof (finv_answered _ _ _ _ _ _ I Hp A) as I'.
  pose proof (answering_command _ _ _ _ _ _ I A) as (Hne & Hh & Hop & Hoc).
  pose proof (fi_entries _ I _ _ (an_entry _ _ _ _ _ _ A)) as Hk.
  assert (with_cb e → (∃ cb, wrappers s !! wrapper_of (context e) = Some (Some cb)) →
    (∃ cb, wrappers s !! wrapper_of (context e) = Some (Some cb)) ∧ wrapper_of (context e) ∉ due s ∧
    ∀ w' e', waits h' !! w' = Some e' → with_cb e' → wrapper_of (context e') ≠ wrapper_of (context e)) as Hx.
  { intros Hc Hcb. destruct A. split_and!; [done|by eapply fi_apart|]. intros w' e' Hw Hc' E.
    rewrite an_waits0 in Hw. apply lookup_delete_Some in Hw as [Hn Hw]. apply Hn. by eapply (fi_inj _ I). }
  destruct A. rewrite <- an_waits0.
  assert (∀ t b', task_buf t ∉ held s → bufs (layer s) !! task_buf t = Some b' →
    bufs h' !! task_buf t = Some b' → task_fits t b' → ¬ owned h' (task_buf t) →
    task_wrapper t = None ∨ with_cb e ∧ (∃ cb, wrappers s !! wrapper_of (context e) = Some (Some cb)) ∧
      task_wrapper t = Some (wrapper_of (context e)) →
    ∃ s', (post t ;; mret tt) (set_layer h' s) = Ret tt s' ∧ FlowInv s' ∧ posts s s' (Some t) ∧
      waits (layer s') = waits h' ∧ ∀ t', Some t = Some t' → bufs (layer s') !! task_buf t' = bufs (layer s) !! task_buf t')
    as Hpost.
  { intros t b' Hq Hbs Hb' Hf Ho Hw. destruct (post_ok s h' t b') as (s' & E & ? & ? & El); try done.
    - intros x Ex. destruct Hw as [Hw|(Hc & Hcb & Hw)]; [congruence|]. rewrite Hw in Ex. injection Ex as <-. by apply Hx.
    - exists s'. unfold mbind, M_bind. rewrite E, El. split_and!; try done. intros t' [= <-]. by rewrite Hbs, Hb'. }
  destruct e as [opc fut ccb scb ctx cmd].
  destruct Hk as [(F1 & F2 & F3 & F4)|([[Hc Hs]|[[Hc Hs] Hcb]] & bc & Hbc & Hl)]; cbn in *.
  - (* callbacks of others are not run here *)
    assert (answer_task st p (mk_waiting_command opc fut ccb scb ctx cmd) = None) as ->.
    { unfold answer_task. cbn. destruct st, ccb as [[|[|]]|]; done. }
    exists (set_layer h' s). split; [|split; [done|split; [|by split]]].
    + by apply others_callbacks.
    + split_and!; [cbn; by rewrite app_nil_r|done..].
  - subst ccb scb. destruct st as [status|]; cbn [response complete_callback status_callback command context fst snd]; unfold option_list at 1; cbn [option_rect run_callbacks].
    + apply (Hpost (status_on_task status cmd ctx) bc); try done; [|by left].
      rewrite an_bufs0. cbn. by rewrite lookup_delete_ne.
    + apply (Hpost (complete_on_task p ctx) b); try done; [|by apply Hr|by left].
      rewrite an_bufs0. cbn. by rewrite lookup_delete_ne.
  - subst ccb scb. destruct st as [status|]; cbn [response complete_callback status_callback command context fst snd]; unfold option_list at 1; cbn [option_rect run_callbacks].
    + assert (bufs h' !! cmd = Some bc) as Hb' by (rewrite an_bufs0; cbn; by rewrite lookup_delete_ne).
      rewrite callback_status_with_cb. unfold answer_task. cbn. destruct (Z.eqb_spec status 0) as [->|Hs].
      * destruct (osi_free_ok (set_layer h' s) cmd bc) as [Ef If]; try done. exists (set_layer (set_bufs (delete cmd (bufs h')) h') s).
        unfold mbind, M_bind. rewrite Ef. split; [done|]. split; [exact If|].
        split; [|by split]. split_and!; [cbn; by rewrite app_nil_r|done..].
      * apply (Hpost (status_with_cb_on_task status cmd ctx) bc); try done. right. by split_and!.
    + apply (Hpost (complete_with_cb_on_task p ctx) b); try done; [|by apply Hr|right; by split_and!].
      rewrite an_bufs0. cbn. by rewrite lookup_delete_ne.
Qed.

Lemma granted_packets credits ts pl h h' : hci_thread h = Some ts → granted credits ts pl h h' →
  packets_posted h' = packets_posted h.
Proof.
  intros Ht (Ht' & _). unfold packets_posted. rewrite Ht, Ht'. cbn. rewrite omap_app. clear Ht'.
  rewrite <- (app_nil_r (omap task_packet ts)) at 2. f_equal.
  induction (take _ _) as [|w l IH]; [done|]. exact IH.
Qed.

Lemma layer_answer s p b st credits opcode : FlowInv s → flow_enabled (Layer (IEvent p)) s →
  bufs (layer s) !! p = Some b → parse_response (b_data b) = Some (st, credits, opcode) →
  ∃ s', in_layer (handle (IEvent p)) s = Ret tt s' ∧ FlowInv s' ∧
    match answers s opcode with
    | Some w => ∃ e, waits (layer s) !! w = Some e ∧ posts s s' (answer_task st p e) ∧
        waits (layer s') = delete w (waits (layer s)) ∧
        ∀ t, answer_task st p e = Some t → bufs (layer s') !! task_buf t = bufs (layer s) !! task_buf t
    | None => posts s s' None ∧ waits (layer s') = waits (layer s)
    end.
Proof.
  intros I ((Ho & b' & Hb' & Hl) & Hh & _ & Hev) Hb Hp. assert (b' = b) as -> by congruence.
  assert (p ∉ held s) as Hnh by (apply Hh; by left). destruct (Hev b Hb) as [_ Hr].
  destruct (hci_event_received_ok (layer s) p b (fi_layer _ I) Hb Ho Hl) as [_ Hx].
  apply Hx in Hp as Ha. apply wp_run in Ha as ([] & h' & E & Hs' & ts & pl & Ht & Hpl & _ & _ & Ha).
  unfold answers. rewrite Hpl. cbn [from_option id handle].
  destruct (answered_by (layer s) pl opcode) as [w|] eqn:Ew.
  - destruct Ha as [Hg (e & He & Ew' & Hresp)]. destruct (response st e p) as [[eff fut] freed] eqn:Er.
    destruct Hresp as (Etr & _ & Eb).
    destruct (answer_callbacks s st p w e h' b) as (s' & E1 & I' & Hps & Hw' & Hbt); try done.
    { intros ->. by eapply Hr. }
    { split; try done; rewrite ?Er; try done. by rewrite (granted_packets _ _ _ _ _ Ht Hg). }
    exists s'. rewrite (in_layer_run _ _ h' (option_list (response st e p).1.1) E) by (by rewrite Er).
    split; [done|]. split; [done|]. by exists e.
  - destruct Ha as (Hg & Ew' & Etr & _ & Eb).
    exists (set_layer h' s). rewrite (in_layer_run _ _ h' [] E) by (by rewrite app_nil_r).
    split; [done|]. split; [|split; [split_and!; [cbn; by rewrite app_nil_r|done..]|done]].
    apply (finv_layer _ _ (λ q, q = p) no_new); try done.
    + intros q Hq. rewrite Eb. by rewrite lookup_delete_ne.
    + intros w e Hw. left. by rewrite <- Ew'.
    + intros q. rewrite (granted_packets _ _ _ _ _ Ht Hg). intros ?. by left.
    + by intros q Hq ->.
    + intros w e _ Hw. right. intros <-. apply Ho. left. eauto.
Qed.

(** Only entries with a wrapper post a task with one. *)
Lemma answer_task_wrapper s st p e k : entry_ok s e → answer_task st p e ≫= task_wrapper = Some k →
  with_cb e ∧ wrapper_of (context e) = k.
Proof.
  intros [(F1 & F2 & _)|[[[Ec Es]|[[Ec Es] _]] _]] Hk; unfold answer_task in Hk.
  - destruct (complete_callback e) as [[|[|]]|]; by destruct st.
  - rewrite Ec in Hk. by destruct st.
  - rewrite Ec in Hk. split; [done|]. destruct st as [status|]; cbn in Hk; [destruct (status =? 0); [done|]|]; by injection Hk.
Qed.

(** A command with a callback posts a task with its wrapper, or is accepted. *)
Lemma answer_tracked s p b st credits opcode w e : bufs (layer s) !! p = Some b →
  parse_response (b_data b) = Some (st, credits, opcode) → answers s opcode = Some w → waits (layer s) !! w = Some e →
  with_cb e → answer_task st p e ≫= task_wrapper = Some (wrapper_of (context e)) ∨
    wrapper_of (context e) ∈ accepted (Layer (IEvent p)) s.
Proof.
  intros Hb Hp Ha He Hc. unfold answer_task, accepted. rewrite Hb. cbn. rewrite Hp, Ha. cbn. rewrite He.
  pose proof Hc as [-> _]. destruct st as [[|n|n]|]; [right|by left..]. rewrite decide_True by done. by left.
Qed.

Lemma layer_ok i s : FlowInv s → flow_enabled (Layer i) s →
  fine (in_layer (handle i)) (λ s', FlowInv s' ∧ evolves (Layer i) s s') s.
Proof.
  intros I Hx. destruct i as [| | | | | | |p| | | | | | | |]; try (by apply layer_input_ok).
  pose proof Hx as ((_ & b & Hb & _) & _).
  destruct (parse_response (b_data b)) as [[[st credits] opcode]|] eqn:Ep.
  - destruct (layer_answer s p b st credits opcode) as (s' & E & I' & Ha); try done. unfold fine. rewrite E. split; [done|].
    destruct (answers s opcode) as [w|] eqn:Ea.
    + destruct Ha as (e & He & Hps & Ew & _). eapply posts_evolves; [done|done| | |].
      * rewrite Ew. intros w' e' Hw' _. by apply lookup_delete_Some in Hw' as [_ ?].
      * intros k Hk. exists w, e. split; [done|]. eapply answer_task_wrapper; [by apply (fi_entries _ I w)|done].
      * intros w' e' Hw' Hc. rewrite Ew. destruct (decide (w' = w)) as [->|Hne]; [right|left; by rewrite lookup_delete_ne].
        assert (e' = e) as -> by congruence. by eapply answer_tracked.
    + destruct Ha as [Hps Ew]. eapply posts_evolves; [done|done| |done|]; rewrite Ew; [done|]. intros w e Hw _. by left.
  - apply layer_input_ok; try done. intros q b' [= <-] Hb'. by assert (b' = b) as -> by congruence.
Qed.
End spec.
