(* ===== verification/BtuSendSpec.v ===== *)
(** * Bluetooth: the main thread and senders on the command path, and the path as a whole *)

From S2P Require Import Prelude CMonad BtTypes HciParser Controller HciLayer HciLayerInv HciLayerEvents.
From S2P Require Import HciLayerSpec HciLayerFrame BtmDev BtuDefs BtuHcif BtuCmd BtuHcifSpec BtuTaskSpec.
From S2P Require Import BtuFlow BtuFlowSpec.

Section spec.
Context `{!BtMacros, !HcicSizes, !HciDefs, !FeatureBits, !BtConfig, !HciLayerDefs, !HciPlatform, !LeOpcodes,
  !BtmFeatureBits, !BtmMasks, !BtmConfig, !BtmModules,
  !BtuModules, !BtuMacros, !BtuEvents, !BtuOpcodes, !BtuConfig, !HciPlatformOk, !HciCodesOk}.
Implicit Types s : btu.

(** ** Tasks *)

(** [s'] is [s] after its first task [t] was run. *)
Definition freed_by (t : main_task) (s : btu) : hci := set_bufs (delete (task_buf t) (bufs (layer s))) (layer s).
Definition wrappers_after (t : main_task) (s : btu) : gmap nat (option nat) :=
  match task_wrapper t with Some w => delete w (wrappers s) | None => wrappers s end.
Definition done_with (t : main_task) (ts : list main_task) (s s' : btu) : Prop :=
  layer s' = freed_by t s ∧ wrappers s' = wrappers_after t s ∧ main_tasks s' = ts ∧ effects (dev s') = [].

Lemma finv_done t ts s s' : FlowInv s → main_tasks s = t :: ts → done_with t ts s s' → FlowInv s'.
Proof.
  intros I Et (El & Ew & Em & He). destruct I.
  unfold held, due in *. rewrite Et in fi_tasks, fi_held, fi_due, fi_due_once, fi_apart. cbn in fi_held.
  apply NoDup_cons in fi_held as [Hnb Hnd].
  assert (∀ w, w ∈ omap task_wrapper ts → w ∈ omap task_wrapper (t :: ts)) as Hsub.
  { intros w Hw. cbn. destruct (task_wrapper t); [by right|done]. }
  assert (∀ w, w ∈ omap task_wrapper ts → wrappers s' !! w = wrappers s !! w) as Hkeep.
  { intros w Hw. rewrite Ew. unfold wrappers_after. destruct (task_wrapper t) as [w'|] eqn:E; [|done].
    rewrite lookup_delete_ne; [done|]. intros ->. cbn in fi_due_once. rewrite E in fi_due_once.
    by apply NoDup_cons in fi_due_once as [? _]. }
  assert (∀ w e, waits (layer s) !! w = Some e → with_cb e → wrappers s' !! wrapper_of (context e) = wrappers s !! wrapper_of (context e))
    as Hkeep'.
  { intros w e Hw Hc. rewrite Ew. unfold wrappers_after. destruct (task_wrapper t) as [w'|] eqn:E; [|done].
    rewrite lookup_delete_ne; [done|]. intros ->. eapply fi_apart; [done..|]. cbn. rewrite E. by left. }
  destruct (fi_tasks t ltac:(by left)) as (bt & Hbt & _ & Hot).
  split; unfold held, due; rewrite ?Em, ?El; unfold freed_by; cbn [layer bufs set_bufs waits]; try done.
  - destruct fi_layer as (tl & pl & HI). exists tl, pl. by apply inv_free.
  - intros t' Ht'. destruct (fi_tasks t' ltac:(by right)) as (b & Hb & Hf & Ho). exists b.
    rewrite lookup_delete_ne; [done|]. intros E. apply Hnb. rewrite E. by apply list_elem_of_fmap_2.
  - intros w e Hw. destruct (fi_entries w e Hw) as [?|(Hk & b & Hb & Hl)]; [by left|]. right. split.
    + destruct Hk as [?|[Hc Hcb]]; [by left|right]. split; [done|]. by rewrite (Hkeep' w e).
    + exists b. unfold entry_ok. rewrite El. unfold freed_by. cbn. rewrite lookup_delete_ne; [done|].
      intros E. apply Hot. rewrite E. left. eauto.
  - intros w Hw. rewrite Hkeep by done. by apply fi_due, Hsub.
  - cbn in fi_due_once. destruct (task_wrapper t); [|done]. by apply NoDup_cons in fi_due_once as [_ ?].
  - intros w e Hw Hc Hin. eapply fi_apart; [done..|]. by apply Hsub.
Qed.

(** The bytes and the length the callback of a task is run with. *)
Definition task_answer (t : main_task) (b : buf) : bytes * Z :=
  match t with
  | status_on_task status _ _ | status_with_cb_on_task status _ _ => ([status], 2)
  | _ => (drop 5 (drop (b_offset b) (b_data b)), u16 (b_len b - 5))
  end.

(** The callback a task runs is the last call it makes. *)
Definition task_calls (t : main_task) (b : buf) (s s' : btu) : Prop :=
  match task_wrapper t with
  | Some w => ∃ cb, wrappers s !! w = Some (Some cb) ∧ ran (calls s') = ran (calls s) ++ [cb] ∧
      last (calls s') = Some (run_cb cb (task_answer t b).1 (task_answer t b).2)
  | None => ran (calls s') = ran (calls s)
  end.

(** *** What the tasks have in common *)

Lemma run_stream {B} p b (k : bytes → M btu B) s : bufs (layer s) !! p = Some b →
  (stream_of p ≫= k) s = k (drop (b_offset b) (b_data b)) s.
Proof. intros Hb. unfold stream_of, on_layer, load_buf, mbind, M_bind. rewrite Hb. by destruct s. Qed.
Lemma run_load {B} p b (k : buf → M btu B) s : bufs (layer s) !! p = Some b →
  (on_layer (load_buf p) ≫= k) s = k b s.
Proof. intros Hb. unfold on_layer, load_buf, mbind, M_bind. rewrite Hb. by destruct s. Qed.
Lemma run_handled (m : M btu unit) (k : unit → M btu unit) s s1 : m s = Ret tt s1 → (m ≫= k) s = k tt s1.
Proof. intros E. unfold mbind, M_bind. by rewrite E. Qed.

Lemma osi_free_run p b s : bufs (layer s) !! p = Some b →
  osi_free p s = Ret tt (set_layer (set_bufs (delete p (bufs (layer s))) (layer s)) s).
Proof. intros Hb. unfold osi_free, on_layer. by rewrite (free_buf_run _ _ _ Hb). Qed.

(** The end of a task with a callback. *)
Lemma run_wrapper_end w cb p n q b s : wrappers s !! w = Some (Some cb) → bufs (layer s) !! q = Some b →
  (run_wrapper w p n ;; free_wrapper w ;; osi_free q) s =
  Ret tt (set_layer (set_bufs (delete q (bufs (layer s))) (layer s))
    (set_wrappers (delete w (wrappers s)) (add_calls [run_cb cb p n] s))).
Proof.
  intros Hw Hb. unfold run_wrapper, free_wrapper, store_wrapper, load_wrapper, tell_call, mbind, M_bind, modify. rewrite Hw.
  cbn. rewrite Hw. cbn. rewrite lookup_insert_eq. cbn. rewrite (osi_free_run q b) by done. cbn.
  by rewrite delete_insert_eq.
Qed.

Ltac long := unfold response_long, command_long, long_enough in *; rewrite ?length_drop in *; lia.

(** A task without a callback, once its handlers are done. *)
Lemma plain_end t ts b (m1 m2 : M btu unit) s : effects (dev s) = [] → main_tasks s = ts → task_wrapper t = None →
  bufs (layer s) !! task_buf t = Some b → handled m1 s → (∀ s1, effects (dev s1) = [] → handled m2 s1) →
  ∃ s', (m1 ;; m2 ;; osi_free (task_buf t)) s = Ret tt s' ∧ done_with t ts s s' ∧ ran (calls s') = ran (calls s).
Proof.
  intros He Et Ew Hb (s1 & E1 & A1 & B1 & C1 & D1 & F1) Hm2. destruct (Hm2 s1 D1) as (s2 & E2 & A2 & B2 & C2 & D2 & F2).
  rewrite (run_handled _ _ _ _ E1), (run_handled _ _ _ _ E2).
  rewrite (osi_free_run _ b) by (by rewrite A2, A1). eexists. split; [done|].
  split; [|etrans; [exact F2|exact F1]]. unfold done_with, freed_by, wrappers_after. cbn. rewrite Ew, A2, A1. split_and!; congruence.
Qed.

(** One with a callback. *)
Lemma callback_end t ts b w cb (m : M btu unit) s : effects (dev s) = [] → main_tasks s = ts →
  task_wrapper t = Some w → bufs (layer s) !! task_buf t = Some b → wrappers s !! w = Some (Some cb) → handled m s →
  ∃ s', (m ;; run_wrapper w (task_answer t b).1 (task_answer t b).2 ;; free_wrapper w ;; osi_free (task_buf t)) s = Ret tt s' ∧
    done_with t ts s s' ∧ task_calls t b s s'.
Proof.
  intros He Et Ew Hb Hw (s1 & E1 & A1 & B1 & C1 & D1 & F1). rewrite (run_handled _ _ _ _ E1).
  rewrite (run_wrapper_end w cb _ _ _ b) by (by rewrite ?A1, ?B1). eexists. split; [done|].
  unfold done_with, freed_by, wrappers_after, task_calls. cbn. rewrite Ew, A1, B1.
  split; [split_and!; [done|done|by rewrite C1|done]|].
  exists cb. split; [done|]. split; [unfold ran in *; by rewrite omap_app, F1|by rewrite last_snoc].
Qed.

Lemma drop_5 (p : bytes) : drop 5 p = drop 2 (drop 3 p).
Proof. by rewrite drop_drop. Qed.

Lemma task_run t ts s b : main_tasks s = ts → effects (dev s) = [] → bufs (layer s) !! task_buf t = Some b →
  task_fits t b → (∀ w, task_wrapper t = Some w → ∃ cb, wrappers s !! w = Some (Some cb)) →
  ∃ s', run_main_task t s = Ret tt s' ∧ done_with t ts s s' ∧ task_calls t b s s'.
Proof.
  intros Et He Hb Hf Hw. destruct t as [p ctx|p ctx|status p ctx|status p ctx];
    cbn [run_main_task task_buf task_fits task_wrapper] in *.
  - unfold btu_hcif_command_complete_evt_on_task, STREAM_TO_UINT16. rewrite (run_load _ b), (run_stream _ b) by done.
    rewrite bind_stream by long. cbv beta iota.
    destruct (plain_end (complete_on_task p ctx) ts b
      (btu_hcif_log_command_complete_metrics (rd16 (drop 3 (drop (b_offset b) (b_data b)))) (drop 2 (drop 3 (drop (b_offset b) (b_data b)))))
      (btu_hcif_hdl_command_complete (rd16 (drop 3 (drop (b_offset b) (b_data b)))) (drop 2 (drop 3 (drop (b_offset b) (b_data b))))
        (u16 (b_len b - 5)) ctx) s) as (s' & E & ? & ?); try done.
    + apply complete_metrics_handled; [done|]. destruct Hf. done.
    + intros s1 He1. apply complete_handled; [done|]. destruct Hf. unfold return_size in *. lia.
    + by exists s'.
  - destruct (Hw _ eq_refl) as [cb Hcb].
    unfold btu_hcif_command_complete_evt_with_cb_on_task, STREAM_TO_UINT16. rewrite (run_load _ b), (run_stream _ b) by done.
    rewrite bind_stream by long. cbv beta iota.
    pose proof (callback_end (complete_with_cb_on_task p ctx) ts b _ cb
      (btu_hcif_log_command_complete_metrics (rd16 (drop 3 (drop (b_offset b) (b_data b)))) (drop 2 (drop 3 (drop (b_offset b) (b_data b)))))
      s He Et eq_refl Hb Hcb) as Hx.
    cbn [task_answer fst snd] in Hx. rewrite (drop_5 (drop (b_offset b) (b_data b))) in Hx. apply Hx.
    apply complete_metrics_handled; [done|]. by destruct Hf.
  - unfold btu_hcif_command_status_evt_on_task, STREAM_TO_UINT16. rewrite (run_stream _ b) by done.
    rewrite bind_stream by long. cbv beta iota.
    destruct (plain_end (status_on_task status p ctx) ts b
      (btu_hcif_log_command_metrics (rd16 (drop (b_offset b) (b_data b))) (drop 1 (drop 2 (drop (b_offset b) (b_data b)))) status true)
      (btu_hcif_hdl_command_status (rd16 (drop (b_offset b) (b_data b))) status (drop 2 (drop (b_offset b) (b_data b))) ctx) s)
      as (s' & E & ? & ?); try done.
    + apply command_metrics_handled; [done|]. long.
    + intros s1 He1. apply status_handled; [done|]. long.
    + by exists s'.
  - destruct (Hw _ eq_refl) as [cb Hcb]. destruct Hf as [Hf Hs].
    unfold btu_hcif_command_status_evt_with_cb_on_task, STREAM_TO_UINT16. rewrite (run_stream _ b) by done.
    rewrite bind_stream by long. cbv beta iota. rewrite (proj2 (Z.eqb_neq _ _) Hs).
    pose proof (callback_end (status_with_cb_on_task status p ctx) ts b _ cb
      (btu_hcif_log_command_metrics (rd16 (drop (b_offset b) (b_data b))) (drop 1 (drop 2 (drop (b_offset b) (b_data b)))) status true)
      s He Et eq_refl Hb Hcb) as Hx.
    cbn [check negb]. apply Hx. apply command_metrics_handled; [done|]. long.
Qed.

Lemma task_evolves t ts b s s' : FlowInv s → main_tasks s = t :: ts → done_with t ts s s' → task_calls t b s s' → evolves Main s s'.
Proof.
  intros I Et (El & Ew & Em & _) Hc. 
  assert (∀ w, task_wrapper t = Some w → w ∈ due s) as Hdue by (intros w Hw; unfold due; rewrite Et; cbn; rewrite Hw; by left).
  split.
  - intros w e Hw _. left. by rewrite El in Hw.
  - intros k. unfold due. rewrite Em, Et. cbn. intros Hk. left. destruct (task_wrapper t); [by right|done].
  - intros k c Hk Hn. rewrite Ew. unfold wrappers_after. destruct (task_wrapper t) as [w|]; [|done].
    rewrite lookup_delete_ne; [done|]. intros ->. by apply Hn, Hdue.
  - rewrite Ew, app_nil_r. unfold wrappers_after, task_calls in *. destruct (task_wrapper t) as [w|]; [|by rewrite Hc].
    destruct Hc as (cb & Hw & -> & _). by rewrite (callbacks_in_delete (wrappers s) w cb), <- app_assoc.
  - intros k. rewrite Ew. unfold wrappers_after. destruct (task_wrapper t); [|by left].
    intros [c Hk]. apply lookup_delete_Some in Hk as [_ Hk]. left. by exists c.
  - intros k Hr Hk. rewrite Ew in Hk. unfold wrappers_after in Hk. destruct Hr as [Hd|(w & e & He & Hcb & Ek)].
    + left. unfold due in *. rewrite Et in Hd. cbn in Hd. rewrite Em. destruct (task_wrapper t) as [w|]; [|done].
      apply elem_of_cons in Hd as [->|?]; [|done]. rewrite lookup_delete_eq in Hk. by destruct Hk.
    + right. left. exists w, e. by rewrite El.
Qed.

(** The main thread runs its next task to the end. *)
Lemma main_run s t ts : FlowInv s → main_tasks s = t :: ts →
  ∃ b s', bufs (layer s) !! task_buf t = Some b ∧ run_next_main_task s = Ret tt s' ∧ FlowInv s' ∧ evolves Main s s' ∧
    done_with t ts s s' ∧ task_calls t b s s'.
Proof.
  intros I Et. destruct (fi_tasks _ I t) as (b & Hb & Hf & _); [rewrite Et; by left|].
  destruct (task_run t ts (set_main_tasks ts s) b) as (s' & E & Hd & Hc); try done.
  - apply I.
  - intros w Hw. apply (fi_due _ I). unfold due. rewrite Et. cbn. rewrite Hw. by left.
  - exists b, s'. unfold run_next_main_task, mbind, M_bind, get. rewrite Et.
    assert (done_with t ts s s') as Hd' by exact Hd.
    split_and!; try done; [by eapply finv_done|by eapply task_evolves].
Qed.

Lemma main_ok s : FlowInv s → fine run_next_main_task (λ s', FlowInv s' ∧ evolves Main s s') s.
Proof.
  intros I. destruct (main_tasks s) as [|t ts] eqn:Et.
  - unfold fine, run_next_main_task, mbind, M_bind, get. rewrite Et. split; [done|].
    apply (posts_evolves _ _ _ None); try done; [by split_and!; rewrite ?app_nil_r|]. intros w e Hw _. by left.
  - destruct (main_run s t ts I Et) as (b & s' & _ & E & I' & Hv & _). unfold fine. by rewrite E.
Qed.
End spec.

(** * Sending, and the command path as a whole *)

Section spec.
Context `{!BtMacros, !HcicSizes, !HciDefs, !FeatureBits, !BtConfig, !HciLayerDefs, !HciPlatform, !LeOpcodes,
  !BtmFeatureBits, !BtmMasks, !BtmConfig, !BtmModules,
  !BtuModules, !BtuMacros, !BtuEvents, !BtuOpcodes, !BtuConfig, !HciPlatformOk, !HciCodesOk, !BtMacrosOk, !BtuCmdOk}.
Implicit Types s : btu.

Lemma finv_leaves s s' : FlowInv s → leaves s s' → FlowInv s'.
Proof.
  intros [] (El & Ew & Em & He & _). split; unfold held, due; rewrite ?Em; rewrite ?El; try done.
  - intros w e Hw. destruct (fi_entries w e Hw) as [?|[Hk Hb]]; [by left|right]. split; [by rewrite Ew|by rewrite El].
  - intros w Hw. rewrite Ew. by apply fi_due.
Qed.

Lemma finv_wrapper s w cb : FlowInv s → wrappers s !! w = None → FlowInv (set_wrappers (<[w := Some cb]> (wrappers s)) s).
Proof.
  intros [] Hw. assert (∀ x, (∃ c, wrappers s !! x = Some (Some c)) → ∃ c, <[w := Some cb]> (wrappers s) !! x = Some (Some c)) as Hx.
  { intros x [c Hc]. exists c. rewrite lookup_insert_ne; [done|]. intros ->. congruence. }
  split; unfold held, due; cbn; try done.
  - intros x e He. destruct (fi_entries x e He) as [?|([?|[Hc Hcb]] & Hb)]; [by left|right; split; [by left|done]|].
    right. split; [|done]. right. split; [done|]. by apply Hx.
  - intros x Hd. by apply Hx, fi_due.
Qed.

(** A command goes to the layer, which calls nobody back. *)
Lemma transmit_ok s cmd complete status ctx b : FlowInv s → command_given (layer s) cmd → cmd ∉ held s →
  bufs (layer s) !! cmd = Some b →
  let e := entry_of b None complete status ctx cmd in
  (∀ h', bufs h' !! cmd = Some (as_command b) → entry_ok (set_layer h' s) e) →
  (with_cb e → wrapper_of ctx ∉ due s ∧
    ∀ w' e', waits (layer s) !! w' = Some e' → with_cb e' → wrapper_of (context e') ≠ wrapper_of ctx) →
  ∃ s', in_layer (transmit_command cmd complete status ctx) s = Ret tt s' ∧ FlowInv s' ∧ posts s s' None ∧
    waits (layer s') !! next_wait (layer s) = Some e ∧
    (∀ w e', waits (layer s') !! w = Some e' → waits (layer s) !! w = Some e' ∨ e' = e) ∧
    ∀ w e', waits (layer s) !! w = Some e' → waits (layer s') !! w = Some e'.
Proof.
  intros I Hg Hh Hb e Hok Hcb. pose proof (fi_layer _ I) as Hs.
  destruct (wp_run _ _ _ (transmit_command_ok _ _ complete status ctx Hs Hg)) as ([] & h' & E & Hs' & _).
  destruct (transmit_frame _ _ b _ _ _ _ Hs Hb E) as ([HB HW HN HP _] & Hw & Ht & HBb & _). cbn [command entry_of] in *.
  exists (set_layer h' s). rewrite (in_layer_run _ _ h' [] E) by (by rewrite app_nil_r).
  split; [done|]. split; [|split; [split_and!; [cbn; by rewrite app_nil_r|done..]|split; [exact Hw|]]].
  2: { split; [|exact HW]. intros w e' [?|[_ ->]]%HN; [by left|by right]. }
  apply (finv_layer _ _ (λ p, p = cmd) (λ w e', w = next_wait (layer s) ∧ e' = e)); try done.
  - by intros p Hp ->.
  - intros w e' _ Hw'. right. intros <-. destruct Hg as [Ho _]. apply Ho. left. eauto.
  - intros w e' [-> ->]. split; [done|]. split; [|exact Hcb]. apply Hok. rewrite HBb. by rewrite lookup_insert_eq.
  - by intros w w' e1 e2 [-> _] [-> _].
Qed.

(** *** [btu_hcif_send_cmd_with_cb] *)

(** The command as it is laid out in its buffer. *)
Definition command_data (opcode : Z) (params : option bytes) (params_len : Z) : bytes :=
  wr16 opcode ++ wr8 params_len ++
  match params with
  | Some ps => take (Z.to_nat params_len) ps ++ drop (3 + Z.to_nat params_len) uninit_bytes
  | None => drop 3 uninit_bytes
  end.
Definition command_buf (opcode : Z) (params : option bytes) (params_len : Z) : buf :=
  mk_buf uninit_event (u16 (HCIC_PREAMBLE_SIZE + params_len)) 0 (command_data opcode params params_len).

Lemma command_data_length opcode params n : 0 ≤ n < 256 →
  match params with Some ps => n ≤ Z.of_nat (length ps) | None => True end →
  length (command_data opcode params n) = length uninit_bytes.
Proof.
  intros Hn Hp. pose proof cmd_buf_size as Hu. unfold command_data. rewrite !length_app, wr16_length, wr8_length.
  destruct params as [ps|]; rewrite ?length_app, ?length_take, !length_drop; lia.
Qed.

Lemma send_with_cb_run opcode params n cb s : 0 ≤ n < 256 →
  match params with Some ps => n ≤ Z.of_nat (length ps) | None => True end →
  let b := command_buf opcode params n in
  btu_hcif_send_cmd_with_cb opcode params n cb s =
  (p ← osi_malloc_cmd b;
   btu_hcif_log_command_metrics opcode (drop 3 (b_data b)) STATUS_UNKNOWN false ;;
   cb_wrapper ← new_wrapper;
   store_wrapper cb_wrapper (Some cb) ;;
   in_layer (transmit_command p (Some COMPLETE_EVT_WITH_CB) (Some STATUS_EVT_WITH_CB) (Z.of_nat cb_wrapper))) s.
Proof.
  intros Hn Hp b. pose proof cmd_buf_size as Hu. unfold btu_hcif_send_cmd_with_cb. subst b. unfold command_buf, command_data.
  destruct params as [ps|]; rewrite !bool_decide_eq_true_2 by lia; done.
Qed.

Lemma fresh_buf s : FlowInv s → bufs (layer s) !! fresh (dom (bufs (layer s))) = None ∧
  ¬ owned (layer s) (fresh (dom (bufs (layer s)))) ∧ fresh (dom (bufs (layer s))) ∉ held s.
Proof.
  intros I. pose proof (is_fresh (dom (bufs (layer s)))) as Hf. apply not_elem_of_dom in Hf. split_and!; [done|..].
  - intros Ho. destruct (fi_layer _ I) as (ts & pl & HI). apply (owned_some _ _ _ _ _ HI) in Ho as [? ?]. congruence.
  - unfold held. intros (t & E & Ht)%list_elem_of_fmap. destruct (fi_tasks _ I _ Ht) as (b & Hb & _). congruence.
Qed.

(** A new buffer. *)
Lemma alloc_ok s b : FlowInv s →
  let p := fresh (dom (bufs (layer s))) in
  let s1 := set_layer (set_bufs (<[p := b]> (bufs (layer s))) (layer s)) s in
  osi_malloc_cmd b s = Ret p s1 ∧ FlowInv s1 ∧ bufs (layer s1) !! p = Some b ∧ ¬ owned (layer s1) p ∧ p ∉ held s1.
Proof.
  intros I p s1. destruct (fresh_buf s I) as (Hfree & Hno & Hnh). split; [done|]. split; [|split; [by apply lookup_insert_eq|done]].
  apply (finv_layer _ _ (λ q, q = p) no_new); try done.
  - destruct (fi_layer _ I) as (ts & pl & HI). exists ts, pl. by apply inv_store_fresh.
  - intros q Hq. cbn. by rewrite lookup_insert_ne.
  - intros w e Hw. by left.
  - intros q Hq. by left.
  - by intros q Hq ->.
  - intros w e _ Hw. right. intros E. apply Hno. left. by exists w, e.
Qed.

(** A new wrapper with its callback; nothing refers to it yet. *)
Lemma wrapper_ok s cb : FlowInv s →
  let w := fresh (dom (wrappers s)) in
  let s1 := set_wrappers (<[w := Some cb]> (wrappers s)) s in
  (∀ k : nat → M btu unit, (x ← new_wrapper; store_wrapper x (Some cb) ;; k x) s = k w s1) ∧ FlowInv s1 ∧
  wrappers s !! w = None ∧ w ∉ due s ∧
  ∀ w' e', waits (layer s) !! w' = Some e' → with_cb e' → wrapper_of (context e') ≠ w.
Proof.
  intros I w s1. assert (wrappers s !! w = None) as Hw by (apply not_elem_of_dom, is_fresh). split_and!.
  - intros k. unfold new_wrapper, store_wrapper, load_wrapper, mbind, M_bind, modify. fold w. cbn.
    rewrite lookup_insert_eq. cbn. by rewrite insert_insert_eq.
  - by apply finv_wrapper.
  - done.
  - intros Hd. apply (fi_due _ I) in Hd as [c Hc]. congruence.
  - intros w' e' Hw' Hc E'. destruct (fi_entries _ I w' e' Hw') as [Hf|([Hf|[_ [c Hcb]]] & _)].
    + by apply foreign_not_with_cb in Hf.
    + by apply plain_not_with_cb in Hf.
    + congruence.
Qed.

Lemma command_buf_long opcode params n : 0 ≤ n < 256 →
  match params with Some ps => n ≤ Z.of_nat (length ps) | None => True end →
  let b := command_buf opcode params n in
  command_long (as_command b) ∧ (command_size opcode ≤ length (drop 3 (b_data b)))%nat ∧
  (b_offset b + (if (3 <? b_len b)%Z then 4 else 3) ≤ length (b_data b))%nat.
Proof.
  intros Hn Hp b. pose proof (command_data_length opcode params n Hn Hp) as Hl. pose proof cmd_buf_size as Hu.
  pose proof (command_size_bound opcode). pose proof (command_size_bound (rd16 (command_data opcode params n))).
  unfold command_long, long_enough. subst b. cbn. rewrite drop_0, !length_drop, Hl. destruct (3 <? _)%Z; lia.
Qed.

(** The entry and the wrapper of a command sent with the callback [cb]. *)
Definition sent_as (opcode : Z) (params : option bytes) (n : Z) (cb : nat) (w : nat) (s s' : btu) : Prop :=
  wrappers s !! w = None ∧ wrappers s' = <[w := Some cb]> (wrappers s) ∧
  ∃ e, waits (layer s') !! next_wait (layer s) = Some e ∧ with_cb e ∧ wrapper_of (context e) = w ∧
    w_opcode e = rd16 (command_data opcode params n).

Lemma send_ok opcode params n cb s : FlowInv s → flow_enabled (Send opcode params n cb) s →
  ∃ w s', btu_hcif_send_cmd_with_cb opcode params n cb s = Ret tt s' ∧ FlowInv s' ∧ sent_as opcode params n cb w s s' ∧
    evolves (Send opcode params n cb) s s'.
Proof.
  intros I [Hn Hp]. rewrite send_with_cb_run by done. set (b := command_buf opcode params n).
  destruct (command_buf_long opcode params n Hn Hp) as (Hlong & Hsize & Hhead). fold b in Hlong, Hsize, Hhead.
  destruct (alloc_ok s b I) as (E1 & I1 & Hb & Ho & Hh). set (p := fresh (dom (bufs (layer s)))) in *. set (s1 := set_layer _ s) in *.
  unfold mbind at 1, M_bind at 1. rewrite E1. cbv beta iota.
  destruct (command_metrics_handled opcode (drop 3 (b_data b)) STATUS_UNKNOWN false s1) as (s2 & E2 & L2); [apply I1|done|].
  rewrite (run_handled _ _ _ _ E2). pose proof (finv_leaves _ _ I1 L2) as I2. destruct L2 as (El & Ew & Em & He & Er).
  destruct (wrapper_ok s2 cb I2) as (E3 & I3 & Hw & Hd & Hne). set (w := fresh (dom (wrappers s2))) in *.
  set (s3 := set_wrappers (<[w := Some cb]> (wrappers s2)) s2) in *. rewrite E3.
  assert (layer s3 = layer s1) as El3 by done. assert (wrapper_of (Z.of_nat w) = w) as Hwo by apply Nat2Z.id.
  destruct (transmit_ok s3 p (Some COMPLETE_EVT_WITH_CB) (Some STATUS_EVT_WITH_CB) (Z.of_nat w) b)
    as (s' & E & I' & (Pm & Pw & Pc) & Hwait & Hnew & Hold).
  - done.
  - split; [by rewrite El3|]. exists b. by rewrite El3.
  - unfold held. cbn. by rewrite Em.
  - by rewrite El3.
  - intros h' Hh'. right. split; [|by exists (as_command b)]. right. split; [done|]. exists cb. cbn. rewrite Hwo. apply lookup_insert_eq.
  - rewrite Hwo. done.
  - exists w, s'. split; [done|]. split; [done|]. rewrite El3 in Hwait.
    assert (wrappers s' = <[w := Some cb]> (wrappers s)) as Ew' by (rewrite Pw; cbn; by rewrite Ew).
    assert (wrappers s !! w = None) as Hw' by (by rewrite Ew in Hw).
    split; [split_and!; [done|done|eexists; split; [exact Hwait|by split_and!]]|]. split.
    + intros w' e' He' Hc. apply Hnew in He' as [He'| ->]; [left; by rewrite El3 in He'|right]. cbn. by rewrite Hwo.
    + intros k Hk. left. unfold due in *. rewrite Pm in Hk. cbn in Hk. by rewrite Em, app_nil_r in Hk.
    + intros k c Hk _. rewrite Ew', lookup_insert_ne; [done|]. intros ->. congruence.
    + rewrite Ew', callbacks_in_insert by done. rewrite Pc. cbn [calls s3 set_wrappers].
      assert (ran (calls s2) = ran (calls s)) as -> by exact Er. by rewrite <- app_assoc.
    + intros k. rewrite Ew'. destruct (decide (k = w)) as [->|?]; [right|left; by rewrite lookup_insert_ne in *].
      eexists _, _. split; [exact Hwait|]. by split.
    + intros k Hr _. unfold due in *. rewrite Pm, app_nil_r. cbn. rewrite Em. destruct Hr as [?|(x & e & Hxe & Hc & Ek)]; [by left|].
      right. left. exists x, e. split; [|done]. apply Hold. by rewrite El3.
Qed.

(** *** [btu_hcif_send_cmd] *)

Lemma send_buf_ok p s : FlowInv s → flow_enabled (SendBuf p) s →
  ∃ s', btu_hcif_send_cmd (Some p) s = Ret tt s' ∧ FlowInv s' ∧ evolves (SendBuf p) s s'.
Proof.
  intros I (Hg & Hh & b & Hb & [Hl2 Hl] & Hv). unfold btu_hcif_send_cmd. rewrite (run_stream _ b) by done.
  unfold STREAM_TO_UINT16. rewrite bind_stream by done. cbv beta iota.
  set (st := drop (b_offset b) (b_data b)) in *. set (opcode := rd16 st) in *.
  assert (∀ (c : bool) (k : Z → M btu unit), ∃ ctx,
    ((if c then b ← on_layer (load_buf p);
        require (bool_decide (sizeof_voidp ≤ length (b_data b))%nat) ;;
        mret (le_value (take sizeof_voidp (b_data b)))
      else mret 0) ≫= k) s = k ctx s) as Hctx.
  { intros [] k; [|by exists 0]. eexists. unfold mbind at 1, M_bind at 1. rewrite (run_load _ b) by done.
    rewrite bool_decide_eq_true_2 by done. reflexivity. }
  match goal with |- context [if ?c then _ else mret 0] => destruct (Hctx c (λ vsc_callback,
    btu_hcif_log_command_metrics opcode (drop 1 (drop 2 st)) STATUS_UNKNOWN false ;;
    in_layer (transmit_command p (Some COMPLETE_EVT) (Some STATUS_EVT) vsc_callback))) as [ctx ->] end. 
  destruct (command_metrics_handled opcode (drop 1 (drop 2 st)) STATUS_UNKNOWN false s) as (s2 & E2 & L2);
    [apply I|rewrite length_drop; lia|].
  rewrite (run_handled _ _ _ _ E2). pose proof (finv_leaves _ _ I L2) as I2. destruct L2 as (El & Ew & Em & He & Er).
  destruct (transmit_ok s2 p (Some COMPLETE_EVT) (Some STATUS_EVT) ctx b) as (s' & E & I' & (Pm & Pw & Pc) & _ & Hnew & Hold);
    rewrite ?El; try done.
  - unfold held. by rewrite Em.
  - intros h' Hh'. right. split; [by left|]. by exists (as_command b).
  - by intros [].
  - exists s'. split; [done|]. split; [done|]. rewrite El in Hnew.
    apply (posts_evolves _ _ _ None); [|done| |done|].
    + split_and!; [by rewrite Pm, Em|by rewrite Pw|by rewrite Pc].
    + intros w e Hw Hc. apply Hnew in Hw as [?| ->]; [done|]. by destruct Hc.
    + intros w e Hw _. left. apply Hold. by rewrite El.
Qed.

(** ** Every step *)

Lemma flow_ok x s : FlowInv s → flow_enabled x s → fine (flow_step x) (λ s', FlowInv s' ∧ evolves x s s') s.
Proof.
  intros I Hx. destruct x as [opcode params n cb|p|i|]; cbn [flow_step].
  - destruct (send_ok _ _ _ _ _ I Hx) as (w & s' & E & ? & _ & ?). unfold fine. by rewrite E.
  - destruct (send_buf_ok _ _ I Hx) as (s' & E & ? & ?). unfold fine. by rewrite E.
  - by apply layer_ok.
  - by apply main_ok.
Qed.
End spec.
