(* ===== verification/BtuCmdSpec.v ===== *)
(** * Bluetooth: what becomes of a command

    From the module that sends it, through the HCI layer and back to its callback on
    the main thread. *)

From S2P Require Import Prelude CMonad BtTypes HciParser Controller HciLayer HciLayerInv HciLayerEvents.
From S2P Require Import HciLayerSpec HciLayerFrame BtmDev BtuDefs BtuHcif BtuCmd BtuHcifSpec BtuTaskSpec.
From S2P Require Import BtuFlow BtuFlowSpec BtuSendSpec.

Section spec.
Context `{!BtMacros, !HcicSizes, !HciDefs, !FeatureBits, !BtConfig, !HciLayerDefs, !HciPlatform, !LeOpcodes,
  !BtmFeatureBits, !BtmMasks, !BtmConfig, !BtmModules,
  !BtuModules, !BtuMacros, !BtuEvents, !BtuOpcodes, !BtuConfig, !HciPlatformOk, !HciCodesOk, !BtMacrosOk, !BtuCmdOk}.
Implicit Types s : btu.

(** ** Runs *)

(** The layer was just started, and no command was sent. *)
Definition started (s : btu) : Prop :=
  (∃ env prop h, unused h ∧ hci_module_start_up env prop h = Ret true (layer s)) ∧
  wrappers s = ∅ ∧ main_tasks s = [] ∧ ran (calls s) = [] ∧ effects (dev s) = [].

(** A step that returns. *)
Definition flow_moves (s s' : btu) : Prop := ∃ x, flow_enabled x s ∧ flow_step x s = Ret tt s'.

(** The states of the machine, with the callbacks that were sent on the way. *)
Inductive flows : btu → list nat → Prop :=
  | flows_start s : started s → flows s []
  | flows_step x s l s' : flows s l → flow_enabled x s → flow_step x s = Ret tt s' → flows s' (l ++ sent x).

Lemma start_up_waits env prop h r h' : hci_module_start_up env prop h = Ret r h' → waits h' = waits h.
Proof.
  unfold hci_module_start_up, hci_module_shut_down, DoInThread, future_new.
  destruct env as [a b c d e]. unfold mbind, M_bind, modify, emit. cbn.
  destruct a, b, c, d, e; cbn; by intros [= _ <-].
Qed.

Lemma started_inv s : started s → FlowInv s.
Proof.
  intros ((env & prop & h & Hu & E) & Ew & Em & Ec & He).
  assert (waits (layer s) = ∅) as Hw by (rewrite (start_up_waits _ _ _ _ _ E); apply Hu).
  split; unfold held, due; rewrite ?Em, ?Hw; try done; try constructor.
  - by eapply start_up_settled.
  - by intros t ?%not_elem_of_nil.
  - by intros w ?%not_elem_of_nil.
Qed.

Lemma step_inv x s s' : FlowInv s → flow_enabled x s → flow_step x s = Ret tt s' → FlowInv s' ∧ evolves x s s'.
Proof. intros I Hx E. pose proof (flow_ok x s I Hx) as Hf. unfold fine in Hf. by rewrite E in Hf. Qed.

Lemma flows_inv s l : flows s l → FlowInv s ∧ l ≡ₚ ran (calls s) ++ callbacks_in (wrappers s).
Proof.
  induction 1 as [s Hs|x s l s' _ [I Hl] Hx E].
  - split; [by apply started_inv|]. destruct Hs as (_ & -> & _ & -> & _). done.
  - destruct (step_inv x s s' I Hx E) as [I' []]. split; [done|]. by rewrite Hl, ev_callbacks.
Qed.

(** Some tasks of the main thread. *)
Fixpoint run_mains (n : nat) : M btu unit :=
  match n with O => mret tt | S n' => run_next_main_task ;; run_mains n' end.

Lemma mains_run ts s t b w cb : FlowInv s → main_tasks s = ts ++ [t] → bufs (layer s) !! task_buf t = Some b →
  task_wrapper t = Some w → wrappers s !! w = Some (Some cb) →
  ∃ s', run_mains (S (length ts)) s = Ret tt s' ∧ main_tasks s' = [] ∧ wrappers s' !! w = None ∧
    bufs (layer s') !! task_buf t = None ∧ last (calls s') = Some (run_cb cb (task_answer t b).1 (task_answer t b).2).
Proof.
  revert s. induction ts as [|t1 ts IH]; intros s I Et Hb Hw Hcb.
  - destruct (main_run s t [] I Et) as (b' & s' & Hb' & E & _ & _ & (El & Ew & Em & _) & Hc).
    assert (b' = b) as -> by congruence. exists s'. cbn [run_mains length]. rewrite (run_handled _ _ _ _ E).
    split; [done|]. split; [done|]. unfold wrappers_after, task_calls in *. rewrite Hw in *.
    destruct Hc as (cb' & Hcb' & _ & Hl). assert (cb' = cb) as -> by congruence.
    rewrite Ew, El. split; [apply lookup_delete_eq|]. split; [apply lookup_delete_eq|done].
  - destruct (main_run s t1 (ts ++ [t]) I Et) as (b1 & s1 & Hb1 & E & I1 & _ & (El & Ew & Em & _) & _).
    pose proof (fi_held _ I) as Hnd. unfold held in Hnd. rewrite Et in Hnd. cbn in Hnd. apply NoDup_cons in Hnd as [Hn _].
    destruct (IH s1) as (s' & E' & ?); try done.
    + rewrite El. cbn. rewrite lookup_delete_ne; [done|]. intros Eq. apply Hn. rewrite Eq. apply list_elem_of_fmap_2.
      rewrite elem_of_app. right. by left.
    + rewrite Ew. unfold wrappers_after. destruct (task_wrapper t1) as [w1|] eqn:Ew1; [|done].
      rewrite lookup_delete_ne; [done|]. intros ->.
      pose proof (fi_due_once _ I) as Hd. unfold due in Hd. rewrite Et in Hd. cbn in Hd. rewrite Ew1 in Hd.
      apply NoDup_cons in Hd as [Hd _]. apply Hd. rewrite omap_app, elem_of_app. right. cbn. rewrite Hw. by left.
    + exists s'. split; [|done]. change (S (length (t1 :: ts))) with (S (S (length ts))).
      cbn [run_mains]. rewrite (run_handled _ _ _ _ E). exact E'.
Qed.

(** C4: Whatever modules send, the clients of the layer, the transport, the alarms and the
    main thread do within their obligations, nothing on the path of a command is
    undefined or stuck; the buffer of every answer that waits for the main thread is
    allocated, posted once and no longer the layer's. *)
Theorem command_path_safe s l : flows s l →
  (∀ x, flow_enabled x s → flow_step x s ≠ Undefined ∧ flow_step x s ≠ Stuck) ∧
  NoDup (held s) ∧ ∀ p, p ∈ held s → is_Some (bufs (layer s) !! p) ∧ ¬ owned (layer s) p.
Proof.
  intros [I _]%flows_inv. split_and!.
  - intros x Hx. pose proof (flow_ok x s I Hx) as Hf. unfold fine in Hf. by destruct (flow_step x s).
  - apply I.
  - intros p (t & -> & Ht)%list_elem_of_fmap. destruct (fi_tasks _ I _ Ht) as (b & -> & _ & ?). eauto.
Qed.

(** The bytes and the length a callback is given for the event [b]. *)
Definition answer_given (st : option Z) (b : buf) : bytes * Z :=
  match st with None => (drop 5 (b_data b), u16 (b_len b - 5)) | Some status => ([status], 2) end.

(** The task such an answer posts. *)
Lemma with_cb_task st p e : with_cb e → st ≠ Some 0 →
  ∃ t, answer_task st p e = Some t ∧ task_wrapper t = Some (wrapper_of (context e)) ∧
    task_buf t = match st with None => p | Some _ => command e end ∧
    ∀ b, (st = None → b_offset b = 0%nat) → task_answer t b = answer_given st b.
Proof.
  intros [Hc _] Hst. unfold answer_task. rewrite Hc. destruct st as [status|]; cbn.
  - destruct (Z.eqb_spec status 0) as [->|]; [done|]. by eexists.
  - eexists. split_and!; try done. intros b Hb. cbn. rewrite Hb by done. by rewrite drop_0.
Qed.

(** C5: A Command Complete, or a Command Status that is an error, brings the command it
    answers to its callback: once the main thread has done what was posted before, it
    runs the callback with the return parameters, or with the status, and frees the
    wrapper and the buffer. *)
Theorem answer_runs_callback s l p b st credits opcode w e : flows s l → flow_enabled (Layer (IEvent p)) s →
  bufs (layer s) !! p = Some b → parse_response (b_data b) = Some (st, credits, opcode) →
  answers s opcode = Some w → waits (layer s) !! w = Some e → with_cb e → st ≠ Some 0 →
  ∃ cb s1 s2, wrappers s !! wrapper_of (context e) = Some (Some cb) ∧
    flow_step (Layer (IEvent p)) s = Ret tt s1 ∧ run_mains (S (length (main_tasks s))) s1 = Ret tt s2 ∧
    main_tasks s2 = [] ∧ wrappers s2 !! wrapper_of (context e) = None ∧
    last (calls s2) = Some (run_cb cb (answer_given st b).1 (answer_given st b).2).
Proof.
  intros [I _]%flows_inv Hx Hb Hp Ha He Hwc Hst.
  destruct (layer_answer s p b st credits opcode I Hx Hb Hp) as (s1 & E1 & I1 & Hm). rewrite Ha in Hm.
  destruct Hm as (e' & He' & (Em & Ew & _) & _ & Hbuf). assert (e' = e) as -> by congruence.
  destruct (fi_entries _ I w e He) as [Hf|([Hf|[_ [cb Hcb]]] & _)];
    [by apply foreign_not_with_cb in Hf|by apply plain_not_with_cb in Hf|].
  destruct (with_cb_task st p e Hwc Hst) as (t & Et & Htw & Htb & Hta). rewrite Et in Em. cbn in Em.
  destruct (fi_tasks _ I1 t) as (b1 & Hb1 & _); [rewrite Em, elem_of_app; right; by left|].
  destruct (mains_run (main_tasks s) s1 t b1 (wrapper_of (context e)) cb I1 Em Hb1 Htw) as (s2 & E2 & Em2 & Ew2 & _ & Hl);
    [by rewrite Ew|].
  exists cb, s1, s2. split_and!; try done. rewrite Hl.
  specialize (Hbuf t Et). rewrite Hb1, Htb in Hbuf. destruct Hx as (_ & _ & _ & Hx). destruct (Hx b Hb) as [Ho _].
  destruct st as [status|]; [by rewrite (Hta b1)|]. rewrite Hb in Hbuf. injection Hbuf as ->. by rewrite Hta.
Qed.

(** ** Commands that are only accepted *)

(** A wrapper with a callback that nothing refers to. *)
Definition lost (k : nat) (s : btu) : Prop :=
  (∃ cb, wrappers s !! k = Some (Some cb)) ∧ k ∉ due s ∧ ¬ awaited s k.

Lemma lost_stays k s s' : FlowInv s → lost k s → flow_moves s s' →
  FlowInv s' ∧ lost k s' ∧ wrappers s' !! k = wrappers s !! k.
Proof.
  intros I ([cb Hcb] & Hd & Hw) (x & Hx & E). destruct (step_inv x s s' I Hx E) as [I' []].
  split; [done|]. pose proof (ev_wrappers k (Some cb) Hcb Hd) as Hcb'. split; [|by rewrite Hcb'].
  split; [by exists cb|]. split.
  - by intros [?|?]%ev_due.
  - intros (w & e & Hwe & Hc & Ek). destruct (ev_entries w e Hwe Hc) as [?|Hn]; [apply Hw; by exists w, e|].
    rewrite Ek in Hn. congruence.
Qed.

(** The command a Command Status without error answers is lost. *)
Lemma accepted_lost s l p b credits opcode w e : flows s l → flow_enabled (Layer (IEvent p)) s →
  bufs (layer s) !! p = Some b → parse_response (b_data b) = Some (Some 0, credits, opcode) →
  answers s opcode = Some w → waits (layer s) !! w = Some e → with_cb e →
  ∃ cb s1, wrappers s !! wrapper_of (context e) = Some (Some cb) ∧ flow_step (Layer (IEvent p)) s = Ret tt s1 ∧
    wrappers s1 = wrappers s ∧ FlowInv s1 ∧ lost (wrapper_of (context e)) s1.
Proof.
  intros [I _]%flows_inv Hx Hb Hp Ha He Hwc.
  destruct (layer_answer s p b _ credits opcode I Hx Hb Hp) as (s1 & E1 & I1 & Hm). rewrite Ha in Hm.
  destruct Hm as (e' & He' & (Em & Ew & _) & Ewt & _). assert (e' = e) as -> by congruence.
  destruct (fi_entries _ I w e He) as [Hf|([Hf|[_ [cb Hcb]]] & _)];
    [by apply foreign_not_with_cb in Hf|by apply plain_not_with_cb in Hf|].
  exists cb, s1. split_and!; try done.
  assert (answer_task (Some 0) p e = None) as En by (unfold answer_task; destruct Hwc as [-> _]; done).
  rewrite En in Em. cbn in Em. rewrite app_nil_r in Em. split; [exists cb; by rewrite Ew|]. split.
  - unfold due. rewrite Em. by apply (fi_apart _ I w e).
  - unfold awaited. rewrite Ewt. intros (w' & e' & [Hn Hw']%lookup_delete_Some & Hc & Ek). apply Hn.
    by eapply (fi_inj _ I).
Qed.


(** A command that was sent with a callback and is answered by a Command Status without error
    is done with: whatever happens afterwards, its wrapper stays allocated
    and its callback is never run, a later Command Complete included. *)
Theorem accepted_command_lost s l p b credits opcode w e : flows s l → flow_enabled (Layer (IEvent p)) s →
  bufs (layer s) !! p = Some b → parse_response (b_data b) = Some (Some 0, credits, opcode) →
  answers s opcode = Some w → waits (layer s) !! w = Some e → with_cb e →
  ∃ cb s1, wrappers s !! wrapper_of (context e) = Some (Some cb) ∧ flow_step (Layer (IEvent p)) s = Ret tt s1 ∧
    ∀ s2, rtc flow_moves s1 s2 → wrappers s2 !! wrapper_of (context e) = Some (Some cb).
Proof.
  intros Hf Hx Hb Hp Ha He Hwc. destruct (accepted_lost s l p b credits opcode w e) as (cb & s1 & Hcb & E & Ew & I1 & Hl); try done.
  exists cb, s1. split; [done|]. split; [done|]. intros s2 Hs2. rewrite <- Ew in Hcb. clear E Ew. revert I1 Hl Hcb.
  induction Hs2 as [|s1 s2 s3 Hmv _ IH]; intros I1 Hl Hcb; [done|].
  destruct (lost_stays _ _ _ I1 Hl Hmv) as (I2 & Hl2 & E). apply IH; [done..|]. by rewrite E.
Qed.

(** ** Where every callback is *)

(** [history s l a]: as [flows], with the wrappers of the commands a Command Status
    without error answered. *)
Inductive history : btu → list nat → list nat → Prop :=
  | history_start s : started s → history s [] []
  | history_step x s l a s' : history s l a → flow_enabled x s → flow_step x s = Ret tt s' →
      history s' (l ++ sent x) (a ++ accepted x s).

Lemma history_flows s l a : history s l a → flows s l.
Proof. induction 1; by econstructor. Qed.
Lemma flows_history s l : flows s l → ∃ a, history s l a.
Proof. induction 1 as [|? ? ? ? ? [a ?]]; eexists; by econstructor. Qed.

Lemma lost_apart k s : lost k s → k ∉ due s ∧ ¬ awaited s k ∧ is_Some (wrappers s !! k).
Proof. intros ([cb Hcb] & ? & ?). by rewrite Hcb. Qed.

(** What a step accepts was awaited, and is lost after it. *)
Lemma accepted_step x s l s' k : flows s l → flow_enabled x s → flow_step x s = Ret tt s' → k ∈ accepted x s →
  accepted x s = [k] ∧ awaited s k ∧ lost k s'.
Proof.
  intros Hf Hx E Hk. unfold accepted in *. destruct x as [| |[]|]; try (by apply not_elem_of_nil in Hk).
  destruct (bufs (layer s) !! p) as [b|] eqn:Hb; [|by apply not_elem_of_nil in Hk]. cbn in Hk |- *.
  destruct (parse_response (b_data b)) as [[[st credits] opcode]|] eqn:Hp; [|by apply not_elem_of_nil in Hk].
  destruct st as [[|n|n]|]; try (by apply not_elem_of_nil in Hk).
  destruct (answers s opcode) as [w|] eqn:Ha; [|by apply not_elem_of_nil in Hk]. cbn in Hk |- *.
  destruct (waits (layer s) !! w) as [e|] eqn:He; [|by apply not_elem_of_nil in Hk].
  destruct (decide (with_cb e)) as [Hc|]; [|by apply not_elem_of_nil in Hk].
  apply list_elem_of_singleton in Hk as ->. split; [done|]. split; [by exists w, e|].
  destruct (accepted_lost s l p b credits opcode w e) as (cb & s1 & _ & E1 & _ & _ & Hl); try done.
  assert (s1 = s') as <- by congruence. exact Hl.
Qed.

Lemma history_inv s l a : history s l a → NoDup a ∧ (∀ k, k ∈ a → lost k s) ∧
  ∀ k, is_Some (wrappers s !! k) → k ∈ due s ∨ awaited s k ∨ k ∈ a.
Proof.
  induction 1 as [s (_ & Ew & _)|x s l a s' Hh (IH1 & IH2 & IH3) Hx E].
  - rewrite Ew. split_and!; [constructor|by intros k ?%not_elem_of_nil|]. intros k []. by rewrite lookup_empty in *.
  - pose proof (history_flows _ _ _ Hh) as Hf. pose proof (flows_inv _ _ Hf) as [I _].
    pose proof (accepted_step x s l s') as Hacc. specialize (Hacc) with (1 := Hf) (2 := Hx) (3 := E). split_and!.
    + apply NoDup_app. split_and!; [done| |].
      * intros k Hk Ha. destruct (Hacc k Ha) as (_ & Hw & _). apply IH2, lost_apart in Hk as (_ & ? & _). done.
      * destruct (accepted x s) as [|k r] eqn:Er; [constructor|]. destruct (Hacc k ltac:(by left)) as (-> & _).
        apply NoDup_singleton.
    + intros k [Hk|Hk]%elem_of_app; [|by apply Hacc]. eapply lost_stays; [exact I|by apply IH2|]. by exists x.
    + destruct (step_inv x s s' I Hx E) as [_ Hv]. intros k Hk. destruct (ev_made _ _ _ Hv k Hk) as [Hs|Hw]; [|by right; left].
      rewrite elem_of_app. destruct (IH3 k Hs) as [Hr|[Hr|Ha]]; [| |by right; right; left].
      all: destruct (ev_track _ _ _ Hv k) as [?|[?|?]]; [tauto|done|by left|by right; left|by right; right; right].
Qed.

(** C6: Every callback handed over with a command has been run exactly once, or it is
    still in the wrapper of its command, and of those nothing is forgotten: each wrapper
    is referred to by exactly one of a task that is posted to the main thread and runs it, a
    command that still awaits its answer, and the commands a Command Status without
    error answered, whose callbacks are lost. *)
Theorem callbacks_once s l a : history s l a →
  l ≡ₚ ran (calls s) ++ callbacks_in (wrappers s) ∧
  (∀ k, is_Some (wrappers s !! k) ↔ k ∈ due s ∨ awaited s k ∨ k ∈ a) ∧
  NoDup (due s ++ a) ∧ (∀ k, awaited s k → k ∉ due s ++ a).
Proof.
  intros Hh. pose proof (history_inv _ _ _ Hh) as (Hnd & Hl & Hall). apply history_flows in Hh as [I Hc]%flows_inv.
  split; [done|]. split_and!.
  - intros k. split; [apply Hall|]. intros [Hd|[(w & e & He & Hw & <-)|Ha]].
    + destruct (fi_due _ I k Hd) as [cb ->]. done.
    + destruct (fi_entries _ I w e He) as [Hf|([Hf|[_ [cb ->]]] & _)]; [|by apply plain_not_with_cb in Hf|done].
      by apply foreign_not_with_cb in Hf.
    + by apply Hl, lost_apart in Ha as (_ & _ & ?).
  - apply NoDup_app. split_and!; [apply I| |done]. intros k Hd Ha. by apply Hl, lost_apart in Ha as (? & _).
  - intros k Hw [Hd|Ha]%elem_of_app.
    + destruct Hw as (w & e & He & Hwc & <-). by eapply (fi_apart _ I).
    + by apply Hl, lost_apart in Ha as (_ & ? & _).
Qed.
End spec.
