(* ===== verification/DispcTypes.v ===== *)
(** * Display: registers, panels and the state of the driver

    The state the files of [src/kernel/sc8830/drivers/video/sprdfb] share: [dispc_ctx],
    [struct sprdfb_device], the registers of the controller, and the outside.  The
    build is that of [a1000_baton4iks_defconfig]: overlays, waiting for vsync, changing
    the frequency, three frame buffers, simulated low resolutions and early suspend;
    no check for electrostatic discharge, no dynamic clocks, no cached mapping. *)

From S2P Require Import Prelude CMonad.

(** ** What the headers and the chip define *)

Inductive reg : Type :=
  | DISPC_CTRL | DISPC_SIZE_XY | DISPC_RSTN | DISPC_BUF_THRES | DISPC_BG_COLOR
  | DISPC_IMG_CTRL | DISPC_IMG_Y_BASE_ADDR | DISPC_IMG_UV_BASE_ADDR | DISPC_IMG_SIZE_XY
  | DISPC_IMG_PITCH | DISPC_IMG_DISP_XY
  | DISPC_OSD_CTRL | DISPC_OSD_BASE_ADDR | DISPC_OSD_SIZE_XY | DISPC_OSD_PITCH
  | DISPC_OSD_DISP_XY | DISPC_OSD_ALPHA | DISPC_OSD_CK
  | DISPC_Y2R_CTRL | DISPC_Y2R_Y_PARAM | DISPC_Y2R_U_PARAM | DISPC_Y2R_V_PARAM
  | DISPC_INT_EN | DISPC_INT_CLR | DISPC_DPI_CTRL.
#[export] Instance reg_eq_dec : EqDecision reg.
Proof. solve_decision. Defined.

Inductive overlay_status : Type :=
  | SPRD_OVERLAY_STATUS_OFF | SPRD_OVERLAY_STATUS_ON | SPRD_OVERLAY_STATUS_STARTED.
#[export] Instance overlay_status_eq_dec : EqDecision overlay_status.
Proof. solve_decision. Defined.

Inductive panel_if : Type := SPRDFB_PANEL_IF_DBI | SPRDFB_PANEL_IF_DPI | SPRDFB_PANEL_IF_EDPI.
#[export] Instance panel_if_eq_dec : EqDecision panel_if.
Proof. solve_decision. Defined.

Definition BIT (n : Z) : Z := Z.shiftl 1 n.

(** ** Data *)

(** [struct panel_ops] and [struct panel_if_ctrl]: which calls a panel provides; a
    missing reset is replaced when the panel is mounted. *)
Inductive reset_op : Type := VendorReset | panel_reset_dispc_op.
Record panel_ops : Type := mk_panel_ops {
  op_panel_reset : option reset_op; has_panel_enter_sleep : bool; has_panel_after_suspend : bool;
  has_panel_before_resume : bool; has_panel_invalidate : bool; has_panel_invalidate_rect : bool;
  has_panel_change_fps : bool }.
Record panel_if_ctrl : Type := mk_panel_if_ctrl {
  has_panel_if_before_panel_reset : bool; has_panel_if_ready : bool; has_panel_if_before_refresh : bool;
  has_panel_if_after_refresh : bool; has_panel_if_enter_ulps : bool; has_panel_if_suspend : bool;
  has_panel_if_resume : bool; has_panel_if_uninit : bool }.

Record timing : Type := mk_timing {
  t_hsync : Z; t_hbp : Z; t_hfp : Z; t_vsync : Z; t_vbp : Z; t_vfp : Z }.
Record panel_spec : Type := mk_panel {
  p_type : Z; p_width : Z; p_height : Z; p_fps : Z; p_suspend_mode : Z;
  reset_timing : Z * Z * Z; is_clean_lcd : bool;
  mipi_timing : timing; mipi_work_mode : Z; phy_feq : Z; rgb_timing : timing;
  p_ops : panel_ops; p_if : panel_if_ctrl }.

(** Constants and macros of [sprdfb.h], [sprdfb_dispc_reg.h], [sprdfb_panel.h],
    [video/sprd_fb.h] and [linux/fb.h]; [set_bits b v] and [clear_bits b v] are what
    [dispc_set_bits] and [dispc_clear_bits] make of the value [v] of a register,
    [reset_value] what a soft reset leaves in one, [panel_if_of] the interface that
    mounting a panel selects, and [latch r s] what the controller
    shows after an update when [r] was written and [s] was shown. *)
Class FbMacros : Type := {
  set_bits : Z → Z → Z; clear_bits : Z → Z → Z; ROUND : Z → Z → Z;
  reset_value : reg → Z; latch : (reg → Z) → (reg → Z) → reg → Z;
  DISPC_INT_ERR_MASK : Z; DISPC_INT_UPDATE_DONE_MASK : Z; DISPC_INT_DONE_MASK : Z;
  DISPC_INT_HWVSYNC : Z; DISPC_INT_TE_MASK : Z;
  SPRD_DATA_TYPE_YUV400 : Z; SPRD_DATA_TYPE_RGB888 : Z; SPRD_DATA_TYPE_LIMIT : Z;
  SPRD_IMG_DATA_ENDIAN_LIMIT : Z; SPRD_LAYER_IMG : Z; SPRD_LAYER_OSD : Z;
  SPRD_OVERLAY_DISPLAY_SYNC : Z;
  SPRD_FB_SET_OVERLAY : Z; SPRD_FB_DISPLAY_OVERLAY : Z; SPRD_FB_PAGEFLIP : Z;
  FBIO_WAITFORVSYNC : Z; SPRD_FB_CHANGE_FPS : Z; SPRD_FB_IS_REFRESH_DONE : Z;
  SPRD_FB_SET_POWER_MODE : Z;
  SPRDFB_FORCE_FPS : Z; SPRDFB_DYNAMIC_FPS : Z; SPRDFB_FORCE_PCLK : Z; SPRDFB_DYNAMIC_PCLK : Z;
  SPRDFB_DYNAMIC_MIPI_CLK : Z; LCD_MIN_FPS : Z; LCD_MAX_FPS : Z;
  LCD_MODE_DSI : Z; LCD_MODE_RGB : Z; LCD_MODE_LVDS : Z;
  SPRDFB_PANEL_TYPE_MIPI : Z; SPRDFB_MIPI_MODE_VIDEO : Z; SEND_SLEEP_CMD : Z;
  BIT_PER_PIXEL_SURPPORT : bool; SPRDFB_MAINLCD_ID : Z; panel_if_of : panel_spec → panel_if
}.

Class FbMacrosOk `{!FbMacros} : Prop := {
  set_bits_or : ∀ b v, set_bits b v = Z.lor v b;
  clear_bits_and : ∀ b v, clear_bits b v = Z.ldiff v b;
  ROUND_nearest : ∀ a b, 0 < b → a + b / 2 < 2 ^ 32 → ROUND a b = (a + b / 2) / b;
  latch_all : ∀ r s q, latch r s q = r q;
  update_done_bit : DISPC_INT_UPDATE_DONE_MASK = 0x10;
  fb_commands : NoDup [SPRD_FB_SET_OVERLAY; SPRD_FB_DISPLAY_OVERLAY; SPRD_FB_PAGEFLIP;
    FBIO_WAITFORVSYNC; SPRD_FB_CHANGE_FPS; SPRD_FB_IS_REFRESH_DONE; SPRD_FB_SET_POWER_MODE];
  fb_clock_types : NoDup [SPRDFB_FORCE_FPS; SPRDFB_DYNAMIC_FPS; SPRDFB_FORCE_PCLK;
    SPRDFB_DYNAMIC_PCLK; SPRDFB_DYNAMIC_MIPI_CLK];
  fb_layers : SPRD_LAYER_IMG = 1 ∧ SPRD_LAYER_OSD = 2;
  fb_formats : SPRD_DATA_TYPE_RGB888 = 3 ∧ SPRD_DATA_TYPE_YUV400 < 3 < SPRD_DATA_TYPE_LIMIT;
  fb_endians : 0 < SPRD_IMG_DATA_ENDIAN_LIMIT
}.

(** [overlay_info], [overlay_display] and [overlay_rect]; fields are those of their width. *)
Record overlay_rect : Type := mk_rect { r_x : Z; r_y : Z; r_w : Z; r_h : Z }.
Record overlay_info : Type := mk_info {
  i_layer_index : Z; i_data_type : Z; i_y_endian : Z; i_uv_endian : Z; i_rb_switch : bool;
  i_rect : overlay_rect; i_buffer : Z }.
Record overlay_display : Type := mk_display { d_layer_index : Z; d_rect : overlay_rect; d_display_mode : Z }.

Record fb_var_screeninfo : Type := mk_var {
  xres : Z; yres : Z; xres_virtual : Z; yres_virtual : Z; xoffset : Z; yoffset : Z;
  bits_per_pixel : Z; grayscale : Z; pixclock : Z }.
Record fb_fix_screeninfo : Type := mk_fix { smem_start : Z; smem_len : Z; line_length : Z }.

(** Calls that leave the driver. *)
Inductive fx : Type :=
  | FxReset | FxSleepCmd (on : Z) | FxPanelInit | FxAfterSuspend | FxBeforeResume
  | FxInvalidate | FxInvalidateRect (left top right bottom : Z) | FxChangeFps (fps : Z)
  | FxIfMount | FxIfInit | FxIfReady | FxIfBeforeReset | FxIfBeforeRefresh | FxIfAfterRefresh
  | FxIfUlps | FxIfSuspend | FxIfResume | FxIfUninit
  | FxSoftReset | FxDsiIrqTrick | FxDsiDpiInit | FxBacklight (on : Z) | FxRate (hz : Z).

(** What ends a sleep: the interrupts that arrive in it, with the status each finds,
    and then a signal or the end of the time, unless the condition came true before. *)
Inductive wake : Type := Timeout (irqs : list Z) | Signal (irqs : list Z).

(** The parameters of the modules [sprdfb_dispc] and [sprdfb_main], and the device
    tree: the source of the DPI clock, its divider, and whether it has every clock. *)
Record parameters : Type := mk_par {
  osd_endian_ov : Z; osd_rb_ov : Z; osd_fmt_ov : Z; osd_extra16 : Z; a1000_legacy_pm : Z;
  dt_clock_src : option Z; dt_dpi_clk_div : option Z; dt_clocks : bool }.

(** ** State

    [struct sprdfb_dispc_context]: a semaphore is [true] when it is free. *)

Record dispc_context : Type := mk_ctx {
  is_inited : bool;
  is_first_frame : bool;
  clk_is_open : bool;
  clk_is_refreshing : bool;
  clk_open_count : Z;
  clk_sem : bool;
  ctx_dev : bool;
  vsync_waiter : Z;
  vsync_done : Z;
  overlay_state : overlay_status;
  waitfor_vsync_waiter : Z;
  waitfor_vsync_done : Z;
  first_frame_completion : Z;
  underflow_cnt : Z }.

Definition set_is_inited (x : bool) (s : dispc_context) : dispc_context := mk_ctx x (is_first_frame
  s) (clk_is_open s) (clk_is_refreshing s) (clk_open_count s) (clk_sem s) (ctx_dev s) (vsync_waiter
  s) (vsync_done s) (overlay_state s) (waitfor_vsync_waiter s) (waitfor_vsync_done s)
  (first_frame_completion s) (underflow_cnt s).
Definition set_is_first_frame (x : bool) (s : dispc_context) : dispc_context := mk_ctx (is_inited s)
  x (clk_is_open s) (clk_is_refreshing s) (clk_open_count s) (clk_sem s) (ctx_dev s) (vsync_waiter
  s) (vsync_done s) (overlay_state s) (waitfor_vsync_waiter s) (waitfor_vsync_done s)
  (first_frame_completion s) (underflow_cnt s).
Definition set_clk_is_open (x : bool) (s : dispc_context) : dispc_context := mk_ctx (is_inited s)
  (is_first_frame s) x (clk_is_refreshing s) (clk_open_count s) (clk_sem s) (ctx_dev s)
  (vsync_waiter s) (vsync_done s) (overlay_state s) (waitfor_vsync_waiter s) (waitfor_vsync_done s)
  (first_frame_completion s) (underflow_cnt s).
Definition set_clk_is_refreshing (x : bool) (s : dispc_context) : dispc_context := mk_ctx (is_inited
  s) (is_first_frame s) (clk_is_open s) x (clk_open_count s) (clk_sem s) (ctx_dev s) (vsync_waiter
  s) (vsync_done s) (overlay_state s) (waitfor_vsync_waiter s) (waitfor_vsync_done s)
  (first_frame_completion s) (underflow_cnt s).
Definition set_clk_open_count (x : Z) (s : dispc_context) : dispc_context := mk_ctx (is_inited s)
  (is_first_frame s) (clk_is_open s) (clk_is_refreshing s) x (clk_sem s) (ctx_dev s) (vsync_waiter
  s) (vsync_done s) (overlay_state s) (waitfor_vsync_waiter s) (waitfor_vsync_done s)
  (first_frame_completion s) (underflow_cnt s).
Definition set_clk_sem (x : bool) (s : dispc_context) : dispc_context := mk_ctx (is_inited s)
  (is_first_frame s) (clk_is_open s) (clk_is_refreshing s) (clk_open_count s) x (ctx_dev s)
  (vsync_waiter s) (vsync_done s) (overlay_state s) (waitfor_vsync_waiter s) (waitfor_vsync_done s)
  (first_frame_completion s) (underflow_cnt s).
Definition set_ctx_dev (x : bool) (s : dispc_context) : dispc_context := mk_ctx (is_inited s)
  (is_first_frame s) (clk_is_open s) (clk_is_refreshing s) (clk_open_count s) (clk_sem s) x
  (vsync_waiter s) (vsync_done s) (overlay_state s) (waitfor_vsync_waiter s) (waitfor_vsync_done s)
  (first_frame_completion s) (underflow_cnt s).
Definition set_vsync_waiter (x : Z) (s : dispc_context) : dispc_context := mk_ctx (is_inited s)
  (is_first_frame s) (clk_is_open s) (clk_is_refreshing s) (clk_open_count s) (clk_sem s) (ctx_dev
  s) x (vsync_done s) (overlay_state s) (waitfor_vsync_waiter s) (waitfor_vsync_done s)
  (first_frame_completion s) (underflow_cnt s).
Definition set_vsync_done (x : Z) (s : dispc_context) : dispc_context := mk_ctx (is_inited s)
  (is_first_frame s) (clk_is_open s) (clk_is_refreshing s) (clk_open_count s) (clk_sem s) (ctx_dev
  s) (vsync_waiter s) x (overlay_state s) (waitfor_vsync_waiter s) (waitfor_vsync_done s)
  (first_frame_completion s) (underflow_cnt s).
Definition set_overlay_state (x : overlay_status) (s : dispc_context) : dispc_context := mk_ctx
  (is_inited s) (is_first_frame s) (clk_is_open s) (clk_is_refreshing s) (clk_open_count s) (clk_sem
  s) (ctx_dev s) (vsync_waiter s) (vsync_done s) x (waitfor_vsync_waiter s) (waitfor_vsync_done s)
  (first_frame_completion s) (underflow_cnt s).
Definition set_waitfor_vsync_waiter (x : Z) (s : dispc_context) : dispc_context := mk_ctx (is_inited
  s) (is_first_frame s) (clk_is_open s) (clk_is_refreshing s) (clk_open_count s) (clk_sem s)
  (ctx_dev s) (vsync_waiter s) (vsync_done s) (overlay_state s) x (waitfor_vsync_done s)
  (first_frame_completion s) (underflow_cnt s).
Definition set_waitfor_vsync_done (x : Z) (s : dispc_context) : dispc_context := mk_ctx (is_inited
  s) (is_first_frame s) (clk_is_open s) (clk_is_refreshing s) (clk_open_count s) (clk_sem s)
  (ctx_dev s) (vsync_waiter s) (vsync_done s) (overlay_state s) (waitfor_vsync_waiter s) x
  (first_frame_completion s) (underflow_cnt s).
Definition set_first_frame_completion (x : Z) (s : dispc_context) : dispc_context := mk_ctx
  (is_inited s) (is_first_frame s) (clk_is_open s) (clk_is_refreshing s) (clk_open_count s) (clk_sem
  s) (ctx_dev s) (vsync_waiter s) (vsync_done s) (overlay_state s) (waitfor_vsync_waiter s)
  (waitfor_vsync_done s) x (underflow_cnt s).
Definition set_underflow_cnt (x : Z) (s : dispc_context) : dispc_context := mk_ctx (is_inited s)
  (is_first_frame s) (clk_is_open s) (clk_is_refreshing s) (clk_open_count s) (clk_sem s) (ctx_dev
  s) (vsync_waiter s) (vsync_done s) (overlay_state s) (waitfor_vsync_waiter s) (waitfor_vsync_done
  s) (first_frame_completion s) x.

(** [struct sprdfb_device] with its [fb_info], and [frame_count] of [sprdfb_main.c]. *)
Record sprdfb_device : Type := mk_dev {
  enable : Z;
  dev_id : Z;
  panel : option panel_spec;
  panel_if_type : panel_if;
  panel_ready : bool;
  dev_frame_count : Z;
  refresh_lock : bool;
  dpi_clock : Z;
  bpp : Z;
  display_width : Z;
  display_height : Z;
  logo_buffer : option Z;
  main_frame_count : Z;
  fb_var : fb_var_screeninfo;
  fb_fix : fb_fix_screeninfo }.

Definition set_enable (x : Z) (s : sprdfb_device) : sprdfb_device := mk_dev x (dev_id s) (panel s)
  (panel_if_type s) (panel_ready s) (dev_frame_count s) (refresh_lock s) (dpi_clock s) (bpp s)
  (display_width s) (display_height s) (logo_buffer s) (main_frame_count s) (fb_var s) (fb_fix s).
Definition set_dev_id (x : Z) (s : sprdfb_device) : sprdfb_device := mk_dev (enable s) x (panel s)
  (panel_if_type s) (panel_ready s) (dev_frame_count s) (refresh_lock s) (dpi_clock s) (bpp s)
  (display_width s) (display_height s) (logo_buffer s) (main_frame_count s) (fb_var s) (fb_fix s).
Definition set_panel (x : option panel_spec) (s : sprdfb_device) : sprdfb_device := mk_dev (enable
  s) (dev_id s) x (panel_if_type s) (panel_ready s) (dev_frame_count s) (refresh_lock s) (dpi_clock
  s) (bpp s) (display_width s) (display_height s) (logo_buffer s) (main_frame_count s) (fb_var s)
  (fb_fix s).
Definition set_panel_if_type (x : panel_if) (s : sprdfb_device) : sprdfb_device := mk_dev (enable s)
  (dev_id s) (panel s) x (panel_ready s) (dev_frame_count s) (refresh_lock s) (dpi_clock s) (bpp s)
  (display_width s) (display_height s) (logo_buffer s) (main_frame_count s) (fb_var s) (fb_fix s).
Definition set_panel_ready (x : bool) (s : sprdfb_device) : sprdfb_device := mk_dev (enable s)
  (dev_id s) (panel s) (panel_if_type s) x (dev_frame_count s) (refresh_lock s) (dpi_clock s) (bpp
  s) (display_width s) (display_height s) (logo_buffer s) (main_frame_count s) (fb_var s) (fb_fix
  s).
Definition set_dev_frame_count (x : Z) (s : sprdfb_device) : sprdfb_device := mk_dev (enable s)
  (dev_id s) (panel s) (panel_if_type s) (panel_ready s) x (refresh_lock s) (dpi_clock s) (bpp s)
  (display_width s) (display_height s) (logo_buffer s) (main_frame_count s) (fb_var s) (fb_fix s).
Definition set_refresh_lock (x : bool) (s : sprdfb_device) : sprdfb_device := mk_dev (enable s)
  (dev_id s) (panel s) (panel_if_type s) (panel_ready s) (dev_frame_count s) x (dpi_clock s) (bpp s)
  (display_width s) (display_height s) (logo_buffer s) (main_frame_count s) (fb_var s) (fb_fix s).
Definition set_dpi_clock (x : Z) (s : sprdfb_device) : sprdfb_device := mk_dev (enable s) (dev_id s)
  (panel s) (panel_if_type s) (panel_ready s) (dev_frame_count s) (refresh_lock s) x (bpp s)
  (display_width s) (display_height s) (logo_buffer s) (main_frame_count s) (fb_var s) (fb_fix s).
Definition set_bpp (x : Z) (s : sprdfb_device) : sprdfb_device := mk_dev (enable s) (dev_id s)
  (panel s) (panel_if_type s) (panel_ready s) (dev_frame_count s) (refresh_lock s) (dpi_clock s) x
  (display_width s) (display_height s) (logo_buffer s) (main_frame_count s) (fb_var s) (fb_fix s).
Definition set_display_width (x : Z) (s : sprdfb_device) : sprdfb_device := mk_dev (enable s)
  (dev_id s) (panel s) (panel_if_type s) (panel_ready s) (dev_frame_count s) (refresh_lock s)
  (dpi_clock s) (bpp s) x (display_height s) (logo_buffer s) (main_frame_count s) (fb_var s) (fb_fix
  s).
Definition set_display_height (x : Z) (s : sprdfb_device) : sprdfb_device := mk_dev (enable s)
  (dev_id s) (panel s) (panel_if_type s) (panel_ready s) (dev_frame_count s) (refresh_lock s)
  (dpi_clock s) (bpp s) (display_width s) x (logo_buffer s) (main_frame_count s) (fb_var s) (fb_fix
  s).
Definition set_logo_buffer (x : option Z) (s : sprdfb_device) : sprdfb_device := mk_dev (enable s)
  (dev_id s) (panel s) (panel_if_type s) (panel_ready s) (dev_frame_count s) (refresh_lock s)
  (dpi_clock s) (bpp s) (display_width s) (display_height s) x (main_frame_count s) (fb_var s)
  (fb_fix s).
Definition set_main_frame_count (x : Z) (s : sprdfb_device) : sprdfb_device := mk_dev (enable s)
  (dev_id s) (panel s) (panel_if_type s) (panel_ready s) (dev_frame_count s) (refresh_lock s)
  (dpi_clock s) (bpp s) (display_width s) (display_height s) (logo_buffer s) x (fb_var s) (fb_fix
  s).
Definition set_fb_var (x : fb_var_screeninfo) (s : sprdfb_device) : sprdfb_device := mk_dev (enable
  s) (dev_id s) (panel s) (panel_if_type s) (panel_ready s) (dev_frame_count s) (refresh_lock s)
  (dpi_clock s) (bpp s) (display_width s) (display_height s) (logo_buffer s) (main_frame_count s) x
  (fb_fix s).
Definition set_fb_fix (x : fb_fix_screeninfo) (s : sprdfb_device) : sprdfb_device := mk_dev (enable
  s) (dev_id s) (panel s) (panel_if_type s) (panel_ready s) (dev_frame_count s) (refresh_lock s)
  (dpi_clock s) (bpp s) (display_width s) (display_height s) (logo_buffer s) (main_frame_count s)
  (fb_var s) x.

(** The chip: what the registers hold and what it shows, how often each clock is
    enabled, and whether this processor takes interrupts. *)
Record hardware : Type := mk_hw {
  regs : reg → Z;
  shown : reg → Z;
  clk_emc : Z;
  clk_dispc : Z;
  clk_dpi : Z;
  clk_dbi : Z;
  irqs_on : bool }.

Definition set_regs (x : reg → Z) (s : hardware) : hardware := mk_hw x (shown s) (clk_emc s)
  (clk_dispc s) (clk_dpi s) (clk_dbi s) (irqs_on s).
Definition set_shown (x : reg → Z) (s : hardware) : hardware := mk_hw (regs s) x (clk_emc s)
  (clk_dispc s) (clk_dpi s) (clk_dbi s) (irqs_on s).
Definition set_clk_emc (x : Z) (s : hardware) : hardware := mk_hw (regs s) (shown s) x (clk_dispc s)
  (clk_dpi s) (clk_dbi s) (irqs_on s).
Definition set_clk_dispc (x : Z) (s : hardware) : hardware := mk_hw (regs s) (shown s) (clk_emc s) x
  (clk_dpi s) (clk_dbi s) (irqs_on s).
Definition set_clk_dpi (x : Z) (s : hardware) : hardware := mk_hw (regs s) (shown s) (clk_emc s)
  (clk_dispc s) x (clk_dbi s) (irqs_on s).
Definition set_clk_dbi (x : Z) (s : hardware) : hardware := mk_hw (regs s) (shown s) (clk_emc s)
  (clk_dispc s) (clk_dpi s) x (irqs_on s).
Definition set_irqs_on (x : bool) (s : hardware) : hardware := mk_hw (regs s) (shown s) (clk_emc s)
  (clk_dispc s) (clk_dpi s) (clk_dbi s) x.

(** The outside: how the sleeps to come end, the values the calls to come return,
    those that enable a clock apart (0 when none are left), and the calls so far. *)
Record environment : Type := mk_env {
  wakes : list wake;
  answers : list Z;
  clk_results : list Z;
  effects : list fx }.

Definition set_wakes (x : list wake) (s : environment) : environment := mk_env x (answers s)
  (clk_results s) (effects s).
Definition set_answers (x : list Z) (s : environment) : environment := mk_env (wakes s) x
  (clk_results s) (effects s).
Definition set_clk_results (x : list Z) (s : environment) : environment := mk_env (wakes s) (answers
  s) x (effects s).
Definition set_effects (x : list fx) (s : environment) : environment := mk_env (wakes s) (answers s)
  (clk_results s) x.

Record machine : Type := mk_machine {
  ctx : dispc_context;
  dev : sprdfb_device;
  hw : hardware;
  par : parameters;
  env : environment }.

Definition set_ctx (x : dispc_context) (s : machine) : machine := mk_machine x (dev s) (hw s) (par
  s) (env s).
Definition set_dev (x : sprdfb_device) (s : machine) : machine := mk_machine (ctx s) x (hw s) (par
  s) (env s).
Definition set_hw (x : hardware) (s : machine) : machine := mk_machine (ctx s) (dev s) x (par s)
  (env s).
Definition set_par (x : parameters) (s : machine) : machine := mk_machine (ctx s) (dev s) (hw s) x
  (env s).
Definition set_env (x : environment) (s : machine) : machine := mk_machine (ctx s) (dev s) (hw s)
  (par s) x.

Section ops.
Context `{!FbMacros}.

Definition emit (e : fx) : M machine unit :=
  modify (λ s, set_env (set_effects (effects (env s) ++ [e]) (env s)) s).
Definition mod_ctx (f : dispc_context → dispc_context) : M machine unit := modify (λ s, set_ctx (f (ctx s)) s).
Definition mod_dev (f : sprdfb_device → sprdfb_device) : M machine unit := modify (λ s, set_dev (f (dev s)) s).
Definition mod_hw (f : hardware → hardware) : M machine unit := modify (λ s, set_hw (f (hw s)) s).

(** The value a call returns, or that a register of the chip has, as it is not ours. *)
Definition answer : M machine Z := λ s,
  match answers (env s) with
  | [] => Ret 0 s
  | a :: l => Ret a (set_env (set_answers l (env s)) s)
  end.

Definition clk_result : M machine Z := λ s,
  match clk_results (env s) with
  | [] => Ret 0 s
  | a :: l => Ret a (set_env (set_clk_results l (env s)) s)
  end.

(** [down] and [up]: taking a semaphore that is taken never ends. *)
Definition down_refresh : M machine unit :=
  s ← get; (if refresh_lock (dev s) then mret tt else stuck) ;; mod_dev (set_refresh_lock false).
Definition up_refresh : M machine unit := mod_dev (set_refresh_lock true).
Definition down_clk : M machine unit :=
  s ← get; (if clk_sem (ctx s) then mret tt else stuck) ;; mod_ctx (set_clk_sem false).
Definition up_clk : M machine unit := mod_ctx (set_clk_sem true).

Definition dispc_read (r : reg) : M machine Z := s ← get; mret (regs (hw s) r).
(** [SHDW_OSD_BASE_ADDR]: the address that is shown. *)
Definition read_SHDW_OSD_BASE_ADDR : M machine Z := s ← get; mret (shown (hw s) DISPC_OSD_BASE_ADDR).
Definition dispc_write (v : Z) (r : reg) : M machine unit :=
  mod_hw (λ h, set_regs (<[r := u32 v]> (regs h)) h).
Definition dispc_set_bits (b : Z) (r : reg) : M machine unit := v ← dispc_read r; dispc_write (set_bits b v) r.
Definition dispc_clear_bits (b : Z) (r : reg) : M machine unit := v ← dispc_read r; dispc_write (clear_bits b v) r.

Definition the_panel : M machine panel_spec := λ s,
  match panel (dev s) with Some p => Ret p s | None => Undefined end.
Definition mod_panel (f : panel_spec → panel_spec) : M machine unit :=
  p ← the_panel; mod_dev (set_panel (Some (f p))).
Definition when (b : bool) (m : M machine unit) : M machine unit := if b then m else mret tt.
End ops.
