(* ===== verification/SprdPanel.v ===== *)
(** * Display: the panel ([sprdfb_panel.c])

    Choosing a panel, and the sequences of calls that reset it, put it to sleep and
    wake it up.  The calls of the panel and of its interface are effects; delays are
    left out. *)

From S2P Require Import Prelude CMonad DispcTypes.

(** ** Choosing a panel

    [lcd_name_from_uboot] is an array of bytes; a string ends before the first 0. *)

Record panel_cfg : Type := mk_cfg {
  lcd_name : list Z; lcd_voltage_min : Z; lcd_voltage_max : Z; cfg_panel : panel_spec }.

Fixpoint cstring (b : list Z) : list Z :=
  match b with
  | [] => []
  | x :: l => if x =? 0 then [] else x :: cstring l
  end.

(** [memcpy(dst, src, strlen(src))] *)
Definition memcpy_name (dst src : list Z) : list Z := src ++ drop (length src) dst.

(** The panel, [dev->lcd_name] and what is left in [lcd_name_from_uboot]; without any
    panel the first entry of the list is the list itself, and reading it undefined. *)
Definition adapt_panel_from_uboot (from_uboot : list Z) (lcd_adc_from_uboot : Z) (panel_list_main : list panel_cfg) :
    option (panel_cfg * list Z * list Z) :=
  let by_name := if (length (cstring from_uboot) =? 0)%nat then None
    else list_find (λ c, lcd_name c = cstring from_uboot) panel_list_main in
  match by_name with
  | Some (_, c) => Some (c, cstring from_uboot, from_uboot)
  | None =>
      match list_find (λ c, lcd_voltage_min c <= lcd_adc_from_uboot < lcd_voltage_max c) panel_list_main with
      | Some (_, c) =>
          let b := memcpy_name from_uboot (lcd_name c) in Some (c, lcd_name c, b)
      | None =>
          c ← head panel_list_main;
          let b := memcpy_name from_uboot (lcd_name c) in Some (c, lcd_name c, b)
      end
  end.

Section panel.
Context `{!FbMacros}.

(** ** The reset pin *)

Definition panel_reset_dispc : M machine unit :=
  dispc_write 1 DISPC_RSTN ;; dispc_write 0 DISPC_RSTN ;; dispc_write 1 DISPC_RSTN.
Definition panel_set_resetpin_dispc (status : Z) : M machine unit :=
  if status =? 0 then dispc_write 0 DISPC_RSTN else dispc_write 1 DISPC_RSTN.
Definition panel_set_resetpin (id status : Z) : M machine unit :=
  when (id =? SPRDFB_MAINLCD_ID) (panel_set_resetpin_dispc status).

(** [ops->panel_reset(panel)]: calling a null pointer is undefined. *)
Definition run_panel_reset (p : panel_spec) : M machine unit :=
  match op_panel_reset (p_ops p) with
  | None => undefined
  | Some VendorReset => emit FxReset
  | Some panel_reset_dispc_op => panel_reset_dispc
  end.

Definition panel_reset : M machine Z :=
  s ← get;
  match panel (dev s) with
  | None => mret (-1)
  | Some p =>
      when (has_panel_if_before_panel_reset (p_if p)) (emit FxIfBeforeReset) ;;
      run_panel_reset p ;;
      mret 0
  end.

Definition panel_sleep : M machine Z :=
  s ← get;
  match panel (dev s) with
  | None => mret (-1)
  | Some p =>
      when (has_panel_enter_sleep (p_ops p)) (emit (FxSleepCmd 1)) ;;
      when (has_panel_if_before_panel_reset (p_if p) && (p_type p =? SPRDFB_PANEL_TYPE_MIPI)) (emit FxIfBeforeReset) ;;
      mret 0
  end.

Definition panel_before_resume : M machine Z :=
  s ← get; panel_set_resetpin (dev_id (dev s)) 1 ;; mret 0.
Definition panel_after_suspend : M machine Z :=
  s ← get; panel_set_resetpin (dev_id (dev s)) 0 ;; mret 0.

(** ** Mounting *)

Definition with_reset (r : option reset_op) (p : panel_spec) : panel_spec :=
  let o := p_ops p in
  mk_panel (p_type p) (p_width p) (p_height p) (p_fps p) (p_suspend_mode p) (reset_timing p)
    (is_clean_lcd p) (mipi_timing p) (mipi_work_mode p) (phy_feq p) (rgb_timing p)
    (mk_panel_ops r (has_panel_enter_sleep o) (has_panel_after_suspend o) (has_panel_before_resume o)
       (has_panel_invalidate o) (has_panel_invalidate_rect o) (has_panel_change_fps o)) (p_if p).

Definition panel_mount (p : panel_spec) : M machine Z :=
  mod_dev (set_panel (Some p)) ;;
  s ← get;
  when (bool_decide (op_panel_reset (p_ops p) = None) && (dev_id (dev s) =? SPRDFB_MAINLCD_ID))
    (mod_dev (set_panel (Some (with_reset (Some panel_reset_dispc_op) p)))) ;;
  emit FxIfMount ;;
  mod_dev (set_panel_if_type (panel_if_of p)) ;;
  mret 0.

Definition panel_init : M machine Z :=
  s ← get;
  match panel (dev s) with
  | None => mret (-1)
  | Some p => emit FxIfInit ;; ok ← answer; if ok =? 0 then mret (-1) else mret 0
  end.

Definition panel_ready_up : M machine Z :=
  s ← get;
  match panel (dev s) with
  | None => mret (-1)
  | Some p => when (has_panel_if_ready (p_if p)) (emit FxIfReady) ;; mret 0
  end.

Definition sprdfb_panel_get (from_uboot : list Z) (adc : Z) (panels : list panel_cfg) : M machine bool :=
  match adapt_panel_from_uboot from_uboot adc panels with
  | None => undefined
  | Some (c, _, _) =>
      mod_dev (set_panel_ready true) ;;
      panel_mount (cfg_panel c) ;;
      panel_init ;;
      mret true
  end.

(** ** What the controller tells the panel *)

Definition sprdfb_panel_invalidate_rect (left top right bottom : Z) : M machine unit :=
  p ← the_panel; when (has_panel_invalidate_rect (p_ops p)) (emit (FxInvalidateRect left top right bottom)).
Definition sprdfb_panel_invalidate : M machine unit :=
  p ← the_panel; when (has_panel_invalidate (p_ops p)) (emit FxInvalidate).
Definition sprdfb_panel_before_refresh : M machine unit :=
  p ← the_panel; when (has_panel_if_before_refresh (p_if p)) (emit FxIfBeforeRefresh).
Definition sprdfb_panel_after_refresh : M machine unit :=
  p ← the_panel; when (has_panel_if_after_refresh (p_if p)) (emit FxIfAfterRefresh).
Definition sprdfb_panel_change_fps (fps_level : Z) : M machine unit :=
  p ← the_panel; when (has_panel_change_fps (p_ops p)) (emit (FxChangeFps fps_level)).

(** ** Sleeping and waking up *)

Definition sprdfb_panel_suspend : M machine unit :=
  s ← get;
  match panel (dev s) with
  | None => mret tt
  | Some p =>
      (if p_suspend_mode p =? SEND_SLEEP_CMD then panel_sleep else panel_reset) ;;
      when (has_panel_if_enter_ulps (p_if p)) (emit FxIfUlps) ;;
      when (has_panel_if_suspend (p_if p)) (emit FxIfSuspend) ;;
      if has_panel_after_suspend (p_ops p) then emit FxAfterSuspend
      else panel_after_suspend ;; mret tt
  end.

Definition sprdfb_panel_resume (from_deep_sleep : bool) : M machine unit :=
  s ← get;
  match panel (dev s) with
  | None => mret tt
  | Some p =>
      (if has_panel_before_resume (p_ops p) then emit FxBeforeResume
       else panel_before_resume ;; mret tt) ;;
      if from_deep_sleep then
        panel_init ;;
        panel_reset ;;
        emit FxPanelInit ;;
        panel_ready_up ;; mret tt
      else
        when (has_panel_if_resume (p_if p)) (emit FxIfResume) ;;
        when (has_panel_enter_sleep (p_ops p)) (emit (FxSleepCmd 0)) ;;
        panel_ready_up ;; mret tt
  end.

Definition sprdfb_panel_remove : M machine unit :=
  s ← get;
  match panel (dev s) with
  | None => mret tt
  | Some p => when (has_panel_if_uninit (p_if p)) (emit FxIfUninit) ;; mod_dev (set_panel None)
  end.
End panel.
