(* ===== verification/Dispc.v ===== *)
(** * Display: the controller ([sprdfb_dispc.c])

    Interrupts are taken while a function sleeps, and between calls; the sleep of a
    function that has turned them off would not end.  Delays, log messages and what
    only serves debugging are left out. *)

From S2P Require Import Prelude CMonad DispcTypes SprdPanel.

Inductive SPRDFB_DYNAMIC_CLK_SWITCH_E : Type :=
  | SPRDFB_DYNAMIC_CLK_FORCE | SPRDFB_DYNAMIC_CLK_REFRESH | SPRDFB_DYNAMIC_CLK_COUNT | SPRDFB_DYNAMIC_CLK_MAX.

Definition EPERM : Z := 1.
Definition ENXIO : Z := 6.
Definition EAGAIN : Z := 11.
Definition EFAULT : Z := 14.
Definition EINVAL : Z := 22.
Definition ENOTTY : Z := 25.
Definition ETIMEDOUT : Z := 110.
Definition ERESTARTSYS : Z := 512.

Definition SPRDFB_BRIGHTNESS : Z := Z.shiftl 0x02 16.
Definition SPRDFB_CONTRAST : Z := 0x12A.
Definition SPRDFB_OFFSET_U : Z := Z.shiftl 0x81 16.
Definition SPRDFB_SATURATION_U : Z := 0x123.
Definition SPRDFB_OFFSET_V : Z := Z.shiftl 0x82 16.
Definition SPRDFB_SATURATION_V : Z := 0x123.

Definition is_dpi (s : machine) : bool := bool_decide (panel_if_type (dev s) = SPRDFB_PANEL_IF_DPI).
Definition is_edpi (s : machine) : bool := bool_decide (panel_if_type (dev s) = SPRDFB_PANEL_IF_EDPI).

Section dispc.
Context `{!FbMacros}.

(** ** Interrupts and sleeping *)

Definition dispc_irq_trick : M machine unit :=
  s ← get; when (is_dpi s) (dispc_set_bits DISPC_INT_ERR_MASK DISPC_INT_EN).

Definition isr_done (reg_val : Z) : M machine bool :=
  s ← get;
  if has_flag reg_val 0x10 && is_dpi s then
    dispc_write DISPC_INT_UPDATE_DONE_MASK DISPC_INT_CLR ;; mret true
  else if has_flag reg_val DISPC_INT_DONE_MASK && negb (is_dpi s) then
    dispc_write DISPC_INT_DONE_MASK DISPC_INT_CLR ;;
    mod_ctx (set_is_first_frame false) ;; mret true
  else mret false.

Definition isr_vsync (reg_val : Z) : M machine bool :=
  s ← get;
  if has_flag reg_val DISPC_INT_HWVSYNC && is_dpi s then
    dispc_write DISPC_INT_HWVSYNC DISPC_INT_CLR ;; mret true
  else if has_flag reg_val DISPC_INT_TE_MASK && is_edpi s then
    dispc_write DISPC_INT_TE_MASK DISPC_INT_CLR ;; mret true
  else mret false.

(** [dispc_isr], with what it reads from [DISPC_INT_STATUS]; waking a sleeper is
    setting what it waits for. *)
Definition dispc_isr (reg_val : Z) : M machine unit :=
  when (has_flag reg_val DISPC_INT_ERR_MASK)
    (mod_ctx (λ c, set_underflow_cnt (u32 (underflow_cnt c + 1)) c) ;;
     dispc_write DISPC_INT_ERR_MASK DISPC_INT_CLR ;;
     dispc_clear_bits DISPC_INT_ERR_MASK DISPC_INT_EN) ;;
  s ← get;
  if negb (ctx_dev (ctx s)) then mret tt else
  done ← isr_done reg_val;
  vsync ← isr_vsync reg_val;
  when vsync (mod_ctx (set_waitfor_vsync_done 1)) ;;
  when done
    (mod_ctx (set_vsync_done 1) ;;
     mod_ctx (λ c, if truthy (vsync_waiter c) then set_vsync_waiter 0 c else c) ;;
     sprdfb_panel_after_refresh).

(** An interrupt: the chip has finished an update if it says so. *)
Definition interrupt (status : Z) : M machine unit :=
  when (has_flag status 0x10) (mod_hw (λ h, set_shown (latch (regs h) (shown h)) h)) ;;
  dispc_isr status.

Fixpoint sleep (cond : machine → bool) (irqs : list Z) : M machine bool :=
  match irqs with
  | [] => mret false
  | i :: l => interrupt i ;; s ← get; if cond s then mret true else sleep cond l
  end.

Definition next_wake : M machine wake := λ s,
  match wakes (env s) with
  | [] => Ret (Timeout []) s
  | w :: l => Ret w (set_env (set_wakes l (env s)) s)
  end.

(** [wait_event_interruptible_timeout]: 1 stands for the time that is left. *)
Definition wait_event_interruptible_timeout (cond : machine → bool) : M machine Z :=
  s ← get;
  if cond s then mret 1 else
  (if irqs_on (hw s) then mret tt else stuck) ;;
  w ← next_wake;
  match w with
  | Timeout l => b ← sleep cond l; mret (if b : bool then 1 else 0)
  | Signal l => b ← sleep cond l; mret (if b : bool then 1 else - ERESTARTSYS)
  end.

Definition dispc_sync : M machine Z :=
  s ← get;
  if enable (dev s) =? 0 then mret (-1) else
  ret ← wait_event_interruptible_timeout (λ s, truthy (vsync_done (ctx s)));
  if ret =? 0 then mod_ctx (set_vsync_done 1) ;; mret (-1) else mret 0.

(** ** Registers *)

Definition dispc_reset : M machine unit :=
  emit FxSoftReset ;; mod_hw (λ h, set_regs reset_value (set_shown reset_value h)).
Definition dispc_set_bg_color (bg_color : Z) : M machine unit := dispc_write bg_color DISPC_BG_COLOR.
Definition dispc_set_osd_ck (ck_color : Z) : M machine unit := dispc_write ck_color DISPC_OSD_CK.
Definition dispc_osd_enable (is_enable : bool) : M machine unit :=
  reg_val ← dispc_read DISPC_OSD_CTRL;
  dispc_write (if is_enable then Z.lor reg_val (BIT 0) else Z.ldiff reg_val (BIT 0)) DISPC_OSD_CTRL.
Definition dispc_set_osd_alpha (alpha : Z) : M machine unit := dispc_write (u8 alpha) DISPC_OSD_ALPHA.
Definition dispc_dithering_enable (on : bool) : M machine unit :=
  if on then dispc_set_bits (BIT 6) DISPC_CTRL else dispc_clear_bits (BIT 6) DISPC_CTRL.
Definition dispc_pwr_enable (on : bool) : M machine unit :=
  if on then dispc_set_bits (BIT 7) DISPC_CTRL else dispc_clear_bits (BIT 7) DISPC_CTRL.
Definition dispc_set_exp_mode (exp_mode : Z) : M machine unit :=
  reg_val ← dispc_read DISPC_CTRL;
  dispc_write (Z.lor (Z.ldiff reg_val (Z.shiftl 3 16)) (Z.shiftl (u16 exp_mode) 16)) DISPC_CTRL.
Definition dispc_set_threshold (thres0 thres1 thres2 : Z) : M machine unit :=
  dispc_write (Z.lor (Z.lor (u16 thres0) (Z.shiftl (u16 thres1) 14)) (Z.shiftl (u16 thres2) 16)) DISPC_BUF_THRES.
Definition dispc_module_enable : M machine unit :=
  dispc_write (BIT 0) DISPC_CTRL ;; dispc_write 0 DISPC_INT_EN ;; dispc_write 0x3F DISPC_INT_CLR.
Definition xy (mask x y : Z) : Z := Z.lor (Z.land x mask) (Z.shiftl (Z.land y mask) 16).
Definition dispc_set_disp_size (var : fb_var_screeninfo) : M machine Z :=
  dispc_write (xy 0xfff (xres var) (yres var)) DISPC_SIZE_XY ;; mret 0.

(** The control word of the OSD layer over a frame buffer: enabled, block alpha, and
    ABGR with the red-blue switch or RGB565 with its byte order. *)
Definition layer_ctrl (var : fb_var_screeninfo) : Z :=
  Z.lor (Z.lor (BIT 0) (BIT 2))
    (if bits_per_pixel var =? 32 then Z.lor (Z.shiftl 3 4) (BIT 15)
     else Z.lor (Z.shiftl 5 4) (Z.shiftl 2 8)).

Definition dispc_layer_init (var : fb_var_screeninfo) : M machine unit :=
  dispc_write 0 DISPC_IMG_CTRL ;;
  dispc_clear_bits (BIT 0) DISPC_OSD_CTRL ;;
  dispc_write (layer_ctrl var) DISPC_OSD_CTRL ;;
  dispc_set_osd_alpha 0xff ;;
  dispc_write (xy 0xfff (xres var) (yres var)) DISPC_OSD_SIZE_XY ;;
  dispc_write 0 DISPC_OSD_DISP_XY ;;
  dispc_write (Z.land (xres var) 0xfff) DISPC_OSD_PITCH ;;
  dispc_set_osd_ck 0.

Definition dispc_layer_update (var : fb_var_screeninfo) : M machine unit :=
  dispc_write (layer_ctrl var) DISPC_OSD_CTRL.

(** ** Running *)

Definition dispc_run : M machine unit :=
  s ← get;
  if enable (dev s) =? 0 then mret tt else
  (if is_dpi s then
     when (negb (is_first_frame (ctx s)))
       (mod_ctx (λ c, set_vsync_waiter (u32 (vsync_waiter c + 1)) (set_vsync_done 0 c))) ;;
     dispc_set_bits (BIT 5) DISPC_DPI_CTRL ;;
     if is_first_frame (ctx s) then
       dispc_clear_bits (BIT 4) DISPC_DPI_CTRL ;;
       dispc_set_bits (BIT 4) DISPC_CTRL ;;
       mod_ctx (set_is_first_frame false) ;;
       mod_ctx (λ c, set_first_frame_completion (first_frame_completion c + 1) c)
     else
       s' ← get;
       when (bool_decide (overlay_state (ctx s') = SPRD_OVERLAY_STATUS_STARTED) && negb (is_dpi s'))
         (dispc_sync ;; mret tt)
   else
     mod_ctx (set_vsync_done 0) ;;
     dispc_set_bits (BIT 4) DISPC_CTRL) ;;
  dispc_irq_trick ;;
  emit FxDsiIrqTrick.

Definition dispc_stop : M machine unit :=
  s ← get;
  when (is_dpi s)
    (dispc_set_bits (BIT 4) DISPC_DPI_CTRL ;;
     dispc_clear_bits (BIT 4) DISPC_CTRL ;;
     mod_ctx (set_is_first_frame true)).

(** The controller may be busy for up to 100 rounds. *)
Fixpoint wait_stopped (rounds : nat) : M machine unit :=
  match rounds with
  | O => mret tt
  | S n => sts ← answer; if has_flag sts (BIT 16) then wait_stopped n else mret tt
  end.
Definition dispc_stop_for_feature : M machine unit :=
  s ← get; when (is_dpi s) (dispc_stop ;; wait_stopped 100).
Definition dispc_run_for_feature : M machine unit :=
  s ← get; when (negb (bool_decide (overlay_state (ctx s) = SPRD_OVERLAY_STATUS_ON))) dispc_run.

(** ** Clocks *)

Definition clk_enable (count : hardware → Z) (set_count : Z → hardware → hardware) : M machine Z :=
  ret ← clk_result;
  when (ret =? 0) (mod_hw (λ h, set_count (count h + 1) h)) ;; mret ret.
Definition clk_disable (count : hardware → Z) (set_count : Z → hardware → hardware) : M machine unit :=
  mod_hw (λ h, set_count (count h - 1) h).

Definition clk_need_disable (t : SPRDFB_DYNAMIC_CLK_SWITCH_E) : M machine bool :=
  match t with
  | SPRDFB_DYNAMIC_CLK_FORCE => mret true
  | SPRDFB_DYNAMIC_CLK_REFRESH =>
      mod_ctx (set_clk_is_refreshing false) ;;
      s ← get; mret (clk_open_count (ctx s) <=? 0)
  | SPRDFB_DYNAMIC_CLK_COUNT =>
      s ← get;
      if 0 <? clk_open_count (ctx s) then
        mod_ctx (λ c, set_clk_open_count (clk_open_count c - 1) c) ;;
        mret ((clk_open_count (ctx s) - 1 =? 0) && negb (clk_is_refreshing (ctx s)))
      else mret false
  | SPRDFB_DYNAMIC_CLK_MAX => mret false
  end.

Definition sprdfb_dispc_clk_disable (clock_switch_type : SPRDFB_DYNAMIC_CLK_SWITCH_E) : M machine Z :=
  down_clk ;;
  is_need_disable ← clk_need_disable clock_switch_type;
  s ← get;
  when (clk_is_open (ctx s) && is_need_disable)
    (clk_disable clk_dispc set_clk_dispc ;;
     clk_disable clk_dpi set_clk_dpi ;;
     clk_disable clk_dbi set_clk_dbi ;;
     mod_ctx (λ c, set_clk_is_open false (set_clk_is_refreshing false (set_clk_open_count 0 c)))) ;;
  up_clk ;;
  mret 0.

(** Enabling the three clocks; on an error those that were enabled are given back. *)
Definition clk_open : M machine Z :=
  s ← get;
  if clk_is_open (ctx s) then mret 0 else
  ret ← clk_enable clk_dispc set_clk_dispc;
  if truthy ret then mret (-1) else
  ret ← clk_enable clk_dpi set_clk_dpi;
  if truthy ret then clk_disable clk_dispc set_clk_dispc ;; mret (-1) else
  ret ← clk_enable clk_dbi set_clk_dbi;
  if truthy ret then
    clk_disable clk_dispc set_clk_dispc ;; clk_disable clk_dpi set_clk_dpi ;; mret (-1)
  else mod_ctx (set_clk_is_open true) ;; mret 0.

Definition sprdfb_dispc_clk_enable (clock_switch_type : SPRDFB_DYNAMIC_CLK_SWITCH_E) : M machine Z :=
  down_clk ;;
  ret ← clk_open;
  when (ret =? 0)
    match clock_switch_type with
    | SPRDFB_DYNAMIC_CLK_FORCE => mret tt
    | SPRDFB_DYNAMIC_CLK_REFRESH => mod_ctx (set_clk_is_refreshing true)
    | SPRDFB_DYNAMIC_CLK_COUNT => mod_ctx (λ c, set_clk_open_count (clk_open_count c + 1) c)
    | SPRDFB_DYNAMIC_CLK_MAX => mret tt
    end ;;
  up_clk ;;
  mret ret.

Definition with_fps (fps : Z) (p : panel_spec) : panel_spec :=
  mk_panel (p_type p) (p_width p) (p_height p) fps (p_suspend_mode p) (reset_timing p)
    (is_clean_lcd p) (mipi_timing p) (mipi_work_mode p) (phy_feq p) (rgb_timing p) (p_ops p) (p_if p).

(** The pixels of a line and the lines of a frame, with their porches. *)
Definition panel_total (p : panel_spec) (t : timing) : Z * Z :=
  (u32 (p_width p + t_hsync t + t_hbp t + t_hfp t), u32 (p_height p + t_vsync t + t_vbp t + t_vfp t)).

(** The result is the error and the clock that can be set. *)
Definition dispc_check_new_clk (pclk_src new_val type : Z) : M machine (Z * Z) :=
  s ← get;
  match panel (dev s) with
  | None => mret (- ENXIO, 0)
  | Some p =>
      if negb (is_dpi s) then mret (- EINVAL, 0) else
      if new_val <=? 0 then mret (- EINVAL, 0) else
      let total :=
        if p_type p =? LCD_MODE_DSI then Some (panel_total p (mipi_timing p))
        else if (p_type p =? LCD_MODE_RGB) || (p_type p =? LCD_MODE_LVDS) then Some (panel_total p (rgb_timing p))
        else None in
      match total with
      | None => mret (- EINVAL, 0)
      | Some (hpixels, vlines) =>
          if (type =? SPRDFB_FORCE_FPS) || (type =? SPRDFB_DYNAMIC_FPS) then
            if (new_val <? LCD_MIN_FPS) || (LCD_MAX_FPS <? new_val) then mret (- EINVAL, 0) else
            let pclk := u32 (hpixels * vlines * new_val) in
            require (truthy pclk) ;;
            let divider := ROUND pclk_src pclk in
            require (truthy divider) ;;
            mod_panel (with_fps new_val) ;;
            mret (0, pclk_src / divider)
          else if type =? SPRDFB_DYNAMIC_PCLK then
            let divider := ROUND pclk_src new_val in
            require (truthy divider) ;;
            let pclk := pclk_src / divider in
            require (truthy (u32 (hpixels * vlines))) ;;
            let fps := pclk / u32 (hpixels * vlines) in
            if (fps <? LCD_MIN_FPS) || (LCD_MAX_FPS <? fps) then mret (- EINVAL, 0) else
            mod_panel (with_fps fps) ;;
            mret (0, pclk)
          else mret (- EINVAL, 0)
      end
  end.

(** The clock is set, and remembered when that succeeds. *)
Definition set_dpi_rate (new_pclk : Z) : M machine Z :=
  emit (FxRate new_pclk) ;;
  ret ← answer;
  if truthy ret then mret ret else mod_dev (set_dpi_clock new_pclk) ;; mret ret.

Definition dispc_update_clk (new_val howto : Z) : M machine Z :=
  s ← get;
  match dt_clock_src (par s) with
  | None => mret (- EINVAL)
  | Some dpi_clk_src =>
  if howto =? SPRDFB_DYNAMIC_MIPI_CLK then
    s ← get;
    match panel (dev s) with
    | None => mret (- ENXIO)
    | Some p =>
        if negb (p_type p =? LCD_MODE_DSI) then mret (- ENXIO) else
        ret ← answer; if truthy ret then mret (- EINVAL) else mret ret
    end
  else if howto =? SPRDFB_FORCE_PCLK then set_dpi_rate new_val
  else if (howto =? SPRDFB_FORCE_FPS) || (howto =? SPRDFB_DYNAMIC_FPS) || (howto =? SPRDFB_DYNAMIC_PCLK) then
    '(ret, new_pclk) ← dispc_check_new_clk dpi_clk_src new_val howto;
    if truthy ret then mret (- EINVAL) else
    s ← get;
    if negb (howto =? SPRDFB_FORCE_FPS) && (enable (dev s) =? 0) then mret ret
    else set_dpi_rate new_pclk
  else mret (- EINVAL)
  end.

Definition dispc_update_clk_intf : M machine Z :=
  p ← the_panel; dispc_update_clk (p_fps p) SPRDFB_FORCE_FPS.

(** A clock that the device tree lacks ends the initialisation. *)
Definition dispc_clk_init : M machine Z :=
  s ← get;
  match dt_clock_src (par s), dt_dpi_clk_div (par s) with
  | Some src, Some def_dpi_clk_div =>
      require (truthy def_dpi_clk_div) ;;
      if negb (dt_clocks (par s)) then mret (-1) else
      let fps := match panel (dev s) with Some p => p_fps p | None => 0 end in
      (if truthy fps then dispc_update_clk fps SPRDFB_FORCE_FPS
       else dispc_update_clk (src / def_dpi_clk_div) SPRDFB_FORCE_PCLK) ;;
      clk_enable clk_emc set_clk_emc ;;
      ret ← sprdfb_dispc_clk_enable SPRDFB_DYNAMIC_CLK_FORCE;
      if truthy ret then mret (-1) else mret 0
  | _, _ => mret (-1)
  end.
End dispc.
