(* ===== verification/DispcFrame.v ===== *)
(** * Display: frames, overlays and power ([sprdfb_dispc.c])

    The operations of [sprdfb_dispc_ctrl]: each takes the lock of the device for as
    long as it touches the layers. *)

From S2P Require Import Prelude CMonad DispcTypes SprdPanel Dispc.

Section dispc.
Context `{!FbMacros}.

(** ** Starting *)

Definition sprdfb_dispc_uninit : M machine Z :=
  mod_dev (set_enable 0) ;; sprdfb_dispc_clk_disable SPRDFB_DYNAMIC_CLK_FORCE ;; mret 0.

Definition sprdfb_dispc_threshold_check : Z := 0.

Definition sprdfb_dispc_module_init : M machine Z :=
  s ← get;
  if is_inited (ctx s) then mret 0 else
  mod_ctx (λ c, set_vsync_done 1 (set_vsync_waiter 0 (set_waitfor_vsync_done 1 (set_waitfor_vsync_waiter 0 c)))) ;;
  mod_dev (set_refresh_lock true) ;;
  ret ← answer;
  if truthy ret then sprdfb_dispc_uninit ;; mret (-1) else
  mod_ctx (set_is_inited true) ;; mret 0.

Definition sprdfb_dispc_early_init : M machine Z :=
  mod_ctx (set_first_frame_completion 0) ;;
  s ← get;
  when (negb (is_inited (ctx s))) (mod_ctx (set_clk_sem true)) ;;
  ret ← dispc_clk_init;
  if truthy ret then mret (-1) else
  s ← get;
  if negb (is_inited (ctx s)) then
    (if panel_ready (dev s) then mod_ctx (set_is_first_frame false)
     else dispc_reset ;; dispc_module_enable ;; mod_ctx (set_is_first_frame true)) ;;
    sprdfb_dispc_module_init
  else dispc_reset ;; dispc_module_enable ;; mod_ctx (set_is_first_frame true) ;; mret ret.

Definition sprdfb_dispc_init : M machine Z :=
  mod_ctx (set_ctx_dev true) ;;
  dispc_set_bg_color 0 ;;
  dispc_dithering_enable true ;;
  dispc_set_exp_mode 0 ;;
  dispc_pwr_enable true ;;
  dispc_set_threshold 0x960 0 0x960 ;;
  s ← get;
  (if is_first_frame (ctx s) then dispc_layer_init (fb_var (dev s)) else dispc_layer_update (fb_var (dev s))) ;;
  (if is_dpi s then
     if is_first_frame (ctx s) then dispc_set_bits (BIT 4) DISPC_DPI_CTRL
     else dispc_clear_bits (BIT 4) DISPC_DPI_CTRL
   else mret tt) ;;
  dispc_write (Z.lor (if is_dpi s then Z.lor DISPC_INT_UPDATE_DONE_MASK DISPC_INT_HWVSYNC else DISPC_INT_DONE_MASK)
                 DISPC_INT_ERR_MASK) DISPC_INT_EN ;;
  mod_dev (set_enable 1) ;;
  mret 0.

(** [panel->width & 0xffff | panel->height << 16] *)
Definition panel_size (p : panel_spec) : Z := Z.lor (Z.land (p_width p) 0xffff) (Z.shiftl (p_height p) 16).

Definition sprdfb_dispc_clean_lcd : M machine unit :=
  down_refresh ;;
  s ← get;
  if negb (is_first_frame (ctx s)) then up_refresh else
  p ← the_panel;
  when (negb (is_dpi s)) sprdfb_panel_invalidate ;;
  dispc_write (panel_size p) DISPC_SIZE_XY ;;
  dispc_set_bg_color 0 ;;
  dispc_write (smem_start (fb_fix (dev s))) DISPC_OSD_BASE_ADDR ;;
  dispc_set_osd_alpha 0 ;;
  dispc_run ;;
  up_refresh ;;
  dispc_sync ;; mret tt.

(** ** The layers *)

Definition overlay_open : M machine Z :=
  mod_ctx (set_overlay_state SPRD_OVERLAY_STATUS_ON) ;; mret 0.

Definition overlay_start (layer_index : Z) : M machine Z :=
  s ← get;
  if negb (bool_decide (overlay_state (ctx s) = SPRD_OVERLAY_STATUS_ON)) then mret (-1) else
  img ← dispc_read DISPC_IMG_Y_BASE_ADDR;
  osd ← dispc_read DISPC_OSD_BASE_ADDR;
  if (img =? 0) && (osd =? 0) then mret (-1) else
  dispc_set_bg_color 0 ;;
  dispc_set_bits (BIT 2) DISPC_OSD_CTRL ;;
  dispc_set_osd_alpha 0xff ;;
  when (has_flag layer_index SPRD_LAYER_IMG && truthy img) (dispc_set_bits (BIT 0) DISPC_IMG_CTRL) ;;
  when (has_flag layer_index SPRD_LAYER_OSD && truthy osd) (dispc_set_bits (BIT 0) DISPC_OSD_CTRL) ;;
  mod_ctx (set_overlay_state SPRD_OVERLAY_STATUS_STARTED) ;;
  mret 0.

Definition overlay_img_configure (type : Z) (rect : overlay_rect) (buffer y_endian uv_endian : Z) (rb_switch : bool) :
    M machine Z :=
  s ← get;
  if negb (bool_decide (overlay_state (ctx s) = SPRD_OVERLAY_STATUS_ON)) then mret (-1) else
  if SPRD_DATA_TYPE_LIMIT <=? type then mret (-1) else
  if (SPRD_IMG_DATA_ENDIAN_LIMIT <=? y_endian) || (SPRD_IMG_DATA_ENDIAN_LIMIT <=? uv_endian) then mret (-1) else
  let reg_value := Z.lor (Z.lor (Z.shiftl y_endian 8) (Z.shiftl uv_endian 10)) (Z.shiftl type 4) in
  dispc_write (if rb_switch then Z.lor reg_value (BIT 15) else reg_value) DISPC_IMG_CTRL ;;
  dispc_write buffer DISPC_IMG_Y_BASE_ADDR ;;
  when (type <? SPRD_DATA_TYPE_RGB888) (dispc_write (buffer + r_w rect * r_h rect) DISPC_IMG_UV_BASE_ADDR) ;;
  dispc_write (Z.lor (Z.shiftl (r_h rect) 16) (r_w rect)) DISPC_IMG_SIZE_XY ;;
  dispc_write (r_w rect) DISPC_IMG_PITCH ;;
  dispc_write (Z.lor (Z.shiftl (r_y rect) 16) (r_x rect)) DISPC_IMG_DISP_XY ;;
  when (type <? SPRD_DATA_TYPE_RGB888)
    (dispc_write 1 DISPC_Y2R_CTRL ;;
     dispc_write (Z.lor SPRDFB_BRIGHTNESS SPRDFB_CONTRAST) DISPC_Y2R_Y_PARAM ;;
     dispc_write (Z.lor SPRDFB_OFFSET_U SPRDFB_SATURATION_U) DISPC_Y2R_U_PARAM ;;
     dispc_write (Z.lor SPRDFB_OFFSET_V SPRDFB_SATURATION_V) DISPC_Y2R_V_PARAM) ;;
  mret 0.

(** The control word of the OSD layer under an overlay, with the module parameters. *)
Definition osd_ctrl (p : parameters) (type y_endian : Z) (rb_switch : bool) : Z :=
  let e := if 0 <=? osd_endian_ov p then osd_endian_ov p else y_endian in
  let t := if 0 <=? osd_fmt_ov p then osd_fmt_ov p else type in
  let rb := if 0 <=? osd_rb_ov p then truthy (osd_rb_ov p)
            else if SPRD_DATA_TYPE_RGB888 =? type then false else rb_switch in
  let v := Z.lor (Z.lor (Z.shiftl e 8) (Z.shiftl t 4)) (BIT 2) in
  let v := if 0 <=? osd_extra16 p then Z.lor v (Z.shiftl (osd_extra16 p) 16) else v in
  if rb then Z.lor v (BIT 15) else v.

Definition overlay_osd_configure (type : Z) (rect : overlay_rect) (buffer y_endian : Z) (rb_switch : bool) : M machine Z :=
  s ← get;
  if negb (bool_decide (overlay_state (ctx s) = SPRD_OVERLAY_STATUS_ON)) then mret (-1) else
  if (SPRD_DATA_TYPE_LIMIT <=? type) || (type <=? SPRD_DATA_TYPE_YUV400) then mret (-1) else
  if SPRD_IMG_DATA_ENDIAN_LIMIT <=? y_endian then mret (-1) else
  dispc_write (osd_ctrl (par s) type y_endian rb_switch) DISPC_OSD_CTRL ;;
  dispc_write buffer DISPC_OSD_BASE_ADDR ;;
  dispc_write (Z.lor (Z.shiftl (r_h rect) 16) (r_w rect)) DISPC_OSD_SIZE_XY ;;
  dispc_write (r_w rect) DISPC_OSD_PITCH ;;
  dispc_write (Z.lor (Z.shiftl (r_y rect) 16) (r_x rect)) DISPC_OSD_DISP_XY ;;
  mret 0.

Definition overlay_close : M machine Z :=
  s ← get;
  if bool_decide (overlay_state (ctx s) = SPRD_OVERLAY_STATUS_OFF) then mret 0 else
  dispc_set_bg_color 0 ;;
  dispc_set_bits (BIT 2) DISPC_OSD_CTRL ;;
  dispc_set_osd_alpha 0xff ;;
  dispc_clear_bits (BIT 0) DISPC_IMG_CTRL ;;
  dispc_write 0 DISPC_IMG_Y_BASE_ADDR ;;
  dispc_write 0 DISPC_OSD_BASE_ADDR ;;
  dispc_layer_init (fb_var (dev s)) ;;
  mod_ctx (set_overlay_state SPRD_OVERLAY_STATUS_OFF) ;;
  mret 0.

(** ** Frames from the frame buffer *)

(** The control word a refresh writes when the depth may change. *)
Definition refresh_ctrl (var : fb_var_screeninfo) : M machine unit :=
  dispc_clear_bits 0x30000 DISPC_CTRL ;;
  when (negb (bits_per_pixel var =? 32)) (dispc_set_bits 0x10000 DISPC_CTRL) ;;
  dispc_write (layer_ctrl var) DISPC_OSD_CTRL.

Definition refresh_body : M machine unit :=
  s ← get;
  let fb := dev s in
  let base := u32 (smem_start (fb_fix fb) + line_length (fb_fix fb) * yoffset (fb_var fb)) in
  if enable fb =? 0 then mret tt else
  (if negb (is_dpi s) then
     mod_ctx (λ c, set_vsync_waiter (u32 (vsync_waiter c + 1)) c) ;; dispc_sync ;; mret tt
   else
     b ← dispc_read DISPC_OSD_BASE_ADDR;
     sh ← read_SHDW_OSD_BASE_ADDR;
     when (negb (b =? sh) && truthy sh)
       (mod_ctx (λ c, set_vsync_waiter (u32 (vsync_waiter c + 1)) c) ;; dispc_sync ;; mret tt)) ;;
  dispc_set_osd_alpha 0xff ;;
  s ← get;
  when (bool_decide (overlay_state (ctx s) = SPRD_OVERLAY_STATUS_STARTED)) (overlay_close ;; mret tt) ;;
  dispc_write base DISPC_OSD_BASE_ADDR ;;
  dispc_write 0 DISPC_OSD_DISP_XY ;;
  dispc_write (Z.lor (Z.land (xres (fb_var fb)) 0xffff) (Z.shiftl (yres (fb_var fb)) 16)) DISPC_OSD_SIZE_XY ;;
  dispc_write (xres (fb_var fb)) DISPC_OSD_PITCH ;;
  p ← the_panel;
  dispc_write (panel_size p) DISPC_SIZE_XY ;;
  when BIT_PER_PIXEL_SURPPORT (refresh_ctrl (fb_var fb)) ;;
  when (negb (is_dpi s)) sprdfb_panel_invalidate ;;
  sprdfb_panel_before_refresh ;;
  dispc_set_bits (BIT 0) DISPC_OSD_CTRL ;;
  s ← get;
  when (bool_decide (overlay_state (ctx s) = SPRD_OVERLAY_STATUS_ON)) (overlay_start SPRD_LAYER_IMG ;; mret tt) ;;
  mod_dev (λ d, set_dev_frame_count (u32 (dev_frame_count d + 1)) d) ;;
  dispc_run.

Definition sprdfb_dispc_refresh : M machine Z :=
  down_refresh ;;
  refresh_body ;;
  up_refresh ;;
  mod_dev (set_logo_buffer None) ;;
  mret 0.

(** ** Frames from elsewhere *)

Definition enable_overlay_body (info : overlay_info) : M machine Z :=
  s ← get;
  if enable (dev s) =? 0 then mret (-1) else
  synced ← dispc_sync;
  if truthy synced then mret (-1) else
  s ← get;
  when (bool_decide (overlay_state (ctx s) = SPRD_OVERLAY_STATUS_STARTED)) (overlay_close ;; mret tt) ;;
  result ← overlay_open;
  if truthy result then mret (-1) else
  result ←
    (if SPRD_LAYER_IMG =? i_layer_index info then
       overlay_img_configure (i_data_type info) (i_rect info) (i_buffer info) (i_y_endian info)
         (i_uv_endian info) (i_rb_switch info)
     else if SPRD_LAYER_OSD =? i_layer_index info then
       overlay_osd_configure (i_data_type info) (i_rect info) (i_buffer info) (i_y_endian info) (i_rb_switch info)
     else mret result);
  if truthy result then mret (-1) else mret result.

Definition sprdfb_dispc_enable_overlay (info : option overlay_info) (on : bool) : M machine Z :=
  if on then
    match info with
    | None => mret (-1)
    | Some i => down_refresh ;; result ← enable_overlay_body i; up_refresh ;; mret result
    end
  else mret (-1).

(** The red-blue switch follows its parameter on every flip. *)
Definition flip_rb (rb : Z) : M machine unit :=
  when (0 <=? rb)
    (ctrl ← dispc_read DISPC_OSD_CTRL;
     let want := if truthy rb then Z.lor ctrl (BIT 15) else Z.ldiff ctrl (BIT 15) in
     when (negb (want =? ctrl)) (dispc_write want DISPC_OSD_CTRL)).

Definition pageflip_body (phys : Z) : M machine Z :=
  s ← get;
  if enable (dev s) =? 0 then mret (- EPERM) else
  if negb (bool_decide (overlay_state (ctx s) = SPRD_OVERLAY_STATUS_STARTED)) &&
     negb (bool_decide (overlay_state (ctx s) = SPRD_OVERLAY_STATUS_ON)) then mret (- EAGAIN) else
  flip_rb (osd_rb_ov (par s)) ;;
  dispc_set_osd_alpha 0xff ;;
  dispc_set_bits (BIT 0) DISPC_OSD_CTRL ;;
  dispc_write phys DISPC_OSD_BASE_ADDR ;;
  mod_dev (λ d, set_dev_frame_count (u32 (dev_frame_count d + 1)) d) ;;
  dispc_run ;;
  s ← get;
  if is_first_frame (ctx s) then mret 0 else
  synced ← dispc_sync;
  if truthy synced then mret (- ETIMEDOUT) else mret 0.

Definition sprdfb_dispc_pageflip (phys : Z) : M machine Z :=
  if phys =? 0 then mret (- EINVAL) else
  down_refresh ;; ret ← pageflip_body phys; up_refresh ;; mret ret.

Definition display_overlay_body (size : Z) (setting : overlay_display) : M machine unit :=
  s ← get;
  if enable (dev s) =? 0 then mret tt else
  when (negb (is_dpi s)) (mod_ctx (λ c, set_vsync_waiter (u32 (vsync_waiter c + 1)) c) ;; dispc_sync ;; mret tt) ;;
  mod_ctx (set_ctx_dev true) ;;
  dispc_write size DISPC_SIZE_XY ;;
  when (negb (is_dpi s)) sprdfb_panel_invalidate ;;
  sprdfb_panel_before_refresh ;;
  dispc_clear_bits (BIT 0) DISPC_OSD_CTRL ;;
  mod_ctx (λ c, if bool_decide (overlay_state c = SPRD_OVERLAY_STATUS_STARTED)
                then set_overlay_state SPRD_OVERLAY_STATUS_ON c else c) ;;
  s ← get;
  started ← (if bool_decide (overlay_state (ctx s) = SPRD_OVERLAY_STATUS_ON)
             then overlay_start (d_layer_index setting) else mret 0);
  if truthy started then mret tt else
  mod_dev (λ d, set_dev_frame_count (u32 (dev_frame_count d + 1)) d) ;;
  dispc_run ;;
  when ((SPRD_OVERLAY_DISPLAY_SYNC =? d_display_mode setting) && negb (is_dpi s))
    (mod_ctx (λ c, set_vsync_waiter (u32 (vsync_waiter c + 1)) c) ;; dispc_sync ;; mret tt).

Definition sprdfb_dispc_display_overlay (setting : overlay_display) : M machine Z :=
  p ← the_panel;
  mod_ctx (set_ctx_dev true) ;;
  down_refresh ;;
  display_overlay_body (panel_size p) setting ;;
  up_refresh ;;
  mret 0.

Definition spdfb_dispc_wait_for_vsync : M machine Z :=
  s ← get;
  (if is_dpi s && is_first_frame (ctx s) then mret tt else
   mod_ctx (set_waitfor_vsync_done 0) ;;
   when (negb (is_dpi s)) (dispc_set_bits (BIT 1) DISPC_INT_EN) ;;
   mod_ctx (λ c, set_waitfor_vsync_waiter (u32 (waitfor_vsync_waiter c + 1)) c) ;;
   ret ← wait_event_interruptible_timeout (λ s, truthy (waitfor_vsync_done (ctx s)));
   when (ret =? 0) (mod_ctx (set_waitfor_vsync_done 1)) ;;
   mod_ctx (set_waitfor_vsync_waiter 0)) ;;
  mret 0.

Definition sprdfb_is_refresh_done : M machine Z := s ← get; mret (vsync_done (ctx s)).

(** ** Power *)

Definition sprdfb_dispc_suspend : M machine Z :=
  mod_ctx (set_first_frame_completion 0) ;;
  s ← get;
  (if truthy (enable (dev s)) then
     down_refresh ;;
     when (negb (is_dpi s)) (mod_ctx (λ c, set_vsync_waiter (u32 (vsync_waiter c + 1)) c) ;; dispc_sync ;; mret tt) ;;
     mod_dev (set_enable 0) ;;
     up_refresh ;;
     sprdfb_panel_suspend ;;
     dispc_stop ;;
     dispc_write 0 DISPC_INT_EN ;;
     clk_disable clk_emc set_clk_emc ;;
     sprdfb_dispc_clk_disable SPRDFB_DYNAMIC_CLK_FORCE ;; mret tt
   else mret tt) ;;
  mret 0.

Definition sprdfb_dispc_resume : M machine Z :=
  s ← get;
  (if enable (dev s) =? 0 then
     sprdfb_dispc_clk_enable SPRDFB_DYNAMIC_CLK_FORCE ;;
     mod_ctx (set_vsync_done 1) ;;
     sprdfb_dispc_early_init ;;
     sprdfb_panel_resume true ;;
     sprdfb_dispc_init ;;
     mod_dev (set_enable 1) ;;
     p ← the_panel;
     when (is_clean_lcd p) sprdfb_dispc_clean_lcd
   else mret tt) ;;
  mret 0.

(** ** Changing the clock *)

(** With the interrupts of this processor off, as they were given back. *)
Definition chg_clk_locked (type new_val : Z) : M machine Z :=
  s ← get;
  mod_hw (set_irqs_on false) ;;
  dispc_stop_for_feature ;;
  ret ← dispc_update_clk new_val type;
  ret ← (if truthy ret then mret ret else
         p ← the_panel;
         s ← get;
         if negb (type =? SPRDFB_DYNAMIC_MIPI_CLK) && (p_type p =? LCD_MODE_DSI) &&
            (mipi_work_mode p =? SPRDFB_MIPI_MODE_VIDEO) && (enable (dev s) =? 1) then
           emit FxDsiDpiInit ;; answer
         else mret ret);
  dispc_run_for_feature ;;
  mod_hw (set_irqs_on (irqs_on (hw s))) ;;
  mret ret.

Definition sprdfb_dispc_chg_clk (type new_val : Z) : M machine Z :=
  if new_val <=? 0 then mret (- EINVAL) else
  down_refresh ;;
  s ← get;
  ret ←
    (if type =? SPRDFB_DYNAMIC_PCLK then
       if negb (is_dpi s) then mret (- EINVAL) else chg_clk_locked type new_val
     else if type =? SPRDFB_DYNAMIC_FPS then
       if negb (is_dpi s) then
         mod_ctx (λ c, set_vsync_waiter (u32 (vsync_waiter c + 1)) c) ;;
         dispc_sync ;;
         sprdfb_panel_change_fps new_val ;; mret 0
       else chg_clk_locked type new_val
     else if type =? SPRDFB_DYNAMIC_MIPI_CLK then chg_clk_locked type new_val
     else mret (- EINVAL));
  up_refresh ;;
  mret ret.

(** [DEVFREQ_PRE_CHANGE] is a state of the memory controller. *)
Definition sprdfb_dispc_change_threshold (pre_change : bool) : M machine Z :=
  s ← get;
  when (ctx_dev (ctx s) && truthy (enable (dev s)) && is_dpi s)
    (if pre_change then dispc_set_threshold 0x960 0 0x960 else dispc_set_threshold 0x500 0 0x500) ;;
  mret 0.

(** ** The logo of the boot loader *)

Fixpoint wait_update (rounds : nat) : M machine unit :=
  match rounds with
  | O => mret tt
  | S n => raw ← answer; if has_flag raw 0x10 then mret tt else wait_update n
  end.

Definition sprdfb_dispc_refresh_logo : M machine Z :=
  s ← get;
  if negb (is_dpi s) then mret 0 else
  dispc_clear_bits 0x1f DISPC_INT_EN ;;
  dispc_set_bits 0x1f DISPC_INT_CLR ;;
  dispc_set_bits (BIT 5) DISPC_DPI_CTRL ;;
  wait_update 500 ;;
  dispc_set_bits (BIT 5) DISPC_INT_CLR ;;
  mret 0.

(** The pages for the copy, and the mapping of the original, are answers. *)
Definition sprdfb_dispc_logo_proc (lcd_base_from_uboot : Z) : M machine unit :=
  s ← get;
  if lcd_base_from_uboot =? 0 then mret tt else
  if negb (is_dpi s) then mret tt else
  pages ← answer;
  if pages =? 0 then mod_dev (set_logo_buffer None) else
  mod_dev (set_logo_buffer (Some pages)) ;;
  mapped ← answer;
  if mapped =? 0 then mret tt else
  dispc_write pages DISPC_OSD_BASE_ADDR ;;
  sprdfb_dispc_refresh_logo ;; mret tt.
End dispc.
