(* ===== verification/SprdFb.v ===== *)
(** * Display: the frame buffer device ([sprdfb_main.c])

    What user space and power management call, and how the device comes up.  The
    frame buffer core above it, which serialises the calls, is not in the repository. *)

From S2P Require Import Prelude CMonad DispcTypes SprdPanel Dispc DispcFrame.

Definition SPRDFB_FRAMES_TO_SKIP : Z := 1.
Definition SPRDFB_DEFAULT_FPS : Z := 60.
Definition FRAMEBUFFER_NR : Z := 3.
Definition ENOMEM : Z := 12.

(** What the memory behind the argument of an ioctl reads as; [None] is a fault. *)
Record user_ptr : Type := mk_user { as_info : option overlay_info; as_display : option overlay_display; as_word : option Z }.

(** [sprdfb_chg_clk_intf] is in a file that is not in the repository. *)
Class ClkIntf `{!FbMacros} : Type := sprdfb_chg_clk_intf : Z → Z → M machine Z.
Class ClkIntfOk `{!FbMacros, !ClkIntf} : Prop := chg_clk_intf_ok : ∀ type v s,
  sprdfb_chg_clk_intf type v s = sprdfb_dispc_chg_clk type v s ∨
  ∃ e, truthy e = true ∧ sprdfb_chg_clk_intf type v s = Ret e s.

(** The answer of a call that copies from user space: 0 when it worked. *)
Definition copied {A} (o : option A) : Z := match o with Some _ => 0 | None => 1 end.

Section fb.
Context `{!FbMacros, !ClkIntf}.

Definition sprdfb_pan_display : M machine Z :=
  s ← get;
  if main_frame_count (dev s) <? SPRDFB_FRAMES_TO_SKIP then
    mod_dev (set_main_frame_count (main_frame_count (dev s) + 1)) ;; mret 0
  else if enable (dev s) =? 0 then mret (-1) else
  ret ← sprdfb_dispc_refresh;
  if truthy ret then mret (-1) else mret 0.

(** Off and doze-suspend put the panel to sleep, anything else wakes it up. *)
Definition set_power_mode (power_mode : Z) : M machine unit :=
  s ← get;
  if (power_mode =? 0) || (power_mode =? 3) then
    when (truthy (enable (dev s))) (sprdfb_dispc_suspend ;; mret tt) ;;
    emit (FxBacklight 0)
  else
    when (enable (dev s) =? 0) (sprdfb_dispc_resume ;; mret tt) ;;
    emit (FxBacklight 1).

Definition sprdfb_ioctl (cmd : Z) (arg : user_ptr) : M machine Z :=
  if cmd =? SPRD_FB_SET_OVERLAY then
    match as_info arg with
    | None => mret (- EFAULT)
    | Some i => sprdfb_dispc_enable_overlay (Some i) true
    end
  else if cmd =? SPRD_FB_DISPLAY_OVERLAY then
    match as_display arg with
    | None => mret (- EFAULT)
    | Some d => sprdfb_dispc_display_overlay d
    end
  else if cmd =? SPRD_FB_PAGEFLIP then
    match as_word arg with
    | None => mret (- EFAULT)
    | Some phys => sprdfb_dispc_pageflip (u32 phys)
    end
  else if cmd =? FBIO_WAITFORVSYNC then spdfb_dispc_wait_for_vsync
  else if cmd =? SPRD_FB_CHANGE_FPS then
    match as_word arg with
    | None => mret (copied (as_word arg))
    | Some fps => sprdfb_chg_clk_intf SPRDFB_DYNAMIC_FPS (u32 fps)
    end
  else if cmd =? SPRD_FB_IS_REFRESH_DONE then sprdfb_is_refresh_done
  else if cmd =? SPRD_FB_SET_POWER_MODE then
    s ← get;
    if truthy (a1000_legacy_pm (par s)) then mret (copied (as_word arg)) else
    match as_word arg with
    | None => mret (copied (as_word arg))
    | Some power_mode => set_power_mode power_mode ;; mret 0
    end
  else mret (-1).

Definition sprdfb_check_var (var : fb_var_screeninfo) : M machine Z :=
  s ← get;
  let v := fb_var (dev s) in
  if negb (xres var =? xres v) || negb (yres var =? yres v) ||
     negb (xres_virtual var =? xres_virtual v) || negb (yres_virtual var =? yres_virtual v) ||
     negb (xoffset var =? xoffset v) ||
     (negb BIT_PER_PIXEL_SURPPORT && negb (bits_per_pixel var =? bits_per_pixel v)) ||
     negb (grayscale var =? grayscale v)
  then mret (- EINVAL) else mret 0.

(** The lock of the frame buffer is an answer. *)
Definition sprdfb_early_suspend : M machine unit :=
  locked ← answer; if locked =? 0 then mret tt else sprdfb_dispc_suspend ;; mret tt.
Definition sprdfb_late_resume : M machine unit :=
  locked ← answer; if locked =? 0 then mret tt else sprdfb_dispc_resume ;; mret tt.

(** ** Coming up *)

(** The resolution shown: that of the device tree, or of the panel. *)
Definition shown_size (d : sprdfb_device) (p : panel_spec) : Z * Z :=
  if truthy (display_width d) && truthy (display_height d) then (display_width d, display_height d)
  else (p_width p, p_height p).

(** Memory from the device tree is mapped, other memory is allocated. *)
Definition setup_fb_mem : M machine Z :=
  p ← the_panel;
  s ← get;
  let '(w, h) := shown_size (dev s) p in
  let len := u32 (w * h * (bpp (dev s) / 8) * FRAMEBUFFER_NR) in
  use_reserve_mem ← answer;
  start ← answer;
  addr ← answer;
  if addr =? 0 then
    when (truthy use_reserve_mem) (mod_dev (λ d, set_fb_fix (mk_fix start (smem_len (fb_fix d)) (line_length (fb_fix d))) d)) ;;
    mret (- ENOMEM)
  else mod_dev (λ d, set_fb_fix (mk_fix start len (line_length (fb_fix d))) d) ;; mret 0.

Definition setup_fb_info : M machine unit :=
  p ← the_panel;
  s ← get;
  let d := dev s in
  let '(w, h) := shown_size d p in
  let fps := if truthy (p_fps p) then p_fps p else SPRDFB_DEFAULT_FPS in
  require (truthy w && truthy (u32 (fps * h))) ;;
  let clock := u32 ((1000000000 / w) * 1000) / u32 (fps * h) in
  mod_dev (λ d,
    set_fb_fix (mk_fix (smem_start (fb_fix d)) (smem_len (fb_fix d)) (w * bpp d / 8))
      (set_fb_var (mk_var w h w (h * FRAMEBUFFER_NR) (xoffset (fb_var d)) 0 (bpp d) (grayscale (fb_var d)) clock) d)).

(** What makes the device show up; the size in the device tree is an answer. *)
Definition probe_panel (from_uboot : list Z) (adc : Z) (panels : list panel_cfg) (lcd_base_from_uboot : Z) : M machine unit :=
  found ← sprdfb_panel_get from_uboot adc panels;
  if found : bool then
    mod_dev (set_panel_ready true) ;;
    p ← the_panel;
    ret ← answer; w ← answer; h ← answer;
    (if truthy ret then mod_dev (λ d, set_display_width (p_width p) (set_display_height (p_height p) d))
     else mod_dev (λ d, set_display_width w (set_display_height h d))) ;;
    sprdfb_dispc_logo_proc lcd_base_from_uboot
  else mod_dev (set_panel_ready false).

Definition probe_cleanup : M machine unit := sprdfb_panel_remove ;; sprdfb_dispc_uninit ;; mret tt.

(** [supported] says whether the device tree names the main or the second LCD, which
    has no controller here, and [mapped] whether the registers can be mapped; the
    allocation of the device is an answer. *)
Definition sprdfb_probe (from_uboot : list Z) (adc : Z) (panels : list panel_cfg) (lcd_base_from_uboot id : Z)
    (supported has_resource mapped : bool) : M machine Z :=
  fb ← answer;
  if fb =? 0 then mret (- ENOMEM) else
  mod_dev (set_dev_id id) ;;
  if negb supported then mret 0 else
  mod_dev (set_bpp 32) ;;
  if negb (id =? SPRDFB_MAINLCD_ID) then undefined else
  if negb has_resource then mret 0 else
  if negb mapped then exit 1 else
  mod_dev (λ d, set_dev_frame_count 0 (set_logo_buffer None d)) ;;
  probe_panel from_uboot adc panels lcd_base_from_uboot ;;
  sprdfb_dispc_early_init ;;
  ret ← setup_fb_mem;
  if truthy ret then probe_cleanup ;; mret ret else
  setup_fb_info ;;
  ret ← answer;
  if truthy ret then probe_cleanup ;; mret ret else
  sprdfb_dispc_init ;;
  mret 0.

Definition sprdfb_remove : M machine Z := sprdfb_panel_remove ;; sprdfb_dispc_uninit ;; mret 0.
End fb.
