(* ===== verification/DispcInv.v ===== *)
(** * Display: what a step of the driver may change

    [core_of] is the part of the state on which locks, power and clocks depend.  An
    operation is [quiet] when it leaves the core alone; most are, and only the
    others need a specification of their own. *)

From S2P Require Import Prelude CMonad DispcTypes SprdPanel Dispc DispcFrame.

Record core : Type := mk_core {
  k_panel : option panel_spec; k_if : panel_if; k_enable : Z; k_lock : bool; k_sem : bool; k_irqs : bool;
  k_inited : bool; k_open : bool; k_count : Z; k_emc : Z; k_dispc : Z; k_dpi : Z; k_dbi : Z;
  k_par : parameters; k_results : list Z; k_id : Z }.

(** The panel up to its frame rate, which changes with the clock. *)
Definition core_of (s : machine) : core :=
  mk_core (with_fps 0 <$> panel (dev s)) (panel_if_type (dev s)) (enable (dev s)) (refresh_lock (dev s))
    (clk_sem (ctx s)) (irqs_on (hw s)) (is_inited (ctx s)) (clk_is_open (ctx s)) (clk_open_count (ctx s))
    (clk_emc (hw s)) (clk_dispc (hw s)) (clk_dpi (hw s)) (clk_dbi (hw s)) (par s) (clk_results (env s))
    (dev_id (dev s)).

Definition k_is_dpi (c : core) : bool := bool_decide (k_if c = SPRDFB_PANEL_IF_DPI).

Lemma core_panel s c : core_of s = c → is_Some (k_panel c) → ∃ p, panel (dev s) = Some p.
Proof. intros <-. simpl. intros [q Hq]. destruct (panel (dev s)); [by eauto|done]. Qed.
Lemma core_dpi s c : core_of s = c → is_dpi s = k_is_dpi c.
Proof. by intros <-. Qed.

(** From a state with core [c], [m] returns with the core unchanged. *)
Definition quiet {A} (c : core) (m : M machine A) : Prop := ∀ s,
  core_of s = c → wp m (λ _ s', core_of s' = c) s.

Section quiet.
Context `{!FbMacros} {c : core}.

Lemma quiet_mret {A} (a : A) : quiet c (mret a).
Proof. by intros s Hs. Qed.
Lemma quiet_mbind {A B} (m : M machine A) (k : A → M machine B) :
  quiet c m → (∀ a, quiet c (k a)) → quiet c (m ≫= k).
Proof.
  intros Hm Hk s Hs. apply wp_bind. eapply wp_mono; [by apply Hm|]. intros a s' Hc. by apply Hk.
Qed.
Lemma quiet_mget {A} (k : machine → M machine A) :
  (∀ s, core_of s = c → quiet c (k s)) → quiet c (get ≫= k).
Proof. intros Hk s Hs. by apply (Hk s). Qed.
Lemma quiet_panel {A} (k : panel_spec → M machine A) :
  is_Some (k_panel c) → (∀ p, quiet c (k p)) → quiet c (the_panel ≫= k).
Proof.
  intros Hp Hk s Hs. destruct (core_panel s c Hs Hp) as [p Ep].
  unfold the_panel, mbind, M_bind, wp. rewrite Ep. by apply (Hk p s).
Qed.

Lemma quiet_when b m : quiet c m → quiet c (when b m).
Proof. intros. destruct b; [done|apply quiet_mret]. Qed.
Lemma quiet_mod_ctx f : (∀ s, core_of (set_ctx (f (ctx s)) s) = core_of s) → quiet c (mod_ctx f).
Proof. intros Hf s <-. apply Hf. Qed.
Lemma quiet_mod_dev f : (∀ s, core_of (set_dev (f (dev s)) s) = core_of s) → quiet c (mod_dev f).
Proof. intros Hf s <-. apply Hf. Qed.
Lemma quiet_mod_hw f : (∀ s, core_of (set_hw (f (hw s)) s) = core_of s) → quiet c (mod_hw f).
Proof. intros Hf s <-. apply Hf. Qed.
Lemma quiet_mod_panel f : is_Some (k_panel c) → (∀ p, with_fps 0 (f p) = with_fps 0 p) → quiet c (mod_panel f).
Proof.
  intros Hp Hf s Hs. destruct (core_panel s c Hs Hp) as [p Ep].
  unfold mod_panel, the_panel, mbind, M_bind, wp. rewrite Ep.
  rewrite <- Hs. unfold mod_dev, modify, core_of. simpl. by rewrite Ep; simpl; rewrite Hf.
Qed.
Lemma quiet_emit e : quiet c (emit e).
Proof. by intros s <-. Qed.
Lemma quiet_answer : quiet c answer.
Proof. intros s <-. unfold answer, wp. by destruct (answers (env s)). Qed.
Lemma quiet_dispc_read r : quiet c (dispc_read r).
Proof. by intros s <-. Qed.
Lemma quiet_shdw : quiet c read_SHDW_OSD_BASE_ADDR.
Proof. by intros s <-. Qed.
Lemma quiet_dispc_write v r : quiet c (dispc_write v r).
Proof. by intros s <-. Qed.
Lemma quiet_set_bits v r : quiet c (dispc_set_bits v r).
Proof. by intros s <-. Qed.
Lemma quiet_clear_bits v r : quiet c (dispc_clear_bits v r).
Proof. by intros s <-. Qed.
End quiet.

Create HintDb quiet discriminated.
#[export] Hint Resolve quiet_mret quiet_emit quiet_answer quiet_dispc_read quiet_shdw
  quiet_dispc_write quiet_set_bits quiet_clear_bits : quiet.

(** Break a program into its steps, down to what the database knows. *)
Ltac quiet_step :=
  lazymatch goal with
  | |- quiet _ (get ≫= _) => apply quiet_mget; intros ? ?
  | |- quiet _ (the_panel ≫= _) => apply quiet_panel; [assumption|intros ?]
  | |- quiet _ (_ ≫= _) => apply quiet_mbind; [|intros ?]
  | |- quiet _ (when _ _) => apply quiet_when
  | |- quiet _ (mod_ctx _) => apply quiet_mod_ctx; intros [[] ? ? ? ?]; simpl; repeat case_match; reflexivity
  | |- quiet _ (mod_dev _) => apply quiet_mod_dev; reflexivity
  | |- quiet _ (mod_hw _) => apply quiet_mod_hw; reflexivity
  | |- quiet _ (if ?c then _ else _) => destruct c
  | |- quiet _ (match ?c with _ => _ end) => destruct c
  end.
Ltac quiet_tac := repeat first [ progress eauto 2 with quiet nocore | quiet_step ].

Section ops.
Context `{!FbMacros} (c : core) (Hpanel : is_Some (k_panel c)).

(** ** Quiet operations *)

Lemma quiet_invalidate : quiet c sprdfb_panel_invalidate.
Proof. unfold sprdfb_panel_invalidate. quiet_tac. Qed.
Lemma quiet_before_refresh : quiet c sprdfb_panel_before_refresh.
Proof. unfold sprdfb_panel_before_refresh. quiet_tac. Qed.
Lemma quiet_after_refresh : quiet c sprdfb_panel_after_refresh.
Proof. unfold sprdfb_panel_after_refresh. quiet_tac. Qed.
Lemma quiet_change_fps f : quiet c (sprdfb_panel_change_fps f).
Proof. unfold sprdfb_panel_change_fps. quiet_tac. Qed.
Hint Resolve quiet_invalidate quiet_before_refresh quiet_after_refresh quiet_change_fps : quiet.

Lemma quiet_isr_done v : quiet c (isr_done v).
Proof. unfold isr_done. quiet_tac. Qed.
Lemma quiet_isr_vsync v : quiet c (isr_vsync v).
Proof. unfold isr_vsync. quiet_tac. Qed.
Hint Resolve quiet_isr_done quiet_isr_vsync : quiet.
Lemma quiet_dispc_isr v : quiet c (dispc_isr v).
Proof. unfold dispc_isr. quiet_tac. Qed.
Hint Resolve quiet_dispc_isr : quiet.
Lemma quiet_interrupt v : quiet c (interrupt v).
Proof. unfold interrupt. quiet_tac. Qed.
Hint Resolve quiet_interrupt : quiet.
Lemma quiet_sleep cond l : quiet c (sleep cond l).
Proof. induction l; simpl; quiet_tac. Qed.
Hint Resolve quiet_sleep : quiet.
Lemma quiet_next_wake : quiet c next_wake.
Proof. intros s <-. unfold next_wake, wp. by destruct (wakes (env s)). Qed.
Hint Resolve quiet_next_wake : quiet.
Lemma quiet_wait cond : k_irqs c = true → quiet c (wait_event_interruptible_timeout cond).
Proof.
  intros Hi. unfold wait_event_interruptible_timeout. apply quiet_mget; intros s Hs.
  assert (irqs_on (hw s) = true) as -> by (by rewrite <- Hs in Hi). quiet_tac.
Qed.
Hint Resolve quiet_wait : quiet.
Lemma quiet_sync : k_irqs c = true → quiet c dispc_sync.
Proof. intros. unfold dispc_sync. quiet_tac. Qed.
Hint Resolve quiet_sync : quiet.

Lemma quiet_irq_trick : quiet c dispc_irq_trick.
Proof. unfold dispc_irq_trick. quiet_tac. Qed.
Lemma quiet_osd_alpha a : quiet c (dispc_set_osd_alpha a).
Proof. unfold dispc_set_osd_alpha. quiet_tac. Qed.
Lemma quiet_bg_color a : quiet c (dispc_set_bg_color a).
Proof. unfold dispc_set_bg_color. quiet_tac. Qed.
Lemma quiet_osd_ck a : quiet c (dispc_set_osd_ck a).
Proof. unfold dispc_set_osd_ck. quiet_tac. Qed.
Hint Resolve quiet_irq_trick quiet_osd_alpha quiet_bg_color quiet_osd_ck : quiet.
Lemma quiet_layer_init v : quiet c (dispc_layer_init v).
Proof. unfold dispc_layer_init. quiet_tac. Qed.
Lemma quiet_layer_update v : quiet c (dispc_layer_update v).
Proof. unfold dispc_layer_update. quiet_tac. Qed.
Hint Resolve quiet_layer_init quiet_layer_update : quiet.

(** A frame waits for another one nowhere: on the panels that are driven all the time
    the code that would is dead. *)
Lemma quiet_dispc_run : quiet c dispc_run.
Proof.
  unfold dispc_run. apply quiet_mget; intros s0 Hs0. destruct (enable _ =? 0); [quiet_tac|].
  apply quiet_mbind; [|intros; quiet_tac].
  destruct (is_dpi s0) eqn:Ed; [|quiet_tac]. apply quiet_mbind; [quiet_tac|intros _].
  apply quiet_mbind; [quiet_tac|intros _]. destruct (is_first_frame _); [quiet_tac|].
  apply quiet_mget; intros s1 Hs1. rewrite (core_dpi _ _ Hs1), <- (core_dpi _ _ Hs0), Ed, andb_false_r.
  quiet_tac.
Qed.
Hint Resolve quiet_dispc_run : quiet.

Lemma quiet_dispc_stop : quiet c dispc_stop.
Proof. unfold dispc_stop. quiet_tac. Qed.
Hint Resolve quiet_dispc_stop : quiet.
Lemma quiet_wait_stopped n : quiet c (wait_stopped n).
Proof. induction n; simpl; quiet_tac. Qed.
Hint Resolve quiet_wait_stopped : quiet.
Lemma quiet_stop_for_feature : quiet c dispc_stop_for_feature.
Proof. unfold dispc_stop_for_feature. quiet_tac. Qed.
Lemma quiet_run_for_feature : quiet c dispc_run_for_feature.
Proof. unfold dispc_run_for_feature. quiet_tac. Qed.
Lemma quiet_dispc_reset : quiet c dispc_reset.
Proof. unfold dispc_reset. quiet_tac. Qed.
Lemma quiet_module_enable : quiet c dispc_module_enable.
Proof. unfold dispc_module_enable. quiet_tac. Qed.
Hint Resolve quiet_stop_for_feature quiet_run_for_feature quiet_dispc_reset quiet_module_enable : quiet.

Lemma quiet_overlay_open : quiet c overlay_open.
Proof. unfold overlay_open. quiet_tac. Qed.
Lemma quiet_overlay_start l : quiet c (overlay_start l).
Proof. unfold overlay_start. quiet_tac. Qed.
Lemma quiet_img_configure t r b y u rb : quiet c (overlay_img_configure t r b y u rb).
Proof. unfold overlay_img_configure. quiet_tac. Qed.
Lemma quiet_osd_configure t r b y rb : quiet c (overlay_osd_configure t r b y rb).
Proof. unfold overlay_osd_configure. quiet_tac. Qed.
Lemma quiet_overlay_close : quiet c overlay_close.
Proof. unfold overlay_close. quiet_tac. Qed.
Hint Resolve quiet_overlay_open quiet_overlay_start quiet_img_configure quiet_osd_configure
  quiet_overlay_close : quiet.

Lemma quiet_flip_rb rb : quiet c (flip_rb rb).
Proof. unfold flip_rb. quiet_tac. Qed.
Lemma quiet_refresh_ctrl v : quiet c (refresh_ctrl v).
Proof. unfold refresh_ctrl. quiet_tac. Qed.
Hint Resolve quiet_flip_rb quiet_refresh_ctrl : quiet.

(** What an operation does while it holds the lock. *)
Lemma quiet_refresh_body : k_irqs c = true → quiet c refresh_body.
Proof. intros. unfold refresh_body. quiet_tac. Qed.
Lemma quiet_enable_overlay_body i : k_irqs c = true → quiet c (enable_overlay_body i).
Proof. intros. unfold enable_overlay_body. quiet_tac. Qed.
Lemma quiet_pageflip_body phys : k_irqs c = true → quiet c (pageflip_body phys).
Proof. intros. unfold pageflip_body. quiet_tac. Qed.
Lemma quiet_display_body size d : k_irqs c = true → quiet c (display_overlay_body size d).
Proof. intros. unfold display_overlay_body. quiet_tac. Qed.
Lemma quiet_wait_for_vsync : k_irqs c = true → quiet c spdfb_dispc_wait_for_vsync.
Proof. intros. unfold spdfb_dispc_wait_for_vsync. quiet_tac. Qed.
Lemma quiet_change_threshold b : quiet c (sprdfb_dispc_change_threshold b).
Proof. unfold sprdfb_dispc_change_threshold, dispc_set_threshold. quiet_tac. Qed.
End ops.

#[export] Hint Resolve quiet_invalidate quiet_before_refresh quiet_after_refresh quiet_change_fps
  quiet_interrupt quiet_sync quiet_osd_alpha quiet_bg_color quiet_layer_init quiet_layer_update
  quiet_dispc_run quiet_dispc_stop quiet_stop_for_feature quiet_run_for_feature quiet_dispc_reset
  quiet_module_enable quiet_refresh_body quiet_enable_overlay_body quiet_pageflip_body
  quiet_display_body quiet_wait_for_vsync quiet_change_threshold : quiet.
