(* ===== verification/DispcPower.v ===== *)
(** * Display: locks, clocks and power

    The operations that are not quiet, in terms of the core of the state, and the
    invariant of the driver: the locks are free between calls, the panel can be reset,
    its frame rates have a clock, and the clocks follow the power of the device.  Which
    requests for a pixel clock divide by zero. *)

From S2P Require Import Prelude CMonad DispcTypes SprdPanel Dispc DispcFrame SprdFb DispcInv.

(** From a state with core [c], [m] returns with a result and a core that satisfy [Q]. *)
Definition does `{!FbMacros} {A} (c : core) (m : M machine A) (Q : A → core → Prop) : Prop := ∀ s,
  core_of s = c → wp m (λ a s', Q a (core_of s')) s.

Section does.
Context `{!FbMacros}.
Implicit Types c : core.

Lemma quiet_does {A} c (m : M machine A) (Q : A → core → Prop) : quiet c m → (∀ a, Q a c) → does c m Q.
Proof. intros Hm HQ s Hs. eapply wp_mono; [by apply Hm|]. by intros a s' ->. Qed.
Lemma does_quiet {A} c (m : M machine A) : does c m (λ _ c', c' = c) → quiet c m.
Proof. done. Qed.
Lemma does_mono {A} c (m : M machine A) (Q R : A → core → Prop) :
  does c m Q → (∀ a c', Q a c' → R a c') → does c m R.
Proof. intros Hm HQ s Hs. eapply wp_mono; [by apply Hm|]. auto. Qed.
Lemma does_ret {A} c (a : A) (Q : A → core → Prop) : Q a c → does c (mret a) Q.
Proof. by intros ? s <-. Qed.
Lemma does_bind {A B} c (m : M machine A) (k : A → M machine B) P Q :
  does c m P → (∀ a c', P a c' → does c' (k a) Q) → does c (m ≫= k) Q.
Proof.
  intros Hm Hk s Hs. apply wp_bind. eapply wp_mono; [by apply Hm|]. intros a s' HP. exact (Hk a _ HP s' eq_refl).
Qed.
Lemma does_step {A B} c (m : M machine A) (k : A → M machine B) Q :
  quiet c m → (∀ a, does c (k a) Q) → does c (m ≫= k) Q.
Proof. intros Hm Hk. apply (does_bind c m k (λ _ c', c' = c)); [exact Hm|]. intros a c' ->. apply Hk. Qed.
Lemma does_get {A} c (k : machine → M machine A) Q :
  (∀ s, core_of s = c → does c (k s) Q) → does c (get ≫= k) Q.
Proof. intros Hk s Hs. by apply (Hk s). Qed.
Lemma does_panel {A} c (k : panel_spec → M machine A) Q :
  is_Some (k_panel c) → (∀ p, Some (with_fps 0 p) = k_panel c → does c (k p) Q) → does c (the_panel ≫= k) Q.
Proof.
  intros Hp Hk s Hs. destruct (core_panel s c Hs Hp) as [p Ep].
  unfold the_panel, mbind, M_bind, wp. rewrite Ep. apply (Hk p); [|done]. rewrite <- Hs. simpl. by rewrite Ep.
Qed.

(** ** The two locks *)

Definition set_lock (b : bool) c : core :=
  mk_core (k_panel c) (k_if c) (k_enable c) b (k_sem c) (k_irqs c) (k_inited c) (k_open c) (k_count c)
    (k_emc c) (k_dispc c) (k_dpi c) (k_dbi c) (k_par c) (k_results c) (k_id c).
Definition set_sem (b : bool) c : core :=
  mk_core (k_panel c) (k_if c) (k_enable c) (k_lock c) b (k_irqs c) (k_inited c) (k_open c) (k_count c)
    (k_emc c) (k_dispc c) (k_dpi c) (k_dbi c) (k_par c) (k_results c) (k_id c).
Definition set_irqs (b : bool) c : core :=
  mk_core (k_panel c) (k_if c) (k_enable c) (k_lock c) (k_sem c) b (k_inited c) (k_open c) (k_count c)
    (k_emc c) (k_dispc c) (k_dpi c) (k_dbi c) (k_par c) (k_results c) (k_id c).
Definition set_power (e : Z) c : core :=
  mk_core (k_panel c) (k_if c) e (k_lock c) (k_sem c) (k_irqs c) (k_inited c) (k_open c) (k_count c)
    (k_emc c) (k_dispc c) (k_dpi c) (k_dbi c) (k_par c) (k_results c) (k_id c).
Definition set_emc (n : Z) c : core :=
  mk_core (k_panel c) (k_if c) (k_enable c) (k_lock c) (k_sem c) (k_irqs c) (k_inited c) (k_open c) (k_count c)
    n (k_dispc c) (k_dpi c) (k_dbi c) (k_par c) (k_results c) (k_id c).
(** The three clocks given back. *)
Definition closed c : core :=
  if k_open c then
    mk_core (k_panel c) (k_if c) (k_enable c) (k_lock c) (k_sem c) (k_irqs c) (k_inited c) false 0
      (k_emc c) (k_dispc c - 1) (k_dpi c - 1) (k_dbi c - 1) (k_par c) (k_results c) (k_id c)
  else c.

Lemma set_lock_back c : k_lock c = true → set_lock true (set_lock false c) = c.
Proof. destruct c; simpl. by intros ->. Qed.
Lemma set_irqs_back c : set_irqs (k_irqs c) (set_irqs false c) = c.
Proof. by destruct c. Qed.

Lemma does_down c : k_lock c = true → does c down_refresh (λ _ c', c' = set_lock false c).
Proof.
  intros Hl s Hs. unfold down_refresh. apply wp_bind, wp_get.
  assert (refresh_lock (dev s) = true) as -> by (by rewrite <- Hs in Hl). by rewrite <- Hs.
Qed.
Lemma does_up c : does c up_refresh (λ _ c', c' = set_lock true c).
Proof. by intros s <-. Qed.

(** A call that runs [m] under the lock is as quiet as [m]. *)
Lemma quiet_locked {A B} c (m : M machine A) (k : A → M machine B) :
  k_lock c = true → quiet (set_lock false c) m → (∀ a, quiet c (k a)) →
  quiet c (down_refresh ;; a ← m; up_refresh ;; k a).
Proof.
  intros Hl Hm Hk. apply does_quiet. eapply does_bind; [by apply does_down|]. intros _ ? ->.
  apply does_step; [done|]. intros a. eapply does_bind; [apply does_up|]. intros _ ? ->.
  rewrite set_lock_back by done. by apply quiet_does.
Qed.

(** ** Clocks *)

(** What the clocks do not touch. *)
Definition rest c := (k_panel c, k_if c, k_enable c, k_lock c, k_sem c, k_irqs c, k_inited c, k_par c, k_id c).
(** The three clocks are enabled once when they are open, and not at all otherwise. *)
Definition balanced c : Prop :=
  let n := if k_open c then 1 else 0 in k_dispc c = n ∧ k_dpi c = n ∧ k_dbi c = n.
(** No clock refuses to be enabled. *)
Definition reliable c : Prop := Forall (eq 0) (k_results c).

(** The core with other clocks: open or not, the count, and how often each is enabled. *)
Definition with_clocks c (o : bool) (n e x y z : Z) (l : list Z) : core :=
  mk_core (k_panel c) (k_if c) (k_enable c) (k_lock c) (k_sem c) (k_irqs c) (k_inited c) o n e x y z
    (k_par c) l (k_id c).

Lemma does_clk_result c : does c clk_result (λ a c', ∃ l,
  c' = with_clocks c (k_open c) (k_count c) (k_emc c) (k_dispc c) (k_dpi c) (k_dbi c) l ∧
  (reliable c → a = 0 ∧ Forall (eq 0) l)).
Proof.
  intros s <-. unfold clk_result, wp, reliable. destruct (clk_results (env s)) as [|a l] eqn:E.
  - exists []. unfold core_of, with_clocks; simpl. rewrite E. by split; [|auto].
  - exists l. unfold core_of, with_clocks; simpl. rewrite E. split; [done|].
    intros [Ha Hl]%Forall_cons. by split.
Qed.

Lemma does_clk_enable c count set_count (bump : core → core) :
  (∀ s, core_of (set_hw (set_count (count (hw s) + 1) (hw s)) s) = bump (core_of s)) →
  does c (clk_enable count set_count) (λ ret c', ∃ l,
    let c1 := with_clocks c (k_open c) (k_count c) (k_emc c) (k_dispc c) (k_dpi c) (k_dbi c) l in
    c' = (if ret =? 0 then bump c1 else c1) ∧ (reliable c → ret = 0 ∧ Forall (eq 0) l)).
Proof.
  intros Hb. eapply does_bind; [apply does_clk_result|]. intros a c' (l & -> & Hr).
  intros s Hs. unfold when. destruct (a =? 0) eqn:E; simpl.
  - exists l. rewrite E. split; [|done]. by rewrite <- Hs, <- Hb.
  - exists l. by rewrite E.
Qed.

Lemma does_modify {A} c (f : machine → machine) (k : M machine A) (g : core → core) Q :
  (∀ s, core_of (f s) = g (core_of s)) → does (g c) k Q → does c (modify f ;; k) Q.
Proof. intros Hf Hk s <-. apply (Hk (f s)). by rewrite Hf. Qed.

Definition bump_dispc (n : Z) c : core :=
  with_clocks c (k_open c) (k_count c) (k_emc c) (k_dispc c + n) (k_dpi c) (k_dbi c) (k_results c).
Definition bump_dpi (n : Z) c : core :=
  with_clocks c (k_open c) (k_count c) (k_emc c) (k_dispc c) (k_dpi c + n) (k_dbi c) (k_results c).
Definition bump_dbi (n : Z) c : core :=
  with_clocks c (k_open c) (k_count c) (k_emc c) (k_dispc c) (k_dpi c) (k_dbi c + n) (k_results c).
Definition bump_emc (n : Z) c : core :=
  with_clocks c (k_open c) (k_count c) (k_emc c + n) (k_dispc c) (k_dpi c) (k_dbi c) (k_results c).

Definition opened (c : core) (ret : Z) (c' : core) : Prop :=
  rest c' = rest c ∧ k_emc c' = k_emc c ∧ (balanced c → balanced c') ∧
  (ret = 0 → k_open c' = true) ∧ (reliable c → ret = 0 ∧ reliable c').

Ltac clocks := unfold opened, rest, balanced, reliable in *; simpl in *; intuition (try congruence; try lia).

Lemma does_clk_open c : does c clk_open (opened c).
Proof.
  apply does_get; intros s Hs. replace (clk_is_open (ctx s)) with (k_open c) by (by rewrite <- Hs).
  destruct (k_open c) eqn:Eo; [apply does_ret; unfold opened; split_and!; auto|].
  eapply does_bind; [by apply (does_clk_enable _ _ _ (bump_dispc 1))|]. intros a c1 (l & -> & Hr).
  unfold truthy. destruct (Z.eqb_spec a 0) as [->|]; simpl; [|apply does_ret; clocks].
  eapply does_bind; [by apply (does_clk_enable _ _ _ (bump_dpi 1))|]. intros a c1 (l' & -> & Hr').
  destruct (Z.eqb_spec a 0) as [->|]; simpl;
    [|apply (does_modify _ _ _ (bump_dispc (-1))); [done|]; apply does_ret; clocks].
  eapply does_bind; [by apply (does_clk_enable _ _ _ (bump_dbi 1))|]. intros a c1 (l'' & -> & Hr'').
  destruct (Z.eqb_spec a 0) as [->|]; simpl;
    [|apply (does_modify _ _ _ (bump_dispc (-1))); [done|]; apply (does_modify _ _ _ (bump_dpi (-1))); [done|];
      apply does_ret; clocks].
  apply (does_modify _ _ _ (λ c, with_clocks c true (k_count c) (k_emc c) (k_dispc c) (k_dpi c) (k_dbi c) (k_results c)));
    [done|]. apply does_ret. unfold opened, balanced; simpl; rewrite Eo; clocks.
Qed.

Lemma does_clk_enable_force c : k_sem c = true → does c (sprdfb_dispc_clk_enable SPRDFB_DYNAMIC_CLK_FORCE) (opened c).
Proof.
  intros Hk. unfold sprdfb_dispc_clk_enable.
  eapply (does_bind _ _ _ (λ _ c', c' = set_sem false c)).
  { intros s Hs. unfold down_clk. apply wp_bind, wp_get.
    assert (clk_sem (ctx s) = true) as -> by (by rewrite <- Hs in Hk). by rewrite <- Hs. }
  intros _ ? ->. eapply does_bind; [apply does_clk_open|]. intros ret c' Hc.
  apply does_step; [destruct (ret =? 0); apply quiet_mret|]. intros _.
  apply (does_modify _ _ _ (set_sem true)); [done|]. apply does_ret. destruct c; clocks.
Qed.

Lemma does_clk_disable_force c : k_sem c = true →
  does c (sprdfb_dispc_clk_disable SPRDFB_DYNAMIC_CLK_FORCE) (λ _ c', c' = closed c).
Proof.
  intros Hk s <-. simpl in Hk. unfold sprdfb_dispc_clk_disable, down_clk, wp, mbind, M_bind, get. rewrite Hk. simpl.
  unfold closed, core_of; simpl. rewrite andb_true_r. rewrite <- Hk. by destruct (clk_is_open (ctx s)) eqn:E; simpl; rewrite ?E.
Qed.

(** ** The pixel clock *)

(** The pixels of a line and the lines of a frame of a panel, if its type is known. *)
Definition total_of (p : panel_spec) : option (Z * Z) :=
  if p_type p =? LCD_MODE_DSI then Some (panel_total p (mipi_timing p))
  else if (p_type p =? LCD_MODE_RGB) || (p_type p =? LCD_MODE_LVDS) then Some (panel_total p (rgb_timing p))
  else None.

(** For every frame rate the driver accepts the clock is not zero, and not more than
    twice its source. *)
Definition fps_ok (src : Z) (p : panel_spec) : Prop := ∀ h v fps,
  total_of p = Some (h, v) → LCD_MIN_FPS <= fps <= LCD_MAX_FPS →
  truthy (u32 (h * v * fps)) = true ∧ truthy (ROUND src (u32 (h * v * fps))) = true.
Definition clock_ok c : Prop := ∀ src p,
  dt_clock_src (k_par c) = Some src → k_panel c = Some p → fps_ok src p.

(** The pixel clock [v] divides by zero: the divider that would give it rounds to zero,
    or the panel has no pixels. *)
Definition overclocks c (v : Z) : bool :=
  (0 <? v) && k_is_dpi c &&
  match dt_clock_src (k_par c), k_panel c with
  | Some src, Some p =>
      if total_of p is Some (h, vl) then negb (truthy (ROUND src v) && truthy (u32 (h * vl))) else false
  | _, _ => false
  end.

Lemma overclocks_eq c v src p h vl : k_is_dpi c = true → 0 < v →
  dt_clock_src (k_par c) = Some src → k_panel c = Some p → total_of p = Some (h, vl) →
  overclocks c v = negb (truthy (ROUND src v) && truthy (u32 (h * vl))).
Proof. unfold overclocks. intros -> ->%Z.ltb_lt -> -> ->. done. Qed.

Lemma quiet_check_new_clk c src v type :
  dt_clock_src (k_par c) = Some src → clock_ok c →
  ((type =? SPRDFB_DYNAMIC_PCLK) = true → overclocks c v = false) →
  quiet c (dispc_check_new_clk src v type).
Proof.
  intros Hsrc Hc Hp. unfold dispc_check_new_clk. apply quiet_mget; intros s Hs.
  destruct (panel (dev s)) as [p|] eqn:Ep; [|quiet_tac].
  assert (Kp : k_panel c = Some (with_fps 0 p)) by (by rewrite <- Hs; simpl; rewrite Ep).
  assert (is_Some (k_panel c)) by (by rewrite Kp).
  rewrite (core_dpi _ _ Hs). destruct (k_is_dpi c) eqn:Ed; [|quiet_tac].
  destruct (Z.leb_spec v 0); [quiet_tac|].
  cbn [negb]. fold (total_of p). destruct (total_of p) as [[h vl]|] eqn:Et; [|quiet_tac].
  destruct (_ || _).
  - destruct ((v <? LCD_MIN_FPS) || (LCD_MAX_FPS <? v)) eqn:Er; [quiet_tac|].
    apply orb_false_iff in Er as [?%Z.ltb_ge ?%Z.ltb_ge].
    destruct (Hc src _ Hsrc Kp h vl v Et) as [-> ->]; [lia|]. simpl.
    do 2 (apply quiet_mbind; [quiet_tac|intros _]).
    apply quiet_mbind; [by apply quiet_mod_panel|intros; quiet_tac].
  - destruct (type =? SPRDFB_DYNAMIC_PCLK); [|quiet_tac].
    specialize (Hp eq_refl). rewrite (overclocks_eq c v src _ h vl) in Hp by done.
    apply negb_false_iff, andb_true_iff in Hp as [-> ->]. simpl.
    do 2 (apply quiet_mbind; [quiet_tac|intros _]). destruct (_ || _); [quiet_tac|].
    apply quiet_mbind; [by apply quiet_mod_panel|intros; quiet_tac].
Qed.

Lemma quiet_set_dpi_rate c v : quiet c (set_dpi_rate v).
Proof. unfold set_dpi_rate. quiet_tac. Qed.

Lemma quiet_update_clk c v howto : clock_ok c →
  ((howto =? SPRDFB_DYNAMIC_PCLK) = true → overclocks c v = false) →
  quiet c (dispc_update_clk v howto).
Proof.
  intros Hc Hp. unfold dispc_update_clk. apply quiet_mget; intros s Hs.
  destruct (dt_clock_src (par s)) as [src|] eqn:E; [|quiet_tac].
  assert (dt_clock_src (k_par c) = Some src) by (by rewrite <- Hs).
  destruct (howto =? SPRDFB_DYNAMIC_MIPI_CLK); [quiet_tac|].
  destruct (howto =? SPRDFB_FORCE_PCLK); [apply quiet_set_dpi_rate|].
  destruct (_ || _); [|quiet_tac]. apply quiet_mbind; [apply quiet_check_new_clk; eauto|].
  intros [ret pclk]. destruct (truthy ret); [quiet_tac|]. apply quiet_mget; intros ? ?.
  destruct (_ && _); [quiet_tac|apply quiet_set_dpi_rate].
Qed.

Context `{!FbMacrosOk}.

(** ** Power *)

(** The panel can be reset. *)
Definition resettable c : Prop := ∃ p, k_panel c = Some p ∧ op_panel_reset (p_ops p) ≠ None.
(** The device tree names the clocks, and the divider of the DPI clock is not zero. *)
Definition tree_ok (p : parameters) : Prop := dt_dpi_clk_div p ≠ Some 0.
Definition tree_complete (p : parameters) : Prop :=
  is_Some (dt_clock_src p) ∧ is_Some (dt_dpi_clk_div p) ∧ dt_clocks p = true.

Lemma resettable_panel c : resettable c → is_Some (k_panel c).
Proof. intros (p & -> & _). eauto. Qed.

Lemma quiet_panel_reset c : resettable c → quiet c panel_reset.
Proof.
  intros (p & Kp & Hr). unfold panel_reset. apply quiet_mget; intros s Hs.
  destruct (panel (dev s)) as [q|] eqn:Eq; [|quiet_tac].
  assert (op_panel_reset (p_ops q) ≠ None) by (rewrite <- Hs in Kp; simpl in Kp; rewrite Eq in Kp; by simplify_eq/=).
  apply quiet_mbind; [quiet_tac|intros _]. apply quiet_mbind; [|intros; quiet_tac].
  unfold run_panel_reset, panel_reset_dispc. destruct (op_panel_reset (p_ops q)) as [[]|]; [quiet_tac..|done].
Qed.
Lemma quiet_panel_suspend c : resettable c → quiet c sprdfb_panel_suspend.
Proof.
  intros Hr. pose proof (quiet_panel_reset _ Hr). unfold sprdfb_panel_suspend, panel_sleep, panel_after_suspend,
    panel_set_resetpin, panel_set_resetpin_dispc. quiet_tac.
Qed.
Lemma quiet_panel_resume c b : resettable c → quiet c (sprdfb_panel_resume b).
Proof.
  intros Hr. pose proof (quiet_panel_reset _ Hr). unfold sprdfb_panel_resume, panel_before_resume, panel_init,
    panel_ready_up, panel_set_resetpin, panel_set_resetpin_dispc. quiet_tac.
Qed.

(** What [early_init] and [resume] do to the clocks. *)
Definition started (c c' : core) : Prop :=
  rest c' = rest c ∧ (balanced c → balanced c') ∧
  (reliable c → reliable c' ∧ (tree_complete (k_par c) → k_open c' = true ∧ k_emc c' = k_emc c + 1)).

Lemma started_incomplete c : ¬ tree_complete (k_par c) → started c c.
Proof. unfold started. tauto. Qed.

Lemma does_clk_init c : clock_ok c → tree_ok (k_par c) → k_sem c = true →
  does c dispc_clk_init (λ _ c', started c c').
Proof.
  intros Hc Ht Hk. unfold dispc_clk_init. apply does_get; intros s Hs.
  replace (par s) with (k_par c) by (by rewrite <- Hs).
  destruct (dt_clock_src (k_par c)) as [src|] eqn:E1;
    [|apply does_ret, started_incomplete; unfold tree_complete; rewrite E1; by intros [[] _]].
  destruct (dt_dpi_clk_div (k_par c)) as [d|] eqn:E2;
    [|apply does_ret, started_incomplete; unfold tree_complete; rewrite E2; by intros (_ & [] & _)].
  assert (truthy d = true) as -> by (unfold truthy; destruct (Z.eqb_spec d 0) as [->|]; done).
  apply does_step; [quiet_tac|intros _].
  destruct (dt_clocks (k_par c)) eqn:E3;
    [|apply does_ret, started_incomplete; unfold tree_complete; rewrite E3; by intros (_ & _ & ?)]. cbn [negb].
  apply does_step.
  { destruct (truthy _); apply quiet_update_clk; try done; intros He; exfalso; revert He;
      apply not_true_iff_false, Z.eqb_neq; pose proof fb_clock_types as Hn;
      rewrite !NoDup_cons in Hn; set_solver. }
  intros _. eapply does_bind; [by apply (does_clk_enable _ _ _ (bump_emc 1))|]. intros r c1 (l & -> & Hr).
  set (c1 := with_clocks _ _ _ _ _ _ _ l) in *.
  eapply does_bind; [apply does_clk_enable_force; by destruct (r =? 0)|]. intros r' c2 (Hrest & He & Hb & Ho & Hr').
  cut (started c c2); [destruct (truthy r'); intros; by apply does_ret|].
  destruct (Z.eqb_spec r 0) as [->|]; unfold started; subst c1; clocks.
Qed.

Lemma does_early_init c : clock_ok c → tree_ok (k_par c) → k_sem c = true → k_inited c = true →
  does c sprdfb_dispc_early_init (λ _ c', started c c').
Proof.
  intros Hc Ht Hk Hi. unfold sprdfb_dispc_early_init. apply does_step; [quiet_tac|intros _].
  apply does_get; intros s Hs. replace (is_inited (ctx s)) with (k_inited c) by (by rewrite <- Hs).
  rewrite Hi. apply does_step; [apply quiet_mret|intros _].
  eapply does_bind; [by apply does_clk_init|]. intros ret c' Hst. cbv beta in Hst.
  destruct (truthy ret); [by apply does_ret|]. apply does_get; intros s' Hs'.
  replace (is_inited (ctx s')) with (k_inited c') by (by rewrite <- Hs').
  assert (k_inited c' = true) as -> by (destruct Hst as [Hst _]; unfold rest in Hst; congruence).
  simpl. do 3 (apply does_step; [quiet_tac|intros _]).
  by apply does_ret.
Qed.

(** ** The invariant *)

Record drv c : Prop := {
  d_reset : resettable c;
  d_lock : k_lock c = true;
  d_sem : k_sem c = true;
  d_irqs : k_irqs c = true;
  d_inited : k_inited c = true;
  d_clock : clock_ok c;
  d_tree : tree_ok (k_par c);
  d_balanced : balanced c }.

(** The clocks are on, each once, exactly while the device is enabled. *)
Record powered c : Prop := {
  p_reliable : reliable c;
  p_tree : tree_complete (k_par c);
  p_open : k_open c = truthy (k_enable c);
  p_emc : k_emc c = if truthy (k_enable c) then 1 else 0 }.

(** The panel, its interface and the parameters stay what they are. *)
Definition fixed c := (k_panel c, k_par c, k_if c).

Definition keeps_drv c {A} (m : M machine A) : Prop :=
  does c m (λ _ c', (drv c' ∧ fixed c' = fixed c) ∧ (powered c → powered c')).

Lemma quiet_keeps {A} c (m : M machine A) : drv c → quiet c m → keeps_drv c m.
Proof. intros Hd Hm. by apply quiet_does. Qed.

(** [drv] depends on no clock but through their balance. *)
Lemma drv_rest c c' : drv c → rest c' = rest (set_power (k_enable c') c) → balanced c' → drv c'.
Proof.
  unfold rest; simpl. intros [] He Hb. injection He; intros.
  constructor; try congruence; unfold resettable, clock_ok in *;
    repeat match goal with E : _ c' = _ c |- _ => rewrite E; clear E end; done.
Qed.

Lemma keeps_suspend c : drv c → keeps_drv c sprdfb_dispc_suspend.
Proof.
  intros Hd. pose proof Hd as [Hr Hl Hk Hi _ _ _ Hb]. pose proof (resettable_panel _ Hr) as Hp.
  unfold keeps_drv, sprdfb_dispc_suspend. apply does_step; [quiet_tac|intros _]. apply does_get; intros s Hs.
  replace (enable (dev s)) with (k_enable c) by (by rewrite <- Hs).
  destruct (truthy (k_enable c)) eqn:Ee; [|apply does_step; [apply quiet_mret|intros _]; by apply does_ret].
  eapply (does_bind _ _ _ (λ _ c', c' = closed (bump_emc (-1) (set_power 0 c)))).
  - eapply does_bind; [by apply does_down|]. intros _ ? ->.
    apply does_step; [quiet_tac|intros _].
    apply (does_modify _ _ _ (set_power 0)); [done|].
    eapply does_bind; [apply does_up|]. intros _ ? ->.
    apply does_step; [by apply quiet_panel_suspend|intros _].
    do 2 (apply does_step; [quiet_tac|intros _]).
    apply (does_modify _ _ _ (bump_emc (-1))); [done|].
    eapply does_bind; [by apply does_clk_disable_force|]. intros _ ? ->. apply does_ret.
    destruct c; simpl in *; by subst.
  - intros _ ? ->. apply does_ret. split; [split|].
    + apply (drv_rest c); [done|unfold closed; by destruct (k_open _)|]. clear -Hb.
      unfold closed, balanced in *; simpl in *. destruct (k_open c) eqn:E; simpl; rewrite ?E; lia.
    + unfold closed. by destruct (k_open _).
    + intros [Hrel Ht Ho He]. rewrite Ee in *. unfold closed; simpl. rewrite Ho. constructor; simpl; [done..|lia].
Qed.

Lemma quiet_clean_lcd c : resettable c → k_lock c = true → k_irqs c = true → quiet c sprdfb_dispc_clean_lcd.
Proof.
  intros Hr Hl Hi. pose proof (resettable_panel _ Hr). apply does_quiet. unfold sprdfb_dispc_clean_lcd.
  eapply does_bind; [by apply does_down|]. intros _ ? ->. apply does_get; intros s Hs.
  destruct (negb _); [eapply does_mono; [apply does_up|]; intros _ ? ->; by apply set_lock_back|].
  apply does_panel; [done|]. intros p _. do 6 (apply does_step; [quiet_tac|intros _]).
  eapply does_bind; [apply does_up|]. intros _ ? ->. rewrite set_lock_back by done.
  apply quiet_does; [quiet_tac|done].
Qed.

Lemma does_init c : is_Some (k_panel c) → does c sprdfb_dispc_init (λ _ c', c' = set_power 1 c).
Proof.
  intros Hp. unfold sprdfb_dispc_init, dispc_dithering_enable, dispc_set_exp_mode, dispc_pwr_enable, dispc_set_threshold.
  do 6 (apply does_step; [quiet_tac|intros ?]).
  apply does_get; intros s Hs. do 3 (apply does_step; [quiet_tac|intros _]).
  apply (does_modify _ _ _ (set_power 1)); [done|]. by apply does_ret.
Qed.

Lemma keeps_resume c : drv c → keeps_drv c sprdfb_dispc_resume.
Proof.
  intros Hd. pose proof Hd as [Hr Hl Hk Hi Hin Hck Ht Hb]. unfold keeps_drv, sprdfb_dispc_resume.
  apply does_get; intros s Hs. replace (enable (dev s)) with (k_enable c) by (by rewrite <- Hs).
  destruct (Z.eqb_spec (k_enable c) 0) as [Ee|Ee]; [|apply does_step; [apply quiet_mret|intros _]; by apply does_ret].
  eapply (does_bind _ _ _ (λ _ c', rest c' = rest (set_power 1 c) ∧ balanced c' ∧ (powered c → powered c')));
    [|intros _ c' (Hc & Hb' & Hp); apply does_ret; split; [split|done]; [apply (drv_rest c); try done|];
      unfold fixed, rest in *; injection Hc; intros; simpl in *; congruence].
  eapply does_bind; [by apply does_clk_enable_force|]. intros ret c1 (E1 & Em1 & Hb1 & Ho1 & Hr1).
  apply does_step; [quiet_tac|intros _].
  assert (drv c1) as [Hr' _ Hk' _ Hin' Hck' Ht' _].
  { apply (drv_rest c); auto. unfold rest in *. simpl. injection E1; intros. congruence. }
  eapply does_bind; [by apply does_early_init|]. intros _ c2 (E2 & Hb2 & Hr2).
  assert (drv c2) as [Hr'' Hl'' Hk'' Hi'' _ _ _ _].
  { apply (drv_rest c); auto. unfold rest in *. simpl. injection E1; injection E2; intros. congruence. }
  pose proof (resettable_panel _ Hr'') as Hp''.
  apply does_step; [by apply quiet_panel_resume|intros _].
  eapply does_bind; [by apply does_init|]. intros _ ? ->.
  apply (does_modify _ _ _ (set_power 1)); [done|].
  apply does_panel; [done|intros p _].
  apply quiet_does; [apply quiet_when; by apply quiet_clean_lcd|]. intros _. split_and!.
  - unfold rest in *; simpl. injection E1; injection E2; intros. congruence.
  - apply Hb2, Hb1, Hb.
  - intros [Hrel Htc Ho He]. destruct (Hr1 Hrel) as [_ Hrel1]. destruct (Hr2 Hrel1) as [Hrel2 Hc2].
    assert (k_par c1 = k_par c) as Ep by (unfold rest in E1; by injection E1).
    rewrite Ep in Hc2. destruct (Hc2 Htc) as [Ho2 He2].
    rewrite Ee in He. constructor; simpl; try done.
    + assert (k_par c2 = k_par c1) as -> by (unfold rest in E2; by injection E2). by rewrite Ep.
    + unfold truthy in He; simpl in He. lia.
Qed.

(** ** Calls under the lock *)

Ltac locked := eapply quiet_locked; [done|quiet_tac|intros; quiet_tac].

Lemma quiet_refresh c : drv c → quiet c sprdfb_dispc_refresh.
Proof. intros [Hr Hl _ Hi _ _ _ _]. pose proof (resettable_panel _ Hr). unfold sprdfb_dispc_refresh. locked. Qed.
Lemma quiet_enable_overlay c i on : drv c → quiet c (sprdfb_dispc_enable_overlay i on).
Proof.
  intros [Hr Hl _ Hi _ _ _ _]. pose proof (resettable_panel _ Hr). unfold sprdfb_dispc_enable_overlay.
  destruct on; [|quiet_tac]. destruct i; [|quiet_tac]. locked.
Qed.
Lemma quiet_pageflip c phys : drv c → quiet c (sprdfb_dispc_pageflip phys).
Proof.
  intros [Hr Hl _ Hi _ _ _ _]. pose proof (resettable_panel _ Hr). unfold sprdfb_dispc_pageflip.
  destruct (phys =? 0); [quiet_tac|]. locked.
Qed.
Lemma quiet_display_overlay c d : drv c → quiet c (sprdfb_dispc_display_overlay d).
Proof.
  intros [Hr Hl _ Hi _ _ _ _]. pose proof (resettable_panel _ Hr). unfold sprdfb_dispc_display_overlay.
  apply quiet_panel; [done|intros p]. apply quiet_mbind; [quiet_tac|intros _]. locked.
Qed.

(** Between stopping and running again no interrupt is waited for. *)
Lemma quiet_chg_clk_locked c type v : is_Some (k_panel c) → clock_ok c →
  ((type =? SPRDFB_DYNAMIC_PCLK) = true → overclocks c v = false) →
  quiet c (chg_clk_locked type v).
Proof.
  intros Hp Hc Hpclk. apply does_quiet. unfold chg_clk_locked. apply does_get; intros s Hs.
  apply (does_modify _ _ _ (set_irqs false)); [done|].
  apply does_step; [quiet_tac|intros _]. apply does_step; [by apply quiet_update_clk|intros ret].
  apply does_step; [quiet_tac|intros ret']. apply does_step; [quiet_tac|intros _].
  apply (does_modify _ _ _ (set_irqs (irqs_on (hw s)))); [done|]. apply does_ret. by rewrite <- Hs.
Qed.
Lemma quiet_chg_clk c type v : drv c →
  ((type =? SPRDFB_DYNAMIC_PCLK) = true → overclocks c v = false) →
  quiet c (sprdfb_dispc_chg_clk type v).
Proof.
  intros [Hr Hl _ Hi _ Hc _ _] Hpclk. pose proof (resettable_panel _ Hr). unfold sprdfb_dispc_chg_clk.
  destruct (v <=? 0); [quiet_tac|]. apply does_quiet.
  eapply does_bind; [by apply does_down|]. intros _ ? ->. apply does_get; intros s Hs.
  assert (quiet (set_lock false c) (chg_clk_locked type v)) by (by apply quiet_chg_clk_locked).
  apply does_step; [quiet_tac|intros ret].
  eapply does_bind; [apply does_up|]. intros _ ? ->. apply does_ret. by apply set_lock_back.
Qed.

(** ** A clock that divides by zero *)

(** From a state with core [c], [m] divides by zero. *)
Definition fails {A} c (m : M machine A) : Prop := ∀ s, core_of s = c → m s = Undefined.

Lemma fails_bind {A B} c (m : M machine A) (k : A → M machine B) : fails c m → fails c (m ≫= k).
Proof. intros Hm s Hs. unfold mbind, M_bind. by rewrite (Hm s Hs). Qed.
Lemma does_fails {A B} c (m : M machine A) (k : A → M machine B) P :
  does c m P → (∀ a c', P a c' → fails c' (k a)) → fails c (m ≫= k).
Proof.
  intros Hm Hk s Hs. specialize (Hm s Hs). unfold wp, mbind, M_bind in *. destruct (m s); [|done..].
  exact (Hk _ _ Hm _ eq_refl).
Qed.
Lemma quiet_fails {A B} c (m : M machine A) (k : A → M machine B) :
  quiet c m → (∀ a, fails c (k a)) → fails c (m ≫= k).
Proof. intros Hm Hk. apply (does_fails _ _ _ (λ _ c', c' = c)); [exact Hm|]. intros a ? ->. apply Hk. Qed.
Lemma fails_get {A} c (k : machine → M machine A) : (∀ s, core_of s = c → fails c (k s)) → fails c (get ≫= k).
Proof. intros Hk s Hs. exact (Hk s Hs s Hs). Qed.

Lemma fails_check_new_clk c src v : overclocks c v = true → dt_clock_src (k_par c) = Some src →
  fails c (dispc_check_new_clk src v SPRDFB_DYNAMIC_PCLK).
Proof.
  intros Ho Hsrc. unfold dispc_check_new_clk. apply fails_get; intros s Hs.
  pose proof Ho as [[Hv Hd]%andb_true_iff Hm]%andb_true_iff. apply Z.ltb_lt in Hv. rewrite Hsrc in Hm.
  rewrite (core_dpi _ _ Hs), Hd. destruct (panel (dev s)) as [p|] eqn:Ep;
    [|exfalso; subst c; simpl in Hm; by rewrite Ep in Hm].
  assert (Kp : k_panel c = Some (with_fps 0 p)) by (by rewrite <- Hs; simpl; rewrite Ep).
  rewrite (proj2 (Z.leb_gt _ _) Hv). cbn [negb]. fold (total_of p). rewrite Kp in Hm. change (total_of (with_fps 0 p)) with (total_of p) in Hm.
  destruct (total_of p) as [[h vl]|]; [|done]. pose proof fb_clock_types as Hn. rewrite !NoDup_cons in Hn.
  assert ((SPRDFB_DYNAMIC_PCLK =? SPRDFB_FORCE_FPS) || (SPRDFB_DYNAMIC_PCLK =? SPRDFB_DYNAMIC_FPS) = false) as ->
    by (apply orb_false_iff; split; apply Z.eqb_neq; set_solver).
  rewrite Z.eqb_refl. intros s' _. destruct (truthy (ROUND src v)); [|done]. simpl in Hm.
  by destruct (truthy (u32 (h * vl))).
Qed.

Lemma fails_update_clk c v : overclocks c v = true → fails c (dispc_update_clk v SPRDFB_DYNAMIC_PCLK).
Proof.
  intros Ho. unfold dispc_update_clk. apply fails_get; intros s Hs. pose proof fb_clock_types as Hn.
  rewrite !NoDup_cons in Hn. replace (dt_clock_src (par s)) with (dt_clock_src (k_par c)) by (by rewrite <- Hs).
  destruct (dt_clock_src (k_par c)) as [src|] eqn:E;
    [|unfold overclocks in Ho; rewrite E in Ho; by rewrite andb_false_r in Ho].
  assert ((SPRDFB_DYNAMIC_PCLK =? SPRDFB_DYNAMIC_MIPI_CLK) = false) as -> by (apply Z.eqb_neq; set_solver).
  assert ((SPRDFB_DYNAMIC_PCLK =? SPRDFB_FORCE_PCLK) = false) as -> by (apply Z.eqb_neq; set_solver).
  rewrite Z.eqb_refl, !orb_true_r. by apply fails_bind, fails_check_new_clk.
Qed.

Lemma fails_chg_clk c v : drv c → overclocks c v = true → fails c (sprdfb_dispc_chg_clk SPRDFB_DYNAMIC_PCLK v).
Proof.
  intros [Hr Hl _ Hi _ Hc _ _] Ho. pose proof (resettable_panel _ Hr).
  pose proof Ho as [[Hv Hd]%andb_true_iff _]%andb_true_iff. unfold sprdfb_dispc_chg_clk. apply Z.ltb_lt in Hv.
  rewrite (proj2 (Z.leb_gt _ _) Hv). eapply does_fails; [by apply does_down|]. intros _ ? ->.
  apply fails_get; intros s Hs. rewrite Z.eqb_refl, (core_dpi _ _ Hs). change (k_is_dpi _) with (k_is_dpi c).
  rewrite Hd. cbn [negb]. apply fails_bind. unfold chg_clk_locked. apply fails_get; intros s' Hs'.
  apply (does_fails _ _ _ (λ _ c', c' = set_irqs false (set_lock false c)));
    [by apply (does_modify _ (λ s, set_hw (set_irqs_on false (hw s)) s) (mret tt) (set_irqs false)); [|apply does_ret]|].
  intros _ ? ->. apply quiet_fails; [quiet_tac|intros _]. by apply fails_bind, fails_update_clk.
Qed.
End does.
