(* ===== verification/SprdFbSpec.v ===== *)
(** * Display: what the driver promises

    Every call of user space and of power management returns with the locks free and
    the clocks as the power of the device wants them, unless it asks for a pixel clock
    that divides by zero. *)

From S2P Require Import Prelude CMonad DispcTypes SprdPanel Dispc DispcFrame SprdFb DispcInv DispcPower.

(** The ways into the driver. *)
Inductive call : Type :=
  | CIoctl (cmd : Z) (arg : user_ptr) | CPan | CEarlySuspend | CLateResume
  | CInterrupt (status : Z) | CThreshold (pre_change : bool) | CChgClk (type v : Z).

Section spec.
Context `{!FbMacros, !FbMacrosOk, !ClkIntf, !ClkIntfOk}.

Definition run_call (x : call) : M machine unit :=
  match x with
  | CIoctl cmd arg => sprdfb_ioctl cmd arg ;; mret tt
  | CPan => sprdfb_pan_display ;; mret tt
  | CEarlySuspend => sprdfb_early_suspend
  | CLateResume => sprdfb_late_resume
  | CInterrupt status => interrupt status
  | CThreshold b => sprdfb_dispc_change_threshold b ;; mret tt
  | CChgClk type v => sprdfb_dispc_chg_clk type v ;; mret tt
  end.
Fixpoint run_calls (l : list call) : M machine unit :=
  match l with
  | [] => mret tt
  | x :: l' => run_call x ;; run_calls l'
  end.

(** A call asks for a pixel clock that divides by zero. *)
Definition call_overclocks (c : core) (x : call) : bool :=
  match x with CChgClk type v => (type =? SPRDFB_DYNAMIC_PCLK) && overclocks c v | _ => false end.
Definition call_ok (c : core) (x : call) : Prop := call_overclocks c x = false.

Lemma keeps_step {A B} c (m : M machine A) (k : A → M machine B) :
  keeps_drv c m → (∀ a c', drv c' → fixed c' = fixed c → keeps_drv c' (k a)) → keeps_drv c (m ≫= k).
Proof.
  intros Hm Hk. eapply does_bind; [exact Hm|]. intros a c' [[Hd Hf] Hp].
  eapply does_mono; [by apply Hk|]. intros b c'' [[Hd' Hf'] Hp']. rewrite Hf', Hf. auto.
Qed.
Lemma keeps_mret {A} c (a : A) : drv c → keeps_drv c (mret a).
Proof. intros. by apply does_ret. Qed.

Lemma dynamic_fps_not_pclk : (SPRDFB_DYNAMIC_FPS =? SPRDFB_DYNAMIC_PCLK) = false.
Proof.
  apply Z.eqb_neq. pose proof fb_clock_types as Hn. rewrite !NoDup_cons in Hn. set_solver.
Qed.
Lemma quiet_chg_clk_intf c v : drv c → quiet c (sprdfb_chg_clk_intf SPRDFB_DYNAMIC_FPS v).
Proof.
  intros Hd s Hs. destruct (chg_clk_intf_ok SPRDFB_DYNAMIC_FPS v s) as [E|(e & _ & E)]; unfold wp; rewrite E.
  - apply quiet_chg_clk; [done..| |done]. by rewrite dynamic_fps_not_pclk.
  - done.
Qed.

Lemma keeps_power_mode c v : drv c → keeps_drv c (set_power_mode v).
Proof.
  intros Hd. unfold set_power_mode. apply does_get; intros s Hs.
  destruct (_ || _); (apply keeps_step; [|intros _ c' ? ?; apply quiet_keeps; [done|quiet_tac]]);
    (unfold when; destruct (_ : bool); [|by apply keeps_mret]);
    (apply keeps_step; [|intros; by apply keeps_mret]); [by apply keeps_suspend|by apply keeps_resume].
Qed.

Lemma keeps_ioctl c cmd arg : drv c → keeps_drv c (sprdfb_ioctl cmd arg).
Proof.
  intros Hd. pose proof (resettable_panel _ (d_reset _ Hd)). pose proof (d_irqs _ Hd). unfold sprdfb_ioctl.
  assert (Hmode : keeps_drv c (s ← get;
    if truthy (a1000_legacy_pm (par s)) then mret (copied (as_word arg)) else
    match as_word arg with
    | None => mret (copied (as_word arg))
    | Some power_mode => set_power_mode power_mode ;; mret 0
    end)).
  { apply does_get; intros s Hs. destruct (truthy _); [by apply keeps_mret|].
    destruct (as_word arg); [|by apply keeps_mret].
    apply keeps_step; [by apply keeps_power_mode|intros; by apply keeps_mret]. }
  destruct (cmd =? SPRD_FB_SET_OVERLAY).
  { apply quiet_keeps; [done|]. destruct (as_info arg); [by apply quiet_enable_overlay|quiet_tac]. }
  destruct (cmd =? SPRD_FB_DISPLAY_OVERLAY).
  { apply quiet_keeps; [done|]. destruct (as_display arg); [by apply quiet_display_overlay|quiet_tac]. }
  destruct (cmd =? SPRD_FB_PAGEFLIP).
  { apply quiet_keeps; [done|]. destruct (as_word arg); [by apply quiet_pageflip|quiet_tac]. }
  destruct (cmd =? FBIO_WAITFORVSYNC); [apply quiet_keeps; [done|quiet_tac]|].
  destruct (cmd =? SPRD_FB_CHANGE_FPS).
  { apply quiet_keeps; [done|]. destruct (as_word arg); [by apply quiet_chg_clk_intf|quiet_tac]. }
  destruct (cmd =? SPRD_FB_IS_REFRESH_DONE).
  { apply quiet_keeps; [done|]. unfold sprdfb_is_refresh_done. quiet_tac. }
  destruct (cmd =? SPRD_FB_SET_POWER_MODE); [exact Hmode|by apply keeps_mret].
Qed.

Lemma keeps_call c x : drv c → call_ok c x → keeps_drv c (run_call x).
Proof.
  intros Hd Hx. pose proof (resettable_panel _ (d_reset _ Hd)). pose proof (d_irqs _ Hd).
  assert (Hd' : ∀ A (m : M machine A), keeps_drv c m → keeps_drv c (m ;; mret tt))
    by (intros; apply keeps_step; [done|intros; by apply keeps_mret]).
  destruct x as [cmd arg| | | |st|b|type v]; simpl.
  - by apply Hd', keeps_ioctl.
  - apply Hd', quiet_keeps; [done|]. pose proof (quiet_refresh _ Hd). unfold sprdfb_pan_display. quiet_tac.
  - apply keeps_step; [apply quiet_keeps; [done|quiet_tac]|intros a c1 Hd1 _].
    destruct (a =? 0); [by apply keeps_mret|]. apply keeps_step; [by apply keeps_suspend|intros; by apply keeps_mret].
  - apply keeps_step; [apply quiet_keeps; [done|quiet_tac]|intros a c1 Hd1 _].
    destruct (a =? 0); [by apply keeps_mret|]. apply keeps_step; [by apply keeps_resume|intros; by apply keeps_mret].
  - apply quiet_keeps; [done|quiet_tac].
  - apply Hd', quiet_keeps; [done|quiet_tac].
  - apply Hd', quiet_keeps; [done|]. apply quiet_chg_clk; [done|]. intros E. unfold call_ok in Hx; simpl in Hx. by rewrite E in Hx.
Qed.


Lemma call_fixed c c' x : fixed c' = fixed c → call_overclocks c' x = call_overclocks c x.
Proof. unfold fixed, call_overclocks, overclocks, k_is_dpi. by intros [= -> -> ->]. Qed.

Lemma keeps_calls c l : drv c → Forall (call_ok c) l → keeps_drv c (run_calls l).
Proof.
  revert c. induction l as [|x l IH]; intros c Hd Hl; simpl; [by apply keeps_mret|].
  apply Forall_cons in Hl as [Hx Hl]. apply keeps_step; [by apply keeps_call|].
  intros _ c' Hd' Hf. apply IH; [done|]. eapply Forall_impl; [exact Hl|].
  intros y. unfold call_ok. by rewrite (call_fixed _ _ y Hf).
Qed.

Lemma fails_call c x : drv c → call_overclocks c x = true → fails c (run_call x).
Proof.
  destruct x as [| | | | | |type v]; [done..|]. intros Hd [->%Z.eqb_eq Ho]%andb_true_iff.
  by apply fails_bind, fails_chg_clk.
Qed.
Lemma fails_calls c l : drv c → existsb (call_overclocks c) l = true → fails c (run_calls l).
Proof.
  revert c. induction l as [|x l IH]; intros c Hd; simpl; [done|].
  destruct (call_overclocks c x) eqn:Ex; [intros _; by apply fails_bind, fails_call|]. intros Hl.
  eapply does_fails; [by apply keeps_call|]. intros _ c' [[Hd' Hf] _]. apply IH; [done|].
  rewrite <- Hl. clear -Hf. induction l as [|y l IHl]; simpl; [done|]. by rewrite (call_fixed _ _ y Hf), IHl.
Qed.
Lemma calls_ok c l : existsb (call_overclocks c) l = false ↔ Forall (call_ok c) l.
Proof.
  induction l as [|x l IH]; simpl; [by split|]. rewrite orb_false_iff, Forall_cons, IH. done.
Qed.

(** C7: Whatever user space asks for, the chip reports, power management does and the
    clocks answer, in whatever order: unless a pixel clock is asked for whose divider
    rounds to zero, every call returns, none waits for a lock it holds or for an
    interrupt it has turned off, and the locks are free afterwards. A request for such a
    clock divides by zero. The panel is one on which each frame rate that the driver
    accepts needs a clock that is not zero and has a divider. *)
Theorem driver_safe s l : drv (core_of s) →
  if existsb (call_overclocks (core_of s)) l then run_calls l s = Undefined
  else wp (run_calls l) (λ _ s', drv (core_of s')) s.
Proof.
  intros Hd. destruct (existsb _ _) eqn:El; [by apply (fails_calls (core_of s))|]. apply calls_ok in El.
  eapply wp_mono; [by apply (keeps_calls _ _ Hd El s)|]. by intros _ s' [[? _] _].
Qed.

(** C17: If no clock refuses to be enabled, all four are enabled exactly once while the
    device is on, and not at all while it is off, after any sequence of calls. *)
Theorem clocks_follow_power s l : drv (core_of s) → powered (core_of s) → Forall (call_ok (core_of s)) l →
  wp (run_calls l) (λ _ s', let n := if enable (dev s') =? 0 then 0 else 1 in
    clk_emc (hw s') = n ∧ clk_dispc (hw s') = n ∧ clk_dpi (hw s') = n ∧ clk_dbi (hw s') = n) s.
Proof.
  intros Hd Hp Hl. eapply wp_mono; [by apply (keeps_calls _ _ Hd Hl s)|]. intros _ s' [[Hd' _] Hp'].
  destruct (Hp' Hp) as [_ _ Ho He]. pose proof (d_balanced _ Hd') as Hb. unfold balanced in Hb.
  rewrite Ho in Hb. unfold truthy in *. simpl in *. by destruct (enable (dev s') =? 0).
Qed.
End spec.
