(* ===== verification/DispcSpec.v ===== *)
(** * Display: flips, overlays, clocks, and a device that is off

    The flip of one register that shows a new frame, down to the interrupt that ends the
    wait for it; what setting and showing an overlay leaves in the registers, how close
    the clock comes to the frame rate that was asked for, and what is refused while the
    device is off. *)

From S2P Require Import Prelude CMonad DispcTypes SprdPanel Dispc DispcFrame SprdFb DispcInv DispcPower.

Definition irqs_of (w : wake) : list Z := match w with Timeout l | Signal l => l end.
(** An interrupt of the sleep tells that the update is done. *)
Definition finishes (w : wake) : bool := existsb (λ i, has_flag i 0x10) (irqs_of w).
Definition next_of (s : machine) : wake := match wakes (env s) with [] => Timeout [] | w :: _ => w end.

Section flip.
Context `{!FbMacros, !FbMacrosOk}.

(** ** Interrupts *)

(** What an interrupt may change on a panel that is driven all the time. *)
Record irq_frame (s s' : machine) : Prop := {
  if_dev : dev s' = dev s;
  if_par : par s' = par s;
  if_first : is_first_frame (ctx s') = is_first_frame (ctx s);
  if_overlay : overlay_state (ctx s') = overlay_state (ctx s);
  if_ctx_dev : ctx_dev (ctx s') = ctx_dev (ctx s);
  if_regs : ∀ r, r ≠ DISPC_INT_EN → r ≠ DISPC_INT_CLR → regs (hw s') r = regs (hw s) r;
  if_irqs : irqs_on (hw s') = irqs_on (hw s) }.

Lemma irq_frame_refl s : irq_frame s s.
Proof. by split. Qed.
Lemma irq_frame_trans s1 s2 s3 : irq_frame s1 s2 → irq_frame s2 s3 → irq_frame s1 s3.
Proof. intros [] []. split; try congruence. intros r ? ?. trans (regs (hw s2) r); auto. Qed.

(** A panel that is driven all the time, and a device interrupts are meant for. *)
Record driven (s : machine) : Prop := {
  dr_dpi : panel_if_type (dev s) = SPRDFB_PANEL_IF_DPI;
  dr_dev : ctx_dev (ctx s) = true;
  dr_panel : is_Some (panel (dev s)) }.

Lemma driven_eq s s' : dev s' = dev s → ctx_dev (ctx s') = ctx_dev (ctx s) → driven s → driven s'.
Proof. intros E1 E2 []. split; congruence. Qed.
Lemma driven_frame s s' : irq_frame s s' → driven s → driven s'.
Proof. intros [] []. split; congruence. Qed.

Lemma interrupt_exact st s : driven s → wp (interrupt st) (λ _ s', irq_frame s s' ∧
  vsync_done (ctx s') = (if has_flag st 0x10 then 1 else vsync_done (ctx s)) ∧
  shown (hw s') = (if has_flag st 0x10 then latch (regs (hw s)) (shown (hw s)) else shown (hw s))) s.
Proof.
  intros [Hd Hc [p Hp]]. unfold interrupt, dispc_isr, isr_done, isr_vsync.
  assert (Hdpi : ∀ s', dev s' = dev s → is_dpi s' = true) by (intros s' E; unfold is_dpi; by rewrite E, Hd).
  assert (Hedpi : ∀ s', dev s' = dev s → is_edpi s' = false) by (intros s' E; unfold is_edpi; by rewrite E, Hd).
  destruct (has_flag st 16), (has_flag st DISPC_INT_ERR_MASK), (has_flag st DISPC_INT_HWVSYNC);
    unfold sprdfb_panel_after_refresh, the_panel, when, wp, mbind, M_bind, get, mret, M_ret, mod_ctx, mod_hw,
      dispc_write, dispc_clear_bits, dispc_read, emit, modify;
    destruct (truthy (vsync_waiter (ctx s))) eqn:Hw, (has_panel_if_after_refresh (p_if p)) eqn:Ha;
    repeat progress (simpl; rewrite ?Hc, ?Hp, ?Hdpi, ?Hedpi, ?Hw, ?Ha, ?andb_false_r by done);
    (split_and!; [split; try done; intros; simpl; rewrite ?fn_lookup_insert_ne by done; done|done|done]).
Qed.

Lemma sleep_exact cond l s : driven s → (∀ s', cond s' = truthy (vsync_done (ctx s'))) → vsync_done (ctx s) = 0 →
  wp (sleep cond l) (λ b s', irq_frame s s' ∧ b = existsb (λ i, has_flag i 0x10) l ∧
    vsync_done (ctx s') = (if b : bool then 1 else 0) ∧
    (b = true → ∀ r, r ≠ DISPC_INT_EN → r ≠ DISPC_INT_CLR → shown (hw s') r = regs (hw s) r) ∧
    (b = false → shown (hw s') = shown (hw s))) s.
Proof.
  intros Hd Hc Hv. revert s Hd Hv. induction l as [|i l IH]; intros s Hd Hv; simpl.
  { apply wp_ret. split_and!; [apply irq_frame_refl|done..]. }
  apply wp_bind. eapply wp_mono; [by apply interrupt_exact|]. intros _ s1 (Hf & Hv1 & Hs1).
  apply wp_bind, wp_get. rewrite Hc, Hv1. destruct (has_flag i 16); simpl.
  - split_and!; [done..| |done]. intros _ r ? ?. rewrite Hs1. by rewrite latch_all.
  - rewrite Hv; simpl. eapply wp_mono; [apply IH; [by eapply driven_frame|congruence]|].
    intros b s2 (Hf2 & Hb & Hv2 & Hsh & Hsn). split_and!; [by eapply irq_frame_trans|done..| |].
    + intros ? r ? ?. rewrite Hsh by done. by apply Hf.
    + intros. rewrite Hsn by done. congruence.
Qed.

Lemma next_wake_exact s : wp next_wake (λ w s', w = next_of s ∧ irq_frame s s' ∧
  vsync_done (ctx s') = vsync_done (ctx s) ∧ shown (hw s') = shown (hw s)) s.
Proof. unfold next_wake, next_of, wp. by destruct (wakes (env s)). Qed.

(** A wait for the end of an update that has not ended: how it ends, and what is shown. *)
Lemma wait_update_exact s : driven s → irqs_on (hw s) = true → vsync_done (ctx s) = 0 →
  wp (wait_event_interruptible_timeout (λ s, truthy (vsync_done (ctx s)))) (λ ret s', irq_frame s s' ∧
    ret = (if finishes (next_of s) then 1 else match next_of s with Timeout _ => 0 | Signal _ => - ERESTARTSYS end) ∧
    if finishes (next_of s)
    then ∀ r, r ≠ DISPC_INT_EN → r ≠ DISPC_INT_CLR → shown (hw s') r = regs (hw s) r
    else shown (hw s') = shown (hw s)) s.
Proof.
  intros Hd Hi Hv. unfold wait_event_interruptible_timeout. apply wp_bind, wp_get. rewrite Hv, Hi. simpl.
  apply wp_bind, wp_ret, wp_bind. eapply wp_mono; [apply next_wake_exact|].
  intros w s1 (-> & Hf1 & Hv1 & Hs1). rewrite Hv in Hv1. pose proof (driven_frame _ _ Hf1 Hd) as Hd1.
  pose proof (λ l, sleep_exact (λ s, truthy (vsync_done (ctx s))) l s1 Hd1 (λ _, eq_refl) Hv1) as Hsl.
  unfold finishes. destruct (next_of s) as [l|l]; simpl;
    (apply wp_bind; eapply wp_mono; [apply Hsl|]); intros b s2 (Hf2 & -> & _ & Hsh & Hsn);
    (apply wp_ret; split; [by eapply irq_frame_trans|]);
    destruct (existsb _ l); (split; [done|]); try (rewrite Hsn by done; congruence);
    intros r ? ?; rewrite Hsh by done; by apply Hf1.
Qed.

(** ** A flip *)

(** The registers that start a frame, and those of interrupts. *)
Definition run_regs : list reg := [DISPC_DPI_CTRL; DISPC_CTRL; DISPC_INT_EN; DISPC_INT_CLR].

Lemma dispc_run_exact s : driven s → enable (dev s) ≠ 0 → wp dispc_run (λ _ s',
  dev s' = dev s ∧ par s' = par s ∧ shown (hw s') = shown (hw s) ∧ irqs_on (hw s') = irqs_on (hw s) ∧
  wakes (env s') = wakes (env s) ∧ overlay_state (ctx s') = overlay_state (ctx s) ∧
  ctx_dev (ctx s') = ctx_dev (ctx s) ∧ is_first_frame (ctx s') = false ∧
  vsync_done (ctx s') = (if is_first_frame (ctx s) then vsync_done (ctx s) else 0) ∧
  ∀ r, r ∉ run_regs → regs (hw s') r = regs (hw s) r) s.
Proof.
  intros [Hd Hc _] He. unfold dispc_run, dispc_irq_trick.
  assert (Hdpi : ∀ s', dev s' = dev s → is_dpi s' = true) by (intros s' E; unfold is_dpi; by rewrite E, Hd).
  apply Z.eqb_neq in He.
  assert (Hr : ∀ (r q : reg) v (f : reg → Z), r ∉ run_regs → q ∈ run_regs → (<[q := v]> f) r = f r).
  { intros r q v f Hr Hq. apply fn_lookup_insert_ne. congruence. }
  destruct (is_first_frame (ctx s)) eqn:Ef;
    unfold when, wp, mbind, M_bind, get, mret, M_ret, mod_ctx, mod_hw, dispc_set_bits, dispc_clear_bits,
      dispc_write, dispc_read, emit, modify;
    repeat progress (simpl; rewrite ?Hdpi, ?He, ?Ef, ?andb_false_r by done);
    (split_and!; try done; intros r Hn; rewrite ?Hr; set_solver).
Qed.

(** [phys] is in the OSD layer, which can be seen, with the switch of red and blue as
    the parameter [rb] wants it. *)
Definition osd_shows (r : reg → Z) (rb phys : Z) : Prop :=
  r DISPC_OSD_BASE_ADDR = phys ∧ Z.testbit (r DISPC_OSD_CTRL) 0 = true ∧ r DISPC_OSD_ALPHA = 0xff ∧
  (0 <= rb → Z.testbit (r DISPC_OSD_CTRL) 15 = truthy rb).

Definition flip_regs : list reg := [DISPC_OSD_CTRL; DISPC_OSD_ALPHA; DISPC_OSD_BASE_ADDR] ++ run_regs.

Lemma testbit_u32 x n : 0 <= n < 32 → Z.testbit (u32 x) n = Z.testbit x n.
Proof. intros. unfold wrap. by rewrite Z.mod_pow2_bits_low by lia. Qed.
Lemma testbit_bit a b : 0 <= a → 0 <= b → Z.testbit (BIT a) b = (a =? b).
Proof. intros. unfold BIT. rewrite Z.shiftl_1_l. apply Z.pow2_bits_eqb. done. Qed.

Definition with_regs (r : reg → Z) (s : machine) : machine := set_hw (set_regs r (hw s)) s.

Lemma flip_rb_exact rb s : wp (flip_rb rb) (λ _ s', ∃ r, s' = with_regs r s ∧
  (∀ q, q ≠ DISPC_OSD_CTRL → r q = regs (hw s) q) ∧ (0 <= rb → Z.testbit (r DISPC_OSD_CTRL) 15 = truthy rb)) s.
Proof.
  unfold flip_rb, dispc_read. destruct (Z.leb_spec 0 rb) as [Hrb|Hrb]; simpl.
  2: { apply wp_ret. exists (regs (hw s)). split; [by destruct s as [? ? [] ? ?]|]. split; [done|lia]. }
  apply wp_bind, wp_bind, wp_get, wp_ret. set (v := regs (hw s) DISPC_OSD_CTRL).
  set (want := if truthy rb then Z.lor v (BIT 15) else Z.ldiff v (BIT 15)).
  assert (Hw : Z.testbit want 15 = truthy rb).
  { unfold want. destruct (truthy rb); rewrite ?Z.lor_spec, ?Z.ldiff_spec, testbit_bit by lia; simpl;
      by rewrite ?orb_true_r, ?andb_false_r. }
  destruct (Z.eqb_spec want v) as [E|E]; simpl.
  - apply wp_ret. exists (regs (hw s)). split; [by destruct s as [? ? [] ? ?]|]. split; [done|].
    intros _. fold v. by rewrite <- E.
  - eexists. split; [done|]. split; [intros q Hq; by rewrite fn_lookup_insert_ne by done|].
    intros _. rewrite fn_lookup_insert. exact (eq_trans (testbit_u32 want 15 ltac:(lia)) Hw).
Qed.

(** The writes of a flip, and what follows them. *)
Lemma flip_writes_exact {A} phys s (k : M machine A) Q :
  (∀ r, osd_shows r (osd_rb_ov (par s)) (u32 phys) → (∀ q, q ∉ flip_regs → r q = regs (hw s) q) →
    wp k Q (with_regs r s)) →
  wp (flip_rb (osd_rb_ov (par s)) ;; dispc_set_osd_alpha 0xff ;; dispc_set_bits (BIT 0) DISPC_OSD_CTRL ;;
      dispc_write phys DISPC_OSD_BASE_ADDR ;; k) Q s.
Proof.
  intros Hk. apply wp_bind. eapply wp_mono; [apply flip_rb_exact|]. intros _ ? (r & -> & Hr & Hrb).
  set (r1 := <[DISPC_OSD_ALPHA := u32 (u8 0xff)]> r).
  apply (Hk (<[DISPC_OSD_BASE_ADDR := u32 phys]> (<[DISPC_OSD_CTRL := u32 (set_bits (BIT 0) (r1 DISPC_OSD_CTRL))]> r1))).
  - unfold osd_shows, r1. rewrite !fn_lookup_insert, !(fn_lookup_insert_ne _ DISPC_OSD_BASE_ADDR),
      !fn_lookup_insert, !(fn_lookup_insert_ne _ DISPC_OSD_CTRL), !fn_lookup_insert by done.
    rewrite !testbit_u32, set_bits_or, !Z.lor_spec, !testbit_bit, !(fn_lookup_insert_ne _ DISPC_OSD_ALPHA) by (done || lia).
    split_and!; [done|by rewrite orb_true_r|done|intros; simpl; rewrite orb_false_r; auto].
  - intros q Hq. unfold r1. rewrite !fn_lookup_insert_ne by set_solver. apply Hr. set_solver.
Qed.

(** How a wait for the update that was just started ends, if there is one: the result of
    the flip, and whether the new registers are shown. *)
Definition flip_waits (s : machine) : bool := negb (is_first_frame (ctx s)) || (vsync_done (ctx s) =? 0).
Definition flip_result (s : machine) : Z :=
  if negb (flip_waits s) || finishes (next_of s) then 0
  else match next_of s with Timeout _ => - ETIMEDOUT | Signal _ => 0 end.
Definition flip_seen (s : machine) : bool := flip_waits s && finishes (next_of s).

Definition sync_waits (s : machine) : bool := vsync_done (ctx s) =? 0.
Definition sync_result (s : machine) : Z :=
  if negb (sync_waits s) || finishes (next_of s) then 0
  else match next_of s with Timeout _ => -1 | Signal _ => 0 end.

Lemma dispc_sync_exact s : driven s → irqs_on (hw s) = true → enable (dev s) ≠ 0 →
  wp dispc_sync (λ ret s', irq_frame s s' ∧ ret = sync_result s ∧
    if sync_waits s && finishes (next_of s)
    then ∀ r, r ≠ DISPC_INT_EN → r ≠ DISPC_INT_CLR → shown (hw s') r = regs (hw s) r
    else shown (hw s') = shown (hw s)) s.
Proof.
  intros Hd Hi He. apply Z.eqb_neq in He. unfold dispc_sync, sync_result, sync_waits.
  apply wp_bind, wp_get. rewrite He. apply wp_bind.
  destruct (Z.eqb_spec (vsync_done (ctx s)) 0) as [Hv|Hv]; simpl.
  - eapply wp_mono; [by apply wait_update_exact|]. intros ret s1 (Hf & -> & Hs).
    destruct (finishes _); simpl; [by apply wp_ret|].
    destruct (next_of s); simpl; [|by apply wp_ret].
    apply wp_bind, wp_modify, wp_ret. simpl. split_and!; [|done..]. by destruct Hf.
  - unfold wait_event_interruptible_timeout. apply wp_bind, wp_get.
    assert (truthy (vsync_done (ctx s)) = true) as -> by (unfold truthy; by apply Z.eqb_neq in Hv as ->).
    apply wp_ret. simpl. by apply wp_ret; split_and!; [apply irq_frame_refl|..].
Qed.

(** A flip from the frame on, once its registers are written. *)
Definition flip_rest : M machine Z :=
  mod_dev (λ d, set_dev_frame_count (u32 (dev_frame_count d + 1)) d) ;;
  dispc_run ;;
  s ← get;
  if is_first_frame (ctx s) then mret 0 else
  synced ← dispc_sync;
  if truthy synced then mret (- ETIMEDOUT) else mret 0.

Lemma osd_shows_eq r r' rb phys :
  osd_shows r rb phys → (∀ q, q ∈ [DISPC_OSD_CTRL; DISPC_OSD_ALPHA; DISPC_OSD_BASE_ADDR] → r' q = r q) →
  osd_shows r' rb phys.
Proof. unfold osd_shows. intros Hr Hq. by rewrite !Hq by set_solver. Qed.

Lemma flip_rest_exact s rb phys : driven s → irqs_on (hw s) = true → enable (dev s) ≠ 0 →
  osd_shows (regs (hw s)) rb phys → wp flip_rest (λ ret s',
    refresh_lock (dev s') = refresh_lock (dev s) ∧ ret = flip_result s ∧ osd_shows (regs (hw s')) rb phys ∧
    (∀ r, r ∉ run_regs → regs (hw s') r = regs (hw s) r) ∧
    if flip_seen s then osd_shows (shown (hw s')) rb phys else shown (hw s') = shown (hw s)) s.
Proof.
  intros Hd Hi He Ho. unfold flip_rest. apply wp_bind, wp_modify, wp_bind. set (s0 := set_dev _ s).
  assert (Hd0 : driven s0) by (by destruct Hd).
  eapply wp_mono; [by apply dispc_run_exact|].
  intros _ s1 (E1 & _ & E3 & E4 & E5 & _ & E7 & E8 & E9 & E10). apply wp_bind, wp_get. rewrite E8. apply wp_bind.
  eapply wp_mono; [apply dispc_sync_exact; [by eapply driven_eq|by rewrite E4|by rewrite E1]|].
  intros ret s2 ([F1 _ _ _ _ F2 _] & -> & F5). unfold sync_result in *.
  assert (Hw : sync_waits s1 = flip_waits s).
  { unfold sync_waits. rewrite E9. unfold flip_waits, s0; simpl. by destruct (is_first_frame (ctx s)). }
  assert (Hn : next_of s1 = next_of s) by (unfold next_of; by rewrite E5).
  rewrite Hw, Hn in *. fold (flip_seen s) in F5.
  assert (Hr2 : ∀ r, r ∉ run_regs → regs (hw s2) r = regs (hw s) r).
  { intros r Hr. rewrite F2, E10 by set_solver. done. }
  assert (Ho2 : osd_shows (regs (hw s2)) rb phys).
  { eapply osd_shows_eq; [exact Ho|]. intros q Hq. apply Hr2. set_solver. }
  assert (Hs2 : if flip_seen s then osd_shows (shown (hw s2)) rb phys else shown (hw s2) = shown (hw s)).
  { destruct (flip_seen s); [|by rewrite F5, E3].
    eapply osd_shows_eq; [exact Ho2|]. intros q Hq. rewrite F5, F2 by set_solver. done. }
  unfold flip_result. destruct (_ || _); simpl; [|destruct (next_of s); simpl]; apply wp_ret;
    (split; [by rewrite F1, E1|by split_and!]).
Qed.

(** C16: Showing another buffer: without an address, while the panel is off and before any
    overlay was set the flip is refused and the chip untouched.  Otherwise only the
    registers of the flip change, the layer is visible and has the buffer.  The call
    waits for the update unless it starts the first frame; it succeeds when the update
    is done, and then the buffer is shown, it fails when the time is up, and it claims
    to have succeeded when a signal came. *)
Theorem pageflip_exact s phys : driven s → irqs_on (hw s) = true → refresh_lock (dev s) = true → in_width 32 phys →
  wp (sprdfb_dispc_pageflip phys) (λ ret s',
    refresh_lock (dev s') = true ∧
    if phys =? 0 then ret = - EINVAL ∧ s' = s
    else if enable (dev s) =? 0 then ret = - EPERM ∧ hw s' = hw s
    else if bool_decide (overlay_state (ctx s) = SPRD_OVERLAY_STATUS_OFF) then ret = - EAGAIN ∧ hw s' = hw s
    else
      ret = flip_result s ∧
      osd_shows (regs (hw s')) (osd_rb_ov (par s)) phys ∧
      (∀ r, r ∉ flip_regs → regs (hw s') r = regs (hw s) r) ∧
      if flip_seen s then osd_shows (shown (hw s')) (osd_rb_ov (par s)) phys else shown (hw s') = shown (hw s)) s.
Proof.
  intros Hd Hi Hl Hph. unfold sprdfb_dispc_pageflip. destruct (phys =? 0) eqn:Ep; [by apply wp_ret|].
  apply wp_bind. unfold down_refresh. apply wp_bind, wp_get. rewrite Hl. apply wp_bind, wp_ret, wp_modify.
  set (s0 := set_dev _ s). apply wp_bind. unfold pageflip_body. apply wp_bind, wp_get.
  change (enable (dev s0)) with (enable (dev s)). change (overlay_state (ctx s0)) with (overlay_state (ctx s)).
  destruct (enable (dev s) =? 0) eqn:Ee; [by apply wp_ret|].
  cut (wp (flip_rb (osd_rb_ov (par s0)) ;; dispc_set_osd_alpha 0xff ;; dispc_set_bits (BIT 0) DISPC_OSD_CTRL ;;
    dispc_write phys DISPC_OSD_BASE_ADDR ;; flip_rest) (λ ret s', refresh_lock (dev s') = false ∧
      ret = flip_result s ∧ osd_shows (regs (hw s')) (osd_rb_ov (par s)) phys ∧
      (∀ r, r ∉ flip_regs → regs (hw s') r = regs (hw s) r) ∧
      if flip_seen s then osd_shows (shown (hw s')) (osd_rb_ov (par s)) phys else shown (hw s') = shown (hw s)) s0).
  { intros Hf. destruct (overlay_state (ctx s)); simpl; [by apply wp_ret|..];
      (eapply wp_mono; [exact Hf|]); intros ret s' (_ & Hr); by split. }
  apply flip_writes_exact. intros r Hr Hq. apply Z.eqb_neq in Ee.
  rewrite (wrap_small 32 phys) in Hr by done.
  eapply wp_mono; [apply (flip_rest_exact (with_regs r s0)); [by destruct Hd|done..]|].
  intros ret s1 (E1 & -> & E3 & E4 & E5). split; [done|]. split_and!; [done|done| |done].
  intros q Hnq. rewrite E4 by set_solver. simpl. by rewrite Hq.
Qed.
End flip.

(** * Overlays, clocks, and a device that is off *)

Section spec.
Context `{!FbMacros, !FbMacrosOk}.

(** A register is not in a list of registers. *)
Ltac notin := first [by apply (bool_decide_unpack _) | set_solver].

(** ** Operations that only write registers

    [m] returns [a] and turns the registers [r] into [f r]. *)

Definition sets {A} (m : M machine A) (a : A) (f : (reg → Z) → reg → Z) : Prop := ∀ s,
  m s = Ret a (with_regs (f (regs (hw s))) s).

Lemma sets_ret {A} (a : A) : sets (mret a) a (λ r, r).
Proof. by intros [? ? [] ? ?]. Qed.
Lemma sets_write v q : sets (dispc_write v q) tt (λ r, <[q := u32 v]> r).
Proof. done. Qed.
Lemma sets_set_bits b q : sets (dispc_set_bits b q) tt (λ r, <[q := u32 (set_bits b (r q))]> r).
Proof. done. Qed.
Lemma sets_clear_bits b q : sets (dispc_clear_bits b q) tt (λ r, <[q := u32 (clear_bits b (r q))]> r).
Proof. done. Qed.
Lemma sets_bind {A B} (m : M machine A) (k : A → M machine B) a b f g :
  sets m a f → sets (k a) b g → sets (m ≫= k) b (λ r, g (f r)).
Proof. intros Hm Hk s. unfold mbind, M_bind. rewrite Hm, Hk. done. Qed.
Lemma sets_when c m f : sets m tt f → sets (when c m) tt (λ r, if c then f r else r).
Proof. intros Hm s. destruct c; [apply Hm|apply sets_ret]. Qed.
Lemma wp_sets {A} (m : M machine A) a f Q s : sets m a f → Q a (with_regs (f (regs (hw s))) s) → wp m Q s.
Proof. intros Hm. unfold wp. by rewrite Hm. Qed.

Lemma with_own_regs s : with_regs (regs (hw s)) s = s.
Proof. by destruct s as [? ? [] ? ?]. Qed.
Lemma wp_own_regs {A} (m : M machine A) Q s : wp m Q (with_regs (regs (hw s)) s) → wp m Q s.
Proof. by rewrite with_own_regs. Qed.

Lemma wp_sets_step {A B} (m : M machine A) (k : A → M machine B) a f Q s r :
  sets m a f → wp (k a) Q (with_regs (f r) s) → wp (m ≫= k) Q (with_regs r s).
Proof. intros Hm Hk. apply wp_bind. eapply wp_sets; [exact Hm|]. exact Hk. Qed.

(** Which registers are written, and what, does not matter for what follows. *)
Lemma wp_only {A B} (m : M machine A) (k : A → M machine B) a Q s r :
  (∃ f, sets m a f) → (∀ r', wp (k a) Q (with_regs r' s)) → wp (m ≫= k) Q (with_regs r s).
Proof. intros [f Hf] Hk. apply wp_bind. eapply wp_sets; [exact Hf|]. apply (Hk (f r)). Qed.

Ltac sets_tac :=
  repeat first
    [ simple apply sets_set_bits | simple apply sets_clear_bits | simple apply sets_write | simple apply sets_ret
    | simple apply sets_when | progress unfold dispc_set_osd_alpha, dispc_set_bg_color, dispc_set_osd_ck
    | simple eapply sets_bind ].

Lemma layers_differ : (SPRD_LAYER_IMG =? SPRD_LAYER_OSD) = false.
Proof. by destruct fb_layers as [-> ->]. Qed.
Lemma osd_layer_flags : has_flag SPRD_LAYER_OSD SPRD_LAYER_IMG = false ∧ has_flag SPRD_LAYER_OSD SPRD_LAYER_OSD = true.
Proof. by destruct fb_layers as [-> ->]. Qed.

(** ** Setting an overlay *)

(** The OSD layer has the overlay [i]; the bits of its control word that turn it on and
    choose its alpha are left open. *)
Record osd_holds (p : parameters) (i : overlay_info) (r : reg → Z) : Prop := {
  oh_base : r DISPC_OSD_BASE_ADDR = u32 (i_buffer i);
  oh_size : r DISPC_OSD_SIZE_XY = u32 (Z.lor (Z.shiftl (r_h (i_rect i)) 16) (r_w (i_rect i)));
  oh_pitch : r DISPC_OSD_PITCH = u32 (r_w (i_rect i));
  oh_xy : r DISPC_OSD_DISP_XY = u32 (Z.lor (Z.shiftl (r_y (i_rect i)) 16) (r_x (i_rect i)));
  oh_ctrl : ∀ n, 0 <= n < 32 → n ≠ 0 → n ≠ 2 →
    Z.testbit (r DISPC_OSD_CTRL) n = Z.testbit (osd_ctrl p (i_data_type i) (i_y_endian i) (i_rb_switch i)) n }.

(** What the driver checks of an overlay. *)
Definition osd_valid (i : overlay_info) : bool :=
  negb ((SPRD_DATA_TYPE_LIMIT <=? i_data_type i) || (i_data_type i <=? SPRD_DATA_TYPE_YUV400)) &&
  negb (SPRD_IMG_DATA_ENDIAN_LIMIT <=? i_y_endian i).

Lemma layer_init_sets var : ∃ f, sets (dispc_layer_init var) tt f.
Proof. eexists. unfold dispc_layer_init. sets_tac. Qed.

(** Closing an overlay only writes registers and takes note of it. *)
Lemma overlay_close_keeps s : wp (when (bool_decide (overlay_state (ctx s) = SPRD_OVERLAY_STATUS_STARTED)) (overlay_close ;; mret tt))
  (λ _ s', ∃ r o, s' = set_ctx (set_overlay_state o (ctx s)) (with_regs r s)) s.
Proof.
  unfold when. destruct (bool_decide_reflect (overlay_state (ctx s) = SPRD_OVERLAY_STATUS_STARTED)) as [E|E].
  2: { apply wp_ret. exists (regs (hw s)), (overlay_state (ctx s)). rewrite with_own_regs. by destruct s as [[] ? ? ? ?]. }
  unfold overlay_close. apply wp_bind, wp_bind, wp_get. rewrite E, bool_decide_eq_false_2 by done.
  cut (∀ r, wp (dispc_layer_init (fb_var (dev s)) ;; mod_ctx (set_overlay_state SPRD_OVERLAY_STATUS_OFF) ;; mret 0)
    (λ _ s', wp (mret tt) (λ _ s', ∃ r o, s' = set_ctx (set_overlay_state o (ctx s)) (with_regs r s)) s') (with_regs r s)).
  { intros Hr. apply wp_own_regs. do 6 (eapply wp_only; [eexists; sets_tac|intros ?]). apply Hr. }
  intros r. eapply wp_only; [apply layer_init_sets|]. intros r'. by eexists _, _.
Qed.

Lemma osd_configure_exact s i : overlay_state (ctx s) = SPRD_OVERLAY_STATUS_ON →
  wp (overlay_osd_configure (i_data_type i) (i_rect i) (i_buffer i) (i_y_endian i) (i_rb_switch i))
    (λ ret s', ∃ r, s' = with_regs r s ∧
      if osd_valid i then ret = 0 ∧ osd_holds (par s) i r else ret = -1 ∧ r = regs (hw s)) s.
Proof.
  intros Ho. unfold overlay_osd_configure, osd_valid. apply wp_bind, wp_get. rewrite Ho. simpl.
  destruct (_ || _); simpl; [apply wp_ret; exists (regs (hw s)); by rewrite with_own_regs|].
  destruct (_ <=? _); simpl; [apply wp_ret; exists (regs (hw s)); by rewrite with_own_regs|].
  eapply wp_sets; [sets_tac|]. eexists. split; [done|]. split; [done|].
  split; rewrite ?fn_lookup_insert, ?fn_lookup_insert_ne by done; try done.
  intros n Hn _ _. rewrite fn_lookup_insert. by apply testbit_u32.
Qed.

(** [s'] differs from [s] only where an overlay is set up: no lock, no panel, no power. *)
Record overlay_frame (s s' : machine) : Prop := {
  of_dev : dev s' = dev s; of_par : par s' = par s; of_ctx_dev : ctx_dev (ctx s') = ctx_dev (ctx s);
  of_first : is_first_frame (ctx s') = is_first_frame (ctx s); of_irqs : irqs_on (hw s') = irqs_on (hw s) }.

Lemma enable_overlay_body_exact s i : driven s → irqs_on (hw s) = true → enable (dev s) ≠ 0 →
  i_layer_index i = SPRD_LAYER_OSD →
  wp (enable_overlay_body i) (λ ret s', overlay_frame s s' ∧
    if negb (sync_result s =? 0) then ret = -1 ∧ overlay_state (ctx s') = overlay_state (ctx s) ∧
      ∀ r, r ≠ DISPC_INT_EN → r ≠ DISPC_INT_CLR → regs (hw s') r = regs (hw s) r
    else overlay_state (ctx s') = SPRD_OVERLAY_STATUS_ON ∧
      if osd_valid i then ret = 0 ∧ osd_holds (par s) i (regs (hw s')) else ret = -1) s.
Proof.
  intros Hd Hi He Hl. unfold enable_overlay_body. apply wp_bind, wp_get.
  apply Z.eqb_neq in He as Heq. rewrite Heq. apply wp_bind. eapply wp_mono; [by apply dispc_sync_exact|].
  intros ret s1 ([E1 E2 E3 E4 E5 E6 E7] & -> & _). unfold truthy.
  destruct (sync_result s =? 0); cbn [negb].
  2: { apply wp_ret. split; [by split|]. by split_and!. }
  apply wp_bind, wp_get, wp_bind. eapply wp_mono; [apply overlay_close_keeps|]. intros _ ? (r & o & ->).
  apply wp_bind. unfold overlay_open. apply wp_bind, wp_modify, wp_ret. cbn [negb Z.eqb].
  apply wp_bind. rewrite Hl, layers_differ, Z.eqb_refl.
  eapply wp_mono; [by apply osd_configure_exact|].
  intros ret ? (r' & -> & Hr). destruct (osd_valid i); destruct Hr as [-> Hr];
    (apply wp_ret; split; [by split|split; [done|]]); [split; [done|]|done].
  simpl in *. by rewrite <- E2.
Qed.

(** Setting an overlay waits for the update that is under way, if any, and configures the
    OSD layer if it is valid. *)
Lemma set_overlay_exact s i : driven s → irqs_on (hw s) = true → refresh_lock (dev s) = true →
  enable (dev s) ≠ 0 → i_layer_index i = SPRD_LAYER_OSD →
  wp (sprdfb_dispc_enable_overlay (Some i) true) (λ ret s', overlay_frame s s' ∧
    if negb (sync_result s =? 0) then ret = -1 ∧ overlay_state (ctx s') = overlay_state (ctx s) ∧
      ∀ r, r ≠ DISPC_INT_EN → r ≠ DISPC_INT_CLR → regs (hw s') r = regs (hw s) r
    else overlay_state (ctx s') = SPRD_OVERLAY_STATUS_ON ∧
      if osd_valid i then ret = 0 ∧ osd_holds (par s) i (regs (hw s')) else ret = -1) s.
Proof.
  intros Hd Hi Hk He Hl. unfold sprdfb_dispc_enable_overlay. apply wp_bind. unfold down_refresh.
  apply wp_bind, wp_get. rewrite Hk. apply wp_bind, wp_ret, wp_modify. set (s0 := set_dev _ s). apply wp_bind.
  eapply wp_mono; [apply (enable_overlay_body_exact s0 i); [by destruct Hd|done..]|].
  intros ret s1 [[E1 E2 E3 E4 E5] Hr]. apply wp_bind, wp_modify, wp_ret. split; [|exact Hr].
  split; try done. simpl. rewrite E1. unfold s0; simpl. rewrite <- Hk. by destruct (dev s).
Qed.

(** ** Showing an overlay *)

Lemma testbit_or r b n : 0 <= b < 32 → 0 <= n < 32 → Z.testbit (u32 (set_bits (BIT b) r)) n = Z.testbit r n || (b =? n).
Proof. intros. rewrite testbit_u32, set_bits_or, Z.lor_spec, testbit_bit by lia. done. Qed.
Lemma testbit_clear r b n : 0 <= b < 32 → 0 <= n < 32 →
  Z.testbit (u32 (clear_bits (BIT b) r)) n = Z.testbit r n && negb (b =? n).
Proof. intros. rewrite testbit_u32, clear_bits_and, Z.ldiff_spec, testbit_bit by lia. done. Qed.

(** Starting an overlay whose OSD layer has a buffer: the layer is on with full alpha. *)
Lemma overlay_start_exact s layer : overlay_state (ctx s) = SPRD_OVERLAY_STATUS_ON →
  regs (hw s) DISPC_OSD_BASE_ADDR ≠ 0 → layer = SPRD_LAYER_OSD →
  wp (overlay_start layer) (λ ret s', ret = 0 ∧ ∃ r,
    s' = set_ctx (set_overlay_state SPRD_OVERLAY_STATUS_STARTED (ctx s)) (with_regs r s) ∧
    r DISPC_OSD_ALPHA = 0xff ∧
    (∀ n, 0 <= n < 32 → Z.testbit (r DISPC_OSD_CTRL) n = Z.testbit (regs (hw s) DISPC_OSD_CTRL) n || (n =? 0) || (n =? 2)) ∧
    ∀ q, q ∉ [DISPC_BG_COLOR; DISPC_OSD_CTRL; DISPC_OSD_ALPHA] → r q = regs (hw s) q) s.
Proof.
  intros Ho Hb ->. destruct osd_layer_flags as [Hf Hg]. unfold overlay_start. apply wp_bind, wp_get. rewrite Ho. cbn [bool_decide negb].
  rewrite bool_decide_eq_true_2 by done. cbn [negb].
  apply wp_bind. unfold dispc_read. apply wp_bind, wp_get, wp_ret, wp_bind, wp_bind, wp_get, wp_ret.
  apply Z.eqb_neq in Hb. rewrite Hb, andb_false_r, Hf, Hg. unfold truthy at 1. rewrite Hb.
  cbn [andb negb when].
  apply wp_own_regs. do 5 (eapply wp_sets_step; [sets_tac|]; cbn beta).
  apply wp_bind, wp_modify, wp_ret. split; [done|]. eexists. split; [done|].
  split_and!.
  - rewrite ?fn_lookup_insert_ne by done. by rewrite fn_lookup_insert.
  - intros n Hn. rewrite fn_lookup_insert, testbit_or by lia. rewrite fn_lookup_insert_ne by done.
    rewrite fn_lookup_insert, testbit_or by lia. rewrite fn_lookup_insert_ne by done.
    rewrite (Z.eqb_sym n 0), (Z.eqb_sym n 2). by destruct (Z.testbit _ n), (2 =? n), (0 =? n).
  - intros q Hq. rewrite !fn_lookup_insert_ne by set_solver. done.
Qed.

Lemma before_refresh_step {A} (k : M machine A) Q s : is_Some (panel (dev s)) →
  (∀ e, wakes e = wakes (env s) → wp k Q (set_env e s)) → wp (sprdfb_panel_before_refresh ;; k) Q s.
Proof.
  intros [p Hp] Hk. apply wp_bind. unfold sprdfb_panel_before_refresh, the_panel, wp, mbind, M_bind. rewrite Hp.
  destruct (has_panel_if_before_refresh _); simpl; [by apply Hk|].
  assert (Hs : set_env (env s) s = s) by by destruct s. rewrite <- Hs. by apply Hk.
Qed.

(** What [dispc_run] and starting an overlay write. *)
Definition display_regs : list reg := [DISPC_SIZE_XY; DISPC_BG_COLOR; DISPC_OSD_CTRL; DISPC_OSD_ALPHA] ++ run_regs.

Lemma display_overlay_body_exact s d size : driven s → enable (dev s) ≠ 0 →
  overlay_state (ctx s) ≠ SPRD_OVERLAY_STATUS_OFF → regs (hw s) DISPC_OSD_BASE_ADDR ≠ 0 →
  d_layer_index d = SPRD_LAYER_OSD →
  wp (display_overlay_body size d) (λ _ s',
    refresh_lock (dev s') = refresh_lock (dev s) ∧ par s' = par s ∧ enable (dev s') = enable (dev s) ∧
    irqs_on (hw s') = irqs_on (hw s) ∧ driven s' ∧ wakes (env s') = wakes (env s) ∧
    overlay_state (ctx s') = SPRD_OVERLAY_STATUS_STARTED ∧ is_first_frame (ctx s') = false ∧
    shown (hw s') = shown (hw s) ∧
    regs (hw s') DISPC_OSD_ALPHA = 0xff ∧
    (∀ n, 0 <= n < 32 → Z.testbit (regs (hw s') DISPC_OSD_CTRL) n =
      Z.testbit (regs (hw s) DISPC_OSD_CTRL) n || (n =? 0) || (n =? 2)) ∧
    ∀ r, r ∉ display_regs → regs (hw s') r = regs (hw s) r) s.
Proof.
  intros Hd He Ho Hb Hl. unfold display_overlay_body. apply wp_bind, wp_get.
  apply Z.eqb_neq in He as Heq. rewrite Heq. destruct Hd as [Hdpi Hcd [p Hp]].
  assert (is_dpi s = true) as -> by (unfold is_dpi; by rewrite Hdpi). cbn [negb when].
  apply wp_bind, wp_ret, wp_bind, wp_modify.
  replace (set_ctx (set_ctx_dev true (ctx s)) s) with s by (destruct s as [[] ? ? ? ?]; simpl in Hcd; by rewrite Hcd).
  apply wp_own_regs. eapply wp_sets_step; [sets_tac|].
  apply wp_bind, wp_ret, before_refresh_step; [by eexists|]. intros e Hwk.
  change (set_env e (with_regs ?r s)) with (with_regs r (set_env e s)).
  eapply wp_sets_step; [sets_tac|]. apply wp_bind, wp_modify. cbn beta.
  match goal with |- context [with_regs ?r (set_env e s)] => set (r1 := r) end.
  replace (set_ctx _ (with_regs r1 _)) with
    (with_regs r1 (set_env e (set_ctx (set_overlay_state SPRD_OVERLAY_STATUS_ON (ctx s)) s))).
  2: { destruct s as [[] ? ? ? ?]; simpl in *. by case_bool_decide; destruct overlay_state. }
  set (s1 := set_env _ _).
  assert (Hb1 : regs (hw (with_regs r1 s1)) DISPC_OSD_BASE_ADDR ≠ 0).
  { simpl. unfold r1. by rewrite !fn_lookup_insert_ne by done. }
  apply wp_bind, wp_get, wp_bind. rewrite bool_decide_eq_true_2 by done.
  eapply wp_mono; [by apply overlay_start_exact|]. intros ? ? (-> & r2 & -> & Ha & Hc & Hr2).
  cbn [truthy Z.eqb negb]. apply wp_bind, wp_modify, wp_bind.
  eapply wp_mono; [apply dispc_run_exact; [by split|done]|].
  intros _ s2 (F1 & F2 & F3 & F4 & F5 & F6 & F7 & F8 & _ & F9).
  replace (is_dpi _) with true by (unfold is_dpi; simpl; by rewrite Hdpi). rewrite andb_false_r.
  apply wp_ret. rewrite F1, F2, F3, F4, F5, F6, F8. split_and!; try done.
  - split; [by rewrite F1|by rewrite F7|by rewrite F1; eexists].
  - rewrite F9 by notin. exact Ha.
  - intros n Hn. rewrite F9 by notin. simpl. rewrite Hc by done. unfold r1. simpl.
    rewrite fn_lookup_insert, testbit_clear by lia. rewrite fn_lookup_insert_ne by done. rewrite (Z.eqb_sym 0 n).
    by destruct (Z.testbit _ n), (n =? 0), (n =? 2).
  - intros r Hr. rewrite F9 by notin. simpl. rewrite Hr2 by set_solver. unfold r1. simpl.
    rewrite !fn_lookup_insert_ne by set_solver. done.
Qed.

Lemma display_overlay_exact s d : driven s → refresh_lock (dev s) = true → enable (dev s) ≠ 0 →
  overlay_state (ctx s) ≠ SPRD_OVERLAY_STATUS_OFF → regs (hw s) DISPC_OSD_BASE_ADDR ≠ 0 →
  d_layer_index d = SPRD_LAYER_OSD →
  wp (sprdfb_dispc_display_overlay d) (λ ret s', ret = 0 ∧
    refresh_lock (dev s') = true ∧ par s' = par s ∧ enable (dev s') = enable (dev s) ∧
    irqs_on (hw s') = irqs_on (hw s) ∧ driven s' ∧ wakes (env s') = wakes (env s) ∧
    overlay_state (ctx s') = SPRD_OVERLAY_STATUS_STARTED ∧ is_first_frame (ctx s') = false ∧
    shown (hw s') = shown (hw s) ∧
    regs (hw s') DISPC_OSD_ALPHA = 0xff ∧
    (∀ n, 0 <= n < 32 → Z.testbit (regs (hw s') DISPC_OSD_CTRL) n =
      Z.testbit (regs (hw s) DISPC_OSD_CTRL) n || (n =? 0) || (n =? 2)) ∧
    ∀ r, r ∉ display_regs → regs (hw s') r = regs (hw s) r) s.
Proof.
  intros Hd Hk He Ho Hb Hl. destruct Hd as [Hdpi Hcd [p Hp]]. unfold sprdfb_dispc_display_overlay.
  apply wp_bind. unfold the_panel. unfold wp at 1. rewrite Hp. apply wp_bind, wp_modify, wp_bind. unfold down_refresh.
  apply wp_bind, wp_get. simpl refresh_lock. rewrite Hk. apply wp_bind, wp_ret, wp_modify. set (s0 := set_dev _ _).
  apply wp_bind. eapply wp_mono; [apply (display_overlay_body_exact s0); [split; [done..|by eexists]|done..]|].
  intros _ s1 (_ & E2 & E3 & E4 & [] & Hr). apply wp_bind, wp_modify, wp_ret. split; [done|].
  split_and!; try apply Hr; try done.
Qed.

(** The OSD layer shows the overlay [i]: its buffer, its place and its format, turned on and opaque. *)
Definition osd_visible (p : parameters) (i : overlay_info) (r : reg → Z) : Prop :=
  osd_holds p i r ∧ Z.testbit (r DISPC_OSD_CTRL) 0 = true ∧ r DISPC_OSD_ALPHA = 0xff.

(** Set an overlay and, if that worked, show it. *)
Definition overlay_calls (i : overlay_info) (d : overlay_display) : M machine Z :=
  ret ← sprdfb_dispc_enable_overlay (Some i) true;
  if truthy ret then mret ret else sprdfb_dispc_display_overlay d.

(** Setting an overlay on the OSD layer and showing it: while the device is off, after an
    update that does not end and for a format the layer does not have, setting it fails;
    otherwise both calls succeed and the layer has the buffer, place and format of
    the overlay, is on and opaque.  The chip goes on showing the old frame until the
    update is over: showing an overlay does not wait. *)
Theorem overlay_exact s i d : driven s → irqs_on (hw s) = true → refresh_lock (dev s) = true →
  i_layer_index i = SPRD_LAYER_OSD → d_layer_index d = SPRD_LAYER_OSD → u32 (i_buffer i) ≠ 0 →
  wp (overlay_calls i d) (λ ret s', refresh_lock (dev s') = true ∧ enable (dev s') = enable (dev s) ∧
    if enable (dev s) =? 0 then ret = -1 ∧ hw s' = hw s
    else if negb (sync_result s =? 0) then ret = -1 ∧ overlay_state (ctx s') = overlay_state (ctx s)
    else if osd_valid i
    then ret = 0 ∧ overlay_state (ctx s') = SPRD_OVERLAY_STATUS_STARTED ∧ osd_visible (par s) i (regs (hw s'))
    else ret = -1 ∧ overlay_state (ctx s') = SPRD_OVERLAY_STATUS_ON) s.
Proof.
  intros Hd Hi Hk Hl Hdl Hb. unfold overlay_calls. destruct (Z.eqb_spec (enable (dev s)) 0) as [He|He].
  { apply wp_bind. unfold sprdfb_dispc_enable_overlay, down_refresh. apply wp_bind, wp_bind, wp_get. rewrite Hk.
    apply wp_bind, wp_ret, wp_modify, wp_bind. unfold enable_overlay_body. apply wp_bind, wp_get. simpl. rewrite He.
    apply wp_ret, wp_bind, wp_modify, wp_ret. simpl. by apply wp_ret. }
  apply wp_bind. eapply wp_mono; [by apply set_overlay_exact|]. intros ret s1 [[E1 E2 E3 E4 E5] Hr].
  destruct (negb (sync_result s =? 0)).
  { destruct Hr as (-> & Hr & _). apply wp_ret. by rewrite E1. }
  destruct Hr as [Ho Hr]. destruct (osd_valid i); [|subst ret; apply wp_ret; by rewrite E1].
  destruct Hr as [-> [H1 H2 H3 H4 H5]]. simpl.
  eapply wp_mono; [apply display_overlay_exact; [by eapply driven_eq|rewrite ?E1, ?Ho, ?H1; done..]|].
  intros ret s2 (-> & F1 & F2 & F3 & F4 & F5 & _ & F6 & _ & _ & Fa & Fc & Fr).
  split; [done|]. split; [congruence|]. split; [done|]. split; [done|]. split.
  - split; [by rewrite Fr by notin..|]. intros n Hn Hn0 Hn2. rewrite Fc by done.
    rewrite (proj2 (Z.eqb_neq n 0) Hn0), (proj2 (Z.eqb_neq n 2) Hn2), !orb_false_r. by apply H5.
  - split; [|done]. rewrite Fc by lia. by destruct (Z.testbit _ 0).
Qed.

(** ** A device that is off *)

(** Suspended, with the first frame still to come. *)
Record is_off (s : machine) : Prop := {
  off_driven : driven s; off_enable : enable (dev s) = 0; off_first : is_first_frame (ctx s) = true;
  off_lock : refresh_lock (dev s) = true }.

(** Nothing happened to the chip, the overlay and the lock. *)
Definition untouched (s s' : machine) : Prop :=
  hw s' = hw s ∧ overlay_state (ctx s') = overlay_state (ctx s) ∧ dev s' = dev s ∧ env s' = env s.

(** While the device is off no frame, overlay, flip or wait reaches the chip.  Most are
    refused; showing an overlay and waiting for a pulse claim to have worked. *)
Theorem off_refused s : is_off s →
  (∀ i, wp (sprdfb_dispc_enable_overlay (Some i) true) (λ ret s', ret = -1 ∧ untouched s s') s) ∧
  (∀ d, wp (sprdfb_dispc_display_overlay d) (λ ret s', ret = 0 ∧ untouched s s') s) ∧
  (∀ phys, wp (sprdfb_dispc_pageflip phys) (λ ret s',
     ret = (if phys =? 0 then - EINVAL else - EPERM) ∧ untouched s s') s) ∧
  wp spdfb_dispc_wait_for_vsync (λ ret s', ret = 0 ∧ untouched s s') s ∧
  (main_frame_count (dev s) >= SPRDFB_FRAMES_TO_SKIP →
   wp sprdfb_pan_display (λ ret s', ret = -1 ∧ untouched s s') s).
Proof.
  intros [[Hd Hc [p Hp]] He Hf Hl].
  assert (Hdev : ∀ b, set_refresh_lock true (set_refresh_lock b (dev s)) = dev s).
  { intros b. destruct (dev s). simpl in Hl. by subst. }
  assert (Hdpi : is_dpi s = true) by (unfold is_dpi; by rewrite Hd).
  split_and!.
  - intros i. unfold sprdfb_dispc_enable_overlay, enable_overlay_body, down_refresh, up_refresh, mod_dev, wp, mbind,
      M_bind, get, mret, M_ret, modify. rewrite Hl. simpl. rewrite He. simpl. by rewrite Hdev.
  - intros d. unfold sprdfb_dispc_display_overlay, display_overlay_body, down_refresh, up_refresh, the_panel, mod_dev,
      mod_ctx, wp, mbind, M_bind, get, mret, M_ret, modify. rewrite Hp. simpl. rewrite Hl. simpl. rewrite He. simpl.
    by rewrite Hdev.
  - intros phys. unfold sprdfb_dispc_pageflip, pageflip_body, down_refresh, up_refresh, mod_dev.
    destruct (phys =? 0); [by apply wp_ret|].
    unfold wp, mbind, M_bind, get, mret, M_ret, modify. rewrite Hl. simpl. rewrite He. simpl. by rewrite Hdev.
  - unfold spdfb_dispc_wait_for_vsync. apply wp_bind, wp_get. rewrite Hdpi, Hf. apply wp_bind, wp_ret. by apply wp_ret.
  - intros Hm. unfold sprdfb_pan_display. apply wp_bind, wp_get.
    destruct (Z.ltb_spec (main_frame_count (dev s)) SPRDFB_FRAMES_TO_SKIP); [lia|]. rewrite He. by apply wp_ret.
Qed.

(** ** The clock of a frame rate *)

(** C22: A frame rate in range sets the clock to its source divided by the number nearest to
    what the rate needs; the rate is remembered as asked for, and the clock is off by at
    most half of a step.  One out of range is refused.  The clock that is needed is at most
    twice the source: above that the divider is zero. *)
Theorem frame_rate_bounds s p src fps type h v :
  panel (dev s) = Some p → is_dpi s = true → total_of p = Some (h, v) → 0 < fps →
  type = SPRDFB_FORCE_FPS ∨ type = SPRDFB_DYNAMIC_FPS →
  let want := h * v * fps in
  0 < want <= 2 * src → src + want / 2 < 2 ^ 32 →
  wp (dispc_check_new_clk src fps type) (λ r s', let '(ret, pclk) := r in
    if (fps <? LCD_MIN_FPS) || (LCD_MAX_FPS <? fps) then ret = - EINVAL ∧ s' = s
    else ret = 0 ∧ s' = set_dev (set_panel (Some (with_fps fps p)) (dev s)) s ∧ ∃ div, 0 < div ∧ pclk = src / div ∧
      2 * Z.abs (src - div * want) <= want ∧ 2 * div * Z.abs (pclk - want) <= want + 2 * div) s.
Proof.
  intros Hp Hd Ht Hf Hty want Hw Hs. unfold dispc_check_new_clk. apply wp_bind, wp_get. rewrite Hp, Hd. cbn [negb].
  destruct (Z.leb_spec fps 0); [lia|]. fold (total_of p). rewrite Ht.
  assert ((type =? SPRDFB_FORCE_FPS) || (type =? SPRDFB_DYNAMIC_FPS) = true) as ->
    by (destruct Hty as [-> | ->]; rewrite Z.eqb_refl, ?orb_true_r; done).
  destruct (_ || _); [by apply wp_ret|].
  change (h * v * fps) with want. clearbody want.
  pose proof (Z.div_mod want 2 ltac:(lia)). pose proof (Z.mod_pos_bound want 2 ltac:(lia)). rewrite wrap_small by (unfold in_width; lia).
  unfold truthy. destruct (Z.eqb_spec want 0); [lia|]. apply wp_bind, wp_require; [done|].
  rewrite ROUND_nearest by lia. set (div := (src + want / 2) / want).
  pose proof (Z.div_mod (src + want / 2) want ltac:(lia)) as E. fold div in E.
  pose proof (Z.mod_pos_bound (src + want / 2) want ltac:(lia)) as Hm.
  assert (Hdiv : 0 < div).
  { unfold div. apply Z.div_str_pos. lia. }
  destruct (Z.eqb_spec div 0); [lia|]. apply wp_bind, wp_require; [done|].
  apply wp_bind. unfold mod_panel, the_panel, wp at 1, mbind, M_bind. rewrite Hp. unfold mod_dev, modify.
  apply wp_ret. split; [done|]. split; [done|]. exists div. split; [done|]. split; [done|].
  assert (Hnear : 2 * Z.abs (src - div * want) <= want) by nia. split; [exact Hnear|].
  pose proof (Z.div_mod src div ltac:(lia)). pose proof (Z.mod_pos_bound src div ltac:(lia)).
  assert (div * Z.abs (src / div - want) = Z.abs (div * (src / div) - div * want)) as Ha.
  { rewrite <- Z.mul_sub_distr_l, Z.abs_mul, (Z.abs_eq div); lia. }
  nia.
Qed.
End spec.
