(* ===== verification/ShimPixels.v ===== *)
(** * Display shim: rotating the channels of a buffer ([libsprdshim_ioctl.c], [process])

    The vector code works on 16 pixels at a time, the rest is done one by one.  Memory
    is a list of bytes; a 32-bit lane is a [Z] with the wrapping written out. *)

From S2P Require Import Prelude.

(** ** The vector unit *)

(** [vld4q_u8]: the [j]-th bytes of 16 pixels, and [vst4q_u8], which puts them back. *)
Definition vld4 (b : list Z) (j : nat) : list Z := (λ k, nth (4 * k + j) b 0) <$> seq 0 16.
Definition vst4 (v0 v1 v2 v3 : list Z) : list Z :=
  concat ((λ k, [nth k v0 0; nth k v1 0; nth k v2 0; nth k v3 0]) <$> seq 0 16).

Definition le32 (b : list Z) : Z := nth 0 b 0 + nth 1 b 0 * 2 ^ 8 + nth 2 b 0 * 2 ^ 16 + nth 3 b 0 * 2 ^ 24.
Definition le32_bytes (v : Z) : list Z := [v mod 2 ^ 8; v / 2 ^ 8 mod 2 ^ 8; v / 2 ^ 16 mod 2 ^ 8; v / 2 ^ 24 mod 2 ^ 8].
(** [vreinterpretq_u32_u8] *)
Definition reinterpret (v : list Z) : list Z := (λ l, le32 (take 4 (drop (4 * l) v))) <$> seq 0 4.
Definition vadd (a b : list Z) : list Z := zip_with (λ x y, u32 (x + y)) a b.
Definition vmul_n (a : list Z) (n : Z) : list Z := (λ x, u32 (x * n)) <$> a.

Definition K_C : Z := 2654435761.
Definition K0 : Z := 0x9E3779B1.
Definition K1 : Z := 0x85EBCA77.
Definition K2 : Z := 0xC2B2AE3D.
Definition K3 : Z := 0x27D4EB2F.

Definition neon_hash (acc v0 v1 v2 v3 : list Z) : list Z :=
  let acc := vadd (vmul_n acc K_C) (vmul_n (reinterpret v0) K0) in
  let acc := vadd acc (vmul_n (reinterpret v1) K1) in
  let acc := vadd acc (vmul_n (reinterpret v2) K2) in
  vadd acc (vmul_n (reinterpret v3) K3).

(** 16 pixels: the bytes left in memory, and the hash of them. *)
Definition neon_step (do_rotate : bool) (acc b : list Z) : list Z * list Z :=
  let px := vld4 b in
  if do_rotate then
    let o0 := px 1%nat in let o1 := px 2%nat in let o2 := px 0%nat in let o3 := px 3%nat in
    (neon_hash acc o0 o1 o2 o3, vst4 o0 o1 o2 o3)
  else (neon_hash acc (px 0%nat) (px 1%nat) (px 2%nat) (px 3%nat), b).

Fixpoint neon (blocks : nat) (do_rotate : bool) (acc b : list Z) : list Z * list Z :=
  match blocks with
  | O => (acc, [])
  | S n =>
      let '(acc, out) := neon_step do_rotate acc (take 64 b) in
      let '(acc, rest) := neon n do_rotate acc (drop 64 b) in
      (acc, out ++ rest)
  end.

Definition fold_lanes (acc : list Z) : Z :=
  u32 (nth 0 acc 0 * 1 + nth 1 acc 0 * 2246822519 + nth 2 acc 0 * 3266489917 + nth 3 acc 0 * 668265263).

(** ** The rest, one pixel at a time *)

Definition rotate_word (v : Z) : Z :=
  Z.lor (Z.lor (Z.land v 0xFF000000) (Z.shiftr (Z.land v 0x00FFFF00) 8)) (Z.shiftl (Z.land v 0x000000FF) 16).

Fixpoint scalar (n : nat) (do_rotate : bool) (h : Z) (b : list Z) : Z * list Z :=
  match n with
  | O => (h, [])
  | S m =>
      let v := le32 (take 4 b) in
      let v := if do_rotate then rotate_word v else v in
      let '(h, rest) := scalar m do_rotate (u32 (h * 2654435761 + v)) (drop 4 b) in
      (h, (if do_rotate then le32_bytes v else take 4 b) ++ rest)
  end.

(** [process(b, npix, do_rotate)]: the hash, and the memory afterwards. *)
Definition process (b : list Z) (npix : nat) (do_rotate : bool) : Z * list Z :=
  let blocks := (npix / 16)%nat in
  let '(acc, out) := neon blocks do_rotate [0; 0; 0; 0] b in
  let '(h, rest) := scalar (npix mod 16) do_rotate (fold_lanes acc) (drop (64 * blocks) b) in
  (h, out ++ rest ++ drop (4 * npix) b).

(** ** What it is meant to do *)

(** The reference: in every pixel R, G, B become G, B, R. *)
Definition rotate_pixel (p : list Z) : list Z := [nth 1 p 0; nth 2 p 0; nth 0 p 0; nth 3 p 0].
Fixpoint rotate_pixels (n : nat) (b : list Z) : list Z :=
  match n with
  | O => b
  | S m => rotate_pixel (take 4 b) ++ rotate_pixels m (drop 4 b)
  end.

Definition is_bytes (b : list Z) : Prop := Forall (in_width 8) b.

Lemma rotate_pixels_length n b : (4 * n ≤ length b)%nat → length (rotate_pixels n b) = length b.
Proof.
  revert b. induction n as [|n IH]; intros b Hb; [done|]. simpl. rewrite IH; rewrite length_drop; lia.
Qed.
Lemma rotate_pixels_app n m b : (4 * (n + m) ≤ length b)%nat →
  rotate_pixels (n + m) b = take (4 * n) (rotate_pixels n b) ++ rotate_pixels m (drop (4 * n) b).
Proof.
  revert b. induction n as [|n IH]; intros b Hb; [done|].
  change (S n + m)%nat with (S (n + m)). cbn [rotate_pixels]. rewrite IH by (rewrite length_drop; lia).
  rewrite drop_drop. replace (4 * S n)%nat with (4 + 4 * n)%nat by lia.
  simpl. done.
Qed.

(** ** Words and bytes *)

Lemma testbit_byte x y n : in_width 8 x → 0 <= n →
  Z.testbit (x + y * 2 ^ 8) n = if n <? 8 then Z.testbit x n else Z.testbit y (n - 8).
Proof.
  unfold in_width. intros Hx Hn. destruct (Z.ltb_spec n 8).
  - rewrite <- (Z.mod_pow2_bits_low _ 8) by lia. by rewrite Z.mod_add, Z.mod_small by lia.
  - replace n with (n - 8 + 8) at 1 by lia. rewrite <- Z.div_pow2_bits by lia.
    by rewrite Z.div_add, Z.div_small, Z.add_0_l by lia.
Qed.

Lemma testbit_le32 r g b a n : in_width 8 r → in_width 8 g → in_width 8 b → 0 <= n →
  Z.testbit (le32 [r; g; b; a]) n =
    if n <? 8 then Z.testbit r n else if n <? 16 then Z.testbit g (n - 8)
    else if n <? 24 then Z.testbit b (n - 16) else Z.testbit a (n - 24).
Proof.
  intros Hr Hg Hb Hn. unfold le32; simpl nth.
  replace (r + g * 2 ^ 8 + b * 2 ^ 16 + a * 2 ^ 24) with (r + (g + (b + a * 2 ^ 8) * 2 ^ 8) * 2 ^ 8) by lia.
  rewrite testbit_byte by done. destruct (Z.ltb_spec n 8); [done|].
  rewrite testbit_byte by (done || lia). destruct (Z.ltb_spec (n - 8) 8), (Z.ltb_spec n 16); try lia; [done|].
  rewrite testbit_byte by (done || lia).
  destruct (Z.ltb_spec (n - 8 - 8) 8), (Z.ltb_spec n 24); try lia; f_equal; lia.
Qed.

Lemma byte_high x n : in_width 8 x → 8 <= n → Z.testbit x n = false.
Proof.
  unfold in_width. intros Hx Hn. destruct (Z.eq_dec x 0) as [->|]; [apply Z.bits_0|].
  apply Z.bits_above_log2; [lia|]. apply Z.lt_le_trans with 8; [|lia]. apply Z.log2_lt_pow2; lia.
Qed.

Lemma testbit_mask k j n : 0 <= k → 0 <= j → 0 <= n →
  Z.testbit (Z.shiftl (Z.ones k) j) n = (j <=? n) && (n <? j + k).
Proof.
  intros. rewrite Z.shiftl_spec by lia. destruct (Z.leb_spec j n).
  - rewrite Z.testbit_ones_nonneg by lia. destruct (Z.ltb_spec (n - j) k), (Z.ltb_spec n (j + k)); lia || done.
  - apply Z.testbit_neg_r. lia.
Qed.

Lemma rotate_word_le32 r g b a : in_width 8 r → in_width 8 g → in_width 8 b → in_width 8 a →
  rotate_word (le32 [r; g; b; a]) = le32 [g; b; r; a].
Proof.
  intros Hr Hg Hb Ha. apply Z.bits_inj'. intros n Hn. unfold rotate_word.
  change 0xFF000000 with (Z.shiftl (Z.ones 8) 24). change 0x00FFFF00 with (Z.shiftl (Z.ones 16) 8).
  change 0x000000FF with (Z.shiftl (Z.ones 8) 0).
  rewrite !Z.lor_spec, Z.shiftr_spec, Z.land_spec, Z.land_spec, !testbit_mask, !testbit_le32 by (done || lia).
  destruct (Z.ltb_spec n 16) as [H16|H16].
  - rewrite Z.shiftl_spec_low, orb_false_r by lia.
    destruct (Z.ltb_spec n 8); repeat match goal with |- context [?x <? ?y] => destruct (Z.ltb_spec x y); try lia
      | |- context [?x <=? ?y] => destruct (Z.leb_spec x y); try lia end;
      simpl; rewrite ?andb_false_r, ?andb_true_r, ?orb_false_r; simpl; f_equal; lia.
  - rewrite Z.shiftl_spec, Z.land_spec, testbit_mask, testbit_le32 by (done || lia).
    repeat match goal with |- context [?x <? ?y] => destruct (Z.ltb_spec x y); try lia
      | |- context [?x <=? ?y] => destruct (Z.leb_spec x y); try lia end;
      simpl; rewrite ?andb_false_r, ?andb_true_r, ?orb_false_r, ?orb_false_l; simpl;
      rewrite ?(byte_high r), ?(byte_high g), ?(byte_high b), ?(byte_high a) by (done || lia);
      try done; f_equal; lia.
Qed.

Lemma le32_bytes_le32 r g b a : in_width 8 r → in_width 8 g → in_width 8 b → in_width 8 a →
  le32_bytes (le32 [r; g; b; a]) = [r; g; b; a].
Proof.
  unfold in_width, le32, le32_bytes; simpl nth. intros.
  repeat match goal with |- _ :: _ = _ :: _ => f_equal end.
  - symmetry. apply Z.mod_unique with (g + b * 2 ^ 8 + a * 2 ^ 16); lia.
  - symmetry. apply Z.mod_unique with (b + a * 2 ^ 8); [lia|]. symmetry. apply Z.div_unique with r; lia.
  - symmetry. apply Z.mod_unique with a; [lia|]. symmetry. apply Z.div_unique with (r + g * 2 ^ 8); lia.
  - symmetry. apply Z.mod_unique with 0; [lia|]. symmetry. apply Z.div_unique with (r + g * 2 ^ 8 + b * 2 ^ 16); lia.
Qed.

(** ** Sixteen pixels *)

(** Take a list of known length apart. *)
Ltac explode b :=
  repeat (destruct b as [|? b]; [simpl in *; lia|]); assert (b = []) as -> by (apply length_zero_iff_nil; simpl in *; lia).

Lemma vst4_rotates b : length b = 64%nat →
  vst4 (vld4 b 1) (vld4 b 2) (vld4 b 0) (vld4 b 3) = rotate_pixels 16 b.
Proof. intros Hb. do 64 (destruct b as [|? b]; [done|]). destruct b; [reflexivity|done]. Qed.

Lemma vld4_vst4 b : length b = 64%nat →
  vld4 (rotate_pixels 16 b) 0 = vld4 b 1 ∧ vld4 (rotate_pixels 16 b) 1 = vld4 b 2 ∧
  vld4 (rotate_pixels 16 b) 2 = vld4 b 0 ∧ vld4 (rotate_pixels 16 b) 3 = vld4 b 3.
Proof. intros Hb. do 64 (destruct b as [|? b]; [done|]). destruct b; [by repeat split|done]. Qed.

Lemma neon_step_rotates acc b : length b = 64%nat →
  neon_step true acc b = (fst (neon_step false acc (rotate_pixels 16 b)), rotate_pixels 16 b).
Proof.
  intros Hb. unfold neon_step; cbn [fst]. destruct (vld4_vst4 b Hb) as (-> & -> & -> & ->).
  by rewrite vst4_rotates.
Qed.

Lemma neon_plain n acc b : (64 * n ≤ length b)%nat → snd (neon n false acc b) = take (64 * n) b.
Proof.
  revert acc b. induction n as [|n IH]; intros acc b Hb; [done|]. cbn [neon neon_step].
  destruct (neon n false _ (drop 64 b)) as [acc' rest] eqn:E.
  specialize (IH (neon_hash acc (vld4 (take 64 b) 0) (vld4 (take 64 b) 1) (vld4 (take 64 b) 2) (vld4 (take 64 b) 3))
    (drop 64 b)). rewrite E in IH. simpl snd in *. rewrite IH by (rewrite length_drop; lia).
  replace (64 * S n)%nat with (64 + 64 * n)%nat by lia. by rewrite take_take_drop.
Qed.

Lemma rotate_pixels_take n b : (4 * n ≤ length b)%nat →
  take (4 * n) (rotate_pixels n b) = rotate_pixels n (take (4 * n) b).
Proof.
  revert b. induction n as [|n IH]; intros b Hb; [done|].
  replace (4 * S n)%nat with (4 + 4 * n)%nat in * by lia. cbn [rotate_pixels].
  destruct b as [|x0 [|x1 [|x2 [|x3 b]]]]; cbn [length] in Hb; try lia.
  cbn [Nat.add take drop app rotate_pixel nth]. do 4 f_equal. rewrite !drop_0. apply IH. lia.
Qed.

Lemma rotate_pixels_drop n b : (4 * n ≤ length b)%nat → drop (4 * n) (rotate_pixels n b) = drop (4 * n) b.
Proof.
  revert b. induction n as [|n IH]; intros b Hb; [done|].
  replace (4 * S n)%nat with (4 + 4 * n)%nat in * by lia. cbn [rotate_pixels].
  destruct b as [|x0 [|x1 [|x2 [|x3 b]]]]; cbn [length] in Hb; try lia.
  cbn [Nat.add take drop app rotate_pixel nth]. rewrite ?drop_0. apply IH. lia.
Qed.

(** The vector loop does not look behind its last block. *)
Lemma neon_app n rot acc b c : length b = (64 * n)%nat → neon n rot acc (b ++ c) = neon n rot acc b.
Proof.
  revert acc b. induction n as [|n IH]; intros acc b Hb; [done|]. cbn [neon].
  rewrite take_app_le, drop_app_le by lia. destruct (neon_step rot acc (take 64 b)) as [acc' out].
  rewrite IH by (rewrite length_drop; lia). done.
Qed.

Lemma neon_rotates n acc b : length b = (64 * n)%nat →
  neon n true acc b = neon n false acc (rotate_pixels (16 * n) b).
Proof.
  revert acc b. induction n as [|n IH]; intros acc b Hb; [done|].
  assert (Hr : rotate_pixels (16 * S n) b = rotate_pixels 16 (take 64 b) ++ rotate_pixels (16 * n) (drop 64 b)).
  { replace (16 * S n)%nat with (16 + 16 * n)%nat by lia. rewrite rotate_pixels_app by lia.
    by rewrite rotate_pixels_take by lia. }
  assert (Hl : length (rotate_pixels 16 (take 64 b)) = 64%nat) by (rewrite rotate_pixels_length; rewrite length_take; lia).
  cbn [neon]. rewrite neon_step_rotates, Hr, take_app_length', drop_app_length' by (rewrite ?length_take; lia).
  cbn [neon_step fst]. rewrite IH by (rewrite length_drop; lia). done.
Qed.

(** ** One pixel at a time *)

Lemma scalar_plain n h b : (4 * n ≤ length b)%nat → snd (scalar n false h b) = take (4 * n) b.
Proof.
  revert h b. induction n as [|n IH]; intros h b Hb; [done|]. cbn [scalar].
  specialize (IH (u32 (h * 2654435761 + le32 (take 4 b))) (drop 4 b)).
  destruct (scalar n false _ (drop 4 b)) as [h' rest]. cbn [snd] in *. rewrite IH by (rewrite length_drop; lia).
  replace (4 * S n)%nat with (4 + 4 * n)%nat by lia. by rewrite take_take_drop.
Qed.

Lemma scalar_app n rot h b c : length b = (4 * n)%nat → scalar n rot h (b ++ c) = scalar n rot h b.
Proof.
  revert h b. induction n as [|n IH]; intros h b Hb; [done|]. cbn [scalar].
  rewrite take_app_le, drop_app_le by lia. rewrite IH by (rewrite length_drop; lia). done.
Qed.

Lemma scalar_rotates n h b : is_bytes b → length b = (4 * n)%nat →
  scalar n true h b = scalar n false h (rotate_pixels n b).
Proof.
  revert h b. induction n as [|n IH]; intros h b Hb Hl; [done|].
  destruct b as [|r [|g [|b' [|a b]]]]; cbn [length] in Hl; try lia.
  apply Forall_cons in Hb as [? [? [? [? Hb]%Forall_cons]%Forall_cons]%Forall_cons].
  cbn [scalar rotate_pixels take drop app rotate_pixel nth]. rewrite ?drop_0.
  rewrite rotate_word_le32, le32_bytes_le32 by done. rewrite IH by (done || lia). done.
Qed.

(** ** The whole buffer *)

(** [process] on a buffer in its three parts: the blocks of 16 pixels, the pixels left, and what is behind. *)
Lemma process_parts p q t n rot :
  length p = (64 * (n / 16))%nat → length q = (4 * (n mod 16))%nat →
  process (p ++ q ++ t) n rot =
    let '(acc, out) := neon (n / 16) rot [0; 0; 0; 0] p in
    let '(h, rest) := scalar (n mod 16) rot (fold_lanes acc) q in (h, out ++ rest ++ t).
Proof.
  intros Hp Hq. unfold process. rewrite neon_app by done. destruct (neon _ _ _ p) as [acc out].
  rewrite drop_app_length' by done. rewrite scalar_app by done. destruct (scalar _ _ _ q) as [h rest].
  rewrite (app_assoc p), drop_app_length'; [done|]. rewrite length_app, Hp, Hq.
  pose proof (Nat.div_mod n 16 ltac:(done)). lia.
Qed.

Lemma buffer_parts n (b : list Z) : (4 * n ≤ length b)%nat → ∃ p q t, b = p ++ q ++ t ∧
  length p = (64 * (n / 16))%nat ∧ length q = (4 * (n mod 16))%nat.
Proof.
  intros Hb. pose proof (Nat.div_mod n 16 ltac:(done)) as Hn.
  exists (take (64 * (n / 16)) b), (take (4 * (n mod 16)) (drop (64 * (n / 16)) b)),
    (drop (4 * (n mod 16)) (drop (64 * (n / 16)) b)).
  rewrite !take_drop, !length_take, length_drop. repeat split; lia.
Qed.

Lemma rotate_parts p q t n : length p = (64 * (n / 16))%nat → length q = (4 * (n mod 16))%nat →
  rotate_pixels n (p ++ q ++ t) = rotate_pixels (16 * (n / 16)) p ++ rotate_pixels (n mod 16) q ++ t.
Proof.
  intros Hp Hq. pose proof (Nat.div_mod n 16 ltac:(done)) as Hn. rewrite Hn at 1.
  rewrite rotate_pixels_app by (rewrite !length_app; lia).
  rewrite rotate_pixels_take by (rewrite !length_app; lia).
  rewrite take_app_length', drop_app_length' by lia. f_equal.
  rewrite <- (take_drop (4 * (n mod 16)) (rotate_pixels (n mod 16) (q ++ t))).
  rewrite rotate_pixels_take, rotate_pixels_drop by (rewrite !length_app; lia).
  by rewrite take_app_length', drop_app_length' by lia.
Qed.

Lemma process_reads b n : (4 * n ≤ length b)%nat → snd (process b n false) = b.
Proof.
  intros Hb. destruct (buffer_parts n b Hb) as (p & q & t & -> & Hp & Hq). rewrite process_parts by done.
  pose proof (neon_plain (n / 16) [0; 0; 0; 0] p ltac:(lia)) as Hn. destruct (neon _ _ _ p) as [acc out].
  pose proof (scalar_plain (n mod 16) (fold_lanes acc) q ltac:(lia)) as Hs. destruct (scalar _ _ _ q) as [h rest].
  cbn [snd] in Hn, Hs |- *. subst out rest. by rewrite !firstn_all2 by lia.
Qed.

Lemma process_rotated b n : is_bytes b → (4 * n ≤ length b)%nat →
  process b n true = process (rotate_pixels n b) n false.
Proof.
  intros Hbs Hb. destruct (buffer_parts n b Hb) as (p & q & t & -> & Hp & Hq).
  rewrite rotate_parts, process_parts by done.
  rewrite process_parts by (rewrite rotate_pixels_length by lia; done).
  rewrite neon_rotates by done. destruct (neon _ _ _ _) as [acc out].
  apply Forall_app in Hbs as [_ [Hbq _]%Forall_app]. by rewrite scalar_rotates.
Qed.

Lemma rotate_pixels_bytes n b : (4 * n ≤ length b)%nat → is_bytes b → is_bytes (rotate_pixels n b).
Proof.
  revert b. induction n as [|n IH]; intros b Hb Hbs; [done|].
  destruct b as [|r [|g [|b' [|a b]]]]; cbn [length] in Hb; try lia.
  apply Forall_cons in Hbs as [? [? [? [? Hbs]%Forall_cons]%Forall_cons]%Forall_cons].
  cbn [rotate_pixels take drop app rotate_pixel nth]. rewrite ?drop_0.
  repeat (apply Forall_cons; split; [done|]). apply IH; [lia|done].
Qed.

Lemma rotate_pixels_thrice n b : (4 * n ≤ length b)%nat →
  rotate_pixels n (rotate_pixels n (rotate_pixels n b)) = b.
Proof.
  revert b. induction n as [|n IH]; intros b Hb; [done|].
  destruct b as [|r [|g [|b' [|a b]]]]; cbn [length] in Hb; try lia.
  cbn [rotate_pixels take drop app rotate_pixel nth]. rewrite ?drop_0. rewrite IH by lia. done.
Qed.

(** C21: Rotating a buffer gives [G, B, R, A] in every one of the first pixels and leaves the rest;
    the hash that is returned is the one the next reading of the buffer will give, and
    reading changes nothing. *)
Theorem process_exact b npix : is_bytes b → (4 * npix ≤ length b)%nat →
  snd (process b npix false) = b ∧
  process b npix true = (fst (process (rotate_pixels npix b) npix false), rotate_pixels npix b) ∧
  (∀ i c, (i < npix)%nat → (c < 4)%nat →
     nth (4 * i + c) (rotate_pixels npix b) 0 = nth (4 * i + nth c [1%nat; 2%nat; 0%nat; 3%nat] 0%nat) b 0) ∧
  drop (4 * npix) (rotate_pixels npix b) = drop (4 * npix) b.
Proof.
  intros Hbs Hb. split; [by apply process_reads|]. split; [|split; [|by apply rotate_pixels_drop]].
  - rewrite process_rotated by done. rewrite (surjective_pairing (process (rotate_pixels npix b) npix false)).
    by rewrite process_reads by (by rewrite rotate_pixels_length).
  - clear Hbs. revert b Hb. induction npix as [|n IH]; intros b Hb i c Hi Hc; [lia|].
    destruct b as [|r [|g [|b' [|a b]]]]; cbn [length] in Hb; try lia.
    cbn [rotate_pixels take drop app rotate_pixel nth]. rewrite ?drop_0. destruct i as [|i].
    + do 4 (destruct c as [|c]; [done|]). lia.
    + specialize (IH b ltac:(lia) i c ltac:(lia) Hc). replace (4 * S i)%nat with (S (S (S (S (4 * i))))) by lia.
      exact IH.
Qed.
