(* ===== verification/Shim.v ===== *)
(** * Display shim: the library between the vendor's blobs and the driver

    [libsprdshim_ioctl.c], [libsprdshim_fbpost.cpp] and what [libsprdshim.c] does with
    buffers: the state and what the library asks of the system; the colours of a layer;
    frames that are shown without a copy, the true frame rate, and the [ioctl] all of it
    goes through.  Lines for the log are left out. *)

From S2P Require Import Prelude CMonad DispcTypes Dispc ShimPixels.

(** ** Function pointers

    [framebuffer_device_t::post] and [hw_module_methods_t::open]: a function of the
    vendor, or the one of the shim that replaces it. *)
Inductive post_fn : Type := VendorPost (n : Z) | a1000_overlay_post_fn.
Inductive open_fn : Type := VendorOpen (n : Z) | a1000_gralloc_open_fn.
#[export] Instance post_fn_eq_dec : EqDecision post_fn.
Proof. solve_decision. Defined.
#[export] Instance open_fn_eq_dec : EqDecision open_fn.
Proof. solve_decision. Defined.

(** ** Requests *)

Definition IOC_NR (x : Z) : Z := Z.land (u32 x) 0xff.
Definition IOC_TYPE (x : Z) : Z := Z.land (Z.shiftr (u32 x) 8) 0xff.
(** [_IOW(type, nr, unsigned int)] *)
Definition IOW (type nr : Z) : Z := 0x40000000 + 4 * 2 ^ 16 + type * 2 ^ 8 + nr.

Definition SPRD_FB_MAGIC : Z := 109.
Definition SET_OVERLAY : Z := IOW SPRD_FB_MAGIC 1.
Definition DISPLAY_OVERLAY : Z := IOW SPRD_FB_MAGIC 2.
Definition PAGEFLIP : Z := IOW SPRD_FB_MAGIC 20.
Definition WAITFORVSYNC : Z := IOW 70 0x20.
Definition FBIOGET_VSCREENINFO : Z := 0x4600.
Definition ION_IOC_CUSTOM : Z := 0xC0084906.
Definition GSP_IO_MAGIC : Z := 71.
Definition LAYER_OSD : Z := 2.
Definition FORMAT_RGB888 : Z := 3.

(** A layer of the compositor of the older system: [GSP_LAYER0_CONFIG_INFO_T], the fields used. *)
Record gsp_layer : Type := mk_gsp_layer {
  l_img_format : Z; l_layer_en : bool; l_pitch : Z; l_rect_h : Z; l_share_fd : Z }.
Record gsp_config : Type := mk_gsp { layer0 : gsp_layer; layer1 : gsp_layer; des_format : Z }.

(** What the third argument of an ioctl points to; [AIon fd phys size] asks for the
    physical address and the size of the buffer [fd]. *)
Inductive ioctl_arg : Type :=
  | ANull | AInfo (o : overlay_info) | ADisplay (d : overlay_display) | AWord (w : Z)
  | AVar (v : fb_var_screeninfo) | AIon (fd phys size : Z) | AGsp (c : gsp_config) | AOther.

(** ** Calls that leave the library, by the type of their answer

    A blob that is called may itself call [ioctl] on its way, which comes back to the
    shim: [SVendorPost] and [SVendorOpen] answer with those calls first. *)
Definition nested : Type := list (Z * Z * ioctl_arg).
Inductive sys : Type → Type :=
  | SIoctl (fd request : Z) (arg : ioctl_arg) : sys (Z * Z * ioctl_arg)
  | SOpen (path : string) : sys Z
  | SClose (fd : Z) : sys unit
  | SDup (fd : Z) : sys Z
  | SExists (path : string) : sys bool
  | SReadFile (fd : Z) : sys string
  | SProperty (key default : string) : sys string
  | SClock : sys (Z * Z)
  | SLock (module buffer : Z) : sys Z
  | SUnlock (module buffer : Z) : sys unit
  | SVendorPost (n dev buffer : Z) : sys (nested * Z)
  | SVendorOpen (n m : Z) (id : option string) : sys (nested * Z * option (Z * Z))
  | SDlsymNext (name : string) : sys bool
  | SDlsymDefault : sys (option bool)
  | SGetModule (id : option string) : sys (Z * option (Z * option Z))
  | SMprotect (m : Z) : sys Z
  | SMmap (fd len : Z) : sys bool
  | SLoad (fd len : Z) : sys (list Z)
  | SStore (fd : Z) (b : list Z) : sys unit
  | SMunmap (fd : Z) : sys unit
  | SIonSync (ion fd : Z) : sys Z
  | SIonShare (ion handle : Z) : sys (Z * Z)
  | SCompositionComplete (dev : Z) : sys Z.

(** The system: how it answers a call, and what it is afterwards. *)
Class System (W : Type) : Type := do_sys : ∀ A, sys A → W → A * W.
Arguments do_sys {W _ A} _ _.

(** A call that was made, with its answer. *)
Inductive event : Type := Ev (A : Type) (e : sys A) (a : A).
Arguments Ev {A} _ _.

(** ** State *)

(** [libsprdshim_ioctl.c]: the hash left in a buffer, by its descriptor; the descriptor and
    length of a buffer, by its address; what was found out about the set-up. *)
Record color : Type := mk_color {
  g_fd : list (Z * Z);
  g_fdrr : nat;
  g_phys : list (Z * Z * Z);
  g_physrr : nat;
  g_ionfd_osd : Z;
  g_cpucolor : Z;
  g_sweep : Z;
  g_hw_endian : Z;
  g_hw_rb : Z;
  pin : Z;
  pin_off : Z;
  real_ioctl : bool }.

Definition set_g_fd (x : list (Z * Z)) (s : color) : color := mk_color x (g_fdrr s) (g_phys s)
  (g_physrr s) (g_ionfd_osd s) (g_cpucolor s) (g_sweep s) (g_hw_endian s) (g_hw_rb s) (pin s)
  (pin_off s) (real_ioctl s).
Definition set_g_fdrr (x : nat) (s : color) : color := mk_color (g_fd s) x (g_phys s) (g_physrr s)
  (g_ionfd_osd s) (g_cpucolor s) (g_sweep s) (g_hw_endian s) (g_hw_rb s) (pin s) (pin_off s)
  (real_ioctl s).
Definition set_g_phys (x : list (Z * Z * Z)) (s : color) : color := mk_color (g_fd s) (g_fdrr s) x
  (g_physrr s) (g_ionfd_osd s) (g_cpucolor s) (g_sweep s) (g_hw_endian s) (g_hw_rb s) (pin s)
  (pin_off s) (real_ioctl s).
Definition set_g_physrr (x : nat) (s : color) : color := mk_color (g_fd s) (g_fdrr s) (g_phys s) x
  (g_ionfd_osd s) (g_cpucolor s) (g_sweep s) (g_hw_endian s) (g_hw_rb s) (pin s) (pin_off s)
  (real_ioctl s).
Definition set_g_ionfd_osd (x : Z) (s : color) : color := mk_color (g_fd s) (g_fdrr s) (g_phys s)
  (g_physrr s) x (g_cpucolor s) (g_sweep s) (g_hw_endian s) (g_hw_rb s) (pin s) (pin_off s)
  (real_ioctl s).
Definition set_g_cpucolor (x : Z) (s : color) : color := mk_color (g_fd s) (g_fdrr s) (g_phys s)
  (g_physrr s) (g_ionfd_osd s) x (g_sweep s) (g_hw_endian s) (g_hw_rb s) (pin s) (pin_off s)
  (real_ioctl s).
Definition set_g_sweep (x : Z) (s : color) : color := mk_color (g_fd s) (g_fdrr s) (g_phys s)
  (g_physrr s) (g_ionfd_osd s) (g_cpucolor s) x (g_hw_endian s) (g_hw_rb s) (pin s) (pin_off s)
  (real_ioctl s).
Definition set_g_hw_endian (x : Z) (s : color) : color := mk_color (g_fd s) (g_fdrr s) (g_phys s)
  (g_physrr s) (g_ionfd_osd s) (g_cpucolor s) (g_sweep s) x (g_hw_rb s) (pin s) (pin_off s)
  (real_ioctl s).
Definition set_g_hw_rb (x : Z) (s : color) : color := mk_color (g_fd s) (g_fdrr s) (g_phys s)
  (g_physrr s) (g_ionfd_osd s) (g_cpucolor s) (g_sweep s) (g_hw_endian s) x (pin s) (pin_off s)
  (real_ioctl s).
Definition set_pin (x : Z) (s : color) : color := mk_color (g_fd s) (g_fdrr s) (g_phys s) (g_physrr
  s) (g_ionfd_osd s) (g_cpucolor s) (g_sweep s) (g_hw_endian s) (g_hw_rb s) x (pin_off s)
  (real_ioctl s).
Definition set_pin_off (x : Z) (s : color) : color := mk_color (g_fd s) (g_fdrr s) (g_phys s)
  (g_physrr s) (g_ionfd_osd s) (g_cpucolor s) (g_sweep s) (g_hw_endian s) (g_hw_rb s) (pin s) x
  (real_ioctl s).
Definition set_real_ioctl (x : bool) (s : color) : color := mk_color (g_fd s) (g_fdrr s) (g_phys s)
  (g_physrr s) (g_ionfd_osd s) (g_cpucolor s) (g_sweep s) (g_hw_endian s) (g_hw_rb s) (pin s)
  (pin_off s) x.

(** [libsprdshim_fbpost.cpp] *)
Record fbpost : Type := mk_fbpost {
  g_fbfd : Z;
  g_ionfd : Z;
  g_real_post : option post_fn;
  g_zc_frame : Z;
  g_zc_w : Z;
  g_zc_h : Z;
  g_zc_off : bool;
  g_zc_sync : bool;
  g_zc_fence : bool;
  g_zc_flip : bool;
  g_zc_noflip : bool;
  g_gralloc : option Z;
  slow_in_row : Z;
  period : Z;
  truefps : Z;
  g_real_hw_open : option open_fn;
  zc : Z;
  real_get_module : bool;
  orig_complete : bool }.

Definition set_g_fbfd (x : Z) (s : fbpost) : fbpost := mk_fbpost x (g_ionfd s) (g_real_post s)
  (g_zc_frame s) (g_zc_w s) (g_zc_h s) (g_zc_off s) (g_zc_sync s) (g_zc_fence s) (g_zc_flip s)
  (g_zc_noflip s) (g_gralloc s) (slow_in_row s) (period s) (truefps s) (g_real_hw_open s) (zc s)
  (real_get_module s) (orig_complete s).
Definition set_g_ionfd (x : Z) (s : fbpost) : fbpost := mk_fbpost (g_fbfd s) x (g_real_post s)
  (g_zc_frame s) (g_zc_w s) (g_zc_h s) (g_zc_off s) (g_zc_sync s) (g_zc_fence s) (g_zc_flip s)
  (g_zc_noflip s) (g_gralloc s) (slow_in_row s) (period s) (truefps s) (g_real_hw_open s) (zc s)
  (real_get_module s) (orig_complete s).
Definition set_g_real_post (x : option post_fn) (s : fbpost) : fbpost := mk_fbpost (g_fbfd s)
  (g_ionfd s) x (g_zc_frame s) (g_zc_w s) (g_zc_h s) (g_zc_off s) (g_zc_sync s) (g_zc_fence s)
  (g_zc_flip s) (g_zc_noflip s) (g_gralloc s) (slow_in_row s) (period s) (truefps s) (g_real_hw_open
  s) (zc s) (real_get_module s) (orig_complete s).
Definition set_g_zc_frame (x : Z) (s : fbpost) : fbpost := mk_fbpost (g_fbfd s) (g_ionfd s)
  (g_real_post s) x (g_zc_w s) (g_zc_h s) (g_zc_off s) (g_zc_sync s) (g_zc_fence s) (g_zc_flip s)
  (g_zc_noflip s) (g_gralloc s) (slow_in_row s) (period s) (truefps s) (g_real_hw_open s) (zc s)
  (real_get_module s) (orig_complete s).
Definition set_g_zc_w (x : Z) (s : fbpost) : fbpost := mk_fbpost (g_fbfd s) (g_ionfd s) (g_real_post
  s) (g_zc_frame s) x (g_zc_h s) (g_zc_off s) (g_zc_sync s) (g_zc_fence s) (g_zc_flip s)
  (g_zc_noflip s) (g_gralloc s) (slow_in_row s) (period s) (truefps s) (g_real_hw_open s) (zc s)
  (real_get_module s) (orig_complete s).
Definition set_g_zc_h (x : Z) (s : fbpost) : fbpost := mk_fbpost (g_fbfd s) (g_ionfd s) (g_real_post
  s) (g_zc_frame s) (g_zc_w s) x (g_zc_off s) (g_zc_sync s) (g_zc_fence s) (g_zc_flip s)
  (g_zc_noflip s) (g_gralloc s) (slow_in_row s) (period s) (truefps s) (g_real_hw_open s) (zc s)
  (real_get_module s) (orig_complete s).
Definition set_g_zc_off (x : bool) (s : fbpost) : fbpost := mk_fbpost (g_fbfd s) (g_ionfd s)
  (g_real_post s) (g_zc_frame s) (g_zc_w s) (g_zc_h s) x (g_zc_sync s) (g_zc_fence s) (g_zc_flip s)
  (g_zc_noflip s) (g_gralloc s) (slow_in_row s) (period s) (truefps s) (g_real_hw_open s) (zc s)
  (real_get_module s) (orig_complete s).
Definition set_g_zc_sync (x : bool) (s : fbpost) : fbpost := mk_fbpost (g_fbfd s) (g_ionfd s)
  (g_real_post s) (g_zc_frame s) (g_zc_w s) (g_zc_h s) (g_zc_off s) x (g_zc_fence s) (g_zc_flip s)
  (g_zc_noflip s) (g_gralloc s) (slow_in_row s) (period s) (truefps s) (g_real_hw_open s) (zc s)
  (real_get_module s) (orig_complete s).
Definition set_g_zc_fence (x : bool) (s : fbpost) : fbpost := mk_fbpost (g_fbfd s) (g_ionfd s)
  (g_real_post s) (g_zc_frame s) (g_zc_w s) (g_zc_h s) (g_zc_off s) (g_zc_sync s) x (g_zc_flip s)
  (g_zc_noflip s) (g_gralloc s) (slow_in_row s) (period s) (truefps s) (g_real_hw_open s) (zc s)
  (real_get_module s) (orig_complete s).
Definition set_g_zc_flip (x : bool) (s : fbpost) : fbpost := mk_fbpost (g_fbfd s) (g_ionfd s)
  (g_real_post s) (g_zc_frame s) (g_zc_w s) (g_zc_h s) (g_zc_off s) (g_zc_sync s) (g_zc_fence s) x
  (g_zc_noflip s) (g_gralloc s) (slow_in_row s) (period s) (truefps s) (g_real_hw_open s) (zc s)
  (real_get_module s) (orig_complete s).
Definition set_g_zc_noflip (x : bool) (s : fbpost) : fbpost := mk_fbpost (g_fbfd s) (g_ionfd s)
  (g_real_post s) (g_zc_frame s) (g_zc_w s) (g_zc_h s) (g_zc_off s) (g_zc_sync s) (g_zc_fence s)
  (g_zc_flip s) x (g_gralloc s) (slow_in_row s) (period s) (truefps s) (g_real_hw_open s) (zc s)
  (real_get_module s) (orig_complete s).
Definition set_g_gralloc (x : option Z) (s : fbpost) : fbpost := mk_fbpost (g_fbfd s) (g_ionfd s)
  (g_real_post s) (g_zc_frame s) (g_zc_w s) (g_zc_h s) (g_zc_off s) (g_zc_sync s) (g_zc_fence s)
  (g_zc_flip s) (g_zc_noflip s) x (slow_in_row s) (period s) (truefps s) (g_real_hw_open s) (zc s)
  (real_get_module s) (orig_complete s).
Definition set_slow_in_row (x : Z) (s : fbpost) : fbpost := mk_fbpost (g_fbfd s) (g_ionfd s)
  (g_real_post s) (g_zc_frame s) (g_zc_w s) (g_zc_h s) (g_zc_off s) (g_zc_sync s) (g_zc_fence s)
  (g_zc_flip s) (g_zc_noflip s) (g_gralloc s) x (period s) (truefps s) (g_real_hw_open s) (zc s)
  (real_get_module s) (orig_complete s).
Definition set_period (x : Z) (s : fbpost) : fbpost := mk_fbpost (g_fbfd s) (g_ionfd s) (g_real_post
  s) (g_zc_frame s) (g_zc_w s) (g_zc_h s) (g_zc_off s) (g_zc_sync s) (g_zc_fence s) (g_zc_flip s)
  (g_zc_noflip s) (g_gralloc s) (slow_in_row s) x (truefps s) (g_real_hw_open s) (zc s)
  (real_get_module s) (orig_complete s).
Definition set_truefps (x : Z) (s : fbpost) : fbpost := mk_fbpost (g_fbfd s) (g_ionfd s)
  (g_real_post s) (g_zc_frame s) (g_zc_w s) (g_zc_h s) (g_zc_off s) (g_zc_sync s) (g_zc_fence s)
  (g_zc_flip s) (g_zc_noflip s) (g_gralloc s) (slow_in_row s) (period s) x (g_real_hw_open s) (zc s)
  (real_get_module s) (orig_complete s).
Definition set_g_real_hw_open (x : option open_fn) (s : fbpost) : fbpost := mk_fbpost (g_fbfd s)
  (g_ionfd s) (g_real_post s) (g_zc_frame s) (g_zc_w s) (g_zc_h s) (g_zc_off s) (g_zc_sync s)
  (g_zc_fence s) (g_zc_flip s) (g_zc_noflip s) (g_gralloc s) (slow_in_row s) (period s) (truefps s)
  x (zc s) (real_get_module s) (orig_complete s).
Definition set_zc (x : Z) (s : fbpost) : fbpost := mk_fbpost (g_fbfd s) (g_ionfd s) (g_real_post s)
  (g_zc_frame s) (g_zc_w s) (g_zc_h s) (g_zc_off s) (g_zc_sync s) (g_zc_fence s) (g_zc_flip s)
  (g_zc_noflip s) (g_gralloc s) (slow_in_row s) (period s) (truefps s) (g_real_hw_open s) x
  (real_get_module s) (orig_complete s).
Definition set_real_get_module (x : bool) (s : fbpost) : fbpost := mk_fbpost (g_fbfd s) (g_ionfd s)
  (g_real_post s) (g_zc_frame s) (g_zc_w s) (g_zc_h s) (g_zc_off s) (g_zc_sync s) (g_zc_fence s)
  (g_zc_flip s) (g_zc_noflip s) (g_gralloc s) (slow_in_row s) (period s) (truefps s) (g_real_hw_open
  s) (zc s) x (orig_complete s).
Definition set_orig_complete (x : bool) (s : fbpost) : fbpost := mk_fbpost (g_fbfd s) (g_ionfd s)
  (g_real_post s) (g_zc_frame s) (g_zc_w s) (g_zc_h s) (g_zc_off s) (g_zc_sync s) (g_zc_fence s)
  (g_zc_flip s) (g_zc_noflip s) (g_gralloc s) (slow_in_row s) (period s) (truefps s) (g_real_hw_open
  s) (zc s) (real_get_module s) x.

(** The library with what it shares with the blobs: the devices and the modules it knows. *)
Section state.
Context {W : Type}.
Record shim : Type := mk_shim {
  col : color;
  zp : fbpost;
  devices : gmap Z post_fn;
  modules : gmap Z open_fn;
  errno : Z;
  trace : list event;
  world : W }.

Definition set_col (x : color) (s : shim) : shim := mk_shim x (zp s) (devices s) (modules s) (errno
  s) (trace s) (world s).
Definition set_zp (x : fbpost) (s : shim) : shim := mk_shim (col s) x (devices s) (modules s) (errno
  s) (trace s) (world s).
Definition set_devices (x : gmap Z post_fn) (s : shim) : shim := mk_shim (col s) (zp s) x (modules
  s) (errno s) (trace s) (world s).
Definition set_modules (x : gmap Z open_fn) (s : shim) : shim := mk_shim (col s) (zp s) (devices s)
  x (errno s) (trace s) (world s).
Definition set_errno (x : Z) (s : shim) : shim := mk_shim (col s) (zp s) (devices s) (modules s) x
  (trace s) (world s).
Definition set_trace (x : list event) (s : shim) : shim := mk_shim (col s) (zp s) (devices s)
  (modules s) (errno s) x (world s).
Definition set_world (x : W) (s : shim) : shim := mk_shim (col s) (zp s) (devices s) (modules s)
  (errno s) (trace s) x.
End state.
Arguments shim : clear implicits.

Section ops.
Context {W : Type} `{!System W}.

Definition mod_col (f : color → color) : M (shim W) unit := modify (λ s, set_col (f (col s)) s).
Definition mod_zp (f : fbpost → fbpost) : M (shim W) unit := modify (λ s, set_zp (f (zp s)) s).

(** A call to the system. *)
Definition call {A} (e : sys A) : M (shim W) A := λ s,
  let r := do_sys e (world s) in
  Ret (fst r) (set_trace (trace s ++ [Ev e (fst r)]) (set_world (snd r) s)).

Definition when_ (b : bool) (m : M (shim W) unit) : M (shim W) unit := if b then m else mret tt.
End ops.

(** ** The standard library *)

(** [%d]: white space, a sign, digits; what is left of the string. *)
Fixpoint scan_digits (acc : Z) (s : string) : Z * string :=
  match s with
  | EmptyString => (acc, s)
  | String c t => match digit_of c with Some d => scan_digits (acc * 10 + d) t | None => (acc, s) end
  end.
Definition starts_with_digit (s : string) : bool :=
  match s with String c _ => bool_decide (is_Some (digit_of c)) | EmptyString => false end.
Definition scan_int (s : string) : option (Z * string) :=
  let s := skip_space s in
  let '(neg, t) := match s with
    | String c t => if Ascii.eqb c "-"%char then (true, t) else if Ascii.eqb c "+"%char then (false, t) else (false, s)
    | EmptyString => (false, s)
    end in
  if starts_with_digit t then
    let '(v, r) := scan_digits 0 t in Some (if neg : bool then - v else v, r)
  else None.
Definition atoi (s : string) : Z := match scan_int s with Some (v, _) => v | None => 0 end.

(** [long] has 32 bits: an operation that leaves it is undefined. *)
Definition in_long (x : Z) : bool := (- 2 ^ 31 <=? x) && (x <? 2 ^ 31).

(** * Colours ([libsprdshim_ioctl.c]) *)

Definition FDMAP : nat := 24.
Definition PHYSMAP : nat := 16.

Section colours.
Context {W : Type} `{!System W}.

(** ** The tables *)

(** The entry of a descriptor in a table: the one it has, else a free one, else the
    next in turn, which is emptied. *)
Definition fd_slot (fd : Z) : M (shim W) nat :=
  s ← get;
  let c := col s in
  match list_find (λ e, fst e = fd) (g_fd c) with
  | Some (i, _) => mret i
  | None =>
      match list_find (λ e, fst e = 0) (g_fd c) with
      | Some (i, _) => mod_col (set_g_fd (<[i := (fd, 0)]> (g_fd c))) ;; mret i
      | None =>
          let i := g_fdrr c in
          mod_col (λ c, set_g_fdrr ((i + 1) mod FDMAP)%nat (set_g_fd (<[i := (fd, 0)]> (g_fd c)) c)) ;; mret i
      end
  end.
Definition slot_hash (i : nat) : M (shim W) Z := s ← get; mret (snd (nth i (g_fd (col s)) (0, 0))).
Definition set_slot_hash (i : nat) (h : Z) : M (shim W) unit :=
  mod_col (λ c, set_g_fd (<[i := (fst (nth i (g_fd c) (0, 0)), h)]> (g_fd c)) c).

Definition close_kept (fd : Z) : M (shim W) unit := when_ (0 <? fd) (call (SClose fd)).

(** [_sprdcolor_record]: an entry is an address, a descriptor and a length. *)
Definition sprdcolor_record (phys fd len : Z) : M (shim W) unit :=
  if (phys =? 0) || (fd <? 0) then mret tt else
  s ← get;
  let c := col s in
  match list_find (λ e, fst (fst e) = u32 phys) (g_phys c) with
  | Some (i, (_, old, _)) =>
      close_kept old ;;
      dupfd ← call (SDup fd);
      mod_col (λ c, set_g_phys (<[i := (u32 phys, dupfd, len)]> (g_phys c)) c)
  | None =>
      i ← match list_find (λ e, fst (fst e) = 0) (g_phys c) with
          | Some (i, _) => mret i
          | None =>
              let i := g_physrr c in
              mod_col (set_g_physrr ((i + 1) mod PHYSMAP)%nat) ;;
              (let '(p, old, _) := nth i (g_phys c) (0, 0, 0) in when_ (truthy p) (close_kept old)) ;;
              mret i
          end;
      dupfd ← call (SDup fd);
      mod_col (λ c, set_g_phys (<[i := (u32 phys, dupfd, len)]> (g_phys c)) c)
  end.

(** ** Pixels *)

(** A mapping ends with a page. *)
Definition page_up (len : Z) : Z := (len + 4095) / 4096 * 4096.

(** [process] on a buffer that is mapped with length [len]. *)
Definition process_mapped (fd len npix : Z) (do_rotate : bool) : M (shim W) Z :=
  require (4 * npix <=? page_up len) ;;
  b ← call (SLoad fd (page_up len));
  let '(h, b') := process b (Z.to_nat npix) do_rotate in
  when_ do_rotate (call (SStore fd b')) ;;
  mret h.

(** Rotate the buffer unless it is as it was left; the result says which. *)
Definition rotate_once (fd len npix : Z) : M (shim W) bool :=
  i ← fd_slot fd;
  hleft ← slot_hash i;
  h ← process_mapped fd len npix false;
  if hleft =? h then mret false else
  h' ← process_mapped fd len npix true;
  set_slot_hash i h' ;;
  mret true.

Definition handle_layer (l : gsp_layer) : M (shim W) unit :=
  if negb (l_layer_en l) || (l_share_fd l <=? 0) || (l_pitch l =? 0) || (l_rect_h l =? 0) then mret tt else
  let npix := u32 (l_pitch l * l_rect_h l) in
  let len := u32 (npix * 4) in
  mapped ← call (SMmap (l_share_fd l) len);
  if negb mapped then mret tt else
  rotate_once (l_share_fd l) len npix ;;
  call (SMunmap (l_share_fd l)).

(** ** The layer of the controller *)

Definition with_buffer (b : Z) (o : overlay_info) : overlay_info :=
  mk_info (i_layer_index o) (i_data_type o) (i_y_endian o) (i_uv_endian o) (i_rb_switch o) (i_rect o) b.
Definition with_order (e : Z) (rb : bool) (o : overlay_info) : overlay_info :=
  mk_info (i_layer_index o) (i_data_type o) e (i_uv_endian o) rb (i_rect o) (i_buffer o).

(** Present the first buffer that was ever presented, unless a file forbids it. *)
Definition pin_buffer (o : overlay_info) : M (shim W) overlay_info :=
  s ← get;
  when_ (pin_off (col s) <? 0)
    (b ← call (SExists "/data/gsp_nopin"); mod_col (set_pin_off (if b : bool then 1 else 0))) ;;
  s ← get;
  if truthy (pin_off (col s)) then mret o else
  when_ (pin (col s) =? 0) (mod_col (set_pin (i_buffer o))) ;;
  s ← get;
  mret (with_buffer (pin (col s)) o).

(** [sscanf(b, "%d %d", &g_hw_endian, &g_hw_rb) == 2] *)
Definition scan_hwcolor (b : string) : M (shim W) bool :=
  match scan_int b with
  | None => mret false
  | Some (e, b) =>
      mod_col (set_g_hw_endian e) ;;
      match scan_int b with
      | None => mret false
      | Some (rb, _) => mod_col (set_g_hw_rb rb) ;; mret true
      end
  end.

Definition find_hwcolor : M (shim W) unit :=
  s ← get;
  when_ (g_sweep (col s) =? -1)
    (fd ← call (SOpen "/data/gsp_hwcolor");
     mod_col (set_g_sweep 0) ;;
     when_ (0 <=? fd)
       (b ← call (SReadFile fd);
        call (SClose fd) ;;
        two ← scan_hwcolor b;
        when_ two (mod_col (set_g_sweep 1)))).

(** Rotate the buffer of the layer on the processor, once for every frame. *)
Definition rotate_osd (o : overlay_info) : M (shim W) unit :=
  s ← get;
  let npix := u32 (r_w (i_rect o) * r_h (i_rect o)) in
  match list_find (λ e, fst (fst e) = i_buffer o) (g_phys (col s)) with
  | None => mret tt
  | Some (_, (_, bfd, l)) =>
      let len := if truthy l then l else u32 (npix * 4) in
      if bfd <? 0 then mret tt else
      mapped ← call (SMmap bfd len);
      if negb mapped then mret tt else
      rotated ← rotate_once bfd len npix;
      when_ rotated
        (s ← get;
         when_ (g_ionfd_osd (col s) =? -2) (fd ← call (SOpen "/dev/ion"); mod_col (set_g_ionfd_osd fd)) ;;
         s ← get;
         when_ (0 <=? g_ionfd_osd (col s)) (call (SIonSync (g_ionfd_osd (col s)) bfd) ;; mret tt)) ;;
      call (SMunmap bfd)
  end.

Definition handle_osd (o : overlay_info) : M (shim W) overlay_info :=
  if negb (i_layer_index o =? LAYER_OSD) || negb (i_data_type o =? FORMAT_RGB888) then mret o else
  if (i_buffer o =? 0) || (r_w (i_rect o) =? 0) || (r_h (i_rect o) =? 0) then mret o else
  o ← pin_buffer o;
  find_hwcolor ;;
  s ← get;
  if truthy (g_sweep (col s)) then mret (with_order (g_hw_endian (col s)) (truthy (u8 (g_hw_rb (col s)))) o) else
  when_ (g_cpucolor (col s) =? -1)
    (b ← call (SExists "/data/gsp_nocpucolor"); mod_col (set_g_cpucolor (if b : bool then 0 else 1))) ;;
  s ← get;
  when_ (truthy (g_cpucolor (col s))) (rotate_osd o) ;;
  mret o.
End colours.

(** * Frames without a copy ([libsprdshim_fbpost.cpp]) *)

(** [native_handle_t]: a buffer and its descriptors. *)
Record handle : Type := mk_handle { h_id : Z; h_fds : list Z }.

Definition with_pixclock (px : Z) (v : fb_var_screeninfo) : fb_var_screeninfo :=
  mk_var (xres v) (yres v) (xres_virtual v) (yres_virtual v) (xoffset v) (yoffset v)
    (bits_per_pixel v) (grayscale v) px.
Definition no_var : fb_var_screeninfo := mk_var 0 0 0 0 0 0 0 0 0.

Definition GRALLOC_HARDWARE_MODULE_ID : string := "gralloc".
Definition GRALLOC_HARDWARE_FB0 : string := "fb0".
Definition is_id (id : option string) (s : string) : bool :=
  match id with Some t => streq t s | None => false end.

Section post.
Context {W : Type} `{!System W}.

(** The type of [ioctl]: the result, and what its argument points to afterwards. *)
Definition ioctl_fn : Type := Z → Z → ioctl_arg → M (shim W) (Z * ioctl_arg).

Definition property_flag (key default : string) : M (shim W) bool :=
  v ← call (SProperty key default); mret (truthy (atoi v)).

Definition a1000_fbopen : M (shim W) unit :=
  s ← get;
  when_ (g_fbfd (zp s) =? -2) (fd ← call (SOpen "/dev/graphics/fb0"); mod_zp (set_g_fbfd fd)).

Section io.
Context (io : ioctl_fn).

(** ** The address of a buffer *)

(** Every descriptor of the buffer is tried; a real one has an address and is long enough. *)
Fixpoint try_fds (want : Z) (fds : list Z) : M (shim W) Z :=
  match fds with
  | [] => mret 0
  | fd :: l =>
      s ← get;
      '(rc, arg) ← io (g_ionfd (zp s)) ION_IOC_CUSTOM (AIon fd 0 0);
      match arg with
      | AIon _ phys size => if (rc =? 0) && truthy phys && (want <=? size) then mret phys else try_fds want l
      | _ => undefined
      end
  end.

Definition a1000_phys_of (h : option handle) (want : Z) : M (shim W) Z :=
  match h with
  | None => mret 0
  | Some h =>
      if (length (h_fds h) =? 0)%nat then mret 0 else
      s ← get;
      when_ (g_ionfd (zp s) =? -2) (fd ← call (SOpen "/dev/ion"); mod_zp (set_g_ionfd fd)) ;;
      s ← get;
      if g_ionfd (zp s) <? 0 then mret 0 else try_fds want (h_fds h)
  end.

(** ** Waiting for the panel *)

(** The time between two readings of the clock in a unit that has [units] to a second,
    with what its nanoseconds are divided by. *)
Definition elapsed (t0 t1 : Z * Z) (units divisor : Z) : M (shim W) Z :=
  let s := (fst t1 - fst t0) * units in
  let n := Z.quot (snd t1 - snd t0) divisor in
  require (in_long (fst t1 - fst t0) && in_long s && in_long (snd t1 - snd t0) && in_long (s + n)) ;;
  mret (s + n).

Definition a1000_wait_vsync : M (shim W) unit :=
  s ← get;
  if negb (g_zc_sync (zp s)) || (g_fbfd (zp s) <? 0) then mret tt else
  t0 ← call SClock;
  '(rc, _) ← io (g_fbfd (zp s)) WAITFORVSYNC (AWord 0);
  if rc <? 0 then mod_zp (set_g_zc_sync false) else
  t1 ← call SClock;
  ms ← elapsed t0 t1 1000 1000000;
  if 50 <=? ms then
    mod_zp (λ z, set_slow_in_row (slow_in_row z + 1) z) ;;
    s ← get;
    when_ (5 <=? slow_in_row (zp s)) (mod_zp (set_g_zc_sync false))
  else mod_zp (set_slow_in_row 0).

(** Locking one pixel waits until the buffer is drawn. *)
Definition a1000_sync_gpu (buffer : option handle) : M (shim W) unit :=
  s ← get;
  match g_zc_fence (zp s), g_gralloc (zp s), buffer with
  | true, Some m, Some b =>
      rc ← call (SLock m (h_id b));
      when_ (rc =? 0) (call (SUnlock m (h_id b)))
  | _, _, _ => mret tt
  end.

(** ** Showing a frame *)

Definition frame_rect (w h : Z) : overlay_rect := mk_rect 0 0 (u16 w) (u16 h).
Definition frame_info (s : shim W) (phys : Z) : overlay_info :=
  mk_info LAYER_OSD FORMAT_RGB888 0 0 false (frame_rect (g_zc_w (zp s)) (g_zc_h (zp s))) (u32 phys).
Definition frame_display (s : shim W) : overlay_display :=
  mk_display LAYER_OSD (frame_rect (g_zc_w (zp s)) (g_zc_h (zp s))) 0.

(** The short path: only the address changes; false when it does not work. *)
Definition flip_frame (phys : Z) : M (shim W) bool :=
  s ← get;
  if negb (g_zc_flip (zp s)) || g_zc_noflip (zp s) then mret false else
  '(rc, _) ← io (g_fbfd (zp s)) PAGEFLIP (AWord (u32 phys));
  if rc =? 0 then mret true else
  s ← get;
  when_ (errno s =? ENOTTY) (mod_zp (set_g_zc_noflip true)) ;;
  mod_zp (set_g_zc_flip false) ;;
  mret false.

(** The long path: set the layer up and show it. *)
Definition overlay_frame_post (phys : Z) : M (shim W) bool :=
  s ← get;
  '(rc, _) ← io (g_fbfd (zp s)) SET_OVERLAY (AInfo (frame_info s phys));
  if truthy rc then mret false else
  s ← get;
  '(rc, _) ← io (g_fbfd (zp s)) DISPLAY_OVERLAY (ADisplay (frame_display s));
  if truthy rc then mret false else
  s ← get;
  when_ (g_zc_sync (zp s)) a1000_wait_vsync ;;
  mod_zp (set_g_zc_flip true) ;;
  mret true.

(** Show the frame in place, if that can be done. *)
Definition show_in_place (buffer : option handle) : M (shim W) bool :=
  s ← get;
  if g_zc_off (zp s) || (g_fbfd (zp s) <? 0) then mret false else
  phys ← a1000_phys_of buffer (g_zc_frame (zp s));
  if phys =? 0 then mod_zp (set_g_zc_off true) ;; mret false else
  a1000_sync_gpu buffer ;;
  flipped ← flip_frame phys;
  if flipped : bool then mret true else overlay_frame_post phys.

(** [real] runs the function that was replaced. *)
Definition a1000_overlay_post (real : post_fn → M (shim W) Z) (dev : Z) (buffer : option handle) : M (shim W) Z :=
  shown ← show_in_place buffer;
  if shown : bool then mret 0 else
  s ← get;
  match g_real_post (zp s) with Some f => real f | None => mret 0 end.

(** ** The true frame rate *)

Fixpoint wait_pulses (n : nat) (fd : Z) : M (shim W) bool :=
  match n with
  | O => mret true
  | S m => '(rc, _) ← io fd WAITFORVSYNC (AWord 0); if rc <? 0 then mret false else wait_pulses m fd
  end.

Definition a1000_measure_period (fd : Z) : M (shim W) Z :=
  aligned ← wait_pulses 1 fd;
  if negb aligned then mret 0 else
  t0 ← call SClock;
  waited ← wait_pulses 8 fd;
  if negb waited then mret 0 else
  t1 ← call SClock;
  total ← elapsed t0 t1 1000000000 1;
  let ns := Z.quot total 8 in
  mret (if (8000000 <? ns) && (ns <? 30000000) then ns else 0).

(** The pixel clock of a period, in 64 bits. *)
Definition true_pixclock (period xres yres : Z) : Z := u32 (u64 (period * 1000) / u64 (xres * yres)).

Definition a1000_fix_vsync_period (fd request : Z) (arg : ioctl_arg) : M (shim W) ioctl_arg :=
  match arg with
  | ANull => mret arg
  | _ =>
  if negb (request =? FBIOGET_VSCREENINFO) then mret arg else
  s ← get;
  when_ (truefps (zp s) =? -1)
    (b ← property_flag "debug.sf.a1000_truefps" "1"; mod_zp (set_truefps (if b : bool then 1 else 0))) ;;
  s ← get;
  if truefps (zp s) =? 0 then mret arg else
  when_ (period (zp s) <=? 0) (p ← a1000_measure_period fd; mod_zp (set_period p)) ;;
  s ← get;
  if period (zp s) <=? 0 then mret arg else
  match arg with
  | AVar vi =>
      if (xres vi =? 0) || (yres vi =? 0) then mret arg else
      let px := true_pixclock (period (zp s)) (xres vi) (yres vi) in
      if (1000 <? px) && (px <? 1000000) && negb (px =? pixclock vi) then mret (AVar (with_pixclock px vi))
      else mret arg
  | _ => undefined
  end
  end.

(** ** The hooks *)

(** Replace [post] of a device. *)
Definition a1000_patch_post (dev : option Z) : M (shim W) unit :=
  a1000_fbopen ;;
  match dev with
  | None => mret tt
  | Some d =>
      s ← get;
      match devices s !! d with
      | None => undefined
      | Some f =>
          if bool_decide (f = a1000_overlay_post_fn) then mret tt else
          if g_fbfd (zp s) <? 0 then mret tt else
          '(rc, arg) ← io (g_fbfd (zp s)) FBIOGET_VSCREENINFO (AVar no_var);
          if truthy rc then mret tt else
          match arg with
          | AVar vi =>
              mod_zp (λ z, set_g_zc_w (xres vi) (set_g_zc_h (yres vi)
                (set_g_zc_frame (u32 (xres vi * yres vi * 4)) (set_g_real_post (Some f) z)))) ;;
              modify (λ s, set_devices (<[d := a1000_overlay_post_fn]> (devices s)) s)
          | _ => undefined
          end
      end
  end.

(** Replace [methods->open] of a module, once; a module without methods is not in [modules]. *)
Definition a1000_patch_factory (m : option Z) : M (shim W) unit :=
  s ← get;
  match g_real_hw_open (zp s), m with
  | None, Some m =>
      match modules s !! m with
      | None => mret tt
      | Some f =>
          rc ← call (SMprotect m);
          if truthy rc then mret tt else
          mod_zp (λ z, set_g_gralloc (Some m) (set_g_real_hw_open (Some f) z)) ;;
          modify (λ s, set_modules (<[m := a1000_gralloc_open_fn]> (modules s)) s)
      end
  | _, _ => mret tt
  end.

(** [hw_get_module] of the system: a module it loads comes with its methods. *)
Definition real_hw_get_module (id : option string) : M (shim W) (Z * option Z) :=
  '(rc, r) ← call (SGetModule id);
  match r with
  | None => mret (rc, None)
  | Some (m, methods) =>
      modify (λ s, set_modules
        (match modules s !! m, methods with
         | None, Some n => <[m := VendorOpen n]> (modules s)
         | _, _ => modules s
         end) s) ;;
      mret (rc, Some m)
  end.

Definition hw_get_module (id : option string) : M (shim W) (Z * option Z) :=
  s ← get;
  when_ (negb (real_get_module (zp s))) (b ← call (SDlsymNext "hw_get_module"); mod_zp (set_real_get_module b)) ;;
  s ← get;
  if negb (real_get_module (zp s)) then mret (-1, None) else
  '(rc, m) ← real_hw_get_module id;
  when_ ((rc =? 0) && is_id id GRALLOC_HARDWARE_MODULE_ID && bool_decide (is_Some m))
    (mod_zp (set_g_gralloc m) ;; a1000_patch_factory m) ;;
  mret (rc, m).

(** The function that is found by its name may be the one above. *)
Definition a1000_hook_gralloc_factory : M (shim W) unit :=
  s ← get;
  match g_real_hw_open (zp s) with
  | Some _ => mret tt
  | None =>
      found ← call SDlsymDefault;
      match found with
      | None => mret tt
      | Some own =>
          '(rc, m) ← (if own : bool then hw_get_module (Some GRALLOC_HARDWARE_MODULE_ID)
                      else real_hw_get_module (Some GRALLOC_HARDWARE_MODULE_ID));
          if truthy rc then mret tt else a1000_patch_factory m
      end
  end.

Definition a1000_zc_hook_fb (dev : option Z) : M (shim W) unit :=
  s ← get;
  let hooked := bool_decide (is_Some (g_real_hw_open (zp s))) && negb (bool_decide (is_Some dev)) in
  if (zc (zp s) =? 0) || ((zc (zp s) =? 1) && hooked) then mret tt else
  when_ (zc (zp s) =? -1)
    (on ← property_flag "debug.sf.a1000_zerocopy" "0";
     mod_zp (set_zc (if on : bool then 1 else 0)) ;;
     when_ on
       (sync ← property_flag "debug.sf.a1000_zcsync" "1"; mod_zp (set_g_zc_sync sync) ;;
        fence ← property_flag "debug.sf.a1000_zcfence" "1"; mod_zp (set_g_zc_fence fence))) ;;
  s ← get;
  if zc (zp s) =? 0 then mret tt else
  a1000_patch_post dev ;;
  a1000_hook_gralloc_factory.

(** The calls a blob makes on its way. *)
Fixpoint run_nested (l : nested) : M (shim W) unit :=
  match l with
  | [] => mret tt
  | (fd, request, arg) :: l => io fd request arg ;; run_nested l
  end.

Definition shim_compositionComplete (dev : Z) : M (shim W) Z :=
  a1000_zc_hook_fb (Some dev) ;;
  s ← get;
  when_ (negb (orig_complete (zp s))) (b ← call (SDlsymNext "compositionComplete"); mod_zp (set_orig_complete b)) ;;
  s ← get;
  if orig_complete (zp s) then call (SCompositionComplete dev) else mret 0.
End io.

(** ** [ioctl] *)

Definition gsp_format (f : Z) : Z := if f =? 1 then 0 else f.
Definition with_format (f : Z) (l : gsp_layer) : gsp_layer :=
  mk_gsp_layer f (l_layer_en l) (l_pitch l) (l_rect_h l) (l_share_fd l).

(** What [ioctl] does to its argument before the system gets it. *)
Definition fix_argument (request : Z) (arg : ioctl_arg) : M (shim W) ioctl_arg :=
  match arg with
  | ANull => mret arg
  | _ =>
  if (IOC_TYPE request =? SPRD_FB_MAGIC) && (IOC_NR request =? 1) then
    match arg with
    | AInfo o => o ← handle_osd o; mret (AInfo o)
    | _ => undefined
    end
  else if (IOC_TYPE request =? GSP_IO_MAGIC) && (IOC_NR request =? 0) then
    match arg with
    | AGsp c =>
        let c := mk_gsp (with_format (gsp_format (l_img_format (layer0 c))) (layer0 c))
                   (with_format (gsp_format (l_img_format (layer1 c))) (layer1 c)) (gsp_format (des_format c)) in
        handle_layer (layer0 c) ;; handle_layer (layer1 c) ;; mret (AGsp c)
    | _ => undefined
    end
  else mret arg
  end.

(** The system's own [ioctl]. *)
Definition real_ioctl_call (fd request : Z) (arg : ioctl_arg) : M (shim W) (Z * ioctl_arg) :=
  s ← get;
  if negb (real_ioctl (col s)) then mret (-1, arg) else
  '(rc, e, arg) ← call (SIoctl fd request arg);
  when_ (rc <? 0) (modify (set_errno e)) ;;
  mret (rc, arg).

(** [ioctl] reaches itself through the measurement of the frame rate: the fuel bounds how deep. *)
Fixpoint ioctl (fuel : nat) : ioctl_fn := λ fd request arg,
  match fuel with
  | O => stuck
  | S n =>
      s ← get;
      when_ (negb (real_ioctl (col s))) (b ← call (SDlsymNext "ioctl"); mod_col (set_real_ioctl b)) ;;
      a1000_zc_hook_fb (ioctl n) None ;;
      arg ← fix_argument request arg;
      '(rc, arg) ← real_ioctl_call fd request arg;
      if rc =? 0 then arg ← a1000_fix_vsync_period (ioctl n) fd request arg; mret (rc, arg)
      else mret (rc, arg)
  end.

(** ** Functions behind pointers

    A hook that reached itself through the function it replaced would not come back. *)

Definition deep : nat := 3.

Fixpoint run_post (fuel : nat) (f : post_fn) (dev : Z) (buffer : option handle) : M (shim W) Z :=
  match fuel with
  | O => stuck
  | S n =>
      match f with
      | VendorPost k =>
          '(l, rc) ← call (SVendorPost k dev (match buffer with Some b => h_id b | None => 0 end));
          run_nested (ioctl deep) l ;; mret rc
      | a1000_overlay_post_fn => a1000_overlay_post (ioctl deep) (λ f, run_post n f dev buffer) dev buffer
      end
  end.

(** A device that is opened comes with the [post] of its vendor. *)
Definition new_device (r : option (Z * Z)) : M (shim W) (option Z) :=
  match r with
  | None => mret None
  | Some (d, n) => modify (λ s, set_devices (<[d := VendorPost n]> (devices s)) s) ;; mret (Some d)
  end.

Fixpoint run_open (fuel : nat) (f : open_fn) (m : Z) (id : option string) : M (shim W) (Z * option Z) :=
  match fuel with
  | O => stuck
  | S n =>
      match f with
      | VendorOpen k =>
          '(l, rc, r) ← call (SVendorOpen k m id);
          run_nested (ioctl deep) l ;;
          d ← new_device r;
          mret (rc, d)
      | a1000_gralloc_open_fn =>
          s ← get;
          '(rc, d) ← match g_real_hw_open (zp s) with
                     | Some f => run_open n f m id
                     | None => mret (-1, None)
                     end;
          when_ ((rc =? 0) && bool_decide (is_Some d) && is_id id GRALLOC_HARDWARE_FB0)
            (a1000_patch_post (ioctl deep) d) ;;
          mret (rc, d)
      end
  end.

(** ** [libsprdshim.c] *)

Definition ion_invalidate_fd (fd handle_fd : Z) : M (shim W) Z :=
  r ← call (SIonSync fd handle_fd);
  if r =? 0 then mret r else
  '(rc, share_fd) ← call (SIonShare fd handle_fd);
  if (rc =? 0) && (0 <=? share_fd) then
    r ← call (SIonSync fd share_fd);
    call (SClose share_fd) ;;
    mret r
  else mret r.

(** [Get_phy_addr_from_ion]: the result, and the address and length when it is 0. *)
Definition sprdshim_mhi_get_phys (fd : Z) : M (shim W) (Z * option (Z * Z)) :=
  ion_fd ← call (SOpen "/dev/ion");
  if ion_fd <? 0 then mret (-1, None) else
  '(ret, arg) ← ioctl deep ion_fd ION_IOC_CUSTOM (AIon fd 0 0);
  call (SClose ion_fd) ;;
  if truthy ret then mret (ret, None) else
  match arg with
  | AIon _ phys size => sprdcolor_record phys fd size ;; mret (0, Some (phys, size))
  | _ => undefined
  end.
End post.
