(* ===== verification/ShimSafe.v ===== *)
(** * Display shim: every function returns and keeps the invariant

    [ok] says that the functions that were replaced are the vendor's, that the tables
    have their size, and that buffers are as large as frames.  [keeps] is what every
    function of the library is shown to do: return, keep [ok], take no longer than the
    calls it makes, and not leave a preorder that is watched.  The functions that call
    [ioctl] are treated against two classes, [IoWaits] and [IoOk]; [ioctl] itself is an
    instance of the first with a fuel of one, and of the second with a fuel of two. *)

From S2P Require Import Prelude CMonad DispcTypes Dispc ShimPixels Shim.

(** The longest a call may take, in nanoseconds. *)
Definition cost {A} (e : sys A) : Z :=
  match e with SIoctl _ _ _ => 110000000 | _ => 10000000 end.

(** The answer of an ioctl points to what the argument did. *)
Definition same_shape (a b : ioctl_arg) : Prop :=
  match a, b with
  | ANull, ANull | AInfo _, AInfo _ | ADisplay _, ADisplay _ | AWord _, AWord _ | AVar _, AVar _
  | AIon _ _ _, AIon _ _ _ | AGsp _, AGsp _ | AOther, AOther => True
  | _, _ => False
  end.

(** The display, as [FBIOGET_VSCREENINFO] tells, fits a frame of [F] bytes. *)
Definition fits (F : Z) (v : fb_var_screeninfo) : Prop := 0 <= xres v ∧ 0 <= yres v ∧ 4 * (xres v * yres v) <= F.
Definition rect_fits (F : Z) (r : overlay_rect) : Prop := 0 <= r_w r ∧ 0 <= r_h r ∧ 4 * (r_w r * r_h r) <= F.
Definition layer_fits (F : Z) (l : gsp_layer) : Prop := 0 <= l_pitch l ∧ 0 <= l_rect_h l ∧ 4 * (l_pitch l * l_rect_h l) <= F.

(** An argument a client may pass: the one its request wants, and no larger than a frame. *)
Definition arg_ok (F request : Z) (arg : ioctl_arg) : Prop :=
  arg = ANull ∨
  ((IOC_TYPE request =? SPRD_FB_MAGIC) && (IOC_NR request =? 1) = true → ∃ o, arg = AInfo o ∧ rect_fits F (i_rect o)) ∧
  ((IOC_TYPE request =? GSP_IO_MAGIC) && (IOC_NR request =? 0) = true →
     ∃ c, arg = AGsp c ∧ layer_fits F (layer0 c) ∧ layer_fits F (layer1 c)) ∧
  (request = FBIOGET_VSCREENINFO → ∃ v, arg = AVar v).

(** What the library relies on: a clock that advances by what calls take, answers of the
    type that was asked for, calls of blobs that are in order, and, for the descriptors
    that are [frames], buffers of at least [F] bytes. *)
Class SystemOk (W : Type) `{!System W} (F : Z) (frames : Z → Prop) : Type := {
  now : W → Z;
  now_range : ∀ w, 0 <= now w < 2 ^ 31 * 10 ^ 9;
  clock_now : ∀ w, fst (do_sys SClock w) = (now w / 10 ^ 9, now w mod 10 ^ 9);
  now_advances : ∀ A (e : sys A) w, now w <= now (snd (do_sys e w)) <= now w + cost e;
  ioctl_shape : ∀ fd request arg w, same_shape arg (snd (fst (do_sys (SIoctl fd request arg) w)));
  ioctl_var : ∀ fd v w rc e v', fst (do_sys (SIoctl fd FBIOGET_VSCREENINFO (AVar v)) w) = (rc, e, AVar v') →
    rc = 0 → fits F v';
  ioctl_size : ∀ fd ion w rc e fd' phys size, frames fd →
    fst (do_sys (SIoctl ion ION_IOC_CUSTOM (AIon fd 0 0)) w) = (rc, e, AIon fd' phys size) → rc = 0 → F <= size;
  post_nested : ∀ n d b w, Forall (λ x, arg_ok F (snd (fst x)) (snd x)) (fst (fst (do_sys (SVendorPost n d b) w)));
  open_nested : ∀ n m i w, Forall (λ x, arg_ok F (snd (fst x)) (snd x)) (fst (fst (fst (do_sys (SVendorOpen n m i) w))));
  frame_range : 0 <= F < 2 ^ 32
}.

(** Neither table of pointers changes. *)
Ltac same_tables := let H := fresh in split; [intros ? H; exact H|intros H; exact H].

Section inv.
Context {W : Type} `{!System W} {F : Z} {frames : Z → Prop} `{!SystemOk W F frames}.

Record ok (s : shim W) : Prop := {
  ok_open : g_real_hw_open (zp s) ≠ Some a1000_gralloc_open_fn;
  ok_post : g_real_post (zp s) ≠ Some a1000_overlay_post_fn;
  ok_devices : ∀ d, devices s !! d = Some a1000_overlay_post_fn → is_Some (g_real_post (zp s));
  ok_modules : ∀ m, modules s !! m = Some a1000_gralloc_open_fn → is_Some (g_real_hw_open (zp s));
  ok_fds : length (g_fd (col s)) = FDMAP ∧ (g_fdrr (col s) < FDMAP)%nat;
  ok_phys : length (g_phys (col s)) = PHYSMAP ∧ (g_physrr (col s) < PHYSMAP)%nat;
  ok_sizes : Forall (λ e, snd e = 0 ∨ F <= snd e) (g_phys (col s));
  ok_frame : 4 * (u16 (g_zc_w (zp s)) * u16 (g_zc_h (zp s))) <= F }.

(** What a call does to the state. *)
Definition called {A} (e : sys A) (s : shim W) : shim W :=
  set_trace (trace s ++ [Ev e (fst (do_sys e (world s)))]) (set_world (snd (do_sys e (world s))) s).
(** What is watched while the library works: a preorder on states that only requests and
    calls of blobs can leave, those [heard] excepted. *)
Definition heard (quiet : Z → bool) (loud : bool) {A} (e : sys A) : bool :=
  match e with
  | SIoctl _ request _ => quiet request
  | SVendorPost _ _ _ | SVendorOpen _ _ _ | SCompositionComplete _ => loud
  | _ => true
  end.
Class Watch (R : relation (shim W)) : Type := {
  watch_preorder : PreOrder R;
  w_quiet : Z → bool;
  w_loud : bool;
  w_same : ∀ s s', trace s' = trace s → world s' = world s → R s s';
  w_called : ∀ A (e : sys A) s, heard w_quiet w_loud e = true → R s (called e s) }.
#[global] Existing Instance watch_preorder.
Definition anything_goes : relation (shim W) := λ _ _, True.
#[export] Instance watch_nothing : Watch anything_goes.
Proof. by refine {| w_quiet _ := true; w_loud := true |}. Defined.

(** The devices that are known stay known, and what they did before stays remembered. *)
Definition grows (s s' : shim W) : Prop :=
  (∀ d, is_Some (devices s !! d) → is_Some (devices s' !! d)) ∧
  (is_Some (g_real_post (zp s)) → is_Some (g_real_post (zp s'))).

(** A limit on time, if there is one; what is left of it; and that there is some left. *)
Definition limit : Type := option Z.
Definition left_of (c : limit) (k : Z) : limit := (λ x, x - k) <$> c.
Definition within (c : limit) (t0 t1 : Z) : Prop := t0 <= t1 ∧ match c with Some k => t1 <= t0 + k | None => True end.

Definition roomy (c : limit) (k : Z) : Prop := match c with Some x => k <= x | None => True end.

Section rules.
Context {R : relation (shim W)} `{!Watch R}.

(** From [s], [m] returns within the limit, keeps the invariant and does not leave [R]. *)
Definition keeps {A} (c : limit) (m : M (shim W) A) (Q : A → shim W → Prop) (s : shim W) : Prop :=
  ok s → wp m (λ a s', ok s' ∧ (grows s s' ∧ R s s') ∧ within c (now (world s)) (now (world s')) ∧ Q a s') s.

Lemma grows_refl s : grows s s.
Proof. done. Qed.
Lemma grows_trans s1 s2 s3 : grows s1 s2 → grows s2 s3 → grows s1 s3.
Proof. intros [] []. split; auto. Qed.

Lemma both_refl s : grows s s ∧ R s s.
Proof. split; [apply grows_refl|reflexivity]. Qed.
Lemma both_trans s1 s2 s3 : grows s1 s2 ∧ R s1 s2 → grows s2 s3 ∧ R s2 s3 → grows s1 s3 ∧ R s1 s3.
Proof. intros [??] [??]. split; [by eapply grows_trans|by etransitivity]. Qed.

Lemma kept_ok {A} c (m : M (shim W) A) Q s : (ok s → keeps c m Q s) → keeps c m Q s.
Proof. intros Hm Hs. by apply Hm. Qed.
Lemma kept_mono {A} c (m : M (shim W) A) (P Q : A → shim W → Prop) s :
  keeps c m P s → (∀ a s', ok s' → grows s s' ∧ R s s' → P a s' → Q a s') → keeps c m Q s.
Proof. intros Hm HPQ Hs. eapply wp_mono; [by apply Hm|]. intros a s' (? & ? & ? & ?). auto. Qed.
Lemma kept_any {A} c (m : M (shim W) A) Q s : keeps c m Q s → keeps c m (λ _ _, True) s.
Proof. intros Hm. by eapply kept_mono. Qed.
Lemma kept_free {A} k (m : M (shim W) A) Q s : keeps (Some k) m Q s → keeps None m Q s.
Proof. intros Hm Hs. eapply wp_mono; [by apply Hm|]. intros a s' (? & ? & [? _] & ?). done. Qed.
Lemma kept_limit {A} k k' (m : M (shim W) A) Q s : keeps (Some k) m Q s → k <= k' → keeps (Some k') m Q s.
Proof. intros Hm Hk Hs. eapply wp_mono; [by apply Hm|]. intros a s' (? & ? & [? Ht] & ?). split; [done|]. split; [done|]. split; [|done]. split; lia. Qed.
Lemma kept_ret {A} c (a : A) (Q : A → shim W → Prop) s : roomy c 0 → Q a s → keeps c (mret a) Q s.
Proof.
  intros Hc HQ Hs. apply wp_ret. split; [done|]. split; [apply both_refl|].
  split; [|done]. split; [done|]. destruct c; simpl in *; [lia|done].
Qed.
Lemma kept_bind {A B} c k (m : M (shim W) A) (f : A → M (shim W) B) P Q s :
  keeps (Some k) m P s →
  (∀ a s', ok s' → grows s s' ∧ R s s' → now (world s) <= now (world s') <= now (world s) + k → P a s' →
    keeps (left_of c k) (f a) Q s') →
  keeps c (m ≫= f) Q s.
Proof.
  intros Hm Hf Hs. apply wp_bind. eapply wp_mono; [by apply Hm|]. intros a s' (Hs' & Hg & [Ht1 Ht2] & HP).
  eapply wp_mono; [by apply Hf|]. intros b s'' (? & Hg' & [Ht3 Ht4] & ?).
  split; [done|]. split; [by eapply both_trans|]. split; [|done]. split; [lia|]. destruct c; simpl in *; lia || done.
Qed.
Lemma kept_then {A B} (m : M (shim W) A) (f : A → M (shim W) B) P Q s :
  keeps None m P s → (∀ a s', ok s' → grows s s' ∧ R s s' → now (world s) <= now (world s') → P a s' → keeps None (f a) Q s') →
  keeps None (m ≫= f) Q s.
Proof.
  intros Hm Hf Hs. apply wp_bind. eapply wp_mono; [by apply Hm|]. intros a s' (Hs' & Hg & [Ht1 _] & HP).
  eapply wp_mono; [by apply Hf|]. intros b s'' (? & Hg' & [Ht3 _] & ?).
  split; [done|]. split; [by eapply both_trans|]. split; [|done]. split; [lia|done].
Qed.
Lemma kept_get {A} c (f : shim W → M (shim W) A) Q s : keeps c (f s) Q s → keeps c (get ≫= f) Q s.
Proof. intros Hf Hs. by apply wp_bind, wp_get, Hf. Qed.
Lemma kept_require {A} c b (f : unit → M (shim W) A) Q s :
  b = true → keeps c (f tt) Q s → keeps c (require b ≫= f) Q s.
Proof. intros -> Hf Hs. by apply Hf. Qed.
Lemma kept_modify c (f : shim W → shim W) (Q : unit → shim W → Prop) s :
  roomy c 0 → (ok s → ok (f s)) → grows s (f s) → trace (f s) = trace s ∧ world (f s) = world s → Q tt (f s) →
  keeps c (modify f) Q s.
Proof.
  intros Hc Hf Hg [Ht Hw] HQ Hs. apply wp_modify. rewrite Hw. split; [auto|]. split; [split; [done|by apply w_same]|].
  split; [|done]. split; [done|]. destruct c; simpl in *; [lia|done].
Qed.

Lemma kept_call {A} c (e : sys A) (Q : A → shim W → Prop) s :
  roomy c (cost e) → heard w_quiet w_loud e = true → Q (fst (do_sys e (world s))) (called e s) → keeps c (call e) Q s.
Proof.
  intros Hc He HQ Hs. unfold call, wp. pose proof (now_advances A e (world s)).
  split; [by destruct Hs|]. split; [split; [by split|by apply w_called]|]. split; [|done]. split; simpl; [lia|].
  destruct c; simpl in *; [lia|done].
Qed.
Lemma kept_when c (b : bool) (m : M (shim W) unit) Q s :
  roomy c 0 → (b = true → keeps c m Q s) → (b = false → Q tt s) → keeps c (when_ b m) Q s.
Proof. intros Hc Hm HQ. destruct b; [by apply Hm|by apply kept_ret, HQ]. Qed.

Lemma kept_call_then {A B} c (e : sys A) (f : A → M (shim W) B) Q s :
  heard w_quiet w_loud e = true → keeps (left_of c (cost e)) (f (fst (do_sys e (world s)))) Q (called e s) →
  keeps c (call e ≫= f) Q s.
Proof.
  intros He Hf. eapply (kept_bind _ (cost e) _ _ (λ a s', a = fst (do_sys e (world s)) ∧ s' = called e s)).
  { by apply kept_call; [simpl; lia|..]. }
  by intros a s' _ _ _ [-> ->].
Qed.

(** Statics the invariant does not speak of. *)
Lemma kept_zp c (f : fbpost → fbpost) (Q : unit → shim W → Prop) s :
  roomy c 0 → (∀ z, (g_real_hw_open (f z), g_real_post (f z), g_zc_w (f z), g_zc_h (f z)) =
                    (g_real_hw_open z, g_real_post z, g_zc_w z, g_zc_h z)) →
  Q tt (set_zp (f (zp s)) s) → keeps c (mod_zp f) Q s.
Proof.
  intros Hc Hf HQ. specialize (Hf (zp s)). injection Hf as E1 E2 E3 E4.
  apply kept_modify; [done| |split; [done|by cbn; rewrite E2]|done|done].
  intros []. split; cbn [zp col devices modules set_zp set_col]; rewrite ?E1, ?E2, ?E3, ?E4; assumption.
Qed.
Lemma kept_col c (f : color → color) (Q : unit → shim W → Prop) s :
  roomy c 0 → (∀ z, (g_fd (f z), g_fdrr (f z), g_phys (f z), g_physrr (f z)) = (g_fd z, g_fdrr z, g_phys z, g_physrr z)) →
  Q tt (set_col (f (col s)) s) → keeps c (mod_col f) Q s.
Proof.
  intros Hc Hf HQ. apply kept_modify; [done| |same_tables|done|done].
  specialize (Hf (col s)). injection Hf as E1 E2 E3 E4.
  intros []. split; cbn [zp col devices modules set_zp set_col]; rewrite ?E1, ?E2, ?E3, ?E4; assumption.
Qed.
Lemma kept_zp_then {B} c (f : fbpost → fbpost) (k : unit → M (shim W) B) Q s :
  (∀ z, (g_real_hw_open (f z), g_real_post (f z), g_zc_w (f z), g_zc_h (f z)) =
        (g_real_hw_open z, g_real_post z, g_zc_w z, g_zc_h z)) →
  keeps (left_of c 0) (k tt) Q (set_zp (f (zp s)) s) → keeps c (mod_zp f ≫= k) Q s.
Proof.
  intros Hf Hk. eapply (kept_bind _ 0 _ _ (λ _ s', s' = set_zp (f (zp s)) s)); [by apply kept_zp|].
  by intros [] s' _ _ _ ->.
Qed.
End rules.
End inv.

(** The time of one call, the requests excepted. *)
Definition slow : Z := 10000000.
Ltac room := cbn [left_of fmap option_fmap option_map roomy cost]; unfold slow; first [done | lia].

(** * Every entry returns and keeps the invariant *)

Section hooks.
Context {W : Type} `{!System W} {F : Z} {frames : Z → Prop} `{!SystemOk W F frames}.
Context {R : relation (shim W)} `{!Watch R}.
Abbreviation keeps := (keeps (F := F) (frames := frames) (R := R)).
Abbreviation ok := (ok (F := F)).
Implicit Types s : shim W.

(** ** The hooks that look for something to hook *)

Lemma kept_property key default s :
  keeps (Some slow) (property_flag key default : M (shim W) bool) (λ _ _, True) s.
Proof.
  unfold property_flag. apply kept_call_then; [done|]. by apply kept_ret; [room|].
Qed.
Lemma kept_fbopen s : keeps (Some slow) (a1000_fbopen : M (shim W) unit) (λ _ _, True) s.
Proof.
  unfold a1000_fbopen. apply kept_get, kept_when; [room| |done]. intros _.
  apply kept_call_then; [done|]. apply kept_zp; [room|done..].
Qed.
Lemma kept_patch_post_none io s : keeps (Some slow) (a1000_patch_post io None : M (shim W) unit) (λ _ _, True) s.
Proof.
  unfold a1000_patch_post. eapply (kept_bind _ slow); [by apply kept_fbopen|]. intros. by apply kept_ret; [room|].
Qed.

(** Hooking a module: once, and never the function of the library itself. *)
Lemma kept_patch_factory m s : keeps (Some slow) (a1000_patch_factory m : M (shim W) unit) (λ _ _, True) s.
Proof.
  unfold a1000_patch_factory. apply kept_ok. intros Hs. apply kept_get.
  destruct (g_real_hw_open (zp s)) eqn:Eo; [by apply kept_ret; [room|]|].
  destruct m as [m|]; [|by apply kept_ret; [room|]].
  destruct (modules s !! m) as [f|] eqn:Em; [|by apply kept_ret; [room|]].
  assert (Hf : f ≠ a1000_gralloc_open_fn).
  { intros ->. destruct (ok_modules _ Hs m Em) as [? E]. congruence. }
  apply kept_call_then; [done|]. apply kept_ok. intros Hs1. destruct (truthy _); [by apply kept_ret; [room|]|].
  eapply (kept_bind _ 0 _ _ (λ _ s', g_real_hw_open (zp s') = Some f)).
  { apply kept_modify; [room| |same_tables|done|done].
    destruct Hs1; split; cbn -[Z.mul]; try assumption; [congruence|]. intros. by eexists. }
  intros _ s2 Hs2 _ _ Ef. apply kept_modify; [room| |same_tables|done|done].
  destruct Hs2; split; cbn -[Z.mul]; try assumption. intros. rewrite Ef. by eexists.
Qed.

(** A module that is loaded comes with a function of its vendor. *)
Lemma kept_get_module id s : keeps (Some slow) (real_hw_get_module id : M (shim W) _) (λ _ _, True) s.
Proof.
  unfold real_hw_get_module. apply kept_call_then; [done|]. destruct (fst _) as [rc [[m methods]|]]; [|by apply kept_ret; [room|]].
  eapply (kept_bind _ 0 _ _ (λ _ _, True)); [|intros; by apply kept_ret; [room|]].
  apply kept_modify; [room| |same_tables|done|exact I].
  intros [? ? ? Hmod ? ? ? ?]; split; cbn -[Z.mul]; try assumption. intros m'.
  destruct (modules s !! m) eqn:E, methods as [n|];
    [exact (Hmod m')..| |exact (Hmod m')].
  destruct (decide (m = m')) as [->|]; [by rewrite lookup_insert_eq|]. rewrite lookup_insert_ne by done. exact (Hmod m').
Qed.
Lemma kept_hw_get_module id s : keeps (Some (3 * slow)) (hw_get_module id : M (shim W) _) (λ _ _, True) s.
Proof.
  unfold hw_get_module. apply kept_get. eapply (kept_bind _ slow _ _ (λ _ _, True)).
  { apply kept_when; [room| |by intros]. intros _. apply kept_call_then; [done|]. apply kept_zp; [room|done..]. }
  intros _ s1 _ _ _ _. apply kept_get. destruct (negb _); [by apply kept_ret; [room|]|].
  eapply (kept_bind _ slow); [apply kept_get_module|]. intros [rc m] s2 _ _ _ _.
  eapply (kept_bind _ slow _ _ (λ _ _, True)); [|intros; by apply kept_ret; [room|]].
  apply kept_when; [room| |by intros]. intros _. apply kept_zp_then; [done|]. cbn [left_of fmap option_fmap option_map].
  rewrite Z.sub_0_r. apply kept_patch_factory.
Qed.
Lemma kept_hook_factory s : keeps (Some (5 * slow)) (a1000_hook_gralloc_factory : M (shim W) _) (λ _ _, True) s.
Proof.
  unfold a1000_hook_gralloc_factory. apply kept_get. destruct (g_real_hw_open _); [by apply kept_ret; [room|]|].
  apply kept_call_then; [done|]. destruct (fst _) as [own|]; [|by apply kept_ret; [room|]].
  eapply (kept_bind _ (3 * slow) _ _ (λ _ _, True)).
  { destruct own; [apply kept_hw_get_module|]. eapply kept_limit; [apply kept_get_module|room]. }
  intros [rc m] s2 _ _ _ _. destruct (truthy rc); [by apply kept_ret; [room|]|].
  eapply kept_limit; [apply kept_patch_factory|room].
Qed.

(** The hook of [ioctl] itself patches no device, so it calls no [ioctl]. *)
Lemma kept_zc_flags s :
  keeps (Some (3 * slow))
    (when_ (zc (zp s) =? -1)
      (on ← property_flag "debug.sf.a1000_zerocopy" "0";
       mod_zp (set_zc (if on : bool then 1 else 0)) ;;
       when_ on
         (sync ← property_flag "debug.sf.a1000_zcsync" "1"; mod_zp (set_g_zc_sync sync) ;;
          fence ← property_flag "debug.sf.a1000_zcfence" "1"; mod_zp (set_g_zc_fence fence)))) (λ _ _, True) s.
Proof.
  apply kept_when; [room| |by intros]. intros _. eapply (kept_bind _ slow); [apply kept_property|]. intros on s1 _ _ _ _.
  apply kept_zp_then; [done|]. apply kept_when; [room| |by intros]. intros _.
  eapply (kept_bind _ slow); [apply kept_property|]. intros sync s2 _ _ _ _. apply kept_zp_then; [done|].
  eapply (kept_bind _ slow); [apply kept_property|]. intros fence s3 _ _ _ _. apply kept_zp; [room|done..].
Qed.
Lemma kept_hook_none io s : keeps (Some (9 * slow)) (a1000_zc_hook_fb io None : M (shim W) _) (λ _ _, True) s.
Proof.
  unfold a1000_zc_hook_fb. apply kept_get. destruct (_ || _); [by apply kept_ret; [room|]|].
  eapply (kept_bind _ (3 * slow)); [apply kept_zc_flags|]. intros _ s1 _ _ _ _. apply kept_get.
  destruct (_ =? 0); [by apply kept_ret; [room|]|].
  eapply (kept_bind _ slow); [apply kept_patch_post_none|]. intros _ s2 _ _ _ _.
  eapply kept_limit; [apply kept_hook_factory|room].
Qed.
End hooks.

Section colour.
Context {W : Type} `{!System W} {F : Z} {frames : Z → Prop} `{!SystemOk W F frames}.
Context {R : relation (shim W)} `{!Watch R}.
Abbreviation keeps := (keeps (F := F) (frames := frames) (R := R)).
Abbreviation ok := (ok (F := F)).
Implicit Types s : shim W.

(** ** Colours *)

Definition anything {A} (a : A) (s : shim W) : Prop := True.

(** The table of descriptors keeps its size. *)
Lemma kept_g_fd (f : color → color) s :
  (length (g_fd (col s)) = FDMAP → (g_fdrr (col s) < FDMAP)%nat →
     length (g_fd (f (col s))) = FDMAP ∧ (g_fdrr (f (col s)) < FDMAP)%nat) →
  (∀ z, (g_phys (f z), g_physrr (f z)) = (g_phys z, g_physrr z)) →
  keeps None (mod_col f) anything s.
Proof.
  intros Hl Hf. specialize (Hf (col s)). injection Hf as E1 E2.
  apply kept_modify; [done| |same_tables|done|done].
  intros []. split; cbn [zp col devices modules set_zp set_col]; rewrite ?E1, ?E2; try assumption. naive_solver.
Qed.
Lemma kept_fd_slot fd s : keeps None (fd_slot fd : M (shim W) nat) anything s.
Proof.
  unfold fd_slot. apply kept_get.
  destruct (list_find (λ e, fst e = fd) _) as [[i ?]|]; [by apply kept_ret|].
  destruct (list_find (λ e, fst e = 0) _) as [[i ?]|]; (eapply kept_then; [apply kept_g_fd|intros; by apply kept_ret]);
    try done; cbn [set_g_fd set_g_fdrr g_fd g_fdrr]; intros; rewrite length_insert; (split; [done|]); try done.
  by apply Nat.mod_upper_bound.
Qed.
Lemma kept_set_hash i h s : keeps None (set_slot_hash i h : M (shim W) _) anything s.
Proof. apply kept_g_fd; [|done]. cbn [set_g_fd g_fd g_fdrr]. intros. by rewrite length_insert. Qed.

Lemma page_up_le len : len <= page_up len.
Proof. unfold page_up. pose proof (Z.mod_pos_bound (len + 4095) 4096). pose proof (Z.div_mod (len + 4095) 4096). lia. Qed.

Lemma kept_process fd len npix r s : 4 * npix <= len →
  keeps None (process_mapped fd len npix r : M (shim W) _) anything s.
Proof.
  intros Hn. unfold process_mapped. apply kept_require; [pose proof (page_up_le len); lia|].
  apply kept_call_then; [done|]. destruct (process _ _ _) as [h b'].
  eapply (kept_then _ _ anything); [apply kept_when; [done|intros _; by apply kept_call|by intros]|].
  intros. by apply kept_ret.
Qed.
Lemma kept_rotate_once fd len npix s : 4 * npix <= len →
  keeps None (rotate_once fd len npix : M (shim W) _) anything s.
Proof.
  intros Hn. unfold rotate_once. eapply kept_then; [apply kept_fd_slot|]. intros i s1 _ _ _ _.
  unfold slot_hash. eapply kept_then; [by apply kept_get, (kept_ret _ _ anything)|]. intros h s2 _ _ _ _.
  eapply kept_then; [by apply kept_process|]. intros h' s3 _ _ _ _. destruct (h =? h'); [by apply kept_ret|].
  eapply kept_then; [by apply kept_process|]. intros h'' s4 _ _ _ _.
  eapply kept_then; [apply kept_set_hash|]. intros. by apply kept_ret.
Qed.

Lemma small_frame F' a b : 0 <= F' < 2 ^ 32 → 0 <= a → 0 <= b → 4 * (a * b) <= F' → u32 (a * b) = a * b ∧ u32 (u32 (a * b) * 4) = 4 * (a * b).
Proof. intros. assert (u32 (a * b) = a * b) as -> by (apply Z.mod_small; nia). split; [done|]. unfold u32. rewrite Z.mod_small; nia. Qed.

Lemma kept_handle_layer l s : layer_fits F l → keeps None (handle_layer l : M (shim W) _) anything s.
Proof.
  intros (Hp & Hr & HF). unfold handle_layer. destruct (_ || _); [by apply kept_ret|].
  pose proof (frame_range (W := W) (F := F) (frames := frames)) as HFr.
  destruct (small_frame F _ _ HFr Hp Hr HF) as [E1 E2]. rewrite E2, E1.
  apply kept_call_then; [done|]. destruct (negb _); [by apply kept_ret|].
  eapply kept_then; [by apply kept_rotate_once|]. intros. by apply kept_call.
Qed.

(** The same for the table of buffers, and entries that are large enough. *)
Lemma kept_g_phys (f : color → color) s :
  (length (g_phys (col s)) = PHYSMAP → (g_physrr (col s) < PHYSMAP)%nat → Forall (λ e, snd e = 0 ∨ F <= snd e) (g_phys (col s)) →
     length (g_phys (f (col s))) = PHYSMAP ∧ (g_physrr (f (col s)) < PHYSMAP)%nat ∧
     Forall (λ e, snd e = 0 ∨ F <= snd e) (g_phys (f (col s)))) →
  (∀ z, (g_fd (f z), g_fdrr (f z)) = (g_fd z, g_fdrr z)) →
  keeps None (mod_col f) anything s.
Proof.
  intros Hl Hf. specialize (Hf (col s)). injection Hf as E1 E2.
  apply kept_modify; [done| |same_tables|done|done].
  intros []. split; cbn [zp col devices modules set_zp set_col]; rewrite ?E1, ?E2; try assumption; naive_solver.
Qed.
Lemma kept_close_kept fd s : keeps None (close_kept fd : M (shim W) _) anything s.
Proof. apply kept_when; [done|intros _; by apply kept_call|by intros]. Qed.
Lemma kept_new_entry i phys fd len s : F <= len →
  keeps None (dupfd ← call (SDup fd); mod_col (λ c, set_g_phys (<[i := (phys, dupfd, len)]> (g_phys c)) c) : M (shim W) _) anything s.
Proof.
  intros HF. apply kept_call_then; [done|]. apply kept_g_phys; [|done]. intros Hl Hr Hs. cbn [set_g_phys g_phys g_physrr].
  rewrite length_insert. split; [done|]. split; [done|]. apply Forall_insert; [done|]. by right.
Qed.
Lemma kept_record phys fd len s : F <= len → keeps None (sprdcolor_record phys fd len : M (shim W) _) anything s.
Proof.
  intros HF. unfold sprdcolor_record. destruct (_ || _); [by apply kept_ret|]. apply kept_get.
  destruct (list_find (λ e, fst (fst e) = u32 phys) _) as [[i [[? old] ?]]|].
  { eapply kept_then; [apply kept_close_kept|]. intros. by apply kept_new_entry. }
  eapply (kept_then _ _ anything); [|intros; by apply kept_new_entry].
  destruct (list_find (λ e, fst (fst e) = 0) _) as [[i ?]|]; [by apply kept_ret|].
  eapply kept_then; [apply kept_g_phys; [|done]|].
  { intros Hl Hr Hs. split; [done|]. split; [by apply Nat.mod_upper_bound|done]. }
  intros _ s1 _ _ _ _. destruct (nth _ _ _) as [[p old] ?].
  eapply (kept_then _ _ anything); [apply kept_when; [done|intros _; apply kept_close_kept|by intros]|].
  intros. by apply kept_ret.
Qed.

(** Presenting the layer of the controller: the rectangle stays what it was. *)
Lemma kept_pin_buffer o s : keeps None (pin_buffer o : M (shim W) _) (λ o' _, i_rect o' = i_rect o) s.
Proof.
  unfold pin_buffer. apply kept_get. eapply (kept_then _ _ anything).
  { apply kept_when; [done| |by intros]. intros _. apply kept_call_then; [done|]. by apply kept_col. }
  intros _ s1 _ _ _ _. apply kept_get. destruct (truthy _); [by apply kept_ret|].
  eapply (kept_then _ _ anything). { apply kept_when; [done| |by intros]. intros _. by apply kept_col. }
  intros _ s2 _ _ _ _. apply kept_get. by apply kept_ret.
Qed.
Lemma kept_scan b s : keeps None (scan_hwcolor b : M (shim W) _) anything s.
Proof.
  unfold scan_hwcolor. destruct (scan_int b) as [[e b']|]; [|by apply kept_ret].
  eapply (kept_then _ _ anything); [by apply kept_col|]. intros _ s1 _ _ _ _.
  destruct (scan_int b') as [[rb ?]|]; [|by apply kept_ret].
  eapply (kept_then _ _ anything); [by apply kept_col|]. intros. by apply kept_ret.
Qed.
Lemma kept_find_hwcolor s : keeps None (find_hwcolor : M (shim W) _) anything s.
Proof.
  unfold find_hwcolor. apply kept_get, kept_when; [done| |by intros]. intros _. apply kept_call_then; [done|].
  eapply (kept_then _ _ anything); [by apply kept_col|]. intros _ s1 _ _ _ _.
  apply kept_when; [done| |by intros]. intros _. apply kept_call_then; [done|]. apply kept_call_then; [done|].
  eapply kept_then; [apply kept_scan|]. intros two s2 _ _ _ _.
  apply kept_when; [done| |by intros]. intros _. by apply kept_col.
Qed.
Lemma kept_sync_osd bfd s :
  keeps None (s ← get;
         when_ (g_ionfd_osd (col s) =? -2) (fd ← call (SOpen "/dev/ion"); mod_col (set_g_ionfd_osd fd)) ;;
         s ← get;
         when_ (0 <=? g_ionfd_osd (col s)) (call (SIonSync (g_ionfd_osd (col s)) bfd) ;; mret tt) : M (shim W) _) anything s.
Proof.
  apply kept_get. eapply (kept_then _ _ anything).
  { apply kept_when; [done| |by intros]. intros _. apply kept_call_then; [done|]. by apply kept_col. }
  intros _ s1 _ _ _ _. apply kept_get, kept_when; [done| |by intros]. intros _. apply kept_call_then; [done|]. by apply kept_ret.
Qed.
Lemma kept_rotate_osd o s : rect_fits F (i_rect o) → keeps None (rotate_osd o : M (shim W) _) anything s.
Proof.
  intros (Hw & Hh & HF). unfold rotate_osd. apply kept_ok. intros Hs. apply kept_get.
  destruct (list_find _ _) as [[i [[p bfd] l]]|] eqn:El; [|by apply kept_ret].
  apply list_find_Some in El as (El & _ & _).
  pose proof (Forall_lookup_1 _ _ _ _ (ok_sizes _ Hs) El) as Hl. simpl in Hl.
  pose proof (frame_range (W := W) (F := F) (frames := frames)) as HFr.
  destruct (small_frame F _ _ HFr Hw Hh HF) as [E1 E2]. rewrite E2, E1.
  destruct (bfd <? 0); [by apply kept_ret|]. apply kept_call_then; [done|]. destruct (negb _); [by apply kept_ret|].
  eapply kept_then.
  { apply kept_rotate_once. unfold truthy. destruct (l =? 0) eqn:E0; simpl; lia. }
  intros r s1 _ _ _ _. eapply (kept_then _ _ anything); [|intros; by apply kept_call].
  apply kept_when; [done|intros _; apply kept_sync_osd|by intros].
Qed.
Lemma kept_handle_osd o s : rect_fits F (i_rect o) → keeps None (handle_osd o : M (shim W) _) anything s.
Proof.
  intros Ho. unfold handle_osd. destruct (_ || _); [by apply kept_ret|]. destruct (_ || _); [by apply kept_ret|].
  eapply kept_then; [apply kept_pin_buffer|]. intros o' s1 _ _ _ Er.
  eapply kept_then; [apply kept_find_hwcolor|]. intros _ s2 _ _ _ _. apply kept_get.
  destruct (truthy _); [by apply kept_ret|]. eapply (kept_then _ _ anything).
  { apply kept_when; [done| |by intros]. intros _. apply kept_call_then; [done|]. by apply kept_col. }
  intros _ s3 _ _ _ _. apply kept_get. eapply (kept_then _ _ anything); [|intros; by apply kept_ret].
  apply kept_when; [done| |by intros]. intros _. apply kept_rotate_osd. by rewrite Er.
Qed.
End colour.

(** * What [ioctl] promises to the functions that call it *)

Section io.
Context {W : Type} `{!System W} {F : Z} {frames : Z → Prop} `{!SystemOk W F frames}.
Context {R : relation (shim W)} `{!Watch R}.
Abbreviation keeps := (keeps (F := F) (frames := frames) (R := R)).
Abbreviation ok := (ok (F := F)).
Abbreviation ioctl_fn := (ioctl_fn (W := W)).
Implicit Types s : shim W.

(** The requests that are made for the library itself are not watched, those that show a
    frame excepted. *)
Class Calm : Prop := {
  calm_wait : w_quiet WAITFORVSYNC = true;
  calm_var : w_quiet FBIOGET_VSCREENINFO = true;
  calm_ion : w_quiet ION_IOC_CUSTOM = true }.

(** A request that answers 0 told the truth. *)
Definition answered (request : Z) (arg : ioctl_arg) (r : Z * ioctl_arg) (s : shim W) : Prop :=
  same_shape arg (snd r) ∧
  (request = FBIOGET_VSCREENINFO → fst r = 0 → ∀ v, snd r = AVar v → fits F v) ∧
  (request = ION_IOC_CUSTOM → fst r = 0 → ∀ fd fd' phys size, arg = AIon fd 0 0 → frames fd →
     snd r = AIon fd' phys size → F <= size).

(** The longest [ioctl] waits for the panel. *)
Definition one_wait : Z := 21 * slow.
Class IoWaits (io : ioctl_fn) : Prop :=
  io_wait fd s : keeps (Some one_wait) (io fd WAITFORVSYNC (AWord 0)) anything s.
Class IoOk (io : ioctl_fn) : Prop :=
  io_any fd request arg s : arg_ok F request arg → w_quiet request = true → keeps None (io fd request arg) (answered request arg) s.

(** ** Time *)

Definition clock_of (n : Z) : Z * Z := (n / 10 ^ 9, n mod 10 ^ 9).

Lemma elapsed_ns c n0 n1 (Q : Z → shim W → Prop) s : roomy c 0 → n0 <= n1 <= n0 + 2 * 10 ^ 9 →
  Q (n1 - n0) s → keeps c (elapsed (clock_of n0) (clock_of n1) 1000000000 1) Q s.
Proof.
  intros Hc Hn HQ. unfold elapsed, clock_of, in_long. simpl fst. simpl snd. rewrite Z.quot_1_r.
  pose proof (Z.div_mod n0 (10 ^ 9)). pose proof (Z.div_mod n1 (10 ^ 9)).
  pose proof (Z.mod_pos_bound n0 (10 ^ 9)). pose proof (Z.mod_pos_bound n1 (10 ^ 9)).
  replace ((n1 / 10 ^ 9 - n0 / 10 ^ 9) * 1000000000 + (n1 mod 10 ^ 9 - n0 mod 10 ^ 9)) with (n1 - n0) by lia.
  apply kept_require; [|by apply kept_ret]. rewrite !andb_true_iff, !Z.leb_le, !Z.ltb_lt. lia.
Qed.
Lemma elapsed_ms c n0 n1 (Q : Z → shim W → Prop) s : roomy c 0 → n0 <= n1 <= n0 + 2 * 10 ^ 9 →
  (∀ ms, Q ms s) → keeps c (elapsed (clock_of n0) (clock_of n1) 1000 1000000) Q s.
Proof.
  intros Hc Hn HQ. unfold elapsed, clock_of, in_long. simpl fst. simpl snd.
  pose proof (Z.div_mod n0 (10 ^ 9)). pose proof (Z.div_mod n1 (10 ^ 9)).
  pose proof (Z.mod_pos_bound n0 (10 ^ 9)). pose proof (Z.mod_pos_bound n1 (10 ^ 9)).
  assert (Hq : -1000 <= Z.quot (n1 mod 10 ^ 9 - n0 mod 10 ^ 9) 1000000 <= 1000).
  { pose proof (Z.quot_rem' (n1 mod 10 ^ 9 - n0 mod 10 ^ 9) 1000000).
    pose proof (Z.rem_bound_abs (n1 mod 10 ^ 9 - n0 mod 10 ^ 9) 1000000). lia. }
  apply kept_require; [|by apply kept_ret]. rewrite !andb_true_iff, !Z.leb_le, !Z.ltb_lt. lia.
Qed.

Lemma kept_clock {B} c (f : Z * Z → M (shim W) B) Q s :
  keeps (left_of c slow) (f (clock_of (now (world s)))) Q (called SClock s) → keeps c (call SClock ≫= f) Q s.
Proof. intros Hf. apply kept_call_then; [done|]. rewrite clock_now. exact Hf. Qed.
Lemma now_called s : now (world s) <= now (world (called SClock s)) <= now (world s) + slow.
Proof. apply (now_advances (F := F) (frames := frames) _ SClock (world s)). Qed.

(** ** Waiting for the panel *)

Section waits.
Context (io : ioctl_fn) `{!IoWaits io}.

Lemma kept_wait_vsync s : keeps None (a1000_wait_vsync io) anything s.
Proof.
  unfold a1000_wait_vsync. apply kept_get. destruct (_ || _); [by apply kept_ret|]. apply kept_clock.
  pose proof (now_called s) as Hn0. eapply (kept_bind _ one_wait); [apply io_wait|].
  intros [rc arg] s1 _ _ Hn1 _. destruct (rc <? 0); [by apply kept_zp|]. apply kept_clock.
  pose proof (now_called s1) as Hn2. eapply (kept_then _ _ anything).
  { apply elapsed_ms; [done| |done]. unfold one_wait, slow in *. lia. }
  intros ms s2 _ _ _ _. destruct (50 <=? ms); [|by apply kept_zp].
  eapply (kept_then _ _ anything); [by apply kept_zp|]. intros _ s3 _ _ _ _. apply kept_get.
  apply kept_when; [done| |by intros]. intros _. by apply kept_zp.
Qed.

Lemma kept_pulses n fd s : keeps (Some (Z.of_nat n * one_wait)) (wait_pulses io n fd) anything s.
Proof.
  revert s. induction n as [|n IH]; intros s; cbn [wait_pulses]; [by apply kept_ret; [room|]|].
  eapply (kept_bind _ one_wait); [apply io_wait|]. intros [rc arg] s1 _ _ _ _.
  cbn [left_of fmap option_fmap option_map]. destruct (rc <? 0).
  { apply kept_ret; [|done]. unfold roomy, one_wait, slow. lia. }
  eapply kept_limit; [apply IH|]. lia.
Qed.
Lemma kept_measure fd s : keeps None (a1000_measure_period io fd) (λ p _, p = 0 ∨ 8000000 < p < 30000000) s.
Proof.
  unfold a1000_measure_period. eapply kept_bind; [apply kept_pulses|]. intros aligned s1 _ _ _ _.
  destruct (negb aligned); [apply kept_ret; [done|by auto]|]. apply kept_clock. pose proof (now_called s1) as Hn1.
  eapply kept_bind; [apply kept_pulses|]. intros waited s2 _ _ Hn2 _.
  destruct (negb waited); [apply kept_ret; [done|by auto]|]. apply kept_clock.
  eapply (kept_then _ _ anything). { apply elapsed_ns; [done| |done]. unfold one_wait, slow in *. lia. }
  intros total s3 _ _ _ _. apply kept_ret; [done|].
  destruct (8000000 <? _) eqn:E1, (_ <? 30000000) eqn:E2; simpl; auto. right. lia.
Qed.

(** Only the pixel clock of an answer is ever touched. *)
Lemma kept_fix_vsync fd request arg s :
  (request = FBIOGET_VSCREENINFO → arg = ANull ∨ ∃ v, arg = AVar v) →
  keeps None (a1000_fix_vsync_period io fd request arg)
    (λ arg' _, arg' = arg ∨ ∃ v px, arg = AVar v ∧ arg' = AVar (with_pixclock px v)) s.
Proof.
  intros Ha.
  destruct (Z.eqb_spec request FBIOGET_VSCREENINFO) as [->|Hr].
  2: { apply Z.eqb_neq in Hr. unfold a1000_fix_vsync_period. destruct arg; rewrite ?Hr; (apply kept_ret; [done|by auto]). }
  destruct (Ha eq_refl) as [->|[v ->]]; [apply kept_ret; [done|by auto]|]. cbn [a1000_fix_vsync_period]. rewrite Z.eqb_refl. cbn [negb].
  apply kept_get. eapply (kept_then _ _ anything).
  { apply kept_when; [done| |by intros]. intros _. eapply kept_bind; [apply kept_property|].
    intros b s1 _ _ _ _. by apply kept_zp. }
  intros _ s1 _ _ _ _. apply kept_get. destruct (_ =? 0); [apply kept_ret; [done|by auto]|].
  eapply (kept_then _ _ anything).
  { apply kept_when; [done| |by intros]. intros _. eapply kept_then; [apply kept_measure|].
    intros p s2 _ _ _ _. by apply kept_zp. }
  intros _ s2 _ _ _ _. apply kept_get. destruct (_ <=? 0); [apply kept_ret; [done|by auto]|].
  destruct (_ || _); [apply kept_ret; [done|by auto]|]. destruct (_ && _); (apply kept_ret; [done|by eauto]).
Qed.
End waits.

(** ** Requests of the library's own *)

Ltac not_this := intros E; exfalso; vm_compute in E; discriminate E.
Lemma arg_ok_word w : arg_ok F PAGEFLIP (AWord w).
Proof. right. split_and!; not_this. Qed.
Lemma arg_ok_wait w : arg_ok F WAITFORVSYNC (AWord w).
Proof. right. split_and!; not_this. Qed.
Lemma arg_ok_display d : arg_ok F DISPLAY_OVERLAY (ADisplay d).
Proof. right. split_and!; not_this. Qed.
Lemma arg_ok_ion fd phys size : arg_ok F ION_IOC_CUSTOM (AIon fd phys size).
Proof. right. split_and!; not_this. Qed.
Lemma arg_ok_var v : arg_ok F FBIOGET_VSCREENINFO (AVar v).
Proof. right. split_and!; [not_this..|eauto]. Qed.
Lemma arg_ok_info o : rect_fits F (i_rect o) → arg_ok F SET_OVERLAY (AInfo o).
Proof. right. split_and!; [eauto|not_this..]. Qed.

Lemma frame_rect_fits s : ok s → rect_fits F (frame_rect (g_zc_w (zp s)) (g_zc_h (zp s))).
Proof.
  intros Hs. pose proof (ok_frame _ Hs) as HF. unfold rect_fits, frame_rect, u16 in *. simpl r_w. simpl r_h.
  pose proof (Z.mod_pos_bound (g_zc_w (zp s)) (2 ^ 16)). pose proof (Z.mod_pos_bound (g_zc_h (zp s)) (2 ^ 16)). lia.
Qed.

Section any.
Context (io : ioctl_fn) `{!IoWaits io} `{!IoOk io} `{!Calm}.

Lemma kept_try_fds want fds s : keeps None (try_fds io want fds) anything s.
Proof.
  revert s. induction fds as [|fd fds IH]; intros s; cbn [try_fds]; [by apply kept_ret|].
  apply kept_get. eapply kept_then; [apply io_any; [apply arg_ok_ion|apply calm_ion]|]. intros [rc arg] s1 _ _ _ [Hsh _].
  destruct arg; try done. destruct (_ && _); [by apply kept_ret|apply IH].
Qed.
Lemma kept_phys_of h want s : keeps None (a1000_phys_of io h want) anything s.
Proof.
  unfold a1000_phys_of. destruct h as [h|]; [|by apply kept_ret]. destruct (_ =? 0)%nat; [by apply kept_ret|].
  apply kept_get. eapply (kept_then _ _ anything).
  { apply kept_when; [done| |by intros]. intros _. apply kept_call_then; [done|]. by apply kept_zp. }
  intros _ s1 _ _ _ _. apply kept_get. destruct (_ <? 0); [by apply kept_ret|apply kept_try_fds].
Qed.
Lemma kept_sync_gpu b s : keeps None (a1000_sync_gpu b : M (shim W) _) anything s.
Proof.
  unfold a1000_sync_gpu. apply kept_get.
  destruct (g_zc_fence (zp s)), (g_gralloc (zp s)), b; try by apply kept_ret.
  apply kept_call_then; [done|]. apply kept_when; [done| |by intros]. intros _. by apply kept_call.
Qed.
Lemma kept_flip phys s : w_quiet PAGEFLIP = true → keeps None (flip_frame io phys) anything s.
Proof.
  intros Hq. unfold flip_frame. apply kept_get. destruct (_ || _); [by apply kept_ret|].
  eapply kept_then; [apply io_any; [apply arg_ok_word|done]|]. intros [rc arg] s1 _ _ _ _.
  destruct (rc =? 0); [by apply kept_ret|]. apply kept_get. eapply (kept_then _ _ anything).
  { apply kept_when; [done| |by intros]. intros _. by apply kept_zp. }
  intros _ s2 _ _ _ _. eapply (kept_then _ _ anything); [by apply kept_zp|]. intros. by apply kept_ret.
Qed.
Lemma kept_overlay_frame phys s : w_quiet SET_OVERLAY = true → w_quiet DISPLAY_OVERLAY = true →
  keeps None (overlay_frame_post io phys) anything s.
Proof.
  intros Hq1 Hq2. unfold overlay_frame_post. apply kept_ok. intros Hs. apply kept_get.
  eapply kept_then; [apply io_any; [by apply arg_ok_info, frame_rect_fits|done]|]. intros [rc arg] s1 _ _ _ _.
  destruct (truthy rc); [by apply kept_ret|]. apply kept_get.
  eapply kept_then; [apply io_any; [apply arg_ok_display|done]|]. intros [rc' arg'] s2 _ _ _ _.
  destruct (truthy rc'); [by apply kept_ret|]. apply kept_get. eapply (kept_then _ _ anything).
  { apply kept_when; [done| |by intros]. intros _. by apply kept_wait_vsync. }
  intros _ s3 _ _ _ _. eapply (kept_then _ _ anything); [by apply kept_zp|]. intros. by apply kept_ret.
Qed.
Lemma kept_show b s : (∀ r, w_quiet r = true) → keeps None (show_in_place io b) anything s.
Proof.
  intros Hq. unfold show_in_place. apply kept_get. destruct (_ || _); [by apply kept_ret|].
  eapply kept_then; [apply kept_phys_of|]. intros phys s1 _ _ _ _. destruct (phys =? 0).
  { eapply (kept_then _ _ anything); [by apply kept_zp|]. intros. by apply kept_ret. }
  eapply kept_then; [apply kept_sync_gpu|]. intros _ s2 _ _ _ _.
  eapply kept_then; [by apply kept_flip|]. intros flipped s3 _ _ _ _.
  destruct flipped; [by apply kept_ret|by apply kept_overlay_frame].
Qed.

Lemma kept_overlay_post real dev b s : (∀ r, w_quiet r = true) →
  (∀ f s', f ≠ a1000_overlay_post_fn → keeps None (real f) anything s') →
  keeps None (a1000_overlay_post io real dev b) anything s.
Proof.
  intros Hq Hreal. unfold a1000_overlay_post. eapply kept_then; [by apply kept_show|]. intros shown s1 Hs1 _ _ _.
  destruct shown; [by apply kept_ret|]. apply kept_get.
  pose proof (ok_post _ Hs1) as Hp. destruct (g_real_post (zp s1)) as [f|]; [|by apply kept_ret].
  apply Hreal. congruence.
Qed.

(** A device that is known is patched at most once. *)
Lemma kept_patch_post dev s : (∀ d, dev = Some d → is_Some (devices s !! d)) →
  keeps None (a1000_patch_post io dev) anything s.
Proof.
  intros Hd. unfold a1000_patch_post.
  eapply (kept_then _ _ anything); [by eapply kept_free, kept_fbopen|].
  intros _ s1 Hs1 [[Hg _] _] _ _. destruct dev as [d|]; [|by apply kept_ret]. apply kept_get.
  destruct (Hg d (Hd d eq_refl)) as [f Ef]. rewrite Ef.
  case_bool_decide as Hf; [by apply kept_ret|]. destruct (_ <? 0); [by apply kept_ret|].
  eapply kept_then; [apply io_any; [apply arg_ok_var|apply calm_var]|]. intros [rc arg] s2 _ _ _ (Hsh & Hfit & _).
  unfold truthy. destruct (Z.eqb_spec rc 0) as [->|]; [|by apply kept_ret]. destruct arg; try done. simpl negb. cbn match.
  destruct (Hfit eq_refl eq_refl _ eq_refl) as (Hw & Hh & HF).
  eapply (kept_then _ _ (λ _ s', is_Some (g_real_post (zp s')))).
  { apply kept_modify; [done| |by split; [intros ? Hx; exact Hx|intros; eexists]|done|by eexists].
    intros []. split; cbn -[Z.mul]; try assumption; [congruence|by eexists|].
    unfold u16. pose proof (Z.mod_le (xres v) (2 ^ 16)). pose proof (Z.mod_le (yres v) (2 ^ 16)).
    pose proof (Z.mod_pos_bound (xres v) (2 ^ 16)). pose proof (Z.mod_pos_bound (yres v) (2 ^ 16)). nia. }
  intros _ s3 _ _ _ Hp. apply kept_modify; [done| | |done|done].
  - intros []. split; cbn -[Z.mul]; try assumption. by intros.
  - split; [|intros Hx; exact Hx]. intros x Hx. cbn. destruct (decide (x = d)) as [->|]; [rewrite lookup_insert_eq; by eexists|by rewrite lookup_insert_ne].
Qed.
Lemma kept_hook_fb dev s : (∀ d, dev = Some d → is_Some (devices s !! d)) → keeps None (a1000_zc_hook_fb io dev) anything s.
Proof.
  intros Hd. unfold a1000_zc_hook_fb. apply kept_get. destruct (_ || _); [by apply kept_ret|].
  eapply kept_bind; [apply kept_zc_flags|]. intros _ s1 _ [[Hg _] _] _ _. apply kept_get.
  destruct (_ =? 0); [by apply kept_ret|].
  eapply (kept_then _ _ anything); [apply kept_patch_post; auto|]. intros _ s2 _ _ _ _.
  eapply kept_free, kept_any, kept_hook_factory.
Qed.
Lemma kept_nested l s : (∀ r, w_quiet r = true) → Forall (λ x, arg_ok F (snd (fst x)) (snd x)) l → keeps None (run_nested io l) anything s.
Proof.
  intros Hq Hl. revert s. induction Hl as [|[[fd request] arg] l Ha Hl IH]; intros s; cbn [run_nested]; [by apply kept_ret|].
  eapply kept_then; [by apply io_any|]. intros [??] s1 _ _ _ _. apply IH.
Qed.
Lemma kept_composition dev s : w_loud = true → is_Some (devices s !! dev) → keeps None (shim_compositionComplete io dev) anything s.
Proof.
  intros Hl Hd. unfold shim_compositionComplete. eapply kept_then; [apply kept_hook_fb; by intros ? [= <-]|].
  intros _ s1 _ _ _ _. apply kept_get. eapply (kept_then _ _ anything).
  { apply kept_when; [done| |by intros]. intros _. apply kept_call_then; [done|]. by apply kept_zp. }
  intros _ s2 _ _ _ _. apply kept_get. destruct (orig_complete _); [by apply kept_call|by apply kept_ret].
Qed.
End any.

(** ** [ioctl] is such a function *)

Lemma answered_self request arg s rc : rc ≠ 0 → answered request arg (rc, arg) s.
Proof. intros Hrc. split_and!; [by destruct arg|done..]. Qed.

Lemma kept_fix_argument request arg s : arg_ok F request arg →
  keeps None (fix_argument request arg : M (shim W) _)
    (λ arg' _, same_shape arg arg' ∧ (request = FBIOGET_VSCREENINFO ∨ request = ION_IOC_CUSTOM → arg' = arg)) s.
Proof.
  intros Ha.
  assert (Hself : same_shape arg arg ∧ (request = FBIOGET_VSCREENINFO ∨ request = ION_IOC_CUSTOM → arg = arg)) by by destruct arg.
  unfold fix_argument. destruct Ha as [->|(H1 & H2 & _)]; [by apply kept_ret|].
  destruct (_ && (IOC_NR request =? 1)) eqn:E1.
  { destruct (H1 eq_refl) as (o & -> & Ho). eapply kept_then; [by apply kept_handle_osd|].
    intros o' s1 _ _ _ _. apply kept_ret; [done|]. split; [done|]. intros [->| ->]; discriminate E1. }
  destruct (_ && (IOC_NR request =? 0)) eqn:E2; [|by destruct arg; apply kept_ret].
  destruct (H2 eq_refl) as (c & -> & Hc0 & Hc1).
  eapply kept_then; [by apply kept_handle_layer|]. intros _ s1 _ _ _ _.
  eapply kept_then; [by apply kept_handle_layer|]. intros _ s2 _ _ _ _.
  apply kept_ret; [done|]. split; [done|]. intros [->| ->]; discriminate E2.
Qed.

Lemma kept_real_ioctl fd request arg s : w_quiet request = true →
  (request = FBIOGET_VSCREENINFO → arg = ANull ∨ ∃ v, arg = AVar v) →
  keeps (Some (11 * slow)) (real_ioctl_call fd request arg : M (shim W) _) (answered request arg) s.
Proof.
  intros Hq Hv. unfold real_ioctl_call. apply kept_get.
  destruct (negb _); [by apply kept_ret; [room|apply answered_self]|].
  apply kept_call_then; [done|]. pose proof (ioctl_shape (F := F) (frames := frames) fd request arg (world s)) as Hsh.
  pose proof (λ v rc e v', ioctl_var (F := F) (frames := frames) fd v (world s) rc e v') as Hvar.
  pose proof (λ b rc e fd' phys size, ioctl_size (F := F) (frames := frames) b fd (world s) rc e fd' phys size) as Hsize.
  destruct (fst (do_sys (SIoctl fd request arg) (world s))) as [[rc e] arg'] eqn:Er.
  eapply (kept_bind _ 0 _ _ (λ _ _, True)).
  { apply kept_when; [room| |by intros]. intros _. apply kept_modify; [room| |same_tables|done|done]. by intros []. }
  intros _ s1 _ _ _ _. apply kept_ret; [room|]. split; [exact Hsh|]. simpl. split.
  - intros -> -> v' ->. destruct (Hv eq_refl) as [->|[v ->]]; [done|]. by eapply Hvar.
  - intros -> -> b fd' phys size -> Hb ->. by eapply Hsize.
Qed.

Lemma answered_fix request arg arg1 arg2 rc arg3 s s' :
  same_shape arg arg1 → (request = FBIOGET_VSCREENINFO ∨ request = ION_IOC_CUSTOM → arg1 = arg) →
  answered request arg1 (rc, arg2) s →
  arg3 = arg2 ∨ (∃ v px, arg2 = AVar v ∧ arg3 = AVar (with_pixclock px v)) → answered request arg (rc, arg3) s'.
Proof.
  intros Hsh1 He (Hsh2 & Hv & Hi) H3. split_and!; simpl in *.
  - destruct H3 as [->|(v & px & -> & ->)]; destruct arg, arg1; try done; by destruct arg2.
  - intros Hr Hrc v E. destruct H3 as [->|(v' & px & -> & ->)]; [by eapply Hv|].
    injection E as <-. exact (Hv Hr Hrc v' eq_refl).
  - intros Hr Hrc b fd' phys size Ea Hb E. rewrite (He (or_intror Hr)) in Hi.
    destruct H3 as [->|(v' & px & -> & ->)]; [by eapply Hi|done].
Qed.

#[export] Instance ioctl_waits `{!Calm} n : IoWaits (ioctl (S n)).
Proof.
  intros fd s. cbn [ioctl]. apply kept_get. eapply (kept_bind _ slow _ _ (λ _ _, True)).
  { apply kept_when; [room| |by intros]. intros _. apply kept_call_then; [done|]. apply kept_col; [room|done..]. }
  intros _ s1 _ _ _ _. eapply kept_bind; [apply kept_hook_none|]. intros _ s2 _ _ _ _.
  change (fix_argument WAITFORVSYNC (AWord 0)) with (mret (M := M (shim W)) (AWord 0)).
  eapply (kept_bind _ 0 _ _ (λ a _, a = AWord 0)); [by apply kept_ret; [room|]|]. intros _ s3 _ _ _ ->.
  eapply kept_bind; [by apply kept_real_ioctl; [apply calm_wait|]|]. intros [rc arg] s4 _ _ _ [Hsh _]. destruct arg; try done.
  destruct (rc =? 0); [|apply kept_ret; [unfold one_wait; room|done]].
  eapply (kept_bind _ 0 _ _ anything); [|intros; apply kept_ret; [unfold one_wait; room|done]].
  cbn [a1000_fix_vsync_period]. apply kept_ret; [room|done].
Qed.
#[export] Instance ioctl_ok `{!Calm} n : IoOk (ioctl (S (S n))).
Proof.
  intros fd request arg s Ha Hq. remember (S n) as k eqn:Ek. cbn [ioctl]. apply kept_get.
  eapply (kept_then _ _ anything).
  { apply kept_when; [done| |by intros]. intros _. apply kept_call_then; [done|]. by apply kept_col. }
  intros _ s1 _ _ _ _. eapply kept_bind; [apply kept_hook_none|]. intros _ s2 _ _ _ _.
  eapply kept_then; [by apply kept_fix_argument|]. intros arg1 s3 _ _ _ [Hsh1 He].
  assert (Hv : request = FBIOGET_VSCREENINFO → arg1 = ANull ∨ ∃ v, arg1 = AVar v).
  { intros Hr. rewrite (He (or_introl Hr)). destruct Ha as [|(_ & _ & Hv)]; [by left|right; auto]. }
  eapply kept_bind; [by apply kept_real_ioctl|]. intros [rc arg2] s4 _ _ _ Hans.
  destruct (rc =? 0); [|apply kept_ret; [done|by eapply answered_fix; eauto]].
  eapply kept_then; [subst k; apply kept_fix_vsync; [apply _|]|].
  { intros Hr. destruct Hans as [Hsh2 _]. destruct (Hv Hr) as [->|[v ->]], arg2; try done; eauto. }
  intros arg3 s5 _ _ _ H3. apply kept_ret; [done|]. by eapply answered_fix.
Qed.
End io.
#[export] Instance calm_nothing {W} `{!System W} : Calm (R := anything_goes (W := W)).
Proof. done. Qed.
