(* ===== verification/ShimSpec.v ===== *)
(** * Display shim: the theorems

    What clients can do, and when it is safe; which frame is shown, once, in place or by
    the vendor; that the frame rate that is told is the one that was measured, and how
    deep [ioctl] calls itself; that no descriptor of a buffer is lost; and that a frame
    is permuted once, however often it is presented. *)

From S2P Require Import Prelude CMonad DispcTypes Dispc ShimPixels Shim ShimSafe.

Section spec.
Context {W : Type} `{!System W}.

(** ** Clients

    A device or a module is used through the function pointer it has; one that is not
    known cannot be used. *)
Inductive entry : Type :=
  | EIoctl (fd request : Z) (arg : ioctl_arg)
  | EGetModule (id : option string)
  | EOpen (m : Z) (id : option string)
  | EPost (dev : Z) (buffer : option handle)
  | EComplete (dev : Z)
  | EGetPhys (fd : Z)
  | EInvalidate (fd handle_fd : Z).

Definition enter (e : entry) : M (shim W) unit :=
  match e with
  | EIoctl fd request arg => ioctl deep fd request arg ;; mret tt
  | EGetModule id => hw_get_module id ;; mret tt
  | EOpen m id =>
      s ← get; match modules s !! m with Some f => run_open deep f m id ;; mret tt | None => mret tt end
  | EPost dev buffer =>
      s ← get; match devices s !! dev with Some f => run_post deep f dev buffer ;; mret tt | None => mret tt end
  | EComplete dev =>
      s ← get; match devices s !! dev with Some _ => shim_compositionComplete (ioctl deep) dev ;; mret tt | None => mret tt end
  | EGetPhys fd => sprdshim_mhi_get_phys fd ;; mret tt
  | EInvalidate fd handle_fd => ion_invalidate_fd fd handle_fd ;; mret tt
  end.
Fixpoint enter_all (l : list entry) : M (shim W) unit :=
  match l with [] => mret tt | e :: l => enter e ;; enter_all l end.

(** The library as it is loaded. *)
Definition color_loaded : color :=
  mk_color (replicate FDMAP (0, 0)) 0 (replicate PHYSMAP (0, 0, 0)) 0 (-2) (-1) (-1) 0 0 0 (-1) false.
Definition fbpost_loaded : fbpost :=
  mk_fbpost (-2) (-2) None 0 0 0 false true true false false None 0 0 (-1) None (-1) false false.
Definition loaded (w : W) : shim W := mk_shim color_loaded fbpost_loaded ∅ ∅ 0 [] w.

End spec.

(** ** Whatever the system does

    Without any assumption on clients or system: the functions that were replaced are
    the vendor's and remembered, the tables keep their size, and nothing runs out of
    fuel. *)

Section tame.
Context {W : Type} `{!System W}.
Implicit Types s : shim W.

Record hooked s : Prop := {
  hk_open : g_real_hw_open (zp s) ≠ Some a1000_gralloc_open_fn;
  hk_post : g_real_post (zp s) ≠ Some a1000_overlay_post_fn;
  hk_devices d : devices s !! d = Some a1000_overlay_post_fn → is_Some (g_real_post (zp s));
  hk_modules m : modules s !! m = Some a1000_gralloc_open_fn → is_Some (g_real_hw_open (zp s));
  hk_fds : length (g_fd (col s)) = FDMAP;
  hk_phys : length (g_phys (col s)) = PHYSMAP }.

Definition ended {A} (Q : shim W → Prop) (o : outcome (shim W) A) : Prop :=
  match o with Ret _ s' => Q s' | Undefined => True | _ => False end.
Definition tame {A} (m : M (shim W) A) s : Prop := hooked s → ended hooked (m s).

Lemma tame_bind {A B} (m : M (shim W) A) (k : A → M (shim W) B) s :
  tame m s → (∀ a s', tame (k a) s') → tame (m ≫= k) s.
Proof. unfold tame, mbind, M_bind. intros Hm Hk Hs. specialize (Hm Hs). destruct (m s); [by apply Hk|done..]. Qed.
Lemma tame_get {A} (k : shim W → M (shim W) A) s : tame (k s) s → tame (get ≫= k) s.
Proof. done. Qed.
Lemma tame_hooked {A} (m : M (shim W) A) s : (hooked s → tame m s) → tame m s.
Proof. unfold tame. auto. Qed.
Lemma tame_zp f s : g_real_hw_open (f (zp s)) = g_real_hw_open (zp s) → g_real_post (f (zp s)) = g_real_post (zp s) →
  tame (mod_zp f) s.
Proof. intros E1 E2 []. unfold mod_zp, modify, ended. split; cbn; rewrite ?E1, ?E2; assumption. Qed.
Lemma tame_col f s : length (g_fd (f (col s))) = length (g_fd (col s)) → length (g_phys (f (col s))) = length (g_phys (col s)) →
  tame (mod_col f) s.
Proof. intros E1 E2 []. unfold mod_col, modify, ended. split; cbn -[FDMAP PHYSMAP]; rewrite ?E1, ?E2; assumption. Qed.

Lemma tame_ret {A} (a : A) s : tame (mret a) s.
Proof. intros Hs. exact Hs. Qed.
Lemma tame_require b s : tame (require b) s.
Proof. destruct b; [apply tame_ret|done]. Qed.
Lemma tame_call {A} (e : sys A) s : tame (call e) s.
Proof. intros []. by split. Qed.
Lemma tame_errno x s : tame (modify (set_errno x)) s.
Proof. intros []. by split. Qed.

(** By the text of the function. *)
Ltac tame_body :=
  repeat match goal with
  | H : ∀ _, tame ?m _ |- tame ?m _ => apply H
  | |- tame (get ≫= _) _ => apply tame_get
  | |- tame (_ ≫= _) _ => apply tame_bind; [|intros ? ?]
  | |- tame (when_ ?b _) _ => destruct b; cbn [when_]
  | |- tame (match ?x with _ => _ end) _ => destruct x
  | |- tame (require _) _ => apply tame_require
  | |- tame (mod_zp _) _ => by apply tame_zp
  | |- tame (mod_col _) _ => apply tame_col; cbn; by rewrite ?length_insert
  | |- tame (call _) _ => apply tame_call
  | |- tame (mret _) _ => apply tame_ret
  | |- tame undefined _ => done
  | |- tame (modify (set_errno _)) _ => apply tame_errno
  | |- tame _ _ => solve [eauto with tame]
  end.

Lemma tame_property key default s : tame (property_flag key default) s.
Proof. unfold property_flag. tame_body. Qed.
Lemma tame_fbopen s : tame a1000_fbopen s.
Proof. unfold a1000_fbopen. tame_body. Qed.
#[local] Hint Resolve tame_property tame_fbopen : tame.

Lemma tame_patch_factory m s : tame (a1000_patch_factory m) s.
Proof.
  unfold a1000_patch_factory. apply tame_hooked. intros Hs. apply tame_get.
  destruct (g_real_hw_open (zp s)) eqn:Eo; [by apply tame_ret|]. destruct m as [m|]; [|intros; apply tame_ret].
  destruct (modules s !! m) as [f|] eqn:Em; [|intros; apply tame_ret].
  assert (Hf : f ≠ a1000_gralloc_open_fn). { intros ->. destruct (hk_modules _ Hs m Em). congruence. }
  apply tame_bind; [tame_body|]. intros rc s1. destruct (truthy rc); [by apply tame_ret|].
  intros []. cbn. split; cbn -[FDMAP PHYSMAP]; try assumption; [congruence|]. by eexists.
Qed.
Lemma tame_get_module id s : tame (real_hw_get_module id) s.
Proof.
  unfold real_hw_get_module. apply tame_bind; [tame_body|]. intros [rc [[m methods]|]] s1; [|intros; apply tame_ret].
  apply tame_bind; [|intros; apply tame_ret]. intros [? ? ? Hmod ? ?]. cbn.
  split; cbn -[FDMAP PHYSMAP]; try assumption. intros m'.
  destruct (modules s1 !! m) eqn:E, methods as [n|]; [exact (Hmod m')..| |exact (Hmod m')].
  destruct (decide (m = m')) as [->|]; [by rewrite lookup_insert_eq|]. rewrite lookup_insert_ne by done. exact (Hmod m').
Qed.
#[local] Hint Resolve tame_patch_factory tame_get_module : tame.
Lemma tame_hw_get_module id s : tame (hw_get_module id) s.
Proof. unfold hw_get_module. tame_body. Qed.
#[local] Hint Resolve tame_hw_get_module : tame.
Lemma tame_hook_factory s : tame a1000_hook_gralloc_factory s.
Proof. unfold a1000_hook_gralloc_factory. tame_body. Qed.
#[local] Hint Resolve tame_hook_factory : tame.
Lemma tame_hook_none io s : tame (a1000_zc_hook_fb io None) s.
Proof. unfold a1000_zc_hook_fb, a1000_patch_post. tame_body. Qed.
Lemma tame_real_ioctl fd request arg s : tame (real_ioctl_call fd request arg) s.
Proof. unfold real_ioctl_call. tame_body. Qed.
Lemma tame_elapsed t0 t1 u d s : tame (elapsed t0 t1 u d : M (shim W) Z) s.
Proof. apply tame_bind; [apply tame_require|]. intros. apply tame_ret. Qed.
#[local] Hint Resolve tame_hook_none tame_real_ioctl tame_elapsed : tame.

Lemma tame_fd_slot fd s : tame (fd_slot fd) s.
Proof. unfold fd_slot. tame_body. Qed.
Lemma tame_process fd len npix r s : tame (process_mapped fd len npix r) s.
Proof. unfold process_mapped. tame_body. Qed.
#[local] Hint Resolve tame_fd_slot tame_process : tame.
Lemma tame_rotate_once fd len npix s : tame (rotate_once fd len npix) s.
Proof. unfold rotate_once, slot_hash, set_slot_hash. tame_body. Qed.
#[local] Hint Resolve tame_rotate_once : tame.
Lemma tame_fix_argument request arg s : tame (fix_argument request arg) s.
Proof.
  unfold fix_argument, handle_osd, handle_layer, pin_buffer, find_hwcolor, scan_hwcolor, rotate_osd. tame_body.
Qed.
#[local] Hint Resolve tame_fix_argument : tame.
Lemma tame_record phys fd len s : tame (sprdcolor_record phys fd len) s.
Proof. unfold sprdcolor_record, close_kept. tame_body. Qed.
#[local] Hint Resolve tame_record : tame.

(** *** [ioctl], and the functions that call it *)

Lemma fix_vsync_other io fd request arg : request ≠ FBIOGET_VSCREENINFO →
  a1000_fix_vsync_period io fd request arg = mret (M := M (shim W)) arg.
Proof. intros Hr%Z.eqb_neq. unfold a1000_fix_vsync_period. rewrite Hr. by destruct arg. Qed.

Lemma tame_wait n fd s : tame (ioctl (S n) fd WAITFORVSYNC (AWord 0)) s.
Proof.
  assert (∀ arg s, tame (a1000_fix_vsync_period (ioctl n) fd WAITFORVSYNC arg) s) as Hv.
  { intros. rewrite fix_vsync_other by done. apply tame_ret. }
  cbn [ioctl]. tame_body.
Qed.

Section io.
Context (io : ioctl_fn (W := W)) (tame_waits : ∀ fd s, tame (io fd WAITFORVSYNC (AWord 0)) s).

Lemma tame_pulses n fd s : tame (wait_pulses io n fd) s.
Proof. revert s. induction n as [|n IH]; intros s; cbn [wait_pulses]; tame_body. Qed.
Lemma tame_wait_vsync s : tame (a1000_wait_vsync io) s.
Proof using tame_waits. unfold a1000_wait_vsync. tame_body. Qed.
Lemma tame_fix_vsync fd request arg s : tame (a1000_fix_vsync_period io fd request arg) s.
Proof using tame_waits.
  pose proof tame_pulses. unfold a1000_fix_vsync_period, a1000_measure_period. tame_body.
Qed.
End io.

Lemma tame_ioctl n fd request arg s : tame (ioctl (S (S n)) fd request arg) s.
Proof.
  remember (S n) as k eqn:Ek. cbn [ioctl].
  assert (∀ arg s, tame (a1000_fix_vsync_period (ioctl k) fd request arg) s) as Hv.
  { intros. subst k. apply tame_fix_vsync, tame_wait. }
  tame_body.
Qed.
Lemma tame_deep fd request arg s : tame (ioctl deep fd request arg) s.
Proof. apply tame_ioctl. Qed.
#[local] Hint Resolve tame_deep : tame.

Section any.
Context (io : ioctl_fn (W := W)) (tame_io : ∀ fd request arg s, tame (io fd request arg) s).

Lemma tame_nested l s : tame (run_nested io l) s.
Proof using tame_io. revert s. induction l as [|[[fd request] arg] l IH]; intros s; cbn [run_nested]; tame_body. Qed.

(** A device is patched at most once, and what it did before is remembered first. *)
Lemma tame_patch_post dev s : tame (a1000_patch_post io dev) s.
Proof using tame_io.
  unfold a1000_patch_post. apply tame_bind; [tame_body|]. intros _ s1. destruct dev as [d|]; [|apply tame_ret].
  apply tame_get. destruct (devices s1 !! d) as [f|]; [|done]. case_bool_decide as Hf; [apply tame_ret|].
  destruct (_ <? 0); [apply tame_ret|]. apply tame_bind; [tame_body|]. intros [rc arg] s2.
  destruct (truthy rc); [apply tame_ret|]. destruct arg; try done. intros []. unfold ended, mbind, M_bind, mod_zp, modify.
  split; cbn -[FDMAP PHYSMAP Z.mul]; try assumption; [congruence|by eexists].
Qed.
Lemma tame_hook_fb dev s : tame (a1000_zc_hook_fb io dev) s.
Proof using tame_io. pose proof tame_patch_post. unfold a1000_zc_hook_fb. tame_body. Qed.
Lemma tame_show b s : tame (show_in_place io b) s.
Proof using tame_io.
  assert (∀ want fds s, tame (try_fds io want fds) s) as Hf.
  { intros want fds. induction fds as [|fd fds IH]; intros s1; cbn [try_fds]; tame_body. }
  assert (∀ s, tame (a1000_wait_vsync io) s) as Hw by (intros; by apply tame_wait_vsync).
  unfold show_in_place, a1000_phys_of, a1000_sync_gpu, flip_frame, overlay_frame_post. tame_body.
Qed.
End any.
#[local] Hint Resolve tame_hook_fb tame_show tame_patch_post tame_nested : tame.

(** *** Every entry *)

Lemma tame_vendor_post m n dev b s : tame (run_post (S m) (VendorPost n) dev b) s.
Proof. cbn [run_post]. tame_body. Qed.
Lemma tame_run_post f dev b s : tame (run_post deep f dev b) s.
Proof.
  destruct f as [n|]; [apply (tame_vendor_post 2)|]. change (run_post deep) with (run_post (W := W) 3). cbn [run_post].
  unfold a1000_overlay_post. apply tame_bind; [tame_body|]. intros [] s1; [apply tame_ret|].
  apply tame_hooked. intros Hs. apply tame_get. pose proof (hk_post _ Hs) as Hp.
  destruct (g_real_post (zp s1)) as [[n|]|]; [apply (tame_vendor_post 1)|done|apply tame_ret].
Qed.
Lemma tame_vendor_open m n md id s : tame (run_open (S m) (VendorOpen n) md id) s.
Proof.
  cbn [run_open]. apply tame_bind; [tame_body|]. intros [[l rc] r] s1. apply tame_bind; [tame_body|]. intros _ s2.
  apply tame_bind; [|intros; apply tame_ret]. unfold new_device. destruct r as [[d p]|]; [|apply tame_ret].
  intros [? ? Hdev ? ? ?]. split; cbn -[FDMAP PHYSMAP]; try assumption. intros x Hx. apply Hdev with x.
  destruct (decide (x = d)) as [->|]; [by rewrite lookup_insert_eq in Hx|by rewrite lookup_insert_ne in Hx].
Qed.
Lemma tame_run_open f md id s : tame (run_open deep f md id) s.
Proof.
  destruct f as [n|]; [apply (tame_vendor_open 2)|]. change (run_open deep) with (run_open (W := W) 3). cbn [run_open].
  apply tame_hooked. intros Hs. apply tame_get. pose proof (hk_open _ Hs) as Ho.
  destruct (g_real_hw_open (zp s)) as [[n|]|]; [|done|tame_body].
  apply tame_bind; [apply (tame_vendor_open 1)|]. intros. tame_body.
Qed.
#[local] Hint Resolve tame_run_post tame_run_open : tame.

Lemma tame_enter e s : tame (enter e) s.
Proof.
  destruct e; cbn [enter]; unfold shim_compositionComplete, sprdshim_mhi_get_phys, ion_invalidate_fd; tame_body.
Qed.
Lemma tame_enter_all l s : tame (enter_all l) s.
Proof. revert s. induction l as [|e l IH]; intros s; cbn [enter_all]; [apply tame_ret|]. apply tame_bind; [apply tame_enter|]. auto. Qed.

Lemma loaded_hooked w : hooked (loaded w).
Proof. by split. Qed.
End tame.

(** ** Clients and systems that keep to their contracts *)

Section spec.
Context {W : Type} `{!System W} {F : Z} {frames : Z → Prop} `{!SystemOk W F frames}.
Abbreviation ok := (ok (F := F)).
Implicit Types s : shim W.

(** What a client must not do: pass a request the wrong argument or a rectangle larger
    than a frame, or register a buffer that is smaller. *)
Definition entry_ok (e : entry) : Prop :=
  match e with
  | EIoctl _ request arg => arg_ok F request arg
  | EGetPhys fd => frames fd
  | _ => True
  end.

Lemma loaded_ok (w : W) : ok (loaded w).
Proof.
  pose proof (frame_range (W := W) (F := F) (frames := frames)).
  split; cbn -[Z.mul FDMAP PHYSMAP]; try done.
  - split; [apply length_replicate|unfold FDMAP; lia].
  - split; [apply length_replicate|unfold PHYSMAP; lia].
  - apply Forall_replicate. by left.
  - change (u16 0) with 0. lia.
Qed.

(** ** Every entry *)

Section entries.
Abbreviation keeps := (keeps (F := F) (frames := frames) (R := anything_goes)).
Lemma all_quiet : ∀ r, w_quiet (R := anything_goes) r = true.
Proof. done. Qed.

Lemma kept_vendor_post n dev b k s : w_loud (R := anything_goes) = true →
  keeps None ('(l, rc) ← call (SVendorPost n dev b); run_nested (ioctl (S (S k))) l ;; mret rc) anything s.
Proof.
  intros _. apply kept_call_then; [done|].
  pose proof (post_nested (F := F) (frames := frames) n dev b (world s)) as Hn.
  destruct (fst (do_sys (SVendorPost n dev b) (world s))) as [l rc]. eapply kept_then; [by apply kept_nested; [apply _..| |]|]. intros. by apply kept_ret.
Qed.
(** The function that was replaced is never the one of the library, so a fuel of two is enough. *)
Lemma kept_run_post f dev b s k : keeps None (run_post (S (S k)) f dev b) anything s.
Proof.
  destruct f as [n|]; [by apply kept_vendor_post|].
  apply kept_overlay_post; [apply _..|done|]. intros [n|] s' Hn; [by apply kept_vendor_post|done].
Qed.
Lemma kept_vendor_open n m id k s :
  keeps None ('(l, rc, r) ← call (SVendorOpen n m id); run_nested (ioctl (S (S k))) l ;; d ← new_device r; mret (rc, d))
    (λ r s', ∀ d, snd r = Some d → is_Some (devices s' !! d)) s.
Proof.
  apply kept_call_then; [done|]. pose proof (open_nested (F := F) (frames := frames) n m id (world s)) as Hn.
  destruct (fst (do_sys (SVendorOpen n m id) (world s))) as [[l rc] r]. eapply kept_then; [by apply kept_nested; [apply _..| |]|]. intros _ s1 _ _ _ _.
  eapply (kept_then _ _ (λ d s', ∀ x, d = Some x → is_Some (devices s' !! x))); [|intros; by apply kept_ret].
  unfold new_device. destruct r as [[d p]|]; [|by apply kept_ret].
  eapply (kept_then _ _ (λ _ s', is_Some (devices s' !! d))); [|intros; apply kept_ret; [done|by intros x [= <-]]].
  apply kept_modify; [done| | |done|].
  - intros [? ? Hdev ? ? ? ? ?]. split; cbn -[Z.mul]; try assumption. intros x Hx. apply Hdev with x.
    destruct (decide (x = d)) as [->|]; [by rewrite lookup_insert_eq in Hx|by rewrite lookup_insert_ne in Hx].
  - split; [|intros Hx; exact Hx]. intros x Hx. cbn. destruct (decide (x = d)) as [->|]; [rewrite lookup_insert_eq; by eexists|by rewrite lookup_insert_ne].
  - cbn. rewrite lookup_insert_eq. by eexists.
Qed.
Lemma kept_run_open f m id s k : keeps None (run_open (S (S k)) f m id) anything s.
Proof.
  destruct f as [n|]; [eapply kept_any, kept_vendor_open|].
  cbn [run_open]. apply kept_ok. intros Hs. apply kept_get.
  eapply (kept_then _ _ (λ r s', ∀ d, snd r = Some d → is_Some (devices s' !! d))).
  { pose proof (ok_open _ Hs) as Ho. destruct (g_real_hw_open (zp s)) as [[n|]|]; [apply kept_vendor_open|done|by apply kept_ret]. }
  intros [rc d] s1 _ _ _ Hd. eapply (kept_then _ _ anything); [|intros; by apply kept_ret].
  apply kept_when; [done| |by intros]. intros _. by apply kept_patch_post; [apply _..|].
Qed.
Lemma kept_invalidate fd h s : keeps None (ion_invalidate_fd fd h : M (shim W) Z) anything s.
Proof.
  unfold ion_invalidate_fd. apply kept_call_then; [done|]. destruct (_ =? 0); [by apply kept_ret|].
  apply kept_call_then; [done|]. destruct (fst _) as [rc fd']. destruct (_ && _); [|by apply kept_ret].
  apply kept_call_then; [done|]. apply kept_call_then; [done|]. by apply kept_ret.
Qed.
Lemma kept_get_phys fd s : frames fd → keeps None (sprdshim_mhi_get_phys fd) anything s.
Proof.
  intros Hf. unfold sprdshim_mhi_get_phys. apply kept_call_then; [done|]. destruct (_ <? 0); [by apply kept_ret|].
  eapply kept_then; [apply (io_any (io := ioctl deep)); [apply arg_ok_ion|done]|]. intros [rc arg] s1 _ _ _ (Hsh & _ & Hi).
  apply kept_call_then; [done|]. unfold truthy. destruct (Z.eqb_spec rc 0) as [->|]; [|by apply kept_ret]. simpl negb. cbn match.
  destruct arg; try done. eapply (kept_then _ _ anything); [|intros; by apply kept_ret].
  apply kept_record. by eapply Hi.
Qed.
Lemma kept_entry e s : entry_ok e → keeps None (enter e) anything s.
Proof.
  intros He. destruct e as [fd request arg|id|m id|dev b|dev|fd|fd h]; cbn [enter].
  - eapply kept_then; [by apply (io_any (io := ioctl deep))|]. intros. by apply kept_ret.
  - eapply kept_then; [eapply kept_free, kept_hw_get_module|]. intros. by apply kept_ret.
  - apply kept_get. destruct (_ !! _); [|by apply kept_ret].
    eapply kept_then; [apply kept_run_open|]. intros. by apply kept_ret.
  - apply kept_get. destruct (_ !! _); [|by apply kept_ret].
    eapply kept_then; [apply kept_run_post|]. intros. by apply kept_ret.
  - apply kept_get. destruct (devices s !! dev) eqn:E; [|by apply kept_ret].
    eapply kept_then; [apply kept_composition; [apply _..|done|by eexists]|]. intros. by apply kept_ret.
  - eapply kept_then; [by apply kept_get_phys|]. intros. by apply kept_ret.
  - eapply kept_then; [apply kept_invalidate|]. intros. by apply kept_ret.
Qed.
Lemma kept_entries l s : Forall entry_ok l → keeps None (enter_all l) anything s.
Proof.
  intros Hl. revert s. induction Hl as [|e l He Hl IH]; intros s; cbn [enter_all]; [by apply kept_ret|].
  eapply kept_then; [by apply kept_entry|]. intros. apply IH.
Qed.
End entries.

End spec.

(** C15: Whatever the clients do, with any system: every call returns or is undefined, no
    hook calls itself for ever; what the library calls in place of a function it replaced
    is a function of the vendor, a device or module is only replaced after that was
    remembered, and the tables keep their size.  And nothing is undefined, that is, no
    pointer that is not there is followed, no buffer is read or written beyond its
    mapping and no time computation leaves its 32 bits, when requests come with their
    own arguments, rectangles are no larger than a frame and registered buffers no
    smaller, and the clock advances by no more than what calls may take. *)
Theorem shim_safe {W} `{!System W} (w : W) l :
  ended (λ s', g_real_post (zp s') ≠ Some a1000_overlay_post_fn ∧
    g_real_hw_open (zp s') ≠ Some a1000_gralloc_open_fn ∧
    (∀ d, devices s' !! d = Some a1000_overlay_post_fn → is_Some (g_real_post (zp s'))) ∧
    (∀ m, modules s' !! m = Some a1000_gralloc_open_fn → is_Some (g_real_hw_open (zp s'))) ∧
    length (g_fd (col s')) = FDMAP ∧ length (g_phys (col s')) = PHYSMAP) (enter_all l (loaded w)) ∧
  ∀ F frames, SystemOk W F frames → Forall (entry_ok (F := F) (frames := frames)) l →
    enter_all l (loaded w) ≠ Undefined.
Proof.
  split.
  - pose proof (tame_enter_all l (loaded w) (loaded_hooked w)) as Ht.
    destruct (enter_all l (loaded w)) as [[] s'| | |]; try done. destruct Ht. by split_and!.
  - intros F frames Hok Hl. pose proof (kept_entries l (loaded w) Hl (loaded_ok w)) as Hw. unfold wp in Hw.
    by destruct (enter_all l (loaded w)).
Qed.

(** The other side: a rectangle that is larger than the buffer it is presented from is
    read beyond the mapping. *)
Theorem large_rectangle_overruns {W} `{!System W} o i p bfd len (s : shim W) :
  list_find (λ e, fst (fst e) = i_buffer o) (g_phys (col s)) = Some (i, (p, bfd, len)) → 0 <= bfd → 0 < len →
  page_up len < 4 * u32 (r_w (i_rect o) * r_h (i_rect o)) → fst (do_sys (SMmap bfd len) (world s)) = true →
  rotate_osd o s = Undefined.
Proof.
  intros Hf Hb Hl Hp Hm. unfold rotate_osd. unfold mbind at 1, M_bind at 1, get. rewrite Hf. cbv beta iota zeta.
  assert (truthy len = true) as -> by (unfold truthy; destruct (Z.eqb_spec len 0); [lia|done]).
  assert ((bfd <? 0) = false) as -> by lia. unfold mbind at 1, M_bind at 1, call. rewrite Hm. cbn [negb].
  unfold rotate_once, process_mapped. assert ((4 * u32 (r_w (i_rect o) * r_h (i_rect o)) <=? page_up len) = false) as -> by lia.
  unfold mbind, M_bind. match goal with |- context [fd_slot bfd ?x] => set (s1 := x) end. 
  assert (∃ j s2, fd_slot bfd s1 = Ret j s2) as (j & s2 & ->); [|done].
  clear Hf. unfold fd_slot, mbind, M_bind, get. destruct (list_find _ _) as [[? ?]|]; [eexists _, _; reflexivity|].
  destruct (list_find _ _) as [[? ?]|]; eexists _, _; reflexivity.
Qed.

(** * What becomes of a frame, and of the frame rate *)

(** ** What is shown, and by whom

    A request that changes what is on the panel and is accepted, or the post of the vendor. *)

Inductive showing : Type := Accepted (fd request : Z) (arg : ioctl_arg) | ByVendor (n dev buffer rc : Z).

Definition shows_frame (request : Z) : bool :=
  (request =? PAGEFLIP) || (request =? SET_OVERLAY) || (request =? DISPLAY_OVERLAY).
Definition showing_of (e : event) : option showing :=
  match e with
  | Ev e a =>
      match e in sys A return A → option showing with
      | SIoctl fd request arg => λ r, if shows_frame request && (fst (fst r) =? 0) then Some (Accepted fd request arg) else None
      | SVendorPost n dev b => λ r, Some (ByVendor n dev b (snd r))
      | _ => λ _, None
      end a
  end.
Definition showings (l : list event) : list showing := omap showing_of l.
Definition by_vendor (x : showing) : bool := match x with ByVendor _ _ _ _ => true | _ => false end.

(** ** What the way of a frame leaves alone

    The node of the frame buffer once it is open, the size of the display, the post that
    was replaced; and the buffer that is pinned, but for the request that pins it. *)

Section calm.
Context {W : Type} `{!System W}.
Implicit Types s : shim W.

Definition calm s s' : Prop :=
  (0 <= g_fbfd (zp s) → g_fbfd (zp s') = g_fbfd (zp s)) ∧
  (g_zc_w (zp s'), g_zc_h (zp s'), g_zc_frame (zp s'), g_real_post (zp s')) =
    (g_zc_w (zp s), g_zc_h (zp s), g_zc_frame (zp s), g_real_post (zp s)) ∧
  (pin (col s'), pin_off (col s')) = (pin (col s), pin_off (col s)).
#[export] Instance calm_preorder : PreOrder calm.
Proof.
  split; [by intros s|]. intros s1 s2 s3 (F1 & Z1 & P1) (F2 & Z2 & P2). split; [|split; congruence].
  intros Hf. rewrite F2; rewrite F1; done.
Qed.

Definition calms {A} (m : M (shim W) A) : Prop := ∀ s a s', m s = Ret a s' → calm s s'.

Lemma calms_bind {A B} (m : M (shim W) A) (k : A → M (shim W) B) : calms m → (∀ a, calms (k a)) → calms (m ≫= k).
Proof.
  intros Hm Hk s b s' E. apply bind_ret_inv in E as (a & s1 & E1 & E2).
  transitivity s1; [by eapply Hm|by eapply Hk].
Qed.
Lemma calms_get {A} (k : shim W → M (shim W) A) : (∀ s a s', k s s = Ret a s' → calm s s') → calms (get ≫= k).
Proof. intros Hk s a s' E. apply bind_ret_inv in E as (s0 & s1 & [= <- <-] & E). by eapply Hk. Qed.
Lemma calms_call {A} (e : sys A) : calms (call e).
Proof. by intros s a s' [= _ <-]. Qed.
Lemma calms_ret {A} (a : A) : calms (mret a).
Proof. by intros s b s' [= _ <-]. Qed.

(** By the text of the function: the fields it sets are others. *)
Ltac calms_body :=
  repeat match goal with
  | |- ∀ _, calms _ => intros ?
  | H : calms ?m |- calms ?m => exact H
  | |- calms (_ ≫= _) => apply calms_bind
  | |- calms (call _) => apply calms_call
  | |- calms (when_ ?b _) => destruct b; cbn [when_]
  | |- calms (match ?x with _ => _ end) => destruct x
  | |- calms (mod_zp _) => by (intros ? ? ? [= _ <-]; split_and!)
  | |- calms (mod_col _) => by (intros ? ? ? [= _ <-]; split_and!)
  | |- calms (modify _) => by (intros ? ? ? [= _ <-]; split_and!)
  | |- calms _ => by (intros ? ? ? E; discriminate E)
  | |- calms _ => by (intros ? ? ? [= _ <-])
  end.
Ltac calms_auto := calms_body; eauto with calms.

Lemma calms_property key default : calms (property_flag key default).
Proof. unfold property_flag. calms_body. Qed.
Lemma calms_require b : calms (require b).
Proof. destruct b; calms_body. Qed.
#[local] Hint Resolve calms_property calms_require : calms.
Lemma calms_fbopen : calms a1000_fbopen.
Proof.
  unfold a1000_fbopen. apply calms_get. intros s a s' E. destruct (Z.eqb_spec (g_fbfd (zp s)) (-2)) as [E2|]; cbn [when_] in E.
  - apply bind_ret_inv in E as (fd & s1 & [= <- <-] & [= _ <-]). split_and!; try done. cbn. lia.
  - by injection E as _ <-.
Qed.
Lemma calms_patch_factory m : calms (a1000_patch_factory m).
Proof. unfold a1000_patch_factory. calms_body. Qed.
Lemma calms_get_module id : calms (real_hw_get_module id).
Proof. unfold real_hw_get_module. calms_body. Qed.
#[local] Hint Resolve calms_fbopen calms_patch_factory calms_get_module : calms.
Lemma calms_hw_get_module id : calms (hw_get_module id).
Proof. unfold hw_get_module. calms_auto. Qed.
#[local] Hint Resolve calms_hw_get_module : calms.
Lemma calms_hook_factory : calms a1000_hook_gralloc_factory.
Proof. unfold a1000_hook_gralloc_factory. calms_auto. Qed.
#[local] Hint Resolve calms_hook_factory : calms.
Lemma calms_hook_none io : calms (a1000_zc_hook_fb io None).
Proof. unfold a1000_zc_hook_fb, a1000_patch_post. calms_auto. Qed.
Lemma calms_real_ioctl fd request arg : calms (real_ioctl_call fd request arg).
Proof. unfold real_ioctl_call. calms_auto. Qed.
#[local] Hint Resolve calms_hook_none calms_real_ioctl : calms.
Lemma calms_sync_gpu b : calms (a1000_sync_gpu b).
Proof. unfold a1000_sync_gpu. calms_auto. Qed.

(** *** The colours *)

Lemma calms_fd_slot fd : calms (fd_slot fd).
Proof. unfold fd_slot. calms_auto. Qed.
Lemma calms_process fd len npix r : calms (process_mapped fd len npix r).
Proof. unfold process_mapped. calms_auto. Qed.
#[local] Hint Resolve calms_fd_slot calms_process : calms.
Lemma calms_rotate_once fd len npix : calms (rotate_once fd len npix).
Proof. unfold rotate_once, slot_hash, set_slot_hash. calms_auto. Qed.
#[local] Hint Resolve calms_rotate_once : calms.
Lemma calms_rotate_osd o : calms (rotate_osd o).
Proof. unfold rotate_osd. calms_auto. Qed.
Lemma calms_find_hwcolor : calms find_hwcolor.
Proof. unfold find_hwcolor, scan_hwcolor. calms_auto. Qed.
#[local] Hint Resolve calms_rotate_osd calms_find_hwcolor : calms.

(** The buffer the layer gets: the one it was asked for, or the one that is pinned. *)
Definition layer_buffer s (asked given : Z) : Prop :=
  given = asked ∨ pin_off (col s) <= 0 ∧ pin (col s) ≠ 0 ∧ given = pin (col s).
(** A layer with this address, and otherwise that of a whole frame. *)
Definition frame_layer s (phys : Z) (o : overlay_info) : Prop :=
  i_layer_index o = LAYER_OSD ∧ i_data_type o = FORMAT_RGB888 ∧
  i_rect o = mk_rect 0 0 (u16 (g_zc_w (zp s))) (u16 (g_zc_h (zp s))) ∧ layer_buffer s (u32 phys) (i_buffer o).

(** What follows the pin: the colours. *)
Definition osd_colours (o : overlay_info) : M (shim W) overlay_info :=
  find_hwcolor ;;
  s ← get;
  if truthy (g_sweep (col s)) then mret (with_order (g_hw_endian (col s)) (truthy (u8 (g_hw_rb (col s)))) o) else
  when_ (g_cpucolor (col s) =? -1)
    (b ← call (SExists "/data/gsp_nocpucolor"); mod_col (set_g_cpucolor (if b : bool then 0 else 1))) ;;
  s ← get;
  when_ (truthy (g_cpucolor (col s))) (rotate_osd o) ;;
  mret o.
Lemma calms_osd_colours o : calms (osd_colours o).
Proof. unfold osd_colours. calms_auto. Qed.

(** Setting the layer up keeps all of the state but the pin, and of the layer all but the
    order of its colours and, when it is pinned, its address. *)
Definition set_up s s' (o o' : overlay_info) : Prop :=
  (g_fbfd (zp s'), g_zc_w (zp s'), g_zc_h (zp s'), g_zc_frame (zp s'), g_real_post (zp s')) =
    (g_fbfd (zp s), g_zc_w (zp s), g_zc_h (zp s), g_zc_frame (zp s), g_real_post (zp s)) ∧
  i_layer_index o' = i_layer_index o ∧ i_data_type o' = i_data_type o ∧ i_rect o' = i_rect o ∧
  layer_buffer s (i_buffer o) (i_buffer o').

Lemma pin_buffer_exact o o' s s' : pin_buffer o s = Ret o' s' → set_up s s' o o'.
Proof.
  unfold pin_buffer. intros E. apply bind_ret_inv in E as (s0 & s1 & [= <- <-] & E).
  apply bind_ret_inv in E as ([] & s1 & E1 & E).
  assert (zp s1 = zp s ∧ pin (col s1) = pin (col s) ∧ (0 < pin_off (col s) → pin_off (col s1) = pin_off (col s))) as (Ez & Ep & Eo).
  { unfold when_ in E1. destruct (Z.ltb_spec (pin_off (col s)) 0); [|by injection E1 as <-].
    apply bind_ret_inv in E1 as (b & s2 & [= _ <-] & [= <-]). cbn. split_and!; try done. lia. }
  apply bind_ret_inv in E as (s0 & s2 & [= <- <-] & E).
  destruct (truthy (pin_off (col s1))) eqn:Et.
  { injection E as <- <-. unfold set_up, layer_buffer. rewrite Ez. split_and!; try done. by left. }
  apply bind_ret_inv in E as ([] & s2 & E2 & E). apply bind_ret_inv in E as (s0 & s3 & [= <- <-] & [= <- <-]).
  assert (zp s2 = zp s1 ∧ pin (col s2) = if pin (col s1) =? 0 then i_buffer o else pin (col s1)) as [Ez2 Ep2].
  { unfold when_ in E2. destruct (pin (col s1) =? 0); by injection E2 as <-. }
  unfold set_up, layer_buffer. rewrite Ez2, Ez. split_and!; try done. cbn [with_buffer i_buffer]. rewrite Ep2, Ep.
  destruct (Z.eqb_spec (pin (col s)) 0); [by left|right]. split; [|done].
  destruct (Z.le_gt_cases (pin_off (col s)) 0) as [|Hgt]; [done|].
  rewrite (Eo Hgt) in Et. unfold truthy in Et. destruct (Z.eqb_spec (pin_off (col s)) 0); [lia|done].
Qed.

Lemma osd_order o o' s s' : osd_colours o s = Ret o' s' →
  i_layer_index o' = i_layer_index o ∧ i_data_type o' = i_data_type o ∧ i_rect o' = i_rect o ∧ i_buffer o' = i_buffer o.
Proof.
  unfold osd_colours. intros E. apply bind_ret_inv in E as ([] & s1 & _ & E). apply bind_ret_inv in E as (s0 & s2 & [= <- <-] & E).
  destruct (truthy (g_sweep (col s1))); [by injection E as <- <-|].
  apply bind_ret_inv in E as ([] & s2 & _ & E). apply bind_ret_inv in E as (s0 & s3 & [= <- <-] & E).
  apply bind_ret_inv in E as ([] & s3 & _ & [= <- <-]). done.
Qed.

Lemma handle_osd_exact o o' s s' : handle_osd o s = Ret o' s' → 0 <= g_fbfd (zp s) → set_up s s' o o'.
Proof.
  intros E Hf. unfold handle_osd in E.
  assert (set_up s s o o) as Hself by (split_and!; try done; by left).
  destruct (_ || _); [by injection E as <- <-|]. destruct (_ || _); [by injection E as <- <-|].
  apply bind_ret_inv in E as (o1 & s1 & E1 & E). apply pin_buffer_exact in E1 as (Ez & E2 & E3 & E4 & Hb).
  pose proof (calms_osd_colours o1 s1 o' s' E) as (Hfd & Hz & _). apply osd_order in E as (F1 & F2 & F3 & F4).
  injection Ez as Ez1 Ez2 Ez3 Ez4 Ez5. injection Hz as Hz1 Hz2 Hz3 Hz4.
  unfold set_up. rewrite F1, F2, F3, F4. split_and!; try done. rewrite Hfd, Hz1, Hz2, Hz3, Hz4 by lia. congruence.
Qed.
End calm.

Section frame.
Context {W : Type} `{!System W} {F : Z} {frames : Z → Prop} `{!SystemOk W F frames}.
Abbreviation keeps R := (keeps (F := F) (frames := frames) (R := R)).
Abbreviation ok := (ok (F := F)).
Implicit Types s : shim W.

(** The calls from [s] to [s'] show [l]. *)
Definition adds (l : list showing) s s' : Prop := ∃ tr, trace s' = trace s ++ tr ∧ showings tr = l.
(** Nothing is shown; and nothing is shown by a vendor. *)
Definition same_showings : relation (shim W) := adds [].
Definition more_in_place s s' : Prop := ∃ l, adds l s s' ∧ Forall (λ x, by_vendor x = false) l.

Lemma adds_trans l1 l2 s1 s2 s3 : adds l1 s1 s2 → adds l2 s2 s3 → adds (l1 ++ l2) s1 s3.
Proof.
  intros (t1 & E1 & <-) (t2 & E2 & <-). exists (t1 ++ t2). rewrite E2, E1, app_assoc. split; [done|]. apply omap_app.
Qed.
Lemma adds_same s s' : trace s' = trace s → adds [] s s'.
Proof. intros E. exists []. by rewrite E, app_nil_r. Qed.
Lemma adds_called {A} (e : sys A) s : adds (option_list (showing_of (Ev e (fst (do_sys e (world s)))))) s (called e s).
Proof. eexists. split; [reflexivity|]. cbn [showings omap list_omap]. by destruct (showing_of _). Qed.

#[local] Instance watch_same : Watch same_showings.
Proof.
  refine {| w_quiet r := negb (shows_frame r); w_loud := false |}.
  - split; [intros s; by apply adds_same|]. intros s1 s2 s3. apply (adds_trans [] []).
  - intros s s' E _. by apply adds_same.
  - intros A e s He. pose proof (adds_called e s) as Ha.
    destruct e; cbn -[shows_frame] in *; try done. by destruct (shows_frame request).
Defined.
#[local] Instance watch_more : Watch more_in_place.
Proof.
  refine {| w_quiet r := true; w_loud := false |}.
  - split; [intros s; exists []; split; [by apply adds_same|done]|]. intros s1 s2 s3 (l1 & E1 & H1) (l2 & E2 & H2).
    exists (l1 ++ l2). split; [by eapply adds_trans|by apply Forall_app].
  - intros s s' E _. exists []. split; [by apply adds_same|done].
  - intros A e s He. eexists. split; [apply adds_called|]. destruct e; cbn -[shows_frame] in *; try done.
    destruct (_ && _); by repeat constructor.
Defined.
#[local] Instance calm_same : Calm (R := same_showings).
Proof. done. Qed.
#[local] Instance calm_more : Calm (R := more_in_place).
Proof. done. Qed.

(** What was watched, as a fact about the result. *)
Lemma kept_watched R `{!Watch R} {A} (m : M (shim W) A) Q s : keeps R None m Q s →
  keeps anything_goes None m (λ a s', Q a s' ∧ R s s') s.
Proof. intros Hm Hs. eapply wp_mono; [by apply Hm|]. intros a s' (? & [? ?] & ? & ?). done. Qed.
Lemma kept_run {A} R `{!Watch R} (m : M (shim W) A) Q s : keeps R None m Q s →
  keeps R None m (λ a s', Q a s' ∧ m s = Ret a s') s.
Proof.
  intros Hm Hs. destruct (wp_run _ _ _ (Hm Hs)) as (a & s' & E & H1 & H2 & H3 & H4). unfold wp. rewrite E.
  exact (conj H1 (conj H2 (conj H3 (conj H4 eq_refl)))).
Qed.
Lemma kept_and {A} R `{!Watch R} (m : M (shim W) A) P Q s :
  keeps R None m P s → keeps R None m Q s → keeps R None m (λ a s', P a s' ∧ Q a s') s.
Proof.
  intros Hp Hq Hs. destruct (wp_run _ _ _ (Hp Hs)) as (a & s' & E & H1 & H2 & H3 & H4). specialize (Hq Hs).
  unfold wp in *. rewrite E in *. destruct Hq as (_ & _ & _ & H5). exact (conj H1 (conj H2 (conj H3 (conj H4 H5)))).
Qed.
(** What shows nothing, and leaves the rest of the way alone. *)
Definition quietly {A} (m : M (shim W) A) (Q : A → shim W → Prop) s : Prop :=
  keeps anything_goes None m (λ a s', Q a s' ∧ adds [] s s' ∧ calm s s') s.
Lemma kept_seen {A} (m : M (shim W) A) Q s : keeps same_showings None m Q s →
  keeps anything_goes None m (λ a s', Q a s' ∧ adds [] s s' ∧ m s = Ret a s') s.
Proof.
  intros Hm. pose proof (kept_run anything_goes _ _ _ (kept_watched same_showings _ _ _ Hm)) as Hr.
  eapply kept_mono; [exact Hr|]. by intros a s' _ _ [[? ?] E].
Qed.
Lemma kept_quietly {A} (m : M (shim W) A) Q s : keeps same_showings None m Q s → calms m → quietly m Q s.
Proof.
  intros Hm Hc. eapply kept_mono; [by apply kept_seen|]. intros a s' _ _ (? & ? & E).
  split; [done|]. split; [done|by eapply Hc].
Qed.

(** ** What a request asks of the system *)

(** The request reached the system as [arg1], and all else showed nothing. *)
Definition asked (fd request : Z) (arg1 : ioctl_arg) s (r : Z * ioctl_arg) s' : Prop := ∃ tr,
  trace s' = trace s ++ tr ∧
  if fst r =? 0 then ∃ tr1 e, tr = tr1 ++ [Ev (SIoctl fd request arg1) (0, e, snd r)] ∧ showings tr1 = []
  else showings tr = [].

Lemma real_ioctl_asked fd request arg s :
  keeps anything_goes None (real_ioctl_call fd request arg) (λ r s', asked fd request arg s r s') s.
Proof.
  unfold real_ioctl_call. apply kept_get. destruct (negb _).
  { apply kept_ret; [done|]. exists []. by rewrite app_nil_r. }
  apply kept_call_then; [done|].
  assert (trace (called (SIoctl fd request arg) s) = trace s ++ [Ev (SIoctl fd request arg) (fst (do_sys (SIoctl fd request arg) (world s)))]) as Et by done.
  destruct (fst (do_sys (SIoctl fd request arg) (world s))) as [[rc e] arg2].
  eapply (kept_then _ _ (λ _ s', asked fd request arg s (rc, arg2) s')); [|intros; by apply kept_ret].
  assert (asked fd request arg s (rc, arg2) (called (SIoctl fd request arg) s)) as Ha.
  { eexists. split; [exact Et|]. cbn [fst snd]. destruct (Z.eqb_spec rc 0) as [->|Hn].
    - exists [], e. done.
    - cbn. apply Z.eqb_neq in Hn. by rewrite Hn, andb_false_r. }
  apply kept_when; [done| |done]. intros _. apply kept_modify; [done| |same_tables|done|exact Ha]. by intros [].
Qed.

(** Every request but the one for the screen information is made once, with the
    argument [fix_argument] makes of it. *)
Lemma ioctl_asked k fd request arg s : request ≠ FBIOGET_VSCREENINFO → arg_ok F request arg →
  keeps anything_goes None (ioctl (S k) fd request arg) (λ r s', ∃ s1 arg1 s2,
    adds [] s s1 ∧ calm s s1 ∧ fix_argument request arg s1 = Ret arg1 s2 ∧ adds [] s1 s2 ∧ calm s2 s' ∧
    asked fd request arg1 s2 r s') s.
Proof.
  intros Hr Ha. cbn [ioctl]. apply kept_get. eapply kept_then.
  { apply kept_quietly.
    - apply (kept_when _ _ _ anything); [done| |by intros]. intros _. apply kept_call_then; [done|]. by apply kept_col.
    - unfold when_. destruct (negb _); [|by intros ? ? ? [= _ <-]].
      apply calms_bind; [apply calms_call|]. intros b s1 a s2 [= _ <-]. done. }
  intros [] s1 _ _ _ (_ & T1 & C1). eapply kept_then; [apply kept_quietly; [eapply kept_free, kept_hook_none|apply calms_hook_none]|].
  intros [] s2 _ _ _ (_ & T2 & C2). eapply kept_then; [by apply kept_seen, kept_fix_argument|].
  intros arg1 s3 _ _ _ (_ & T3 & E3).
  pose proof (adds_trans _ _ _ _ _ T1 T2) as T12. assert (calm s s2) as C12 by (by transitivity s1).
  eapply kept_then; [apply (kept_run anything_goes), real_ioctl_asked|]. intros [rc arg2] s4 _ _ _ [Hk Er]. apply calms_real_ioctl in Er.
  destruct (rc =? 0).
  - rewrite fix_vsync_other by done. eapply kept_then; [by apply (kept_ret _ _ (λ a s', a = arg2 ∧ s' = s4))|].
    intros ? ? _ _ _ [-> ->]. apply kept_ret; [done|]. by exists s2, arg1, s3.
  - apply kept_ret; [done|]. by exists s2, arg1, s3.
Qed.

(** A request whose argument is passed on as it is. *)
Lemma ioctl_plain k fd request arg s : request ≠ FBIOGET_VSCREENINFO → arg_ok F request arg →
  fix_argument request arg = mret arg →
  keeps anything_goes None (ioctl (S k) fd request arg) (λ r s', asked fd request arg s r s' ∧ calm s s') s.
Proof.
  intros Hr Ha Hp. eapply kept_mono; [by apply ioctl_asked|].
  intros r s' _ _ (s1 & arg1 & s2 & (t1 & E1 & N1) & C1 & Ef & _ & C2 & tr & Et & Hk).
  rewrite Hp in Ef. injection Ef as <- <-. split; [|by transitivity s1]. exists (t1 ++ tr).
  rewrite Et, E1, app_assoc. split; [done|]. destruct (fst r =? 0).
  - destruct Hk as (tr1 & e & -> & Hn). exists (t1 ++ tr1), e. rewrite app_assoc. split; [done|].
    unfold showings in *. by rewrite omap_app, N1, Hn.
  - unfold showings in *. by rewrite omap_app, N1, Hk.
Qed.
Lemma asked_shows fd request arg s r s' : shows_frame request = true → asked fd request arg s r s' →
  adds (if fst r =? 0 then [Accepted fd request arg] else []) s s'.
Proof.
  intros Hr (tr & Et & Hk). exists tr. split; [done|]. destruct (fst r =? 0); [|done].
  destruct Hk as (tr1 & e & -> & Hn). unfold showings in *. rewrite omap_app, Hn. cbn. by rewrite Hr.
Qed.

(** ** The address of a buffer *)

(** The driver told this address, on the way from [s] to [s'], for a descriptor of the
    buffer, with at least [want] bytes behind it. *)
Definition told_address (fds : list Z) (want phys : Z) s s' : Prop :=
  phys ≠ 0 ∧ ∃ fd ion e fd' size, fd ∈ fds ∧ want <= size ∧
    Ev (SIoctl ion ION_IOC_CUSTOM (AIon fd 0 0)) (0, e, AIon fd' phys size) ∈ drop (length (trace s)) (trace s').
Definition later s s' : Prop := ∃ tr, trace s' = trace s ++ tr.

Lemma adds_later l s s' : adds l s s' → later s s'.
Proof. intros (tr & E & _). by exists tr. Qed.
Lemma told_later fds fds' want phys s s1 s2 s' : told_address fds want phys s1 s2 → (∀ fd, fd ∈ fds → fd ∈ fds') →
  later s s1 → later s1 s2 → later s2 s' → told_address fds' want phys s s'.
Proof.
  intros (Hp & fd & ion & e & fd' & size & Hfd & Hw & Hev) Hsub (t1 & E1) (t2 & E2) (t3 & E3). split; [done|].
  exists fd, ion, e, fd', size. split; [auto|]. split; [done|].
  rewrite E2, drop_app_length in Hev. rewrite E3, E2, E1, <- !app_assoc, drop_app_length. set_solver.
Qed.

Lemma asked_later fd request arg s r s' : asked fd request arg s r s' → later s s'.
Proof. intros (tr & E & _). by exists tr. Qed.
Lemma later_refl s : later s s.
Proof. exists []. by rewrite app_nil_r. Qed.

Lemma asked_quiet fd request arg s r s' : shows_frame request = false → asked fd request arg s r s' → adds [] s s'.
Proof.
  intros Hr (tr & Et & Hk). exists tr. split; [done|]. destruct (fst r =? 0); [|done].
  destruct Hk as (tr1 & e & -> & Hn). unfold showings in *. rewrite omap_app, Hn. cbn. by rewrite Hr.
Qed.

Lemma try_fds_told k want fds s : keeps anything_goes None (try_fds (ioctl (S (S k))) want fds)
  (λ phys s', adds [] s s' ∧ calm s s' ∧ (phys ≠ 0 → told_address fds want phys s s')) s.
Proof.
  revert s. induction fds as [|fd fds IH]; intros s; cbn [try_fds]; [apply kept_ret; [done|]; by split; [apply adds_same|]|].
  apply kept_get. eapply kept_then.
  { apply (kept_and anything_goes); [by apply ioctl_plain; [|apply arg_ok_ion|]|].
    apply (io_any (R := anything_goes) (io := ioctl (S (S k)))); [apply arg_ok_ion|done]. }
  intros [rc arg] s1 _ _ _ [[Hk C1] [Hsh _]]. cbn [snd] in Hsh. destruct arg as [| | | | |fd' phys size| |]; try done.
  assert (adds [] s s1) as T1 by (by eapply asked_quiet, Hk).
  destruct ((rc =? 0) && truthy phys && (want <=? size)) eqn:Ec.
  - apply kept_ret; [done|]. split; [done|]. split; [done|]. intros Hp. split; [done|].
    rewrite !andb_true_iff in Ec. destruct Ec as [[Erc _] Hw%Z.leb_le]. destruct Hk as (tr & Et & Hk). cbn [fst snd] in Hk.
    rewrite Erc in Hk. destruct Hk as (tr1 & e & -> & _). exists fd, (g_ionfd (zp s)), e, fd', size.
    split; [by left|]. split; [done|]. rewrite Et, drop_app_length. set_solver.
  - eapply kept_mono; [apply IH|]. intros p s2 _ _ (T2 & C2 & Hp). split; [by apply (adds_trans [] [] _ s1)|].
    split; [by transitivity s1|]. intros Hp0. eapply told_later; [by apply Hp| |by eapply adds_later|by eapply adds_later|apply later_refl].
    set_solver.
Qed.

Definition fds_of (b : option handle) : list Z := match b with Some h => h_fds h | None => [] end.

Lemma phys_of_told k b want s : keeps anything_goes None (a1000_phys_of (ioctl (S (S k))) b want)
  (λ phys s', adds [] s s' ∧ calm s s' ∧ (phys ≠ 0 → told_address (fds_of b) want phys s s')) s.
Proof.
  unfold a1000_phys_of. destruct b as [h|]; [|apply kept_ret; [done|]; by split; [apply adds_same|]].
  destruct (_ =? 0)%nat; [apply kept_ret; [done|]; by split; [apply adds_same|]|].
  apply kept_get. eapply kept_then.
  { apply kept_quietly.
    - apply (kept_when _ _ _ anything); [done| |by intros]. intros _. apply kept_call_then; [done|]. by apply kept_zp.
    - unfold when_. destruct (_ =? _); [|by intros ? ? ? [= _ <-]].
      apply calms_bind; [apply calms_call|]. intros b s1 a s2 [= _ <-]. done. }
  intros [] s1 _ _ _ (_ & T1 & C1). apply kept_get. destruct (_ <? 0); [by apply kept_ret; [done|]|].
  eapply kept_mono; [apply try_fds_told|]. intros p s2 _ _ (T2 & C2 & Hp). split; [by apply (adds_trans [] [] _ s1)|].
  split; [by transitivity s1|]. intros Hp0. eapply told_later; [by apply Hp|done|by eapply adds_later..|apply later_refl].
Qed.

(** ** A frame that is posted *)

Lemma flip_exact k phys s : keeps anything_goes None (flip_frame (ioctl (S k)) phys)
  (λ b s', calm s s' ∧ adds (if b : bool then [Accepted (g_fbfd (zp s)) PAGEFLIP (AWord (u32 phys))] else []) s s') s.
Proof.
  unfold flip_frame. apply kept_get. destruct (_ || _); [apply kept_ret; [done|]; split; [done|by apply adds_same]|].
  eapply kept_then; [by apply ioctl_plain; [|apply arg_ok_word|]|]. intros [rc arg] s1 _ _ _ [Hk C1].
  apply asked_shows in Hk; [|done]. cbn [fst] in Hk. destruct (rc =? 0); [by apply kept_ret|]. apply kept_get.
  eapply kept_then.
  { apply kept_quietly; [apply (kept_when _ _ _ anything); [done| |by intros]; intros _; by apply kept_zp|].
    unfold when_. destruct (_ =? _); by intros ? ? ? [= _ <-]. }
  intros [] s2 _ _ _ (_ & T2 & C2).
  eapply kept_then; [apply kept_quietly; [by apply (kept_zp _ _ anything)|by intros ? ? ? [= _ <-]]|].
  intros [] s3 _ _ _ (_ & T3 & C3). apply kept_ret; [done|]. split; [transitivity s1; [done|by transitivity s2]|].
  apply (adds_trans [] [] _ s1); [done|]. by apply (adds_trans [] [] _ s2).
Qed.

(** What the library keeps when a layer is set up. *)
Definition same_zp s s' : Prop :=
  (g_fbfd (zp s'), g_zc_w (zp s'), g_zc_h (zp s'), g_zc_frame (zp s'), g_real_post (zp s')) =
    (g_fbfd (zp s), g_zc_w (zp s), g_zc_h (zp s), g_zc_frame (zp s), g_real_post (zp s)).
Lemma calm_zp s s' : 0 <= g_fbfd (zp s) → calm s s' → same_zp s s'.
Proof. intros Hf (Hfd & [= E1 E2 E3 E4] & _). unfold same_zp. rewrite Hfd by done. congruence. Qed.
Lemma same_zp_trans s1 s2 s3 : same_zp s1 s2 → same_zp s2 s3 → same_zp s1 s3.
Proof. unfold same_zp. congruence. Qed.

Lemma calm_layer s s' phys o : calm s s' → frame_layer s' phys o → frame_layer s phys o.
Proof. intros (_ & [= E1 E2 _ _] & [= P1 P2]). unfold frame_layer, layer_buffer. by rewrite E1, E2, P1, P2. Qed.

Definition set_request s (o : overlay_info) : showing := Accepted (g_fbfd (zp s)) SET_OVERLAY (AInfo o).
Definition display_request s : showing := Accepted (g_fbfd (zp s)) DISPLAY_OVERLAY
  (ADisplay (mk_display LAYER_OSD (mk_rect 0 0 (u16 (g_zc_w (zp s))) (u16 (g_zc_h (zp s)))) 0)).
Definition flip_request s (phys : Z) : showing := Accepted (g_fbfd (zp s)) PAGEFLIP (AWord (u32 phys)).

Lemma set_layer_exact k phys s : ok s → 0 <= g_fbfd (zp s) →
  keeps anything_goes None (ioctl (S k) (g_fbfd (zp s)) SET_OVERLAY (AInfo (frame_info s phys)))
    (λ r s', ∃ o, frame_layer s phys o ∧ same_zp s s' ∧ adds (if fst r =? 0 then [set_request s o] else []) s s') s.
Proof.
  intros Hs Hf. eapply kept_mono; [apply ioctl_asked; [done|]; by apply arg_ok_info, frame_rect_fits|].
  intros r s' _ _ (s1 & arg1 & s2 & T1 & C1 & Ef & T2 & C2 & Hk).
  change (fix_argument SET_OVERLAY (AInfo (frame_info s phys)))
    with (o ← handle_osd (frame_info s phys); mret (M := M (shim W)) (AInfo o)) in Ef.
  apply bind_ret_inv in Ef as (o & s3 & Eo & [= <- <-]). pose proof (calm_zp _ _ Hf C1) as Z1.
  assert (0 <= g_fbfd (zp s1)) as Hf1 by (injection Z1 as ->; done).
  destruct (handle_osd_exact _ _ _ _ Eo Hf1) as (Z2 & L1 & L2 & L3 & Hb).
  assert (0 <= g_fbfd (zp s3)) as Hf3 by (injection Z2 as ->; done).
  exists o. split; [|split].
  - split_and!; try done. destruct C1 as (_ & _ & [= P1 P2]). unfold layer_buffer in *. by rewrite <- P1, <- P2.
  - eapply same_zp_trans; [exact Z1|]. eapply same_zp_trans; [exact Z2|by apply calm_zp].
  - apply asked_shows in Hk; [|done]. apply (adds_trans [] _ _ s1); [done|]. by apply (adds_trans [] _ _ s3).
Qed.

Lemma show_layer_exact k phys s : 0 <= g_fbfd (zp s) →
  keeps anything_goes None (overlay_frame_post (ioctl (S (S k))) phys) (λ b s', ∃ o, frame_layer s phys o ∧
    if b : bool then adds [set_request s o; display_request s] s s'
    else same_zp s s' ∧ (adds [] s s' ∨ adds [set_request s o] s s')) s.
Proof.
  intros Hf. unfold overlay_frame_post. apply kept_ok. intros Hs. apply kept_get.
  eapply kept_then; [by apply set_layer_exact|]. intros [rc arg] s1 _ _ _ (o & Ho & Z1 & T1). cbn [fst] in T1. unfold truthy.
  destruct (rc =? 0); cbn [negb]; [|apply kept_ret; [done|]; exists o; auto]. apply kept_get.
  eapply kept_then; [by apply ioctl_plain; [|apply arg_ok_display|]|]. intros [rc' arg'] s2 _ _ _ [Hk C2].
  apply asked_shows in Hk; [|done]. cbn [fst] in Hk.
  assert (0 <= g_fbfd (zp s1)) as Hf1 by (injection Z1 as ->; done). pose proof (adds_trans _ _ _ _ _ T1 Hk) as T2.
  destruct (rc' =? 0); cbn [negb].
  2: { apply kept_ret; [done|]. exists o. split; [done|]. split; [|right; by rewrite app_nil_r in T2].
    eapply same_zp_trans; [exact Z1|by apply calm_zp]. }
  apply kept_get. eapply kept_then.
  { apply kept_seen, (kept_when _ _ _ anything); [done| |by intros]. intros _. apply kept_wait_vsync; apply _. }
  intros [] s3 _ _ _ (_ & T3 & _). eapply kept_then; [apply kept_seen; by apply (kept_zp _ _ anything)|].
  intros [] s4 _ _ _ (_ & T4 & _). apply kept_ret; [done|]. exists o. split; [done|].
  pose proof (adds_trans _ _ _ _ _ T2 (adds_trans _ _ _ _ _ T3 T4)) as T. cbn [app] in T.
  unfold display_request. injection Z1 as E1 E2 E3 E4 E5. rewrite <- E1, <- E2, <- E3. unfold set_request in *. by rewrite E1 in *.
Qed.

(** What is shown in place: the buffer that was posted, at an address the driver told
    for it, by a flip, or by a layer of the size of a frame. *)
Definition in_place (b : option handle) s s' (phys : Z) : Prop := told_address (fds_of b) (g_zc_frame (zp s)) phys s s'.

Lemma show_in_place_exact k b s : keeps anything_goes None (show_in_place (ioctl (S (S k))) b)
  (λ r s', if r : bool
    then ∃ phys, in_place b s s' phys ∧ (adds [flip_request s phys] s s' ∨
      ∃ o, frame_layer s phys o ∧ adds [set_request s o; display_request s] s s')
    else g_real_post (zp s') = g_real_post (zp s) ∧ (adds [] s s' ∨
      ∃ phys o, in_place b s s' phys ∧ frame_layer s phys o ∧ adds [set_request s o] s s')) s.
Proof.
  unfold show_in_place. apply kept_get. destruct (g_zc_off (zp s)); simpl orb.
  { apply kept_ret; [done|]. split; [done|]. left. by apply adds_same. }
  destruct (Z.ltb_spec (g_fbfd (zp s)) 0) as [|Hf]; [apply kept_ret; [done|]; split; [done|]; left; by apply adds_same|].
  eapply kept_then; [apply phys_of_told|]. intros phys s1 _ _ _ (T1 & C1 & Ht).
  pose proof (calm_zp _ _ Hf C1) as [= F1 W1 H1 Z1 P1]. destruct (Z.eqb_spec phys 0) as [|Hp].
  { eapply kept_then; [apply kept_quietly; [by apply (kept_zp _ _ anything)|by intros ? ? ? [= _ <-]]|].
    intros [] s2 _ _ _ (_ & T2 & (_ & [= _ _ _ P2] & _)). apply kept_ret; [done|]. split; [congruence|]. left.
    by apply (adds_trans [] [] _ s1). }
  eapply kept_then; [apply kept_quietly; [apply kept_sync_gpu|apply calms_sync_gpu]|]. intros [] s2 _ _ _ (_ & T2 & C2).
  pose proof (adds_trans [] [] _ _ _ T1 T2) as T12. assert (calm s s2) as C12 by (by transitivity s1).
  eapply kept_then; [apply flip_exact|]. intros flipped s3 _ _ _ [C3 T3].
  pose proof (calm_zp _ _ Hf C12) as [= F2 W2 H2 Z2 P2].
  assert (∀ s', later s2 s' → in_place b s s' phys) as Hin.
  { intros s' Hl. eapply told_later; [by apply Ht|done|by exists []; rewrite app_nil_r|by eapply adds_later|].
    destruct T2 as (t2 & E2 & _), Hl as (t & E). exists (t2 ++ t). by rewrite E, E2, app_assoc. }
  destruct flipped.
  { apply kept_ret; [done|]. exists phys. split; [apply Hin; by eapply adds_later|]. left. unfold flip_request.
    rewrite <- F2. by apply (adds_trans [] _ _ s2). }
  assert (calm s s3) as C13 by (by transitivity s2). pose proof (calm_zp _ _ Hf C13) as [= F3 W3 H3 Z3 P3].
  pose proof (adds_trans [] [] _ _ _ T12 T3) as T13.
  eapply kept_mono; [apply show_layer_exact; lia|]. intros r s4 _ _ (o & Ho & Hr). apply (calm_layer s) in Ho; [|done].
  unfold set_request, display_request in *. rewrite F3, W3, H3 in Hr.
  assert (∀ l, adds l s3 s4 → adds l s s4 ∧ in_place b s s4 phys) as Hadd.
  { intros l Hl. split; [by apply (adds_trans [] _ _ s3)|]. apply Hin. apply (adds_later l). by apply (adds_trans [] _ _ s3). }
  destruct r.
  - destruct (Hadd _ Hr). exists phys. split; [done|]. right. by exists o.
  - destruct Hr as ([= F4 W4 H4 Z4 P4] & [Hr|Hr]); destruct (Hadd _ Hr); (split; [congruence|]); [by left|right].
    by exists phys, o.
Qed.

Definition id_of (b : option handle) : Z := match b with Some h => h_id h | None => 0 end.

Lemma vendor_shows n dev b k s : keeps anything_goes None (run_post (S k) (VendorPost n) dev b)
  (λ rc s', ∃ l, adds (ByVendor n dev (id_of b) rc :: l) s s' ∧ Forall (λ x, by_vendor x = false) l) s.
Proof.
  cbn [run_post]. fold (id_of b). apply kept_call_then; [done|].
  pose proof (adds_called (SVendorPost n dev (id_of b)) s) as E1. cbn [showing_of] in E1.
  pose proof (post_nested (F := F) (frames := frames) n dev (id_of b) (world s)) as Hl.
  destruct (fst (do_sys (SVendorPost n dev (id_of b)) (world s))) as [l rc]. cbn [fst snd] in *.
  eapply kept_then; [by apply (kept_watched more_in_place); apply (kept_nested (ioctl deep))|].
  intros [] s2 _ _ _ [_ (l' & E2 & Hl')]. apply kept_ret; [done|]. exists l'. split; [|done].
  by apply (adds_trans [_] _ _ _ _ E1).
Qed.

(** What the post of the buffer [b] may show, with the result [rc]. *)
Inductive posted (dev : Z) (b : option handle) s s' : Z → Prop :=
  | by_flip phys : in_place b s s' phys → adds [Accepted (g_fbfd (zp s)) PAGEFLIP (AWord (u32 phys))] s s' →
      posted dev b s s' 0
  | by_layer phys o : in_place b s s' phys → frame_layer s phys o → adds [set_request s o; display_request s] s s' →
      posted dev b s s' 0
  | by_the_vendor n set l rc : g_real_post (zp s) = Some (VendorPost n) →
      (set = [] ∨ ∃ phys o, in_place b s s' phys ∧ frame_layer s phys o ∧ set = [set_request s o]) →
      Forall (λ x, by_vendor x = false) l → adds (set ++ ByVendor n dev (id_of b) rc :: l) s s' →
      posted dev b s s' rc.

(** C8: A frame that is posted through the library, from any state its clients can bring it
    to, is shown once.  Either one flip is accepted, for an address that the driver told,
    on the way, for a descriptor of this buffer with a whole frame behind it; or a layer
    of the size of the frame is accepted and displayed, with that address, unless an
    earlier buffer was pinned, which then has its place; and the post succeeds.  Or the
    post of the vendor that was replaced is called for this buffer, once, and gives the
    result; nothing was displayed before that, and what the vendor shows on its way goes
    through the library as well. *)
Theorem post_shows_once dev b s : ok s → devices s !! dev = Some a1000_overlay_post_fn →
  wp (run_post deep a1000_overlay_post_fn dev b) (λ rc s', posted dev b s s' rc) s.
Proof.
  intros Hs Hdev. change (run_post deep) with (run_post (W := W) 3). cbn [run_post]. unfold a1000_overlay_post.
  apply wp_bind. eapply wp_mono; [by apply (show_in_place_exact 1)|]. intros r s1 (Hs1 & [[_ Hp] _] & _ & Hr).
  destruct r.
  { apply wp_ret. destruct Hr as (phys & Hi & [T|(o & Ho & T)]); [by eapply by_flip|by eapply by_layer]. }
  destruct Hr as [Ep Hr]. apply wp_bind, wp_get.
  pose proof (ok_post _ Hs1) as Hn. destruct (Hp (ok_devices _ Hs _ Hdev)) as [f Ef]. rewrite Ef in *.
  destruct f as [n|]; [|done]. eapply wp_mono; [exact (vendor_shows n dev b 1 s1 Hs1)|].
  intros rc s2 (_ & _ & _ & l & T2 & Hl). pose proof (adds_later _ _ _ T2) as Hl2.
  destruct Hr as [T|(phys & o & Hi & Ho & T)].
  - eapply (by_the_vendor _ _ _ _ n []); [done|by left|exact Hl|]. by apply (adds_trans [] _ _ s1).
  - eapply (by_the_vendor _ _ _ _ n [_]); [done| |exact Hl|by apply (adds_trans [_] _ _ s1)]. right. exists phys, o.
    split_and!; try done. eapply told_later; [exact Hi|done|exists []; by rewrite app_nil_r|by eapply adds_later|done].
Qed.
End frame.

(** * The frame rate that is told, and how deep [ioctl] goes *)

Section rate.
Context {W : Type} `{!System W}.
Implicit Types s : shim W.
Abbreviation ioctl_fn := (ioctl_fn (W := W)).

(** ** The frame rate *)

(** What the period of the panel makes of the pixel clock of [v]: the largest one for
    which a frame takes no longer, if it is sensible. *)
Definition told (period : Z) (v : fb_var_screeninfo) : fb_var_screeninfo :=
  let px := true_pixclock period (xres v) (yres v) in
  if (1000 <? px) && (px <? 1000000) then with_pixclock px v else v.

Lemma true_pixclock_floor p w h : 8000000 < p < 30000000 → 0 < w <= 4096 → 0 < h <= 4096 → 8 <= w * h →
  let px := true_pixclock p w h in px * (w * h) <= p * 1000 < (px + 1) * (w * h).
Proof.
  intros Hp Hw Hh Hwh. unfold true_pixclock.
  rewrite (wrap_small 64 (p * 1000)), (wrap_small 64 (w * h)) by (unfold in_width; nia).
  pose proof (Z.div_mod (p * 1000) (w * h)). pose proof (Z.mod_pos_bound (p * 1000) (w * h)).
  assert (Hq : 0 <= p * 1000 / (w * h) < 2 ^ 32).
  { split; [apply Z.div_pos; lia|]. apply Z.div_lt_upper_bound; nia. }
  rewrite wrap_small by exact Hq. nia.
Qed.

(** Once the period of the panel is known, the screen information that the system
    answers with gets the pixel clock of that period and keeps everything else; the
    clock is exact to one unit, no product overflows, and no further call is made.
    Other requests, and answers without a resolution, are passed on as they are. *)
Theorem fix_vsync_period_exact io fd request v s : truefps (zp s) = 1 → 8000000 < period (zp s) < 30000000 →
  0 <= xres v <= 4096 → 0 <= yres v <= 4096 → (xres v = 0 ∨ yres v = 0 ∨ 8 <= xres v * yres v) →
  a1000_fix_vsync_period io fd request (AVar v) s =
    Ret (AVar (if (request =? FBIOGET_VSCREENINFO) && negb (xres v =? 0) && negb (yres v =? 0)
               then told (period (zp s)) v else v)) s ∧
  (request = FBIOGET_VSCREENINFO → 0 < xres v → 0 < yres v →
     let px := pixclock (told (period (zp s)) v) in
     px = pixclock v ∨
     1000 < px < 1000000 ∧ px * (xres v * yres v) <= period (zp s) * 1000 < (px + 1) * (xres v * yres v)).
Proof.
  intros Ht Hp Hx Hy Hxy. split.
  - cbn [a1000_fix_vsync_period]. destruct (request =? FBIOGET_VSCREENINFO); [|done]. cbn [negb andb].
    assert (Hp0 : (period (zp s) <=? 0) = false) by (apply Z.leb_gt; lia).
    unfold mbind, M_bind, get, when_. rewrite Ht. change (1 =? -1) with false. change (1 =? 0) with false.
    cbv beta iota zeta delta [mret M_ret]. rewrite Ht, Hp0. change (1 =? 0) with false. cbv beta iota. rewrite Hp0.
    destruct (xres v =? 0), (yres v =? 0); try done. cbn [orb andb negb]. unfold told.
    destruct (Z.eqb_spec (true_pixclock (period (zp s)) (xres v) (yres v)) (pixclock v)) as [E|E];
      [|by rewrite andb_true_r; destruct (_ && _)]. rewrite andb_false_r, E. destruct (_ && _); [|done]. by destruct v.
  - intros _ Hx' Hy' px. unfold px, told.
    destruct (1000 <? _) eqn:E1; [|by left]. destruct (_ <? 1000000) eqn:E2; [|by left]. right. cbn [andb with_pixclock pixclock].
    apply Z.ltb_lt in E1, E2. split; [done|]. apply true_pixclock_floor; lia.
Qed.

(** ** Depth *)

Lemma bind_ext {A B} (m m' : M (shim W) A) (k k' : A → M (shim W) B) s :
  (∀ s, m s = m' s) → (∀ a s, k a s = k' a s) → (m ≫= k) s = (m' ≫= k') s.
Proof. intros Hm Hk. unfold mbind, M_bind. rewrite Hm. destruct (m' s); auto. Qed.

(** Two functions that wait for the panel in the same way. *)
Definition same_waits (io io' : ioctl_fn) : Prop := ∀ fd s, io fd WAITFORVSYNC (AWord 0) s = io' fd WAITFORVSYNC (AWord 0) s.

Lemma pulses_ext io io' n fd s : same_waits io io' → wait_pulses io n fd s = wait_pulses io' n fd s.
Proof.
  intros Hio. revert s. induction n as [|n IH]; intros s; [done|]. cbn [wait_pulses].
  apply bind_ext; [intros; apply Hio|]. intros [rc arg] s1. by destruct (rc <? 0).
Qed.
Lemma fix_vsync_ext io io' fd request arg s : same_waits io io' →
  a1000_fix_vsync_period io fd request arg s = a1000_fix_vsync_period io' fd request arg s.
Proof.
  intros Hio. unfold a1000_fix_vsync_period. destruct arg; try done; destruct (negb _); try done;
    (apply bind_ext; [done|intros x s1]; apply bind_ext; [done|intros [] s2]; apply bind_ext; [done|intros y s3];
     destruct (_ =? 0); [done|]; apply bind_ext; [intros s4|done]; unfold when_; destruct (_ <=? 0); [|done];
     apply bind_ext; [|done]; intros s5; unfold a1000_measure_period; apply bind_ext; [intros; by apply pulses_ext|];
     intros a s6; destruct (negb a); [done|]; apply bind_ext; [done|]; intros t0 s7;
     apply bind_ext; [intros; by apply pulses_ext|done]).
Qed.
Lemma ioctl_same_waits n m : same_waits (ioctl (S n)) (ioctl (S m)).
Proof. intros fd s. reflexivity. Qed.

Context {F : Z} {frames : Z → Prop} `{!SystemOk W F frames}.

(** C20: [ioctl] calls itself to measure the frame rate, and only then, and that call does not
    do so again: it returns with a fuel of two, for any request with its own argument, and
    any more fuel makes no difference. *)
Theorem ioctl_terminates fd request arg s : ok (F := F) s → arg_ok F request arg →
  ∃ r s', ok (F := F) s' ∧ ∀ n, ioctl (S (S n)) fd request arg s = Ret r s'.
Proof.
  intros Hs Ha.
  assert (Hk : keeps (F := F) (frames := frames) (R := anything_goes) None (ioctl 2 fd request arg) anything s).
  { eapply kept_any, io_any; [done|]. reflexivity. }
  destruct (wp_run _ _ _ (Hk Hs)) as (r & s' & E & Hs' & _). exists r, s'. split; [done|].
  intros n. rewrite <- E. cbn [ioctl].
  apply bind_ext; [done|intros x s1]. apply bind_ext; [done|intros [] s2]. apply bind_ext; [done|intros [] s3].
  apply bind_ext; [done|intros arg1 s4]. apply bind_ext; [done|intros [rc arg2] s5]. destruct (rc =? 0); [|done].
  apply bind_ext; [|done]. intros s6. by apply fix_vsync_ext, (ioctl_same_waits n 0).
Qed.
End rate.

(** * The two tables *)

Section tables.
Context {W : Type} `{!System W}.
Implicit Types s : shim W.

(** ** Descriptors that are kept *)

Definition duplicate_of (e : event) : option Z :=
  match e with
  | Ev e a => match e in sys A return A → option Z with SDup _ => λ r, if 0 <? r then Some r else None | _ => λ _, None end a
  end.
Definition close_of (e : event) : option Z :=
  match e with Ev e a => match e with SClose fd => Some fd | _ => None end end.
(** The descriptors that were made, given back, and those in the table. *)
Definition duplicates (l : list event) : list Z := omap duplicate_of l.
Definition closes (l : list event) : list Z := omap close_of l.
Definition entry_fd (e : Z * Z * Z) : Z := snd (fst e).
Definition held (t : list (Z * Z * Z)) : list Z := omap (λ e, if 0 <? entry_fd e then Some (entry_fd e) else None) t.

(** The table has its size, and an entry without an address has no descriptor. *)
Definition table_ok (c : color) : Prop :=
  length (g_phys c) = PHYSMAP ∧ (g_physrr c < PHYSMAP)%nat ∧ Forall (λ e, fst (fst e) = 0 → entry_fd e = 0) (g_phys c).

(** What was held and what was made is given back or held. *)
Definition accounted s s' : Prop := ∃ l, trace s' = trace s ++ l ∧
  duplicates l ++ held (g_phys (col s)) ≡ₚ closes l ++ held (g_phys (col s')).

Lemma accounted_refl s : accounted s s.
Proof. exists []. by rewrite app_nil_r. Qed.
Lemma accounted_trans s1 s2 s3 : accounted s1 s2 → accounted s2 s3 → accounted s1 s3.
Proof.
  intros (l1 & E1 & H1) (l2 & E2 & H2). exists (l1 ++ l2). rewrite E2, E1, app_assoc. split; [done|].
  unfold duplicates, closes in *. rewrite !omap_app.
  rewrite (Permutation_app_comm (omap duplicate_of l1)), <- app_assoc, H1, (app_assoc _ _ (held _)),
    (Permutation_app_comm (omap duplicate_of l2)), <- !app_assoc, H2. done.
Qed.

Lemma held_replace t i e e' : t !! i = Some e →
  ∃ rest, held t ≡ₚ held [e] ++ rest ∧ held (<[i := e']> t) ≡ₚ held [e'] ++ rest.
Proof.
  intros He. exists (held (take i t) ++ held (drop (S i) t)).
  assert (Hsw : ∀ x, held (take i t ++ x :: drop (S i) t) ≡ₚ held [x] ++ held (take i t) ++ held (drop (S i) t)).
  { intros x. change (x :: drop (S i) t) with ([x] ++ drop (S i) t). unfold held. rewrite !omap_app.
    rewrite !app_assoc. by rewrite (Permutation_app_comm (omap _ [x])). }
  split; [rewrite <- (take_drop_middle t i e He) at 1; apply Hsw|].
  rewrite insert_take_drop by (by eapply lookup_lt_Some). apply Hsw.
Qed.

Definition closing (fd : Z) : list event := if 0 <? fd then [Ev (SClose fd) tt] else [].
Lemma close_kept_exact fd s : wp (close_kept fd) (λ _ s', col s' = col s ∧ trace s' = trace s ++ closing fd) s.
Proof.
  unfold close_kept, when_, closing. destruct (0 <? fd); [|apply wp_ret; by rewrite app_nil_r].
  unfold wp, call. by destruct (do_sys (SClose fd) (world s)) as [[] w].
Qed.

(** Filling the entry [i], after what it held was given back. *)
Lemma new_entry_exact s0 s i p old l0 phys fd len : table_ok (col s0) → phys ≠ 0 →
  g_phys (col s0) !! i = Some (p, old, l0) → g_phys (col s) = g_phys (col s0) → (g_physrr (col s) < PHYSMAP)%nat →
  trace s = trace s0 ++ closing old →
  wp (dupfd ← call (SDup fd); mod_col (λ c, set_g_phys (<[i := (phys, dupfd, len)]> (g_phys c)) c))
    (λ _ s', table_ok (col s') ∧ accounted s0 s') s.
Proof.
  intros (Hl & Hr & Hz) Hp Hi Et Hr' Htr. apply wp_bind. unfold call, wp, mod_col, modify.
  set (d := fst (do_sys (SDup fd) (world s))). cbn [col set_col set_trace set_world]. split.
  - unfold table_ok. cbn [g_phys g_physrr set_g_phys]. rewrite Et. split; [by rewrite length_insert|]. split; [done|].
    apply Forall_insert; [done|]. by intros.
  - destruct (held_replace _ i _ (phys, d, len) Hi) as (rest & H1 & H2).
    exists (closing old ++ [Ev (SDup fd) d]). cbn [trace set_col g_phys set_g_phys col]. rewrite Htr, Et, app_assoc.
    split; [done|]. rewrite H1, H2. unfold duplicates, closes, closing, held. rewrite !omap_app. cbn.
    destruct (0 <? old) eqn:Eo, (0 <? d) eqn:Ed; cbn; unfold entry_fd; cbn; rewrite ?Eo, ?Ed; cbn; done || apply perm_swap.
Qed.

Lemma record_exact phys fd len s : table_ok (col s) → in_width 32 phys →
  wp (sprdcolor_record phys fd len) (λ _ s', table_ok (col s') ∧ accounted s s') s.
Proof.
  intros Ht Hw. unfold sprdcolor_record. destruct (phys =? 0) eqn:E0; simpl orb.
  { apply wp_ret. split; [done|apply accounted_refl]. }
  destruct (fd <? 0); [apply wp_ret; split; [done|apply accounted_refl]|].
  assert (Hp : u32 phys ≠ 0) by (rewrite wrap_small by done; by apply Z.eqb_neq). clear E0.
  pose proof Ht as (Hl & Hr & Hz). apply wp_bind, wp_get.
  destruct (list_find (λ e, fst (fst e) = u32 phys) _) as [[i [[p old] l0]]|] eqn:Ef.
  { apply list_find_Some in Ef as (Hi & _). apply wp_bind. eapply wp_mono; [apply close_kept_exact|].
    intros _ s1 [Ec Etr]. eapply new_entry_exact; [done|done|exact Hi|by rewrite Ec|by rewrite Ec|done]. }
  apply wp_bind. destruct (list_find (λ e, fst (fst e) = 0) _) as [[i [[p old] l0]]|] eqn:Ef0.
  { apply list_find_Some in Ef0 as (Hi & Hp0 & _). apply wp_ret. eapply new_entry_exact; [done|done|exact Hi|done|done|].
    pose proof (Forall_lookup_1 _ _ _ _ Hz Hi Hp0) as Eo. unfold entry_fd in Eo. simpl in Eo. subst old. by rewrite app_nil_r. }
  apply wp_bind, wp_modify, wp_bind.
  destruct (lookup_lt_is_Some_2 (g_phys (col s)) (g_physrr (col s))) as [[[p old] l0] Hi]; [by rewrite Hl|].
  rewrite (nth_lookup_Some _ _ _ _ Hi). set (s1 := set_col _ s).
  assert (Hc : wp (when_ (truthy p) (close_kept old)) (λ _ s', col s' = col s1 ∧ trace s' = trace s1 ++ closing old) s1).
  { unfold when_, truthy. destruct (Z.eqb_spec p 0) as [Ep|]; [|apply close_kept_exact]. apply wp_ret.
    pose proof (Forall_lookup_1 _ _ _ _ Hz Hi Ep) as Eo. unfold entry_fd in Eo. simpl in Eo. subst old. by rewrite app_nil_r. }
  eapply wp_mono; [exact Hc|]. intros _ s2 [Ec Etr]. apply wp_ret.
  eapply new_entry_exact; [done|done|exact Hi|by rewrite Ec|rewrite Ec; by apply Nat.mod_upper_bound|done].
Qed.

(** Buffers that are registered, in the order they come. *)
Fixpoint record_all (l : list (Z * Z * Z)) : M (shim W) unit :=
  match l with [] => mret tt | (phys, fd, len) :: l => sprdcolor_record phys fd len ;; record_all l end.

(** C19: However many buffers are registered, again or anew: a descriptor that was duplicated
    is in the table or was closed, once, and none is both; the table never has more
    than its sixteen entries. *)
Theorem buffers_accounted l s : table_ok (col s) → Forall (λ r, in_width 32 (fst (fst r))) l →
  wp (record_all l) (λ _ s', length (g_phys (col s')) = PHYSMAP ∧
    ∃ tr, trace s' = trace s ++ tr ∧
      duplicates tr ++ held (g_phys (col s)) ≡ₚ closes tr ++ held (g_phys (col s'))) s.
Proof.
  intros Ht Hl. cut (wp (record_all l) (λ _ s', table_ok (col s') ∧ accounted s s') s).
  { intros Hw. eapply wp_mono; [exact Hw|]. by intros _ s' [[? _] ?]. }
  revert s Ht. induction Hl as [|[[phys fd] len] l Hp Hl IH]; intros s Ht; cbn [record_all].
  { apply wp_ret. split; [done|apply accounted_refl]. }
  apply wp_bind. eapply wp_mono; [by apply record_exact|]. intros _ s1 [Ht1 Ha1].
  eapply wp_mono; [by apply IH|]. intros _ s2 [Ht2 Ha2]. split; [done|by eapply accounted_trans].
Qed.

(** ** A frame is permuted once *)

(** The memory behind a descriptor, as it is mapped: what was stored is loaded. *)
Class Memory (fd len : Z) : Type := {
  content : W → list Z;
  content_length w : length (content w) = Z.to_nat len;
  content_bytes w : is_bytes (content w);
  load_content w : do_sys (SLoad fd len) w = (content w, w);
  store_content w b : length b = Z.to_nat len → is_bytes b → content (snd (do_sys (SStore fd b) w)) = b }.

Context (fd len : Z) `{!Memory fd (page_up len)}.

(** The entry of the descriptor, which has the hash [h]. *)
Definition slot_holds (c : color) (i : nat) (h : Z) : Prop :=
  list_find (λ e, fst e = fd) (g_fd c) = Some (i, (fd, h)).

Lemma slot_nth c i h : slot_holds c i h → nth i (g_fd c) (0, 0) = (fd, h).
Proof. intros (Hi & _)%list_find_Some. by apply nth_lookup_Some. Qed.
Lemma slot_find c i h s (k : nat → M (shim W) bool) Q : slot_holds c i h → col s = c → wp (k i) Q s → wp (fd_slot fd ≫= k) Q s.
Proof.
  intros Hi Ec Hk. apply wp_bind. unfold fd_slot. apply wp_bind, wp_get. rewrite Ec. unfold slot_holds in Hi. by rewrite Hi.
Qed.

(** Inserting at a place that no earlier entry with the descriptor precedes. *)
Lemma slot_insert c i h : (i < length (g_fd c))%nat →
  (∀ j e, g_fd c !! j = Some e → (j < i)%nat → fst e ≠ fd) → slot_holds (set_g_fd (<[i := (fd, h)]> (g_fd c)) c) i h.
Proof.
  intros Hi Hj. apply list_find_Some. cbn [g_fd set_g_fd]. split; [by apply list_lookup_insert_eq|]. split; [done|].
  intros j e He Hlt. rewrite list_lookup_insert_ne in He by lia. by eapply Hj.
Qed.

(** The hash the library left for the descriptor; 0 for one it does not know. *)
Definition hash_left (c : color) : Z := match list_find (λ e, fst e = fd) (g_fd c) with Some (_, (_, h)) => h | None => 0 end.

Lemma fd_slot_exact s : length (g_fd (col s)) = FDMAP → (g_fdrr (col s) < FDMAP)%nat →
  wp (fd_slot fd) (λ i s', world s' = world s ∧ slot_holds (col s') i (hash_left (col s))) s.
Proof.
  intros Hl Hr. unfold fd_slot, hash_left. apply wp_bind, wp_get.
  destruct (list_find (λ e, fst e = fd) _) as [[i [f h]]|] eqn:Ef.
  { apply wp_ret. split; [done|]. unfold slot_holds. rewrite Ef.
    apply list_find_Some in Ef as (_ & Hf & _). simpl in Hf. by subst. }
  pose proof (proj1 (list_find_None _ _) Ef) as Hn. rewrite Forall_lookup in Hn.
  destruct (list_find (λ e, fst e = 0) _) as [[i [f h]]|] eqn:E0; (apply wp_bind, wp_modify, wp_ret; split; [done|]).
  - apply list_find_Some in E0 as (Hi & _). apply slot_insert; [by eapply lookup_lt_Some|]. intros j e He _. by apply (Hn j).
  - apply (slot_insert (set_g_fdrr _ (col s))); [cbn; lia|]. intros j e He _. by apply (Hn j).
Qed.

Lemma set_hash_exact i h h' s : slot_holds (col s) i h →
  wp (set_slot_hash i h') (λ _ s', world s' = world s ∧ slot_holds (col s') i h') s.
Proof.
  intros Hi. unfold set_slot_hash, mod_col. apply wp_modify. split; [done|]. cbn [col set_col].
  rewrite (slot_nth _ _ _ Hi). apply list_find_Some in Hi as (Hi & _ & Hj).
  apply slot_insert; [by eapply lookup_lt_Some|exact Hj].
Qed.

Definition hash_of (npix : Z) (b : list Z) : Z := fst (process b (Z.to_nat npix) false).
Definition permuted (npix : Z) (b : list Z) : list Z := rotate_pixels (Z.to_nat npix) b.

Lemma process_exactly npix r s : 0 <= npix → 4 * npix <= page_up len →
  wp (process_mapped fd len npix r) (λ h s', col s' = col s ∧
    h = hash_of npix (if r then permuted npix (content (world s)) else content (world s)) ∧
    content (world s') = (if r then permuted npix (content (world s)) else content (world s))) s.
Proof.
  intros Hn Hlen. unfold process_mapped. apply wp_bind, wp_require; [lia|]. apply wp_bind.
  unfold call at 1, wp at 1. rewrite load_content. cbn [fst snd].
  pose proof (content_length (world s)) as Hl. pose proof (content_bytes (world s)) as Hb.
  assert (Hle : (4 * Z.to_nat npix ≤ length (content (world s)))%nat) by (rewrite Hl; lia).
  unfold hash_of, permuted. destruct r.
  - rewrite process_rotated by done.
    pose proof (process_reads (rotate_pixels (Z.to_nat npix) (content (world s))) (Z.to_nat npix)) as Hr.
    rewrite rotate_pixels_length in Hr by done. specialize (Hr Hle).
    destruct (process _ _ false) as [h b']. cbn [fst snd] in *. subst b'. cbn [when_]. apply wp_bind. unfold call, wp. cbn -[rotate_pixels].
    split_and!; [done..|]. apply store_content; [by rewrite rotate_pixels_length|by apply rotate_pixels_bytes].
  - destruct (process _ _ false) as [h b']. cbn. done.
Qed.

(** C18: A buffer is presented, and presented again without being drawn: the first time its
    pixels are permuted unless they are as the library left them, the second time they
    are left alone. *)
Theorem rotated_once npix s : 0 <= npix → 4 * npix <= page_up len →
  length (g_fd (col s)) = FDMAP → (g_fdrr (col s) < FDMAP)%nat →
  wp (rotate_once fd len npix) (λ r s1,
    r = negb (hash_left (col s) =? hash_of npix (content (world s))) ∧
    content (world s1) = (if r then permuted npix (content (world s)) else content (world s)) ∧
    wp (rotate_once fd len npix) (λ r' s2, r' = false ∧ content (world s2) = content (world s1)) s1) s.
Proof.
  intros Hn Hlen Hl Hr.
  assert (Hag : ∀ i s, slot_holds (col s) i (hash_of npix (content (world s))) →
    wp (rotate_once fd len npix) (λ r' s2, r' = false ∧ content (world s2) = content (world s)) s).
  { intros i s' Hi. unfold rotate_once. eapply slot_find; [exact Hi|done|]. unfold slot_hash. apply wp_bind, wp_bind, wp_get, wp_ret.
    rewrite (slot_nth _ _ _ Hi). apply wp_bind. eapply wp_mono; [by apply process_exactly|].
    intros h s1 (_ & -> & Ec). cbn [snd]. rewrite Z.eqb_refl. by apply wp_ret. }
  unfold rotate_once at 1. apply wp_bind. eapply wp_mono; [by apply fd_slot_exact|]. intros i s1 [Ew Hi]. set (h0 := hash_left (col s)) in *.
  unfold slot_hash. apply wp_bind, wp_bind, wp_get, wp_ret. rewrite (slot_nth _ _ _ Hi). cbn [snd].
  apply wp_bind. eapply wp_mono; [by apply process_exactly|]. intros h s2 (Ec & Eh & Ek). rewrite Ew in *.
  destruct (Z.eqb_spec h0 h) as [E0|E0].
  { apply wp_ret. split; [by rewrite E0, Eh, Z.eqb_refl|]. split; [done|]. apply (Hag i). rewrite Ec, Ek, <- Eh, <- E0. exact Hi. }
  apply wp_bind. eapply wp_mono; [by apply process_exactly|]. intros h' s3 (Ec3 & Eh' & Ek3). rewrite Ek in *.
  apply wp_bind. eapply wp_mono; [apply (set_hash_exact i h0); by rewrite Ec3, Ec|]. intros _ s4 [Ew4 Hi4].
  apply wp_ret. apply Z.eqb_neq in E0. split; [by rewrite <- Eh, E0|]. split; [by rewrite Ew4|]. apply (Hag i). by rewrite Ew4, Ek3, <- Eh'.
Qed.
End tables.
