(* ===== verification/ShimBoard.v ===== *)
(** * Display: from the post of a frame to the registers of the controller

    The library over the driver: a [Board] is a system whose requests to the frame
    buffer are answered by [sprdfb_ioctl], and where no other call does more to the
    controller than letting interrupts come. *)

From S2P Require Import Prelude CMonad DispcTypes SprdPanel Dispc DispcFrame SprdFb DispcInv DispcSpec.
From S2P Require Import ShimPixels Shim ShimSafe ShimSpec.

(** How a system call turns the result of a driver into its own, and into [errno]. *)
Definition syscall_rc (ret : Z) : Z := if ret <? 0 then -1 else ret.

Class Board (W : Type) `{!System W, !FbMacros, !ClkIntf} (fbfd : Z) : Type := {
  chip : W → machine;
  pageflip_number : SPRD_FB_PAGEFLIP = PAGEFLIP;
  board_calm : ∀ A (e : sys A) w, heard (λ _, false) false e = true → irq_frame (chip w) (chip (snd (do_sys e w)));
  board_flip : ∀ p w ret m, sprdfb_ioctl SPRD_FB_PAGEFLIP (mk_user None None (Some p)) (chip w) = Ret ret m →
    do_sys (SIoctl fbfd PAGEFLIP (AWord p)) w = ((syscall_rc ret, - ret, AWord p), snd (do_sys (SIoctl fbfd PAGEFLIP (AWord p)) w)) ∧
    chip (snd (do_sys (SIoctl fbfd PAGEFLIP (AWord p)) w)) = m }.

Section board.
Context {W : Type} `{!System W, !FbMacros, !FbMacrosOk, !ClkIntf} {fbfd : Z} `{!Board W fbfd}.
Context {F : Z} {frames : Z → Prop} `{!SystemOk W F frames}.
Implicit Types s : shim W.

Definition chip_of s : machine := chip (fbfd := fbfd) (world s).
Definition only_interrupts s s' : Prop := irq_frame (chip_of s) (chip_of s').
#[local] Instance watch_chip : Watch only_interrupts.
Proof.
  refine {| w_quiet _ := false; w_loud := false |}.
  - split; [intros s; apply irq_frame_refl|]. intros s1 s2 s3. apply irq_frame_trans.
  - unfold only_interrupts, chip_of. intros s s' _ ->. apply irq_frame_refl.
  - intros A e s He. by apply board_calm.
Defined.

Lemma flip_request p : sprdfb_ioctl SPRD_FB_PAGEFLIP (mk_user None None (Some p)) = sprdfb_dispc_pageflip (u32 p).
Proof.
  unfold sprdfb_ioctl. pose proof fb_commands as Hn. rewrite !NoDup_cons in Hn.
  assert (SPRD_FB_PAGEFLIP =? SPRD_FB_SET_OVERLAY = false) as -> by (apply Z.eqb_neq; set_solver).
  assert (SPRD_FB_PAGEFLIP =? SPRD_FB_DISPLAY_OVERLAY = false) as -> by (apply Z.eqb_neq; set_solver).
  by rewrite Z.eqb_refl.
Qed.

(** A controller that can be asked to flip. *)
Record can_flip (m : machine) : Prop := {
  cf_driven : driven m; cf_irqs : irqs_on (hw m) = true; cf_lock : refresh_lock (dev m) = true }.
Lemma can_flip_frame m m' : irq_frame m m' → can_flip m → can_flip m'.
Proof. intros Hf [Hd Hi Hl]. split; [by eapply driven_frame|..]; destruct Hf; congruence. Qed.

(** Until the request is made, nothing but interrupts reaches the device. *)
Lemma before_request k s : ok (F := F) s →
  wp (when_ (negb (real_ioctl (col s))) (b ← call (SDlsymNext "ioctl"); mod_col (set_real_ioctl b)) ;;
      a1000_zc_hook_fb (ioctl k) None) (λ _ s', only_interrupts s s') s.
Proof.
  intros Hs.
  assert (Hk : keeps (F := F) (frames := frames) (R := only_interrupts) None
    (when_ (negb (real_ioctl (col s))) (b ← call (SDlsymNext "ioctl"); mod_col (set_real_ioctl b)) ;;
      a1000_zc_hook_fb (ioctl k) None) anything s).
  { eapply (kept_then _ _ anything); [|intros; eapply kept_free, kept_any, kept_hook_none].
    apply kept_when; [done| |by intros]. intros _. apply kept_call_then; [done|]. by apply kept_col. }
  eapply wp_mono; [exact (Hk Hs)|]. by intros _ s' (_ & [_ ?] & _).
Qed.

(** A request to flip that is answered with 0 is a flip of the driver that returned 0. *)
Lemma request_flips k phys s : ok (F := F) s → can_flip (chip_of s) → in_width 32 phys →
  wp (ioctl (S k) fbfd PAGEFLIP (AWord phys)) (λ r s', fst r = 0 → ∃ m,
    irq_frame (chip_of s) m ∧ sprdfb_dispc_pageflip phys m = Ret 0 (chip_of s')) s.
Proof.
  intros Hs Hc Hph. cbn [ioctl]. apply wp_bind, wp_get.
  apply wp_assoc, wp_bind. eapply wp_mono; [by apply before_request|]. intros [] s2 Hf.
  change (fix_argument PAGEFLIP (AWord phys)) with (mret (M := M (shim W)) (AWord phys)). apply wp_bind, wp_ret, wp_bind. cbn beta in Hf. unfold real_ioctl_call. apply wp_bind, wp_get.
  destruct (negb _); [by apply wp_ret, wp_ret|]. apply wp_bind. unfold call, wp at 1.
  destruct (can_flip_frame _ _ Hf Hc) as [Hd Hi Hl].
  destruct (wp_run _ _ _ (pageflip_exact _ phys Hd Hi Hl Hph)) as (ret & m & Er & _).
  destruct (board_flip phys (world s2) ret m) as [E1 E2].
  { rewrite flip_request, wrap_small by done. exact Er. }
  rewrite E1. cbn [fst snd]. rewrite <- E2 in Er. apply wp_bind.
  set (w := snd (do_sys (SIoctl fbfd PAGEFLIP (AWord phys)) (world s2))) in *.
  apply (wp_mono _ (λ _ s', chip_of s' = chip w)).
  { unfold when_. destruct (_ <? 0); [by apply wp_modify|by apply wp_ret]. }
  intros _ s3 Ew. apply wp_ret. destruct (Z.eqb_spec (syscall_rc ret) 0) as [E0|E0]; [|by apply wp_ret].
  rewrite fix_vsync_other by done. apply wp_bind, wp_ret, wp_ret. intros _. exists (chip_of s2). split; [done|].
  rewrite Ew, Er. f_equal. unfold syscall_rc in E0. by destruct (ret <? 0).
Qed.

(** C9: Showing a frame by the short path, from the library down to the controller: when it
    says that the frame is shown, the device was on and had an overlay, the driver found
    nothing to complain about, and the layer of the controller is visible and has the
    address of the buffer; and if the update was seen to end, this is what is on the
    panel.  The state [m] is that of the device when the request reached it, which
    differs from the state before by interrupts at most. *)
Theorem flip_reaches_panel k phys s : ok (F := F) s → can_flip (chip_of s) → g_fbfd (zp s) = fbfd →
  in_width 32 phys → phys ≠ 0 →
  wp (flip_frame (ioctl (S k)) phys) (λ shown_ s', shown_ = true → ∃ m,
    irq_frame (chip_of s) m ∧ enable (dev m) ≠ 0 ∧ overlay_state (ctx m) ≠ SPRD_OVERLAY_STATUS_OFF ∧
    flip_result m = 0 ∧ osd_shows (regs (hw (chip_of s'))) (osd_rb_ov (par m)) phys ∧
    (flip_seen m = true → osd_shows (shown (hw (chip_of s'))) (osd_rb_ov (par m)) phys)) s.
Proof.
  intros Hs Hc Hfd Hph Hp0. unfold flip_frame. apply wp_bind, wp_get.
  destruct (_ || _); [by apply wp_ret|]. rewrite Hfd, wrap_small by done.
  apply wp_bind. eapply wp_mono; [by apply request_flips|]. intros [rc arg] s1 Hr. cbn [fst] in Hr.
  destruct (Z.eqb_spec rc 0) as [E0|E0]; [|by apply wp_bind, wp_get, wp_bind; unfold when_; destruct (_ =? ENOTTY)].
  apply wp_ret. intros _. destruct (Hr E0) as (m & Hf & Em). exists m. split; [done|].
  destruct (can_flip_frame _ _ Hf Hc) as [Hd Hi Hl].
  destruct (wp_run _ _ _ (pageflip_exact m phys Hd Hi Hl Hph)) as (ret & m' & Er & _ & Hm').
  rewrite Em in Er. injection Er as <- <-. apply Z.eqb_neq in Hp0. rewrite Hp0 in Hm'.
  destruct (Z.eqb_spec (enable (dev m)) 0) as [He|He]; [by destruct Hm'|].
  case_bool_decide as Ho; [by destruct Hm'|]. destruct Hm' as (E & Hos & _ & Hsh).
  split_and!; try done. intros Hsn. by rewrite Hsn in Hsh.
Qed.
End board.
