(* ===== verification/Ion.v ===== *)
(** * ION: the buffers of graphics and multimedia ([drivers/gpu/ion/ion.c])

    The state is the memory of the driver: its buffers, handles and clients by address,
    the trees of the device, the dma-bufs it exported, the areas of user space that map
    buffers, and the locks that are held.  A search tree ordered by address is a map; a
    list of the kernel is a list.  The memory of heaps, dma-bufs, user space and the page
    tables belongs to others: every request to them is a value of the type [ksys], and a
    class answers.  Log messages, debugfs files and the time of an allocation are left
    out.  The configuration is that of this device, with [CONFIG_SPRD_IOMMU]. *)

From stdpp Require Import sorting.
From S2P Require Import Prelude CMonad.

(** ** Constants of headers that are not in the repository *)

Class IonAbi : Type := {
  ION_IOC_ALLOC : Z; ION_IOC_FREE : Z; ION_IOC_MAP : Z; ION_IOC_SHARE : Z; ION_IOC_IMPORT : Z;
  ION_IOC_CUSTOM : Z; ION_IOC_SYNC : Z; ION_IOC_INVALIDATE : Z;
  ION_FLAG_CACHED : Z; ION_FLAG_CACHED_NEEDS_SYNC : Z; ION_HEAP_FLAG_DEFER_FREE : Z;
  ION_HEAP_TYPE_SYSTEM : Z; ION_NUM_HEAP_IDS : Z;
  IOMMU_GSP : Z; IOMMU_MM : Z;
  sizeof_page : Z }.

Definition EPERM : Z := 1.
Definition ENOMEM : Z := 12.
Definition EFAULT : Z := 14.
Definition ENODEV : Z := 19.
Definition EINVAL : Z := 22.
Definition ENOTTY : Z := 25.
Definition ENOSPC : Z := 28.
Definition VM_FAULT_ERROR : Z := 0x33.
Definition VM_FAULT_NOPAGE : Z := 0x100.
Definition PAGE_SIZE : Z := 4096.
(** [PAGE_ALIGN] of a 32-bit number, which wraps at the top. *)
Definition PAGE_ALIGN (x : Z) : Z := Z.land (u32 (x + (PAGE_SIZE - 1))) 0xfffff000.
Definition IOC_WRITE : Z := 1.
Definition IOC_READ : Z := 2.
Definition IOC_DIR (cmd : Z) : Z := Z.land (Z.shiftr cmd 30) 3.
Definition IOC_SIZE (cmd : Z) : Z := Z.land (Z.shiftr cmd 16) 0x3fff.

(** A pointer, or the error in its place. *)
Abbreviation err A := (Z + A)%type.
Definition MAX_ERRNO : Z := 4095.
Definition ERR_PTR (e : Z) : err Z := if (- MAX_ERRNO <=? e) && (e <? 0) then inl e else inr e.

(** ** Data *)

(** [struct ion_heap]: which operations it has, besides what describes it. *)
Record heap_ops : Type := mk_ops {
  has_allocate : bool; has_free : bool; has_phys : bool; has_map_dma : bool; has_unmap_dma : bool;
  has_map_kernel : bool; has_unmap_kernel : bool; has_map_user : bool; has_map_iommu : bool;
  has_unmap_iommu : bool }.
Record heap : Type := mk_heap {
  hp_id : Z; hp_type : Z; hp_name : string; hp_flags : Z; hp_ops : heap_ops }.

(** An entry of a scatter list: a run of pages, from [struct page]s that are adjacent. *)
Record sg : Type := mk_sg { sg_page : Z; sg_dma_len : Z; sg_phys : Z; sg_dma_address : Z }.

(** Who is running: the leader of the thread group, and the thread. *)
Record task : Type := mk_task { t_comm : string; t_pid : Z; t_tid : Z; t_kthread : bool }.

(** [struct ion_buffer].  [b_pages] are the pages of a buffer that is mapped page by page,
    [None] before they are set; bit 0 of a page says that it is dirty. *)

Record buffer : Type := mk_buffer {
  b_heap : Z;
  b_flags : Z;
  b_size : Z;
  b_ref : Z;
  b_handle_count : Z;
  b_kmap_cnt : Z;
  b_vaddr : Z;
  b_sg_table : list sg;
  b_pages : option (list (option Z));
  b_vmas : list Z;
  b_iomap_cnt : Z * Z;
  b_iova : Z * Z;
  b_task : string * Z * Z }.

Definition set_b_heap (x : Z) (s : buffer) : buffer := mk_buffer x (b_flags s) (b_size s) (b_ref s)
  (b_handle_count s) (b_kmap_cnt s) (b_vaddr s) (b_sg_table s) (b_pages s) (b_vmas s) (b_iomap_cnt
  s) (b_iova s) (b_task s).
Definition set_b_flags (x : Z) (s : buffer) : buffer := mk_buffer (b_heap s) x (b_size s) (b_ref s)
  (b_handle_count s) (b_kmap_cnt s) (b_vaddr s) (b_sg_table s) (b_pages s) (b_vmas s) (b_iomap_cnt
  s) (b_iova s) (b_task s).
Definition set_b_size (x : Z) (s : buffer) : buffer := mk_buffer (b_heap s) (b_flags s) x (b_ref s)
  (b_handle_count s) (b_kmap_cnt s) (b_vaddr s) (b_sg_table s) (b_pages s) (b_vmas s) (b_iomap_cnt
  s) (b_iova s) (b_task s).
Definition set_b_ref (x : Z) (s : buffer) : buffer := mk_buffer (b_heap s) (b_flags s) (b_size s) x
  (b_handle_count s) (b_kmap_cnt s) (b_vaddr s) (b_sg_table s) (b_pages s) (b_vmas s) (b_iomap_cnt
  s) (b_iova s) (b_task s).
Definition set_b_handle_count (x : Z) (s : buffer) : buffer := mk_buffer (b_heap s) (b_flags s)
  (b_size s) (b_ref s) x (b_kmap_cnt s) (b_vaddr s) (b_sg_table s) (b_pages s) (b_vmas s)
  (b_iomap_cnt s) (b_iova s) (b_task s).
Definition set_b_kmap_cnt (x : Z) (s : buffer) : buffer := mk_buffer (b_heap s) (b_flags s) (b_size
  s) (b_ref s) (b_handle_count s) x (b_vaddr s) (b_sg_table s) (b_pages s) (b_vmas s) (b_iomap_cnt
  s) (b_iova s) (b_task s).
Definition set_b_vaddr (x : Z) (s : buffer) : buffer := mk_buffer (b_heap s) (b_flags s) (b_size s)
  (b_ref s) (b_handle_count s) (b_kmap_cnt s) x (b_sg_table s) (b_pages s) (b_vmas s) (b_iomap_cnt
  s) (b_iova s) (b_task s).
Definition set_b_sg_table (x : list sg) (s : buffer) : buffer := mk_buffer (b_heap s) (b_flags s)
  (b_size s) (b_ref s) (b_handle_count s) (b_kmap_cnt s) (b_vaddr s) x (b_pages s) (b_vmas s)
  (b_iomap_cnt s) (b_iova s) (b_task s).
Definition set_b_pages (x : option (list (option Z))) (s : buffer) : buffer := mk_buffer (b_heap s)
  (b_flags s) (b_size s) (b_ref s) (b_handle_count s) (b_kmap_cnt s) (b_vaddr s) (b_sg_table s) x
  (b_vmas s) (b_iomap_cnt s) (b_iova s) (b_task s).
Definition set_b_vmas (x : list Z) (s : buffer) : buffer := mk_buffer (b_heap s) (b_flags s) (b_size
  s) (b_ref s) (b_handle_count s) (b_kmap_cnt s) (b_vaddr s) (b_sg_table s) (b_pages s) x
  (b_iomap_cnt s) (b_iova s) (b_task s).
Definition set_b_iomap_cnt (x : Z * Z) (s : buffer) : buffer := mk_buffer (b_heap s) (b_flags s)
  (b_size s) (b_ref s) (b_handle_count s) (b_kmap_cnt s) (b_vaddr s) (b_sg_table s) (b_pages s)
  (b_vmas s) x (b_iova s) (b_task s).
Definition set_b_iova (x : Z * Z) (s : buffer) : buffer := mk_buffer (b_heap s) (b_flags s) (b_size
  s) (b_ref s) (b_handle_count s) (b_kmap_cnt s) (b_vaddr s) (b_sg_table s) (b_pages s) (b_vmas s)
  (b_iomap_cnt s) x (b_task s).
Definition set_b_task (x : string * Z * Z) (s : buffer) : buffer := mk_buffer (b_heap s) (b_flags s)
  (b_size s) (b_ref s) (b_handle_count s) (b_kmap_cnt s) (b_vaddr s) (b_sg_table s) (b_pages s)
  (b_vmas s) (b_iomap_cnt s) (b_iova s) x.


(** [struct ion_handle]; [h_linked] is false while [node] is not in a tree. *)

Record handle : Type := mk_handle {
  h_ref : Z;
  h_client : Z;
  h_buffer : Z;
  h_linked : bool;
  h_kmap_cnt : Z;
  h_id : Z }.

Definition set_h_ref (x : Z) (s : handle) : handle := mk_handle x (h_client s) (h_buffer s)
  (h_linked s) (h_kmap_cnt s) (h_id s).
Definition set_h_client (x : Z) (s : handle) : handle := mk_handle (h_ref s) x (h_buffer s)
  (h_linked s) (h_kmap_cnt s) (h_id s).
Definition set_h_buffer (x : Z) (s : handle) : handle := mk_handle (h_ref s) (h_client s) x
  (h_linked s) (h_kmap_cnt s) (h_id s).
Definition set_h_linked (x : bool) (s : handle) : handle := mk_handle (h_ref s) (h_client s)
  (h_buffer s) x (h_kmap_cnt s) (h_id s).
Definition set_h_kmap_cnt (x : Z) (s : handle) : handle := mk_handle (h_ref s) (h_client s)
  (h_buffer s) (h_linked s) x (h_id s).
Definition set_h_id (x : Z) (s : handle) : handle := mk_handle (h_ref s) (h_client s) (h_buffer s)
  (h_linked s) (h_kmap_cnt s) x.


(** [struct ion_client]: the handles by the address of their buffer, and by their number. *)

Record client : Type := mk_client {
  c_handles : gmap Z Z;
  c_idr : gmap Z Z;
  c_name : string;
  c_task : option task;
  c_pid : Z;
  c_tid : Z }.

Definition set_c_handles (x : gmap Z Z) (s : client) : client := mk_client x (c_idr s) (c_name s)
  (c_task s) (c_pid s) (c_tid s).
Definition set_c_idr (x : gmap Z Z) (s : client) : client := mk_client (c_handles s) x (c_name s)
  (c_task s) (c_pid s) (c_tid s).
Definition set_c_name (x : string) (s : client) : client := mk_client (c_handles s) (c_idr s) x
  (c_task s) (c_pid s) (c_tid s).
Definition set_c_task (x : option task) (s : client) : client := mk_client (c_handles s) (c_idr s)
  (c_name s) x (c_pid s) (c_tid s).
Definition set_c_pid (x : Z) (s : client) : client := mk_client (c_handles s) (c_idr s) (c_name s)
  (c_task s) x (c_tid s).
Definition set_c_tid (x : Z) (s : client) : client := mk_client (c_handles s) (c_idr s) (c_name s)
  (c_task s) (c_pid s) x.


(** A dma-buf this driver exported: [priv], and how often the processor was given access
    that was not ended. *)
Record dmabuf : Type := mk_dmabuf { d_priv : Z; d_size : Z; d_access : Z }.

(** [struct vm_area_struct]: the dma-buf it maps, [vm_private_data] and [vm_ops] as far as
    this driver set them, and its protection. *)
Record vma : Type := mk_vma { v_file : Z; v_private : option Z; v_writecombine : bool }.

(** The locks: the [rwsem] and the mutex of the device, and those of clients and buffers. *)
Inductive lock : Type := LDevice | LBuffers | LClient (c : Z) | LBuffer (b : Z).
#[export] Instance lock_eq_dec : EqDecision lock.
Proof. solve_decision. Defined.

(** What [dma_buf_get] finds behind a descriptor. *)
Inductive dma_found : Type := DError (e : Z) | DForeign | DIon (d : Z).

(** ** Requests to the rest of the kernel, by the type of the answer

    [KZalloc], [KIdr] and [KExport] are told what is in use.  A heap that drains its
    list of buffers to be freed tells which ones it takes from it. *)
Inductive ksys : Type → Type :=
  | KZalloc (live : gset Z) : ksys (option Z)
  | KKmalloc : ksys bool
  | KVmalloc (size : Z) : ksys bool
  | KCurrent : ksys task
  | KGetTask (t : task) : ksys unit
  | KPutTask (t : task) : ksys unit
  | KIdr (used : gset Z) : ksys Z
  | KAllocate (h b len align flags : Z) : ksys Z
  | KFree (h b : Z) : ksys unit
  | KMapDma (h b len : Z) : ksys (option (err (list sg)))
  | KUnmapDma (h b : Z) : ksys unit
  | KMapKernel (h b : Z) : ksys (option (err Z))
  | KUnmapKernel (h b : Z) : ksys unit
  | KMapUser (h b v : Z) : ksys Z
  | KPhys (h b : Z) : ksys (Z * Z * Z)
  | KMapIommu (h b domain : Z) : ksys (Z * Z * (Z * Z) * Z)
  | KUnmapIommu (h b domain : Z) : ksys (Z * Z * (Z * Z))
  | KIovaUnmap (domain iova b : Z) : ksys unit
  | KIovaFree (domain iova size : Z) : ksys unit
  | KInitDeferred (h : Z) : ksys unit
  | KDrain (h cached size : Z) (deferred : list Z) : ksys (list Z)
  | KExport (live : gset Z) (b size : Z) : ksys (err Z)
  | KDmaFd (d : Z) : ksys Z
  | KDmaGet (fd : Z) (live : gset Z) : ksys dma_found
  | KDmaPut (d : option Z) : ksys unit
  | KSyncPage (page : Z) : ksys unit
  | KSyncSg (table : list sg) (to_device : bool) : ksys unit
  | KZap (v : Z) : ksys unit
  | KInsertPage (v address page : Z) : ksys Z
  | KCopyFrom (arg size : Z) : ksys (option (list Z))
  | KCopyTo (arg : Z) (data : list (option Z)) : ksys bool
  | KMiscRegister : ksys Z
  | KMiscDeregister : ksys unit
  | KMemblockAlloc (size align : Z) : ksys Z
  | KMemblockReserve (base size : Z) : ksys Z.

(** The kernel: how it answers, and what it is afterwards. *)
Class Kernel (W : Type) : Type := do_ksys : ∀ A, ksys A → W → A * W.
Arguments do_ksys {W _ A} _ _.

Inductive kevent : Type := KEv (A : Type) (e : ksys A) (a : A).
Arguments KEv {A} _ _.

(** ** State *)

Section state.
Context {W : Type}.

Record ion : Type := mk_ion {
  buffers : gmap Z buffer;
  handles : gmap Z handle;
  clients : gmap Z client;
  heaps : gmap Z heap;
  d_buffers : gset Z;
  d_clients : gset Z;
  d_heaps : list Z;
  d_custom : bool;
  d_live : bool;
  freelist : list Z;
  exported : gmap Z dmabuf;
  vmas : gmap Z vma;
  held : list lock;
  trace : list kevent;
  world : W }.

Definition set_buffers (x : gmap Z buffer) (s : ion) : ion := mk_ion x (handles s) (clients s)
  (heaps s) (d_buffers s) (d_clients s) (d_heaps s) (d_custom s) (d_live s) (freelist s) (exported
  s) (vmas s) (held s) (trace s) (world s).
Definition set_handles (x : gmap Z handle) (s : ion) : ion := mk_ion (buffers s) x (clients s)
  (heaps s) (d_buffers s) (d_clients s) (d_heaps s) (d_custom s) (d_live s) (freelist s) (exported
  s) (vmas s) (held s) (trace s) (world s).
Definition set_clients (x : gmap Z client) (s : ion) : ion := mk_ion (buffers s) (handles s) x
  (heaps s) (d_buffers s) (d_clients s) (d_heaps s) (d_custom s) (d_live s) (freelist s) (exported
  s) (vmas s) (held s) (trace s) (world s).
Definition set_heaps (x : gmap Z heap) (s : ion) : ion := mk_ion (buffers s) (handles s) (clients s)
  x (d_buffers s) (d_clients s) (d_heaps s) (d_custom s) (d_live s) (freelist s) (exported s) (vmas
  s) (held s) (trace s) (world s).
Definition set_d_buffers (x : gset Z) (s : ion) : ion := mk_ion (buffers s) (handles s) (clients s)
  (heaps s) x (d_clients s) (d_heaps s) (d_custom s) (d_live s) (freelist s) (exported s) (vmas s)
  (held s) (trace s) (world s).
Definition set_d_clients (x : gset Z) (s : ion) : ion := mk_ion (buffers s) (handles s) (clients s)
  (heaps s) (d_buffers s) x (d_heaps s) (d_custom s) (d_live s) (freelist s) (exported s) (vmas s)
  (held s) (trace s) (world s).
Definition set_d_heaps (x : list Z) (s : ion) : ion := mk_ion (buffers s) (handles s) (clients s)
  (heaps s) (d_buffers s) (d_clients s) x (d_custom s) (d_live s) (freelist s) (exported s) (vmas s)
  (held s) (trace s) (world s).
Definition set_d_custom (x : bool) (s : ion) : ion := mk_ion (buffers s) (handles s) (clients s)
  (heaps s) (d_buffers s) (d_clients s) (d_heaps s) x (d_live s) (freelist s) (exported s) (vmas s)
  (held s) (trace s) (world s).
Definition set_d_live (x : bool) (s : ion) : ion := mk_ion (buffers s) (handles s) (clients s)
  (heaps s) (d_buffers s) (d_clients s) (d_heaps s) (d_custom s) x (freelist s) (exported s) (vmas
  s) (held s) (trace s) (world s).
Definition set_freelist (x : list Z) (s : ion) : ion := mk_ion (buffers s) (handles s) (clients s)
  (heaps s) (d_buffers s) (d_clients s) (d_heaps s) (d_custom s) (d_live s) x (exported s) (vmas s)
  (held s) (trace s) (world s).
Definition set_exported (x : gmap Z dmabuf) (s : ion) : ion := mk_ion (buffers s) (handles s)
  (clients s) (heaps s) (d_buffers s) (d_clients s) (d_heaps s) (d_custom s) (d_live s) (freelist s)
  x (vmas s) (held s) (trace s) (world s).
Definition set_vmas (x : gmap Z vma) (s : ion) : ion := mk_ion (buffers s) (handles s) (clients s)
  (heaps s) (d_buffers s) (d_clients s) (d_heaps s) (d_custom s) (d_live s) (freelist s) (exported
  s) x (held s) (trace s) (world s).
Definition set_held (x : list lock) (s : ion) : ion := mk_ion (buffers s) (handles s) (clients s)
  (heaps s) (d_buffers s) (d_clients s) (d_heaps s) (d_custom s) (d_live s) (freelist s) (exported
  s) (vmas s) x (trace s) (world s).
Definition set_trace (x : list kevent) (s : ion) : ion := mk_ion (buffers s) (handles s) (clients s)
  (heaps s) (d_buffers s) (d_clients s) (d_heaps s) (d_custom s) (d_live s) (freelist s) (exported
  s) (vmas s) (held s) x (world s).
Definition set_world (x : W) (s : ion) : ion := mk_ion (buffers s) (handles s) (clients s) (heaps s)
  (d_buffers s) (d_clients s) (d_heaps s) (d_custom s) (d_live s) (freelist s) (exported s) (vmas s)
  (held s) (trace s) x.

End state.
Arguments ion : clear implicits.

(** The nodes of a tree that is ordered by address, from [rb_first] on. *)
Definition key_le {A} (x y : Z * A) : Prop := fst x <= fst y.
#[export] Instance key_le_dec {A} : RelDecision (@key_le A).
Proof. intros x y. unfold key_le. apply _. Defined.
Definition rb_nodes {A} (m : gmap Z A) : list (Z * A) := merge_sort key_le (map_to_list m).

Section ops.
Context {W : Type} `{!Kernel W, !IonAbi}.

Definition call {A} (e : ksys A) : M (ion W) A := λ s,
  let r := do_ksys e (world s) in
  Ret (fst r) (set_trace (trace s ++ [KEv e (fst r)]) (set_world (snd r) s)).

Definition when_ (b : bool) (m : M (ion W) unit) : M (ion W) unit := if b then m else mret tt.

(** [BUG()] *)
Definition bug {A} : M (ion W) A := undefined.

(** Memory: following a pointer to what was freed is undefined. *)
Definition buffer_at (b : Z) : M (ion W) buffer :=
  s ← get; match buffers s !! b with Some x => mret x | None => undefined end.
Definition handle_at (h : Z) : M (ion W) handle :=
  s ← get; match handles s !! h with Some x => mret x | None => undefined end.
Definition client_at (c : Z) : M (ion W) client :=
  s ← get; match clients s !! c with Some x => mret x | None => undefined end.
Definition heap_at (h : Z) : M (ion W) heap :=
  s ← get; match heaps s !! h with Some x => mret x | None => undefined end.
Definition dmabuf_at (d : Z) : M (ion W) dmabuf :=
  s ← get; match exported s !! d with Some x => mret x | None => undefined end.
Definition vma_at (v : Z) : M (ion W) vma :=
  s ← get; match vmas s !! v with Some x => mret x | None => undefined end.

Definition store_buffer (b : Z) (x : buffer) : M (ion W) unit := modify (λ s, set_buffers (<[b := x]> (buffers s)) s).
Definition store_handle (h : Z) (x : handle) : M (ion W) unit := modify (λ s, set_handles (<[h := x]> (handles s)) s).
Definition store_client (c : Z) (x : client) : M (ion W) unit := modify (λ s, set_clients (<[c := x]> (clients s)) s).
Definition store_vma (v : Z) (x : vma) : M (ion W) unit := modify (λ s, set_vmas (<[v := x]> (vmas s)) s).
Definition mod_buffer (b : Z) (f : buffer → buffer) : M (ion W) unit := x ← buffer_at b; store_buffer b (f x).
Definition mod_handle (h : Z) (f : handle → handle) : M (ion W) unit := x ← handle_at h; store_handle h (f x).
Definition mod_client (c : Z) (f : client → client) : M (ion W) unit := x ← client_at c; store_client c (f x).

(** Addresses in use; [kzalloc] of a buffer, a handle or a client, and [kfree]. *)
Definition in_use (s : ion W) : gset Z := dom (buffers s) ∪ dom (handles s) ∪ dom (clients s) ∪ dom (heaps s).
Definition kzalloc : M (ion W) (option Z) := s ← get; call (KZalloc (in_use s)).
Definition kfree_buffer (b : Z) : M (ion W) unit :=
  buffer_at b ;; modify (λ s, set_buffers (delete b (buffers s)) s).
Definition kfree_handle (h : Z) : M (ion W) unit :=
  handle_at h ;; modify (λ s, set_handles (delete h (handles s)) s).
Definition kfree_client (c : Z) : M (ion W) unit :=
  client_at c ;; modify (λ s, set_clients (delete c (clients s)) s).

(** Locks: one that is held already is waited for for ever. *)
Definition mutex_lock (l : lock) : M (ion W) unit :=
  s ← get; if bool_decide (l ∈ held s) then stuck else modify (set_held (l :: held s)).
Definition mutex_unlock (l : lock) : M (ion W) unit :=
  s ← get;
  require (bool_decide (l ∈ held s)) ;;
  modify (set_held (filter (λ k, k ≠ l) (held s))).
Definition lock_client (c : Z) : M (ion W) unit := client_at c ;; mutex_lock (LClient c).
Definition unlock_client (c : Z) : M (ion W) unit := client_at c ;; mutex_unlock (LClient c).
Definition lock_buffer (b : Z) : M (ion W) unit := buffer_at b ;; mutex_lock (LBuffer b).
Definition unlock_buffer (b : Z) : M (ion W) unit := buffer_at b ;; mutex_unlock (LBuffer b).

(** An operation of a heap that it must have. *)
Definition op (has : heap_ops → bool) (h : Z) : M (ion W) unit :=
  x ← heap_at h; require (has (hp_ops x)).

(** ** Buffers *)

Definition new_buffer (h flags : Z) : buffer := mk_buffer h flags 0 1 0 0 0 [] None [] (0, 0) (0, 0) ("", 0, 0).

Definition ion_buffer_fault_user_mappings (x : buffer) : bool :=
  has_flag (b_flags x) ION_FLAG_CACHED && negb (has_flag (b_flags x) ION_FLAG_CACHED_NEEDS_SYNC).
Definition ion_buffer_cached (x : buffer) : bool := has_flag (b_flags x) ION_FLAG_CACHED.

Definition ion_buffer_page (page : Z) : Z := Z.land page (0xfffffffe).
Definition ion_buffer_page_is_dirty (page : Z) : bool := truthy (Z.land page 1).
Definition ion_buffer_page_dirty (page : Z) : Z := Z.lor page 1.
Definition ion_buffer_page_clean (page : Z) : Z := Z.land page 0xfffffffe.

Definition ion_buffer_add (b : Z) : M (ion W) unit :=
  s ← get; if bool_decide (b ∈ d_buffers s) then bug else modify (set_d_buffers ({[b]} ∪ d_buffers s)).

(** What the driver frees of a buffer that nobody refers to. *)
Definition ion_buffer_destroy (b : Z) : M (ion W) unit :=
  x ← buffer_at b;
  when_ (0 <? b_kmap_cnt x) (op has_unmap_kernel (b_heap x) ;; call (KUnmapKernel (b_heap x) b)) ;;
  op has_unmap_dma (b_heap x) ;;
  call (KUnmapDma (b_heap x) b) ;;
  op has_free (b_heap x) ;;
  call (KFree (b_heap x) b) ;;
  kfree_buffer b.

Fixpoint ion_buffer_destroy_all (bs : list Z) : M (ion W) unit :=
  match bs with [] => mret tt | b :: bs => ion_buffer_destroy b ;; ion_buffer_destroy_all bs end.

(** The heap frees some of the buffers on its list, by [ion_buffer_destroy]. *)
Definition ion_heap_freelist_drain (h cached size : Z) : M (ion W) unit :=
  s ← get;
  let mine := filter (λ b, (b_heap <$> buffers s !! b) = Some h) (freelist s) in
  bs ← call (KDrain h cached size mine);
  modify (λ s, set_freelist (filter (λ b, b ∉ bs) (freelist s)) s) ;;
  ion_buffer_destroy_all bs.
Definition ion_heap_freelist_add (b : Z) : M (ion W) unit := modify (λ s, set_freelist (freelist s ++ [b]) s).

(** [buffer->pages[k++] = page++], [n] times *)
Fixpoint fill_run (n : nat) (page : Z) (k : nat) (pages : list (option Z)) : M (ion W) (nat * list (option Z)) :=
  match n with
  | O => mret (k, pages)
  | S n =>
      require (bool_decide (k < length pages)%nat) ;;
      fill_run n (u32 (page + sizeof_page)) (S k) (<[k := Some page]> pages)
  end.
Fixpoint fill_pages (table : list sg) (k : nat) (pages : list (option Z)) : M (ion W) (list (option Z)) :=
  match table with
  | [] => mret pages
  | g :: table =>
      '(k, pages) ← fill_run (Z.to_nat (sg_dma_len g / PAGE_SIZE)) (sg_page g) k pages;
      fill_pages table k pages
  end.

Definition set_dma_address (g : sg) : sg := mk_sg (sg_page g) (sg_dma_len g) (sg_phys g) (sg_phys g).

(** The end of [ion_buffer_create], once the pages are set up. *)
Definition buffer_ready (b : Z) : M (ion W) (err Z) :=
  mod_buffer b (λ x, set_b_sg_table (set_dma_address <$> b_sg_table x) (set_b_vmas [] x)) ;;
  mutex_lock LBuffers ;;
  ion_buffer_add b ;;
  mutex_unlock LBuffers ;;
  mret (inr b).

(** From the scatter list of the heap on: a buffer that is mapped page by page lists its pages. *)
Definition buffer_mapped (b : Z) (table : list sg) : M (ion W) (err Z) :=
  mod_buffer b (set_b_sg_table table) ;;
  x ← buffer_at b;
  if ion_buffer_fault_user_mappings x then
    let num_pages := PAGE_ALIGN (b_size x) / PAGE_SIZE in
    ok ← call (KVmalloc (u32 (4 * num_pages)));
    if negb ok then kfree_buffer b ;; mret (inl (- ENOMEM)) else
    pages ← fill_pages table 0 (replicate (Z.to_nat num_pages) None);
    mod_buffer b (set_b_pages (Some pages)) ;;
    buffer_ready b
  else buffer_ready b.

Definition ion_buffer_create (h len align flags : Z) : M (ion W) (err Z) :=
  b ← kzalloc;
  match b with
  | None => mret (inl (- ENOMEM))
  | Some b =>
      store_buffer b (new_buffer h flags) ;;
      hp ← heap_at h;
      x ← buffer_at b;
      when_ (has_flag (hp_flags hp) ION_HEAP_FLAG_DEFER_FREE)
        (ion_heap_freelist_drain h (if ion_buffer_cached x then 1 else 0) len) ;;
      op has_allocate h ;;
      ret ← call (KAllocate h b len align flags);
      ret ← (if truthy ret && has_flag (hp_flags hp) ION_HEAP_FLAG_DEFER_FREE then
               ion_heap_freelist_drain h (-1) 0 ;;
               call (KAllocate h b len align flags)
             else mret ret);
      if truthy ret then kfree_buffer b ;; mret (ERR_PTR ret) else
      mod_buffer b (set_b_size len) ;;
      op has_map_dma h ;;
      table ← call (KMapDma h b len);
      match default (inl (- EINVAL)) table with
      | inl e => op has_free h ;; call (KFree h b) ;; kfree_buffer b ;; mret (inl e)
      | inr table =>
          buffer_mapped b table
      end
  end.

Definition with_gsp {A} (a : A) (p : A * A) : A * A := (a, snd p).
Definition with_mm {A} (a : A) (p : A * A) : A * A := (fst p, a).

(** The last reference to a buffer is gone. *)
Definition _ion_buffer_destroy (b : Z) : M (ion W) unit :=
  x ← buffer_at b;
  hp ← heap_at (b_heap x);
  when_ (0 <? fst (b_iomap_cnt x))
    (mod_buffer b (λ x, set_b_iomap_cnt (with_gsp 0 (b_iomap_cnt x)) x) ;;
     call (KIovaUnmap IOMMU_GSP (fst (b_iova x)) b) ;;
     call (KIovaFree IOMMU_GSP (fst (b_iova x)) (b_size x))) ;;
  when_ (0 <? snd (b_iomap_cnt x))
    (mod_buffer b (λ x, set_b_iomap_cnt (with_mm 0 (b_iomap_cnt x)) x) ;;
     call (KIovaUnmap IOMMU_MM (snd (b_iova x)) b) ;;
     call (KIovaFree IOMMU_MM (snd (b_iova x)) (b_size x))) ;;
  mutex_lock LBuffers ;;
  s ← get;
  require (bool_decide (b ∈ d_buffers s)) ;;
  modify (λ s, set_d_buffers (d_buffers s ∖ {[b]}) s) ;;
  mutex_unlock LBuffers ;;
  if has_flag (hp_flags hp) ION_HEAP_FLAG_DEFER_FREE then ion_heap_freelist_add b else ion_buffer_destroy b.

Definition ion_buffer_get (b : Z) : M (ion W) unit := mod_buffer b (λ x, set_b_ref (u32 (b_ref x + 1)) x).
Definition ion_buffer_put (b : Z) : M (ion W) unit :=
  mod_buffer b (λ x, set_b_ref (u32 (b_ref x - 1)) x) ;;
  x ← buffer_at b;
  when_ (b_ref x =? 0) (_ion_buffer_destroy b).

Definition ion_buffer_add_to_handle (b : Z) : M (ion W) unit :=
  lock_buffer b ;;
  mod_buffer b (λ x, set_b_handle_count (swrap 32 (b_handle_count x + 1)) x) ;;
  unlock_buffer b.

Definition ion_buffer_remove_from_handle (b : Z) : M (ion W) unit :=
  lock_buffer b ;;
  mod_buffer b (λ x, set_b_handle_count (swrap 32 (b_handle_count x - 1)) x) ;;
  x ← buffer_at b;
  if b_handle_count x <? 0 then bug else
  when_ (b_handle_count x =? 0)
    (t ← call KCurrent; mod_buffer b (set_b_task (t_comm t, t_pid t, t_tid t))) ;;
  unlock_buffer b.

(** ** Mappings into the kernel *)

(** [map_kernel] of the heap, with [NULL] as an error. *)
Definition ion_buffer_kmap_get (b : Z) : M (ion W) (err Z) :=
  x ← buffer_at b;
  if truthy (b_kmap_cnt x) then
    store_buffer b (set_b_kmap_cnt (swrap 32 (b_kmap_cnt x + 1)) x) ;; mret (inr (b_vaddr x))
  else
    op has_map_kernel (b_heap x) ;;
    vaddr ← call (KMapKernel (b_heap x) b);
    match default (inl (- EINVAL)) vaddr with
    | inl e => mret (inl e)
    | inr vaddr =>
        mod_buffer b (λ x, set_b_kmap_cnt (swrap 32 (b_kmap_cnt x + 1)) (set_b_vaddr vaddr x)) ;;
        mret (inr vaddr)
    end.

Definition ion_handle_kmap_get (h : Z) : M (ion W) (err Z) :=
  y ← handle_at h;
  if truthy (h_kmap_cnt y) then
    store_handle h (set_h_kmap_cnt (u32 (h_kmap_cnt y + 1)) y) ;;
    x ← buffer_at (h_buffer y); mret (inr (b_vaddr x))
  else
    vaddr ← ion_buffer_kmap_get (h_buffer y);
    match vaddr with
    | inl e => mret (inl e)
    | inr vaddr => mod_handle h (λ y, set_h_kmap_cnt (u32 (h_kmap_cnt y + 1)) y) ;; mret (inr vaddr)
    end.

Definition ion_buffer_kmap_put (b : Z) : M (ion W) unit :=
  mod_buffer b (λ x, set_b_kmap_cnt (swrap 32 (b_kmap_cnt x - 1)) x) ;;
  x ← buffer_at b;
  when_ (b_kmap_cnt x =? 0)
    (op has_unmap_kernel (b_heap x) ;;
     call (KUnmapKernel (b_heap x) b) ;;
     mod_buffer b (set_b_vaddr 0)).

Definition ion_handle_kmap_put (h : Z) : M (ion W) unit :=
  mod_handle h (λ y, set_h_kmap_cnt (u32 (h_kmap_cnt y - 1)) y) ;;
  y ← handle_at h;
  when_ (h_kmap_cnt y =? 0) (ion_buffer_kmap_put (h_buffer y)).

(** ** Handles *)

Definition new_handle (c : Z) : handle := mk_handle 1 c 0 false 0 0.

Definition ion_handle_create (c b : Z) : M (ion W) (err Z) :=
  h ← kzalloc;
  match h with
  | None => mret (inl (- ENOMEM))
  | Some h =>
      store_handle h (new_handle c) ;;
      ion_buffer_get b ;;
      ion_buffer_add_to_handle b ;;
      mod_handle h (set_h_buffer b) ;;
      mret (inr h)
  end.

(** [while (handle->kmap_cnt) ion_handle_kmap_put(handle)] *)
Fixpoint unmap_all (fuel : nat) (h : Z) : M (ion W) unit :=
  y ← handle_at h;
  if truthy (h_kmap_cnt y) then
    match fuel with O => stuck | S fuel => ion_handle_kmap_put h ;; unmap_all fuel h end
  else mret tt.

Definition rb_erase_handle (h : Z) : M (ion W) unit :=
  y ← handle_at h;
  x ← client_at (h_client y);
  require (bool_decide (c_handles x !! h_buffer y = Some h)) ;;
  store_client (h_client y) (set_c_handles (delete (h_buffer y) (c_handles x)) x).

Definition ion_handle_destroy (h : Z) : M (ion W) unit :=
  y ← handle_at h;
  let c := h_client y in let b := h_buffer y in
  lock_buffer b ;;
  unmap_all (Z.to_nat (h_kmap_cnt y)) h ;;
  unlock_buffer b ;;
  mod_client c (λ x, set_c_idr (delete (h_id y) (c_idr x)) x) ;;
  when_ (h_linked y) (rb_erase_handle h) ;;
  ion_buffer_remove_from_handle b ;;
  ion_buffer_put b ;;
  kfree_handle h.

Definition ion_handle_buffer (h : Z) : M (ion W) Z := y ← handle_at h; mret (h_buffer y).
Definition ion_handle_get (h : Z) : M (ion W) unit := mod_handle h (λ y, set_h_ref (u32 (h_ref y + 1)) y).

(** [kref_put(&handle->ref, ion_handle_destroy)] *)
Definition handle_ref_put (h : Z) : M (ion W) bool :=
  mod_handle h (λ y, set_h_ref (u32 (h_ref y - 1)) y) ;;
  y ← handle_at h;
  if h_ref y =? 0 then ion_handle_destroy h ;; mret true else mret false.
Definition ion_handle_put (h : Z) : M (ion W) bool :=
  y ← handle_at h;
  lock_client (h_client y) ;;
  ret ← handle_ref_put h;
  unlock_client (h_client y) ;;
  mret ret.

Definition ion_handle_lookup (c b : Z) : M (ion W) (err Z) :=
  x ← client_at c;
  match c_handles x !! b with Some h => mret (inr h) | None => mret (inl (- EINVAL)) end.

Definition ion_handle_get_by_id (c id : Z) : M (ion W) (err Z) :=
  lock_client c ;;
  x ← client_at c;
  match c_idr x !! id with
  | Some h => ion_handle_get h ;; unlock_client c ;; mret (inr h)
  | None => unlock_client c ;; mret (inl (- EINVAL))
  end.

Definition ion_handle_validate (c h : Z) : M (ion W) bool :=
  y ← handle_at h;
  x ← client_at c;
  mret (bool_decide (c_idr x !! h_id y = Some h)).

(** A client that has a handle for the buffer already keeps the walk at one node. *)
Definition ion_handle_add (c h : Z) : M (ion W) Z :=
  x ← client_at c;
  id ← call (KIdr (dom (c_idr x)));
  if id <? 0 then mret id else
  mod_client c (λ x, set_c_idr (<[id := h]> (c_idr x)) x) ;;
  mod_handle h (set_h_id id) ;;
  y ← handle_at h;
  x ← client_at c;
  if bool_decide (is_Some (c_handles x !! h_buffer y)) then stuck else
  store_client c (set_c_handles (<[h_buffer y := h]> (c_handles x)) x) ;;
  mod_handle h (set_h_linked true) ;;
  mret 0.

(** The end of [ion_alloc] and of [ion_import_dma_buf]: a new handle is entered, or given up. *)
Definition add_handle (c h : Z) : M (ion W) (err Z) :=
  lock_client c ;;
  ret ← ion_handle_add c h;
  unlock_client c ;;
  if truthy ret then ion_handle_put h ;; mret (ERR_PTR ret) else mret (inr h).

(** ** What failures and debugfs print *)

(** The addresses in a tree, from [rb_first] on. *)
Definition rb_addresses (X : gset Z) : list Z := merge_sort Z.le (elements X).

(** A line for a client (name, process, size) and for a buffer without handles (process,
    size, mappings, references). *)
Inductive debug_line : Type :=
  | DClient (name : string) (pid tid size : Z)
  | DOrphan (name : string) (pid tid size kmap_cnt refcount : Z).
Record debug_report : Type := mk_report {
  r_lines : list debug_line; r_total : Z; r_total_orphaned : Z }.

Definition heap_of_buffer (b : Z) : M (ion W) heap := x ← buffer_at b; heap_at (b_heap x).

Fixpoint total_of (hs : list (Z * Z)) (id size : Z) : M (ion W) Z :=
  match hs with
  | [] => mret size
  | (_, h) :: hs =>
      y ← handle_at h;
      x ← buffer_at (h_buffer y);
      hp ← heap_at (b_heap x);
      total_of hs id (if hp_id hp =? id then u32 (size + b_size x) else size)
  end.
Definition ion_debug_heap_total (c id : Z) : M (ion W) Z :=
  lock_client c ;;
  x ← client_at c;
  size ← total_of (rb_nodes (c_handles x)) id 0;
  unlock_client c ;;
  mret size.

Definition shown_name (x : client) : string :=
  match c_task x with Some t => t_comm t | None => c_name x end.

Fixpoint err_clients (cs : list Z) (id : Z) : M (ion W) (list debug_line) :=
  match cs with
  | [] => mret []
  | c :: cs =>
      size ← ion_debug_heap_total c id;
      x ← client_at c;
      l ← err_clients cs id;
      mret (if truthy size then DClient (shown_name x) (c_pid x) (c_tid x) size :: l else l)
  end.

Fixpoint show_buffers (bs : list Z) (id : Z) (r : debug_report) : M (ion W) debug_report :=
  match bs with
  | [] => mret r
  | b :: bs =>
      x ← buffer_at b;
      hp ← heap_at (b_heap x);
      if negb (hp_id hp =? id) then show_buffers bs id r else
      let total := u32 (r_total r + b_size x) in
      show_buffers bs id
        (if b_handle_count x =? 0 then
           let '(comm, pid, tid) := b_task x in
           mk_report (r_lines r ++ [DOrphan comm pid tid (b_size x) (b_kmap_cnt x) (b_ref x)])
             total (u32 (r_total_orphaned r + b_size x))
         else mk_report (r_lines r) total (r_total_orphaned r))
  end.
Definition show_all_buffers (id : Z) (l : list debug_line) : M (ion W) debug_report :=
  mutex_lock LBuffers ;;
  s ← get;
  r ← show_buffers (rb_addresses (d_buffers s)) id (mk_report l 0 0);
  mutex_unlock LBuffers ;;
  mret r.

Definition ion_debug_heap_show_err (h : Z) : M (ion W) debug_report :=
  hp ← heap_at h;
  s ← get;
  l ← err_clients (rb_addresses (d_clients s)) (hp_id hp);
  show_all_buffers (hp_id hp) l.

Fixpoint show_handles (x : client) (hs : list (Z * Z)) (id : Z) : M (ion W) (list debug_line) :=
  match hs with
  | [] => mret []
  | (_, h) :: hs =>
      y ← handle_at h;
      z ← buffer_at (h_buffer y);
      hp ← heap_at (b_heap z);
      l ← show_handles x hs id;
      mret (if (hp_id hp =? id) && truthy (b_size z)
            then DClient (shown_name x) (c_pid x) (c_tid x) (b_size z) :: l else l)
  end.
Fixpoint show_clients (cs : list Z) (id : Z) : M (ion W) (list debug_line) :=
  match cs with
  | [] => mret []
  | c :: cs =>
      lock_client c ;;
      x ← client_at c;
      l ← show_handles x (rb_nodes (c_handles x)) id;
      unlock_client c ;;
      l' ← show_clients cs id;
      mret (l ++ l')
  end.
Definition ion_debug_heap_show (h : Z) : M (ion W) debug_report :=
  hp ← heap_at h;
  s ← get;
  l ← show_clients (rb_addresses (d_clients s)) (hp_id hp);
  show_all_buffers (hp_id hp) l.

(** The names and sizes of the heaps a client uses. *)
Fixpoint client_sizes (hs : list (Z * Z)) (sizes : list (option string * Z)) : M (ion W) (list (option string * Z)) :=
  match hs with
  | [] => mret sizes
  | (_, h) :: hs =>
      y ← handle_at h;
      x ← buffer_at (h_buffer y);
      hp ← heap_at (b_heap x);
      match sizes !! Z.to_nat (hp_id hp) with
      | Some (name, size) =>
          require (0 <=? hp_id hp) ;;
          client_sizes hs (<[Z.to_nat (hp_id hp) :=
            (Some (default (hp_name hp) name), u32 (size + b_size x))]> sizes)
      | None => undefined
      end
  end.
Definition ion_debug_client_show (c : Z) : M (ion W) (list (string * Z)) :=
  lock_client c ;;
  x ← client_at c;
  sizes ← client_sizes (rb_nodes (c_handles x)) (replicate (Z.to_nat ION_NUM_HEAP_IDS) (None, 0));
  unlock_client c ;;
  mret (omap (λ e, (λ name, (name, snd e)) <$> fst e) sizes).

(** ** Allocation *)

(** [plist_for_each_entry]: the buffer or the last error, and where the walk stopped; at
    its end [heap] points into the device and not to a heap. *)
Fixpoint try_heaps (hs : list Z) (heap_id_mask len align flags : Z) (buffer : option (err Z)) :
    M (ion W) (option (err Z) * option Z) :=
  match hs with
  | [] => mret (buffer, None)
  | h :: hs =>
      hp ← heap_at h;
      if negb (has_flag (u32 (Z.shiftl 1 (hp_id hp))) heap_id_mask)
      then try_heaps hs heap_id_mask len align flags buffer else
      b ← ion_buffer_create h len align flags;
      match b with
      | inl e => try_heaps hs heap_id_mask len align flags (Some (inl e))
      | inr b => mret (Some (inr b), Some h)
      end
  end.

Definition try_all_heaps (heap_id_mask len align flags : Z) : M (ion W) (option (err Z) * option Z) :=
  mutex_lock LDevice ;;
  s ← get;
  r ← try_heaps (d_heaps s) heap_id_mask len align flags None;
  mutex_unlock LDevice ;;
  mret r.

(** The mask that is tried first, and whether the one asked for is tried after it. *)
Definition a1000_mask (len heap_id_mask : Z) : Z * bool :=
  if len =? 480 * 800 * 4 then (Z.shiftl 1 3, true)
  else if heap_id_mask =? 0xffffffff then (Z.shiftl 1 1, true)
  else (heap_id_mask, false).

Definition is_buffer (r : option (err Z)) : bool := match r with Some (inr _) => true | _ => false end.

Definition ion_alloc (c len align heap_id_mask flags : Z) : M (ion W) (err Z) :=
  client_at c ;;
  if len =? 0 then mret (inl (- EINVAL)) else
  let len := PAGE_ALIGN len in
  let '(mask, a1000_fallback) := a1000_mask len heap_id_mask in
  r ← try_all_heaps mask len align flags;
  r ← (if negb (is_buffer (fst r)) && a1000_fallback then try_all_heaps heap_id_mask len align flags else mret r);
  let '(buffer, heap) := r in
  let show_err := match heap with Some h => ion_debug_heap_show_err h | None => undefined end in
  match buffer with
  | None => show_err ;; mret (inl (- ENODEV))
  | Some (inl e) => mret (inl e)
  | Some (inr b) =>
      handle ← ion_handle_create c b;
      ion_buffer_put b ;;
      match handle with
      | inl e => show_err ;; mret (inl e)
      | inr h => add_handle c h
      end
  end.

(** ** What clients do with their handles *)

Definition ion_free (c h : Z) : M (ion W) unit :=
  y ← handle_at h;
  if negb (c =? h_client y) then bug else
  lock_client c ;;
  valid_handle ← ion_handle_validate c h;
  if negb valid_handle then unlock_client c else
  unlock_client c ;;
  ion_handle_put h ;;
  mret tt.

Definition ion_phys (c h : Z) : M (ion W) (Z * Z * Z) :=
  lock_client c ;;
  valid ← ion_handle_validate c h;
  if negb valid then unlock_client c ;; mret (- EINVAL, 0, 0) else
  y ← handle_at h;
  hp ← heap_of_buffer (h_buffer y);
  if negb (has_phys (hp_ops hp)) then unlock_client c ;; mret (- ENODEV, 0, 0) else
  unlock_client c ;;
  x ← buffer_at (h_buffer y);
  call (KPhys (b_heap x) (h_buffer y)).

Definition ion_map_iommu (c h domain_no : Z) : M (ion W) (Z * Z) :=
  lock_client c ;;
  valid ← ion_handle_validate c h;
  if negb valid then unlock_client c ;; mret (- EINVAL, 0) else
  y ← handle_at h;
  let b := h_buffer y in
  hp ← heap_of_buffer b;
  if negb (has_map_iommu (hp_ops hp)) then unlock_client c ;; mret (- ENODEV, 0) else
  lock_buffer b ;;
  x ← buffer_at b;
  '(cnt, iova, ptr) ← call (KMapIommu (b_heap x) b domain_no);
  mod_buffer b (λ x, set_b_iomap_cnt cnt (set_b_iova iova x)) ;;
  unlock_buffer b ;;
  unlock_client c ;;
  mret (0, ptr).

Definition ion_unmap_iommu (c h domain_no : Z) : M (ion W) Z :=
  lock_client c ;;
  valid ← ion_handle_validate c h;
  if negb valid then unlock_client c ;; mret (- EINVAL) else
  y ← handle_at h;
  let b := h_buffer y in
  hp ← heap_of_buffer b;
  if negb (has_map_iommu (hp_ops hp)) then unlock_client c ;; mret (- ENODEV) else
  lock_buffer b ;;
  x ← buffer_at b;
  op has_unmap_iommu (b_heap x) ;;
  '(cnt, iova) ← call (KUnmapIommu (b_heap x) b domain_no);
  mod_buffer b (λ x, set_b_iomap_cnt cnt (set_b_iova iova x)) ;;
  unlock_buffer b ;;
  unlock_client c ;;
  mret 0.

Definition ion_map_kernel (c h : Z) : M (ion W) (err Z) :=
  lock_client c ;;
  valid ← ion_handle_validate c h;
  if negb valid then unlock_client c ;; mret (inl (- EINVAL)) else
  y ← handle_at h;
  let b := h_buffer y in
  hp ← heap_of_buffer b;
  if negb (has_map_kernel (hp_ops hp)) then unlock_client c ;; mret (inl (- ENODEV)) else
  lock_buffer b ;;
  vaddr ← ion_handle_kmap_get h;
  unlock_buffer b ;;
  unlock_client c ;;
  mret vaddr.

Definition ion_unmap_kernel (c h : Z) : M (ion W) unit :=
  lock_client c ;;
  y ← handle_at h;
  let b := h_buffer y in
  lock_buffer b ;;
  ion_handle_kmap_put h ;;
  unlock_buffer b ;;
  unlock_client c.

Definition ion_sg_table (c h : Z) : M (ion W) (err (list sg)) :=
  lock_client c ;;
  valid ← ion_handle_validate c h;
  if negb valid then unlock_client c ;; mret (inl (- EINVAL)) else
  y ← handle_at h;
  x ← buffer_at (h_buffer y);
  unlock_client c ;;
  mret (inr (b_sg_table x)).

(** ** Clients *)

Definition ion_client_create (name : string) : M (ion W) (err Z) :=
  t ← call KCurrent;
  call (KGetTask t) ;;
  when_ (t_kthread t) (call (KPutTask t)) ;;
  let task := if t_kthread t then None else Some t in
  c ← kzalloc;
  match c with
  | None =>
      match task with Some t => call (KPutTask t) | None => mret tt end ;;
      mret (inl (- ENOMEM))
  | Some c =>
      store_client c (mk_client ∅ ∅ name task (t_pid t) (t_tid t)) ;;
      mutex_lock LDevice ;;
      s ← get;
      (if bool_decide (c ∈ d_clients s) then stuck else modify (set_d_clients ({[c]} ∪ d_clients s))) ;;
      mutex_unlock LDevice ;;
      mret (inr c)
  end.

(** [while ((n = rb_first(&client->handles))) ion_handle_destroy(...)] *)
Fixpoint destroy_handles (fuel : nat) (c : Z) : M (ion W) unit :=
  x ← client_at c;
  match rb_nodes (c_handles x) with
  | [] => mret tt
  | (_, h) :: _ =>
      match fuel with O => stuck | S fuel => ion_handle_destroy h ;; destroy_handles fuel c end
  end.

Definition ion_client_destroy (c : Z) : M (ion W) unit :=
  x ← client_at c;
  destroy_handles (size (c_handles x)) c ;;
  mod_client c (set_c_idr ∅) ;;
  mutex_lock LDevice ;;
  match c_task x with Some t => call (KPutTask t) | None => mret tt end ;;
  s ← get;
  require (bool_decide (c ∈ d_clients s)) ;;
  modify (λ s, set_d_clients (d_clients s ∖ {[c]}) s) ;;
  mutex_unlock LDevice ;;
  kfree_client c.

(** ** dma-bufs and mappings into user space *)

(** The loop over the pages, from page [k] on: dirty pages are written back. *)
Fixpoint sync_pages (n : nat) (k : nat) (b : Z) : M (ion W) unit :=
  match n with
  | O => mret tt
  | S n =>
      x ← buffer_at b;
      match b_pages x with
      | Some pages =>
          match pages !! k with
          | Some (Some page) =>
              when_ (ion_buffer_page_is_dirty page) (call (KSyncPage page)) ;;
              store_buffer b (set_b_pages (Some (<[k := Some (ion_buffer_page_clean page)]> pages)) x) ;;
              sync_pages n (S k) b
          | _ => undefined
          end
      | None => undefined
      end
  end.
Fixpoint zap_all (vs : list Z) : M (ion W) unit :=
  match vs with
  | [] => mret tt
  | v :: vs => vma_at v ;; call (KZap v) ;; zap_all vs
  end.

Definition ion_buffer_sync_for_device (b : Z) : M (ion W) unit :=
  x ← buffer_at b;
  if negb (ion_buffer_fault_user_mappings x) then mret tt else
  lock_buffer b ;;
  sync_pages (Z.to_nat (PAGE_ALIGN (b_size x) / PAGE_SIZE)) 0 b ;;
  x ← buffer_at b;
  zap_all (b_vmas x) ;;
  unlock_buffer b.

Definition ion_map_dma_buf (d : Z) : M (ion W) (list sg) :=
  y ← dmabuf_at d;
  ion_buffer_sync_for_device (d_priv y) ;;
  x ← buffer_at (d_priv y);
  mret (b_sg_table x).
Definition ion_unmap_dma_buf (d : Z) : M (ion W) unit := mret tt.

Definition ion_vm_fault (v pgoff address : Z) : M (ion W) Z :=
  w ← vma_at v;
  match v_private w with
  | None => undefined
  | Some b =>
      lock_buffer b ;;
      x ← buffer_at b;
      match b_pages x with
      | Some pages =>
          require (0 <=? pgoff) ;;
          match pages !! Z.to_nat pgoff with
          | Some (Some page) =>
              let page := ion_buffer_page_dirty page in
              store_buffer b (set_b_pages (Some (<[Z.to_nat pgoff := Some page]> pages)) x) ;;
              (if page =? 0 then bug else mret tt) ;;
              ret ← call (KInsertPage v address (ion_buffer_page page));
              unlock_buffer b ;;
              mret (if truthy ret then VM_FAULT_ERROR else VM_FAULT_NOPAGE)
          | _ => undefined
          end
      | None => undefined
      end
  end.

Definition ion_vm_open (v : Z) : M (ion W) unit :=
  w ← vma_at v;
  match v_private w with
  | None => undefined
  | Some b =>
      buffer_at b ;;
      vma_list ← call KKmalloc;
      if negb vma_list then mret tt else
      lock_buffer b ;;
      mod_buffer b (λ x, set_b_vmas (v :: b_vmas x) x) ;;
      unlock_buffer b
  end.

(** The first entry of the area is taken from the list. *)
Fixpoint list_del (v : Z) (l : list Z) : list Z :=
  match l with [] => [] | u :: l => if u =? v then l else u :: list_del v l end.

Definition ion_vm_close (v : Z) : M (ion W) unit :=
  w ← vma_at v;
  match v_private w with
  | None => undefined
  | Some b =>
      lock_buffer b ;;
      mod_buffer b (λ x, set_b_vmas (list_del v (b_vmas x)) x) ;;
      unlock_buffer b
  end.

Definition ion_mmap (d v : Z) : M (ion W) Z :=
  y ← dmabuf_at d;
  let b := d_priv y in
  x ← buffer_at b;
  hp ← heap_at (b_heap x);
  if negb (has_map_user (hp_ops hp)) then mret (- EINVAL) else
  w ← vma_at v;
  if ion_buffer_fault_user_mappings x then
    store_vma v (mk_vma (v_file w) (Some b) (v_writecombine w)) ;;
    ion_vm_open v ;;
    mret 0
  else
    when_ (negb (has_flag (b_flags x) ION_FLAG_CACHED)) (store_vma v (mk_vma (v_file w) (v_private w) true)) ;;
    lock_buffer b ;;
    ret ← call (KMapUser (b_heap x) b v);
    unlock_buffer b ;;
    mret ret.

Definition ion_dma_buf_release (d : Z) : M (ion W) unit := y ← dmabuf_at d; ion_buffer_put (d_priv y).

Definition ion_dma_buf_kmap (d offset : Z) : M (ion W) Z :=
  y ← dmabuf_at d; x ← buffer_at (d_priv y); mret (u32 (b_vaddr x + offset * PAGE_SIZE)).
Definition ion_dma_buf_kunmap (d offset ptr : Z) : M (ion W) unit := mret tt.

Definition ion_dma_buf_begin_cpu_access (d : Z) : M (ion W) Z :=
  y ← dmabuf_at d;
  let b := d_priv y in
  hp ← heap_of_buffer b;
  if negb (has_map_kernel (hp_ops hp)) then mret (- ENODEV) else
  lock_buffer b ;;
  vaddr ← ion_buffer_kmap_get b;
  unlock_buffer b ;;
  mret (match vaddr with inl e => e | inr _ => 0 end).

Definition ion_dma_buf_end_cpu_access (d : Z) : M (ion W) unit :=
  y ← dmabuf_at d;
  let b := d_priv y in
  lock_buffer b ;;
  ion_buffer_kmap_put b ;;
  unlock_buffer b.

(** [dma_buf_export] *)
Definition dma_buf_export (b size : Z) : M (ion W) (err Z) :=
  s ← get;
  d ← call (KExport (dom (exported s)) b size);
  match d with
  | inl e => mret (inl e)
  | inr d => modify (λ s, set_exported (<[d := mk_dmabuf b size 0]> (exported s)) s) ;; mret (inr d)
  end.

Definition ion_share_dma_buf (c h : Z) : M (ion W) (err Z) :=
  lock_client c ;;
  valid_handle ← ion_handle_validate c h;
  if negb valid_handle then unlock_client c ;; mret (inl (- EINVAL)) else
  y ← handle_at h;
  let b := h_buffer y in
  ion_buffer_get b ;;
  unlock_client c ;;
  x ← buffer_at b;
  dmabuf ← dma_buf_export b (b_size x);
  match dmabuf with
  | inl e => ion_buffer_put b ;; mret (inl e)
  | inr d => mret (inr d)
  end.

Definition ion_share_dma_buf_fd (c h : Z) : M (ion W) Z :=
  dmabuf ← ion_share_dma_buf c h;
  match dmabuf with
  | inl e => mret e
  | inr d =>
      fd ← call (KDmaFd d);
      when_ (fd <? 0) (call (KDmaPut (Some d))) ;;
      mret fd
  end.

(** [dma_buf_get] *)
Definition dma_buf_get (fd : Z) : M (ion W) dma_found := s ← get; call (KDmaGet fd (dom (exported s))).

(** Entering the buffer of a dma-buf, with the two halves of the function: up to the first
    unlock, and from there on. *)
Definition import_lookup (c b : Z) : M (ion W) (err Z) :=
  lock_client c ;;
  handle ← ion_handle_lookup c b;
  match handle with
  | inr h => ion_handle_get h ;; unlock_client c ;; mret (inr h)
  | inl e => unlock_client c ;; mret (inl e)
  end.
Definition import_create (c b : Z) : M (ion W) (err Z) :=
  handle ← ion_handle_create c b;
  match handle with
  | inl e => mret (inl e)
  | inr h => add_handle c h
  end.

Definition ion_import_dma_buf (c fd : Z) : M (ion W) (err Z) :=
  dmabuf ← dma_buf_get fd;
  match dmabuf with
  | DError e => mret (inl e)
  | DForeign => call (KDmaPut None) ;; mret (inl (- EINVAL))
  | DIon d =>
      y ← dmabuf_at d;
      handle ← import_lookup c (d_priv y);
      handle ← match handle with inr h => mret (inr h) | inl _ => import_create c (d_priv y) end;
      call (KDmaPut (Some d)) ;;
      mret handle
  end.

(** [ion_invalidate_for_cpu] and [ion_sync_for_device] differ in the direction. *)
Definition sync_fd (fd : Z) (to_device : bool) : M (ion W) Z :=
  dmabuf ← dma_buf_get fd;
  match dmabuf with
  | DError e => mret e
  | DForeign => call (KDmaPut None) ;; mret (- EINVAL)
  | DIon d =>
      y ← dmabuf_at d;
      x ← buffer_at (d_priv y);
      call (KSyncSg (b_sg_table x) to_device) ;;
      call (KDmaPut (Some d)) ;;
      mret 0
  end.
Definition ion_invalidate_for_cpu (c fd : Z) : M (ion W) Z := sync_fd fd false.
Definition ion_sync_for_device (c fd : Z) : M (ion W) Z := sync_fd fd true.

(** ** The device node *)

Definition ion_ioctl_dir (cmd : Z) : Z :=
  if (cmd =? ION_IOC_SYNC) || (cmd =? ION_IOC_FREE) || (cmd =? ION_IOC_CUSTOM) then IOC_WRITE else IOC_DIR cmd.

(** The union of the arguments, a word of 32 bits each; [None] is a word that was not
    copied from user space.  [ion_fd_data] is a handle and a descriptor, [ion_handle_data]
    a handle, [ion_allocation_data] length, alignment, mask, flags and handle, and
    [ion_custom_data] a number and an argument. *)
Definition ioctl_data : Type := list (option Z).
Definition data_words : nat := 5.
Definition word (data : ioctl_data) (i : nat) : M (ion W) Z :=
  match data !! i with Some (Some w) => mret w | _ => undefined end.
Definition set_word (i : nat) (w : Z) (data : ioctl_data) : ioctl_data := <[i := Some (u32 w)]> data.

Section ioctl.
(** [dev->custom_ioctl], which the board supplies. *)
Context (custom_ioctl : Z → Z → Z → M (ion W) Z).

(** The cases of the switch: what the function returns at once, or its result so far, the
    data, and the handle to give up when the data cannot be copied. *)
Inductive ioctl_next : Type := Return (ret : Z) | Break (ret : Z) (data : ioctl_data) (cleanup_handle : option Z).

Definition do_alloc (c : Z) (data : ioctl_data) : M (ion W) ioctl_next :=
  len ← word data 0;
  align ← word data 1;
  mask ← word data 2;
  flags ← word data 3;
  handle ← ion_alloc c len align mask flags;
  match handle with
  | inl e => mret (Return e)
  | inr h => y ← handle_at h; mret (Break 0 (set_word 4 (h_id y) data) (Some h))
  end.

Definition do_free (c : Z) (data : ioctl_data) : M (ion W) ioctl_next :=
  id ← word data 0;
  handle ← ion_handle_get_by_id c (swrap 32 id);
  match handle with
  | inl e => mret (Return e)
  | inr h => ion_free c h ;; ion_handle_put h ;; mret (Break 0 data None)
  end.

Definition do_share (c : Z) (data : ioctl_data) : M (ion W) ioctl_next :=
  id ← word data 0;
  handle ← ion_handle_get_by_id c (swrap 32 id);
  match handle with
  | inl e => mret (Return e)
  | inr h =>
      fd ← ion_share_dma_buf_fd c h;
      ion_handle_put h ;;
      mret (Break (if fd <? 0 then fd else 0) (set_word 1 fd data) None)
  end.

Definition do_import (c : Z) (data : ioctl_data) : M (ion W) ioctl_next :=
  fd ← word data 1;
  handle ← ion_import_dma_buf c (swrap 32 fd);
  match handle with
  | inl e => mret (Break e data None)
  | inr h => y ← handle_at h; mret (Break 0 (set_word 0 (h_id y) data) None)
  end.

Definition ioctl_switch (c cmd : Z) (data : ioctl_data) : M (ion W) ioctl_next :=
  if cmd =? ION_IOC_ALLOC then do_alloc c data
  else if cmd =? ION_IOC_FREE then do_free c data
  else if (cmd =? ION_IOC_SHARE) || (cmd =? ION_IOC_MAP) then do_share c data
  else if cmd =? ION_IOC_IMPORT then do_import c data
  else if cmd =? ION_IOC_INVALIDATE then
    fd ← word data 1; ret ← ion_invalidate_for_cpu c (swrap 32 fd); mret (Break ret data None)
  else if cmd =? ION_IOC_SYNC then
    fd ← word data 1; ret ← ion_sync_for_device c (swrap 32 fd); mret (Break ret data None)
  else if cmd =? ION_IOC_CUSTOM then
    s ← get;
    if negb (d_custom s) then mret (Return (- ENOTTY)) else
    n ← word data 0;
    arg ← word data 1;
    ret ← custom_ioctl c n arg;
    mret (Break ret data None)
  else mret (Return (- ENOTTY)).

Definition ion_ioctl (c cmd arg : Z) : M (ion W) Z :=
  client_at c ;;
  let dir := ion_ioctl_dir cmd in
  if 4 * Z.of_nat data_words <? IOC_SIZE cmd then mret (- EINVAL) else
  copied ← (if has_flag dir IOC_WRITE then call (KCopyFrom arg (IOC_SIZE cmd)) else mret (Some []));
  match copied with
  | None => mret (- EFAULT)
  | Some ws =>
      next ← ioctl_switch c cmd (take data_words ((Some <$> ws) ++ replicate data_words None));
      match next with
      | Return ret => mret ret
      | Break ret data cleanup_handle =>
          if has_flag dir IOC_READ then
            failed ← call (KCopyTo arg (take (Z.to_nat (IOC_SIZE cmd / 4)) data));
            if failed : bool then
              match cleanup_handle with Some h => ion_free c h | None => mret tt end ;;
              mret (- EFAULT)
            else mret ret
          else mret ret
      end
  end.
End ioctl.

(** [file->private_data] becomes the client. *)
Definition ion_open : M (ion W) (err Z) := ion_client_create "user".
Definition ion_release (c : Z) : M (ion W) Z := ion_client_destroy c ;; mret 0.

(** ** The device *)

(** The heaps are in the order of their numbers, the highest first. *)
Fixpoint plist_add (prio : Z → Z) (h : Z) (l : list Z) : list Z :=
  match l with
  | [] => [h]
  | k :: l => if prio k <=? prio h then k :: plist_add prio h l else h :: k :: l
  end.
Definition heap_prio (s : ion W) (h : Z) : Z := match heaps s !! h with Some hp => - hp_id hp | None => 0 end.

Definition ion_device_add_heap (h : Z) : M (ion W) unit :=
  hp ← heap_at h;
  when_ (has_flag (hp_flags hp) ION_HEAP_FLAG_DEFER_FREE) (call (KInitDeferred h)) ;;
  mutex_lock LDevice ;;
  modify (λ s, set_d_heaps (plist_add (heap_prio s) h (d_heaps s)) s) ;;
  mutex_unlock LDevice.

Definition ion_device_create (custom_ioctl : bool) : M (ion W) Z :=
  idev ← call KKmalloc;
  if negb idev then mret (- ENOMEM) else
  modify (set_d_live true) ;;
  ret ← call KMiscRegister;
  if truthy ret then mret ret else
  modify (λ s, set_d_custom custom_ioctl (set_d_buffers ∅ (set_d_heaps [] (set_d_clients ∅ s)))) ;;
  mret 0.

Definition ion_device_destroy : M (ion W) unit := call KMiscDeregister ;; modify (set_d_live false).

(** [struct ion_platform_heap] *)
Record platform_heap : Type := mk_platform { p_name : string; p_base : Z; p_size : Z; p_align : Z }.
Definition set_p_base (x : Z) (p : platform_heap) : platform_heap := mk_platform (p_name p) x (p_size p) (p_align p).

Fixpoint ion_reserve (data : list platform_heap) : M (ion W) (list platform_heap) :=
  match data with
  | [] => mret []
  | p :: data =>
      p ← (if p_size p =? 0 then mret p
           else if p_base p =? 0 then
             paddr ← call (KMemblockAlloc (p_size p) (p_align p));
             mret (if paddr =? 0 then p else set_p_base paddr p)
           else call (KMemblockReserve (p_base p) (p_size p)) ;; mret p);
      data ← ion_reserve data;
      mret (p :: data)
  end.
End ops.
