(* ===== verification/IonInv.v ===== *)
(** * ION: the invariant

    Handles and the tables of their clients agree; a buffer has as many references as it
    has handles and dma-bufs, counts its handles and its mappings, and is in the tree of
    the device or waits on the list of its heap to be freed; areas of user space and the
    buffers they map know each other; and the memory taken from heaps is that of the
    buffers, up to what a failed [vmalloc] lost.  A [ghost] tells what a function that is
    under way holds besides.  Each change a function makes to the tables or the counts is
    one lemma. *)

From S2P Require Import Prelude CMonad Ion.

(** ** Sums over maps *)

Definition total {A} (f : A → Z) (m : gmap Z A) : Z := map_fold (λ _ x n, f x + n) 0 m.

Section totals.
Context {A : Type}.
Implicit Types (f g : A → Z) (m : gmap Z A).

Lemma total_empty f : total f ∅ = 0.
Proof. done. Qed.
Lemma total_insert f m i x : m !! i = None → total f (<[i := x]> m) = f x + total f m.
Proof. intros Hi. unfold total. rewrite map_fold_insert_L; [done|intros; lia|done]. Qed.
Lemma total_delete f m i x : m !! i = Some x → total f m = f x + total f (delete i m).
Proof. intros Hi. rewrite <- (insert_delete_id m i x Hi) at 1. by apply total_insert, lookup_delete_eq. Qed.
Lemma total_update f m i x y : m !! i = Some x → total f (<[i := y]> m) = total f m - f x + f y.
Proof.
  intros Hi. rewrite (total_delete f m i x Hi), <- (insert_delete_eq m), total_insert by apply lookup_delete_eq. lia.
Qed.
Lemma total_same f m i x y : m !! i = Some x → f y = f x → total f (<[i := y]> m) = total f m.
Proof. intros Hi Hf. rewrite (total_update f m i x y Hi). lia. Qed.
Lemma total_nonneg f m : (∀ i x, m !! i = Some x → 0 <= f x) → 0 <= total f m.
Proof.
  induction m as [|i x m Hi IH] using map_ind; intros Hf; [done|].
  rewrite total_insert by done. assert (0 <= f x) by (eapply Hf, lookup_insert_eq).
  assert (0 <= total f m); [|lia]. apply IH. intros j y Hj. apply (Hf j).
  rewrite lookup_insert_ne by congruence. done.
Qed.
Lemma total_elem f m i x : (∀ j y, m !! j = Some y → 0 <= f y) → m !! i = Some x → f x <= total f m.
Proof.
  intros Hf Hi. rewrite (total_delete f m i x Hi). assert (0 <= total f (delete i m)); [|lia].
  apply total_nonneg. intros j y [_ Hj]%lookup_delete_Some. eauto.
Qed.
Lemma total_zero f m i x : (∀ j y, m !! j = Some y → 0 <= f y) → total f m = 0 → m !! i = Some x → f x = 0.
Proof.
  intros Hf H0 Hi. pose proof (total_elem f m i x Hf Hi). pose proof (Hf i x Hi). lia.
Qed.
Lemma total_ext f g m : (∀ i x, m !! i = Some x → f x = g x) → total f m = total g m.
Proof.
  induction m as [|i x m Hi IH] using map_ind; intros Hf; [done|].
  rewrite !total_insert by done. rewrite (Hf i x) by apply lookup_insert_eq. f_equal. apply IH.
  intros j y Hj. apply (Hf j). rewrite lookup_insert_ne by congruence. done.
Qed.
Lemma total_none f m : (∀ i x, m !! i = Some x → f x = 0) → total f m = 0.
Proof.
  induction m as [|i x m Hi IH] using map_ind; intros Hf; [done|].
  rewrite total_insert, (Hf i x), IH; [done| |apply lookup_insert_eq|done].
  intros j y Hj. apply (Hf j). rewrite lookup_insert_ne by congruence. done.
Qed.
End totals.

Definition b2z (b : bool) : Z := if b then 1 else 0.
Lemma b2z_range b : 0 <= b2z b <= 1.
Proof. by destruct b. Qed.

(** What a handle and a dma-buf count for at buffer [b]: references, handles and mappings. *)
Definition handle_of (b : Z) (y : handle) : Z := b2z (h_buffer y =? b).
Definition mapped_of (b : Z) (y : handle) : Z := b2z ((h_buffer y =? b) && negb (h_kmap_cnt y =? 0)).
Definition dmabuf_of (b : Z) (y : dmabuf) : Z := b2z (d_priv y =? b).
Definition access_of (b : Z) (y : dmabuf) : Z := if d_priv y =? b then d_access y else 0.

(** ** Memory of heaps: taken, given back, and lost when [vmalloc] fails *)

Definition mem_of (v : kevent) : Z :=
  match v with KEv e a =>
    match e in ksys A return A → Z with
    | KAllocate _ _ _ _ _ => λ ret, if truthy ret then 0 else 1
    | KFree _ _ => λ _, -1
    | KVmalloc _ => λ ok, if ok : bool then 0 else -1
    | _ => λ _, 0
    end a
  end.
Definition mem (l : list kevent) : Z := foldr Z.add 0 (mem_of <$> l).
Lemma mem_snoc l v : mem (l ++ [v]) = mem l + mem_of v.
Proof. unfold mem. rewrite fmap_app. induction (mem_of <$> l) as [|x r IH]; simpl in *; lia. Qed.

(** ** The laws of the kernel and of heaps *)

Definition heap_ok `{!IonAbi} (hp : heap) : Prop :=
  let o := hp_ops hp in
  has_allocate o = true ∧ has_free o = true ∧ has_map_dma o = true ∧ has_unmap_dma o = true ∧
  has_unmap_kernel o = true ∧
  (has_map_iommu o = true → has_unmap_iommu o = true) ∧
  0 <= hp_id hp < ION_NUM_HEAP_IDS.

(** The pages of a scatter list. *)
Definition table_pages (table : list sg) : nat := sum_list ((λ g, Z.to_nat (sg_dma_len g / PAGE_SIZE)) <$> table).
Definition pages_of (len : Z) : nat := Z.to_nat (PAGE_ALIGN len / PAGE_SIZE).

Class KernelOk (W : Type) `{!Kernel W} : Type := {
  kzalloc_fresh : ∀ live w a, fst (do_ksys (KZalloc live) w) = Some a → a ∉ live;
  idr_fresh : ∀ used w, let id := fst (do_ksys (KIdr used) w) in
    (id < 0 → - MAX_ERRNO <= id) ∧ (0 <= id → 1 <= id ∧ id ∉ used);
  allocate_errno : ∀ h b len align flags w, let ret := fst (do_ksys (KAllocate h b len align flags) w) in
    ret ≠ 0 → - MAX_ERRNO <= ret < 0;
  map_dma_pages : ∀ h b len w table, fst (do_ksys (KMapDma h b len) w) = Some (inr table) → table_pages table = pages_of len;
  map_kernel_errno : ∀ h b w e, fst (do_ksys (KMapKernel h b) w) = Some (inl e) → - MAX_ERRNO <= e < 0;
  drain_mine : ∀ h cached size l w, let bs := fst (do_ksys (KDrain h cached size l) w) in bs ⊆ l ∧ NoDup bs;
  export_fresh : ∀ live b size w d, fst (do_ksys (KExport live b size) w) = inr d → d ∉ live;
  dma_get_live : ∀ fd live w d, fst (do_ksys (KDmaGet fd live) w) = DIon d → d ∈ live;
  copy_words : ∀ arg size w ws, fst (do_ksys (KCopyFrom arg size) w) = Some ws → length ws = Z.to_nat (size / 4) }.

(** The commands: [_IOWR] of 20 bytes, of 4 bytes (a handle), and of 8 bytes. *)
Definition command_ok (cmd size : Z) : Prop := IOC_SIZE cmd = size ∧ IOC_DIR cmd = Z.lor IOC_READ IOC_WRITE.
Class IonAbiOk `{!IonAbi} : Prop := {
  abi_alloc : command_ok ION_IOC_ALLOC 20;
  abi_free : command_ok ION_IOC_FREE 4;
  abi_map : command_ok ION_IOC_MAP 8;
  abi_share : command_ok ION_IOC_SHARE 8;
  abi_import : command_ok ION_IOC_IMPORT 8;
  abi_custom : command_ok ION_IOC_CUSTOM 8;
  abi_sync : command_ok ION_IOC_SYNC 8;
  abi_invalidate : command_ok ION_IOC_INVALIDATE 8;
  abi_distinct : NoDup [ION_IOC_ALLOC; ION_IOC_FREE; ION_IOC_MAP; ION_IOC_SHARE; ION_IOC_IMPORT; ION_IOC_CUSTOM;
    ION_IOC_SYNC; ION_IOC_INVALIDATE] }.

(** ** Handles and the tables of their clients

    [lo] is a handle that is not in the tables, because it was made just now. *)
Record tables (lo : option Z) (hs : gmap Z handle) (cs : gmap Z client) : Prop := {
  tb_handle : ∀ h y, hs !! h = Some y → ∃ x, cs !! h_client y = Some x ∧
    if decide (lo = Some h) then h_linked y = false ∧ h_id y = 0
    else h_linked y = true ∧ c_idr x !! h_id y = Some h ∧ c_handles x !! h_buffer y = Some h;
  tb_idr : ∀ c x id h, cs !! c = Some x → c_idr x !! id = Some h →
    1 <= id ∧ ∃ y, hs !! h = Some y ∧ h_client y = c ∧ h_id y = id ∧ lo ≠ Some h;
  tb_tree : ∀ c x b h, cs !! c = Some x → c_handles x !! b = Some h →
    ∃ y, hs !! h = Some y ∧ h_client y = c ∧ h_buffer y = b ∧ lo ≠ Some h }.

Section tables.
Implicit Types (hs : gmap Z handle) (cs : gmap Z client).

Lemma tables_same lo hs cs h y y' :
  tables lo hs cs → hs !! h = Some y →
  h_client y' = h_client y → h_linked y' = h_linked y → h_id y' = h_id y → h_buffer y' = h_buffer y →
  tables lo (<[h := y']> hs) cs.
Proof.
  intros [Th Ti Tt] Hh Ec El Ei Eb. split.
  - intros k z. rewrite lookup_insert_Some. intros [[<- <-]|[? Hk]]; [|by apply Th].
    rewrite Ec, El, Ei, Eb. by apply Th.
  - intros c x id k Hc Hk. destruct (Ti c x id k Hc Hk) as (Hid & z & Hz & ? & ? & ?). split; [done|].
    destruct (decide (h = k)) as [<-|]; [|exists z; by rewrite lookup_insert_ne].
    simplify_eq. exists y'. rewrite lookup_insert_eq. repeat split; congruence.
  - intros c x b k Hc Hk. destruct (Tt c x b k Hc Hk) as (z & Hz & ? & ? & ?).
    destruct (decide (h = k)) as [<-|]; [|exists z; by rewrite lookup_insert_ne].
    simplify_eq. exists y'. rewrite lookup_insert_eq. repeat split; congruence.
Qed.

Lemma tables_new hs cs h y :
  tables None hs cs → hs !! h = None → is_Some (cs !! h_client y) → h_linked y = false → h_id y = 0 →
  tables (Some h) (<[h := y]> hs) cs.
Proof.
  intros [Th Ti Tt] Hh [x Hx] El Ei. split.
  - intros k z. rewrite lookup_insert_Some. intros [[<- <-]|[? Hk]].
    + exists x. by rewrite decide_True.
    + destruct (Th k z Hk) as (x' & ? & ?). exists x'. rewrite decide_False by congruence. done.
  - intros c z id k Hc Hk. destruct (Ti c z id k Hc Hk) as (Hid & w & Hw & ? & ? & ?). split; [done|].
    exists w. rewrite lookup_insert_ne by congruence. repeat split; congruence.
  - intros c z b k Hc Hk. destruct (Tt c z b k Hc Hk) as (w & Hw & ? & ? & ?).
    exists w. rewrite lookup_insert_ne by congruence. repeat split; congruence.
Qed.

Lemma tables_link hs cs h y x id :
  tables (Some h) hs cs → hs !! h = Some y → cs !! h_client y = Some x →
  1 <= id → c_idr x !! id = None → c_handles x !! h_buffer y = None →
  tables None (<[h := set_h_linked true (set_h_id id y)]> hs)
    (<[h_client y := set_c_handles (<[h_buffer y := h]> (c_handles x)) (set_c_idr (<[id := h]> (c_idr x)) x)]> cs).
Proof.
  intros [Th Ti Tt] Hh Hc Hid Hidr Htree. split.
  - intros k z. rewrite lookup_insert_Some. intros [[<- <-]|[? Hk]].
    + eexists. rewrite decide_False by done. split; [apply lookup_insert_eq|]. cbn. by rewrite !lookup_insert_eq.
    + destruct (Th k z Hk) as (x' & Hx' & Hz). rewrite decide_False in Hz by congruence.
      destruct (decide (h_client z = h_client y)) as [E|].
      * rewrite E in Hx' |- *. simplify_eq. eexists. split; [apply lookup_insert_eq|]. cbn.
        destruct Hz as (Hl & Hz1 & Hz2). rewrite !lookup_insert_ne; [done|congruence..].
      * exists x'. rewrite lookup_insert_ne by done. rewrite decide_False by done. done.
  - intros c z i k. rewrite lookup_insert_Some. intros [[<- <-]|[? Hz]] Hk.
    + cbn in Hk. rewrite lookup_insert_Some in Hk. destruct Hk as [[<- <-]|[? Hk]].
      * split; [done|]. eexists. split; [apply lookup_insert_eq|]. done.
      * destruct (Ti _ _ _ _ Hc Hk) as (? & w & ? & ? & ? & ?). split; [done|]. exists w.
        rewrite lookup_insert_ne by congruence. done.
    + destruct (Ti _ _ _ _ Hz Hk) as (? & w & ? & ? & ? & ?). split; [done|]. exists w.
      rewrite lookup_insert_ne by congruence. done.
  - intros c z b k. rewrite lookup_insert_Some. intros [[<- <-]|[? Hz]] Hk.
    + cbn in Hk. rewrite lookup_insert_Some in Hk. destruct Hk as [[<- <-]|[? Hk]].
      * eexists. split; [apply lookup_insert_eq|]. done.
      * destruct (Tt _ _ _ _ Hc Hk) as (w & ? & ? & ? & ?). exists w.
        rewrite lookup_insert_ne by congruence. done.
    + destruct (Tt _ _ _ _ Hz Hk) as (w & ? & ? & ? & ?). exists w.
      rewrite lookup_insert_ne by congruence. done.
Qed.

(** What [ion_handle_destroy] does to the tables of the client. *)
Definition unlinked (y : handle) (x : client) : client :=
  let x := set_c_idr (delete (h_id y) (c_idr x)) x in
  if h_linked y then set_c_handles (delete (h_buffer y) (c_handles x)) x else x.

Lemma tables_drop lo hs cs h y x :
  tables lo hs cs → lo = None ∨ lo = Some h → hs !! h = Some y → cs !! h_client y = Some x →
  tables None (delete h hs) (<[h_client y := unlinked y x]> cs).
Proof.
  intros Hall Hlo Hh Hc. pose proof Hall as [Th Ti Tt].
  assert (Hy : if h_linked y then c_idr x !! h_id y = Some h ∧ c_handles x !! h_buffer y = Some h else h_id y = 0).
  { destruct (Th h y Hh) as (z & Hz & Hy). rewrite Hc in Hz. injection Hz as <-.
    case_decide; destruct Hy as [El Hy]; by rewrite El. }
  assert (Hidr : ∀ id k, c_idr (unlinked y x) !! id = Some k ↔ h_id y ≠ id ∧ c_idr x !! id = Some k).
  { intros id k. unfold unlinked. destruct (h_linked y); cbn; apply lookup_delete_Some. }
  assert (Htree : ∀ b k, c_handles (unlinked y x) !! b = Some k ↔
    (h_linked y = true → h_buffer y ≠ b) ∧ c_handles x !! b = Some k).
  { intros b k. unfold unlinked. destruct (h_linked y); cbn.
    - rewrite lookup_delete_Some. split; intros [? ?]; split; auto.
    - split; [intros Hk; split; [done|exact Hk]|by intros [_ ?]]. }
  split.
  - intros k z [Hne Hk]%lookup_delete_Some. destruct (Th k z Hk) as (x' & Hx' & Hz).
    rewrite decide_False in Hz by (destruct Hlo; congruence). destruct Hz as (Hl & Hz1 & Hz2).
    destruct (decide (h_client z = h_client y)) as [E|]; [|exists x'; rewrite lookup_insert_ne, decide_False by done; done].
    rewrite E in Hx' |- *. rewrite Hc in Hx'. injection Hx' as <-. eexists. split; [apply lookup_insert_eq|].
    rewrite decide_False by done. split; [done|]. rewrite Hidr, Htree. repeat split; [|done| |done].
    + intros Ei. destruct (h_linked y); [destruct Hy; congruence|].
      destruct (Ti _ _ _ _ Hc Hz1) as [? _]. lia.
    + intros El Eb. rewrite El in Hy. destruct Hy. congruence.
  - intros c z i k. rewrite lookup_insert_Some. intros [[<- <-]|[Hne Hz]] Hk.
    + apply Hidr in Hk as [Hid Hk]. destruct (Ti _ _ _ _ Hc Hk) as (? & w & Hw & ? & ? & ?). split; [done|]. exists w.
      rewrite lookup_delete_ne by congruence. done.
    + destruct (Ti _ _ _ _ Hz Hk) as (? & w & ? & ? & ? & ?). split; [done|]. exists w.
      rewrite lookup_delete_ne by congruence. done.
  - intros c z b k. rewrite lookup_insert_Some. intros [[<- <-]|[Hne Hz]] Hk.
    + apply Htree in Hk as [Hb Hk]. destruct (Tt _ _ _ _ Hc Hk) as (w & ? & ? & ? & ?). exists w.
      rewrite lookup_delete_ne; [done|]. intros <-. destruct (Th _ _ Hh) as (x' & _ & Hl).
      rewrite decide_False in Hl by done. destruct Hl as (Hl & _). apply (Hb Hl). congruence.
    + destruct (Tt _ _ _ _ Hz Hk) as (w & ? & ? & ? & ?). exists w.
      rewrite lookup_delete_ne by congruence. done.
Qed.

Lemma tables_client_new lo hs cs c x :
  tables lo hs cs → cs !! c = None → c_idr x = ∅ → c_handles x = ∅ → tables lo hs (<[c := x]> cs).
Proof.
  intros [Th Ti Tt] Hc Hi Ht. split.
  - intros h y Hh. destruct (Th h y Hh) as (z & Hz & ?). exists z.
    rewrite lookup_insert_ne by congruence. done.
  - intros d z id h. rewrite lookup_insert_Some. intros [[<- <-]|[? Hz]]; [|by apply Ti].
    by rewrite Hi, lookup_empty.
  - intros d z b h. rewrite lookup_insert_Some. intros [[<- <-]|[? Hz]]; [|by apply Tt].
    by rewrite Ht, lookup_empty.
Qed.

Lemma tables_client_delete hs cs c x :
  tables None hs cs → cs !! c = Some x → c_handles x = ∅ → tables None hs (delete c cs).
Proof.
  intros [Th Ti Tt] Hc Ht. split.
  - intros h y Hh. destruct (Th h y Hh) as (z & Hz & Hy). exists z. rewrite decide_False in Hy by done.
    rewrite lookup_delete_ne; [by rewrite decide_False|]. intros ->. simplify_eq. destruct Hy as (_ & _ & Hy).
    by rewrite Ht, lookup_empty in Hy.
  - intros d z id h [? Hz]%lookup_delete_Some. by apply Ti.
  - intros d z b h [? Hz]%lookup_delete_Some. by apply Tt.
Qed.

(** A client without handles has no numbers in use. *)
Lemma tables_idr_empty hs cs c x : tables None hs cs → cs !! c = Some x → c_handles x = ∅ → c_idr x = ∅.
Proof.
  intros [Th Ti Tt] Hc Ht. apply map_empty. intros id. destruct (c_idr x !! id) as [h|] eqn:E; [|done].
  destruct (Ti _ _ _ _ Hc E) as (_ & y & Hy & <- & _ & _). destruct (Th _ _ Hy) as (z & Hz & Hl).
  rewrite decide_False in Hl by done. simplify_eq. destruct Hl as (_ & _ & Hl). by rewrite Ht, lookup_empty in Hl.
Qed.
End tables.

(** ** References, handles and mappings of buffers

    [pins] are references a function holds itself; [N] bounds every count. *)
Record counts (N : Z) (pins : Z → Z) (hs : gmap Z handle) (ex : gmap Z dmabuf) (bs : gmap Z buffer) (D : gset Z) : Prop := {
  cn_buffer : ∀ b, b ∈ D → ∃ x, bs !! b = Some x ∧
    b_ref x = total (handle_of b) hs + total (dmabuf_of b) ex + pins b ∧ 1 <= b_ref x <= N ∧
    b_handle_count x = total (handle_of b) hs ∧
    b_kmap_cnt x = total (mapped_of b) hs + total (access_of b) ex ∧ b_kmap_cnt x <= N;
  cn_handle : ∀ h y, hs !! h = Some y → h_buffer y ∈ D ∧ 0 <= h_ref y <= N ∧ 0 <= h_kmap_cnt y <= N;
  cn_dmabuf : ∀ d y, ex !! d = Some y → d_priv y ∈ D ∧ 0 <= d_access y;
  cn_pins : ∀ b, 0 <= pins b ∧ (pins b ≠ 0 → b ∈ D) }.

(** One more, or one less, reference held. *)
Definition pin_add (b n : Z) (pins : Z → Z) : Z → Z := λ c, if c =? b then pins c + n else pins c.
Lemma pin_add_eq b n pins : pin_add b n pins b = pins b + n.
Proof. unfold pin_add. by rewrite Z.eqb_refl. Qed.
Lemma pin_add_ne b c n pins : c ≠ b → pin_add b n pins c = pins c.
Proof. unfold pin_add. intros. by destruct (Z.eqb_spec c b). Qed.

Lemma handle_of_nonneg b (hs : gmap Z handle) : ∀ h y, hs !! h = Some y → 0 <= handle_of b y.
Proof. intros h y _. apply b2z_range. Qed.
Lemma dmabuf_of_nonneg b (ex : gmap Z dmabuf) : ∀ d y, ex !! d = Some y → 0 <= dmabuf_of b y.
Proof. intros d y _. apply b2z_range. Qed.
Lemma mapped_of_nonneg b (hs : gmap Z handle) : ∀ h y, hs !! h = Some y → 0 <= mapped_of b y.
Proof. intros h y _. apply b2z_range. Qed.

Lemma mapped_of_le b (hs : gmap Z handle) : total (mapped_of b) hs <= total (handle_of b) hs.
Proof.
  induction hs as [|i x m Hi IH] using map_ind; [done|]. rewrite !total_insert by done.
  assert (mapped_of b x <= handle_of b x); [|lia]. unfold mapped_of, handle_of. by destruct (_ =? b), (h_kmap_cnt x =? 0).
Qed.

Section counts.
Context {N : Z} {pins : Z → Z} {hs : gmap Z handle} {ex : gmap Z dmabuf} {bs : gmap Z buffer} {D : gset Z}.
Abbreviation counts0 := (counts N pins hs ex bs D).

Lemma access_of_nonneg : counts0 → ∀ b d y, ex !! d = Some y → 0 <= access_of b y.
Proof. intros Hc b d y Hd. unfold access_of. destruct (_ =? b); [|done]. by apply (cn_dmabuf _ _ _ _ _ _ Hc) in Hd as [_ ?]. Qed.

Lemma counts_mono N' : counts0 → N <= N' → counts N' pins hs ex bs D.
Proof.
  intros [Hb Hh Hd Hp] HN. split; [|intros h y Hy; destruct (Hh h y Hy) as (? & ? & ?); repeat split; first [done|lia]|done|done].
  intros b HbD. destruct (Hb b HbD) as (x & ? & ? & ? & ? & ? & ?). exists x. repeat split; first [done|lia].
Qed.
Lemma counts_pins pins' : counts0 → (∀ b, pins' b = pins b) → counts N pins' hs ex bs D.
Proof.
  intros [Hb Hh Hd Hp] E. split; [|done|done|by intros b; rewrite E].
  intros b HbD. destruct (Hb b HbD) as (x & ? & ? & ?). exists x. by rewrite E.
Qed.

(** Nothing refers to a buffer outside of the tree. *)
Lemma counts_outside b : counts0 → b ∉ D →
  total (handle_of b) hs = 0 ∧ total (dmabuf_of b) ex = 0 ∧ total (mapped_of b) hs = 0 ∧ total (access_of b) ex = 0 ∧ pins b = 0.
Proof.
  intros [Hb Hh Hd Hp] Hout. repeat split.
  - apply total_none. intros h y Hy. unfold handle_of. destruct (Z.eqb_spec (h_buffer y) b); [|done].
    subst. by apply Hh in Hy as [? _].
  - apply total_none. intros h y Hy. unfold dmabuf_of. destruct (Z.eqb_spec (d_priv y) b); [|done].
    subst. by apply Hd in Hy as [? _].
  - apply total_none. intros h y Hy. unfold mapped_of. destruct (Z.eqb_spec (h_buffer y) b); [|done].
    subst. by apply Hh in Hy as [? _].
  - apply total_none. intros h y Hy. unfold access_of. destruct (Z.eqb_spec (d_priv y) b); [|done].
    subst. by apply Hd in Hy as [? _].
  - destruct (Hp b) as [_ Hp']. destruct (decide (pins b = 0)); [done|]. exfalso. auto.
Qed.

(** A change to one buffer, and to what counts for it. *)
Lemma counts_change N' pins' hs' ex' b x' :
  counts0 → N <= N' → b ∈ D →
  (∀ c, c ≠ b → total (handle_of c) hs' = total (handle_of c) hs ∧ total (dmabuf_of c) ex' = total (dmabuf_of c) ex ∧
     total (mapped_of c) hs' = total (mapped_of c) hs ∧ total (access_of c) ex' = total (access_of c) ex ∧ pins' c = pins c) →
  b_ref x' = total (handle_of b) hs' + total (dmabuf_of b) ex' + pins' b → 1 <= b_ref x' <= N' →
  b_handle_count x' = total (handle_of b) hs' →
  b_kmap_cnt x' = total (mapped_of b) hs' + total (access_of b) ex' → b_kmap_cnt x' <= N' →
  (∀ h y, hs' !! h = Some y → h_buffer y ∈ D ∧ 0 <= h_ref y <= N' ∧ 0 <= h_kmap_cnt y <= N') →
  (∀ d y, ex' !! d = Some y → d_priv y ∈ D ∧ 0 <= d_access y) →
  0 <= pins' b →
  counts N' pins' hs' ex' (<[b := x']> bs) D.
Proof.
  intros [Hb Hh Hd Hp] HN HbD Hother Hr Hr' Hc Hk Hk' Hh' Hd' Hp'. split; [|done|done|].
  - intros c HcD. destruct (decide (c = b)) as [->|Hne].
    + exists x'. rewrite lookup_insert_eq. done.
    + destruct (Hother c Hne) as (-> & -> & -> & -> & ->). destruct (Hb c HcD) as (x & ? & ? & ? & ? & ? & ?).
      exists x. rewrite lookup_insert_ne by done. repeat split; first [done|lia].
  - intros c. destruct (decide (c = b)) as [->|Hne]; [done|]. destruct (Hother c Hne) as (_ & _ & _ & _ & ->). apply Hp.
Qed.

(** Fields that are not counts, and buffers that are not in the tree. *)
Lemma counts_field b x x' :
  counts0 → bs !! b = Some x → b_ref x' = b_ref x → b_handle_count x' = b_handle_count x → b_kmap_cnt x' = b_kmap_cnt x →
  counts N pins hs ex (<[b := x']> bs) D.
Proof.
  intros [Hb Hh Hd Hp] Hx Er Ec Ek. split; [|done..]. intros c HcD.
  destruct (decide (c = b)) as [->|]; [|rewrite lookup_insert_ne by done; by apply Hb].
  exists x'. rewrite lookup_insert_eq, Er, Ec, Ek. destruct (Hb b HcD) as (x2 & Hx2 & ?). split; [done|]. congruence.
Qed.
Lemma counts_elsewhere bs' : counts0 → (∀ b, b ∈ D → bs' !! b = bs !! b) → counts N pins hs ex bs' D.
Proof. intros [Hb Hh Hd Hp] E. split; [|done..]. intros c HcD. rewrite E by done. by apply Hb. Qed.

(** [ion_buffer_get] and [ion_buffer_put], as long as there are other references. *)
Lemma counts_get b x :
  counts0 → bs !! b = Some x → b ∈ D → counts (N + 1) (pin_add b 1 pins) hs ex (<[b := set_b_ref (b_ref x + 1) x]> bs) D.
Proof.
  intros Hall Hx HbD. destruct (cn_buffer _ _ _ _ _ _ Hall b HbD) as (x2 & Hx2 & ? & ? & ? & ? & ?). simplify_eq.
  apply counts_change; cbn; rewrite ?pin_add_eq; try lia; try done.
  - intros c Hne. by rewrite pin_add_ne.
  - intros h y Hy. destruct (cn_handle _ _ _ _ _ _ Hall h y Hy) as (? & ? & ?). repeat split; first [done|lia].
  - apply (cn_dmabuf _ _ _ _ _ _ Hall).
  - destruct (cn_pins _ _ _ _ _ _ Hall b). lia.
Qed.
Lemma counts_put b x :
  counts0 → bs !! b = Some x → 1 <= pins b → 1 < b_ref x →
  counts N (pin_add b (-1) pins) hs ex (<[b := set_b_ref (b_ref x - 1) x]> bs) D.
Proof.
  intros Hall Hx Hpin Href. assert (HbD : b ∈ D) by (apply (cn_pins _ _ _ _ _ _ Hall); lia).
  destruct (cn_buffer _ _ _ _ _ _ Hall b HbD) as (x2 & Hx2 & ? & ? & ? & ? & ?). simplify_eq.
  apply counts_change; cbn; rewrite ?pin_add_eq; try lia; try done.
  - intros c Hne. by rewrite pin_add_ne.
  - apply (cn_handle _ _ _ _ _ _ Hall).
  - apply (cn_dmabuf _ _ _ _ _ _ Hall).
Qed.
(** The last one: nothing refers to the buffer any more. *)
Lemma counts_put_last b x x' :
  counts0 → bs !! b = Some x → 1 <= pins b → b_ref x = 1 →
  b_kmap_cnt x = 0 ∧ b_handle_count x = 0 ∧ counts N (pin_add b (-1) pins) hs ex (<[b := x']> bs) (D ∖ {[b]}).
Proof.
  intros Hall Hx Hpin Href. assert (HbD : b ∈ D) by (apply (cn_pins _ _ _ _ _ _ Hall); lia).
  pose proof Hall as [Hb Hh Hd Hp].
  destruct (Hb b HbD) as (x2 & Hx2 & Hr & _ & Hc & Hk & _). simplify_eq.
  pose proof (total_nonneg (handle_of b) hs (handle_of_nonneg b hs)).
  pose proof (total_nonneg (dmabuf_of b) ex (dmabuf_of_nonneg b ex)).
  assert (Eh : total (handle_of b) hs = 0) by lia. assert (Ed : total (dmabuf_of b) ex = 0) by lia.
  assert (Hnh : ∀ h y, hs !! h = Some y → h_buffer y ≠ b).
  { intros h y Hy. pose proof (total_zero _ _ _ _ (handle_of_nonneg b hs) Eh Hy) as E. unfold handle_of in E.
    by destruct (Z.eqb_spec (h_buffer y) b). }
  assert (Hnd : ∀ d y, ex !! d = Some y → d_priv y ≠ b).
  { intros d y Hy. pose proof (total_zero _ _ _ _ (dmabuf_of_nonneg b ex) Ed Hy) as E. unfold dmabuf_of in E.
    by destruct (Z.eqb_spec (d_priv y) b). }
  split; [|split; [lia|]].
  - rewrite Hk, (total_none (mapped_of b)), (total_none (access_of b)); [done|..].
    + intros d y Hy. unfold access_of. by destruct (Z.eqb_spec (d_priv y) b); [destruct (Hnd d y)|].
    + intros h y Hy. unfold mapped_of. by destruct (Z.eqb_spec (h_buffer y) b); [destruct (Hnh h y)|].
  - split.
    + intros c [HcD Hne]%elem_of_difference. rewrite not_elem_of_singleton in Hne.
      rewrite lookup_insert_ne, pin_add_ne by done. by apply Hb.
    + intros h y Hy. destruct (Hh h y Hy). pose proof (Hnh h y Hy). set_solver.
    + intros d y Hy. destruct (Hd d y Hy). pose proof (Hnd d y Hy). set_solver.
    + intros c. destruct (decide (c = b)) as [->|Hne]; [rewrite pin_add_eq; lia|]. rewrite pin_add_ne by done.
      destruct (Hp c). set_solver.
Qed.

(** A buffer enters the tree with the reference of who made it. *)
Lemma counts_buffer_new b x :
  counts0 → 1 <= N → b ∉ D → bs !! b = Some x → b_ref x = 1 → b_handle_count x = 0 → b_kmap_cnt x = 0 →
  counts N (pin_add b 1 pins) hs ex bs ({[b]} ∪ D).
Proof.
  intros Hall HN Hout Hx Hr Hc Hk. destruct (counts_outside b Hall Hout) as (E1 & E2 & E3 & E4 & E5).
  pose proof Hall as [Hb Hh Hd Hp]. split.
  - intros c HcD. destruct (decide (c = b)) as [->|Hne].
    + exists x. rewrite pin_add_eq. repeat split; first [done|lia].
    + rewrite pin_add_ne by done. apply Hb. set_solver.
  - intros h y Hy. destruct (Hh h y Hy). set_solver.
  - intros d y Hy. destruct (Hd d y Hy). set_solver.
  - intros c. destruct (decide (c = b)) as [->|Hne]; [rewrite pin_add_eq; split; [lia|set_solver]|].
    rewrite pin_add_ne by done. destruct (Hp c). set_solver.
Qed.

(** A handle takes over a reference, and gives it back when it goes. *)
Lemma counts_handle_new h y b x :
  counts0 → 1 <= N → hs !! h = None → h_buffer y = b → h_ref y = 1 → h_kmap_cnt y = 0 → bs !! b = Some x → 1 <= pins b →
  counts N (pin_add b (-1) pins) (<[h := y]> hs) ex (<[b := set_b_handle_count (b_handle_count x + 1) x]> bs) D.
Proof.
  intros Hall HN Hh Eb Er Ek Hx Hpin. assert (HbD : b ∈ D) by (apply (cn_pins _ _ _ _ _ _ Hall); lia).
  destruct (cn_buffer _ _ _ _ _ _ Hall b HbD) as (x2 & Hx2 & ? & ? & ? & ? & ?). simplify_eq.
  assert (Hm : ∀ c, total (mapped_of c) (<[h := y]> hs) = total (mapped_of c) hs).
  { intros c. rewrite total_insert by done. unfold mapped_of at 1. rewrite Ek. by rewrite andb_false_r. }
  assert (Ht : total (handle_of (h_buffer y)) (<[h := y]> hs) = 1 + total (handle_of (h_buffer y)) hs).
  { rewrite total_insert by done. unfold handle_of at 1. by rewrite Z.eqb_refl. }
  apply counts_change; cbn; rewrite ?pin_add_eq, ?Hm, ?Ht; try lia; try done.
  - intros c Hne. rewrite pin_add_ne, Hm, total_insert by done. repeat split; try done.
    unfold handle_of at 1. destruct (Z.eqb_spec (h_buffer y) c); [congruence|done].
  - intros k z. rewrite lookup_insert_Some. intros [[<- <-]|[? Hk]]; [repeat split; first [done|lia]|].
    by apply (cn_handle _ _ _ _ _ _ Hall k).
  - apply (cn_dmabuf _ _ _ _ _ _ Hall).
Qed.

Lemma counts_handle_drop h y b x :
  counts0 → hs !! h = Some y → h_buffer y = b → h_kmap_cnt y = 0 → bs !! b = Some x →
  0 < b_handle_count x ∧
  counts N (pin_add b 1 pins) (delete h hs) ex (<[b := set_b_handle_count (b_handle_count x - 1) x]> bs) D.
Proof.
  intros Hall Hh Eb Ek Hx. destruct (cn_handle _ _ _ _ _ _ Hall h y Hh) as (HbD & _). rewrite Eb in HbD.
  destruct (cn_buffer _ _ _ _ _ _ Hall b HbD) as (x2 & Hx2 & ? & ? & ? & ? & ?). simplify_eq.
  assert (Hm : ∀ c, total (mapped_of c) (delete h hs) = total (mapped_of c) hs).
  { intros c. rewrite (total_delete _ hs h y Hh). unfold mapped_of at 2. rewrite Ek. by rewrite andb_false_r. }
  assert (Ht : total (handle_of (h_buffer y)) hs = 1 + total (handle_of (h_buffer y)) (delete h hs)).
  { rewrite (total_delete _ hs h y Hh). unfold handle_of at 1. by rewrite Z.eqb_refl. }
  pose proof (total_nonneg _ _ (handle_of_nonneg (h_buffer y) (delete h hs))).
  destruct (cn_pins _ _ _ _ _ _ Hall (h_buffer y)).
  split; [lia|]. apply counts_change; cbn; rewrite ?pin_add_eq, ?Hm; try lia; try done.
  - intros c Hne. rewrite pin_add_ne, Hm by done. repeat split; try done.
    rewrite (total_delete _ hs h y Hh). unfold handle_of at 2. destruct (Z.eqb_spec (h_buffer y) c); [congruence|done].
  - intros k z [_ Hk]%lookup_delete_Some. by apply (cn_handle _ _ _ _ _ _ Hall k).
  - apply (cn_dmabuf _ _ _ _ _ _ Hall).
Qed.

(** A handle that keeps its buffer and stays mapped, or unmapped. *)
Lemma counts_handle_same N' h y y' :
  counts0 → N <= N' → hs !! h = Some y → h_buffer y' = h_buffer y → (h_kmap_cnt y' = 0 ↔ h_kmap_cnt y = 0) →
  0 <= h_ref y' <= N' → 0 <= h_kmap_cnt y' <= N' →
  counts N' pins (<[h := y']> hs) ex bs D.
Proof.
  intros Hall HN Hh Eb Ek Hr Hk. apply (counts_mono N') in Hall; [|done]. pose proof Hall as [Cb Ch Cd Cp].
  split; [|intros k z; rewrite lookup_insert_Some; intros [[<- <-]|[? Hz]]; [|by apply (Ch k)]|done|done].
  - intros b HbD. destruct (Cb b HbD) as (x & Hx & Cx). exists x. split; [done|].
    rewrite (total_same (handle_of b) hs h y), (total_same (mapped_of b) hs h y); [done..|done| |done|].
    + unfold mapped_of. rewrite Eb. do 3 f_equal.
      destruct (Z.eqb_spec (h_kmap_cnt y') 0), (Z.eqb_spec (h_kmap_cnt y) 0); tauto.
    + unfold handle_of. by rewrite Eb.
  - rewrite Eb. split; [|done]. by apply (Ch h).
Qed.

(** The first mapping of a handle, and the last. *)
Lemma counts_map N' h y y' b x x' :
  counts0 → N <= N' → hs !! h = Some y → h_buffer y = b → h_buffer y' = b → 0 <= h_ref y' <= N' → 0 <= h_kmap_cnt y' <= N' →
  bs !! b = Some x → b_ref x' = b_ref x → b_handle_count x' = b_handle_count x →
  b_kmap_cnt x' = b_kmap_cnt x - mapped_of b y + mapped_of b y' → b_kmap_cnt x' <= N' →
  counts N' pins (<[h := y']> hs) ex (<[b := x']> bs) D.
Proof.
  intros Hall HN Hh Eb Eb' Hr Hk Hx Er Ec Ekx Hkx. destruct (cn_handle _ _ _ _ _ _ Hall h y Hh) as (HbD & _).
  rewrite Eb in HbD. destruct (cn_buffer _ _ _ _ _ _ Hall b HbD) as (x2 & Hx2 & ? & ? & ? & ? & ?).
  rewrite Hx in Hx2. injection Hx2 as <-.
  assert (Ht : ∀ c, total (handle_of c) (<[h := y']> hs) = total (handle_of c) hs).
  { intros c. apply (total_same _ _ _ y); [done|]. unfold handle_of. by rewrite Eb, Eb'. }
  assert (Hm : ∀ c, c ≠ b → total (mapped_of c) (<[h := y']> hs) = total (mapped_of c) hs).
  { intros c Hne. apply (total_same _ _ _ y); [done|]. unfold mapped_of. rewrite Eb, Eb'.
    by destruct (Z.eqb_spec b c); [congruence|]. }
  apply (counts_change N'); rewrite ?Ht, ?Er, ?Ec; try lia; try done.
  - intros c Hne. by rewrite Ht, Hm.
  - rewrite (total_update _ hs h y) by done. lia.
  - intros k z. rewrite lookup_insert_Some. intros [[<- <-]|[? Hz]].
    + rewrite Eb'. done.
    + destruct (cn_handle _ _ _ _ _ _ Hall k z Hz) as (? & ? & ?). repeat split; first [done|lia].
  - apply (cn_dmabuf _ _ _ _ _ _ Hall).
  - apply (cn_pins _ _ _ _ _ _ Hall).
Qed.

(** A dma-buf takes over a reference, and gives it back when it is released. *)
Lemma counts_dmabuf_new d b size :
  counts0 → ex !! d = None → 1 <= pins b → counts N (pin_add b (-1) pins) hs (<[d := mk_dmabuf b size 0]> ex) bs D.
Proof.
  intros Hall Hd Hpin. assert (HbD : b ∈ D) by (apply (cn_pins _ _ _ _ _ _ Hall); lia).
  destruct (cn_buffer _ _ _ _ _ _ Hall b HbD) as (x & Hx & ? & ? & ? & ? & ?).
  rewrite <- (insert_id bs b x Hx).
  assert (Ha : ∀ c, total (access_of c) (<[d := mk_dmabuf b size 0]> ex) = total (access_of c) ex).
  { intros c. rewrite total_insert by done. unfold access_of at 1. cbn. by destruct (b =? c). }
  assert (Ht : ∀ c, total (dmabuf_of c) (<[d := mk_dmabuf b size 0]> ex) = b2z (b =? c) + total (dmabuf_of c) ex).
  { intros c. by rewrite total_insert. }
  apply counts_change; rewrite ?pin_add_eq, ?Ha, ?Ht, ?Z.eqb_refl; cbn [b2z]; try lia; try done.
  - intros c Hne. rewrite pin_add_ne, Ha, Ht by done. repeat split; try done.
    by destruct (Z.eqb_spec b c); [congruence|].
  - apply (cn_handle _ _ _ _ _ _ Hall).
  - intros e z. rewrite lookup_insert_Some. intros [[<- <-]|[? Hz]]; [done|].
    by apply (cn_dmabuf _ _ _ _ _ _ Hall e).
Qed.

Lemma counts_dmabuf_drop d y b :
  counts0 → ex !! d = Some y → d_priv y = b → d_access y = 0 → counts N (pin_add b 1 pins) hs (delete d ex) bs D.
Proof.
  intros Hall Hd Eb Ea. destruct (cn_dmabuf _ _ _ _ _ _ Hall d y Hd) as [HbD _]. rewrite Eb in HbD.
  destruct (cn_buffer _ _ _ _ _ _ Hall b HbD) as (x & Hx & ? & ? & ? & ? & ?).
  rewrite <- (insert_id bs b x Hx).
  assert (Ha : ∀ c, total (access_of c) (delete d ex) = total (access_of c) ex).
  { intros c. rewrite (total_delete _ ex d y Hd). unfold access_of at 2. rewrite Ea. by destruct (_ =? c). }
  assert (Ht : ∀ c, total (dmabuf_of c) ex = b2z (b =? c) + total (dmabuf_of c) (delete d ex)).
  { intros c. rewrite (total_delete _ ex d y Hd). unfold dmabuf_of at 1. by rewrite Eb. }
  pose proof (Ht b) as Htb. rewrite Z.eqb_refl in Htb. cbn [b2z] in Htb. destruct (cn_pins _ _ _ _ _ _ Hall b).
  apply counts_change; rewrite ?pin_add_eq, ?Ha; try lia; try done.
  - intros c Hne. rewrite pin_add_ne, Ha, (Ht c) by done. repeat split; try done.
    by destruct (Z.eqb_spec b c); [congruence|].
  - apply (cn_handle _ _ _ _ _ _ Hall).
  - intros e z [_ Hz]%lookup_delete_Some. by apply (cn_dmabuf _ _ _ _ _ _ Hall e).
Qed.

(** Access of the processor begins or ends. *)
Lemma counts_access N' d y b x x' n :
  counts0 → N <= N' → ex !! d = Some y → d_priv y = b → 0 <= n → bs !! b = Some x → b_ref x' = b_ref x →
  b_handle_count x' = b_handle_count x → b_kmap_cnt x' = b_kmap_cnt x - d_access y + n → b_kmap_cnt x' <= N' →
  counts N' pins hs (<[d := mk_dmabuf b (d_size y) n]> ex) (<[b := x']> bs) D.
Proof.
  intros Hall HN Hd Eb Hn Hx Er Ec Ek Hk. destruct (cn_dmabuf _ _ _ _ _ _ Hall d y Hd) as [HbD Ha]. rewrite Eb in HbD.
  destruct (cn_buffer _ _ _ _ _ _ Hall b HbD) as (x2 & Hx2 & ? & ? & ? & ? & ?). rewrite Hx in Hx2. injection Hx2 as <-.
  assert (Ht : ∀ c, total (dmabuf_of c) (<[d := mk_dmabuf b (d_size y) n]> ex) = total (dmabuf_of c) ex).
  { intros c. apply (total_same _ _ _ y); [done|]. unfold dmabuf_of. by rewrite Eb. }
  apply (counts_change N'); rewrite ?Ht, ?Er, ?Ec; try lia; try done.
  - intros c Hne. rewrite Ht, (total_same (access_of c) ex d y); [done|done|]. unfold access_of. rewrite Eb. cbn.
    by destruct (Z.eqb_spec b c); [congruence|].
  - rewrite (total_update _ ex d y) by done. unfold access_of at 2 3. rewrite Eb. cbn. rewrite Z.eqb_refl. lia.
  - intros h z Hz. destruct (cn_handle _ _ _ _ _ _ Hall h z Hz) as (? & ? & ?). repeat split; first [done|lia].
  - intros e z. rewrite lookup_insert_Some. intros [[<- <-]|[? Hz]]; [done|].
    by apply (cn_dmabuf _ _ _ _ _ _ Hall e).
  - apply (cn_pins _ _ _ _ _ _ Hall).
Qed.
End counts.

(** ** The tree of the device and the lists of buffers to be freed

    [bld] is a buffer that is being made; those on the list are not mapped. *)
Record lists (bld : option Z) (bs : gmap Z buffer) (D : gset Z) (fl : list Z) : Prop := {
  ls_place : ∀ b, is_Some (bs !! b) → b ∈ D ∨ b ∈ fl ∨ bld = Some b;
  ls_tree : ∀ b, b ∈ D → is_Some (bs !! b) ∧ b ∉ fl;
  ls_free : ∀ b, b ∈ fl → ∃ x, bs !! b = Some x ∧ b_kmap_cnt x = 0;
  ls_nodup : NoDup fl;
  ls_building : ∀ b, bld = Some b → is_Some (bs !! b) ∧ b ∉ D ∧ b ∉ fl }.

(** The pages of a buffer that is mapped page by page are all there. *)
Definition pages_ok `{!IonAbi} (x : buffer) : Prop :=
  ion_buffer_fault_user_mappings x = true →
  ∃ ps, b_pages x = Some ps ∧ length ps = pages_of (b_size x) ∧ Forall is_Some ps.
Definition form `{!IonAbi} (hps : gmap Z heap) (built : Prop) (x : buffer) : Prop :=
  is_Some (hps !! b_heap x) ∧ (built → pages_ok x).
Definition forms `{!IonAbi} (bld : option Z) (bs : gmap Z buffer) (hps : gmap Z heap) : Prop :=
  ∀ b x, bs !! b = Some x → form hps (bld ≠ Some b) x.

(** Areas of user space that are mapped page by page, and their buffers. *)
Record areas `{!IonAbi} (bs : gmap Z buffer) (D : gset Z) (ex : gmap Z dmabuf) (vs : gmap Z vma) : Prop := {
  ar_vma : ∀ v w b, vs !! v = Some w → v_private w = Some b →
    b ∈ D ∧ (∃ y, ex !! v_file w = Some y ∧ d_priv y = b) ∧
    ∃ x, bs !! b = Some x ∧ ion_buffer_fault_user_mappings x = true;
  ar_list : ∀ b x, b ∈ D → bs !! b = Some x →
    NoDup (b_vmas x) ∧ ∀ v, v ∈ b_vmas x → ∃ w, vs !! v = Some w ∧ v_private w = Some b }.

Definition without {A} (o : option Z) (m : gmap Z A) : gmap Z A := match o with Some i => delete i m | None => m end.

(** What a function under way holds besides the tables: references to buffers; a handle
    that is not in the tables; one without references; a handle and a dma-buf that count
    as gone; a buffer that is being made, and whether its heap gave it memory; and buffers
    that are being freed. *)
Record ghost : Type := mk_ghost {
  g_pins : Z → Z; g_loose : option Z; g_phantom : option Z; g_leaving : option Z;
  g_building : option (Z * bool); g_dying : list Z; g_zero : option Z }.
Definition idle : ghost := mk_ghost (λ _, 0) None None None None [] None.
Definition g_with_zero (o : option Z) (g : ghost) : ghost :=
  mk_ghost (g_pins g) (g_loose g) (g_phantom g) (g_leaving g) (g_building g) (g_dying g) o.
Definition g_pin (b n : Z) (g : ghost) : ghost :=
  mk_ghost (pin_add b n (g_pins g)) (g_loose g) (g_phantom g) (g_leaving g) (g_building g) (g_dying g) (g_zero g).
Definition g_with_loose (o : option Z) (g : ghost) : ghost :=
  mk_ghost (g_pins g) o (g_phantom g) (g_leaving g) (g_building g) (g_dying g) (g_zero g).
Definition g_with_phantom (o : option Z) (g : ghost) : ghost :=
  mk_ghost (g_pins g) (g_loose g) o (g_leaving g) (g_building g) (g_dying g) (g_zero g).
Definition g_with_building (o : option (Z * bool)) (g : ghost) : ghost :=
  mk_ghost (g_pins g) (g_loose g) (g_phantom g) (g_leaving g) o (g_dying g) (g_zero g).
Definition g_with_dying (l : list Z) (g : ghost) : ghost :=
  mk_ghost (g_pins g) (g_loose g) (g_phantom g) (g_leaving g) (g_building g) l (g_zero g).
Definition g_bld (g : ghost) : option Z := fst <$> g_building g.
Definition g_unbacked (g : ghost) : Z := match g_building g with Some (_, false) => 1 | _ => 0 end.

Section inv.
Context {W : Type} `{!IonAbi}.
Implicit Types s : ion W.

Definition live_handles (g : ghost) s : gmap Z handle := without (g_phantom g) (handles s).
Definition live_dmabufs (g : ghost) s : gmap Z dmabuf := without (g_leaving g) (exported s).

Record inv (g : ghost) (N : Z) s : Prop := {
  iv_tables : tables (g_loose g) (live_handles g s) (clients s);
  iv_counts : counts N (g_pins g) (live_handles g s) (live_dmabufs g s) (buffers s) (d_buffers s);
  iv_refs : ∀ h y, live_handles g s !! h = Some y → h_ref y = 0 → g_zero g = Some h;
  iv_lists : lists (g_bld g) (buffers s) (d_buffers s) (freelist s ++ g_dying g);
  iv_forms : forms (g_bld g) (buffers s) (heaps s);
  iv_heaps : (∀ h hp, heaps s !! h = Some hp → heap_ok hp) ∧ (∀ h, h ∈ d_heaps s → is_Some (heaps s !! h));
  iv_areas : areas (buffers s) (d_buffers s) (live_dmabufs g s) (vmas s);
  iv_clients : ∀ c, c ∈ d_clients s ↔ is_Some (clients s !! c);
  iv_mem : mem (trace s) = Z.of_nat (size (buffers s)) - g_unbacked g;
  iv_bound : 1 <= N < 2 ^ 31 }.

(** Locks, the outside world and calls that take no memory do not matter. *)
Lemma inv_same g N s s' :
  inv g N s → buffers s' = buffers s → handles s' = handles s → clients s' = clients s → heaps s' = heaps s →
  d_buffers s' = d_buffers s → d_clients s' = d_clients s → d_heaps s' = d_heaps s → freelist s' = freelist s →
  exported s' = exported s → vmas s' = vmas s → mem (trace s') = mem (trace s) → inv g N s'.
Proof.
  intros [] E1 E2 E3 E4 E5 E6 E7 E8 E9 E10 E11.
  split; unfold live_handles, live_dmabufs in *; rewrite ?E1, ?E2, ?E3, ?E4, ?E5, ?E6, ?E7, ?E8, ?E9, ?E10, ?E11; assumption.
Qed.

Lemma inv_mono g N N' s : inv g N s → N <= N' < 2 ^ 31 → inv g N' s.
Proof. intros [] HN. split; try assumption; [by apply (counts_mono (N := N)); [|lia]|lia]. Qed.

Lemma inv_pins g g' N s :
  inv g N s → (∀ b, g_pins g' b = g_pins g b) → g_loose g' = g_loose g → g_phantom g' = g_phantom g →
  g_leaving g' = g_leaving g → g_building g' = g_building g → g_dying g' = g_dying g →
  g_zero g' = g_zero g → inv g' N s.
Proof.
  destruct g as [p l ph le bu dy ze], g' as [p' l' ph' le' bu' dy' ze']. cbn. intros [] Ep -> -> -> -> -> ->. split; try assumption.
  by eapply counts_pins.
Qed.

Lemma inv_buffer g N s b : inv g N s → b ∈ d_buffers s → ∃ x, buffers s !! b = Some x.
Proof. intros Hs Hb. by destruct (ls_tree _ _ _ _ (iv_lists _ _ _ Hs) b Hb) as [[x ?] _]; exists x. Qed.
Lemma inv_heap g N s b x : inv g N s → buffers s !! b = Some x → ∃ hp, heaps s !! b_heap x = Some hp ∧ heap_ok hp.
Proof.
  intros Hs Hx. destruct (iv_forms _ _ _ Hs b x Hx) as [[hp Hhp] _]. exists hp. split; [done|].
  by eapply (proj1 (iv_heaps _ _ _ Hs)).
Qed.

(** One buffer changes its counts or fields that only matter to itself; handles, dma-bufs
    and the tables of clients may change with it. *)
Record stays (s s' : ion W) : Prop := {
  st_heaps : heaps s' = heaps s; st_d_heaps : d_heaps s' = d_heaps s; st_d_buffers : d_buffers s' = d_buffers s;
  st_freelist : freelist s' = freelist s; st_d_clients : d_clients s' = d_clients s; st_vmas : vmas s' = vmas s;
  st_clients : ∀ c, is_Some (clients s' !! c) ↔ is_Some (clients s !! c); st_mem : mem (trace s') = mem (trace s) }.

Lemma areas_field bs D ex vs b x x' :
  areas bs D ex vs → bs !! b = Some x → b_flags x' = b_flags x → b_vmas x' = b_vmas x → areas (<[b := x']> bs) D ex vs.
Proof.
  intros [Av Al] Hx E5 E6. split.
  - intros v w c Hv Hw. destruct (Av v w c Hv Hw) as (? & ? & z & Hz & Hfault). split; [done|]. split; [done|].
    destruct (decide (b = c)) as [<-|]; [|exists z; by rewrite lookup_insert_ne].
    exists x'. rewrite lookup_insert_eq. split; [done|]. unfold ion_buffer_fault_user_mappings in *. rewrite E5.
    congruence.
  - intros c z HcD. rewrite lookup_insert_Some. intros [[<- <-]|[? Hz]]; [|by apply Al].
    rewrite E6. by apply Al.
Qed.

Lemma lists_field bld bs D fl b x x' :
  lists bld bs D fl → bs !! b = Some x → b_kmap_cnt x' = b_kmap_cnt x ∨ b ∈ D → lists bld (<[b := x']> bs) D fl.
Proof.
  intros [Lp Lt Lf Ln Lb] Hx Ek. assert (Hi : ∀ c, is_Some (<[b := x']> bs !! c) ↔ is_Some (bs !! c)).
  { intros c. rewrite lookup_insert_is_Some. destruct (decide (b = c)) as [<-|]; [|tauto].
    split; [by eexists|by left]. }
  split; [| | |done|]; try setoid_rewrite Hi; try done.
  intros c Hcf. destruct (Lf c Hcf) as (z & Hz & Ez). destruct (decide (b = c)) as [<-|].
  - exists x'. rewrite lookup_insert_eq. split; [done|]. destruct Ek as [Ek|HD]; [congruence|]. by destruct (Lt b HD).
  - exists z. by rewrite lookup_insert_ne.
Qed.

Lemma inv_recount g g' N N' s s' b x x' :
  inv g N s → buffers s !! b = Some x → stays s s' → buffers s' = <[b := x']> (buffers s) →
  g_building g' = g_building g → g_dying g' = g_dying g →
  tables (g_loose g') (live_handles g' s') (clients s') →
  counts N' (g_pins g') (live_handles g' s') (live_dmabufs g' s') (<[b := x']> (buffers s)) (d_buffers s) →
  areas (buffers s) (d_buffers s) (live_dmabufs g' s') (vmas s) →
  (∀ h y, live_handles g' s' !! h = Some y → h_ref y = 0 → g_zero g' = Some h) →
  b_heap x' = b_heap x → b_flags x' = b_flags x → b_vmas x' = b_vmas x →
  b_kmap_cnt x' = b_kmap_cnt x ∨ b ∈ d_buffers s → (g_bld g ≠ Some b → pages_ok x') → 1 <= N' < 2 ^ 31 →
  inv g' N' s'.
Proof.
  intros [Ht Hc Hz Hl Hf Hh Ha Hcl Hm HN] Hx [] EB Eb Ed Htab Hcnt Har Hz' E4 E5 E6 Ek Hp HN'.
  split; rewrite ?EB, ?st_d_buffers0, ?st_freelist0, ?st_vmas0, ?st_d_clients0, ?st_heaps0, ?st_d_heaps0, ?st_mem0; try done.
  - unfold g_bld. rewrite Eb, Ed. by eapply lists_field.
  - unfold g_bld. rewrite Eb. intros c z. rewrite lookup_insert_Some. intros [[<- <-]|[? Hz0]]; [|by apply Hf].
    destruct (Hf b x Hx). split; [by rewrite E4|done].
  - by eapply areas_field.
  - intros c. by rewrite Hcl, st_clients0.
  - unfold g_unbacked. rewrite Eb. by rewrite map_size_insert_Some by (by eexists).
Qed.

Lemma inv_field g N s b x x' :
  inv g N s → buffers s !! b = Some x →
  b_ref x' = b_ref x → b_handle_count x' = b_handle_count x → b_kmap_cnt x' = b_kmap_cnt x →
  b_heap x' = b_heap x → b_flags x' = b_flags x → b_vmas x' = b_vmas x → (g_bld g ≠ Some b → pages_ok x') →
  inv g N (set_buffers (<[b := x']> (buffers s)) s).
Proof.
  intros Hs Hx E1 E2 E3 E4 E5 E6 Hp. pose proof Hs as [Ht Hc Hz Hl Hf Hh Ha Hcl Hm HN].
  eapply (inv_recount g g N N s); try done; [by eapply counts_field|by left].
Qed.
End inv.
