(* ===== verification/IonSafe.v ===== *)
(** * ION: every function returns and keeps the invariant

    Functions that only read or write a field or a lock are given by their effect on the
    state; the others by what they do to the invariant, to the locks and to the tables. *)

From S2P Require Import Prelude CMonad Ion IonInv.

Ltac wp_b := lazymatch goal with
  | |- wp (_ ≫= _) _ _ => apply wp_bind
  | |- wpu _ (_ ≫= _) _ _ => apply wpu_after
  | _ => idtac
  end.

Section rules.
Context {W : Type} `{!Kernel W, !IonAbi}.
Implicit Types s : ion W.

(** The state after a request, and with another set of locks. *)
Definition called {A} (e : ksys A) s : ion W :=
  set_trace (trace s ++ [KEv e (fst (do_ksys e (world s)))]) (set_world (snd (do_ksys e (world s))) s).
Definition answer {A} (e : ksys A) s : A := fst (do_ksys e (world s)).

Lemma wp_call {A} (e : ksys A) Q s : Q (answer e s) (called e s) → wp (Ion.call e) Q s.
Proof. done. Qed.
Lemma wp_when (b : bool) (m : M (ion W) unit) (Q : unit → ion W → Prop) s :
  (b = true → wp m Q s) → (b = false → Q tt s) → wp (when_ b m) Q s.
Proof. intros Ht Hf. destruct b; [by apply Ht|by apply wp_ret, Hf]. Qed.

Lemma wp_buffer_at b x (Q : _ → ion W → Prop) s : buffers s !! b = Some x → Q x s → wp (buffer_at b) Q s.
Proof. unfold buffer_at. intros Hx HQ. wp_steps. by rewrite Hx. Qed.
Lemma wp_handle_at h y (Q : _ → ion W → Prop) s : handles s !! h = Some y → Q y s → wp (handle_at h) Q s.
Proof. unfold handle_at. intros Hx HQ. wp_steps. by rewrite Hx. Qed.
Lemma wp_client_at c x (Q : _ → ion W → Prop) s : clients s !! c = Some x → Q x s → wp (client_at c) Q s.
Proof. unfold client_at. intros Hx HQ. wp_steps. by rewrite Hx. Qed.
Lemma wp_heap_at h hp (Q : _ → ion W → Prop) s : heaps s !! h = Some hp → Q hp s → wp (heap_at h) Q s.
Proof. unfold heap_at. intros Hx HQ. wp_steps. by rewrite Hx. Qed.
Lemma wp_dmabuf_at d y (Q : _ → ion W → Prop) s : exported s !! d = Some y → Q y s → wp (dmabuf_at d) Q s.
Proof. unfold dmabuf_at. intros Hx HQ. wp_steps. by rewrite Hx. Qed.
Lemma wp_vma_at v w (Q : _ → ion W → Prop) s : vmas s !! v = Some w → Q w s → wp (vma_at v) Q s.
Proof. unfold vma_at. intros Hx HQ. wp_steps. by rewrite Hx. Qed.
Lemma wp_op has h hp (Q : unit → ion W → Prop) s :
  heaps s !! h = Some hp → has (hp_ops hp) = true → Q tt s → wp (op has h) Q s.
Proof. unfold op. intros Hx Ho HQ. apply wp_bind. eapply wp_heap_at; [done|]. by apply wp_require. Qed.

Lemma wp_mod_buffer b f x (Q : unit → ion W → Prop) s :
  buffers s !! b = Some x → Q tt (set_buffers (<[b := f x]> (buffers s)) s) → wp (mod_buffer b f) Q s.
Proof. unfold mod_buffer. intros Hx HQ. apply wp_bind. by eapply wp_buffer_at. Qed.
Lemma wp_mod_handle h f y (Q : unit → ion W → Prop) s :
  handles s !! h = Some y → Q tt (set_handles (<[h := f y]> (handles s)) s) → wp (mod_handle h f) Q s.
Proof. unfold mod_handle. intros Hx HQ. apply wp_bind. by eapply wp_handle_at. Qed.
Lemma wp_mod_client c f x (Q : unit → ion W → Prop) s :
  clients s !! c = Some x → Q tt (set_clients (<[c := f x]> (clients s)) s) → wp (mod_client c f) Q s.
Proof. unfold mod_client. intros Hx HQ. apply wp_bind. by eapply wp_client_at. Qed.

Lemma wp_mutex_lock l (Q : unit → ion W → Prop) s : l ∉ held s → Q tt (set_held (l :: held s) s) → wp (mutex_lock l) Q s.
Proof. unfold mutex_lock. intros Hl HQ. wp_steps. by rewrite bool_decide_false. Qed.
Lemma filter_other l (L : list lock) : l ∉ L → filter (λ k, k ≠ l) L = L.
Proof.
  induction L as [|k L IH]; [done|]. rewrite not_elem_of_cons. intros [Hne Hl].
  rewrite filter_cons_True by congruence. by rewrite IH.
Qed.
Lemma wp_mutex_unlock l L (Q : unit → ion W → Prop) s :
  held s = l :: L → l ∉ L → Q tt (set_held L s) → wp (mutex_unlock l) Q s.
Proof.
  unfold mutex_unlock. intros E Hl HQ. wp_steps. apply wp_require; [by apply bool_decide_true; rewrite E; left|].
  apply wp_modify. rewrite E, filter_cons_False, filter_other; [done|done|tauto].
Qed.

Lemma wp_lock_client c (Q : unit → ion W → Prop) s :
  is_Some (clients s !! c) → LClient c ∉ held s → Q tt (set_held (LClient c :: held s) s) → wp (lock_client c) Q s.
Proof. unfold lock_client. intros [x Hx] Hl HQ. apply wp_bind. eapply wp_client_at; [done|]. by apply wp_mutex_lock. Qed.
Lemma wp_unlock_client c L (Q : unit → ion W → Prop) s :
  is_Some (clients s !! c) → held s = LClient c :: L → LClient c ∉ L → Q tt (set_held L s) → wp (unlock_client c) Q s.
Proof. unfold unlock_client. intros [x Hx] E Hl HQ. apply wp_bind. eapply wp_client_at; [done|]. by eapply wp_mutex_unlock. Qed.
Lemma wp_lock_buffer b (Q : unit → ion W → Prop) s :
  is_Some (buffers s !! b) → LBuffer b ∉ held s → Q tt (set_held (LBuffer b :: held s) s) → wp (lock_buffer b) Q s.
Proof. unfold lock_buffer. intros [x Hx] Hl HQ. apply wp_bind. eapply wp_buffer_at; [done|]. by apply wp_mutex_lock. Qed.
Lemma wp_unlock_buffer b L (Q : unit → ion W → Prop) s :
  is_Some (buffers s !! b) → held s = LBuffer b :: L → LBuffer b ∉ L → Q tt (set_held L s) → wp (unlock_buffer b) Q s.
Proof. unfold unlock_buffer. intros [x Hx] E Hl HQ. apply wp_bind. eapply wp_buffer_at; [done|]. by eapply wp_mutex_unlock. Qed.

Lemma inv_called g N {A} (e : ksys A) s : mem_of (KEv e (answer e s)) = 0 → inv g N s → inv g N (called e s).
Proof. intros He Hs. apply (inv_same _ _ s); try done. unfold called. cbn [trace set_trace set_world].
  rewrite mem_snoc. unfold answer in He. rewrite He. lia. Qed.
Lemma inv_held g N L s : inv g N s → inv g N (set_held L s).
Proof. intros Hs. by apply (inv_same _ _ s). Qed.

(** No lock of a buffer, nor that of the tree of buffers, is held. *)
Definition unlocked s : Prop := LBuffers ∉ held s ∧ ∀ b, LBuffer b ∉ held s.

(** What a function leaves alone unless it says so: the tables of clients, handles,
    dma-bufs and areas, the heaps and the locks. *)
Record same s s' : Prop := {
  sm_handles : handles s' = handles s; sm_clients : clients s' = clients s; sm_heaps : heaps s' = heaps s;
  sm_d_clients : d_clients s' = d_clients s; sm_d_heaps : d_heaps s' = d_heaps s; sm_d_custom : d_custom s' = d_custom s;
  sm_exported : exported s' = exported s; sm_vmas : vmas s' = vmas s; sm_held : held s' = held s }.
#[export] Instance same_preorder : PreOrder same.
Proof. split; [done|]. intros s1 s2 s3 [] []. split; congruence. Qed.
Lemma same_unlocked s s' : same s s' → unlocked s → unlocked s'.
Proof. intros E. unfold unlocked. by rewrite (sm_held _ _ E). Qed.

(** A buffer that is in the tree stays there, as it is. *)
Definition keeps_buffers (P : Z → Prop) s s' : Prop :=
  ∀ b x, P b → b ∈ d_buffers s → buffers s !! b = Some x → b ∈ d_buffers s' ∧ buffers s' !! b = Some x.

(** The buffers that are still there have their heap, flags and size. *)
Definition shape (x : buffer) : Z * Z * Z := (b_heap x, b_flags x, b_size x).
Definition shapes s s' : Prop := ∀ b x', buffers s' !! b = Some x' → ∃ x, buffers s !! b = Some x ∧ shape x' = shape x.
#[export] Instance shapes_preorder : PreOrder shapes.
Proof.
  split; [intros s b x Hx; by exists x|]. intros s1 s2 s3 H1 H2 b x Hx. destruct (H2 b x Hx) as (y & Hy & E).
  destruct (H1 b y Hy) as (z & Hz & E'). exists z. split; [done|congruence].
Qed.
Lemma shapes_same s s' : buffers s' = buffers s → shapes s s'.
Proof. intros EB b x. rewrite EB. intros Hx. by exists x. Qed.
Lemma shapes_insert s s' b x x' :
  buffers s !! b = Some x → shape x' = shape x → buffers s' = <[b := x']> (buffers s) → shapes s s'.
Proof.
  intros Hx E EB c y. rewrite EB, lookup_insert_Some. intros [[<- <-]|[_ Hy]]; [by exists x|by exists y].
Qed.
Lemma shapes_delete s s' b : buffers s' = delete b (buffers s) → shapes s s'.
Proof. intros EB c y. rewrite EB, lookup_delete_Some. intros [_ Hy]. by exists y. Qed.

(** ** Freeing buffers *)

Lemma lists_perm bld bs D fl fl' : lists bld bs D fl → fl ≡ₚ fl' → lists bld bs D fl'.
Proof. intros [Lp Lt Lf Ln Lb] E. split; setoid_rewrite <- E; done. Qed.

Lemma lists_free bld bs D b fl :
  lists bld bs D (b :: fl) → bld ≠ Some b → lists bld (delete b bs) D fl.
Proof.
  intros [Lp Lt Lf Ln Lb] Hne. apply NoDup_cons in Ln as [Hnot Ln]. split; [| | |done|].
  - intros c. rewrite lookup_delete_is_Some. intros [? Hc]. destruct (Lp c Hc) as [?|[Hin|?]]; [by left| |by right; right].
    right; left. by apply elem_of_cons in Hin as [->|?].
  - intros c Hc. destruct (Lt c Hc) as [? Hn]. rewrite lookup_delete_is_Some. set_solver.
  - intros c Hc. destruct (Lf c) as (x & Hx & ?); [set_solver|]. exists x. rewrite lookup_delete_ne by congruence. done.
  - intros c Hc. destruct (Lb c Hc) as (? & ? & ?). rewrite lookup_delete_is_Some. set_solver.
Qed.

(** A buffer that is in none of the tables and lists is freed. *)
Lemma areas_delete bs D ex vs b : areas bs D ex vs → b ∉ D → areas (delete b bs) D ex vs.
Proof.
  intros [Av Al] Hb. split.
  - intros v w c Hv Hw. destruct (Av v w c Hv Hw) as (Hc & ? & x & Hx & ?). split; [done|]. split; [done|].
    exists x. rewrite lookup_delete_ne by congruence. done.
  - intros c x Hc [? Hx]%lookup_delete_Some. by apply Al.
Qed.
Lemma forms_delete bld bs hps b : forms bld bs hps → forms bld (delete b bs) hps.
Proof. intros Hf c x [? Hx]%lookup_delete_Some. by apply Hf. Qed.

Lemma inv_freed g N b l s s' :
  inv g N s → g_dying g = b :: l → g_bld g ≠ Some b → same s s' → d_buffers s' = d_buffers s → freelist s' = freelist s →
  buffers s' = delete b (buffers s) → mem (trace s') = mem (trace s) - 1 → inv (g_with_dying l g) N s'.
Proof.
  intros [Ht Hc Hze Hl Hf Hh Ha Hcl Hm HN] Hd Hb [] ED EF EB EM. rewrite Hd in Hl.
  assert (Hl' : lists (g_bld g) (buffers s) (d_buffers s) (b :: (freelist s ++ l))).
  { eapply lists_perm; [done|]. by rewrite Permutation_middle. }
  assert (HbD : b ∉ d_buffers s) by (intros Hin; destruct (ls_tree _ _ _ _ Hl' b Hin); set_solver).
  destruct (ls_free _ _ _ _ Hl' b) as (x & Hx & _); [set_solver|].
  split; unfold live_handles, live_dmabufs; cbn;
    rewrite ?sm_handles0, ?sm_clients0, ?sm_heaps0, ?sm_d_heaps0, ?sm_exported0, ?sm_vmas0, ?sm_d_clients0, ?ED, ?EF, ?EB; try done.
  - apply (counts_elsewhere (bs := buffers s)); [done|]. intros c HcD. apply lookup_delete_ne. congruence.
  - by apply lists_free.
  - by apply forms_delete.
  - by apply areas_delete.
  - rewrite EM, Hm. rewrite map_size_delete_Some by (by eexists).
    assert (size (buffers s) ≠ 0%nat) by (intros E%map_size_empty_inv; by rewrite E, lookup_empty in Hx).
    unfold g_unbacked. cbn. lia.
Qed.

Lemma mem_called {A} (e : ksys A) s : mem (trace (called e s)) = mem (trace s) + mem_of (KEv e (answer e s)).
Proof. unfold called, answer. cbn [trace set_trace set_world]. apply mem_snoc. Qed.

Lemma wp_buffer_destroy g N b l s (Q : unit → ion W → Prop) :
  inv g N s → g_dying g = b :: l → g_bld g ≠ Some b →
  (∀ s', inv (g_with_dying l g) N s' → same s s' → freelist s' = freelist s → d_buffers s' = d_buffers s → buffers s' = delete b (buffers s) → Q tt s') →
  wp (ion_buffer_destroy b) Q s.
Proof.
  intros Hs Hd Hb HQ.
  destruct (ls_free _ _ _ _ (iv_lists _ _ _ Hs) b) as (x & Hx & Hk); [rewrite Hd; set_solver|].
  destruct (inv_heap _ _ _ _ _ Hs Hx) as (hp & Hhp & (? & ? & ? & ? & ? & ? & ?)).
  unfold ion_buffer_destroy. wp_b. eapply wp_buffer_at; [done|]. wp_b. apply wp_when; [rewrite Hk; by intros ?|intros _].
  wp_b. eapply wp_op; [done..|]. wp_b. apply wp_call. wp_b. eapply wp_op; [done..|]. wp_b. apply wp_call.
  unfold kfree_buffer. wp_b. eapply wp_buffer_at; [done|]. apply wp_modify. apply HQ; try done.
  eapply inv_freed; try done. cbn -[mem called]. rewrite !mem_called. cbn [mem_of]. lia.
Qed.

Lemma wp_buffer_destroy_all g N l s (Q : unit → ion W → Prop) :
  inv g N s → g_dying g = l → (∀ b, g_bld g = Some b → b ∉ l) →
  (∀ s', inv (g_with_dying [] g) N s' → same s s' → freelist s' = freelist s → d_buffers s' = d_buffers s →
     (∀ b, b ∉ l → buffers s' !! b = buffers s !! b) → Q tt s') →
  wp (ion_buffer_destroy_all l) Q s.
Proof.
  revert g s. induction l as [|b l IH]; intros g s Hs Hd Hb HQ.
  - apply wp_ret, HQ; try done. destruct g; cbn in *; subst. done.
  - cbn. wp_b. eapply wp_buffer_destroy; [done|done|intros E; destruct (Hb b E); by left|].
    intros s1 Hs1 Hsame Hfl HD Hbs. apply (IH (g_with_dying l g)); [done|done|intros c E ?; destruct (Hb c E); by right|].
    intros s2 Hs2 Hsame2 Hfl2 HD2 Hbs2. apply HQ; [done|by etransitivity|congruence|congruence|].
    intros c Hc. rewrite Hbs2, Hbs by set_solver. apply lookup_delete_ne. set_solver.
Qed.

(** Taking buffers from a list, in the order they come in. *)
Lemma drained_perm (l bs : list Z) : NoDup l → NoDup bs → bs ⊆ l → l ≡ₚ filter (λ b, b ∉ bs) l ++ bs.
Proof.
  intros Hl Hbs Hsub. apply NoDup_Permutation; [done| |].
  - apply NoDup_app. split; [by apply NoDup_filter|]. split; [|done]. intros b [Hb _]%list_elem_of_filter. done.
  - intros b. rewrite elem_of_app, list_elem_of_filter. split; [|intros [[_ ?]|?]; auto].
    intros Hb. destruct (decide (b ∈ bs)); auto.
Qed.

Context `{!KernelOk W}.

Lemma wp_freelist_drain g N h cached sz s (Q : unit → ion W → Prop) :
  inv g N s → g_dying g = [] →
  (∀ s', inv g N s' → same s s' → d_buffers s' = d_buffers s →
     (∀ b, b ∈ d_buffers s ∨ g_bld g = Some b → buffers s' !! b = buffers s !! b) → Q tt s') →
  wp (ion_heap_freelist_drain h cached sz) Q s.
Proof.
  intros Hs Hd HQ. unfold ion_heap_freelist_drain. wp_b. apply wp_get. cbn beta zeta. wp_b. apply wp_call. wp_b. apply wp_modify.
  set (mine := filter _ _). destruct (drain_mine h cached sz mine (world s)) as [Hsub Hnd].
  change (fst _) with (answer (KDrain h cached sz mine) s) in Hsub, Hnd. set (bs := answer _ s) in *.
  pose proof (iv_lists _ _ _ Hs) as Hl. rewrite Hd, app_nil_r in Hl.
  assert (Hin : bs ⊆ freelist s) by (intros b Hb%Hsub; by apply list_elem_of_filter in Hb as [_ ?]).
  set (s1 := set_freelist _ _).
  assert (Hs1 : inv (g_with_dying bs g) N s1).
  { pose proof Hs as [Ht Hc Hze _ Hf Hh Ha Hcl Hm HN]. split; try assumption.
    - cbn. eapply lists_perm; [done|]. apply drained_perm; [by eapply ls_nodup|done|done].
    - unfold s1. cbn -[mem called]. rewrite mem_called. cbn [mem_of]. rewrite Z.add_0_r. exact Hm. }
  eapply (wp_buffer_destroy_all (g_with_dying bs g)); [done|done| |].
  - intros b E Hb%Hin. by destruct (ls_building _ _ _ _ Hl b E) as (_ & _ & ?).
  - intros s2 Hs2 Hsame _ HD Hbs. apply HQ; [destruct g; cbn in *; by subst|by destruct Hsame; split|done|].
    intros b Hb. rewrite Hbs; [done|]. intros Hin'%Hin. destruct Hb as [Hb|Hb].
    + by destruct (ls_tree _ _ _ _ Hl b Hb).
    + by destruct (ls_building _ _ _ _ Hl b Hb) as (_ & _ & ?).
Qed.

(** ** References to buffers *)

Lemma wp_buffer_get b x (Q : unit → ion W → Prop) s :
  buffers s !! b = Some x → Q tt (set_buffers (<[b := set_b_ref (u32 (b_ref x + 1)) x]> (buffers s)) s) → wp (ion_buffer_get b) Q s.
Proof. intros Hx HQ. by eapply wp_mod_buffer. Qed.

Lemma buffer_pages g N s b x : inv g N s → buffers s !! b = Some x → g_bld g ≠ Some b → pages_ok x.
Proof. intros Hs Hx. apply (iv_forms _ _ _ Hs b x Hx). Qed.
Lemma buffer_counts g N s b x :
  inv g N s → buffers s !! b = Some x → b ∈ d_buffers s → 1 <= b_ref x <= N ∧ 0 <= b_handle_count x <= N ∧ 0 <= b_kmap_cnt x <= N.
Proof.
  intros Hs Hx HD. pose proof (iv_counts _ _ _ Hs) as Hc.
  destruct (cn_buffer _ _ _ _ _ _ Hc b HD) as (x2 & Hx2 & Hr & Hr' & Hh & Hk & ?).
  rewrite Hx in Hx2. injection Hx2 as <-. destruct (cn_pins _ _ _ _ _ _ Hc b).
  pose proof (total_nonneg _ _ (handle_of_nonneg b (live_handles g s))).
  pose proof (total_nonneg _ _ (dmabuf_of_nonneg b (live_dmabufs g s))).
  pose proof (total_nonneg _ _ (mapped_of_nonneg b (live_handles g s))).
  pose proof (total_nonneg _ _ (access_of_nonneg Hc b)). lia.
Qed.

Lemma inv_get g N s b x :
  inv g N s → buffers s !! b = Some x → b ∈ d_buffers s → N + 1 < 2 ^ 31 →
  inv (g_pin b 1 g) (N + 1) (set_buffers (<[b := set_b_ref (u32 (b_ref x + 1)) x]> (buffers s)) s).
Proof.
  intros Hs Hx HD HN. destruct (buffer_counts _ _ _ _ _ Hs Hx HD) as (? & _). pose proof (iv_bound _ _ _ Hs).
  rewrite (wrap_small 32) by (unfold in_width; lia).
  eapply (inv_recount g _ N _ s); try done.
  - apply Hs.
  - apply counts_get; [apply Hs|done|done].
  - apply Hs.
  - apply Hs.
  - by left.
  - exact (buffer_pages _ _ _ _ _ Hs Hx).
  - lia.
Qed.

(** The last reference: the buffer leaves the tree and is freed, or waits for it. *)
Lemma inv_erased g N s s' b x x' :
  inv g N s → buffers s !! b = Some x → 1 <= g_pins g b → b_ref x = 1 → g_bld g ≠ Some b →
  buffers s' = <[b := x']> (buffers s) → same s s' → d_buffers s' = d_buffers s ∖ {[b]} → freelist s' = freelist s →
  mem (trace s') = mem (trace s) →
  b_heap x' = b_heap x → b_flags x' = b_flags x → b_vmas x' = b_vmas x → b_kmap_cnt x' = b_kmap_cnt x →
  b_pages x' = b_pages x → b_size x' = b_size x →
  inv (g_with_dying (b :: g_dying g) (g_pin b (-1) g)) N s'.
Proof.
  intros [Ht Hc Hze Hl Hf Hh Ha Hcl Hm HN] Hx Hpin Hr Hb EB [] ED EF EM E1 E2 E3 E4 E5 E6.
  assert (HD : b ∈ d_buffers s) by (apply (cn_pins _ _ _ _ _ _ Hc); lia).
  destruct (counts_put_last b x x' Hc Hx Hpin Hr) as (Hk & _ & Hc').
  assert (Hl' : lists (g_bld g) (<[b := x']> (buffers s)) (d_buffers s) (freelist s ++ g_dying g)).
  { eapply lists_field; [done..|by left]. }
  split; unfold live_handles, live_dmabufs; cbn;
    rewrite ?sm_handles0, ?sm_clients0, ?sm_heaps0, ?sm_d_heaps0, ?sm_exported0, ?sm_vmas0, ?sm_d_clients0, ?ED, ?EF, ?EB, ?EM; try done.
  - destruct Hl' as [Lp Lt Lf Ln Lb]. eapply lists_perm; [|apply Permutation_middle].
    split.
    + intros c Hc2. destruct (decide (c = b)) as [->|]; [right; left; left|]. destruct (Lp c Hc2) as [?|[?|?]]; set_solver.
    + intros c Hc2. destruct (Lt c) as [? ?]; set_solver.
    + intros c [->|Hc2]%elem_of_cons; [|by apply Lf]. exists x'. rewrite lookup_insert_eq. split; [done|congruence].
    + apply NoDup_cons. split; [by apply Lt|done].
    + intros c Hc2. destruct (Lb c Hc2) as (? & ? & ?). set_solver.
  - intros c z. rewrite lookup_insert_Some. intros [[<- <-]|[? Hz]]; [|by apply Hf].
    destruct (Hf b x Hx) as [? Hp]. split; [by rewrite E1|]. intros Hne. unfold pages_ok, ion_buffer_fault_user_mappings.
    rewrite E2, E5, E6. by apply Hp.
  - destruct (areas_field _ _ _ _ _ _ x' Ha Hx E2 E3) as [Av Al]. split.
    + intros v w c Hv Hw. destruct (Av v w c Hv Hw) as (HcD & (y & Hy & Ey) & ?). split; [|split; [by exists y|done]].
      destruct (cn_dmabuf _ _ _ _ _ _ Hc' _ _ Hy) as [? _]. congruence.
    + intros c z [HcD _]%elem_of_difference. by apply Al.
  - by rewrite map_size_insert_Some by (by eexists).
Qed.

(** Since [s], buffer [b] only changed its references and its addresses in other units. *)
Definition only_iomap (b : Z) (x : buffer) s s1 : Prop :=
  same s s1 ∧ d_buffers s1 = d_buffers s ∧ freelist s1 = freelist s ∧ mem (trace s1) = mem (trace s) ∧
  ∃ x1, buffers s1 = <[b := x1]> (buffers s) ∧
    b_heap x1 = b_heap x ∧ b_flags x1 = b_flags x ∧ b_vmas x1 = b_vmas x ∧ b_kmap_cnt x1 = b_kmap_cnt x ∧
    b_pages x1 = b_pages x ∧ b_size x1 = b_size x.

Lemma wp_iova_gone b x s s1 c f d1 d2 v1 v2 z (k : unit → M (ion W) unit) Q :
  only_iomap b x s s1 → (∀ s2, only_iomap b x s s2 → wp (k tt) Q s2) →
  wp (when_ c (mod_buffer b (λ x, set_b_iomap_cnt (f x) x) ;; Ion.call (KIovaUnmap d1 v1 b) ;; Ion.call (KIovaFree d2 v2 z)) ≫= k) Q s1.
Proof.
  intros H1 Hk. wp_b. apply wp_when; [intros _|intros _; by apply Hk].
  destruct H1 as ([] & ED & EF & EM & x1 & EB & ?).
  wp_b. eapply wp_mod_buffer; [rewrite EB; apply lookup_insert_eq|]. wp_b. apply wp_call, wp_call.
  destruct (answer (KIovaFree _ _ _) _). apply Hk.
  split; [by split|]. repeat split; try done.
  - rewrite !mem_called. cbn [mem_of]. rewrite !Z.add_0_r. exact EM.
  - exists (set_b_iomap_cnt (f x1) x1). split; [|done]. cbn. by rewrite EB, insert_insert_eq.
Qed.

Lemma wp_buffer_put_last g N b x s (Q : unit → ion W → Prop) :
  inv g N s → g_dying g = [] → buffers s !! b = Some x → 1 <= g_pins g b → b_ref x = 1 → g_bld g ≠ Some b → unlocked s →
  (∀ s', inv (g_pin b (-1) g) N s' → same s s' → shapes s s' → Q tt s') →
  wp (_ion_buffer_destroy b) Q (set_buffers (<[b := set_b_ref 0 x]> (buffers s)) s).
Proof.
  intros Hs Hd Hx Hpin Hr Hb [Hu1 Hu2] HQ.
  assert (HD : b ∈ d_buffers s) by (apply (cn_pins _ _ _ _ _ _ (iv_counts _ _ _ Hs)); lia).
  destruct (inv_heap _ _ _ _ _ Hs Hx) as (hp & Hhp & _).
  unfold _ion_buffer_destroy. wp_b. eapply wp_buffer_at; [apply lookup_insert_eq|].
  wp_b. eapply wp_heap_at; [done|]. cbn [b_iomap_cnt b_iova b_size set_b_ref].
  assert (H0 : only_iomap b x s (set_buffers (<[b := set_b_ref 0 x]> (buffers s)) s)).
  { split; [done|]. repeat split; try done. by exists (set_b_ref 0 x). }
  eapply wp_iova_gone; [exact H0|]. clear H0. intros s0 H0. eapply wp_iova_gone; [exact H0|].
  clear s0 H0. intros s1 (Hsame & ED & EF & EM & x1 & EB & ? & ? & ? & ? & ? & ?).
  wp_b. apply wp_mutex_lock; [by rewrite (sm_held _ _ Hsame)|]. wp_b. apply wp_get. wp_b.
  apply wp_require; [apply bool_decide_true; cbn; by rewrite ED|]. wp_b. apply wp_modify. wp_b.
  eapply wp_mutex_unlock; [done|by rewrite (sm_held _ _ Hsame)|]. cbn [held set_d_buffers set_held].
  set (s2 := set_held (held s1) _).
  assert (Hsame2 : same s s2) by (destruct Hsame; by split).
  assert (Hs2 : inv (g_with_dying (b :: g_dying g) (g_pin b (-1) g)) N s2).
  { eapply (inv_erased g N s s2 b x x1); try done. cbn. by rewrite ED. }
  assert (Hsh2 : shapes s s2) by (eapply (shapes_insert _ _ b x x1); [done|unfold shape; congruence|done]).
  rewrite Hd in Hs2. destruct (has_flag _ _).
  - apply wp_modify, HQ; [|destruct Hsame2; by split|done].
    destruct Hs2 as [? ? ? Hl ? ? ? ? ? ?]. split; try assumption. cbn. rewrite Hd, app_nil_r. exact Hl.
  - eapply wp_buffer_destroy; [done|done|done|]. intros s3 Hs3 Hsame3 _ _ EB3. apply HQ; [by eapply inv_pins|by etransitivity|].
    etransitivity; [exact Hsh2|by eapply shapes_delete].
Qed.

Lemma wp_buffer_put g N b s (Q : unit → ion W → Prop) :
  inv g N s → g_dying g = [] → 1 <= g_pins g b → g_bld g ≠ Some b → unlocked s →
  (∀ s', inv (g_pin b (-1) g) N s' → same s s' → shapes s s' → Q tt s') →
  wp (ion_buffer_put b) Q s.
Proof.
  intros Hs Hd Hpin Hb Hu HQ.
  assert (HD : b ∈ d_buffers s) by (apply (cn_pins _ _ _ _ _ _ (iv_counts _ _ _ Hs)); lia).
  destruct (inv_buffer _ _ _ _ Hs HD) as [x Hx]. destruct (buffer_counts _ _ _ _ _ Hs Hx HD) as (? & _).
  pose proof (iv_bound _ _ _ Hs).
  unfold ion_buffer_put. wp_b. eapply wp_mod_buffer; [done|]. rewrite (wrap_small 32) by (unfold in_width; lia).
  wp_b. eapply wp_buffer_at; [apply lookup_insert_eq|]. cbn [b_ref set_b_ref].
  apply wp_when; intros E.
  - apply Z.eqb_eq in E. rewrite E. eapply wp_buffer_put_last; try done. lia.
  - apply Z.eqb_neq in E. apply HQ; [|done|by apply (shapes_insert _ _ b x (set_b_ref (b_ref x - 1) x))].
    eapply (inv_recount g _ N _ s); try done.
    + apply Hs.
    + apply counts_put; [apply Hs|done|done|lia].
    + apply Hs.
    + apply Hs.
    + by left.
    + exact (buffer_pages _ _ _ _ _ Hs Hx).
Qed.

(** ** Mappings into the kernel *)

(** Since [s], only buffer [b] changed, and nothing but requests were made. *)
Record one_buffer (b : Z) (x' : buffer) s s1 : Prop := {
  ob_same : same s s1; ob_tree : d_buffers s1 = d_buffers s; ob_list : freelist s1 = freelist s;
  ob_mem : mem (trace s1) = mem (trace s); ob_buffers : buffers s1 = <[b := x']> (buffers s) }.
Lemma one_buffer_stays b x' s s1 : one_buffer b x' s s1 → stays s s1.
Proof. intros [[] ? ? ? ?]. split; try done. intros c. by rewrite sm_clients0. Qed.
Lemma one_buffer_id b x s s1 :
  same s s1 → d_buffers s1 = d_buffers s → freelist s1 = freelist s → mem (trace s1) = mem (trace s) →
  buffers s1 = buffers s → buffers s !! b = Some x → one_buffer b x s s1.
Proof. intros. split; try done. by rewrite insert_id. Qed.

(** [x'] is [x] with [k] mappings, at some address. *)
Definition remapped (x : buffer) (k : Z) (x' : buffer) : Prop :=
  x' = set_b_kmap_cnt k (set_b_vaddr (b_vaddr x') x).

Lemma wp_buffer_kmap_get g N b x (Q : err Z → ion W → Prop) s :
  inv g N s → buffers s !! b = Some x → 0 <= b_kmap_cnt x <= N → N + 1 < 2 ^ 31 →
  (∀ hp, heaps s !! b_heap x = Some hp → has_map_kernel (hp_ops hp) = true) →
  (∀ r s1 x', one_buffer b x' s s1 → remapped x (b_kmap_cnt x + match r with inl _ => 0 | inr _ => 1 end) x' →
     match r with inl e => e ≠ 0 | inr _ => True end → Q r s1) →
  wp (ion_buffer_kmap_get b) Q s.
Proof.
  intros Hs Hx Hk HN Hmap HQ. destruct (inv_heap _ _ _ _ _ Hs Hx) as (hp & Hhp & _).
  assert (Hw : swrap 32 (b_kmap_cnt x + 1) = b_kmap_cnt x + 1).
  { unfold swrap. rewrite Z.mod_small; change (2 ^ (32 - 1)) with (2 ^ 31); change (2 ^ 32) with (2 * 2 ^ 31); lia. }
  unfold ion_buffer_kmap_get. wp_b. eapply wp_buffer_at; [done|]. destruct (truthy _).
  - wp_b. apply wp_modify. apply wp_ret. rewrite Hw. eapply HQ; [by split| |done]. by destruct x.
  - wp_b. eapply wp_op; [done|by apply Hmap|]. wp_b. apply wp_call.
    assert (Hmem : mem (trace (called (KMapKernel (b_heap x) b) s)) = mem (trace s)).
    { rewrite mem_called. cbn [mem_of]. lia. }
    pose proof (map_kernel_errno (b_heap x) b (world s)) as Herr. change (fst _) with (answer (KMapKernel (b_heap x) b) s) in Herr.
    destruct (answer _ _) as [[e|v]|]; cbn [from_option id].
    + apply wp_ret. eapply HQ; [by apply one_buffer_id| |]; [rewrite Z.add_0_r; by destruct x|]. specialize (Herr e eq_refl). lia.
    + wp_b. eapply wp_mod_buffer; [done|]. apply wp_ret. rewrite Hw. eapply HQ; [by split| |done]. by destruct x.
    + apply wp_ret. eapply HQ; [by apply one_buffer_id| |done]. rewrite Z.add_0_r. by destruct x.
Qed.

Lemma wp_buffer_kmap_put b x hp (Q : unit → ion W → Prop) s :
  buffers s !! b = Some x → heaps s !! b_heap x = Some hp → has_unmap_kernel (hp_ops hp) = true → 1 <= b_kmap_cnt x < 2 ^ 31 →
  (∀ s1 x', one_buffer b x' s s1 → remapped x (b_kmap_cnt x - 1) x' → Q tt s1) →
  wp (ion_buffer_kmap_put b) Q s.
Proof.
  intros Hx Hhp ? Hk HQ.
  assert (Hw : swrap 32 (b_kmap_cnt x - 1) = b_kmap_cnt x - 1).
  { unfold swrap. rewrite Z.mod_small; change (2 ^ (32 - 1)) with (2 ^ 31); change (2 ^ 32) with (2 * 2 ^ 31); lia. }
  unfold ion_buffer_kmap_put. wp_b. eapply wp_mod_buffer; [done|]. rewrite Hw.
  wp_b. eapply wp_buffer_at; [apply lookup_insert_eq|]. apply wp_when; intros _.
  - wp_b. eapply wp_op; [done..|]. wp_b. apply wp_call. eapply wp_mod_buffer; [apply lookup_insert_eq|].
    apply (HQ _ (set_b_vaddr 0 (set_b_kmap_cnt (b_kmap_cnt x - 1) x))); [split; try done|by destruct x].
    + cbn -[mem called]. rewrite mem_called. apply Z.add_0_r.
    + cbn. by rewrite insert_insert_eq.
  - eapply HQ; [by split|]. by destruct x.
Qed.

Lemma remapped_fields x k x' : remapped x k x' →
  b_ref x' = b_ref x ∧ b_handle_count x' = b_handle_count x ∧ b_kmap_cnt x' = k ∧ b_heap x' = b_heap x ∧
  b_flags x' = b_flags x ∧ b_vmas x' = b_vmas x ∧ b_pages x' = b_pages x ∧ b_size x' = b_size x.
Proof. intros E. unfold remapped in E. rewrite E. done. Qed.
Lemma pages_ok_same x x' : b_flags x' = b_flags x → b_pages x' = b_pages x → b_size x' = b_size x → pages_ok x → pages_ok x'.
Proof. intros E1 E2 E3. unfold pages_ok, ion_buffer_fault_user_mappings. by rewrite E1, E2, E3. Qed.

Lemma live_here g s h y : g_phantom g = None → handles s !! h = Some y → live_handles g s !! h = Some y.
Proof. intros E Hh. unfold live_handles. by rewrite E. Qed.

Lemma inv_remapped g N N' s s1 h y k b x x' :
  inv g N s → N <= N' < 2 ^ 31 → g_phantom g = None → g_bld g ≠ Some b → handles s !! h = Some y → h_buffer y = b →
  one_buffer b x' s s1 → buffers s !! b = Some x →
  remapped x (b_kmap_cnt x - mapped_of b y + mapped_of b (set_h_kmap_cnt k y)) x' →
  0 <= k <= N' → b_kmap_cnt x - mapped_of b y + mapped_of b (set_h_kmap_cnt k y) <= N' →
  inv g N' (set_handles (<[h := set_h_kmap_cnt k y]> (handles s1)) s1).
Proof.
  intros Hs HN Hph Hb Hy Eb H1 Hx Ex Hk Hk'. pose proof (iv_bound _ _ _ Hs) as HN0. pose proof H1 as [[] ? ? ? EB].
  assert (Hl : live_handles g s !! h = Some y) by (unfold live_handles; by rewrite Hph).
  destruct (cn_handle _ _ _ _ _ _ (iv_counts _ _ _ Hs) h y Hl) as (HD & Hr & _). rewrite Eb in HD.
  pose proof (buffer_pages _ _ _ _ _ Hs Hx Hb) as Hp.
  destruct (remapped_fields _ _ _ Ex) as (E1 & E2 & E3 & E4 & E5 & E6 & E7 & E8).
  eapply (inv_recount g g N N' s); try done; [by apply one_buffer_stays in H1 as []|..].
  - unfold live_handles. cbn. rewrite Hph, sm_clients0, sm_handles0. cbn [without].
    pose proof (iv_tables _ _ _ Hs) as Ht. unfold live_handles in Ht. rewrite Hph in Ht. by eapply tables_same.
  - unfold live_handles, live_dmabufs. cbn. rewrite Hph, sm_handles0, sm_exported0. cbn [without].
    pose proof (iv_counts _ _ _ Hs) as Hc. unfold live_handles in Hc. rewrite Hph in Hc. cbn [without] in Hc.
    eapply counts_map; try done; cbn; lia.
  - unfold live_dmabufs. cbn. rewrite sm_exported0. apply Hs.
  - unfold live_handles. cbn. rewrite Hph, sm_handles0. cbn [without]. intros i z. rewrite lookup_insert_Some.
    pose proof (iv_refs _ _ _ Hs) as Hz. intros [[<- <-]|[_ Hi]]; [exact (Hz h y Hl)|by apply Hz, live_here].
  - by right.
  - intros _. by eapply pages_ok_same.
  - lia.
Qed.

(** What operations on a handle and its buffer leave alone. *)
Record others s s' : Prop := {
  ot_clients : clients s' = clients s; ot_heaps : heaps s' = heaps s; ot_d_clients : d_clients s' = d_clients s;
  ot_d_heaps : d_heaps s' = d_heaps s; ot_d_custom : d_custom s' = d_custom s; ot_exported : exported s' = exported s;
  ot_vmas : vmas s' = vmas s; ot_held : held s' = held s }.
#[export] Instance others_preorder : PreOrder others.
Proof. split; [done|]. intros s1 s2 s3 [] []. split; congruence. Qed.
Lemma same_others s s' : same s s' → others s s'.
Proof. intros []. by split. Qed.

Lemma mapped_of_here b y : h_buffer y = b → mapped_of b y = if h_kmap_cnt y =? 0 then 0 else 1.
Proof. intros <-. unfold mapped_of. rewrite Z.eqb_refl. by destruct (_ =? 0). Qed.

Lemma set_kmap_id y : set_h_kmap_cnt (h_kmap_cnt y) y = y.
Proof. by destruct y. Qed.

Lemma wp_handle_kmap_get g N h y x (Q : err Z → ion W → Prop) s :
  inv g N s → g_phantom g = None → g_bld g = None → handles s !! h = Some y → N + 1 < 2 ^ 31 →
  buffers s !! h_buffer y = Some x → (∀ hp, heaps s !! b_heap x = Some hp → has_map_kernel (hp_ops hp) = true) →
  (∀ r s' k, inv g (N + 1) s' → others s s' → d_buffers s' = d_buffers s →
     handles s' = <[h := set_h_kmap_cnt k y]> (handles s) → Q r s') →
  wp (ion_handle_kmap_get h) Q s.
Proof.
  intros Hs Hph Hb Hy HN Hx Hmap HQ. pose proof (iv_bound _ _ _ Hs) as HN0.
  destruct (cn_handle _ _ _ _ _ _ (iv_counts _ _ _ Hs) h y (live_here _ _ _ _ Hph Hy)) as (HD & Hr & Hk).
  destruct (buffer_counts _ _ _ _ _ Hs Hx HD) as (_ & _ & Hkx).
  pose proof (mapped_of_here _ y eq_refl) as Em.
  assert (Em' : ∀ k, mapped_of (h_buffer y) (set_h_kmap_cnt k y) = if k =? 0 then 0 else 1) by (intros; by apply mapped_of_here).
  unfold ion_handle_kmap_get. wp_b. eapply wp_handle_at; [done|]. unfold truthy.
  destruct (Z.eqb_spec (h_kmap_cnt y) 0) as [E|E]; cbn [negb].
  - wp_b. eapply wp_buffer_kmap_get; [done..|]. intros r s1 x' H1 Ex _.
    destruct r as [e|v]; (wp_b || idtac).
    + apply wp_ret. eapply (HQ _ _ (h_kmap_cnt y)).
      * eapply inv_same; [eapply (inv_remapped g N (N + 1) s s1 h y (h_kmap_cnt y)); try done; try lia|..]; try done.
        -- by rewrite Hb.
        -- rewrite Z.add_0_r in Ex. by rewrite set_kmap_id, Z.sub_add.
        -- rewrite set_kmap_id. lia.
        -- cbn. rewrite set_kmap_id. symmetry. apply insert_id. by rewrite (sm_handles _ _ (ob_same _ _ _ _ H1)).
      * apply same_others, H1.
      * apply H1.
      * rewrite set_kmap_id, insert_id by done. apply H1.
    + eapply wp_mod_handle; [by rewrite (sm_handles _ _ (ob_same _ _ _ _ H1))|]. apply wp_ret.
      rewrite E. change (u32 (0 + 1)) with 1. eapply (HQ _ _ 1).
      * eapply (inv_remapped g N (N + 1) s s1); try done; try lia; try (by rewrite Hb); rewrite Em, Em', ?E; cbn [Z.eqb]; [|lia].
        by rewrite Z.sub_0_r.
      * by destruct H1 as [[] ? ? ? ?]; split.
      * apply H1.
      * cbn. by rewrite (sm_handles _ _ (ob_same _ _ _ _ H1)).
  - wp_b. apply wp_modify. wp_b. eapply wp_buffer_at; [done|]. apply wp_ret. rewrite (wrap_small 32) by (unfold in_width; lia).
    eapply HQ; try done.
    eapply (inv_remapped g N (N + 1) s s); try done; try lia; rewrite ?Em, ?Em'.
    + by rewrite Hb.
    + by apply one_buffer_id.
    + destruct (Z.eqb_spec (h_kmap_cnt y) 0), (Z.eqb_spec (h_kmap_cnt y + 1) 0); try lia. rewrite Z.sub_add. by destruct x.
    + destruct (Z.eqb_spec (h_kmap_cnt y) 0), (Z.eqb_spec (h_kmap_cnt y + 1) 0); lia.
Qed.

Lemma wp_handle_kmap_put g N h y (Q : unit → ion W → Prop) s :
  inv g N s → g_phantom g = None → g_bld g = None → handles s !! h = Some y → 1 <= h_kmap_cnt y →
  (∀ s', inv g N s' → others s s' → d_buffers s' = d_buffers s →
     handles s' = <[h := set_h_kmap_cnt (h_kmap_cnt y - 1) y]> (handles s) → Q tt s') →
  wp (ion_handle_kmap_put h) Q s.
Proof.
  intros Hs Hph Hb Hy Hk1 HQ. pose proof (iv_bound _ _ _ Hs) as HN0.
  pose proof (iv_counts _ _ _ Hs) as Hc. pose proof (live_here _ _ _ _ Hph Hy) as Hl.
  destruct (cn_handle _ _ _ _ _ _ Hc h y Hl) as (HD & Hr & Hk).
  destruct (inv_buffer _ _ _ _ Hs HD) as [x Hx].
  destruct (buffer_counts _ _ _ _ _ Hs Hx HD) as (_ & _ & Hkx).
  pose proof (mapped_of_here _ y eq_refl) as Em.
  assert (Em' : ∀ k, mapped_of (h_buffer y) (set_h_kmap_cnt k y) = if k =? 0 then 0 else 1) by (intros; by apply mapped_of_here).
  assert (Ey : (h_kmap_cnt y =? 0) = false) by lia. rewrite Ey in Em.
  unfold ion_handle_kmap_put. wp_b. eapply wp_mod_handle; [done|]. rewrite (wrap_small 32) by (unfold in_width; lia).
  wp_b. eapply wp_handle_at; [apply lookup_insert_eq|]. cbn [h_kmap_cnt h_buffer set_h_kmap_cnt].
  set (s0 := set_handles _ s). apply wp_when; intros E.
  - assert (Hkb : 1 <= b_kmap_cnt x).
    { destruct (cn_buffer _ _ _ _ _ _ Hc _ HD) as (x2 & Hx2 & _ & _ & _ & Hkb & _).
      rewrite Hx in Hx2. injection Hx2 as <-.
      pose proof (total_elem _ _ _ _ (mapped_of_nonneg (h_buffer y) (live_handles g s)) Hl).
      pose proof (total_nonneg _ _ (access_of_nonneg Hc (h_buffer y))). lia. }
    destruct (inv_heap _ _ _ _ _ Hs Hx) as (hp & Hhp & (_ & _ & _ & _ & Hu & _)).
    eapply wp_buffer_kmap_put; [done|done|done|lia|]. intros s1 x' H1 Ex.
    apply HQ; [|by destruct H1 as [[] ? ? ? ?]; split|apply H1|apply H1].
    assert (H1' : one_buffer (h_buffer y) x' s (set_handles (handles s) s1)) by (destruct H1 as [[] ? ? ? ?]; by split).
    eapply inv_same; [eapply (inv_remapped g N N s _ h y (h_kmap_cnt y - 1) _ x x')|..]; try done; try lia.
    + by rewrite Hb.
    + rewrite Em, Em', E. by rewrite Z.add_0_r.
    + rewrite Em, Em', E. lia.
    + apply (sm_handles _ _ (ob_same _ _ _ _ H1)).
  - apply HQ; try done. eapply inv_same; [eapply (inv_remapped g N N s s h y (h_kmap_cnt y - 1) _ x x)|..]; try done; try lia.
    + by rewrite Hb.
    + by apply one_buffer_id.
    + rewrite Em, Em', E. rewrite Z.sub_add. by destruct x.
    + rewrite Em, Em', E. lia.
Qed.

Lemma wp_unmap_all g N h y (Q : unit → ion W → Prop) s :
  inv g N s → g_phantom g = None → g_bld g = None → handles s !! h = Some y →
  (∀ s', inv g N s' → others s s' → d_buffers s' = d_buffers s → handles s' = <[h := set_h_kmap_cnt 0 y]> (handles s) → Q tt s') →
  wp (unmap_all (Z.to_nat (h_kmap_cnt y)) h) Q s.
Proof.
  intros Hs Hph Hb. remember (Z.to_nat (h_kmap_cnt y)) as n eqn:En. revert s y Hs En.
  induction n as [|n IH]; intros s y Hs En Hy HQ; unfold unmap_all; fold unmap_all; wp_b; (eapply wp_handle_at; [done|]);
    destruct (cn_handle _ _ _ _ _ _ (iv_counts _ _ _ Hs) h y (live_here _ _ _ _ Hph Hy)) as (HD & Hr & Hk).
  - assert (E : h_kmap_cnt y = 0) by lia. rewrite E. cbn. apply wp_ret, HQ; try done.
    rewrite <- E, set_kmap_id. symmetry. by apply insert_id.
  - assert (E : truthy (h_kmap_cnt y) = true) by (unfold truthy; destruct (Z.eqb_spec (h_kmap_cnt y) 0); [lia|done]).
    rewrite E. wp_b. eapply wp_handle_kmap_put; [done..|lia|]. intros s1 Hs1 Ho1 HD1 Hh1.
    apply (IH s1 (set_h_kmap_cnt (h_kmap_cnt y - 1) y)); [done|cbn; lia|rewrite Hh1; apply lookup_insert_eq|].
    intros s2 Hs2 Ho2 HD2 Hh2. apply HQ; [done|by etransitivity|congruence|].
    by rewrite Hh2, Hh1, insert_insert_eq.
Qed.

(** ** Handles *)

Lemma swrap_small k : - 2 ^ 31 <= k < 2 ^ 31 → swrap 32 k = k.
Proof.
  intros. unfold swrap. change (2 ^ (32 - 1)) with (2 ^ 31). change (2 ^ 32) with (2 ^ 31 + 2 ^ 31).
  rewrite Z.mod_small; lia.
Qed.

(** [x'] is [x] with [n] handles, last used by some process. *)
Definition recounted (x : buffer) (n : Z) (x' : buffer) : Prop :=
  x' = set_b_handle_count n (set_b_task (b_task x') x).

Lemma wp_add_to_handle b x (Q : unit → ion W → Prop) s :
  buffers s !! b = Some x → 0 <= b_handle_count x < 2 ^ 31 - 1 → unlocked s →
  (∀ s1 x', one_buffer b x' s s1 → recounted x (b_handle_count x + 1) x' → Q tt s1) →
  wp (ion_buffer_add_to_handle b) Q s.
Proof.
  intros Hx Hk [_ Hu] HQ. unfold ion_buffer_add_to_handle. wp_b. apply wp_lock_buffer; [by eexists|done|].
  wp_b. eapply wp_mod_buffer; [done|]. rewrite swrap_small by lia.
  eapply wp_unlock_buffer; [eexists; apply lookup_insert_eq|done|done|].
  eapply HQ; [by split|]. by destruct x.
Qed.

Lemma wp_remove_from_handle b x (Q : unit → ion W → Prop) s :
  buffers s !! b = Some x → 0 < b_handle_count x < 2 ^ 31 → unlocked s →
  (∀ s1 x', one_buffer b x' s s1 → recounted x (b_handle_count x - 1) x' → Q tt s1) →
  wp (ion_buffer_remove_from_handle b) Q s.
Proof.
  intros Hx Hk [_ Hu] HQ. unfold ion_buffer_remove_from_handle. wp_b. apply wp_lock_buffer; [by eexists|done|].
  wp_b. eapply wp_mod_buffer; [done|]. rewrite swrap_small by lia.
  wp_b. eapply wp_buffer_at; [apply lookup_insert_eq|]. cbn [b_handle_count set_b_handle_count].
  destruct (Z.ltb_spec (b_handle_count x - 1) 0); [lia|].
  wp_b. apply wp_when; intros _.
  - wp_b. apply wp_call. eapply wp_mod_buffer; [apply lookup_insert_eq|].
    eapply wp_unlock_buffer; [eexists; apply lookup_insert_eq|done|done|].
    set (t := answer _ _).
    apply (HQ _ (set_b_task (t_comm t, t_pid t, t_tid t) (set_b_handle_count (b_handle_count x - 1) x))); [split; try done|by destruct x].
    + cbn -[mem called]. rewrite mem_called. apply Z.add_0_r.
    + cbn. by rewrite insert_insert_eq.
  - eapply wp_unlock_buffer; [eexists; apply lookup_insert_eq|done|done|].
    eapply HQ; [by split|]. by destruct x.
Qed.

Lemma recounted_fields x n x' : recounted x n x' →
  b_ref x' = b_ref x ∧ b_handle_count x' = n ∧ b_kmap_cnt x' = b_kmap_cnt x ∧ b_heap x' = b_heap x ∧
  b_flags x' = b_flags x ∧ b_vmas x' = b_vmas x ∧ b_pages x' = b_pages x ∧ b_size x' = b_size x.
Proof. intros E. unfold recounted in E. rewrite E. done. Qed.

(** Counts only see the counts. *)
Lemma counts_buffer_eq N pins hs ex bs D b x x' :
  counts N pins hs ex (<[b := x]> bs) D → b_ref x' = b_ref x → b_handle_count x' = b_handle_count x → b_kmap_cnt x' = b_kmap_cnt x →
  counts N pins hs ex (<[b := x']> bs) D.
Proof.
  intros Hc E1 E2 E3. rewrite <- (insert_insert_eq bs b x' x). eapply counts_field; [done|apply lookup_insert_eq|done..].
Qed.

(** A function that is not in the middle of anything, but for references it holds. *)
Definition settled (g : ghost) : Prop :=
  g_loose g = None ∧ g_phantom g = None ∧ g_leaving g = None ∧ g_building g = None ∧ g_dying g = [] ∧ g_zero g = None.
Lemma settled_bld g : settled g → g_bld g = None.
Proof. intros (_ & _ & _ & E & _). unfold g_bld. by rewrite E. Qed.

Lemma settled_inv g N s : settled g → inv g N s →
  tables None (handles s) (clients s) ∧ counts N (g_pins g) (handles s) (exported s) (buffers s) (d_buffers s) ∧
  areas (buffers s) (d_buffers s) (exported s) (vmas s).
Proof.
  intros (El & Ep & Ele & _ & _) [Ht Hc _ _ _ _ Ha _ _ _]. unfold live_handles, live_dmabufs in *.
  rewrite El, Ep in Ht. rewrite Ep, Ele in Hc. rewrite Ele in Ha. done.
Qed.

Lemma wp_handle_create g N c b (Q : err Z → ion W → Prop) s :
  inv g N s → settled g → N + 1 < 2 ^ 31 → is_Some (clients s !! c) → b ∈ d_buffers s → unlocked s →
  (∀ e s', inv g N s' → same s s' → shapes s s' → Q (inl e) s') →
  (∀ h s', inv (g_with_loose (Some h) g) (N + 1) s' → others s s' → d_buffers s' = d_buffers s → handles s !! h = None →
     handles s' = <[h := mk_handle 1 c b false 0 0]> (handles s) → shapes s s' → Q (inr h) s') →
  wp (ion_handle_create c b) Q s.
Proof.
  intros Hs Hg HN Hc HD Hu Herr HQ. pose proof Hg as (El & Ep & Ele & Eb & Ed & Ezr). pose proof (iv_bound _ _ _ Hs) as HN0.
  destruct (inv_buffer _ _ _ _ Hs HD) as [x Hx]. destruct (buffer_counts _ _ _ _ _ Hs Hx HD) as (Hr & Hh & Hk).
  unfold ion_handle_create, kzalloc. wp_b. wp_b. apply wp_get. apply wp_call.
  pose proof (kzalloc_fresh (in_use s) (world s)) as Hfresh.
  set (a := answer _ s). change (∀ h, a = Some h → h ∉ in_use s) in Hfresh.
  assert (H0 : inv g N (called (KZalloc (in_use s)) s)) by (by apply inv_called).
  destruct a as [h|]; [|apply wp_ret, Herr; [done..|by apply shapes_same]].
  assert (Hnew : handles s !! h = None).
  { apply not_elem_of_dom. specialize (Hfresh h eq_refl). unfold in_use in Hfresh. set_solver. }
  clear Hfresh. set (s0 := called _ s) in *.
  wp_b. apply wp_modify. wp_b. eapply wp_buffer_get; [done|]. rewrite (wrap_small 32) by (unfold in_width; lia).
  wp_b. eapply wp_add_to_handle; [apply lookup_insert_eq|cbn; lia|done|]. intros s1 x1 H1 Ex1.
  destruct (recounted_fields _ _ _ Ex1) as (E1 & E2 & E3 & E4 & E5 & E6 & E7 & E8). cbn in E1, E2, E3, E4, E5, E6, E7, E8.
  pose proof H1 as [[] ? ? ? EB]. cbn in sm_handles0, EB. rewrite insert_insert_eq in EB.
  wp_b. eapply wp_mod_handle; [rewrite sm_handles0; apply lookup_insert_eq|]. apply wp_ret.
  assert (Eh : <[h := set_h_buffer b (new_handle c)]> (handles s1) = <[h := mk_handle 1 c b false 0 0]> (handles s)).
  { by rewrite sm_handles0, insert_insert_eq. }
  apply HQ; try done; [|apply (shapes_insert s _ b x x1 Hx); [unfold shape; congruence|exact EB]].
  destruct (settled_inv _ _ _ Hg H0) as (Ht & Hcn & Ha).
  eapply (inv_recount g (g_with_loose (Some h) g) N (N + 1) s0 _ b x x1); try done.
  - split; try done. intros d. cbn. by rewrite sm_clients0.
  - unfold live_handles. cbn. rewrite Ep, Eh, sm_clients0. cbn [without].
    by apply tables_new; [exact Ht|exact Hnew|exact Hc|..].
  - unfold live_handles, live_dmabufs. cbn. rewrite Ep, Ele, Eh, sm_exported0. cbn [without].
    apply (counts_buffer_eq _ _ _ _ _ _ b (set_b_handle_count (b_handle_count x + 1) (set_b_ref (b_ref x + 1) x))); [|done..].
    assert (Hp : 1 <= pin_add b 1 (g_pins g) b) by (rewrite pin_add_eq; destruct (cn_pins _ _ _ _ _ _ Hcn b); lia).
    assert (HN' : 1 <= N + 1) by lia.
    pose proof (counts_handle_new h (mk_handle 1 c b false 0 0) b _ (counts_get b x Hcn Hx HD) HN' Hnew eq_refl eq_refl eq_refl
      (lookup_insert_eq _ _ _) Hp) as H3.
    rewrite insert_insert_eq in H3. eapply counts_pins; [exact H3|].
    intros d. destruct (decide (d = b)) as [->|]; [rewrite !pin_add_eq; cbn; lia|by rewrite !pin_add_ne].
  - unfold live_dmabufs. cbn. by rewrite Ele, sm_exported0.
  - unfold live_handles. cbn. rewrite Ep, Eh. cbn [without]. intros i z. rewrite lookup_insert_Some.
    intros [[<- <-]|[_ Hi]]; [done|]. apply (iv_refs _ _ _ Hs). by apply live_here.
  - by left.
  - intros _. apply (pages_ok_same x); try done. apply (buffer_pages _ _ _ _ _ Hs Hx). by rewrite settled_bld.
  - lia.
Qed.

(** What the end of a handle changes. *)
Record handle_gone (h : Z) (y : handle) (x : client) s s' : Prop := {
  hg_handles : handles s' = delete h (handles s);
  hg_clients : clients s' = <[h_client y := unlinked y x]> (clients s);
  hg_heaps : heaps s' = heaps s; hg_d_clients : d_clients s' = d_clients s; hg_d_heaps : d_heaps s' = d_heaps s;
  hg_d_custom : d_custom s' = d_custom s; hg_exported : exported s' = exported s; hg_vmas : vmas s' = vmas s;
  hg_held : held s' = held s }.

(** The handle that was special is gone. *)
Definition gone (g : ghost) : ghost := g_with_zero None (g_with_loose None g).

(** A handle that is not mapped leaves the tables; its buffer keeps the reference for now. *)
Lemma inv_unlinked g N h y x b z z' s s' :
  inv g N s → g_phantom g = None → g_leaving g = None → g_building g = None → g_loose g = None ∨ g_loose g = Some h →
  g_zero g = None ∨ g_zero g = Some h → handles s !! h = Some y → h_kmap_cnt y = 0 → h_buffer y = b → clients s !! h_client y = Some x →
  buffers s !! b = Some z → recounted z (b_handle_count z - 1) z' →
  one_buffer b z' (set_clients (<[h_client y := unlinked y x]> (clients s)) s) s' →
  inv (g_pin b 1 (g_with_phantom (Some h) (gone g))) N s'.
Proof.
  intros Hs Ep Ele Eb Hlo Hzero Hy Hk Eby Hx Hz Ez [[] Et El Em EB]. cbn in sm_handles0, sm_clients0, sm_exported0, EB.
  destruct (recounted_fields _ _ _ Ez) as (E1 & E2 & E3 & E4 & E5 & E6 & E7 & E8).
  destruct Hs as [Ht Hc Hze Hl Hf Hh Ha Hcl Hm HN]. unfold live_handles, live_dmabufs in *.
  rewrite Ep in Ht, Hc, Hze. rewrite Ele in Hc, Ha. cbn [without] in *.
  destruct (cn_handle _ _ _ _ _ _ Hc h y Hy) as (HD & _). rewrite Eby in HD.
  assert (Hs : inv g N s) by (split; unfold live_handles, live_dmabufs; rewrite ?Ep, ?Ele; done).
  eapply (inv_recount g _ N N s s' b z z'); try done; unfold live_handles, live_dmabufs.
  - split; try done. intros c. rewrite sm_clients0, lookup_insert_is_Some.
    destruct (decide (h_client y = c)) as [<-|]; [|tauto]. split; [by eexists|by left].
  - cbn. rewrite sm_handles0, sm_clients0. by eapply tables_drop.
  - cbn. rewrite sm_handles0, sm_exported0, Ele. cbn [without].
    destruct (counts_handle_drop h y b z Hc Hy Eby Hk Hz) as [_ Hc']. by eapply counts_buffer_eq.
  - cbn. by rewrite sm_exported0, Ele.
  - cbn. rewrite sm_handles0. intros i w [Hne Hi]%lookup_delete_Some Er. pose proof (Hze i w Hi Er). destruct Hzero; congruence.
  - by left.
  - intros _. eapply pages_ok_same; try done. apply (buffer_pages _ _ _ _ _ Hs Hz). unfold g_bld. by rewrite Eb.
Qed.

Lemma inv_unphantom g N h b s :
  inv (g_pin b (-1) (g_pin b 1 (g_with_phantom (Some h) (gone g)))) N s → g_phantom g = None →
  inv (gone g) N (set_handles (delete h (handles s)) s).
Proof.
  intros Hs Ep. eapply (inv_pins (g_pin b (-1) (g_pin b 1 (gone g)))); try done.
  - destruct Hs. split; try assumption; unfold live_handles in *; cbn; rewrite Ep; assumption.
  - intros d. cbn. destruct (decide (d = b)) as [->|]; [rewrite !pin_add_eq; lia|by rewrite !pin_add_ne].
Qed.

Lemma wp_handle_destroy g N h y x (Q : unit → ion W → Prop) s :
  inv g N s → g_phantom g = None → g_leaving g = None → g_building g = None → g_dying g = [] →
  g_loose g = None ∨ g_loose g = Some h → g_zero g = None ∨ g_zero g = Some h →
  handles s !! h = Some y → clients s !! h_client y = Some x → unlocked s →
  (∀ s', inv (gone g) N s' → handle_gone h y x s s' → Q tt s') →
  wp (ion_handle_destroy h) Q s.
Proof.
  intros Hs Ep Ele Eb Ed Hlo Hzero Hy Hx Hu HQ. pose proof (iv_bound _ _ _ Hs) as HN.
  assert (Ebld : g_bld g = None) by (unfold g_bld; by rewrite Eb).
  pose proof (live_here _ _ _ _ Ep Hy) as Hl.
  destruct (cn_handle _ _ _ _ _ _ (iv_counts _ _ _ Hs) h y Hl) as (HD & _).
  destruct (inv_buffer _ _ _ _ Hs HD) as [z0 Hz0].
  unfold ion_handle_destroy. wp_b. eapply wp_handle_at; [done|]. cbn beta zeta.
  wp_b. apply wp_lock_buffer; [by eexists|apply Hu|].
  wp_b. eapply (wp_unmap_all g N); [by apply inv_held|done|done|done|]. intros s1 Hs1 Ho1 HD1 Hh1.
  cbn in Hh1, HD1. destruct (inv_buffer _ _ _ _ Hs1 ltac:(by rewrite HD1)) as [z Hz].
  destruct Ho1 as [O1 O2 O3 O4 O5 O6 O7 O8]. cbn in O1, O2, O3, O4, O5, O6, O7, O8.
  wp_b. eapply wp_unlock_buffer; [by eexists|done|apply Hu|].
  set (s2 := set_held (held s) s1). assert (Hs2 : inv g N s2) by by apply inv_held.
  assert (Hy2 : handles s2 !! h = Some (set_h_kmap_cnt 0 y)) by (cbn; rewrite Hh1; apply lookup_insert_eq).
  wp_b. eapply wp_mod_client; [cbn; by rewrite O1|].
  set (x1 := set_c_idr (delete (h_id y) (c_idr x)) x).
  wp_b. apply (wp_mono _ (λ _ s3, s3 = set_clients (<[h_client y := unlinked y x]> (clients s2)) s2)).
  { apply wp_when; intros E.
    - unfold rb_erase_handle. wp_b. eapply wp_handle_at; [exact Hy2|]. wp_b.
      eapply wp_client_at; [apply lookup_insert_eq|]. wp_b. apply wp_require.
      + apply bool_decide_true. cbn.
        destruct (tb_handle _ _ _ (iv_tables _ _ _ Hs) h y Hl) as (x2 & Hx2 & Hlk). rewrite Hx in Hx2. injection Hx2 as <-.
        destruct Hlo as [Hlo|Hlo]; rewrite Hlo in Hlk; [rewrite decide_False in Hlk by done; apply Hlk|].
        rewrite decide_True in Hlk by done. destruct Hlk. congruence.
      + apply wp_modify. cbn. rewrite insert_insert_eq. unfold unlinked. by rewrite E.
    - unfold unlinked. by rewrite E. }
  intros [] s3 ->.
  assert (Hcz : 0 < b_handle_count z < 2 ^ 31).
  { assert (Hl2 : live_handles g s2 !! h = Some (set_h_kmap_cnt 0 y)) by by apply live_here.
    destruct (cn_buffer _ _ _ _ _ _ (iv_counts _ _ _ Hs2) (h_buffer y)) as (z2 & Hz2 & _ & _ & Hc2 & _).
    { cbn. by rewrite HD1. }
    assert (z2 = z) as -> by (cbn in Hz2; congruence).
    pose proof (total_elem _ _ _ _ (handle_of_nonneg (h_buffer y) _) Hl2) as H1. unfold handle_of in H1 at 1.
    cbn in H1. rewrite Z.eqb_refl in H1. cbn in H1.
    destruct (buffer_counts _ _ _ _ _ Hs1 Hz ltac:(by rewrite HD1)) as (_ & ? & _). lia. }
  wp_b. eapply wp_remove_from_handle; [exact Hz|done|done|]. intros s4 z' H4 Ez.
  assert (Hs4 : inv (g_pin (h_buffer y) 1 (g_with_phantom (Some h) (gone g))) N s4).
  { eapply (inv_unlinked g N h (set_h_kmap_cnt 0 y) x (h_buffer y) z z' s2); try done. cbn. by rewrite O1. }
  pose proof (ob_same _ _ _ _ H4) as Hsame4.
  wp_b. eapply wp_buffer_put; [exact Hs4|done| |by unfold g_bld; cbn; rewrite Eb|by eapply same_unlocked|].
  { cbn. rewrite pin_add_eq. destruct (cn_pins _ _ _ _ _ _ (iv_counts _ _ _ Hs) (h_buffer y)). lia. }
  intros s5 Hs5 Hsame5 _. pose proof (transitivity Hsame4 Hsame5) as Hsame.
  unfold kfree_handle. wp_b. eapply wp_handle_at; [rewrite (sm_handles _ _ Hsame); exact Hy2|].
  apply wp_modify, HQ; [by eapply inv_unphantom|].
  destruct Hsame as [H1 H2 H3 H5 H6 H7 H8 H9 H10]. cbn in H1, H2, H3, H5, H6, H7, H8, H9, H10.
  split; cbn; try congruence. rewrite H1, Hh1. by rewrite delete_insert_eq.
Qed.

(** One handle changes its references. *)
Lemma inv_handle_ref g g' N N' h y r s :
  inv g N s → g_phantom g = None → handles s !! h = Some y → N <= N' < 2 ^ 31 → 0 <= r <= N' →
  g' = g_with_zero (g_zero g') g → (∀ k, g_zero g = Some k → k ≠ h → g_zero g' = Some k) → (r = 0 → g_zero g' = Some h) →
  inv g' N' (set_handles (<[h := set_h_ref r y]> (handles s)) s).
Proof.
  intros Hs Ep Hy HN Hr Eg Hother Hzero. pose proof (live_here _ _ _ _ Ep Hy) as Hl.
  destruct Hs as [Ht Hc Hz Hls Hf Hh Ha Hcl Hm HN0]. unfold live_handles, live_dmabufs in *.
  rewrite Ep in *. rewrite Eg. split; unfold live_handles, live_dmabufs; cbn; rewrite ?Ep; try done.
  - by eapply tables_same.
  - destruct (cn_handle _ _ _ _ _ _ Hc h y Hy) as (_ & _ & ?). eapply counts_handle_same; try done; cbn; lia.
  - intros i z. cbn [without]. rewrite lookup_insert_Some. intros [[<- <-]|[Hne Hi]]; [done|].
    intros E. apply Hother; [by eapply Hz|done].
  - lia.
Qed.

Lemma wp_handle_get h y (Q : unit → ion W → Prop) s :
  handles s !! h = Some y → Q tt (set_handles (<[h := set_h_ref (u32 (h_ref y + 1)) y]> (handles s)) s) → wp (ion_handle_get h) Q s.
Proof. intros Hy HQ. by eapply wp_mod_handle. Qed.

Lemma handle_bounds g N s h y : inv g N s → g_phantom g = None → handles s !! h = Some y →
  h_buffer y ∈ d_buffers s ∧ 0 <= h_ref y <= N ∧ 0 <= h_kmap_cnt y <= N ∧ is_Some (clients s !! h_client y).
Proof.
  intros Hs Ep Hy. pose proof (live_here _ _ _ _ Ep Hy) as Hl.
  destruct (cn_handle _ _ _ _ _ _ (iv_counts _ _ _ Hs) h y Hl) as (? & ? & ?).
  destruct (tb_handle _ _ _ (iv_tables _ _ _ Hs) h y Hl) as (x & Hx & _). split; [done|]. split; [done|]. split; [done|]. by exists x.
Qed.
Lemma handle_ref_pos g N s h y : inv g N s → g_phantom g = None → g_zero g = None → handles s !! h = Some y → 1 <= h_ref y.
Proof.
  intros Hs Ep Ez Hy. destruct (handle_bounds _ _ _ _ _ Hs Ep Hy) as (_ & ? & _).
  destruct (decide (h_ref y = 0)) as [E|]; [|lia].
  pose proof (iv_refs _ _ _ Hs h y (live_here _ _ _ _ Ep Hy) E). congruence.
Qed.

Lemma set_held_eq s : set_held (held s) s = s.
Proof. by destruct s. Qed.

(** Giving up a reference to a handle: there are others, or the handle goes. *)
Lemma wp_handle_put g N h y (Q : bool → ion W → Prop) s :
  inv g N s → g_phantom g = None → g_leaving g = None → g_building g = None → g_dying g = [] → g_zero g = None →
  g_loose g = None ∨ g_loose g = Some h →
  handles s !! h = Some y → LClient (h_client y) ∉ held s → unlocked s →
  (1 < h_ref y → inv g N (set_handles (<[h := set_h_ref (h_ref y - 1) y]> (handles s)) s) →
     Q false (set_handles (<[h := set_h_ref (h_ref y - 1) y]> (handles s)) s)) →
  (∀ x s', h_ref y = 1 → inv (gone g) N s' → clients s !! h_client y = Some x → handle_gone h y x s s' → Q true s') →
  wp (ion_handle_put h) Q s.
Proof.
  intros Hs Ep Ele Eb Ed Ez Hlo Hy Hlc [Hu1 Hu2] Hmore Hlast. pose proof (iv_bound _ _ _ Hs) as HN.
  destruct (handle_bounds _ _ _ _ _ Hs Ep Hy) as (HD & Hr & Hk & Hc). pose proof (handle_ref_pos _ _ _ _ _ Hs Ep Ez Hy) as Hr1.
  unfold ion_handle_put. wp_b. eapply wp_handle_at; [done|]. wp_b. apply wp_lock_client; [done|done|].
  unfold handle_ref_put. wp_b. wp_b. eapply wp_mod_handle; [done|]. rewrite (wrap_small 32) by (unfold in_width; lia).
  wp_b. eapply wp_handle_at; [apply lookup_insert_eq|]. cbn [h_ref set_h_ref].
  destruct (Z.eqb_spec (h_ref y - 1) 0) as [E|E].
  - destruct Hc as [x Hx]. set (s1 := set_handles _ _).
    assert (Hs1 : inv (g_with_zero (Some h) g) N s1).
    { apply (inv_handle_ref g (g_with_zero (Some h) g) N N h y (h_ref y - 1) (set_held (LClient (h_client y) :: held s) s));
        [by apply inv_held|done|done|lia|lia|done|congruence|done]. }
    wp_b. eapply (wp_handle_destroy (g_with_zero (Some h) g) N h (set_h_ref (h_ref y - 1) y) x); try done.
    + by right.
    + apply lookup_insert_eq.
    + split; cbn; set_solver.
    + intros s2 Hs2 [G1 G2 G3 G4 G5 G6 G7 G8 G9]. cbn in G1, G2, G3, G4, G5, G6, G7, G8, G9.
      apply wp_ret. wp_b. eapply wp_unlock_client; [rewrite G2; eexists; apply lookup_insert_eq|exact G9|done|].
      apply wp_ret. eapply Hlast; [lia| |done|].
      * apply inv_held. exact Hs2.
      * split; try done. cbn. rewrite G1. by rewrite delete_insert_eq.
  - apply wp_ret. wp_b. eapply wp_unlock_client; [done|done|done|]. apply wp_ret.
    assert (Hi : inv g N (set_handles (<[h := set_h_ref (h_ref y - 1) y]> (handles s)) s)).
    { apply (inv_handle_ref g g N); try done; try lia. all: by destruct g. }
    assert (Es : set_held (held s) (set_handles (<[h := set_h_ref (h_ref y - 1) y]> (handles (set_held (LClient (h_client y) :: held s) s)))
                (set_held (LClient (h_client y) :: held s) s)) = set_handles (<[h := set_h_ref (h_ref y - 1) y]> (handles s)) s) by by destruct s.
    rewrite Es. apply Hmore; [lia|done].
Qed.

Lemma wp_handle_lookup c b x (Q : err Z → ion W → Prop) s :
  clients s !! c = Some x → (c_handles x !! b = None → Q (inl (- EINVAL)) s) → (∀ h, c_handles x !! b = Some h → Q (inr h) s) →
  wp (ion_handle_lookup c b) Q s.
Proof.
  intros Hx Hn Hh. unfold ion_handle_lookup. wp_b. eapply wp_client_at; [done|].
  destruct (c_handles x !! b) eqn:E; apply wp_ret; auto.
Qed.

(** Taking a reference to a handle. *)
Lemma inv_handle_get g N h y s :
  inv g N s → settled g → handles s !! h = Some y → N + 1 < 2 ^ 31 →
  inv g (N + 1) (set_handles (<[h := set_h_ref (u32 (h_ref y + 1)) y]> (handles s)) s).
Proof.
  intros Hs Hg Hy HN. pose proof (iv_bound _ _ _ Hs). destruct Hg as (El & Ep & Ele & Eb & Ed & Ez).
  destruct (handle_bounds _ _ _ _ _ Hs Ep Hy) as (_ & ? & _).
  rewrite (wrap_small 32) by (unfold in_width; lia).
  apply (inv_handle_ref g g N); try done; try lia. all: by destruct g.
Qed.

Lemma wp_get_by_id g N c id x (Q : err Z → ion W → Prop) s :
  inv g N s → settled g → N + 1 < 2 ^ 31 → clients s !! c = Some x → LClient c ∉ held s →
  (c_idr x !! id = None → Q (inl (- EINVAL)) s) →
  (∀ h y, c_idr x !! id = Some h → handles s !! h = Some y → h_client y = c → h_id y = id → 1 <= h_ref y →
     inv g (N + 1) (set_handles (<[h := set_h_ref (h_ref y + 1) y]> (handles s)) s) →
     Q (inr h) (set_handles (<[h := set_h_ref (h_ref y + 1) y]> (handles s)) s)) →
  wp (ion_handle_get_by_id c id) Q s.
Proof.
  intros Hs Hg HN Hx Hl Hnone Hsome. pose proof (iv_bound _ _ _ Hs). destruct (settled_inv _ _ _ Hg Hs) as (Ht & Hc & _).
  unfold ion_handle_get_by_id. wp_b. apply wp_lock_client; [by eexists|done|].
  wp_b. eapply wp_client_at; [done|]. destruct (c_idr x !! id) as [h|] eqn:Eh.
  - destruct (tb_idr _ _ _ Ht c x id h Hx Eh) as (_ & y & Hy & Ec & Ei & _).
    pose proof (inv_handle_get _ _ _ _ _ Hs Hg Hy HN) as Hget. pose proof Hg as (_ & Ep & _ & _ & _ & Ez).
    pose proof (handle_ref_pos _ _ _ _ _ Hs Ep Ez Hy). destruct (handle_bounds _ _ _ _ _ Hs Ep Hy) as (_ & ? & _).
    rewrite (wrap_small 32) in Hget by (unfold in_width; lia).
    wp_b. eapply wp_handle_get; [done|]. rewrite (wrap_small 32) by (unfold in_width; lia).
    wp_b. eapply wp_unlock_client; [by eexists|done|done|]. apply wp_ret.
    replace (set_held (held s) _) with (set_handles (<[h := set_h_ref (h_ref y + 1) y]> (handles s)) s) by by destruct s.
    by apply (Hsome h y).
  - wp_b. eapply wp_unlock_client; [by eexists|done|done|]. apply wp_ret.
    replace (set_held _ _) with s by by destruct s. auto.
Qed.

Lemma wp_handle_validate c h y x (Q : bool → ion W → Prop) s :
  handles s !! h = Some y → clients s !! c = Some x → Q (bool_decide (c_idr x !! h_id y = Some h)) s →
  wp (ion_handle_validate c h) Q s.
Proof.
  intros Hy Hx HQ. unfold ion_handle_validate. wp_b. eapply wp_handle_at; [done|].
  wp_b. eapply wp_client_at; [done|]. by apply wp_ret.
Qed.
(** The handles of a client are valid. *)
Lemma handle_valid g N s h y x :
  inv g N s → settled g → handles s !! h = Some y → clients s !! h_client y = Some x →
  bool_decide (c_idr x !! h_id y = Some h) = true.
Proof.
  intros Hs Hg Hy Hx. destruct (settled_inv _ _ _ Hg Hs) as (Ht & _). apply bool_decide_true.
  destruct (tb_handle _ _ _ Ht h y Hy) as (x2 & Hx2 & Hz). rewrite Hx in Hx2. injection Hx2 as <-.
  rewrite decide_False in Hz by done. apply Hz.
Qed.

(** A handle enters the tables. *)
Definition linked (id h : Z) (y : handle) (x : client) : client :=
  set_c_handles (<[h_buffer y := h]> (c_handles x)) (set_c_idr (<[id := h]> (c_idr x)) x).

Record handle_in (id h : Z) (y : handle) (x : client) s s' : Prop := {
  hi_handles : handles s' = <[h := set_h_linked true (set_h_id id y)]> (handles s);
  hi_clients : clients s' = <[h_client y := linked id h y x]> (clients s);
  hi_heaps : heaps s' = heaps s; hi_d_clients : d_clients s' = d_clients s; hi_d_heaps : d_heaps s' = d_heaps s;
  hi_d_custom : d_custom s' = d_custom s; hi_exported : exported s' = exported s; hi_vmas : vmas s' = vmas s;
  hi_held : held s' = held s; hi_d_buffers : d_buffers s' = d_buffers s; hi_buffers : buffers s' = buffers s }.

Lemma wp_add_handle g N c h y x (Q : err Z → ion W → Prop) s :
  inv g N s → settled (g_with_loose None g) → g_loose g = Some h → handles s !! h = Some y → h_client y = c → h_ref y = 1 →
  clients s !! c = Some x → c_handles x !! h_buffer y = None → LClient c ∉ held s → unlocked s →
  (∀ e s', - MAX_ERRNO <= e < 0 → inv (gone g) N s' → handle_gone h y x s s' → Q (inl e) s') →
  (∀ id s', inv (gone g) N s' → 1 <= id → c_idr x !! id = None → handle_in id h y x s s' → Q (inr h) s') →
  wp (add_handle c h) Q s.
Proof.
  intros Hs (_ & Ep & Ele & Eb & Ed & Ez) El Hy Ec Er Hx Hnew Hl Hu Herr HQ. cbn in Ep, Ele, Eb, Ed, Ez.
  unfold add_handle. wp_b. apply wp_lock_client; [by eexists|done|].
  unfold ion_handle_add. wp_b. wp_b. eapply wp_client_at; [done|]. wp_b. apply wp_call.
  destruct (idr_fresh (dom (c_idr x)) (world s)) as [Hneg Hpos].
  set (id := answer _ _). change (fst (do_ksys _ (world s))) with id in Hneg, Hpos.
  set (s1 := called _ _). assert (Hs1 : inv g N s1) by (apply inv_called; [done|by apply inv_held]).
  destruct (Z.ltb_spec id 0) as [Hid|Hid].
  - specialize (Hneg Hid). apply wp_ret. wp_b. eapply wp_unlock_client; [by eexists|done|done|].
    assert (Et : truthy id = true) by (unfold truthy; destruct (Z.eqb_spec id 0); [lia|done]). rewrite Et.
    wp_b. eapply (wp_handle_put g N h y); try done; [by apply inv_held|by right|by rewrite Ec|lia|].
    intros x' s' _ Hs' Hx' Hgone. apply wp_ret.
    assert (Eerr : ERR_PTR id = inl id).
    { unfold ERR_PTR. by rewrite (proj2 (Z.leb_le _ _)), (proj2 (Z.ltb_lt _ _)) by lia. }
    rewrite Eerr. assert (x' = x) as -> by (cbn in Hx'; congruence). apply Herr; [lia|done|].
    destruct Hgone. by split.
  - destruct (Hpos Hid) as [Hid1 Hfresh]. apply not_elem_of_dom in Hfresh.
    wp_b. eapply wp_mod_client; [done|]. wp_b. eapply wp_mod_handle; [done|].
    wp_b. eapply wp_handle_at; [apply lookup_insert_eq|]. wp_b. eapply wp_client_at; [apply lookup_insert_eq|].
    cbn [h_buffer set_h_id c_handles set_c_idr]. rewrite bool_decide_false by (rewrite Hnew; by intros [? ?]).
    wp_b. apply wp_modify. wp_b. eapply wp_mod_handle; [apply lookup_insert_eq|]. apply wp_ret.
    wp_b. eapply wp_unlock_client; [eexists; apply lookup_insert_eq|done|done|]. apply wp_ret.
    set (s2 := set_held _ _).
    assert (Hin : handle_in id h y x s s2).
    { split; try done; cbn; rewrite ?insert_insert_eq, ?Ec; done. }
    apply (HQ id); [|done..]. destruct Hin as [I1 I2 I3 I4 I5 I6 I7 I8 _ I9 I10].
    destruct Hs as [Ht Hc Hze Hls Hf Hh Ha Hcl Hm HN0]. unfold live_handles, live_dmabufs in *. rewrite El in Ht.
    rewrite Ep in Ht, Hc, Hze. cbn [without] in *.
    split; unfold live_handles, live_dmabufs; unfold gone, g_with_zero, g_with_loose, g_bld, g_unbacked;
      cbn [g_pins g_loose g_phantom g_leaving g_building g_dying g_zero]; rewrite ?Ep; cbn [without];
      rewrite ?I1, ?I2, ?I3, ?I4, ?I5, ?I7, ?I8, ?I9, ?I10; try done.
    + rewrite <- Ec in Hx. by apply tables_link.
    + destruct (cn_handle _ _ _ _ _ _ Hc h y Hy) as (_ & ? & ?). by apply (counts_handle_same (N := N) N h y).
    + intros i z. rewrite lookup_insert_Some. intros [[<- <-]|[_ Hi]]; [cbn; lia|]. intros E. pose proof (Hze i z Hi E). congruence.
    + intros d. rewrite Hcl, lookup_insert_is_Some, Ec. destruct (decide (c = d)) as [<-|]; [|tauto].
      split; [by left|by eexists].
    + change (mem (trace s1) = Z.of_nat (size (buffers s)) - g_unbacked g). unfold s1. rewrite mem_called. cbn [mem_of].
      rewrite Z.add_0_r. exact Hm.
Qed.
End rules.
