(* ===== verification/IonCalls.v ===== *)
(** * ION: what clients, dma-bufs and the kernel call

    Every function that is called from outside returns, keeps the invariant and gives
    its locks back. *)

From stdpp Require Import sorting.
From S2P Require Import Prelude CMonad Ion IonInv IonSafe.

Section rules.
Context {W : Type} `{!Kernel W, !IonAbi, !KernelOk W}.
Implicit Types s : ion W.

(** ** Making a buffer *)

(** The first [k] pages are set. *)
Definition filled (k : nat) (ps : list (option Z)) : Prop := ∀ i, (i < k)%nat → ∃ p, ps !! i = Some (Some p).

Lemma wp_fill_run n page k ps (Q : _ → ion W → Prop) s :
  (k + n <= length ps)%nat → filled k ps →
  (∀ ps', length ps' = length ps → filled (k + n) ps' → Q ((k + n)%nat, ps') s) → wp (fill_run n page k ps) Q s.
Proof.
  revert page k ps. induction n as [|n IH]; intros page k ps Hk Hf HQ; cbn [fill_run].
  - apply wp_ret. rewrite Nat.add_0_r in *. by apply HQ.
  - wp_b. apply wp_require; [apply bool_decide_true; lia|].
    apply IH; [rewrite length_insert; lia| |].
    + intros i Hi. destruct (decide (i = k)) as [->|]; [|rewrite list_lookup_insert_ne by done; apply Hf; lia].
      exists page. apply list_lookup_insert_eq. lia.
    + intros ps' El Hf'. rewrite length_insert in El. replace (S k + n)%nat with (k + S n)%nat in * by lia.
      by apply HQ.
Qed.

Lemma wp_fill_pages table k ps (Q : _ → ion W → Prop) s :
  (k + table_pages table <= length ps)%nat → filled k ps →
  (∀ ps', length ps' = length ps → filled (k + table_pages table) ps' → Q ps' s) → wp (fill_pages table k ps) Q s.
Proof.
  revert k ps. induction table as [|e table IH]; intros k ps Hk Hf HQ; cbn [fill_pages].
  - apply wp_ret. apply HQ; [done|]. unfold table_pages. cbn. by rewrite Nat.add_0_r.
  - change (table_pages (e :: table)) with (Z.to_nat (sg_dma_len e / PAGE_SIZE) + table_pages table)%nat in *.
    wp_b. apply wp_fill_run; [lia|done|]. intros ps1 El1 Hf1. apply IH; [lia|done|].
    intros ps2 El2 Hf2. apply HQ; [lia|]. by rewrite Nat.add_assoc.
Qed.

Lemma filled_all ps : filled (length ps) ps → Forall is_Some ps.
Proof.
  intros Hf. apply Forall_lookup. intros i o Hi. destruct (Hf i) as [p Hp]; [by eapply lookup_lt_Some|].
  exists p. congruence.
Qed.

(** A buffer is being made. *)
Definition making (b : Z) (backed : bool) (g : ghost) : ghost := g_with_building (Some (b, backed)) g.

Lemma inv_making_new g N s b h flags :
  inv g N s → settled g → buffers s !! b = None → is_Some (heaps s !! h) →
  inv (making b false g) N (set_buffers (<[b := new_buffer h flags]> (buffers s)) s).
Proof.
  intros [Ht Hc Hze [Lp Lt Lf Ln Lb] Hf Hh [Av Al] Hcl Hm HN] (El & Ep & Ele & Eb & Ed & Ez) Hnew Hhp.
  assert (HbD : b ∉ d_buffers s) by (intros Hin; destruct (Lt b Hin) as [[? E] _]; congruence).
  split; try assumption; cbn.
  - apply (counts_elsewhere (bs := buffers s)); [done|]. intros c HcD. apply lookup_insert_ne. congruence.
  - split; cbn.
    + intros c. rewrite lookup_insert_is_Some. intros [->|[? Hc2]]; [by right; right|]. destruct (Lp c Hc2) as [?|[?|E]]; auto.
      unfold g_bld in E. by rewrite Eb in E.
    + intros c HcD. destruct (Lt c HcD). rewrite lookup_insert_is_Some. split; [|done]. destruct (decide (b = c)); auto.
    + intros c Hcf. destruct (Lf c Hcf) as (x & Hx & ?). exists x. rewrite lookup_insert_ne by congruence. done.
    + done.
    + intros c [= <-]. rewrite lookup_insert_is_Some. split; [by left|]. split; [done|]. intros Hin.
      destruct (Lf b Hin) as (x & Hx & _). congruence.
  - intros c z. rewrite lookup_insert_Some. intros [[<- <-]|[? Hz]]; [by split|].
    destruct (Hf c z Hz) as [? Hp]. split; [done|]. intros _. apply Hp. unfold g_bld. by rewrite Eb.
  - split.
    + intros v w c Hv Hw. destruct (Av v w c Hv Hw) as (HcD & ? & x & Hx & ?). split; [done|]. split; [done|].
      exists x. rewrite lookup_insert_ne by congruence. done.
    + intros c z HcD. rewrite lookup_insert_ne by congruence. by apply Al.
  - rewrite map_size_insert_None by done. unfold g_unbacked in *. rewrite Eb in Hm. cbn. change (mem (trace s) = Z.pos (Pos.of_succ_nat (size (buffers s))) - 1). lia.
Qed.

(** The buffer is given up, without memory of the heap or after that went back, or was lost. *)
Lemma inv_making_gone g N s s' b backed :
  inv (making b backed g) N s → settled g → same s s' → d_buffers s' = d_buffers s → freelist s' = freelist s →
  buffers s' = delete b (buffers s) → mem (trace s') = mem (trace s) - (if backed then 1 else 0) → inv g N s'.
Proof.
  intros [Ht Hc Hze Hl Hf Hh Ha Hcl Hm HN] (El & Ep & Ele & Eb & Ed & Ez) [] ED EF EB EM.
  cbn in *. destruct (ls_building _ _ _ _ Hl b eq_refl) as ([x Hx] & HbD & Hbf).
  split; unfold live_handles, live_dmabufs in *; cbn in *;
    rewrite ?sm_handles, ?sm_clients, ?sm_heaps, ?sm_d_heaps, ?sm_exported, ?sm_vmas, ?sm_d_clients, ?ED, ?EF, ?EB; try done.
  - apply (counts_elsewhere (bs := buffers s)); [done|]. intros c HcD. apply lookup_delete_ne. congruence.
  - destruct Hl as [Lp Lt Lf Ln Lb]. unfold g_bld. rewrite Eb. split; [| | |done|done].
    + intros c. rewrite lookup_delete_is_Some. intros [? Hc2]. destruct (Lp c Hc2) as [?|[?|E]]; auto. by injection E.
    + intros c HcD. destruct (Lt c HcD). rewrite lookup_delete_is_Some. split; [|done]. split; [congruence|done].
    + intros c Hcf. destruct (Lf c Hcf) as (z & Hz & ?). exists z. rewrite lookup_delete_ne by congruence. done.
  - intros c z [? Hz]%lookup_delete_Some. destruct (Hf c z Hz) as [? Hp]. split; [done|]. intros _. apply Hp.
    cbn. congruence.
  - by apply areas_delete.
  - rewrite EM, Hm, map_size_delete_Some by by eexists.
    assert (size (buffers s) ≠ 0%nat) by (intros E%map_size_empty_inv; by rewrite E, lookup_empty in Hx).
    unfold g_unbacked. rewrite Eb. cbn. destruct backed; lia.
Qed.

(** The buffer is done, and enters the tree with the reference of who made it. *)
Lemma inv_made g N s s' b x :
  inv (making b true g) N s → settled g → same s s' → d_buffers s' = {[b]} ∪ d_buffers s → freelist s' = freelist s →
  buffers s' = buffers s → mem (trace s') = mem (trace s) →
  buffers s !! b = Some x → b_ref x = 1 → b_handle_count x = 0 → b_kmap_cnt x = 0 → b_vmas x = [] → pages_ok x →
  inv (g_pin b 1 g) N s'.
Proof.
  intros [Ht Hc Hze Hl Hf Hh Ha Hcl Hm HN] (El & Ep & Ele & Eb & Ed & Ez) [] ED EF EB EM Hx Er Ec Ek Ev Hp.
  cbn in *. destruct (ls_building _ _ _ _ Hl b eq_refl) as (_ & HbD & Hbf).
  split; unfold live_handles, live_dmabufs in *; cbn in *;
    rewrite ?sm_handles, ?sm_clients, ?sm_heaps, ?sm_d_heaps, ?sm_exported, ?sm_vmas, ?sm_d_clients, ?ED, ?EF, ?EB, ?EM; try done.
  - eapply counts_buffer_new; try done. lia.
  - destruct Hl as [Lp Lt Lf Ln Lb]. unfold g_bld. cbn. rewrite Eb. split; [| |done|done|done].
    + intros c Hc2. destruct (Lp c Hc2) as [?|[?|E]]; [set_solver|auto|]. injection E as ->. set_solver.
    + intros c HcD. destruct (decide (c = b)) as [->|]; [split; [by eexists|done]|]. apply Lt. set_solver.
  - intros c z Hz. destruct (Hf c z Hz) as [? Hp']. split; [done|]. intros _. destruct (decide (c = b)) as [->|].
    + by simplify_eq.
    + apply Hp'. cbn. congruence.
  - destruct Ha as [Av Al]. split.
    + intros v w c Hv Hw. destruct (Av v w c Hv Hw) as (HcD & ?). split; [set_solver|done].
    + intros c z HcD Hz. destruct (decide (c = b)) as [->|]; [|apply Al; set_solver].
      assert (z = x) as -> by congruence. rewrite Ev. split; [constructor|]. intros v. by intros ?%not_elem_of_nil.
  - rewrite Hm. unfold g_unbacked. cbn. by rewrite Eb.
Qed.

(** A request that takes or gives memory changes the account. *)
Lemma inv_backed g N s b e :
  inv (making b false g) N s → mem_of e = 1 → ∀ s', same s s' → buffers s' = buffers s → d_buffers s' = d_buffers s →
  freelist s' = freelist s → trace s' = trace s ++ [e] → inv (making b true g) N s'.
Proof.
  intros [] He s' [] EB ED EF ET. split; unfold live_handles, live_dmabufs in *; cbn in *;
    rewrite ?sm_handles, ?sm_clients, ?sm_heaps, ?sm_d_heaps, ?sm_exported, ?sm_vmas, ?sm_d_clients, ?ED, ?EF, ?EB; try done.
  rewrite ET, mem_snoc, He. unfold g_unbacked in *. cbn in *. lia.
Qed.

Lemma wp_kfree_buffer b (Q : unit → ion W → Prop) s :
  is_Some (buffers s !! b) → Q tt (set_buffers (delete b (buffers s)) s) → wp (kfree_buffer b) Q s.
Proof. intros [x Hx] HQ. unfold kfree_buffer. wp_b. by eapply wp_buffer_at. Qed.

(** What is known of a buffer in the making: nobody has it yet. *)
Definition fresh_buffer (x : buffer) : Prop :=
  b_ref x = 1 ∧ b_handle_count x = 0 ∧ b_kmap_cnt x = 0.

Lemma inv_making_field g N s b x x' :
  inv (making b true g) N s → buffers s !! b = Some x → b_ref x' = b_ref x → b_handle_count x' = b_handle_count x →
  b_kmap_cnt x' = b_kmap_cnt x → b_heap x' = b_heap x → b_flags x' = b_flags x → b_vmas x' = b_vmas x →
  inv (making b true g) N (set_buffers (<[b := x']> (buffers s)) s).
Proof. intros. eapply inv_field; try done. Qed.

(** The rest of the tree, while a buffer is made. *)
Definition tree_kept s s' : Prop := ∀ c, c ∈ d_buffers s → c ∈ d_buffers s' ∧ buffers s' !! c = buffers s !! c.

Lemma wp_buffer_ready g N b x (Q : err Z → ion W → Prop) s :
  inv (making b true g) N s → settled g → buffers s !! b = Some x → fresh_buffer x → b_vmas x = [] → pages_ok x →
  LBuffers ∉ held s →
  (∀ s', inv (g_pin b 1 g) N s' → same s s' → tree_kept s s' → b ∈ d_buffers s' →
     buffers s' !! b = Some (set_b_sg_table (set_dma_address <$> b_sg_table x) (set_b_vmas [] x)) → Q (inr b) s') →
  wp (buffer_ready b) Q s.
Proof.
  intros Hs Hg Hx (? & ? & ?) Hv Hp Hl HQ.
  assert (HbD : b ∉ d_buffers s) by apply (ls_building _ _ _ _ (iv_lists _ _ _ Hs) b eq_refl).
  unfold buffer_ready. wp_b. eapply wp_mod_buffer; [done|].
  set (x' := set_b_sg_table _ _). set (s1 := set_buffers _ s).
  assert (Hs1 : inv (making b true g) N s1) by (eapply inv_making_field; done).
  wp_b. apply wp_mutex_lock; [done|]. unfold ion_buffer_add. wp_b. wp_b. apply wp_get.
  rewrite bool_decide_false by done. apply wp_modify. wp_b. eapply wp_mutex_unlock; [done|done|]. apply wp_ret, HQ.
  - eapply (inv_made g N s1 _ b x'); try done. apply lookup_insert_eq.
  - done.
  - intros c Hc. cbn. split; [set_solver|]. apply lookup_insert_ne. congruence.
  - cbn. set_solver.
  - apply lookup_insert_eq.
Qed.

Lemma wp_buffer_mapped g N b x len table (Q : err Z → ion W → Prop) s :
  inv (making b true g) N s → settled g → buffers s !! b = Some x → fresh_buffer x → b_vmas x = [] → b_size x = len →
  table_pages table = pages_of len → LBuffers ∉ held s →
  (∀ e s', inv g N s' → same s s' → tree_kept s s' → Q (inl e) s') →
  (∀ s' x', inv (g_pin b 1 g) N s' → same s s' → tree_kept s s' → b ∈ d_buffers s' → buffers s' !! b = Some x' →
     b_heap x' = b_heap x → b_size x' = len → b_flags x' = b_flags x → Q (inr b) s') →
  wp (buffer_mapped b table) Q s.
Proof.
  intros Hs Hg Hx Hfr Hv El Ht Hl Herr HQ.
  assert (HbD : b ∉ d_buffers s) by apply (ls_building _ _ _ _ (iv_lists _ _ _ Hs) b eq_refl).
  unfold buffer_mapped. wp_b. eapply wp_mod_buffer; [done|]. set (x1 := set_b_sg_table table x). set (s1 := set_buffers _ s).
  assert (Hs1 : inv (making b true g) N s1) by (eapply inv_making_field; done).
  assert (Hx1 : buffers s1 !! b = Some x1) by apply lookup_insert_eq.
  wp_b. eapply wp_buffer_at; [done|].
  destruct (ion_buffer_fault_user_mappings x1) eqn:Ef; cbn zeta.
  - wp_b. apply wp_call. set (e := KVmalloc _). set (s2 := called e s1).
    destruct (answer e s1) eqn:Ea; cbn [negb].
    + wp_b. apply wp_fill_pages; [rewrite length_replicate; unfold x1; cbn; rewrite El, Ht; unfold pages_of; lia|by intros ? ?%Nat.nlt_0_r|].
      intros ps Elen Hf. rewrite length_replicate in Elen.
      assert (Hs2 : inv (making b true g) N s2) by (apply inv_called; [cbn; by rewrite Ea|done]).
      wp_b. eapply wp_mod_buffer; [done|]. set (x3 := set_b_pages _ x1).
      eapply (wp_buffer_ready g N b x3); [by eapply inv_making_field|done|apply lookup_insert_eq|done|done| |done|].
      * intros _. exists ps. split; [done|]. split; [rewrite Elen; unfold x3, x1; cbn; unfold pages_of; done|].
        apply filled_all. rewrite Elen. unfold x1. cbn. rewrite El. by rewrite Nat.add_0_l, Ht in Hf.
      * intros s' Hs' Hsame Hk HD Hb. eapply HQ; try done.
        -- by destruct Hsame; split.
        -- intros c Hc. destruct (Hk c Hc) as [? E]. split; [done|]. rewrite E. cbn.
           rewrite !lookup_insert_ne by congruence. done.
    + wp_b. apply wp_kfree_buffer; [by eexists|]. apply wp_ret, Herr; [|done|].
      * eapply (inv_making_gone g N s1 _ b true); try done. cbn [trace set_buffers]. unfold s2.
        rewrite mem_called. cbn [mem_of e]. rewrite Ea. lia.
      * intros c Hc. split; [done|]. cbn. rewrite lookup_delete_ne, lookup_insert_ne by congruence. done.
  - eapply (wp_buffer_ready g N b x1); [done|done|done|done|done| |done|].
    + unfold pages_ok. by rewrite Ef.
    + intros s' Hs' Hsame Hk HD Hb. eapply HQ; try done; [by destruct Hsame; split|].
      intros c Hc. destruct (Hk c Hc) as [? E]. split; [done|]. rewrite E. cbn. rewrite lookup_insert_ne by congruence. done.
Qed.

Lemma tree_kept_trans s1 s2 s3 : tree_kept s1 s2 → tree_kept s2 s3 → tree_kept s1 s3.
Proof. intros H1 H2 c Hc. destruct (H1 c Hc) as [? E1]. destruct (H2 c) as [? E2]; [done|]. split; [done|congruence]. Qed.

(** Since [s], buffer [x] is being made and has no memory yet. *)
Definition in_making (g : ghost) (N b : Z) (x : buffer) s s' : Prop :=
  inv (making b false g) N s' ∧ same s s' ∧ tree_kept s s' ∧ buffers s' !! b = Some x.

Lemma wp_drain_making g N b x h cached sz s s' (Q : unit → ion W → Prop) :
  in_making g N b x s s' → settled g → (∀ s'', in_making g N b x s s'' → Q tt s'') →
  wp (ion_heap_freelist_drain h cached sz) Q s'.
Proof.
  intros (Hs & Hsm & Hk & Hx) Hg HQ. eapply wp_freelist_drain; [done|by destruct Hg as (_ & _ & _ & _ & ? & _)|].
  intros s'' Hs' Hsame HD Hkept. apply HQ. split; [done|]. split; [by etransitivity|]. split.
  - eapply tree_kept_trans; [done|]. intros c Hc. split; [by rewrite HD|]. apply Hkept. by left.
  - rewrite <- Hx. apply Hkept. by right.
Qed.

Lemma wp_allocate_making g N b x h len align flags s s' (Q : Z → ion W → Prop) :
  in_making g N b x s s' →
  (∀ ret s'', (ret ≠ 0 → - MAX_ERRNO <= ret < 0) → inv (if truthy ret then making b false g else making b true g) N s'' →
     same s s'' → tree_kept s s'' → buffers s'' !! b = Some x → Q ret s'') →
  wp (Ion.call (KAllocate h b len align flags)) Q s'.
Proof.
  intros (Hs & Hsm & Hk & Hx) HQ. apply wp_call. set (e := KAllocate h b len align flags).
  apply HQ; [apply allocate_errno| |by destruct Hsm; split|done|done].
  destruct (truthy (answer e s')) eqn:Et.
  - apply inv_called; [|done]. cbn [mem_of e]. by rewrite Et.
  - eapply (inv_backed g N s' b (KEv e (answer e s'))); try done. cbn [mem_of e]. by rewrite Et.
Qed.

(** From the answer of the heap on. *)
Lemma wp_allocated g N b x h len ret s (Q : err Z → ion W → Prop) :
  inv (if truthy ret then making b false g else making b true g) N s → settled g → buffers s !! b = Some x →
  fresh_buffer x → b_vmas x = [] → LBuffers ∉ held s → (ret ≠ 0 → - MAX_ERRNO <= ret < 0) →
  (∃ hp, heaps s !! h = Some hp ∧ heap_ok hp) →
  (∀ e s', inv g N s' → same s s' → tree_kept s s' → Q (inl e) s') →
  (∀ s' x', inv (g_pin b 1 g) N s' → same s s' → tree_kept s s' → b ∈ d_buffers s' → buffers s' !! b = Some x' →
     b_heap x' = b_heap x → b_size x' = len → b_flags x' = b_flags x → Q (inr b) s') →
  wp (if truthy ret then kfree_buffer b ;; mret (ERR_PTR ret) else
      mod_buffer b (set_b_size len) ;;
      op has_map_dma h ;;
      table ← Ion.call (KMapDma h b len);
      match default (inl (- EINVAL)) table with
      | inl e => op has_free h ;; Ion.call (KFree h b) ;; kfree_buffer b ;; mret (inl e)
      | inr table => buffer_mapped b table
      end) Q s.
Proof.
  intros Hs Hg Hx Hfr Hv Hl Hret (hp & Hhp & (Ho1 & Ho2 & Ho3 & _)) Herr HQ. unfold truthy in *.
  assert (Hgone : ∀ c, c ∈ d_buffers s → c ≠ b).
  { intros c Hc ->. assert (Hbld : b ∉ d_buffers s); [|done].
    destruct (ret =? 0); apply (ls_building _ _ _ _ (iv_lists _ _ _ Hs) b eq_refl). }
  destruct (Z.eqb_spec ret 0) as [E|E]; cbn [negb] in *.
  - wp_b. eapply wp_mod_buffer; [done|]. set (x1 := set_b_size len x). set (s1 := set_buffers _ s).
    assert (Hs1 : inv (making b true g) N s1) by (eapply inv_making_field; done).
    wp_b. eapply wp_op; [done|done|]. wp_b. apply wp_call. set (e := KMapDma h b len). set (s2 := called e s1).
    assert (Hs2 : inv (making b true g) N s2) by by apply inv_called.
    pose proof (map_dma_pages h b len (world s1)) as Hpages. change (fst _) with (answer e s1) in Hpages.
    destruct (default (inl (- EINVAL)) (answer e s1)) as [er|table] eqn:Ea.
    + wp_b. eapply wp_op; [done|done|]. wp_b. apply wp_call. wp_b.
      apply wp_kfree_buffer; [eexists; apply lookup_insert_eq|]. apply wp_ret, Herr; [|done|].
      * eapply (inv_making_gone g N s2 _ b true); try done. cbn [trace set_buffers]. rewrite mem_called. cbn [mem_of]. lia.
      * intros c Hc. split; [done|]. cbn. rewrite lookup_delete_ne, lookup_insert_ne by (by apply not_eq_sym, Hgone). done.
    + destruct (answer e s1) as [[?|t]|]; simplify_eq/=.
      eapply (wp_buffer_mapped g N b x1 len); try done; [apply lookup_insert_eq|by apply Hpages|..].
      * intros er s' Hs' Hsame Hk. apply Herr; [done|by destruct Hsame; split|].
        intros c Hc. destruct (Hk c Hc) as [? Ek]. split; [done|]. rewrite Ek. cbn.
        rewrite lookup_insert_ne by (by apply not_eq_sym, Hgone). done.
      * intros s' x' Hs' Hsame Hk HD Hb E1 E2 E3. eapply HQ; try done; [by destruct Hsame; split|].
        intros c Hc. destruct (Hk c Hc) as [? Ek]. split; [done|]. rewrite Ek. cbn.
        rewrite lookup_insert_ne by (by apply not_eq_sym, Hgone). done.
  - wp_b. apply wp_kfree_buffer; [by eexists|]. apply wp_ret.
    assert (Eerr : ERR_PTR ret = inl ret).
    { unfold ERR_PTR. specialize (Hret E). by rewrite (proj2 (Z.leb_le _ _)), (proj2 (Z.ltb_lt _ _)) by lia. }
    rewrite Eerr. apply Herr; [|done|].
    + eapply (inv_making_gone g N s _ b false); try done. cbn [trace set_buffers]. lia.
    + intros c Hc. split; [done|]. cbn. rewrite lookup_delete_ne by (by apply not_eq_sym, Hgone). done.
Qed.

Lemma wp_buffer_create g N h len align flags s (Q : err Z → ion W → Prop) :
  inv g N s → settled g → is_Some (heaps s !! h) → LBuffers ∉ held s →
  (∀ e s', inv g N s' → same s s' → tree_kept s s' → Q (inl e) s') →
  (∀ b s' x, inv (g_pin b 1 g) N s' → same s s' → tree_kept s s' → b ∉ d_buffers s → b ∈ d_buffers s' →
     buffers s' !! b = Some x → b_heap x = h → b_size x = len → b_flags x = flags → Q (inr b) s') →
  wp (ion_buffer_create h len align flags) Q s.
Proof.
  intros Hs Hg [hp Hhp] Hl Herr HQ. pose proof (proj1 (iv_heaps _ _ _ Hs) h hp Hhp) as Hok. pose proof Hok as (Ho1 & _).
  unfold ion_buffer_create, kzalloc. wp_b. wp_b. apply wp_get. apply wp_call.
  pose proof (kzalloc_fresh (in_use s) (world s)) as Hfresh. set (e := KZalloc (in_use s)).
  change (fst _) with (answer e s) in Hfresh.
  assert (H0 : inv g N (called e s)) by (by apply inv_called).
  destruct (answer e s) as [b|]; [|by apply wp_ret, Herr].
  assert (Hnew : buffers s !! b = None).
  { apply not_elem_of_dom. specialize (Hfresh b eq_refl). unfold in_use in Hfresh. set_solver. }
  assert (HbD : b ∉ d_buffers s) by (intros Hin; destruct (inv_buffer _ _ _ _ Hs Hin); congruence).
  set (x := new_buffer h flags). wp_b. apply wp_modify. set (s1 := set_buffers _ _).
  assert (Hs1 : in_making g N b x s s1).
  { split; [eapply inv_making_new; [done|done|done|by eexists]|]. split; [done|]. split; [|apply lookup_insert_eq].
    intros c Hc; split; [done|cbn; by rewrite lookup_insert_ne by congruence]. }
  wp_b. eapply wp_heap_at; [done|]. wp_b. eapply wp_buffer_at; [apply Hs1|].
  assert (Hop : ∀ s', in_making g N b x s s' → heaps s' !! h = Some hp).
  { intros s' (_ & Hsm & _). by rewrite (sm_heaps _ _ Hsm). }
  assert (Hend : ∀ ret s', (ret ≠ 0 → - MAX_ERRNO <= ret < 0) →
    inv (if truthy ret then making b false g else making b true g) N s' → same s s' → tree_kept s s' → buffers s' !! b = Some x →
    wp (if truthy ret then kfree_buffer b ;; mret (ERR_PTR ret) else
        mod_buffer b (set_b_size len) ;; op has_map_dma h ;; table ← Ion.call (KMapDma h b len);
        match default (inl (- EINVAL)) table with
        | inl e => op has_free h ;; Ion.call (KFree h b) ;; kfree_buffer b ;; mret (inl e)
        | inr table => buffer_mapped b table
        end) Q s').
  { intros ret s' Hret Hs' Hsm Hk Hx. apply (wp_allocated g N b x); try done.
    - by rewrite (sm_held _ _ Hsm).
    - exists hp. by rewrite (sm_heaps _ _ Hsm).
    - intros er s'' ? ? ?. apply Herr; [done|by etransitivity|by eapply tree_kept_trans].
    - intros s'' x' ? ? ? ? ? ? ? ?. eapply HQ; try done; [by etransitivity|by eapply tree_kept_trans]. }
  wp_b. apply (wp_mono _ (λ _ s', in_making g N b x s s')).
  { apply wp_when; intros _; [|done]. by eapply wp_drain_making. }
  clear s1 Hs1. intros [] s1 Hs1. wp_b. eapply wp_op; [by apply Hop|done|].
  wp_b. eapply wp_allocate_making; [done|]. intros ret s2 Hret Hs2 Hsm2 Hk2 Hx2.
  wp_b. destruct (truthy ret && has_flag (hp_flags hp) ION_HEAP_FLAG_DEFER_FREE) eqn:Eretry.
  - apply andb_true_iff in Eretry as [Et _]. rewrite Et in Hs2. wp_b. eapply wp_drain_making; [by split|done|].
    intros s3 Hs3. eapply wp_allocate_making; [done|]. intros. by apply Hend.
  - apply wp_ret. by apply Hend.
Qed.

(** ** Reports *)

Lemma elem_of_rb_nodes {A} (m : gmap Z A) k a : (k, a) ∈ rb_nodes m ↔ m !! k = Some a.
Proof. unfold rb_nodes. by rewrite merge_sort_Permutation, elem_of_map_to_list. Qed.
Lemma elem_of_rb_addresses (X : gset Z) a : a ∈ rb_addresses X ↔ a ∈ X.
Proof. unfold rb_addresses. by rewrite merge_sort_Permutation, elem_of_elements. Qed.

(** What a report reads can be read. *)
Definition readable s (hs : list (Z * Z)) : Prop :=
  ∀ e, e ∈ hs → ∃ y x hp, handles s !! snd e = Some y ∧ buffers s !! h_buffer y = Some x ∧ heaps s !! b_heap x = Some hp ∧
    0 <= hp_id hp < ION_NUM_HEAP_IDS.
Lemma readable_cons s e hs : readable s (e :: hs) →
  readable s hs ∧ ∃ y x hp, handles s !! snd e = Some y ∧ buffers s !! h_buffer y = Some x ∧ heaps s !! b_heap x = Some hp ∧
    0 <= hp_id hp < ION_NUM_HEAP_IDS.
Proof. intros Hr. split; [intros f Hf; apply Hr; by right|apply Hr; by left]. Qed.

Lemma inv_readable g N s c x : inv g N s → settled g → clients s !! c = Some x → readable s (rb_nodes (c_handles x)).
Proof.
  intros Hs Hg Hx [b h] Hin%elem_of_rb_nodes. destruct (settled_inv _ _ _ Hg Hs) as (Ht & _).
  destruct (tb_tree _ _ _ Ht c x b h Hx Hin) as (y & Hy & _). pose proof Hg as (_ & Ep & _).
  destruct (handle_bounds _ _ _ _ _ Hs Ep Hy) as (HD & _). destruct (inv_buffer _ _ _ _ Hs HD) as [z Hz].
  destruct (inv_heap _ _ _ _ _ Hs Hz) as (hp & Hhp & (_ & _ & _ & _ & _ & _ & ?)). by exists y, z, hp.
Qed.

Lemma wp_total_of hs id sz (Q : Z → ion W → Prop) s : readable s hs → (∀ r, Q r s) → wp (total_of hs id sz) Q s.
Proof.
  revert sz. induction hs as [|[b h] hs IH]; intros sz Hr HQ; cbn [total_of]; [by apply wp_ret|].
  apply readable_cons in Hr as (Hr & y & x & hp & Hy & Hx & Hhp & _). wp_b. eapply wp_handle_at; [done|].
  wp_b. eapply wp_buffer_at; [done|]. wp_b. eapply wp_heap_at; [done|]. by apply IH.
Qed.

(** A function that reads under a lock. *)
Lemma wp_locked_client {A} c (f : client → M (ion W) A) (Q : A → ion W → Prop) s x :
  clients s !! c = Some x → LClient c ∉ held s →
  (∀ Q', (∀ r, Q' r (set_held (LClient c :: held s) s)) → wp (f x) Q' (set_held (LClient c :: held s) s)) → (∀ r, Q r s) →
  wp (lock_client c ;; x ← client_at c; r ← f x; unlock_client c ;; mret r) Q s.
Proof.
  intros Hx Hl Hf HQ. wp_b. apply wp_lock_client; [by eexists|done|]. wp_b. eapply wp_client_at; [done|].
  wp_b. apply Hf. intros r. wp_b. eapply wp_unlock_client; [by eexists|done|done|]. apply wp_ret.
  replace (set_held (held s) _) with s by by destruct s. done.
Qed.

Lemma wp_debug_heap_total c x id (Q : Z → ion W → Prop) s :
  clients s !! c = Some x → readable s (rb_nodes (c_handles x)) → LClient c ∉ held s → (∀ r, Q r s) → wp (ion_debug_heap_total c id) Q s.
Proof.
  intros Hx Hr Hl HQ. unfold ion_debug_heap_total.
  eapply (wp_locked_client c (λ x, total_of (rb_nodes (c_handles x)) id 0)); [done|done| |done].
  intros Q' HQ'. by apply wp_total_of.
Qed.

(** Nobody holds a lock. *)
Definition free s : Prop := held s = [].
Lemma free_unlocked s : free s → unlocked s.
Proof. intros E. unfold unlocked. rewrite E. split; [|intros b]; apply not_elem_of_nil. Qed.
Lemma free_client s c : free s → LClient c ∉ held s.
Proof. intros ->. apply not_elem_of_nil. Qed.

Lemma wp_show_all_buffers g N id l (Q : debug_report → ion W → Prop) s :
  inv g N s → free s → (∀ r, Q r s) → wp (show_all_buffers id l) Q s.
Proof.
  intros Hs Hfree HQ. unfold show_all_buffers. wp_b. apply wp_mutex_lock; [rewrite Hfree; apply not_elem_of_nil|].
  wp_b. apply wp_get. set (s1 := set_held _ s).
  assert (Hall : ∀ bs r Q', (∀ b, b ∈ bs → b ∈ d_buffers s) → (∀ r, Q' r s1) → wp (show_buffers bs id r) Q' s1).
  { induction bs as [|b bs IH]; intros r Q' Hin HQ'; cbn [show_buffers]; [by apply wp_ret|].
    destruct (inv_buffer _ _ _ b Hs) as [x Hx]; [apply Hin; by left|]. destruct (inv_heap _ _ _ _ _ Hs Hx) as (hp & Hhp & _).
    wp_b. eapply wp_buffer_at; [done|]. wp_b. eapply wp_heap_at; [done|].
    assert (Hin' : ∀ c, c ∈ bs → c ∈ d_buffers s) by (intros c Hc; apply Hin; by right).
    by destruct (negb _); apply IH. }
  wp_b. apply Hall; [intros b; apply elem_of_rb_addresses|]. intros r.
  wp_b. eapply wp_mutex_unlock; [done|by rewrite Hfree; apply not_elem_of_nil|]. apply wp_ret.
  replace (set_held _ _) with s; [done|]. unfold s1. rewrite Hfree. destruct s; cbn in *. by rewrite Hfree.
Qed.

Lemma wp_debug_heap_show_err g N h (Q : debug_report → ion W → Prop) s :
  inv g N s → settled g → free s → is_Some (heaps s !! h) → (∀ r, Q r s) → wp (ion_debug_heap_show_err h) Q s.
Proof.
  intros Hs Hg Hfree [hp Hhp] HQ. unfold ion_debug_heap_show_err. wp_b. eapply wp_heap_at; [done|]. wp_b. apply wp_get.
  assert (Hall : ∀ cs Q', (∀ c, c ∈ cs → c ∈ d_clients s) → (∀ r, Q' r s) → wp (err_clients cs (hp_id hp)) Q' s).
  { induction cs as [|c cs IH]; intros Q' Hin HQ'; cbn [err_clients]; [by apply wp_ret|].
    destruct (proj1 (iv_clients _ _ _ Hs c)) as [x Hx]; [apply Hin; by left|].
    wp_b. eapply wp_debug_heap_total; [done|by eapply inv_readable|by apply free_client|]. intros sz.
    wp_b. eapply wp_client_at; [done|]. wp_b. apply IH; [intros d Hd; apply Hin; by right|]. intros l. by apply wp_ret. }
  wp_b. apply Hall; [intros c; apply elem_of_rb_addresses|]. intros l. by eapply wp_show_all_buffers.
Qed.

Lemma wp_debug_heap_show g N h (Q : debug_report → ion W → Prop) s :
  inv g N s → settled g → free s → is_Some (heaps s !! h) → (∀ r, Q r s) → wp (ion_debug_heap_show h) Q s.
Proof.
  intros Hs Hg Hfree [hp Hhp] HQ. unfold ion_debug_heap_show. wp_b. eapply wp_heap_at; [done|]. wp_b. apply wp_get.
  assert (Hh : ∀ s' x hs Q', readable s' hs → (∀ r, Q' r s') → wp (show_handles x hs (hp_id hp)) Q' s').
  { intros s' x. induction hs as [|[b k] hs IH]; intros Q' Hr HQ'; cbn [show_handles]; [by apply wp_ret|].
    apply readable_cons in Hr as (Hr & y & z & hp' & Hy & Hz & Hhp' & _). wp_b. eapply wp_handle_at; [done|].
    wp_b. eapply wp_buffer_at; [done|]. wp_b. eapply wp_heap_at; [done|]. wp_b. apply IH; [done|]. intros l. by apply wp_ret. }
  assert (Hall : ∀ cs Q', (∀ c, c ∈ cs → c ∈ d_clients s) → (∀ r, Q' r s) → wp (show_clients cs (hp_id hp)) Q' s).
  { induction cs as [|c cs IH]; intros Q' Hin HQ'; cbn [show_clients]; [by apply wp_ret|].
    destruct (proj1 (iv_clients _ _ _ Hs c)) as [x Hx]; [apply Hin; by left|].
    wp_b. apply wp_lock_client; [by eexists|by apply free_client|]. wp_b. eapply wp_client_at; [done|].
    wp_b. apply Hh; [exact (inv_readable _ _ _ _ _ Hs Hg Hx)|]. intros l. wp_b.
    eapply wp_unlock_client; [by eexists|done|by rewrite Hfree; apply not_elem_of_nil|].
    replace (set_held _ _) with s; [|rewrite Hfree; destruct s; cbn in *; by rewrite Hfree].
    wp_b. apply IH; [intros d Hd; apply Hin; by right|]. intros l'. by apply wp_ret. }
  wp_b. apply Hall; [intros c; apply elem_of_rb_addresses|]. intros l. by eapply wp_show_all_buffers.
Qed.

Lemma wp_debug_client_show g N c (Q : list (string * Z) → ion W → Prop) s :
  inv g N s → settled g → free s → is_Some (clients s !! c) → (∀ r, Q r s) → wp (ion_debug_client_show c) Q s.
Proof.
  intros Hs Hg Hfree [x Hx] HQ. unfold ion_debug_client_show.
  assert (Hall : ∀ s' hs sizes (Q' : _ → ion W → Prop), readable s' hs → length sizes = Z.to_nat ION_NUM_HEAP_IDS →
    (∀ r, Q' r s') → wp (client_sizes hs sizes) Q' s').
  { intros s'. induction hs as [|[b k] hs IH]; intros sizes Q' Hr Hlen HQ'; cbn [client_sizes]; [by apply wp_ret|].
    apply readable_cons in Hr as (Hr & y & z & hp' & Hy & Hz & Hhp' & Hid). wp_b. eapply wp_handle_at; [done|].
    wp_b. eapply wp_buffer_at; [done|]. wp_b. eapply wp_heap_at; [done|].
    destruct (lookup_lt_is_Some_2 sizes (Z.to_nat (hp_id hp'))) as [[nm sz] ->]; [lia|].
    wp_b. apply wp_require; [apply Z.leb_le; lia|]. apply IH; [done|by rewrite length_insert|done]. }
  wp_b. apply wp_lock_client; [by eexists|by apply free_client|]. wp_b. eapply wp_client_at; [done|].
  wp_b. apply Hall; [exact (inv_readable _ _ _ _ _ Hs Hg Hx)|by rewrite length_replicate|]. intros l. wp_b.
  eapply wp_unlock_client; [by eexists|done|by rewrite Hfree; apply not_elem_of_nil|]. apply wp_ret.
  replace (set_held _ _) with s; [done|]. rewrite Hfree. destruct s; cbn in *. by rewrite Hfree.
Qed.

(** ** Allocation *)

(** A heap that a mask asks for. *)
Definition asked (mask : Z) s (h : Z) : bool :=
  match heaps s !! h with Some hp => has_flag (u32 (Z.shiftl 1 (hp_id hp))) mask | None => false end.

Lemma asked_same s s' mask h : same s s' → asked mask s' h = asked mask s h.
Proof. intros E. unfold asked. by rewrite (sm_heaps _ _ E). Qed.

Lemma wp_try_heaps g N hs mask len align flags r0 s (Q : _ → ion W → Prop) :
  inv g N s → settled g → (∀ h, h ∈ hs → is_Some (heaps s !! h)) → LBuffers ∉ held s → is_buffer r0 = false →
  (∀ r s', inv g N s' → same s s' → tree_kept s s' → is_buffer r = false →
     (r = None → r0 = None ∧ Forall (λ h, asked mask s h = false) hs) → Q (r, None) s') →
  (∀ b h s' x, inv (g_pin b 1 g) N s' → same s s' → b ∉ d_buffers s → b ∈ d_buffers s' → buffers s' !! b = Some x →
     h ∈ hs → b_heap x = h → b_size x = len → b_flags x = flags → asked mask s h = true → Q (Some (inr b), Some h) s') →
  wp (try_heaps hs mask len align flags r0) Q s.
Proof.
  revert r0 s. induction hs as [|h hs IH]; intros r0 s Hs Hg Hhs Hl Hr0 Hnone Hsome; cbn [try_heaps].
  { apply wp_ret. apply Hnone; try done. }
  destruct (Hhs h) as [hp Hhp]; [by left|]. wp_b. eapply wp_heap_at; [done|].
  assert (Ha : asked mask s h = has_flag (u32 (Z.shiftl 1 (hp_id hp))) mask) by (unfold asked; by rewrite Hhp).
  destruct (has_flag _ _) eqn:Ef; cbn [negb].
  - wp_b. eapply wp_buffer_create; [done|done|by eexists|done| |].
    + intros e s1 Hs1 Hsm Hk. apply IH; try done.
      * intros k Hk'. rewrite (sm_heaps _ _ Hsm). apply Hhs. by right.
      * by rewrite (sm_held _ _ Hsm).
      * intros r s' Hs' Hsm' Hk' Hr Hr'. apply Hnone; [done|by etransitivity|by eapply tree_kept_trans|done|].
        intros ->. by destruct Hr'.
      * intros b k s' x Hs' Hsm' HbD HbD' Hx Hin E1 E2 E4 E3. rewrite (asked_same _ _ _ _ Hsm) in E3.
        eapply Hsome; try done; [by etransitivity| |by right].
        intros Hin'. by destruct (Hk b Hin').
    + intros b s1 x Hs1 Hsm Hk HbD HbD' Hx E1 E2 E3. apply wp_ret. eapply Hsome; try done. by left.
  - apply IH; try done.
    + intros k Hk'. apply Hhs. by right.
    + intros r s' Hs' Hsm' Hk' Hr Hr'. apply Hnone; try done. intros E. destruct (Hr' E). split; [done|]. by constructor.
    + intros b k s' x Hs' Hsm' HbD HbD' Hx Hin E1 E2 E4 E3. eapply Hsome; try done. by right.
Qed.

Lemma wp_try_all_heaps g N mask len align flags s (Q : _ → ion W → Prop) :
  inv g N s → settled g → free s →
  (∀ r s', inv g N s' → same s s' → tree_kept s s' → is_buffer r = false →
     (r = None → Forall (λ h, asked mask s h = false) (d_heaps s)) → Q (r, None) s') →
  (∀ b h s' x, inv (g_pin b 1 g) N s' → same s s' → b ∉ d_buffers s → b ∈ d_buffers s' → buffers s' !! b = Some x →
     b_heap x = h → b_size x = len → b_flags x = flags → h ∈ d_heaps s → asked mask s h = true → Q (Some (inr b), Some h) s') →
  wp (try_all_heaps mask len align flags) Q s.
Proof.
  intros Hs Hg Hfree Hnone Hsome. unfold try_all_heaps. wp_b. apply wp_mutex_lock; [rewrite Hfree; apply not_elem_of_nil|].
  wp_b. apply wp_get. wp_b. cbn [d_heaps set_held]. set (s1 := set_held _ s).
  assert (Hheld : held s1 = [LDevice]) by (cbn; by rewrite Hfree).
  eapply (wp_try_heaps g N); [by apply inv_held|done|apply (iv_heaps _ _ _ Hs)|rewrite Hheld; set_solver|done| |].
  - intros r s' Hs' Hsm Hk Hr Hr'. wp_b. eapply wp_mutex_unlock; [by rewrite (sm_held _ _ Hsm), Hheld|apply not_elem_of_nil|].
    apply wp_ret, Hnone; [by apply inv_held| |done|done|].
    + destruct Hsm as [? ? ? ? ? ? ? ? ?]. by split.
    + intros E. by destruct (Hr' E).
  - intros b h s' x Hs' Hsm HbD HbD' Hx Hin E1 E2 E4 E3.
    wp_b. eapply wp_mutex_unlock; [by rewrite (sm_held _ _ Hsm), Hheld|apply not_elem_of_nil|].
    apply wp_ret. eapply Hsome; try done; [by apply inv_held|]. destruct Hsm as [? ? ? ? ? ? ? ? ?]. by split.
Qed.

(** What a call leaves alone: clients come and go only when they are created and destroyed. *)
Record calm s s' : Prop := {
  cm_heaps : heaps s' = heaps s; cm_d_heaps : d_heaps s' = d_heaps s; cm_d_custom : d_custom s' = d_custom s;
  cm_exported : exported s' = exported s; cm_vmas : vmas s' = vmas s; cm_held : held s' = held s;
  cm_clients : ∀ c, is_Some (clients s' !! c) ↔ is_Some (clients s !! c) }.
#[export] Instance calm_preorder : PreOrder calm.
Proof.
  split; [done|]. intros s1 s2 s3 [? ? ? ? ? ? E1] [? ? ? ? ? ? E2]. split; try congruence. intros c. by rewrite E2.
Qed.
Lemma same_calm s s' : same s s' → calm s s'.
Proof. intros [E1 E2 E3 E4 E5 E6 E7 E8 E9]. split; try done. by rewrite E2. Qed.
Lemma others_calm s s' : others s s' → calm s s'.
Proof. intros [E1 E2 E3 E4 E5 E6 E7 E8]. split; try done. by rewrite E1. Qed.
Lemma update_clients (cs : gmap Z client) c x z : cs !! c = Some x → ∀ d, is_Some (<[c := z]> cs !! d) ↔ is_Some (cs !! d).
Proof. intros Hx d. rewrite lookup_insert_is_Some. destruct (decide (c = d)) as [<-|]; [|tauto]. split; [by eexists|by left]. Qed.
Lemma handle_gone_calm h y x s s' : handle_gone h y x s s' → clients s !! h_client y = Some x → calm s s'.
Proof. intros [E1 E2 E3 E4 E5 E6 E7 E8 E9] Hx. split; try done. rewrite E2. by eapply update_clients. Qed.
Lemma handle_in_calm id h y x s s' : handle_in id h y x s s' → clients s !! h_client y = Some x → calm s s'.
Proof. intros [E1 E2 E3 E4 E5 E6 E7 E8 E9 E10 E11] Hx. split; try done. rewrite E2. by eapply update_clients. Qed.
Lemma calm_free s s' : calm s s' → free s → free s'.
Proof. intros E. unfold free. by rewrite (cm_held _ _ E). Qed.

(** Making a handle for a buffer the function may refer to: it is entered, or gone again. *)
Lemma wp_create_and_add g N c b x s (Q : err Z → ion W → Prop) :
  inv g N s → settled g → N + 1 < 2 ^ 31 → clients s !! c = Some x → b ∈ d_buffers s → c_handles x !! b = None → free s →
  (∀ e s', inv g (N + 1) s' → calm s s' → Q (inl e) s') →
  (∀ h s' y, inv g (N + 1) s' → calm s s' → handles s' !! h = Some y → h_client y = c → h_buffer y = b → h_ref y = 1 → Q (inr h) s') →
  wp (import_create c b) Q s.
Proof.
  intros Hs Hg HN Hx HD Hnew Hfree Herr HQ. pose proof (iv_bound _ _ _ Hs) as HN0.
  unfold import_create. wp_b. eapply wp_handle_create; [done|done|done|by eexists|done|by apply free_unlocked|..].
  - intros e s1 Hs1 Hsm _. apply wp_ret, Herr; [apply (inv_mono _ N); [done|lia]|by apply same_calm].
  - intros h s1 Hs1 Ho HD1 Hnh Hh1 _. pose proof Hg as (El & Ep & Ele & Eb & Ed & Ez).
    assert (Hback : ∀ s', inv (gone (g_with_loose (Some h) g)) (N + 1) s' → inv g (N + 1) s').
    { intros s' Hs'. eapply inv_pins; try done. }
    eapply (wp_add_handle (g_with_loose (Some h) g) (N + 1) c h (mk_handle 1 c b false 0 0) x); try done.
    + rewrite Hh1. apply lookup_insert_eq.
    + by rewrite (ot_clients _ _ Ho).
    + rewrite (ot_held _ _ Ho). by apply free_client.
    + apply free_unlocked. unfold free. by rewrite (ot_held _ _ Ho).
    + intros e s2 _ Hs2 Hgone. apply Herr; [by apply Hback|].
      etransitivity; [by apply others_calm|]. eapply handle_gone_calm; [done|]. cbn. by rewrite (ot_clients _ _ Ho).
    + intros id s2 Hs2 _ _ Hin. eapply HQ; [by apply Hback| |rewrite (hi_handles _ _ _ _ _ _ Hin); apply lookup_insert_eq|done..].
      etransitivity; [by apply others_calm|]. eapply handle_in_calm; [done|]. cbn. by rewrite (ot_clients _ _ Ho).
Qed.

(** A request that no heap answers to. *)
Definition unanswered (len mask : Z) s : Prop := len ≠ 0 ∧ ∀ h, h ∈ d_heaps s → asked mask s h = false.
Lemma unanswered_calm len mask s s' : calm s s' → unanswered len mask s' → unanswered len mask s.
Proof.
  intros [E1 E3 _ _ _ _ _] [Hn Hno]. split; [done|]. intros h Hh. rewrite <- E3 in Hh. specialize (Hno h Hh).
  unfold asked in *. by rewrite E1 in Hno.
Qed.

(** A new buffer is in nobody's table. *)
Lemma no_handle_yet g N s c x b : inv g N s → settled g → clients s !! c = Some x → b ∉ d_buffers s → c_handles x !! b = None.
Proof.
  intros Hs Hg Hx Hb. destruct (c_handles x !! b) as [h|] eqn:E; [|done]. destruct (settled_inv _ _ _ Hg Hs) as (Ht & _).
  destruct (tb_tree _ _ _ Ht c x b h Hx E) as (y & Hy & _ & <- & _). pose proof Hg as (_ & Ep & _).
  by destruct (handle_bounds _ _ _ _ _ Hs Ep Hy).
Qed.

(** The end of [ion_alloc], with the buffer a heap gave. *)
Lemma wp_alloc_handle g N c b h x s (Q : err Z → ion W → Prop) :
  inv (g_pin b 1 g) N s → 0 <= g_pins g b → settled g → N + 1 < 2 ^ 31 → clients s !! c = Some x → b ∈ d_buffers s →
  c_handles x !! b = None → free s → is_Some (heaps s !! h) →
  (∀ e s', inv g (N + 1) s' → calm s s' → Q (inl e) s') →
  (∀ k s' y, inv g (N + 1) s' → calm s s' → handles s' !! k = Some y → h_client y = c → h_ref y = 1 → h_buffer y = b →
     shapes s s' → Q (inr k) s') →
  wp (handle ← ion_handle_create c b; ion_buffer_put b ;;
      match handle with
      | inl e => ion_debug_heap_show_err h ;; mret (inl e)
      | inr k => add_handle c k
      end) Q s.
Proof.
  intros Hs Hp0 Hg HN Hx HD Hnew Hfree Hh Herr HQ. pose proof (iv_bound _ _ _ Hs) as HN0.
  assert (Hg1 : settled (g_pin b 1 g)) by done. pose proof Hg as (El & Ep & Ele & Eb & Ed & Ez).
  assert (Hpin : ∀ d, g_pins g d = pin_add b (-1) (pin_add b 1 (g_pins g)) d).
  { intros d. destruct (decide (d = b)) as [->|]; [rewrite !pin_add_eq; lia|by rewrite !pin_add_ne]. }
  assert (Hp1 : 1 <= pin_add b 1 (g_pins g) b) by (rewrite pin_add_eq; lia).
  wp_b. eapply (wp_handle_create (g_pin b 1 g) N); [done|done|done|by eexists|done|by apply free_unlocked|..].
  - intros e s1 Hs1 Hsm _. pose proof (calm_free _ _ (same_calm _ _ Hsm) Hfree) as Hfree1.
    wp_b. eapply wp_buffer_put; [done|done|done|unfold g_bld; cbn; by rewrite Eb|by apply free_unlocked|].
    intros s2 Hs2 Hsm2 _. assert (Hi : inv g N s2) by (by eapply inv_pins).
    pose proof (transitivity (same_calm _ _ Hsm) (same_calm _ _ Hsm2)) as Hcalm.
    wp_b. eapply wp_debug_heap_show_err; [done|done|by eapply calm_free|by rewrite (cm_heaps _ _ Hcalm)|]. intros r.
    apply wp_ret, Herr; [apply (inv_mono _ N); [done|lia]|done].
  - intros k s1 Hs1 Ho HD1 Hnk Hk1 Hsh1. pose proof (calm_free _ _ (others_calm _ _ Ho) Hfree) as Hfree1.
    wp_b. eapply wp_buffer_put; [done|done|done|unfold g_bld; cbn; by rewrite Eb|by apply free_unlocked|].
    intros s2 Hs2 Hsm2 Hsh2. pose proof (transitivity (others_calm _ _ Ho) (same_calm _ _ Hsm2)) as Hcalm.
    assert (Ecl : clients s2 = clients s) by (by rewrite (sm_clients _ _ Hsm2), (ot_clients _ _ Ho)).
    assert (Hi : inv (g_with_loose (Some k) g) (N + 1) s2) by (by eapply inv_pins).
    assert (Hback : ∀ s', inv (gone (g_with_loose (Some k) g)) (N + 1) s' → inv g (N + 1) s') by (intros s' Hs'; by eapply inv_pins).
    eapply (wp_add_handle (g_with_loose (Some k) g) (N + 1) c k (mk_handle 1 c b false 0 0) x); try done.
    + rewrite (sm_handles _ _ Hsm2), Hk1. apply lookup_insert_eq.
    + by rewrite Ecl.
    + apply free_client. by eapply calm_free.
    + apply free_unlocked. by eapply calm_free.
    + intros e s3 _ Hs3 Hgone. apply Herr; [by apply Hback|].
      etransitivity; [done|]. eapply handle_gone_calm; [done|]. cbn. by rewrite Ecl.
    + intros id s3 Hs3 _ _ Hin. eapply HQ; [by apply Hback| |rewrite (hi_handles _ _ _ _ _ _ Hin); apply lookup_insert_eq|done..|].
      * etransitivity; [done|]. eapply handle_in_calm; [done|]. cbn. by rewrite Ecl.
      * etransitivity; [exact Hsh1|]. etransitivity; [exact Hsh2|]. apply shapes_same, (hi_buffers _ _ _ _ _ _ Hin).
Qed.

(** The buffer of a request: of a heap that the mask tried first, or the one asked for, names. *)
Definition served (len mask flags : Z) s (z : buffer) : Prop :=
  let '(first, fallback) := a1000_mask (PAGE_ALIGN len) mask in
  b_heap z ∈ d_heaps s ∧ b_size z = PAGE_ALIGN len ∧ b_flags z = flags ∧
  (asked first s (b_heap z) = true ∨ fallback = true ∧ asked mask s (b_heap z) = true).
Lemma served_shape len mask flags s z z' : shape z' = shape z → served len mask flags s z → served len mask flags s z'.
Proof. unfold served, shape. intros [= -> -> ->]. done. Qed.

(** An allocation returns, or no heap answers to its mask. *)
Lemma wpu_ion_alloc U g N c len align mask flags s (Q : err Z → ion W → Prop) :
  inv g N s → settled g → N + 1 < 2 ^ 31 → is_Some (clients s !! c) → free s → (unanswered len mask s → U) →
  (∀ e s', inv g (N + 1) s' → calm s s' → Q (inl e) s') →
  (∀ k s' y z, inv g (N + 1) s' → calm s s' → handles s' !! k = Some y → h_client y = c → h_ref y = 1 →
     buffers s' !! h_buffer y = Some z → served len mask flags s z → Q (inr k) s') →
  wpu U (ion_alloc c len align mask flags) Q s.
Proof.
  intros Hs Hg HN [x Hx] Hfree Hserv Herr HQ. pose proof (iv_bound _ _ _ Hs) as HN0. unfold ion_alloc.
  assert (Herr' : ∀ e s', inv g N s' → same s s' → Q (inl e) s').
  { intros e s' Hs' Hsm. apply Herr; [apply (inv_mono _ N); [done|lia]|by apply same_calm]. }
  wp_b. eapply wp_client_at; [done|]. destruct (Z.eqb_spec len 0) as [|Hlen]; [by apply wp_wpu, wp_ret, Herr'|].
  cbn zeta. destruct (a1000_mask _ mask) as [m fallback] eqn:Em.
  (* once a heap gave a buffer *)
  assert (Hend : ∀ b h s' z, inv (g_pin b 1 g) N s' → same s s' → b ∉ d_buffers s → b ∈ d_buffers s' →
    buffers s' !! b = Some z → h ∈ d_heaps s → served len mask flags s z →
    wpu U (handle ← ion_handle_create c b; ion_buffer_put b ;;
        match handle with inl e => ion_debug_heap_show_err h ;; mret (inl e) | inr k => add_handle c k end) Q s').
  { intros b h s' z Hs' Hsm HbD HbD' Hz Hh Hz'. pose proof (same_calm _ _ Hsm) as Hcalm.
    apply wp_wpu. eapply (wp_alloc_handle g N c b h x); try done.
    - destruct (settled_inv _ _ _ Hg Hs) as (_ & Hc & _). apply (cn_pins _ _ _ _ _ _ Hc).
    - by rewrite (sm_clients _ _ Hsm).
    - by apply (no_handle_yet g N s c x b).
    - by eapply calm_free.
    - rewrite (sm_heaps _ _ Hsm). by apply (iv_heaps _ _ _ Hs).
    - intros e s'' ? ?. apply Herr; [done|by etransitivity].
    - intros k s'' y Hs'' ? Hk ? ? Eb Hsh. destruct (handle_bounds _ _ _ _ _ Hs'' (proj1 (proj2 Hg)) Hk) as (HD & _).
      destruct (inv_buffer _ _ _ _ Hs'' HD) as [z'' Hz'']. pose proof Hz'' as Hz2. rewrite Eb in Hz2. destruct (Hsh b z'' Hz2) as (z1 & Hz1 & E).
      rewrite Hz in Hz1. injection Hz1 as <-.
      eapply HQ; try done; [by etransitivity|by eapply served_shape]. }
  assert (Hlast : a1000_mask (PAGE_ALIGN len) mask = (m, false) → m = mask).
  { unfold a1000_mask. destruct (_ =? 480 * 800 * 4); [done|]. by destruct (mask =? _); intros [=]. }
  wp_b. eapply (wp_try_all_heaps g N); [done|done|done|..].
  - intros r s1 Hs1 Hsm Hk Hr Hr'. cbn [fst]. rewrite Hr. cbn [negb andb]. destruct fallback.
    + wp_b. eapply (wp_try_all_heaps g N); [done|done|by eapply calm_free; [apply same_calm|]|..].
      * intros r2 s2 Hs2 Hsm2 Hk2 Hr2 Hr2'. destruct r2 as [[e|b]|]; [|done|].
        -- apply wp_wpu, wp_ret, Herr'; [done|by etransitivity].
        -- apply Hserv. split; [done|]. intros h Hh. specialize (Hr2' eq_refl). rewrite (sm_d_heaps _ _ Hsm) in Hr2'.
           pose proof (proj1 (Forall_forall _ _) Hr2' h Hh) as Ea. cbv beta in Ea. by rewrite (asked_same _ _ _ _ Hsm) in Ea.
      * intros b h s2 z Hs2 Hsm2 HbD HbD' Hz E1 E2 E4 Hin2 E3. rewrite (sm_d_heaps _ _ Hsm) in Hin2. rewrite (asked_same _ _ _ _ Hsm) in E3.
        eapply Hend; try done; [by etransitivity| |].
        -- intros Hin'. by destruct (Hk b Hin').
        -- unfold served. rewrite Em, E1. split; [done|]. split; [done|]. split; [done|]. by right.
    + wp_b. apply wp_ret. destruct r as [[e|b]|]; [by apply wp_wpu, wp_ret, Herr'|done|].
      apply Hserv. split; [done|]. intros h Hh. specialize (Hr' eq_refl). rewrite (Hlast Em) in Hr'.
      by apply (proj1 (Forall_forall _ _) Hr' h Hh).
  - intros b h s1 z Hs1 Hsm HbD HbD' Hz E1 E2 E4 Hin2 E3. cbn [fst is_buffer negb andb]. wp_b. apply wp_ret.
    eapply Hend; try done. unfold served. rewrite Em, E1. split; [done|]. split; [done|]. split; [done|]. by left.
Qed.

(** ** What clients do with their handles *)

Lemma idle_settled : settled idle.
Proof. by repeat split. Qed.

(** Between calls: the invariant with a bound on every count, and no lock is held. *)
Definition ok (N : Z) s : Prop := inv idle N s ∧ free s.
Lemma ok_mono N N' s : ok N s → N <= N' < 2 ^ 31 → ok N' s.
Proof. intros [Hs Hf] HN. split; [by eapply inv_mono|done]. Qed.
Lemma ok_calm N s s' : inv idle N s' → calm s s' → free s → ok N s'.
Proof. intros Hs Hc Hf. split; [done|by eapply calm_free]. Qed.

Lemma update_calm s h y : calm s (set_handles (<[h := y]> (handles s)) s).
Proof. done. Qed.

(** Giving up a reference, between calls. *)
Lemma wp_put N h y s (Q : bool → ion W → Prop) :
  ok N s → handles s !! h = Some y →
  (1 < h_ref y → ok N (set_handles (<[h := set_h_ref (h_ref y - 1) y]> (handles s)) s) →
     Q false (set_handles (<[h := set_h_ref (h_ref y - 1) y]> (handles s)) s)) →
  (∀ x s', h_ref y = 1 → ok N s' → calm s s' → clients s !! h_client y = Some x → handle_gone h y x s s' → Q true s') →
  wp (ion_handle_put h) Q s.
Proof.
  intros [Hs Hf] Hy Hmore Hlast.
  eapply (wp_handle_put idle N h y); try done; [by left|by apply free_client|by apply free_unlocked|..].
  - intros Hr Hi. by apply Hmore.
  - intros x s' Hr Hi Hx Hgone. pose proof (handle_gone_calm _ _ _ _ _ Hgone Hx) as Hc.
    eapply Hlast; try done. by eapply ok_calm.
Qed.

Lemma wp_ion_free N h y s (Q : unit → ion W → Prop) :
  ok N s → handles s !! h = Some y →
  (1 < h_ref y → ok N (set_handles (<[h := set_h_ref (h_ref y - 1) y]> (handles s)) s) →
     Q tt (set_handles (<[h := set_h_ref (h_ref y - 1) y]> (handles s)) s)) →
  (∀ x s', h_ref y = 1 → ok N s' → calm s s' → clients s !! h_client y = Some x → handle_gone h y x s s' → Q tt s') →
  wp (ion_free (h_client y) h) Q s.
Proof.
  intros Hok Hy Hmore Hlast. pose proof Hok as [Hs Hf].
  destruct (handle_bounds _ _ _ _ _ Hs eq_refl Hy) as (_ & _ & _ & x & Hx).
  unfold ion_free. wp_b. eapply wp_handle_at; [done|]. rewrite Z.eqb_refl. cbn [negb].
  wp_b. apply wp_lock_client; [by eexists|by apply free_client|]. wp_b. eapply wp_handle_validate; [done|done|].
  rewrite (handle_valid _ _ _ _ _ _ Hs idle_settled Hy Hx). cbn [negb].
  wp_b. eapply wp_unlock_client; [by eexists|done|by apply free_client|].
  replace (set_held _ _) with s by by destruct s. wp_b.
  eapply wp_put; [done|done|intros; apply wp_ret; by apply Hmore|intros; apply wp_ret; by eapply Hlast].
Qed.

(** Functions that look at a valid handle under the lock of its client. *)
Ltac enter_handle Hok Hy Hx Hf :=
  let Hs := fresh "Hs" in let HD := fresh "HD" in let Hz := fresh "Hz" in let Hhp := fresh "Hhp" in
  pose proof Hok as [Hs Hf];
  destruct (handle_bounds _ _ _ _ _ Hs eq_refl Hy) as (HD & _ & _ & x & Hx);
  destruct (inv_buffer _ _ _ _ Hs HD) as [z Hz]; destruct (inv_heap _ _ _ _ _ Hs Hz) as (hp & Hhp & Hhpok);
  wp_b; apply wp_lock_client; [by eexists|by apply free_client|];
  wp_b; eapply wp_handle_validate; [done|done|]; rewrite (handle_valid _ _ _ _ _ _ Hs idle_settled Hy Hx); cbn [negb].

(** The lock of the client is given back and nothing else happened. *)
Lemma wp_leave {A} c (r : A) (Q : A → ion W → Prop) s :
  is_Some (clients s !! c) → free s → Q r s → wp (unlock_client c ;; mret r) Q (set_held (LClient c :: held s) s).
Proof.
  intros Hc Hf HQ. wp_b. eapply wp_unlock_client; [done|done|by apply free_client|]. apply wp_ret.
  by replace (set_held _ _) with s by by destruct s.
Qed.

Lemma wp_ion_phys N h y s (Q : _ → ion W → Prop) :
  ok N s → handles s !! h = Some y → (∀ r s', ok N s' → calm s s' → Q r s') → wp (ion_phys (h_client y) h) Q s.
Proof.
  intros Hok Hy HQ. unfold ion_phys. enter_handle Hok Hy Hx Hf.
  wp_b. eapply wp_handle_at; [done|]. wp_b. unfold heap_of_buffer. wp_b. eapply wp_buffer_at; [done|]. eapply wp_heap_at; [done|].
  destruct (negb _).
  - apply wp_leave; [by eexists|done|]. by apply HQ.
  - wp_b. eapply wp_unlock_client; [by eexists|done|by apply free_client|]. wp_b. eapply wp_buffer_at; [done|]. apply wp_call.
    apply HQ; [|done]. split; [|done]. apply inv_called; [done|]. by repeat apply inv_held.
Qed.

Lemma wp_ion_sg_table N h y s (Q : _ → ion W → Prop) :
  ok N s → handles s !! h = Some y → (∀ r s', ok N s' → calm s s' → Q r s') → wp (ion_sg_table (h_client y) h) Q s.
Proof.
  intros Hok Hy HQ. unfold ion_sg_table. enter_handle Hok Hy Hx Hf.
  wp_b. eapply wp_handle_at; [done|]. wp_b. eapply wp_buffer_at; [done|].
  apply wp_leave; [by eexists|done|]. by apply HQ.
Qed.

(** The heap maps a buffer for another unit, or ends that, and notes it in the buffer. *)
Lemma inv_iomap N s b x cnt iova :
  inv idle N s → buffers s !! b = Some x →
  inv idle N (set_buffers (<[b := set_b_iomap_cnt cnt (set_b_iova iova x)]> (buffers s)) s).
Proof. intros Hs Hx. eapply inv_field; try done. intros Hb. exact (buffer_pages _ _ _ _ _ Hs Hx Hb). Qed.
(** Under both locks, a buffer may change as long as the invariant holds; then both go. *)
Lemma wp_leave_both {A} c b (r : A) (Q : A → ion W → Prop) s s1 :
  is_Some (clients s1 !! c) → is_Some (buffers s1 !! b) → held s1 = LBuffer b :: LClient c :: held s → free s →
  Q r (set_held (held s) s1) → wp (unlock_buffer b ;; unlock_client c ;; mret r) Q s1.
Proof.
  intros Hc Hb Hh Hf HQ. wp_b. eapply wp_unlock_buffer; [done|done|rewrite Hf; set_solver|].
  wp_b. eapply wp_unlock_client; [done|done|by apply free_client|]. by apply wp_ret.
Qed.

Lemma wp_ion_map_iommu N h y domain s (Q : _ → ion W → Prop) :
  ok N s → handles s !! h = Some y → (∀ r s', ok N s' → calm s s' → Q r s') → wp (ion_map_iommu (h_client y) h domain) Q s.
Proof.
  intros Hok Hy HQ. unfold ion_map_iommu. enter_handle Hok Hy Hx Hf.
  wp_b. eapply wp_handle_at; [done|]. wp_b. unfold heap_of_buffer. wp_b. eapply wp_buffer_at; [done|]. eapply wp_heap_at; [done|].
  destruct (negb _); [apply wp_leave; [by eexists|done|by apply HQ]|].
  wp_b. apply wp_lock_buffer; [by eexists|cbn; rewrite Hf; set_solver|]. wp_b. eapply wp_buffer_at; [done|].
  wp_b. apply wp_call. destruct (answer _ _) as [[cnt iova] ptr]. wp_b. eapply wp_mod_buffer; [done|].
  eapply (wp_leave_both _ _ _ _ s); [by eexists|eexists; apply lookup_insert_eq|done|done|]. apply HQ; [|done]. split; [|done].
  apply inv_held. eapply inv_iomap; [|done]. apply inv_called; [done|]. by repeat apply inv_held.
Qed.

Lemma wp_ion_unmap_iommu N h y domain s (Q : _ → ion W → Prop) :
  ok N s → handles s !! h = Some y → (∀ r s', ok N s' → calm s s' → Q r s') → wp (ion_unmap_iommu (h_client y) h domain) Q s.
Proof.
  intros Hok Hy HQ. unfold ion_unmap_iommu. enter_handle Hok Hy Hx Hf.
  wp_b. eapply wp_handle_at; [done|]. wp_b. unfold heap_of_buffer. wp_b. eapply wp_buffer_at; [done|]. eapply wp_heap_at; [done|].
  destruct (has_map_iommu (hp_ops hp)) eqn:Em; cbn [negb]; [|apply wp_leave; [by eexists|done|by apply HQ]].
  wp_b. apply wp_lock_buffer; [by eexists|cbn; rewrite Hf; set_solver|]. wp_b. eapply wp_buffer_at; [done|].
  destruct Hhpok as (_ & _ & _ & _ & _ & Hu & _). wp_b. eapply wp_op; [done|by apply Hu|].
  wp_b. apply wp_call. destruct (answer _ _) as [cnt iova]. wp_b. eapply wp_mod_buffer; [done|].
  eapply (wp_leave_both _ _ _ _ s); [by eexists|eexists; apply lookup_insert_eq|done|done|]. apply HQ; [|done]. split; [|done].
  apply inv_held. eapply inv_iomap; [|done]. apply inv_called; [done|]. by repeat apply inv_held.
Qed.

Lemma wp_ion_map_kernel N h y s (Q : _ → ion W → Prop) :
  ok N s → N + 1 < 2 ^ 31 → handles s !! h = Some y → (∀ r s', ok (N + 1) s' → calm s s' → Q r s') →
  wp (ion_map_kernel (h_client y) h) Q s.
Proof.
  intros Hok HN Hy HQ. unfold ion_map_kernel. enter_handle Hok Hy Hx Hf. pose proof (iv_bound _ _ _ Hs) as HN0.
  wp_b. eapply wp_handle_at; [done|]. wp_b. unfold heap_of_buffer. wp_b. eapply wp_buffer_at; [done|]. eapply wp_heap_at; [done|].
  destruct (has_map_kernel (hp_ops hp)) eqn:Em; cbn [negb].
  2: { apply wp_leave; [by eexists|done|]. apply HQ; [|done]. apply (ok_mono N); [done|lia]. }
  wp_b. apply wp_lock_buffer; [by eexists|cbn; rewrite Hf; set_solver|].
  wp_b. eapply (wp_handle_kmap_get idle N h y z); try done; [by repeat apply inv_held|intros hp' Hhp'; cbn in Hhp'; congruence|].
  intros r s1 k Hs1 Ho HD1 Hh1. pose proof Ho as [O1 O2 O3 O4 O5 O6 O7 O8].
  eapply (wp_leave_both _ _ _ _ s); [rewrite O1; by eexists| |by rewrite O8|done|].
  - destruct (inv_buffer _ _ _ (h_buffer y) Hs1) as [z1 Hz1]; [by rewrite HD1|]. by eexists.
  - apply HQ; [split; [by apply inv_held|done]|]. apply others_calm. by split.
Qed.

Lemma wp_ion_unmap_kernel N h y s (Q : unit → ion W → Prop) :
  ok N s → handles s !! h = Some y → 1 <= h_kmap_cnt y → (∀ s', ok N s' → calm s s' → Q tt s') →
  wp (ion_unmap_kernel (h_client y) h) Q s.
Proof.
  intros Hok Hy Hk HQ. pose proof Hok as [Hs Hf]. destruct (handle_bounds _ _ _ _ _ Hs eq_refl Hy) as (HD & _ & _ & x & Hx).
  destruct (inv_buffer _ _ _ _ Hs HD) as [z Hz]. unfold ion_unmap_kernel.
  wp_b. apply wp_lock_client; [by eexists|by apply free_client|]. wp_b. eapply wp_handle_at; [done|].
  wp_b. apply wp_lock_buffer; [by eexists|cbn; rewrite Hf; set_solver|].
  wp_b. eapply (wp_handle_kmap_put idle N h y); try done; [by repeat apply inv_held|].
  intros s1 Hs1 Ho HD1 Hh1. pose proof Ho as [O1 O2 O3 O4 O5 O6 O7 O8].
  destruct (inv_buffer _ _ _ (h_buffer y) Hs1) as [z1 Hz1]; [by rewrite HD1|].
  wp_b. eapply wp_unlock_buffer; [by eexists|by rewrite O8|cbn; rewrite Hf; set_solver|].
  eapply wp_unlock_client; [cbn; rewrite O1; by eexists|done|by apply free_client|].
  apply HQ; [split; [by repeat apply inv_held|done]|]. apply others_calm. by split.
Qed.

(** ** Clients *)

Lemma wp_ion_client_create N name s (Q : err Z → ion W → Prop) :
  ok N s → (∀ e s', ok N s' → calm s s' → Q (inl e) s') →
  (∀ c s' x, ok N s' → clients s !! c = None → clients s' = <[c := x]> (clients s) → c_handles x = ∅ →
     exported s' = exported s → vmas s' = vmas s → handles s' = handles s → heaps s' = heaps s → Q (inr c) s') →
  wp (ion_client_create name) Q s.
Proof.
  intros [Hs Hf] Herr HQ. unfold ion_client_create. wp_b. apply wp_call. set (t := answer _ s). wp_b. apply wp_call.
  set (s1 := called _ _). assert (Hs1 : inv idle N s1) by (apply inv_called; [done|]; by apply inv_called).
  wp_b. apply (wp_mono _ (λ _ s2, inv idle N s2 ∧ same s s2)).
  { apply wp_when; intros _; [|done]. apply wp_call. split; [by apply inv_called|done]. }
  intros [] s2 (Hs2 & Hsm2). cbn zeta. set (task := if t_kthread t then None else Some t).
  unfold kzalloc. wp_b. wp_b. apply wp_get. apply wp_call. pose proof (kzalloc_fresh (in_use s2) (world s2)) as Hfresh.
  set (e := KZalloc _). change (fst _) with (answer e s2) in Hfresh. set (s3 := called e s2).
  assert (Hs3 : inv idle N s3) by by apply inv_called. assert (Hsm3 : same s s3) by (by destruct Hsm2; split).
  destruct (answer e s2) as [c|].
  - assert (Hnew : clients s2 !! c = None).
    { apply not_elem_of_dom. specialize (Hfresh c eq_refl). unfold in_use in Hfresh. set_solver. }
    assert (HcD : c ∉ d_clients s2) by (intros [z Hz]%(iv_clients _ _ _ Hs2); congruence).
    wp_b. apply wp_modify. wp_b. apply wp_mutex_lock; [cbn; rewrite (sm_held _ _ Hsm2), Hf; apply not_elem_of_nil|].
    wp_b. apply wp_get. cbn [d_clients set_held set_clients]. rewrite bool_decide_false by done. wp_b. apply wp_modify.
    wp_b. eapply wp_mutex_unlock; [done|cbn; rewrite (sm_held _ _ Hsm2), Hf; apply not_elem_of_nil|].
    apply wp_ret. eapply HQ; cbn; rewrite <- ?(sm_clients _ _ Hsm2); try done; try apply Hsm2.
    split; [|by unfold free; cbn; rewrite (sm_held _ _ Hsm2)].
    destruct Hs3 as [Ht Hc Hze Hl Hfo Hh Ha Hcl Hm HN]. split; try assumption; cbn.
    + by apply tables_client_new.
    + intros d. rewrite lookup_insert_is_Some, elem_of_union, elem_of_singleton. specialize (Hcl d).
      change (d ∈ d_clients s2 ↔ is_Some (clients s2 !! d)) in Hcl. rewrite <- Hcl.
      destruct (decide (c = d)) as [<-|]; [tauto|]. split; [intros [?|?]; [congruence|by right]|intros [?|[_ ?]]; [congruence|by right]].
  - assert (Hend : ∀ s4, inv idle N s4 → same s s4 → Q (inl (- ENOMEM)) s4).
    { intros s4 Hs4 Hsm4. apply Herr; [|by apply same_calm]. eapply ok_calm; [done|by apply same_calm|done]. }
    wp_b. destruct task; [apply wp_call|]; apply wp_ret, Hend; try done; [by apply inv_called|by destruct Hsm3; split].
Qed.

Lemma rb_nodes_cases (m : gmap Z Z) : match rb_nodes m with [] => m = ∅ | (k, v) :: _ => m !! k = Some v end.
Proof.
  destruct (rb_nodes m) as [|[k v] l] eqn:E.
  - apply map_empty. intros i. destruct (m !! i) as [v|] eqn:Hi; [|done]. apply elem_of_rb_nodes in Hi. rewrite E in Hi.
    by apply not_elem_of_nil in Hi.
  - apply elem_of_rb_nodes. rewrite E. by left.
Qed.

(** Every handle of the client goes. *)
Lemma wp_destroy_handles N fuel c x s (Q : unit → ion W → Prop) :
  ok N s → clients s !! c = Some x → (size (c_handles x) <= fuel)%nat →
  (∀ s' x', ok N s' → calm s s' → clients s' = <[c := x']> (clients s) → c_handles x' = ∅ →
     (∀ h y, handles s' !! h = Some y ↔ handles s !! h = Some y ∧ h_client y ≠ c) → Q tt s') →
  wp (destroy_handles fuel c) Q s.
Proof.
  revert s x Q. induction fuel as [|fuel IH]; intros s x Q Hok Hx Hsize HQ; cbn [destroy_handles];
    (wp_b; eapply wp_client_at; [done|]); pose proof (rb_nodes_cases (c_handles x)) as Hn;
    pose proof Hok as [Hs Hf]; destruct (settled_inv _ _ _ idle_settled Hs) as (Ht & _);
    (destruct (rb_nodes (c_handles x)) as [|[b h] l]; [apply wp_ret; apply (HQ s x); [done|done|by rewrite insert_id|done|]|]).
  1, 3: intros h y; split; [|by intros [? _]]; intros Hy; split; [done|]; intros Ec;
    destruct (tb_handle _ _ _ Ht h y Hy) as (x2 & Hx2 & Hl); rewrite decide_False in Hl by done; destruct Hl as (_ & _ & Hl);
    rewrite Ec, Hx in Hx2; injection Hx2 as <-; by rewrite Hn, lookup_empty in Hl.
  - exfalso. assert (E : size (c_handles x) = 0%nat) by lia. apply map_size_empty_inv in E.
    by rewrite E, lookup_empty in Hn.
  - destruct (tb_tree _ _ _ Ht c x b h Hx Hn) as (y & Hy & Ec & Eb & _).
    wp_b. eapply (wp_handle_destroy idle N h y x); try done; [by left|by left|by rewrite Ec|by apply free_unlocked|].
    intros s1 Hs1 Hgone. assert (Hcalm : calm s s1) by (eapply handle_gone_calm; [done|by rewrite Ec]).
    destruct (tb_handle _ _ _ Ht h y Hy) as (x2 & Hx2 & Hl). rewrite decide_False in Hl by done. destruct Hl as (El & _ & _).
    assert (Et : c_handles (unlinked y x) = delete b (c_handles x)) by (unfold unlinked; rewrite El, Eb; done).
    destruct Hgone as [G1 G2 _ _ _ _ _ _ _]. rewrite Ec in G2.
    apply (IH s1 (unlinked y x)); [by eapply ok_calm|rewrite G2; apply lookup_insert_eq| |].
    + rewrite Et, map_size_delete_Some by (by eexists). lia.
    + intros s2 x' Hok2 Hcalm2 E2 Ex' Hh2. apply (HQ s2 x'); [done|by etransitivity| |done|].
      * by rewrite E2, G2, insert_insert_eq.
      * intros k z. rewrite Hh2, G1, lookup_delete_Some. split; [tauto|]. intros [Hk Hne]. split; [|done]. split; [|done].
        intros <-. congruence.
Qed.

Lemma wp_ion_client_destroy N c x s (Q : unit → ion W → Prop) :
  ok N s → clients s !! c = Some x →
  (∀ s', ok N s' → clients s' = delete c (clients s) → heaps s' = heaps s → d_heaps s' = d_heaps s →
     exported s' = exported s → vmas s' = vmas s →
     (∀ h y, handles s' !! h = Some y ↔ handles s !! h = Some y ∧ h_client y ≠ c) → Q tt s') →
  wp (ion_client_destroy c) Q s.
Proof.
  intros Hok Hx HQ. unfold ion_client_destroy. wp_b. eapply wp_client_at; [done|].
  wp_b. eapply wp_destroy_handles; [done|done|done|]. intros s1 x1 [Hs1 Hf1] Hcalm E1 Ex1 Hh1.
  assert (Hx1 : clients s1 !! c = Some x1) by (rewrite E1; apply lookup_insert_eq).
  destruct (settled_inv _ _ _ idle_settled Hs1) as (Ht1 & _). pose proof (tables_idr_empty _ _ _ _ Ht1 Hx1 Ex1) as Ei1.
  wp_b. eapply wp_mod_client; [done|].
  assert (Eid : set_clients (<[c := set_c_idr ∅ x1]> (clients s1)) s1 = s1).
  { rewrite <- Ei1. assert (set_c_idr (c_idr x1) x1 = x1) as -> by by destruct x1. rewrite insert_id by done. by destruct s1. }
  rewrite Eid. wp_b. apply wp_mutex_lock; [rewrite Hf1; apply not_elem_of_nil|].
  wp_b. apply (wp_mono _ (λ _ s2, inv idle N s2 ∧ same (set_held (LDevice :: held s1) s1) s2)).
  { destruct (c_task x); [apply wp_call|apply wp_ret]; (split; [|done]); [apply inv_called; [done|]|]; by apply inv_held. }
  intros [] s2 (Hs2 & [S1 S2 S3 S4 S5 S6 S7 S8 S9]). cbn in S1, S2, S3, S4, S5, S6, S7, S8, S9.
  assert (HcD : c ∈ d_clients s2) by (apply (iv_clients _ _ _ Hs2); rewrite S2; by eexists).
  wp_b. apply wp_get. wp_b. apply wp_require; [by apply bool_decide_true|]. wp_b. apply wp_modify.
  wp_b. eapply wp_mutex_unlock; [exact S9|rewrite Hf1; apply not_elem_of_nil|].
  unfold kfree_client. wp_b. eapply wp_client_at; [cbn; by rewrite S2|]. apply wp_modify.
  destruct Hcalm as [C1 C2 C3 C4 C5 C6 C7].
  apply HQ; cbn; try congruence.
  - split; [|by unfold free; cbn; rewrite Hf1].
    destruct Hs2 as [Ht Hc Hze Hl Hfo Hh Ha Hcl Hm HN]. split; try assumption; cbn.
    + cbn in Ht. eapply tables_client_delete; [exact Ht|by rewrite S2|done].
    + intros d. rewrite lookup_delete_is_Some, elem_of_difference, elem_of_singleton. rewrite Hcl. naive_solver.
  - rewrite S2, E1. by rewrite delete_insert_eq.
  - intros h y. by rewrite S1.
Qed.

(** ** dma-bufs *)

Lemma wp_share N h y s (Q : err Z → ion W → Prop) :
  ok N s → N + 1 < 2 ^ 31 → handles s !! h = Some y →
  (∀ e s', ok (N + 1) s' → calm s s' → handles s' = handles s → Q (inl e) s') →
  (∀ d s', ok (N + 1) s' → handles s' = handles s → clients s' = clients s → heaps s' = heaps s → d_heaps s' = d_heaps s →
     d_custom s' = d_custom s → vmas s' = vmas s → exported s !! d = None →
     (∃ sz, exported s' = <[d := mk_dmabuf (h_buffer y) sz 0]> (exported s)) → Q (inr d) s') →
  wp (ion_share_dma_buf (h_client y) h) Q s.
Proof.
  intros Hok HN Hy Herr HQ. unfold ion_share_dma_buf. enter_handle Hok Hy Hx Hf. pose proof (iv_bound _ _ _ Hs) as HN0.
  wp_b. eapply wp_handle_at; [done|]. wp_b. eapply wp_buffer_get; [done|].
  wp_b. eapply wp_unlock_client; [by eexists|done|by apply free_client|].
  set (s1 := set_held _ _).
  assert (E1 : s1 = set_buffers (<[h_buffer y := set_b_ref (u32 (b_ref z + 1)) z]> (buffers s)) s) by by destruct s.
  assert (Hs1 : inv (g_pin (h_buffer y) 1 idle) (N + 1) s1) by (rewrite E1; by apply inv_get).
  assert (Hsm1 : same s s1) by by rewrite E1. assert (Hf1 : free s1) by by rewrite E1.
  wp_b. eapply wp_buffer_at; [rewrite E1; apply lookup_insert_eq|]. cbn [b_size set_b_ref].
  unfold dma_buf_export. wp_b. wp_b. apply wp_get. wp_b. apply wp_call.
  set (e := KExport _ _ _). pose proof (export_fresh (dom (exported s1)) (h_buffer y) (b_size z) (world s1)) as Hfresh.
  change (fst _) with (answer e s1) in Hfresh. set (s2 := called e s1).
  assert (Hs2 : inv (g_pin (h_buffer y) 1 idle) (N + 1) s2) by by apply inv_called.
  assert (Hsm2 : same s s2) by (by destruct Hsm1; split).
  destruct (answer e s1) as [er|d].
  - apply wp_ret. wp_b. eapply wp_buffer_put; [done|done|by cbn; rewrite pin_add_eq|done|by apply free_unlocked|].
    intros s3 Hs3 Hsm3 _. pose proof (transitivity Hsm2 Hsm3) as Hsm. apply wp_ret, Herr; [|by apply same_calm|apply Hsm].
    eapply ok_calm; [eapply inv_pins; [exact Hs3|..]; try done|by apply same_calm|done].
    intros c. destruct (decide (c = h_buffer y)) as [->|]; [cbn; by rewrite !pin_add_eq|cbn; by rewrite !pin_add_ne].
  - assert (Hnew : exported s1 !! d = None) by (apply not_elem_of_dom; by apply Hfresh).
    wp_b. apply wp_modify. apply wp_ret. apply wp_ret. eapply HQ; cbn; rewrite ?E1; cbn; try done.
    + split; [|done]. destruct Hs2 as [Ht Hc Hze Hl Hfo Hh Ha Hcl Hm HN2]. split; try assumption.
      * unfold live_dmabufs in *. cbn in *.
        eapply counts_pins; [eapply (counts_dmabuf_new (pins := pin_add (h_buffer y) 1 (λ _, 0)))|].
        -- exact Hc.
        -- done.
        -- by rewrite pin_add_eq.
        -- intros c. destruct (decide (c = h_buffer y)) as [->|]; [by rewrite !pin_add_eq|by rewrite !pin_add_ne].
      * unfold live_dmabufs in *. cbn in *. destruct Ha as [Av Al]. split; [|done].
        intros v w b Hv Hw. destruct (Av v w b Hv Hw) as (? & (q & Hq & ?) & ?). split; [done|]. split; [|done].
        exists q. rewrite lookup_insert_ne by congruence. done.
    + by exists (b_size z).
Qed.

(** What a request of a client leaves alone: it may export buffers. *)
Record mild s s' : Prop := {
  ml_heaps : heaps s' = heaps s; ml_d_heaps : d_heaps s' = d_heaps s; ml_d_custom : d_custom s' = d_custom s;
  ml_vmas : vmas s' = vmas s; ml_exported : exported s ⊆ exported s';
  ml_clients : ∀ c, is_Some (clients s' !! c) ↔ is_Some (clients s !! c) }.
#[export] Instance mild_preorder : PreOrder mild.
Proof.
  split; [done|]. intros s1 s2 s3 [? ? ? ? E1 F1] [? ? ? ? E2 F2].
  split; try congruence; [by etransitivity|]. intros c. by rewrite F2.
Qed.
Lemma calm_mild s s' : calm s s' → mild s s'.
Proof. intros [E1 E2 E3 E4 E5 E6 E7]. split; try done. by rewrite E4. Qed.

Lemma wp_share_fd N h y s (Q : Z → ion W → Prop) :
  ok N s → N + 1 < 2 ^ 31 → handles s !! h = Some y →
  (∀ fd s', ok (N + 1) s' → mild s s' → handles s' = handles s → Q fd s') →
  wp (ion_share_dma_buf_fd (h_client y) h) Q s.
Proof.
  intros Hok HN Hy HQ. unfold ion_share_dma_buf_fd. wp_b. eapply (wp_share N h y); [done|done|done|..].
  - intros e s' Hok' Hcalm Eh. apply wp_ret, HQ; [done|by apply calm_mild|done].
  - intros d s1 [Hs1 Hf1] E1 E2 E3 E4 E5 E6 Hnew [sz E7].
    assert (Hm : mild s s1) by (split; try done; [by rewrite E7; apply insert_subseteq|by rewrite E2]).
    wp_b. apply wp_call. set (fd := answer _ _). set (s2 := called _ s1).
    assert (Hs2 : inv idle (N + 1) s2) by by apply inv_called.
    assert (Hm2 : mild s s2) by (destruct Hm; by split). assert (Eh : handles s2 = handles s) by done.
    wp_b. apply wp_when; intros _; [apply wp_call|]; apply wp_ret.
    + apply HQ; [split; [by apply inv_called|done]|destruct Hm2; by split|done].
    + by apply HQ.
Qed.

Lemma wp_dma_buf_get N fd s (Q : dma_found → ion W → Prop) :
  ok N s → (∀ r s', ok N s' → calm s s' → handles s' = handles s → clients s' = clients s → buffers s' = buffers s →
     d_buffers s' = d_buffers s →
     match r with DIon d => is_Some (exported s !! d) | _ => True end → Q r s') →
  wp (dma_buf_get fd) Q s.
Proof.
  intros [Hs Hf] HQ. unfold dma_buf_get. wp_b. apply wp_get. apply wp_call.
  pose proof (dma_get_live fd (dom (exported s)) (world s)) as Hlive. set (e := KDmaGet _ _).
  change (fst _) with (answer e s) in Hlive. apply HQ; try done; [split; [by apply inv_called|done]|].
  destruct (answer e s) as [| |d]; [done|done|]. by apply elem_of_dom, Hlive.
Qed.

Lemma wp_put_dmabuf {A} N d (r : A) s (Q : A → ion W → Prop) :
  ok N s → (∀ s', ok N s' → calm s s' → handles s' = handles s → Q r s') → wp (Ion.call (KDmaPut d) ;; mret r) Q s.
Proof. intros [Hs Hf] HQ. wp_b. apply wp_call. apply wp_ret, HQ; try done. split; [by apply inv_called|done]. Qed.

Lemma exported_buffer N s d y : ok N s → exported s !! d = Some y → d_priv y ∈ d_buffers s ∧ ∃ x, buffers s !! d_priv y = Some x.
Proof.
  intros [Hs _] Hy. destruct (settled_inv _ _ _ idle_settled Hs) as (_ & Hc & _).
  destruct (cn_dmabuf _ _ _ _ _ _ Hc d y Hy) as [HD _]. split; [done|]. by eapply inv_buffer.
Qed.

Lemma wp_import_lookup N c b x s (Q : err Z → ion W → Prop) :
  ok N s → N + 1 < 2 ^ 31 → clients s !! c = Some x →
  (c_handles x !! b = None → Q (inl (- EINVAL)) s) →
  (∀ h y, c_handles x !! b = Some h → handles s !! h = Some y → h_client y = c → h_buffer y = b →
     ok (N + 1) (set_handles (<[h := set_h_ref (h_ref y + 1) y]> (handles s)) s) →
     Q (inr h) (set_handles (<[h := set_h_ref (h_ref y + 1) y]> (handles s)) s)) →
  wp (import_lookup c b) Q s.
Proof.
  intros [Hs Hf] HN Hx Hnone Hsome. pose proof (iv_bound _ _ _ Hs) as HN0.
  unfold import_lookup. wp_b. apply wp_lock_client; [by eexists|by apply free_client|].
  wp_b. eapply wp_handle_lookup; [done|intros E|intros h E].
  - wp_b. eapply wp_unlock_client; [by eexists|done|by apply free_client|]. apply wp_ret.
    replace (set_held _ _) with s by by destruct s. auto.
  - destruct (settled_inv _ _ _ idle_settled Hs) as (Ht & _). destruct (tb_tree _ _ _ Ht c x b h Hx E) as (y & Hy & Ec & Eb & _).
    pose proof (inv_handle_get _ _ _ _ _ Hs idle_settled Hy HN) as Hget.
    destruct (handle_bounds _ _ _ _ _ Hs eq_refl Hy) as (_ & ? & _). rewrite (wrap_small 32) in Hget by (unfold in_width; lia).
    wp_b. eapply wp_handle_get; [done|]. rewrite (wrap_small 32) by (unfold in_width; lia).
    wp_b. eapply wp_unlock_client; [by eexists|done|by apply free_client|]. apply wp_ret.
    replace (set_held (held s) _) with (set_handles (<[h := set_h_ref (h_ref y + 1) y]> (handles s)) s) by by destruct s.
    by apply (Hsome h y).
Qed.

(** Entering the buffer of a dma-buf: the handle the client has for it, or a new one. *)
Lemma wp_import_found N c d x y s (Q : err Z → ion W → Prop) :
  ok N s → N + 1 < 2 ^ 31 → exported s !! d = Some y → clients s !! c = Some x →
  (∀ e s', c_handles x !! d_priv y = None → ok (N + 1) s' → calm s s' → Q (inl e) s') →
  (∀ h s' z, ok (N + 1) s' → calm s s' → handles s' !! h = Some z → h_client z = c → h_buffer z = d_priv y →
     (∀ k, c_handles x !! d_priv y = Some k → h = k) → Q (inr h) s') →
  wp (y ← dmabuf_at d;
      handle ← import_lookup c (d_priv y);
      handle ← match handle with inr h => mret (inr h) | inl _ => import_create c (d_priv y) end;
      Ion.call (KDmaPut (Some d)) ;;
      mret handle) Q s.
Proof.
  intros Hok HN Hy Hx Herr HQ. pose proof (iv_bound _ _ _ (proj1 Hok)) as HN0. destruct (exported_buffer _ _ _ _ Hok Hy) as [HD [z Hz]].
  wp_b. eapply wp_dmabuf_at; [done|]. wp_b. eapply wp_import_lookup; [done|done|done|..].
  - intros Hnew. wp_b. destruct Hok as [Hs Hf].
    eapply (wp_create_and_add idle N c (d_priv y) x); [done|apply idle_settled|done|done|done|done|done|..].
    + intros e s2 Hs2 Hc2. eapply wp_put_dmabuf; [by apply (ok_calm _ s)|]. intros s3 Hok3 Hc3 _. apply Herr; [done|done|].
      by etransitivity.
    + intros h s2 z2 Hs2 Hc2 Hh Hcl Hb _. eapply wp_put_dmabuf; [by apply (ok_calm _ s)|]. intros s3 Hok3 Hc3 Eh3.
      apply (HQ _ _ z2); [done|by etransitivity|by rewrite Eh3|done|done|congruence].
  - intros h y2 Hh Hy2 Hcl Hb Hok2. wp_b. apply wp_ret. eapply wp_put_dmabuf; [done|]. intros s3 Hok3 Hc3 Eh3.
    eapply (HQ _ _ (set_h_ref (h_ref y2 + 1) y2)); [done| |by rewrite Eh3; apply lookup_insert_eq|done|done|congruence].
    etransitivity; [apply update_calm|exact Hc3].
Qed.

Lemma wp_import N c fd x s (Q : err Z → ion W → Prop) :
  ok N s → N + 1 < 2 ^ 31 → clients s !! c = Some x →
  (∀ e s', ok (N + 1) s' → calm s s' → Q (inl e) s') →
  (∀ h s' y, ok (N + 1) s' → calm s s' → handles s' !! h = Some y → h_client y = c → Q (inr h) s') →
  wp (ion_import_dma_buf c fd) Q s.
Proof.
  intros Hok HN Hx Herr HQ. pose proof (iv_bound _ _ _ (proj1 Hok)) as HN0.
  assert (Hmono : ∀ s', ok N s' → ok (N + 1) s') by (intros; apply (ok_mono N); [done|lia]).
  unfold ion_import_dma_buf. wp_b. eapply wp_dma_buf_get; [done|]. intros r s1 Hok1 Hc1 Eh1 Ec1 Eb1 ED1 Hr.
  destruct r as [e| |d]; [by apply wp_ret, Herr; auto|eapply wp_put_dmabuf; [done|]; intros; apply Herr; [auto|by etransitivity]|].
  destruct Hr as [y Hy]. rewrite <- (cm_exported _ _ Hc1) in Hy. rewrite <- Ec1 in Hx.
  eapply wp_import_found; [done|done|done|done|..].
  - intros e s2 _ Hok2 Hc2. apply Herr; [done|by etransitivity].
  - intros h s2 z Hok2 Hc2 Hz Hcl _ _. eapply HQ; [done|by etransitivity|done|done].
Qed.
End rules.
