(* ===== verification/IonDevice.v ===== *)
(** * ION: dma-bufs in use, areas of user space, and the device node

    What the dma-buf core, the memory manager and the file operations call: every function
    returns, keeps the invariant and gives its locks back. *)

From S2P Require Import Prelude CMonad Ion IonInv IonSafe IonCalls.

Section rules.
Context {W : Type} `{!Kernel W, !IonAbi, !KernelOk W}.
Implicit Types s : ion W.

(** ** dma-bufs in use *)

Lemma wp_sync_fd N fd to_device s (Q : Z → ion W → Prop) :
  ok N s → (∀ r s', ok N s' → calm s s' → Q r s') → wp (sync_fd fd to_device) Q s.
Proof.
  intros Hok HQ. unfold sync_fd. wp_b. eapply wp_dma_buf_get; [done|]. intros r s1 Hok1 Hc1 _ _ _ _ Hr.
  destruct r as [e| |d]; [by apply wp_ret, HQ|eapply wp_put_dmabuf; [done|]; intros; apply HQ; [done|by etransitivity]|].
  destruct Hr as [y Hy]. rewrite <- (cm_exported _ _ Hc1) in Hy. destruct (exported_buffer _ _ _ _ Hok1 Hy) as [HD [z Hz]].
  wp_b. eapply wp_dmabuf_at; [done|]. wp_b. eapply wp_buffer_at; [done|]. wp_b. apply wp_call.
  destruct Hok1 as [Hs1 Hf1]. eapply (wp_put_dmabuf N).
  - split; [|done]. by apply inv_called.
  - intros s2 Hok2 Hc2 _. apply HQ; [done|]. etransitivity; [exact Hc1|]. etransitivity; [|exact Hc2]. done.
Qed.

Lemma areas_release bs D ex vs d :
  areas bs D ex vs → (∀ v w, vs !! v = Some w → v_file w ≠ d) → areas bs D (delete d ex) vs.
Proof.
  intros [Av Al] Hd. split; [|done]. intros v w b Hv Hw. destruct (Av v w b Hv Hw) as (? & (y & Hy & ?) & ?).
  split; [done|]. split; [|done]. exists y. rewrite lookup_delete_ne; [done|]. intros E. by apply (Hd v w).
Qed.

Definition g_leave (d : Z) (g : ghost) : ghost :=
  mk_ghost (g_pins g) (g_loose g) (g_phantom g) (Some d) (g_building g) (g_dying g) (g_zero g).

(** The last reference to a dma-buf is gone: the buffer loses one, and then the dma-buf is freed. *)
Lemma wp_dma_release N d y s (Q : unit → ion W → Prop) :
  ok N s → exported s !! d = Some y → d_access y = 0 → (∀ v w, vmas s !! v = Some w → v_file w ≠ d) →
  (∀ s', same s s' → ok N (set_exported (delete d (exported s')) s') → Q tt s') →
  wp (ion_dma_buf_release d) Q s.
Proof.
  intros [Hs Hf] Hy Ha Hv HQ. destruct (settled_inv _ _ _ idle_settled Hs) as (Ht & Hc & Har).
  assert (Hs1 : inv (g_leave d (g_pin (d_priv y) 1 idle)) N s).
  { destruct Hs as [Ht' Hc' Hz Hl Hfo Hh Ha' Hcl Hm HN]. split; try assumption.
    - cbn. eapply counts_dmabuf_drop; [exact Hc|done|done|done].
    - cbn. by apply areas_release. }
  unfold ion_dma_buf_release. wp_b. eapply wp_dmabuf_at; [done|].
  eapply wp_buffer_put; [exact Hs1|done|cbn; rewrite pin_add_eq; cbn; lia|done|by apply free_unlocked|].
  intros s' Hs' Hsame _. apply HQ; [done|]. split; [|unfold free; cbn; by rewrite (sm_held _ _ Hsame)].
  destruct Hs' as [Ht' Hc' Hz Hl Hfo Hh Ha' Hcl Hm HN]. split; try assumption.
  cbn in *. eapply counts_pins; [exact Hc'|]. intros b. destruct (decide (b = d_priv y)) as [->|]; [by rewrite !pin_add_eq|by rewrite !pin_add_ne].
Qed.

(** The processor is given access to a dma-buf, and gives it up. *)
Definition accessed (d n : Z) s : ion W :=
  set_exported (alter (λ y, mk_dmabuf (d_priv y) (d_size y) n) d (exported s)) s.

Lemma alter_here {A} (f : A → A) (m : gmap Z A) i x : m !! i = Some x → alter f i m = <[i := f x]> m.
Proof. intros Hi. apply map_eq. intros j. destruct (decide (i = j)) as [<-|]; [by rewrite lookup_alter_eq, Hi, lookup_insert_eq|]. by rewrite lookup_alter_ne, lookup_insert_ne. Qed.

Lemma areas_accessed bs D ex vs d y n :
  areas bs D ex vs → ex !! d = Some y → areas bs D (<[d := mk_dmabuf (d_priv y) (d_size y) n]> ex) vs.
Proof.
  intros [Av Al] Hd. split; [|done]. intros v w b Hv Hw. destruct (Av v w b Hv Hw) as (? & (z & Hz & ?) & ?).
  split; [done|]. split; [|done]. destruct (decide (d = v_file w)) as [->|].
  - simplify_eq. eexists. split; [apply lookup_insert_eq|done].
  - exists z. by rewrite lookup_insert_ne.
Qed.

Lemma inv_accessed N N' d y n x x' s s1 :
  inv idle N s → N <= N' < 2 ^ 31 → exported s !! d = Some y → 0 <= n → buffers s !! d_priv y = Some x →
  one_buffer (d_priv y) x' s s1 → remapped x (b_kmap_cnt x - d_access y + n) x' → b_kmap_cnt x - d_access y + n <= N' →
  inv idle N' (accessed d n s1).
Proof.
  intros Hs HN Hd Hn Hx H1 Ex Hk. destruct (settled_inv _ _ _ idle_settled Hs) as (Ht & Hc & Har).
  destruct (remapped_fields _ _ _ Ex) as (E1 & E2 & E3 & E4 & E5 & E6 & E7 & E8).
  pose proof (cn_dmabuf _ _ _ _ _ _ Hc d y Hd) as [HD Ha]. pose proof (iv_bound _ _ _ Hs) as HN0.
  pose proof H1 as [Hsm Et El Em Eb]. pose proof Hsm as [S1 S2 S3 S4 S5 S6 S7 S8 S9].
  assert (Ee : exported (accessed d n s1) = <[d := mk_dmabuf (d_priv y) (d_size y) n]> (exported s)).
  { cbn. rewrite S7. by rewrite (alter_here _ _ _ y). }
  eapply (inv_recount idle idle N N' s (accessed d n s1)); try done; unfold live_handles, live_dmabufs; cbn [idle g_phantom g_leaving without g_loose g_pins].
  - by destruct (one_buffer_stays _ _ _ _ H1); split.
  - cbn. by rewrite S1, S2.
  - cbn [accessed handles set_exported]. rewrite Ee, S1. eapply counts_access; [exact Hc|lia|done|done|done|done|done|done|congruence|congruence].
  - rewrite Ee. by apply areas_accessed.
  - cbn. rewrite S1. intros h z Hh Hz. by apply (iv_refs _ _ _ Hs h z).
  - by right.
  - intros _. eapply pages_ok_same; [done..|]. by eapply buffer_pages.
  - lia.
Qed.

(** The lock of one buffer, around what changes that buffer. *)
Definition locked (b : Z) s : ion W := set_held (LBuffer b :: held s) s.
Lemma wp_locking b s (Q : unit → ion W → Prop) :
  is_Some (buffers s !! b) → free s → Q tt (locked b s) → wp (lock_buffer b) Q s.
Proof. intros Hx Hf HQ. apply wp_lock_buffer; [done|by apply free_unlocked|done]. Qed.
Lemma wp_unlocking b x' s s1 (Q : unit → ion W → Prop) :
  free s → one_buffer b x' (locked b s) s1 → (∀ s', one_buffer b x' s s' → Q tt s') → wp (unlock_buffer b) Q s1.
Proof.
  intros Hf [[] ? ? ? Eb] HQ.
  eapply (wp_unlock_buffer b (held s)); [rewrite Eb; apply lookup_insert_is_Some; by left|done|by apply free_unlocked|].
  apply HQ. by split; [split|..].
Qed.

(** A change to fields of one buffer that nothing else depends on. *)
Lemma inv_one_field g N s b x x' s1 :
  inv g N s → buffers s !! b = Some x → one_buffer b x' s s1 → g_bld g = None →
  b_ref x' = b_ref x ∧ b_handle_count x' = b_handle_count x ∧ b_kmap_cnt x' = b_kmap_cnt x ∧ b_heap x' = b_heap x ∧
  b_flags x' = b_flags x ∧ b_vmas x' = b_vmas x ∧ b_size x' = b_size x ∧ b_pages x' = b_pages x → inv g N s1.
Proof.
  intros Hs Hx [[] ? ? Em Eb] Hb (? & ? & ? & ? & ? & ? & ? & ?).
  eapply inv_same; [eapply (inv_field g N s b x x'); try done|..]; try done.
  intros _. eapply pages_ok_same; [done..|]. eapply buffer_pages; [done..|]. by rewrite Hb.
Qed.

Lemma wp_begin_access N d y s (Q : Z → ion W → Prop) :
  ok N s → N + 1 < 2 ^ 31 → exported s !! d = Some y →
  (∀ r s', same s s' → (r ≠ 0 → ok (N + 1) s') → (r = 0 → ok (N + 1) (accessed d (d_access y + 1) s')) → Q r s') →
  wp (ion_dma_buf_begin_cpu_access d) Q s.
Proof.
  intros [Hs Hf] HN Hy HQ. pose proof (iv_bound _ _ _ Hs) as HN0. destruct (exported_buffer N s d y (conj Hs Hf) Hy) as [HD [x Hx]].
  destruct (inv_heap _ _ _ _ _ Hs Hx) as (hp & Hhp & _). destruct (buffer_counts _ _ _ _ _ Hs Hx HD) as (_ & _ & Hk).
  destruct (settled_inv _ _ _ idle_settled Hs) as (_ & Hc & _). pose proof (cn_dmabuf _ _ _ _ _ _ Hc d y Hy) as [_ Ha].
  unfold ion_dma_buf_begin_cpu_access, heap_of_buffer. wp_b. eapply wp_dmabuf_at; [done|].
  do 2 wp_b. eapply wp_buffer_at; [done|]. eapply wp_heap_at; [done|].
  destruct (has_map_kernel _) eqn:Emk; cbn [negb].
  2: { apply wp_ret, HQ; [done| |done]. intros _. split; [|done]. eapply inv_mono; [done|lia]. }
  wp_b. apply wp_locking; [by eexists|done|].
  wp_b. eapply (wp_buffer_kmap_get idle N); [by apply inv_held|done|done|done|cbn; congruence|].
  intros r s1 x' H1 Ex Hr. wp_b. eapply wp_unlocking; [done|done|]. intros s2 H2. apply wp_ret.
  assert (Hf2 : free s2) by (unfold free; by rewrite (sm_held _ _ (ob_same _ _ _ _ H2))).
  destruct r as [e|v]; apply HQ; try apply H2; try done; intros _.
  - split; [|done]. eapply inv_mono; [eapply (inv_one_field _ _ _ (d_priv y) x x'); [done..|]|lia].
    destruct (remapped_fields _ _ _ Ex) as (? & ? & ? & ? & ? & ? & ? & ?). repeat split; try done. by rewrite Z.add_0_r in *.
  - split; [|done]. eapply (inv_accessed N (N + 1) d y _ x x'); try done; [lia..| |lia].
    by replace (b_kmap_cnt x - d_access y + (d_access y + 1)) with (b_kmap_cnt x + 1) by lia.
Qed.

Lemma wp_end_access N d y s (Q : unit → ion W → Prop) :
  ok N s → exported s !! d = Some y → 1 <= d_access y →
  (∀ s', same s s' → ok N (accessed d (d_access y - 1) s') → Q tt s') →
  wp (ion_dma_buf_end_cpu_access d) Q s.
Proof.
  intros [Hs Hf] Hy Ha HQ. pose proof (iv_bound _ _ _ Hs) as HN0. destruct (exported_buffer N s d y (conj Hs Hf) Hy) as [HD [x Hx]].
  destruct (inv_heap _ _ _ _ _ Hs Hx) as (hp & Hhp & Hok). destruct (buffer_counts _ _ _ _ _ Hs Hx HD) as (_ & _ & Hk).
  destruct (settled_inv _ _ _ idle_settled Hs) as (_ & Hc & _).
  assert (Hk1 : d_access y <= b_kmap_cnt x).
  { destruct (cn_buffer _ _ _ _ _ _ Hc _ HD) as (z & Hz & _ & _ & _ & Hkz & _). simplify_eq. rewrite Hkz.
    pose proof (total_elem (access_of (d_priv y)) (exported s) d y (access_of_nonneg Hc _) Hy) as He.
    unfold access_of at 1 in He. rewrite Z.eqb_refl in He.
    pose proof (total_nonneg _ _ (mapped_of_nonneg (d_priv y) (handles s))). lia. }
  unfold ion_dma_buf_end_cpu_access. wp_b. eapply wp_dmabuf_at; [done|].
  wp_b. apply wp_locking; [by eexists|done|]. wp_b.
  eapply (wp_buffer_kmap_put _ x hp); [done|done|apply Hok|lia|].
  intros s1 x' H1 Ex. eapply wp_unlocking; [done|done|]. intros s2 H2. apply HQ; [apply H2|].
  split; [|unfold free; cbn; by rewrite (sm_held _ _ (ob_same _ _ _ _ H2))].
  eapply (inv_accessed N N d y _ x x'); try done; [lia..| |lia].
  by replace (b_kmap_cnt x - d_access y + (d_access y - 1)) with (b_kmap_cnt x - 1) by lia.
Qed.

(** ** Writing back and faulting in the pages of a buffer *)

(** [x] with other pages, all of them there. *)
Definition repaged (x x' : buffer) : Prop :=
  ∃ ps, x' = set_b_pages (Some ps) x ∧ length ps = pages_of (b_size x) ∧ Forall is_Some ps.

Lemma inv_repaged g N s b x x' s1 :
  inv g N s → buffers s !! b = Some x → one_buffer b x' s s1 → x' = x ∨ repaged x x' → inv g N s1.
Proof.
  intros Hs Hx [[] ? ? Em Eb] Hre. eapply inv_same; [eapply (inv_field g N s b x x'); try done|..]; try done.
  1-6: by destruct Hre as [->|(ps & -> & _)].
  destruct Hre as [->|(ps & -> & Hlen & Hall)]; [by eapply buffer_pages|]. intros _ _. by exists ps.
Qed.

Lemma one_buffer_trans b x1 x2 s s1 s2 : one_buffer b x1 s s1 → one_buffer b x2 s1 s2 → one_buffer b x2 s s2.
Proof.
  intros [S1 T1 L1 M1 B1] [S2 T2 L2 M2 B2]. split; [by etransitivity|congruence..|]. by rewrite B2, B1, insert_insert_eq.
Qed.
Lemma one_buffer_here b x s s1 : one_buffer b x s s1 → buffers s1 !! b = Some x.
Proof. intros [? ? ? ? E]. by rewrite E, lookup_insert_eq. Qed.

Lemma one_buffer_called {A} b x s (e : ksys A) :
  mem_of (KEv e (answer e s)) = 0 → buffers s !! b = Some x → one_buffer b x s (called e s).
Proof. intros He Hx. apply one_buffer_id; [by split|done|done| |done|done]. rewrite mem_called. lia. Qed.

(** Every page is written back if it was written to, and is clean then. *)
Definition cleaned (k n : nat) (ps ps' : list (option Z)) : Prop :=
  length ps' = length ps ∧ ∀ i, ps' !! i = if decide (k <= i < k + n)%nat then fmap ion_buffer_page_clean <$> ps !! i else ps !! i.

Lemma cleaned_all k n ps ps' : cleaned k n ps ps' → Forall is_Some ps → Forall is_Some ps'.
Proof.
  intros [_ Hl] Hall. apply Forall_lookup. intros i o. rewrite Hl. case_decide; [|by apply Forall_lookup].
  rewrite fmap_Some. intros (p & Hp & ->). destruct (Forall_lookup_1 _ _ _ _ Hall Hp) as [q ->]. by eexists.
Qed.

Lemma wp_sync_pages n k b x ps s (Q : unit → ion W → Prop) :
  buffers s !! b = Some x → b_pages x = Some ps → Forall is_Some ps → (k + n <= length ps)%nat →
  (∀ s' ps', cleaned k n ps ps' → one_buffer b (set_b_pages (Some ps') x) s s' → Q tt s') →
  wp (sync_pages n k b) Q s.
Proof.
  revert k x ps s Q. induction n as [|n IH]; intros k x ps s Q Hx Eps Hall Hlen HQ; cbn [sync_pages].
  - apply wp_ret, (HQ s ps); [split; [done|]; intros i; by rewrite decide_False by lia|].
    rewrite <- Eps. replace (set_b_pages (b_pages x) x) with x by by destruct x. by apply one_buffer_id.
  - wp_b. eapply wp_buffer_at; [done|]. rewrite Eps.
    destruct (lookup_lt_is_Some_2 ps k) as [o Ho]; [lia|]. destruct (Forall_lookup_1 _ _ _ _ Hall Ho) as [page Epage]. subst o.
    rewrite Ho. set (ps1 := <[k := Some (ion_buffer_page_clean page)]> ps).
    assert (Hstep : ∀ s1, one_buffer b x s s1 →
      wp (store_buffer b (set_b_pages (Some ps1) x) ;; sync_pages n (S k) b) Q s1).
    { intros s1 H1. wp_b. apply wp_modify. set (s2 := set_buffers _ _).
      assert (H2 : one_buffer b (set_b_pages (Some ps1) x) s s2).
      { eapply one_buffer_trans; [exact H1|]. by split. }
      eapply (IH (S k) (set_b_pages (Some ps1) x) ps1); [by eapply one_buffer_here|done|by apply Forall_insert|unfold ps1; rewrite length_insert; lia|].
      intros s3 ps' [Elen El] H3. apply (HQ s3 ps').
      - split; [by rewrite Elen; unfold ps1; rewrite length_insert|]. intros i. rewrite El. unfold ps1.
        destruct (decide (i = k)) as [->|].
        + rewrite decide_False, decide_True, list_lookup_insert_eq, Ho by lia. done.
        + rewrite list_lookup_insert_ne by done. by do 2 case_decide; try lia.
      - eapply one_buffer_trans; [exact H2|]. done. }
    wp_b. apply wp_when; intros _; [apply wp_call|]; apply Hstep; [by apply one_buffer_called|by apply one_buffer_id].
Qed.

Lemma wp_zap_all b x vs s s1 (Q : unit → ion W → Prop) :
  one_buffer b x s s1 → (∀ v, v ∈ vs → is_Some (vmas s !! v)) → (∀ s', one_buffer b x s s' → Q tt s') → wp (zap_all vs) Q s1.
Proof.
  revert s1. induction vs as [|v vs IH]; intros s1 H1 Hvs HQ; cbn [zap_all]; [by apply wp_ret, HQ|].
  destruct (Hvs v) as [w Hw]; [set_solver|]. wp_b. eapply (wp_vma_at v w); [by rewrite (sm_vmas _ _ (ob_same _ _ _ _ H1))|].
  wp_b. apply wp_call. apply IH; [|set_solver|done].
  eapply one_buffer_trans; [exact H1|]. apply one_buffer_called; [done|]. by eapply one_buffer_here.
Qed.

(** The pages of a buffer that is mapped page by page are all clean when a device gets it;
    of other buffers nothing changes. *)
Definition all_clean (x x' : buffer) : Prop :=
  ∃ ps ps', b_pages x = Some ps ∧ x' = set_b_pages (Some ps') x ∧ cleaned 0 (length ps) ps ps'.

Lemma one_buffer_locked b x' s s1 : one_buffer b x' s s1 → one_buffer b x' (locked b s) (set_held (LBuffer b :: held s1) s1).
Proof. intros [[] ? ? ? ?]. split; try done. split; try done. cbn. congruence. Qed.

Lemma wp_sync_for_device N b x s (Q : unit → ion W → Prop) :
  ok N s → b ∈ d_buffers s → buffers s !! b = Some x →
  (∀ s' x', ok N s' → one_buffer b x' s s' →
     (if ion_buffer_fault_user_mappings x then all_clean x x' else x' = x) → Q tt s') →
  wp (ion_buffer_sync_for_device b) Q s.
Proof.
  intros [Hs Hf] HD Hx HQ. destruct (settled_inv _ _ _ idle_settled Hs) as (_ & _ & Har).
  unfold ion_buffer_sync_for_device. wp_b. eapply wp_buffer_at; [done|]. destruct (ion_buffer_fault_user_mappings x) eqn:Ef; cbn [negb].
  2: { apply wp_ret, (HQ s x); [done|by apply one_buffer_id|done]. }
  destruct (buffer_pages _ _ _ _ _ Hs Hx) as (ps & Eps & Hlen & Hall); [done|done|].
  wp_b. apply wp_locking; [by eexists|done|]. wp_b.
  eapply (wp_sync_pages _ 0 b x ps); [done|done|done|by rewrite Hlen|]. intros s1 ps' Hcl H1.
  wp_b. eapply wp_buffer_at; [by eapply one_buffer_here|]. cbn [b_vmas set_b_pages].
  wp_b. eapply wp_zap_all; [exact H1| |].
  { intros v Hv. destruct (ar_list _ _ _ _ Har b x HD Hx) as [_ Hl]. destruct (Hl v Hv) as (w & Hw & _). by exists w. }
  intros s2 H2. eapply wp_unlocking; [done|done|]. intros s3 H3.
  assert (Hs3 : ok N s3).
  { split; [|unfold free; by rewrite (sm_held _ _ (ob_same _ _ _ _ H3))].
    eapply inv_repaged; [exact Hs|done|exact H3|]. right. exists ps'. split; [done|]. split; [by destruct Hcl; congruence|by eapply cleaned_all]. }
  eapply HQ; [done|done|]. exists ps, ps'. split; [done|]. split; [done|]. by rewrite Hlen.
Qed.

Lemma wp_map_dma_buf N d y s (Q : list sg → ion W → Prop) :
  ok N s → exported s !! d = Some y → (∀ r s', ok N s' → same s s' → Q r s') → wp (ion_map_dma_buf d) Q s.
Proof.
  intros Hok Hy HQ. destruct (exported_buffer _ _ _ _ Hok Hy) as [HD [x Hx]].
  unfold ion_map_dma_buf. wp_b. eapply wp_dmabuf_at; [done|]. wp_b. eapply wp_sync_for_device; [done|done|done|].
  intros s1 x1 Hok1 H1 _. wp_b. eapply wp_buffer_at; [by eapply one_buffer_here|]. apply wp_ret, HQ; [done|apply H1].
Qed.

(** ** Areas of user space *)

(** No buffer lists the area. *)
Definition unlisted (v : Z) s : Prop := ∀ b x, b ∈ d_buffers s → buffers s !! b = Some x → v ∉ b_vmas x.
Lemma unlisted_private N s v : ok N s → (∀ w, vmas s !! v = Some w → v_private w = None) → unlisted v s.
Proof.
  intros [Hs _] Hv b x HD Hx Hin. destruct (settled_inv _ _ _ idle_settled Hs) as (_ & _ & Har).
  destruct (ar_list _ _ _ _ Har b x HD Hx) as [_ Hl]. destruct (Hl v Hin) as (w & Hw & E). by rewrite (Hv w Hw) in E.
Qed.

(** What the driver may have set in an area. *)
Definition area_ok s (w : vma) : Prop := ∀ b, v_private w = Some b →
  b ∈ d_buffers s ∧ (∃ y, exported s !! v_file w = Some y ∧ d_priv y = b) ∧
  ∃ x, buffers s !! b = Some x ∧ ion_buffer_fault_user_mappings x = true.

Lemma inv_vmas N s vs : ok N s → areas (buffers s) (d_buffers s) (exported s) vs → ok N (set_vmas vs s).
Proof. intros [[] Hf] Ha. split; [|done]. split; try assumption. Qed.

Lemma ok_vma_set N s v w : ok N s → unlisted v s → area_ok s w → ok N (set_vmas (<[v := w]> (vmas s)) s).
Proof.
  intros Hok Hv Hw. destruct (settled_inv _ _ _ idle_settled (proj1 Hok)) as (_ & _ & [Av Al]).
  apply inv_vmas; [done|]. split.
  - intros u z b. rewrite lookup_insert_Some. intros [[<- <-]|[? Hu]] Hz; [by apply Hw|by eapply Av].
  - intros b x HD Hx. destruct (Al b x HD Hx) as [? Hl]. split; [done|]. intros u Hu.
    rewrite lookup_insert_ne; [by apply Hl|]. intros <-. by apply (Hv b x).
Qed.
Lemma ok_vma_delete N s v : ok N s → unlisted v s → ok N (set_vmas (delete v (vmas s)) s).
Proof.
  intros Hok Hv. destruct (settled_inv _ _ _ idle_settled (proj1 Hok)) as (_ & _ & [Av Al]).
  apply inv_vmas; [done|]. split.
  - intros u z b [_ Hu]%lookup_delete_Some. by eapply Av.
  - intros b x HD Hx. destruct (Al b x HD Hx) as [? Hl]. split; [done|]. intros u Hu.
    rewrite lookup_delete_ne; [by apply Hl|]. intros <-. by apply (Hv b x).
Qed.

(** A buffer lists other areas. *)
Lemma ok_list N b x l s s1 :
  ok N s → b ∈ d_buffers s → buffers s !! b = Some x → one_buffer b (set_b_vmas l x) s s1 →
  NoDup l → (∀ v, v ∈ l → ∃ w, vmas s !! v = Some w ∧ v_private w = Some b) → ok N s1.
Proof.
  intros [Hs Hf] HD Hx H1 Hnd Hl. destruct (settled_inv _ _ _ idle_settled Hs) as (_ & _ & [Av Al]).
  pose proof (iv_lists _ _ _ Hs) as Hls. pose proof (iv_forms _ _ _ Hs) as Hfo.
  pose proof H1 as [[E1 E2 E3 E4 E5 E6 E7 E8 E9] Et El Em Eb]. split; [|unfold free; congruence].
  destruct Hs as [Ht Hc Hz _ _ Hh Ha Hcl Hm HN].
  split; unfold live_handles, live_dmabufs in *; cbn [idle g_phantom g_leaving without g_loose g_pins g_dying] in *;
    rewrite ?E1, ?E2, ?E3, ?E4, ?E5, ?E7, ?E8, ?Et, ?El, ?Em, ?Eb; try done.
  - by eapply counts_field.
  - eapply lists_field; [done|done|by left].
  - intros c z. rewrite lookup_insert_Some. intros [[<- <-]|[? Hz0]]; [|by apply Hfo]. destruct (Hfo b x Hx) as [Hhp Hp].
    split; [done|]. intros Hb. eapply pages_ok_same; [..|by apply Hp]; done.
  - split.
    + intros v w c Hv Hw. destruct (Av v w c Hv Hw) as (? & ? & z & Hz' & Hfault). split; [done|]. split; [done|].
      destruct (decide (b = c)) as [<-|]; [|exists z; by rewrite lookup_insert_ne].
      eexists. split; [apply lookup_insert_eq|]. simplify_eq. done.
    + intros c z HcD. rewrite lookup_insert_Some. intros [[<- <-]|[? Hz']]; [done|by apply Al].
  - by rewrite map_size_insert_Some by (by eexists).
Qed.

(** An area is faulted in: a page of the buffer is dirty from then on. *)
Lemma lor_one_nonzero p : Z.lor p 1 <> 0.
Proof. intros E0. pose proof (f_equal (λ z, Z.testbit z 0) E0) as E. cbn beta in E. rewrite Z.lor_spec in E. by destruct (Z.testbit p 0). Qed.

Lemma wp_vm_fault N v w b x pgoff address s (Q : Z → ion W → Prop) :
  ok N s → vmas s !! v = Some w → v_private w = Some b → buffers s !! b = Some x →
  0 <= pgoff < Z.of_nat (pages_of (b_size x)) → (∀ r s', ok N s' → same s s' → Q r s') →
  wp (ion_vm_fault v pgoff address) Q s.
Proof.
  intros [Hs Hf] Hv Hw Hx Hpg HQ. destruct (settled_inv _ _ _ idle_settled Hs) as (_ & _ & Har).
  destruct (ar_vma _ _ _ _ Har v w b Hv Hw) as (HD & _ & x2 & Hx2 & Ef). simplify_eq.
  destruct (buffer_pages _ _ _ _ _ Hs Hx) as (ps & Eps & Hlen & Hall); [done|done|].
  unfold ion_vm_fault. wp_b. eapply wp_vma_at; [done|]. rewrite Hw.
  wp_b. apply wp_locking; [by eexists|done|]. wp_b. eapply wp_buffer_at; [done|]. rewrite Eps.
  wp_b. apply wp_require; [apply Z.leb_le; lia|].
  destruct (lookup_lt_is_Some_2 ps (Z.to_nat pgoff)) as [o Ho]; [lia|]. destruct (Forall_lookup_1 _ _ _ _ Hall Ho) as [page Epage]. subst o.
  rewrite Ho. set (ps1 := <[_ := _]> ps). wp_b. apply wp_modify. set (s1 := set_buffers _ _).
  wp_b. unfold ion_buffer_page_dirty. rewrite (proj2 (Z.eqb_neq _ _)) by apply lor_one_nonzero. apply wp_ret.
  wp_b. apply wp_call. wp_b.
  assert (H1 : one_buffer b (set_b_pages (Some ps1) x) (locked b s) s1) by (by split).
  eapply wp_unlocking; [done| |].
  { eapply one_buffer_trans; [exact H1|]. apply one_buffer_called; [done|]. by eapply one_buffer_here. }
  intros s2 H2. apply wp_ret, HQ; [|apply H2]. split; [|unfold free; by rewrite (sm_held _ _ (ob_same _ _ _ _ H2))].
  eapply inv_repaged; [exact Hs|done|exact H2|]. right. exists ps1. split; [done|].
  unfold ps1. rewrite length_insert. split; [done|]. by apply Forall_insert.
Qed.

Lemma wp_vm_open N v w b x s (Q : unit → ion W → Prop) :
  ok N s → vmas s !! v = Some w → v_private w = Some b → unlisted v s → b ∈ d_buffers s → buffers s !! b = Some x →
  (∀ s', ok N s' → same s s' → Q tt s') → wp (ion_vm_open v) Q s.
Proof.
  intros Hok Hv Hw Hun HD Hx HQ. pose proof Hok as [Hs Hf].
  destruct (settled_inv _ _ _ idle_settled Hs) as (_ & _ & [_ Al]). destruct (Al b x HD Hx) as [Hnd Hl].
  unfold ion_vm_open. wp_b. eapply wp_vma_at; [done|]. rewrite Hw. wp_b. eapply wp_buffer_at; [done|].
  wp_b. apply wp_call. set (s1 := called _ s). assert (Hok1 : ok N s1) by (split; [by apply inv_called|done]).
  destruct (answer _ _); cbn [negb]; [|apply wp_ret, HQ; [done|by split]].
  wp_b. apply wp_locking; [by eexists|done|]. wp_b. eapply wp_mod_buffer; [done|]. set (s2 := set_buffers _ _).
  eapply (wp_unlocking b (set_b_vmas (v :: b_vmas x) x) s1); [done|by split|]. intros s3 H3. apply HQ.
  - eapply ok_list; [exact Hok1|done|done|exact H3| |].
    + apply NoDup_cons_2; [by apply (Hun b x)|done].
    + intros u [->|Hu]%elem_of_cons; [by exists w|by apply Hl].
  - pose proof (ob_same _ _ _ _ H3) as [E1 E2 E3 E4 E5 E6 E7 E8 E9]. by split.
Qed.

Lemma list_del_elem v l : NoDup l → NoDup (list_del v l) ∧ ∀ u, u ∈ list_del v l ↔ u ∈ l ∧ u ≠ v.
Proof.
  induction l as [|a l IH]; intros Hnd; cbn [list_del]; [split; [done|]; set_solver|].
  apply NoDup_cons in Hnd as [Ha Hnd]. destruct (IH Hnd) as [IH1 IH2]. destruct (Z.eqb_spec a v) as [->|Hne].
  - split; [done|]. intros u. set_solver.
  - split; [apply NoDup_cons; split; [rewrite IH2; tauto|done]|]. intros u. rewrite !elem_of_cons, IH2. set_solver.
Qed.

Lemma wp_vm_close N v w b x s (Q : unit → ion W → Prop) :
  ok N s → vmas s !! v = Some w → v_private w = Some b → b ∈ d_buffers s → buffers s !! b = Some x →
  (∀ s', ok N s' → same s s' → d_buffers s' = d_buffers s → unlisted v s' → Q tt s') → wp (ion_vm_close v) Q s.
Proof.
  intros Hok Hv Hw HD Hx HQ. pose proof Hok as [Hs Hf].
  destruct (settled_inv _ _ _ idle_settled Hs) as (_ & _ & [_ Al]). destruct (Al b x HD Hx) as [Hnd Hl].
  destruct (list_del_elem v _ Hnd) as [Hnd' Hel].
  unfold ion_vm_close. wp_b. eapply wp_vma_at; [done|]. rewrite Hw.
  wp_b. apply wp_locking; [by eexists|done|]. wp_b. eapply wp_mod_buffer; [done|].
  eapply (wp_unlocking b (set_b_vmas (list_del v (b_vmas x)) x) s); [done|by split|]. intros s3 H3. apply HQ.
  - eapply ok_list; [exact Hok|done|done|exact H3|done|]. intros u [Hu _]%Hel. by apply Hl.
  - apply H3.
  - apply H3.
  - intros c z HcD Hz Hin. rewrite (ob_buffers _ _ _ _ H3), lookup_insert_Some in Hz. rewrite (ob_tree _ _ _ _ H3) in HcD.
    destruct Hz as [[<- <-]|[Hne Hz]]; [by apply Hel in Hin as [_ ?]|].
    destruct (Al c z HcD Hz) as [_ Hl']. destruct (Hl' v Hin) as (w' & Hw' & E'). congruence.
Qed.

Lemma same_free s s' : same s s' → free s → free s'.
Proof. intros [] Hf. unfold free. congruence. Qed.

(** [mmap] of a new area: it is mapped page by page, or by the heap. *)
Lemma wp_ion_mmap N d y v w s (Q : Z → ion W → Prop) :
  ok N s → exported s !! d = Some y → vmas s !! v = Some w → v_private w = None → v_file w = d →
  (∀ r s', ok N s' → (∃ w', vmas s' = <[v := w']> (vmas s) ∧ v_file w' = d ∧ (r ≠ 0 → v_private w' = None)) →
     handles s' = handles s → clients s' = clients s → heaps s' = heaps s → exported s' = exported s → d_heaps s' = d_heaps s →
     d_custom s' = d_custom s → Q r s') →
  wp (ion_mmap d v) Q s.
Proof.
  intros Hok Hy Hv Hw Efile HQ. pose proof Hok as [Hs Hf]. destruct (exported_buffer _ _ _ _ Hok Hy) as [HD [x Hx]].
  destruct (inv_heap _ _ _ _ _ Hs Hx) as (hp & Hhp & _).
  assert (Hun : unlisted v s) by (apply (unlisted_private N); [done|]; intros; congruence).
  unfold ion_mmap. wp_b. eapply wp_dmabuf_at; [done|]. wp_b. eapply wp_buffer_at; [done|]. wp_b. eapply wp_heap_at; [done|].
  destruct (has_map_user _); cbn [negb].
  2: { apply wp_ret, HQ; try done. exists w. by rewrite insert_id. }
  wp_b. eapply wp_vma_at; [done|]. destruct (ion_buffer_fault_user_mappings x) eqn:Ef.
  - wp_b. apply wp_modify. set (w1 := mk_vma _ _ _). wp_b.
    eapply (wp_vm_open N v w1 (d_priv y) x); [|apply lookup_insert_eq|done|done|done|done|].
    + apply ok_vma_set; [done|done|]. intros b [= <-]. split; [done|]. split; [exists y; by rewrite <- Efile in Hy|by exists x].
    + intros s' Hok' [E1 E2 E3 E4 E5 E6 E7 E8 E9]. apply wp_ret, HQ; try done. exists w1. by rewrite E8.
  - assert (Hrest : ∀ w1, v_private w1 = None → v_file w1 = d →
      wp (lock_buffer (d_priv y) ;; ret ← Ion.call (KMapUser (b_heap x) (d_priv y) v); unlock_buffer (d_priv y) ;; mret ret) Q
        (set_vmas (<[v := w1]> (vmas s)) s)).
    { intros w1 E1 E2. set (s1 := set_vmas _ s).
      assert (Hok1 : ok N s1) by (apply ok_vma_set; [done|done|]; intros b; congruence).
      wp_b. apply wp_locking; [by eexists|done|]. wp_b. apply wp_call. wp_b.
      eapply (wp_unlocking (d_priv y) x s1); [done|by apply one_buffer_called|]. intros s2 H2.
      pose proof (ob_same _ _ _ _ H2) as [F1 F2 F3 F4 F5 F6 F7 F8 F9]. apply wp_ret, HQ; try done.
      - split; [|unfold free; by rewrite F9]. eapply inv_repaged; [apply Hok1|done|exact H2|by left].
      - exists w1. by rewrite F8. }
    wp_b. apply wp_when; intros _; [apply wp_modify; by apply Hrest|].
    replace s with (set_vmas (<[v := w]> (vmas s)) s) by (rewrite insert_id by done; by destruct s). by apply Hrest.
Qed.

(** ** The device *)

Lemma elem_of_plist_add prio h l k : k ∈ plist_add prio h l ↔ k = h ∨ k ∈ l.
Proof.
  induction l as [|a l IH]; cbn [plist_add]; [set_solver|]. destruct (_ <=? _); [|set_solver]. rewrite !elem_of_cons, IH. tauto.
Qed.

Lemma wp_add_heap N h hp s (Q : unit → ion W → Prop) :
  ok N s → heaps s !! h = Some hp →
  (∀ s', ok N s' → d_heaps s' = plist_add (heap_prio s) h (d_heaps s) → heaps s' = heaps s → handles s' = handles s →
     clients s' = clients s → exported s' = exported s → vmas s' = vmas s → Q tt s') →
  wp (ion_device_add_heap h) Q s.
Proof.
  intros [Hs Hf] Hhp HQ.
  assert (Hrest : ∀ s1, ok N s1 → same s s1 →
    wp (mutex_lock LDevice ;; modify (λ s, set_d_heaps (plist_add (heap_prio s) h (d_heaps s)) s) ;; mutex_unlock LDevice) Q s1).
  { intros s1 [Hs1 Hf1] [E1 E2 E3 E4 E5 E6 E7 E8 E9]. wp_b. apply wp_mutex_lock; [by rewrite Hf1; set_solver|].
    wp_b. apply wp_modify. eapply (wp_mutex_unlock _ (held s1)); [done|by rewrite Hf1; set_solver|].
    apply HQ; try done; [|by cbn; unfold heap_prio; cbn; rewrite E3, E5].
    split; [|done]. destruct Hs1 as [Ht Hc Hz Hl Hfo [Hh1 Hh2] Ha Hcl Hm HN]. split; try assumption.
    split; [done|]. intros k Hk. cbn in Hk. apply elem_of_plist_add in Hk as [->|Hk]; [cbn; rewrite E3; by eexists|by apply Hh2]. }
  unfold ion_device_add_heap. wp_b. eapply wp_heap_at; [done|]. wp_b. apply wp_when; intros _.
  - apply wp_call. apply Hrest; [split; [by apply inv_called|done]|by split].
  - by apply Hrest.
Qed.

Lemma wp_drain N h cached sz s (Q : unit → ion W → Prop) :
  ok N s → (∀ s', ok N s' → same s s' → Q tt s') → wp (ion_heap_freelist_drain h cached sz) Q s.
Proof.
  intros [Hs Hf] HQ. eapply wp_freelist_drain; [done|done|]. intros s' Hs' Hsm _ _. apply HQ; [|done].
  split; [done|]. by eapply same_free.
Qed.

(** ** The device node *)

Lemma wp_word data i w s (Q : Z → ion W → Prop) : data !! i = Some (Some w) → Q w s → wp (word data i) Q s.
Proof. intros E HQ. unfold word. rewrite E. by apply wp_ret. Qed.

(** The data a command brings: its words were all copied. *)
Definition has_words (n : nat) (data : ioctl_data) : Prop := ∀ i, (i < n)%nat → ∃ w, data !! i = Some (Some w).

Context (custom_ioctl : Z → Z → Z → M (ion W) Z).

(** What the board's own commands must keep to. *)
Definition custom_safe : Prop := ∀ N c n arg s, ok N s → is_Some (clients s !! c) → N + 2 < 2 ^ 31 →
  wp (custom_ioctl c n arg) (λ _ s', ok (N + 2) s' ∧ mild s s') s.

(** What the rest of [ion_ioctl] does with the outcome of the switch. *)
Definition next_ok (c : Z) (next : ioctl_next) s : Prop :=
  match next with Break _ _ (Some h) => ∃ y, handles s !! h = Some y ∧ h_client y = c | _ => True end.
Abbreviation post c N Q s := (∀ next s', ok (N + 2) s' → mild s s' → next_ok c next s' → Q next s').

Lemma wpu_do_alloc U N c data s (Q : ioctl_next → ion W → Prop) :
  ok N s → N + 2 < 2 ^ 31 → is_Some (clients s !! c) → has_words 4 data →
  (∀ len mask, data !! 0%nat = Some (Some len) → data !! 2%nat = Some (Some mask) → unanswered len mask s → U) →
  post c N Q s → wpu U (do_alloc c data) Q s.
Proof.
  intros [Hs Hf] HN Hc Hw Hserv HQ. pose proof (iv_bound _ _ _ Hs) as HN0.
  assert (Hmono : ∀ s', inv idle (N + 1) s' → calm s s' → ok (N + 2) s').
  { intros s' Hs' Hcalm. eapply (ok_mono (N + 1)); [by eapply ok_calm|lia]. }
  destruct (Hw 0%nat) as [w0 E0]; [lia|]. destruct (Hw 1%nat) as [w1 E1]; [lia|].
  destruct (Hw 2%nat) as [w2 E2]; [lia|]. destruct (Hw 3%nat) as [w3 E3]; [lia|].
  unfold do_alloc. do 4 (wp_b; eapply wp_word; [done|]).
  apply wpu_bind. eapply (wpu_ion_alloc U idle N); [done|apply idle_settled|lia|done|done|by apply Hserv|..].
  - intros e s' Hs' Hcalm. apply wp_wpu, wp_ret, HQ; [by apply Hmono|by apply calm_mild|done].
  - intros h s' y z Hs' Hcalm Hy Hcl _ _ _. wp_b. eapply wp_handle_at; [done|]. apply wp_wpu, wp_ret, HQ; [by apply Hmono|by apply calm_mild|].
    by exists y.
Qed.

Lemma wp_do_free N c data x s (Q : ioctl_next → ion W → Prop) :
  ok N s → N + 2 < 2 ^ 31 → clients s !! c = Some x → has_words 1 data → post c N Q s → wp (do_free c data) Q s.
Proof.
  intros Hok HN Hx Hw HQ. pose proof Hok as [Hs Hf]. pose proof (iv_bound _ _ _ Hs) as HN0.
  destruct (Hw 0%nat) as [w0 E0]; [lia|]. unfold do_free. wp_b. eapply wp_word; [done|].
  wp_b. eapply (wp_get_by_id idle N); [done|apply idle_settled|lia|done|by apply free_client|..].
  - intros _. apply wp_ret, HQ; [by apply (ok_mono N); [|lia]|done|done].
  - intros h y Hid Hy Hcl Hidy Href Hs1. set (y1 := set_h_ref (h_ref y + 1) y) in *. set (s1 := set_handles _ s) in *.
    assert (Hy1 : handles s1 !! h = Some y1) by apply lookup_insert_eq. assert (Hok1 : ok (N + 1) s1) by done.
    wp_b. rewrite <- Hcl. change (h_client y) with (h_client y1).
    eapply (wp_ion_free (N + 1) h y1); [done|done|..].
    + intros _ Hok2. cbn [y1 h_ref set_h_ref] in *. set (s2 := set_handles _ s1) in *. set (y2 := set_h_ref _ y1) in *.
      assert (Hy2 : handles s2 !! h = Some y2) by apply lookup_insert_eq.
      wp_b. eapply (wp_put (N + 1) h y2); [done|done|..].
      * intros _ Hok3. apply wp_ret, HQ; [by apply (ok_mono (N + 1)); [|lia]| |done]. by apply calm_mild.
      * intros z s3 _ Hok3 Hcalm _ _. apply wp_ret, HQ; [by apply (ok_mono (N + 1)); [|lia]| |done].
        etransitivity; [|by apply calm_mild]. by apply calm_mild.
    + intros z s2 E. cbn in E. lia.
Qed.

Lemma wp_do_share N c data x s (Q : ioctl_next → ion W → Prop) :
  ok N s → N + 2 < 2 ^ 31 → clients s !! c = Some x → has_words 1 data → post c N Q s → wp (do_share c data) Q s.
Proof.
  intros Hok HN Hx Hw HQ. pose proof Hok as [Hs Hf]. pose proof (iv_bound _ _ _ Hs) as HN0.
  destruct (Hw 0%nat) as [w0 E0]; [lia|]. unfold do_share. wp_b. eapply wp_word; [done|].
  wp_b. eapply (wp_get_by_id idle N); [done|apply idle_settled|lia|done|by apply free_client|..].
  - intros _. apply wp_ret, HQ; [by apply (ok_mono N); [|lia]|done|done].
  - intros h y Hid Hy Hcl Hidy Href Hs1. set (y1 := set_h_ref (h_ref y + 1) y) in *. set (s1 := set_handles _ s) in *.
    assert (Hy1 : handles s1 !! h = Some y1) by apply lookup_insert_eq. assert (Hok1 : ok (N + 1) s1) by done.
    wp_b. rewrite <- Hcl. change (h_client y) with (h_client y1).
    eapply (wp_share_fd (N + 1) h y1); [done|lia|done|]. intros fd s2 Hok2 Hm2 Eh2. rewrite <- Z.add_assoc in Hok2.
    assert (Hm : mild s s2) by (etransitivity; [|exact Hm2]; by apply calm_mild).
    wp_b. eapply (wp_put (N + 2) h y1); [done|by rewrite Eh2|..].
    + intros _ Hok3. apply wp_ret, HQ; [done| |done]. etransitivity; [exact Hm|]. by apply calm_mild.
    + intros z s3 E. cbn in E. lia.
Qed.

Lemma wp_do_import N c data x s (Q : ioctl_next → ion W → Prop) :
  ok N s → N + 2 < 2 ^ 31 → clients s !! c = Some x → has_words 2 data → post c N Q s → wp (do_import c data) Q s.
Proof.
  intros Hok HN Hx Hw HQ. pose proof (iv_bound _ _ _ (proj1 Hok)) as HN0.
  destruct (Hw 1%nat) as [w1 E1]; [lia|]. unfold do_import. wp_b. eapply wp_word; [done|].
  wp_b. eapply (wp_import N c _ x); [done|lia|done|..].
  - intros e s' Hok' Hcalm. apply wp_ret, HQ; [by apply (ok_mono (N + 1)); [|lia]|by apply calm_mild|done].
  - intros h s' y Hok' Hcalm Hy Hcl. wp_b. eapply wp_handle_at; [done|].
    apply wp_ret, HQ; [by apply (ok_mono (N + 1)); [|lia]|by apply calm_mild|done].
Qed.

Lemma wp_sync_case N c fd to_device data s (Q : ioctl_next → ion W → Prop) :
  ok N s → N + 2 < 2 ^ 31 → post c N Q s → wp (ret ← sync_fd fd to_device; mret (Break ret data None)) Q s.
Proof.
  intros Hok HN HQ. pose proof (iv_bound _ _ _ (proj1 Hok)) as HN0. wp_b. eapply wp_sync_fd; [done|]. intros r s' Hok' Hcalm.
  apply wp_ret, HQ; [by apply (ok_mono N); [|lia]|by apply calm_mild|done].
Qed.

Context `{!IonAbiOk} (Hcustom : custom_safe).

(** How many words the case of a command reads. *)
Definition words_of (cmd : Z) : nat := Z.to_nat (IOC_SIZE cmd / 4).

Lemma wpu_ioctl_switch U N c cmd data s (Q : ioctl_next → ion W → Prop) :
  ok N s → N + 2 < 2 ^ 31 → is_Some (clients s !! c) →
  (has_flag (ion_ioctl_dir cmd) IOC_WRITE = true → has_words (words_of cmd) data) →
  (∀ len mask, cmd = ION_IOC_ALLOC → data !! 0%nat = Some (Some len) → data !! 2%nat = Some (Some mask) → unanswered len mask s → U) →
  post c N Q s → wpu U (ioctl_switch custom_ioctl c cmd data) Q s.
Proof.
  intros Hok HN Hc Hw Hserv HQ. pose proof (iv_bound _ _ _ (proj1 Hok)) as HN0. pose proof Hc as [x Hx].
  assert (Hsome : ∀ size n, command_ok cmd size → (n <=? Z.to_nat (size / 4))%nat = true → has_words n data).
  { intros size n [<- Hdir] Hn i Hi. apply Nat.leb_le in Hn. apply Hw; [|unfold words_of; lia]. unfold ion_ioctl_dir. destruct (_ || _); [done|]. by rewrite Hdir. }
  unfold ioctl_switch.
  destruct (Z.eqb_spec cmd ION_IOC_ALLOC) as [->|_].
  { eapply wpu_do_alloc; [done|done|done| |by intros; eapply Hserv|done]. by apply (Hsome _ _ abi_alloc). }
  apply wp_wpu. destruct (Z.eqb_spec cmd ION_IOC_FREE) as [->|_].
  { eapply wp_do_free; [done|done|done| |done]. by apply (Hsome _ _ abi_free). }
  destruct ((cmd =? ION_IOC_SHARE) || (cmd =? ION_IOC_MAP)) eqn:E.
  { eapply wp_do_share; [done|done|done| |done].
    destruct (Z.eqb_spec cmd ION_IOC_SHARE) as [->|_]; [by apply (Hsome _ 1%nat abi_share)|].
    apply Z.eqb_eq in E as ->. by apply (Hsome _ 1%nat abi_map). }
  destruct (Z.eqb_spec cmd ION_IOC_IMPORT) as [->|_].
  { eapply wp_do_import; [done|done|done| |done]. by apply (Hsome _ _ abi_import). }
  destruct (Z.eqb_spec cmd ION_IOC_INVALIDATE) as [->|_].
  { destruct (Hsome _ 2%nat abi_invalidate eq_refl 1%nat) as [w1 E1]; [lia|]. wp_b. eapply wp_word; [done|]. by eapply wp_sync_case. }
  destruct (Z.eqb_spec cmd ION_IOC_SYNC) as [->|_].
  { destruct (Hsome _ 2%nat abi_sync eq_refl 1%nat) as [w1 E1]; [lia|]. wp_b. eapply wp_word; [done|]. by eapply wp_sync_case. }
  assert (Hsame : ok (N + 2) s) by (by apply (ok_mono N); [|lia]).
  destruct (Z.eqb_spec cmd ION_IOC_CUSTOM) as [->|_]; [|by apply wp_ret, HQ].
  wp_b. apply wp_get. destruct (negb _); [by apply wp_ret, HQ|].
  destruct (Hsome _ 2%nat abi_custom eq_refl 0%nat) as [w0 E0]; [lia|]. destruct (Hsome _ 2%nat abi_custom eq_refl 1%nat) as [w1 E1]; [lia|].
  do 2 (wp_b; eapply wp_word; [done|]). wp_b. wp_use (Hcustom N); [done..|]. intros r s' [Hok' Hm]. by apply wp_ret, HQ.
Qed.

(** User space asks for an allocation that no heap answers to. *)
Definition ioctl_unanswered (cmd arg : Z) s : Prop := ∃ ws len mask,
  cmd = ION_IOC_ALLOC ∧ answer (KCopyFrom arg (IOC_SIZE cmd)) s = Some ws ∧
  ws !! 0%nat = Some len ∧ ws !! 2%nat = Some mask ∧ unanswered len mask s.

Lemma data_lookup (ws : list Z) i w :
  take data_words ((Some <$> ws) ++ replicate data_words None) !! i = Some (Some w) → ws !! i = Some w.
Proof.
  rewrite lookup_take_Some, lookup_app_Some, list_lookup_fmap, fmap_Some. intros [[(v & ? & [= ->])|[_ Hr]] _]; [done|].
  by apply lookup_replicate in Hr as [? _].
Qed.
Lemma data_has_words (ws : list Z) n : (n <= length ws)%nat → (n <= data_words)%nat →
  has_words n (take data_words ((Some <$> ws) ++ replicate data_words None)).
Proof.
  intros H1 H2 i Hi. destruct (lookup_lt_is_Some_2 ws i) as [w Hw]; [lia|]. exists w.
  change (take data_words ((Some <$> ws) ++ replicate data_words None) !! i = Some (Some w) :> option (option Z)).
  rewrite lookup_take_lt by lia. rewrite lookup_app_l by (rewrite length_fmap; lia). by rewrite list_lookup_fmap, Hw.
Qed.

Lemma wpu_ion_ioctl U N c cmd arg s (Q : Z → ion W → Prop) :
  ok N s → N + 2 < 2 ^ 31 → is_Some (clients s !! c) → (ioctl_unanswered cmd arg s → U) →
  (∀ r s', ok (N + 2) s' → mild s s' → Q r s') → wpu U (ion_ioctl custom_ioctl c cmd arg) Q s.
Proof.
  intros Hok HN Hc Hserv HQ. pose proof (iv_bound _ _ _ (proj1 Hok)) as HN0. pose proof Hc as [x Hx].
  unfold ion_ioctl. wp_b. eapply wp_client_at; [done|].
  destruct (Z.ltb_spec (4 * Z.of_nat data_words) (IOC_SIZE cmd)) as [|Hsize].
  { apply wp_wpu, wp_ret, HQ; [by apply (ok_mono N); [|lia]|done]. }
  assert (Hmain : ∀ ws s1, ok N s1 → calm s s1 →
    (has_flag (ion_ioctl_dir cmd) IOC_WRITE = true → answer (KCopyFrom arg (IOC_SIZE cmd)) s = Some ws) →
    (has_flag (ion_ioctl_dir cmd) IOC_WRITE = false → ws = []) →
    wpu U (next ← ioctl_switch custom_ioctl c cmd (take data_words ((Some <$> ws) ++ replicate data_words None));
        match next with
        | Return ret => mret ret
        | Break ret data cleanup_handle =>
            if has_flag (ion_ioctl_dir cmd) IOC_READ then
              failed ← Ion.call (KCopyTo arg (take (Z.to_nat (IOC_SIZE cmd / 4)) data));
              if failed : bool then
                match cleanup_handle with Some h => ion_free c h | None => mret tt end ;; mret (- EFAULT)
              else mret ret
            else mret ret
        end) Q s1).
  { intros ws s1 Hok1 Hcalm Hws Hws0. assert (Hm1 : mild s s1) by by apply calm_mild.
    apply wpu_bind. eapply (wpu_ioctl_switch U N); [done|done|by apply (cm_clients _ _ Hcalm)|..].
    - intros Hw. apply data_has_words.
      + pose proof (copy_words arg (IOC_SIZE cmd) (world s) ws (Hws Hw)) as Hlen. by unfold words_of; rewrite Hlen.
      + unfold words_of. apply Z.div_le_mono with (c := 4) in Hsize; [|lia]. change (4 * Z.of_nat data_words / 4) with 5 in Hsize. unfold data_words. lia.
    - intros len mask -> E0 E2 Hun. apply data_lookup in E0, E2. apply Hserv. exists ws, len, mask.
      split_and!; [done|apply Hws|done|done|by eapply unanswered_calm].
      unfold ion_ioctl_dir. destruct (_ || _); [done|]. by rewrite (proj2 abi_alloc).
    - intros next s2 Hok2 Hm2 Hnext. assert (Hm : mild s s2) by by etransitivity. apply wp_wpu.
      destruct next as [ret|ret data cleanup]; [by apply wp_ret, HQ|].
      destruct (has_flag _ IOC_READ); [|by apply wp_ret, HQ].
      wp_b. apply wp_call. set (s3 := called _ s2).
      assert (Hok3 : ok (N + 2) s3) by (destruct Hok2; split; [by apply inv_called|done]).
      assert (Hm3 : mild s s3) by (destruct Hm; by split).
      destruct (answer (KCopyTo _ _) s2); [|by apply wp_ret, HQ].
      destruct cleanup as [h|]; [|wp_b; apply wp_ret; by apply wp_ret, HQ].
      destruct Hnext as (y & Hy & Hcl). wp_b. rewrite <- Hcl. eapply (wp_ion_free (N + 2) h y); [done|done|..].
      + intros _ Hok4. apply wp_ret, HQ; [done|]. etransitivity; [exact Hm3|]. by apply calm_mild.
      + intros z s4 _ Hok4 Hcalm4 _ _. apply wp_ret, HQ; [done|]. etransitivity; [exact Hm3|]. by apply calm_mild. }
  destruct (has_flag (ion_ioctl_dir cmd) IOC_WRITE) eqn:Ew.
  - wp_b. apply wp_call. set (s1 := called _ s). destruct Hok as [Hs Hf].
    assert (Hok1 : ok N s1) by (split; [by apply inv_called|done]).
    destruct (answer _ _) as [ws|] eqn:Ea; [by apply Hmain|]. apply wp_wpu, wp_ret, HQ; [by apply (ok_mono N); [|lia]|done].
  - wp_b. apply wp_ret. by apply Hmain.
Qed.

Lemma wp_ion_open N s (Q : err Z → ion W → Prop) :
  ok N s → (∀ e s', ok N s' → calm s s' → Q (inl e) s') →
  (∀ c s' x, ok N s' → clients s !! c = None → clients s' = <[c := x]> (clients s) → c_handles x = ∅ →
     exported s' = exported s → vmas s' = vmas s → handles s' = handles s → heaps s' = heaps s → Q (inr c) s') →
  wp ion_open Q s.
Proof. apply wp_ion_client_create. Qed.

End rules.
