(* ===== verification/IonSpec.v ===== *)
(** * ION: any sequence of calls, and what it leaves

    The calls of user space, of the dma-buf core, of the memory manager and of other
    drivers are the constructors of [icall], and [reached] says which states they lead to
    from the start of the driver on.  A call is [ienabled] when its caller may make it: it
    names a client, a dma-buf or an area that exists, and ends what was begun.  [exposed]
    calls are those the driver may not survive: user space can ask for a heap that there is
    not, and fault behind the end of a buffer.  What the kernel around the driver does with its own objects
    before and after a call, a new area or a dma-buf that is freed, is part of the call. *)

From S2P Require Import Prelude CMonad Ion IonInv IonSafe IonCalls IonDevice.

Section calls.
Context {W : Type} `{!Kernel W, !IonAbi}.
Context (custom_ioctl : Z → Z → Z → M (ion W) Z).
Implicit Types s : ion W.

Inductive icall : Type :=
  | IOpen | IRelease (c : Z) | IIoctl (c cmd arg : Z)
  | IMmap (d v : Z) | IDup (v v' : Z) | IUnmap (v : Z) | IFault (v pgoff address : Z)
  | IDmaRelease (d : Z) | IBegin (d : Z) | IEnd (d : Z) | IAttach (d : Z)
  | ICreate (name : string) | IDestroy (c : Z)
  | IAlloc (c len align mask flags : Z) | IFree (c h : Z) | IPhys (c h : Z) | ITable (c h : Z)
  | IMapKernel (c h : Z) | IUnmapKernel (c h : Z) | IMapIommu (c h domain : Z) | IUnmapIommu (c h domain : Z)
  | IShare (c h : Z) | IImport (c fd : Z)
  | IDrain (h cached size : Z) | IHeapShow (h : Z) | IClientShow (c : Z) | IAddHeap (h : Z) (hp : heap).

(** The memory manager makes areas and copies them, and frees them. *)
Definition sys_mmap (d v : Z) : M (ion W) Z :=
  store_vma v (mk_vma d None false) ;;
  ret ← ion_mmap d v;
  when_ (truthy ret) (modify (λ s, set_vmas (delete v (vmas s)) s)) ;;
  mret ret.
Definition sys_dup (v v' : Z) : M (ion W) unit :=
  w ← vma_at v;
  store_vma v' w ;;
  match v_private w with Some _ => ion_vm_open v' | None => mret tt end.
Definition sys_unmap (v : Z) : M (ion W) unit :=
  w ← vma_at v;
  match v_private w with Some _ => ion_vm_close v | None => mret tt end ;;
  modify (λ s, set_vmas (delete v (vmas s)) s).

(** The dma-buf core frees a dma-buf, and its users count the times they have access. *)
Definition sys_dma_release (d : Z) : M (ion W) unit :=
  ion_dma_buf_release d ;; modify (λ s, set_exported (delete d (exported s)) s).
Definition add_access (d n : Z) s : ion W :=
  set_exported (alter (λ y, mk_dmabuf (d_priv y) (d_size y) (d_access y + n)) d (exported s)) s.
Definition sys_begin (d : Z) : M (ion W) Z :=
  ret ← ion_dma_buf_begin_cpu_access d;
  when_ (ret =? 0) (modify (add_access d 1)) ;;
  mret ret.
Definition sys_end (d : Z) : M (ion W) unit := ion_dma_buf_end_cpu_access d ;; modify (add_access d (-1)).

(** The board describes a heap, and adds it to the device. *)
Definition sys_add_heap (h : Z) (hp : heap) : M (ion W) unit :=
  modify (λ s, set_heaps (<[h := hp]> (heaps s)) s) ;; ion_device_add_heap h.

Definition ignore {A} (m : M (ion W) A) : M (ion W) unit := m ;; mret tt.

Definition run_icall (e : icall) : M (ion W) unit :=
  match e with
  | IOpen => ignore ion_open
  | IRelease c => ignore (ion_release c)
  | IIoctl c cmd arg => ignore (ion_ioctl custom_ioctl c cmd arg)
  | IMmap d v => ignore (sys_mmap d v)
  | IDup v v' => sys_dup v v'
  | IUnmap v => sys_unmap v
  | IFault v pgoff address => ignore (ion_vm_fault v pgoff address)
  | IDmaRelease d => sys_dma_release d
  | IBegin d => ignore (sys_begin d)
  | IEnd d => sys_end d
  | IAttach d => ignore (ion_map_dma_buf d)
  | ICreate name => ignore (ion_client_create name)
  | IDestroy c => ion_client_destroy c
  | IAlloc c len align mask flags => ignore (ion_alloc c len align mask flags)
  | IFree c h => ion_free c h
  | IPhys c h => ignore (ion_phys c h)
  | ITable c h => ignore (ion_sg_table c h)
  | IMapKernel c h => ignore (ion_map_kernel c h)
  | IUnmapKernel c h => ion_unmap_kernel c h
  | IMapIommu c h domain => ignore (ion_map_iommu c h domain)
  | IUnmapIommu c h domain => ignore (ion_unmap_iommu c h domain)
  | IShare c h => ignore (ion_share_dma_buf_fd c h)
  | IImport c fd => ignore (ion_import_dma_buf c fd)
  | IDrain h cached sz => ion_heap_freelist_drain h cached sz
  | IHeapShow h => ignore (ion_debug_heap_show h)
  | IClientShow c => ignore (ion_debug_client_show c)
  | IAddHeap h hp => sys_add_heap h hp
  end.

(** A handle that the client has. *)
Definition owns (c h : Z) s : Prop := ∃ y, handles s !! h = Some y ∧ h_client y = c.

Definition ienabled (e : icall) s : Prop :=
  match e with
  | IOpen | ICreate _ | IDrain _ _ _ => True
  | IRelease c | IDestroy c | IImport c _ | IClientShow c | IIoctl c _ _ | IAlloc c _ _ _ _ => is_Some (clients s !! c)
  | IFree c h | IPhys c h | ITable c h | IMapKernel c h | IMapIommu c h _ | IUnmapIommu c h _ | IShare c h => owns c h s
  | IUnmapKernel c h => ∃ y, handles s !! h = Some y ∧ h_client y = c ∧ 1 <= h_kmap_cnt y
  | IMmap d v => is_Some (exported s !! d) ∧ vmas s !! v = None
  | IDup v v' => is_Some (vmas s !! v) ∧ vmas s !! v' = None
  | IUnmap v => is_Some (vmas s !! v)
  | IFault v pgoff _ => 0 <= pgoff ∧ ∃ w, vmas s !! v = Some w ∧ is_Some (v_private w)
  | IDmaRelease d => (∃ y, exported s !! d = Some y ∧ d_access y = 0) ∧ ∀ v w, vmas s !! v = Some w → v_file w ≠ d
  | IBegin d | IAttach d => is_Some (exported s !! d)
  | IEnd d => ∃ y, exported s !! d = Some y ∧ 1 <= d_access y
  | IHeapShow h => is_Some (heaps s !! h)
  | IAddHeap h hp => h ∉ in_use s ∧ heap_ok hp
  end.

(** The calls the driver does not survive: an allocation whose mask no heap answers to, and
    a fault behind the last page of the buffer. *)
Definition past_end (v pgoff : Z) s : Prop := ∃ w b x, vmas s !! v = Some w ∧ v_private w = Some b ∧
  buffers s !! b = Some x ∧ Z.of_nat (pages_of (b_size x)) <= pgoff.
Definition exposed (e : icall) s : Prop :=
  match e with
  | IIoctl _ cmd arg => ioctl_unanswered cmd arg s
  | IAlloc _ len _ mask _ => unanswered len mask s
  | IFault v pgoff _ => past_end v pgoff s
  | _ => False
  end.

(** The driver from its start on: [ion_device_create], then calls. *)
Definition powered_on (w : W) : ion W := mk_ion ∅ ∅ ∅ ∅ ∅ ∅ [] false false [] ∅ ∅ [] [] w.

Inductive reached : nat → ion W → Prop :=
  | reached_start w custom s : ion_device_create custom (powered_on w) = Ret 0 s → reached 0 s
  | reached_call n s e s' : reached n s → ienabled e s → run_icall e s = Ret tt s' → reached (S n) s'.
End calls.

Section safe.
Context {W : Type} `{!Kernel W, !IonAbi, !KernelOk W, !IonAbiOk}.
Context (custom_ioctl : Z → Z → Z → M (ion W) Z) (Hcustom : custom_safe custom_ioctl).
Implicit Types s : ion W.

Lemma wp_ignore {A} (m : M (ion W) A) (Q : unit → ion W → Prop) s : wp m (λ _ s', Q tt s') s → wp (ignore m) Q s.
Proof. intros Hm. unfold ignore. apply wp_bind. eapply wp_mono; [exact Hm|]. intros a s' Hs. by apply wp_ret. Qed.

Lemma ok_start s :
  buffers s = ∅ → handles s = ∅ → clients s = ∅ → heaps s = ∅ → d_buffers s = ∅ → d_clients s = ∅ → d_heaps s = [] →
  freelist s = [] → exported s = ∅ → vmas s = ∅ → held s = [] → mem (trace s) = 0 → ok 1 s.
Proof.
  intros E1 E2 E3 E4 E5 E6 E7 E8 E9 E10 E11 E12. split; [|done].
  split; unfold live_handles, live_dmabufs; cbn [idle g_phantom g_leaving g_loose g_pins g_dying g_bld g_building without fmap option_fmap option_map g_unbacked];
    rewrite ?E1, ?E2, ?E3, ?E4, ?E5, ?E6, ?E7, ?E8, ?E9, ?E10, ?E12; try done.
  - split; [|intros b Hb; by apply elem_of_empty in Hb| |apply NoDup_nil_2|done].
    + intros b [? Hb]. by rewrite lookup_empty in Hb.
    + intros b Hb. by apply elem_of_nil in Hb.
  - split; [done|]. intros h Hh. by apply elem_of_nil in Hh.
  - intros c. rewrite lookup_empty. split; [set_solver|by intros [? ?]].
Qed.

Lemma wp_device_create custom w (Q : Z → ion W → Prop) :
  (∀ e s, e ≠ 0 → Q e s) → (∀ s, ok 1 s → Q 0 s) → wp (ion_device_create custom) Q (powered_on w).
Proof.
  intros Herr HQ. unfold ion_device_create. wp_b. apply wp_call. destruct (answer _ _); cbn [negb]; [|by apply wp_ret, Herr].
  wp_b. apply wp_modify. wp_b. apply wp_call. unfold truthy.
  match goal with |- context [?r =? 0] => destruct (Z.eqb_spec r 0) as [E|E] end; cbn [negb].
  - wp_b. apply wp_modify. apply wp_ret, HQ, ok_start; try done.
  - by apply wp_ret, Herr.
Qed.

Lemma ok_private N s v w b : ok N s → vmas s !! v = Some w → v_private w = Some b →
  b ∈ d_buffers s ∧ ∃ x, buffers s !! b = Some x.
Proof.
  intros [Hs _] Hv Hw. destruct (settled_inv _ _ _ idle_settled Hs) as (_ & _ & Har).
  destruct (ar_vma _ _ _ _ Har v w b Hv Hw) as (HD & _ & x & Hx & _). split; [done|by exists x].
Qed.

Lemma wp_sys_mmap N d v s (Q : Z → ion W → Prop) :
  ok N s → is_Some (exported s !! d) → vmas s !! v = None → (∀ r s', ok N s' → Q r s') → wp (sys_mmap d v) Q s.
Proof.
  intros Hok [y Hy] Hv HQ. unfold sys_mmap. wp_b. apply wp_modify. set (w := mk_vma d None false). set (s1 := set_vmas _ s).
  assert (Hok1 : ok N s1).
  { apply ok_vma_set; [done| |]; [|intros b; cbn; congruence]. apply (unlisted_private N); [done|]. intros w'. congruence. }
  wp_b. eapply (wp_ion_mmap N d y v w); [done|done|apply lookup_insert_eq|done|done|].
  intros r s2 Hok2 (w' & Ev & _ & Hw') _ _ _ _ _ _. wp_b. apply wp_when; intros Er.
  - apply wp_modify, wp_ret, HQ. apply ok_vma_delete; [done|]. apply (unlisted_private N); [done|].
    rewrite Ev. cbn. intros z. rewrite lookup_insert_eq. intros [= <-]. apply Hw'. unfold truthy in Er.
    by apply negb_true_iff, Z.eqb_neq in Er.
  - by apply wp_ret, HQ.
Qed.

Lemma wp_sys_dup N v v' s (Q : unit → ion W → Prop) :
  ok N s → is_Some (vmas s !! v) → vmas s !! v' = None → (∀ s', ok N s' → Q tt s') → wp (sys_dup v v') Q s.
Proof.
  intros Hok [w Hw] Hv HQ. unfold sys_dup. wp_b. eapply wp_vma_at; [done|]. wp_b. apply wp_modify.
  assert (Hun : unlisted v' s) by (apply (unlisted_private N); [done|]; intros; congruence).
  destruct (settled_inv _ _ _ idle_settled (proj1 Hok)) as (_ & _ & Har).
  assert (Hok1 : ok N (set_vmas (<[v' := w]> (vmas s)) s)).
  { apply ok_vma_set; [done|done|]. intros b Hb. apply (ar_vma _ _ _ _ Har v w b Hw Hb). }
  destruct (v_private w) as [b|] eqn:Eb; [|by apply wp_ret, HQ].
  destruct (ok_private _ _ _ _ _ Hok Hw Eb) as (HD & x & Hx).
  eapply (wp_vm_open N v' w b x); [done|apply lookup_insert_eq|done|done|done|done|]. intros s' Hok' _. by apply HQ.
Qed.

Lemma wp_sys_unmap N v s (Q : unit → ion W → Prop) :
  ok N s → is_Some (vmas s !! v) → (∀ s', ok N s' → Q tt s') → wp (sys_unmap v) Q s.
Proof.
  intros Hok [w Hw] HQ. unfold sys_unmap. wp_b. eapply wp_vma_at; [done|]. wp_b. destruct (v_private w) as [b|] eqn:Eb.
  - destruct (ok_private _ _ _ _ _ Hok Hw Eb) as (HD & x & Hx). eapply wp_vm_close; [done|done|done|done|done|].
    intros s1 Hok1 _ _ Hun. apply wp_modify, HQ. by apply ok_vma_delete.
  - apply wp_ret, wp_modify, HQ. apply ok_vma_delete; [done|]. apply (unlisted_private N); [done|]. intros; congruence.
Qed.

Lemma add_access_accessed d n y s : exported s !! d = Some y → add_access d n s = accessed d (d_access y + n) s.
Proof. intros Hy. unfold add_access, accessed. by rewrite !(alter_here _ _ _ y). Qed.

Lemma wp_sys_begin N d s (Q : Z → ion W → Prop) :
  ok N s → N + 1 < 2 ^ 31 → is_Some (exported s !! d) → (∀ r s', ok (N + 1) s' → Q r s') → wp (sys_begin d) Q s.
Proof.
  intros Hok HN [y Hy] HQ. unfold sys_begin. wp_b. eapply wp_begin_access; [done|done|done|]. intros r s1 Hsm Herr Hsucc.
  wp_b. apply wp_when; intros Er.
  - apply wp_modify, wp_ret, HQ. rewrite (add_access_accessed _ _ y) by (by rewrite (sm_exported _ _ Hsm)).
    by apply Hsucc, Z.eqb_eq.
  - by apply wp_ret, HQ, Herr, Z.eqb_neq.
Qed.

Lemma wp_sys_end N d y s (Q : unit → ion W → Prop) :
  ok N s → exported s !! d = Some y → 1 <= d_access y → (∀ s', ok N s' → Q tt s') → wp (sys_end d) Q s.
Proof.
  intros Hok Hy Ha HQ. unfold sys_end. wp_b. eapply wp_end_access; [done|done|done|]. intros s1 Hsm Hok1.
  apply wp_modify, HQ. by rewrite (add_access_accessed _ _ y) by (by rewrite (sm_exported _ _ Hsm)).
Qed.

Lemma wp_sys_add_heap N h hp s (Q : unit → ion W → Prop) :
  ok N s → h ∉ in_use s → heap_ok hp → (∀ s', ok N s' → Q tt s') → wp (sys_add_heap h hp) Q s.
Proof.
  intros [Hs Hf] Hh Hhp HQ. unfold sys_add_heap. wp_b. apply wp_modify. set (s1 := set_heaps _ s).
  assert (Hnew : heaps s !! h = None) by (apply not_elem_of_dom; unfold in_use in Hh; set_solver).
  assert (Hok1 : ok N s1).
  { split; [|done]. destruct Hs as [Ht Hc Hz Hl Hfo [Hh1 Hh2] Ha Hcl Hm HN]. split; try assumption.
    - intros b x Hx. destruct (Hfo b x Hx) as [[k Hk] ?]. split; [|done]. exists k. cbn. rewrite lookup_insert_ne; [done|congruence].
    - split; cbn.
      + intros k z. rewrite lookup_insert_Some. intros [[<- <-]|[_ Hz']]; [done|by apply (Hh1 k)].
      + intros k Hk. apply lookup_insert_is_Some'. right. by apply Hh2. }
  eapply (wp_add_heap N h hp); [done|apply lookup_insert_eq|]. intros s2 Hok2 _ _ _ _ _ _. by apply HQ.
Qed.

Lemma wpu_ignore {A} U (m : M (ion W) A) (Q : unit → ion W → Prop) s :
  wpu U m (λ _ s', Q tt s') s → wpu U (ignore m) Q s.
Proof. intros Hm. apply wpu_bind. eapply wpu_mono; [exact Hm|done|]. done. Qed.

Lemma fault_beyond N v pgoff address s : ok N s → past_end v pgoff s → ion_vm_fault v pgoff address s = Undefined.
Proof.
  intros [Hs Hf] (w & b & x & Hv & Hw & Hx & Hpg).
  destruct (settled_inv _ _ _ idle_settled Hs) as (_ & _ & Har).
  destruct (ar_vma _ _ _ _ Har v w b Hv Hw) as (HD & _ & x2 & Hx2 & Ef). simplify_eq.
  destruct (buffer_pages _ _ _ _ _ Hs Hx) as (ps & Eps & Hlen & Hall); [done|done|].
  unfold ion_vm_fault, vma_at, lock_buffer, buffer_at, mutex_lock. unfold get, modify, mbind, M_bind, mret, M_ret.
  rewrite Hv, Hw, Hx. rewrite bool_decide_false by (rewrite Hf; apply not_elem_of_nil). cbn [buffers set_held]. rewrite Hx, Eps.
  unfold require. rewrite (proj2 (Z.leb_le 0 pgoff)) by lia. cbn [mret]. unfold M_ret.
  by rewrite lookup_ge_None_2 by lia.
Qed.

Lemma wpu_fault N v pgoff address s (Q : Z → ion W → Prop) :
  ok N s → ienabled (IFault v pgoff address) s → (∀ r s', ok N s' → Q r s') →
  wpu (past_end v pgoff s) (ion_vm_fault v pgoff address) Q s.
Proof.
  intros Hok [Hpg (w & Hw & b & Hb)] HQ. destruct (ok_private _ _ _ _ _ Hok Hw Hb) as (_ & x & Hx).
  destruct (Z.lt_ge_cases pgoff (Z.of_nat (pages_of (b_size x)))) as [Hlt|Hge].
  - apply wp_wpu. eapply wp_vm_fault; [done..|]. by auto.
  - assert (Hp : past_end v pgoff s) by (by exists w, b, x). unfold wpu. by rewrite (fault_beyond N).
Qed.

Lemma wpu_icall N e s :
  ok N s → N + 2 < 2 ^ 31 → ienabled e s → wpu (exposed e s) (run_icall custom_ioctl e) (λ _ s', ok (N + 2) s') s.
Proof.
  intros Hok HN He. pose proof (iv_bound _ _ _ (proj1 Hok)) as HN0.
  assert (Hup0 : ∀ s', ok N s' → ok (N + 2) s') by (intros; apply (ok_mono N); [done|lia]).
  assert (Hup1 : ∀ s', ok (N + 1) s' → ok (N + 2) s') by (intros; apply (ok_mono (N + 1)); [done|lia]).
  assert (Hidle : ∀ s', inv idle (N + 1) s' → calm s s' → ok (N + 2) s').
  { intros s' Hs' Hcalm. apply Hup1. eapply ok_calm; [done|done|apply Hok]. }
  assert (Hf1 : N + 1 < 2 ^ 31) by lia. pose proof Hok as [Hs Hf].
  destruct e; cbn [run_icall exposed]; cbn [ienabled] in He.
  3: { apply wpu_ignore. eapply (wpu_ion_ioctl _ Hcustom _ N); by auto. }
  6: { apply wpu_ignore. eapply (wpu_fault N); by auto. }
  12: { apply wpu_ignore. eapply (wpu_ion_alloc _ idle N); [done|apply idle_settled|done|done|done|done|by auto|by auto]. }
  all: apply wp_wpu; try apply wp_ignore.
  - eapply wp_ion_open; [done|by auto|by auto].
  - destruct He as [x Hx]. unfold ion_release. wp_b. eapply wp_ion_client_destroy; [done|done|]. intros. apply wp_ret. by auto.
  - destruct He. eapply (wp_sys_mmap N); by auto.
  - destruct He. eapply (wp_sys_dup N); by auto.
  - eapply (wp_sys_unmap N); by auto.
  - destruct He as [(y & Hy & Ha) Hv]. unfold sys_dma_release. wp_b. eapply wp_dma_release; [done|done|done|done|].
    intros s' _ Hok'. apply wp_modify. by auto.
  - eapply wp_sys_begin; [done|done|done|]. by auto.
  - destruct He as (y & Hy & Ha). eapply wp_sys_end; [done|done|done|]. by auto.
  - destruct He as [y Hy]. eapply wp_map_dma_buf; [done|done|]. by auto.
  - eapply wp_ion_client_create; [done|by auto|by auto].
  - destruct He as [x Hx]. eapply wp_ion_client_destroy; [done|done|]. by auto.
  - destruct He as (y & Hy & <-). eapply wp_ion_free; [done|done|by auto|by auto].
  - destruct He as (y & Hy & <-). eapply wp_ion_phys; [done|done|by auto].
  - destruct He as (y & Hy & <-). eapply wp_ion_sg_table; [done|done|by auto].
  - destruct He as (y & Hy & <-). eapply wp_ion_map_kernel; [done|done|done|by auto].
  - destruct He as (y & Hy & <- & Hk). eapply wp_ion_unmap_kernel; [done|done|done|by auto].
  - destruct He as (y & Hy & <-). eapply wp_ion_map_iommu; [done|done|by auto].
  - destruct He as (y & Hy & <-). eapply wp_ion_unmap_iommu; [done|done|by auto].
  - destruct He as (y & Hy & <-). eapply wp_share_fd; [done|done|done|by auto].
  - destruct He as [x Hx]. eapply wp_import; [done|done|done|by auto|by auto].
  - eapply wp_drain; [done|by auto].
  - eapply wp_debug_heap_show; [done|apply idle_settled|done|done|]. by auto.
  - eapply wp_debug_client_show; [done|apply idle_settled|done|done|]. by auto.
  - destruct He. eapply wp_sys_add_heap; [done|done|done|]. by auto.
Qed.

Lemma reached_ok n s : reached custom_ioctl n s → 2 * Z.of_nat n + 1 < 2 ^ 31 → ok (2 * Z.of_nat n + 1) s.
Proof.
  induction 1 as [w custom s Hr|n s e s' _ IH He Hr]; intros Hn.
  - pose proof (wp_device_create custom w (λ r s', r = 0 → ok 1 s')) as Hwp. unfold wp in Hwp. rewrite Hr in Hwp.
    apply Hwp; try done.
  - pose proof (wpu_icall (2 * Z.of_nat n + 1) e s) as Hwp. unfold wpu in Hwp. rewrite Hr in Hwp.
    replace (2 * Z.of_nat (S n) + 1) with (2 * Z.of_nat n + 1 + 2) by lia. apply Hwp; [apply IH; lia|lia|done].
Qed.

(** So many calls that no count of 32 bits can run over. *)
Definition few (n : nat) : Prop := 2 * Z.of_nat n + 3 < 2 ^ 31.
Lemma reached_few n s : reached custom_ioctl n s → few n → ok (2 * Z.of_nat n + 1) s.
Proof. intros Hr Hn. apply reached_ok; [done|]. unfold few in Hn. lia. Qed.

(** C10: Whatever was called before, a call returns, without a null or freed pointer, a [BUG()]
    or a deadlock, and with no lock held; unless it is one of two kinds: an allocation,
    directly or with an ioctl, whose mask no heap answers to, and a fault behind the end
    of a buffer. *)
Theorem ion_safe n s e : reached custom_ioctl n s → few n → ienabled e s →
  wpu (exposed e s) (run_icall custom_ioctl e) (λ _ s', held s' = []) s.
Proof.
  intros Hr Hn He. pose proof (reached_few _ _ Hr Hn) as Hok. unfold few in Hn.
  eapply wpu_mono; [apply (wpu_icall _ e s Hok); [lia|done]|done|]. by intros [] s' [_ Hf].
Qed.

(** What holds a buffer. *)
Definition held_by_users (b : Z) (x : buffer) s : Prop :=
  b ∈ d_buffers s ∧ 1 <= b_ref x ∧
  b_ref x = total (handle_of b) (handles s) + total (dmabuf_of b) (exported s) ∧
  b_handle_count x = total (handle_of b) (handles s) ∧
  b_kmap_cnt x = total (mapped_of b) (handles s) + total (access_of b) (exported s).
Definition waits_to_be_freed (b : Z) (x : buffer) s : Prop := b ∈ freelist s ∧ b_kmap_cnt x = 0.

Lemma inv_owned N s b x : ok N s → buffers s !! b = Some x → held_by_users b x s ∨ waits_to_be_freed b x s.
Proof.
  intros [Hs _] Hx. destruct (settled_inv _ _ _ idle_settled Hs) as (_ & Hc & _).
  pose proof (iv_lists _ _ _ Hs) as Hl. cbn in Hl. rewrite app_nil_r in Hl.
  destruct (ls_place _ _ _ _ Hl b) as [HD|[HF|?]]; [by eexists| | |done].
  - left. destruct (cn_buffer _ _ _ _ _ _ Hc b HD) as (z & Hz & Er & Hr & Eh & Ek & _). rewrite Hx in Hz. injection Hz as <-.
    cbn in Er. rewrite Z.add_0_r in Er. exact (conj HD (conj (proj1 Hr) (conj Er (conj Eh Ek)))).
  - right. destruct (ls_free _ _ _ _ Hl b HF) as (z & Hz & Ek). rewrite Hx in Hz. injection Hz as <-. by split.
Qed.

(** C11: Every buffer has a user or waits to be freed; it has as many references as handles and
    dma-bufs refer to it, and is mapped as often as they count; and heaps have given as
    much memory, less what came back and what a failed [vmalloc] lost, as there are buffers. *)
Theorem ion_buffers_owned n s :
  reached custom_ioctl n s → few n →
  mem (trace s) = Z.of_nat (size (buffers s)) ∧
  ∀ b x, buffers s !! b = Some x → held_by_users b x s ∨ waits_to_be_freed b x s.
Proof.
  intros Hr Hn. pose proof (reached_few _ _ Hr Hn) as Hok. split; [|intros; by eapply inv_owned].
  rewrite (iv_mem _ _ _ (proj1 Hok)). cbn. lia.
Qed.

(** When every client and every dma-buf is gone, heaps lack only the memory of the buffers
    that wait to be freed. *)
Theorem ion_memory_returned n s :
  reached custom_ioctl n s → few n → clients s = ∅ → exported s = ∅ → mem (trace s) = Z.of_nat (length (freelist s)).
Proof.
  intros Hr Hn Hcl Hex. pose proof (reached_few _ _ Hr Hn) as Hok. pose proof Hok as [Hs _].
  rewrite (iv_mem _ _ _ Hs). cbn. rewrite Z.sub_0_r. f_equal.
  destruct (settled_inv _ _ _ idle_settled Hs) as (Ht & Hc & _).
  assert (Hh : handles s = ∅).
  { apply map_empty. intros h. destruct (handles s !! h) as [y|] eqn:E; [|done].
    destruct (tb_handle _ _ _ Ht h y E) as (z & Hz & _). by rewrite Hcl, lookup_empty in Hz. }
  pose proof (iv_lists _ _ _ Hs) as Hl. cbn in Hl. rewrite app_nil_r in Hl.
  assert (Hdom : dom (buffers s) = list_to_set (freelist s)).
  { apply set_eq. intros b. rewrite elem_of_dom, elem_of_list_to_set. split.
    - intros [x Hx]. destruct (inv_owned _ _ _ _ Hok Hx) as [(HD & Href & Er & _)|[HF _]]; [|done].
      rewrite Hh, Hex, !total_empty in Er. lia.
    - intros HF. destruct (ls_free _ _ _ _ Hl b HF) as (x & Hx & _). by exists x. }
  rewrite <- size_dom, Hdom. apply size_list_to_set, Hl.
Qed.

(** The heaps that may serve a request: those whose bit the mask has, the one with number 3
    for buffers as large as the display, and the one with number 1 if any will do. *)
Definition may_serve (len mask : Z) (hp : heap) : Prop :=
  Z.testbit mask (hp_id hp) = true ∨
  (PAGE_ALIGN len = 480 * 800 * 4 ∧ hp_id hp = 3) ∨
  (mask = 0xffffffff ∧ hp_id hp = 1).

Lemma bit_asked id mask : 0 <= id → has_flag (u32 (Z.shiftl 1 id)) mask = true → Z.testbit mask id = true.
Proof.
  intros Hid. unfold has_flag, truthy. intros E%negb_true_iff%Z.eqb_neq.
  destruct (Z.testbit mask id) eqn:Eb; [done|]. exfalso. apply E, Z.bits_inj'. intros k Hk.
  rewrite Z.land_spec, Z.bits_0. destruct (decide (k = id)) as [->|Hne]; [by rewrite Eb, andb_false_r|].
  unfold u32, wrap. destruct (decide (k < 32)).
  - rewrite Z.mod_pow2_bits_low, Z.shiftl_1_l, Z.pow2_bits_false by lia. done.
  - rewrite Z.mod_pow2_bits_high by lia. done.
Qed.

Lemma served_may n s len mask flags z :
  ok n s → served len mask flags s z →
  b_size z = PAGE_ALIGN len ∧ b_flags z = flags ∧ b_heap z ∈ d_heaps s ∧ ∃ hp, heaps s !! b_heap z = Some hp ∧ may_serve len mask hp.
Proof.
  intros [Hs _] Hse. unfold served in Hse. destruct (a1000_mask _ mask) as [first fb] eqn:Em. destruct Hse as (Hin & Hsize & Hfl & Ha).
  do 3 (split; [done|]). destruct (iv_heaps _ _ _ Hs) as [Hok Hin2]. destruct (Hin2 _ Hin) as [hp Hhp]. exists hp. split; [done|].
  destruct (Hok _ _ Hhp) as (_ & _ & _ & _ & _ & _ & Hid). unfold asked in Ha. rewrite Hhp in Ha.
  destruct Ha as [Ha|[_ Ha]]; apply bit_asked in Ha; try lia; [|by left]. unfold a1000_mask in Em.
  assert (Hbit : ∀ k, 0 <= k → Z.testbit (Z.shiftl 1 k) (hp_id hp) = true → hp_id hp = k).
  { intros k Hk. rewrite Z.shiftl_1_l. intros E. destruct (decide (hp_id hp = k)) as [|Hne]; [done|].
    rewrite Z.pow2_bits_false in E by congruence. done. }
  destruct (Z.eqb_spec (PAGE_ALIGN len) (480 * 800 * 4)); [|destruct (Z.eqb_spec mask 0xffffffff)]; injection Em as <- _.
  - right. left. split; [done|]. by apply Hbit.
  - right. right. split; [done|]. by apply Hbit.
  - by left.
Qed.

(** C13: A buffer that is allocated: the client has a handle with one reference for it, it comes
    from a heap that may serve the request, and it has the size, up to a page, and the flags
    that were asked for. Only a request that no heap answers to may be undefined. *)
Theorem alloc_exact n s c len align mask flags :
  reached custom_ioctl n s → few n → is_Some (clients s !! c) →
  wpu (unanswered len mask s) (ion_alloc c len align mask flags) (λ r s', match r with
      | inr h => ∃ y z hp, handles s' !! h = Some y ∧ h_client y = c ∧ h_ref y = 1 ∧
          buffers s' !! h_buffer y = Some z ∧ b_size z = PAGE_ALIGN len ∧ b_flags z = flags ∧
          b_heap z ∈ d_heaps s ∧ heaps s !! b_heap z = Some hp ∧ may_serve len mask hp
      | inl _ => True
      end) s.
Proof.
  intros Hr Hn Hc. pose proof (reached_few _ _ Hr Hn) as Hok. pose proof Hok as [Hs Hf]. unfold few in Hn.
  eapply wpu_ion_alloc; [done|apply idle_settled|lia|done|done|done|done|].
  intros h s' y z _ _ Hy Hcl Href Hz Hse. destruct (served_may _ _ _ _ _ _ Hok Hse) as (? & ? & ? & hp & ? & ?). by exists y, z, hp.
Qed.

(** One client shares a buffer, and another imports it from a descriptor of its dma-buf. *)
Definition share_import (c1 h c2 : Z) (fd_of : Z → Z) : M (ion W) (option (err Z)) :=
  dmabuf ← ion_share_dma_buf c1 h;
  match dmabuf with
  | inl _ => mret None
  | inr d => handle ← ion_import_dma_buf c2 (fd_of d); mret (Some handle)
  end.

(** C12: What is imported is what was shared: a handle for the same buffer, and for the client
    that shared it, or any that has a handle for the buffer, that very handle, without fail. *)
Theorem share_then_import n s c1 h y c2 x fd_of :
  reached custom_ioctl n s → few n → handles s !! h = Some y → h_client y = c1 → clients s !! c2 = Some x →
  (∀ d s', is_Some (exported s' !! d) → fst (do_ksys (KDmaGet (fd_of d) (dom (exported s'))) (world s')) = DIon d) →
  wp (share_import c1 h c2 fd_of) (λ r s', match r with
      | None => True
      | Some (inl _) => c_handles x !! h_buffer y = None
      | Some (inr k) => (∃ z, handles s' !! k = Some z ∧ h_client z = c2 ∧ h_buffer z = h_buffer y) ∧
          (c1 = c2 → k = h) ∧ ∀ k', c_handles x !! h_buffer y = Some k' → k = k'
      end) s.
Proof.
  intros Hr Hn Hy <- Hx Hfd. pose proof (reached_few _ _ Hr Hn) as Hok. unfold few in Hn.
  unfold share_import. wp_b. eapply wp_share; [done|lia|done|by intros; apply wp_ret|].
  intros d s1 Hok1 Eh Ec _ _ _ _ Hnew [sz Eex]. specialize (Hfd d s1).
  assert (Hd : exported s1 !! d = Some (mk_dmabuf (h_buffer y) sz 0)) by (rewrite Eex; apply lookup_insert_eq).
  wp_b. unfold ion_import_dma_buf, dma_buf_get. do 2 wp_b. apply wp_get. apply wp_call. set (s2 := called _ s1).
  unfold answer. rewrite Hfd by (by eexists).
  assert (Hok2 : ok (2 * Z.of_nat n + 1 + 1) s2) by (destruct Hok1; split; [by apply inv_called|done]).
  eapply (wp_import_found _ c2 d x (mk_dmabuf (h_buffer y) sz 0)); [done|lia|done|by rewrite <- Ec in Hx|..].
  - intros e s3 Hno _ _. by apply wp_ret.
  - intros k s3 z _ _ Hz Hcl Hb Hk. apply wp_ret. split; [by exists z|]. split; [|done]. intros Ecl. apply Hk. cbn.
    destruct (settled_inv _ _ _ idle_settled (proj1 Hok)) as (Ht & _).
    destruct (tb_handle _ _ _ Ht h y Hy) as (x' & Hx' & Hl). cbn in Hl. destruct Hl as (_ & _ & Hl). rewrite Ecl in Hx'. congruence.
Qed.

(** C14: A command that names a handle the client does not have is refused, and changes nothing. *)
Theorem bad_handle_refused n s c x cmd arg id ws :
  reached custom_ioctl n s → few n → clients s !! c = Some x → cmd ∈ [ION_IOC_FREE; ION_IOC_SHARE; ION_IOC_MAP] →
  fst (do_ksys (KCopyFrom arg (IOC_SIZE cmd)) (world s)) = Some (id :: ws) → c_idr x !! swrap 32 id = None →
  wp (ion_ioctl custom_ioctl c cmd arg) (λ r s', r = - EINVAL ∧ buffers s' = buffers s ∧ handles s' = handles s ∧
    clients s' = clients s ∧ exported s' = exported s ∧ freelist s' = freelist s ∧ held s' = []) s.
Proof.
  intros Hr Hn Hx Hcmd Hcopy Hid. pose proof (reached_few _ _ Hr Hn) as [Hs Hf]. unfold few in Hn.
  pose proof abi_distinct as Hd.
  assert (Hsize : ∃ k, command_ok cmd k ∧ k <= 8).
  { rewrite !elem_of_cons in Hcmd. destruct Hcmd as [->|[->|[->|Hno]]]; [exists 4|exists 8|exists 8|by apply elem_of_nil in Hno];
      (split; [|lia]); [apply abi_free|apply abi_share|apply abi_map]. }
  destruct Hsize as (k & [Hk Hdir] & Hk8).
  assert (Hw : has_flag (ion_ioctl_dir cmd) IOC_WRITE = true).
  { unfold ion_ioctl_dir. destruct (_ || _); [done|]. by rewrite Hdir. }
  unfold ion_ioctl. wp_b. eapply wp_client_at; [done|]. rewrite (proj2 (Z.ltb_ge _ _)) by (rewrite Hk; unfold data_words; lia).
  rewrite Hw. wp_b. apply wp_call. unfold answer. rewrite Hcopy. set (s1 := called _ s). wp_b.
  assert (Hs1 : inv idle (2 * Z.of_nat n + 1) s1) by by apply inv_called.
  set (data := take _ _). assert (Hw0 : data !! 0%nat = Some (Some id)) by done.
  assert (Hget : ∀ (f : Z → M (ion W) ioctl_next) (Q : _ → _ → Prop), Q (Return (- EINVAL)) s1 →
    wp (id ← word data 0; handle ← ion_handle_get_by_id c (swrap 32 id);
        match handle with inl e => mret (Return e) | inr h => f h end) Q s1).
  { intros f Q HQ. wp_b. eapply wp_word; [done|]. wp_b.
    eapply (wp_get_by_id idle (2 * Z.of_nat n + 1)); [done|apply idle_settled|lia|exact Hx|by apply free_client|by intros; apply wp_ret|].
    intros h y E. congruence. }
  unfold ioctl_switch. rewrite (proj2 (Z.eqb_neq cmd ION_IOC_ALLOC)).
  2: { intros ->. apply NoDup_cons in Hd as [Hd _]. apply Hd. rewrite !elem_of_cons in *. tauto. }
  destruct (Z.eqb_spec cmd ION_IOC_FREE) as [Efree|Nfree]; [apply Hget; by apply wp_ret|].
  destruct (_ || _) eqn:E; [apply Hget; by apply wp_ret|]. exfalso.
  apply orb_false_iff in E as [E1%Z.eqb_neq E2%Z.eqb_neq]. rewrite !elem_of_cons in Hcmd.
  destruct Hcmd as [?|[?|[?|Hno]]]; [done..|by apply elem_of_nil in Hno].
Qed.

(** ** What goes wrong when calls are not enabled, or meet each other *)

(** Without a heap that answers to the mask, the walk over the heaps ends at its head, and
    [ion_alloc] reads that as a heap. *)
Lemma try_heaps_none hs mask len align flags r s :
  (∀ h, h ∈ hs → is_Some (heaps s !! h) ∧ asked mask s h = false) →
  try_heaps hs mask len align flags r s = Ret (r, None) s.
Proof.
  revert r. induction hs as [|h hs IH]; intros r Hhs; [done|]. destruct (Hhs h) as [[hp Hhp] Ha]; [by left|].
  cbn [try_heaps]. unfold mbind at 1, M_bind, heap_at, get, mbind, M_bind. rewrite Hhp. cbn.
  unfold asked in Ha. rewrite Hhp in Ha. rewrite Ha. cbn. apply IH. intros k Hk. apply Hhs. by right.
Qed.
Theorem alloc_unserved n s c len align mask flags :
  reached custom_ioctl n s → few n → is_Some (clients s !! c) → len ≠ 0 →
  (∀ h, h ∈ d_heaps s → asked mask s h = false ∧ asked (fst (a1000_mask (PAGE_ALIGN len) mask)) s h = false) →
  ion_alloc c len align mask flags s = Undefined.
Proof.
  intros Hr Hn [x Hx] Hlen Hno. pose proof (reached_few _ _ Hr Hn) as [Hs Hf].
  assert (Htry : ∀ m, (∀ h, h ∈ d_heaps s → asked m s h = false) →
    try_all_heaps m (PAGE_ALIGN len) align flags s = Ret (None, None) s).
  { intros m Hm. unfold try_all_heaps, mutex_lock, mutex_unlock. unfold get, modify, require, mbind, M_bind, mret, M_ret.
    rewrite bool_decide_false by (rewrite Hf; apply not_elem_of_nil). cbn [d_heaps set_held].
    set (s1 := set_held _ s). rewrite (try_heaps_none _ m _ _ _ None s1).
    2: { intros h Hh. split; [by apply (iv_heaps _ _ _ Hs)|by apply Hm]. }
    cbn. rewrite Hf. cbn. rewrite decide_False by tauto. destruct s. cbn in *. by rewrite Hf. }
  unfold ion_alloc. unfold client_at, get, mbind, M_bind. rewrite Hx. cbn [mret M_ret].
  rewrite (proj2 (Z.eqb_neq _ _) Hlen). destruct (a1000_mask _ mask) as [m fb] eqn:Em. cbn [fst] in Hno.
  rewrite Htry by (intros; by apply Hno). cbn. destruct fb; cbn; [|done]. rewrite Htry by (intros; by apply Hno). done.
Qed.

(** A fault past the end of the buffer, in an area that was made larger. *)
Theorem fault_past_end n s v w b x pgoff address :
  reached custom_ioctl n s → few n → vmas s !! v = Some w → v_private w = Some b → buffers s !! b = Some x →
  Z.of_nat (pages_of (b_size x)) <= pgoff → ion_vm_fault v pgoff address s = Undefined.
Proof. intros Hr Hn Hv Hw Hx Hpg. apply (fault_beyond _ _ _ _ _ (reached_few _ _ Hr Hn)). by exists w, b, x. Qed.

(** [m] returns with [Q], or goes on for ever. *)
Definition wlp {A} (m : M (ion W) A) (Q : A → ion W → Prop) s : Prop :=
  match m s with Ret a s' => Q a s' | Stuck => True | _ => False end.
Lemma wlp_bind {A B} (m : M (ion W) A) (k : A → M (ion W) B) Q s : wlp m (λ a s', wlp (k a) Q s') s → wlp (m ≫= k) Q s.
Proof. unfold wlp, mbind, M_bind. by destruct (m s). Qed.
Lemma wp_wlp {A} (m : M (ion W) A) Q s : wp m Q s → wlp m Q s.
Proof. unfold wp, wlp. by destruct (m s). Qed.

(** A client that has a handle for the buffer already does not get another: the number is
    refused, or the walk down the tree does not end. *)
Lemma import_again N c b x k s :
  ok N s → N + 1 < 2 ^ 31 → clients s !! c = Some x → c_handles x !! b = Some k → b ∈ d_buffers s →
  wlp (import_create c b) (λ r _, ∃ e, r = inl e) s.
Proof.
  intros [Hs Hf] HN Hx Hk HD. unfold import_create. apply wlp_bind, wp_wlp. pose proof (iv_bound _ _ _ Hs) as HN0.
  eapply wp_handle_create; [done|apply idle_settled|done|by eexists|done|by apply free_unlocked|..].
  { intros e s1 _ _ _. apply wp_wlp, wp_ret. by exists e. }
  intros h s1 Hs1 Ho _ _ Hh _. pose proof Ho as [E1 E2 E3 E4 E5 E6 E7 E8].
  assert (Hx1 : clients s1 !! c = Some x) by (by rewrite E1).
  assert (Hy1 : handles s1 !! h = Some (mk_handle 1 c b false 0 0)) by (rewrite Hh; apply lookup_insert_eq).
  unfold add_handle. apply wlp_bind, wp_wlp. apply wp_lock_client; [by eexists|rewrite E8; by apply free_client|].
  set (s2 := set_held _ s1). apply wlp_bind. unfold ion_handle_add. apply wlp_bind, wp_wlp. eapply wp_client_at; [exact Hx1|].
  apply wlp_bind, wp_wlp, wp_call. pose proof (idr_fresh (dom (c_idr x)) (world s2)) as [Hneg Hpos].
  change (fst _) with (answer (KIdr (dom (c_idr x))) s2) in Hneg, Hpos. set (id := answer _ s2) in *. set (s3 := called _ s2).
  destruct (Z.ltb_spec id 0) as [Hlt|Hge].
  - apply wp_wlp, wp_ret. apply wlp_bind, wp_wlp. eapply (wp_unlock_client c (held s1)); [by exists x|done|rewrite E8; by apply free_client|].
    unfold truthy. rewrite (proj2 (Z.eqb_neq id 0)) by lia. cbn [negb]. apply wlp_bind, wp_wlp.
    set (s4 := set_held _ s3).
    assert (Hs4 : inv (g_with_loose (Some h) idle) (N + 1) s4).
    { eapply inv_same; [apply (inv_called _ _ (KIdr (dom (c_idr x))) s2); [done|by apply inv_held]|done..]. }
    eapply wp_handle_put; [exact Hs4|done|done|done|done|done|by right|exact Hy1|..].
    + cbn. rewrite E8. by apply free_client.
    + apply free_unlocked. unfold free. cbn. by rewrite E8.
    + cbn. lia.
    + intros z s5 _ _ _ _. apply wp_wlp, wp_ret. exists id. unfold ERR_PTR. specialize (Hneg Hlt).
      by rewrite (proj2 (Z.leb_le _ _)), (proj2 (Z.ltb_lt _ _)) by lia.
  - apply wlp_bind, wp_wlp. eapply (wp_mod_client c _ x); [exact Hx1|].
    apply wlp_bind, wp_wlp. eapply wp_mod_handle; [exact Hy1|].
    apply wlp_bind, wp_wlp. eapply wp_handle_at; [apply lookup_insert_eq|].
    apply wlp_bind, wp_wlp. eapply wp_client_at; [apply lookup_insert_eq|]. cbn [c_handles set_c_idr h_buffer set_h_id].
    rewrite bool_decide_true by (by eexists). done.
Qed.

(** Two threads of a client that import the same dma-buf both look for a handle first, and
    find none: once the one has made its handle, the other gets an error, or is in the walk
    for ever, with the lock of the client. *)
Theorem import_race n s c b x :
  reached custom_ioctl n s → few n → clients s !! c = Some x → b ∈ d_buffers s → c_handles x !! b = None →
  wp (import_create c b) (λ r s1, match r with
      | inr _ => wlp (import_create c b) (λ r' _, ∃ e, r' = inl e) s1
      | inl _ => True
      end) s.
Proof.
  intros Hr Hn Hx HD Hnew. pose proof (reached_few _ _ Hr Hn) as [Hs Hf]. unfold few in Hn.
  eapply (wp_create_and_add idle); [done|apply idle_settled|lia|done|done|done|done|done|].
  intros h s1 y Hs1 Hcalm Hy Hcl Hb _. destruct (settled_inv _ _ _ idle_settled Hs1) as (Ht & Hc & _).
  destruct (tb_handle _ _ _ Ht h y Hy) as (x1 & Hx1 & Hl). cbn in Hl. destruct Hl as (_ & _ & Hl).
  destruct (cn_handle _ _ _ _ _ _ Hc h y Hy) as [HD1 _].
  eapply (import_again _ c b x1 h); [split; [exact Hs1|by eapply calm_free]|lia|congruence|congruence|congruence].
Qed.

(** Two threads of a client that free the same handle each take a reference first; each
    then gives up two.  With one reference to begin with, the last one follows a pointer
    to a handle that is gone. *)
Theorem free_race n s c x id h y :
  reached custom_ioctl n s → few n → clients s !! c = Some x → c_idr x !! id = Some h → handles s !! h = Some y → h_ref y = 1 →
  wp (ion_handle_get_by_id c id ;; ion_handle_get_by_id c id ;;
      ion_free c h ;; ion_free c h ;; ion_handle_put h) (λ _ s', ion_handle_put h s' = Undefined) s.
Proof.
  intros Hr Hn Hx Hid Hy Href. pose proof (reached_few _ _ Hr Hn) as [Hs Hf]. unfold few in Hn.
  wp_b. eapply (wp_get_by_id idle (2 * Z.of_nat n + 1)); [done|apply idle_settled|lia|exact Hx|by apply free_client|congruence|].
  intros h1 y1 E1 Hy1 Hcl1 _ _ Hs1. rewrite Hid in E1. injection E1 as <-. rewrite Hy in Hy1. injection Hy1 as <-.
  set (y1 := set_h_ref _ y) in *. set (s1 := set_handles _ s) in *.
  wp_b. eapply (wp_get_by_id idle (2 * Z.of_nat n + 1 + 1)); [done|apply idle_settled|lia|exact Hx|by apply free_client|congruence|].
  intros h2 y2 E2 Hy2 _ _ _ Hs2. rewrite Hid in E2. injection E2 as <-. cbn in Hy2. rewrite lookup_insert_eq in Hy2. injection Hy2 as <-.
  set (y2 := set_h_ref _ y1) in *. set (s2 := set_handles _ s1) in *. subst c.
  assert (Hok2 : ok (2 * Z.of_nat n + 1 + 1 + 1) s2) by done.
  wp_b. eapply (wp_ion_free _ h y2); [exact Hok2|apply lookup_insert_eq| |cbn; lia]. intros _ Hok3.
  set (y3 := set_h_ref _ y2) in *. set (s3 := set_handles _ s2) in *.
  wp_b. eapply (wp_ion_free _ h y3); [exact Hok3|apply lookup_insert_eq| |cbn; lia]. intros _ Hok4.
  set (y4 := set_h_ref _ y3) in *. set (s4 := set_handles _ s3) in *.
  eapply (wp_put _ h y4); [exact Hok4|apply lookup_insert_eq|cbn; lia|]. intros z s5 _ _ _ _ Hgone.
  unfold ion_handle_put, handle_at, get, mbind, M_bind. by rewrite (hg_handles _ _ _ _ _ Hgone), lookup_delete_eq.
Qed.
End safe.

(** ** A kernel, to run the driver in

    Addresses and numbers are the least ones above those in use, the heap has the memory
    it is asked for in one run of pages, and the world is what user space wrote for the
    commands to come. *)

#[local] Instance demo_abi : IonAbi := {|
  ION_IOC_ALLOC := 0xc0144900; ION_IOC_FREE := 0xc0044901; ION_IOC_MAP := 0xc0084902; ION_IOC_SHARE := 0xc0084904;
  ION_IOC_IMPORT := 0xc0084905; ION_IOC_CUSTOM := 0xc0084906; ION_IOC_SYNC := 0xc0084907; ION_IOC_INVALIDATE := 0xc0084908;
  ION_FLAG_CACHED := 1; ION_FLAG_CACHED_NEEDS_SYNC := 2; ION_HEAP_FLAG_DEFER_FREE := 1;
  ION_HEAP_TYPE_SYSTEM := 0; ION_NUM_HEAP_IDS := 32; IOMMU_GSP := 0; IOMMU_MM := 1; sizeof_page := 32 |}.
#[local] Instance demo_abi_ok : IonAbiOk.
Proof. split; try (by split). vm_compute. repeat (apply NoDup_cons_2; [set_solver|]). apply NoDup_nil_2. Qed.

Definition above (X : gset Z) : Z := 1 + foldr Z.max 0 (elements X).
Lemma above_fresh X : above X ∉ X.
Proof.
  intros Hin%elem_of_elements. assert (Hle : ∀ l (z : Z), z ∈ l → z <= foldr Z.max 0 l).
  { induction l as [|a l IH]; intros z; [set_solver|]. intros [->|Hz]%elem_of_cons; cbn; [lia|]. specialize (IH z Hz). lia. }
  specialize (Hle _ _ Hin). unfold above in Hle. lia.
Qed.
Lemma above_pos X : 1 <= above X.
Proof. unfold above. assert (0 <= foldr Z.max 0 (elements X)); [|lia]. induction (elements X); cbn; lia. Qed.

Definition demo_task : task := mk_task "composer" 700 701 false.
#[local] Instance demo_kernel : Kernel (list Z) := λ A e w,
  match e in ksys A return A * list Z with
  | KZalloc live => (Some (above live), w)
  | KKmalloc => (true, w)
  | KVmalloc _ => (true, w)
  | KCurrent => (demo_task, w)
  | KGetTask _ => (tt, w)
  | KPutTask _ => (tt, w)
  | KIdr used => (above used, w)
  | KAllocate _ _ _ _ _ => (0, w)
  | KFree _ _ => (tt, w)
  | KMapDma _ _ len => (Some (inr [mk_sg 0x1000 (PAGE_ALIGN len) 0x8000 0]), w)
  | KUnmapDma _ _ => (tt, w)
  | KMapKernel _ b => (Some (inr (b * 0x1000)), w)
  | KUnmapKernel _ _ => (tt, w)
  | KMapUser _ _ _ => (0, w)
  | KPhys _ b => ((0, b * 0x1000, 0), w)
  | KMapIommu _ b _ => ((1, 0, (b, 0), b), w)
  | KUnmapIommu _ _ _ => ((0, 0, (0, 0)), w)
  | KIovaUnmap _ _ _ => (tt, w)
  | KIovaFree _ _ _ => (tt, w)
  | KInitDeferred _ => (tt, w)
  | KDrain _ _ _ _ => ([], w)
  | KExport live _ _ => (inr (above live), w)
  | KDmaFd d => (d, w)
  | KDmaGet fd live => (if decide (fd ∈ live) then DIon fd else DError (- 9), w)
  | KDmaPut _ => (tt, w)
  | KSyncPage _ => (tt, w)
  | KSyncSg _ _ => (tt, w)
  | KZap _ => (tt, w)
  | KInsertPage _ _ _ => (0, w)
  | KCopyFrom _ size => (Some (take (Z.to_nat (size / 4)) (w ++ replicate (Z.to_nat (size / 4)) 0)), w)
  | KCopyTo _ _ => (false, w)
  | KMiscRegister => (0, w)
  | KMiscDeregister => (tt, w)
  | KMemblockAlloc _ _ => (0, w)
  | KMemblockReserve _ _ => (0, w)
  end.
#[local] Instance demo_kernel_ok : KernelOk (list Z).
Proof.
  split; cbn; try done.
  - intros live _ a [= <-]. apply above_fresh.
  - intros used _. pose proof (above_pos used). split; [lia|]. intros _. split; [done|apply above_fresh].
  - intros h b len _ table [= <-]. unfold table_pages, pages_of. cbn. lia.
  - intros. split; [set_solver|apply NoDup_nil_2].
  - intros live b size _ d [= <-]. apply above_fresh.
  - intros fd live _ d. case_decide; by intros [= <-].
  - intros arg size w ws [= <-]. rewrite length_take, length_app, length_replicate. lia.
Qed.

(** The board has no commands of its own, and a heap of whole pages with number 1. *)
Definition demo_custom (c n arg : Z) : M (ion (list Z)) Z := mret 0.
Lemma demo_custom_safe : custom_safe demo_custom.
Proof.
  intros N c n arg s Hok Hc HN. apply wp_ret. split; [|done]. apply (ok_mono N); [done|].
  pose proof (iv_bound _ _ _ (proj1 Hok)). lia.
Qed.
Definition demo_heap : heap := mk_heap 1 0 "carveout" 0 (mk_ops true true true true true true true true true true).

(** Calls in a row, each of them enabled. *)
Definition demo_returns (e : icall) (s : ion (list Z)) : bool :=
  match run_icall demo_custom e s with Ret _ _ => true | _ => false end.
Definition demo_next (e : icall) (s : ion (list Z)) : ion (list Z) :=
  match run_icall demo_custom e s with Ret _ s' => s' | _ => s end.
Definition demo_run (l : list icall) (s : ion (list Z)) : ion (list Z) := foldl (λ s e, demo_next e s) s l.
Fixpoint demo_enabled (l : list icall) (s : ion (list Z)) : Prop :=
  match l with [] => True | e :: l => ienabled e s ∧ demo_returns e s = true ∧ demo_enabled l (demo_next e s) end.
Lemma demo_reached l n s : reached demo_custom n s → demo_enabled l s → reached demo_custom (n + length l) (demo_run l s).
Proof.
  revert n s. induction l as [|e l IH]; intros n s Hr Hl; cbn [length demo_run foldl]; [by rewrite Nat.add_0_r|].
  destruct Hl as (He & Hret & Hl). rewrite Nat.add_succ_r, <- Nat.add_succ_l. apply IH; [|done].
  unfold demo_returns, demo_next in *. destruct (run_icall demo_custom e s) as [[] s'| | |] eqn:E; [|done..]. by eapply reached_call.
Qed.

Definition demo_created : ion (list Z) :=
  match ion_device_create true (powered_on []) with Ret _ s => s | _ => powered_on [] end.
Lemma demo_created_reached : reached demo_custom 0 demo_created.
Proof. by apply (reached_start _ [] true). Qed.

(** Two clients; the first has a cached buffer of two pages, and shares it. *)
Definition demo_calls : list icall := [IAddHeap 100 demo_heap; IOpen; IOpen; IAlloc 101 8000 4096 2 1; IShare 101 104].
Lemma demo_calls_enabled : demo_enabled demo_calls demo_created.
Proof.
  cbn [demo_enabled demo_calls]. split; [split; [by apply (bool_decide_unpack _); vm_compute|by repeat split]|].
  split; [by vm_compute|]. split; [done|]. split; [by vm_compute|]. split; [done|]. split; [by vm_compute|].
  split; [by apply (bool_decide_unpack _); vm_compute|].
  split; [by vm_compute|]. split; [|by split; [vm_compute|]].
  eexists. split; [by vm_compute|done].
Qed.
Definition demo_exported : ion (list Z) := demo_run demo_calls demo_created.
Lemma demo_exported_reached : reached demo_custom 5 demo_exported.
Proof. exact (demo_reached demo_calls 0 _ demo_created_reached demo_calls_enabled). Qed.

(** The other client imports it, and it is mapped; then everything is closed. *)
Definition demo_use : list icall := [IImport 102 1; IMmap 1 50].
Definition demo_close : list icall := [IUnmap 50; IDmaRelease 1; IRelease 101; IRelease 102].
Definition demo_used : ion (list Z) := demo_run demo_use demo_exported.
Definition demo_closed : ion (list Z) := demo_run demo_close demo_used.
Lemma demo_used_reached : reached demo_custom 7 demo_used.
Proof.
  apply (demo_reached demo_use 5 _ demo_exported_reached). cbn [demo_enabled demo_use].
  split; [by apply (bool_decide_unpack _); vm_compute|]. split; [by vm_compute|].
  by split; [split; [apply (bool_decide_unpack _); vm_compute|vm_compute]|split; [vm_compute|]].
Qed.
Lemma demo_closed_reached : reached demo_custom 11 demo_closed.
Proof.
  apply (demo_reached demo_close 7 _ demo_used_reached). cbn [demo_enabled demo_close].
  split; [by apply (bool_decide_unpack _); vm_compute|]. split; [by vm_compute|].
  split. { split; [eexists; split; [by vm_compute|done]|]. intros v w Hv. by vm_compute in Hv. }
  split; [by vm_compute|]. split; [by apply (bool_decide_unpack _); vm_compute|]. split; [by vm_compute|].
  by split; [apply (bool_decide_unpack _); vm_compute|split; [vm_compute|]].
Qed.

(** Which of the two cases it is. *)
Definition went_well {S A} (m : M S A) (s : S) : option bool :=
  match m s with Ret _ _ => Some true | Undefined => Some false | _ => None end.
Lemma wpu_well {S A} U (m : M S A) Q s : wpu U m Q s → went_well m s = Some true → wp m Q s.
Proof. unfold wpu, went_well, wp. by destruct (m s). Qed.
Lemma wpu_undefined {S A} (U : Prop) (m : M S A) Q s : wpu U m Q s → went_well m s = Some false → U.
Proof. unfold wpu, went_well. by destruct (m s). Qed.

Lemma demo_fault_enabled p : 0 <= p → ienabled (IFault 50 p 0x4000) demo_used.
Proof. intros Hp. split; [done|]. eexists. split; [by vm_compute|]. by eexists. Qed.

Lemma ion_safe_witness : wp (run_icall demo_custom (IFault 50 1 0x4000)) (λ _ s', held s' = []) demo_used ∧
  exposed (IFault 50 2 0x4000) demo_used.
Proof.
  pose proof (λ e, ion_safe demo_custom demo_custom_safe 7 demo_used e demo_used_reached eq_refl) as H. split.
  - refine (wpu_well _ _ _ _ (H _ (demo_fault_enabled 1 Z.le_0_1)) _). by vm_compute.
  - refine (wpu_undefined _ _ _ _ (H _ (demo_fault_enabled 2 Z.le_0_2)) _). by vm_compute.
Defined.

Lemma ion_buffers_owned_witness : mem (trace demo_used) = 1 ∧ ∃ x, buffers demo_used !! 103 = Some x ∧ b_ref x = 3 ∧
  (held_by_users 103 x demo_used ∨ waits_to_be_freed 103 x demo_used).
Proof.
  destruct (ion_buffers_owned demo_custom demo_custom_safe 7 demo_used demo_used_reached eq_refl) as [Hmem Hown].
  split; [by rewrite Hmem; vm_compute|]. eexists. split; [by vm_compute|]. split; [done|]. apply Hown. by vm_compute.
Defined.

Lemma ion_memory_returned_witness : mem (trace demo_closed) = 0.
Proof.
  rewrite (ion_memory_returned demo_custom demo_custom_safe 11 demo_closed demo_closed_reached eq_refl); by vm_compute.
Defined.

Lemma alloc_exact_witness : wp (ion_alloc 102 8000 4096 2 0) (λ r s', match r with
      | inr h => ∃ y z hp, handles s' !! h = Some y ∧ h_client y = 102 ∧ h_ref y = 1 ∧
          buffers s' !! h_buffer y = Some z ∧ b_size z = PAGE_ALIGN 8000 ∧ b_flags z = 0 ∧
          b_heap z ∈ d_heaps demo_used ∧ heaps demo_used !! b_heap z = Some hp ∧ may_serve 8000 2 hp
      | inl _ => True
      end) demo_used.
Proof.
  assert (Hc : is_Some (clients demo_used !! 102)) by (by apply (bool_decide_unpack _); vm_compute).
  refine (wpu_well _ _ _ _ (alloc_exact demo_custom demo_custom_safe 7 _ _ _ _ _ _ demo_used_reached eq_refl Hc) _).
  by vm_compute.
Defined.

Lemma share_then_import_witness : ∃ y x, handles demo_exported !! 104 = Some y ∧ clients demo_exported !! 101 = Some x ∧
  wp (share_import 101 104 101 id) (λ r s', match r with
      | None => True
      | Some (inl _) => c_handles x !! h_buffer y = None
      | Some (inr k) => (∃ z, handles s' !! k = Some z ∧ h_client z = 101 ∧ h_buffer z = h_buffer y) ∧
          (101 = 101 → k = 104) ∧ ∀ k', c_handles x !! h_buffer y = Some k' → k = k'
      end) demo_exported.
Proof.
  do 2 eexists. split; [by vm_compute|]. split; [by vm_compute|].
  eapply (share_then_import demo_custom demo_custom_safe 5); [apply demo_exported_reached|done|by vm_compute|done|by vm_compute|].
  intros d s' Hd. cbn. by rewrite decide_True by (by apply elem_of_dom).
Defined.

Lemma bad_handle_refused_witness : ∃ x, clients demo_used !! 102 = Some x ∧
  wp (ion_ioctl demo_custom 102 0xc0044901 0) (λ r s', r = - EINVAL ∧ buffers s' = buffers demo_used ∧
    handles s' = handles demo_used ∧ clients s' = clients demo_used ∧ exported s' = exported demo_used ∧
    freelist s' = freelist demo_used ∧ held s' = []) demo_used.
Proof.
  eexists. split; [by vm_compute|]. eapply (bad_handle_refused demo_custom demo_custom_safe 7 _ _ _ _ _ 0 []);
    [apply demo_used_reached|done|by vm_compute|by left|by vm_compute|by vm_compute].
Defined.

(** The second import never comes back. *)
Lemma import_race_witness : wp (import_create 102 103) (λ r s1, match r with
      | inr _ => wlp (import_create 102 103) (λ r' _, ∃ e, r' = inl e) s1 ∧ import_create 102 103 s1 = Stuck
      | inl _ => True
      end) demo_exported.
Proof.
  assert (Hstuck : wp (import_create 102 103) (λ r s1, import_create 102 103 s1 = Stuck) demo_exported) by by vm_compute.
  eapply wp_mono; [apply wp_and; [exact Hstuck|]|].
  - eapply (import_race demo_custom demo_custom_safe 5 _ 102 103);
      [apply demo_exported_reached|done|by vm_compute|by apply (bool_decide_unpack _); vm_compute|by vm_compute].
  - intros [e|h] s1 [H1 H2]; [done|]. by split.
Defined.

Lemma free_race_witness : wp (ion_handle_get_by_id 101 1 ;; ion_handle_get_by_id 101 1 ;;
  ion_free 101 104 ;; ion_free 101 104 ;; ion_handle_put 104) (λ _ s', ion_handle_put 104 s' = Undefined) demo_exported.
Proof.
  eapply (free_race demo_custom demo_custom_safe 5);
    [apply demo_exported_reached|done|by vm_compute|by vm_compute|by vm_compute|done].
Defined.

Lemma alloc_unserved_witness : ion_alloc 101 8000 4096 4 0 demo_exported = Undefined.
Proof.
  apply (alloc_unserved demo_custom demo_custom_safe 5); [apply demo_exported_reached|done|by apply (bool_decide_unpack _); vm_compute|done|].
  intros h Hh. assert (E : d_heaps demo_exported = [100]) by by vm_compute. rewrite E in Hh. apply list_elem_of_singleton in Hh as ->.
  by split; vm_compute.
Defined.

Lemma fault_past_end_witness : ion_vm_fault 50 2 0x4000 demo_used = Undefined.
Proof.
  eapply (fault_past_end demo_custom demo_custom_safe 7); [apply demo_used_reached|done|by vm_compute|done|by vm_compute|by vm_compute].
Defined.
