(* ===== verification/BtWitness.v ===== *)
(** * Bluetooth: a concrete platform and the theorems at concrete inputs

    The stream macros, operation codes and sizes as the Bluetooth headers have
    them, and each property of the Bluetooth files applied where its hypotheses
    hold. *)

From S2P Require Import Prelude CMonad BtTypes HciBuf HciCmds HciCmdsSpec HciParser HciParserSpec.
From S2P Require Import Controller ControllerSpec.

(** ** The platform *)

#[export] Instance le_macros : BtMacros := {
  wr8 x := [x mod 256];
  wr16 x := [x mod 256; (x / 256) mod 256];
  wr_bda a := rev a;
  wr_array a := a;
  rd8 s := default 0 (s !! 0%nat) mod 256;
  rd16 s := default 0 (s !! 0%nat) mod 256 + 256 * (default 0 (s !! 1%nat) mod 256);
  rd_bda s := rev (take 6 (s ++ replicate 6 0))
}.

Lemma rd_wr16_le x : x mod 256 mod 256 + 256 * (x / 256 mod 256 mod 256) = u16 x.
Proof. unfold wrap. change (2 ^ 16) with (256 * 256). rewrite Z.rem_mul_r, !Zmod_mod by lia. done. Qed.

#[export] Instance le_macros_ok : BtMacrosOk.
Proof.
  split; cbn [wr8 wr16 wr_bda wr_array rd8 rd16 rd_bda le_macros]; try done.
  - intros a Ha. by rewrite length_rev.
  - intros x s. apply Zmod_mod.
  - intros x s. apply rd_wr16_le.
  - intros a s Ha. rewrite <- app_assoc, take_app_length'; [apply rev_involutive|by rewrite length_rev].
  - intros s. apply Z.mod_pos_bound. lia.
  - intros s. change (2 ^ 16) with (256 * 256).
    pose proof (Z.mod_pos_bound (default 0 (s !! 0%nat)) 256 ltac:(lia)).
    pose proof (Z.mod_pos_bound (default 0 (s !! 1%nat)) 256 ltac:(lia)). lia.
  - intros s. rewrite length_rev, length_take, length_app, length_replicate. unfold BD_ADDR_LEN. lia.
Qed.

#[export] Instance le_opcodes : LeOpcodes := {
  HCI_READ_LE_HOST_SUPPORT := 3180; HCI_LE_SET_EXTENDED_SCAN_PARAMETERS := 8257;
  HCI_LE_SET_EXTENDED_SCAN_ENABLE := 8258; HCI_LE_EXTENDED_CREATE_CONNECTION := 8259;
  HCI_BLE_WRITE_SCAN_RSP_DATA := 8201; HCI_BLE_WRITE_SCAN_PARAMS := 8203;
  HCI_BLE_WRITE_SCAN_ENABLE := 8204; HCI_BLE_WRITE_RANDOM_ADDR := 8197;
  HCI_BLE_WRITE_LOCAL_SPT_FEAT := 8196; HCI_BLE_WRITE_ADV_PARAMS := 8198;
  HCI_BLE_WRITE_ADV_ENABLE := 8202; HCI_BLE_WRITE_ADV_DATA := 8200; HCI_BLE_UPD_LL_CONN_PARAMS
  := 8211; HCI_BLE_TRANSMITTER_TEST := 8222; HCI_BLE_TEST_END := 8223; HCI_BLE_START_ENC :=
  8217; HCI_BLE_SET_RAND_PRIV_ADDR_TIMOUT := 8238; HCI_BLE_SET_PRIVACY_MODE := 8270;
  HCI_BLE_SET_HOST_CHNL_CLASS := 8212; HCI_BLE_SET_DATA_LENGTH := 8226;
  HCI_BLE_SET_ADDR_RESOLUTION_ENABLE := 8237; HCI_BLE_RM_DEV_RESOLVING_LIST := 8232;
  HCI_BLE_REMOVE_WHITE_LIST := 8210; HCI_BLE_RECEIVER_TEST := 8221;
  HCI_BLE_READ_RESOLVABLE_ADDR_PEER := 8235; HCI_BLE_READ_RESOLVABLE_ADDR_LOCAL := 8236;
  HCI_BLE_READ_REMOTE_FEAT := 8214; HCI_BLE_READ_CHNL_MAP := 8213;
  HCI_BLE_READ_ADV_CHNL_TX_POWER := 8199; HCI_BLE_RC_PARAM_REQ_REPLY := 8224;
  HCI_BLE_RC_PARAM_REQ_NEG_REPLY := 8225; HCI_BLE_RAND := 8216; HCI_BLE_LTK_REQ_REPLY := 8218;
  HCI_BLE_LTK_REQ_NEG_REPLY := 8219; HCI_BLE_ENH_TRANSMITTER_TEST := 8244;
  HCI_BLE_ENH_RECEIVER_TEST := 8243; HCI_BLE_ENCRYPT := 8215; HCI_BLE_CREATE_LL_CONN := 8205;
  HCI_BLE_CREATE_CONN_CANCEL := 8206; HCI_BLE_CLEAR_WHITE_LIST := 8208;
  HCI_BLE_CLEAR_RESOLVING_LIST := 8233; HCI_BLE_ADD_WHITE_LIST := 8209;
  HCI_BLE_ADD_DEV_RESOLVING_LIST := 8231
}.

#[export] Instance hcic_sizes : HcicSizes := {
  cmd_room := 652; sizeof_voidp := 4;
  BT_OCTET8_LEN := 8; HCIC_PREAMBLE_SIZE := 3; HCIC_PARAM_SIZE_READ_CMD := 0;
  HCIC_PARAM_SIZE_WRITE_PARAM1 := 1; HCIC_PARAM_SIZE_WRITE_PARAM3 := 3;
  HCIC_PARAM_SIZE_SET_USED_FEAT_CMD := 8; HCIC_PARAM_SIZE_WRITE_RANDOM_ADDR_CMD := 6;
  HCIC_PARAM_SIZE_BLE_WRITE_ADV_PARAMS := 15; HCIC_PARAM_SIZE_BLE_WRITE_ADV_DATA := 31;
  HCIC_PARAM_SIZE_BLE_WRITE_SCAN_RSP := 31; HCIC_PARAM_SIZE_WRITE_ADV_ENABLE := 1;
  HCIC_PARAM_SIZE_BLE_WRITE_SCAN_PARAM := 7; HCIC_PARAM_SIZE_BLE_WRITE_SCAN_ENABLE := 2;
  HCIC_PARAM_SIZE_BLE_CREATE_LL_CONN := 25; HCIC_PARAM_SIZE_BLE_CREATE_CONN_CANCEL := 0;
  HCIC_PARAM_SIZE_ADD_WHITE_LIST := 7; HCIC_PARAM_SIZE_REMOVE_WHITE_LIST := 7;
  HCIC_PARAM_SIZE_BLE_UPD_LL_CONN_PARAMS := 14; HCIC_PARAM_SIZE_SET_HOST_CHNL_CLASS := 5;
  HCIC_PARAM_SIZE_READ_CHNL_MAP := 2; HCIC_PARAM_SIZE_BLE_READ_REMOTE_FEAT := 2;
  HCIC_PARAM_SIZE_BLE_ENCRYPT := 32; HCIC_PARAM_SIZE_BLE_START_ENC := 28;
  HCIC_PARAM_SIZE_LTK_REQ_REPLY := 18; HCIC_PARAM_SIZE_LTK_REQ_NEG_REPLY := 2;
  HCIC_PARAM_SIZE_BLE_RC_PARAM_REQ_REPLY := 14; HCIC_PARAM_SIZE_BLE_RC_PARAM_REQ_NEG_REPLY := 3;
  HCIC_PARAM_SIZE_BLE_ADD_DEV_RESOLVING_LIST := 39; HCIC_PARAM_SIZE_BLE_RM_DEV_RESOLVING_LIST :=
  7; HCIC_PARAM_SIZE_BLE_SET_PRIVACY_MODE := 8; HCIC_PARAM_SIZE_BLE_CLEAR_RESOLVING_LIST := 0;
  HCIC_PARAM_SIZE_BLE_READ_RESOLVABLE_ADDR_PEER := 7;
  HCIC_PARAM_SIZE_BLE_READ_RESOLVABLE_ADDR_LOCAL := 7;
  HCIC_PARAM_SIZE_BLE_SET_ADDR_RESOLUTION_ENABLE := 1;
  HCIC_PARAM_SIZE_BLE_SET_RAND_PRIV_ADDR_TIMOUT := 2; HCIC_PARAM_SIZE_BLE_SET_DATA_LENGTH := 6;
  HCIC_PARAM_SIZE_BLE_ENH_RX_TEST := 3; HCIC_PARAM_SIZE_BLE_ENH_TX_TEST := 4;
  HCIC_BLE_CHNL_MAP_SIZE := 5; HCIC_BLE_ENCRYT_KEY_SIZE := 16; HCIC_BLE_RAND_DI_SIZE := 8
}.

#[export] Instance hcic_sizes_ok : HcicSizesOk.
Proof. split; reflexivity || (cbn; lia). Qed.

(** ** The commands *)

Definition addr1 : bytes := [1; 2; 3; 4; 5; 6].
Definition key1 : bytes := [1; 2; 3; 4; 5; 6; 7; 8; 9; 10; 11; 12; 13; 14; 15; 16].
(** Extended scanning on two PHYs. *)
Definition scan1 : le_command :=
  Le_set_extended_scan_params 0 0 5 [mk_scanning_phy_cfg 1 16 16; mk_scanning_phy_cfg 1 32 48].

Lemma scan1_valid : le_valid scan1.
Proof.
  split; [|vm_compute; discriminate].
  repeat (apply Forall_cons; split); try apply Forall_nil; vm_compute; intuition discriminate.
Qed.


(** The reply that carries a long term key. *)
Definition reply1 : le_command := Le_ltk_req_reply 64 key1.

Lemma reply1_valid : le_valid reply1.
Proof.
  split; [|exact I].
  repeat (apply Forall_cons; split); try apply Forall_nil; vm_compute; intuition discriminate.
Qed.

Lemma le_command_read_back_witness : ∃ params,
  is_command (le_send reply1) (le_opcode reply1) params ∧
  decode (kind_of <$> le_fields reply1) params = Some (le_fields reply1).
Proof. apply (le_command_read_back reply1). exact reply1_valid. Defined.

(** Three bytes of advertising data. *)
Lemma adv_data_exact_witness :
  adv_command (btsnd_hcic_ble_set_adv_data 3 (Some [2; 1; 6])) HCI_BLE_WRITE_ADV_DATA 3 (Some [2; 1; 6]) ∧
  adv_command (btsnd_hcic_ble_set_scan_rsp_data 3 (Some [2; 1; 6])) HCI_BLE_WRITE_SCAN_RSP_DATA 3
    (Some [2; 1; 6]) ∧
  (None ∈ adv_cells (adv_payload 3 (Some [2; 1; 6])) ↔ (Some [2; 1; 6] = None ∨ 3 < 31)).
Proof.
  apply (adv_data_exact 3 (Some [2; 1; 6])).
  - split; [lia|reflexivity].
  - intros d E. injection E as <-. cbn. lia.
Defined.

Lemma local_used_feat_malformed_witness :
  ∃ c, btsnd_hcic_ble_set_local_used_feat [1; 0; 0; 0; 0; 0; 0; 0] = Some (SendCmd c) ∧
    packet c = (Some <$> wr16 HCI_BLE_WRITE_LOCAL_SPT_FEAT ++ [1; 0; 0; 0; 0; 0; 0; 0]) ++ [None].
Proof. apply (local_used_feat_malformed [1; 0; 0; 0; 0; 0; 0; 0]). reflexivity. Defined.

(** ** The parsers *)

#[export] Instance hci_defs : HciDefs := {
  HCI_COMMAND_COMPLETE_EVT := 0x0e; HCI_SUCCESS := 0;
  HCI_READ_BUFFER_SIZE := 0x1005; HCI_READ_LOCAL_VERSION_INFO := 0x1001;
  HCI_READ_LOCAL_SUPPORTED_CODECS := 0x100b; HCI_READ_BD_ADDR := 0x1009;
  HCI_READ_LOCAL_SUPPORTED_CMDS := 0x1002; HCI_READ_LOCAL_EXT_FEATURES := 0x1004;
  HCI_BLE_READ_WHITE_LIST_SIZE := 0x200f; HCI_BLE_READ_BUFFER_SIZE := 0x2002;
  HCI_BLE_READ_SUPPORTED_STATES := 0x201c; HCI_BLE_READ_LOCAL_SPT_FEAT := 0x2003;
  HCI_BLE_READ_RESOLVING_LIST_SIZE := 0x202a; HCI_BLE_READ_DEFAULT_DATA_LENGTH := 0x2023;
  HCI_BLE_READ_MAXIMUM_DATA_LENGTH := 0x202f; HCI_LE_READ_MAXIMUM_ADVERTISING_DATA_LENGTH := 0x203a;
  HCI_LE_READ_NUMBER_OF_SUPPORTED_ADVERTISING_SETS := 0x203b
}.

#[export] Instance hci_defs_ok : HciDefsOk.
Proof. split; vm_compute; intuition discriminate. Qed.

Lemma answer_round_trip_witness : ∃ s,
  run_parser (parse_answer KBufferSize)
    (complete_event 1 HCI_READ_BUFFER_SIZE HCI_SUCCESS (encode [F16 1021; F8 64; F16 10] ++ [4; 0])) =
  Ret (ABufferSize 1021 10) s ∧ frees s = 1%nat.
Proof.
  apply (answer_round_trip KBufferSize (ABufferSize 1021 10) [F16 1021; F8 64; F16 10] [4; 0]
    1 HCI_READ_BUFFER_SIZE).
  - constructor.
  - repeat (apply Forall_cons; split); try apply Forall_nil; vm_compute; intuition discriminate.
  - reflexivity.
  - vm_compute; intuition discriminate.
  - vm_compute; discriminate.
Defined.

(** The chip of this device answers a command it does not know with Command Status. *)
Definition status_event : bytes := [0x0f; 4; 1; 1; 0x53; 0xfd].

Lemma status_refused k : refused k status_event.
Proof. left. split; [cbn; lia|discriminate]. Qed.

Lemma answer_refused_witness :
  (lenient KResolvingList → run_parser (parse_answer KResolvingList) status_event =
     Ret (refusal KResolvingList) (mk_pst None 1)) ∧
  (unchecked KResolvingList → run_parser (parse_answer KResolvingList) status_event = Undefined) ∧
  (¬ lenient KResolvingList → ¬ unchecked KResolvingList →
     ∃ s, run_parser (parse_answer KResolvingList) status_event = Exit ABORTED s ∧ frees s = 0%nat).
Proof. apply (answer_refused KResolvingList status_event). apply status_refused. Defined.

Lemma answer_safe_witness : tidy (run_parser (parse_answer KAddress) [0x0e; 3; 1; 0x09; 0x10]).
Proof.
  apply (answer_safe KAddress).
  - split; vm_compute; [repeat constructor|discriminate].
  - intros [].
  - discriminate.
Defined.

Lemma codecs_overflow_witness :
  run_parser (parse_read_local_supported_codecs_response (zeros 8))
    (complete_event 1 HCI_READ_LOCAL_SUPPORTED_CODECS HCI_SUCCESS
       (wr8 9 ++ encode (F8 <$> zeros 9) ++ [0])) = Undefined.
Proof.
  apply (codecs_overflow (zeros 8) (zeros 9) [0] 1).
  - vm_compute. repeat constructor.
  - repeat (apply Forall_cons; split); try apply Forall_nil; vm_compute; intuition discriminate.
  - vm_compute; intuition discriminate.
  - vm_compute; discriminate.
Defined.

(** ** The controller *)

(** The features of a 2.1+EDR chip: one page, simple pairing in bit 3 of byte 6. *)
#[export] Instance feature_bits : FeatureBits := {
  HCI_SIMPLE_PAIRING_SUPPORTED x := Z.testbit (default 0 (x !! 6%nat)) 3;
  HCI_LE_SPT_SUPPORTED x := Z.testbit (default 0 (x !! 4%nat)) 6;
  HCI_SIMUL_LE_BREDR_SUPPORTED x := Z.testbit (default 0 (x !! 6%nat)) 1;
  HCI_SC_CTRLR_SUPPORTED x := Z.testbit (default 0 (x !! 1%nat)) 0;
  HCI_LE_HOST_SUPPORTED x := Z.testbit (default 0 (x !! 0%nat)) 1;
  HCI_LMP_INTERLACED_INQ_SCAN_SUPPORTED x := Z.testbit (default 0 (x !! 3%nat)) 4;
  HCI_LMP_INQ_RSSI_SUPPORTED x := Z.testbit (default 0 (x !! 3%nat)) 6;
  HCI_EXT_INQ_RSP_SUPPORTED x := Z.testbit (default 0 (x !! 6%nat)) 0;
  HCI_SWITCH_SUPPORTED x := Z.testbit (default 0 (x !! 0%nat)) 5;
  HCI_LE_ENHANCED_PRIVACY_SUPPORTED x := Z.testbit (default 0 (x !! 0%nat)) 6;
  HCI_LE_DATA_LEN_EXT_SUPPORTED x := Z.testbit (default 0 (x !! 0%nat)) 5;
  HCI_LE_EXTENDED_ADVERTISING_SUPPORTED x := Z.testbit (default 0 (x !! 1%nat)) 4;
  HCI_LE_PERIODIC_ADVERTISING_SUPPORTED x := Z.testbit (default 0 (x !! 1%nat)) 5;
  HCI_LE_CONN_PARAM_REQ_SUPPORTED x := Z.testbit (default 0 (x !! 0%nat)) 1;
  HCI_LE_2M_PHY_SUPPORTED x := Z.testbit (default 0 (x !! 1%nat)) 0;
  HCI_LE_CODED_PHY_SUPPORTED x := Z.testbit (default 0 (x !! 1%nat)) 3;
  HCI_READ_LOCAL_CODECS_SUPPORTED x := Z.testbit (default 0 (x !! 29%nat)) 5;
  HCI_READ_ENCR_KEY_SIZE_SUPPORTED x := Z.testbit (default 0 (x !! 20%nat)) 4;
  HCI_READ_REMOTE_EXT_FEATURES_SUPPORTED x := Z.testbit (default 0 (x !! 2%nat)) 6;
  HCI_ENH_SETUP_SYNCH_CONN_SUPPORTED x := Z.testbit (default 0 (x !! 29%nat)) 3;
  HCI_ENH_ACCEPT_SYNCH_CONN_SUPPORTED x := Z.testbit (default 0 (x !! 29%nat)) 4;
  HCI_LE_SET_PRIVACY_MODE_SUPPORTED x := Z.testbit (default 0 (x !! 39%nat)) 2
}.

#[export] Instance bt_config : BtConfig := {
  L2CAP_MTU_SIZE := 1691; L2CAP_HOST_FC_ACL_BUFS := 20; HCI_SP_MODE_ENABLED := 1;
  BTM_BLE_SIMULTANEOUS_HOST := 1; BTM_BLE_HOST_SUPPORT := 1; HCI_SC_MODE_ENABLED := 1;
  HCI_DATA_PREAMBLE_SIZE := 4; PHY_LE_1M := 1;
  HCI_DUMO_EVENT_MASK_EXT := [0x3d; 0xbf; 0xff; 0xff; 0xff; 0xff; 0xff; 0xff];
  BTM_SCO_ENHANCED_SYNC_ENABLED := true; SC_MODE_INCLUDED := true; BLE_PRIVACY_SPT := true
}.

Definition marvell : chip :=
  mk_chip 1021 64 7 (mk_bt_version 4 100 4 72 200) addr1 (<[20%nat := 0x0c]> (zeros 64))
    0 (λ _, [0xff; 0xff; 0x8f; 0xfe; 0x9b; 0xf9; 0x08; 0x80]) false
    0 0 0 (zeros 8) (zeros 8) 0 (0, 0, 0, 0) 0 0 0 None.

Definition op_of (c : hcmd) : Z :=
  match c with
  | make_read_buffer_size => HCI_READ_BUFFER_SIZE
  | make_read_local_version_info => HCI_READ_LOCAL_VERSION_INFO
  | make_read_bd_addr => HCI_READ_BD_ADDR
  | make_read_local_supported_commands => HCI_READ_LOCAL_SUPPORTED_CMDS
  | make_read_local_extended_features _ => HCI_READ_LOCAL_EXT_FEATURES
  | make_ble_read_white_list_size => HCI_BLE_READ_WHITE_LIST_SIZE
  | make_ble_read_buffer_size => HCI_BLE_READ_BUFFER_SIZE
  | make_ble_read_supported_states => HCI_BLE_READ_SUPPORTED_STATES
  | make_ble_read_local_supported_features => HCI_BLE_READ_LOCAL_SPT_FEAT
  | make_ble_read_resolving_list_size => HCI_BLE_READ_RESOLVING_LIST_SIZE
  | make_ble_read_maximum_data_length => HCI_BLE_READ_MAXIMUM_DATA_LENGTH
  | make_ble_read_suggested_default_data_length => HCI_BLE_READ_DEFAULT_DATA_LENGTH
  | make_ble_read_maximum_advertising_data_length => HCI_LE_READ_MAXIMUM_ADVERTISING_DATA_LENGTH
  | make_ble_read_number_of_supported_advertising_sets => HCI_LE_READ_NUMBER_OF_SUPPORTED_ADVERTISING_SETS
  | make_read_local_supported_codecs => HCI_READ_LOCAL_SUPPORTED_CODECS
  | _ => 0x0c03
  end.

(** It answers the offload command with Command Status, the codecs command too,
    and everything else with Command Complete. *)
#[export] Instance marvell_chip : Chip := {
  answer_of _ c :=
    match c with
    | make_ble_read_offload_features_support | make_read_local_supported_codecs => Some status_event
    | _ => Some (complete_event 1 (op_of c) HCI_SUCCESS (encode (fields_of marvell c) ++ []))
    end
}.

Lemma marvell_obeys : obeys marvell.
Proof.
  intros hist c. eexists. split.
  { instantiate (1 := match c with
      | make_ble_read_offload_features_support | make_read_local_supported_codecs => status_event
      | _ => complete_event 1 (op_of c) HCI_SUCCESS (encode (fields_of marvell c) ++ []) end).
    destruct c; reflexivity. }
  destruct c; first
    [ by right; split; [reflexivity|apply status_refused]
    | left; split; [exact I|]; exists 1; eexists; exists []; split_and!;
      [reflexivity|vm_compute; intuition discriminate|done|vm_compute; discriminate] ].
Qed.

Lemma marvell_ok : chip_ok marvell.
Proof.
  split; [|cbn; lia]. intros c Hc. destruct c; cbn [fields_of];
    try pose proof (Hc _ eq_refl);
    repeat (apply Forall_cons; split); try apply Forall_nil; unfold field_ok, in_width;
    first [lia | reflexivity | vm_compute; intuition discriminate].
Qed.

Lemma ctl0_ok : ctl_ok ctl0.
Proof. split_and!; try reflexivity. repeat (apply Forall_cons; split); try apply Forall_nil; reflexivity. Qed.

Lemma start_up_exact_witness :
  wp (start_up 3) (λ _ s', ∃ cmds, s' = configured marvell ctl0 cmds) ctl0.
Proof.
  apply (start_up_exact marvell 3 ctl0).
  - exact marvell_obeys.
  - exact marvell_ok.
  - exact ctl0_ok.
  - lia.
Defined.

Lemma start_up_without_le_witness :
  wp (start_up 3) (λ _ s',
    readable s' = true ∧ ble_supported s' = false ∧
    (∀ m, m ∈ le_flags → m s' = Ret false s') ∧ (∀ m, m ∈ le_numbers → m s' = Ret 0 s') ∧
    get_address s' = Ret (ch_address marvell) s' ∧
    get_acl_data_size_classic s' = Ret (ch_acl_size marvell) s' ∧
    supports_read_encryption_key_size s' =
      Ret (HCI_READ_ENCR_KEY_SIZE_SUPPORTED (commands_of marvell)) s') ctl0.
Proof.
  apply (start_up_without_le marvell 3 ctl0).
  - exact marvell_obeys.
  - exact marvell_ok.
  - exact ctl0_ok.
  - lia.
  - reflexivity.
Defined.

Lemma getters_guarded_witness :
  (∀ m, m ∈ guarded_flags → m ctl0 = Exit ABORTED ctl0) ∧ get_address ctl0 = Exit ABORTED ctl0.
Proof.
  destruct (getters_guarded ctl0) as (H & _). destruct (H eq_refl) as (H1 & _ & H2 & _). by split.
Defined.

(** A chip that reports page 0, and two pages, whatever it is asked. *)
#[export] Instance page0_chip : Chip | 100 := {
  answer_of _ _ := Some (complete_event 1 HCI_READ_LOCAL_EXT_FEATURES HCI_SUCCESS
    (encode [F8 0; F8 1; FOctets 8 (zeros 8)] ++ []))
}.

Lemma read_pages_diverges_witness :
  @read_pages _ _ page0_chip 1000 1 (set_last_features_classic_page_index 1 ctl0) = Stuck.
Proof.
  apply (@read_pages_diverges _ _ _ _ page0_chip 1 (zeros 8) 1000).
  - vm_compute; intuition discriminate.
  - vm_compute; intuition discriminate.
  - lia.
  - reflexivity.
  - intros hist p. exists 1, []. split; [reflexivity|]. vm_compute. discriminate.
  - reflexivity.
  - reflexivity.
Defined.

(** * The theorems on the H4 transport at concrete inputs *)

From S2P Require Import H4 H4Spec.

#[export] Instance h4_types : H4Types := {
  HCI_PACKET_TYPE_UNKNOWN := 0; HCI_PACKET_TYPE_ACL_DATA := 2; HCI_PACKET_TYPE_SCO_DATA := 3;
  HCI_PACKET_TYPE_EVENT := 4
}.
#[export] Instance h4_types_ok : H4TypesOk.
Proof. split; [done|]. by split_and!. Qed.

(** The bytes of the header of a type, and how many parameters it announces. *)
Definition header_size (t : Z) : nat := if t =? 4 then 2 else if t =? 2 then 4 else 3.
Definition announced (t : Z) (h : bytes) : nat :=
  if t =? 2 then Z.to_nat (nth 2 h 0 + 256 * nth 3 h 0) else Z.to_nat (nth (header_size t - 1) h 0).
Definition whole (t : Z) (p : bytes) : bool :=
  bool_decide (header_size t ≤ length p)%nat && bool_decide (length p = header_size t + announced t p)%nat.

Record collector : Type := mk_collector { collected : bytes; finished : bytes }.

#[export] Instance collecting : Packetizer := {
  hci_packetizer := collector;
  pz_OnDataReady t r z :=
    match r with
    | RBytes (b :: _) =>
        let p := collected z ++ [b] in
        if whole t p then Some (mk_collector [] p, 1%nat, true) else Some (mk_collector p (finished z), 1%nat, false)
    | _ => None
    end;
  GetPacket z := finished z
}.

Lemma announced_app t h s : (header_size t ≤ length h)%nat → announced t (h ++ s) = announced t h.
Proof.
  unfold announced, header_size. intros Hl. destruct (Z.eqb_spec t 4), (Z.eqb_spec t 2); try lia;
    rewrite ?(app_nth1 h) by (cbn in *; lia); done.
Qed.

(** No proper prefix of a whole packet is whole. *)
Lemma whole_prefix t p q : whole t (p ++ q) = true → whole t p = bool_decide (q = []).
Proof.
  unfold whole. intros [H1%bool_decide_eq_true H2%bool_decide_eq_true]%andb_true_iff.
  destruct (decide (header_size t ≤ length p)%nat) as [Hl|Hl].
  - rewrite announced_app in H2 by done. rewrite length_app in H2. rewrite bool_decide_eq_true_2 by done. cbn.
    apply bool_decide_ext. split; [|intros ->; cbn in H2; lia]. intros E. destruct q; [done|cbn in H2; lia].
  - rewrite bool_decide_eq_false_2 by done. cbn. rewrite bool_decide_eq_false_2; [done|]. intros ->.
    rewrite app_nil_r in H1. done.
Qed.

Lemma collecting_reads t p z rest avail more :
  whole t p = true ∧ p ≠ [] → p = collected z ++ rest → rest ≠ [] → avail ≠ [] → avail `prefix_of` rest ++ more →
  ∃ z' n, pz_OnDataReady t (RBytes avail) z = Some (z', n, bool_decide (n = length rest)) ∧
    (1 ≤ n ≤ length rest)%nat ∧ (n ≤ length avail)%nat ∧
    if bool_decide (n = length rest) then GetPacket z' = p ∧ collected z' = []
    else collected z' = collected z ++ take n rest.
Proof.
  intros [Hw Hp] Hh Hr Ha [k Hk]. cbn. destruct avail as [|b avail]; [done|].
  destruct rest as [|c rest]; [done|]. injection Hk as Hc Hk. subst c.
  assert (p = (collected z ++ [b]) ++ rest) as E by (by rewrite <- app_assoc).
  rewrite E in Hw. pose proof (whole_prefix _ _ _ Hw) as Hx. rewrite Hx.
  destruct rest as [|d rest].
  - exists (mk_collector [] (collected z ++ [b])), 1%nat. cbn. rewrite E, app_nil_r. split_and!; done || lia.
  - exists (mk_collector (collected z ++ [b]) (finished z)), 1%nat. cbn. split_and!; done || lia.
Qed.

#[export] Instance collecting_ok : PacketizerOk := {|
  is_packet t p := whole t p = true ∧ p ≠ [];
  held := collected : hci_packetizer → bytes;
  packet_nonempty t p H := proj2 H;
  pz_reads := collecting_reads
|}.

(** A stray byte and the answer to a command, which arrive in two parts. *)
Definition stray : list item := [Junk 0xff; Packet 4 [0x0e; 1; 7]].
Definition h4_start : h4 := mk_h4 0 (mk_collector [] []) [] [].

Lemma start_idle : idle h4_start.
Proof. done. Qed.
Lemma stray_ok : Forall item_ok stray.
Proof. repeat constructor; done. Qed.

(** Take [avail], the first part of what is left. *)
Definition call_of (avail : bytes) (x : h4 * bytes) : h4 * bytes :=
  match OnDataReady (RBytes avail) x.1 with Ret n s => (s, drop n x.2) | _ => x end.
Definition received : h4 * bytes :=
  call_of [7] (call_of [1; 7] (call_of [0x0e] (call_of [4; 0x0e] (call_of [0xff; 4] (h4_start, encode stray))))).

Ltac one avail :=
  match goal with |- nsteps _ _ ?x _ =>
    apply (nsteps_l _ _ x (call_of avail x));
    [exists avail, 1%nat; split_and!;
      [done|eexists; vm_compute; reflexivity|vm_compute; reflexivity|vm_compute; reflexivity]|]
  end.

Lemma received_steps : nsteps call 5 (h4_start, encode stray) received.
Proof. one [0xff; 4]. one [4; 0x0e]. one [0x0e]. one [1; 7]. one [7]. apply nsteps_O. Qed.

Lemma h4_delivers_witness :
  nsteps call 5 (h4_start, encode stray) received ∧ received.2 = [] ∧ delivered received.1 = [Event [0x0e; 1; 7]].
Proof.
  split; [exact received_steps|]. split; [vm_compute; reflexivity|].
  apply (h4_delivers 5 stray h4_start received.1 [] start_idle stray_ok); [exact received_steps|reflexivity].
Defined.

(** The same packet is sent after two attempts. *)
Definition sent : list outgoing := [mk_outgoing 4 [0x0e; 1; 7] [WInterrupted; WAgain; Written 4]].
Definition sender : h4 := match sends 32 sent h4_start with Ret _ s => s | _ => h4_start end.
Definition transferred : h4 * bytes :=
  call_of [7] (call_of [1; 7] (call_of [0x0e; 1] (call_of [4; 0x0e] (h4_start, concat (uart sender))))).

Lemma transferred_steps : nsteps call 4 (h4_start, concat (uart sender)) (transferred.1, []).
Proof. one [4; 0x0e]. one [0x0e; 1]. one [1; 7]. one [7]. apply nsteps_O. Qed.

Lemma send_receive_witness :
  uart sender = [[4; 0x0e; 1; 7]] ∧ delivered transferred.1 = [Event [0x0e; 1; 7]].
Proof.
  refine (send_receive 32 sent h4_start sender h4_start 4 transferred.1 _ _ _ _ _ _).
  - apply Forall_cons. split; [|by apply Forall_nil]. exists [WInterrupted; WAgain], 4%nat, [].
    split; [reflexivity|]. split; [|cbn; lia].
    repeat (apply Forall_cons; split); [by left|by right|by apply Forall_nil].
  - apply Forall_cons. split; [|by apply Forall_nil]. split; [reflexivity|]. split; [reflexivity|discriminate].
  - reflexivity.
  - vm_compute. reflexivity.
  - exact start_idle.
  - exact transferred_steps.
Defined.

(** * The theorems on the device manager at concrete inputs *)

From S2P Require Import BtmDev BtmDevSpec.

(** Bit [i] of byte [n] of a feature page. *)
Definition feature (n : nat) (i : Z) (p : bytes) : bool := Z.testbit (nth n p 0) i.

#[export] Instance btm_feature_bits : BtmFeatureBits := {
  HCI_3_SLOT_PACKETS_SUPPORTED := feature 0 0; HCI_5_SLOT_PACKETS_SUPPORTED := feature 0 1;
  HCI_EDR_ACL_2MPS_SUPPORTED := feature 3 1; HCI_EDR_ACL_3MPS_SUPPORTED := feature 3 2;
  HCI_3_SLOT_EDR_ACL_SUPPORTED := feature 4 7; HCI_5_SLOT_EDR_ACL_SUPPORTED := feature 5 0;
  HCI_SCO_LINK_SUPPORTED := feature 1 3; HCI_HV2_PACKETS_SUPPORTED := feature 1 4;
  HCI_HV3_PACKETS_SUPPORTED := feature 1 5; HCI_ESCO_EV3_SUPPORTED := feature 3 7;
  HCI_ESCO_EV4_SUPPORTED := feature 4 0; HCI_ESCO_EV5_SUPPORTED := feature 4 1;
  HCI_EDR_ESCO_2MPS_SUPPORTED := feature 5 5; HCI_EDR_ESCO_3MPS_SUPPORTED := feature 5 6;
  HCI_3_SLOT_EDR_ESCO_SUPPORTED := feature 5 7; HCI_HOLD_MODE_SUPPORTED := feature 0 6;
  HCI_SNIFF_MODE_SUPPORTED := feature 0 7; HCI_PARK_MODE_SUPPORTED := feature 1 0;
  HCI_NON_FLUSHABLE_PB_SUPPORTED := feature 6 6
}.

#[export] Instance btm_masks : BtmMasks := {
  BTM_ACL_PKT_TYPES_MASK_DM1 := 0x0008; BTM_ACL_PKT_TYPES_MASK_DH1 := 0x0010;
  BTM_ACL_PKT_TYPES_MASK_DM3 := 0x0400; BTM_ACL_PKT_TYPES_MASK_DH3 := 0x0800;
  BTM_ACL_PKT_TYPES_MASK_DM5 := 0x4000; BTM_ACL_PKT_TYPES_MASK_DH5 := 0x8000;
  BTM_ACL_PKT_TYPES_MASK_NO_2_DH1 := 0x0002; BTM_ACL_PKT_TYPES_MASK_NO_3_DH1 := 0x0004;
  BTM_ACL_PKT_TYPES_MASK_NO_2_DH3 := 0x0100; BTM_ACL_PKT_TYPES_MASK_NO_3_DH3 := 0x0200;
  BTM_ACL_PKT_TYPES_MASK_NO_2_DH5 := 0x1000; BTM_ACL_PKT_TYPES_MASK_NO_3_DH5 := 0x2000;
  ESCO_PKT_TYPES_MASK_HV1 := 0x0001; ESCO_PKT_TYPES_MASK_HV2 := 0x0002; ESCO_PKT_TYPES_MASK_HV3 := 0x0004;
  ESCO_PKT_TYPES_MASK_EV3 := 0x0008; ESCO_PKT_TYPES_MASK_EV4 := 0x0010; ESCO_PKT_TYPES_MASK_EV5 := 0x0020;
  ESCO_PKT_TYPES_MASK_NO_2_EV3 := 0x0040; ESCO_PKT_TYPES_MASK_NO_3_EV3 := 0x0080;
  ESCO_PKT_TYPES_MASK_NO_2_EV5 := 0x0100; ESCO_PKT_TYPES_MASK_NO_3_EV5 := 0x0200;
  BTM_ESCO_LINK_ONLY_MASK := 0x0038; HCI_ENABLE_MASTER_SLAVE_SWITCH := 1; HCI_ENABLE_HOLD_MODE := 2;
  HCI_ENABLE_SNIFF_MODE := 4; HCI_ENABLE_PARK_MODE := 8
}.
#[export] Instance btm_masks_ok : BtmMasksOk.
Proof. split; by split_and!. Qed.

#[export] Instance btm_config : BtmConfig := {
  BTM_SUCCESS := 0; BTM_CMD_STARTED := 1; BTM_BUSY := 2; BTM_NO_RESOURCES := 3; BTM_ILLEGAL_VALUE := 5;
  BTM_DEV_RESET := 12; BTM_DEV_STATUS_UP := 0; BTM_SEC_STATE_IDLE := 0; BTM_CB_EVT_DELETE_STORED_LINK_KEYS := 4;
  BD_NAME_LEN := 248; BTM_MAX_LOC_BD_NAME_LEN := 64; BTM_MAX_VSE_CALLBACKS := 3;
  HCI_DEF_INQUIRYSCAN_WINDOW := 0x12; HCI_DEF_INQUIRYSCAN_INTERVAL := 0x1000; HCI_DEF_SCAN_TYPE := 0;
  HCI_DEF_PAGESCAN_WINDOW := 0x12; HCI_DEF_PAGESCAN_INTERVAL := 0x800; BTM_BLE_PRIVATE_ADDR_INT_MS := 900000;
  BTM_INQ_RESULT_EXTENDED := 2; BTM_INQ_RESULT_WITH_RSSI := 1; BTM_DEFAULT_SCAN_TYPE := 1;
  BTM_CONNECTABLE := 1; BTM_DEFAULT_CONN_WINDOW := 0x12; BTM_DEFAULT_CONN_INTERVAL := 0x800;
  BTM_GENERAL_DISCOVERABLE := 2; BTM_DEFAULT_DISC_WINDOW := 0x12; BTM_DEFAULT_DISC_INTERVAL := 0x800;
  HCI_DO_AUTO_ACCEPT_CONNECT := 2; HCI_FILTER_CONNECTION_SETUP := 2; HCI_FILTER_COND_NEW_DEVICE := 0;
  VSE_SUBCODE_BQR_SUB_EVT := 0x58; L2CAP_NON_FLUSHABLE_PB_INCLUDED := true
}.
#[export] Instance btm_modules : BtmModules := { connectability := true; discoverability := true }.

(** Three slots for vendor specific callbacks, one of them in use. *)
Definition btm0 : btm := mk_btm [] (mk_inq 0 0 0 0 0 0 0) false false None None None None None None
  [0; 0; 0] [Some (Client 7); None; None] None 0 0 false 0 ctl0 [] [].

Definition page_a1000 : bytes := [0xff; 0xff; 0x8f; 0xfe; 0xdb; 0xff; 0x5b; 0x87].

Lemma features_decoded_exact_witness :
  wp (btm_decode_ext_features_page 0 page_a1000) (λ _ s',
    (∀ k, acl_usable (btm_acl_pkt_types_supported s') k = acl_supported page_a1000 k) ∧
    (∀ k, sco_usable (btm_sco_pkt_types_supported s') (esco_supported s') k = sco_supported page_a1000 k) ∧
    esco_supported s' = esco_of page_a1000 ∧
    ∀ i, 0 <= i < 16 → Z.testbit (btm_def_link_policy s') i = policy_bit page_a1000 (btm_def_link_policy btm0) i) btm0.
Proof. apply (features_decoded_exact page_a1000 btm0). Defined.

(** The second of two requests is refused while the first is open; the alarm ends
    the first, and a third is answered. *)
Definition name_run : list dev_input :=
  [DReadName (Some 1%nat); DReadName (Some 2%nat); DNameTimeout; DReadName (Some 3%nat); DNameComplete [0; 65]].
Definition name_end : btm := match dev_run name_run btm0 with Ret _ s => s | _ => btm0 end.

Lemma requests_told_once_witness :
  names_told name_end ++ option_list (p_rln_cmpl_cb name_end) = [1; 3]%nat ∧
  keys_told name_end ++ option_list (p_stored_link_key_cmpl_cb name_end) = [].
Proof. refine (requests_told_once name_run btm0 name_end _). vm_compute. reflexivity. Defined.

Lemma reset_keeps_key_request_witness :
  wp (BTM_DeviceReset ;; BTM_DeleteStoredLinkKey None (Some 5%nat)) (λ r s', r = BTM_BUSY ∧
    p_rln_cmpl_cb s' = None ∧ names_told s' = names_told (set_p_stored_link_key_cmpl_cb (Some 4%nat) btm0) ++ [] ∧
    p_stored_link_key_cmpl_cb s' = Some 4%nat ∧ keys_told s' = keys_told (set_p_stored_link_key_cmpl_cb (Some 4%nat) btm0))
    (set_p_stored_link_key_cmpl_cb (Some 4%nat) btm0).
Proof. refine (reset_keeps_key_request (set_p_stored_link_key_cmpl_cb (Some 4%nat) btm0) 4 None (Some 5%nat) _). reflexivity. Defined.

Lemma btm0_registry : registry_ok btm0.
Proof. split; [reflexivity|]. exact (NoDup_singleton (Client 7)). Qed.

Lemma vs_registry_exact_witness :
  wp (BTM_RegisterForVSEvents (Client 8) true) (λ ret s', registry_ok s' ∧
    ret = BTM_SUCCESS ∧ ∀ c, c ∈ registered s' ↔ c = Client 8 ∨ c ∈ registered btm0) btm0.
Proof. refine (vs_registry_exact btm0 (Client 8) true btm0_registry). Defined.

(** * The theorems on the HCI layer at concrete inputs *)

From S2P Require Import HciLayer HciLayerInv HciLayerEvents HciLayerSpec HciLayerFrame HciLayerLive.

(** ** A platform: a fragmenter that has nothing to split *)

#[export] Instance hci_layer_defs : HciLayerDefs := {
  HCI_COMMAND_STATUS_EVT := 0x0f; HCI_VENDOR_SPECIFIC_EVT := 0xff; HCI_COMMAND_NONE := 0;
  HCI_GRP_VENDOR_SPECIFIC := 0xfc00; HCI_CONTROLLER_DEBUG_INFO_OCF := 0x15b;
  HCI_VSE_SUBCODE_DEBUG_INFO_SUB_EVT := 0x57; HCI_VSE_SUBCODE_BQR_SUB_EVT := 0x58;
  QUALITY_REPORT_ID_ROOT_INFLAMMATION := 5; kRootInflammationPacketMinSize := 8;
  MSG_STACK_TO_HC_HCI_CMD := 0x2000; MSG_HC_TO_STACK_HCI_EVT := 0x1000; MSG_EVT_MASK := 0xff00
}.

#[export] Instance hci_platform : HciPlatform := {
  fragments b := [FTransmit b true];
  reassembled _ b := [b];
  firmware_log_opens := true;
  abort_timer_schedules := true
}.

#[export] Instance hci_platform_ok : HciPlatformOk.
Proof. split; [done..|]. intros b Hb. exists [], (FTransmit b true). by split. Qed.
#[export] Instance hci_codes_ok : HciCodesOk.
Proof. done. Qed.

(** ** Running the layer *)

Definition step_of (i : input) (h : hci) : hci := match handle i h with Ret _ h' => h' | _ => h end.
Definition returns (o : outcome hci unit) : bool := match o with Ret _ _ => true | _ => false end.

Lemma reach_step i h : reachable h → enabled i h → returns (handle i h) = true → reachable (step_of i h).
Proof.
  intros Hr He E. eapply reach_input; [exact Hr|exact He|]. unfold step_of, returns in *.
  by destruct (handle i h) as [[] h'| | |].
Qed.

Lemma not_owned_check h p :
  bool_decide (map_Forall (λ _ e, command e ≠ p) (waits h)) &&
  bool_decide (p ∉ omap task_packet (default [] (hci_thread h))) = true → ¬ owned h p.
Proof.
  intros [H1%bool_decide_eq_true H2%bool_decide_eq_true]%andb_true_iff [(w & e & Hw & E)|(ts & E & Hp)].
  - by apply (H1 w e Hw).
  - rewrite E in H2. by apply H2.
Qed.

Ltac given := split; [apply not_owned_check; vm_compute; reflexivity|
  eexists; split; [vm_compute; reflexivity|vm_compute; lia]].

Definition hci_new : hci :=
  mk_hci ∅ ∅ 0 ∅ 0 0 [] None None None None None false false false [] [].
Definition start_result : hci :=
  match hci_module_start_up (mk_start_env true true true true true) None hci_new with Ret _ h => h | _ => hci_new end.

Lemma hci_new_unused : unused hci_new.
Proof. split_and!; [done..|]. intros f [? E]. cbn in E. by rewrite lookup_empty in E. Qed.

Lemma start_reachable : reachable start_result.
Proof.
  eapply (reach_start (mk_start_env true true true true true) None hci_new); [exact hci_new_unused|].
  vm_compute. reflexivity.
Qed.

(** HCI_Reset and Read_BD_ADDR, and the events that answer them with one credit. *)
Definition reset_command : buf := mk_buf 0 3 0 [0x03; 0x0c; 0].
Definition read_address_command : buf := mk_buf 0 3 0 [0x09; 0x10; 0].
Definition reset_answer : buf := mk_buf 0x1000 6 0 [0x0e; 4; 1; 0x03; 0x0c; 0].
Definition read_address_status : buf := mk_buf 0x1000 6 0 [0x0f; 4; 0; 1; 0x09; 0x10].

Definition sent1 : hci := step_of (ITransmitFutured 0) (step_of (IAlloc 0 reset_command) start_result).
Lemma sent1_reachable : reachable sent1.
Proof.
  apply reach_step; [apply reach_step; [exact start_reachable|vm_compute; reflexivity..]|given|vm_compute; reflexivity].
Qed.
Definition sent2 : hci := step_of (ITransmitFutured 1) (step_of (IAlloc 1 read_address_command) sent1).
Lemma sent2_reachable : reachable sent2.
Proof.
  apply reach_step; [apply reach_step; [exact sent1_reachable|vm_compute; reflexivity..]|given|vm_compute; reflexivity].
Qed.

(** With an event on its way, and the thread about to run the first command. *)
Definition arriving : hci := step_of IRunNext (step_of (IAlloc 7 reset_answer) sent2).
Lemma arriving_reachable : reachable arriving.
Proof.
  apply reach_step; [apply reach_step; [exact sent2_reachable|vm_compute; reflexivity..]|exact I|vm_compute; reflexivity].
Qed.
Definition awaiting : hci := step_of IRunNext arriving.
Lemma awaiting_reachable : reachable awaiting.
Proof. apply reach_step; [exact arriving_reachable|exact I|vm_compute; reflexivity]. Qed.

(** The same runs, with the commands they gave. *)
Lemma fed_step acc acc' i h : fed acc h → enabled i h → returns (handle i h) = true → acc ++ given i h = acc' →
  fed acc' (step_of i h).
Proof.
  intros Hr He E <-. eapply fed_input; [exact Hr|exact He|]. unfold step_of, returns in *.
  by destruct (handle i h) as [[] h'| | |].
Qed.

Definition commands_given : list buf := as_command <$> [reset_command; read_address_command].

Lemma awaiting_fed : fed commands_given awaiting.
Proof.
  assert (fed [] start_result) as H0.
  { eapply (fed_start (mk_start_env true true true true true) None hci_new); [exact hci_new_unused| |].
    - intros b Hb. by apply elem_of_nil in Hb.
    - vm_compute. reflexivity. }
  apply (fed_step commands_given); [|exact I|vm_compute; reflexivity..].
  apply (fed_step commands_given); [|exact I|vm_compute; reflexivity..].
  apply (fed_step commands_given); [|vm_compute; reflexivity..].
  apply (fed_step [as_command reset_command]); [|given|vm_compute; reflexivity..].
  apply (fed_step [as_command reset_command]); [|vm_compute; reflexivity..].
  apply (fed_step []); [|given|vm_compute; reflexivity..].
  apply (fed_step []); [exact H0|vm_compute; reflexivity..].
Qed.

(** The first of two commands has gone out, the second waits for a credit. *)
Lemma hci_layer_safe_witness :
  fed commands_given awaiting ∧ commands_sent awaiting ++ to_send awaiting = imap pair commands_given ∧
  commands_sent awaiting = [(0%nat, as_command reset_command)].
Proof.
  split; [exact awaiting_fed|]. split; [|vm_compute; reflexivity].
  apply (hci_layer_safe commands_given awaiting awaiting_fed).
Defined.

Lemma event_enabled h : ¬ owned h 7 → bufs h !! 7%nat = Some reset_answer → enabled (IEvent 7) h.
Proof. intros Ho Hb. split; [exact Ho|]. eexists. split; [exact Hb|]. vm_compute. lia. Qed.

(** The first command is answered, its future holds the event, and the second is posted. *)
Lemma command_event_exact_witness :
  wp (hci_event_received 7) (λ _ h', answered None 7 1 0x0c03 awaiting h') awaiting.
Proof.
  apply (command_event_exact awaiting 7 reset_answer None 1 0x0c03); [exact awaiting_reachable| |vm_compute; reflexivity..].
  apply event_enabled; [apply not_owned_check|]; vm_compute; reflexivity.
Defined.

Lemma response_before_send_dangles_witness : ∃ h1 h2,
  command_ready_append 0 (set_hci_thread (Some []) arriving) = Ret tt h1 ∧
  hci_event_received 7 h1 = Ret tt h2 ∧ command_ready_send 0 h2 = Undefined.
Proof.
  destruct (command_ready_append 0 (set_hci_thread (Some []) arriving)) as [[] h1| | |] eqn:E1;
    [|vm_compute in E1; discriminate..].
  assert (E1' := E1). vm_compute in E1'. injection E1' as Eh1.
  destruct (hci_event_received 7 h1) as [[] h2| | |] eqn:E2; [|subst h1; vm_compute in E2; discriminate..].
  exists h1, h2. split; [reflexivity|]. split; [exact E2|].
  apply (response_before_send_dangles arriving h1 h2 0 [] 7 None 1 0x0c03 arriving_reachable);
    [vm_compute; reflexivity|exact E1| | | |exact E2]; clear E1 E2; subst h1.
  - apply event_enabled; [apply not_owned_check|]; vm_compute; reflexivity.
  - exists reset_answer. split; vm_compute; reflexivity.
  - eexists. split; vm_compute; reflexivity.
Defined.

(** ** A run of rounds *)

Definition after_event (p : nat) (b : buf) (h : hci) : hci :=
  match (store_buf p b ;; hci_event_received p) h with Ret _ h' => h' | _ => h end.

Lemma round_run h t ts : hci_thread h = Some (t :: ts) → returns (run_next h) = true → round h (step_of IRunNext h).
Proof.
  intros Ht E. eapply round_task; [exact Ht|]. unfold step_of, returns in *. cbn [handle].
  by destruct (run_next h) as [[] h'| | |].
Qed.

Lemma round_event pl p b st credits opcode h :
  commands_pending_response h = Some pl → answered_by h pl opcode ≠ None → 1 ≤ credits →
  bufs h !! p = None → (event_size (rd8 (b_data b)) ≤ length (b_data b))%nat →
  parse_response (b_data b) = Some (st, credits, opcode) →
  returns ((store_buf p b ;; hci_event_received p) h) = true → round h (after_event p b h).
Proof.
  intros Hpl Ha Hc Hp Hl Hb E. eapply round_answer; [done..|]. unfold after_event, returns in *.
  by destruct ((store_buf p b ;; hci_event_received p) h) as [[] h'| | |].
Qed.

Definition round1 : hci := step_of IRunNext sent2.
Definition round2 : hci := step_of IRunNext round1.
Definition round3 : hci := after_event 10 reset_answer round2.
Definition round4 : hci := step_of IRunNext round3.
Definition round5 : hci := after_event 11 read_address_status round4.

Ltac runs := eapply round_run; vm_compute; reflexivity.

Lemma rounds : nsteps round 5 sent2 round5.
Proof.
  apply (nsteps_l _ 4 _ round1); [runs|]. apply (nsteps_l _ 3 _ round2); [runs|].
  apply (nsteps_l _ 2 _ round3).
  { apply (round_event [0%nat] 10 reset_answer None 1 0x0c03); vm_compute; congruence || reflexivity || lia. }
  apply (nsteps_l _ 1 _ round4); [runs|]. apply nsteps_once.
  apply (round_event [1%nat] 11 read_address_status (Some 0) 1 0x1009); vm_compute; congruence || reflexivity || lia.
Qed.

(** Both commands have been answered after five rounds, by a Command Complete
    and by a Command Status event. *)
Lemma commands_answered_witness :
  nsteps round 5 sent2 round5 ∧ waits round5 = ∅ ∧ ∀ w f, futured sent2 w f → fulfilled round5 f.
Proof.
  split; [exact rounds|].
  apply (commands_answered 5 sent2 round5 (reachable_settled _ sent2_reachable));
    [intros _; vm_compute; discriminate|exact rounds|vm_compute; reflexivity].
Defined.
