(* ===== verification/BtuWitness.v ===== *)
(** * Bluetooth: the theorems on event dispatch at concrete inputs *)

From S2P Require Import Prelude CMonad BtTypes HciParser Controller ControllerSpec BtWitness HciLayer.
From S2P Require Import HciLayerInv HciLayerEvents HciLayerSpec HciLayerFrame BtmDev BtmDevSpec BtuDefs.
From S2P Require Import BtuHcif BtuCmd BtuHcifSpec BtuEventSpec BtuEncSpec BtuTaskSpec BtuFlow BtuFlowSpec.
From S2P Require Import BtuSendSpec BtuCmdSpec.

(** ** The Bluetooth core specification *)

Definition le32 (s : bytes) : Z := le_value (take 4 (s ++ replicate 4 0)).

#[export] Instance btu_macros : BtuMacros := {
  rd32 := le32;
  rd_devclass s := rev (take 3 s);
  rd_array16 s := rev (take 16 s);
  HCID_GET_HANDLE x := Z.land x 0x0FFF;
  BTM_BLE_IS_RESOLVE_BDA a := Z.land (default 0 (a !! 0%nat)) 0xc0 =? 0x40;
  uninit_event := 0xbeef;
  uninit_bytes := replicate 300 0xcd
}.

(** No LE links, no (e)SCO links, and L2CAP knows handles below 16. *)
#[export] Instance btu_modules : BtuModules := {
  BTM_IsBleConnection _ _ := false;
  l2cap_knows_link _ handle := handle <? 16;
  btm_sec_is_session_key_size_downgrade _ _ _ := false;
  btm_is_sco_active _ _ := false;
  btm_identity_addr_to_random_pseudo _ bda _ := (true, bda)
}.

(** The minimum lengths of the events with a fixed part. *)
Definition lengths : list (Z * Z) := [
  (0x01, 1); (0x02, 15); (0x03, 11); (0x04, 10); (0x05, 4); (0x06, 3); (0x07, 255); (0x08, 4); (0x0b, 11); (0x0c, 8);
  (0x0d, 21); (0x0e, 3); (0x0f, 4); (0x10, 1); (0x11, 2); (0x12, 8); (0x13, 5); (0x14, 6); (0x16, 6); (0x17, 6);
  (0x18, 23); (0x1a, 1); (0x1b, 3); (0x1c, 5); (0x1d, 5); (0x1e, 2); (0x20, 7); (0x22, 15); (0x23, 13); (0x2c, 17);
  (0x2d, 9); (0x2e, 11); (0x2f, 255); (0x30, 3); (0x31, 6); (0x32, 9); (0x33, 10); (0x34, 6); (0x35, 6); (0x36, 7);
  (0x39, 2); (0x3b, 10); (0x3c, 7); (0x3d, 14); (0x3e, 1)].
Definition length_of (code : Z) : Z :=
  match list_find (λ x, x.1 = code) lengths with Some (_, (_, n)) => n | None => 0 end.

#[export] Instance btu_events : BtuEvents := {
  HCI_INQUIRY_COMP_EVT := 0x01; HCI_INQUIRY_RESULT_EVT := 0x02; HCI_INQUIRY_RSSI_RESULT_EVT := 0x22;
  HCI_EXTENDED_INQUIRY_RESULT_EVT := 0x2f; HCI_CONNECTION_COMP_EVT := 0x03; HCI_CONNECTION_REQUEST_EVT := 0x04;
  HCI_DISCONNECTION_COMP_EVT := 0x05; HCI_AUTHENTICATION_COMP_EVT := 0x06; HCI_RMT_NAME_REQUEST_COMP_EVT := 0x07;
  HCI_ENCRYPTION_CHANGE_EVT := 0x08; HCI_ENCRYPTION_KEY_REFRESH_COMP_EVT := 0x30; HCI_READ_RMT_FEATURES_COMP_EVT := 0x0b;
  HCI_READ_RMT_EXT_FEATURES_COMP_EVT := 0x23; HCI_READ_RMT_VERSION_COMP_EVT := 0x0c; HCI_QOS_SETUP_COMP_EVT := 0x0d;
  HCI_HARDWARE_ERROR_EVT := 0x10; HCI_FLUSH_OCCURED_EVT := 0x11; HCI_ROLE_CHANGE_EVT := 0x12;
  HCI_NUM_COMPL_DATA_PKTS_EVT := 0x13; HCI_MODE_CHANGE_EVT := 0x14; HCI_PIN_CODE_REQUEST_EVT := 0x16;
  HCI_LINK_KEY_REQUEST_EVT := 0x17; HCI_LINK_KEY_NOTIFICATION_EVT := 0x18; HCI_LOOPBACK_COMMAND_EVT := 0x19;
  HCI_DATA_BUF_OVERFLOW_EVT := 0x1a; HCI_MAX_SLOTS_CHANGED_EVT := 0x1b; HCI_READ_CLOCK_OFF_COMP_EVT := 0x1c;
  HCI_CONN_PKT_TYPE_CHANGE_EVT := 0x1d; HCI_QOS_VIOLATION_EVT := 0x1e; HCI_PAGE_SCAN_MODE_CHANGE_EVT := 0x1f;
  HCI_PAGE_SCAN_REP_MODE_CHNG_EVT := 0x20; HCI_ESCO_CONNECTION_COMP_EVT := 0x2c; HCI_ESCO_CONNECTION_CHANGED_EVT := 0x2d;
  HCI_SNIFF_SUB_RATE_EVT := 0x2e; HCI_RMT_HOST_SUP_FEAT_NOTIFY_EVT := 0x3d; HCI_IO_CAPABILITY_REQUEST_EVT := 0x31;
  HCI_IO_CAPABILITY_RESPONSE_EVT := 0x32; HCI_USER_CONFIRMATION_REQUEST_EVT := 0x33; HCI_USER_PASSKEY_REQUEST_EVT := 0x34;
  HCI_REMOTE_OOB_DATA_REQUEST_EVT := 0x35; HCI_SIMPLE_PAIRING_COMPLETE_EVT := 0x36; HCI_USER_PASSKEY_NOTIFY_EVT := 0x3b;
  HCI_KEYPRESS_NOTIFY_EVT := 0x3c; HCI_ENHANCED_FLUSH_COMPLETE_EVT := 0x39; HCI_BLE_EVENT := 0x3e;
  HCI_BLE_ADV_PKT_RPT_EVT := 0x02; HCI_BLE_CONN_COMPLETE_EVT := 0x01; HCI_BLE_LL_CONN_PARAM_UPD_EVT := 0x03;
  HCI_BLE_READ_REMOTE_FEAT_CMPL_EVT := 0x04; HCI_BLE_LTK_REQ_EVT := 0x05; HCI_BLE_ENHANCED_CONN_COMPLETE_EVT := 0x0a;
  HCI_BLE_RC_PARAM_REQ_EVT := 0x06; HCI_BLE_DATA_LENGTH_CHANGE_EVT := 0x07; HCI_BLE_PHY_UPDATE_COMPLETE_EVT := 0x0c;
  HCI_LE_EXTENDED_ADVERTISING_REPORT_EVT := 0x0d; HCI_LE_ADVERTISING_SET_TERMINATED_EVT := 0x12;
  hci_event_parameters_minimum_length := (λ i, length_of (Z.of_nat i)) <$> seq 0 256
}.

#[export] Instance btu_opcodes : BtuOpcodes := {
  HCI_INQUIRY := 0x0401; HCI_INQUIRY_CANCEL := 0x0402; HCI_CREATE_CONNECTION := 0x0405;
  HCI_CREATE_CONNECTION_CANCEL := 0x0408; HCI_DISCONNECT := 0x0406; HCI_SETUP_ESCO_CONNECTION := 0x0428;
  HCI_ENH_SETUP_ESCO_CONNECTION := 0x043d; HCI_ACCEPT_CONNECTION_REQUEST := 0x0409; HCI_ACCEPT_ESCO_CONNECTION := 0x0429;
  HCI_ENH_ACCEPT_ESCO_CONNECTION := 0x043e; HCI_REJECT_CONNECTION_REQUEST := 0x040a; HCI_REJECT_ESCO_CONNECTION := 0x042a;
  HCI_READ_LOCAL_OOB_DATA := 0x0c57; HCI_WRITE_SIMPLE_PAIRING_MODE := 0x0c56; HCI_WRITE_SECURE_CONNS_SUPPORT := 0x0c7a;
  HCI_AUTHENTICATION_REQUESTED := 0x0411; HCI_SET_CONN_ENCRYPTION := 0x0413; HCI_DELETE_STORED_LINK_KEY := 0x0c12;
  HCI_RMT_NAME_REQUEST := 0x0419; HCI_RMT_NAME_REQUEST_CANCEL := 0x041a; HCI_LINK_KEY_REQUEST_REPLY := 0x040b;
  HCI_LINK_KEY_REQUEST_NEG_REPLY := 0x040c; HCI_IO_CAPABILITY_REQUEST_REPLY := 0x042b; HCI_USER_CONF_REQUEST_REPLY := 0x042c;
  HCI_USER_CONF_VALUE_NEG_REPLY := 0x042d; HCI_USER_PASSKEY_REQ_REPLY := 0x042e; HCI_USER_PASSKEY_REQ_NEG_REPLY := 0x042f;
  HCI_REM_OOB_DATA_REQ_REPLY := 0x0430; HCI_REM_OOB_DATA_REQ_NEG_REPLY := 0x0433; HCI_IO_CAP_REQ_NEG_REPLY := 0x0434;
  HCI_READ_ENCR_KEY_SIZE := 0x1408; HCI_SET_EVENT_FILTER := 0x0c05; HCI_READ_LOCAL_NAME := 0x0c14;
  HCI_GET_LINK_QUALITY := 0x1403; HCI_READ_RSSI := 0x1405; HCI_READ_FAILED_CONTACT_COUNTER := 0x1401;
  HCI_READ_AUTOMATIC_FLUSH_TIMEOUT := 0x0c27; HCI_READ_TRANSMIT_POWER_LEVEL := 0x0c2d; HCI_READ_INQ_TX_POWER_LEVEL := 0x0c58;
  HCI_QOS_SETUP := 0x0807; HCI_SWITCH_ROLE := 0x080b; HCI_READ_RMT_EXT_FEATURES := 0x041c; HCI_EXIT_SNIFF_MODE := 0x0804;
  HCI_EXIT_PARK_MODE := 0x0806; HCI_HOLD_MODE := 0x0801; HCI_SNIFF_MODE := 0x0803; HCI_PARK_MODE := 0x0805
}.

#[export] Instance btu_config : BtuConfig := {
  BTM_BR_INQUIRY_MASK := 0x0f; BTM_INQ_RESULT_STANDARD := 0; BTM_DEV_STATUS_DOWN := 1; BTM_ROLE_UNDEFINED := 0xff;
  BTM_INVALID_HCI_HANDLE := 0xffff; HCI_INVALID_HANDLE := 0xffff; BTM_SP_CFM_REQ_EVT := 2; BTM_SP_KEY_REQ_EVT := 4;
  BTM_SP_KEY_NOTIF_EVT := 3; HCI_LINK_TYPE_ACL := 1; HCI_LINK_TYPE_SCO := 0; BLE_ADDR_ANONYMOUS := 0xff;
  BLE_ADDR_PUBLIC_ID := 2; BLE_ADDR_RANDOM := 1; BLE_ADDR_RANDOM_ID := 3;
  HCI_ERR_NO_CONNECTION := 0x02; HCI_ERR_CONNECTION_TOUT := 0x08; HCI_ERR_COMMAND_DISALLOWED := 0x0c;
  HCI_ERR_HOST_REJECT_SECURITY := 0x0e; HCI_ERR_PEER_USER := 0x13; HCI_ERR_INSUFFCIENT_SECURITY := 0x2f;
  BTM_SSR_INCLUDED := true; BLE_LLT_INCLUDED := true; HID_DEV_INCLUDED := true; HID_DEV_PM_INCLUDED := true;
  DIRECTION_UNKNOWN := 0; DIRECTION_OUTGOING := 1; DIRECTION_INCOMING := 2; LINK_TYPE_ACL := 1; LINK_TYPE_UNKNOWN := 0xfff;
  BLE_EVT_UNKNOWN := 0xfff; CMD_UNKNOWN := 0xfff; EVT_COMMAND_COMPLETE := 0x0e; EVT_COMMAND_STATUS := 0x0f;
  EVT_UNKNOWN := 0xfff; STATUS_UNKNOWN := 0xfff; kUnknownConnectionHandle := 0xffff; kEmpty := replicate 6 0
}.

#[export] Instance btu_events_ok : BtuEventsOk.
Proof.
  split.
  - reflexivity.
  - unfold core_sizes. repeat (apply Forall_cons; split); try (by apply Forall_nil);
      intros m E; vm_compute in E; injection E as <-; vm_compute; intros F; discriminate F.
  - apply (bool_decide_unpack _). vm_compute. exact I.
  - apply (bool_decide_unpack _). vm_compute. exact I.
Qed.

(** ** States and events *)

(** A controller that is up, can tell the size of a key and can change the data length. *)
Definition ctl_up : ctl :=
  set_readable true (set_ble_supported true (set_features_ble [0x20; 0; 0; 0; 0; 0; 0; 0]
    (set_read_encryption_key_size_supported true ctl0))).
Definition btu0 : btu := mk_btu (set_p_dev_status_cb (Some 3%nat) (set_controller ctl_up btm0)) start_result ∅ [] [].

Definition event_of (code : Z) (ps : bytes) : buf := mk_buf 0x1000 (Z.of_nat (2 + length ps)) 0 ([code; Z.of_nat (length ps)] ++ ps).

Ltac whole := split; [vm_compute; lia|vm_compute; discriminate].
Ltac listed := first [apply list_elem_of_here | apply list_elem_of_further; listed].
Ltac accepted := eexists; split; [vm_compute; reflexivity|vm_compute; discriminate].

(** A connection of address 06:05:04:03:02:01 with handle 0x2041 (12 bits count). *)
Definition connection_event : buf := event_of 0x03 [0; 0x41; 0x20; 1; 2; 3; 4; 5; 6; 1; 0].

Lemma events_decoded_exact_witness : ∃ s1,
  btu_hcif_process_event connection_event btu0 = Ret tt s1 ∧
  drop 1 (calls s1) = [btm_sec_connected [6; 5; 4; 3; 2; 1] 0x41 0 0; l2c_link_hci_conn_comp 0 0x41 [6; 5; 4; 3; 2; 1]].
Proof.
  destruct (events_decoded_exact connection_event btu0) as [_ H];
    [whole|reflexivity|]. destruct H as [E _]; [accepted|].
  eexists. split; [exact E|]. vm_compute. reflexivity.
Defined.

(** An LE report that the parameters of a connection have changed. *)
Definition update_event : buf := event_of 0x3e [0x03; 0; 0x41; 0; 24; 0; 0; 0; 0x48; 0].

Lemma le_events_exact_witness : ∃ s1,
  btu_hcif_process_event update_event btu0 = Ret tt s1 ∧
  calls s1 = [l2cble_process_conn_update_evt 0x41 0 24 0 72; gatt_notify_conn_update 0x41 24 0 72 0].
Proof.
  destruct (le_events_exact update_event btu0) as [H _]; [whole|accepted|reflexivity|reflexivity|].
  destruct (ble_entry (sub_code update_event) (sub_params update_event) (len_of update_event)) as [[n cs]|] eqn:E;
    vm_compute in E; [|discriminate E]. injection E as <- <-.
  eexists. split; [exact (H _ _ eq_refl)|]. vm_compute. reflexivity.
Defined.

(** The same report, a byte short. *)
Lemma short_le_events_overread_witness :
  btu_hcif_process_event (event_of 0x3e [0x03; 0; 0x41; 0; 24; 0; 0; 0; 0x48]) btu0 = Undefined ∧
  btu_hcif_process_event (event_of 0x3e [0x07; 0x41; 0; 27; 0; 0x48; 1; 27]) btu0 = Undefined.
Proof.
  split.
  - refine (short_le_events_overread (event_of 0x3e [0x03; 0; 0x41; 0; 24; 0; 0; 0; 0x48]) btu0 _ _ _ _ _ _);
      [whole|accepted|reflexivity..|]. left. split; [reflexivity|vm_compute; reflexivity].
  - refine (short_le_events_overread (event_of 0x3e [0x07; 0x41; 0; 27; 0; 0x48; 1; 27]) btu0 _ _ _ _ _ _);
      [whole|accepted|reflexivity..|]. right. right. split_and!; vm_compute; reflexivity.
Defined.

(** The change of a data length while the controller is up. *)
Lemma events_safe_witness : event_outcome (event_of 0x3e [0x07; 0x41; 0; 27; 0; 0x48; 1; 27; 0; 0x48; 1]) btu0
  (btu_hcif_process_event (event_of 0x3e [0x07; 0x41; 0; 27; 0; 0x48; 1; 27; 0; 0x48; 1]) btu0).
Proof.
  apply events_safe; [whole|reflexivity|]. intros _. split; vm_compute; [lia|intros _ _; lia].
Defined.

Lemma hardware_error_exact_witness :
  wp (btu_hcif_process_event (event_of 0x10 [7])) (λ _ s',
    calls s' = calls btu0 ++ metrics_calls (event_of 0x10 [7]) btu0 ++ (Dev <$> hardware_error_calls (dev btu0)) ∧
    dev s' = set_effects [] (reset_state (dev btu0)) ∧
    layer s' = layer btu0 ∧ main_tasks s' = [] ∧ wrappers s' = ∅) btu0.
Proof. refine (hardware_error_exact (event_of 0x10 [7]) btu0 _ _ _ _); [whole|reflexivity|accepted|reflexivity]. Defined.

(** A link of the basic rate is encrypted, and its key has 16 bytes. *)
Definition encryption_inputs : list enc_input :=
  [Event (event_of 0x08 [0; 0x0b; 0; 1]); KeySize AfterEncryptionChange 0 0x0b 16].
Lemma encryption_needs_key_witness :
  ∃ s', enc_run encryption_inputs btu0 = Ret tt s' ∧ btm_sec_encrypt_change 0x0b 0 1 ∈ calls s' ∧
    ∃ cb ks, KeySize cb HCI_SUCCESS 0x0b ks ∈ encryption_inputs ∧ 7 ≤ ks.
Proof.
  destruct (enc_run encryption_inputs btu0) as [[] s'| | |] eqn:E; [|vm_compute in E; discriminate E..].
  exists s'. split; [reflexivity|]. assert (btm_sec_encrypt_change 0x0b 0 1 ∈ calls s') as Hin.
  { vm_compute in E. injection E as <-. cbn [calls]. listed. }
  split; [exact Hin|].
  refine (encryption_needs_key encryption_inputs 0x0b btu0 s' (calls s') _ _ _ _ E _ Hin _).
  - repeat (apply Forall_cons; split); [split; [whole|vm_compute; discriminate]|exact I|by apply Forall_nil].
  - reflexivity.
  - split; reflexivity.
  - reflexivity.
  - by exists 1.
Defined.

(** * The theorems on the command path at concrete inputs *)

#[export] Instance btu_cmd_ok : BtuCmdOk.
Proof. unfold BtuCmdOk. vm_compute. lia. Qed.

Definition flow_of (x : flow) (s : btu) : btu := match flow_step x s with Ret _ s' => s' | _ => s end.
Definition moves (o : outcome btu unit) : bool := match o with Ret _ _ => true | _ => false end.

Lemma flows_next x s l : flows s l → flow_enabled x s → moves (flow_step x s) = true → flows (flow_of x s) (l ++ sent x).
Proof.
  intros Hf Hx E. eapply flows_step; [exact Hf|exact Hx|]. unfold flow_of, moves in *.
  by destruct (flow_step x s) as [[] s'| | |].
Qed.

(** Read_BD_ADDR with the callback 5, sent and handed to the transport; and two events
    that may answer it. *)
Definition read_address : flow := Send 0x1009 None 0 5.
Definition address_answer : buf := mk_buf 0x1000 12 0 [0x0e; 10; 1; 0x09; 0x10; 0; 1; 2; 3; 4; 5; 6].
Definition address_accepted : buf := mk_buf 0x1000 6 0 [0x0f; 4; 0; 1; 0x09; 0x10].

Lemma btu0_started : started btu0.
Proof.
  split; [|by split_and!]. exists (mk_start_env true true true true true), None, hci_new.
  split; [exact hci_new_unused|]. vm_compute. reflexivity.
Qed.

Definition on_its_way : btu := flow_of (Layer IRunNext) (flow_of (Layer IRunNext) (flow_of read_address btu0)).
Lemma on_its_way_flows : flows on_its_way [5%nat].
Proof.
  assert (∀ s, flow_enabled (Layer IRunNext) s) as Hrun.
  { intros s. split; [exact I|]. split; [by intros p ?%not_elem_of_nil|]. by split_and!. }
  change [5%nat] with ((([] ++ [5]) ++ []) ++ [])%nat.
  apply flows_next; [apply flows_next; [apply flows_next|..]|..].
  - apply flows_start, btu0_started.
  - split; [lia|exact I].
  - vm_compute. reflexivity.
  - apply Hrun.
  - vm_compute. reflexivity.
  - apply Hrun.
  - vm_compute. reflexivity.
Qed.

Definition arrived (b : buf) : btu := flow_of (Layer (IAlloc 7 b)) on_its_way.
Lemma arrived_flows b : flows (arrived b) [5%nat].
Proof.
  change [5%nat] with ([5] ++ [])%nat. apply flows_next; [exact on_its_way_flows| |reflexivity].
  split; [vm_compute; reflexivity|]. split; [|by split_and!].
  intros p _. vm_compute. by intros ?%not_elem_of_nil.
Qed.

Lemma flow_event_enabled b : (event_size (rd8 (b_data b)) ≤ length (b_data b))%nat → b_offset b = 0%nat →
  (∀ credits opcode, parse_response (b_data b) = Some (None, credits, opcode) → response_long b) →
  flow_enabled (Layer (IEvent 7)) (arrived b).
Proof.
  intros Hl Ho Hr. assert (bufs (layer (arrived b)) !! 7%nat = Some b) as Hb by reflexivity.
  split; [|split; [|split; [by split_and!|]]].
  - split; [apply not_owned_check; vm_compute; reflexivity|]. by exists b.
  - intros p _. vm_compute. by intros ?%not_elem_of_nil.
  - intros b' Hb'. by assert (b' = b) as -> by congruence.
Qed.

Lemma answer_enabled : flow_enabled (Layer (IEvent 7)) (arrived address_answer).
Proof.
  apply flow_event_enabled; [vm_compute; lia|reflexivity|]. intros c o E. vm_compute in E. injection E as <- <-.
  split; vm_compute; lia.
Qed.
Lemma accepted_enabled : flow_enabled (Layer (IEvent 7)) (arrived address_accepted).
Proof. apply flow_event_enabled; [vm_compute; lia|reflexivity|]. intros c o E. vm_compute in E. discriminate E. Qed.

Lemma command_path_safe_witness :
  flow_step (Layer (IEvent 7)) (arrived address_answer) ≠ Undefined ∧ NoDup (held (arrived address_answer)).
Proof.
  destruct (command_path_safe (arrived address_answer) [5%nat] (arrived_flows _)) as (H & Hn & _).
  split; [|exact Hn]. apply (H (Layer (IEvent 7))). exact answer_enabled.
Defined.

(** The runs above, with the wrappers of the commands that were accepted. *)
Lemma history_next x s l l' a a' : history s l a → flow_enabled x s → moves (flow_step x s) = true →
  l ++ sent x = l' → a ++ accepted x s = a' → history (flow_of x s) l' a'.
Proof.
  intros Hf Hx E <- <-. eapply history_step; [exact Hf|exact Hx|]. unfold flow_of, moves in *.
  by destruct (flow_step x s) as [[] s'| | |].
Qed.

Definition done_without_error : btu := flow_of (Layer (IEvent 7)) (arrived address_accepted).
Lemma accepted_history : history done_without_error [5%nat] [0%nat].
Proof.
  assert (∀ s, flow_enabled (Layer IRunNext) s) as Hrun.
  { intros s. split; [exact I|]. split; [by intros p ?%not_elem_of_nil|]. by split_and!. }
  apply (history_next (Layer (IEvent 7)) _ [5%nat] _ []); [|exact accepted_enabled|vm_compute; reflexivity..].
  apply (history_next (Layer (IAlloc 7 address_accepted)) _ [5%nat] _ []); [| |reflexivity..].
  - apply (history_next (Layer IRunNext) _ [5%nat] _ []); [|apply Hrun|vm_compute; reflexivity..].
    apply (history_next (Layer IRunNext) _ [5%nat] _ []); [|apply Hrun|vm_compute; reflexivity..].
    apply (history_next read_address _ [] _ []); [|split; [lia|exact I]|vm_compute; reflexivity..].
    apply history_start, btu0_started.
  - split; [vm_compute; reflexivity|]. split; [|by split_and!].
    intros p _. vm_compute. by intros ?%not_elem_of_nil.
Qed.

(** After a Command Status without error the callback is in its wrapper, which nothing refers to. *)
Lemma callbacks_once_witness :
  [5%nat] ≡ₚ ran (calls done_without_error) ++ callbacks_in (wrappers done_without_error) ∧
  (∀ k, is_Some (wrappers done_without_error !! k) ↔ k ∈ due done_without_error ∨ awaited done_without_error k ∨ k ∈ [0%nat]) ∧
  due done_without_error = [].
Proof.
  destruct (callbacks_once done_without_error [5%nat] [0%nat] accepted_history) as (H1 & H2 & _).
  split; [exact H1|]. split; [exact H2|]. vm_compute. reflexivity.
Defined.

Lemma answer_runs_callback_witness : ∃ s1 s2, flow_step (Layer (IEvent 7)) (arrived address_answer) = Ret tt s1 ∧
  run_mains 1 s1 = Ret tt s2 ∧ last (calls s2) = Some (run_cb 5 [0; 1; 2; 3; 4; 5; 6] 7).
Proof.
  destruct (waits (layer (arrived address_answer)) !! 0%nat) as [e|] eqn:He; [|vm_compute in He; discriminate He].
  destruct (answer_runs_callback (arrived address_answer) [5%nat] 7 address_answer None 1 0x1009 0 e)
    as (cb & s1 & s2 & Hcb & E1 & E2 & _ & _ & Hl).
  - apply arrived_flows.
  - exact answer_enabled.
  - reflexivity.
  - vm_compute. reflexivity.
  - vm_compute. reflexivity.
  - exact He.
  - vm_compute in He. injection He as <-. by split.
  - discriminate.
  - exists s1, s2. split; [exact E1|]. split; [exact E2|]. rewrite Hl.
    vm_compute in He. injection He as <-. vm_compute in Hcb. injection Hcb as <-. vm_compute. reflexivity.
Defined.

Lemma accepted_command_lost_witness : ∃ s1, flow_step (Layer (IEvent 7)) (arrived address_accepted) = Ret tt s1 ∧
  ∀ s2, rtc flow_moves s1 s2 → ∃ k, wrappers s2 !! k = Some (Some 5%nat).
Proof.
  destruct (waits (layer (arrived address_accepted)) !! 0%nat) as [e|] eqn:He; [|vm_compute in He; discriminate He].
  destruct (accepted_command_lost (arrived address_accepted) [5%nat] 7 address_accepted 1 0x1009 0 e)
    as (cb & s1 & Hcb & E1 & Hlost).
  - apply arrived_flows.
  - exact accepted_enabled.
  - reflexivity.
  - vm_compute. reflexivity.
  - vm_compute. reflexivity.
  - exact He.
  - vm_compute in He. injection He as <-. by split.
  - exists s1. split; [exact E1|]. intros s2 Hs2. exists (wrapper_of (context e)). rewrite (Hlost s2 Hs2).
    vm_compute in He. injection He as <-. vm_compute in Hcb. by injection Hcb as <-.
Defined.
