(* ===== verification/DispcWitness.v ===== *)
(** * Display: the theorems at concrete inputs

    The macros are those of the kernel headers.  The device is the 480 by 800 panel of
    this phone, brought up by running [sprdfb_probe] from nothing; the library runs over
    it, with a module and a frame buffer device of the vendor, a clock, and one buffer in
    memory. *)

From S2P Require Import Prelude CMonad DispcTypes SprdPanel Dispc DispcFrame SprdFb DispcInv DispcPower.
From S2P Require Import SprdFbSpec DispcSpec.

#[export] Instance kernel_macros : FbMacros := {
  set_bits b v := Z.lor v b; clear_bits b v := Z.ldiff v b; ROUND a b := (a + b / 2) / b;
  reset_value _ := 0; latch r _ := r;
  DISPC_INT_ERR_MASK := 4; DISPC_INT_UPDATE_DONE_MASK := 0x10; DISPC_INT_DONE_MASK := 1;
  DISPC_INT_HWVSYNC := 0x20; DISPC_INT_TE_MASK := 2;
  SPRD_DATA_TYPE_YUV400 := 2; SPRD_DATA_TYPE_RGB888 := 3; SPRD_DATA_TYPE_LIMIT := 7;
  SPRD_IMG_DATA_ENDIAN_LIMIT := 4; SPRD_LAYER_IMG := 1; SPRD_LAYER_OSD := 2;
  SPRD_OVERLAY_DISPLAY_SYNC := 1;
  SPRD_FB_SET_OVERLAY := 0x40046D01; SPRD_FB_DISPLAY_OVERLAY := 0x40046D02; SPRD_FB_PAGEFLIP := 0x40046D14;
  FBIO_WAITFORVSYNC := 0x40044620; SPRD_FB_CHANGE_FPS := 0x40046D03; SPRD_FB_IS_REFRESH_DONE := 0x40046D05;
  SPRD_FB_SET_POWER_MODE := 0x40046D06;
  SPRDFB_FORCE_FPS := 0; SPRDFB_DYNAMIC_FPS := 1; SPRDFB_FORCE_PCLK := 2; SPRDFB_DYNAMIC_PCLK := 3;
  SPRDFB_DYNAMIC_MIPI_CLK := 4; LCD_MIN_FPS := 30; LCD_MAX_FPS := 121;
  LCD_MODE_DSI := 2; LCD_MODE_RGB := 1; LCD_MODE_LVDS := 3;
  SPRDFB_PANEL_TYPE_MIPI := 2; SPRDFB_MIPI_MODE_VIDEO := 1; SEND_SLEEP_CMD := 0;
  BIT_PER_PIXEL_SURPPORT := false; SPRDFB_MAINLCD_ID := 0; panel_if_of _ := SPRDFB_PANEL_IF_DPI
}.
#[export] Instance kernel_macros_ok : FbMacrosOk.
Proof.
  split; try done; try (by apply (bool_decide_unpack _); vm_compute).
Qed.
#[export] Instance chg_clk_intf : ClkIntf := λ type v, sprdfb_dispc_chg_clk type v.
#[export] Instance chg_clk_intf_is : ClkIntfOk.
Proof. by left. Qed.

(** A panel of 480 by 800 with the porches that make 620 by 826. *)
Definition a1000_panel : panel_spec :=
  mk_panel 2 480 800 60 0 (20, 10, 20) false (mk_timing 20 60 60 2 14 10) 1 500000 (mk_timing 0 0 0 0 0 0)
    (mk_panel_ops None true false false false false false)
    (mk_panel_if_ctrl true true true true false true true true).
Definition a1000_tree : parameters := mk_par (-1) 1 (-1) (-1) 0 (Some 192000000) (Some 6) true.

Definition unborn (w : list wake) : machine :=
  mk_machine
    (mk_ctx false false false false 0 false false 0 0 SPRD_OVERLAY_STATUS_OFF 0 0 0 0)
    (mk_dev 0 0 None SPRDFB_PANEL_IF_DBI false 0 false 0 0 0 0 None 0
       (mk_var 0 0 0 0 0 0 0 0 0) (mk_fix 0 0 0))
    (mk_hw (λ _, 0) (λ _, 0) 0 0 0 0 true) a1000_tree
    (mk_env w [1; 1; 0; 480; 800; 0; 0; 1; 0x9ffcc000; 1; 0; 0] [] []).

Definition state_of {A} (m : M machine A) (s : machine) : machine :=
  match m s with Ret _ s' => s' | _ => s end.
(** The boot loader names the panel; one interrupt in every sleep ends an update. *)
Definition probe : M machine Z :=
  sprdfb_probe [105; 108; 105; 0; 0] 0 [mk_cfg [105; 108; 105] 0 100 a1000_panel] 0 0 true true true.
Definition booted : machine := state_of probe (unborn [Timeout [0x10]; Timeout [0x10]; Timeout [0x20]; Timeout [0x10]]).

Lemma booted_probe : ∃ s, probe (unborn [Timeout [0x10]; Timeout [0x10]; Timeout [0x20]; Timeout [0x10]]) = Ret 0 s ∧ s = booted.
Proof. eexists. split; vm_compute; reflexivity. Qed.

Lemma a1000_fps_ok p : total_of p = Some (620, 826) → fps_ok 192000000 p.
Proof.
  intros Ht h v fps Hh Hf. rewrite Ht in Hh. injection Hh as <- <-. change (30 <= fps <= 121) in Hf.
  unfold ROUND, kernel_macros. rewrite wrap_small by (unfold in_width; lia). unfold truthy.
  split; apply negb_true_iff, Z.eqb_neq; [lia|].
  pose proof (Z.div_pos (620 * 826 * fps) 2). intros E. apply Z.div_small_iff in E; lia.
Qed.

(** What locks, power and clocks see of the device. *)
Definition booted_core : core := Eval vm_compute in core_of booted.
Lemma booted_core_of : core_of booted = booted_core.
Proof. vm_compute; reflexivity. Qed.

Lemma booted_drv : drv (core_of booted).
Proof.
  rewrite booted_core_of. split; [by eexists|done..| |done|done].
  intros src p [= <-] [= <-]. by apply a1000_fps_ok.
Qed.
Lemma booted_powered : powered (core_of booted).
Proof. rewrite booted_core_of. split; [by apply Forall_nil|by split_and!; eauto|done..]. Qed.
Lemma booted_driven : driven booted.
Proof. split; [vm_compute; reflexivity..|eexists; vm_compute; reflexivity]. Qed.

(** A day of the display: an overlay is set and shown, flipped to another buffer, the
    device sleeps and wakes up, and the frame rate is changed. *)
Definition ov_info : overlay_info := mk_info 2 3 0 0 false (mk_rect 0 0 480 800) 0x9ffcc000.
Definition ov_display : overlay_display := mk_display 2 (mk_rect 0 0 480 800) 0.
Definition user_word (w : Z) : user_ptr := mk_user None None (Some w).
Definition a_day : list call :=
  [ CIoctl SPRD_FB_SET_OVERLAY (mk_user (Some ov_info) None None);
    CIoctl SPRD_FB_DISPLAY_OVERLAY (mk_user None (Some ov_display) None);
    CIoctl SPRD_FB_PAGEFLIP (user_word 0xa0143000); CInterrupt 0x30;
    CIoctl FBIO_WAITFORVSYNC (user_word 0); CIoctl SPRD_FB_SET_POWER_MODE (user_word 0);
    CPan; CIoctl SPRD_FB_SET_POWER_MODE (user_word 2); CThreshold true;
    CIoctl SPRD_FB_CHANGE_FPS (user_word 50); CChgClk SPRDFB_DYNAMIC_PCLK 30000000 ].

Lemma a_day_ok : Forall (call_ok (core_of booted)) a_day.
Proof. rewrite booted_core_of. apply calls_ok. vm_compute; reflexivity. Qed.

(** Later a pixel clock above twice its source is asked for. *)
Definition too_fast : call := CChgClk SPRDFB_DYNAMIC_PCLK 400000000.
Lemma driver_safe_witness : (∃ s', run_calls a_day booted = Ret tt s' ∧ drv (core_of s')) ∧
  run_calls (a_day ++ [too_fast]) booted = Undefined.
Proof.
  split.
  - pose proof (driver_safe booted a_day booted_drv) as H.
    assert (existsb (call_overclocks (core_of booted)) a_day = false) as E by (vm_compute; reflexivity).
    rewrite E in H. destruct (wp_run _ _ _ H) as ([] & s' & Er & Hd). exists s'. split; [exact Er|exact Hd].
  - pose proof (driver_safe booted (a_day ++ [too_fast]) booted_drv) as H.
    assert (existsb (call_overclocks (core_of booted)) (a_day ++ [too_fast]) = true) as E by (vm_compute; reflexivity).
    rewrite E in H. exact H.
Defined.

Lemma clocks_follow_power_witness : ∃ s', run_calls (take 6 a_day) booted = Ret tt s' ∧ enable (dev s') = 0 ∧ clk_emc (hw s') = 0.
Proof.
  destruct (wp_run _ _ _ (clocks_follow_power booted (take 6 a_day) booted_drv booted_powered
    (Forall_take _ _ _ a_day_ok))) as ([] & s' & E & H).
  exists s'. assert (He : enable (dev s') = 0) by (vm_compute in E; injection E as <-; reflexivity).
  rewrite He in H. split; [exact E|]. split; [exact He|]. apply H.
Defined.

(** The overlay is up; the next interrupts end its update. *)
Definition with_overlay : machine := state_of (run_calls (take 2 a_day)) booted.
Lemma pageflip_exact_witness : ∃ s', sprdfb_dispc_pageflip 0xa0143000 with_overlay = Ret 0 s' ∧
  shown (hw s') DISPC_OSD_BASE_ADDR = 0xa0143000.
Proof.
  assert (Hp : in_width 32 0xa0143000) by done.
  assert (Hd : driven with_overlay) by (split; [vm_compute; reflexivity..|eexists; vm_compute; reflexivity]).
  assert (flip_result with_overlay = 0) as H0 by (vm_compute; reflexivity).
  assert (flip_seen with_overlay = true) as H1 by (vm_compute; reflexivity).
  assert (enable (dev with_overlay) = 1) as H2 by (vm_compute; reflexivity).
  assert (overlay_state (ctx with_overlay) = SPRD_OVERLAY_STATUS_STARTED) as H3 by (vm_compute; reflexivity).
  assert (irqs_on (hw with_overlay) = true) as H4 by (vm_compute; reflexivity).
  assert (refresh_lock (dev with_overlay) = true) as H5 by (vm_compute; reflexivity).
  pose proof (pageflip_exact with_overlay 0xa0143000 Hd H4 H5 Hp) as Hw.
  clear Hd H4 H5 Hp. revert H0 H1 H2 H3 Hw. generalize with_overlay. intros s H0 H1 H2 H3 Hw.
  rewrite H0, H1, H2, H3 in Hw. destruct (wp_run _ _ _ Hw) as (ret & s' & E & _ & Hr).
  exists s'. destruct Hr as (-> & _ & _ & Hs). split; [exact E|apply Hs].
Defined.

Lemma overlay_exact_witness : ∃ s', overlay_calls ov_info ov_display booted = Ret 0 s' ∧
  overlay_state (ctx s') = SPRD_OVERLAY_STATUS_STARTED ∧ regs (hw s') DISPC_OSD_BASE_ADDR = 0x9ffcc000.
Proof.
  assert (Hb : u32 (i_buffer ov_info) ≠ 0) by done.
  assert (Hi : irqs_on (hw booted) = true) by (vm_compute; reflexivity).
  assert (Hl : refresh_lock (dev booted) = true) by (vm_compute; reflexivity).
  assert (He : enable (dev booted) = 1) by (vm_compute; reflexivity).
  assert (Hs : sync_result booted = 0) by (vm_compute; reflexivity).
  pose proof (overlay_exact booted ov_info ov_display booted_driven Hi Hl eq_refl eq_refl Hb) as Hw.
  clear Hi Hl. revert He Hs Hw. generalize booted. intros s He Hs Hw. rewrite He, Hs in Hw.
  destruct (wp_run _ _ _ Hw) as (ret & s' & E & _ & _ & -> & Ho & [] & _). exists s'.
  split; [exact E|]. split; [exact Ho|]. by rewrite oh_base.
Defined.

(** The device asleep. *)
Definition asleep : machine := state_of sprdfb_dispc_suspend booted.
Lemma asleep_off : is_off asleep.
Proof. split; [split; [vm_compute; reflexivity..|eexists; vm_compute; reflexivity]|vm_compute; reflexivity..]. Qed.
Lemma off_refused_witness : ∃ s', sprdfb_dispc_pageflip 0xa0143000 asleep = Ret (- EPERM) s' ∧ hw s' = hw asleep.
Proof.
  destruct (off_refused asleep asleep_off) as (_ & _ & Hf & _). specialize (Hf 0xa0143000).
  destruct (wp_run _ _ _ Hf) as (ret & s' & E & Hr & Hu & _).
  exists s'. simpl in Hr. rewrite <- Hr. split; [exact E|exact Hu].
Defined.

(** 60 frames would need a clock of 30.7 MHz; the nearest one is 32 MHz. *)
Lemma frame_rate_bounds_witness : ∃ s', dispc_check_new_clk 192000000 60 SPRDFB_FORCE_FPS booted = Ret (0, 32000000) s'.
Proof.
  assert (Hp : panel (dev booted) = Some (with_reset (Some panel_reset_dispc_op) a1000_panel)) by (vm_compute; reflexivity).
  assert (Hd : is_dpi booted = true) by (vm_compute; reflexivity).
  pose proof (frame_rate_bounds booted _ 192000000 60 SPRDFB_FORCE_FPS 620 826 Hp Hd eq_refl eq_refl (or_introl eq_refl)
    ltac:(split; done) eq_refl) as Hw.
  clear Hp Hd. revert Hw. generalize booted. intros s Hw.
  destruct (wp_run _ _ _ Hw) as ([ret pclk] & s' & E & Hr). exists s'.
  simpl in Hr. destruct Hr as (-> & _ & div & Hdiv & -> & Hnear & _).
  replace (192000000 / div) with 32000000 in E; [exact E|]. replace div with 6 by lia. reflexivity.
Defined.

(** * The display shim over the driver *)

From S2P Require Import ShimPixels Shim ShimSafe ShimSpec ShimBoard.

Record phone : Type := mk_phone { ph_now : Z; ph_next_fd : Z; ph_chip : machine; ph_memory : list Z }.

Definition FRAME : Z := 1536000.
Definition the_clock (p : phone) : Z := Z.min (Z.max 0 (ph_now p)) (2 ^ 31 * 10 ^ 9 - 1).
Definition later (d : Z) (p : phone) : phone := mk_phone (ph_now p + d) (ph_next_fd p) (ph_chip p) (ph_memory p).
Definition mapped (len : Z) (b : list Z) : list Z :=
  (λ x, x mod 2 ^ 8) <$> take (Z.to_nat len) (b ++ replicate (Z.to_nat len) 0).
Definition phone_ioctl (request : Z) (arg : ioctl_arg) (p : phone) : (Z * Z * ioctl_arg) * phone :=
  match arg with
  | AVar _ => ((0, 0, AVar (mk_var 480 800 480 2400 0 0 32 0 26041)), p)
  | AIon fd _ _ => ((0, 0, AIon fd 0xa0143000 FRAME), p)
  | AWord w =>
      if request =? PAGEFLIP then
        match sprdfb_ioctl SPRD_FB_PAGEFLIP (mk_user None None (Some w)) (ph_chip p) with
        | Ret ret m => ((syscall_rc ret, - ret, AWord w), mk_phone (ph_now p) (ph_next_fd p) m (ph_memory p))
        | _ => ((-1, 0, AWord w), p)
        end
      else ((0, 0, AWord w), later 16667000 p)
  | _ => ((0, 0, arg), p)
  end.
#[export] Instance phone_system : System phone := λ A e p,
  match e in sys A return A * phone with
  | SIoctl fd request arg => phone_ioctl request arg p
  | SOpen path => ((if streq path "/dev/graphics/fb0" then 7 else if streq path "/dev/ion" then 8 else -1), p)
  | SClose _ => (tt, p)
  | SDup _ => (ph_next_fd p, mk_phone (ph_now p) (ph_next_fd p + 1) (ph_chip p) (ph_memory p))
  | SExists _ => (false, p)
  | SReadFile _ => ("", p)
  | SProperty key default => (if streq key "debug.sf.a1000_zerocopy" then "1" else default, p)
  | SClock => ((the_clock p / 10 ^ 9, the_clock p mod 10 ^ 9), p)
  | SLock _ _ => (0, p)
  | SUnlock _ _ => (tt, p)
  | SVendorPost _ _ _ => (([], 0), p)
  | SVendorOpen _ _ _ => (([], 0, Some (0x500, 1)), p)
  | SDlsymNext _ => (true, p)
  | SDlsymDefault => (Some true, p)
  | SGetModule _ => ((0, Some (0x400, Some 2)), p)
  | SMprotect _ => (0, p)
  | SMmap _ _ => (true, p)
  | SLoad _ len => (mapped len (ph_memory p), p)
  | SStore _ b => (tt, mk_phone (ph_now p) (ph_next_fd p) (ph_chip p) b)
  | SMunmap _ => (tt, p)
  | SIonSync _ _ => (0, p)
  | SIonShare _ _ => ((0, 9), p)
  | SCompositionComplete _ => (0, p)
  end.

Lemma phone_ioctl_now request arg p : 
  ph_now p <= ph_now (snd (phone_ioctl request arg p)) <= ph_now p + 16667000.
Proof.
  destruct arg; simpl; try lia. destruct (_ =? _); [|simpl; lia].
  destruct (sprdfb_ioctl _ _ _); simpl; lia.
Qed.

#[export] Instance phone_ok : SystemOk phone FRAME (λ _, True).
Proof.
  refine {| now := the_clock |}.
  - intros w. unfold the_clock. lia.
  - done.
  - intros A e w. unfold the_clock. destruct e; cbn [do_sys phone_system snd cost ph_now]; try lia.
    pose proof (phone_ioctl_now request arg w). unfold do_sys, phone_system. lia.
  - intros fd request arg w. destruct arg; try done. unfold do_sys, phone_system, phone_ioctl.
    destruct (_ =? _); [|done]. by destruct (sprdfb_ioctl _ _ _).
  - intros fd v w rc e v' [= <- <- <-] _. by split_and!.
  - intros fd ion w rc e fd' phys size _ [= <- <- <- <- <-] _. done.
  - intros. apply Forall_nil_2.
  - intros. apply Forall_nil_2.
  - done.
Defined.

Lemma mapped_same b len : length b = Z.to_nat len → is_bytes b → mapped len b = b.
Proof.
  intros Hl Hb. unfold mapped. rewrite take_app_le, take_ge by lia.
  clear Hl. induction Hb as [|x b Hx Hb IH]; [done|]. cbn. rewrite IH. f_equal. by apply Z.mod_small.
Qed.
#[export] Instance phone_memory fd len : Memory (W := phone) fd len.
Proof.
  refine {| content p := mapped len (ph_memory p) |}.
  - intros p. unfold mapped. rewrite length_fmap, length_take, length_app, length_replicate. lia.
  - intros p. apply Forall_fmap, Forall_true. intros x. by apply Z.mod_pos_bound.
  - done.
  - intros p b Hl Hb. by apply mapped_same.
Defined.
#[export] Instance phone_board : Board phone 7.
Proof.
  refine {| chip := ph_chip |}.
  - done.
  - intros A e p He. destruct e; try discriminate He; apply irq_frame_refl.
  - intros p w ret m E. unfold do_sys, phone_system, phone_ioctl. rewrite Z.eqb_refl. by rewrite E.
Defined.

Definition phone_on : phone := mk_phone 0 20 booted (replicate 68 7).

(** ** A day of the library *)

(** The module is loaded, its frame buffer is opened, a frame is posted, the size of the
    screen is asked for, and a buffer is registered. *)
Definition buffer : handle := mk_handle 1 [30].
Definition startup : list entry :=
  [ EGetModule (Some "gralloc"); EOpen 0x400 (Some "fb0"); EPost 0x500 (Some buffer);
    EIoctl 7 FBIOGET_VSCREENINFO (AVar no_var); EGetPhys 30; EInvalidate 8 30 ].
Lemma startup_ok : Forall (entry_ok (F := FRAME) (frames := λ _, True)) startup.
Proof. unfold startup. rewrite !Forall_cons, Forall_nil. split_and!; try done. apply arg_ok_var. Qed.

Lemma shim_safe_witness : ∃ s', enter_all startup (loaded phone_on) = Ret tt s' ∧ length (g_phys (col s')) = PHYSMAP.
Proof.
  destruct (shim_safe phone_on startup) as [He Hu]. specialize (Hu FRAME (λ _, True) _ startup_ok).
  destruct (enter_all startup (loaded phone_on)) as [[] s'| | |]; [|done..]. exists s'. split; [reflexivity|apply He].
Defined.

Lemma startup_run : ∃ s', enter_all startup (loaded phone_on) = Ret tt s' ∧ ok (F := FRAME) s' ∧
  devices s' !! 0x500 = Some a1000_overlay_post_fn.
Proof.
  destruct (wp_run _ _ _ (kept_entries (F := FRAME) startup (loaded phone_on) startup_ok (loaded_ok phone_on)))
    as ([] & s' & E & Hs & _).
  exists s'. split; [done|]. split; [done|].
  assert (Hd : match enter_all startup (loaded phone_on) with
    | Ret _ s => bool_decide (devices s !! 0x500 = Some a1000_overlay_post_fn) | _ => false end = true) by (vm_compute; reflexivity).
  rewrite E in Hd. by apply bool_decide_eq_true in Hd.
Qed.

(** The next post shows the buffer by a layer. *)
Definition layer_shown : list showing :=
  [ Accepted 7 SET_OVERLAY (AInfo (mk_info LAYER_OSD FORMAT_RGB888 0 0 false (mk_rect 0 0 480 800) 0xa0143000));
    Accepted 7 DISPLAY_OVERLAY (ADisplay (mk_display LAYER_OSD (mk_rect 0 0 480 800) 0)) ].
Lemma next_post : match enter_all startup (loaded phone_on) with
  | Ret _ s => match run_post deep a1000_overlay_post_fn 0x500 (Some buffer) s with
    | Ret _ s' => showings (drop (length (trace s)) (trace s')) | _ => [] end
  | _ => [] end = layer_shown.
Proof. vm_compute. reflexivity. Qed.

Lemma post_shows_once_witness : ∃ s rc s', run_post deep a1000_overlay_post_fn 0x500 (Some buffer) s = Ret rc s' ∧
  posted 0x500 (Some buffer) s s' rc ∧
  showings (drop (length (trace s)) (trace s')) = layer_shown.
Proof.
  destruct startup_run as (s & E0 & Hs & Hd).
  destruct (wp_run _ _ _ (post_shows_once 0x500 (Some buffer) s Hs Hd)) as (rc & s' & E & H). exists s, rc, s'.
  split; [exact E|]. split; [exact H|]. pose proof next_post as Hn. rewrite E0, E in Hn. exact Hn.
Defined.

Lemma ioctl_terminates_witness : ∃ r, ∀ n, ∃ s', ioctl (S (S n)) 7 FBIOGET_VSCREENINFO (AVar no_var) (loaded phone_on) = Ret r s'.
Proof.
  destruct (ioctl_terminates 7 FBIOGET_VSCREENINFO (AVar no_var) (loaded phone_on) (loaded_ok phone_on) (arg_ok_var no_var))
    as (r & s' & _ & H).
  exists r. intros n. exists s'. apply H.
Defined.

(** 60 frames of 480 by 800 pixels. *)
Definition measured : shim phone := set_zp (set_truefps 1 (set_period 16666667 fbpost_loaded)) (loaded phone_on).
Definition screen : fb_var_screeninfo := mk_var 480 800 480 2400 0 0 32 0 26041.
Lemma fix_vsync_period_exact_witness :
  a1000_fix_vsync_period (ioctl 2) 7 FBIOGET_VSCREENINFO (AVar screen) measured = Ret (AVar (with_pixclock 43402 screen)) measured.
Proof.
  destruct (fix_vsync_period_exact (ioctl 2) 7 FBIOGET_VSCREENINFO screen measured eq_refl
    ltac:(split; reflexivity) ltac:(split; discriminate) ltac:(split; discriminate)
    ltac:(right; right; discriminate)) as [H _].
  exact H.
Defined.

(** Twenty buffers are registered, more than the table can hold. *)
Definition twenty : list (Z * Z * Z) := (λ n, (Z.of_nat n * 0x1000, 30 + Z.of_nat n, FRAME)) <$> seq 1 20.
Lemma buffers_accounted_witness : ∃ s', record_all twenty (loaded phone_on) = Ret tt s' ∧ length (g_phys (col s')) = 16%nat.
Proof.
  assert (Ht : table_ok (col (loaded phone_on))).
  { split; [reflexivity|]. split; [cbn; unfold PHYSMAP; lia|]. apply Forall_replicate. done. }
  assert (Hl : Forall (λ r, in_width 32 (fst (fst r))) twenty) by (apply (bool_decide_unpack _); vm_compute; reflexivity).
  destruct (wp_run _ _ _ (buffers_accounted twenty (loaded phone_on) Ht Hl)) as ([] & s' & E & Hlen & _).
  exists s'. split; [exact E|exact Hlen].
Defined.

(** ** Pixels *)

Definition seventeen : list Z := (λ n, Z.of_nat n mod 256) <$> seq 0 70.
Lemma process_exact_witness : snd (process seventeen 17 true) = rotate_pixels 17 seventeen ∧
  nth 64 (rotate_pixels 17 seventeen) 0 = 65.
Proof.
  destruct (process_exact seventeen 17 ltac:(apply (bool_decide_unpack _); vm_compute; reflexivity)
    ltac:(vm_compute; lia)) as (_ & H & _).
  rewrite H. split; [reflexivity|]. vm_compute. reflexivity.
Defined.

Lemma rotated_once_witness : ∃ s1 s2, rotate_once 30 68 17 (loaded phone_on) = Ret true s1 ∧
  rotate_once 30 68 17 s1 = Ret false s2.
Proof.
  assert (Hh : negb (hash_left 30 (col (loaded phone_on)) =? hash_of 17 (content (fd := 30) (len := page_up 68) phone_on)) = true)
    by (vm_compute; reflexivity).
  destruct (wp_run _ _ _ (rotated_once 30 68 17 (loaded phone_on) ltac:(lia) ltac:(vm_compute; discriminate)
    eq_refl ltac:(cbn; unfold FDMAP; lia))) as (r & s1 & E1 & Hr & _ & Hw).
  destruct (wp_run _ _ _ Hw) as (r' & s2 & E2 & Hr' & _). exists s1, s2. rewrite E1, E2, Hr, Hr'.
  change (world (loaded phone_on)) with phone_on. rewrite Hh. split; reflexivity.
Defined.

(** ** Down to the panel *)

Definition phone_overlay : phone := mk_phone 0 20 with_overlay (replicate 68 7).
Definition flipping : shim phone := set_zp (set_g_fbfd 7 (set_g_zc_flip true fbpost_loaded)) (loaded phone_overlay).
Lemma flipping_ok : ok (F := FRAME) flipping.
Proof. destruct (loaded_ok (F := FRAME) (frames := λ _, True) phone_overlay). by split. Qed.
Lemma with_overlay_flips : can_flip with_overlay.
Proof. split; [split; [vm_compute; reflexivity..|eexists; vm_compute; reflexivity]|vm_compute; reflexivity..]. Qed.
Lemma flip_reaches_panel_witness : ∃ s', flip_frame (ioctl 3) 0xa0143000 flipping = Ret true s' ∧
  regs (hw (chip_of (fbfd := 7) s')) DISPC_OSD_BASE_ADDR = 0xa0143000.
Proof.
  assert (Hp : in_width 32 0xa0143000) by done.
  pose proof (flip_reaches_panel (fbfd := 7) 2 0xa0143000 flipping flipping_ok with_overlay_flips eq_refl Hp ltac:(discriminate)) as Hw.
  assert (Hb : match flip_frame (ioctl 3) 0xa0143000 flipping with Ret b _ => b | _ => false end = true) by (vm_compute; reflexivity).
  destruct (wp_run _ _ _ Hw) as (b & s' & E & H). rewrite E in Hb. rewrite Hb in E, H. exists s'. split; [exact E|].
  destruct (H eq_refl) as (m & _ & _ & _ & _ & [Hr _] & _). exact Hr.
Defined.
